(* ===== verification/_CoqProject ===== *)
-Q . S2P
Prelude.v
NNList.v
NNQueue.v
NNFamily.v
Hash.v
Wire.v
Chunk.v
Base64.v
Timer.v
Timerset.v
Backoff.v
Priolist.v
Pipe.v
Msgqueue.v
Sinproc.v
Ctx.v
Usock.v
Streamhdr.v
Stcp.v
Streams.v
Utf8.v
Sha1.v
Cmsg.v
Wsparse.v
Addr.v
Dns.v
Wshandshake.v
Sws.v
Wsframes.v
Wsreceive.v
Wsstreams.v
Wsexamples.v
Sock.v
Ep.v
Connect.v
Accept.v
Bind.v
Bindsafe.v
Endpoints.v
Endexamples.v
Message.v
Options.v
Life.v
Lifesafe.v
Table.v
Poller.v
Epoll.v
Pollset.v
Worker.v
Msg.v
Poll.v
Ins.v
Balance.v
Members.v
Dist.v
Pipeline.v
Blocking.v
Pair.v
Bus.v
Trie.v
TrieSpec.v
TrieRefines.v
Pubsub.v
Reqrep.v
Req.v
Survey.v
Double.v
Sample.v
Sampling.v
Counting.v
Monitor.v
MonitorSafe.v
Accounting.v
Session.v
