(* ===== verification/Prelude.v ===== *)
(** * Verification of riff

    riff lets a monitor learn how fast a running application computes.  The
    application calls [begin] and [end] around its tasks ([Application] in
    src/include/riff/riff.hpp and src/src/riff.cpp); a support thread of the
    library answers the requests of the [Monitor] over a nanomsg PAIR socket.
    The repository bundles nanomsg (src/src/external/nanomsg, "NN" below): its
    containers, its sockets and its protocols carry the messages.  This
    library models both, function by function, and proves them correct.

    ** The parts

    riff itself:
    - [Double]: the IEEE doubles of the library (the Standard Library's
      [SpecFloat]); integers below 2^53 are exact, quotients are near the exact ones.
    - [Sample]: [ApplicationSample] and its operators.
    - [Sampling]: [Application]: one definition per method ([begin_], [end_],
      [storeCustomValue], [terminate_sums], ...), the body of [begin] cut into the
      steps its comments name; [ThreadData] is a record with the fields of the
      struct, 64-bit integers are [Z] with [u64] at every operation that can
      wrap, [throw] is the result [Err (Thrown _)].  The clock is an argument.
    - [Counting]: no task is lost by the sampling; without sampling the doubles
      equal an integer reference; a requested sample is stored within a period;
      the totals are exact.
    - [Monitor]: [applicationSupportThread], [waitStart], [getSample], the
      handshake of [terminate], and the [system] they make: one executable step
      per actor ([exec]), blocking calls being steps that are not enabled, two
      FIFO lists for the directions of the channel.  [step] and [reachable]
      are its interleavings.
    - [MonitorSafe], [Accounting], [Session]: the invariants of that system by
      induction on its steps (what is on the channel at each stage, who may
      fail, where each task is), what a response carries, concrete sessions,
      and the corner cases recorded as findings.

    nanomsg, bottom up:
    - [NNList] (NN/utils/list.c) and [NNQueue] (queue.c): intrusive lists and
      queues, their items in a shared store; the class [ListOps] with its laws
      [ListSpec] is what the components below are built on; [NNFamily] is the
      theory of arrays of such lists; [Hash] (hash.c) refines a finite map;
      [Wire] (wire.c) is big-endian integers on bounded buffers.
    - [Chunk] (utils/chunk.c, chunkref.c): message memory, reference counts and
      the references messages are made of, on a heap of blocks; [Base64]
      (transports/utils/base64.c).
    - [Timer] (aio/fsm.c, timer.c): the class [Machine] of two-handler state
      machines and the timer as one of them; [Timerset] (aio/timerset.c): the
      timeouts of a worker; [Backoff] (transports/utils/backoff.c): the retry
      intervals of an endpoint.
    - [Priolist] (protocols/utils/priolist.c): sixteen levels of round robin;
      [Balance] and [Members] (fq.c, lb.c), [Dist] (dist.c, excl.c): the four
      ways a socket type uses its pipes.
    - [Pipe] (core/pipe.c): the pipe between a protocol and a transport, the
      transport being the class [Transport] with its laws [TransportSpec];
      [Msgqueue] (transports/inproc/msgqueue.c), the queue of an in-process
      connection, and [Sinproc] (sinproc.c), such a connection with both its
      ends and the events between them;
    - [Ctx] (aio/ctx.c) and [Usock] (aio/usock_posix.inc): the context of a
      connection and the socket of the operating system, the kernel's answers
      being arguments; [Streamhdr] (transports/utils/streamhdr.c) and [Stcp]
      (transports/tcp/stcp.c, transports/ipc/sipc.c): the header exchange and
      the session over such a socket, the two transports differing by the class
      [Framing]; [Streams] connects two sessions by byte streams;
    - WebSocket (transports/ws): [Sha1] (sha1.c); [Wsparse] and [Wshandshake]
      (ws_handshake.c), the texts of the opening handshake with their parsers
      and its state machine; [Utf8] and [Sws] (sws.c), the validation of texts
      and the session; [Cmsg] (core/global.c), the properties its opcodes are
      passed in.  [Wsframes] is RFC 6455 as data, and [Wsreceive] and
      [Wsstreams] prove a session correct against any peer that keeps to it;
    - [Sock] (core/sock.c, sockbase.c): the generic socket over the class
      [SockProto], with [SockSpec] the contract of a protocol and
      [sock_run_until] the theorem that it makes every session safe, up to a
      receive that the contract does not cover ([sk_takes]): REQ may use a reply
      that was terminated, SUB may read beyond a message.
    - [Pipeline], [Pair], [Bus], [Trie] with [TrieSpec] and [TrieRefines],
      [Pubsub], [Reqrep], [Req], [Survey]: the scalability protocols, each an
      instance of [SockSpec], with what its messages do.
    - Endpoints: [Addr] (transports/utils: dns.c, iface.c, literal.c, port.c, and
      the addresses of the endpoints) and [Dns] (dns_getaddrinfo.inc);
      [Ep] (core/ep.c, epbase.c), the endpoint between a socket and its
      transport; [Connect] and [Accept], [Bind] (ctcp.c, atcp.c, btcp.c and their
      kin in transports/ipc and ws), the machines that connect, accept and
      listen, generic in the session; [Bindsafe], [Endpoints] and
      [Endexamples], what follows; [Ins] (inproc/ins.c, binproc.c, cinproc.c), the
      names of in-process endpoints.
    - The C API: [Message] (nn_sendmsg and nn_recvmsg of core/global.c, and
      devices/device.c) over a class of descriptors; [Options] (core/sock.c and
      the option sets of tcp.c, ipc.c, ws.c); [Life] and [Lifesafe] (sock.c), a
      socket from [nn_sock_init] to [nn_sock_term], its endpoints being the
      class [Environment]; [Table] (global.c), the descriptors of all sockets,
      nn_socket, nn_close, nn_bind and the others; [Blocking] (sock.c, utils/efd.c),
      the calls that wait; [Poll] (core/poll.c); [Msg] (utils/msg.c), which shows
      why the other files may take messages as values.
    - Workers: [Poller] (aio/poller.h), the contract of a poller as a class with
      an abstract poller; [Epoll] (poller_epoll.inc) and [Pollset]
      (poller_poll.inc), its implementations; [Worker] (worker_posix.inc), the thread
      over any of them.

    ** What the theorems show

    Refinements: the list, queue, hash table, priority list, timer and trie
    implement a sequence, a FIFO, a map, a priority round robin, a timer and a
    bag of strings; references to chunks behave as values, a message queue as a
    FIFO queue, a set of timeouts as a sorted queue, messages that share chunks
    as values, the poller over [poll] with its list of removed entries as the
    abstract poller, two sessions over the byte streams of the kernel as two FIFO
    queues of messages, and a WebSocket session hands out exactly the messages
    the peer's frames stand for.  The encodings are those of their standards:
    SHA-1 of FIPS 180-4, Base64 of RFC 4648, UTF-8 of RFC 3629; the
    addresses a connecting endpoint accepts are those of a grammar; what is gathered is
    scattered again, and an option reads back as it was set.

    Safety: for each protocol, every session of transports and user calls runs
    without an assertion, an invalid access or an overflow and keeps the
    protocol's invariant (for REQ and SUB, up to the receives just named); a bound endpoint accepts until it is stopped; the
    descriptors of the library are exclusive, and free again after nn_close,
    whose wait comes to an end; a worker executes every queued task; a call
    that waits ends by its deadline and not before; for riff, every
    interleaving keeps the protocol of the channel and counts each task once.
    Functional theorems give the result of the main operations, liveness
    theorems bound the steps until an answer, and the findings are stated as
    examples or theorems about the code as it is.

    ** Errors, fuel and bounds

    A C or C++ function that can abort, misuse memory or throw returns a
    [result] ([Ok], or [Err] with the reason); error numbers are ordinary
    values.  Loops that are not structural have fuel: the number of items of
    the store plus one (lists, queues, hash tables), the length of the string
    plus one (trie), the number of messages waiting plus one (receiving loops
    of SUB, REQ and SURVEYOR), the bytes that have arrived plus two (events of a
    WebSocket session), the number of entries (removing from [Pollset]); loops
    that end when the kernel or another thread says so ([Worker], [Blocking])
    are steps or take what is said as a list; each fuel is proved to be enough where it is used, so
    no theorem holds by running out of fuel.  The theorems on riff assume a
    clock below 2^53 ns, fewer than 2^53 tasks, weight 1 and a sampling length
    up to 2^40 ms; the examples of [Session] show what other weights do.

    ** Not modelled

    Other operating systems: Windows, kqueue, and the asynchronous resolver of
    glibc, which is not built by default.  The portability layer of NN/utils
    (mutex, condvar, sem, sleep, thread, alloc, err, random) wraps system
    calls; core/symbol.c is a table of names; the tests, tools and demos use
    the library.  The manifest lists each with its reason.  System calls are
    arguments of the definitions that make them: the kernel's answers, the
    clock, [getaddrinfo] and [inet_pton].  The change of owner of a state
    machine appears in [Usock] and the sessions that do it, not as a function
    of its own, and the external events of a context where they are used, in
    [Sinproc] and [Ins].  In riff, the constructors' use of sockets and threads
    is the environment, and the stream operators are text formatting.  Data
    races are out of scope: each step of an actor is atomic, which the flag
    [consolidate] makes true of the sample it protects, and the lock of a
    context of the machines in it. *)

From stdpp Require Export base tactics option numbers list gmap.

(** ** Results

    Every C function that can abort the process (through [nn_assert],
    [alloc_assert], [errno_assert], [errnum_assert]) or dereference an
    invalid pointer returns a [result]: [Ok v] when it returns [v], [Err f]
    when it does not return normally, [f] saying why.  Error codes such as
    [-EAGAIN] are ordinary return values, not faults. *)

(** What riff throws: [std::out_of_range] by [std::vector::at], or a
    [std::runtime_error], one constructor per [throw]. *)
Inductive exception : Set :=
  | OutOfRange             (** [at()] beyond the end of a vector *)
  | NoTasksStored          (** "updateSamplingLength called with no tasks stored ..." *)
  | FatalInconsistency     (** "FATAL ERROR: it is not possible to have inconsistency ..." *)
  | WrongThreadId          (** "Wrong threadId specified ..." *)
  | CustomIndexOutOfBound  (** "Custom value index out of bound ..." *)
  | FatalNotStopped        (** "FATAL ERROR: !_supportStop" *)
  | UnexpectedMessageType. (** "Unexpected message type." *)

Inductive fault : Set :=
  | AssertFailed    (** an [nn_assert] (or one of its variants) aborts *)
  | BadAccess       (** a read or write outside a live object, or through NULL *)
  | IntOverflow     (** a signed overflow or an out-of-range conversion, undefined in C and C++ *)
  | Thrown (e : exception)  (** a C++ exception *)
  | NoFuel.         (** the fuel of a bounded loop was exhausted (never for enough fuel) *)

Inductive result (A : Type) : Type :=
  | Ok (a : A)
  | Err (f : fault).
Arguments Ok {_} _.
Arguments Err {_} _.

#[export] Instance exception_eq_dec : EqDecision exception.
Proof. solve_decision. Defined.
#[export] Instance fault_eq_dec : EqDecision fault.
Proof. solve_decision. Defined.
#[export] Instance result_eq_dec `{EqDecision A} : EqDecision (result A).
Proof. unfold EqDecision, Decision. decide equality; apply (decide (_ = _)). Defined.

#[export] Instance result_ret : MRet result := fun A x => Ok x.
#[export] Instance result_bind : MBind result := fun A B f m =>
  match m with Ok a => f a | Err e => Err e end.
#[export] Instance result_fmap : FMap result := fun A B f m =>
  match m with Ok a => Ok (f a) | Err e => Err e end.

(** [nn_assert (b)]. *)
Definition assert_ (b : bool) : result unit := if b then Ok tt else Err AssertFailed.

(** Reading an object: a missing one is an invalid access. *)
Definition deref {A} (o : option A) : result A :=
  match o with Some a => Ok a | None => Err BadAccess end.

Definition is_Ok {A} (r : result A) : Prop := exists a, r = Ok a.

Lemma bind_Ok {A B} (m : result A) (f : A -> result B) b :
  m ≫= f = Ok b <-> exists a, m = Ok a /\ f a = Ok b.
Proof. destruct m; cbn; naive_solver. Qed.

Lemma bind_Ok_l {A B} (a : A) (f : A -> result B) : (Ok a ≫= f) = f a.
Proof. reflexivity. Qed.

Lemma assert_Ok b : assert_ b = Ok tt <-> b = true.
Proof. destruct b; cbn; naive_solver. Qed.

Lemma deref_Some {A} (o : option A) a : deref o = Ok a <-> o = Some a.
Proof. destruct o; cbn; naive_solver. Qed.

(** ** Error numbers (the values of the Linux [errno.h]; [EFSM] is nanomsg's own) *)

Local Open Scope Z_scope.

Definition EAGAIN : Z := 11.
Definition ENOMEM : Z := 12.
Definition ENODEV : Z := 19.
Definition EINVAL : Z := 22.
Definition ENOPROTOOPT : Z := 92.
Definition ENOBUFS : Z := 105.
Definition EISCONN : Z := 106.
Definition ETIMEDOUT : Z := 110.

(** ** Machine integers

    A [w]-bit unsigned integer is a [Z] in [0, 2^w); arithmetic on it is
    arithmetic on [Z] followed by [wrap w]. *)

Definition wrap (w x : Z) : Z := x mod 2 ^ w.
Abbreviation u8 := (wrap 8).
Abbreviation u16 := (wrap 16).
Abbreviation u32 := (wrap 32).
Abbreviation u64 := (wrap 64).

Definition INT_MAX : Z := 2 ^ 31 - 1.

Definition in_range (w x : Z) : Prop := 0 <= x < 2 ^ w.

Lemma wrap_range w x : 0 <= w -> in_range w (wrap w x).
Proof. intros. apply Z.mod_pos_bound. lia. Qed.

Lemma wrap_small w x : in_range w x -> wrap w x = x.
Proof. apply Z.mod_small. Qed.

Lemma wrap_idem w x : wrap w (wrap w x) = wrap w x.
Proof. apply Zmod_mod. Qed.

(** Disjoint [|] is addition. *)
Lemma lor_add a b n : 0 <= n -> 0 <= b < 2 ^ n -> Z.lor (Z.shiftl a n) b = a * 2 ^ n + b.
Proof.
  intros Hn Hb. rewrite <- Z.shiftl_mul_pow2 by lia. rewrite Z.add_nocarry_lxor.
  - symmetry. apply Z.lxor_lor. apply Z.bits_inj'. intros i Hi.
    rewrite Z.land_spec, Z.bits_0. destruct (decide (i < n)).
    + rewrite Z.shiftl_spec_low by lia. done.
    + rewrite andb_comm, <- (Z.mod_small b (2 ^ n)), Z.mod_pow2_bits_high; [done|lia|lia].
  - apply Z.bits_inj'. intros i Hi.
    rewrite Z.land_spec, Z.bits_0. destruct (decide (i < n)).
    + rewrite Z.shiftl_spec_low by lia. done.
    + rewrite andb_comm, <- (Z.mod_small b (2 ^ n)), Z.mod_pow2_bits_high; [done|lia|lia].
Qed.


(** The result of an operation on [int]: out of its range it is undefined. *)
Definition int_ (z : Z) : result Z :=
  if bool_decide (- 2 ^ 31 <= z < 2 ^ 31) then Ok z else Err IntOverflow.

Lemma int_ok z : - 2 ^ 31 <= z < 2 ^ 31 -> int_ z = Ok z.
Proof. intros. unfold int_. by rewrite bool_decide_true. Qed.

(** The conversion of an unsigned integer to [int]. *)
Definition to_int (z : Z) : Z := let z := u32 z in if bool_decide (z < 2 ^ 31) then z else z - 2 ^ 32.

Lemma to_int_small z : - 2 ^ 31 <= z < 2 ^ 31 -> to_int (u64 z) = z.
Proof.
  intros Hz. unfold to_int, wrap. rewrite Z.mod_mod_divide by (by exists (2 ^ 32)).
  destruct (decide (0 <= z)) as [Hp|Hn].
  - rewrite Z.mod_small by lia. by rewrite bool_decide_true by lia.
  - replace (z mod 2 ^ 32) with (z + 2 ^ 32); [rewrite bool_decide_false by lia; lia|].
    rewrite <- (Z.mod_small (z + 2 ^ 32) (2 ^ 32)) by lia. rewrite <- (Z.mod_add z 1 (2 ^ 32)) by lia; first [done|f_equal; lia].
Qed.

Lemma to_int_nonneg z : 0 <= z < 2 ^ 31 -> to_int z = z.
Proof. intros Hz. unfold to_int. rewrite wrap_small by (unfold in_range; lia). by rewrite bool_decide_true by lia. Qed.

(** ** Lists *)

Section Lists.
  Context {A : Type} `{EqDecision A}.
  Implicit Types (x : A) (xs l : list A).

Lemma filter_ne_notin x xs : x ∉ xs -> filter (fun y => y <> x) xs = xs.
Proof.
  induction xs as [|z xs IH]; intros Hx; [done|]. rewrite filter_cons_True by set_solver.
  f_equal. apply IH. set_solver.
Qed.

Lemma filter_ne_split x l1 l2 :
  NoDup (l1 ++ x :: l2) -> filter (fun y => y <> x) (l1 ++ x :: l2) = l1 ++ l2.
Proof.
  intros (_ & H12 & [Hx _]%NoDup_cons)%NoDup_app.
  rewrite filter_app, filter_cons_False by naive_solver.
  rewrite !filter_ne_notin; [done|done|]. intros Hin. apply (H12 x); set_solver.
Qed.

End Lists.

(** ** Finite checks *)

Definition below (n : Z) : list Z := Z.of_nat <$> seq 0 (Z.to_nat n).

Lemma below_spec (n : Z) (P : Z -> Prop) `{forall x, Decision (P x)} :
  forallb (fun d => bool_decide (P d)) (below n) = true -> forall d, 0 <= d < n -> P d.
Proof.
  intros HP d Hd. rewrite forallb_forall in HP. specialize (HP d). apply bool_decide_eq_true in HP; [done|].
  apply in_map_iff. exists (Z.to_nat d). split; [lia|]. apply in_seq. lia.
Qed.

(** ** The two ends of a connection *)

Inductive side := SideA | SideB.
#[export] Instance side_eq_dec : EqDecision side.
Proof. solve_decision. Defined.

Definition other (x : side) : side := match x with SideA => SideB | SideB => SideA end.

(** A field of both sides. *)
Definition upd {X} (x : side) (v : X) (f : side -> X) : side -> X := fun y => if bool_decide (y = x) then v else f y.

Lemma other_other x : other (other x) = x.
Proof. by destruct x. Qed.
Lemma other_ne x : other x <> x.
Proof. by destruct x. Qed.
Lemma both_sides (P : side -> Prop) x : P x -> P (other x) -> forall y, P y.
Proof. intros H1 H2 y. by destruct x, y. Qed.

Lemma upd_eq {X} x (v : X) f : upd x v f x = v.
Proof. unfold upd. by rewrite bool_decide_true. Qed.
Lemma upd_ne {X} x y (v : X) f : y <> x -> upd x v f y = f y.
Proof. intros. unfold upd. by rewrite bool_decide_false. Qed.

(** ** Proof automation *)

(** Runs the monadic prefix of a goal. *)
Ltac mred := cbn [mbind result_bind mret result_ret fmap result_fmap assert_ deref negb andb orb].
Tactic Notation "mred" "in" hyp(H) :=
  cbn [mbind result_bind mret result_ret fmap result_fmap assert_ deref negb andb orb] in H.

(** Evaluates the [bool_decide]s that [tac] can settle. *)
Ltac decide_bools_by tac :=
  repeat match goal with
    | |- context [bool_decide ?P] =>
        first [ rewrite (bool_decide_eq_true_2 P) by tac
              | rewrite (bool_decide_eq_false_2 P) by tac ]
    end.
Ltac decide_bools := decide_bools_by ltac:(first [done | congruence | lia]).

(** Case analysis on a decidable proposition the goal decides. *)
Tactic Notation "cases" constr(P) "as" ident(H) :=
  destruct (decide P) as [H|H]; [rewrite ?(bool_decide_eq_true_2 P H)|rewrite ?(bool_decide_eq_false_2 P H)].

(** Inverts the successful runs among the hypotheses. *)
Ltac inv_ok :=
  repeat match goal with
    | H : Ok _ = Ok _ |- _ => injection H as H; subst
    | H : Err _ = Ok _ |- _ => discriminate H
    | H : Ok _ = Err _ |- _ => discriminate H
    | H : (_ ≫= _) = Ok _ |- _ => apply bind_Ok in H as (? & ? & H)
    | H : assert_ _ = Ok ?u |- _ => destruct u; apply assert_Ok in H
    | H : deref _ = Ok _ |- _ => apply deref_Some in H
    | H : bool_decide _ = true |- _ => apply bool_decide_eq_true in H
    | H : bool_decide _ = false |- _ => apply bool_decide_eq_false in H
    end.
