(* ===== verification/NNList.v ===== *)
(** * Intrusive doubly-linked lists ([utils/list.c])

    The C list links items through [next]/[prev] fields that live inside the
    items; an item that is in no list carries the distinguished pointer
    [NN_LIST_NOTINLIST] in both fields.  The model keeps the items in one
    store indexed by address, so that several lists share it as in the
    program, and states the pointer updates one by one.

    Then an interface, [ListOps]/[ListSpec], says what the lists promise to
    the components built on them (hash tables, priority lists, distributors,
    timer sets); [NNList] is proved to implement it. *)

From S2P Require Import Prelude.

Abbreviation addr := positive.

(** ** Pointers, items and lists *)

Inductive ptr : Set :=
  | NULL
  | NN_LIST_NOTINLIST
  | At (a : addr).

#[export] Instance ptr_eq_dec : EqDecision ptr.
Proof. solve_decision. Defined.

Record nn_list_item := Item { it_next : ptr; it_prev : ptr }.
Record nn_list := List { lst_first : ptr; lst_last : ptr }.

(** The store of list items. *)
Abbreviation store := (gmap positive nn_list_item).

Definition get (h : store) (p : ptr) : result nn_list_item :=
  match p with At a => deref (h !! a) | _ => Err BadAccess end.

(** [p->next = v] and [p->prev = v]. *)
Definition set_next (h : store) (p v : ptr) : result store :=
  match p with
  | At a => it ← deref (h !! a); Ok (<[a := Item v (it_prev it)]> h)
  | _ => Err BadAccess
  end.
Definition set_prev (h : store) (p v : ptr) : result store :=
  match p with
  | At a => it ← deref (h !! a); Ok (<[a := Item (it_next it) v]> h)
  | _ => Err BadAccess
  end.

Definition is_null (p : ptr) : bool := bool_decide (p = NULL).

(** ** Operations *)

Definition nn_list_init : nn_list := List NULL NULL.

Definition nn_list_term (self : nn_list) : result unit :=
  _ ← assert_ (is_null (lst_first self));
  assert_ (is_null (lst_last self)).

Definition nn_list_empty (self : nn_list) : bool := is_null (lst_first self).

Definition nn_list_begin (self : nn_list) : ptr := lst_first self.

Definition nn_list_end (self : nn_list) : ptr := NULL.

Definition nn_list_prev (h : store) (self : nn_list) (it : ptr) : result ptr :=
  if is_null it then Ok (lst_last self)
  else
    i ← get h it;
    _ ← assert_ (bool_decide (it_prev i <> NN_LIST_NOTINLIST));
    Ok (it_prev i).

Definition nn_list_next (h : store) (it : ptr) : result ptr :=
  i ← get h it;
  _ ← assert_ (bool_decide (it_next i <> NN_LIST_NOTINLIST));
  Ok (it_next i).

Definition nn_list_item_isinlist (h : store) (item : ptr) : result bool :=
  i ← get h item;
  Ok (negb (bool_decide (it_prev i = NN_LIST_NOTINLIST))).

Definition nn_list_insert (h : store) (self : nn_list) (item it : ptr)
    : result (store * nn_list) :=
  b ← nn_list_item_isinlist h item;
  _ ← assert_ (negb b);
  p ← (if is_null it then Ok (lst_last self) else it_prev <$> get h it);
  h ← set_prev h item p;
  h ← set_next h item it;
  h ← (if is_null p then Ok h else set_next h p item);
  h ← (if is_null it then Ok h else set_prev h it item);
  let fst := if is_null (lst_first self) || bool_decide (lst_first self = it)
             then item else lst_first self in
  let lst := if is_null it then item else lst_last self in
  Ok (h, List fst lst).

Definition nn_list_erase (h : store) (self : nn_list) (item : ptr)
    : result (store * nn_list * ptr) :=
  b ← nn_list_item_isinlist h item;
  _ ← assert_ b;
  i ← get h item;
  '(h, fst) ← (if is_null (it_prev i) then Ok (h, it_next i)
               else h ← set_next h (it_prev i) (it_next i); Ok (h, lst_first self));
  i ← get h item;
  '(h, lst) ← (if is_null (it_next i) then Ok (h, it_prev i)
               else h ← set_prev h (it_next i) (it_prev i); Ok (h, lst_last self));
  i ← get h item;
  let nxt := it_next i in
  h ← set_prev h item NN_LIST_NOTINLIST;
  h ← set_next h item NN_LIST_NOTINLIST;
  Ok (h, List fst lst, nxt).

Definition nn_list_item_init (h : store) (a : addr) : store :=
  <[a := Item NN_LIST_NOTINLIST NN_LIST_NOTINLIST]> h.

Definition nn_list_item_term (h : store) (self : ptr) : result unit :=
  b ← nn_list_item_isinlist h self;
  assert_ (negb b).

#[global] Arguments nn_list_insert : simpl never.
#[global] Arguments nn_list_erase : simpl never.
#[global] Arguments nn_list_next : simpl never.

(** ** Representation

    [dseg h pp xs nn]: in [h], the items [xs] are linked in that order, the
    first one's [prev] is [pp] and the last one's [next] is [nn]. *)

Definition hd_or (nn : ptr) (xs : list addr) : ptr :=
  match xs with [] => nn | x :: _ => At x end.

Fixpoint last_or (pp : ptr) (xs : list addr) : ptr :=
  match xs with [] => pp | x :: xs => last_or (At x) xs end.

Fixpoint dseg (h : store) (pp : ptr) (xs : list addr) (nn : ptr) : Prop :=
  match xs with
  | [] => True
  | x :: xs => h !! x = Some (Item (hd_or nn xs) pp) /\ dseg h (At x) xs nn
  end.

Definition list_rep (h : store) (l : nn_list) (xs : list addr) : Prop :=
  NoDup xs /\ lst_first l = hd_or NULL xs /\ lst_last l = last_or NULL xs /\ dseg h NULL xs NULL.

(** An initialised item that is in no list. *)
Definition item_free (h : store) (x : addr) : Prop :=
  exists n, h !! x = Some (Item n NN_LIST_NOTINLIST).

(** The two stores hold the same items outside [xs]. *)
Definition agree_off (xs : list addr) (h h' : store) : Prop :=
  forall a, a ∉ xs -> h' !! a = h !! a.

Lemma hd_or_app nn xs ys : hd_or nn (xs ++ ys) = hd_or (hd_or nn ys) xs.
Proof. by destruct xs. Qed.

Lemma last_or_app pp xs ys : last_or pp (xs ++ ys) = last_or (last_or pp xs) ys.
Proof. revert pp; induction xs; naive_solver. Qed.

Lemma last_or_snoc pp xs x : last_or pp (xs ++ [x]) = At x.
Proof. by rewrite last_or_app. Qed.

Lemma dseg_app h pp xs ys nn :
  dseg h pp (xs ++ ys) nn <-> dseg h pp xs (hd_or nn ys) /\ dseg h (last_or pp xs) ys nn.
Proof.
  revert pp; induction xs as [|x xs IH]; intros pp; cbn; [naive_solver|].
  rewrite IH, hd_or_app. naive_solver.
Qed.

Lemma dseg_frame h h' pp xs nn :
  (forall x, x ∈ xs -> h' !! x = h !! x) -> dseg h pp xs nn -> dseg h' pp xs nn.
Proof.
  revert pp; induction xs as [|x xs IH]; intros pp Hf; cbn; [done|].
  rewrite Hf by set_solver. intros [? ?]; split; [done|]. apply IH; set_solver.
Qed.

Lemma dseg_insert_ne h pp xs nn a it : a ∉ xs -> dseg h pp xs nn -> dseg (<[a:=it]> h) pp xs nn.
Proof. intros Ha. apply dseg_frame. intros x Hx. rewrite lookup_insert_ne; set_solver. Qed.

Lemma last_or_cases pp xs : last_or pp xs = pp \/ exists x, x ∈ xs /\ last_or pp xs = At x.
Proof.
  destruct xs as [|x xs _] using rev_ind; [by left|]. right. exists x.
  rewrite last_or_snoc. set_solver.
Qed.

Lemma dseg_lookup h xs nn x :
  dseg h NULL xs nn -> x ∈ xs -> exists n p, h !! x = Some (Item n p) /\ p <> NN_LIST_NOTINLIST.
Proof.
  intros Hd (l1 & l2 & ->)%list_elem_of_split. apply dseg_app in Hd as [_ [Hx _]].
  eexists _, _; split; [exact Hx|]. destruct (last_or_cases NULL l1) as [->|(y & _ & ->)]; done.
Qed.

Lemma rep_not_free h l xs x : list_rep h l xs -> item_free h x -> x ∉ xs.
Proof.
  intros (_ & _ & _ & Hd) [n Hx] Hin. destruct (dseg_lookup _ _ _ _ Hd Hin) as (?&?&?&?).
  naive_solver.
Qed.

Lemma rep_frame xs h h' l ys :
  agree_off xs h h' -> ys ## xs -> list_rep h l ys -> list_rep h' l ys.
Proof.
  intros Ha Hd (? & ? & ? & Hs). repeat (split; [done|]).
  eapply dseg_frame; [|exact Hs]. intros x Hx. apply Ha. set_solver.
Qed.

Lemma free_frame xs h h' x : agree_off xs h h' -> x ∉ xs -> item_free h x -> item_free h' x.
Proof. intros Ha Hx [n Hn]. exists n. by rewrite Ha. Qed.

(** Pointing the last item of a segment at [v], or its first item back to [v];
    nothing to do when the segment is empty. *)

Lemma link_last h xs nn v :
  NoDup xs -> dseg h NULL xs nn ->
  exists h', (if is_null (last_or NULL xs) then Ok h else set_next h (last_or NULL xs) v) = Ok h'
    /\ dseg h' NULL xs v /\ agree_off xs h h'.
Proof.
  destruct xs as [|z xs _] using rev_ind; intros Hnd Hd.
  { exists h. done. }
  rewrite last_or_snoc. apply dseg_app in Hd as [Hd [Hz _]]. cbn in Hz.
  apply NoDup_app in Hnd as (_ & Hnz & _). unfold is_null. rewrite bool_decide_eq_false_2 by done.
  cbn. rewrite Hz. cbn. eexists; split; [done|]. split.
  - apply dseg_app; split.
    + apply dseg_insert_ne; [intros ?; set_solver|done].
    + split; [by simplify_map_eq|done].
  - intros a Ha. rewrite lookup_insert_ne; [done|set_solver].
Qed.

Lemma link_first h pp xs v :
  NoDup xs -> dseg h pp xs NULL ->
  exists h', (if is_null (hd_or NULL xs) then Ok h else set_prev h (hd_or NULL xs) v) = Ok h'
    /\ dseg h' v xs NULL /\ agree_off xs h h'.
Proof.
  destruct xs as [|z xs]; intros Hnd Hd; [by exists h|].
  destruct Hd as [Hz Hd]. apply NoDup_cons in Hnd as [Hnz _]. cbn. rewrite Hz. cbn.
  eexists; split; [done|]. split; [split|].
  - by simplify_map_eq.
  - by apply dseg_insert_ne.
  - intros a Ha. rewrite lookup_insert_ne; [done|set_solver].
Qed.

Lemma is_null_last xs : is_null (last_or NULL xs) = bool_decide (xs = []).
Proof. destruct xs as [|x xs _] using rev_ind; [done|]. rewrite last_or_snoc. by destruct xs. Qed.

(** ** Functional correctness of insertion and removal *)

(** Setting both fields of the new item. *)
Lemma set_item h x n p it :
  h !! x = Some it ->
  (h ← set_prev h (At x) p; set_next h (At x) n) = Ok (<[x := Item n p]> h).
Proof.
  intros Hx. cbn. rewrite Hx. cbn. rewrite lookup_insert_eq. cbn. by rewrite insert_insert_eq.
Qed.

Lemma nn_list_insert_ok h l xs ys x :
  list_rep h l (xs ++ ys) -> item_free h x ->
  exists h' l', nn_list_insert h l (At x) (hd_or NULL ys) = Ok (h', l')
    /\ list_rep h' l' (xs ++ x :: ys) /\ agree_off (x :: xs ++ ys) h h'.
Proof.
  intros Hr Hf. pose proof (rep_not_free _ _ _ _ Hr Hf) as Hx.
  destruct Hr as (Hnd & Hfst & Hlst & Hd), Hf as [n0 Hx0].
  apply dseg_app in Hd as [Hd1 Hd2]. apply NoDup_app in Hnd as (Hnd1 & Hdis & Hnd2).
  assert (Hp : (if is_null (hd_or NULL ys) then Ok (lst_last l)
                else it_prev <$> get h (hd_or NULL ys)) = Ok (last_or NULL xs)).
  { destruct ys as [|y ys]; cbn.
    - by rewrite Hlst, app_nil_r.
    - destruct Hd2 as [Hy _]. by rewrite Hy. }
  set (h1 := <[x := Item (hd_or NULL ys) (last_or NULL xs)]> h).
  destruct (link_last h1 xs (hd_or NULL ys) (At x)) as (h2 & E2 & Hd1' & A2);
    [done|apply dseg_insert_ne; [set_solver|done]|].
  destruct (link_first h2 (last_or NULL xs) ys (At x)) as (h3 & E3 & Hd2' & A3); [done| |].
  { eapply dseg_frame; [|exact Hd2]. intros y Hy. rewrite A2 by (intros ?; eapply Hdis; eauto).
    unfold h1. rewrite lookup_insert_ne; set_solver. }
  exists h3. eexists; split; [|split].
  - unfold nn_list_insert, nn_list_item_isinlist. cbn [get]. rewrite Hx0. cbn [deref mbind result_bind].
    cbn [it_prev]. decide_bools. mred.
    rewrite Hp. cbn [mbind result_bind].
    transitivity (h' ← Ok h1; h4 ← (if is_null (last_or NULL xs) then Ok h' else set_next h' (last_or NULL xs) (At x));
       h5 ← (if is_null (hd_or NULL ys) then Ok h4 else set_prev h4 (hd_or NULL ys) (At x));
       Ok (h5, List (hd_or NULL (xs ++ [x])) (last_or NULL (xs ++ x :: ys)))).
    + unfold h1. rewrite <- (set_item h x _ _ _ Hx0).
      destruct (set_prev h (At x) (last_or NULL xs)) as [h'|]; cbn [mbind result_bind]; [|done].
      destruct (set_next h' (At x) (hd_or NULL ys)) as [h''|]; cbn [mbind result_bind]; [|done].
      assert (Hl : (if is_null (hd_or NULL ys) then At x else lst_last l)
                   = last_or NULL (xs ++ x :: ys)).
      { rewrite Hlst, !last_or_app. destruct ys; done. }
      rewrite Hl. repeat f_equal.
      assert (Hh : (if is_null (lst_first l) || bool_decide (lst_first l = hd_or NULL ys)
              then At x else lst_first l) = hd_or NULL (xs ++ [x])).
      { rewrite Hfst. destruct xs as [|z xs]; cbn.
        - rewrite (bool_decide_eq_true_2 (hd_or NULL ys = _)) by done. by rewrite orb_true_r.
        - rewrite bool_decide_eq_false_2; [done|]. destruct ys as [|y ys]; [done|]. cbn.
          intros [= ->]. apply (Hdis y); set_solver. }
      by rewrite Hh.
    + cbn [mbind result_bind]. rewrite E2. cbn [mbind result_bind]. rewrite E3. done.
  - split; [|split; [|split]]; cbn.
    + apply NoDup_app; repeat split; [done| |].
      * intros a Ha [->|Ha']%elem_of_cons; [set_solver|by eapply Hdis].
      * apply NoDup_cons; split; [set_solver|done].
    + by rewrite !hd_or_app.
    + done.
    + apply dseg_app; cbn; split; [|split].
      * eapply dseg_frame; [|exact Hd1']. intros y Hy. apply A3. by apply Hdis.
      * rewrite A3, A2 by set_solver. unfold h1. by rewrite lookup_insert_eq.
      * done.
  - intros a Ha. rewrite A3, A2 by set_solver. unfold h1. rewrite lookup_insert_ne; set_solver.
Qed.

Lemma nn_list_erase_ok h l xs x ys :
  list_rep h l (xs ++ x :: ys) ->
  exists h' l', nn_list_erase h l (At x) = Ok (h', l', hd_or NULL ys)
    /\ list_rep h' l' (xs ++ ys) /\ item_free h' x /\ agree_off (xs ++ x :: ys) h h'.
Proof.
  intros (Hnd & Hfst & Hlst & Hd).
  apply dseg_app in Hd as [Hd1 [Hx Hd2]]. cbn [hd_or] in Hd1.
  apply NoDup_app in Hnd as (Hnd1 & Hdis & [Hxy Hnd2]%NoDup_cons).
  assert (Hxxs : x ∉ xs) by (intros ?; apply (Hdis x); set_solver).
  destruct (link_last h xs (At x) (hd_or NULL ys)) as (h1 & E1 & Hd1' & A1); [done..|].
  destruct (link_first h1 (At x) ys (last_or NULL xs)) as (h2 & E2 & Hd2' & A2); [done| |].
  { eapply dseg_frame; [|exact Hd2]. intros y Hy. apply A1. intros ?; apply (Hdis y); set_solver. }
  exists (<[x := Item NN_LIST_NOTINLIST NN_LIST_NOTINLIST]> h2).
  exists (List (hd_or NULL (xs ++ ys)) (last_or NULL (xs ++ ys))).
  assert (Hx1 : h1 !! x = h !! x) by by apply A1.
  assert (Hx2 : h2 !! x = h !! x) by by rewrite A2.
  split; [|split; [|split]].
  - unfold nn_list_erase, nn_list_item_isinlist. cbn [get]. rewrite Hx. mred. cbn [it_prev it_next].
    assert (Hin : last_or NULL xs <> NN_LIST_NOTINLIST).
    { by destruct (last_or_cases NULL xs) as [->|(?&?&->)]. }
    decide_bools. mred.
    assert (F1 : (if is_null (last_or NULL xs) then Ok (h, hd_or NULL ys)
                  else h0 ← set_next h (last_or NULL xs) (hd_or NULL ys); Ok (h0, lst_first l))
                 = Ok (h1, hd_or NULL (xs ++ ys))).
    { destruct xs as [|z xs]; cbn [last_or] in *; [by injection E1 as ->|].
      change (last_or (At z) xs) with (last_or NULL (z :: xs)) in *.
      rewrite is_null_last in *. decide_bools.
      rewrite bool_decide_eq_false_2 in E1 by done. rewrite E1. mred. by rewrite Hfst. }
    rewrite F1. mred. cbn [get]. rewrite Hx1, Hx. mred. cbn [it_prev it_next].
    assert (F2 : (if is_null (hd_or NULL ys) then Ok (h1, last_or NULL xs)
                  else h0 ← set_prev h1 (hd_or NULL ys) (last_or NULL xs); Ok (h0, lst_last l))
                 = Ok (h2, last_or NULL (xs ++ ys))).
    { destruct ys as [|y ys]; [cbn in E2; injection E2 as ->; by rewrite app_nil_r|].
      cbn [hd_or] in *. change (is_null (At y)) with false in *.
      rewrite E2. mred. rewrite Hlst. by rewrite !last_or_app. }
    rewrite F2. mred. cbn [get]. rewrite Hx2, Hx. mred. cbn [set_prev]. rewrite Hx2, Hx. mred.
    cbn [set_next]. rewrite lookup_insert_eq. mred. cbn. by rewrite insert_insert_eq.
  - split; [|split; [done|split; [done|]]].
    + apply NoDup_app; repeat split; [done| |done]. intros a Ha Hy. apply (Hdis a); set_solver.
    + apply dseg_insert_ne; [set_solver|]. apply dseg_app; split; [|done].
      eapply dseg_frame; [|exact Hd1']. intros y Hy. apply A2. intros ?. apply (Hdis y); set_solver.
  - exists NN_LIST_NOTINLIST. apply lookup_insert_eq.
  - intros a Ha. rewrite lookup_insert_ne, A2, A1; set_solver.
Qed.

Lemma nn_list_next_ok h l xs x ys :
  list_rep h l (xs ++ x :: ys) -> nn_list_next h (At x) = Ok (hd_or NULL ys).
Proof.
  intros (_ & _ & _ & Hd). apply dseg_app in Hd as [_ [Hx _]].
  unfold nn_list_next. cbn [get]. rewrite Hx. mred. cbn. by destruct ys.
Qed.

Lemma nn_list_prev_ok h l xs ys :
  list_rep h l (xs ++ ys) -> nn_list_prev h l (hd_or NULL ys) = Ok (last_or NULL xs).
Proof.
  intros (_ & _ & Hl & Hd). apply dseg_app in Hd as [_ Hd].
  unfold nn_list_prev. destruct ys as [|y ys]; cbn.
  - by rewrite Hl, app_nil_r.
  - destruct Hd as [Hy _]. rewrite Hy. mred. cbn [it_prev].
    assert (Hin : last_or NULL xs <> NN_LIST_NOTINLIST).
    { by destruct (last_or_cases NULL xs) as [->|(?&?&->)]. }
    by decide_bools.
Qed.

Lemma nn_list_begin_ok h l xs : list_rep h l xs -> nn_list_begin l = hd_or NULL xs.
Proof. by intros (_ & ? & _). Qed.

Lemma nn_list_empty_ok h l xs : list_rep h l xs -> nn_list_empty l = bool_decide (xs = []).
Proof. intros (_ & Hf & _). unfold nn_list_empty. rewrite Hf. by destruct xs. Qed.

Lemma nn_list_term_ok h l xs :
  list_rep h l xs -> nn_list_term l = if bool_decide (xs = []) then Ok tt else Err AssertFailed.
Proof. intros (_ & Hf & Hl & _). unfold nn_list_term. rewrite Hf, Hl. by destruct xs. Qed.

Lemma nn_list_isinlist_in h l xs x :
  list_rep h l xs -> x ∈ xs -> nn_list_item_isinlist h (At x) = Ok true.
Proof.
  intros (_ & _ & _ & Hd) Hx. destruct (dseg_lookup _ _ _ _ Hd Hx) as (n & p & E & Hp).
  unfold nn_list_item_isinlist. cbn [get]. rewrite E. mred. cbn [it_prev]. by decide_bools.
Qed.

Lemma nn_list_isinlist_free h x : item_free h x -> nn_list_item_isinlist h (At x) = Ok false.
Proof. intros [n E]. unfold nn_list_item_isinlist. cbn [get]. rewrite E. done. Qed.

Lemma nn_list_item_init_ok h x :
  item_free (nn_list_item_init h x) x /\ agree_off [x] h (nn_list_item_init h x).
Proof.
  split; [eexists; apply lookup_insert_eq|].
  intros a Ha. apply lookup_insert_ne. set_solver.
Qed.

Lemma rep_nodup h l xs : list_rep h l xs -> NoDup xs.
Proof. by intros []. Qed.

Lemma rep_init h : list_rep h nn_list_init [].
Proof. repeat split; [constructor]. Qed.

(** ** The interface

    [St] is the type of item stores and [L] the type of list heads.  A client
    component is defined over [ListOps] and proved correct over [ListSpec]. *)

Class ListOps (St L : Type) := {
  list_init : L;
  list_term : L -> result unit;
  list_empty : L -> bool;
  list_begin : L -> ptr;
  list_next : St -> ptr -> result ptr;
  list_insert : St -> L -> ptr -> ptr -> result (St * L);
  list_erase : St -> L -> ptr -> result (St * L * ptr);
  list_item_init : St -> addr -> St;
  list_item_isinlist : St -> ptr -> result bool;
  list_item_term : St -> ptr -> result unit
}.

Class ListSpec (St L : Type) `{ListOps St L} := {
  rep : St -> L -> list addr -> Prop;
  free : St -> addr -> Prop;
  agree : list addr -> St -> St -> Prop;

  rep_NoDup s l xs : rep s l xs -> NoDup xs;
  rep_free_disj s l xs x : rep s l xs -> free s x -> x ∉ xs;
  rep_agree xs s s' l ys : agree xs s s' -> ys ## xs -> rep s l ys -> rep s' l ys;
  free_agree xs s s' x : agree xs s s' -> x ∉ xs -> free s x -> free s' x;

  list_init_spec s : rep s list_init [];
  list_term_spec s l xs :
    rep s l xs -> list_term l = if bool_decide (xs = []) then Ok tt else Err AssertFailed;
  list_empty_spec s l xs : rep s l xs -> list_empty l = bool_decide (xs = []);
  list_begin_spec s l xs : rep s l xs -> list_begin l = hd_or NULL xs;
  list_next_spec s l xs x ys : rep s l (xs ++ x :: ys) -> list_next s (At x) = Ok (hd_or NULL ys);
  list_insert_spec s l xs ys x :
    rep s l (xs ++ ys) -> free s x ->
    exists s' l', list_insert s l (At x) (hd_or NULL ys) = Ok (s', l')
      /\ rep s' l' (xs ++ x :: ys) /\ agree (x :: xs ++ ys) s s';
  list_erase_spec s l xs x ys :
    rep s l (xs ++ x :: ys) ->
    exists s' l', list_erase s l (At x) = Ok (s', l', hd_or NULL ys)
      /\ rep s' l' (xs ++ ys) /\ free s' x /\ agree (xs ++ x :: ys) s s';
  list_item_init_spec s x : free (list_item_init s x) x /\ agree [x] s (list_item_init s x);
  list_isinlist_in s l xs x : rep s l xs -> x ∈ xs -> list_item_isinlist s (At x) = Ok true;
  list_isinlist_free s x : free s x -> list_item_isinlist s (At x) = Ok false;
  list_item_term_spec s p :
    list_item_term s p = (b ← list_item_isinlist s p; assert_ (negb b))
}.

#[export] Instance heap_list_ops : ListOps store nn_list := {|
  list_init := nn_list_init;
  list_term := nn_list_term;
  list_empty := nn_list_empty;
  list_begin := nn_list_begin;
  list_next := nn_list_next;
  list_insert := nn_list_insert;
  list_erase := nn_list_erase;
  list_item_init := nn_list_item_init;
  list_item_isinlist := nn_list_item_isinlist;
  list_item_term := nn_list_item_term
|}.

#[export] Instance heap_list_spec : ListSpec store nn_list := {|
  rep := list_rep;
  free := item_free;
  agree := agree_off;
  rep_NoDup := rep_nodup;
  rep_free_disj := rep_not_free;
  rep_agree := rep_frame;
  free_agree := free_frame;
  list_init_spec := rep_init;
  list_term_spec := nn_list_term_ok;
  list_empty_spec := nn_list_empty_ok;
  list_begin_spec := nn_list_begin_ok;
  list_next_spec := nn_list_next_ok;
  list_insert_spec := nn_list_insert_ok;
  list_erase_spec := nn_list_erase_ok;
  list_item_init_spec := nn_list_item_init_ok;
  list_isinlist_in := nn_list_isinlist_in;
  list_isinlist_free := nn_list_isinlist_free;
  list_item_term_spec := fun _ _ => eq_refl
|}.

(** Appending, the common case of insertion. *)
Lemma list_append_spec {St L} `{ListSpec St L} (s : St) (l : L) xs x :
  rep s l xs -> free s x ->
  exists s' l', list_insert s l (At x) NULL = Ok (s', l')
    /\ rep s' l' (xs ++ [x]) /\ agree (x :: xs) s s'.
Proof.
  intros Hr Hf. destruct (list_insert_spec s l xs [] x) as (s' & l' & ?); [by rewrite app_nil_r|done|].
  rewrite app_nil_r in *. eauto.
Qed.

(** ** Runs of operations

    Any run of insertions and removals on the pointer structure follows the
    same run on plain sequences, and the iteration idiom of the code
    ([nn_list_begin], then [nn_list_next] up to [nn_list_end]) then
    enumerates exactly that sequence. *)

Inductive list_op :=
  | InsertBefore (x y : addr)   (** [nn_list_insert (l, x, y)] *)
  | Append (x : addr)           (** [nn_list_insert (l, x, nn_list_end (l))] *)
  | Erase (x : addr).           (** [nn_list_erase (l, x)] *)

Fixpoint insert_before (x y : addr) (xs : list addr) : option (list addr) :=
  match xs with
  | [] => None
  | z :: zs => if decide (z = y) then Some (x :: z :: zs) else cons z <$> insert_before x y zs
  end.

Definition seq_step (xs : list addr) (o : list_op) : option (list addr) :=
  match o with
  | InsertBefore x y => if decide (x ∈ xs) then None else insert_before x y xs
  | Append x => if decide (x ∈ xs) then None else Some (xs ++ [x])
  | Erase x => if decide (x ∈ xs) then Some (filter (fun y => y <> x) xs) else None
  end.

Definition heap_step (s : store * nn_list) (o : list_op) : result (store * nn_list) :=
  match o with
  | InsertBefore x y => nn_list_insert s.1 s.2 (At x) (At y)
  | Append x => nn_list_insert s.1 s.2 (At x) (nn_list_end s.2)
  | Erase x => '(h, l, _) ← nn_list_erase s.1 s.2 (At x); Ok (h, l)
  end.

Fixpoint seq_run (xs : list addr) (os : list list_op) : option (list addr) :=
  match os with [] => Some xs | o :: os => ys ← seq_step xs o; seq_run ys os end.

Fixpoint heap_run (s : store * nn_list) (os : list list_op) : result (store * nn_list) :=
  match os with [] => Ok s | o :: os => s' ← heap_step s o; heap_run s' os end.

Fixpoint walk_from (fuel : nat) (h : store) (l : nn_list) (it : ptr) : result (list addr) :=
  match fuel with
  | O => Err NoFuel
  | S fuel =>
      if bool_decide (it = nn_list_end l) then Ok []
      else match it with
           | At a => n ← nn_list_next h it; xs ← walk_from fuel h l n; Ok (a :: xs)
           | _ => Err BadAccess
           end
  end.
Definition walk (fuel : nat) (h : store) (l : nn_list) : result (list addr) :=
  walk_from fuel h l (nn_list_begin l).

Lemma walk_from_ok h l xs ys fuel :
  list_rep h l (xs ++ ys) -> (length ys < fuel)%nat -> walk_from fuel h l (hd_or NULL ys) = Ok ys.
Proof.
  revert xs fuel; induction ys as [|y ys IH]; intros xs [|fuel] Hr Hf; cbn in Hf; [lia|done|lia|].
  cbn [walk_from hd_or]. decide_bools. rewrite (nn_list_next_ok _ _ _ _ _ Hr). mred.
  rewrite (IH (xs ++ [y])); [done|by rewrite <- app_assoc|lia].
Qed.

Lemma insert_before_split x y xs zs :
  insert_before x y xs = Some zs -> exists l1 l2, xs = l1 ++ y :: l2 /\ zs = l1 ++ x :: y :: l2.
Proof.
  revert zs; induction xs as [|z xs IH]; cbn; [done|]. intros zs. case_decide as Hz.
  - intros [= <-]. subst. by exists [], xs.
  - destruct (insert_before x y xs) as [ws|]; [|done]. intros [= <-].
    destruct (IH _ eq_refl) as (l1 & l2 & -> & ->). by exists (z :: l1), l2.
Qed.

(** Items of [U] outside the list are free: what a run may insert. *)
Definition free_outside (U xs : list addr) (h : store) : Prop :=
  forall x, x ∈ U -> x ∉ xs -> item_free h x.

Definition op_item (o : list_op) : addr :=
  match o with InsertBefore x _ | Append x | Erase x => x end.

Lemma heap_step_sim U h l xs ys o :
  list_rep h l xs -> free_outside U xs h -> op_item o ∈ U -> seq_step xs o = Some ys ->
  exists h' l', heap_step (h, l) o = Ok (h', l') /\ list_rep h' l' ys /\ free_outside U ys h'.
Proof.
  intros Hr Hf HU Ho. destruct o as [x y|x|x]; cbn in *; case_decide as Hx; try done.
  - apply insert_before_split in Ho as (l1 & l2 & -> & ->).
    destruct (nn_list_insert_ok h l l1 (y :: l2) x Hr) as (h' & l' & E & Hr' & Ha); [by apply Hf|].
    exists h', l'. split; [done|split; [done|]].
    intros z Hz Hn. eapply free_frame; [exact Ha|set_solver|apply Hf; set_solver].
  - injection Ho as <-.
    destruct (nn_list_insert_ok h l xs [] x) as (h' & l' & E & Hr' & Ha);
      [by rewrite app_nil_r|by apply Hf|].
    exists h', l'. split; [done|split; [done|]].
    intros z Hz Hn. eapply free_frame; [exact Ha|set_solver|apply Hf; set_solver].
  - injection Ho as <-. apply list_elem_of_split in Hx as (l1 & l2 & ->).
    destruct (nn_list_erase_ok h l l1 x l2 Hr) as (h' & l' & E & Hr' & Hx & Ha).
    rewrite filter_ne_split by apply Hr. exists h', l'. rewrite E. split; [done|split; [done|]].
    intros z Hz Hn. destruct (decide (z = x)) as [->|Hzx]; [done|].
    eapply free_frame; [exact Ha|set_solver|apply Hf; set_solver].
Qed.

Lemma heap_run_sim U os h l xs ys :
  list_rep h l xs -> free_outside U xs h -> Forall (fun o => op_item o ∈ U) os ->
  seq_run xs os = Some ys ->
  exists h' l', heap_run (h, l) os = Ok (h', l') /\ list_rep h' l' ys.
Proof.
  revert h l xs; induction os as [|o os IH]; cbn; intros h l xs Hr Hf HU Hs.
  - injection Hs as <-. by exists h, l.
  - apply Forall_cons in HU as [Ho HU].
    destruct (seq_step xs o) as [zs|] eqn:E; [|done].
    destruct (heap_step_sim U h l xs zs o) as (h' & l' & E' & Hr' & Hf'); [done..|].
    rewrite E'. mred. by apply (IH h' l' zs).
Qed.

(** any run of [nn_list_insert]/[nn_list_erase] calls that makes sense on
    plain sequences succeeds on the pointer structure, started from
    [nn_list_init] over initialised items, and the iteration idiom then
    enumerates exactly the resulting sequence, in a number of steps bounded by
    its length. *)
Theorem nn_list_refines_sequence (U : list addr) (os : list list_op) (h : store) (ys : list addr) :
  (forall x, x ∈ U -> item_free h x) -> Forall (fun o => op_item o ∈ U) os ->
  seq_run [] os = Some ys ->
  exists h' l', heap_run (h, nn_list_init) os = Ok (h', l')
    /\ walk (S (length ys)) h' l' = Ok ys
    /\ nn_list_empty l' = bool_decide (ys = []).
Proof.
  intros Hf HU Hs. destruct (heap_run_sim U os h nn_list_init [] ys) as (h' & l' & E & Hr);
    [apply rep_init|intros ???; by apply Hf|done|done|].
  exists h', l'. split; [done|]. split; [|by eapply nn_list_empty_ok].
  unfold walk. rewrite (nn_list_begin_ok _ _ _ Hr). apply (walk_from_ok h' l' []); [done|lia].
Qed.

Definition demo_store : store :=
  nn_list_item_init (nn_list_item_init (nn_list_item_init ∅ 1%positive) 2%positive) 3%positive.

Lemma nn_list_refines_sequence_witness :
  exists h' l',
    heap_run (demo_store, nn_list_init)
      [Append 1; Append 2; InsertBefore 3 2; Erase 1; InsertBefore 1 3]%positive = Ok (h', l')
    /\ walk 4 h' l' = Ok [1; 3; 2]%positive /\ nn_list_empty l' = false.
Proof.
  destruct (nn_list_refines_sequence [1; 2; 3]%positive
    [Append 1; Append 2; InsertBefore 3 2; Erase 1; InsertBefore 1 3]%positive
    demo_store [1; 3; 2]%positive) as (h' & l' & E & W & N).
  - intros x Hx. exists NN_LIST_NOTINLIST.
    repeat (apply elem_of_cons in Hx as [->|Hx]; [reflexivity|]). by apply elem_of_nil in Hx.
  - repeat constructor.
  - reflexivity.
  - exists h', l'. split; [exact E|]. split; [exact W|exact N].
Defined.

(** the guards.  Inserting an item that already is in a list aborts,
    erasing one that is in no list aborts, and terminating a list aborts
    exactly when an item is left in it. *)
Theorem nn_list_guards (h : store) (l : nn_list) (xs : list addr) (x : addr) (p : ptr) :
  list_rep h l xs ->
  (x ∈ xs -> nn_list_insert h l (At x) p = Err AssertFailed) /\
  (item_free h x -> nn_list_erase h l (At x) = Err AssertFailed) /\
  (nn_list_term l = Err AssertFailed <-> xs <> []).
Proof.
  intros Hr. repeat split.
  - intros Hx. unfold nn_list_insert. by rewrite (nn_list_isinlist_in _ _ _ _ Hr Hx).
  - intros Hf. unfold nn_list_erase. by rewrite nn_list_isinlist_free.
  - rewrite (nn_list_term_ok _ _ _ Hr). by case_bool_decide.
  - intros Hx. rewrite (nn_list_term_ok _ _ _ Hr). by decide_bools.
Qed.

Lemma nn_list_guards_witness :
  exists h l, heap_run (demo_store, nn_list_init) [Append 1]%positive = Ok (h, l)
    /\ nn_list_insert h l (At 1) NULL = Err AssertFailed
    /\ nn_list_erase h l (At 2) = Err AssertFailed.
Proof.
  destruct (nn_list_insert_ok demo_store nn_list_init [] [] 1%positive) as (h & l & E & Hr & Ha);
    [apply rep_init|by exists NN_LIST_NOTINLIST|].
  exists h, l. split; [cbn [heap_run heap_step fst snd]; change (nn_list_end _) with (hd_or NULL []);
                       rewrite E; reflexivity|].
  destruct (nn_list_guards h l [1%positive] 1%positive NULL Hr) as (G1 & _ & _).
  destruct (nn_list_guards h l [1%positive] 2%positive NULL Hr) as (_ & G2 & _).
  split; [apply G1, list_elem_of_In; by left|].
  apply G2. eapply free_frame; [exact Ha|set_solver|by exists NN_LIST_NOTINLIST].
Defined.
