(* ===== verification/NNQueue.v ===== *)
(** * Intrusive singly-linked queues ([utils/queue.c])

    As for lists, items live in one store; an item in no queue carries the
    distinguished pointer [NN_QUEUE_NOTINQUEUE].  [nn_queue_remove] walks the
    queue; its fuel, the number of items in the store plus one, is enough
    because a queue holds distinct items of the store. *)

From S2P Require Import Prelude.

Inductive qptr : Set :=
  | QNULL
  | NN_QUEUE_NOTINQUEUE
  | QAt (a : positive).

#[export] Instance qptr_eq_dec : EqDecision qptr.
Proof. solve_decision. Defined.

(** An [nn_queue_item] is its [next] field. *)
Abbreviation qstore := (gmap positive qptr).

Record nn_queue := Queue { q_head : qptr; q_tail : qptr }.

Definition qget (h : qstore) (p : qptr) : result qptr :=
  match p with QAt a => deref (h !! a) | _ => Err BadAccess end.
Definition qset (h : qstore) (p v : qptr) : result qstore :=
  match p with
  | QAt a => _ ← deref (h !! a); Ok (<[a := v]> h)
  | _ => Err BadAccess
  end.
Definition q_null (p : qptr) : bool := bool_decide (p = QNULL).

(** ** Operations *)

Definition nn_queue_init : nn_queue := Queue QNULL QNULL.
Definition nn_queue_term (self : nn_queue) : nn_queue := Queue QNULL QNULL.
Definition nn_queue_empty (self : nn_queue) : bool := q_null (q_head self).

Definition nn_queue_push (h : qstore) (self : nn_queue) (item : qptr) : result (qstore * nn_queue) :=
  n ← qget h item;
  _ ← assert_ (bool_decide (n = NN_QUEUE_NOTINQUEUE));
  h ← qset h item QNULL;
  let hd := if q_null (q_head self) then item else q_head self in
  h ← (if q_null (q_tail self) then Ok h else qset h (q_tail self) item);
  Ok (h, Queue hd item).

Fixpoint remove_loop (fuel : nat) (h : qstore) (self : nn_queue) (item it prev : qptr)
    : result (qstore * nn_queue) :=
  match fuel with
  | O => Err NoFuel
  | S fuel =>
      if q_null it then Ok (h, self)
      else if bool_decide (it = item) then
        n ← qget h it;
        let hd := if bool_decide (q_head self = it) then n else q_head self in
        let tl := if bool_decide (q_tail self = it) then prev else q_tail self in
        h ← (if q_null prev then Ok h else n ← qget h it; qset h prev n);
        h ← qset h item NN_QUEUE_NOTINQUEUE;
        Ok (h, Queue hd tl)
      else n ← qget h it; remove_loop fuel h self item n it
  end.

Definition nn_queue_remove (h : qstore) (self : nn_queue) (item : qptr) : result (qstore * nn_queue) :=
  n ← qget h item;
  if bool_decide (n = NN_QUEUE_NOTINQUEUE) then Ok (h, self)
  else remove_loop (S (size h)) h self item (q_head self) QNULL.

Definition nn_queue_pop (h : qstore) (self : nn_queue) : result (qstore * nn_queue * qptr) :=
  if q_null (q_head self) then Ok (h, self, QNULL)
  else
    let res := q_head self in
    n ← qget h res;
    let tl := if q_null n then QNULL else q_tail self in
    h ← qset h res NN_QUEUE_NOTINQUEUE;
    Ok (h, Queue n tl, res).

Definition nn_queue_item_init (h : qstore) (a : positive) : qstore := <[a := NN_QUEUE_NOTINQUEUE]> h.
Definition nn_queue_item_term (h : qstore) (self : qptr) : result unit :=
  n ← qget h self; assert_ (bool_decide (n = NN_QUEUE_NOTINQUEUE)).
Definition nn_queue_item_isinqueue (h : qstore) (self : qptr) : result bool :=
  n ← qget h self; Ok (negb (bool_decide (n = NN_QUEUE_NOTINQUEUE))).

#[global] Arguments nn_queue_push : simpl never.
#[global] Arguments nn_queue_pop : simpl never.
#[global] Arguments nn_queue_remove : simpl never.

(** ** Representation *)

Definition qhd (nn : qptr) (xs : list positive) : qptr :=
  match xs with [] => nn | x :: _ => QAt x end.
Fixpoint qlast (pp : qptr) (xs : list positive) : qptr :=
  match xs with [] => pp | x :: xs => qlast (QAt x) xs end.

Fixpoint qseg (h : qstore) (xs : list positive) (nn : qptr) : Prop :=
  match xs with
  | [] => True
  | x :: xs => h !! x = Some (qhd nn xs) /\ qseg h xs nn
  end.

Definition queue_rep (h : qstore) (q : nn_queue) (xs : list positive) : Prop :=
  NoDup xs /\ q_head q = qhd QNULL xs /\ q_tail q = qlast QNULL xs /\ qseg h xs QNULL.

Definition qitem_free (h : qstore) (x : positive) : Prop := h !! x = Some NN_QUEUE_NOTINQUEUE.

Lemma qhd_app nn xs ys : qhd nn (xs ++ ys) = qhd (qhd nn ys) xs.
Proof. by destruct xs. Qed.

Lemma qlast_snoc pp xs x : qlast pp (xs ++ [x]) = QAt x.
Proof. revert pp; induction xs; naive_solver. Qed.

Lemma qlast_app pp xs ys : qlast pp (xs ++ ys) = qlast (qlast pp xs) ys.
Proof. revert pp; induction xs; naive_solver. Qed.

Lemma qseg_app h xs ys nn : qseg h (xs ++ ys) nn <-> qseg h xs (qhd nn ys) /\ qseg h ys nn.
Proof.
  induction xs as [|x xs IH]; cbn; [naive_solver|]. rewrite IH, qhd_app. naive_solver.
Qed.

Lemma qseg_frame h h' xs nn :
  (forall x, x ∈ xs -> h' !! x = h !! x) -> qseg h xs nn -> qseg h' xs nn.
Proof.
  induction xs as [|x xs IH]; intros Hf; cbn; [done|].
  rewrite Hf by set_solver. intros [? ?]; split; [done|]. apply IH; set_solver.
Qed.

Lemma qseg_insert_ne h xs nn a v : a ∉ xs -> qseg h xs nn -> qseg (<[a:=v]> h) xs nn.
Proof. intros Ha. apply qseg_frame. intros x Hx. rewrite lookup_insert_ne; set_solver. Qed.

Lemma qseg_dom h xs x : qseg h xs QNULL -> x ∈ xs ->
  exists n, h !! x = Some n /\ n <> NN_QUEUE_NOTINQUEUE.
Proof.
  intros Hd (l1 & l2 & ->)%list_elem_of_split. apply qseg_app in Hd as [_ [Hx _]].
  eexists; split; [exact Hx|]. by destruct l2.
Qed.

Lemma qseg_size h xs : NoDup xs -> qseg h xs QNULL -> (length xs <= size h)%nat.
Proof.
  intros Hn Hd. rewrite <- (size_list_to_set (C := gset positive) xs Hn), <- size_dom.
  apply subseteq_size. intros x Hx%elem_of_list_to_set.
  destruct (qseg_dom _ _ _ Hd Hx) as (n & Hn' & _). by apply elem_of_dom_2 in Hn'.
Qed.

Lemma queue_rep_free h q xs x : queue_rep h q xs -> qitem_free h x -> x ∉ xs.
Proof.
  intros (_ & _ & _ & Hd) Hx Hin. destruct (qseg_dom _ _ _ Hd Hin) as (?&?&?).
  unfold qitem_free in *. congruence.
Qed.

(** ** Functional correctness *)

Lemma nn_queue_push_ok h q xs x :
  queue_rep h q xs -> qitem_free h x ->
  exists h' q', nn_queue_push h q (QAt x) = Ok (h', q') /\ queue_rep h' q' (xs ++ [x])
    /\ (forall a, a ∉ x :: xs -> h' !! a = h !! a).
Proof.
  intros Hr Hf. pose proof (queue_rep_free _ _ _ _ Hr Hf) as Hx.
  destruct Hr as (Hnd & Hh & Ht & Hd). unfold nn_queue_push. cbn [qget]. rewrite Hf. mred.
  decide_bools. mred. cbn [qset]. rewrite Hf. mred.
  destruct xs as [|z xs _] using rev_ind.
  - rewrite Hh, Ht. cbn. eexists _, _; split; [done|]. split.
    + split; [apply NoDup_singleton|]. cbn. by rewrite lookup_insert_eq.
    + intros a Ha. rewrite lookup_insert_ne; set_solver.
  - rewrite Hh, Ht, qlast_snoc. apply qseg_app in Hd as [Hd [Hz _]]. cbn in Hz, Hd.
    assert (x <> z) by set_solver. apply NoDup_app in Hnd as (Hnd & Hzn & _).
    cbn [qset]. change (q_null (QAt z)) with false. cbv iota. rewrite lookup_insert_ne, Hz by done.
    mred. eexists _, _; split; [done|]. split; [split; [|split; [|split]]|].
    + apply NoDup_app; repeat split; [|set_solver|apply NoDup_singleton].
      apply NoDup_app; repeat split; [done|done|apply NoDup_singleton].
    + cbn. unfold q_null. destruct xs; by decide_bools.
    + cbn. by rewrite qlast_snoc.
    + rewrite <- app_assoc. apply qseg_app; cbn. split; [|by simplify_map_eq].
      apply qseg_insert_ne; [set_solver|]. apply qseg_insert_ne; [set_solver|done].
    + intros a Ha. rewrite !lookup_insert_ne; set_solver.
Qed.

Lemma nn_queue_pop_ok h q xs :
  queue_rep h q xs ->
  match xs with
  | [] => nn_queue_pop h q = Ok (h, q, QNULL)
  | x :: ys => exists h' q', nn_queue_pop h q = Ok (h', q', QAt x) /\ queue_rep h' q' ys
      /\ qitem_free h' x /\ (forall a, a <> x -> h' !! a = h !! a)
  end.
Proof.
  intros (Hnd & Hh & Ht & Hd). unfold nn_queue_pop. rewrite Hh.
  destruct xs as [|x xs]; cbn [qhd]; [done|]. destruct Hd as [Hx Hd].
  apply NoDup_cons in Hnd as [Hxn Hnd]. cbn. rewrite Hx. mred.
  eexists _, _; split; [done|]. split; [split; [done|split; [done|split]]|split].
  - cbn. rewrite Ht. by destruct xs.
  - by apply qseg_insert_ne.
  - apply lookup_insert_eq.
  - intros a Ha. by apply lookup_insert_ne.
Qed.


(** Unlinking [x] once the loop has reached it: [l1] precedes it. *)
Lemma remove_found h q l1 x l2 fuel :
  queue_rep h q (l1 ++ x :: l2) ->
  exists h' q', remove_loop (S fuel) h q (QAt x) (QAt x) (qlast QNULL l1) = Ok (h', q')
    /\ queue_rep h' q' (l1 ++ l2) /\ qitem_free h' x
    /\ (forall a, a ∉ l1 ++ x :: l2 -> h' !! a = h !! a).
Proof.
  intros (Hnd & Hh & Ht & Hd). apply qseg_app in Hd as [Hd1 [Hx Hd2]]. cbn [qhd] in Hd1.
  apply NoDup_app in Hnd as (Hnd1 & Hdis & [Hxl Hnd2]%NoDup_cons).
  assert (Hxl1 : x ∉ l1) by (intros ?; apply (Hdis x); set_solver).
  assert (Hnd : NoDup (l1 ++ l2)).
  { apply NoDup_app; repeat split; [done| |done]. intros a ? ?. apply (Hdis a); set_solver. }
  cbn [remove_loop]. change (q_null (QAt x)) with false. decide_bools. cbn [qget]. rewrite Hx. mred.
  assert (Htl : (if bool_decide (q_tail q = QAt x) then qlast QNULL l1 else q_tail q)
                = qlast QNULL (l1 ++ l2)).
  { rewrite Ht, !qlast_app. cbn. destruct l2 as [|z l2 _] using rev_ind; cbn.
    - by decide_bools.
    - rewrite !qlast_snoc, bool_decide_eq_false_2; [done|]. intros [= ->]. set_solver. }
  rewrite Htl. destruct l1 as [|z l1 _] using rev_ind.
  - cbn [qlast qhd app] in *. change (q_null QNULL) with true. cbv iota. mred.
    cbn [qset]. rewrite Hh, Hx. decide_bools. mred.
    eexists _, _; split; [done|]. split; [|split].
    + split; [done|split; [done|split; [done|]]]. by apply qseg_insert_ne.
    + apply lookup_insert_eq.
    + intros a Ha. apply lookup_insert_ne. set_solver.
  - rewrite qlast_snoc. change (q_null (QAt z)) with false. cbv iota.
    apply qseg_app in Hd1 as [Hd1 [Hz _]]. cbn [qhd] in Hz, Hd1.
    assert (Hzx : z <> x) by set_solver. cbn [qset]. rewrite Hz. mred.
    rewrite lookup_insert_ne, Hx by done. mred.
    assert (Hhd : (if bool_decide (q_head q = QAt x) then qhd QNULL l2 else q_head q)
                  = qhd QNULL ((l1 ++ [z]) ++ l2)).
    { rewrite Hh, !qhd_app. destruct l1 as [|w l1]; cbn; [by decide_bools|].
      assert (w <> x) by set_solver. by decide_bools. }
    rewrite Hhd. apply NoDup_app in Hnd1 as (_ & Hzl1 & _).
    eexists _, _; split; [done|]. split; [|split].
    + split; [done|split; [done|split; [done|]]]. apply qseg_app; split.
      * apply qseg_app; cbn; split; [|by simplify_map_eq].
        apply qseg_insert_ne; [set_solver|]. apply qseg_insert_ne; [set_solver|done].
      * apply qseg_insert_ne; [done|]. apply qseg_insert_ne; [|done].
        intros ?. apply (Hdis z); set_solver.
    + apply lookup_insert_eq.
    + intros a Ha. rewrite !lookup_insert_ne; set_solver.
Qed.

Lemma remove_loop_ok h q l1 x ys fuel :
  queue_rep h q (l1 ++ ys) -> x ∉ l1 -> (length ys < fuel)%nat ->
  (x ∉ ys -> remove_loop fuel h q (QAt x) (qhd QNULL ys) (qlast QNULL l1) = Ok (h, q)) /\
  (forall k1 k2, ys = k1 ++ x :: k2 -> x ∉ k1 ->
    exists h' q', remove_loop fuel h q (QAt x) (qhd QNULL ys) (qlast QNULL l1) = Ok (h', q')
    /\ queue_rep h' q' (l1 ++ k1 ++ k2) /\ qitem_free h' x
    /\ (forall a, a ∉ l1 ++ ys -> h' !! a = h !! a)).
Proof.
  revert l1 fuel.
  induction ys as [|y ys IH]; intros l1 [|fuel] Hr Hx Hf; cbn [length] in Hf; [lia| |lia|].
  - split; [done|]. by intros [] ? ?.
  - assert (Hy : h !! y = Some (qhd QNULL ys)).
    { destruct Hr as (_ & _ & _ & Hd). by apply qseg_app in Hd as [_ [Hy _]]. }
    destruct (decide (y = x)) as [->|Hyx].
    + split; [set_solver|]. intros [|? k1] k2 E Hk; simplify_eq/=; [|set_solver].
      by apply remove_found.
    + destruct (IH (l1 ++ [y]) fuel) as [IH1 IH2]; [by rewrite <- app_assoc|set_solver|lia|].
      rewrite qlast_snoc in IH1, IH2. cbn [remove_loop qhd]. change (q_null (QAt y)) with false.
      decide_bools. cbn [qget]. rewrite Hy. mred. split.
      * intros ?. apply IH1. set_solver.
      * intros [|? k1] k2 E Hk; simplify_eq/=. destruct (IH2 k1 k2) as (h' & q' & E & Hr' & Hf' & Ha);
          [done|set_solver|]. exists h', q'. split; [done|]. split; [by rewrite <- app_assoc in Hr'|].
        split; [done|]. intros a Hna. apply Ha. by rewrite <- app_assoc.
Qed.

Lemma nn_queue_remove_in h q k1 x k2 :
  queue_rep h q (k1 ++ x :: k2) ->
  exists h' q', nn_queue_remove h q (QAt x) = Ok (h', q') /\ queue_rep h' q' (k1 ++ k2)
    /\ qitem_free h' x /\ (forall a, a ∉ k1 ++ x :: k2 -> h' !! a = h !! a).
Proof.
  intros Hr. pose proof Hr as (Hnd & Hh & _ & Hd).
  destruct (qseg_dom h _ x Hd) as (n & Hn & Hne); [set_solver|].
  unfold nn_queue_remove. cbn [qget]. rewrite Hn. mred. decide_bools. rewrite Hh.
  pose proof (qseg_size _ _ Hnd Hd). apply NoDup_app in Hnd as (_ & Hdis & _).
  eapply (remove_loop_ok h q [] x); [done|set_solver|lia|done|].
  intros ?. apply (Hdis x); set_solver.
Qed.

Lemma nn_queue_remove_notin h q xs x n :
  queue_rep h q xs -> h !! x = Some n -> x ∉ xs -> nn_queue_remove h q (QAt x) = Ok (h, q).
Proof.
  intros Hr Hn Hx. pose proof Hr as (Hnd & Hh & _ & Hd).
  unfold nn_queue_remove. cbn [qget]. rewrite Hn. mred. case_bool_decide; [done|]. rewrite Hh.
  pose proof (qseg_size _ _ Hnd Hd).
  eapply (remove_loop_ok h q [] x); [done|set_solver|lia|done].
Qed.

(** ** Runs of operations: the queue is a FIFO *)

Inductive queue_op :=
  | Push (x : positive)
  | Pop
  | Remove (x : positive).

(** The reference queue, with the items popped so far. *)
Definition fifo_step (s : list positive * list qptr) (o : queue_op)
    : option (list positive * list qptr) :=
  let '(xs, out) := s in
  match o with
  | Push x => if decide (x ∈ xs) then None else Some (xs ++ [x], out)
  | Pop => match xs with
           | [] => Some ([], out ++ [QNULL])
           | x :: xs => Some (xs, out ++ [QAt x])
           end
  | Remove x => Some (filter (fun y => y <> x) xs, out)
  end.

Definition qheap_step (s : qstore * nn_queue * list qptr) (o : queue_op)
    : result (qstore * nn_queue * list qptr) :=
  let '(h, q, out) := s in
  match o with
  | Push x => '(h, q) ← nn_queue_push h q (QAt x); Ok (h, q, out)
  | Pop => '(h, q, r) ← nn_queue_pop h q; Ok (h, q, out ++ [r])
  | Remove x => '(h, q) ← nn_queue_remove h q (QAt x); Ok (h, q, out)
  end.

Fixpoint fifo_run (s : list positive * list qptr) (os : list queue_op) :=
  match os with [] => Some s | o :: os => s' ← fifo_step s o; fifo_run s' os end.
Fixpoint qheap_run (s : qstore * nn_queue * list qptr) (os : list queue_op) :=
  match os with [] => Ok s | o :: os => s' ← qheap_step s o; qheap_run s' os end.

Definition queue_op_item (o : queue_op) : option positive :=
  match o with Push x | Remove x => Some x | Pop => None end.

(** The store: the queued items are linked, the other known items are free. *)
Definition queue_inv (U : list positive) (h : qstore) (q : nn_queue) (xs : list positive) : Prop :=
  queue_rep h q xs /\ (forall x, x ∈ U -> x ∉ xs -> qitem_free h x).

Lemma qheap_step_sim U h q xs out o xs' out' :
  queue_inv U h q xs -> (forall x, queue_op_item o = Some x -> x ∈ U) ->
  fifo_step (xs, out) o = Some (xs', out') ->
  exists h' q', qheap_step (h, q, out) o = Ok (h', q', out') /\ queue_inv U h' q' xs'.
Proof.
  intros [Hr Hf] HU Ho. destruct o as [x| |x]; cbn [fifo_step qheap_step] in *.
  - case_decide as Hx; simplify_eq/=.
    destruct (nn_queue_push_ok h q xs x) as (h' & q' & E & Hr' & Ha); [done|by apply Hf; [apply HU|]|].
    rewrite E. exists h', q'. split; [done|]. split; [done|].
    intros y Hy Hn. unfold qitem_free. rewrite Ha by set_solver. apply Hf; set_solver.
  - pose proof (nn_queue_pop_ok h q xs Hr) as Hp. destruct xs as [|x xs]; simplify_eq/=.
    + rewrite Hp. by exists h, q.
    + destruct Hp as (h' & q' & E & Hr' & Hx & Ha). rewrite E. exists h', q'. split; [done|].
      split; [done|]. intros y Hy Hn. destruct (decide (y = x)) as [->|]; [done|].
      unfold qitem_free. rewrite Ha by done. apply Hf; set_solver.
  - simplify_eq. destruct (decide (x ∈ xs)) as [Hx|Hx].
    + apply list_elem_of_split in Hx as (k1 & k2 & ->).
      destruct (nn_queue_remove_in _ _ _ _ _ Hr) as (h' & q' & E & Hr' & Hx & Ha).
      rewrite E, filter_ne_split by apply Hr. exists h', q'. split; [done|]. split; [done|].
      intros y Hy Hn. destruct (decide (y = x)) as [->|]; [done|].
      unfold qitem_free. rewrite Ha by set_solver. apply Hf; set_solver.
    + rewrite (nn_queue_remove_notin h q xs x NN_QUEUE_NOTINQUEUE), filter_ne_notin;
        [|done|done|apply Hf; [by apply HU|done]|done].
      by exists h, q.
Qed.

(** a run of [nn_queue_push], [nn_queue_pop] and [nn_queue_remove] from
    [nn_queue_init] pops exactly the items the FIFO reference pops, in the
    same order ([NULL] when it is empty), and leaves the same items queued. *)
Theorem nn_queue_refines_fifo (U : list positive) (os : list queue_op) (h : qstore)
    (xs : list positive) (out : list qptr) :
  (forall x, x ∈ U -> qitem_free h x) ->
  Forall (fun o => forall x, queue_op_item o = Some x -> x ∈ U) os ->
  fifo_run ([], []) os = Some (xs, out) ->
  exists h' q', qheap_run (h, nn_queue_init, []) os = Ok (h', q', out) /\ queue_rep h' q' xs.
Proof.
  intros Hf HU Hs.
  assert (Hi : queue_inv U h nn_queue_init []).
  { split; [|by intros x ? _; apply Hf]. repeat split; constructor. }
  clear Hf. revert Hi Hs. generalize (@nil qptr), (@nil positive), nn_queue_init.
  revert h. induction os as [|o os IH]; intros h out0 xs0 q0 Hi Hs.
  - cbn in *. simplify_eq. exists h, q0. split; [done|apply Hi].
  - apply Forall_cons in HU as [Ho HU]. cbn [fifo_run] in Hs.
    destruct (fifo_step (xs0, out0) o) as [[xs1 out1]|] eqn:E; [|done].
    destruct (qheap_step_sim U h q0 xs0 out0 o xs1 out1) as (h' & q' & E' & Hi'); [done..|].
    cbn [qheap_run]. rewrite E'. mred. by apply (IH HU h' out1 xs1 q').
Qed.

Definition demo_qstore : qstore := nn_queue_item_init (nn_queue_item_init ∅ 1) 2.

Lemma nn_queue_refines_fifo_witness :
  exists h' q', qheap_run (demo_qstore, nn_queue_init, []) [Push 1; Push 2; Pop; Push 1; Remove 2; Pop; Pop]
    = Ok (h', q', [QAt 1; QAt 1; QNULL]) /\ queue_rep h' q' [].
Proof.
  apply (nn_queue_refines_fifo [1; 2]%positive).
  - intros x Hx. repeat (apply elem_of_cons in Hx as [->|Hx]; [reflexivity|]).
    by apply elem_of_nil in Hx.
  - repeat (apply Forall_cons; split; [intros x Hx; cbn in Hx; simplify_eq; set_solver|]).
    apply Forall_nil_2.
  - reflexivity.
Defined.
