(* ===== verification/NNFamily.v ===== *)
(** * Families of lists over one store

    Hash tables and priority lists keep an array of list heads whose items
    live in one store.  A family relates such an array to the array of the
    sequences held, all disjoint; the lemmas say how one operation on one list
    acts on the family.  They are proved from the interface [ListSpec] alone. *)

From S2P Require Import Prelude NNList.

Section Family.
  Context {St L : Type} `{ListSpec St L}.
  Implicit Types (s : St) (l : L) (ls : list L) (xs ys : list addr) (xss : list (list addr)).

Definition fam s ls xss : Prop := Forall2 (rep s) ls xss /\ NoDup (concat xss).

Lemma concat_insert xss i xs ys :
  xss !! i = Some xs ->
  exists k1 k2, concat xss = k1 ++ xs ++ k2 /\ concat (<[i := ys]> xss) = k1 ++ ys ++ k2.
Proof.
  intros Hi. exists (concat (take i xss)), (concat (drop (S i) xss)).
  pose proof (lookup_lt_Some _ _ _ Hi). split.
  - rewrite <- (take_drop_middle xss i xs Hi) at 1. by rewrite concat_app.
  - rewrite insert_take_drop by done. by rewrite concat_app.
Qed.

Lemma elem_concat xss i xs x : xss !! i = Some xs -> x ∈ xs -> x ∈ concat xss.
Proof.
  intros Hi Hx. destruct (concat_insert xss i xs xs Hi) as (k1 & k2 & -> & _). set_solver.
Qed.

Lemma elem_concat_inv xss x : x ∈ concat xss -> exists i xs, xss !! i = Some xs /\ x ∈ xs.
Proof.
  induction xss as [|xs xss IH]; cbn; [set_solver|]. intros [Hx|Hx]%elem_of_app.
  - by exists 0%nat, xs.
  - destruct (IH Hx) as (i & ys & Hi & Hy). by exists (S i), ys.
Qed.

(** Two lists of a family share no item. *)
Lemma concat_disj xss i j xs ys :
  NoDup (concat xss) -> xss !! i = Some xs -> xss !! j = Some ys -> i <> j -> ys ## xs.
Proof.
  intros Hn Hi Hj Hij x Hy Hx.
  destruct (concat_insert xss i xs [] Hi) as (k1 & k2 & E1 & E2).
  assert (Hx' : x ∈ concat (<[i := []]> xss)).
  { eapply (elem_concat _ j ys); [|done]. rewrite list_lookup_insert_ne by done. exact Hj. }
  rewrite E1 in Hn. rewrite E2 in Hx'. cbn in Hx'.
  apply NoDup_app in Hn as (_ & H1 & (_ & H2 & _)%NoDup_app).
  apply elem_of_app in Hx' as [?|?].
  - apply (H1 x); set_solver.
  - apply (H2 x); set_solver.
Qed.

Lemma fam_lookup s ls xss i l xs :
  fam s ls xss -> ls !! i = Some l -> xss !! i = Some xs -> rep s l xs.
Proof. intros [Hf _] Hl Hx. by eapply Forall2_lookup_lr. Qed.

Lemma fam_lookup_l s ls xss i l :
  fam s ls xss -> ls !! i = Some l -> exists xs, xss !! i = Some xs /\ rep s l xs.
Proof. intros [Hf _] Hl. eapply Forall2_lookup_l in Hf as (xs & ? & ?); eauto. Qed.

Lemma fam_length s ls xss : fam s ls xss -> length ls = length xss.
Proof. intros [Hf _]. by eapply Forall2_length. Qed.

(** Replacing list [i] when the store changed only on its items (old and new). *)
Lemma fam_update s s' ls xss i l l' xs zs ks :
  fam s ls xss -> ls !! i = Some l -> xss !! i = Some xs ->
  rep s' l' zs -> agree ks s s' -> (forall x, x ∈ ks -> x ∈ xs \/ x ∉ concat xss) ->
  (forall x, x ∈ zs -> x ∈ xs \/ x ∉ concat xss) ->
  fam s' (<[i := l']> ls) (<[i := zs]> xss).
Proof.
  intros Hf Hl Hx Hr Ha Hk Hz. pose proof Hf as [HF Hn]. split.
  - apply Forall2_same_length_lookup. rewrite !length_insert.
    split; [by eapply fam_length|]. intros j k ys.
    destruct (decide (i = j)) as [<-|Hij].
    + rewrite !list_lookup_insert_eq; [by intros [= <-] [= <-]|..]; by eapply lookup_lt_Some.
    + rewrite !list_lookup_insert_ne by done. intros Hk' Hys.
      eapply rep_agree; [exact Ha| |by eapply fam_lookup].
      intros y Hy Hyk. destruct (Hk y Hyk) as [?|Hno].
      * by apply (concat_disj xss i j xs ys Hn Hx Hys Hij y).
      * apply Hno. by eapply elem_concat.
  - pose proof (rep_NoDup _ _ _ Hr) as Hnz.
    destruct (concat_insert xss i xs zs Hx) as (k1 & k2 & E1 & ->). rewrite E1 in *.
    apply NoDup_app in Hn as (Hn1 & Hd1 & (_ & Hd2 & Hn2)%NoDup_app).
    apply NoDup_app; split; [done|]. split; [|apply NoDup_app; split; [done|split; [|done]]].
    + intros y Hy1 [Hy|Hy]%elem_of_app; [destruct (Hz y Hy)|]; [apply (Hd1 y)|..]; set_solver.
    + intros y Hy Hy2. destruct (Hz y Hy); [apply (Hd2 y)|]; set_solver.
Qed.

Lemma free_not_concat s ls xss x : fam s ls xss -> free s x -> x ∉ concat xss.
Proof.
  intros Hf Hx (i & xs & Hi & Hxs)%elem_concat_inv. destruct Hf as [HF _].
  eapply Forall2_lookup_r in HF as (l & Hl & Hr); [|exact Hi].
  by eapply rep_free_disj.
Qed.

Lemma fam_insert s ls xss i l xs ys x :
  fam s ls xss -> ls !! i = Some l -> xss !! i = Some (xs ++ ys) -> free s x ->
  exists s' l', list_insert s l (At x) (hd_or NULL ys) = Ok (s', l')
    /\ fam s' (<[i := l']> ls) (<[i := xs ++ x :: ys]> xss)
    /\ (forall y, y <> x -> free s y -> free s' y).
Proof.
  intros Hf Hl Hx Hfr. pose proof (fam_lookup _ _ _ _ _ _ Hf Hl Hx) as Hr.
  destruct (list_insert_spec s l xs ys x Hr Hfr) as (s' & l' & E & Hr' & Ha).
  pose proof (free_not_concat _ _ _ _ Hf Hfr). exists s', l'. split; [done|]. split.
  - eapply fam_update; [done..|set_solver|set_solver].
  - intros y Hy Hfy. eapply free_agree; [exact Ha| |done].
    pose proof (rep_free_disj _ _ _ _ Hr Hfy). set_solver.
Qed.

Lemma fam_append s ls xss i l xs x :
  fam s ls xss -> ls !! i = Some l -> xss !! i = Some xs -> free s x ->
  exists s' l', list_insert s l (At x) NULL = Ok (s', l')
    /\ fam s' (<[i := l']> ls) (<[i := xs ++ [x]]> xss)
    /\ (forall y, y <> x -> free s y -> free s' y).
Proof. intros Hf Hl Hx. apply (fam_insert s ls xss i l xs []); [done..|by rewrite app_nil_r]. Qed.

Lemma fam_erase s ls xss i l xs x ys :
  fam s ls xss -> ls !! i = Some l -> xss !! i = Some (xs ++ x :: ys) ->
  exists s' l', list_erase s l (At x) = Ok (s', l', hd_or NULL ys)
    /\ fam s' (<[i := l']> ls) (<[i := xs ++ ys]> xss)
    /\ free s' x /\ (forall y, free s y -> free s' y).
Proof.
  intros Hf Hl Hx. pose proof (fam_lookup _ _ _ _ _ _ Hf Hl Hx) as Hr.
  destruct (list_erase_spec s l xs x ys Hr) as (s' & l' & E & Hr' & Hfx & Ha).
  exists s', l'. split; [done|]. split; [|split; [done|]].
  - eapply fam_update; [done..|set_solver|set_solver].
  - intros y Hfy. eapply free_agree; [exact Ha| |done]. by eapply rep_free_disj.
Qed.

Lemma fam_init s n : fam s (replicate n list_init) (replicate n []).
Proof.
  split.
  - induction n; cbn; constructor; [apply list_init_spec|done].
  - by induction n; cbn; [constructor|].
Qed.

(** Changing the store only at a free item keeps the family. *)
Lemma fam_item_init s ls xss x :
  fam s ls xss -> x ∉ concat xss -> fam (list_item_init s x) ls xss.
Proof.
  intros [HF Hn] Hx. split; [|done]. destruct (list_item_init_spec s x) as [_ Ha].
  apply Forall2_same_length_lookup. split; [by eapply Forall2_length|].
  intros i l xs Hl Hi. eapply rep_agree; [exact Ha| |by eapply Forall2_lookup_lr].
  intros y Hy ->%list_elem_of_singleton. apply Hx. by eapply elem_concat.
Qed.

Lemma free_item_init s x y : free s y -> free (list_item_init s x) y.
Proof.
  intros Hy. destruct (list_item_init_spec s x) as [Hx Ha].
  destruct (decide (y = x)) as [->|Hne]; [done|]. eapply free_agree; [exact Ha|set_solver|done].
Qed.

(** Lists of the family and their emptiness, seen from the sequences. *)
Lemma fam_term s ls xss :
  fam s ls xss -> Forall (fun l => list_term l = Ok tt) ls <-> concat xss = [].
Proof.
  intros [HF _]. induction HF as [|l xs ls xss Hr HF IH]; cbn; [by split|].
  rewrite Forall_cons, IH, (list_term_spec _ _ _ Hr).
  split.
  - intros [Hx ->]. case_bool_decide; [by subst|done].
  - intros [-> ->]%app_eq_nil. done.
Qed.

End Family.
