(* ===== verification/Hash.v ===== *)
(** * Hash tables ([utils/hash.c])

    A table is an array of list heads; its items are intrusive, so the model
    keeps their list links in the shared item store and their [key] fields in
    a second store.  The table is defined over the list interface [ListOps]
    and proved to implement a finite map over [ListSpec].

    Loops over one bucket have fuel the number of known items plus one, which
    is enough because a bucket holds distinct items.  [nn_alloc] is taken to
    succeed (otherwise [alloc_assert] aborts the process). *)

From S2P Require Import Prelude NNList NNFamily.
Local Open Scope Z_scope.

Definition NN_HASH_INITIAL_SLOTS : Z := 32.

Definition nn_hash_key (key : Z) : Z :=
  let key := Z.lxor (Z.lxor key 61) (Z.shiftr key 16) in
  let key := u32 (key + u32 (Z.shiftl key 3)) in
  let key := Z.lxor key (Z.shiftr key 4) in
  let key := u32 (key * 0x27d4eb2d) in
  Z.lxor key (Z.shiftr key 15).

Section Hash.
  Context {St L : Type} `{ListOps St L}.

Record nn_hash := Hash { h_slots : Z; h_items : Z; h_array : list L }.

(** The items: [list] fields in [hs_links], [key] fields in [hs_keys]. *)
Record hitems := HItems { hs_links : St; hs_keys : gmap addr Z }.

Definition slot_of (self_slots key : Z) : nat := Z.to_nat (nn_hash_key key mod self_slots).

Definition nn_hash_init : nn_hash :=
  Hash NN_HASH_INITIAL_SLOTS 0 (replicate (Z.to_nat NN_HASH_INITIAL_SLOTS) list_init).

Fixpoint term_slots (array : list L) : result unit :=
  match array with [] => Ok tt | l :: ls => _ ← list_term l; term_slots ls end.

Definition nn_hash_term (self : nn_hash) : result unit := term_slots (h_array self).

(** The [while] loop of [nn_hash_rehash]: moves one old bucket. *)
Fixpoint move_items (fuel : nat) (s : hitems) (slots : Z) (array : list L) (old : L)
    : result (hitems * list L * L) :=
  match fuel with
  | O => Err NoFuel
  | S fuel =>
      if list_empty old then Ok (s, array, old)
      else match list_begin old with
           | At hitm =>
               '(lk, old, _) ← list_erase (hs_links s) old (At hitm);
               k ← deref (hs_keys s !! hitm);
               let newslot := slot_of slots k in
               l ← deref (array !! newslot);
               '(lk, l) ← list_insert lk l (At hitm) NULL;
               move_items fuel (HItems lk (hs_keys s)) slots (<[newslot := l]> array) old
           | _ => Err BadAccess
           end
  end.

(** The [for] loop over the old buckets. *)
Fixpoint move_slots (s : hitems) (slots : Z) (array oldarray : list L)
    : result (hitems * list L) :=
  match oldarray with
  | [] => Ok (s, array)
  | old :: olds =>
      '(s, array, old) ← move_items (S (size (hs_keys s))) s slots array old;
      _ ← list_term old;
      move_slots s slots array olds
  end.

Definition nn_hash_rehash (s : hitems) (self : nn_hash) : result (hitems * nn_hash) :=
  let slots := u32 (h_slots self * 2) in
  '(s, array) ← move_slots s slots (replicate (Z.to_nat slots) list_init) (h_array self);
  Ok (s, Hash slots (h_items self) array).

(** The duplicate test of [nn_hash_insert]. *)
Fixpoint assert_fresh (fuel : nat) (s : hitems) (key : Z) (it : ptr) : result unit :=
  match fuel with
  | O => Err NoFuel
  | S fuel =>
      match it with
      | NULL => Ok tt
      | At a =>
          k ← deref (hs_keys s !! a);
          _ ← assert_ (bool_decide (k <> key));
          n ← list_next (hs_links s) it;
          assert_fresh fuel s key n
      | NN_LIST_NOTINLIST => Err BadAccess
      end
  end.

Definition nn_hash_insert (s : hitems) (self : nn_hash) (key : Z) (item : addr)
    : result (hitems * nn_hash) :=
  let i := slot_of (h_slots self) key in
  l ← deref (h_array self !! i);
  _ ← assert_fresh (S (size (hs_keys s))) s key (list_begin l);
  let keys := <[item := key]> (hs_keys s) in
  '(lk, l) ← list_insert (hs_links s) l (At item) NULL;
  let self := Hash (h_slots self) (u32 (h_items self + 1)) (<[i := l]> (h_array self)) in
  if bool_decide (u32 (h_items self * 2) > h_slots self) && bool_decide (h_slots self < 0x80000000)
  then nn_hash_rehash (HItems lk keys) self
  else Ok (HItems lk keys, self).

Definition nn_hash_erase (s : hitems) (self : nn_hash) (item : addr) : result (hitems * nn_hash) :=
  key ← deref (hs_keys s !! item);
  let slot := slot_of (h_slots self) key in
  l ← deref (h_array self !! slot);
  '(lk, l, _) ← list_erase (hs_links s) l (At item);
  Ok (HItems lk (hs_keys s),
      Hash (h_slots self) (u32 (h_items self - 1)) (<[slot := l]> (h_array self))).

Fixpoint find_key (fuel : nat) (s : hitems) (key : Z) (it : ptr) : result ptr :=
  match fuel with
  | O => Err NoFuel
  | S fuel =>
      match it with
      | NULL => Ok NULL
      | At a =>
          k ← deref (hs_keys s !! a);
          if bool_decide (k = key) then Ok (At a)
          else n ← list_next (hs_links s) it; find_key fuel s key n
      | NN_LIST_NOTINLIST => Err BadAccess
      end
  end.

Definition nn_hash_get (s : hitems) (self : nn_hash) (key : Z) : result ptr :=
  l ← deref (h_array self !! slot_of (h_slots self) key);
  find_key (S (size (hs_keys s))) s key (list_begin l).

Definition nn_hash_item_init (s : hitems) (a : addr) : hitems :=
  HItems (list_item_init (hs_links s) a) (hs_keys s).
Definition nn_hash_item_term (s : hitems) (a : addr) : result unit :=
  list_item_term (hs_links s) (At a).

End Hash.
Arguments nn_hash : clear implicits.
Arguments hitems : clear implicits.

(** ** The abstract map *)

Section HashSpec.
  Context {St L : Type} `{ListSpec St L}.
  Implicit Types (s : hitems St) (t : nn_hash L) (m : gmap Z addr).

(** Every item of bucket [i] has a 32-bit key that hashes to [i]. *)
Definition placed (keys : gmap addr Z) (slots : Z) (xss : list (list addr)) : Prop :=
  forall i xs x, xss !! i = Some xs -> x ∈ xs ->
    exists k, keys !! x = Some k /\ slot_of slots k = i.

Definition slots_ok (slots : Z) : Prop := exists n, 5 <= n <= 31 /\ slots = 2 ^ n.

Record hash_rep_with s t m (xss : list (list addr)) : Prop := {
  hr_fam : fam (hs_links s) (h_array t) xss;
  hr_slots : slots_ok (h_slots t);
  hr_len : length (h_array t) = Z.to_nat (h_slots t);
  hr_items : h_items t = Z.of_nat (length (concat xss));
  hr_placed : placed (hs_keys s) (h_slots t) xss;
  hr_map : forall k x, m !! k = Some x <-> x ∈ concat xss /\ hs_keys s !! x = Some k
}.
Definition hash_rep s t m : Prop := exists xss, hash_rep_with s t m xss.

(** The load factor: at most one half, until the table has its maximal size. *)
Definition load_ok t : Prop := h_items t * 2 <= h_slots t \/ h_slots t = 2 ^ 31.

Lemma slots_range slots : slots_ok slots -> 32 <= slots <= 2 ^ 31.
Proof.
  intros (n & Hn & ->). change 32 with (2 ^ 5). split; apply Z.pow_le_mono_r; lia.
Qed.

Lemma slot_lt slots k : slots_ok slots -> (slot_of slots k < Z.to_nat slots)%nat.
Proof.
  intros Hs%slots_range. unfold slot_of.
  pose proof (Z.mod_pos_bound (nn_hash_key k) slots). lia.
Qed.

Lemma keys_size s t m xss : hash_rep_with s t m xss -> (length (concat xss) <= size (hs_keys s))%nat.
Proof.
  intros Hr. destruct (hr_fam _ _ _ _ Hr) as [_ Hn].
  rewrite <- (size_list_to_set (C := gset positive) _ Hn), <- size_dom.
  apply subseteq_size. intros x Hx%elem_of_list_to_set.
  apply elem_concat_inv in Hx as (i & xs & Hi & Hx).
  destruct (hr_placed _ _ _ _ Hr i xs x Hi Hx) as (k & Hk & _). by apply elem_of_dom_2 in Hk.
Qed.

(** The bucket of a key. *)
Lemma bucket s t m xss k :
  hash_rep_with s t m xss ->
  exists l xs, h_array t !! slot_of (h_slots t) k = Some l /\ xss !! slot_of (h_slots t) k = Some xs
    /\ rep (hs_links s) l xs /\ (length xs <= size (hs_keys s))%nat.
Proof.
  intros Hr. pose proof (hr_fam _ _ _ _ Hr) as Hf.
  destruct (lookup_lt_is_Some_2 (h_array t) (slot_of (h_slots t) k)) as [l Hl].
  { rewrite (hr_len _ _ _ _ Hr). apply slot_lt, (hr_slots _ _ _ _ Hr). }
  destruct (fam_lookup_l _ _ _ _ _ Hf Hl) as (xs & Hxs & Hrep).
  exists l, xs. repeat split; [done..|].
  etrans; [|by eapply keys_size]. destruct (concat_insert xss _ xs [] Hxs) as (k1 & k2 & -> & _).
  rewrite !length_app. lia.
Qed.

Lemma find_key_ok s l xs ys key fuel :
  rep (hs_links s) l (xs ++ ys) -> (forall x, x ∈ ys -> is_Some (hs_keys s !! x)) ->
  (length ys < fuel)%nat ->
  find_key fuel s key (hd_or NULL ys) =
    Ok (match list_find (fun x => hs_keys s !! x = Some key) ys with
        | Some (_, x) => At x | None => NULL end).
Proof.
  revert xs fuel. induction ys as [|y ys IH]; intros xs [|fuel] Hr Hk Hf; cbn in Hf; [lia|done|lia|].
  destruct (Hk y) as [k Hy]; [set_solver|]. cbn [find_key hd_or]. rewrite Hy. mred.
  cbn [list_find]. case_decide as Hd; rewrite Hy in Hd.
  - injection Hd as ->. by decide_bools.
  - rewrite bool_decide_eq_false_2 by congruence. rewrite (list_next_spec _ _ _ _ _ Hr). mred.
    rewrite (IH (xs ++ [y])); [|by rewrite <- app_assoc|set_solver|lia].
    by destruct (list_find _ ys) as [[]|].
Qed.

Lemma assert_fresh_ok s l xs ys key fuel :
  rep (hs_links s) l (xs ++ ys) -> (forall x, x ∈ ys -> is_Some (hs_keys s !! x)) ->
  (length ys < fuel)%nat ->
  assert_fresh fuel s key (hd_or NULL ys) =
    if decide (Exists (fun x => hs_keys s !! x = Some key) ys) then Err AssertFailed else Ok tt.
Proof.
  revert xs fuel. induction ys as [|y ys IH]; intros xs [|fuel] Hr Hk Hf; cbn in Hf; [lia| |lia|].
  { by rewrite decide_False by (by intros ?%Exists_nil). }
  destruct (Hk y) as [k Hy]; [set_solver|]. cbn [assert_fresh hd_or]. rewrite Hy. mred.
  destruct (decide (k = key)) as [->|Hne].
  - decide_bools. rewrite decide_True by (by left). done.
  - decide_bools. mred. rewrite (list_next_spec _ _ _ _ _ Hr). mred.
    rewrite (IH (xs ++ [y])); [|by rewrite <- app_assoc|set_solver|lia].
    apply decide_ext. rewrite Exists_cons, Hy. naive_solver.
Qed.

Lemma bucket_keys s t m xss xs k :
  hash_rep_with s t m xss -> xss !! slot_of (h_slots t) k = Some xs ->
  forall x, x ∈ xs -> is_Some (hs_keys s !! x).
Proof. intros Hr Hxs x Hx. destruct (hr_placed _ _ _ _ Hr _ _ _ Hxs Hx) as (? & -> & _). eauto. Qed.

(** A key is in the map exactly when its own bucket holds it. *)
Lemma bucket_map s t m xss xs k x :
  hash_rep_with s t m xss -> xss !! slot_of (h_slots t) k = Some xs ->
  m !! k = Some x <-> x ∈ xs /\ hs_keys s !! x = Some k.
Proof.
  intros Hr Hxs. rewrite (hr_map _ _ _ _ Hr). split; intros [Hx Hk]; split; try done.
  - apply elem_concat_inv in Hx as (i & ys & Hi & Hx).
    destruct (hr_placed _ _ _ _ Hr _ _ _ Hi Hx) as (k' & Hk' & Hs). congruence.
  - by eapply elem_concat.
Qed.

Lemma nn_hash_get_ok s t m k :
  hash_rep s t m ->
  nn_hash_get s t k = Ok (match m !! k with Some x => At x | None => NULL end).
Proof.
  intros [xss Hr]. destruct (bucket s t m xss k Hr) as (l & xs & Hl & Hxs & Hrep & Hlen).
  unfold nn_hash_get. rewrite Hl. mred. rewrite (list_begin_spec _ _ _ Hrep).
  rewrite (find_key_ok s l [] xs); [|done|by eapply bucket_keys|lia].
  destruct (list_find _ xs) as [[i x]|] eqn:E.
  - apply list_find_Some in E as (Hi & Hk & _).
    by rewrite (proj2 (bucket_map s t m xss xs k x Hr Hxs)) by (eauto using list_elem_of_lookup_2).
  - apply list_find_None in E. destruct (m !! k) as [x|] eqn:Em; [|done].
    apply (bucket_map s t m xss xs k x Hr Hxs) in Em as [Hx Hk].
    rewrite Forall_forall in E. by destruct (E x Hx).
Qed.

Lemma nn_hash_insert_dup s t m k x y :
  hash_rep s t m -> m !! k = Some y -> nn_hash_insert s t k x = Err AssertFailed.
Proof.
  intros [xss Hr] Hm. destruct (bucket s t m xss k Hr) as (l & xs & Hl & Hxs & Hrep & Hlen).
  unfold nn_hash_insert. rewrite Hl. mred. rewrite (list_begin_spec _ _ _ Hrep).
  rewrite (assert_fresh_ok s l [] xs); [|done|by eapply bucket_keys|lia].
  rewrite decide_True; [done|]. apply Exists_exists. exists y.
  by apply (bucket_map s t m xss xs k y Hr Hxs).
Qed.

(** Updating bucket [i] of the sequences. *)
Lemma placed_insert keys slots xss i ys :
  placed keys slots xss ->
  (forall x, x ∈ ys -> exists k, keys !! x = Some k /\ slot_of slots k = i) ->
  placed keys slots (<[i := ys]> xss).
Proof.
  intros Hp Hy j zs x Hj Hx. destruct (decide (i = j)) as [<-|Hne].
  - destruct (decide (i < length xss)%nat) as [Hlt|Hge].
    + rewrite list_lookup_insert_eq in Hj by done. simplify_eq. by apply Hy.
    + rewrite list_insert_ge in Hj by lia. by eapply Hp.
  - rewrite list_lookup_insert_ne in Hj by done. by eapply Hp.
Qed.

Lemma nn_hash_erase_ok s t m x k :
  hash_rep s t m -> m !! k = Some x -> in_range 32 (h_items t) ->
  exists s' t', nn_hash_erase s t x = Ok (s', t') /\ hash_rep s' t' (delete k m)
    /\ free (hs_links s') x /\ h_items t' = h_items t - 1 /\ h_slots t' = h_slots t
    /\ (forall y, free (hs_links s) y -> free (hs_links s') y).
Proof.
  intros [xss Hr] Hm Hrg. destruct (bucket s t m xss k Hr) as (l & xs & Hl & Hxs & Hrep & Hlen).
  apply (bucket_map s t m xss xs k x Hr Hxs) in Hm as [Hx Hk].
  apply list_elem_of_split in Hx as (k1 & k2 & ->).
  destruct (fam_erase _ _ _ _ _ _ _ _ (hr_fam _ _ _ _ Hr) Hl Hxs) as (lk & l' & E & Hf & Hfx & Hfr).
  destruct (concat_insert xss _ _ (k1 ++ k2) Hxs) as (c1 & c2 & E1 & E2).
  unfold nn_hash_erase. rewrite Hk. mred. rewrite Hl. mred. rewrite E. mred.
  pose proof (hr_items _ _ _ _ Hr) as Hit. rewrite E1, !length_app in Hit. cbn [length] in Hit.
  assert (Hu : u32 (h_items t - 1) = h_items t - 1).
  { apply wrap_small. unfold in_range in *. lia. }
  assert (Hxn : x ∉ c1 ++ (k1 ++ k2) ++ c2).
  { destruct (hr_fam _ _ _ _ Hr) as [_ Hn]. rewrite E1 in Hn.
    rewrite <- (app_assoc k1) in Hn. apply NoDup_app in Hn as (_ & D1 & Hn).
    apply NoDup_app in Hn as (_ & D2 & Hn). apply NoDup_cons in Hn as [D3 _].
    specialize (D1 x). specialize (D2 x). set_solver. }
  eexists _, _; split; [done|]. split; [|split; [done|split; [done|split; [done|done]]]].
  exists (<[slot_of (h_slots t) k := k1 ++ k2]> xss). constructor; cbn.
  - done.
  - apply Hr.
  - rewrite length_insert. apply Hr.
  - rewrite Hu, E2, !length_app, Hit. lia.
  - apply placed_insert; [apply Hr|]. intros y Hy. eapply hr_placed; [done..|]. set_solver.
  - intros k' y. rewrite E2, lookup_delete_Some, (hr_map _ _ _ _ Hr), E1. split.
    + intros (Hne & Hy & Hky). split; [|done]. set_unfold.
      destruct Hy as [?|[[?|[->|?]]|?]]; try tauto. congruence.
    + intros [Hy Hky]. split; [|split; [set_solver|done]].
      intros ->. assert (y = x) as ->; [|done].
      assert (m !! k' = Some y) by (apply (hr_map _ _ _ _ Hr); rewrite E1; set_solver).
      assert (m !! k' = Some x) by (apply (hr_map _ _ _ _ Hr); rewrite E1; set_solver). congruence.
Qed.

(** ** Rehashing *)

Definition has_keys (keys : gmap addr Z) (xs : list addr) : Prop :=
  forall x, x ∈ xs -> is_Some (keys !! x).

Lemma move_items_ok keys slots fuel lk old rest array xs rss nss :
  fam lk (old :: rest ++ array) (xs :: rss ++ nss) -> length rest = length rss ->
  length array = Z.to_nat slots -> slots_ok slots ->
  placed keys slots nss -> has_keys keys xs -> (length xs < fuel)%nat ->
  exists lk' array' old' nss',
    move_items fuel (HItems lk keys) slots array old = Ok (HItems lk' keys, array', old')
    /\ fam lk' (old' :: rest ++ array') ([] :: rss ++ nss') /\ length array' = length array
    /\ placed keys slots nss' /\ concat nss' ≡ₚ xs ++ concat nss
    /\ (forall y, free lk y -> free lk' y).
Proof.
  intros Hf Hrs Hlen Hsl Hpl Hk Hfuel. revert lk old array xs nss Hf Hlen Hpl Hk Hfuel.
  induction fuel as [|fuel IH]; intros lk old array xs nss Hf Hlen Hpl Hk Hfuel; [lia|].
  pose proof (fam_lookup lk _ _ 0%nat old xs Hf eq_refl eq_refl) as Hrep.
  cbn [move_items hs_links hs_keys]. rewrite (list_empty_spec _ _ _ Hrep).
  destruct xs as [|x xs]; decide_bools.
  { exists lk, array, old, nss. done. }
  rewrite (list_begin_spec _ _ _ Hrep). cbn [hd_or].
  destruct (fam_erase lk _ _ 0%nat old [] x xs Hf eq_refl eq_refl)
    as (lk1 & old1 & E1 & Hf1 & Hfx & Hfr1).
  rewrite E1. mred. destruct (Hk x) as [k Hkx]; [set_solver|]. rewrite Hkx. mred.
  pose proof (slot_lt slots k Hsl) as Hslot.
  destruct (lookup_lt_is_Some_2 array (slot_of slots k)) as [l Hl]; [lia|].
  rewrite Hl. mred. change (fam lk1 (old1 :: rest ++ array) (xs :: rss ++ nss)) in Hf1.
  set (j := S (length rest + slot_of slots k)).
  assert (Hlj : (old1 :: rest ++ array) !! j = Some l).
  { change ((rest ++ array) !! (length rest + slot_of slots k)%nat = Some l).
    rewrite lookup_app_r by lia. by replace (_ + _ - _)%nat with (slot_of slots k) by lia. }
  destruct (fam_lookup_l lk1 _ _ j l Hf1 Hlj) as (ys & Hys & _).
  destruct (fam_append lk1 _ _ j l ys x Hf1 Hlj Hys Hfx) as (lk2 & l2 & E2 & Hf2 & Hfr2).
  rewrite E2. mred.
  assert (Hys' : nss !! slot_of slots k = Some ys).
  { change ((rss ++ nss) !! (length rest + slot_of slots k)%nat = Some ys) in Hys.
    rewrite lookup_app_r in Hys by lia.
    by replace (_ + _ - _)%nat with (slot_of slots k) in Hys by lia. }
  assert (Hf2' : fam lk2 (old1 :: rest ++ <[slot_of slots k := l2]> array)
                         (xs :: rss ++ <[slot_of slots k := ys ++ [x]]> nss)).
  { rewrite <- !insert_app_r, <- Hrs. exact Hf2. }
  destruct (IH lk2 old1 (<[slot_of slots k := l2]> array) xs _ Hf2')
    as (lk3 & array3 & old3 & nss3 & E3 & Hf3 & Hlen3 & Hpl3 & Hperm & Hfr3).
  - by rewrite length_insert.
  - apply placed_insert; [done|]. intros y [Hy| ->%list_elem_of_singleton]%elem_of_app; [|by eauto].
    by eapply Hpl.
  - intros y Hy. apply Hk. set_solver.
  - cbn in Hfuel. lia.
  - exists lk3, array3, old3, nss3. split; [done|]. split; [done|].
    split; [by rewrite Hlen3, length_insert|]. split; [done|]. split.
    + destruct (concat_insert nss _ ys (ys ++ [x]) Hys') as (c1 & c2 & Ec1 & Ec2).
      rewrite Hperm, Ec2, Ec1. solve_Permutation.
    + intros y Hy. apply Hfr3, Hfr2, Hfr1; [|done]. intros ->.
      eapply free_not_concat; [exact Hf|exact Hy|]. cbn. set_solver.
Qed.

Lemma move_slots_ok keys slots lk olds array oss nss :
  fam lk (olds ++ array) (oss ++ nss) -> length olds = length oss ->
  length array = Z.to_nat slots -> slots_ok slots -> placed keys slots nss ->
  has_keys keys (concat oss) -> (length (concat oss) <= size keys)%nat ->
  exists lk' array' nss',
    move_slots (HItems lk keys) slots array olds = Ok (HItems lk' keys, array')
    /\ fam lk' array' nss' /\ length array' = length array
    /\ placed keys slots nss' /\ concat nss' ≡ₚ concat oss ++ concat nss
    /\ (forall y, free lk y -> free lk' y).
Proof.
  revert lk array oss nss. induction olds as [|old olds IH];
    intros lk array [|xs oss] nss Hf Hl Hlen Hsl Hpl Hk Hsz; cbn in Hl; try lia.
  { exists lk, array, nss. done. }
  cbn [concat] in Hk, Hsz. rewrite length_app in Hsz.
  destruct (move_items_ok keys slots (S (size keys)) lk old olds array xs oss nss)
    as (lk1 & array1 & old1 & nss1 & E1 & Hf1 & Hlen1 & Hpl1 & Hp1 & Hfr1);
    [done|lia|done|done|done|intros ??; apply Hk; set_solver|lia|].
  cbn [move_slots hs_keys]. rewrite E1. mred.
  rewrite (list_term_spec lk1 old1 []) by (by apply (fam_lookup lk1 _ _ 0%nat old1 [] Hf1)).
  decide_bools. mred.
  destruct (IH lk1 array1 oss nss1) as (lk2 & array2 & nss2 & E2 & Hf2 & Hlen2 & Hpl2 & Hp2 & Hfr2).
  - destruct Hf1 as [HF HN]. inversion HF; subst. by split.
  - lia.
  - lia.
  - done.
  - done.
  - intros ??; apply Hk; set_solver.
  - lia.
  - exists lk2, array2, nss2. rewrite E2. repeat split; [apply Hf2|apply Hf2|lia|done| |auto].
    rewrite Hp2, Hp1. cbn. solve_Permutation.
Qed.

Lemma slots_ok_double slots :
  slots_ok slots -> slots < 2 ^ 31 -> u32 (slots * 2) = slots * 2 /\ slots_ok (slots * 2).
Proof.
  intros (n & Hn & ->) Hlt. assert (n < 31) by (apply (Z.pow_lt_mono_r_iff 2); lia).
  assert (Hd : 2 ^ n * 2 = 2 ^ (n + 1)) by (rewrite Z.pow_add_r; lia).
  rewrite Hd. split; [|exists (n + 1); lia].
  apply wrap_small. split; [lia|]. apply Z.pow_lt_mono_r; lia.
Qed.

(** Moving every item of the old buckets, in any order, keeps the abstract map. *)
Lemma nn_hash_rehash_ok s t m xss :
  hash_rep_with s t m xss -> h_slots t < 2 ^ 31 ->
  exists s' t', nn_hash_rehash s t = Ok (s', t') /\ hash_rep s' t' m
    /\ h_items t' = h_items t /\ h_slots t' = h_slots t * 2
    /\ (forall y, free (hs_links s) y -> free (hs_links s') y).
Proof.
  intros Hr Hlt. destruct (slots_ok_double _ (hr_slots _ _ _ _ Hr) Hlt) as [Hu Hsl].
  unfold nn_hash_rehash. rewrite Hu. destruct s as [lk keys]. cbn [hs_links hs_keys] in *.
  set (n := Z.to_nat (h_slots t * 2)). pose proof (hr_fam _ _ _ _ Hr) as [HF HN].
  destruct (fam_init lk n) as [HF' HN'].
  assert (Hc : concat (replicate n (@nil addr)) = []) by (clear; induction n; done).
  destruct (move_slots_ok keys (h_slots t * 2) lk (h_array t) (replicate n list_init)
              xss (replicate n [])) as (lk' & array' & nss & E & Hf & Hlen & Hpl & Hp & Hfr).
  - split; [by apply Forall2_app|]. by rewrite concat_app, Hc, app_nil_r.
  - by eapply Forall2_length.
  - apply length_replicate.
  - done.
  - intros i xs x Hi Hx. apply lookup_replicate in Hi as [-> _]. by apply elem_of_nil in Hx.
  - intros x Hx. apply elem_concat_inv in Hx as (i & xs & Hi & Hx).
    destruct (hr_placed _ _ _ _ Hr _ _ _ Hi Hx) as (k & Hk & _). eauto.
  - by eapply (keys_size (HItems lk keys)).
  - rewrite E. mred. eexists _, _; split; [done|]. rewrite Hc, app_nil_r in Hp.
    split; [|by repeat split]. exists nss. constructor; cbn; try done.
    + by rewrite Hlen, length_replicate.
    + rewrite (hr_items _ _ _ _ Hr). by rewrite Hp.
    + intros k x. rewrite (hr_map _ _ _ _ Hr). cbn. by rewrite Hp.
Qed.

Lemma nn_hash_insert_ok s t m k x :
  hash_rep s t m -> m !! k = None -> free (hs_links s) x -> h_items t + 1 < 2 ^ 31 -> load_ok t ->
  exists s' t', nn_hash_insert s t k x = Ok (s', t') /\ hash_rep s' t' (<[k := x]> m)
    /\ h_items t' = h_items t + 1 /\ load_ok t'
    /\ (forall y, y <> x -> free (hs_links s) y -> free (hs_links s') y).
Proof.
  intros [xss Hr] Hm Hfx Hb Hload. destruct (bucket s t m xss k Hr) as (l & xs & Hl & Hxs & Hrep & Hlen).
  unfold nn_hash_insert. rewrite Hl. mred. rewrite (list_begin_spec _ _ _ Hrep).
  rewrite (assert_fresh_ok s l [] xs); [|done|by eapply bucket_keys|lia].
  rewrite decide_False; [mred|].
  2:{ intros (y & Hy & Hk)%Exists_exists.
      by rewrite (proj2 (bucket_map s t m xss xs k y Hr Hxs)) in Hm. }
  pose proof (hr_fam _ _ _ _ Hr) as Hf. pose proof (free_not_concat _ _ _ _ Hf Hfx) as Hnx.
  destruct (fam_append _ _ _ _ l xs x Hf Hl Hxs Hfx) as (lk & l' & E & Hf' & Hfr).
  rewrite E. mred.
  pose proof (slots_range _ (hr_slots _ _ _ _ Hr)) as Hsr.
  pose proof (hr_items _ _ _ _ Hr) as Hit.
  assert (Hu1 : u32 (h_items t + 1) = h_items t + 1) by (apply wrap_small; unfold in_range; lia).
  assert (Hu2 : u32 ((h_items t + 1) * 2) = (h_items t + 1) * 2) by (apply wrap_small; unfold in_range; lia).
  cbn [h_slots h_items]. rewrite Hu1, Hu2.
  set (s1 := HItems lk (<[x := k]> (hs_keys s))).
  set (t1 := Hash (h_slots t) (h_items t + 1) (<[slot_of (h_slots t) k := l']> (h_array t))).
  destruct (concat_insert xss _ _ (xs ++ [x]) Hxs) as (c1 & c2 & E1 & E2).
  assert (Hr1 : hash_rep_with s1 t1 (<[k := x]> m) (<[slot_of (h_slots t) k := xs ++ [x]]> xss)).
  { constructor; cbn.
    - done.
    - apply Hr.
    - rewrite length_insert. apply Hr.
    - rewrite E2, Hit, E1, !length_app. cbn. lia.
    - apply placed_insert.
      + intros i ys y Hi Hy. rewrite lookup_insert_ne; [by eapply hr_placed|].
        intros <-. apply Hnx. by eapply elem_concat.
      + intros y [Hy| ->%list_elem_of_singleton]%elem_of_app.
        * rewrite lookup_insert_ne; [by eapply hr_placed|].
          intros <-. apply Hnx. by eapply elem_concat.
        * exists k. by rewrite lookup_insert_eq.
    - intros k' y. rewrite lookup_insert_Some, (hr_map _ _ _ _ Hr), E2, E1.
      rewrite E1 in Hnx. rewrite lookup_insert_Some. split.
      + intros [[<- <-]|(Hne & Hy & Hk)]; [split; [set_solver|by left]|].
        split; [set_solver|]. right. split; [|done]. intros <-. set_solver.
      + intros [Hy [[<- <-]|[Hne Hk]]]; [by left|].
        right. split; [|split; [set_solver|done]].
        intros <-.
        assert (Hmy : m !! k = Some y); [|congruence].
        apply (hr_map _ _ _ _ Hr). rewrite E1. set_solver. }
  destruct (bool_decide ((h_items t + 1) * 2 > h_slots t)) eqn:C1;
    destruct (bool_decide (h_slots t < 0x80000000)) eqn:C2; mred;
    apply bool_decide_eq_true in C1 || apply bool_decide_eq_false in C1;
    apply bool_decide_eq_true in C2 || apply bool_decide_eq_false in C2.
  1: { destruct (nn_hash_rehash_ok s1 t1 _ _ Hr1 C2) as (s2 & t2 & E3 & Hr2 & Hi2 & Hs2 & Hfr2).
       exists s2, t2. split; [done|]. split; [done|]. split; [done|]. split; [|auto].
       left. rewrite Hi2, Hs2. cbn. destruct Hload; lia. }
  all: exists s1, t1; split; [done|]; split; [by eexists|]; split; [done|]; split; [|done];
       unfold load_ok; cbn; lia.
Qed.

Lemma nn_hash_init_ok s : hash_rep s nn_hash_init ∅ /\ load_ok nn_hash_init.
Proof.
  split; [|left; cbn; unfold NN_HASH_INITIAL_SLOTS; lia].
  assert (Hc : concat (replicate (Z.to_nat NN_HASH_INITIAL_SLOTS) (@nil addr)) = []) by reflexivity.
  exists (replicate (Z.to_nat NN_HASH_INITIAL_SLOTS) []). constructor.
  - apply fam_init.
  - exists 5. done.
  - apply length_replicate.
  - by rewrite Hc.
  - intros i xs x Hi Hx. apply lookup_replicate in Hi as [-> _]. by apply elem_of_nil in Hx.
  - intros k x. rewrite Hc, lookup_empty. split; [done|]. intros [Hx _]. by apply elem_of_nil in Hx.
Qed.

(** ** Tables inside larger structures *)

Lemma hash_rep_key s t m k x : hash_rep s t m -> m !! k = Some x -> hs_keys s !! x = Some k.
Proof. intros [xss Hr] Hm. by apply (hr_map _ _ _ _ Hr) in Hm as [_ ?]. Qed.

Lemma hash_rep_size s t m : hash_rep s t m -> h_items t = Z.of_nat (size m).
Proof.
  intros [xss Hr]. rewrite (hr_items _ _ _ _ Hr). f_equal. rewrite <- length_map_to_list, <- (length_fmap snd).
  apply Permutation_length, NoDup_Permutation; [apply (hr_fam _ _ _ _ Hr)| |].
  - apply NoDup_fmap_2_strong; [|apply NoDup_map_to_list].
    intros [k x] [k' x'] H1%elem_of_map_to_list H2%elem_of_map_to_list Heq. cbn in Heq. subst x'.
    apply (hr_map _ _ _ _ Hr) in H1 as [_ H1]. apply (hr_map _ _ _ _ Hr) in H2 as [_ H2]. congruence.
  - intros x. rewrite list_elem_of_fmap. split.
    + intros (i & xs & Hi & Hx)%elem_concat_inv. destruct (hr_placed _ _ _ _ Hr i xs x Hi Hx) as (k & Hk & _).
      exists (k, x). split; [done|]. apply elem_of_map_to_list, (hr_map _ _ _ _ Hr). split; [|done]. by eapply elem_concat.
    + intros ([k y] & -> & Hm%elem_of_map_to_list). by apply (hr_map _ _ _ _ Hr) in Hm as [? _].
Qed.

(** Initialising the item of an object that is not in the table. *)
Lemma hash_rep_item_init s t m x :
  hash_rep s t m -> hs_keys s !! x = None ->
  hash_rep (nn_hash_item_init s x) t m /\ free (hs_links (nn_hash_item_init s x)) x.
Proof.
  intros [xss Hr] Hk. assert (Hx : x ∉ concat xss).
  { intros (i & xs & Hxi & Hx)%elem_concat_inv. destruct (hr_placed _ _ _ _ Hr i xs x Hxi Hx) as (k & Hkx & _). congruence. }
  pose proof (fam_item_init _ _ _ x (hr_fam _ _ _ _ Hr) Hx) as Hf. destruct (list_item_init_spec (hs_links s) x) as [Hfree _].
  split; [|done]. exists xss. by destruct Hr.
Qed.

(** Only insertion writes keys, and only the one of the new item. *)
Lemma move_items_keys slots fuel : forall s array old s' array' old',
  move_items fuel s slots array old = Ok (s', array', old') -> hs_keys s' = hs_keys s.
Proof.
  induction fuel as [|fuel IH]; intros s array old s' array' old' E; cbn [move_items] in E; [done|].
  destruct (list_empty old); [by simplify_eq|]. destruct (list_begin old); try done.
  apply bind_Ok in E as ([[lk l] p] & _ & (k & _ & (l' & _ & ([lk' l2] & _ & E)%bind_Ok)%bind_Ok)%bind_Ok).
  by apply IH in E.
Qed.

Lemma nn_hash_rehash_keys s t s' t' : nn_hash_rehash s t = Ok (s', t') -> hs_keys s' = hs_keys s.
Proof.
  unfold nn_hash_rehash. intros ([s1 array] & E & E2)%bind_Ok. simplify_eq. revert E.
  generalize (replicate (Z.to_nat (u32 (h_slots t * 2))) list_init). generalize (h_array t). intros olds. revert s.
  induction olds as [|old olds IH]; intros s arr E; cbn [move_slots] in E; [by simplify_eq|].
  apply bind_Ok in E as ([[s1 arr1] old1] & E1%move_items_keys & (_ & _ & E2)%bind_Ok). apply IH in E2. congruence.
Qed.

Lemma nn_hash_insert_keys s t k x s' t' :
  nn_hash_insert s t k x = Ok (s', t') -> hs_keys s' = <[x := k]> (hs_keys s).
Proof.
  unfold nn_hash_insert. intros (l & _ & (_ & _ & ([lk l'] & _ & E)%bind_Ok)%bind_Ok)%bind_Ok.
  destruct (_ && _) in E; [by apply nn_hash_rehash_keys in E|by simplify_eq].
Qed.

Lemma nn_hash_erase_keys s t x s' t' : nn_hash_erase s t x = Ok (s', t') -> hs_keys s' = hs_keys s.
Proof.
  unfold nn_hash_erase. intros (k & _ & (l & _ & ([[lk l'] p] & _ & E)%bind_Ok)%bind_Ok)%bind_Ok. by simplify_eq.
Qed.

(** ** Runs of operations *)

Inductive hash_op :=
  | HInsert (k : Z) (x : addr)
  | HErase (k : Z)              (** [nn_hash_erase] of the item [nn_hash_get] returns *)
  | HGet (k : Z).

(** The reference: a finite map, with the results of the lookups. *)
Definition map_step (st : gmap Z addr * list ptr) (o : hash_op) : option (gmap Z addr * list ptr) :=
  let '(m, out) := st in
  match o with
  | HInsert k x =>
      if decide (m !! k = None) then
        if decide (x ∈ (map_to_list m).*2) then None else Some (<[k := x]> m, out)
      else None
  | HErase k => _ ← m !! k; Some (delete k m, out)
  | HGet k => Some (m, out ++ [match m !! k with Some x => At x | None => NULL end])
  end.

Definition hash_step (st : hitems St * nn_hash L * list ptr) (o : hash_op)
    : result (hitems St * nn_hash L * list ptr) :=
  let '(s, t, out) := st in
  match o with
  | HInsert k x => '(s, t) ← nn_hash_insert s t k x; Ok (s, t, out)
  | HErase k =>
      p ← nn_hash_get s t k;
      match p with
      | At x => '(s, t) ← nn_hash_erase s t x; Ok (s, t, out)
      | _ => Err BadAccess
      end
  | HGet k => p ← nn_hash_get s t k; Ok (s, t, out ++ [p])
  end.

Fixpoint map_run st (os : list hash_op) :=
  match os with [] => Some st | o :: os => st ← map_step st o; map_run st os end.
Fixpoint hash_run st (os : list hash_op) :=
  match os with [] => Ok st | o :: os => st ← hash_step st o; hash_run st os end.

Definition hash_op_item (o : hash_op) : option addr :=
  match o with HInsert _ x => Some x | _ => None end.

(** [n] bounds the number of insertions still to come. *)
Record hash_inv (U : list addr) (n : nat) s t m : Prop := {
  hi_rep : hash_rep s t m;
  hi_load : load_ok t;
  hi_bound : 0 <= h_items t /\ h_items t + Z.of_nat n < 2 ^ 31;
  hi_free : forall x, x ∈ U -> x ∉ (map_to_list m).*2 -> free (hs_links s) x
}.

Lemma img_elem m x : x ∈ (map_to_list m).*2 <-> exists k, m !! k = Some x.
Proof.
  rewrite list_elem_of_fmap. split.
  - intros ([k y] & -> & Hk%elem_of_map_to_list). by exists k.
  - intros [k Hk]. exists (k, x). by rewrite elem_of_map_to_list.
Qed.

Lemma hash_inv_weaken U n n' s t m : (n' <= n)%nat -> hash_inv U n s t m -> hash_inv U n' s t m.
Proof. intros ? [? ? ? ?]. constructor; [done..| |done]. lia. Qed.

Lemma hash_step_sim U n s t m out o m' out' :
  hash_inv U (S n) s t m -> (forall x, hash_op_item o = Some x -> x ∈ U) ->
  map_step (m, out) o = Some (m', out') ->
  exists s' t', hash_step (s, t, out) o = Ok (s', t', out') /\ hash_inv U n s' t' m'.
Proof.
  intros [Hr Hl Hb Hf] HU Ho. destruct o as [k x|k|k]; cbn [map_step hash_step] in *.
  - case_decide as Hm; [|done]. case_decide as Hx; [done|]. simplify_eq.
    destruct (nn_hash_insert_ok s t m k x) as (s' & t' & E & Hr' & Hi & Hl' & Hf');
      [done|done|by apply Hf; [apply HU|]|lia|done|].
    rewrite E. exists s', t'. split; [done|]. constructor; [done|done|lia|].
    intros y Hy Hny. apply Hf'.
    + intros ->. apply Hny, img_elem. exists k. apply lookup_insert_eq.
    + apply Hf; [done|]. intros [k' Hk']%img_elem. apply Hny, img_elem. exists k'.
      rewrite lookup_insert_ne; [done|congruence].
  - destruct (m !! k) as [x|] eqn:Hm; [|done]. cbn in Ho. simplify_eq.
    rewrite (nn_hash_get_ok s t m k Hr), Hm. mred.
    destruct (nn_hash_erase_ok s t m x k) as (s' & t' & E & Hr' & Hfx & Hi & Hs & Hf');
      [done|done|unfold in_range; lia|]. rewrite E. exists s', t'. split; [done|].
    assert (Hpos : 0 < h_items t).
    { destruct Hr as [xss Hr]. rewrite (hr_items _ _ _ _ Hr).
      apply (hr_map _ _ _ _ Hr) in Hm as [Hx _]. destruct (concat xss); [set_solver|cbn; lia]. }
    constructor; [done| |lia|].
    + destruct Hl as [Hl|Hl]; [left|right]; rewrite ?Hs, ?Hi; lia.
    + intros y Hy Hny. destruct (decide (y = x)) as [->|Hne]; [done|]. apply Hf', Hf; [done|].
      intros [k' Hk']%img_elem. apply Hny, img_elem. exists k'. rewrite lookup_delete_ne; [done|congruence].
  - simplify_eq. rewrite (nn_hash_get_ok s t m' k Hr). mred. exists s, t. split; [done|].
    constructor; [done..|lia|done].
Qed.

Lemma hash_run_sim U os s t m out m' out' :
  hash_inv U (length os) s t m -> Forall (fun o => forall x, hash_op_item o = Some x -> x ∈ U) os ->
  map_run (m, out) os = Some (m', out') ->
  exists s' t', hash_run (s, t, out) os = Ok (s', t', out') /\ hash_inv U 0 s' t' m'.
Proof.
  revert s t m out. induction os as [|o os IH]; intros s t m out Hi HU Hs.
  - cbn in *. simplify_eq. eauto.
  - apply Forall_cons in HU as [Ho HU]. cbn [map_run] in Hs.
    destruct (map_step (m, out) o) as [[m1 out1]|] eqn:E; [|done].
    destruct (hash_step_sim U (length os) s t m out o m1 out1) as (s1 & t1 & E1 & Hi1); [done..|].
    cbn [hash_run]. rewrite E1. mred. by apply (IH s1 t1 m1 out1).
Qed.

(** a run of [nn_hash_insert], [nn_hash_erase] and [nn_hash_get] from
    [nn_hash_init] (fewer than 2^31 operations, so that the 32-bit item counter
    does not wrap) answers every lookup as a finite map does, across every
    rehash; it ends with a power-of-two number of slots at most half full,
    unless the table has reached its maximal 2^31 slots. *)
Theorem nn_hash_refines_map (U : list addr) (os : list hash_op) s (m : gmap Z addr) (out : list ptr) :
  (forall x, x ∈ U -> free (hs_links s) x) ->
  Forall (fun o => forall x, hash_op_item o = Some x -> x ∈ U) os ->
  Z.of_nat (length os) < 2 ^ 31 ->
  map_run (∅, []) os = Some (m, out) ->
  exists s' t', hash_run (s, nn_hash_init, []) os = Ok (s', t', out)
    /\ (forall k, nn_hash_get s' t' k = Ok (match m !! k with Some x => At x | None => NULL end))
    /\ slots_ok (h_slots t') /\ load_ok t'.
Proof.
  intros Hf HU Hb Hs. destruct (nn_hash_init_ok s) as [Hr Hl].
  destruct (hash_run_sim U os s nn_hash_init ∅ [] m out) as (s' & t' & E & [Hr' Hl' _ _]); [|done|done|].
  - constructor; [done|done|cbn; lia|]. intros x Hx _. by apply Hf.
  - exists s', t'. split; [done|]. split; [intros k; by apply nn_hash_get_ok|]. split; [|done].
    destruct Hr' as [xss Hr']. apply Hr'.
Qed.

(** inserting a key that is already in the table aborts ([nn_assert] in
    the scan of its bucket), whatever the item. *)
Theorem nn_hash_insert_duplicate s t m k x y :
  hash_rep s t m -> m !! k = Some y -> nn_hash_insert s t k x = Err AssertFailed.
Proof. apply nn_hash_insert_dup. Qed.

End HashSpec.

(** ** Concrete runs *)

Definition demo_items : hitems store :=
  nn_hash_item_init (nn_hash_item_init (nn_hash_item_init (HItems ∅ ∅) 1%positive) 2%positive) 3%positive.

(** Key 7 is found, key 9 is not. *)
Lemma nn_hash_refines_map_witness :
  exists s t, hash_run (demo_items, nn_hash_init, []) [HInsert 7 1%positive; HInsert 39 2%positive; HGet 7; HErase 39; HGet 39]
      = Ok (s, t, [At 1; NULL]) /\ nn_hash_get s t 7 = Ok (At 1) /\ load_ok t.
Proof.
  destruct (nn_hash_refines_map [1; 2; 3]%positive
    [HInsert 7 1%positive; HInsert 39 2%positive; HGet 7; HErase 39; HGet 39]
    demo_items {[7 := 1%positive]} [At 1; NULL]) as (s & t & E & G & _ & Hl).
  - intros x Hx. exists NN_LIST_NOTINLIST.
    repeat (apply elem_of_cons in Hx as [->|Hx]; [reflexivity|]). by apply elem_of_nil in Hx.
  - repeat (apply Forall_cons; split; [intros x Hx; cbn in Hx; simplify_eq; set_solver|]).
    apply Forall_nil_2.
  - cbn; lia.
  - vm_compute. reflexivity.
  - exists s, t. split; [exact E|]. split; [apply (G 7)|exact Hl].
Defined.

Lemma nn_hash_insert_duplicate_witness :
  exists (s : hitems store) (t : nn_hash nn_list), nn_hash_insert s t 7 2%positive = Err AssertFailed.
Proof.
  destruct (nn_hash_init_ok demo_items) as [Hr Hl].
  destruct (nn_hash_insert_ok demo_items nn_hash_init ∅ 7 1%positive) as (s & t & _ & Hr' & _);
    [exact Hr|reflexivity|by exists NN_LIST_NOTINLIST|cbn; lia|exact Hl|].
  exists s, t. apply (nn_hash_insert_duplicate s t (<[7 := 1%positive]> ∅) 7 2%positive 1%positive Hr').
  apply lookup_insert_eq.
Defined.
