(* ===== verification/Wire.v ===== *)
(** * Integers on the wire ([utils/wire.c])

    Big-endian reads and writes of 16-, 32- and 64-bit unsigned integers at
    the start of a byte buffer.  A buffer is a list of bytes (integers in
    [0, 256)); touching it out of range is a fault. *)

From S2P Require Import Prelude.
Local Open Scope Z_scope.

Abbreviation bytes := (list Z).

Definition bytes_ok (b : bytes) : Prop := Forall (in_range 8) b.

(** [buf [i]] and [buf [i] = v]. *)
Definition rd (buf : bytes) (i : nat) : result Z := deref (buf !! i).
Definition wr (buf : bytes) (i : nat) (v : Z) : result bytes :=
  if bool_decide (i < length buf)%nat then Ok (<[i := v]> buf) else Err BadAccess.

Definition byte_of (val : Z) (sh : Z) : Z := u8 (Z.land (Z.shiftr val sh) 0xff).

Definition nn_gets (buf : bytes) : result Z :=
  b0 ← rd buf 0; b1 ← rd buf 1;
  Ok (u16 (Z.lor (Z.shiftl b0 8) b1)).

Definition nn_puts (buf : bytes) (val : Z) : result bytes :=
  buf ← wr buf 0 (byte_of val 8);
  wr buf 1 (u8 (Z.land val 0xff)).

Definition nn_getl (buf : bytes) : result Z :=
  b0 ← rd buf 0; b1 ← rd buf 1; b2 ← rd buf 2; b3 ← rd buf 3;
  Ok (Z.lor (Z.lor (Z.lor (u32 (Z.shiftl b0 24)) (u32 (Z.shiftl b1 16))) (u32 (Z.shiftl b2 8))) b3).

Definition nn_putl (buf : bytes) (val : Z) : result bytes :=
  buf ← wr buf 0 (byte_of val 24);
  buf ← wr buf 1 (byte_of val 16);
  buf ← wr buf 2 (byte_of val 8);
  wr buf 3 (u8 (Z.land val 0xff)).

Definition nn_getll (buf : bytes) : result Z :=
  b0 ← rd buf 0; b1 ← rd buf 1; b2 ← rd buf 2; b3 ← rd buf 3;
  b4 ← rd buf 4; b5 ← rd buf 5; b6 ← rd buf 6; b7 ← rd buf 7;
  Ok (Z.lor (Z.lor (Z.lor (Z.lor (Z.lor (Z.lor (Z.lor
       (u64 (Z.shiftl b0 56)) (u64 (Z.shiftl b1 48))) (u64 (Z.shiftl b2 40)))
       (u64 (Z.shiftl b3 32))) (u64 (Z.shiftl b4 24))) (u64 (Z.shiftl b5 16)))
       (u64 (Z.shiftl b6 8))) (u64 (Z.shiftl b7 0))).

Definition nn_putll (buf : bytes) (val : Z) : result bytes :=
  buf ← wr buf 0 (byte_of val 56);
  buf ← wr buf 1 (byte_of val 48);
  buf ← wr buf 2 (byte_of val 40);
  buf ← wr buf 3 (byte_of val 32);
  buf ← wr buf 4 (byte_of val 24);
  buf ← wr buf 5 (byte_of val 16);
  buf ← wr buf 6 (byte_of val 8);
  wr buf 7 (u8 (Z.land val 0xff)).

(** ** Big-endian numbers *)

Fixpoint be_val (acc : Z) (b : bytes) : Z :=
  match b with [] => acc | x :: b => be_val (acc * 256 + x) b end.

(** The [n] big-endian bytes of [v]. *)
Fixpoint be_bytes (n : nat) (v : Z) : bytes :=
  match n with O => [] | S n => be_bytes n (v / 256) ++ [v mod 256] end.

Lemma be_val_app acc a b : be_val acc (a ++ b) = be_val (be_val acc a) b.
Proof. revert acc; induction a; cbn; auto. Qed.

Lemma be_val_bytes n v acc : 0 <= v -> be_val acc (be_bytes n v) = acc * 256 ^ Z.of_nat n + v mod 256 ^ Z.of_nat n.
Proof.
  revert v; induction n as [|n IH]; intros v Hv.
  - cbn. rewrite Z.mod_1_r. lia.
  - cbn [be_bytes]. rewrite be_val_app, IH by (apply Z.div_pos; lia). cbn [be_val].
    rewrite Nat2Z.inj_succ, Z.pow_succ_r by lia.
    assert (0 < 256 ^ Z.of_nat n) by (apply Z.pow_pos_nonneg; lia).
    rewrite Z.rem_mul_r by lia. ring.
Qed.

Lemma be_bytes_length n v : length (be_bytes n v) = n.
Proof. revert v; induction n; intros; cbn; [done|]. rewrite length_app, IHn. cbn. lia. Qed.

Lemma be_bytes_ok n v : bytes_ok (be_bytes n v).
Proof.
  revert v; induction n; intros v; cbn; [constructor|]. apply Forall_app; split; [apply IHn|].
  constructor; [|constructor]. apply Z.mod_pos_bound. lia.
Qed.

Lemma be_val_range b acc : bytes_ok b -> 0 <= acc ->
  acc * 256 ^ Z.of_nat (length b) <= be_val acc b < (acc + 1) * 256 ^ Z.of_nat (length b).
Proof.
  intros Hb. revert acc; induction Hb as [|x b Hx Hb IH]; intros acc Ha; cbn [be_val length].
  - cbn. lia.
  - unfold in_range in Hx. specialize (IH (acc * 256 + x) ltac:(lia)).
    rewrite Nat2Z.inj_succ, Z.pow_succ_r by lia. nia.
Qed.

Lemma be_bytes_val b : bytes_ok b -> be_bytes (length b) (be_val 0 b) = b.
Proof.
  induction b as [|x b IH] using rev_ind; intros Hb; [done|].
  apply Forall_app in Hb as [Hb Hx]. apply Forall_cons in Hx as [Hx _]. unfold in_range in Hx.
  rewrite length_app, be_val_app. cbn [length be_val]. rewrite Nat.add_comm. cbn [Nat.add be_bytes].
  pose proof (be_val_range b 0 Hb ltac:(lia)) as [H0 _].
  rewrite Z.div_add_l, Z.div_small, Z.add_0_r by lia. rewrite IH by done.
  do 2 f_equal. rewrite Z.add_comm, Z_mod_plus_full. apply Z.mod_small. lia.
Qed.

Lemma byte_of_eq val sh : 0 <= sh -> byte_of val sh = (val / 2 ^ sh) mod 256.
Proof.
  intros. unfold byte_of. change 0xff with (Z.ones 8). rewrite Z.land_ones, Z.shiftr_div_pow2 by lia.
  apply wrap_small. apply Z.mod_pos_bound. lia.
Qed.

Lemma low_byte val : u8 (Z.land val 0xff) = val mod 256.
Proof. change 0xff with (Z.ones 8). rewrite Z.land_ones by lia. apply (wrap_idem 8). Qed.

(** ** The readers and writers are the big-endian ones *)

Lemma wr_app b0 x b1 v : wr (b0 ++ x :: b1) (length b0) v = Ok (b0 ++ v :: b1).
Proof.
  unfold wr. rewrite length_app. cbn [length]. decide_bools. f_equal.
  rewrite <- (Nat.add_0_r (length b0)). by rewrite insert_app_r.
Qed.

(** The ranges of the bytes of a literal buffer. *)
Ltac split_bytes :=
  unfold bytes_ok in *;
  repeat match goal with H : Forall _ (_ :: _) |- _ => apply Forall_cons in H as [? H] end.

Lemma nn_putl_eq b0 b1 b2 b3 rest val : 0 <= val ->
  nn_putl (b0 :: b1 :: b2 :: b3 :: rest) val = Ok (be_bytes 4 val ++ rest).
Proof.
  intros Hv. unfold nn_putl. rewrite !byte_of_eq, low_byte by lia. cbn.
  change (2 ^ 8) with 256. change (2 ^ 16) with (256 * 256). change (2 ^ 24) with (256 * 256 * 256).
  by rewrite <- !Z.div_div by lia.
Qed.

Lemma nn_puts_eq b0 b1 rest val : 0 <= val ->
  nn_puts (b0 :: b1 :: rest) val = Ok (be_bytes 2 val ++ rest).
Proof. intros Hv. unfold nn_puts. rewrite !byte_of_eq, low_byte by lia. done. Qed.

Lemma nn_putll_eq b0 b1 b2 b3 b4 b5 b6 b7 rest val : 0 <= val ->
  nn_putll (b0 :: b1 :: b2 :: b3 :: b4 :: b5 :: b6 :: b7 :: rest) val = Ok (be_bytes 8 val ++ rest).
Proof.
  intros Hv. unfold nn_putll. rewrite !byte_of_eq, low_byte by lia. cbn.
  change (2 ^ 8) with 256. change (2 ^ 16) with (256 * 256). change (2 ^ 24) with (256 * 256 * 256).
  change (2 ^ 32) with (256 * 256 * 256 * 256). change (2 ^ 40) with (256 * 256 * 256 * 256 * 256).
  change (2 ^ 48) with (256 * 256 * 256 * 256 * 256 * 256).
  change (2 ^ 56) with (256 * 256 * 256 * 256 * 256 * 256 * 256).
  by rewrite <- !Z.div_div by lia.
Qed.

(** One more [|] of a shifted byte is one more step of [be_val]. *)
Lemma lor_step w a x n m : m = n + 8 -> 0 <= n -> 0 <= a -> in_range 8 x -> a * 2 ^ m + x * 2 ^ n < 2 ^ w ->
  Z.lor (a * 2 ^ m) (wrap w (Z.shiftl x n)) = (a * 256 + x) * 2 ^ n.
Proof.
  intros -> Hn Ha Hx Hlt. unfold in_range in Hx.
  assert (0 < 2 ^ n) by (apply Z.pow_pos_nonneg; lia).
  assert (E : 2 ^ (n + 8) = 256 * 2 ^ n) by (rewrite Z.pow_add_r by lia; lia).
  assert (Hs : Z.shiftl x n = x * 2 ^ n) by (apply Z.shiftl_mul_pow2; lia).
  assert (0 <= x * 2 ^ n < 256 * 2 ^ n) by nia.
  assert (0 <= a * 2 ^ (n + 8)) by (apply Z.mul_nonneg_nonneg; lia).
  rewrite Hs, wrap_small by (unfold in_range; lia).
  rewrite <- (Z.shiftl_mul_pow2 a), lor_add by lia. rewrite E. ring.
Qed.

Lemma lor_last a x : 0 <= a -> in_range 8 x -> Z.lor (a * 2 ^ 8) x = a * 256 + x.
Proof. intros Ha Hx. rewrite <- Z.shiftl_mul_pow2 by lia. by rewrite lor_add by (unfold in_range in *; lia). Qed.

Lemma first_byte w x n : 0 <= n -> in_range 8 x -> x * 2 ^ n < 2 ^ w -> wrap w (Z.shiftl x n) = x * 2 ^ n.
Proof.
  intros Hn Hx Hlt. unfold in_range in Hx. assert (0 < 2 ^ n) by (apply Z.pow_pos_nonneg; lia).
  rewrite wrap_small; rewrite Z.shiftl_mul_pow2 by lia; [done|]. split; [nia|done].
Qed.

Lemma nn_gets_eq b0 b1 rest : bytes_ok [b0; b1] ->
  nn_gets (b0 :: b1 :: rest) = Ok (be_val 0 [b0; b1]).
Proof.
  intros Hb. split_bytes.
  unfold nn_gets. cbn [rd lookup list_lookup deref mbind result_bind]. f_equal.
  unfold in_range in *. rewrite lor_add by lia.
  rewrite wrap_small by (unfold in_range; lia). cbn [be_val]. change (2 ^ 8) with 256. ring.
Qed.

Lemma nn_getl_eq b0 b1 b2 b3 rest : bytes_ok [b0; b1; b2; b3] ->
  nn_getl (b0 :: b1 :: b2 :: b3 :: rest) = Ok (be_val 0 [b0; b1; b2; b3]).
Proof.
  intros Hb. split_bytes.
  unfold nn_getl. cbn [rd lookup list_lookup deref mbind result_bind].
  rewrite (first_byte 32 b0 24) by (unfold in_range in *; lia || done).
  rewrite (lor_step 32 b0 b1 16 24) by (unfold in_range in *; lia || done).
  rewrite (lor_step 32 (b0 * 256 + b1) b2 8 16) by (unfold in_range in *; lia || done).
  rewrite lor_last by (unfold in_range in *; lia || done). done.
Qed.

Lemma nn_getll_eq b0 b1 b2 b3 b4 b5 b6 b7 rest : bytes_ok [b0; b1; b2; b3; b4; b5; b6; b7] ->
  nn_getll (b0 :: b1 :: b2 :: b3 :: b4 :: b5 :: b6 :: b7 :: rest)
    = Ok (be_val 0 [b0; b1; b2; b3; b4; b5; b6; b7]).
Proof.
  intros Hb. split_bytes.
  unfold nn_getll. cbn [rd lookup list_lookup deref mbind result_bind].
  rewrite (first_byte 64 b0 56) by (unfold in_range in *; lia || done).
  rewrite (lor_step 64 b0 b1 48 56) by (unfold in_range in *; lia || done).
  rewrite (lor_step 64 _ b2 40 48) by (unfold in_range in *; lia || done).
  rewrite (lor_step 64 _ b3 32 40) by (unfold in_range in *; lia || done).
  rewrite (lor_step 64 _ b4 24 32) by (unfold in_range in *; lia || done).
  rewrite (lor_step 64 _ b5 16 24) by (unfold in_range in *; lia || done).
  rewrite (lor_step 64 _ b6 8 16) by (unfold in_range in *; lia || done).
  rewrite Z.shiftl_0_r, (wrap_small 64 b7) by (unfold in_range in *; lia).
  rewrite lor_last by (unfold in_range in *; lia || done). done.
Qed.

(** ** Round trips *)

Lemma buf_split {A} n (buf : list A) : (n <= length buf)%nat -> exists a b, buf = a ++ b /\ length a = n.
Proof.
  intros Hn. exists (take n buf), (drop n buf). split; [by rewrite take_drop|].
  rewrite length_take. lia.
Qed.

Ltac explode_list :=
  repeat match goal with
    | H : length ?a = S _ |- _ => destruct a as [|? a]; [discriminate H|]; cbn [length] in H; injection H as H
    | H : length ?a = 0%nat |- _ => apply nil_length_inv in H; subst a
    end.

(** A value that fits in [n] bytes is determined by its big-endian bytes. *)
Lemma be_round n v : 0 <= v < 256 ^ Z.of_nat n -> be_val 0 (be_bytes n v) = v.
Proof. intros Hv. rewrite be_val_bytes by lia. rewrite Z.mod_small by lia. lia. Qed.

(** what [nn_puts], [nn_putl] and [nn_putll] write, [nn_gets], [nn_getl]
    and [nn_getll] read back; they write the big-endian representation and
    change nothing after the 2, 4 or 8 bytes they cover. *)
Theorem wire_roundtrip (buf : bytes) (v : Z) :
  (in_range 16 v -> (2 <= length buf)%nat ->
     exists buf', nn_puts buf v = Ok buf' /\ buf' = be_bytes 2 v ++ drop 2 buf /\ nn_gets buf' = Ok v) /\
  (in_range 32 v -> (4 <= length buf)%nat ->
     exists buf', nn_putl buf v = Ok buf' /\ buf' = be_bytes 4 v ++ drop 4 buf /\ nn_getl buf' = Ok v) /\
  (in_range 64 v -> (8 <= length buf)%nat ->
     exists buf', nn_putll buf v = Ok buf' /\ buf' = be_bytes 8 v ++ drop 8 buf /\ nn_getll buf' = Ok v).
Proof.
  repeat split; intros Hv (a & b & -> & Ha)%buf_split; explode_list; unfold in_range in Hv;
    eexists; (split; [first [apply nn_puts_eq | apply nn_putl_eq | apply nn_putll_eq]; lia|]);
    (split; [reflexivity|]).
  all: match goal with |- context [be_bytes ?n ?w] =>
         pose proof (be_bytes_ok n w) as Hok; pose proof (be_bytes_length n w) as Hlen;
         pose proof (be_round n w) as Hrt; remember (be_bytes n w) as l eqn:El; clear El end;
       explode_list; cbn [app] in *.
  - rewrite nn_gets_eq by done. f_equal. apply Hrt. cbn. lia.
  - rewrite nn_getl_eq by done. f_equal. apply Hrt. cbn. lia.
  - rewrite nn_getll_eq by done. f_equal. apply Hrt. cbn. lia.
Qed.

Lemma wire_roundtrip_witness :
  (exists buf', nn_putl [1; 2; 3; 4; 5] 0xdeadcafe = Ok buf'
     /\ buf' = be_bytes 4 0xdeadcafe ++ [5] /\ nn_getl buf' = Ok 0xdeadcafe).
Proof. apply (wire_roundtrip [1; 2; 3; 4; 5] 0xdeadcafe); [unfold in_range; lia|cbn; lia]. Defined.

(** Conversely, writing back what was read leaves the buffer unchanged:
    each of the two codecs is injective on valid bytes. *)
Theorem wire_read_write (buf : bytes) :
  bytes_ok buf ->
  ((2 <= length buf)%nat -> exists v, nn_gets buf = Ok v /\ in_range 16 v /\ nn_puts buf v = Ok buf) /\
  ((4 <= length buf)%nat -> exists v, nn_getl buf = Ok v /\ in_range 32 v /\ nn_putl buf v = Ok buf) /\
  ((8 <= length buf)%nat -> exists v, nn_getll buf = Ok v /\ in_range 64 v /\ nn_putll buf v = Ok buf).
Proof.
  intros Hok. repeat split; intros (a & b & -> & Ha)%buf_split;
    apply Forall_app in Hok as [Hok _];
    pose proof (be_val_range a 0 Hok ltac:(lia)) as Hr; pose proof (be_bytes_val a Hok) as Hbv;
    rewrite Ha in Hr, Hbv; exists (be_val 0 a); explode_list; cbn [app].
  - rewrite nn_gets_eq by done. split; [done|]. split; [unfold in_range; cbn in *; lia|].
    rewrite nn_puts_eq by (cbn in *; lia). by rewrite Hbv.
  - rewrite nn_getl_eq by done. split; [done|]. split; [unfold in_range; cbn in *; lia|].
    rewrite nn_putl_eq by (cbn in *; lia). by rewrite Hbv.
  - rewrite nn_getll_eq by done. split; [done|]. split; [unfold in_range; cbn in *; lia|].
    rewrite nn_putll_eq by (cbn in *; lia). by rewrite Hbv.
Qed.

Lemma wire_read_write_witness :
  exists v, nn_getl [0xde; 0xad; 0xca; 0xfe; 9] = Ok v /\ in_range 32 v
    /\ nn_putl [0xde; 0xad; 0xca; 0xfe; 9] v = Ok [0xde; 0xad; 0xca; 0xfe; 9].
Proof.
  apply (wire_read_write [0xde; 0xad; 0xca; 0xfe; 9]); [|cbn; lia].
  repeat (apply Forall_cons; split; [unfold in_range; lia|]). apply Forall_nil_2.
Defined.
