(* ===== verification/Chunk.v ===== *)
(** * Reference-counted chunks and references to them ([utils/chunk.c], [utils/chunkref.c])

    A chunk is a heap block: a header ([refcount], [size]; the deallocation
    function is always the default one), then possibly some empty space, its
    size and a tag as big-endian 32-bit integers, then the data.  A pointer to
    a chunk points to the data; the model's is a block and an offset from the
    end of the header structure.  A [nn_chunkref] holds its data itself when
    it is shorter than 32 bytes.

    The C library's [malloc] is the class [Malloc]: a function of the heap that
    may refuse.  The sizes are those of a 64-bit machine. *)

From S2P Require Import Prelude NNList Wire.
Local Open Scope Z_scope.

Definition NN_CHUNK_TAG : Z := 0xdeadcafe.
Definition NN_CHUNK_TAG_DEALLOCATED : Z := 0xbeadfeed.

(** [ck_mem]: the bytes of the block after the structure. *)
Record nn_chunk := Chunk { ck_refcount : Z; ck_size : Z; ck_mem : bytes }.
Abbreviation cheap := (gmap positive nn_chunk).

(** A pointer into a chunk's block. *)
Record cptr := CPtr { cp_block : addr; cp_off : nat }.
#[export] Instance cptr_eq_dec : EqDecision cptr.
Proof. solve_decision. Defined.

Definition sizeof_nn_chunk : Z := 24.
Definition nn_chunk_hdrsize : Z := sizeof_nn_chunk + 2 * 4.

(** A block of the given size: its address, and what the memory after the
    structure happens to hold. *)
Class Malloc := {
  malloc : cheap -> Z -> option (addr * bytes);
  malloc_spec h sz a m : sizeof_nn_chunk <= sz -> malloc h sz = Some (a, m) ->
    h !! a = None /\ Z.of_nat (length m) = sz - sizeof_nn_chunk
}.

(** Reading and writing an integer [k] bytes before a pointer. *)
Definition getl_before (h : cheap) (p : cptr) (k : nat) : result Z :=
  c ← deref (h !! cp_block p);
  _ ← (if bool_decide (k <= cp_off p)%nat then Ok tt else Err BadAccess);
  nn_getl (drop (cp_off p - k) (ck_mem c)).

Definition putl_before (h : cheap) (p : cptr) (k : nat) (v : Z) : result cheap :=
  c ← deref (h !! cp_block p);
  _ ← (if bool_decide (k <= cp_off p)%nat then Ok tt else Err BadAccess);
  m ← nn_putl (drop (cp_off p - k) (ck_mem c)) v;
  Ok (<[cp_block p := Chunk (ck_refcount c) (ck_size c) (take (cp_off p - k) (ck_mem c) ++ m)]> h).

Definition set_refcount (h : cheap) (a : addr) (n : Z) : result cheap :=
  c ← deref (h !! a); Ok (<[a := Chunk n (ck_size c) (ck_mem c)]> h).
Definition set_size (h : cheap) (a : addr) (n : Z) : result cheap :=
  c ← deref (h !! a); Ok (<[a := Chunk (ck_refcount c) n (ck_mem c)]> h).

(** ** [chunk.c] *)

Definition nn_chunk_getdata (self : addr) : cptr := CPtr self 8.

(** The structure must be the start of the block. *)
Definition nn_chunk_getptr (h : cheap) (p : cptr) : result addr :=
  tag ← getl_before h p 4;
  _ ← assert_ (bool_decide (tag = NN_CHUNK_TAG));
  off ← getl_before h p 8;
  if bool_decide (Z.of_nat (cp_off p) = 2 * 4 + off) then Ok (cp_block p) else Err BadAccess.

Section Chunk.
  Context `{Malloc}.

Definition nn_chunk_alloc (h : cheap) (size type : Z) : result (cheap * Z * option cptr) :=
  let hdrsz := nn_chunk_hdrsize in
  let sz := u64 (hdrsz + size) in
  if bool_decide (sz < hdrsz) then Ok (h, - ENOMEM, None)
  else if negb (bool_decide (type = 0)) then Ok (h, - EINVAL, None)
  else match malloc h sz with
       | None => Ok (h, - ENOMEM, None)
       | Some (self, m) =>
           let h := <[self := Chunk 1 size m]> h in
           h ← putl_before h (nn_chunk_getdata self) 8 0;
           h ← putl_before h (nn_chunk_getdata self) 4 NN_CHUNK_TAG;
           Ok (h, 0, Some (nn_chunk_getdata self))
       end.

(** [realloc]: the block moves to a new address; its bytes are kept up to the
    smaller of the two sizes. *)
Definition nn_realloc (h : cheap) (self : addr) (sz : Z) : result (cheap * option addr) :=
  c ← deref (h !! self);
  match malloc h sz with
  | None => Ok (h, None)
  | Some (a, m) =>
      let kept := take (length m) (ck_mem c) in
      Ok (<[a := Chunk (ck_refcount c) (ck_size c) (kept ++ drop (length kept) m)]> (delete self h), Some a)
  end.

(** [memcpy] of [n] bytes from one chunk's data to another's. *)
Definition copy_data (h : cheap) (dst src : cptr) (n : nat) : result cheap :=
  d ← deref (h !! cp_block dst);
  s ← deref (h !! cp_block src);
  if bool_decide (cp_off dst + n <= length (ck_mem d))%nat && bool_decide (cp_off src + n <= length (ck_mem s))%nat then
    Ok (<[cp_block dst := Chunk (ck_refcount d) (ck_size d)
          (take (cp_off dst) (ck_mem d) ++ take n (drop (cp_off src) (ck_mem s)) ++ drop (cp_off dst + n) (ck_mem d))]> h)
  else Err BadAccess.

Definition nn_chunk_realloc (h : cheap) (size : Z) (chunk : cptr) : result (cheap * Z * cptr) :=
  self ← nn_chunk_getptr h chunk;
  c ← deref (h !! self);
  if bool_decide (ck_refcount c = 1) then
    let hdr_size := nn_chunk_hdrsize in
    let new_size := u64 (hdr_size + size) in
    if bool_decide (new_size < hdr_size) then Ok (h, - ENOMEM, chunk)
    else
      '(h, new_chunk) ← nn_realloc h self new_size;
      match new_chunk with
      | None => Ok (h, - ENOMEM, chunk)
      | Some new_chunk => h ← set_size h new_chunk size; Ok (h, 0, nn_chunk_getdata new_chunk)
      end
  else
    '(h, rc, new_ptr) ← nn_chunk_alloc h size 0;
    if negb (bool_decide (rc = 0)) then Ok (h, rc, chunk)
    else
      new_ptr ← deref new_ptr;
      h ← copy_data h new_ptr (nn_chunk_getdata self) (Z.to_nat (ck_size c));
      c ← deref (h !! self);
      h ← set_refcount h self (u32 (ck_refcount c - 1));
      Ok (h, 0, new_ptr).
End Chunk.

Definition nn_chunk_free (h : cheap) (p : cptr) : result cheap :=
  self ← nn_chunk_getptr h p;
  c ← deref (h !! self);
  h ← set_refcount h self (u32 (ck_refcount c - 1));
  if bool_decide (ck_refcount c <= 1) then
    h ← putl_before h p 4 NN_CHUNK_TAG_DEALLOCATED;
    Ok (delete self h)
  else Ok h.

Definition nn_chunk_addref (h : cheap) (p : cptr) (n : Z) : result cheap :=
  self ← nn_chunk_getptr h p;
  c ← deref (h !! self);
  set_refcount h self (u32 (ck_refcount c + n)).

Definition nn_chunk_size (h : cheap) (p : cptr) : result Z :=
  self ← nn_chunk_getptr h p;
  ck_size <$> deref (h !! self).

Definition nn_chunk_trim (h : cheap) (p : cptr) (n : Z) : result (cheap * cptr) :=
  self ← nn_chunk_getptr h p;
  c ← deref (h !! self);
  _ ← assert_ (bool_decide (n <= ck_size c));
  let p := CPtr (cp_block p) (cp_off p + Z.to_nat n) in
  h ← putl_before h p 4 NN_CHUNK_TAG;
  let empty_space := Z.of_nat (cp_off p) - 2 * 4 in
  _ ← assert_ (bool_decide (empty_space < 2 ^ 32 - 1));
  h ← putl_before h p 8 (u32 empty_space);
  c ← deref (h !! self);
  h ← set_size h self (u64 (ck_size c - n));
  Ok (h, p).

(** ** [chunkref.c] *)

Definition NN_CHUNKREF_MAX : Z := 32.

(** [u.ref [0]] is 0xff for a chunk, else the number of bytes in [u.ref [1..]]. *)
Inductive nn_chunkref :=
  | RefInline (data : bytes)
  | RefChunk (chunk : cptr).

Section Chunkref.
  Context `{Malloc}.

(** [junk]: what the uninitialised structure holds. *)
Definition nn_chunkref_init (h : cheap) (size : Z) (junk : bytes) : result (cheap * nn_chunkref) :=
  if bool_decide (size < NN_CHUNKREF_MAX) then Ok (h, RefInline (take (Z.to_nat size) junk))
  else
    '(h, rc, chunk) ← nn_chunk_alloc h size 0;
    _ ← assert_ (bool_decide (rc = 0));
    chunk ← deref chunk;
    Ok (h, RefChunk chunk).

Definition nn_chunkref_init_chunk (chunk : cptr) : nn_chunkref := RefChunk chunk.

Definition nn_chunkref_term (h : cheap) (self : nn_chunkref) : result cheap :=
  match self with RefChunk chunk => nn_chunk_free h chunk | RefInline _ => Ok h end.

(** [memcpy] of bytes to the start of a chunk's data. *)
Definition write_data (h : cheap) (p : cptr) (bs : bytes) : result cheap :=
  c ← deref (h !! cp_block p);
  if bool_decide (cp_off p + length bs <= length (ck_mem c))%nat then
    Ok (<[cp_block p := Chunk (ck_refcount c) (ck_size c)
          (take (cp_off p) (ck_mem c) ++ bs ++ drop (cp_off p + length bs) (ck_mem c))]> h)
  else Err BadAccess.

(** The chunk, and the reference that is left. *)
Definition nn_chunkref_getchunk (h : cheap) (self : nn_chunkref) : result (cheap * cptr * nn_chunkref) :=
  match self with
  | RefChunk chunk => Ok (h, chunk, RefInline [])
  | RefInline data =>
      '(h, rc, chunk) ← nn_chunk_alloc h (Z.of_nat (length data)) 0;
      _ ← assert_ (bool_decide (rc = 0));
      chunk ← deref chunk;
      h ← write_data h chunk data;
      Ok (h, chunk, RefInline [])
  end.
End Chunkref.

Definition nn_chunkref_mv (src : nn_chunkref) : nn_chunkref := src.

Definition nn_chunkref_cp (h : cheap) (src : nn_chunkref) : result (cheap * nn_chunkref) :=
  h ← match src with RefChunk chunk => nn_chunk_addref h chunk 1 | RefInline _ => Ok h end;
  Ok (h, src).

Definition nn_chunkref_size (h : cheap) (self : nn_chunkref) : result Z :=
  match self with RefChunk chunk => nn_chunk_size h chunk | RefInline data => Ok (Z.of_nat (length data)) end.

(** The bytes at [nn_chunkref_data]: as many as [nn_chunkref_size] says. *)
Definition nn_chunkref_data (h : cheap) (self : nn_chunkref) : result bytes :=
  match self with
  | RefInline data => Ok data
  | RefChunk p =>
      n ← nn_chunk_size h p;
      c ← deref (h !! cp_block p);
      if bool_decide (cp_off p + Z.to_nat n <= length (ck_mem c))%nat
      then Ok (take (Z.to_nat n) (drop (cp_off p) (ck_mem c))) else Err BadAccess
  end.

(** A [memcpy] to [nn_chunkref_data]. *)
Definition write_ref (h : cheap) (self : nn_chunkref) (bs : bytes) : result (cheap * nn_chunkref) :=
  match self with
  | RefInline data =>
      if bool_decide (length bs <= length data)%nat then Ok (h, RefInline (bs ++ drop (length bs) data)) else Err BadAccess
  | RefChunk p => h ← write_data h p bs; Ok (h, self)
  end.

Definition nn_chunkref_trim (h : cheap) (self : nn_chunkref) (n : Z) : result (cheap * nn_chunkref) :=
  match self with
  | RefChunk chunk => '(h, chunk) ← nn_chunk_trim h chunk n; Ok (h, RefChunk chunk)
  | RefInline data =>
      _ ← assert_ (bool_decide (Z.of_nat (length data) >= n));
      Ok (h, RefInline (drop (Z.to_nat n) data))
  end.

Definition nn_chunkref_bulkcopy_start (h : cheap) (self : nn_chunkref) (copies : Z) : result cheap :=
  match self with RefChunk chunk => nn_chunk_addref h chunk copies | RefInline _ => Ok h end.

Definition nn_chunkref_bulkcopy_cp (src : nn_chunkref) : nn_chunkref := src.

(** ** Representation

    The data [bs] at pointer [p]: before it the tag and the size of the empty
    space [pre] between the structure and them. *)
Definition layout (c : nn_chunk) (p : cptr) (bs : bytes) : Prop :=
  exists pre, ck_mem c = pre ++ be_bytes 4 (Z.of_nat (length pre)) ++ be_bytes 4 NN_CHUNK_TAG ++ bs
    /\ cp_off p = (length pre + 8)%nat /\ ck_size c = Z.of_nat (length bs)
    /\ Z.of_nat (length pre + length bs) < 2 ^ 32 - 1.

Lemma getl_before_ok h p k c a v rest : h !! cp_block p = Some c -> ck_mem c = a ++ be_bytes 4 v ++ rest ->
  (length a + k = cp_off p)%nat -> in_range 32 v -> getl_before h p k = Ok v.
Proof.
  intros Ec Em Hk Hv. unfold getl_before. rewrite Ec. cbn [mbind result_bind deref]. rewrite bool_decide_true by lia. cbn [mbind result_bind].
  replace (cp_off p - k)%nat with (length a) by lia. rewrite Em, drop_app_length.
  pose proof (be_bytes_ok 4 v) as Hok. pose proof (be_bytes_length 4 v) as Hlen. pose proof (be_round 4 v) as Hrt.
  remember (be_bytes 4 v) as l eqn:El. clear El. explode_list. cbn [app]. rewrite nn_getl_eq by done. f_equal. apply Hrt.
  unfold in_range in Hv. cbn. lia.
Qed.

Lemma putl_before_ok h p k v c a x rest : h !! cp_block p = Some c -> ck_mem c = a ++ x ++ rest -> length x = 4%nat ->
  (length a + k = cp_off p)%nat -> 0 <= v ->
  putl_before h p k v = Ok (<[cp_block p := Chunk (ck_refcount c) (ck_size c) (a ++ be_bytes 4 v ++ rest)]> h).
Proof.
  intros Ec Em Hx Hk Hv. unfold putl_before. rewrite Ec. cbn [mbind result_bind deref]. rewrite bool_decide_true by lia. cbn [mbind result_bind].
  replace (cp_off p - k)%nat with (length a) by lia. rewrite Em, drop_app_length, take_app_length.
  explode_list. cbn [app]. by rewrite nn_putl_eq.
Qed.

Lemma tag_range : in_range 32 NN_CHUNK_TAG.
Proof. unfold in_range, NN_CHUNK_TAG. lia. Qed.

Lemma getptr_ok h p c bs : h !! cp_block p = Some c -> layout c p bs -> nn_chunk_getptr h p = Ok (cp_block p).
Proof.
  intros Ec (pre & Em & Ho & Hs & Hb). unfold nn_chunk_getptr.
  rewrite (getl_before_ok h p 4 c (pre ++ be_bytes 4 (Z.of_nat (length pre))) NN_CHUNK_TAG bs Ec); [|by rewrite <- app_assoc| |apply tag_range].
  2: { rewrite length_app, be_bytes_length. lia. }
  cbn [mbind result_bind]. rewrite bool_decide_true by done. cbn [assert_ mbind result_bind].
  rewrite (getl_before_ok h p 8 c pre (Z.of_nat (length pre)) _ Ec Em); [|lia|unfold in_range; lia].
  cbn [mbind result_bind]. by rewrite bool_decide_true by lia.
Qed.

(** A chunk is determined by its block: pointers with a valid layout agree. *)
Lemma layout_refcount c p bs n : layout c p bs -> layout (Chunk n (ck_size c) (ck_mem c)) p bs.
Proof. done. Qed.

Lemma size_ok h p c bs : h !! cp_block p = Some c -> layout c p bs -> nn_chunk_size h p = Ok (Z.of_nat (length bs)).
Proof.
  intros Ec Hl. unfold nn_chunk_size. rewrite (getptr_ok _ _ _ _ Ec Hl). cbn [mbind result_bind]. rewrite Ec.
  destruct Hl as (pre & _ & _ & Hs & _). cbn. by rewrite Hs.
Qed.

Lemma data_ok h p c bs : h !! cp_block p = Some c -> layout c p bs -> nn_chunkref_data h (RefChunk p) = Ok bs.
Proof.
  intros Ec Hl. cbn [nn_chunkref_data]. rewrite (size_ok _ _ _ _ Ec Hl). cbn [mbind result_bind]. rewrite Ec. cbn [mbind result_bind deref].
  destruct Hl as (pre & Em & Ho & Hs & Hb). rewrite Nat2Z.id. rewrite Em, Ho. rewrite !app_assoc.
  rewrite bool_decide_true by (rewrite !length_app, !be_bytes_length; lia).
  rewrite drop_app_length' by (rewrite !length_app, !be_bytes_length; lia). by rewrite firstn_all.
Qed.

Section Operations.
  Context `{Malloc}.

Lemma alloc_ok h size a m : 0 <= size < 2 ^ 32 - 1 -> malloc h (nn_chunk_hdrsize + size) = Some (a, m) ->
  exists c rest, nn_chunk_alloc h size 0 = Ok (<[a := c]> h, 0, Some (CPtr a 8)) /\ h !! a = None /\
    c = Chunk 1 size (be_bytes 4 0 ++ be_bytes 4 NN_CHUNK_TAG ++ rest) /\ Z.of_nat (length rest) = size.
Proof.
  intros Hs Em. pose proof (malloc_spec h (nn_chunk_hdrsize + size) a m) as Hm. unfold nn_chunk_hdrsize, sizeof_nn_chunk in *.
  destruct Hm as [Ha Hlen]; [lia|done|]. unfold nn_chunk_alloc, nn_chunk_hdrsize, sizeof_nn_chunk.
  rewrite wrap_small by (unfold in_range; lia). rewrite bool_decide_false by lia. rewrite (bool_decide_true (0 = 0)) by done. cbn [negb].
  rewrite Em. destruct (buf_split 4 m) as (x & m1 & -> & Hx); [lia|]. rewrite length_app in Hlen. destruct (buf_split 4 m1) as (y & rest & -> & Hy); [lia|].
  rewrite length_app in Hlen. rewrite (putl_before_ok _ _ 8 0 (Chunk 1 size (x ++ y ++ rest)) [] x (y ++ rest)); [|by apply lookup_insert_eq|done|done|done|lia].
  cbn [mbind result_bind ck_refcount ck_size]. cbn [nn_chunk_getdata cp_block]. rewrite insert_insert_eq.
  rewrite (putl_before_ok _ _ 4 NN_CHUNK_TAG (Chunk 1 size (be_bytes 4 0 ++ y ++ rest)) (be_bytes 4 0) y rest); [|by apply lookup_insert_eq|done|done|done|done].
  cbn [mbind result_bind ck_refcount ck_size cp_block]. rewrite insert_insert_eq. eexists _, rest. split; [done|]. split; [done|]. split; [done|]. lia.
Qed.

Lemma free_ok h p c bs : h !! cp_block p = Some c -> layout c p bs -> 1 <= ck_refcount c < 2 ^ 32 ->
  nn_chunk_free h p = Ok (if bool_decide (ck_refcount c = 1) then delete (cp_block p) h
                          else <[cp_block p := Chunk (ck_refcount c - 1) (ck_size c) (ck_mem c)]> h).
Proof.
  intros Ec Hl Hr. unfold nn_chunk_free. rewrite (getptr_ok _ _ _ _ Ec Hl). cbn [mbind result_bind]. unfold set_refcount. rewrite Ec.
  cbn [mbind result_bind deref]. rewrite wrap_small by (unfold in_range; lia).
  destruct (decide (ck_refcount c = 1)) as [E1|E1].
  - rewrite E1. rewrite !bool_decide_true by lia. destruct Hl as (pre & Em & Ho & Hs & Hb).
    rewrite (putl_before_ok _ p 4 _ (Chunk (1 - 1) (ck_size c) (ck_mem c)) (pre ++ be_bytes 4 (Z.of_nat (length pre))) (be_bytes 4 NN_CHUNK_TAG) bs).
    + cbn [mbind result_bind]. rewrite insert_insert_eq. by rewrite delete_insert_eq.
    + by apply lookup_insert_eq.
    + cbn [ck_mem]. rewrite Em. by rewrite <- app_assoc.
    + apply be_bytes_length.
    + rewrite length_app, be_bytes_length. lia.
    + done.
  - rewrite !bool_decide_false by lia. done.
Qed.

Lemma addref_ok h p c bs n : h !! cp_block p = Some c -> layout c p bs -> 0 <= ck_refcount c + n < 2 ^ 32 ->
  nn_chunk_addref h p n = Ok (<[cp_block p := Chunk (ck_refcount c + n) (ck_size c) (ck_mem c)]> h).
Proof.
  intros Ec Hl Hr. unfold nn_chunk_addref. rewrite (getptr_ok _ _ _ _ Ec Hl). cbn [mbind result_bind]. unfold set_refcount. rewrite Ec.
  cbn [mbind result_bind deref]. by rewrite wrap_small by (unfold in_range; lia).
Qed.

Lemma trim_ok h p c bs n : h !! cp_block p = Some c -> layout c p bs -> (n <= length bs)%nat ->
  exists c', nn_chunk_trim h p (Z.of_nat n) = Ok (<[cp_block p := c']> h, CPtr (cp_block p) (cp_off p + n)) /\
    ck_refcount c' = ck_refcount c /\ layout c' (CPtr (cp_block p) (cp_off p + n)) (drop n bs).
Proof.
  intros Ec Hl Hn. unfold nn_chunk_trim. rewrite (getptr_ok _ _ _ _ Ec Hl). cbn [mbind result_bind]. rewrite Ec. cbn [mbind result_bind deref].
  destruct Hl as (pre & Em & Ho & Hs & Hb). rewrite Hs. rewrite (bool_decide_true (Z.of_nat n <= Z.of_nat (length bs))) by lia. cbn [assert_ mbind result_bind]. rewrite Nat2Z.id.
  (* The bytes before the new data: the new empty space, its size and the tag. *)
  assert (Hsplit : exists pre' x y, ck_mem c = pre' ++ x ++ y ++ drop n bs /\ length pre' = (length pre + n)%nat /\ length x = 4%nat /\ length y = 4%nat).
  { set (head := pre ++ be_bytes 4 (Z.of_nat (length pre)) ++ be_bytes 4 NN_CHUNK_TAG ++ take n bs).
    assert (Hh : length head = (length pre + n + 8)%nat). { unfold head. rewrite !length_app, !be_bytes_length, length_take. lia. }
    assert (Eh : ck_mem c = head ++ drop n bs). { rewrite Em. unfold head. rewrite <- !app_assoc, take_drop. done. }
    destruct (buf_split (length pre + n) head) as (pre' & t & Et & Hp); [lia|]. rewrite Et, length_app in Hh.
    destruct (buf_split 4 t) as (x & y & -> & Hx); [lia|]. rewrite length_app in Hh.
    exists pre', x, y. rewrite Eh, Et, <- !app_assoc. repeat (split; [done|]). lia. }
  destruct Hsplit as (pre' & x & y & Em' & Hp & Hx & Hy).
  rewrite (putl_before_ok _ _ 4 NN_CHUNK_TAG c (pre' ++ x) y (drop n bs)); [|done|by rewrite <- app_assoc|done|cbn; rewrite length_app; lia|done].
  cbn [mbind result_bind cp_block cp_off]. rewrite bool_decide_true by lia. cbn [assert_ mbind result_bind].
  rewrite (putl_before_ok _ _ 8 _ (Chunk (ck_refcount c) (ck_size c) ((pre' ++ x) ++ be_bytes 4 NN_CHUNK_TAG ++ drop n bs)) pre' x (be_bytes 4 NN_CHUNK_TAG ++ drop n bs));
    [|by apply lookup_insert_eq|by rewrite <- app_assoc|done|cbn; lia|apply wrap_range; lia].
  cbn [mbind result_bind cp_block cp_off ck_refcount ck_size]. rewrite insert_insert_eq, lookup_insert_eq. cbn [mbind result_bind deref ck_size].
  unfold set_size. rewrite lookup_insert_eq. cbn [mbind result_bind deref ck_refcount ck_mem]. rewrite insert_insert_eq.
  eexists. split; [done|]. split; [done|]. exists pre'. cbn [ck_mem ck_size cp_off].
  rewrite !wrap_small by (unfold in_range; lia). rewrite length_drop. split; [|lia].
  do 3 f_equal. lia.
Qed.

Lemma write_data_ok h p c bs bs' : h !! cp_block p = Some c -> layout c p bs -> length bs' = length bs ->
  exists c', write_data h p bs' = Ok (<[cp_block p := c']> h) /\ ck_refcount c' = ck_refcount c /\ layout c' p bs'.
Proof.
  intros Ec (pre & Em & Ho & Hs & Hb) Hl. unfold write_data. rewrite Ec. cbn [mbind result_bind deref].
  rewrite Em, !app_assoc. assert (Hh : length ((pre ++ be_bytes 4 (Z.of_nat (length pre))) ++ be_bytes 4 NN_CHUNK_TAG) = cp_off p).
  { rewrite !length_app, !be_bytes_length. lia. }
  rewrite bool_decide_true by (rewrite length_app, Hh; lia). rewrite take_app_length' by done; rewrite drop_ge by (rewrite length_app, Hh; lia).
  eexists. split; [done|]. split; [done|]. exists pre. cbn [ck_mem ck_size]. rewrite Hl. rewrite app_nil_r, <- !app_assoc. done.
Qed.
End Operations.

(** ** References behave as values

    A client owns a list of references.  It makes one holding some bytes,
    copies one, makes a number of copies at once, gives one up, trims one,
    takes the chunk of one out to wrap it again, or reads one. *)
Inductive ref_op :=
  | RInit (data : bytes)
  | RCopy (i : nat)
  | RBulk (i : nat) (copies : nat)
  | RTerm (i : nat)
  | RTrim (i n : nat)
  | RChunk (i : nat)
  | RRead (i : nat).

Section Session.
  Context `{Malloc}.

Definition ref_step (o : ref_op) (h : cheap) (refs : list nn_chunkref) : result (cheap * list nn_chunkref * option (Z * bytes)) :=
  match o with
  | RInit data =>
      '(h, r) ← nn_chunkref_init h (Z.of_nat (length data)) (replicate 31 0);
      '(h, r) ← write_ref h r data;
      Ok (h, refs ++ [r], None)
  | RCopy i => r ← deref (refs !! i); '(h, r) ← nn_chunkref_cp h r; Ok (h, refs ++ [r], None)
  | RBulk i copies =>
      r ← deref (refs !! i);
      h ← nn_chunkref_bulkcopy_start h r (Z.of_nat copies);
      Ok (h, refs ++ replicate copies (nn_chunkref_bulkcopy_cp r), None)
  | RTerm i => r ← deref (refs !! i); h ← nn_chunkref_term h r; Ok (h, delete i refs, None)
  | RTrim i n => r ← deref (refs !! i); '(h, r) ← nn_chunkref_trim h r (Z.of_nat n); Ok (h, <[i := r]> refs, None)
  | RChunk i =>
      r ← deref (refs !! i);
      '(h, chunk, _) ← nn_chunkref_getchunk h r;
      Ok (h, <[i := nn_chunkref_init_chunk chunk]> refs, None)
  | RRead i => r ← deref (refs !! i); n ← nn_chunkref_size h r; bs ← nn_chunkref_data h r; Ok (h, refs, Some (n, bs))
  end.

Fixpoint ref_run (ops : list ref_op) (h : cheap) (refs : list nn_chunkref) : result (cheap * list nn_chunkref * list (option (Z * bytes))) :=
  match ops with
  | [] => Ok (h, refs, [])
  | o :: ops => '(h, refs, out) ← ref_step o h refs; '(h, refs, outs) ← ref_run ops h refs; Ok (h, refs, out :: outs)
  end.
End Session.

(** The same with values. *)
Definition spec_ref (o : ref_op) (vals : list bytes) : list bytes * option (Z * bytes) :=
  match o with
  | RInit data => (vals ++ [data], None)
  | RCopy i => (vals ++ [vals !!! i], None)
  | RBulk i copies => (vals ++ replicate copies (vals !!! i), None)
  | RTerm i => (delete i vals, None)
  | RTrim i n => (<[i := drop n (vals !!! i)]> vals, None)
  | RChunk i => (vals, None)
  | RRead i => (vals, Some (Z.of_nat (length (vals !!! i)), vals !!! i))
  end.

Fixpoint spec_refs (ops : list ref_op) (vals : list bytes) : list bytes * list (option (Z * bytes)) :=
  match ops with
  | [] => (vals, [])
  | o :: ops => let '(vals, out) := spec_ref o vals in let '(vals, outs) := spec_refs ops vals in (vals, out :: outs)
  end.

(** How many references use a block. *)
Definition uses (a : addr) (r : nn_chunkref) : bool := match r with RefChunk p => bool_decide (cp_block p = a) | RefInline _ => false end.
Fixpoint users (a : addr) (refs : list nn_chunkref) : nat :=
  match refs with [] => 0 | r :: refs => (if uses a r then 1 else 0) + users a refs end.

(** A trimmed reference is not shared: its chunk would change under the
    other references. *)
Definition unshared (refs : list nn_chunkref) (i : nat) : Prop :=
  match refs !! i with Some (RefChunk p) => users (cp_block p) refs = 1%nat | _ => True end.

Definition ref_pre (o : ref_op) (refs : list nn_chunkref) (vals : list bytes) : Prop :=
  match o with
  | RInit data => Z.of_nat (length data) < 2 ^ 32 - 1 /\ Z.of_nat (length refs) + 1 < 2 ^ 32
  | RCopy i => (i < length vals)%nat /\ Z.of_nat (length refs) + 1 < 2 ^ 32
  | RBulk i copies => (i < length vals)%nat /\ Z.of_nat (length refs + copies) < 2 ^ 32
  | RTerm i | RChunk i | RRead i => (i < length vals)%nat
  | RTrim i n => (i < length vals)%nat /\ (n <= length (vals !!! i))%nat /\ unshared refs i
  end.

Fixpoint refs_pre `{Malloc} (ops : list ref_op) (h : cheap) (refs : list nn_chunkref) (vals : list bytes) : Prop :=
  match ops with
  | [] => True
  | o :: ops => ref_pre o refs vals /\
      match ref_step o h refs with Ok (h, refs, _) => refs_pre ops h refs (fst (spec_ref o vals)) | Err _ => True end
  end.

Definition ref_val (h : cheap) (r : nn_chunkref) (bs : bytes) : Prop :=
  match r with
  | RefInline data => data = bs /\ (length data < 32)%nat
  | RefChunk p => exists c, h !! cp_block p = Some c /\ layout c p bs
  end.

(** Every reference holds its value, and every chunk counts its references. *)
Record refs_rep (h : cheap) (refs : list nn_chunkref) (vals : list bytes) : Prop := {
  rr_vals : Forall2 (ref_val h) refs vals;
  rr_count : forall a c, h !! a = Some c -> ck_refcount c = Z.of_nat (users a refs) /\ (0 < users a refs)%nat;
}.

Lemma users_app a refs1 refs2 : users a (refs1 ++ refs2) = (users a refs1 + users a refs2)%nat.
Proof. induction refs1 as [|r refs1 IH]; cbn; [done|]. rewrite IH. lia. Qed.

Lemma users_replicate a k r : users a (replicate k r) = if uses a r then k else 0%nat.
Proof. induction k as [|k IH]; cbn; [by destruct (uses a r)|]. rewrite IH. destruct (uses a r); lia. Qed.

Lemma users_le a refs : (users a refs <= length refs)%nat.
Proof. induction refs as [|r refs IH]; cbn; [lia|]. destruct (uses a r); lia. Qed.

Lemma users_delete a refs i r : refs !! i = Some r -> users a refs = ((if uses a r then 1 else 0) + users a (delete i refs))%nat.
Proof.
  revert i. induction refs as [|x refs IH]; intros [|i] E; [done|done|by injection E as ->|].
  change (delete (S i) (x :: refs)) with (x :: delete i refs). cbn [users]. rewrite (IH i E). lia.
Qed.

Lemma users_insert a refs i r r' : refs !! i = Some r -> uses a r = uses a r' -> users a (<[i := r']> refs) = users a refs.
Proof.
  revert i. induction refs as [|x refs IH]; intros [|i] E Eu; [done|done|injection E as ->; cbn; by rewrite Eu|].
  change (<[S i := r']> (x :: refs)) with (x :: <[i := r']> refs). cbn [users]. by rewrite (IH i E Eu).
Qed.

(** No reference uses a block that is not allocated. *)
Lemma users_fresh h refs vals a : Forall2 (ref_val h) refs vals -> h !! a = None -> users a refs = 0%nat.
Proof.
  intros Hv Ha. induction Hv as [|r v refs vals Hr Hv IH]; [done|]. cbn. rewrite IH. destruct r as [|p]; [done|].
  destruct Hr as (c & Ec & _). cbn. rewrite bool_decide_false; [done|]. intros E. congruence.
Qed.

(** A value survives a change of the heap that keeps its chunk's contents. *)
Lemma ref_val_keep h h' r v : (forall p c, r = RefChunk p -> h !! cp_block p = Some c ->
    exists n, h' !! cp_block p = Some (Chunk n (ck_size c) (ck_mem c))) -> ref_val h r v -> ref_val h' r v.
Proof.
  destruct r as [d|p]; [done|]. intros Hk (c & Ec & Hl). destruct (Hk p c eq_refl Ec) as [n En]. by exists (Chunk n (ck_size c) (ck_mem c)).
Qed.

Lemma ref_val_recount h a c n r v : h !! a = Some c -> ref_val h r v -> ref_val (<[a := Chunk n (ck_size c) (ck_mem c)]> h) r v.
Proof.
  intros Ea. apply ref_val_keep. intros p c' _ Ec. destruct (decide (cp_block p = a)) as [E|E].
  - rewrite E in *. rewrite Ea in Ec. injection Ec as <-. rewrite lookup_insert_eq. by exists n.
  - exists (ck_refcount c'). rewrite lookup_insert_ne by done. rewrite Ec. by destruct c'.
Qed.

Lemma ref_val_other h a x r v : uses a r = false -> ref_val h r v -> ref_val (<[a := x]> h) r v.
Proof.
  intros Hu. apply ref_val_keep. intros p c -> Ec. cbn in Hu. apply bool_decide_eq_false in Hu.
  exists (ck_refcount c). rewrite lookup_insert_ne by done. rewrite Ec. by destruct c.
Qed.

Section Steps.
  Context `{Malloc} (malloc_gives : forall h sz, is_Some (malloc h sz)).

Lemma refs_lookup h refs vals i : refs_rep h refs vals -> (i < length vals)%nat ->
  exists r v, refs !! i = Some r /\ vals !! i = Some v /\ vals !!! i = v /\ ref_val h r v.
Proof.
  intros [Hv _] Hi. destruct (lookup_lt_is_Some_2 _ _ Hi) as [v Ev]. destruct (Forall2_lookup_r _ _ _ _ _ Hv Ev) as (r & Er & Hr).
  exists r, v. repeat (split; [done|]). split; [by apply list_lookup_total_correct|done].
Qed.

(** A chunk with a fresh block is added. *)
Lemma add_chunk h refs vals a c bs : refs_rep h refs vals -> h !! a = None -> ck_refcount c = 1 -> layout c (CPtr a 8) bs ->
  refs_rep (<[a := c]> h) (refs ++ [RefChunk (CPtr a 8)]) (vals ++ [bs]).
Proof.
  intros [Hv Hc] Ha Hr Hl. pose proof (users_fresh _ _ _ _ Hv Ha) as Hu. constructor.
  - apply Forall2_app; [|constructor; [|constructor]].
    + apply (Forall2_impl _ _ _ _ Hv). intros r v. apply ref_val_keep. intros p c' _ Ec. exists (ck_refcount c').
      rewrite lookup_insert_ne by congruence. rewrite Ec. by destruct c'.
    + exists c. cbn. by rewrite lookup_insert_eq.
  - intros b c' Eb. rewrite users_app. cbn. destruct (decide (b = a)) as [->|Hne].
    + rewrite lookup_insert_eq in Eb. injection Eb as <-. rewrite Hu, bool_decide_true by done. cbn. split; [done|lia].
    + rewrite lookup_insert_ne in Eb by done. rewrite bool_decide_false by congruence. rewrite Nat.add_0_r. by apply Hc.
Qed.

(** Adding references to what reference [i] refers to. *)
Lemma copies_rep h refs vals i k r v : refs_rep h refs vals -> refs !! i = Some r -> ref_val h r v ->
  Z.of_nat (length refs + k) < 2 ^ 32 ->
  exists h', nn_chunkref_bulkcopy_start h r (Z.of_nat k) = Ok h' /\ refs_rep h' (refs ++ replicate k r) (vals ++ replicate k v).
Proof.
  intros [Hv Hc] Er Hr Hlen. destruct r as [d|p].
  - exists h. split; [done|]. constructor.
    + apply Forall2_app; [done|]. by apply Forall2_replicate.
    + intros a c Ea. rewrite users_app, users_replicate. cbn. rewrite Nat.add_0_r. by apply Hc.
  - destruct Hr as (c & Ec & Hl). destruct (Hc _ _ Ec) as [Hn Hpos]. pose proof (users_le (cp_block p) refs).
    cbn [nn_chunkref_bulkcopy_start]. rewrite (addref_ok _ _ _ _ _ Ec Hl) by lia. eexists. split; [done|]. constructor.
    + apply Forall2_app.
      * apply (Forall2_impl _ _ _ _ Hv). intros r' v'. by apply ref_val_recount.
      * apply Forall2_replicate. eexists. rewrite lookup_insert_eq. split; [done|]. exact Hl.
    + intros a c' Ea. rewrite users_app, users_replicate. cbn. destruct (decide (cp_block p = a)) as [<-|Hne].
      * rewrite lookup_insert_eq in Ea. injection Ea as <-. rewrite bool_decide_true by done. cbn. lia.
      * rewrite lookup_insert_ne in Ea by done. rewrite bool_decide_false by done. rewrite Nat.add_0_r. by apply Hc.
Qed.

Lemma init_rep h refs vals data : refs_rep h refs vals -> Z.of_nat (length data) < 2 ^ 32 - 1 ->
  exists h1 r h2 r2, nn_chunkref_init h (Z.of_nat (length data)) (replicate 31 0) = Ok (h1, r) /\ write_ref h1 r data = Ok (h2, r2) /\
    refs_rep h2 (refs ++ [r2]) (vals ++ [data]).
Proof.
  intros Hr Hd. unfold nn_chunkref_init. case_bool_decide as Hs; unfold NN_CHUNKREF_MAX in Hs.
  - eexists _, _, _, _. split; [done|]. split.
    + cbn [write_ref]. rewrite Nat2Z.id, take_replicate, length_replicate, Nat.min_l by lia. rewrite bool_decide_true by lia.
      rewrite drop_ge by (rewrite length_replicate; lia). by rewrite app_nil_r.
    + destruct Hr as [Hv Hc]. constructor; [apply Forall2_app; [done|]; constructor; [|constructor]; split; [done|lia]|].
      intros a c Ea. rewrite users_app. cbn. rewrite Nat.add_0_r. by apply Hc.
  - destruct (malloc_gives h (nn_chunk_hdrsize + Z.of_nat (length data))) as [[a m] Em].
    destruct (alloc_ok h (Z.of_nat (length data)) a m ltac:(lia) Em) as (c & rest & E & Ha & Ec & Hlen). rewrite E.
    assert (Hl : layout c (CPtr a 8) rest). { exists []. rewrite Ec. cbn. repeat (split; [done || lia|]). lia. }
    cbn [mbind result_bind]. rewrite (bool_decide_true (0 = 0)) by done. cbn [assert_ mbind result_bind deref].
    destruct (write_data_ok (<[a := c]> h) (CPtr a 8) c rest data) as (c' & Ew & Hr' & Hl'); [by apply lookup_insert_eq|done|lia|].
    eexists _, _, _, _. split; [done|]. split; [cbn [write_ref]; rewrite Ew; done|]. cbn [cp_block]. rewrite insert_insert_eq.
    apply add_chunk; [done|done| |done]. rewrite Hr', Ec. done.
Qed.

Lemma term_rep h refs vals i r v : refs_rep h refs vals -> refs !! i = Some r -> ref_val h r v -> Z.of_nat (length refs) < 2 ^ 32 ->
  exists h', nn_chunkref_term h r = Ok h' /\ refs_rep h' (delete i refs) (delete i vals).
Proof.
  intros [Hv Hc] Er Hr Hlen. pose proof (Forall2_delete _ _ _ i Hv) as Hv'. destruct r as [d|p].
  - exists h. split; [done|]. constructor; [done|]. intros a c Ea. destruct (Hc a c Ea) as [Hn Hpos].
    rewrite (users_delete a refs i _ Er) in Hn, Hpos. cbn in Hn, Hpos. done.
  - destruct Hr as (c & Ec & Hl). destruct (Hc _ _ Ec) as [Hn Hpos]. pose proof (users_le (cp_block p) refs).
    cbn [nn_chunkref_term]. rewrite (free_ok _ _ _ _ Ec Hl) by lia. eexists. split; [done|].
    assert (Hu : forall a, users a refs = ((if bool_decide (cp_block p = a) then 1 else 0) + users a (delete i refs))%nat)
      by (intros a; by rewrite (users_delete a refs i _ Er)).
    pose proof (Hu (cp_block p)) as Hup. rewrite bool_decide_true in Hup by done. case_bool_decide as E1.
    + constructor.
      * assert (Hz : users (cp_block p) (delete i refs) = 0%nat) by lia. clear -Hv' Hz.
        induction Hv' as [|r v refs' vals' Hr Hv IH]; constructor; cbn in Hz; destruct (uses (cp_block p) r) eqn:Eu; try lia.
        -- revert Hr. apply ref_val_keep. intros q c' -> Ec'. cbn in Eu. apply bool_decide_eq_false in Eu. exists (ck_refcount c').
           rewrite lookup_delete_ne by congruence. rewrite Ec'. by destruct c'.
        -- apply IH. lia.
      * intros a c' Ea. destruct (decide (cp_block p = a)) as [<-|Hne]; [by rewrite lookup_delete_eq in Ea|].
        rewrite lookup_delete_ne in Ea by done. destruct (Hc a c' Ea) as [Hn' Hpos']. rewrite Hu, bool_decide_false in Hn', Hpos' by done. done.
    + constructor.
      * apply (Forall2_impl _ _ _ _ Hv'). intros r' v'. by apply ref_val_recount.
      * intros a c' Ea. destruct (decide (cp_block p = a)) as [<-|Hne].
        -- rewrite lookup_insert_eq in Ea. injection Ea as <-. cbn. lia.
        -- rewrite lookup_insert_ne in Ea by done. destruct (Hc a c' Ea) as [Hn' Hpos']. rewrite Hu, bool_decide_false in Hn', Hpos' by done. done.
Qed.

(** Trimming a reference that is not shared. *)
Lemma trim_rep h refs vals i n r v : refs_rep h refs vals -> refs !! i = Some r -> vals !! i = Some v -> ref_val h r v ->
  (n <= length v)%nat -> unshared refs i ->
  exists h' r', nn_chunkref_trim h r (Z.of_nat n) = Ok (h', r') /\ refs_rep h' (<[i := r']> refs) (<[i := drop n v]> vals).
Proof.
  intros [Hv Hc] Er Ev Hr Hn Hu. destruct r as [d|p].
  - destruct Hr as [-> Hd]. cbn [nn_chunkref_trim]. rewrite bool_decide_true by lia. eexists _, _. split; [done|]. rewrite Nat2Z.id. constructor.
    + apply Forall2_insert; [done|]. split; [done|]. rewrite length_drop. lia.
    + intros a c Ea. rewrite (users_insert a refs i _ _ Er) by done. by apply Hc.
  - destruct Hr as (c & Ec & Hl). unfold unshared in Hu. rewrite Er in Hu. destruct (trim_ok h p c v n Ec Hl Hn) as (c' & E & Hr' & Hl').
    cbn [nn_chunkref_trim]. rewrite E. cbn [mbind result_bind]. eexists _, _. split; [done|].
    assert (Hother : forall j r v, refs !! j = Some r -> j <> i -> ref_val h r v -> ref_val (<[cp_block p := c']> h) r v).
    { intros j r w Ej Hj. apply ref_val_other. destruct (uses (cp_block p) r) eqn:Eu; [|done].
      rewrite (users_delete _ refs i _ Er) in Hu. cbn in Hu. rewrite bool_decide_true in Hu by done.
      assert (Hin : exists j', delete i refs !! j' = Some r).
      { destruct (decide (j < i)%nat); [exists j; by rewrite list_lookup_delete_lt|exists (pred j)]. rewrite list_lookup_delete_ge by lia. by replace (S (pred j)) with j by lia. }
      destruct Hin as [j' Ej']. rewrite (users_delete _ _ _ _ Ej'), Eu in Hu. lia. }
    constructor.
    + apply Forall2_same_length_lookup. rewrite !length_insert. split; [by eapply Forall2_length|]. intros j r w Ej Ew.
      destruct (decide (j = i)) as [->|Hj].
      * rewrite list_lookup_insert_eq in Ej by (by eapply lookup_lt_Some). rewrite list_lookup_insert_eq in Ew by (by eapply lookup_lt_Some). injection Ej as <-. injection Ew as <-. exists c'. cbn. by rewrite lookup_insert_eq.
      * rewrite list_lookup_insert_ne in Ej by done. rewrite list_lookup_insert_ne in Ew by done. eapply Hother; [done|done|]. by eapply (Forall2_lookup_lr _ _ _ _ _ _ Hv).
    + intros a x Ea. rewrite (users_insert a refs i _ _ Er) by done. destruct (decide (cp_block p = a)) as [<-|Hne].
      * rewrite lookup_insert_eq in Ea. injection Ea as <-. rewrite Hr'. by apply Hc.
      * rewrite lookup_insert_ne in Ea by done. by apply Hc.
Qed.

(** Taking the chunk out of a reference, to make another reference of it. *)
Lemma chunk_rep h refs vals i r v : refs_rep h refs vals -> refs !! i = Some r -> vals !! i = Some v -> ref_val h r v ->
  exists h' p r', nn_chunkref_getchunk h r = Ok (h', p, r') /\ refs_rep h' (<[i := RefChunk p]> refs) vals.
Proof.
  intros Hrep Er Ev Hr. destruct r as [d|p].
  - destruct Hr as [-> Hd]. cbn [nn_chunkref_getchunk].
    destruct (malloc_gives h (nn_chunk_hdrsize + Z.of_nat (length v))) as [[a m] Em].
    destruct (alloc_ok h (Z.of_nat (length v)) a m ltac:(lia) Em) as (c & rest & E & Ha & Ec & Hlen). rewrite E.
    assert (Hl : layout c (CPtr a 8) rest). { exists []. rewrite Ec. cbn. repeat (split; [done || lia|]). lia. }
    cbn [mbind result_bind]. rewrite (bool_decide_true (0 = 0)) by done. cbn [assert_ mbind result_bind deref].
    destruct (write_data_ok (<[a := c]> h) (CPtr a 8) c rest v) as (c' & Ew & Hr' & Hl'); [by apply lookup_insert_eq|done|lia|].
    rewrite Ew. cbn [mbind result_bind cp_block]. rewrite insert_insert_eq. eexists _, _, _. split; [done|].
    destruct (add_chunk h refs vals a c' v Hrep Ha) as [Hv Hc]; [by rewrite Hr', Ec|done|]. destruct Hrep as [Hv0 Hc0].
    apply Forall2_app_inv_l in Hv as (v1 & v2 & Hv1 & Hv2 & Evv). apply Forall2_length in Hv1 as Hlv1. apply Forall2_length in Hv0 as Hlv0.
    apply app_inj_1 in Evv as [<- <-]; [|lia]. apply Forall2_cons in Hv2 as [Hnew _].
    constructor.
    + rewrite <- (list_insert_id vals i v Ev). by apply Forall2_insert.
    + intros b x Eb. destruct (Hc b x Eb) as [Hn Hp]. rewrite users_app in Hn, Hp. cbn in Hn, Hp.
      enough (users b (<[i := RefChunk (CPtr a 8)]> refs) = (users b refs + ((if bool_decide (a = b) then 1 else 0) + 0))%nat) as -> by done.
      clear -Er. revert i Er. induction refs as [|y refs IH]; intros [|i] Er; [done|done| |].
      * injection Er as ->. change (<[0%nat := ?y]> (?x :: refs)) with (y :: refs). cbn. lia.
      * change (<[S i := ?z]> (y :: refs)) with (y :: <[i := z]> refs). cbn [users]. rewrite (IH i Er). lia.
  - exists h, p, (RefInline []). split; [done|]. by rewrite list_insert_id.
Qed.

Lemma ref_step_refines o h refs vals : refs_rep h refs vals -> Z.of_nat (length refs) < 2 ^ 32 -> ref_pre o refs vals ->
  exists h' refs', ref_step o h refs = Ok (h', refs', snd (spec_ref o vals)) /\ refs_rep h' refs' (fst (spec_ref o vals)) /\
    Z.of_nat (length refs') < 2 ^ 32.
Proof.
  intros Hrep Hlen Hpre. destruct o as [data|i|i k|i|i n|i|i]; cbn [ref_step spec_ref fst snd ref_pre] in *.
  - destruct Hpre as [Hd Hl]. destruct (init_rep h refs vals data Hrep Hd) as (h1 & r & h2 & r2 & -> & E & Hrep').
    cbn [mbind result_bind]. rewrite E. cbn [mbind result_bind]. eexists _, _. split; [done|]. split; [done|]. rewrite length_app. cbn. lia.
  - destruct Hpre as [Hi Hl]. destruct (refs_lookup _ _ _ _ Hrep Hi) as (r & v & Er & Ev & -> & Hr). rewrite Er. cbn [mbind result_bind deref].
    destruct (copies_rep h refs vals i 1 r v Hrep Er Hr ltac:(lia)) as (h' & E & Hrep').
    change (nn_chunkref_bulkcopy_start h r (Z.of_nat 1)) with (match r with RefChunk chunk => nn_chunk_addref h chunk 1 | RefInline _ => Ok h end) in E.
    unfold nn_chunkref_cp. rewrite E. cbn [mbind result_bind]. eexists _, _. split; [done|]. split; [exact Hrep'|]. rewrite length_app. cbn. lia.
  - destruct Hpre as [Hi Hl]. destruct (refs_lookup _ _ _ _ Hrep Hi) as (r & v & Er & Ev & -> & Hr). rewrite Er. cbn [mbind result_bind deref].
    destruct (copies_rep h refs vals i k r v Hrep Er Hr ltac:(lia)) as (h' & -> & Hrep'). cbn [mbind result_bind].
    eexists _, _. split; [done|]. split; [exact Hrep'|]. rewrite length_app, length_replicate. lia.
  - destruct (refs_lookup _ _ _ _ Hrep Hpre) as (r & v & Er & Ev & _ & Hr). rewrite Er. cbn [mbind result_bind deref].
    destruct (term_rep h refs vals i r v Hrep Er Hr Hlen) as (h' & -> & Hrep'). cbn [mbind result_bind].
    eexists _, _. split; [done|]. split; [exact Hrep'|]. rewrite length_delete by done. lia.
  - destruct Hpre as (Hi & Hn & Hu). destruct (refs_lookup _ _ _ _ Hrep Hi) as (r & v & Er & Ev & Et & Hr). rewrite Er. cbn [mbind result_bind deref].
    rewrite Et in *. destruct (trim_rep h refs vals i n r v Hrep Er Ev Hr Hn Hu) as (h' & r' & -> & Hrep'). cbn [mbind result_bind].
    eexists _, _. split; [done|]. split; [exact Hrep'|]. by rewrite length_insert.
  - destruct (refs_lookup _ _ _ _ Hrep Hpre) as (r & v & Er & Ev & _ & Hr). rewrite Er. cbn [mbind result_bind deref].
    destruct (chunk_rep h refs vals i r v Hrep Er Ev Hr) as (h' & p & r' & -> & Hrep'). cbn [mbind result_bind].
    eexists _, _. split; [done|]. split; [exact Hrep'|]. by rewrite length_insert.
  - destruct (refs_lookup _ _ _ _ Hrep Hpre) as (r & v & Er & Ev & -> & Hr). rewrite Er. cbn [mbind result_bind deref].
    exists h, refs. split; [|done]. destruct r as [d|p].
    + destruct Hr as [-> _]. done.
    + destruct Hr as (c & Ec & Hl). rewrite (data_ok _ _ _ _ Ec Hl). cbn [nn_chunkref_size]. rewrite (size_ok _ _ _ _ Ec Hl). done.
Qed.

Lemma ref_run_refines ops : forall h refs vals, refs_rep h refs vals -> Z.of_nat (length refs) < 2 ^ 32 -> refs_pre ops h refs vals ->
  exists h' refs', ref_run ops h refs = Ok (h', refs', snd (spec_refs ops vals)) /\ refs_rep h' refs' (fst (spec_refs ops vals)).
Proof.
  induction ops as [|o ops IH]; intros h refs vals Hrep Hlen Hpre; [by exists h, refs|]. cbn [refs_pre] in Hpre. destruct Hpre as [Ho Hpre].
  destruct (ref_step_refines o h refs vals Hrep Hlen Ho) as (h1 & refs1 & E1 & Hrep1 & Hlen1). rewrite E1 in Hpre.
  destruct (IH h1 refs1 _ Hrep1 Hlen1 Hpre) as (h2 & refs2 & E2 & Hrep2). exists h2, refs2. cbn [ref_run spec_refs].
  destruct (spec_ref o vals) as [vals1 out]. cbn [fst snd] in *. destruct (spec_refs ops vals1) as [vals2 outs]. cbn [fst snd] in *.
  rewrite E1. cbn [mbind result_bind]. by rewrite E2.
Qed.
End Steps.

(** References to chunks behave as values: whatever a client does with the
    references it owns - making, copying, terminating, wrapping and reading
    them, trimming those it does not share - nothing is accessed out of a live
    block, each read gives the bytes and size the values would, the
    reference counts are exact, and when no reference is left every chunk
    has been freed. *)
Theorem chunkrefs_are_values `{Malloc} (ops : list ref_op) :
  (forall h sz, is_Some (malloc h sz)) -> refs_pre ops ∅ [] [] ->
  exists h refs, ref_run ops ∅ [] = Ok (h, refs, snd (spec_refs ops [])) /\
    Forall2 (fun r v => nn_chunkref_data h r = Ok v) refs (fst (spec_refs ops [])) /\
    (fst (spec_refs ops []) = [] -> h = ∅).
Proof.
  intros Hm Hpre. destruct (ref_run_refines Hm ops ∅ [] []) as (h & refs & E & [Hv Hc]); [|done|done|].
  { constructor; [constructor|]. intros a c Ea. by rewrite lookup_empty in Ea. }
  exists h, refs. split; [done|]. split.
  - apply (Forall2_impl _ _ _ _ Hv). intros [d|p] v Hr; [by destruct Hr as [-> _]|]. destruct Hr as (c & Ec & Hl). by apply (data_ok h p c).
  - intros Enil. rewrite Enil in Hv. apply Forall2_nil_inv_r in Hv. subst refs. apply map_eq. intros a. rewrite lookup_empty.
    destruct (h !! a) as [c|] eqn:Ea; [|done]. destruct (Hc a c Ea) as [_ Hp]. cbn in Hp. lia.
Qed.

(** ** An allocator *)

(** The next unused address, cleared memory. *)
#[local] Program Instance demo_malloc : Malloc := {| malloc h sz := Some (fresh (dom h), replicate (Z.to_nat (sz - sizeof_nn_chunk)) 0) |}.
Next Obligation.
  intros h sz a m Hsz E. injection E as <- <-. split; [apply not_elem_of_dom, is_fresh|]. rewrite length_replicate. lia.
Qed.

(** A message of 40 bytes is trimmed by its header, sent to three peers and
    read by one of them; a short one is wrapped in a chunk. *)
Definition demo_refs : list ref_op :=
  [RInit (Z.of_nat <$> seq 0 40); RTrim 0 4; RTrim 0 1; RBulk 0 2; RTerm 0; RRead 1; RInit [1; 2; 3]; RChunk 2; RTrim 2 2; RCopy 2; RRead 3;
   RTerm 0; RTerm 0; RTerm 0; RTerm 0].

Lemma chunkrefs_are_values_witness :
  exists outs, ref_run demo_refs ∅ [] = Ok (∅, [], outs) /\
    outs !! 5%nat = Some (Some (35, Z.of_nat <$> seq 5 35)) /\ outs !! 10%nat = Some (Some (1, [3])).
Proof.
  destruct (chunkrefs_are_values demo_refs) as (h & refs & E & Hv & Hh).
  - intros. by eexists.
  - vm_compute. repeat split; try lia; try (repeat constructor).
  - rewrite (Hh eq_refl) in E. apply Forall2_nil_inv_r in Hv. subst refs. eexists. split; [exact E|]. split; vm_compute; reflexivity.
Defined.

(** ** Reallocation ([nn_reallocmsg] of [core/global.c])

    A chunk that was trimmed is reallocated from the start of its block: the
    data comes back with the bytes that were trimmed off. *)
Example realloc_after_trim :
  ('(h, _, p) ← nn_chunk_alloc ∅ 12 0; p ← deref p;
   h ← write_data h p [1; 2; 3; 4; 5; 6; 7; 8; 9; 10; 11; 12];
   '(h, p) ← nn_chunk_trim h p 8;
   before ← nn_chunkref_data h (RefChunk p);
   '(h, rc, p) ← nn_chunk_realloc h 4 p;
   after ← nn_chunkref_data h (RefChunk p);
   Ok (before, rc, after)) = Ok ([9; 10; 11; 12], 0, [0; 0; 0; 8]).
Proof. vm_compute. reflexivity. Qed.

(** When fewer bytes were trimmed off, even the tag is lost. *)
Example realloc_after_short_trim :
  ('(h, _, p) ← nn_chunk_alloc ∅ 12 0; p ← deref p;
   '(h, p) ← nn_chunk_trim h p 4;
   '(h, rc, p) ← nn_chunk_realloc h 4 p;
   nn_chunk_size h p) = Err AssertFailed.
Proof. vm_compute. reflexivity. Qed.

(** A shared chunk is copied at its old size into the new, smaller one. *)
Example realloc_shared_smaller :
  ('(h, _, p) ← nn_chunk_alloc ∅ 12 0; p ← deref p;
   h ← nn_chunk_addref h p 1;
   nn_chunk_realloc h 4 p) = Err BadAccess.
Proof. vm_compute. reflexivity. Qed.
