(* ===== verification/Base64.v ===== *)
(** * Base64 ([transports/utils/base64.c])

    Encoding and decoding into a bounded buffer, as the WebSocket handshake
    uses them.  [v] is the 32-bit shift register, [rem] the number of its bits
    not yet written; the counters are [unsigned].  The buffer is written from
    its start only: [ob_data] is what was written, its length [ob_io].
    Inputs are taken to be shorter than 2^32, so [ii] is the recursion. *)

From S2P Require Import Prelude.
Local Open Scope Z_scope.

(** ** The output buffer *)

Record obuf := OBuf { ob_io : Z; ob_data : list Z }.
#[export] Instance obuf_eq_dec : EqDecision obuf.
Proof. solve_decision. Defined.

(** A statement of the two functions falls through or returns. *)
Inductive flow (A : Type) : Type :=
  | Next (a : A)
  | Return (rc : Z) (out : list Z)
  | Stuck (f : fault).
Arguments Next {_} _.
Arguments Return {_} _ _.
Arguments Stuck {_} _.

#[export] Instance flow_bind : MBind flow := fun A B f m =>
  match m with Next a => f a | Return rc out => Return rc out | Stuck e => Stuck e end.

Definition returned (m : flow (Z * list Z)) : result (Z * list Z) :=
  match m with Next r => Ok r | Return rc out => Ok (rc, out) | Stuck f => Err f end.

(** [if (io >= out_len) return -ENOBUFS; out [io++] = x;] *)
Definition put (out_len x : Z) (o : obuf) : flow obuf :=
  if bool_decide (ob_io o >= out_len) then Return (- ENOBUFS) (ob_data o)
  else Next (OBuf (u32 (ob_io o + 1)) (ob_data o ++ [x])).

(** A read of a table: its bounds are checked. *)
Definition entry (table : list Z) (i : Z) : flow Z :=
  if bool_decide (0 <= i) then match table !! Z.to_nat i with Some x => Next x | None => Stuck BadAccess end
  else Stuck BadAccess.

(** ** The code *)

Definition ENCODEMAP : list Z :=
  [65; 66; 67; 68; 69; 70; 71; 72; 73; 74; 75; 76; 77; 78; 79; 80; 81; 82; 83; 84; 85; 86; 87; 88; 89; 90;
   97; 98; 99; 100; 101; 102; 103; 104; 105; 106; 107; 108; 109; 110; 111; 112; 113; 114; 115; 116; 117; 118; 119; 120; 121; 122;
   48; 49; 50; 51; 52; 53; 54; 55; 56; 57; 43; 47].

Definition DECODEMAP : list Z :=
  replicate 40 0xFF
  ++ [0xFF; 0xFF; 0xFF; 0x3E; 0xFF; 0xFF; 0xFF; 0x3F;
      0x34; 0x35; 0x36; 0x37; 0x38; 0x39; 0x3A; 0x3B;
      0x3C; 0x3D; 0xFF; 0xFF; 0xFF; 0x3E; 0xFF; 0xFF;
      0xFF; 0x00; 0x01; 0x02; 0x03; 0x04; 0x05; 0x06;
      0x07; 0x08; 0x09; 0x0A; 0x0B; 0x0C; 0x0D; 0x0E;
      0x0F; 0x10; 0x11; 0x12; 0x13; 0x14; 0x15; 0x16;
      0x17; 0x18; 0x19; 0xFF; 0xFF; 0xFF; 0xFF; 0xFF;
      0xFF; 0x1A; 0x1B; 0x1C; 0x1D; 0x1E; 0x1F; 0x20;
      0x21; 0x22; 0x23; 0x24; 0x25; 0x26; 0x27; 0x28;
      0x29; 0x2A; 0x2B; 0x2C; 0x2D; 0x2E; 0x2F; 0x30;
      0x31; 0x32; 0x33; 0xFF; 0xFF; 0xFF; 0xFF; 0xFF]
  ++ replicate 128 0xFF.

(** [isspace] of the C locale. *)
Definition isspace (c : Z) : bool := bool_decide (9 <= c <= 13) || bool_decide (c = 32).

(** [v << k | ch] on 32 bits. *)
Definition shift_in (k v ch : Z) : Z := Z.lor (u32 (Z.shiftl v k)) ch.

(** [while (rem >= 6)]: each turn writes a character. *)
Fixpoint encode_flush (fuel : nat) (out_len v rem : Z) (o : obuf) : flow (Z * obuf) :=
  match fuel with
  | O => Stuck NoFuel
  | S fuel =>
      if bool_decide (rem >= 6) then
        let rem := rem - 6 in
        c ← entry ENCODEMAP (Z.land (Z.shiftr v rem) 63);
        o ← put out_len c o;
        encode_flush fuel out_len v rem o
      else Next (rem, o)
  end.

Fixpoint encode_loop (out_len : Z) (inp : list Z) (v rem : Z) (o : obuf) : flow (Z * Z * obuf) :=
  match inp with
  | [] => Next (v, rem, o)
  | ch :: inp =>
      let v := shift_in 8 v ch in
      '(rem, o) ← encode_flush 3 out_len v (rem + 8) o;
      encode_loop out_len inp v rem o
  end.

(** [while (io & 3)]. *)
Fixpoint encode_pad (fuel : nat) (out_len : Z) (o : obuf) : flow obuf :=
  match fuel with
  | O => Stuck NoFuel
  | S fuel =>
      if bool_decide (Z.land (ob_io o) 3 <> 0) then o ← put out_len 61 o; encode_pad fuel out_len o
      else Next o
  end.

(** The bits left after the last byte. *)
Definition encode_last (out_len : Z) (v rem : Z) (o : obuf) : flow obuf :=
  if bool_decide (rem <> 0) then
    let v := u32 (Z.shiftl v (6 - rem)) in
    c ← entry ENCODEMAP (Z.land v 63); put out_len c o
  else Next o.

(** The terminating zero. *)
Definition encode_end (out_len : Z) (o : obuf) : flow (Z * list Z) :=
  if bool_decide (ob_io o >= out_len) then Return (- ENOBUFS) (ob_data o)
  else Next (to_int (ob_io o), ob_data o ++ [0]).

Definition nn_base64_encode (inp : list Z) (out_len : Z) : result (Z * list Z) :=
  returned (
    '(v, rem, o) ← encode_loop out_len inp 0 0 (OBuf 0 []);
    o ← encode_last out_len v rem o;
    o ← encode_pad 4 out_len o;
    encode_end out_len o).

(** The characters are [char]: from -128 to 127. *)
Fixpoint decode_loop (out_len : Z) (inp : list Z) (v rem : Z) (o : obuf) : flow (Z * Z * obuf) :=
  match inp with
  | [] => Next (v, rem, o)
  | c :: inp =>
      if isspace c then decode_loop out_len inp v rem o
      else if bool_decide (c = 61) then Next (v, rem, o)
      else
        ch ← entry DECODEMAP c;
        if bool_decide (ch = 0xFF) then Next (v, rem, o)
        else
          let v := shift_in 6 v ch in
          let rem := rem + 6 in
          if bool_decide (rem >= 8) then
            let rem := rem - 8 in
            o ← put out_len (Z.land (Z.shiftr v rem) 255) o;
            decode_loop out_len inp v rem o
          else decode_loop out_len inp v rem o
  end.

Definition nn_base64_decode (inp : list Z) (out_len : Z) : result (Z * list Z) :=
  returned (
    '(v, rem, o) ← decode_loop out_len inp 0 0 (OBuf 0 []);
    o ← (if bool_decide (rem >= 8) then put out_len (Z.land (Z.shiftr v (rem - 8)) 255) o else Next o);
    Next (to_int (ob_io o), ob_data o)).

(** ** The encoding of RFC 4648 *)

(** The character of a 6-bit digit, defined by the ranges of the alphabet. *)
Definition digit (d : Z) : Z :=
  if bool_decide (d < 26) then 65 + d
  else if bool_decide (d < 52) then 97 + (d - 26)
  else if bool_decide (d < 62) then 48 + (d - 52)
  else if bool_decide (d = 62) then 43 else 47.

Fixpoint rfc4648 (bs : list Z) : list Z :=
  match bs with
  | a :: b :: c :: bs =>
      digit (a / 4) :: digit (a mod 4 * 16 + b / 16) :: digit (b mod 16 * 4 + c / 64) :: digit (c mod 64) :: rfc4648 bs
  | [a; b] => [digit (a / 4); digit (a mod 4 * 16 + b / 16); digit (b mod 16 * 4); 61]
  | [a] => [digit (a / 4); digit (a mod 4 * 16); 61; 61]
  | [] => []
  end.

(** ** Lemmas *)

Lemma flow_bind_assoc {A B C} (m : flow A) (f : A -> flow B) (g : B -> flow C) : (m ≫= f) ≫= g = m ≫= (fun x => f x ≫= g).
Proof. by destruct m. Qed.

Lemma flow_bind_ext {A B} (m : flow A) (f g : A -> flow B) : (forall x, f x = g x) -> m ≫= f = m ≫= g.
Proof. intros E. destruct m; cbn; auto. Qed.

Lemma flow_bind_next {A B} (m : flow A) (f g : A -> flow B) : (forall x, m = Next x -> f x = g x) -> m ≫= f = m ≫= g.
Proof. intros E. destruct m; cbn; auto. Qed.

(** Writing several characters. *)
Fixpoint put_all (out_len : Z) (xs : list Z) (o : obuf) : flow obuf :=
  match xs with
  | [] => Next o
  | x :: xs => o ← put out_len x o; put_all out_len xs o
  end.

Lemma put_all_app L xs ys o : put_all L (xs ++ ys) o = (o ← put_all L xs o; put_all L ys o).
Proof.
  revert o. induction xs as [|x xs IH]; intros o; [done|]. cbn. rewrite flow_bind_assoc. apply flow_bind_ext. intros. apply IH.
Qed.

(** The buffer holds what was written, from its start. *)
Definition obuf_ok (o : obuf) : Prop := ob_io o = Z.of_nat (length (ob_data o)).

Lemma put_all_fits L xs o : obuf_ok o -> ob_io o + Z.of_nat (length xs) <= L -> ob_io o + Z.of_nat (length xs) < 2 ^ 32 ->
  put_all L xs o = Next (OBuf (ob_io o + Z.of_nat (length xs)) (ob_data o ++ xs)).
Proof.
  revert o. induction xs as [|x xs IH]; intros [io data] Ho HL HM; cbn in *.
  - by rewrite Z.add_0_r, app_nil_r.
  - unfold put. cbn in *. rewrite bool_decide_false by lia. unfold obuf_ok in Ho. cbn in *.
    rewrite wrap_small by (unfold in_range; lia). rewrite IH.
    + cbn. rewrite <- app_assoc. do 2 f_equal. lia.
    + unfold obuf_ok. cbn. rewrite length_app. cbn. lia.
    + cbn. lia.
    + cbn. lia.
Qed.

Lemma put_all_full L xs o : obuf_ok o -> ob_io o <= L < ob_io o + Z.of_nat (length xs) -> L < 2 ^ 32 ->
  put_all L xs o = Return (- ENOBUFS) (ob_data o ++ take (Z.to_nat (L - ob_io o)) xs).
Proof.
  revert o. induction xs as [|x xs IH]; intros [io data] Ho HL HM; cbn in *; [lia|].
  unfold put. cbn. unfold obuf_ok in Ho. cbn in Ho. case_bool_decide.
  - cbn. replace (L - io) with 0 by lia. cbn. by rewrite app_nil_r.
  - cbn. rewrite wrap_small by (unfold in_range; lia). rewrite IH; cbn [ob_io ob_data].
    + rewrite <- app_assoc. cbn. replace (Z.to_nat (L - io)) with (S (Z.to_nat (L - (io + 1)))) by lia. done.
    + unfold obuf_ok. cbn. rewrite length_app. cbn. lia.
    + lia.
    + done.
Qed.

Lemma shift_in_spec k v ch : 0 <= k <= 32 -> 0 <= ch < 2 ^ k -> shift_in k v ch = wrap (32 - k) v * 2 ^ k + ch.
Proof.
  intros Hk Hch. unfold shift_in. rewrite <- lor_add by lia. f_equal. unfold wrap. rewrite !Z.shiftl_mul_pow2 by lia.
  replace (2 ^ 32) with (2 ^ (32 - k) * 2 ^ k) by (rewrite <- Z.pow_add_r by lia; f_equal; lia).
  apply Z.mul_mod_distr_r; lia.
Qed.

Lemma land63 z : Z.land z 63 = z mod 64.
Proof. apply (Z.land_ones z 6). lia. Qed.
Lemma land255 z : Z.land z 255 = z mod 256.
Proof. apply (Z.land_ones z 8). lia. Qed.

(** The tables agree with the alphabet. *)
Lemma encode_entry d : 0 <= d < 64 -> entry ENCODEMAP d = Next (digit d).
Proof.
  intros Hd. cut (ENCODEMAP !! Z.to_nat d = Some (digit d)).
  { intros E. unfold entry. rewrite bool_decide_true by lia. by rewrite E. }
  revert d Hd. apply (below_spec 64 (fun d => ENCODEMAP !! Z.to_nat d = Some (digit d))). vm_compute. reflexivity.
Qed.

Lemma decode_digit d : 0 <= d < 64 -> isspace (digit d) = false /\ digit d <> 61 /\ entry DECODEMAP (digit d) = Next d.
Proof.
  intros Hd. cut (isspace (digit d) = false /\ digit d <> 61 /\ 0 <= digit d /\ DECODEMAP !! Z.to_nat (digit d) = Some d).
  { intros (H1 & H2 & H3 & E). split; [done|]. split; [done|]. unfold entry. rewrite bool_decide_true by lia. by rewrite E. }
  revert d Hd. apply (below_spec 64 (fun d => isspace (digit d) = false /\ digit d <> 61 /\ 0 <= digit d /\ DECODEMAP !! Z.to_nat (digit d) = Some d)). vm_compute. reflexivity.
Qed.

(** ** Encoding *)

(** One turn of the inner loop. *)
Lemma flush_turn fuel L v rem o : 6 <= rem ->
  encode_flush (S fuel) L v rem o = (o ← put L (digit (Z.shiftr v (rem - 6) mod 64)) o; encode_flush fuel L v (rem - 6) o).
Proof.
  intros Hr. cbn [encode_flush]. rewrite bool_decide_true by lia. rewrite land63.
  rewrite encode_entry by (apply Z.mod_pos_bound; lia). done.
Qed.

Lemma flush_stop fuel L v rem o : rem < 6 -> encode_flush (S fuel) L v rem o = Next (rem, o).
Proof. intros Hr. cbn [encode_flush]. by rewrite bool_decide_false by lia. Qed.

(** The bits of the register that are read. *)
Ltac register :=
  unfold in_range in *;
  rewrite ?shift_in_spec by (lia || (Z.to_euclidean_division_equations; lia)); rewrite ?Z.shiftr_div_pow2 by lia; rewrite ?Z.shiftl_mul_pow2 by lia; unfold wrap in *;
  repeat match goal with |- context [2 ^ ?k] => let x := eval vm_compute in (2 ^ k) in change (2 ^ k) with x end;
  Z.to_euclidean_division_equations; lia.

(** A byte entering the register with 0, 2 or 4 bits, [p], left in it. *)
Lemma encode_byte0 L a inp v o : in_range 8 a ->
  encode_loop L (a :: inp) v 0 o = (o ← put L (digit (a / 4)) o; encode_loop L inp (shift_in 8 v a) 2 o).
Proof.
  intros Ha. cbn [encode_loop]. rewrite flush_turn by lia. rewrite flow_bind_assoc.
  replace (Z.shiftr (shift_in 8 v a) (0 + 8 - 6) mod 64) with (a / 4) by register.
  apply flow_bind_ext. intros o1. by rewrite flush_stop by lia.
Qed.

Lemma encode_byte2 L a p inp v o : in_range 8 a -> v mod 4 = p ->
  encode_loop L (a :: inp) v 2 o = (o ← put L (digit (p * 16 + a / 16)) o; encode_loop L inp (shift_in 8 v a) 4 o).
Proof.
  intros Ha Hp. cbn [encode_loop]. rewrite flush_turn by lia. rewrite flow_bind_assoc.
  replace (Z.shiftr (shift_in 8 v a) (2 + 8 - 6) mod 64) with (p * 16 + a / 16) by register.
  apply flow_bind_ext. intros o1. by rewrite flush_stop by lia.
Qed.

Lemma encode_byte4 L a p inp v o : in_range 8 a -> v mod 16 = p ->
  encode_loop L (a :: inp) v 4 o
    = (o ← put L (digit (p * 4 + a / 64)) o; o ← put L (digit (a mod 64)) o; encode_loop L inp (shift_in 8 v a) 0 o).
Proof.
  intros Ha Hp. cbn [encode_loop]. rewrite !flush_turn by lia. rewrite flow_bind_assoc.
  replace (Z.shiftr (shift_in 8 v a) (4 + 8 - 6) mod 64) with (p * 4 + a / 64) by register.
  apply flow_bind_ext. intros o1. rewrite flush_turn, flow_bind_assoc by lia.
  replace (Z.shiftr (shift_in 8 v a) (4 + 8 - 6 - 6) mod 64) with (a mod 64) by register.
  apply flow_bind_ext. intros o2. by rewrite flush_stop by lia.
Qed.

Lemma encode_group L a b c inp v o : in_range 8 a -> in_range 8 b -> in_range 8 c ->
  exists v', encode_loop L (a :: b :: c :: inp) v 0 o
    = (o ← put_all L [digit (a / 4); digit (a mod 4 * 16 + b / 16); digit (b mod 16 * 4 + c / 64); digit (c mod 64)] o;
       encode_loop L inp v' 0 o).
Proof.
  intros Ha Hb Hc. eexists. rewrite encode_byte0 by done. cbn [put_all]. rewrite flow_bind_assoc. apply flow_bind_ext. intros o1.
  rewrite (encode_byte2 _ _ (a mod 4)) by (done || register). rewrite flow_bind_assoc. apply flow_bind_ext. intros o2.
  rewrite (encode_byte4 _ _ (b mod 16)) by (done || register). rewrite flow_bind_assoc. apply flow_bind_ext. intros o3.
  rewrite flow_bind_assoc. apply flow_bind_ext. intros o4. reflexivity.
Qed.

Lemma groups_ind (P : list Z -> Prop) : P [] -> (forall a, P [a]) -> (forall a b, P [a; b]) ->
  (forall a b c bs, P bs -> P (a :: b :: c :: bs)) -> forall bs, P bs.
Proof.
  intros H0 H1 H2 H3. fix IH 1. intros [|a [|b [|c bs]]]; [exact H0|apply H1|apply H2|apply H3, IH].
Qed.

Lemma put_io L x o o' : put L x o = Next o' -> ob_io o' mod 4 = (ob_io o + 1) mod 4.
Proof.
  unfold put. case_bool_decide; [done|]. intros E. injection E as <-. cbn. unfold wrap.
  apply Z.mod_mod_divide. by exists (2 ^ 30).
Qed.

Lemma put_all_io L xs : forall o o', put_all L xs o = Next o' -> ob_io o' mod 4 = (ob_io o + Z.of_nat (length xs)) mod 4.
Proof.
  induction xs as [|x xs IH]; intros o o' E; cbn in E; [injection E as <-; cbn; by rewrite Z.add_0_r|].
  destruct (put L x o) as [o1| |] eqn:E1; cbn in E; [|done..]. apply IH in E. apply put_io in E1.
  cbn [length]. rewrite E. rewrite Nat2Z.inj_succ. clear E. Z.to_euclidean_division_equations. lia.
Qed.

Lemma land3 z : Z.land z 3 = z mod 4.
Proof. apply (Z.land_ones z 2). lia. Qed.

Lemma pad_turn fuel L o : ob_io o mod 4 <> 0 -> encode_pad (S fuel) L o = (o ← put L 61 o; encode_pad fuel L o).
Proof. intros Ho. cbn [encode_pad]. by rewrite land3, bool_decide_true. Qed.

Lemma pad_stop fuel L o : ob_io o mod 4 = 0 -> encode_pad (S fuel) L o = Next o.
Proof. intros Ho. cbn [encode_pad]. rewrite land3, bool_decide_false; [done|tauto]. Qed.

Lemma last_none L v o : encode_last L v 0 o = Next o.
Proof. done. Qed.

Lemma last_some L rem v d o : 0 < rem <= 6 -> u32 (Z.shiftl v (6 - rem)) mod 64 = d -> encode_last L v rem o = put L (digit d) o.
Proof.
  intros Hr Hd. unfold encode_last. rewrite bool_decide_true by lia. rewrite land63, encode_entry by (apply Z.mod_pos_bound; lia).
  by rewrite Hd.
Qed.

(** The position in a group. *)
Ltac pos4 := cbn [ob_io] in *; Z.to_euclidean_division_equations; lia.

(** From a group boundary the function writes the encoding of the rest. *)
Lemma encode_rest L bs : Forall (in_range 8) bs -> forall v o, ob_io o mod 4 = 0 ->
  ('(v, rem, o) ← encode_loop L bs v 0 o; o ← encode_last L v rem o; o ← encode_pad 4 L o; encode_end L o)
  = (o ← put_all L (rfc4648 bs) o; encode_end L o).
Proof.
  induction bs as [|a|a b|a b c bs IH] using groups_ind; intros Hbs v o Ho.
  - cbn [encode_loop rfc4648 put_all mbind flow_bind]. rewrite last_none. cbn [mbind flow_bind]. by rewrite pad_stop.
  - apply Forall_cons in Hbs as [Hbs _]. rewrite encode_byte0 by done. cbn [rfc4648 put_all]. rewrite !flow_bind_assoc.
    apply flow_bind_next. intros o1 E1%put_io. cbn [encode_loop mbind flow_bind].
    rewrite (last_some L 2 _ (a mod 4 * 16)) by (lia || register). rewrite flow_bind_assoc.
    apply flow_bind_next. intros o2 E2%put_io. rewrite pad_turn by pos4. rewrite !flow_bind_assoc.
    apply flow_bind_next. intros o3 E3%put_io. rewrite pad_turn by pos4. rewrite !flow_bind_assoc.
    apply flow_bind_next. intros o4 E4%put_io. by rewrite pad_stop by pos4.
  - apply Forall_cons in Hbs as [Ha [Hb _]%Forall_cons]. rewrite encode_byte0 by done. cbn [rfc4648 put_all]. rewrite !flow_bind_assoc.
    apply flow_bind_next. intros o1 E1%put_io. rewrite (encode_byte2 _ _ (a mod 4)) by (done || register). rewrite !flow_bind_assoc.
    apply flow_bind_next. intros o2 E2%put_io. cbn [encode_loop mbind flow_bind].
    rewrite (last_some L 4 _ (b mod 16 * 4)) by (lia || register). rewrite flow_bind_assoc.
    apply flow_bind_next. intros o3 E3%put_io. rewrite pad_turn by pos4. rewrite !flow_bind_assoc.
    apply flow_bind_next. intros o4 E4%put_io. by rewrite pad_stop by pos4.
  - apply Forall_cons in Hbs as [Ha [Hb [Hc Hbs]%Forall_cons]%Forall_cons].
    destruct (encode_group L a b c bs v o Ha Hb Hc) as (v' & ->). cbn [rfc4648].
    change (?x1 :: ?x2 :: ?x3 :: ?x4 :: rfc4648 bs) with ([x1; x2; x3; x4] ++ rfc4648 bs). rewrite put_all_app, !flow_bind_assoc.
    apply flow_bind_next. intros o1 E1%put_all_io. cbn in E1. apply IH; [done|pos4].
Qed.

(** The encoder writes the encoding of RFC 4648 and a terminating zero, and
    returns its length; when the buffer is too short it returns -ENOBUFS
    after writing as much as fits, and nothing beyond the buffer. *)
Theorem nn_base64_encode_rfc4648 bs (out_len : Z) :
  Forall (in_range 8) bs -> 0 <= out_len -> Z.of_nat (length (rfc4648 bs)) < 2 ^ 31 ->
  nn_base64_encode bs out_len =
    if bool_decide (Z.of_nat (length (rfc4648 bs)) < out_len)
    then Ok (Z.of_nat (length (rfc4648 bs)), rfc4648 bs ++ [0])
    else Ok (- ENOBUFS, take (Z.to_nat out_len) (rfc4648 bs)).
Proof.
  intros Hbs HL Hlen. unfold nn_base64_encode. rewrite encode_rest by done. case_bool_decide.
  - rewrite put_all_fits by (done || cbn; lia). cbn [mbind flow_bind]. unfold encode_end. cbn [ob_io ob_data].
    rewrite bool_decide_false by lia. rewrite to_int_nonneg by lia. done.
  - destruct (decide (Z.of_nat (length (rfc4648 bs)) = out_len)) as [<-|Hne].
    + rewrite put_all_fits by (done || cbn; lia). cbn [mbind flow_bind]. unfold encode_end. cbn [ob_io ob_data].
      rewrite bool_decide_true by lia. cbn. by rewrite Nat2Z.id, firstn_all.
    + rewrite put_all_full by (done || cbn; lia). cbn. by rewrite Z.sub_0_r.
Qed.

(** ** Decoding *)

(** White space is skipped wherever it stands. *)
Definition strip (inp : list Z) : list Z := filter (fun c => isspace c = false) inp.

Lemma decode_strip L inp : forall v rem o, decode_loop L inp v rem o = decode_loop L (strip inp) v rem o.
Proof.
  induction inp as [|c inp IH]; intros v rem o; [done|]. unfold strip. destruct (isspace c) eqn:E.
  - rewrite filter_cons_False by congruence. cbn [decode_loop]. rewrite E. apply IH.
  - rewrite filter_cons_True by done. cbn [decode_loop]. rewrite E. case_bool_decide; [done|]. apply flow_bind_ext. intros ch.
    case_bool_decide; [done|]. case_bool_decide; [apply flow_bind_ext; intros|]; apply IH.
Qed.

Lemma decode_short L d inp v o : 0 <= d < 64 ->
  decode_loop L (digit d :: inp) v 0 o = decode_loop L inp (shift_in 6 v d) 6 o.
Proof.
  intros Hd. cbn [decode_loop]. destruct (decode_digit d Hd) as (-> & Hne & ->). rewrite bool_decide_false by done.
  cbn [mbind flow_bind]. by rewrite !bool_decide_false by lia.
Qed.

(** A digit that completes the byte [x]. *)
Lemma decode_byte L d x inp v rem o : 0 <= d < 64 -> 2 <= rem <= 6 ->
  Z.shiftr (shift_in 6 v d) (rem - 2) mod 256 = x ->
  decode_loop L (digit d :: inp) v rem o = (o ← put L x o; decode_loop L inp (shift_in 6 v d) (rem - 2) o).
Proof.
  intros Hd Hr Hx. cbn [decode_loop]. destruct (decode_digit d Hd) as (-> & Hne & ->). rewrite bool_decide_false by done.
  cbn [mbind flow_bind]. rewrite bool_decide_false by lia. rewrite bool_decide_true by lia. rewrite land255.
  replace (rem + 6 - 8) with (rem - 2) by lia. by rewrite Hx.
Qed.

(** The digits of a group after the first: 6, 4 and 2 bits, [p], are left. *)
Lemma decode_byte6 L d p inp v o : 0 <= d < 64 -> v mod 64 = p ->
  decode_loop L (digit d :: inp) v 6 o = (o ← put L (p * 4 + d / 16) o; decode_loop L inp (shift_in 6 v d) 4 o).
Proof. intros Hd Hp. apply (decode_byte L d _ inp v 6 o Hd); [lia|register]. Qed.
Lemma decode_byte4 L d p inp v o : 0 <= d < 64 -> v mod 16 = p ->
  decode_loop L (digit d :: inp) v 4 o = (o ← put L (p * 16 + d / 4) o; decode_loop L inp (shift_in 6 v d) 2 o).
Proof. intros Hd Hp. apply (decode_byte L d _ inp v 4 o Hd); [lia|register]. Qed.
Lemma decode_byte2 L d p inp v o : 0 <= d < 64 -> v mod 4 = p ->
  decode_loop L (digit d :: inp) v 2 o = (o ← put L (p * 64 + d) o; decode_loop L inp (shift_in 6 v d) 0 o).
Proof. intros Hd Hp. apply (decode_byte L d _ inp v 2 o Hd); [lia|register]. Qed.

Lemma decode_pad L inp v rem o : decode_loop L (61 :: inp) v rem o = Next (v, rem, o).
Proof. done. Qed.

Ltac digits := unfold in_range in *; Z.to_euclidean_division_equations; lia.

Lemma decode_rest L bs : Forall (in_range 8) bs -> forall v, exists v' rem', rem' < 8 /\ forall o,
  decode_loop L (rfc4648 bs) v 0 o = (o ← put_all L bs o; Next (v', rem', o)).
Proof.
  induction bs as [|a|a b|a b c bs IH] using groups_ind; intros Hbs v.
  - by exists v, 0.
  - apply Forall_cons in Hbs as [Ha _]. eexists _, 4. split; [lia|]. intros o. cbn [rfc4648 put_all]. rewrite flow_bind_assoc.
    rewrite decode_short by digits. rewrite (decode_byte6 _ _ (a / 4)) by (digits || register).
    replace (a / 4 * 4 + (a mod 4 * 16) / 16) with a by digits. apply flow_bind_ext. intros o1. reflexivity.
  - apply Forall_cons in Hbs as [Ha [Hb _]%Forall_cons]. eexists _, 2. split; [lia|]. intros o. cbn [rfc4648 put_all]. rewrite flow_bind_assoc.
    rewrite decode_short by digits. rewrite (decode_byte6 _ _ (a / 4)) by (digits || register).
    replace (a / 4 * 4 + (a mod 4 * 16 + b / 16) / 16) with a by digits. apply flow_bind_ext. intros o1.
    rewrite flow_bind_assoc. rewrite (decode_byte4 _ _ (b / 16)) by (digits || register).
    replace (b / 16 * 16 + (b mod 16 * 4) / 4) with b by digits. apply flow_bind_ext. intros o2. reflexivity.
  - apply Forall_cons in Hbs as [Ha [Hb [Hc Hbs]%Forall_cons]%Forall_cons].
    set (v1 := shift_in 6 (shift_in 6 (shift_in 6 (shift_in 6 v (a / 4)) (a mod 4 * 16 + b / 16)) (b mod 16 * 4 + c / 64)) (c mod 64)).
    destruct (IH Hbs v1) as (v' & rem' & Hrem & E). exists v', rem'. split; [done|]. intros o. cbn [rfc4648 put_all]. rewrite flow_bind_assoc.
    rewrite decode_short by digits. rewrite (decode_byte6 _ _ (a / 4)) by (digits || register).
    replace (a / 4 * 4 + (a mod 4 * 16 + b / 16) / 16) with a by digits. apply flow_bind_ext. intros o1.
    rewrite flow_bind_assoc. rewrite (decode_byte4 _ _ (b / 16)) by (digits || register).
    replace (b / 16 * 16 + (b mod 16 * 4 + c / 64) / 4) with b by digits. apply flow_bind_ext. intros o2.
    rewrite flow_bind_assoc. rewrite (decode_byte2 _ _ (c / 64)) by (digits || register).
    replace (c / 64 * 64 + c mod 64) with c by digits. apply flow_bind_ext. intros o3. apply E.
Qed.

(** Decoding an encoding, with white space anywhere in it, gives the bytes
    back; when the buffer is too short for them the decoder returns -ENOBUFS
    after the bytes that fit. *)
Theorem nn_base64_roundtrip bs text (out_len : Z) :
  Forall (in_range 8) bs -> strip text = rfc4648 bs -> 0 <= out_len -> Z.of_nat (length bs) < 2 ^ 31 ->
  nn_base64_decode text out_len =
    if bool_decide (Z.of_nat (length bs) <= out_len) then Ok (Z.of_nat (length bs), bs)
    else Ok (- ENOBUFS, take (Z.to_nat out_len) bs).
Proof.
  intros Hbs Ht HL Hlen. unfold nn_base64_decode. rewrite decode_strip, Ht.
  destruct (decode_rest out_len bs Hbs 0) as (v' & rem' & Hrem & ->). case_bool_decide.
  - rewrite put_all_fits by (done || cbn; lia). cbn [mbind flow_bind]. rewrite bool_decide_false by lia. cbn [mbind flow_bind returned ob_io ob_data].
    by rewrite to_int_nonneg by lia.
  - rewrite put_all_full by (done || cbn; lia). cbn. by rewrite Z.sub_0_r.
Qed.

(** The key of a WebSocket handshake, 16 bytes, in its 25-byte buffer. *)
Lemma nn_base64_encode_rfc4648_witness :
  nn_base64_encode [0xDE; 0xAD; 0xBE; 0xEF; 1; 2; 3; 4; 5; 6; 7; 8; 9; 10; 11; 255] 25
    = Ok (24, [51; 113; 50; 43; 55; 119; 69; 67; 65; 119; 81; 70; 66; 103; 99; 73; 67; 81; 111; 76; 47; 119; 61; 61; 0]).
Proof.
  rewrite nn_base64_encode_rfc4648; [vm_compute; reflexivity| |lia|vm_compute; reflexivity].
  repeat constructor; unfold in_range; lia.
Defined.

Lemma nn_base64_roundtrip_witness :
  nn_base64_decode [32; 51; 113; 50; 43; 10; 55; 119; 61; 61] 4 = Ok (4, [0xDE; 0xAD; 0xBE; 0xEF]).
Proof.
  rewrite (nn_base64_roundtrip [0xDE; 0xAD; 0xBE; 0xEF]); [vm_compute; reflexivity| |reflexivity|lia|vm_compute; reflexivity].
  repeat constructor; unfold in_range; lia.
Defined.

(** A character out of the alphabet ends the decoding instead of being
    discarded; one outside of ASCII indexes the table with a negative number. *)
Example base64_decode_stops : nn_base64_decode [51; 113; 50; 43; 42; 55; 119; 61; 61] 4 = Ok (3, [0xDE; 0xAD; 0xBE]).
Proof. reflexivity. Qed.
Example base64_decode_negative : nn_base64_decode [51; 113; -61; -87] 4 = Err BadAccess.
Proof. reflexivity. Qed.
