(* ===== verification/Timer.v ===== *)
(** * State machines and timers ([aio/fsm.c], [aio/timer.c])

    A component is a state machine with two handlers, one used while it is
    being stopped: the class [Machine].  [nn_timer] is such a machine that
    delegates the waiting to a worker thread.  The worker (its task queue and
    its timer set) appears only as the three things it can do to a timer,
    [worker_event]; a step of it is possible when the task was posted or the
    worker's timer is armed.  Events towards the owner are queued in the
    context; the queue slot is part of the machine ([tm_done] and
    [fsm_stopped] hold the type of a queued event). *)

From S2P Require Import Prelude.
Local Open Scope Z_scope.

Definition NN_FSM_ACTION : Z := -2.
Definition NN_FSM_START : Z := -2.
Definition NN_FSM_STOP : Z := -3.

Inductive fsm_state := NN_FSM_STATE_IDLE | NN_FSM_STATE_ACTIVE | NN_FSM_STATE_STOPPING.
#[export] Instance fsm_state_eq_dec : EqDecision fsm_state.
Proof. solve_decision. Defined.

Record nn_fsm := Fsm { fsm_st : fsm_state; fsm_stopped : option Z }.

(** What the [srcptr] argument of a handler points to. *)
Inductive srcptr := NoPtr | PtrTask | PtrWtimer | PtrTimer.
#[export] Instance srcptr_eq_dec : EqDecision srcptr.
Proof. solve_decision. Defined.

(** A component with its state machine: [fn] and [shutdown_fn]. *)
Class Machine (M : Type) := {
  m_fsm : M -> nn_fsm;
  m_set_fsm : M -> nn_fsm -> M;
  m_fn : M -> Z -> Z -> srcptr -> result M;
  m_shutdown_fn : M -> Z -> Z -> srcptr -> result M
}.

Definition nn_fsm_init : nn_fsm := Fsm NN_FSM_STATE_IDLE None.

Definition nn_fsm_isidle (self : nn_fsm) : bool :=
  bool_decide (fsm_st self = NN_FSM_STATE_IDLE) && bool_decide (fsm_stopped self = None).

Definition nn_fsm_term (self : nn_fsm) : result unit := assert_ (nn_fsm_isidle self).

(** [nn_fsm_raise]: the event enters the queue of the context, which asserts
    that it is not there yet. *)
Definition nn_fsm_raise (event : option Z) (type : Z) : result (option Z) :=
  _ ← assert_ (bool_decide (event = None)); Ok (Some type).

Definition nn_fsm_stopped (self : nn_fsm) (type : Z) : result nn_fsm :=
  _ ← assert_ (bool_decide (fsm_st self = NN_FSM_STATE_STOPPING));
  stopped ← nn_fsm_raise (fsm_stopped self) type;
  Ok (Fsm NN_FSM_STATE_IDLE stopped).

Definition nn_fsm_stopped_noevent (self : nn_fsm) : result nn_fsm :=
  _ ← assert_ (bool_decide (fsm_st self = NN_FSM_STATE_STOPPING));
  Ok (Fsm NN_FSM_STATE_IDLE (fsm_stopped self)).

Section Fsm.
  Context {M : Type} `{Machine M}.

Definition set_fsm_state (self : M) (st : fsm_state) : M := m_set_fsm self (Fsm st (fsm_stopped (m_fsm self))).

Definition nn_fsm_feed (self : M) (src type : Z) (ptr : srcptr) : result M :=
  if negb (bool_decide (fsm_st (m_fsm self) = NN_FSM_STATE_STOPPING)) then m_fn self src type ptr
  else m_shutdown_fn self src type ptr.

Definition nn_fsm_start (self : M) : result M :=
  _ ← assert_ (nn_fsm_isidle (m_fsm self));
  self ← m_fn self NN_FSM_ACTION NN_FSM_START NoPtr;
  Ok (set_fsm_state self NN_FSM_STATE_ACTIVE).

Definition nn_fsm_stop (self : M) : result M :=
  if negb (bool_decide (fsm_st (m_fsm self) = NN_FSM_STATE_ACTIVE)) then Ok self
  else m_shutdown_fn (set_fsm_state self NN_FSM_STATE_STOPPING) NN_FSM_ACTION NN_FSM_STOP NoPtr.

Definition nn_fsm_action (self : M) (type : Z) : result M :=
  _ ← assert_ (bool_decide (type > 0));
  nn_fsm_feed self NN_FSM_ACTION type NoPtr.

End Fsm.

(** ** Timers *)

Definition NN_TIMER_TIMEOUT : Z := 1.
Definition NN_TIMER_STOPPED : Z := 2.
Definition NN_TIMER_SRC_START_TASK : Z := 1.
Definition NN_TIMER_SRC_STOP_TASK : Z := 2.
Definition NN_WORKER_TASK_EXECUTE : Z := 1.
Definition NN_WORKER_TIMER_TIMEOUT : Z := 1.

Inductive timer_state := NN_TIMER_STATE_IDLE | NN_TIMER_STATE_ACTIVE | NN_TIMER_STATE_STOPPING.
#[export] Instance timer_state_eq_dec : EqDecision timer_state.
Proof. solve_decision. Defined.

(** [tm_start_task], [tm_stop_task]: the task is in the worker's queue;
    [tm_wtimer]: the worker's timer is armed. *)
Record nn_timer := Timer {
  tm_fsm : nn_fsm;
  tm_state : timer_state;
  tm_start_task : bool;
  tm_stop_task : bool;
  tm_wtimer : bool;
  tm_done : option Z;
  tm_timeout : Z
}.

Definition nn_timer_init : nn_timer := Timer nn_fsm_init NN_TIMER_STATE_IDLE false false false None (-1).

(** [nn_worker_task_term] and [nn_worker_timer_term] assert that neither is
    queued. *)
Definition nn_timer_term (self : nn_timer) : result unit :=
  _ ← assert_ (bool_decide (tm_state self = NN_TIMER_STATE_IDLE));
  _ ← assert_ (negb (tm_wtimer self));
  _ ← assert_ (negb (tm_stop_task self));
  _ ← assert_ (negb (tm_start_task self));
  nn_fsm_term (tm_fsm self).

Definition nn_timer_isidle (self : nn_timer) : bool := nn_fsm_isidle (tm_fsm self).

(** Posting a task: the queue asserts that it is not there yet; the same for
    the set of timers. *)
Definition nn_worker_execute (queued : bool) : result bool := _ ← assert_ (negb queued); Ok true.
Definition nn_worker_add_timer (armed : bool) : result bool := _ ← assert_ (negb armed); Ok true.

Definition nn_timer_shutdown (self : nn_timer) (src type : Z) (ptr : srcptr) : result nn_timer :=
  let '(Timer fsm state start_task stop_task wtimer done timeout) := self in
  if bool_decide (src = NN_FSM_ACTION) && bool_decide (type = NN_FSM_STOP) then
    stop_task ← nn_worker_execute stop_task;
    Ok (Timer fsm NN_TIMER_STATE_STOPPING start_task stop_task wtimer done timeout)
  else if bool_decide (state = NN_TIMER_STATE_STOPPING) then
    if negb (bool_decide (src = NN_TIMER_SRC_STOP_TASK)) then Ok self
    else
      _ ← assert_ (bool_decide (type = NN_WORKER_TASK_EXECUTE));
      fsm ← nn_fsm_stopped fsm NN_TIMER_STOPPED;
      Ok (Timer fsm NN_TIMER_STATE_IDLE start_task stop_task false done timeout)
  else Err AssertFailed.

Definition nn_timer_handler (self : nn_timer) (src type : Z) (ptr : srcptr) : result nn_timer :=
  let '(Timer fsm state start_task stop_task wtimer done timeout) := self in
  match state with
  | NN_TIMER_STATE_IDLE =>
      if bool_decide (src = NN_FSM_ACTION) && bool_decide (type = NN_FSM_START) then
        start_task ← nn_worker_execute start_task;
        Ok (Timer fsm NN_TIMER_STATE_ACTIVE start_task stop_task wtimer done timeout)
      else Err AssertFailed
  | NN_TIMER_STATE_ACTIVE =>
      if bool_decide (src = NN_TIMER_SRC_START_TASK) then
        _ ← assert_ (bool_decide (type = NN_WORKER_TASK_EXECUTE));
        _ ← assert_ (bool_decide (timeout >= 0));
        wtimer ← nn_worker_add_timer wtimer;
        Ok (Timer fsm state start_task stop_task wtimer done (-1))
      else if bool_decide (ptr = PtrWtimer) then
        if bool_decide (type = NN_WORKER_TIMER_TIMEOUT) then
          _ ← assert_ (bool_decide (timeout = -1));
          done ← nn_fsm_raise done NN_TIMER_TIMEOUT;
          Ok (Timer fsm state start_task stop_task wtimer done timeout)
        else Err AssertFailed
      else Err AssertFailed
  | NN_TIMER_STATE_STOPPING => Err AssertFailed
  end.

#[export] Instance timer_machine : Machine nn_timer := {|
  m_fsm := tm_fsm;
  m_set_fsm self fsm := Timer fsm (tm_state self) (tm_start_task self) (tm_stop_task self) (tm_wtimer self)
                          (tm_done self) (tm_timeout self);
  m_fn := nn_timer_handler;
  m_shutdown_fn := nn_timer_shutdown
|}.

Definition nn_timer_start (self : nn_timer) (timeout : Z) : result nn_timer :=
  _ ← assert_ (bool_decide (timeout >= 0));
  nn_fsm_start (Timer (tm_fsm self) (tm_state self) (tm_start_task self) (tm_stop_task self) (tm_wtimer self)
                  (tm_done self) timeout).

Definition nn_timer_stop (self : nn_timer) : result nn_timer := nn_fsm_stop self.

(** ** The worker thread *)

Inductive worker_event := WStart | WStop | WTimeout.

(** Tasks are executed in the order they were posted in. *)
Definition worker_pending (t : nn_timer) (e : worker_event) : bool :=
  match e with
  | WStart => tm_start_task t
  | WStop => tm_stop_task t && negb (tm_start_task t)
  | WTimeout => tm_wtimer t
  end.

Definition worker_feed (t : nn_timer) (e : worker_event) : result nn_timer :=
  let '(Timer fsm state start_task stop_task wtimer done timeout) := t in
  match e with
  | WStart => nn_fsm_feed (Timer fsm state false stop_task wtimer done timeout)
                NN_TIMER_SRC_START_TASK NN_WORKER_TASK_EXECUTE PtrTask
  | WStop => nn_fsm_feed (Timer fsm state start_task false wtimer done timeout)
                NN_TIMER_SRC_STOP_TASK NN_WORKER_TASK_EXECUTE PtrTask
  | WTimeout => nn_fsm_feed (Timer fsm state start_task stop_task false done timeout)
                (-1) NN_WORKER_TIMER_TIMEOUT PtrWtimer
  end.

(** The event a timer has in the queue of its context leaves the queue when
    it is processed. *)
Definition take_event (t : nn_timer) : nn_timer * option Z :=
  let '(Timer fsm state start_task stop_task wtimer done timeout) := t in
  match done with
  | Some type => (Timer fsm state start_task stop_task wtimer None timeout, Some type)
  | None => (Timer (Fsm (fsm_st fsm) None) state start_task stop_task wtimer None timeout, fsm_stopped fsm)
  end.

(** The worker enters the context, feeds the timer and leaves the context. *)
Definition worker_step (t : nn_timer) (e : worker_event) : result (nn_timer * option Z) :=
  t ← worker_feed t e; Ok (take_event t).

(** ** What a timer does

    Its owner sees three phases; an active timer fires at most once. *)
Inductive phase := PIdle | PActive (fired : bool) | PStopping.
#[export] Instance phase_eq_dec : EqDecision phase.
Proof. solve_decision. Defined.

(** In each phase: the state machine's state, and where the timer is in the
    worker: start task, stop task, armed, and the field [timeout]. *)
Definition timer_rep (t : nn_timer) (ph : phase) : Prop :=
  tm_done t = None /\ fsm_stopped (tm_fsm t) = None /\
  match ph with
  | PIdle => fsm_st (tm_fsm t) = NN_FSM_STATE_IDLE /\ tm_state t = NN_TIMER_STATE_IDLE
      /\ tm_start_task t = false /\ tm_stop_task t = false /\ tm_wtimer t = false
  | PActive fired => fsm_st (tm_fsm t) = NN_FSM_STATE_ACTIVE /\ tm_state t = NN_TIMER_STATE_ACTIVE
      /\ tm_stop_task t = false
      /\ (tm_start_task t = true /\ tm_wtimer t = false /\ 0 <= tm_timeout t /\ fired = false
          \/ tm_start_task t = false /\ tm_wtimer t = negb fired /\ tm_timeout t = -1)
  | PStopping => fsm_st (tm_fsm t) = NN_FSM_STATE_STOPPING /\ tm_state t = NN_TIMER_STATE_STOPPING
      /\ tm_stop_task t = true /\ (tm_start_task t = true -> tm_wtimer t = false)
  end.

Ltac open_timer t :=
  let fsm := fresh "fsm" in
  destruct t as [fsm ? ? ? ? ? ?]; destruct fsm as [? ?];
  unfold timer_rep, nn_timer_start, nn_timer_stop, nn_fsm_start, nn_fsm_stop, nn_timer_isidle, worker_step, worker_feed, worker_pending in *;
  cbn [tm_fsm tm_state tm_start_task tm_stop_task tm_wtimer tm_done tm_timeout fsm_st fsm_stopped m_fsm m_set_fsm m_fn m_shutdown_fn timer_machine] in *.

Lemma nn_timer_init_rep : timer_rep nn_timer_init PIdle.
Proof. done. Qed.

Lemma nn_timer_isidle_rep t ph : timer_rep t ph -> nn_timer_isidle t = bool_decide (ph = PIdle).
Proof. open_timer t. intros (-> & -> & Hph). destruct ph; destruct_and! Hph; subst; done. Qed.

Lemma nn_timer_start_rep t d : timer_rep t PIdle -> 0 <= d -> exists t', nn_timer_start t d = Ok t' /\ timer_rep t' (PActive false).
Proof.
  open_timer t. intros (-> & -> & -> & -> & -> & -> & ->) Hd. decide_bools. mred.
  eexists. split; [reflexivity|]. cbn. repeat (split; [done|]). left. done.
Qed.

(** Stopping is asynchronous, and idempotent. *)
Definition stop_phase (ph : phase) : phase := match ph with PIdle => PIdle | _ => PStopping end.

Lemma nn_timer_stop_rep t ph : timer_rep t ph -> exists t', nn_timer_stop t = Ok t' /\ timer_rep t' (stop_phase ph).
Proof.
  open_timer t. intros (-> & -> & Hph). destruct ph as [|fired|]; destruct_and! Hph; subst.
  - eexists. split; [reflexivity|]. done.
  - eexists. split; [reflexivity|]. cbn. naive_solver.
  - eexists. split; [reflexivity|]. cbn. naive_solver.
Qed.

(** What the owner may be told, and the phase it leads to. *)
Definition worker_spec (ph : phase) (e : worker_event) (ph' : phase) (told : option Z) : Prop :=
  match e with
  | WStart => ph' = ph /\ told = None /\ ph <> PIdle /\ ph <> PActive true
  | WTimeout => (ph = PActive false /\ ph' = PActive true /\ told = Some NN_TIMER_TIMEOUT)
                \/ (ph = PStopping /\ ph' = PStopping /\ told = None)
  | WStop => ph = PStopping /\ ph' = PIdle /\ told = Some NN_TIMER_STOPPED
  end.

Lemma worker_step_rep t ph e :
  timer_rep t ph -> worker_pending t e = true ->
  exists t' ph' told, worker_step t e = Ok (t', told) /\ timer_rep t' ph' /\ worker_spec ph e ph' told.
Proof.
  open_timer t. intros (-> & -> & Hph) He. destruct ph as [|fired|]; destruct_and! Hph; subst.
  - destruct e; subst; done.
  - match goal with H : _ \/ _ |- _ => destruct H end; destruct_and!; subst.
    + destruct e; [|done..]. unfold nn_fsm_feed. cbn [m_fsm timer_machine tm_fsm fsm_st m_fn]. decide_bools. mred.
      cbn [nn_timer_handler]. decide_bools. mred. eexists _, (PActive false), None. split; [reflexivity|]. cbn. naive_solver.
    + destruct e; [done|done|]. destruct fired; [done|].
      eexists _, (PActive true), (Some NN_TIMER_TIMEOUT). split; [reflexivity|]. cbn. naive_solver.
  - destruct e; subst.
    + eexists _, PStopping, None. split; [reflexivity|]. cbn. naive_solver.
    + apply andb_true_iff in He as [_ He]. apply negb_true_iff in He. subst.
      eexists _, PIdle, (Some NN_TIMER_STOPPED). split; [reflexivity|]. cbn. naive_solver.
    + eexists _, PStopping, None. split; [reflexivity|]. cbn. naive_solver.
Qed.

(** A timer that is being stopped: once the worker has executed what was
    posted, the owner is told and the timer may be terminated. *)
Lemma timer_stopping_run t :
  timer_rep t PStopping ->
  exists t1 t2, (if worker_pending t WStart then worker_step t WStart else Ok (t, None)) = Ok (t1, None)
    /\ worker_pending t1 WStop = true /\ worker_step t1 WStop = Ok (t2, Some NN_TIMER_STOPPED) /\ timer_rep t2 PIdle.
Proof.
  open_timer t. intros (-> & -> & -> & -> & -> & Hph). destruct tm_start_task0.
  - rewrite (Hph eq_refl). eexists _, _. split; [reflexivity|]. split; [done|]. split; [reflexivity|]. done.
  - eexists _, _. split; [reflexivity|]. split; [done|]. split; [reflexivity|]. done.
Qed.

Lemma nn_timer_term_rep t : timer_rep t PIdle -> nn_timer_term t = Ok tt.
Proof. open_timer t. intros (-> & -> & -> & -> & -> & -> & ->). done. Qed.

(** ** Runs of a timer *)
Inductive timer_op := OStart (timeout : Z) | OStop | OWorker (e : worker_event).

(** Owners start idle timers only; the worker does what is pending. *)
Definition timer_step (t : nn_timer) (o : timer_op) : result (nn_timer * option Z) :=
  match o with
  | OStart d => if nn_timer_isidle t then t ← nn_timer_start t d; Ok (t, None) else Ok (t, None)
  | OStop => t ← nn_timer_stop t; Ok (t, None)
  | OWorker e => if worker_pending t e then worker_step t e else Ok (t, None)
  end.

Fixpoint timer_run (t : nn_timer) (os : list timer_op) : result (nn_timer * list (option Z)) :=
  match os with
  | [] => Ok (t, [])
  | o :: os => '(t, e) ← timer_step t o; '(t, es) ← timer_run t os; Ok (t, e :: es)
  end.

(** A run as the owner may see it. *)
Inductive told : phase -> list timer_op -> list (option Z) -> phase -> Prop :=
  | told_nil ph : told ph [] [] ph
  | told_start ph d os es ph' :
      told (if ph is PIdle then PActive false else ph) os es ph' -> told ph (OStart d :: os) (None :: es) ph'
  | told_stop ph os es ph' : told (stop_phase ph) os es ph' -> told ph (OStop :: os) (None :: es) ph'
  | told_skip ph e os es ph' : told ph os es ph' -> told ph (OWorker e :: os) (None :: es) ph'
  | told_worker ph e ph1 x os es ph' :
      worker_spec ph e ph1 x -> told ph1 os es ph' -> told ph (OWorker e :: os) (x :: es) ph'.

Lemma timer_run_told os : forall t ph,
  timer_rep t ph -> Forall (fun o => match o with OStart d => 0 <= d | _ => True end) os ->
  exists t' es ph', timer_run t os = Ok (t', es) /\ timer_rep t' ph' /\ told ph os es ph'.
Proof.
  induction os as [|o os IH]; intros t ph Ht Hos; [exists t, [], ph; split; [done|]; split; [done|constructor]|].
  apply Forall_cons in Hos as [Ho Hos]. cbn [timer_run]. destruct o as [d| |e]; cbn [timer_step].
  - rewrite (nn_timer_isidle_rep t ph Ht). case_bool_decide as Hph.
    + subst. destruct (nn_timer_start_rep t d) as (t1 & -> & Ht1); [done..|]. mred.
      destruct (IH t1 _ Ht1 Hos) as (t' & es & ph' & -> & ? & ?). mred. eexists _, _, _. split; [done|]. split; [done|]. by constructor.
    + mred. destruct (IH t ph Ht Hos) as (t' & es & ph' & -> & ? & ?). mred. eexists _, _, _. split; [done|]. split; [done|].
      constructor. by destruct ph.
  - destruct (nn_timer_stop_rep t ph Ht) as (t1 & -> & Ht1). mred.
    destruct (IH t1 _ Ht1 Hos) as (t' & es & ph' & -> & ? & ?). mred. eexists _, _, _. split; [done|]. split; [done|]. by constructor.
  - destruct (worker_pending t e) eqn:He.
    + destruct (worker_step_rep t ph e Ht He) as (t1 & ph1 & x & -> & Ht1 & Hs). mred.
      destruct (IH t1 _ Ht1 Hos) as (t' & es & ph' & -> & ? & ?). mred. eexists _, _, _. split; [done|]. split; [done|]. by econstructor.
    + mred. destruct (IH t ph Ht Hos) as (t' & es & ph' & -> & ? & ?). mred. eexists _, _, _. split; [done|]. split; [done|]. by apply told_skip.
Qed.

(** ** Results *)

(** C18. A timer never aborts as long as the intervals are not negative, tells
    its owner what [told] allows - at most one TIMEOUT for a start and none
    once it is being stopped, STOPPED only after a stop - and once it is being
    stopped, executing the tasks posted to the worker makes it idle again and
    tells the owner so. *)
Theorem nn_timer_refines (os : list timer_op) :
  Forall (fun o => match o with OStart d => 0 <= d | _ => True end) os ->
  exists t es ph, timer_run nn_timer_init os = Ok (t, es) /\ told PIdle os es ph
    /\ nn_timer_isidle t = bool_decide (ph = PIdle)
    /\ (ph = PStopping -> exists t' a, timer_run t [OWorker WStart; OWorker WStop] = Ok (t', [a; Some NN_TIMER_STOPPED])
          /\ nn_timer_term t' = Ok tt).
Proof.
  intros Hos. destruct (timer_run_told os nn_timer_init PIdle nn_timer_init_rep Hos) as (t & es & ph & E & Ht & Htold).
  exists t, es, ph. split; [done|]. split; [done|]. split; [by apply nn_timer_isidle_rep|]. intros ->.
  destruct t as [[st stopped] state start_task stop_task wtimer done timeout].
  destruct Ht as (Hd & Hs & H1 & H2 & H3 & H4). cbn in *. subst.
  destruct start_task; eexists _, _; split; try reflexivity; done.
Qed.

(** A running timer that is not stopped fires: once the worker has taken
    the start task, expiry of its timer tells the owner TIMEOUT. *)
Theorem nn_timer_fires (t : nn_timer) (d : Z) :
  timer_rep t PIdle -> 0 <= d ->
  exists t', timer_run t [OStart d; OWorker WStart; OWorker WTimeout] = Ok (t', [None; None; Some NN_TIMER_TIMEOUT])
    /\ timer_rep t' (PActive true).
Proof.
  destruct t as [[st stopped] state start_task stop_task wtimer done timeout].
  intros (Hd & Hs & H1 & H2 & H3 & H4 & H5) H0. cbn in *. subst.
  destruct d as [|d|d]; [| |lia]; eexists; (split; [reflexivity|]); cbn; repeat (split; [done|]); by right.
Qed.

(** A timer that is restarted after it was stopped before the worker saw it. *)
Definition demo_timer_ops : list timer_op :=
  [OStart 5; OStop; OStart 7; OWorker WTimeout; OWorker WStart; OWorker WStop; OStart 7; OWorker WStart; OWorker WTimeout; OStop].

Example demo_timer :
  exists t, timer_run nn_timer_init demo_timer_ops
    = Ok (t, [None; None; None; None; None; Some NN_TIMER_STOPPED; None; None; Some NN_TIMER_TIMEOUT; None]).
Proof. eexists. vm_compute. reflexivity. Qed.

Lemma nn_timer_refines_witness :
  exists t es ph, timer_run nn_timer_init demo_timer_ops = Ok (t, es) /\ told PIdle demo_timer_ops es ph
    /\ nn_timer_isidle t = bool_decide (ph = PIdle)
    /\ (ph = PStopping -> exists t' a, timer_run t [OWorker WStart; OWorker WStop] = Ok (t', [a; Some NN_TIMER_STOPPED])
          /\ nn_timer_term t' = Ok tt).
Proof. apply (nn_timer_refines demo_timer_ops). repeat constructor; lia. Defined.

Lemma nn_timer_fires_witness :
  exists t', timer_run nn_timer_init [OStart 0; OWorker WStart; OWorker WTimeout] = Ok (t', [None; None; Some NN_TIMER_TIMEOUT])
    /\ timer_rep t' (PActive true).
Proof. apply (nn_timer_fires nn_timer_init 0 nn_timer_init_rep). lia. Defined.
