(* ===== verification/Timerset.v ===== *)
(** * Sets of timeouts ([aio/timerset.c])

    The worker thread keeps the pending timeouts in a list ordered by the
    instant when they are due.  The handles are intrusive: the model keeps
    their list links in the shared item store and their [timeout] fields in a
    second one.  The clock is an argument.  The walk over the list has fuel
    the number of known handles plus one. *)

From Stdlib Require Import Sorted.
From S2P Require Import Prelude NNList.
Local Open Scope Z_scope.

Section Timerset.
  Context {St L : Type} `{ListOps St L}.

(** The handles: [list] fields in [ts_links], [timeout] fields in [ts_due]. *)
Record handles := Handles { ts_links : St; ts_due : gmap addr Z }.

Definition nn_timerset_init : L := list_init.
Definition nn_timerset_term (self : L) : result unit := list_term self.

(** The first handle of the list due after [timeout], from [it] on. *)
Fixpoint find_later (fuel : nat) (s : handles) (timeout : Z) (it : ptr) : result ptr :=
  match fuel with
  | O => Err NoFuel
  | S fuel =>
      match it with
      | NULL => Ok NULL
      | At a =>
          ith ← deref (ts_due s !! a);
          if bool_decide (timeout < ith) then Ok (At a)
          else n ← list_next (ts_links s) it; find_later fuel s timeout n
      | NN_LIST_NOTINLIST => Err BadAccess
      end
  end.

Definition nn_timerset_add (now : Z) (s : handles) (self : L) (timeout : Z) (hndl : addr) : result (handles * L * Z) :=
  let due := u64 (now + u64 timeout) in
  let s := Handles (ts_links s) (<[hndl := due]> (ts_due s)) in
  it ← find_later (S (size (ts_due s))) s due (list_begin self);
  let first := if bool_decide (list_begin self = it) then 1 else 0 in
  '(lk, self) ← list_insert (ts_links s) self (At hndl) it;
  Ok (Handles lk (ts_due s), self, first).

Definition nn_timerset_rm (s : handles) (self : L) (hndl : addr) : result (handles * L * Z) :=
  b ← list_item_isinlist (ts_links s) (At hndl);
  if negb b then Ok (s, self, 0)
  else
    let first := if bool_decide (list_begin self = At hndl) then 1 else 0 in
    '(lk, self, _) ← list_erase (ts_links s) self (At hndl);
    Ok (Handles lk (ts_due s), self, first).

(** The [timeout] field of the first handle. *)
Definition first_due (s : handles) (self : L) : result Z :=
  match list_begin self with At a => deref (ts_due s !! a) | _ => Err BadAccess end.

Definition nn_timerset_timeout (now : Z) (s : handles) (self : L) : result Z :=
  if list_empty self then Ok (-1)
  else
    due ← first_due s self;
    let timeout := to_int (u64 (due - now)) in
    Ok (if bool_decide (timeout < 0) then 0 else timeout).

Definition nn_timerset_event (now : Z) (s : handles) (self : L) : result (handles * L * Z * option addr) :=
  if list_empty self then Ok (s, self, - EAGAIN, None)
  else
    due ← first_due s self;
    if bool_decide (due > now) then Ok (s, self, - EAGAIN, None)
    else match list_begin self with
         | At first =>
             '(lk, self, _) ← list_erase (ts_links s) self (At first);
             Ok (Handles lk (ts_due s), self, 0, Some first)
         | _ => Err BadAccess
         end.

Definition nn_timerset_hndl_init (s : handles) (a : addr) : handles := Handles (list_item_init (ts_links s) a) (ts_due s).
Definition nn_timerset_hndl_term (s : handles) (a : addr) : result unit := list_item_term (ts_links s) (At a).
Definition nn_timerset_hndl_isactive (s : handles) (a : addr) : result bool := list_item_isinlist (ts_links s) (At a).

(** ** A worker's use of the set *)
Inductive set_op : Type :=
  | AddTimer (hndl : addr) (timeout : Z)
  | RmTimer (hndl : addr)
  | NextTimeout
  | TakeEvent.

(** The value an operation returns, and the handle of an event. *)
Definition set_step (now : Z) (o : set_op) (st : handles * L) : result (handles * L * (Z * option addr)) :=
  let '(s, self) := st in
  match o with
  | AddTimer h t => '(s, self, r) ← nn_timerset_add now s self t h; Ok (s, self, (r, None))
  | RmTimer h => '(s, self, r) ← nn_timerset_rm s self h; Ok (s, self, (r, None))
  | NextTimeout => r ← nn_timerset_timeout now s self; Ok (s, self, (r, None))
  | TakeEvent => '(s, self, r, h) ← nn_timerset_event now s self; Ok (s, self, (r, h))
  end.

Fixpoint set_run (ops : list (Z * set_op)) (st : handles * L) : result (handles * L * list (Z * option addr)) :=
  match ops with
  | [] => Ok (st, [])
  | (now, o) :: ops =>
      '(s, self, out) ← set_step now o st;
      '(st, outs) ← set_run ops (s, self);
      Ok (st, out :: outs)
  end.
End Timerset.
Arguments handles : clear implicits.

(** ** The abstract set: timeouts in the order they are due *)
Definition queue : Set := list (addr * Z).

Fixpoint enqueue (h : addr) (due : Z) (q : queue) : queue :=
  match q with
  | [] => [(h, due)]
  | (h', d) :: q' => if bool_decide (due < d) then (h, due) :: q else (h', d) :: enqueue h due q'
  end.

Definition head_is (h : addr) (q : list (addr * Z)) : Z := match q with (h', _) :: _ => if bool_decide (h' = h) then 1 else 0 | [] => 0 end.

Fixpoint drop_handle (h : addr) (q : queue) : queue :=
  match q with
  | [] => []
  | (h', d) :: q' => if bool_decide (h' = h) then q' else (h', d) :: drop_handle h q'
  end.

Definition spec_timer (now : Z) (o : set_op) (q : queue) : queue * (Z * option addr) :=
  match o with
  | AddTimer h t => let q' := enqueue h (now + t) q in (q', (head_is h q', None))
  | RmTimer h => (drop_handle h q, (head_is h q, None))
  | NextTimeout => (q, (match q with [] => -1 | (_, d) :: _ => Z.max 0 (d - now) end, None))
  | TakeEvent =>
      match q with
      | (h, d) :: q' => if bool_decide (d <= now) then (q', (0, Some h)) else (q, (- EAGAIN, None))
      | [] => (q, (- EAGAIN, None))
      end
  end.

Fixpoint spec_timers (ops : list (Z * set_op)) (q : queue) : queue * list (Z * option addr) :=
  match ops with
  | [] => (q, [])
  | (now, o) :: ops => let '(q, out) := spec_timer now o q in let '(q, outs) := spec_timers ops q in (q, out :: outs)
  end.

(** What the worker respects: only idle handles are added, with a timeout in
    range; when the next timeout is asked for, every pending one is within
    2^31 ms of the clock. *)
Definition timer_pre (known : list addr) (now : Z) (o : set_op) (q : queue) : Prop :=
  0 <= now < 2 ^ 62 /\
  match o with
  | AddTimer h t => h ∈ known /\ (h ∉ q.*1) /\ 0 <= t < 2 ^ 31
  | RmTimer h => h ∈ known
  | NextTimeout => Forall (fun x => - 2 ^ 31 <= x.2 - now < 2 ^ 31) q
  | TakeEvent => True
  end.

Fixpoint timers_pre (known : list addr) (ops : list (Z * set_op)) (q : queue) : Prop :=
  match ops with
  | [] => True
  | (now, o) :: ops => timer_pre known now o q /\ timers_pre known ops (fst (spec_timer now o q))
  end.

#[export] Instance timer_pre_dec known now o q : Decision (timer_pre known now o q).
Proof. destruct o; unfold timer_pre; apply _. Defined.
#[export] Instance timers_pre_dec known ops : forall q, Decision (timers_pre known ops q).
Proof. induction ops as [|[now o] ops IH]; intros q; cbn; apply _. Defined.

(** ** Refinement *)
Section TimersetSpec.
  Context {St L : Type} `{ListSpec St L}.
  Implicit Types (s : handles St) (l : L) (q : queue).

Definition due_sorted (q : queue) : Prop := StronglySorted (fun x y => x.2 <= y.2) q.

Record timers_rep (known : list addr) (s : handles St) (l : L) (q : queue) : Prop := {
  tr_rep : rep (ts_links s) l q.*1;
  tr_due : Forall (fun x => ts_due s !! x.1 = Some x.2) q;
  tr_free : forall a, a ∈ known -> a ∉ q.*1 -> free (ts_links s) a;
  tr_sorted : due_sorted q;
  tr_bounds : Forall (fun x => 0 <= x.2 < 2 ^ 63) q;
}.

(** Where [enqueue] puts a handle: after those due no later. *)
Lemma enqueue_split h due q : exists mid rest, q = mid ++ rest /\ enqueue h due q = mid ++ (h, due) :: rest /\
  Forall (fun x => x.2 <= due) mid /\ match rest with [] => True | (_, d) :: _ => due < d end.
Proof.
  induction q as [|[h' d] q (mid & rest & E & Ee & Hmid & Hrest)]; [by exists [], []|]. cbn. case_bool_decide as Hd.
  - by exists [], ((h', d) :: q).
  - exists ((h', d) :: mid), rest. cbn. rewrite Ee, <- E. repeat (split; [done|]). split; [|done]. constructor; [cbn; lia|done].
Qed.

Lemma find_later_spec s l due pre mid rest fuel :
  rep (ts_links s) l (pre ++ mid ++ rest).*1 -> Forall (fun x => ts_due s !! x.1 = Some x.2) (mid ++ rest) ->
  Forall (fun x => x.2 <= due) mid -> match rest with [] => True | (_, d) :: _ => due < d end -> (length mid < fuel)%nat ->
  find_later fuel s due (hd_or NULL (mid ++ rest).*1) = Ok (hd_or NULL rest.*1).
Proof.
  revert pre fuel. induction mid as [|[a d] mid IH]; intros pre fuel Hrep Hdue Hmid Hrest Hf; (destruct fuel as [|fuel]; [cbn in Hf; lia|]).
  - destruct rest as [|[a d] rest]; [done|]. apply Forall_cons in Hdue as [Ea _]. cbn in *. rewrite Ea. cbn. by rewrite bool_decide_true.
  - apply Forall_cons in Hdue as [Ea Hdue]. apply Forall_cons in Hmid as [Hd Hmid]. cbn in Ea, Hd |- *. rewrite Ea. cbn.
    rewrite bool_decide_false by lia. rewrite fmap_app in Hrep. cbn in Hrep. rewrite (list_next_spec _ _ _ _ _ Hrep). cbn.
    apply (IH (pre ++ [(a, d)])); [|done|done|done|cbn in Hf; lia]. by rewrite <- app_assoc, fmap_app.
Qed.

Lemma queue_size (T : gmap addr Z) q : NoDup q.*1 -> Forall (fun x => T !! x.1 = Some x.2) q -> (length q <= size T)%nat.
Proof.
  intros Hnd Hd. rewrite <- (length_fmap fst q). rewrite <- (size_list_to_set (C := gset addr)) by done.
  rewrite <- size_dom. apply subseteq_size. intros a Ha. apply elem_of_list_to_set, list_elem_of_fmap in Ha as (x & -> & Hx).
  apply elem_of_dom. exists x.2. by apply (proj1 (Forall_forall _ _) Hd).
Qed.

Lemma sorted_app_cons mid h due rest : due_sorted (mid ++ rest) -> Forall (fun x => x.2 <= due) mid ->
  match rest with [] => True | (_, d) :: _ => due < d end -> due_sorted (mid ++ (h, due) :: rest).
Proof.
  unfold due_sorted. intros Hs Hmid Hrest. induction mid as [|x mid IH]; cbn in *.
  - constructor; [done|]. destruct rest as [|[h' d] rest]; [done|]. apply StronglySorted_inv in Hs as [_ Hs].
    constructor; [cbn; lia|]. eapply Forall_impl; [exact Hs|]. cbn. lia.
  - apply StronglySorted_inv in Hs as [Hs Hx]. apply Forall_cons in Hmid as [Hxd Hmid]. constructor; [by apply IH|].
    apply Forall_app in Hx as [Hx1 Hx2]. apply Forall_app. split; [done|]. by constructor.
Qed.

Lemma due_update (T : gmap addr Z) h due q : h ∉ q.*1 -> Forall (fun x => T !! x.1 = Some x.2) q -> Forall (fun x => <[h := due]> T !! x.1 = Some x.2) q.
Proof.
  intros Hh Hq. apply Forall_forall. intros x Hx. rewrite lookup_insert_ne; [by apply (proj1 (Forall_forall _ _) Hq)|].
  intros Ex. apply Hh. rewrite Ex. apply list_elem_of_fmap. by exists x.
Qed.

Lemma add_refines known now s l q h t : timers_rep known s l q -> timer_pre known now (AddTimer h t) q ->
  exists s' l' r, nn_timerset_add now s l t h = Ok (s', l', r) /\ timers_rep known s' l' (enqueue h (now + t) q) /\
    r = head_is h (enqueue h (now + t) q).
Proof.
  intros [Hrep Hdue Hfree Hs Hb] (Hnow & Hk & Hh & Ht). unfold nn_timerset_add.
  rewrite (wrap_small _ t), wrap_small by (unfold in_range; rewrite ?wrap_small by (unfold in_range; lia); lia).
  destruct (enqueue_split h (now + t) q) as (mid & rest & -> & -> & Hmid & Hrest).
  rewrite fmap_app in Hh. apply (due_update _ h (now + t)) in Hdue; [|by rewrite fmap_app].
  rewrite (list_begin_spec _ _ _ Hrep).
  rewrite (find_later_spec _ l (now + t) [] mid rest); [|done|done|done|done|].
  2: { pose proof (queue_size _ _ (rep_NoDup _ _ _ Hrep) Hdue) as Hsz. rewrite length_app in Hsz. cbn in *. lia. }
  cbn [mbind result_bind ts_links ts_due].
  rewrite fmap_app in Hrep, Hfree. destruct (list_insert_spec (ts_links s) l mid.*1 rest.*1 h Hrep) as (lk & l' & -> & Hrep' & Hag).
  { apply Hfree; [done|]. done. }
  cbn [mbind result_bind]. eexists _, _, _. split; [done|]. split; [constructor|].
  - by rewrite fmap_app.
  - apply Forall_app in Hdue as [Hd1 Hd2]. apply Forall_app. split; [done|]. constructor; [|done]. cbn. by rewrite lookup_insert_eq.
  - intros a Ha Hna. rewrite fmap_app in Hna. cbn in *. apply (free_agree (h :: mid.*1 ++ rest.*1) (ts_links s)); [done|set_solver|].
    apply Hfree; [done|set_solver].
  - by apply sorted_app_cons.
  - apply Forall_app in Hb as [Hb1 Hb2]. apply Forall_app. split; [done|]. constructor; [cbn; lia|done].
  - destruct mid as [|[a d] mid]; cbn; [by rewrite !bool_decide_true|].
    apply rep_NoDup in Hrep'. cbn in Hrep'. apply NoDup_cons in Hrep' as [Hna _].
    rewrite (bool_decide_false (a = h)) by set_solver. rewrite bool_decide_false; [done|].
    destruct rest as [|[b e] rest]; cbn in *; [done|]. intros E. injection E as ->. apply Hna. set_solver.
Qed.

Lemma drop_handle_notin h q : h ∉ q.*1 -> drop_handle h q = q.
Proof.
  induction q as [|[a d] q IH]; intros Hq; [done|]. cbn in Hq |- *. rewrite bool_decide_false by set_solver.
  f_equal. apply IH. set_solver.
Qed.

Lemma drop_handle_at h d q1 q2 : NoDup (q1 ++ (h, d) :: q2).*1 -> drop_handle h (q1 ++ (h, d) :: q2) = q1 ++ q2.
Proof.
  induction q1 as [|[a e] q1 IH]; cbn; intros [Hn Hnd]%NoDup_cons; [by rewrite bool_decide_true|].
  rewrite bool_decide_false; [by rewrite IH|]. rewrite fmap_app in Hn. cbn in Hn. set_solver.
Qed.

(** Taking a handle out of the list. *)
Lemma erase_rep known s l q1 h d q2 : timers_rep known s l (q1 ++ (h, d) :: q2) ->
  exists lk l', list_erase (ts_links s) l (At h) = Ok (lk, l', hd_or NULL q2.*1) /\ timers_rep known (Handles lk (ts_due s)) l' (q1 ++ q2).
Proof.
  intros [Hrep Hdue Hfree Hs Hb]. rewrite fmap_app in Hrep, Hfree. cbn in Hrep, Hfree.
  destruct (list_erase_spec _ _ _ _ _ Hrep) as (lk & l' & E & Hrep' & Hf & Hag). exists lk, l'. split; [done|]. constructor; cbn.
  - by rewrite fmap_app.
  - apply Forall_app in Hdue as [? [_ ?]%Forall_cons]. by apply Forall_app.
  - intros a Ha Hna. rewrite fmap_app in Hna. destruct (decide (a = h)) as [->|Hne]; [done|].
    apply (free_agree (q1.*1 ++ h :: q2.*1) (ts_links s)); [done|set_solver|]. apply Hfree; [done|set_solver].
  - clear -Hs. unfold due_sorted in *. induction q1 as [|x q1 IH]; cbn in *; apply StronglySorted_inv in Hs as [Hs Hx]; [done|].
    constructor; [by apply IH|]. apply Forall_app in Hx as [? [_ ?]%Forall_cons]. by apply Forall_app.
  - apply Forall_app in Hb as [? [_ ?]%Forall_cons]. by apply Forall_app.
Qed.

Lemma rm_refines known s l q h : timers_rep known s l q -> h ∈ known ->
  exists s' l', nn_timerset_rm s l h = Ok (s', l', head_is h q) /\ timers_rep known s' l' (drop_handle h q).
Proof.
  intros Hr Hk. unfold nn_timerset_rm. destruct (decide (h ∈ q.*1)) as [Hin|Hout].
  - rewrite (list_isinlist_in _ _ _ h (tr_rep _ _ _ _ Hr) Hin). cbn [mbind result_bind negb].
    rewrite (list_begin_spec _ _ _ (tr_rep _ _ _ _ Hr)). apply list_elem_of_fmap in Hin as ([h' d] & Eh & Hin). cbn in Eh. subst h'.
    apply list_elem_of_split in Hin as (q1 & q2 & ->). pose proof (rep_NoDup _ _ _ (tr_rep _ _ _ _ Hr)) as Hnd. rewrite drop_handle_at by done.
    destruct (erase_rep known s l q1 h d q2 Hr) as (lk & l' & E & Hr'). rewrite E. cbn [mbind result_bind]. eexists _, _. split; [|done].
    repeat f_equal. destruct q1 as [|[a b] q1]; cbn; [by rewrite !bool_decide_true|]. cbn in Hnd. apply NoDup_cons in Hnd as [Hnd _].
    rewrite !bool_decide_false; [done| |]; [intros ->|intros E'; injection E' as ->]; apply Hnd; rewrite fmap_app; set_solver.
  - rewrite (list_isinlist_free _ h) by (by apply (tr_free _ _ _ _ Hr)). cbn. eexists _, _. split.
    + repeat f_equal. destruct q as [|[a b] q]; [done|]. cbn in *. by rewrite bool_decide_false by set_solver.
    + by rewrite drop_handle_notin.
Qed.

Lemma first_due_spec known s l h d q : timers_rep known s l ((h, d) :: q) -> list_begin l = At h /\ first_due s l = Ok d /\ list_empty l = false.
Proof.
  intros Hr. pose proof (list_begin_spec _ _ _ (tr_rep _ _ _ _ Hr)) as Eb. cbn in Eb. unfold first_due. rewrite Eb.
  pose proof (tr_due _ _ _ _ Hr) as [Ed _]%Forall_cons. cbn in Ed. rewrite Ed. split; [done|]. split; [done|].
  by rewrite (list_empty_spec _ _ _ (tr_rep _ _ _ _ Hr)).
Qed.

Lemma set_step_refines known now o s l q : timers_rep known s l q -> timer_pre known now o q ->
  exists s' l', set_step now o (s, l) = Ok (s', l', snd (spec_timer now o q)) /\ timers_rep known s' l' (fst (spec_timer now o q)).
Proof.
  intros Hr Hpre. destruct o as [h t|h| |]; cbn [set_step spec_timer fst snd].
  - destruct (add_refines known now s l q h t Hr Hpre) as (s' & l' & r & -> & Hr' & ->). cbn. by exists s', l'.
  - destruct Hpre as [_ Hk]. destruct (rm_refines known s l q h Hr Hk) as (s' & l' & -> & Hr'). cbn. by exists s', l'.
  - destruct Hpre as [_ Hb]. exists s, l. split; [|done]. unfold nn_timerset_timeout. destruct q as [|[h d] q].
    + by rewrite (list_empty_spec _ _ _ (tr_rep _ _ _ _ Hr)).
    + destruct (first_due_spec _ _ _ _ _ _ Hr) as (_ & -> & ->). apply Forall_cons in Hb as [Hd _]. cbn in Hd. cbn [mbind result_bind].
      rewrite to_int_small by lia. repeat f_equal. case_bool_decide; lia.
  - unfold nn_timerset_event. destruct q as [|[h d] q].
    + rewrite (list_empty_spec _ _ _ (tr_rep _ _ _ _ Hr)). by exists s, l.
    + destruct (first_due_spec _ _ _ _ _ _ Hr) as (Eb & -> & ->). cbn [mbind result_bind].
      destruct (decide (d <= now)); [rewrite bool_decide_false by lia|rewrite bool_decide_true by lia; exists s, l; by rewrite bool_decide_false].
      rewrite (bool_decide_true (d <= now)) by done. rewrite Eb. destruct (erase_rep known s l [] h d q Hr) as (lk & l' & -> & Hr'). cbn. by eexists _, _.
Qed.

(** C26. Any use of a set of timeouts (adding, removing, asking for the time to the
    next one, taking the expired one) gives the results of the queue ordered
    by due time, in which equal times keep their order; in particular events
    come earliest first and never before they are due. *)
Theorem nn_timerset_refines known s l q ops :
  timers_rep known s l q -> timers_pre known ops q ->
  exists s' l', set_run ops (s, l) = Ok (s', l', snd (spec_timers ops q)) /\ timers_rep known s' l' (fst (spec_timers ops q)) /\
    due_sorted (fst (spec_timers ops q)).
Proof.
  revert s l q. induction ops as [|[now o] ops IH]; intros s l q Hr Hpre; [exists s, l; split; [done|]; split; [done|apply Hr]|].
  destruct Hpre as [Hp Hpre]. destruct (set_step_refines known now o s l q Hr Hp) as (s1 & l1 & E1 & Hr1).
  destruct (IH s1 l1 _ Hr1 Hpre) as (s2 & l2 & E2 & Hr2 & Hs2). exists s2, l2. cbn [set_run spec_timers].
  destruct (spec_timer now o q) as [q1 out]. cbn [fst snd] in *. destruct (spec_timers ops q1) as [q2 outs]. cbn [fst snd] in *.
  rewrite E1. cbn [mbind result_bind]. rewrite E2. done.
Qed.
End TimersetSpec.

(** ** On the heap *)
Definition demo_set : handles store :=
  nn_timerset_hndl_init (nn_timerset_hndl_init (nn_timerset_hndl_init (Handles ∅ ∅) 1%positive) 2%positive) 3%positive.

Lemma nn_timerset_refines_witness :
  snd <$> set_run [(100, AddTimer 1%positive 50); (100, AddTimer 2%positive 20); (110, NextTimeout); (110, AddTimer 3%positive 10);
                   (125, TakeEvent); (125, TakeEvent); (125, TakeEvent); (130, RmTimer 1%positive); (130, NextTimeout)]
          (demo_set, nn_timerset_init)
    = Ok [(1, None); (1, None); (10, None); (0, None); (0, Some 2%positive); (0, Some 3%positive); (- EAGAIN, None); (1, None); (-1, None)].
Proof.
  destruct (nn_timerset_refines [1%positive; 2%positive; 3%positive] demo_set nn_timerset_init []
     [(100, AddTimer 1%positive 50); (100, AddTimer 2%positive 20); (110, NextTimeout); (110, AddTimer 3%positive 10);
      (125, TakeEvent); (125, TakeEvent); (125, TakeEvent); (130, RmTimer 1%positive); (130, NextTimeout)]) as (s' & l' & E & _ & _).
  - constructor; [apply (list_init_spec (St := store))|constructor| |constructor|constructor]. intros a Ha _.
    apply elem_of_cons in Ha as [->|[->|[->|Ha]%elem_of_cons]%elem_of_cons]; [by eexists; reflexivity..|].
    by apply not_elem_of_nil in Ha.
  - apply (bool_decide_unpack _). vm_compute. exact I.
  - rewrite E. vm_compute. reflexivity.
Defined.
