(* ===== verification/Backoff.v ===== *)
(** * Retry intervals ([transports/utils/backoff.c])

    A timer whose interval doubles with every start until it exceeds a
    maximum; the connecting endpoints wait it out between their attempts.
    The products are computed in [int]: the model faults on an overflow. *)

From S2P Require Import Prelude Timer.
Local Open Scope Z_scope.

Definition NN_BACKOFF_TIMEOUT : Z := NN_TIMER_TIMEOUT.
Definition NN_BACKOFF_STOPPED : Z := NN_TIMER_STOPPED.

Record nn_backoff := Backoff { bo_timer : nn_timer; minivl : Z; maxivl : Z; bo_n : Z }.

Definition nn_backoff_init (minivl maxivl : Z) : nn_backoff := Backoff nn_timer_init minivl maxivl 1.
Definition nn_backoff_term (self : nn_backoff) : result unit := nn_timer_term (bo_timer self).
Definition nn_backoff_isidle (self : nn_backoff) : bool := nn_timer_isidle (bo_timer self).

Definition nn_backoff_start (self : nn_backoff) : result nn_backoff :=
  n1 ← int_ (bo_n self - 1);
  timeout ← int_ (n1 * minivl self);
  '(timeout, n) ← (if bool_decide (timeout > maxivl self) then Ok (maxivl self, bo_n self)
                   else n ← int_ (bo_n self * 2); Ok (timeout, n));
  t ← nn_timer_start (bo_timer self) timeout;
  Ok (Backoff t (minivl self) (maxivl self) n).

Definition nn_backoff_stop (self : nn_backoff) : result nn_backoff :=
  t ← nn_timer_stop (bo_timer self); Ok (Backoff t (minivl self) (maxivl self) (bo_n self)).

Definition nn_backoff_reset (self : nn_backoff) : nn_backoff := Backoff (bo_timer self) (minivl self) (maxivl self) 1.

(** ** Attempts of an endpoint *)

Definition with_timer (t : nn_timer) (self : nn_backoff) : nn_backoff := Backoff t (minivl self) (maxivl self) (bo_n self).

(** The waiting state of an endpoint: start the retry timer, let it expire,
    stop it and wait until it is stopped.  The interval waited and what the
    endpoint is told. *)
Definition attempt (self : nn_backoff) : result (nn_backoff * (Z * list (option Z))) :=
  self ← nn_backoff_start self;
  let ivl := tm_timeout (bo_timer self) in
  '(t, e1) ← timer_run (bo_timer self) [OWorker WStart; OWorker WTimeout];
  self ← nn_backoff_stop (with_timer t self);
  '(t, e2) ← timer_run (bo_timer self) [OWorker WStop];
  Ok (with_timer t self, (ivl, e1 ++ e2)).

Fixpoint attempts (k : nat) (self : nn_backoff) : result (nn_backoff * list (Z * list (option Z))) :=
  match k with
  | O => Ok (self, [])
  | S k => '(self, w) ← attempt self; '(self, ws) ← attempts k self; Ok (self, w :: ws)
  end.

(** The interval before attempt [i], and the whole observation. *)
Definition interval (minivl maxivl : Z) (i : nat) : Z := Z.min ((2 ^ Z.of_nat i - 1) * minivl) maxivl.
Definition observed (minivl maxivl : Z) (i : nat) : Z * list (option Z) :=
  (interval minivl maxivl i, [None; Some NN_BACKOFF_TIMEOUT; Some NN_BACKOFF_STOPPED]).

Section Intervals.
  Context (lo hi : Z) (Hlo : 0 < lo) (Hhi : 0 <= hi) (Hfit : 2 * hi + lo < 2 ^ 31 - 1).

(** Before attempt [i]: the timer is idle and [n] is [2 ^ e], where the doubling
    went on up to [i] or stopped when the interval exceeded the maximum. *)
Record waits (i : nat) (b : nn_backoff) : Prop := {
  wt_idle : timer_rep (bo_timer b) PIdle;
  wt_min : minivl b = lo;
  wt_max : maxivl b = hi;
  wt_n : exists e, (e <= i)%nat /\ bo_n b = 2 ^ Z.of_nat e /\ (2 ^ Z.of_nat e - 1) * lo <= 2 * hi + lo /\
           (e = i \/ hi < (2 ^ Z.of_nat e - 1) * lo);
}.

Lemma start_cycle t d : timer_rep t PIdle -> 0 <= d -> exists t1 t2 t3 t4,
  nn_timer_start t d = Ok t1 /\ tm_timeout t1 = d /\
  timer_run t1 [OWorker WStart; OWorker WTimeout] = Ok (t2, [None; Some NN_BACKOFF_TIMEOUT]) /\
  nn_timer_stop t2 = Ok t3 /\ timer_run t3 [OWorker WStop] = Ok (t4, [Some NN_BACKOFF_STOPPED]) /\ timer_rep t4 PIdle.
Proof.
  open_timer t. intros (-> & -> & -> & -> & -> & -> & ->) Hd. rewrite bool_decide_true by lia.
  destruct d as [|d|d]; [| |lia]; eexists _, _, _, _; repeat (split; [reflexivity|]); done.
Qed.

Lemma attempt_ok i b : waits i b -> exists b', attempt b = Ok (b', observed lo hi i) /\ waits (S i) b'.
Proof.
  intros [Hidle Hmin Hmax (e & Hei & Hn & Hb & He)]. unfold attempt, nn_backoff_start. rewrite Hn, Hmin, Hmax.
  assert (Hp : 0 < 2 ^ Z.of_nat e) by lia. assert (Hmono : 2 ^ Z.of_nat e <= 2 ^ Z.of_nat i) by (apply Z.pow_le_mono_r; lia).
  assert (Hle : 2 ^ Z.of_nat e - 1 <= (2 ^ Z.of_nat e - 1) * lo) by nia.
  rewrite (int_ok (2 ^ Z.of_nat e - 1)) by lia. cbn [mbind result_bind]. rewrite (int_ok ((2 ^ Z.of_nat e - 1) * lo)) by lia. cbn [mbind result_bind].
  assert (E : exists n e', (if bool_decide ((2 ^ Z.of_nat e - 1) * lo > hi) then Ok (hi, 2 ^ Z.of_nat e)
                   else n ← int_ (2 ^ Z.of_nat e * 2); Ok ((2 ^ Z.of_nat e - 1) * lo, n)) = Ok (interval lo hi i, n) /\
              (e' <= S i)%nat /\ n = 2 ^ Z.of_nat e' /\ (2 ^ Z.of_nat e' - 1) * lo <= 2 * hi + lo /\ (e' = S i \/ hi < (2 ^ Z.of_nat e' - 1) * lo)).
  { unfold interval. case_bool_decide as Hc.
    - exists (2 ^ Z.of_nat e), e. rewrite Z.min_r by nia. repeat (split; [done || lia|]). right. lia.
    - assert (e = i) by (destruct He; [done|lia]). subst e. rewrite int_ok by lia. cbn [mbind result_bind].
      exists (2 ^ Z.of_nat (S i)), (S i). rewrite Z.min_l by lia. rewrite Nat2Z.inj_succ, Z.pow_succ_r by lia.
      split; [do 2 f_equal; lia|]. repeat (split; [done || nia|]). by left. }
  destruct E as (n & e' & -> & Hrest). cbn [mbind result_bind].
  destruct (start_cycle (bo_timer b) (interval lo hi i)) as (t1 & t2 & t3 & t4 & -> & Ht & E2 & E3 & E4 & Hidle'); [done|unfold interval; nia|].
  cbn [mbind result_bind bo_timer]. rewrite E2. cbn [mbind result_bind]. unfold nn_backoff_stop, with_timer. cbn [bo_timer].
  rewrite E3. cbn [mbind result_bind bo_timer]. rewrite E4. cbn [mbind result_bind]. rewrite Ht. eexists. split; [done|].
  constructor; [done..|]. exists e'. exact Hrest.
Qed.

Lemma attempts_ok k : forall i b, waits i b -> exists b', attempts k b = Ok (b', observed lo hi <$> seq i k) /\ waits (i + k) b'.
Proof.
  induction k as [|k IH]; intros i b Hb; [exists b; by rewrite Nat.add_0_r|].
  destruct (attempt_ok i b Hb) as (b1 & E & Hb1). destruct (IH (S i) b1 Hb1) as (b2 & E2 & Hb2). exists b2.
  cbn [attempts seq fmap list_fmap]. rewrite E. cbn [mbind result_bind]. rewrite E2. split; [done|]. by rewrite Nat.add_succ_r.
Qed.

Lemma waits_start b : timer_rep (bo_timer b) PIdle -> minivl b = lo -> maxivl b = hi -> bo_n b = 1 -> waits 0 b.
Proof. intros. constructor; [done..|]. exists 0%nat. cbn. repeat (split; [done || lia|]). by left. Qed.
End Intervals.

(** With a positive first interval and a maximum below about 2^30 ms the
    retries never overflow: before attempt [i] the endpoint waits
    min((2^i - 1) * minivl, maxivl), is told TIMEOUT and then STOPPED, for any
    number of attempts, and a reset makes the intervals start again. *)
Theorem nn_backoff_waits (lo hi : Z) (k : nat) :
  0 < lo -> 0 <= hi -> 2 * hi + lo < 2 ^ 31 - 1 ->
  exists b, attempts k (nn_backoff_init lo hi) = Ok (b, observed lo hi <$> seq 0 k) /\ nn_backoff_term b = Ok tt /\
    forall j, exists b', attempts j (nn_backoff_reset b) = Ok (b', observed lo hi <$> seq 0 j).
Proof.
  intros Hlo Hhi Hfit. destruct (attempts_ok lo hi Hlo Hhi Hfit k 0 (nn_backoff_init lo hi)) as (b & E & Hb).
  { by apply waits_start. }
  exists b. split; [done|]. split; [apply nn_timer_term_rep, Hb|]. intros j.
  destruct (attempts_ok lo hi Hlo Hhi Hfit j 0 (nn_backoff_reset b)) as (b' & E' & _); [|by exists b'].
  apply waits_start; first [done|apply Hb].
Qed.

Lemma nn_backoff_waits_witness :
  exists b, attempts 6 (nn_backoff_init 100 1000) = Ok (b, (fun w => (w, [None; Some NN_BACKOFF_TIMEOUT; Some NN_BACKOFF_STOPPED])) <$> [0; 100; 300; 700; 1000; 1000]).
Proof. destruct (nn_backoff_waits 100 1000 6 ltac:(lia) ltac:(lia) ltac:(lia)) as (b & E & _). exists b. exact E. Defined.

(** ** Outside of these bounds

    With a first interval of 0 (an accepted value of NN_RECONNECT_IVL) the
    interval never exceeds the maximum and [n] overflows at the 31st attempt. *)
Example backoff_zero_interval : attempts 31 (nn_backoff_init 0 0) = Err IntOverflow.
Proof. vm_compute. reflexivity. Qed.

(** With 2^30 ms and no smaller maximum the third product overflows. *)
Example backoff_long_interval : attempts 3 (nn_backoff_init (2 ^ 30) (2 ^ 31 - 1)) = Err IntOverflow.
Proof. vm_compute. reflexivity. Qed.
