(* ===== verification/Priolist.v ===== *)
(** * Prioritised lists of pipes ([protocols/utils/priolist.c])

    Sixteen slots, one per priority, each a list of active pipes with a
    pointer to the pipe to be used next; the list as a whole points at the
    highest-priority non-empty slot.  Fair queueing (receiving) and load
    balancing (sending) are both built on it.

    The abstract view of a slot is a zipper [(pre, suf)]: the slot's list is
    [pre ++ suf] and its current pipe the head of [suf]. *)

From S2P Require Import Prelude NNList NNFamily.
Local Open Scope Z_scope.

Definition NN_PRIOLIST_SLOTS : Z := 16.

Section Priolist.
  Context {St L : Type} `{ListOps St L}.

(** The [item] field of an [nn_priolist_data] lives in the store of links. *)
Record nn_priolist_data := PData { pd_pipe : addr; pd_priority : Z }.
Record nn_priolist_slot := Slot { sl_pipes : L; sl_current : ptr }.
Record nn_priolist := Priolist { pl_slots : list nn_priolist_slot; pl_current : Z }.
Record pitems := PItems { pi_links : St; pi_data : gmap addr nn_priolist_data }.

Definition slot_at (slots : list nn_priolist_slot) (i : Z) : result nn_priolist_slot :=
  if bool_decide (0 <= i) then deref (slots !! Z.to_nat i) else Err BadAccess.
Definition set_slot (slots : list nn_priolist_slot) (i : Z) (s : nn_priolist_slot) :=
  <[Z.to_nat i := s]> slots.

Definition nn_priolist_init : nn_priolist :=
  Priolist (replicate (Z.to_nat NN_PRIOLIST_SLOTS) (Slot list_init NULL)) (-1).

Fixpoint term_prio_slots (slots : list nn_priolist_slot) : result unit :=
  match slots with
  | [] => Ok tt
  | s :: ss => _ ← list_term (sl_pipes s); term_prio_slots ss
  end.
Definition nn_priolist_term (self : nn_priolist) : result unit := term_prio_slots (pl_slots self).

Definition nn_priolist_add (s : pitems) (data pipe : addr) (priority : Z) : pitems :=
  PItems (list_item_init (pi_links s) data) (<[data := PData pipe priority]> (pi_data s)).

(** The loop that moves [current] on to the next non-empty slot, shared by
    removal and advancing; one step per slot. *)
Fixpoint next_nonempty (fuel : nat) (slots : list nn_priolist_slot) (current : Z) : result Z :=
  match fuel with
  | O => Err NoFuel
  | S fuel =>
      slot ← slot_at slots (current - 1);
      if list_empty (sl_pipes slot) then
        let current := current + 1 in
        if bool_decide (current > NN_PRIOLIST_SLOTS) then Ok (-1)
        else next_nonempty fuel slots current
      else Ok current
  end.

Definition loop_fuel : nat := S (Z.to_nat NN_PRIOLIST_SLOTS).

Definition nn_priolist_rm (s : pitems) (self : nn_priolist) (data : addr)
    : result (pitems * nn_priolist) :=
  b ← list_item_isinlist (pi_links s) (At data);
  if negb b then
    _ ← list_item_term (pi_links s) (At data);
    Ok (s, self)
  else
    d ← deref (pi_data s !! data);
    slot ← slot_at (pl_slots self) (pd_priority d - 1);
    if negb (bool_decide (sl_current slot = At data)) then
      '(lk, l, _) ← list_erase (pi_links s) (sl_pipes slot) (At data);
      _ ← list_item_term lk (At data);
      Ok (PItems lk (pi_data s),
          Priolist (set_slot (pl_slots self) (pd_priority d - 1) (Slot l (sl_current slot)))
                   (pl_current self))
    else
      '(lk, l, it) ← list_erase (pi_links s) (sl_pipes slot) (At data);
      _ ← list_item_term lk (At data);
      let cur := if is_null it then list_begin l else it in
      let slots := set_slot (pl_slots self) (pd_priority d - 1) (Slot l cur) in
      if negb (bool_decide (pl_current self = pd_priority d)) then
        Ok (PItems lk (pi_data s), Priolist slots (pl_current self))
      else
        current ← next_nonempty loop_fuel slots (pl_current self);
        Ok (PItems lk (pi_data s), Priolist slots current).

Definition nn_priolist_activate (s : pitems) (self : nn_priolist) (data : addr)
    : result (pitems * nn_priolist) :=
  d ← deref (pi_data s !! data);
  slot ← slot_at (pl_slots self) (pd_priority d - 1);
  if negb (list_empty (sl_pipes slot)) then
    '(lk, l) ← list_insert (pi_links s) (sl_pipes slot) (At data) NULL;
    Ok (PItems lk (pi_data s),
        Priolist (set_slot (pl_slots self) (pd_priority d - 1) (Slot l (sl_current slot)))
                 (pl_current self))
  else
    '(lk, l) ← list_insert (pi_links s) (sl_pipes slot) (At data) NULL;
    let slots := set_slot (pl_slots self) (pd_priority d - 1) (Slot l (At data)) in
    let current :=
      if bool_decide (pl_current self = -1) then pd_priority d
      else if bool_decide (pl_current self > pd_priority d) then pd_priority d
      else pl_current self in
    Ok (PItems lk (pi_data s), Priolist slots current).

Definition nn_priolist_is_active (self : nn_priolist) : bool :=
  negb (bool_decide (pl_current self = -1)).

Definition nn_priolist_getpipe (s : pitems) (self : nn_priolist) : result (option addr) :=
  if bool_decide (pl_current self = -1) then Ok None
  else
    slot ← slot_at (pl_slots self) (pl_current self - 1);
    match sl_current slot with
    | At x => d ← deref (pi_data s !! x); Ok (Some (pd_pipe d))
    | _ => Err BadAccess
    end.

Definition nn_priolist_advance (s : pitems) (self : nn_priolist) (release : bool)
    : result (pitems * nn_priolist) :=
  _ ← assert_ (bool_decide (pl_current self > 0));
  slot ← slot_at (pl_slots self) (pl_current self - 1);
  '(lk, l, it) ← (if release then list_erase (pi_links s) (sl_pipes slot) (sl_current slot)
                  else it ← list_next (pi_links s) (sl_current slot);
                       Ok (pi_links s, sl_pipes slot, it));
  let cur := if is_null it then list_begin l else it in
  let slots := set_slot (pl_slots self) (pl_current self - 1) (Slot l cur) in
  current ← next_nonempty loop_fuel slots (pl_current self);
  Ok (PItems lk (pi_data s), Priolist slots current).

Definition nn_priolist_get_priority (self : nn_priolist) : Z := pl_current self.

End Priolist.
Arguments nn_priolist : clear implicits.
Arguments nn_priolist_slot : clear implicits.
Arguments pitems : clear implicits.

(** ** The abstract priority list *)

Definition zslot : Type := list addr * list addr.

Definition zlist (z : zslot) : list addr := z.1 ++ z.2.

(** A zipper whose cursor has run off the end starts again. *)
Definition norm (z : zslot) : zslot := match z.2 with [] => ([], z.1) | _ => z end.

Definition z_activate (z : zslot) (x : addr) : zslot := (z.1, z.2 ++ [x]).
Definition z_advance (z : zslot) (release : bool) : zslot :=
  match z.2 with
  | [] => z
  | c :: suf => norm (if release then z.1 else z.1 ++ [c], suf)
  end.
Definition z_remove (z : zslot) (x : addr) : zslot :=
  if decide (head z.2 = Some x) then norm (z.1, tail z.2)
  else (filter (fun y => y <> x) z.1, filter (fun y => y <> x) z.2).

(** The priority of the highest-priority non-empty slot, [-1] if there is none. *)
Definition top (abs : list zslot) : Z :=
  match list_find (fun z => zlist z <> []) abs with
  | Some (i, _) => Z.of_nat i + 1
  | None => -1
  end.

(** The next pipe's data. *)
Definition next_up (abs : list zslot) : option addr :=
  match list_find (fun z => zlist z <> []) abs with
  | Some (_, z) => head z.2
  | None => None
  end.

Section PriolistSpec.
  Context {St L : Type} `{ListSpec St L}.
  Implicit Types (s : pitems St) (p : nn_priolist L) (abs : list zslot) (z : zslot).

Definition cursor_ok (sl : nn_priolist_slot L) z : Prop :=
  sl_current sl = hd_or NULL z.2 /\ (z.2 = [] -> z.1 = []).

(** Every active pipe is in the slot of its priority. *)
Definition in_own_slot (data : gmap addr nn_priolist_data) abs : Prop :=
  forall i z x, abs !! i = Some z -> x ∈ zlist z ->
    exists d, data !! x = Some d /\ pd_priority d = Z.of_nat i + 1.

Record prio_rep s p abs : Prop := {
  pr_len : length abs = 16%nat;
  pr_fam : fam (pi_links s) (sl_pipes <$> pl_slots p) (zlist <$> abs);
  pr_cur : Forall2 cursor_ok (pl_slots p) abs;
  pr_top : pl_current p = top abs;
  pr_own : in_own_slot (pi_data s) abs
}.

(** The active pipes. *)
Definition active abs : list addr := concat (zlist <$> abs).

Lemma top_Some abs i z :
  list_find (fun z => zlist z <> []) abs = Some (i, z) -> top abs = Z.of_nat i + 1.
Proof. unfold top. by intros ->. Qed.

Lemma top_range abs : length abs = 16%nat -> top abs = -1 \/ 1 <= top abs <= 16.
Proof.
  intros Hl. unfold top. destruct (list_find _ abs) as [[i z]|] eqn:E; [right|by left].
  apply list_find_Some in E as (Hi & _). apply lookup_lt_Some in Hi. lia.
Qed.

Lemma zlist_norm z : zlist (norm z) = zlist z.
Proof. destruct z as [pre [|c suf]]; unfold zlist; cbn; [by rewrite app_nil_r|done]. Qed.

Lemma norm_ok z : (norm z).2 = [] -> (norm z).1 = [].
Proof. by destruct z as [pre [|c suf]]; cbn. Qed.

(** ** Looking up the current slot *)

Lemma slot_at_ok s p abs i z :
  prio_rep s p abs -> abs !! i = Some z ->
  exists sl, slot_at (pl_slots p) (Z.of_nat i) = Ok sl /\ pl_slots p !! i = Some sl
    /\ rep (pi_links s) (sl_pipes sl) (zlist z) /\ cursor_ok sl z.
Proof.
  intros Hr Hi. destruct (Forall2_lookup_r _ _ _ _ _ (pr_cur _ _ _ Hr) Hi) as (sl & Hs & Hc).
  exists sl. unfold slot_at. decide_bools. rewrite Nat2Z.id, Hs. repeat split; [|apply Hc..].
  eapply fam_lookup; [apply Hr|by rewrite list_lookup_fmap, Hs|by rewrite list_lookup_fmap, Hi].
Qed.

(** [top] by its characteristic property. *)
Definition first_nonempty abs (i : nat) z : Prop :=
  abs !! i = Some z /\ zlist z <> [] /\ forall j y, abs !! j = Some y -> (j < i)%nat -> zlist y = [].

Lemma find_first abs :
  match list_find (fun z => zlist z <> []) abs with
  | Some (i, z) => first_nonempty abs i z
  | None => forall i z, abs !! i = Some z -> zlist z = []
  end.
Proof.
  destruct (list_find _ abs) as [[i z]|] eqn:E.
  - apply list_find_Some in E as (Hi & Hz & Hj). split; [done|]. split; [done|].
    intros j y Hy Hlt. destruct (decide (zlist y = [])); [done|]. by destruct (Hj j y).
  - apply list_find_None in E. intros i z Hi. rewrite Forall_lookup in E.
    destruct (decide (zlist z = [])); [done|]. by destruct (E i z).
Qed.

Lemma first_unique abs i z j y : first_nonempty abs i z -> first_nonempty abs j y -> i = j /\ z = y.
Proof.
  intros (Hi & Hz & Hlo) (Hj & Hy & Hlo'). destruct (Nat.lt_trichotomy i j) as [?|[->|?]].
  - by destruct Hz; eapply Hlo'.
  - by simplify_eq.
  - by destruct Hy; eapply Hlo.
Qed.

Lemma top_first abs i z : first_nonempty abs i z -> top abs = Z.of_nat i + 1 /\ next_up abs = head z.2.
Proof.
  intros Hf. unfold top, next_up. pose proof (find_first abs) as H'. destruct (list_find _ abs) as [[j y]|].
  - by destruct (first_unique _ _ _ _ _ H' Hf) as [-> ->].
  - destruct Hf as (Hi & Hz & _). by destruct Hz; eapply H'.
Qed.

Lemma top_empty abs : (forall i z, abs !! i = Some z -> zlist z = []) -> top abs = -1 /\ next_up abs = None.
Proof.
  intros He. unfold top, next_up. pose proof (find_first abs) as H'. destruct (list_find _ abs) as [[j y]|]; [|done].
  destruct H' as (Hi & Hz & _). by destruct Hz; eapply He.
Qed.

Lemma top_cases abs :
  (top abs = -1 /\ next_up abs = None /\ forall i z, abs !! i = Some z -> zlist z = []) \/
  exists i z, first_nonempty abs i z /\ top abs = Z.of_nat i + 1 /\ next_up abs = head z.2.
Proof.
  pose proof (find_first abs) as H'. destruct (list_find _ abs) as [[i z]|].
  - right. exists i, z. split; [done|]. by apply top_first.
  - left. destruct (top_empty abs H'). done.
Qed.

(** [top] only depends on which slots are empty. *)
Lemma top_ext abs i z z' :
  abs !! i = Some z -> (zlist z = [] <-> zlist z' = []) -> top (<[i := z']> abs) = top abs.
Proof.
  intros Hi He. pose proof (lookup_lt_Some _ _ _ Hi) as Hlt.
  assert (Hl : forall j y, <[i := z']> abs !! j = Some y ->
            exists y0, abs !! j = Some y0 /\ (zlist y0 = [] <-> zlist y = [])).
  { intros j y Hj. destruct (decide (i = j)) as [<-|Hij].
    - rewrite list_lookup_insert_eq in Hj by done. simplify_eq. by exists z.
    - rewrite list_lookup_insert_ne in Hj by done. by exists y. }
  destruct (top_cases abs) as [(-> & _ & Hall)|(k & y & (Hk & Hy & Hlo) & -> & _)].
  - apply top_empty. intros j w Hj. destruct (Hl j w Hj) as (y0 & Hy0 & E0). apply E0. by eapply Hall.
  - assert (Hk' : exists y', <[i := z']> abs !! k = Some y' /\ zlist y' <> []).
    { destruct (decide (i = k)) as [<-|Hik].
      - exists z'. rewrite list_lookup_insert_eq by done. split; [done|]. simplify_eq. tauto.
      - exists y. by rewrite list_lookup_insert_ne. }
    destruct Hk' as (y' & Hk' & Hy'). apply (top_first _ k y'). split; [done|]. split; [done|].
    intros j w Hj Hjk. destruct (Hl j w Hj) as (y0 & Hy0 & E0). apply E0. by eapply Hlo.
Qed.

Lemma active_elem abs x : x ∈ active abs <-> exists i z, abs !! i = Some z /\ x ∈ zlist z.
Proof.
  unfold active. split.
  - intros (i & xs & Hi & Hx)%elem_concat_inv. rewrite list_lookup_fmap in Hi.
    destruct (abs !! i) as [z|] eqn:E; [|done]. cbn in Hi. simplify_eq. eauto.
  - intros (i & z & Hi & Hx). eapply elem_concat; [|exact Hx]. by rewrite list_lookup_fmap, Hi.
Qed.

Lemma active_nil abs : active abs = [] <-> top abs = -1.
Proof.
  destruct (top_cases abs) as [(-> & _ & Hall)|(k & y & (Hk & Hy & Hlo) & -> & _)].
  - split; [done|]. intros _. destruct (active abs) as [|x xs] eqn:E; [done|].
    assert (Hx : x ∈ active abs) by (rewrite E; set_solver).
    apply active_elem in Hx as (i & z & Hi & Hx). rewrite (Hall i z Hi) in Hx. set_solver.
  - split; [|lia]. intros E. destruct (zlist y) as [|x xs] eqn:Ez; [done|].
    assert (Hx : x ∈ active abs) by (apply active_elem; exists k, y; rewrite Ez; set_solver).
    rewrite E in Hx. set_solver.
Qed.

(** ** The operations on the abstract view *)

Lemma nn_priolist_getpipe_ok s p abs :
  prio_rep s p abs ->
  match next_up abs with
  | None => nn_priolist_getpipe s p = Ok None /\ active abs = []
  | Some x => exists d, nn_priolist_getpipe s p = Ok (Some (pd_pipe d)) /\ pi_data s !! x = Some d
      /\ x ∈ active abs /\ pd_priority d = top abs
      /\ (forall y e, y ∈ active abs -> pi_data s !! y = Some e -> pd_priority d <= pd_priority e)
  end.
Proof.
  intros Hr. unfold nn_priolist_getpipe. rewrite (pr_top _ _ _ Hr).
  destruct (top_cases abs) as [(Ht & -> & Hall)|(i & z & (Hi & Hz & Hlo) & Ht & Hn)].
  - rewrite Ht. decide_bools. split; [done|]. by apply active_nil.
  - rewrite Hn, Ht. decide_bools. destruct (slot_at_ok s p abs i z Hr Hi) as (sl & Hs & _ & _ & Hc & He).
    replace (Z.of_nat i + 1 - 1) with (Z.of_nat i) by lia. rewrite Hs. mred. rewrite Hc.
    destruct z as [pre [|x suf]]; cbn in *; [by destruct Hz; rewrite He|].
    destruct (pr_own _ _ _ Hr i (pre, x :: suf) x Hi) as (d & Hd & Hp); [unfold zlist; cbn; set_solver|].
    rewrite Hd. mred. exists d. split; [done|]. split; [done|]. split; [|split; [done|]].
    + apply active_elem. exists i, (pre, x :: suf). split; [done|]. unfold zlist; cbn; set_solver.
    + intros y e (j & w & Hj & Hy)%active_elem He'.
      destruct (pr_own _ _ _ Hr j w y Hj Hy) as (e' & He'' & Hpe). simplify_eq.
      destruct (decide (j < i)%nat) as [Hlt|]; [|lia]. rewrite (Hlo j w Hj Hlt) in Hy. set_solver.
Qed.

Lemma nn_priolist_is_active_ok s p abs :
  prio_rep s p abs -> nn_priolist_is_active p = bool_decide (active abs <> []).
Proof.
  intros Hr. unfold nn_priolist_is_active. rewrite (pr_top _ _ _ Hr).
  apply eq_true_iff_eq. rewrite negb_true_iff, bool_decide_eq_true, bool_decide_eq_false.
  by rewrite active_nil.
Qed.

(** The loop, from a slot before which all are empty. *)
Lemma next_nonempty_ok (slots : list (nn_priolist_slot L)) abs fuel (i : nat) :
  length abs = 16%nat -> (i < 16)%nat -> (16 - i < fuel)%nat ->
  (forall j z, abs !! j = Some z -> exists sl, slot_at slots (Z.of_nat j) = Ok sl
     /\ list_empty (sl_pipes sl) = bool_decide (zlist z = [])) ->
  (forall j z, abs !! j = Some z -> (j < i)%nat -> zlist z = []) ->
  next_nonempty fuel slots (Z.of_nat i + 1) = Ok (top abs).
Proof.
  intros Hlen. revert i. induction fuel as [|fuel IH]; intros i Hi Hf Hs Hlo; [lia|].
  cbn [next_nonempty]. replace (Z.of_nat i + 1 - 1) with (Z.of_nat i) by lia.
  destruct (lookup_lt_is_Some_2 abs i) as [z Hz]; [lia|].
  destruct (Hs i z Hz) as (sl & Hsl & He). rewrite Hsl. mred. rewrite He.
  assert (Hlo' : forall j y, zlist z = [] -> abs !! j = Some y -> (j < S i)%nat -> zlist y = []).
  { intros j y Hzz Hj Hlt. destruct (decide (j = i)) as [->|]; [by simplify_eq|]. apply (Hlo j); [done|lia]. }
  case_bool_decide as Hze.
  - case_bool_decide as Hend; unfold NN_PRIOLIST_SLOTS in Hend.
    + f_equal. symmetry. apply top_empty. intros j y Hj. apply (Hlo' j); [done|done|].
      apply lookup_lt_Some in Hj. lia.
    + replace (Z.of_nat i + 1 + 1) with (Z.of_nat (S i) + 1) by lia. apply IH; [lia|lia|done|].
      intros j y Hj Hlt. by apply (Hlo' j).
  - f_equal. symmetry. by apply (top_first abs i z).
Qed.

(** ** Updating one slot *)

Lemma slots_empty lk (slots : list (nn_priolist_slot L)) abs :
  fam lk (sl_pipes <$> slots) (zlist <$> abs) ->
  forall j z, abs !! j = Some z -> exists sl, slot_at slots (Z.of_nat j) = Ok sl
     /\ list_empty (sl_pipes sl) = bool_decide (zlist z = []).
Proof.
  intros Hf j z Hj. pose proof (fam_length _ _ _ Hf) as Hl. rewrite !length_fmap in Hl.
  destruct (lookup_lt_is_Some_2 slots j) as [sl Hs].
  { rewrite Hl. by eapply lookup_lt_Some. }
  exists sl. unfold slot_at. decide_bools. rewrite Nat2Z.id, Hs. split; [done|].
  eapply list_empty_spec, fam_lookup; [exact Hf|by rewrite list_lookup_fmap, Hs|].
  by rewrite list_lookup_fmap, Hj.
Qed.

Lemma rep_set_slot s p abs i z lk l cur z' current :
  prio_rep s p abs -> abs !! i = Some z ->
  fam lk (<[i := l]> (sl_pipes <$> pl_slots p)) (<[i := zlist z']> (zlist <$> abs)) ->
  cur = hd_or NULL z'.2 -> (z'.2 = [] -> z'.1 = []) ->
  (forall x, x ∈ zlist z' -> exists d, pi_data s !! x = Some d /\ pd_priority d = Z.of_nat i + 1) ->
  current = top (<[i := z']> abs) ->
  prio_rep (PItems lk (pi_data s))
    (Priolist (set_slot (pl_slots p) (Z.of_nat i) (Slot l cur)) current) (<[i := z']> abs).
Proof.
  intros Hr Hi Hf Hc He Hd Ht. unfold set_slot. rewrite Nat2Z.id. constructor; cbn.
  - rewrite length_insert. apply Hr.
  - rewrite !list_fmap_insert. done.
  - apply Forall2_insert; [apply Hr|done].
  - done.
  - intros j w x Hj Hx. destruct (decide (i = j)) as [<-|Hij].
    + rewrite list_lookup_insert_eq in Hj by (by eapply lookup_lt_Some). simplify_eq. by apply Hd.
    + rewrite list_lookup_insert_ne in Hj by done. by eapply (pr_own _ _ _ Hr).
Qed.

(** A slot at or before which everything is empty, once updated, determines [top]. *)
Lemma next_nonempty_set lk p abs i l cur z' :
  length abs = 16%nat -> (i < 16)%nat ->
  fam lk (<[i := l]> (sl_pipes <$> pl_slots p)) (<[i := zlist z']> (zlist <$> abs)) ->
  (forall j z, abs !! j = Some z -> (j < i)%nat -> zlist z = []) ->
  next_nonempty loop_fuel (set_slot (pl_slots p) (Z.of_nat i) (Slot l cur)) (Z.of_nat i + 1)
    = Ok (top (<[i := z']> abs)).
Proof.
  intros Hlen Hi Hf Hlo. apply next_nonempty_ok.
  - by rewrite length_insert.
  - done.
  - unfold loop_fuel, NN_PRIOLIST_SLOTS. lia.
  - apply (slots_empty lk). unfold set_slot. rewrite Nat2Z.id, !list_fmap_insert. done.
  - intros j z Hj Hlt. rewrite list_lookup_insert_ne in Hj by lia. by eapply Hlo.
Qed.

Lemma own_priority s p abs i z x d :
  prio_rep s p abs -> abs !! i = Some z -> x ∈ zlist z -> pi_data s !! x = Some d ->
  pd_priority d = Z.of_nat i + 1.
Proof. intros Hr Hi Hx Hd. destruct (pr_own _ _ _ Hr i z x Hi Hx) as (e & ? & ?). by simplify_eq. Qed.

Lemma nn_priolist_activate_ok s p abs x d :
  prio_rep s p abs -> free (pi_links s) x -> pi_data s !! x = Some d -> 1 <= pd_priority d <= 16 ->
  exists s' p', nn_priolist_activate s p x = Ok (s', p')
    /\ prio_rep s' p' (alter (fun z => z_activate z x) (Z.to_nat (pd_priority d - 1)) abs)
    /\ pi_data s' = pi_data s
    /\ (forall y, y <> x -> free (pi_links s) y -> free (pi_links s') y).
Proof.
  intros Hr Hfx Hd Hp. pose proof (pr_len _ _ _ Hr) as Hlen.
  set (i := Z.to_nat (pd_priority d - 1)).
  assert (Hpi : pd_priority d - 1 = Z.of_nat i) by lia.
  destruct (lookup_lt_is_Some_2 abs i) as [z Hz]; [lia|].
  destruct (slot_at_ok s p abs i z Hr Hz) as (sl & Hsl & Hsi & Hrep & Hc & He).
  assert (Halt : alter (fun z => z_activate z x) i abs = <[i := z_activate z x]> abs).
  { apply list_eq. intros j. destruct (decide (i = j)) as [<-|Hij].
    - rewrite list_lookup_alter_eq, Hz, list_lookup_insert_eq; [done|by eapply lookup_lt_Some].
    - by rewrite list_lookup_alter_ne, list_lookup_insert_ne. }
  rewrite Halt.
  destruct (fam_append (pi_links s) _ _ i (sl_pipes sl) (zlist z) x (pr_fam _ _ _ Hr))
    as (lk & l & E & Hf & Hfr);
    [by rewrite list_lookup_fmap, Hsi|by rewrite list_lookup_fmap, Hz|done|].
  assert (Hzl : zlist (z_activate z x) = zlist z ++ [x]).
  { unfold zlist, z_activate. cbn. by rewrite app_assoc. }
  rewrite <- Hzl in Hf.
  assert (Hown : forall y, y ∈ zlist (z_activate z x) ->
            exists e, pi_data s !! y = Some e /\ pd_priority e = Z.of_nat i + 1).
  { rewrite Hzl. intros y [Hy| ->%list_elem_of_singleton]%elem_of_app.
    - by eapply (pr_own _ _ _ Hr).
    - exists d. split; [done|lia]. }
  unfold nn_priolist_activate. rewrite Hd. mred. rewrite Hpi, Hsl. mred.
  rewrite (list_empty_spec _ _ _ Hrep). case_bool_decide as Hze; cbn [negb]; rewrite E; mred.
  - (* the slot was empty *)
    assert (Hz2 : z.2 = []) by (unfold zlist in Hze; by apply app_eq_nil in Hze as [_ ?]).
    eexists _, _; split; [done|]. split; [|done].
    apply (rep_set_slot s p abs i z); [done..| | |done|].
    + cbn. by rewrite Hz2.
    + cbn. by rewrite Hz2.
    + rewrite (pr_top _ _ _ Hr).
      assert (Hfn : (forall j y, abs !! j = Some y -> (j < i)%nat -> zlist y = []) ->
                    top (<[i := z_activate z x]> abs) = pd_priority d).
      { intros Hlo. assert (Hfi : first_nonempty (<[i := z_activate z x]> abs) i (z_activate z x)).
        { split; [by rewrite list_lookup_insert_eq by lia|]. split; [rewrite Hzl; by destruct (zlist z)|].
          intros j y Hj Hlt. rewrite list_lookup_insert_ne in Hj by lia. by eapply Hlo. }
        rewrite (proj1 (top_first _ _ _ Hfi)). lia. }
      destruct (top_cases abs) as [(-> & _ & Hall)|(k & y & (Hk & Hy & Hlo) & -> & _)].
      * decide_bools. rewrite Hfn; [done|]. intros. by eapply Hall.
      * decide_bools. assert (k <> i) by congruence. case_bool_decide as Hgt.
        -- rewrite Hfn; [done|]. intros j w Hj Hlt. apply (Hlo j); [done|lia].
        -- symmetry. apply (top_first _ k y). split; [by rewrite list_lookup_insert_ne|].
           split; [done|]. intros j w Hj Hlt. rewrite list_lookup_insert_ne in Hj by lia. by eapply Hlo.
  - assert (Hz2 : z.2 <> []) by (intros E2; unfold zlist in Hze; by rewrite (He E2), E2 in Hze).
    eexists _, _; split; [done|]. split; [|done].
    apply (rep_set_slot s p abs i z); [done..| | |done|].
    + cbn. rewrite Hc. by destruct z.2.
    + cbn. by destruct z.2.
    + rewrite (pr_top _ _ _ Hr). symmetry. apply (top_ext abs i z); [done|].
      rewrite Hzl. split; [done|]. by intros [? ?]%app_eq_nil.
Qed.

(** The cursor after moving past the end of the list. *)
Lemma norm_cursor lk (l : L) pre suf :
  rep lk l (pre ++ suf) ->
  (if is_null (hd_or NULL suf) then list_begin l else hd_or NULL suf) = hd_or NULL (norm (pre, suf)).2.
Proof.
  intros Hr. destruct suf as [|y suf]; cbn; [|done].
  rewrite (list_begin_spec _ _ _ Hr). by rewrite app_nil_r.
Qed.

Lemma fam_slot s p abs i z sl :
  prio_rep s p abs -> abs !! i = Some z -> pl_slots p !! i = Some sl ->
  (sl_pipes <$> pl_slots p) !! i = Some (sl_pipes sl) /\ (zlist <$> abs) !! i = Some (zlist z).
Proof. intros _ Hz Hs. by rewrite !list_lookup_fmap, Hz, Hs. Qed.

Lemma nn_priolist_advance_ok s p abs i pre c suf release :
  prio_rep s p abs -> first_nonempty abs i (pre, c :: suf) ->
  exists s' p', nn_priolist_advance s p release = Ok (s', p')
    /\ prio_rep s' p' (<[i := z_advance (pre, c :: suf) release]> abs)
    /\ pi_data s' = pi_data s
    /\ (if release then free (pi_links s') c else True)
    /\ (forall y, free (pi_links s) y -> free (pi_links s') y).
Proof.
  intros Hr Hf. pose proof Hf as (Hi & _ & Hlo). pose proof (pr_len _ _ _ Hr) as Hlen.
  assert (Hi16 : (i < 16)%nat) by (rewrite <- Hlen; by eapply lookup_lt_Some).
  destruct (slot_at_ok s p abs i _ Hr Hi) as (sl & Hsl & Hsi & Hrep & Hc & He).
  destruct (fam_slot s p abs i _ sl Hr Hi Hsi) as [Hl1 Hl2].
  unfold nn_priolist_advance. rewrite (pr_top _ _ _ Hr), (proj1 (top_first _ _ _ Hf)). decide_bools.
  replace (Z.of_nat i + 1 - 1) with (Z.of_nat i) by lia. mred. rewrite Hsl. mred.
  cbn in Hc. rewrite Hc. unfold zlist in *; cbn [fst snd] in *.
  assert (Hown : forall y, y ∈ pre ++ c :: suf -> exists d, pi_data s !! y = Some d /\ pd_priority d = Z.of_nat i + 1).
  { intros y Hy. by eapply (pr_own _ _ _ Hr). }
  assert (Hstep : exists lk l ys, (if release
       then list_erase (pi_links s) (sl_pipes sl) (At c)
       else it ← list_next (pi_links s) (At c); Ok (pi_links s, sl_pipes sl, it)) = Ok (lk, l, hd_or NULL suf)
     /\ z_advance (pre, c :: suf) release = norm (ys, suf)
     /\ fam lk (<[i := l]> (sl_pipes <$> pl_slots p)) (<[i := ys ++ suf]> (zlist <$> abs))
     /\ (forall y, y ∈ ys ++ suf -> y ∈ pre ++ c :: suf)
     /\ (if release then free lk c else True)
     /\ (forall y, free (pi_links s) y -> free lk y)).
  { destruct release.
    - destruct (fam_erase _ _ _ _ _ _ _ _ (pr_fam _ _ _ Hr) Hl1 Hl2) as (lk & l & E & Hfm & Hfc & Hfr).
      exists lk, l, pre. repeat split; [done|apply Hfm..|set_solver|done|done].
    - rewrite (list_next_spec _ _ _ _ _ Hrep). exists (pi_links s), (sl_pipes sl), (pre ++ [c]).
      assert (E : (pre ++ [c]) ++ suf = pre ++ c :: suf) by (by rewrite <- app_assoc). rewrite E.
      rewrite !list_insert_id by done. split; [done|]. split; [done|]. split; [apply Hr|]. done. }
  destruct Hstep as (lk & l & ys & -> & -> & Hfm & Hsub & Hfc & Hfr). mred.
  assert (Hrl : rep lk l (ys ++ suf)).
  { eapply fam_lookup; [exact Hfm|..]; apply list_lookup_insert_eq; by eapply lookup_lt_Some. }
  rewrite (norm_cursor _ _ _ _ Hrl). change (ys ++ suf) with (zlist (ys, suf)) in *.
  rewrite <- (zlist_norm (ys, suf)) in Hfm, Hsub.
  rewrite (next_nonempty_set lk p abs i l _ (norm (ys, suf))); [mred|done..].
  eexists _, _; split; [done|]. split; [|done].
  apply (rep_set_slot s p abs i (pre, c :: suf)); [done..|apply norm_ok| |done].
  intros y Hy. apply Hown. by apply Hsub.
Qed.

Lemma nn_priolist_rm_free s p x :
  free (pi_links s) x -> nn_priolist_rm s p x = Ok (s, p).
Proof.
  intros Hfx. unfold nn_priolist_rm. rewrite (list_isinlist_free _ _ Hfx). mred.
  rewrite list_item_term_spec, (list_isinlist_free _ _ Hfx). done.
Qed.

(** [top] when the changed slot comes after another non-empty one. *)
Lemma top_insert_after abs i k y z' :
  first_nonempty abs k y -> k <> i -> (k < i)%nat -> top (<[i := z']> abs) = top abs.
Proof.
  intros Hf Hki Hlt. rewrite (proj1 (top_first _ _ _ Hf)). destruct Hf as (Hk & Hy & Hlo).
  apply (top_first _ k y). split; [by rewrite list_lookup_insert_ne|]. split; [done|].
  intros j w Hj Hjk. rewrite list_lookup_insert_ne in Hj by lia. by eapply Hlo.
Qed.

Lemma nn_priolist_rm_ok s p abs x i z :
  prio_rep s p abs -> abs !! i = Some z -> x ∈ zlist z ->
  exists s' p', nn_priolist_rm s p x = Ok (s', p')
    /\ prio_rep s' p' (<[i := z_remove z x]> abs)
    /\ pi_data s' = pi_data s /\ free (pi_links s') x
    /\ (forall y, free (pi_links s) y -> free (pi_links s') y).
Proof.
  intros Hr Hi Hx. pose proof (pr_len _ _ _ Hr) as Hlen.
  assert (Hi16 : (i < 16)%nat) by (rewrite <- Hlen; by eapply lookup_lt_Some).
  destruct (slot_at_ok s p abs i z Hr Hi) as (sl & Hsl & Hsi & Hrep & Hc & He).
  destruct (fam_slot s p abs i z sl Hr Hi Hsi) as [Hl1 Hl2].
  destruct (pr_own _ _ _ Hr i z x Hi Hx) as (d & Hd & Hp).
  assert (Hown : forall y, y ∈ zlist z -> exists d, pi_data s !! y = Some d /\ pd_priority d = Z.of_nat i + 1).
  { intros y Hy. by eapply (pr_own _ _ _ Hr). }
  pose proof (rep_NoDup _ _ _ Hrep) as Hnd.
  unfold nn_priolist_rm. rewrite (list_isinlist_in _ _ _ _ Hrep Hx). mred. rewrite Hd. mred. rewrite Hp.
  replace (Z.of_nat i + 1 - 1) with (Z.of_nat i) by lia. rewrite Hsl. mred. rewrite Hc.
  destruct z as [pre [|c suf]]; [by unfold zlist in Hx; cbn in *; rewrite He in Hx; set_solver|].
  unfold z_remove. cbn [fst snd hd_or head tail] in *. case_bool_decide as Hcx; cbn [negb].
  - (* the current item *)
    injection Hcx as <-. rewrite decide_True by done. unfold zlist in Hl2; cbn [fst snd] in Hl2.
    destruct (fam_erase _ _ _ _ _ _ _ _ (pr_fam _ _ _ Hr) Hl1 Hl2) as (lk & l & -> & Hfm & Hfc & Hfr). mred.
    rewrite list_item_term_spec, (list_isinlist_free _ _ Hfc). mred.
    assert (Hrl : rep lk l (pre ++ suf)).
    { eapply fam_lookup; [exact Hfm|..]; apply list_lookup_insert_eq; by eapply lookup_lt_Some. }
    rewrite (norm_cursor _ _ _ _ Hrl). change (pre ++ suf) with (zlist (pre, suf)) in Hfm.
    rewrite <- (zlist_norm (pre, suf)) in Hfm.
    assert (Hz' : forall y, y ∈ zlist (norm (pre, suf)) ->
              exists d, pi_data s !! y = Some d /\ pd_priority d = Z.of_nat i + 1).
    { intros y. rewrite zlist_norm. unfold zlist; cbn. intros Hy. apply Hown. unfold zlist; cbn. set_solver. }
    rewrite (pr_top _ _ _ Hr). destruct (top_cases abs) as [(_ & _ & Hall)|(k & y & Hf & Ht & _)].
    { by rewrite (Hall i _ Hi) in Hx; apply elem_of_nil in Hx. }
    rewrite Ht. case_bool_decide as Hk; cbn [negb].
    + assert (k = i) as -> by lia.
      rewrite (next_nonempty_set lk p abs i l _ (norm (pre, suf))); [mred|done..|apply Hf].
      eexists _, _; split; [done|]. split; [|done].
      by apply (rep_set_slot s p abs i (pre, c :: suf)); [..|apply norm_ok| |].
    + eexists _, _; split; [done|]. split; [|done]. rewrite <- Ht.
      apply (rep_set_slot s p abs i (pre, c :: suf)); [done..|apply norm_ok|done|].
      symmetry. eapply top_insert_after; [exact Hf|lia|].
      destruct (decide (i < k)%nat) as [Hlt|]; [|lia]. destruct Hf as (_ & _ & Hlo).
      by rewrite (Hlo i _ Hi Hlt) in Hx; apply elem_of_nil in Hx.
  - (* another item of the slot *)
    rewrite decide_False by congruence.
    apply list_elem_of_split in Hx as (k1 & k2 & Ez). pose proof Hl2 as Hl2'. rewrite Ez in Hl2', Hnd.
    destruct (fam_erase _ _ _ _ _ _ _ _ (pr_fam _ _ _ Hr) Hl1 Hl2') as (lk & l & -> & Hfm & Hfx & Hfr). mred.
    rewrite list_item_term_spec, (list_isinlist_free _ _ Hfx). mred.
    rewrite filter_cons_True by congruence.
    set (z' := (filter (fun y => y <> x) pre, c :: filter (fun y => y <> x) suf)).
    assert (Hz' : zlist z' = k1 ++ k2).
    { rewrite <- (filter_ne_split x) by done. rewrite <- Ez. unfold zlist, z'. cbn [fst snd].
      rewrite filter_app, filter_cons_True by congruence. done. }
    rewrite <- Hz' in Hfm.
    eexists _, _; split; [done|]. split; [|done].
    apply (rep_set_slot s p abs i (pre, c :: suf)); [done..| |].
    + intros y Hy. apply Hown. rewrite Ez. rewrite Hz' in Hy. set_solver.
    + rewrite (pr_top _ _ _ Hr). symmetry. apply (top_ext abs i (pre, c :: suf)); [done|].
      unfold zlist, z'; cbn. split; intros [_ [=]]%app_eq_nil.
Qed.

Lemma nn_priolist_add_ok s p abs data pipe priority :
  prio_rep s p abs -> data ∉ active abs ->
  prio_rep (nn_priolist_add s data pipe priority) p abs
  /\ free (pi_links (nn_priolist_add s data pipe priority)) data.
Proof.
  intros Hr Hd. split; [|apply list_item_init_spec]. constructor; cbn; try apply Hr.
  - apply fam_item_init; [apply Hr|]. done.
  - intros i z x Hi Hx. rewrite lookup_insert_ne; [by eapply (pr_own _ _ _ Hr)|].
    intros <-. apply Hd, active_elem. eauto.
Qed.

Lemma nn_priolist_init_ok s : prio_rep s nn_priolist_init (replicate 16 ([], [])).
Proof.
  constructor; cbn; [done|apply (fam_init _ 16)|repeat constructor|done|].
  intros i z x Hi Hx. change (replicate 16 (([], []) : zslot) !! i = Some z) in Hi.
  apply lookup_replicate in Hi as [-> _]. set_solver.
Qed.

Lemma nn_priolist_term_ok s p abs :
  prio_rep s p abs -> nn_priolist_term p = Ok tt <-> active abs = [].
Proof.
  intros Hr. unfold active. rewrite <- (fam_term _ _ _ (pr_fam _ _ _ Hr)). unfold nn_priolist_term.
  induction (pl_slots p) as [|sl sls IH]; cbn; [by split; [constructor|]|].
  rewrite Forall_cons, <- IH. destruct (list_term (sl_pipes sl)) as [[]|]; mred; naive_solver.
Qed.

Lemma alter_slot (f : zslot -> zslot) i abs z : abs !! i = Some z -> alter f i abs = <[i := f z]> abs.
Proof.
  intros Hz. apply list_eq. intros j. destruct (decide (i = j)) as [<-|Hij].
  - rewrite list_lookup_alter_eq, Hz, list_lookup_insert_eq; [done|by eapply lookup_lt_Some].
  - by rewrite list_lookup_alter_ne, list_lookup_insert_ne.
Qed.

(** ** Runs *)

Inductive prio_op :=
  | PAdd (x pipe : addr) (priority : Z)
  | PActivate (x : addr)
  | PAdvance (release : bool)
  | PRm (x : addr).

Definition prio_step (s : pitems St) (p : nn_priolist L) (o : prio_op)
    : result (pitems St * nn_priolist L) :=
  match o with
  | PAdd x pipe priority => Ok (nn_priolist_add s x pipe priority, p)
  | PActivate x => nn_priolist_activate s p x
  | PAdvance release => nn_priolist_advance s p release
  | PRm x => nn_priolist_rm s p x
  end.

(** Performs the operations, and asks for the pipe and its priority after each. *)
Fixpoint prio_run (os : list prio_op) (s : pitems St) (p : nn_priolist L)
    : result (list (option addr * Z)) :=
  match os with
  | [] => Ok []
  | o :: os =>
      '(s, p) ← prio_step s p o;
      x ← nn_priolist_getpipe s p;
      xs ← prio_run os s p;
      Ok ((x, nn_priolist_get_priority p) :: xs)
  end.

(** The specification: per priority a cyclic order, items known but inactive
    being idle.  [None] is a use the callers must avoid. *)
Record aprio := APrio { a_slots : list zslot; a_data : gmap addr nn_priolist_data; a_idle : list addr }.

Definition aprio_init : aprio := APrio (replicate 16 ([], [])) ∅ [].

Definition prio_index (d : nn_priolist_data) : nat := Z.to_nat (pd_priority d - 1).

Definition aprio_step (a : aprio) (o : prio_op) : option aprio :=
  match o with
  | PAdd x pipe priority =>
      guard (x ∉ active (a_slots a));;
      Some (APrio (a_slots a) (<[x := PData pipe priority]> (a_data a)) (x :: a_idle a))
  | PActivate x =>
      guard (x ∈ a_idle a);;
      d ← a_data a !! x;
      guard (1 <= pd_priority d <= 16);;
      Some (APrio (alter (fun z => z_activate z x) (prio_index d) (a_slots a)) (a_data a)
                  (filter (fun y => y <> x) (a_idle a)))
  | PAdvance release =>
      x ← next_up (a_slots a);
      d ← a_data a !! x;
      Some (APrio (alter (fun z => z_advance z release) (prio_index d) (a_slots a)) (a_data a)
                  (if release then x :: a_idle a else a_idle a))
  | PRm x =>
      if decide (x ∈ active (a_slots a)) then
        d ← a_data a !! x;
        Some (APrio (alter (fun z => z_remove z x) (prio_index d) (a_slots a)) (a_data a) (x :: a_idle a))
      else guard (x ∈ a_idle a);; Some a
  end.

(** The pipe to use: the one at the cursor of the highest priority in use. *)
Definition aprio_out (a : aprio) : option addr * Z :=
  (pd_pipe <$> (next_up (a_slots a) ≫= fun x => a_data a !! x), top (a_slots a)).

Fixpoint aprio_run (os : list prio_op) (a : aprio) : option (list (option addr * Z)) :=
  match os with
  | [] => Some []
  | o :: os => a ← aprio_step a o; xs ← aprio_run os a; Some (aprio_out a :: xs)
  end.

Definition prio_sim (s : pitems St) (p : nn_priolist L) (a : aprio) : Prop :=
  prio_rep s p (a_slots a) /\ pi_data s = a_data a /\ (forall x, x ∈ a_idle a -> free (pi_links s) x).

Lemma next_up_first abs x :
  next_up abs = Some x -> exists i pre suf, first_nonempty abs i (pre, x :: suf).
Proof.
  destruct (top_cases abs) as [(_ & -> & _)|(i & [pre suf] & Hf & _ & ->)]; [done|].
  destruct suf as [|y suf]; cbn; [done|]. intros [= ->]. eauto.
Qed.

Lemma prio_out_sim s p a :
  prio_sim s p a -> nn_priolist_getpipe s p = Ok (aprio_out a).1 /\ nn_priolist_get_priority p = (aprio_out a).2.
Proof.
  intros (Hr & Hd & _). split; [|exact (pr_top _ _ _ Hr)].
  pose proof (nn_priolist_getpipe_ok s p _ Hr) as Hg. unfold aprio_out. rewrite <- Hd. cbn.
  destruct (next_up (a_slots a)) as [x|]; cbn; [|by destruct Hg].
  destruct Hg as (d & -> & -> & _). done.
Qed.

Lemma prio_index_own s p abs i z x d :
  prio_rep s p abs -> abs !! i = Some z -> x ∈ zlist z -> pi_data s !! x = Some d -> prio_index d = i.
Proof.
  intros Hr Hi Hx Hd. unfold prio_index. rewrite (own_priority _ _ _ _ _ _ _ Hr Hi Hx Hd). lia.
Qed.

Lemma prio_step_sim s p a o a' :
  prio_sim s p a -> aprio_step a o = Some a' ->
  exists s' p', prio_step s p o = Ok (s', p') /\ prio_sim s' p' a'.
Proof.
  intros (Hr & Hd & Hi) Ha. destruct o as [x pipe priority|x|release|x]; cbn in Ha.
  - case_guard; simplify_option_eq. eexists _, _; split; [done|].
    destruct (nn_priolist_add_ok s p _ x pipe priority Hr ltac:(done)) as [Hr' Hf].
    split; [done|]. cbn in *. split; [by rewrite Hd|]. intros y [->|Hy]%elem_of_cons; [done|].
    by apply free_item_init, Hi.
  - case_guard as Hx; [|done]. destruct (a_data a !! x) as [d|] eqn:Ed; [|done]. cbn in Ha.
    case_guard as Hp; simplify_option_eq. rewrite <- Hd in Ed.
    destruct (nn_priolist_activate_ok s p _ x d Hr (Hi x Hx) Ed Hp) as (s' & p' & E & Hr' & Hd' & Hf).
    exists s', p'. split; [done|]. split; [done|]. split; [by rewrite Hd'|]. cbn.
    intros y [Hy1 Hy2]%list_elem_of_filter. apply Hf; auto.
  - destruct (next_up (a_slots a)) as [x|] eqn:En; [|done]. cbn in Ha.
    destruct (a_data a !! x) as [d|] eqn:Ed; [|done]. simplify_option_eq. rewrite <- Hd in Ed.
    destruct (next_up_first _ _ En) as (i & pre & suf & Hf). pose proof Hf as (Hz & _ & _).
    assert (Hx : x ∈ zlist (pre, x :: suf)) by (unfold zlist; set_solver).
    destruct (nn_priolist_advance_ok s p _ i pre x suf release Hr Hf) as (s' & p' & E & Hr' & Hd' & Hfc & Hfr).
    exists s', p'. split; [done|]. split; [|split; [by rewrite Hd'|]].
    + cbn. by rewrite (prio_index_own _ _ _ _ _ _ _ Hr Hz Hx Ed), (alter_slot _ _ _ _ Hz).
    + cbn. destruct release; [|auto]. intros y [->|Hy]%elem_of_cons; auto.
  - case_decide as Hx.
    2: { destruct (decide (x ∈ a_idle a)); simplify_option_eq. exists s, p. split; [|done]. apply nn_priolist_rm_free. auto. }
    destruct (a_data a !! x) as [d|] eqn:Ed; [|done]. simplify_option_eq. rewrite <- Hd in Ed.
    apply active_elem in Hx as (i & z & Hz & Hx).
    destruct (nn_priolist_rm_ok s p _ x i z Hr Hz Hx) as (s' & p' & E & Hr' & Hd' & Hfx & Hfr).
    exists s', p'. split; [done|]. split; [|split; [by rewrite Hd'|]].
    + cbn. by rewrite (prio_index_own _ _ _ _ _ _ _ Hr Hz Hx Ed), (alter_slot _ _ _ _ Hz).
    + cbn. intros y [->|Hy]%elem_of_cons; auto.
Qed.

Lemma prio_run_sim os s p a out :
  prio_sim s p a -> aprio_run os a = Some out -> prio_run os s p = Ok out.
Proof.
  revert s p a out. induction os as [|o os IH]; intros s p a out Hs Ho; cbn in *; [by simplify_eq|].
  destruct (aprio_step a o) as [a'|] eqn:Ea; [|done]. cbn in Ho.
  destruct (aprio_run os a') as [out'|] eqn:Eo; [|done]. cbn in Ho. simplify_eq.
  destruct (prio_step_sim _ _ _ _ _ Hs Ea) as (s' & p' & -> & Hs'). mred.
  destruct (prio_out_sim _ _ _ Hs') as [-> ->]. mred. rewrite (IH _ _ _ _ Hs' Eo). mred.
  by destruct (aprio_out a').
Qed.

(** The states reached by a run. *)
Fixpoint prio_steps (os : list prio_op) (s : pitems St) (p : nn_priolist L)
    : result (pitems St * nn_priolist L) :=
  match os with
  | [] => Ok (s, p)
  | o :: os => '(s, p) ← prio_step s p o; prio_steps os s p
  end.
Fixpoint aprio_steps (os : list prio_op) (a : aprio) : option aprio :=
  match os with [] => Some a | o :: os => a ← aprio_step a o; aprio_steps os a end.

Lemma prio_steps_sim os s p a a' :
  prio_sim s p a -> aprio_steps os a = Some a' ->
  exists s' p', prio_steps os s p = Ok (s', p') /\ prio_sim s' p' a'.
Proof.
  revert s p a. induction os as [|o os IH]; intros s p a Hs Ha; cbn in *; [simplify_eq; eauto|].
  destruct (aprio_step a o) as [a1|] eqn:E1; [|done]. cbn in Ha.
  destruct (prio_step_sim _ _ _ _ _ Hs E1) as (s1 & p1 & -> & Hs1). mred. by eapply IH.
Qed.

Lemma prio_sim_init (lk : St) : prio_sim (PItems lk ∅) nn_priolist_init aprio_init.
Proof. split; [apply nn_priolist_init_ok|]. split; [done|]. cbn. intros x Hx. set_solver. Qed.

(** ** Fair queueing *)

(** Asks for the pipe and advances, [n] times. *)
Fixpoint prio_turns (n : nat) (s : pitems St) (p : nn_priolist L)
    : result (list (option addr) * (pitems St * nn_priolist L)) :=
  match n with
  | O => Ok ([], (s, p))
  | S n =>
      x ← nn_priolist_getpipe s p;
      '(s, p) ← nn_priolist_advance s p false;
      '(xs, sp) ← prio_turns n s p;
      Ok (x :: xs, sp)
  end.

(** One turn moves the cursor's item to the end of the cycle. *)
Lemma prio_turn_ok s p abs i pre c suf :
  prio_rep s p abs -> first_nonempty abs i (pre, c :: suf) ->
  exists d s' p', pi_data s !! c = Some d /\ nn_priolist_getpipe s p = Ok (Some (pd_pipe d))
    /\ nn_priolist_advance s p false = Ok (s', p') /\ pi_data s' = pi_data s
    /\ prio_rep s' p' (<[i := norm (pre ++ [c], suf)]> abs)
    /\ first_nonempty (<[i := norm (pre ++ [c], suf)]> abs) i (norm (pre ++ [c], suf)).
Proof.
  intros Hr Hf. pose proof (nn_priolist_getpipe_ok s p abs Hr) as Hg.
  rewrite (proj2 (top_first _ _ _ Hf)) in Hg. cbn in Hg. destruct Hg as (d & Hg & Hd & _).
  destruct (nn_priolist_advance_ok s p abs i pre c suf false Hr Hf) as (s' & p' & E & Hr' & Hd' & _ & _).
  exists d, s', p'. repeat (split; [done|]). destruct Hf as (Hi & _ & Hlo). split.
  - apply list_lookup_insert_eq. by eapply lookup_lt_Some.
  - rewrite zlist_norm. unfold zlist. cbn [fst snd]. split.
    + by intros [[_ [=]]%app_eq_nil _]%app_eq_nil.
    + intros j y Hj Hlt. rewrite list_lookup_insert_ne in Hj by lia. by eapply Hlo.
Qed.

(** Turns up to the end of the list. *)
Lemma prio_turns_suffix ks : forall s p abs i pre rest ps,
  prio_rep s p abs -> first_nonempty abs i (pre, ks ++ rest) -> ks ++ rest <> [] ->
  (fun x => pd_pipe <$> pi_data s !! x) <$> ks = Some <$> ps ->
  exists s' p', prio_turns (length ks) s p = Ok (Some <$> ps, (s', p'))
    /\ pi_data s' = pi_data s
    /\ let z' := match ks with [] => (pre, rest) | _ => norm (pre ++ ks, rest) end in
       prio_rep s' p' (<[i := z']> abs) /\ first_nonempty (<[i := z']> abs) i z'.
Proof.
  induction ks as [|c ks IH]; intros s p abs i pre rest ps Hr Hf Hne Hps.
  - destruct ps; [|done]. exists s, p. split; [done|]. split; [done|]. cbn.
    destruct Hf as (Hi & ?). by rewrite list_insert_id.
  - destruct ps as [|q ps]; [done|]. cbn in Hps. injection Hps as Hq Hps.
    destruct (prio_turn_ok s p abs i pre c (ks ++ rest) Hr Hf) as (d & s' & p' & Hd & Hg & Ha & Hd' & Hr' & Hf').
    rewrite Hd in Hq. injection Hq as <-. cbn [length prio_turns]. rewrite Hg. mred. rewrite Ha. mred.
    destruct (decide (ks ++ rest = [])) as [[-> ->]%app_eq_nil|Hne'].
    + destruct ps; [|done]. cbn in *. exists s', p'. done.
    + assert (En : norm (pre ++ [c], ks ++ rest) = (pre ++ [c], ks ++ rest)) by (by destruct (ks ++ rest)).
      rewrite En in *. rewrite <- Hd' in Hps.
      destruct (IH s' p' _ i _ rest ps Hr' Hf' Hne' Hps) as (s'' & p'' & E & Hd'' & Hz).
      rewrite E. mred. exists s'', p''. split; [done|]. split; [congruence|].
      rewrite <- app_assoc in Hz. cbn in Hz. rewrite list_insert_insert_eq in Hz.
      destruct ks as [|k ks]; [|done]. cbn in Hz |- *. destruct rest as [|r rest]; [done|]. exact Hz.
Qed.

Lemma prio_turns_app n m s p :
  prio_turns (n + m) s p =
    ('(xs, (s, p)) ← prio_turns n s p; '(ys, sp) ← prio_turns m s p; Ok (xs ++ ys, sp)).
Proof.
  revert s p. induction n as [|n IH]; intros s p; cbn.
  - by destruct (prio_turns m s p) as [[]|].
  - destruct (nn_priolist_getpipe s p); mred; [|done].
    destruct (nn_priolist_advance s p false) as [[s' p']|]; mred; [|done]. rewrite IH.
    destruct (prio_turns n s' p') as [[xs [s'' p'']]|]; mred; [|done].
    by destruct (prio_turns m s'' p'') as [[]|].
Qed.

(** A full round. *)
Lemma prio_round_ok s p abs i pre suf ps qs :
  prio_rep s p abs -> first_nonempty abs i (pre, suf) -> suf <> [] ->
  (fun x => pd_pipe <$> pi_data s !! x) <$> suf = Some <$> ps ->
  (fun x => pd_pipe <$> pi_data s !! x) <$> pre = Some <$> qs ->
  exists s' p', prio_turns (length suf + length pre) s p = Ok (Some <$> (ps ++ qs), (s', p'))
    /\ pi_data s' = pi_data s /\ prio_rep s' p' abs.
Proof.
  intros Hr Hf Hne Hps Hqs. pose proof Hf as (Hi & _).
  destruct (prio_turns_suffix suf s p abs i pre [] ps Hr) as (s1 & p1 & E1 & Hd1 & Hz1);
    [by rewrite app_nil_r|by rewrite app_nil_r|done|].
  destruct suf as [|c suf]; [done|]. cbn [norm snd fst] in Hz1.
  change (norm (pre ++ c :: suf, [])) with (([], pre ++ c :: suf) : zslot) in Hz1.
  destruct Hz1 as [Hr1 Hf1]. rewrite <- Hd1 in Hqs.
  destruct (prio_turns_suffix pre s1 p1 _ i [] (c :: suf) qs Hr1 Hf1) as (s2 & p2 & E2 & Hd2 & Hz2);
    [by destruct pre|done|].
  exists s2, p2. rewrite prio_turns_app, E1. mred. rewrite E2. mred.
  split; [by rewrite fmap_app|]. split; [congruence|].
  cbn zeta in Hz2. rewrite list_insert_insert_eq in Hz2.
  assert (Ez : match pre with [] => ([], c :: suf) | _ => norm ([] ++ pre, c :: suf) end = (pre, c :: suf))
    by (by destruct pre).
  destruct Hz2 as [Hr2 _]. rewrite Ez, list_insert_id in Hr2; done.
Qed.
End PriolistSpec.

(** ** Results *)

(** Any run of [nn_priolist_add], [nn_priolist_activate],
    [nn_priolist_advance] and [nn_priolist_rm] that the specification allows
    (no priority outside 1..16, no item active twice, advancing only when
    some item is active) completes without a fault, and after every step the
    next pipe and the priority are those the specification gives: the cursor
    of the highest-priority non-empty cyclic list. *)
Theorem nn_priolist_refines {St L} `{ListSpec St L} (s : St) (os : list prio_op) (out : list (option addr * Z)) :
  aprio_run os aprio_init = Some out -> prio_run os (PItems s ∅) nn_priolist_init = Ok out.
Proof.
  apply prio_run_sim, prio_sim_init.
Qed.

Definition demo_prio_ops : list prio_op :=
  [PAdd 1 11 2; PAdd 2 12 2; PAdd 3 13 1; PActivate 1; PActivate 2; PAdvance false; PActivate 3;
   PAdvance true; PAdvance false; PRm 2; PAdvance false; PRm 3; PRm 1].

Lemma nn_priolist_refines_witness :
  prio_run demo_prio_ops (PItems (∅ : store) ∅) (nn_priolist_init (L := nn_list))
  = Ok [(None, -1); (None, -1); (None, -1); (Some 11%positive, 2); (Some 11%positive, 2); (Some 12%positive, 2); (Some 13%positive, 1);
        (Some 12%positive, 2); (Some 11%positive, 2); (Some 11%positive, 2); (Some 11%positive, 2); (Some 11%positive, 2); (None, -1)].
Proof. apply nn_priolist_refines. vm_compute. reflexivity. Defined.

(** Fairness within a priority: as many turns as the highest-priority
    slot has pipes visit every one of them exactly once, in the cyclic order
    from the cursor, and leave the abstract state unchanged, so that the next
    round visits them in the same order. *)
Theorem nn_priolist_fair {St L} `{ListSpec St L} (s : pitems St) (p : nn_priolist L)
    (abs : list zslot) (i : nat) (pre suf ps qs : list addr) :
  prio_rep s p abs -> first_nonempty abs i (pre, suf) ->
  (fun x => pd_pipe <$> pi_data s !! x) <$> suf = Some <$> ps ->
  (fun x => pd_pipe <$> pi_data s !! x) <$> pre = Some <$> qs ->
  exists s' p', prio_turns (length suf + length pre) s p = Ok (Some <$> (ps ++ qs), (s', p'))
    /\ pi_data s' = pi_data s /\ prio_rep s' p' abs.
Proof.
  intros Hr Hf. apply (prio_round_ok _ _ _ i); [done..|]. destruct Hf as (Hi & Hz & _). intros ->.
  destruct (slot_at_ok _ _ _ _ _ Hr Hi) as (_ & _ & _ & _ & _ & He). apply Hz.
  unfold zlist. cbn in *. by rewrite He.
Qed.

(** After the first six operations above: slot 2 with the cursor on item 2. *)
Lemma nn_priolist_fair_witness :
  exists s p s' p', prio_steps (take 6 demo_prio_ops) (PItems (∅ : store) ∅) nn_priolist_init = Ok (s, p)
    /\ prio_turns 2%nat s p = Ok (Some <$> [12; 11]%positive, (s', p')) /\ pi_data s' = pi_data s
    /\ prio_rep s' p' (<[1%nat := ([1]%positive, [2]%positive)]> (replicate 16 ([], []))).
Proof.
  destruct (aprio_steps (take 6 demo_prio_ops) aprio_init) as [a|] eqn:Ea; [|vm_compute in Ea; discriminate].
  destruct (prio_steps_sim _ _ _ _ _ (prio_sim_init (∅ : store)) Ea) as (s & p & E & Hr & Hd & _).
  vm_compute in Ea. injection Ea as <-. exists s, p.
  destruct (nn_priolist_fair s p _ 1 [1]%positive [2]%positive [12]%positive [11]%positive Hr)
    as (s' & p' & Hn); [..|by exists s', p'].
  - split; [done|]. split; [done|]. intros [|j] y Hj Hlt; [by injection Hj as <-|lia].
  - by rewrite Hd.
  - by rewrite Hd.
Defined.
