(* ===== verification/Pipe.v ===== *)
(** * Messages and pipes ([utils/msg.h], [core/pipe.c])

    A pipe is the core's handle on one connection.  The protocol side calls
    [nn_pipe_send] and [nn_pipe_recv]; the transport side calls
    [nn_pipebase_start], [nn_pipebase_sent], [nn_pipebase_received] and
    [nn_pipebase_stop], possibly from inside its own [send] and [recv].  The
    transport is reached through the function pointers of
    [nn_pipebase_vfptr]: the class [Transport] holds them, and
    [TransportSpec] what [transport.h] asks of an established connection.

    Messages are values here: [Chunk] shows that the reference-counted
    representation behaves so. *)

From S2P Require Import Prelude NNList Wire.
Local Open Scope Z_scope.

Record nn_msg := Msg { sphdr : bytes; hdrs : bytes; body : bytes }.

#[export] Instance nn_msg_eq_dec : EqDecision nn_msg.
Proof. solve_decision. Defined.

Definition NN_PIPE_RELEASE : Z := 1.
Definition NN_PIPE_PARSED : Z := 2.

Inductive pipe_state := NN_PIPEBASE_STATE_IDLE | NN_PIPEBASE_STATE_ACTIVE | NN_PIPEBASE_STATE_FAILED.
Inductive pipe_instate :=
  | NN_PIPEBASE_INSTATE_DEACTIVATED | NN_PIPEBASE_INSTATE_IDLE | NN_PIPEBASE_INSTATE_RECEIVING
  | NN_PIPEBASE_INSTATE_RECEIVED | NN_PIPEBASE_INSTATE_ASYNC.
Inductive pipe_outstate :=
  | NN_PIPEBASE_OUTSTATE_DEACTIVATED | NN_PIPEBASE_OUTSTATE_IDLE | NN_PIPEBASE_OUTSTATE_SENDING
  | NN_PIPEBASE_OUTSTATE_SENT | NN_PIPEBASE_OUTSTATE_ASYNC.

#[export] Instance pipe_state_eq_dec : EqDecision pipe_state.
Proof. solve_decision. Defined.
#[export] Instance pipe_instate_eq_dec : EqDecision pipe_instate.
Proof. solve_decision. Defined.
#[export] Instance pipe_outstate_eq_dec : EqDecision pipe_outstate.
Proof. solve_decision. Defined.

Record nn_ep_options := EpOptions { opt_sndprio : Z; opt_rcvprio : Z; opt_ipv4only : Z }.

Record nn_pipebase := Pipebase {
  pb_state : pipe_state;
  pb_instate : pipe_instate;
  pb_outstate : pipe_outstate;
  pb_data : option addr;
  pb_options : nn_ep_options
}.

(** The events a pipe raises to the socket that owns it. *)
Inductive pipe_event := NN_PIPE_IN | NN_PIPE_OUT.
#[export] Instance pipe_event_eq_dec : EqDecision pipe_event.
Proof. solve_decision. Defined.

(** The counters of [struct nn_sock]. *)
Inductive nn_stat :=
  | NN_STAT_ESTABLISHED_CONNECTIONS | NN_STAT_ACCEPTED_CONNECTIONS | NN_STAT_DROPPED_CONNECTIONS
  | NN_STAT_BROKEN_CONNECTIONS | NN_STAT_CONNECT_ERRORS | NN_STAT_BIND_ERRORS | NN_STAT_ACCEPT_ERRORS
  | NN_STAT_CURRENT_CONNECTIONS | NN_STAT_INPROGRESS_CONNECTIONS | NN_STAT_CURRENT_EP_ERRORS
  | NN_STAT_MESSAGES_SENT | NN_STAT_MESSAGES_RECEIVED | NN_STAT_BYTES_SENT | NN_STAT_BYTES_RECEIVED
  | NN_STAT_CURRENT_SND_PRIORITY.
#[export] Instance nn_stat_eq_dec : EqDecision nn_stat.
Proof. solve_decision. Defined.

(** What a socket shares with its pipes: the state [T] of the transports and
    of the network, the pipes, the event queue of the socket's context, and
    the statistics. *)
Record world (T : Type) := World {
  w_net : T;
  w_pipes : gmap addr nn_pipebase;
  w_events : list (addr * pipe_event);
  w_stats : nn_stat -> Z
}.
Arguments World {_} _ _ _ _.
Arguments w_stats {_} _ _.
Arguments w_net {_} _.
Arguments w_pipes {_} _.
Arguments w_events {_} _.

Section Pipe.
  Context {T : Type}.
  Implicit Types (w : world T) (p : addr).

Definition set_net w n : world T := World n (w_pipes w) (w_events w) (w_stats w).
Definition set_pipe w p pb : world T := World (w_net w) (<[p := pb]> (w_pipes w)) (w_events w) (w_stats w).
Definition set_events w es : world T := World (w_net w) (w_pipes w) es (w_stats w).
Definition set_stat w name v : world T :=
  World (w_net w) (w_pipes w) (w_events w) (fun n => if bool_decide (n = name) then v else w_stats w n).

Definition set_state st pb := Pipebase st (pb_instate pb) (pb_outstate pb) (pb_data pb) (pb_options pb).
Definition set_in st pb := Pipebase (pb_state pb) st (pb_outstate pb) (pb_data pb) (pb_options pb).
Definition set_out st pb := Pipebase (pb_state pb) (pb_instate pb) st (pb_data pb) (pb_options pb).
Definition set_data d pb := Pipebase (pb_state pb) (pb_instate pb) (pb_outstate pb) d (pb_options pb).

(** [nn_fsm_raise]: the event is pushed to the context's queue, which asserts
    that it is not queued already. *)
Definition nn_pipe_raise w p (e : pipe_event) : result (world T) :=
  _ ← assert_ (bool_decide ((p, e) ∉ w_events w));
  Ok (set_events w (w_events w ++ [(p, e)])).

Definition nn_pipebase_init (options : nn_ep_options) : nn_pipebase :=
  Pipebase NN_PIPEBASE_STATE_IDLE NN_PIPEBASE_INSTATE_DEACTIVATED NN_PIPEBASE_OUTSTATE_DEACTIVATED
           None options.

Definition nn_pipebase_term (self : nn_pipebase) : result unit :=
  assert_ (bool_decide (pb_state self = NN_PIPEBASE_STATE_IDLE)).

(** [nn_sock_add] and [nn_sock_rm] hand the pipe to the protocol: they are
    the operations of the socket type at hand. *)
Definition nn_pipebase_start {S} (nn_sock_add : S -> world T -> addr -> result (S * world T * Z))
    (sock : S) w p : result (S * world T * Z) :=
  pb ← deref (w_pipes w !! p);
  _ ← assert_ (bool_decide (pb_state pb = NN_PIPEBASE_STATE_IDLE));
  let pb := set_out NN_PIPEBASE_OUTSTATE_IDLE (set_in NN_PIPEBASE_INSTATE_ASYNC
              (set_state NN_PIPEBASE_STATE_ACTIVE pb)) in
  '(sock, w, rc) ← nn_sock_add sock (set_pipe w p pb) p;
  if bool_decide (rc < 0) then
    pb ← deref (w_pipes w !! p);
    Ok (sock, set_pipe w p (set_state NN_PIPEBASE_STATE_FAILED pb), rc)
  else
    w ← nn_pipe_raise w p NN_PIPE_OUT;
    Ok (sock, w, 0).

Definition nn_pipebase_stop {S} (nn_sock_rm : S -> world T -> addr -> result (S * world T))
    (sock : S) w p : result (S * world T) :=
  pb ← deref (w_pipes w !! p);
  '(sock, w) ← (if bool_decide (pb_state pb = NN_PIPEBASE_STATE_ACTIVE) then nn_sock_rm sock w p
                else Ok (sock, w));
  pb ← deref (w_pipes w !! p);
  Ok (sock, set_pipe w p (set_state NN_PIPEBASE_STATE_IDLE pb)).

Definition nn_pipebase_received w p : result (world T) :=
  pb ← deref (w_pipes w !! p);
  if bool_decide (pb_instate pb = NN_PIPEBASE_INSTATE_RECEIVING) then
    Ok (set_pipe w p (set_in NN_PIPEBASE_INSTATE_RECEIVED pb))
  else
    _ ← assert_ (bool_decide (pb_instate pb = NN_PIPEBASE_INSTATE_ASYNC));
    nn_pipe_raise (set_pipe w p (set_in NN_PIPEBASE_INSTATE_IDLE pb)) p NN_PIPE_IN.

Definition nn_pipebase_sent w p : result (world T) :=
  pb ← deref (w_pipes w !! p);
  if bool_decide (pb_outstate pb = NN_PIPEBASE_OUTSTATE_SENDING) then
    Ok (set_pipe w p (set_out NN_PIPEBASE_OUTSTATE_SENT pb))
  else
    _ ← assert_ (bool_decide (pb_outstate pb = NN_PIPEBASE_OUTSTATE_ASYNC));
    nn_pipe_raise (set_pipe w p (set_out NN_PIPEBASE_OUTSTATE_IDLE pb)) p NN_PIPE_OUT.

Definition NN_SOL_SOCKET : Z := 0.
Definition NN_SNDPRIO : Z := 8.
Definition NN_RCVPRIO : Z := 9.
Definition NN_IPV4ONLY : Z := 14.

(** Every caller passes an [int] to be filled; [nn_sock_getopt_inner] answers
    the options that are not the endpoint's. *)
Definition nn_pipebase_getopt (nn_sock_getopt_inner : Z -> Z -> result Z) (self : nn_pipebase)
    (level option : Z) : result Z :=
  if bool_decide (level = NN_SOL_SOCKET) then
    if bool_decide (option = NN_SNDPRIO) then Ok (opt_sndprio (pb_options self))
    else if bool_decide (option = NN_RCVPRIO) then Ok (opt_rcvprio (pb_options self))
    else if bool_decide (option = NN_IPV4ONLY) then Ok (opt_ipv4only (pb_options self))
    else nn_sock_getopt_inner level option
  else nn_sock_getopt_inner level option.

Definition nn_pipe_setdata w p (data : option addr) : result (world T) :=
  pb ← deref (w_pipes w !! p); Ok (set_pipe w p (set_data data pb)).

Definition nn_pipe_getdata w p : result (option addr) :=
  pb ← deref (w_pipes w !! p); Ok (pb_data pb).

End Pipe.

(** The virtual functions of a transport: [send] answers a return code,
    [recv] also the message.  [tr_backlog] is the number of complete messages
    that wait to be received; the code does not use it, but it bounds the
    loops that receive until they find a message they want. *)
Class Transport (T : Type) := {
  tr_backlog : T -> nat;
  vf_send : world T -> addr -> nn_msg -> result (world T * Z);
  vf_recv : world T -> addr -> result (world T * Z * nn_msg)
}.

Section Transfer.
  Context {T : Type} `{Transport T}.
  Implicit Types (w : world T) (p : addr).

Definition nn_pipe_send w p (msg : nn_msg) : result (world T * Z) :=
  pb ← deref (w_pipes w !! p);
  _ ← assert_ (bool_decide (pb_outstate pb = NN_PIPEBASE_OUTSTATE_IDLE));
  '(w, rc) ← vf_send (set_pipe w p (set_out NN_PIPEBASE_OUTSTATE_SENDING pb)) p msg;
  _ ← assert_ (bool_decide (0 <= rc));
  pb ← deref (w_pipes w !! p);
  if bool_decide (pb_outstate pb = NN_PIPEBASE_OUTSTATE_SENT) then
    Ok (set_pipe w p (set_out NN_PIPEBASE_OUTSTATE_IDLE pb), rc)
  else
    _ ← assert_ (bool_decide (pb_outstate pb = NN_PIPEBASE_OUTSTATE_SENDING));
    Ok (set_pipe w p (set_out NN_PIPEBASE_OUTSTATE_ASYNC pb), Z.lor rc NN_PIPE_RELEASE).

Definition nn_pipe_recv w p : result (world T * Z * nn_msg) :=
  pb ← deref (w_pipes w !! p);
  _ ← assert_ (bool_decide (pb_instate pb = NN_PIPEBASE_INSTATE_IDLE));
  '(w, rc, msg) ← vf_recv (set_pipe w p (set_in NN_PIPEBASE_INSTATE_RECEIVING pb)) p;
  _ ← assert_ (bool_decide (0 <= rc));
  pb ← deref (w_pipes w !! p);
  if bool_decide (pb_instate pb = NN_PIPEBASE_INSTATE_RECEIVED) then
    Ok (set_pipe w p (set_in NN_PIPEBASE_INSTATE_IDLE pb), rc, msg)
  else
    _ ← assert_ (bool_decide (pb_instate pb = NN_PIPEBASE_INSTATE_RECEIVING));
    Ok (set_pipe w p (set_in NN_PIPEBASE_INSTATE_ASYNC pb), Z.lor rc NN_PIPE_RELEASE, msg).

(** [rc & NN_PIPE_RELEASE] and [rc & ~NN_PIPE_RELEASE]. *)
Definition released (rc : Z) : bool := negb (bool_decide (Z.land rc NN_PIPE_RELEASE = 0)).
Definition without_release (rc : Z) : Z := Z.ldiff rc NN_PIPE_RELEASE.

End Transfer.

(** What a transport owes the core on an established connection: the call
    takes (or delivers) one message, its code is no error and carries no
    RELEASE flag (the core adds that one), a delivered message has its protocol
    header in the body still, or is flagged PARSED, a connection that stays readable
    used up one of the waiting messages, and the call touches the pipe at most by calling
    [nn_pipebase_sent] (or [nn_pipebase_received]) on it. *)
Class TransportSpec (T : Type) `{Transport T} := {
  sent : T -> list (addr * nn_msg);
  rcvd : T -> list (addr * nn_msg);
  vf_send_spec w p m pb :
    w_pipes w !! p = Some pb -> pb_state pb = NN_PIPEBASE_STATE_ACTIVE ->
    pb_outstate pb = NN_PIPEBASE_OUTSTATE_SENDING ->
    exists n w', vf_send w p m = Ok (w', 0)
      /\ sent n = sent (w_net w) ++ [(p, m)] /\ rcvd n = rcvd (w_net w)
      /\ (w' = set_net w n \/ nn_pipebase_sent (set_net w n) p = Ok w');
  vf_recv_spec w p pb :
    w_pipes w !! p = Some pb -> pb_state pb = NN_PIPEBASE_STATE_ACTIVE ->
    pb_instate pb = NN_PIPEBASE_INSTATE_RECEIVING ->
    exists n rc m w', vf_recv w p = Ok (w', rc, m) /\ (rc = 0 /\ sphdr m = [] \/ rc = NN_PIPE_PARSED)
      /\ rcvd n = rcvd (w_net w) ++ [(p, m)] /\ sent n = sent (w_net w)
      /\ ((w' = set_net w n /\ (tr_backlog n <= tr_backlog (w_net w))%nat)
          \/ (nn_pipebase_received (set_net w n) p = Ok w' /\ (tr_backlog n < tr_backlog (w_net w))%nat))
}.

Lemma released_odd rc : released rc = Z.odd rc.
Proof.
  unfold released, NN_PIPE_RELEASE. change (Z.land rc 1) with (Z.land rc (Z.ones 1)). rewrite Z.land_ones by lia.
  change (2 ^ 1) with 2. rewrite Zmod_odd. by destruct (Z.odd rc).
Qed.

Lemma released_lor rc : released (Z.lor rc NN_PIPE_RELEASE) = true.
Proof. rewrite released_odd, <- Z.bit0_odd, Z.lor_spec. cbn. apply orb_true_r. Qed.

Lemma lor_nonneg rc : 0 <= rc -> 0 <= Z.lor rc NN_PIPE_RELEASE.
Proof. intros. apply Z.lor_nonneg. unfold NN_PIPE_RELEASE. lia. Qed.

Lemma without_release_nonneg rc : 0 <= rc -> 0 <= without_release rc.
Proof. intros. unfold without_release. apply Z.ldiff_nonneg. lia. Qed.

Lemma without_release_id rc : released rc = false -> without_release rc = rc.
Proof.
  rewrite released_odd, <- Z.bit0_odd. intros Hr. apply Z.bits_inj'. intros n Hn.
  unfold without_release, NN_PIPE_RELEASE. rewrite Z.ldiff_spec.
  destruct (decide (n = 0)) as [->|]; [by rewrite Hr|].
  replace (Z.testbit 1 n) with false; [by rewrite andb_true_r|].
  symmetry. apply Z.bits_above_log2; cbn; lia.
Qed.

Lemma without_release_lor rc : released rc = false -> without_release (Z.lor rc NN_PIPE_RELEASE) = rc.
Proof.
  intros Hr. rewrite <- (without_release_id rc Hr) at 2. apply Z.bits_inj'. intros n Hn.
  unfold without_release. rewrite !Z.ldiff_spec, Z.lor_spec.
  by destruct (Z.testbit rc n), (Z.testbit NN_PIPE_RELEASE n).
Qed.

Section PipeSpec.
  Context {T : Type} `{TransportSpec T}.
  Implicit Types (w : world T) (p : addr).

(** [pb], once a message was passed and [rc] returned. *)
Definition after_send (rc : Z) (pb : nn_pipebase) : nn_pipebase :=
  set_out (if released rc then NN_PIPEBASE_OUTSTATE_ASYNC else NN_PIPEBASE_OUTSTATE_IDLE) pb.
Definition after_recv (rc : Z) (pb : nn_pipebase) : nn_pipebase :=
  set_in (if released rc then NN_PIPEBASE_INSTATE_ASYNC else NN_PIPEBASE_INSTATE_IDLE) pb.

Definition writable w p : Prop := exists pb, w_pipes w !! p = Some pb
  /\ pb_state pb = NN_PIPEBASE_STATE_ACTIVE /\ pb_outstate pb = NN_PIPEBASE_OUTSTATE_IDLE.
Definition readable w p : Prop := exists pb, w_pipes w !! p = Some pb
  /\ pb_state pb = NN_PIPEBASE_STATE_ACTIVE /\ pb_instate pb = NN_PIPEBASE_INSTATE_IDLE.

Lemma nn_pipe_send_ok w p m pb :
  w_pipes w !! p = Some pb -> pb_state pb = NN_PIPEBASE_STATE_ACTIVE ->
  pb_outstate pb = NN_PIPEBASE_OUTSTATE_IDLE ->
  exists w' rc, nn_pipe_send w p m = Ok (w', rc) /\ 0 <= rc /\ without_release rc = 0
    /\ w_pipes w' = <[p := after_send rc pb]> (w_pipes w) /\ w_events w' = w_events w /\ w_stats w' = w_stats w
    /\ sent (w_net w') = sent (w_net w) ++ [(p, m)] /\ rcvd (w_net w') = rcvd (w_net w).
Proof.
  intros Hp Ha Ho. unfold nn_pipe_send. rewrite Hp. mred. rewrite Ho. decide_bools. mred.
  set (pb1 := set_out NN_PIPEBASE_OUTSTATE_SENDING pb).
  destruct (vf_send_spec (set_pipe w p pb1) p m pb1) as (n & w' & -> & Hs & Hr & Hw');
    [apply lookup_insert_eq|done|done|].
  mred. decide_bools. mred. unfold after_send.
  destruct Hw' as [->|Hw'].
  - cbn. rewrite lookup_insert_eq. mred. unfold pb1 at 1 2. cbn [set_out pb_outstate]. decide_bools. mred.
    eexists _, _. split; [done|]. rewrite released_lor. cbn. rewrite insert_insert_eq.
    done.
  - unfold nn_pipebase_sent in Hw'. cbn in Hw'. rewrite lookup_insert_eq in Hw'. mred in Hw'.
    unfold pb1 in Hw' at 1. cbn in Hw'. rewrite bool_decide_true in Hw' by done. injection Hw' as <-.
    cbn. rewrite lookup_insert_eq. mred. cbn. decide_bools. eexists _, _. split; [done|].
    split; [done|]. cbn. by rewrite !insert_insert_eq.
Qed.

Lemma nn_pipe_recv_ok w p pb :
  w_pipes w !! p = Some pb -> pb_state pb = NN_PIPEBASE_STATE_ACTIVE ->
  pb_instate pb = NN_PIPEBASE_INSTATE_IDLE ->
  exists w' rc m, nn_pipe_recv w p = Ok (w', rc, m) /\ 0 <= rc
    /\ (without_release rc = 0 /\ sphdr m = [] \/ without_release rc = NN_PIPE_PARSED)
    /\ w_pipes w' = <[p := after_recv rc pb]> (w_pipes w) /\ w_events w' = w_events w /\ w_stats w' = w_stats w
    /\ rcvd (w_net w') = rcvd (w_net w) ++ [(p, m)] /\ sent (w_net w') = sent (w_net w)
    /\ (tr_backlog (w_net w') + (if released rc then 0 else 1) <= tr_backlog (w_net w))%nat.
Proof.
  intros Hp Ha Ho. unfold nn_pipe_recv. rewrite Hp. mred. rewrite Ho. decide_bools. mred.
  set (pb1 := set_in NN_PIPEBASE_INSTATE_RECEIVING pb).
  destruct (vf_recv_spec (set_pipe w p pb1) p pb1) as (n & rc & m & w' & -> & Hrc & Hs & Hr & Hw');
    [apply lookup_insert_eq|done|done|].
  assert (H0rc : 0 <= rc) by (unfold NN_PIPE_PARSED in Hrc; lia).
  assert (Hrel : released rc = false) by (by destruct Hrc as [[-> _]| ->]).
  mred. decide_bools. mred. unfold after_recv.
  destruct Hw' as [[-> Hbl]|[Hw' Hbl]].
  - cbn. rewrite lookup_insert_eq. mred. unfold pb1 at 1 2. cbn [set_in pb_instate]. decide_bools. mred.
    eexists _, _, _. split; [done|]. rewrite released_lor. cbn. rewrite insert_insert_eq.
    split; [by apply lor_nonneg|]. rewrite without_release_lor by done.
    repeat (split; [done|]). cbn in Hbl. lia.
  - unfold nn_pipebase_received in Hw'. cbn in Hw'. rewrite lookup_insert_eq in Hw'. mred in Hw'.
    unfold pb1 in Hw' at 1. cbn in Hw'. rewrite bool_decide_true in Hw' by done. injection Hw' as <-.
    cbn. rewrite lookup_insert_eq. mred. cbn. decide_bools. eexists _, _, _. split; [done|].
    split; [done|]. rewrite Hrel, without_release_id by done. cbn. rewrite !insert_insert_eq.
    repeat (split; [done|]). cbn in Hbl. lia.
Qed.

(** ** Flow control

    What the protocol knows of one direction of a pipe: the transport is busy,
    an event is on its way, or the pipe was offered and not yet released. *)
Inductive flow := FBusy | FSignalled | FReady.

Inductive pipe_op :=
  | DSend (m : nn_msg) | DRecv   (** by the protocol, when the pipe is ready *)
  | DSent | DReceived            (** by the transport, when it is busy *)
  | DEvent.                      (** the socket handles the next queued event *)

Definition drive w p (fi fo : flow) (o : pipe_op) : result (world T * flow * flow) :=
  match o, fi, fo with
  | DSend m, _, FReady =>
      '(w, rc) ← nn_pipe_send w p m; Ok (w, fi, if released rc then FBusy else FReady)
  | DRecv, FReady, _ =>
      '(w, rc, _) ← nn_pipe_recv w p; Ok (w, if released rc then FBusy else FReady, fo)
  | DSent, _, FBusy => w ← nn_pipebase_sent w p; Ok (w, fi, FSignalled)
  | DReceived, FBusy, _ => w ← nn_pipebase_received w p; Ok (w, FSignalled, fo)
  | DEvent, _, _ =>
      match w_events w with
      | [] => Ok (w, fi, fo)
      | (q, e) :: es =>
          let w := set_events w es in
          if bool_decide (q = p) then
            match e with NN_PIPE_IN => Ok (w, FReady, fo) | NN_PIPE_OUT => Ok (w, fi, FReady) end
          else Ok (w, fi, fo)
      end
  | _, _, _ => Ok (w, fi, fo)
  end.

Fixpoint drive_all w p (fi fo : flow) (os : list pipe_op) : result (world T * flow * flow) :=
  match os with
  | [] => Ok (w, fi, fo)
  | o :: os => '(w, fi, fo) ← drive w p fi fo o; drive_all w p fi fo os
  end.

(** The pipe's states agree with that knowledge. *)
Record flow_rep w p (fi fo : flow) : Prop := {
  fr_pipe : exists pb, w_pipes w !! p = Some pb /\ pb_state pb = NN_PIPEBASE_STATE_ACTIVE
    /\ pb_instate pb = (if fi is FBusy then NN_PIPEBASE_INSTATE_ASYNC else NN_PIPEBASE_INSTATE_IDLE)
    /\ pb_outstate pb = (if fo is FBusy then NN_PIPEBASE_OUTSTATE_ASYNC else NN_PIPEBASE_OUTSTATE_IDLE);
  fr_in : (p, NN_PIPE_IN) ∈ w_events w <-> fi = FSignalled;
  fr_out : (p, NN_PIPE_OUT) ∈ w_events w <-> fo = FSignalled;
  fr_nodup : NoDup (w_events w)
}.

Lemma nn_pipe_raise_ok w p e :
  (p, e) ∉ w_events w ->
  nn_pipe_raise w p e = Ok (set_events w (w_events w ++ [(p, e)])).
Proof. intros He. unfold nn_pipe_raise. by decide_bools. Qed.

Lemma nodup_snoc {A} (xs : list A) x : NoDup xs -> x ∉ xs -> NoDup (xs ++ [x]).
Proof.
  intros Hn Hx. apply NoDup_app. split; [done|]. split; [set_solver|]. apply NoDup_singleton.
Qed.

Lemma drive_ok w p fi fo o :
  flow_rep w p fi fo ->
  exists w' fi' fo', drive w p fi fo o = Ok (w', fi', fo') /\ flow_rep w' p fi' fo'.
Proof.
  intros Hrep. pose proof Hrep as [(pb & Hp & Ha & Hi & Ho) Hei Heo Hn].
  assert (Hstay : exists w' fi' fo', Ok (w, fi, fo) = Ok (w', fi', fo') /\ flow_rep w' p fi' fo') by eauto.
  destruct o as [m| | | |].
  - destruct fo; try exact Hstay. cbn [drive].
    destruct (nn_pipe_send_ok w p m pb Hp Ha Ho) as (w' & rc & -> & _ & _ & Hp' & He' & _). mred.
    eexists _, _, _; split; [done|]. constructor; rewrite ?He'; [|done| |done].
    + eexists. rewrite Hp', lookup_insert_eq. split; [done|]. cbn. by destruct (released rc).
    + rewrite Heo. by destruct (released rc).
  - destruct fi; try exact Hstay. cbn [drive].
    destruct (nn_pipe_recv_ok w p pb Hp Ha Hi) as (w' & rc & m & -> & _ & _ & Hp' & He' & _). mred.
    eexists _, _, _; split; [done|]. constructor; rewrite ?He'; [| |done|done].
    + eexists. rewrite Hp', lookup_insert_eq. split; [done|]. cbn. by destruct (released rc).
    + rewrite Hei. by destruct (released rc).
  - destruct fo; try exact Hstay. cbn [drive]. unfold nn_pipebase_sent. rewrite Hp. mred. rewrite Ho.
    decide_bools. mred. assert (Hx : (p, NN_PIPE_OUT) ∉ w_events w) by (rewrite Heo; done).
    rewrite nn_pipe_raise_ok by done. mred. eexists _, _, _; split; [done|]. constructor; cbn.
    + eexists. rewrite lookup_insert_eq. split; [done|]. cbn. done.
    + rewrite elem_of_app, Hei, list_elem_of_singleton. naive_solver.
    + rewrite elem_of_app, list_elem_of_singleton. naive_solver.
    + by apply nodup_snoc.
  - destruct fi; try exact Hstay. cbn [drive]. unfold nn_pipebase_received. rewrite Hp. mred. rewrite Hi.
    decide_bools. mred. assert (Hx : (p, NN_PIPE_IN) ∉ w_events w) by (rewrite Hei; done).
    rewrite nn_pipe_raise_ok by done. mred. eexists _, _, _; split; [done|]. constructor; cbn.
    + eexists. rewrite lookup_insert_eq. split; [done|]. cbn. done.
    + rewrite elem_of_app, list_elem_of_singleton. naive_solver.
    + rewrite elem_of_app, Heo, list_elem_of_singleton. naive_solver.
    + by apply nodup_snoc.
  - cbn [drive]. destruct w as [n ps es st]; cbn in *. destruct es as [|[q e] es]; [exact Hstay|].
    apply NoDup_cons in Hn as [Hq Hn]. case_bool_decide as Hqp.
    + subst q. destruct e.
      * assert (fi = FSignalled) as -> by set_solver.
        eexists _, _, _; split; [done|]. constructor; cbn; [by exists pb|set_solver| |done].
        rewrite <- Heo. set_solver.
      * assert (fo = FSignalled) as -> by set_solver.
        eexists _, _, _; split; [done|]. constructor; cbn; [by exists pb| |set_solver|done].
        rewrite <- Hei. set_solver.
    + eexists _, _, _; split; [done|]. constructor; cbn; [by exists pb| | |done].
      * rewrite <- Hei. set_solver.
      * rewrite <- Heo. set_solver.
Qed.

Lemma drive_all_ok os : forall w p fi fo,
  flow_rep w p fi fo ->
  exists w' fi' fo', drive_all w p fi fo os = Ok (w', fi', fo') /\ flow_rep w' p fi' fo'.
Proof.
  induction os as [|o os IH]; intros w p fi fo Hf; cbn; [eauto 6|].
  destruct (drive_ok w p fi fo o Hf) as (w' & fi' & fo' & -> & Hf'). mred. by apply IH.
Qed.

Definition starting (pb : nn_pipebase) : nn_pipebase :=
  set_out NN_PIPEBASE_OUTSTATE_IDLE (set_in NN_PIPEBASE_INSTATE_ASYNC (set_state NN_PIPEBASE_STATE_ACTIVE pb)).

Lemma nn_pipebase_start_ok {S} (add : S -> world T -> addr -> result (S * world T * Z)) s s1 w p pb w1 pb1 rc :
  w_pipes w !! p = Some pb -> pb_state pb = NN_PIPEBASE_STATE_IDLE ->
  add s (set_pipe w p (starting pb)) p = Ok (s1, w1, rc) ->
  w_pipes w1 !! p = Some pb1 -> (p, NN_PIPE_OUT) ∉ w_events w1 ->
  nn_pipebase_start add s w p =
    Ok (if bool_decide (rc < 0) then (s1, set_pipe w1 p (set_state NN_PIPEBASE_STATE_FAILED pb1), rc)
        else (s1, set_events w1 (w_events w1 ++ [(p, NN_PIPE_OUT)]), 0)).
Proof.
  intros Hp Hs Hadd Hp1 Hev. unfold nn_pipebase_start. rewrite Hp. mred. rewrite Hs. decide_bools. mred.
  fold (starting pb). rewrite Hadd. mred. rewrite Hp1. mred. rewrite nn_pipe_raise_ok by done. mred. by case_bool_decide.
Qed.
End PipeSpec.

(** The sockets take the new pipes; they may attach data to them. *)
Class AcceptingSockets {S T : Type} (add : S -> world T -> addr -> result (S * world T * Z)) : Prop :=
  accepts s w p pb : w_pipes w !! p = Some pb -> exists s' d, add s w p = Ok (s', set_pipe w p (set_data d pb), 0).

(** A transport for the examples: messages with at most one byte of body are
    sent at once, larger ones asynchronously; incoming ones come from an
    inbox, an empty message standing for a missing one. *)
Record loop_net := LoopNet { ln_sent : list (addr * nn_msg); ln_rcvd : list (addr * nn_msg); ln_inbox : list nn_msg }.

(** The wire does not tell headers from bodies. *)
Definition unparsed (m : nn_msg) : nn_msg := Msg [] (hdrs m) (sphdr m ++ body m).

#[export] Instance loop_transport : Transport loop_net := {|
  tr_backlog n := length (ln_inbox n);
  vf_send w p m :=
    let w := set_net w (LoopNet (ln_sent (w_net w) ++ [(p, m)]) (ln_rcvd (w_net w)) (ln_inbox (w_net w))) in
    if bool_decide (length (body m) <= 1)%nat then w ← nn_pipebase_sent w p; Ok (w, 0) else Ok (w, 0);
  vf_recv w p :=
    let m := unparsed (hd (Msg [] [] []) (ln_inbox (w_net w))) in
    let w := set_net w (LoopNet (ln_sent (w_net w)) (ln_rcvd (w_net w) ++ [(p, m)]) (tail (ln_inbox (w_net w)))) in
    if bool_decide (ln_inbox (w_net w) <> []) then w ← nn_pipebase_received w p; Ok (w, 0, m)
    else Ok (w, 0, m)
|}.

#[export, program] Instance loop_transport_spec : TransportSpec loop_net := {|
  sent := ln_sent;
  rcvd := ln_rcvd
|}.
Next Obligation.
  intros w p m pb Hp Ha Ho. cbn.
  set (n := LoopNet (ln_sent (w_net w) ++ [(p, m)]) (ln_rcvd (w_net w)) (ln_inbox (w_net w))).
  assert (Hs : nn_pipebase_sent (set_net w n) p = Ok (set_pipe (set_net w n) p (set_out NN_PIPEBASE_OUTSTATE_SENT pb))).
  { unfold nn_pipebase_sent. cbn. rewrite Hp. mred. by decide_bools. }
  rewrite Hs. exists n. case_bool_decide; mred; eexists; repeat (split; [done|]); auto.
Qed.
Next Obligation.
  intros w p pb Hp Ha Ho. cbn.
  set (m := unparsed _). set (n := LoopNet (ln_sent (w_net w)) (ln_rcvd (w_net w) ++ [(p, m)]) _).
  assert (Hs : nn_pipebase_received (set_net w n) p = Ok (set_pipe (set_net w n) p (set_in NN_PIPEBASE_INSTATE_RECEIVED pb))).
  { unfold nn_pipebase_received. cbn. rewrite Hp. mred. by decide_bools. }
  rewrite Hs. exists n, 0, m.
  assert (Hle : (length (tail (ln_inbox (w_net w))) <= length (ln_inbox (w_net w)))%nat) by (destruct (ln_inbox _); cbn; lia).
  case_bool_decide as Hne; mred; eexists; (split; [done|]); (split; [by left|]); (split; [done|]); (split; [done|]);
    [right|by left]. split; [done|]. cbn in *. destruct (ln_inbox (w_net w)); [done|]. cbn. lia.
Qed.

(** Flow control.  From the moment a pipe is started, whatever the
    transport and the protocol do in whatever order - the protocol sending
    (receiving) only while it holds the pipe's OUT (IN) offer, that is after
    the event and until a call returns the RELEASE flag, the transport
    reporting completion only of what is pending - no assertion of the pipe
    fails, and the pipe's states always agree with what the protocol knows;
    in particular no event is ever raised twice. *)
Theorem nn_pipe_flow_control {T S} `{TransportSpec T} (s s1 : S) (w w1 : world T) (p : addr) (pb : nn_pipebase)
    (d : option addr) (add : S -> world T -> addr -> result (S * world T * Z)) (rc : Z) (os : list pipe_op) :
  w_pipes w !! p = Some pb -> pb_state pb = NN_PIPEBASE_STATE_IDLE ->
  add s (set_pipe w p (starting pb)) p = Ok (s1, w1, rc) -> 0 <= rc ->
  w_pipes w1 !! p = Some (set_data d (starting pb)) ->
  NoDup (w_events w1) -> (forall e, (p, e) ∉ w_events w1) ->
  exists w2, nn_pipebase_start add s w p = Ok (s1, w2, 0) /\
  exists w3 fi fo, drive_all w2 p FBusy FSignalled os = Ok (w3, fi, fo) /\ flow_rep w3 p fi fo.
Proof.
  intros Hp Hs Hadd Hrc Hp1 Hn He. eexists. split.
  - rewrite (nn_pipebase_start_ok add s s1 w p pb w1 _ rc Hp Hs Hadd Hp1 (He _)). by decide_bools.
  - apply drive_all_ok. constructor; cbn.
    + eexists. split; [exact Hp1|]. done.
    + rewrite elem_of_app, list_elem_of_singleton. pose proof (He NN_PIPE_IN). naive_solver.
    + rewrite elem_of_app, list_elem_of_singleton. split; [done|by right].
    + by apply nodup_snoc.
Qed.

Definition demo_options : nn_ep_options := EpOptions 8 8 1.
Definition demo_world : world loop_net :=
  World (LoopNet [] [] [Msg [] [] [1]; Msg [] [] [2]]) {[1%positive := nn_pipebase_init demo_options]} [] (fun _ => 0).
Definition demo_pipe_ops : list pipe_op :=
  [DEvent; DReceived; DSend (Msg [] [] [7]); DEvent; DRecv; DSend (Msg [] [] [7; 8]); DSend (Msg [] [] []); DSent;
   DRecv; DEvent; DReceived; DSend (Msg [] [] [9])].

Lemma nn_pipe_flow_control_witness :
  exists w2, nn_pipebase_start (fun s w p => w ← nn_pipe_setdata w p (Some p); Ok (s, w, 0)) tt demo_world 1%positive
    = Ok (tt, w2, 0) /\
  exists w3 fi fo, drive_all w2 1%positive FBusy FSignalled demo_pipe_ops = Ok (w3, fi, fo) /\ flow_rep w3 1%positive fi fo.
Proof.
  eapply (nn_pipe_flow_control tt tt demo_world _ 1%positive (nn_pipebase_init demo_options) (Some 1%positive) _ 0).
  - reflexivity.
  - reflexivity.
  - reflexivity.
  - lia.
  - reflexivity.
  - constructor.
  - intros e. cbn. set_solver.
Defined.
