(* ===== verification/Msgqueue.v ===== *)
(** * The message queue of an in-process connection ([transports/inproc/msgqueue.c])

    A chain of chunks of 126 messages each: messages are written at [out],
    read at [in]; a chunk that was read to its end becomes the cached one or is
    freed.  The chunks are in a heap; a slot that holds no message is absent
    from its chunk, so that a move leaves its source uninitialised as in C.
    Allocation always succeeds ([alloc_assert] aborts otherwise). *)

From Stdlib Require Import ZifyNat.
From S2P Require Import Prelude NNList Wire Pipe.
Local Open Scope Z_scope.

Definition NN_MSGQUEUE_GRANULARITY : nat := 126.

Record nn_msgqueue_chunk := QChunk { qc_msgs : gmap nat nn_msg; qc_next : option addr }.

(** A position: a chunk and an index in it. *)
Record qpos := QPos { qp_chunk : addr; qp_pos : nat }.

Record nn_msgqueue := Msgqueue {
  q_out : qpos;
  q_in : qpos;
  q_count : Z;
  q_mem : Z;
  q_maxmem : Z;
  q_cache : option addr
}.

Abbreviation qheap := (gmap positive nn_msgqueue_chunk).

Definition nn_alloc (h : qheap) : addr * qheap := let a := fresh (dom h) in (a, <[a := QChunk ∅ None]> h).
Definition nn_free (h : qheap) (a : addr) : result qheap := _ ← deref (h !! a); Ok (delete a h).

Definition nn_msgqueue_init (h : qheap) (maxmem : Z) : qheap * nn_msgqueue :=
  let '(chunk, h) := nn_alloc h in (h, Msgqueue (QPos chunk 0) (QPos chunk 0) 0 0 maxmem None).

Definition nn_msgqueue_empty (self : nn_msgqueue) : bool := bool_decide (q_count self = 0).

(** What a message counts for. *)
Definition msgsz (m : nn_msg) : Z := u64 (Z.of_nat (length (sphdr m)) + Z.of_nat (length (body m))).

(** [nn_msg_mv] into and out of a slot, whose index must be in the array. *)
Definition mv_in (h : qheap) (at_ : qpos) (m : nn_msg) : result qheap :=
  c ← deref (h !! qp_chunk at_);
  if bool_decide (qp_pos at_ < NN_MSGQUEUE_GRANULARITY)%nat
  then Ok (<[qp_chunk at_ := QChunk (<[qp_pos at_ := m]> (qc_msgs c)) (qc_next c)]> h) else Err BadAccess.
Definition mv_out (h : qheap) (at_ : qpos) : result (qheap * nn_msg) :=
  c ← deref (h !! qp_chunk at_);
  m ← deref (qc_msgs c !! qp_pos at_);
  Ok (<[qp_chunk at_ := QChunk (delete (qp_pos at_) (qc_msgs c)) (qc_next c)]> h, m).
Definition set_chunk_next (h : qheap) (a : addr) (next : option addr) : result qheap :=
  c ← deref (h !! a); Ok (<[a := QChunk (qc_msgs c) next]> h).

(** The cached chunk, or a new one. *)
Definition cached_chunk (h : qheap) (cache : option addr) : result (qheap * addr) :=
  match cache with
  | Some c => Ok (h, c)
  | None => let '(c, h) := nn_alloc h in h ← set_chunk_next h c None; Ok (h, c)
  end.

Definition nn_msgqueue_send (h : qheap) (self : nn_msgqueue) (msg : nn_msg) : result (qheap * nn_msgqueue * Z) :=
  let '(Msgqueue out inp count mem maxmem cache) := self in
  let msgsz := msgsz msg in
  if bool_decide (count > 0) && bool_decide (u64 (mem + msgsz) >= maxmem) then Ok (h, self, - EAGAIN)
  else
    let count := u64 (count + 1) in
    let mem := u64 (mem + msgsz) in
    h ← mv_in h out msg;
    let out := QPos (qp_chunk out) (S (qp_pos out)) in
    if bool_decide (qp_pos out = NN_MSGQUEUE_GRANULARITY) then
      '(h, c) ← cached_chunk h cache;
      h ← set_chunk_next h (qp_chunk out) (Some c);
      Ok (h, Msgqueue (QPos c 0) inp count mem maxmem None, 0)
    else Ok (h, Msgqueue out inp count mem maxmem cache, 0).

Definition nn_msgqueue_recv (h : qheap) (self : nn_msgqueue) : result (qheap * nn_msgqueue * Z * option nn_msg) :=
  let '(Msgqueue out inp count mem maxmem cache) := self in
  if bool_decide (count = 0) then Ok (h, self, - EAGAIN, None)
  else
    '(h, msg) ← mv_out h inp;
    let inp := QPos (qp_chunk inp) (S (qp_pos inp)) in
    '(h, inp, cache) ←
      (if bool_decide (qp_pos inp = NN_MSGQUEUE_GRANULARITY) then
         let o := qp_chunk inp in
         c ← deref (h !! o);
         next ← deref (qc_next c);
         match cache with
         | None => Ok (h, QPos next 0, Some o)
         | Some k => h ← nn_free h o; Ok (h, QPos next 0, Some k)
         end
       else Ok (h, inp, cache));
    Ok (h, Msgqueue out inp (u64 (count - 1)) (u64 (mem - msgsz msg)) maxmem cache, 0, Some msg).

(** The loop of [nn_msgqueue_term]; the messages it terminates. *)
Fixpoint term_loop (fuel : nat) (h : qheap) (self : nn_msgqueue) : result (qheap * nn_msgqueue * list nn_msg) :=
  match fuel with
  | O => Err NoFuel
  | S fuel =>
      '(h, self, rc, msg) ← nn_msgqueue_recv h self;
      if bool_decide (rc = - EAGAIN) then Ok (h, self, [])
      else
        _ ← assert_ (bool_decide (rc >= 0));
        m ← deref msg;
        '(h, self, ms) ← term_loop fuel h self;
        Ok (h, self, m :: ms)
  end.

Definition nn_msgqueue_term (h : qheap) (self : nn_msgqueue) : result (qheap * list nn_msg) :=
  '(h, self, ms) ← term_loop (S (Z.to_nat (q_count self))) h self;
  _ ← assert_ (bool_decide (qp_chunk (q_in self) = qp_chunk (q_out self)));
  h ← nn_free h (qp_chunk (q_in self));
  h ← match q_cache self with Some c => nn_free h c | None => Ok h end;
  Ok (h, ms).

(** ** Operations, and the abstract queue *)

Inductive queue_op := QSend (m : nn_msg) | QRecv.

Definition queue_step (o : queue_op) (h : qheap) (self : nn_msgqueue) : result (qheap * nn_msgqueue * (Z * option nn_msg)) :=
  match o with
  | QSend m => '(h, self, rc) ← nn_msgqueue_send h self m; Ok (h, self, (rc, None))
  | QRecv => '(h, self, rc, m) ← nn_msgqueue_recv h self; Ok (h, self, (rc, m))
  end.

Fixpoint queue_run (ops : list queue_op) (h : qheap) (self : nn_msgqueue) : result (qheap * nn_msgqueue * list (Z * option nn_msg)) :=
  match ops with
  | [] => Ok (h, self, [])
  | o :: ops =>
      '(h, self, out) ← queue_step o h self;
      '(h, self, outs) ← queue_run ops h self;
      Ok (h, self, out :: outs)
  end.

Fixpoint total (q : list nn_msg) : Z := match q with [] => 0 | m :: q => msgsz m + total q end.

(** The first message always fits, another one as long as the bytes stay
    below the limit. *)
Definition spec_queue (maxmem : Z) (o : queue_op) (q : list nn_msg) : list nn_msg * (Z * option nn_msg) :=
  match o with
  | QSend m => if bool_decide (q <> []) && bool_decide (total q + msgsz m >= maxmem) then (q, (- EAGAIN, None)) else (q ++ [m], (0, None))
  | QRecv => match q with [] => ([], (- EAGAIN, None)) | m :: q => (q, (0, Some m)) end
  end.

Fixpoint spec_queues (maxmem : Z) (ops : list queue_op) (q : list nn_msg) : list nn_msg * list (Z * option nn_msg) :=
  match ops with
  | [] => (q, [])
  | o :: ops => let '(q, out) := spec_queue maxmem o q in let '(q, outs) := spec_queues maxmem ops q in (q, out :: outs)
  end.

(** A message of less than 2^63 bytes. *)
Definition op_fits (o : queue_op) : Prop := match o with QSend m => msgsz m < 2 ^ 63 | QRecv => True end.

(** ** Representation *)

Local Abbreviation G := NN_MSGQUEUE_GRANULARITY.

(** The slots of a chain, numbered from the start of its first chunk. *)
Definition slot (h : qheap) (chain : list addr) (k : nat) : option nn_msg :=
  c ← chain !! (k / G)%nat; ch ← h !! c; qc_msgs ch !! (k mod G)%nat.

Definition next_of (h : qheap) (c : addr) : option addr := ch ← h !! c; qc_next ch.

Definition linked (h : qheap) (chain : list addr) : Prop :=
  forall i c c', chain !! i = Some c -> chain !! S i = Some c' -> next_of h c = Some c'.

Definition cached (cache : option addr) : list addr := match cache with Some c => [c] | None => [] end.

(** [chain] holds the messages [q] from [inp] to [out]; the chunks of the
    queue are fresh with respect to the heap [h0] before it was made. *)
Record chunks_rep (h0 h : qheap) (out inp : qpos) (cache : option addr) (chain : list addr) (q : list nn_msg) : Prop := {
  cr_nodup : NoDup (chain ++ cached cache);
  cr_in : chain !! 0%nat = Some (qp_chunk inp);
  cr_out : chain !! (length chain - 1)%nat = Some (qp_chunk out);
  cr_linked : linked h chain;
  cr_slots : forall i m, q !! i = Some m -> slot h chain (qp_pos inp + i) = Some m;
  cr_live : forall c, c ∈ chain ++ cached cache -> is_Some (h !! c);
  cr_fresh : forall c, c ∈ chain ++ cached cache -> h0 !! c = None;
  cr_frame : forall a, a ∉ chain ++ cached cache -> h !! a = h0 !! a;
  cr_inpos : (qp_pos inp <= G)%nat;
  cr_outpos : (qp_pos out <= G)%nat;
  cr_count : (qp_pos inp + length q = G * (length chain - 1) + qp_pos out)%nat;
}.

(** Arithmetic on slot numbers. *)
Ltac slots := unfold NN_MSGQUEUE_GRANULARITY in *; zify; Z.to_euclidean_division_equations; lia.

Lemma slot_ext h h' chain k : (forall c, c ∈ chain -> qc_msgs <$> h' !! c = qc_msgs <$> h !! c) -> slot h' chain k = slot h chain k.
Proof.
  intros E. unfold slot. destruct (chain !! (k / G)%nat) as [c|] eqn:Ec; [|done]. cbn.
  specialize (E c (list_elem_of_lookup_2 _ _ _ Ec)). destruct (h !! c), (h' !! c); cbn in *; congruence.
Qed.

Lemma slot_app h chain c k x : slot h chain k = Some x -> slot h (chain ++ [c]) k = Some x.
Proof.
  unfold slot. destruct (chain !! (k / G)%nat) as [c'|] eqn:Ec; [|done]. by rewrite (lookup_app_l_Some _ _ _ _ Ec).
Qed.

(** The slot at index [p] of chunk [j] of the chain. *)
Lemma slot_at h chain j p c ch : chain !! j = Some c -> h !! c = Some ch -> (p < G)%nat -> slot h chain (G * j + p) = qc_msgs ch !! p.
Proof.
  intros Ec Eh Hp. unfold slot. replace ((G * j + p) / G)%nat with j by (slots).
  replace ((G * j + p) mod G)%nat with p by (slots). rewrite Ec. cbn. by rewrite Eh.
Qed.

(** Changing the slots of one chunk, at one index. *)
Lemma slot_other h chain j p c ch ms nx k : NoDup chain -> chain !! j = Some c -> h !! c = Some ch -> (p < G)%nat ->
  (forall i, i <> p -> ms !! i = qc_msgs ch !! i) -> k <> (G * j + p)%nat ->
  slot (<[c := QChunk ms nx]> h) chain k = slot h chain k.
Proof.
  intros Hnd Ec Eh Hp Hms Hk. unfold slot. destruct (chain !! (k / G)%nat) as [c'|] eqn:Ec'; [|done]. cbn [mbind option_bind].
  destruct (decide (c' = c)) as [->|Hne]; [|by rewrite lookup_insert_ne].
  assert (j = k / G)%nat by (eapply NoDup_lookup; done). subst j. rewrite lookup_insert_eq, Eh. cbn [mbind option_bind qc_msgs]. apply Hms.
  slots.
Qed.

Lemma next_of_insert h c ms ch a : h !! c = Some ch -> next_of (<[c := QChunk ms (qc_next ch)]> h) a = next_of h a.
Proof.
  intros Eh. unfold next_of. destruct (decide (a = c)) as [->|]; [by rewrite lookup_insert_eq, Eh|by rewrite lookup_insert_ne].
Qed.

Lemma live_insert (h : qheap) c x a : is_Some (h !! a) -> is_Some (<[c := x]> h !! a).
Proof. intros. apply lookup_insert_is_Some'. by right. Qed.

(** Writing a message at [out]. *)
Lemma write_rep h0 h out inp cache chain q m : chunks_rep h0 h out inp cache chain q -> (qp_pos out < G)%nat ->
  exists h', mv_in h out m = Ok h' /\ chunks_rep h0 h' (QPos (qp_chunk out) (S (qp_pos out))) inp cache chain (q ++ [m]).
Proof.
  intros [Hnd Hin Hout Hlk Hsl Hlv Hfr Hfm Hip Hop Hct] Hpos. unfold mv_in.
  assert (Hmem : qp_chunk out ∈ chain ++ cached cache) by (apply elem_of_app; left; by eapply list_elem_of_lookup_2).
  destruct (Hlv _ Hmem) as [ch Ech]. rewrite Ech. cbn [mbind result_bind deref]. rewrite bool_decide_true by done.
  eexists. split; [done|]. apply NoDup_app in Hnd as Hnd'. destruct Hnd' as [Hndc _]. constructor; cbn [qp_chunk qp_pos]; try done.
  - intros i c c' H1 H2. rewrite next_of_insert by done. by eapply Hlk.
  - intros i x Hx. apply lookup_app_Some in Hx as [Hx|[Hi Hx]].
    + rewrite (slot_other _ _ _ _ _ _ _ _ _ Hndc Hout Ech Hpos); [by apply Hsl| |].
      * intros k Hk. by rewrite lookup_insert_ne.
      * apply lookup_lt_Some in Hx. lia.
    + apply list_lookup_singleton_Some in Hx as [Hi0 ->]. replace (qp_pos inp + i)%nat with (G * (length chain - 1) + qp_pos out)%nat by lia.
      erewrite slot_at; [|exact Hout|by apply lookup_insert_eq|done]. cbn. by rewrite lookup_insert_eq.
  - intros c Hc. by apply live_insert, Hlv.
  - intros a Ha. rewrite lookup_insert_ne by (intros <-; done). by apply Hfm.
  - rewrite length_app. cbn [length]. lia.
Qed.

(** Reading the first message. *)
Lemma read_rep h0 h out inp cache chain q m : chunks_rep h0 h out inp cache chain (m :: q) -> (qp_pos inp < G)%nat ->
  exists h', mv_out h inp = Ok (h', m) /\ chunks_rep h0 h' out (QPos (qp_chunk inp) (S (qp_pos inp))) cache chain q.
Proof.
  intros [Hnd Hin Hout Hlk Hsl Hlv Hfr Hfm Hip Hop Hct] Hpos. unfold mv_out.
  assert (Hmem : qp_chunk inp ∈ chain ++ cached cache) by (apply elem_of_app; left; by eapply list_elem_of_lookup_2).
  destruct (Hlv _ Hmem) as [ch Ech]. rewrite Ech. cbn [mbind result_bind deref].
  assert (Em : qc_msgs ch !! qp_pos inp = Some m).
  { rewrite <- (slot_at h chain 0 (qp_pos inp) _ _ Hin Ech Hpos). rewrite <- (Hsl 0%nat m eq_refl). f_equal. lia. }
  rewrite Em. cbn [mbind result_bind deref]. eexists. split; [done|]. apply NoDup_app in Hnd as Hnd'. destruct Hnd' as [Hndc _].
  constructor; cbn [qp_chunk qp_pos]; try done.
  - intros i c c' H1 H2. rewrite next_of_insert by done. by eapply Hlk.
  - intros i x Hx. rewrite (slot_other _ _ _ _ _ _ _ _ _ Hndc Hin Ech Hpos).
    + replace (S (qp_pos inp) + i)%nat with (qp_pos inp + S i)%nat by lia. by apply Hsl.
    + intros k Hk. by rewrite lookup_delete_ne.
    + lia.
  - intros c Hc. by apply live_insert, Hlv.
  - intros a Ha. rewrite lookup_insert_ne by (intros <-; done). by apply Hfm.
  - cbn [length] in Hct. lia.
Qed.

(** A new chunk in the cache. *)
Lemma cached_rep h0 h out inp cache chain q : chunks_rep h0 h out inp cache chain q ->
  exists c h', cached_chunk h cache = Ok (h', c) /\ chunks_rep h0 h' out inp (Some c) chain q.
Proof.
  destruct cache as [c|]; [by exists c, h|]. cbn [cached_chunk]. intros [Hnd Hin Hout Hlk Hsl Hlv Hfr Hfm Hip Hop Hct]. unfold nn_alloc, set_chunk_next.
  rewrite lookup_insert_eq. cbn [mbind result_bind deref]. rewrite insert_insert_eq. eexists _, _. split; [done|].
  set (c := fresh (dom h)). assert (Hc : h !! c = None) by apply not_elem_of_dom, is_fresh.
  assert (Hn : c ∉ chain ++ cached None). { intros Hc'. destruct (Hlv c Hc') as [? E]. congruence. }
  cbn [cached] in *. rewrite app_nil_r in *.
  constructor; cbn [cached]; try done.
  - apply NoDup_app. split; [done|]. split; [set_solver|]. apply NoDup_singleton.
  - intros i x y H1 H2. unfold next_of. rewrite lookup_insert_ne; [by eapply Hlk|]. intros <-. by apply Hn; eapply list_elem_of_lookup_2.
  - intros i x Hx. rewrite (slot_ext h); [by apply Hsl|]. intros y Hy. rewrite lookup_insert_ne; [done|]. intros <-. done.
  - intros y [Hy|Hy]%elem_of_app; [by apply live_insert, Hlv|]. apply list_elem_of_singleton in Hy as ->. by rewrite lookup_insert_eq.
  - intros y [Hy|Hy]%elem_of_app; [by apply Hfr|]. apply list_elem_of_singleton in Hy as ->. by rewrite <- Hfm.
  - intros a Ha. rewrite lookup_insert_ne by set_solver. apply Hfm. set_solver.
Qed.

(** The cached chunk is appended to the chain. *)
Lemma extend_rep h0 h out inp c chain q : chunks_rep h0 h out inp (Some c) chain q -> qp_pos out = G ->
  exists h', set_chunk_next h (qp_chunk out) (Some c) = Ok h' /\ chunks_rep h0 h' (QPos c 0) inp None (chain ++ [c]) q.
Proof.
  intros [Hnd Hin Hout Hlk Hsl Hlv Hfr Hfm Hip Hop Hct] Hpos. unfold set_chunk_next. cbn [cached] in *.
  assert (Ho : qp_chunk out ∈ chain) by (by eapply list_elem_of_lookup_2).
  destruct (Hlv (qp_chunk out)) as [ch Ech]; [set_solver|]. rewrite Ech. cbn [mbind result_bind deref]. eexists. split; [done|].
  assert (Hlen : (length chain <> 0)%nat) by (apply lookup_lt_Some in Hin; lia).
  apply NoDup_app in Hnd as Hnd'. destruct Hnd' as (Hndc & Hdis & _).
  constructor; cbn [cached qp_chunk qp_pos]; rewrite ?app_nil_r; try done.
  - by rewrite (lookup_app_l_Some _ _ _ _ Hin).
  - rewrite length_app. cbn [length]. rewrite lookup_app_r by lia. by replace (length chain + 1 - 1 - length chain)%nat with 0%nat by lia.
  - intros i x y H1 H2. unfold next_of. destruct (decide (i = length chain - 1)%nat) as [->|Hi].
    + rewrite lookup_app_l in H1 by lia. rewrite Hout in H1. injection H1 as <-. rewrite lookup_insert_eq. cbn.
      rewrite lookup_app_r in H2 by lia. replace (S (length chain - 1) - length chain)%nat with 0%nat in H2 by lia. by injection H2 as <-.
    + assert (HS : (S i < length chain)%nat). { apply lookup_lt_Some in H2. rewrite length_app in H2. cbn in H2. lia. }
      rewrite lookup_app_l in H1, H2 by lia. rewrite lookup_insert_ne; [by eapply Hlk|]. intros <-.
      apply Hi. by eapply (NoDup_lookup chain).
  - intros i x Hx. apply slot_app. rewrite (slot_ext h); [by apply Hsl|]. intros y Hy.
    destruct (decide (y = qp_chunk out)) as [->|]; [by rewrite lookup_insert_eq, Ech|by rewrite lookup_insert_ne].
  - intros y Hy. by apply live_insert, Hlv.
  - intros a Ha. rewrite lookup_insert_ne by set_solver. by apply Hfm.
  - lia.
  - rewrite length_app. cbn [length]. unfold NN_MSGQUEUE_GRANULARITY in *. lia.
Qed.

(** A chunk that was read is dropped from the chain: it goes to the cache, or
    is freed. *)
Lemma slot_tail h c chain k : slot h (c :: chain) (G + k) = slot h chain k.
Proof.
  unfold slot. replace ((G + k) / G)%nat with (S (k / G)) by slots. by replace ((G + k) mod G)%nat with (k mod G)%nat by slots.
Qed.

Lemma advance_rep h0 h out inp cache chain q : chunks_rep h0 h out inp cache chain q -> qp_pos inp = G -> (qp_pos out < G)%nat ->
  exists next h' cache' chain', next_of h (qp_chunk inp) = Some next /\
    match cache with
    | None => Ok (h, QPos next 0, Some (qp_chunk inp))
    | Some k => h ← nn_free h (qp_chunk inp); Ok (h, QPos next 0, Some k)
    end = Ok (h', QPos next 0, cache') /\
    chunks_rep h0 h' out (QPos next 0) cache' chain' q.
Proof.
  intros [Hnd Hin Hout Hlk Hsl Hlv Hfr Hfm Hip Hop Hct] Hpos Hopos.
  destruct chain as [|c [|c1 chain]]; [done| |].
  { exfalso. cbn [length] in Hct. unfold NN_MSGQUEUE_GRANULARITY in *. lia. }
  cbn in Hin. injection Hin as Hin. subst c. exists c1.
  assert (Hsl' : forall i m, q !! i = Some m -> slot h (c1 :: chain) (0 + i) = Some m).
  { intros i m Hm. rewrite <- (slot_tail h (qp_chunk inp)). rewrite <- Hpos. by apply Hsl. }
  assert (Hlk' : linked h (c1 :: chain)). { intros i x y H1 H2. by apply (Hlk (S i)). }
  assert (Hnext : next_of h (qp_chunk inp) = Some c1) by (by apply (Hlk 0%nat)).
  assert (Hout' : (c1 :: chain) !! (length (c1 :: chain) - 1)%nat = Some (qp_chunk out)).
  { cbn [length] in *. replace (S (length chain) - 1)%nat with (length chain) by lia. by replace (S (S (length chain)) - 1)%nat with (S (length chain)) in Hout by lia. }
  assert (Hct' : (0 + length q = G * (length (c1 :: chain) - 1) + qp_pos out)%nat).
  { cbn [length] in *. unfold NN_MSGQUEUE_GRANULARITY in *. lia. }
  destruct cache as [k|].
  - destruct (Hlv (qp_chunk inp)) as [ch Ech]; [set_solver|]. unfold nn_free. rewrite Ech. cbn [mbind result_bind deref].
    exists (delete (qp_chunk inp) h), (Some k), (c1 :: chain). split; [done|]. split; [done|].
    apply NoDup_cons in Hnd as [Hn Hnd]. fold ((c1 :: chain) ++ cached (Some k)) in *.
    constructor; cbn [qp_chunk qp_pos]; try done.
    + intros i x y H1 H2. unfold next_of. rewrite lookup_delete_ne; [by eapply Hlk'|]. intros <-. apply Hn, elem_of_app. left. by eapply list_elem_of_lookup_2.
    + intros i m Hm. rewrite (slot_ext h); [by apply Hsl'|]. intros y Hy. rewrite lookup_delete_ne; [done|]. intros <-. apply Hn, elem_of_app. by left.
    + intros y Hy. rewrite lookup_delete_ne by (intros <-; done). apply Hlv. by right.
    + intros y Hy. apply Hfr. by right.
    + intros a Ha. destruct (decide (a = qp_chunk inp)) as [->|Hne]; [rewrite lookup_delete_eq; symmetry; apply Hfr; by left|].
      rewrite lookup_delete_ne by done. apply Hfm. intros [->|Hx]%elem_of_cons; done.
    + lia.
  - exists h, (Some (qp_chunk inp)), (c1 :: chain). split; [done|]. split; [done|]. cbn [cached] in *. rewrite app_nil_r in *.
    apply NoDup_cons in Hnd as [Hn Hnd].
    constructor; cbn [qp_chunk qp_pos cached]; try done.
    + apply NoDup_app. split; [done|]. split; [|apply NoDup_singleton]. intros y Hy ->%list_elem_of_singleton. done.
    + intros y Hy. apply Hlv. set_solver.
    + intros y Hy. apply Hfr. set_solver.
    + intros a Ha. apply Hfm. set_solver.
    + lia.
Qed.

#[local] Arguments msgsz : simpl never.
#[local] Arguments Z.pow : simpl never.
#[local] Arguments wrap : simpl never.

(** The statistics, and the bound that keeps them from wrapping. *)
Record queue_rep (h0 h : qheap) (self : nn_msgqueue) (maxmem : Z) (q : list nn_msg) : Prop := {
  qr_chunks : exists chain, chunks_rep h0 h (q_out self) (q_in self) (q_cache self) chain q;
  qr_out : (qp_pos (q_out self) < G)%nat;
  qr_in : (qp_pos (q_in self) < G)%nat;
  qr_count : q_count self = Z.of_nat (length q);
  qr_mem : q_mem self = total q;
  qr_maxmem : q_maxmem self = maxmem;
  qr_limit : (length q <= 1)%nat \/ total q < maxmem;
  qr_sizes : Forall (fun m => msgsz m < 2 ^ 63) q;
}.

Lemma msgsz_nonneg m : 0 <= msgsz m.
Proof. apply wrap_range. lia. Qed.

Lemma total_app q1 q2 : total (q1 ++ q2) = total q1 + total q2.
Proof. induction q1; cbn; lia. Qed.

Lemma total_nonneg q : 0 <= total q.
Proof. induction q as [|m q IH]; cbn; [lia|]. pose proof (msgsz_nonneg m). lia. Qed.

Lemma queue_total_bound q maxmem : (length q <= 1)%nat \/ total q < maxmem -> Forall (fun m => msgsz m < 2 ^ 63) q -> maxmem <= 2 ^ 63 -> total q < 2 ^ 63.
Proof.
  intros [Hl|Hl] Hq Hm; [|lia]. destruct q as [|m [|]]; cbn in Hl |- *; [lia| |lia]. apply Forall_cons in Hq as [Hq _]. lia.
Qed.

Section Refinement.
  Context (h0 : qheap) (maxmem : Z) (Hmax : 0 <= maxmem <= 2 ^ 63).

Lemma nn_msgqueue_init_rep : let '(h, self) := nn_msgqueue_init h0 maxmem in queue_rep h0 h self maxmem [].
Proof.
  unfold nn_msgqueue_init, nn_alloc. set (c := fresh (dom h0)). assert (Hc : h0 !! c = None) by apply not_elem_of_dom, is_fresh.
  constructor; cbn; try done; try lia.
  - exists [c]. constructor; cbn; try done; try lia.
    + apply NoDup_singleton.
    + intros y ->%list_elem_of_singleton. by rewrite lookup_insert_eq.
    + intros y ->%list_elem_of_singleton. done.
    + intros a Ha. rewrite lookup_insert_ne; [done|]. intros <-. apply Ha. set_solver.
  - unfold NN_MSGQUEUE_GRANULARITY. lia.
  - unfold NN_MSGQUEUE_GRANULARITY. lia.
Qed.

Lemma send_refines h self q m : queue_rep h0 h self maxmem q -> msgsz m < 2 ^ 63 -> Z.of_nat (length q) < 2 ^ 63 ->
  exists h' self', nn_msgqueue_send h self m = Ok (h', self', fst (snd (spec_queue maxmem (QSend m) q)))
    /\ queue_rep h0 h' self' maxmem (fst (spec_queue maxmem (QSend m) q)).
Proof.
  destruct self as [out inp count mem mx cache]. intros [[chain Hr] Hout Hin Hcount Hmem Hmx Hlim Hsz] Hm Hlen. cbn in *. subst.
  pose proof (queue_total_bound q maxmem Hlim Hsz ltac:(lia)) as Htot. pose proof (total_nonneg q). pose proof (msgsz_nonneg m).
  rewrite (wrap_small 64 (total q + msgsz m)) by (unfold in_range; lia).
  replace (bool_decide (Z.of_nat (length q) > 0)) with (bool_decide (q <> [])).
  2: { apply bool_decide_ext. destruct q; cbn; split; (lia || done). }
  destruct (bool_decide (q <> []) && bool_decide (total q + msgsz m >= maxmem)) eqn:Efull; cbn [fst snd].
  { eexists _, _. split; [done|]. constructor; cbn; try done. by exists chain. }
  rewrite wrap_small by (unfold in_range; lia).
  assert (Hlim' : (length (q ++ [m]) <= 1)%nat \/ total (q ++ [m]) < maxmem).
  { rewrite total_app, length_app. cbn. apply andb_false_iff in Efull as [E|E]; apply bool_decide_eq_false in E; [left|right; lia].
    destruct q; [cbn; lia|by destruct E]. }
  destruct (write_rep _ _ _ _ _ _ _ m Hr Hout) as (h1 & -> & Hr1). cbn [mbind result_bind qp_pos qp_chunk].
  assert (Hsz' : Forall (fun m => msgsz m < 2 ^ 63) (q ++ [m])) by (apply Forall_app; split; [done|by constructor]).
  assert (Hc' : Z.of_nat (length q) + 1 = Z.of_nat (length (q ++ [m]))) by (rewrite length_app; cbn; lia).
  assert (Ht' : total q + msgsz m = total (q ++ [m])) by (rewrite total_app; cbn; lia).
  destruct (decide (S (qp_pos out) = G)) as [Epos|Epos]; [rewrite bool_decide_true by done|rewrite bool_decide_false by done; eexists _, _; split; [done|]; constructor; cbn; try done; [by exists chain|pose proof (cr_outpos _ _ _ _ _ _ _ Hr1); cbn in *; lia]].
  destruct (cached_rep _ _ _ _ _ _ _ Hr1) as (c & h2 & -> & Hr2). cbn [mbind result_bind]. destruct (extend_rep _ _ _ _ _ _ _ Hr2 Epos) as (h3 & E3 & Hr3).
  cbn [qp_chunk] in E3. rewrite E3. cbn [mbind result_bind]. eexists _, _. split; [done|]. constructor; cbn; try done.
  - by exists (chain ++ [c]).
  - unfold NN_MSGQUEUE_GRANULARITY. lia.
Qed.

Lemma recv_refines h self q : queue_rep h0 h self maxmem q ->  Z.of_nat (length q) < 2 ^ 63 ->
  exists h' self', nn_msgqueue_recv h self = Ok (h', self', fst (snd (spec_queue maxmem QRecv q)), snd (snd (spec_queue maxmem QRecv q)))
    /\ queue_rep h0 h' self' maxmem (fst (spec_queue maxmem QRecv q)).
Proof.
  destruct self as [out inp count mem mx cache]. intros Hq Hlen. pose proof Hq as [[chain Hr] Hout Hin Hcount Hmem Hmx Hlim Hsz]. cbn [q_out q_in q_count q_mem q_maxmem q_cache nn_msgqueue_recv spec_queue] in *. subst.
  destruct q as [|m q]; [by eexists _, _|]. cbn [length fst snd]. rewrite bool_decide_false by lia.
  destruct (read_rep _ _ _ _ _ _ _ _ Hr Hin) as (h1 & -> & Hr1). cbn [mbind result_bind qp_pos qp_chunk].
  pose proof (queue_total_bound (m :: q) maxmem Hlim Hsz ltac:(lia)) as Htot. pose proof (total_nonneg q). pose proof (msgsz_nonneg m). cbn [total length] in *.
  rewrite (wrap_small 64 (_ - 1)), (wrap_small 64 (_ - msgsz m)) by (unfold in_range; lia).
  apply Forall_cons in Hsz as [_ Hsz].
  assert (Hlim' : (length q <= 1)%nat \/ total q < maxmem) by (destruct Hlim as [Hl|Hl]; [left; lia|right; lia]).
  destruct (decide (S (qp_pos inp) = G)) as [Epos|Epos]; [rewrite bool_decide_true by done|rewrite bool_decide_false by done].
  - destruct (advance_rep _ _ _ _ _ _ _ Hr1 Epos Hout) as (next & h2 & cache' & chain' & En & E & Hr2). cbn [qp_chunk] in En, E.
    unfold next_of in En. destruct (h1 !! qp_chunk inp) as [ch|]; [|done]. cbn [mbind result_bind deref option_bind] in En |- *. rewrite En.
    cbn [mbind result_bind deref]. rewrite E. cbn [mbind result_bind]. eexists _, _. split; [done|]. constructor; cbn; try done; try lia.
    + by exists chain'.
  - cbn [mbind result_bind]. eexists _, _. split; [done|]. constructor; cbn; try done; try lia.
    + by exists chain.
Qed.

Lemma queue_step_refines o h self q : queue_rep h0 h self maxmem q -> op_fits o -> Z.of_nat (length q) < 2 ^ 63 ->
  exists h' self', queue_step o h self = Ok (h', self', snd (spec_queue maxmem o q)) /\ queue_rep h0 h' self' maxmem (fst (spec_queue maxmem o q)).
Proof.
  intros Hr Ho Hlen. destruct o as [m|].
  - destruct (send_refines h self q m Hr Ho Hlen) as (h' & self' & E & Hr'). exists h', self'. cbn [queue_step]. rewrite E.
    cbn [mbind result_bind]. split; [|done]. cbn [spec_queue]. by destruct (_ && _).
  - destruct (recv_refines h self q Hr Hlen) as (h' & self' & E & Hr'). exists h', self'. cbn [queue_step]. rewrite E.
    cbn [mbind result_bind]. split; [|done]. by destruct q.
Qed.

Lemma spec_queue_length o q : (length (fst (spec_queue maxmem o q)) <= S (length q))%nat.
Proof. destruct o; cbn [spec_queue]; [destruct (_ && _); cbn [fst]; rewrite ?length_app; cbn; lia|destruct q; cbn; lia]. Qed.

Lemma queue_run_refines ops : forall h self q, queue_rep h0 h self maxmem q -> Forall op_fits ops ->
  Z.of_nat (length q + length ops) < 2 ^ 63 ->
  exists h' self', queue_run ops h self = Ok (h', self', snd (spec_queues maxmem ops q)) /\ queue_rep h0 h' self' maxmem (fst (spec_queues maxmem ops q))
    /\ Z.of_nat (length (fst (spec_queues maxmem ops q))) < 2 ^ 63.
Proof.
  induction ops as [|o ops IH]; intros h self q Hr Hops Hlen; [exists h, self; cbn [length] in Hlen; repeat (split; [done|]); cbn; lia|].
  apply Forall_cons in Hops as [Ho Hops]. cbn [length] in Hlen.
  destruct (queue_step_refines o h self q Hr Ho ltac:(lia)) as (h1 & self1 & E1 & Hr1). pose proof (spec_queue_length o q) as Hl1.
  destruct (IH h1 self1 _ Hr1 Hops ltac:(lia)) as (h2 & self2 & E2 & Hr2 & Hl2). exists h2, self2. cbn [queue_run spec_queues].
  destruct (spec_queue maxmem o q) as [q1 out]. cbn [fst snd] in *. destruct (spec_queues maxmem ops q1) as [q2 outs]. cbn [fst snd] in *.
  rewrite E1. cbn [mbind result_bind]. rewrite E2. done.
Qed.

(** Termination empties the queue and frees every chunk. *)
Lemma term_loop_ok q : forall fuel h self, queue_rep h0 h self maxmem q -> Z.of_nat (length q) < 2 ^ 63 -> (length q < fuel)%nat ->
  exists h' self', term_loop fuel h self = Ok (h', self', q) /\ queue_rep h0 h' self' maxmem [].
Proof.
  induction q as [|m q IH]; intros fuel h self Hr Hlen Hf; (destruct fuel as [|fuel]; [lia|]); cbn [term_loop].
  - destruct (recv_refines h self [] Hr Hlen) as (h' & self' & -> & Hr'). cbn [mbind result_bind fst snd spec_queue]. by exists h', self'.
  - destruct (recv_refines h self _ Hr Hlen) as (h1 & self1 & -> & Hr1). cbn [mbind result_bind fst snd spec_queue].
    cbn [length] in *. destruct (IH fuel h1 self1 Hr1 ltac:(lia) ltac:(lia)) as (h2 & self2 & E & Hr2). exists h2, self2.
    rewrite bool_decide_false by done. cbn [assert_ mbind result_bind deref]. rewrite bool_decide_true by lia. cbn [mbind result_bind].
    by rewrite E.
Qed.

Lemma free_all h out inp cache chain : chunks_rep h0 h out inp cache chain [] -> (qp_pos inp < G)%nat ->
  qp_chunk inp = qp_chunk out /\
  (h ← nn_free h (qp_chunk inp); match cache with Some c => nn_free h c | None => Ok h end) = Ok h0.
Proof.
  intros [Hnd Hin Hout Hlk Hsl Hlv Hfr Hfm Hip Hop Hct] Hpos. destruct chain as [|c [|c1 chain]]; [done| |].
  2: { exfalso. cbn [length] in Hct. unfold NN_MSGQUEUE_GRANULARITY in *. lia. }
  cbn in Hin, Hout. injection Hin as Hin. injection Hout as Hout. rewrite Hin in Hout. split; [done|]. clear Hout. subst c. unfold nn_free.
  destruct (Hlv (qp_chunk inp)) as [ch Ech]; [set_solver|]. rewrite Ech. cbn [mbind result_bind deref].
  assert (Heq : forall T, (forall a, T !! a = if bool_decide (a ∈ [qp_chunk inp] ++ cached cache) then None else h !! a) -> Ok T = Ok h0).
  { intros T HT. f_equal. apply map_eq. intros a. rewrite HT. case_bool_decide; [symmetry; by apply Hfr|by apply Hfm]. }
  destruct cache as [c|]; cbn [cached app] in *.
  - apply NoDup_cons in Hnd as [Hn _]. destruct (Hlv c) as [ch' Ech']; [set_solver|].
    rewrite lookup_delete_ne, Ech' by set_solver. cbn [mbind result_bind deref]. apply Heq. intros a. case_bool_decide as Ha.
    + apply elem_of_cons in Ha as [->| ->%list_elem_of_singleton]; [|by rewrite lookup_delete_eq].
      destruct (decide (qp_chunk inp = c)) as [->|]; [by rewrite lookup_delete_eq|by rewrite lookup_delete_ne, lookup_delete_eq].
    + rewrite !lookup_delete_ne by set_solver. done.
  - apply Heq. intros a. case_bool_decide as Ha.
    + apply list_elem_of_singleton in Ha as ->. by rewrite lookup_delete_eq.
    + rewrite lookup_delete_ne by set_solver. done.
Qed.

Lemma term_ok h self q : queue_rep h0 h self maxmem q -> Z.of_nat (length q) < 2 ^ 63 -> nn_msgqueue_term h self = Ok (h0, q).
Proof.
  intros Hr Hlen. unfold nn_msgqueue_term.
  destruct (term_loop_ok q (S (Z.to_nat (q_count self))) h self Hr Hlen) as (h1 & self1 & -> & Hr1).
  { rewrite (qr_count _ _ _ _ _ Hr). lia. }
  cbn [mbind result_bind]. destruct (qr_chunks _ _ _ _ _ Hr1) as [chain Hc].
  destruct (free_all _ _ _ _ _ Hc (qr_in _ _ _ _ _ Hr1)) as [Eq E]. rewrite Eq, bool_decide_true by done. cbn [assert_ mbind result_bind].
  rewrite Eq in E. destruct (nn_free h1 (qp_chunk (q_out self1))) as [h2|]; [|done]. cbn [mbind result_bind] in E |- *. by rewrite E.
Qed.
End Refinement.

(** C27. A message queue behaves as a FIFO queue under any sequence of sends and
    receptions: messages come out once, in the order they went in; a message
    is refused exactly when the queue is not empty and the bytes in it would
    reach the limit; and termination releases the messages left and frees
    every chunk that was allocated, whatever else is in the heap. *)
Theorem nn_msgqueue_refines_fifo (h0 : qheap) (maxmem : Z) (ops : list queue_op) :
  0 <= maxmem <= 2 ^ 63 -> Forall op_fits ops -> Z.of_nat (length ops) < 2 ^ 63 ->
  exists h self, (let '(h, self) := nn_msgqueue_init h0 maxmem in queue_run ops h self) = Ok (h, self, snd (spec_queues maxmem ops [])) /\
    nn_msgqueue_empty self = bool_decide (fst (spec_queues maxmem ops []) = []) /\
    nn_msgqueue_term h self = Ok (h0, fst (spec_queues maxmem ops [])).
Proof.
  intros Hmax Hops Hlen. pose proof (nn_msgqueue_init_rep h0 maxmem Hmax) as Hr. destruct (nn_msgqueue_init h0 maxmem) as [h1 self1].
  destruct (queue_run_refines h0 maxmem Hmax ops h1 self1 [] Hr Hops Hlen) as (h & self & E & Hr' & Hlen').
  exists h, self. split; [done|]. split; [|by apply (term_ok h0 maxmem Hmax)].
  unfold nn_msgqueue_empty. rewrite (qr_count _ _ _ _ _ Hr'). apply bool_decide_ext. destruct (fst _); cbn; split; (lia || done).
Qed.

(** 139 messages of ten bytes: the queue crosses its first chunk; with a limit
    of 1000 bytes the hundredth in a row is refused. *)
Definition demo_msg (n : nat) : nn_msg := Msg [] [] (replicate n 0).

Lemma nn_msgqueue_refines_fifo_witness :
  exists h self outs, (let '(h, self) := nn_msgqueue_init ∅ 1000 in
     queue_run (replicate 101 (QSend (demo_msg 10)) ++ replicate 99 QRecv ++ replicate 40 (QSend (demo_msg 10)) ++ replicate 41 QRecv) h self)
       = Ok (h, self, outs) /\
    outs !! 99%nat = Some (- EAGAIN, None) /\ outs !! 280%nat = Some (- EAGAIN, None) /\ nn_msgqueue_term h self = Ok (∅, []).
Proof.
  destruct (nn_msgqueue_refines_fifo ∅ 1000
    (replicate 101 (QSend (demo_msg 10)) ++ replicate 99 QRecv ++ replicate 40 (QSend (demo_msg 10)) ++ replicate 41 QRecv)) as (h & self & E & _ & Et).
  - lia.
  - rewrite !Forall_app. repeat split; apply Forall_replicate; (exact I || (vm_compute; reflexivity)).
  - vm_compute. reflexivity.
  - eexists _, _, _. split; [exact E|]. split; [vm_compute; reflexivity|]. split; [vm_compute; reflexivity|].
    rewrite Et. vm_compute. reflexivity.
Defined.
