(* ===== verification/Sinproc.v ===== *)
(** * In-process connections ([transports/inproc/sinproc.c])

    A connection is two sessions, one on each side, that point to each other
    and pass messages through their queues.  A session tells its peer about a
    message with a SENT event; the peer moves the message to its queue and
    answers RECEIVED, or leaves it with the sender while the queue is full.
    The events are queued in the sender's context and processed when it is
    left; the model keeps, for each side, the events on their way to it in
    order.  Each session's queue owns its own part of the heap.

    [SideA] is the connecting side.  Its pipe has address 1, the other's 2. *)

From S2P Require Import Prelude NNList Wire Timer Pipe Msgqueue.
Local Open Scope Z_scope.

Definition pipe_of (x : side) : addr := match x with SideA => 1%positive | SideB => 2%positive end.
Definition side_of (p : addr) : result side :=
  if bool_decide (p = 1%positive) then Ok SideA else if bool_decide (p = 2%positive) then Ok SideB else Err BadAccess.

(** ** Data *)

Definition NN_SINPROC_CONNECT : Z := 1.
Definition NN_SINPROC_READY : Z := 2.
Definition NN_SINPROC_ACCEPTED : Z := 3.
Definition NN_SINPROC_SENT : Z := 4.
Definition NN_SINPROC_RECEIVED : Z := 5.
Definition NN_SINPROC_DISCONNECT : Z := 6.
Definition NN_SINPROC_STOPPED : Z := 7.
Definition NN_SINPROC_SRC_PEER : Z := 27713.
Definition NN_SINPROC_ACTION_READY : Z := 1.
Definition ECONNRESET : Z := 104.

Inductive sinproc_state :=
  | NN_SINPROC_STATE_IDLE | NN_SINPROC_STATE_CONNECTING | NN_SINPROC_STATE_READY | NN_SINPROC_STATE_ACTIVE
  | NN_SINPROC_STATE_DISCONNECTED | NN_SINPROC_STATE_STOPPING_PEER | NN_SINPROC_STATE_STOPPING.
#[export] Instance sinproc_state_eq_dec : EqDecision sinproc_state.
Proof. solve_decision. Defined.

(** [sp_sending], [sp_receiving]: the two flags; [sp_peer]: [peer] is set;
    [sp_told]: the events raised to the owner. *)
Record nn_sinproc := Sinproc {
  sp_fsm : fsm_state;
  sp_state : sinproc_state;
  sp_sending : bool;
  sp_receiving : bool;
  sp_peer : bool;
  sp_heap : qheap;
  sp_queue : nn_msgqueue;
  sp_msg : nn_msg;
  sp_told : list Z
}.

Definition sp_set_fsm v s := Sinproc v (sp_state s) (sp_sending s) (sp_receiving s) (sp_peer s) (sp_heap s) (sp_queue s) (sp_msg s) (sp_told s).
Definition sp_set_state v s := Sinproc (sp_fsm s) v (sp_sending s) (sp_receiving s) (sp_peer s) (sp_heap s) (sp_queue s) (sp_msg s) (sp_told s).
Definition sp_set_sending v s := Sinproc (sp_fsm s) (sp_state s) v (sp_receiving s) (sp_peer s) (sp_heap s) (sp_queue s) (sp_msg s) (sp_told s).
Definition sp_set_receiving v s := Sinproc (sp_fsm s) (sp_state s) (sp_sending s) v (sp_peer s) (sp_heap s) (sp_queue s) (sp_msg s) (sp_told s).
Definition sp_set_peer v s := Sinproc (sp_fsm s) (sp_state s) (sp_sending s) (sp_receiving s) v (sp_heap s) (sp_queue s) (sp_msg s) (sp_told s).
Definition sp_set_queue h v s := Sinproc (sp_fsm s) (sp_state s) (sp_sending s) (sp_receiving s) (sp_peer s) h v (sp_msg s) (sp_told s).
Definition sp_set_msg v s := Sinproc (sp_fsm s) (sp_state s) (sp_sending s) (sp_receiving s) (sp_peer s) (sp_heap s) (sp_queue s) v (sp_told s).
Definition sp_tell v s := Sinproc (sp_fsm s) (sp_state s) (sp_sending s) (sp_receiving s) (sp_peer s) (sp_heap s) (sp_queue s) (sp_msg s) (sp_told s ++ [v]).

(** Both sessions, and the events on their way to each of them. *)
Record inproc := Inproc { ip_sp : side -> nn_sinproc; ip_chan : side -> list Z }.

Abbreviation iworld := (world inproc).
Definition sp (w : iworld) (x : side) : nn_sinproc := ip_sp (w_net w) x.
Definition chan (w : iworld) (x : side) : list Z := ip_chan (w_net w) x.
Definition set_sp (w : iworld) (x : side) (s : nn_sinproc) : iworld := set_net w (Inproc (upd x s (ip_sp (w_net w))) (ip_chan (w_net w))).
Definition set_chan (w : iworld) (x : side) (es : list Z) : iworld := set_net w (Inproc (ip_sp (w_net w)) (upd x es (ip_chan (w_net w)))).

Definition empty_msg : nn_msg := Msg [] [] [].

(** [rcvbuf]: the option NN_RCVBUF of the socket. *)
Definition nn_sinproc_init (rcvbuf : Z) : nn_sinproc :=
  let '(h, q) := nn_msgqueue_init ∅ rcvbuf in Sinproc NN_FSM_STATE_IDLE NN_SINPROC_STATE_IDLE false false false h q empty_msg [].

(** The queue is terminated with the messages in it; the owner's events were
    processed. *)
Definition nn_sinproc_term (self : nn_sinproc) : result (qheap * list nn_msg) :=
  r ← nn_msgqueue_term (sp_heap self) (sp_queue self);
  _ ← assert_ (bool_decide (sp_fsm self = NN_FSM_STATE_IDLE));
  Ok r.

Definition nn_sinproc_isidle (self : nn_sinproc) : bool :=
  bool_decide (sp_fsm self = NN_FSM_STATE_IDLE) && bool_decide (NN_SINPROC_STOPPED ∉ sp_told self).

(** The event objects.  CONNECT, READY and ACCEPTED share [event_connect] of the
    side that raises them; SENT, RECEIVED and DISCONNECT have one each in the
    session they are raised to, and [event_disconnect] also carries a session's
    DISCONNECT to its owner.  [nn_fsm_event_active] of the object that carries
    [type] to side [x]: *)
Definition event_active (w : iworld) (x : side) (type : Z) : bool :=
  if bool_decide (type = NN_SINPROC_CONNECT \/ type = NN_SINPROC_READY \/ type = NN_SINPROC_ACCEPTED) then
    bool_decide (NN_SINPROC_CONNECT ∈ chan w x) || bool_decide (NN_SINPROC_READY ∈ chan w x) || bool_decide (NN_SINPROC_ACCEPTED ∈ chan w x)
  else bool_decide (type ∈ chan w x) || (bool_decide (type = NN_SINPROC_DISCONNECT) && bool_decide (NN_SINPROC_DISCONNECT ∈ sp_told (sp w x))).

(** [nn_fsm_raiseto] the session of side [x]: the event must not be queued
    already. *)
Definition nn_fsm_raiseto (w : iworld) (x : side) (type : Z) : result iworld :=
  _ ← assert_ (negb (event_active w x type));
  Ok (set_chan w x (chan w x ++ [type])).

(** The peer's session through [self->peer]. *)
Definition peer_sp (w : iworld) (x : side) : result nn_sinproc :=
  if sp_peer (sp w x) then Ok (sp w (other x)) else Err BadAccess.

(** ** The virtual functions of the pipe *)

(** The header and the body are copied into one new body. *)
Definition flat (msg : nn_msg) : nn_msg := Msg [] [] (sphdr msg ++ body msg).

Definition nn_sinproc_send (w : iworld) (x : side) (msg : nn_msg) : result (iworld * Z) :=
  let self := sp w x in
  if bool_decide (sp_state self = NN_SINPROC_STATE_DISCONNECTED) then Ok (w, - ECONNRESET)
  else
    _ ← assert_ (bool_decide (sp_state self = NN_SINPROC_STATE_ACTIVE));
    _ ← assert_ (negb (sp_sending self));
    let nmsg := flat msg in
    let w := set_sp w x (sp_set_sending true (sp_set_msg nmsg self)) in
    _ ← peer_sp w x;
    w ← nn_fsm_raiseto w (other x) NN_SINPROC_SENT;
    Ok (w, 0).

(** The message that lingers with the sender is moved to the queue if it fits
    now; [h] and [q] are the queue of [self] after the reception. *)
Definition refill (w : iworld) (x : side) (self : nn_sinproc) (h : qheap) (q : nn_msgqueue) : result iworld :=
  if negb (bool_decide (sp_state self = NN_SINPROC_STATE_DISCONNECTED)) && sp_receiving self then
    peer ← peer_sp w x;
    '(h, q, rc) ← nn_msgqueue_send h q (sp_msg peer);
    _ ← assert_ (bool_decide (rc = 0) || bool_decide (rc = - EAGAIN));
    let w := set_sp w x (sp_set_queue h q self) in
    if bool_decide (rc = 0) then
      let w := set_sp w (other x) (sp_set_msg empty_msg peer) in
      w ← nn_fsm_raiseto w (other x) NN_SINPROC_RECEIVED;
      Ok (set_sp w x (sp_set_receiving false (sp w x)))
    else Ok w
  else Ok w.

Definition nn_sinproc_recv (w : iworld) (x : side) : result (iworld * Z * nn_msg) :=
  let self := sp w x in
  _ ← assert_ (bool_decide (sp_state self = NN_SINPROC_STATE_ACTIVE) || bool_decide (sp_state self = NN_SINPROC_STATE_DISCONNECTED));
  '(h, q, rc, msg) ← nn_msgqueue_recv (sp_heap self) (sp_queue self);
  _ ← assert_ (bool_decide (rc = 0));
  msg ← deref msg;
  let w := set_sp w x (sp_set_queue h q self) in
  w ← refill w x self h q;
  w ← (if negb (nn_msgqueue_empty (sp_queue (sp w x))) then nn_pipebase_received w (pipe_of x) else Ok w);
  Ok (w, 0, msg).

(** A message that waits counts as one that may be received. *)
#[export] Instance inproc_transport : Transport inproc := {|
  tr_backlog n := Z.to_nat (q_count (sp_queue (ip_sp n SideA)) + q_count (sp_queue (ip_sp n SideB)));
  vf_send w p m := x ← side_of p; nn_sinproc_send w x m;
  vf_recv w p := x ← side_of p; nn_sinproc_recv w x
|}.

(** ** The state machine

    [nn_sock_add] and [nn_sock_rm] are the operations of the sockets, which
    the pipes are handed to. *)
Section Handler.
  Context {S : Type} (nn_sock_add : S -> iworld -> addr -> result (S * iworld * Z)) (nn_sock_rm : S -> iworld -> addr -> result (S * iworld)).

(** [nn_pipebase_start], and [errnum_assert (rc == 0, -rc)]. *)
Definition start_pipe (s : S) (w : iworld) (x : side) : result (S * iworld) :=
  '(s, w, rc) ← nn_pipebase_start nn_sock_add s w (pipe_of x);
  _ ← assert_ (bool_decide (rc = 0));
  Ok (s, w).

Definition goto (w : iworld) (x : side) (st : sinproc_state) : iworld := set_sp w x (sp_set_state st (sp w x)).

Definition nn_sinproc_handler (s : S) (w : iworld) (x : side) (src type : Z) : result (S * iworld) :=
  match sp_state (sp w x) with
  | NN_SINPROC_STATE_IDLE =>
      if bool_decide (src = NN_FSM_ACTION) && bool_decide (type = NN_FSM_START) then Ok (s, goto w x NN_SINPROC_STATE_CONNECTING)
      else Err AssertFailed
  | NN_SINPROC_STATE_CONNECTING =>
      if bool_decide (src = NN_FSM_ACTION) then
        if bool_decide (type = NN_SINPROC_ACTION_READY) then Ok (s, goto w x NN_SINPROC_STATE_READY) else Err AssertFailed
      else if bool_decide (src = NN_SINPROC_SRC_PEER) && bool_decide (type = NN_SINPROC_READY) then
        let w := set_sp w x (sp_set_peer true (sp w x)) in
        '(s, w) ← start_pipe s w x;
        w ← nn_fsm_raiseto (goto w x NN_SINPROC_STATE_ACTIVE) (other x) NN_SINPROC_ACCEPTED;
        Ok (s, w)
      else Err AssertFailed
  | NN_SINPROC_STATE_READY =>
      if bool_decide (src = NN_SINPROC_SRC_PEER) && (bool_decide (type = NN_SINPROC_READY) || bool_decide (type = NN_SINPROC_ACCEPTED)) then
        '(s, w) ← start_pipe s w x;
        Ok (s, goto w x NN_SINPROC_STATE_ACTIVE)
      else Err AssertFailed
  | NN_SINPROC_STATE_ACTIVE =>
      if negb (bool_decide (src = NN_SINPROC_SRC_PEER)) then Err AssertFailed
      else if bool_decide (type = NN_SINPROC_SENT) then
        let self := sp w x in
        let empty := nn_msgqueue_empty (sp_queue self) in
        peer ← peer_sp w x;
        '(h, q, rc) ← nn_msgqueue_send (sp_heap self) (sp_queue self) (sp_msg peer);
        let w := set_sp w x (sp_set_queue h q self) in
        if bool_decide (rc = - EAGAIN) then Ok (s, set_sp w x (sp_set_receiving true (sp w x)))
        else
          _ ← assert_ (bool_decide (rc = 0));
          let w := set_sp w (other x) (sp_set_msg empty_msg peer) in
          w ← (if empty then nn_pipebase_received w (pipe_of x) else Ok w);
          w ← nn_fsm_raiseto w (other x) NN_SINPROC_RECEIVED;
          Ok (s, w)
      else if bool_decide (type = NN_SINPROC_RECEIVED) then
        _ ← assert_ (sp_sending (sp w x));
        w ← nn_pipebase_sent w (pipe_of x);
        Ok (s, set_sp w x (sp_set_sending false (sp w x)))
      else if bool_decide (type = NN_SINPROC_DISCONNECT) then
        '(s, w) ← nn_pipebase_stop nn_sock_rm s w (pipe_of x);
        _ ← peer_sp w x;
        w ← nn_fsm_raiseto w (other x) NN_SINPROC_DISCONNECT;
        let self := sp_set_peer false (sp_set_state NN_SINPROC_STATE_DISCONNECTED (sp w x)) in
        _ ← assert_ (negb (event_active w x NN_SINPROC_DISCONNECT));
        Ok (s, set_sp w x (sp_tell NN_SINPROC_DISCONNECT self))
      else Err AssertFailed
  | NN_SINPROC_STATE_DISCONNECTED =>
      if bool_decide (src = NN_SINPROC_SRC_PEER) && bool_decide (type = NN_SINPROC_RECEIVED) then Ok (s, w) else Err AssertFailed
  | _ => Err AssertFailed
  end.

Definition nn_sinproc_shutdown_events (s : S) (w : iworld) (x : side) (src type : Z) : result (S * iworld) :=
  let self := sp w x in
  if bool_decide (src = NN_FSM_ACTION) && bool_decide (type = NN_FSM_STOP) then
    if negb (bool_decide (sp_state self = NN_SINPROC_STATE_IDLE)) && negb (bool_decide (sp_state self = NN_SINPROC_STATE_DISCONNECTED)) then
      '(s, w) ← nn_pipebase_stop nn_sock_rm s w (pipe_of x);
      _ ← assert_ (bool_decide (sp_fsm (sp w x) = NN_FSM_STATE_ACTIVE) || bool_decide (sp_fsm (sp w x) = NN_FSM_STATE_STOPPING));
      _ ← peer_sp w x;
      w ← nn_fsm_raiseto w (other x) NN_SINPROC_DISCONNECT;
      Ok (s, goto w x NN_SINPROC_STATE_STOPPING_PEER)
    else Ok (s, goto w x NN_SINPROC_STATE_STOPPING)
  else if (bool_decide (src = NN_FSM_ACTION) || bool_decide (src = NN_SINPROC_SRC_PEER)) && bool_decide (type = NN_SINPROC_RECEIVED) then Ok (s, w)
  else match sp_state self with
       | NN_SINPROC_STATE_STOPPING_PEER =>
           if bool_decide (src = NN_SINPROC_SRC_PEER) && bool_decide (type = NN_SINPROC_DISCONNECT)
           then Ok (s, goto w x NN_SINPROC_STATE_STOPPING) else Err AssertFailed
       | _ => Err AssertFailed
       end.

Definition nn_sinproc_shutdown (s : S) (w : iworld) (x : side) (src type : Z) : result (S * iworld) :=
  _ ← assert_ (bool_decide (sp_fsm (sp w x) = NN_FSM_STATE_STOPPING));
  '(s, w) ← nn_sinproc_shutdown_events s w x src type;
  if negb (bool_decide (sp_state (sp w x) = NN_SINPROC_STATE_STOPPING)) then Ok (s, w)
  else if event_active w x NN_SINPROC_RECEIVED || event_active w x NN_SINPROC_DISCONNECT then Ok (s, w)
  else
    _ ← assert_ (negb (event_active w (other x) NN_SINPROC_CONNECT));
    _ ← assert_ (negb (event_active w x NN_SINPROC_SENT));
    _ ← assert_ (bool_decide (sp_fsm (sp w x) = NN_FSM_STATE_STOPPING));
    Ok (s, set_sp w x (sp_set_fsm NN_FSM_STATE_IDLE (sp_tell NN_SINPROC_STOPPED (sp w x)))).

(** [nn_fsm_feed], [nn_fsm_start], [nn_fsm_stop] of the session's machine. *)
Definition sinproc_feed (s : S) (w : iworld) (x : side) (src type : Z) : result (S * iworld) :=
  if negb (bool_decide (sp_fsm (sp w x) = NN_FSM_STATE_STOPPING)) then nn_sinproc_handler s w x src type
  else nn_sinproc_shutdown s w x src type.

Definition sinproc_start (s : S) (w : iworld) (x : side) : result (S * iworld) :=
  _ ← assert_ (nn_sinproc_isidle (sp w x));
  '(s, w) ← nn_sinproc_handler s w x NN_FSM_ACTION NN_FSM_START;
  Ok (s, set_sp w x (sp_set_fsm NN_FSM_STATE_ACTIVE (sp w x))).

Definition nn_sinproc_connect (s : S) (w : iworld) (x : side) : result (S * iworld) :=
  '(s, w) ← sinproc_start s w x;
  w ← nn_fsm_raiseto w (other x) NN_SINPROC_CONNECT;
  Ok (s, w).

Definition nn_sinproc_accept (s : S) (w : iworld) (x : side) : result (S * iworld) :=
  _ ← assert_ (negb (sp_peer (sp w x)));
  let w := set_sp w x (sp_set_peer true (sp w x)) in
  w ← nn_fsm_raiseto w (other x) NN_SINPROC_READY;
  '(s, w) ← sinproc_start s w x;
  sinproc_feed s w x NN_FSM_ACTION NN_SINPROC_ACTION_READY.

Definition nn_sinproc_stop (s : S) (w : iworld) (x : side) : result (S * iworld) :=
  if negb (bool_decide (sp_fsm (sp w x) = NN_FSM_STATE_ACTIVE)) then Ok (s, w)
  else nn_sinproc_shutdown s (set_sp w x (sp_set_fsm NN_FSM_STATE_STOPPING (sp w x))) x NN_FSM_ACTION NN_FSM_STOP.

(** ** Steps of the two sockets

    The users send on a pipe that was reported writable and receive on one
    that was reported readable; a delivery processes the first event on its
    way to a side.  The bound endpoint accepts when it is told CONNECT.  Before
    its context is left a socket takes the events of its pipe. *)
Inductive ip_op := UConnect | USend (x : side) (m : nn_msg) | URecv (x : side) | Deliver (x : side) | UStop (x : side).

Definition pipe_is (w : iworld) (x : side) (f : nn_pipebase -> bool) : bool :=
  match w_pipes w !! pipe_of x with Some pb => f pb | None => false end.

Definition owner_told (s : nn_sinproc) := Sinproc (sp_fsm s) (sp_state s) (sp_sending s) (sp_receiving s) (sp_peer s) (sp_heap s) (sp_queue s) (sp_msg s) [].

(** The events in the queues of both contexts are processed. *)
Definition take_events (w : iworld) : iworld :=
  set_net (set_events w []) (Inproc (fun x => owner_told (sp w x)) (ip_chan (w_net w))).

(** What a step did: the message that was sent, or received. *)
Definition ip_step (o : ip_op) (s : S) (w : iworld) : result (S * iworld * option nn_msg) :=
  match o with
  | UConnect => '(s, w) ← nn_sinproc_connect s w SideA; Ok (s, take_events w, None)
  | USend x m =>
      if pipe_is w x (fun pb => bool_decide (pb_outstate pb = NN_PIPEBASE_OUTSTATE_IDLE)) then
        '(w, _) ← nn_pipe_send w (pipe_of x) m; Ok (s, take_events w, Some (flat m))
      else Ok (s, w, None)
  | URecv x =>
      if pipe_is w x (fun pb => bool_decide (pb_instate pb = NN_PIPEBASE_INSTATE_IDLE)) then
        '(w, _, m) ← nn_pipe_recv w (pipe_of x); Ok (s, take_events w, Some m)
      else Ok (s, w, None)
  | Deliver x =>
      match chan w x with
      | [] => Ok (s, w, None)
      | type :: es =>
          let w := set_chan w x es in
          '(s, w) ← (if bool_decide (type = NN_SINPROC_CONNECT) then nn_sinproc_accept s w x
                     else sinproc_feed s w x NN_SINPROC_SRC_PEER type);
          Ok (s, take_events w, None)
      end
  | UStop x => '(s, w) ← nn_sinproc_stop s w x; Ok (s, take_events w, None)
  end.

Fixpoint ip_run (os : list ip_op) (s : S) (w : iworld) : result (S * iworld * list (option nn_msg)) :=
  match os with
  | [] => Ok (s, w, [])
  | o :: os => '(s, w, m) ← ip_step o s w; '(s, w, ms) ← ip_run os s w; Ok (s, w, m :: ms)
  end.
End Handler.

(** ** The two directions of an established connection

    What concerns the messages from [x] to its peer. *)
Record dview := DView {
  dv_sending : bool;     (** [x]: SENT was raised and RECEIVED has not come back *)
  dv_receiving : bool;   (** the peer: its queue was full *)
  dv_sent : bool;        (** SENT is on its way *)
  dv_acked : bool;       (** RECEIVED is on its way back *)
  dv_msg : nn_msg;
  dv_heap : qheap;
  dv_queue : nn_msgqueue;
  dv_out : option pipe_outstate;
  dv_in : option pipe_instate
}.

Definition view (w : iworld) (x : side) : dview :=
  DView (sp_sending (sp w x)) (sp_receiving (sp w (other x)))
    (bool_decide (NN_SINPROC_SENT ∈ chan w (other x))) (bool_decide (NN_SINPROC_RECEIVED ∈ chan w x))
    (sp_msg (sp w x)) (sp_heap (sp w (other x))) (sp_queue (sp w (other x)))
    (pb_outstate <$> w_pipes w !! pipe_of x) (pb_instate <$> w_pipes w !! pipe_of (other x)).

(** Where the message that was not yet moved to the queue is. *)
Inductive transit := TNone | TSent (m : nn_msg) | TLinger (m : nn_msg) | TAcked.

Definition in_transit (t : transit) : list nn_msg := match t with TSent m | TLinger m => [m] | _ => [] end.

Definition transit_ok (t : transit) (q : list nn_msg) (v : dview) : Prop :=
  match t with
  | TNone => dv_sending v = false /\ dv_receiving v = false /\ dv_sent v = false /\ dv_acked v = false
      /\ dv_out v = Some NN_PIPEBASE_OUTSTATE_IDLE
  | TSent m => dv_sending v = true /\ dv_receiving v = false /\ dv_sent v = true /\ dv_acked v = false
      /\ dv_out v = Some NN_PIPEBASE_OUTSTATE_ASYNC /\ dv_msg v = m
  | TLinger m => dv_sending v = true /\ dv_receiving v = true /\ dv_sent v = false /\ dv_acked v = false
      /\ dv_out v = Some NN_PIPEBASE_OUTSTATE_ASYNC /\ dv_msg v = m /\ q <> []
  | TAcked => dv_sending v = true /\ dv_receiving v = false /\ dv_sent v = false /\ dv_acked v = true
      /\ dv_out v = Some NN_PIPEBASE_OUTSTATE_ASYNC
  end.

(** [snt]: what [x] sent, [rcv]: what its peer received. *)
Record dir_rep (maxmem : Z) (v : dview) (snt rcv : list nn_msg) (q : list nn_msg) (t : transit) : Prop := {
  dr_queue : queue_rep ∅ (dv_heap v) (dv_queue v) maxmem q;
  dr_in : dv_in v = Some (match q with [] => NN_PIPEBASE_INSTATE_ASYNC | _ => NN_PIPEBASE_INSTATE_IDLE end);
  dr_transit : transit_ok t q v;
  dr_messages : snt = rcv ++ q ++ in_transit t;
  dr_sizes : Forall (fun m => msgsz m < 2 ^ 63) (in_transit t);
}.

(** Both ends are connected. *)
Record end_rep (w : iworld) (x : side) : Prop := {
  er_fsm : sp_fsm (sp w x) = NN_FSM_STATE_ACTIVE;
  er_state : sp_state (sp w x) = NN_SINPROC_STATE_ACTIVE;
  er_peer : sp_peer (sp w x) = true;
  er_pipe : exists pb, w_pipes w !! pipe_of x = Some pb;
  er_nodup : NoDup (chan w x);
  er_chan : Forall (fun e => e = NN_SINPROC_SENT \/ e = NN_SINPROC_RECEIVED) (chan w x);
}.

Record conn_rep (rcvbuf : side -> Z) (w : iworld) (snt rcv : side -> list nn_msg) : Prop := {
  cn_ends : forall x, end_rep w x;
  cn_dirs : forall x, exists q t, dir_rep (rcvbuf (other x)) (view w x) (snt x) (rcv (other x)) q t;
  cn_events : w_events w = [];
}.

(** ** Lemmas *)

Lemma pipe_of_ne x : pipe_of (other x) <> pipe_of x.
Proof. by destruct x. Qed.
Lemma side_of_pipe x : side_of (pipe_of x) = Ok x.
Proof. by destruct x. Qed.

(** The fields of an updated session. *)
Ltac fields :=
  cbn [sp_fsm sp_state sp_sending sp_receiving sp_peer sp_heap sp_queue sp_msg sp_told owner_told
       sp_set_fsm sp_set_state sp_set_sending sp_set_receiving sp_set_peer sp_set_queue sp_set_msg sp_tell
       pb_state pb_instate pb_outstate pb_data pb_options set_in set_out set_state] in *.

(** Looking up both sides after updates. *)
Ltac sides :=
  unfold take_events, goto, set_sp, set_chan, sp, chan in *;
  cbn [w_net w_pipes w_events set_net set_pipe set_events ip_sp ip_chan] in *; fields;
  repeat first
    [ rewrite upd_eq | rewrite upd_ne by (apply other_ne || (apply not_eq_sym; apply other_ne)) | rewrite other_other
    | rewrite lookup_insert_eq | rewrite lookup_insert_ne by (apply pipe_of_ne || (apply not_eq_sym; apply pipe_of_ne)) ]; fields.

Lemma dir_view maxmem v v' snt rcv q t : dir_rep maxmem v snt rcv q t -> v' = v -> dir_rep maxmem v' snt rcv q t.
Proof. by intros ? ->. Qed.

Lemma member_snoc (a b : Z) l : a <> b -> bool_decide (a ∈ l ++ [b]) = bool_decide (a ∈ l).
Proof. intros. apply bool_decide_ext. set_solver. Qed.

(** The events of an established connection. *)
Definition data_event (type : Z) : bool := bool_decide (type = NN_SINPROC_SENT) || bool_decide (type = NN_SINPROC_RECEIVED).

Lemma raiseto_ok w x type : data_event type = true -> type ∉ chan w x -> nn_fsm_raiseto w x type = Ok (set_chan w x (chan w x ++ [type])).
Proof.
  intros Ht H. unfold nn_fsm_raiseto, event_active, data_event in *. rewrite orb_true_iff, !bool_decide_eq_true in Ht.
  rewrite (bool_decide_false (_ \/ _)), (bool_decide_false (type ∈ _)), (bool_decide_false (type = _)) by (done || (destruct Ht; subst; naive_solver)). done.
Qed.

Lemma raiseto_first w x type : chan w x = [] -> sp_told (sp w x) = [] -> nn_fsm_raiseto w x type = Ok (set_chan w x [type]).
Proof.
  intros Hc Ht. unfold nn_fsm_raiseto, event_active. rewrite Hc, Ht. rewrite !(bool_decide_false (_ ∈ [])) by apply not_elem_of_nil.
  rewrite andb_false_r. by destruct (bool_decide _).
Qed.

Section Steps.
  Context (rcvbuf : side -> Z) (Hbuf : forall x, 0 <= rcvbuf x <= 2 ^ 63).
  Implicit Types (w : iworld) (snt rcv : side -> list nn_msg).

(** A user's send. *)
Lemma send_step w snt rcv x m : conn_rep rcvbuf w snt rcv -> dv_out (view w x) = Some NN_PIPEBASE_OUTSTATE_IDLE -> msgsz (flat m) < 2 ^ 63 ->
  exists w' rc, nn_pipe_send w (pipe_of x) m = Ok (w', rc) /\ conn_rep rcvbuf (take_events w') (upd x (snt x ++ [flat m]) snt) rcv.
Proof.
  intros [Hends Hdirs Hev] Ho Hm. destruct (Hdirs x) as (q & t & [Hq Hin Ht Hmsgs Hsz]).
  assert (t = TNone) as ->. { destruct t as [|m'|m'|]; destruct Ht as (?&?&?&?&?); destruct_and?; congruence. }
  destruct Ht as (Hs & Hr & Hse & Ha & _). cbn [view dv_sending dv_receiving dv_sent dv_acked dv_out dv_in] in *.
  destruct (Hends x) as [Hf Hst Hp [pb Hpb] Hnd Hch]. destruct (Hends (other x)) as [Hf' Hst' Hp' [pb' Hpb'] Hnd' Hch'].
  rewrite Hpb in Ho. cbn in Ho. injection Ho as Ho. apply bool_decide_eq_false in Hse, Ha.
  unfold nn_pipe_send. rewrite Hpb. cbn [mbind result_bind deref]. rewrite Ho. rewrite bool_decide_true by done. cbn [assert_ mbind result_bind].
  cbn [vf_send inproc_transport]. rewrite side_of_pipe. cbn [mbind result_bind]. unfold nn_sinproc_send, peer_sp.
  sides. rewrite Hst, Hs. sides. rewrite Hp. rewrite (bool_decide_false (NN_SINPROC_STATE_ACTIVE = _)) by done.
  rewrite (bool_decide_true (NN_SINPROC_STATE_ACTIVE = _)) by done. cbn [negb assert_ mbind result_bind].
  rewrite raiseto_ok by (sides; done). sides. cbn [mbind result_bind].
  rewrite bool_decide_true by done. cbn [assert_ mbind result_bind]. sides. cbn [mbind result_bind deref]. fields.
  rewrite bool_decide_false by done. rewrite bool_decide_true by done. cbn [assert_ mbind result_bind].
  eexists _, _. split; [done|]. constructor; [apply (both_sides _ x)|apply (both_sides _ x)|sides; done].
  - constructor; sides; try done; eauto.
  - constructor; sides; try done; eauto.
    + apply NoDup_app. split; [done|]. split; [set_solver|]. apply NoDup_singleton.
    + apply Forall_app. split; [done|]. constructor; [by left|done].
  - exists q, (TSent (flat m)). constructor; unfold view; sides; try done.
    + cbn [transit_ok dv_sending dv_receiving dv_sent dv_acked dv_out dv_msg]. rewrite bool_decide_true by set_solver.
      rewrite bool_decide_false by done. cbn. done.
    + cbn [in_transit]. rewrite Hmsgs. cbn [in_transit]. by rewrite app_nil_r, <- app_assoc.
    + by constructor.
  - destruct (Hdirs (other x)) as (q' & t' & Hd). exists q', t'. rewrite upd_ne by apply other_ne.
    eapply dir_view; [exact Hd|]. unfold view. sides. rewrite Hpb, Hpb'. cbn. by rewrite member_snoc by done.
Qed.

(** RECEIVED comes back. *)
Lemma acked_step {S} (add : S -> iworld -> addr -> result (S * iworld * Z)) rm (s : S) w snt rcv x es :
  conn_rep rcvbuf w snt rcv -> chan w x = NN_SINPROC_RECEIVED :: es ->
  exists w', sinproc_feed add rm s (set_chan w x es) x NN_SINPROC_SRC_PEER NN_SINPROC_RECEIVED = Ok (s, w') /\
    conn_rep rcvbuf (take_events w') snt rcv.
Proof.
  intros [Hends Hdirs Hev] Hch0. destruct (Hdirs x) as (q & t & [Hq Hin Ht Hmsgs Hsz]).
  assert (t = TAcked) as ->.
  { assert (Ha : dv_acked (view w x) = true) by (cbn [view dv_acked]; rewrite Hch0; apply bool_decide_true; set_solver).
    destruct t as [|m'|m'|]; destruct Ht as (?&?&?&?&?); destruct_and?; congruence. }
  destruct Ht as (Hs & Hr & Hse & Ha & Ho). cbn [view dv_sending dv_receiving dv_sent dv_acked dv_out dv_in] in *.
  destruct (Hends x) as [Hf Hst Hp [pb Hpb] Hnd Hch]. destruct (Hends (other x)) as [Hf' Hst' Hp' [pb' Hpb'] Hnd' Hch'].
  rewrite Hpb in Ho. cbn in Ho. injection Ho as Ho. apply bool_decide_eq_false in Hse.
  rewrite Hch0 in Hnd, Hch. apply NoDup_cons in Hnd as [Hn Hnd]. apply Forall_cons in Hch as [_ Hch].
  unfold sinproc_feed, nn_sinproc_handler. sides. rewrite Hf, Hst. decide_bools. cbn [negb]. rewrite Hs. cbn [assert_ mbind result_bind].
  unfold nn_pipebase_sent. sides. rewrite Hpb. cbn [mbind result_bind deref]. rewrite Ho. decide_bools. cbn [assert_ mbind result_bind].
  rewrite nn_pipe_raise_ok by (sides; rewrite Hev; apply not_elem_of_nil). cbn [mbind result_bind].
  eexists. split; [done|]. constructor; [apply (both_sides _ x)|apply (both_sides _ x)|sides; done].
  - constructor; sides; try done; eauto.
  - constructor; sides; try done; eauto.
  - exists q, TNone. constructor; unfold view; sides; try done. cbn [transit_ok dv_sending dv_receiving dv_sent dv_acked dv_out dv_msg].
    by rewrite !bool_decide_false by done.
  - destruct (Hdirs (other x)) as (q' & t' & Hd). exists q', t'.
    eapply dir_view; [exact Hd|]. unfold view. sides. rewrite Hpb, Hpb'. cbn. f_equal. rewrite Hch0. apply bool_decide_ext. set_solver.
Qed.

(** The queue accepts a message, or is left as it is. *)
Lemma enqueue_ok maxmem h self q m : 0 <= maxmem <= 2 ^ 63 -> queue_rep ∅ h self maxmem q -> msgsz m < 2 ^ 63 -> Z.of_nat (length q) < 2 ^ 63 ->
  exists h' self' rc q', nn_msgqueue_send h self m = Ok (h', self', rc) /\ queue_rep ∅ h' self' maxmem q' /\
    (rc = - EAGAIN /\ q' = q /\ q <> [] \/ rc = 0 /\ q' = q ++ [m]).
Proof.
  intros Hm Hq Hsz Hlen. destruct (send_refines ∅ maxmem Hm h self q m Hq Hsz Hlen) as (h' & self' & E & Hq').
  cbn [spec_queue] in *. destruct (bool_decide (q <> []) && _) eqn:Ef; cbn [fst snd] in *; eexists _, _, _, _; (split; [exact E|]); (split; [exact Hq'|]).
  - left. repeat (split; [done|]). apply andb_true_iff in Ef as [Ef _]. by apply bool_decide_eq_true in Ef.
  - by right.
Qed.

(** SENT reaches the peer. *)
Lemma sent_step {S} (add : S -> iworld -> addr -> result (S * iworld * Z)) rm (s : S) w snt rcv x es :
  conn_rep rcvbuf w snt rcv -> chan w (other x) = NN_SINPROC_SENT :: es -> Z.of_nat (length (snt x)) < 2 ^ 63 ->
  exists w', sinproc_feed add rm s (set_chan w (other x) es) (other x) NN_SINPROC_SRC_PEER NN_SINPROC_SENT = Ok (s, w') /\
    conn_rep rcvbuf (take_events w') snt rcv.
Proof.
  intros [Hends Hdirs Hev] Hch0 Hlen. destruct (Hdirs x) as (q & t & [Hq Hin Ht Hmsgs Hsz]).
  assert (exists m, t = TSent m) as [m ->].
  { assert (Ha : dv_sent (view w x) = true) by (cbn [view dv_sent]; rewrite Hch0; apply bool_decide_true; set_solver).
    destruct t as [|m'|m'|]; [|by eauto| |]; destruct Ht as (?&?&?&?&?); destruct_and?; try congruence; eauto. }
  destruct Ht as (Hs & Hr & Hse & Ha & Ho & Hmsg). apply Forall_cons in Hsz as [Hsz _].
  cbn [view dv_sending dv_receiving dv_sent dv_acked dv_out dv_in dv_msg dv_heap dv_queue in_transit] in *.
  destruct (Hends x) as [Hf Hst Hp [pb Hpb] Hnd Hch]. destruct (Hends (other x)) as [Hf' Hst' Hp' [pb' Hpb'] Hnd' Hch'].
  rewrite Hpb in Ho. cbn in Ho. injection Ho as Ho. apply bool_decide_eq_false in Ha.
  rewrite Hch0 in Hnd', Hch'. apply NoDup_cons in Hnd' as [Hn' Hnd']. apply Forall_cons in Hch' as [_ Hch'].
  rewrite Hmsgs, !length_app in Hlen.
  destruct (enqueue_ok _ _ _ q m (Hbuf (other x)) Hq Hsz ltac:(lia)) as (h' & self' & rc & q' & E & Hq' & Hrc).
  unfold sinproc_feed, nn_sinproc_handler, peer_sp. sides. rewrite Hf', Hst'. decide_bools. cbn [negb]. rewrite Hp'. cbn [mbind result_bind].
  rewrite Hmsg, E. cbn [mbind result_bind]. rewrite Hpb' in Hin. cbn in Hin. injection Hin as Hin.
  destruct Hrc as [(-> & -> & Hne)|(-> & ->)].
  - (* the queue is full *)
    rewrite bool_decide_true by done. eexists. split; [done|]. constructor; [apply (both_sides _ x)|apply (both_sides _ x)|sides; done].
    + constructor; sides; try done; eauto.
    + constructor; sides; try done; eauto.
    + exists q, (TLinger m). constructor; unfold view; sides; try done.
      * by rewrite Hpb', <- Hin.
      * cbn [transit_ok dv_sending dv_receiving dv_sent dv_acked dv_out dv_msg]. rewrite Hpb. cbn. rewrite Ho.
        by rewrite !bool_decide_false by done.
      * by constructor.
    + destruct (Hdirs (other x)) as (q1 & t1 & Hd). exists q1, t1.
      eapply dir_view; [exact Hd|]. unfold view. sides. rewrite Hpb, Hpb'. cbn. f_equal. rewrite Hch0. apply bool_decide_ext. set_solver.
  - (* it is moved to the queue *)
    rewrite bool_decide_false by done. rewrite bool_decide_true by done. cbn [assert_ mbind result_bind].
    assert (Eempty : nn_msgqueue_empty (sp_queue (ip_sp (w_net w) (other x))) = bool_decide (q = [])).
    { unfold nn_msgqueue_empty. rewrite (qr_count _ _ _ _ _ Hq). apply bool_decide_ext. destruct q; cbn; split; (lia || done). }
    rewrite Eempty.
    assert (Erecv : exists pb2 ev2, (if bool_decide (q = []) then
         nn_pipebase_received (set_sp (set_sp (set_chan w (other x) es) (other x) (sp_set_queue h' self' (sp w (other x)))) x (sp_set_msg empty_msg (sp w x))) (pipe_of (other x))
       else Ok (set_sp (set_sp (set_chan w (other x) es) (other x) (sp_set_queue h' self' (sp w (other x)))) x (sp_set_msg empty_msg (sp w x))))
       = Ok (World (Inproc (upd x (sp_set_msg empty_msg (sp w x)) (upd (other x) (sp_set_queue h' self' (sp w (other x))) (ip_sp (w_net w)))) (upd (other x) es (ip_chan (w_net w))))
            (<[pipe_of (other x) := pb2]> (w_pipes w)) ev2 (w_stats w)) /\ pb_instate pb2 = NN_PIPEBASE_INSTATE_IDLE /\ pb_outstate pb2 = pb_outstate pb').
    { case_bool_decide as Eq.
      - subst q. unfold nn_pipebase_received. sides. rewrite Hpb'. cbn [mbind result_bind deref]. rewrite Hin. decide_bools.
        cbn [assert_ mbind result_bind]. rewrite nn_pipe_raise_ok by (sides; rewrite Hev; apply not_elem_of_nil). by eexists _, _.
      - exists pb', (w_events w). rewrite insert_id by done. split; [done|]. by destruct q. }
    destruct Erecv as (pb2 & ev2 & Er & Hin2 & Ho2). sides. rewrite Er. cbn [mbind result_bind].
    rewrite raiseto_ok by (sides; done). cbn [mbind result_bind]. sides.
    eexists. split; [done|]. constructor; [apply (both_sides _ x)|apply (both_sides _ x)|sides; done].
    + constructor; sides; try done; eauto.
      * apply NoDup_app. split; [done|]. split; [set_solver|]. apply NoDup_singleton.
      * apply Forall_app. split; [done|]. constructor; [by right|done].
    + constructor; sides; try done; eauto.
    + exists (q ++ [m]), TAcked. constructor; unfold view; sides; try done.
      * cbn. rewrite Hin2. by destruct q.
      * cbn [transit_ok dv_sending dv_receiving dv_sent dv_acked dv_out dv_msg]. rewrite Hpb. cbn. rewrite Ho.
        rewrite bool_decide_false by done. rewrite bool_decide_true by set_solver. done.
      * by rewrite app_nil_r.
    + destruct (Hdirs (other x)) as (q1 & t1 & Hd). exists q1, t1.
      eapply dir_view; [exact Hd|]. unfold view. sides. rewrite Hpb, Hpb'. cbn. rewrite Ho2. rewrite member_snoc by done.
      f_equal. rewrite Hch0. apply bool_decide_ext. set_solver.
Qed.

(** A state in the middle of a reception by [x]'s peer: its pipe is in the
    state RECEIVING. *)
Record mid_rep w (x : side) (sntx rcvy : list nn_msg) (pb2 : nn_pipebase) (q : list nn_msg) (t : transit) : Prop := {
  md_ends : forall z, end_rep w z;
  md_events : w_events w = [];
  md_pipe : w_pipes w !! pipe_of (other x) = Some pb2;
  md_in : pb_instate pb2 = NN_PIPEBASE_INSTATE_RECEIVING;
  md_queue : queue_rep ∅ (sp_heap (sp w (other x))) (sp_queue (sp w (other x))) (rcvbuf (other x)) q;
  md_transit : transit_ok t q (view w x);
  md_messages : sntx = rcvy ++ q ++ in_transit t;
  md_sizes : Forall (fun m => msgsz m < 2 ^ 63) (in_transit t);
}.

(** The end of a reception: the pipe learns whether there is more to read. *)
Lemma recv_tail w snt rcv x m pb2 q t : mid_rep w x (snt x) (rcv (other x) ++ [m]) pb2 q t ->
  (exists q' t', dir_rep (rcvbuf x) (view w (other x)) (snt (other x)) (rcv x) q' t') ->
  exists w' rc,
    (w ← (if negb (nn_msgqueue_empty (sp_queue (sp w (other x)))) then nn_pipebase_received w (pipe_of (other x)) else Ok w);
     pb ← deref (w_pipes w !! pipe_of (other x));
     if bool_decide (pb_instate pb = NN_PIPEBASE_INSTATE_RECEIVED) then
       Ok (set_pipe w (pipe_of (other x)) (set_in NN_PIPEBASE_INSTATE_IDLE pb), 0, m)
     else
       _ ← assert_ (bool_decide (pb_instate pb = NN_PIPEBASE_INSTATE_RECEIVING));
       Ok (set_pipe w (pipe_of (other x)) (set_in NN_PIPEBASE_INSTATE_ASYNC pb), Z.lor 0 NN_PIPE_RELEASE, m)) = Ok (w', rc, m) /\
    conn_rep rcvbuf (take_events w') snt (upd (other x) (rcv (other x) ++ [m]) rcv).
Proof.
  intros [Hends Hev Hpb' Hin Hq Ht Hmsgs Hsz] Hdir.
  assert (Eempty : nn_msgqueue_empty (sp_queue (sp w (other x))) = bool_decide (q = [])).
  { unfold nn_msgqueue_empty. rewrite (qr_count _ _ _ _ _ Hq). apply bool_decide_ext. destruct q; cbn; split; (lia || done). }
  rewrite Eempty.
  assert (E : exists w' rc, (w ← (if negb (bool_decide (q = [])) then nn_pipebase_received w (pipe_of (other x)) else Ok w);
     pb ← deref (w_pipes w !! pipe_of (other x));
     if bool_decide (pb_instate pb = NN_PIPEBASE_INSTATE_RECEIVED) then
       Ok (set_pipe w (pipe_of (other x)) (set_in NN_PIPEBASE_INSTATE_IDLE pb), 0, m)
     else
       _ ← assert_ (bool_decide (pb_instate pb = NN_PIPEBASE_INSTATE_RECEIVING));
       Ok (set_pipe w (pipe_of (other x)) (set_in NN_PIPEBASE_INSTATE_ASYNC pb), Z.lor 0 NN_PIPE_RELEASE, m)) = Ok (w', rc, m) /\
     w' = set_pipe w (pipe_of (other x)) (set_in (match q with [] => NN_PIPEBASE_INSTATE_ASYNC | _ => NN_PIPEBASE_INSTATE_IDLE end) pb2)).
  { unfold nn_pipebase_received. rewrite Hpb'. destruct q as [|m1 q]; cbn [bool_decide negb mbind result_bind deref].
    - rewrite bool_decide_true by done. cbn [negb mbind result_bind]. rewrite Hpb'. cbn [mbind result_bind deref]. rewrite Hin. decide_bools.
      cbn [assert_ mbind result_bind]. by eexists _, _.
    - rewrite bool_decide_false by done. cbn [negb]. rewrite Hin. decide_bools. cbn [mbind result_bind].
      sides. cbn [mbind result_bind deref]. fields. decide_bools. eexists _, _. split; [done|]. unfold set_pipe. cbn. by rewrite insert_insert_eq. }
  destruct E as (w' & rc & -> & ->). eexists _, _. split; [done|].
  destruct (Hends x) as [Hf Hst Hp [pb Hpb] Hnd Hch]. destruct (Hends (other x)) as [Hf' Hst' Hp' _ Hnd' Hch'].
  constructor; [apply (both_sides _ x)|apply (both_sides _ x)|sides; done].
  - constructor; sides; try done; eauto.
  - constructor; sides; try done; eauto.
  - exists q, t. constructor; unfold view; sides; try done.
  - destruct Hdir as (q1 & t1 & Hd). exists q1, t1. rewrite other_other, upd_ne by (apply not_eq_sym, other_ne).
    eapply dir_view; [exact Hd|]. unfold view. sides. rewrite Hpb, Hpb'. done.
Qed.

(** A user's reception. *)
Lemma recv_step w snt rcv x : conn_rep rcvbuf w snt rcv -> dv_in (view w x) = Some NN_PIPEBASE_INSTATE_IDLE -> Z.of_nat (length (snt x)) < 2 ^ 63 ->
  exists w' rc m, nn_pipe_recv w (pipe_of (other x)) = Ok (w', rc, m) /\
    conn_rep rcvbuf (take_events w') snt (upd (other x) (rcv (other x) ++ [m]) rcv).
Proof.
  intros [Hends Hdirs Hev] Hidle Hlen. destruct (Hdirs x) as (q & t & [Hq Hin Ht Hmsgs Hsz]). rewrite Hidle in Hin.
  destruct q as [|m q]; [done|]. clear Hin. pose proof Hlen as Hlen'. rewrite Hmsgs, !length_app in Hlen'. cbn [length] in Hlen'.
  destruct (recv_refines ∅ (rcvbuf (other x)) (Hbuf (other x)) _ _ (m :: q) Hq) as (h1 & self1 & E1 & Hq1); [cbn [length]; lia|].
  cbn [spec_queue fst snd] in E1, Hq1.
  destruct (Hends x) as [Hf Hst Hp [pb Hpb] Hnd Hch]. destruct (Hends (other x)) as [Hf' Hst' Hp' [pb' Hpb'] Hnd' Hch'].
  pose proof Hidle as Hidle'. cbn [view dv_in] in Hidle'. rewrite Hpb' in Hidle'. cbn in Hidle'. injection Hidle' as Hidle'.
  set (w1 := set_sp (set_pipe w (pipe_of (other x)) (set_in NN_PIPEBASE_INSTATE_RECEIVING pb')) (other x) (sp_set_queue h1 self1 (sp w (other x)))).
  assert (Emid : exists w2 q2 t2, refill w1 (other x) (sp w (other x)) h1 self1 = Ok w2 /\
      mid_rep w2 x (snt x) (rcv (other x) ++ [m]) (set_in NN_PIPEBASE_INSTATE_RECEIVING pb') q2 t2 /\ view w2 (other x) = view w (other x)).
  { cbn [view dv_heap dv_queue] in Hq1. unfold refill, w1. rewrite Hst'. rewrite (bool_decide_false (NN_SINPROC_STATE_ACTIVE = _)) by done. cbn [negb andb].
    destruct (sp_receiving (sp w (other x))) eqn:Hrcv.
    - assert (exists m1, t = TLinger m1) as [m1 ->].
      { destruct t as [|m1|m1|]; [| |by eauto|]; destruct Ht as (?&?&?&?&?); cbn [view dv_receiving] in *; congruence. }
      destruct Ht as (Hs & Hr & Hse & Ha & Ho & Hmsg & Hne). apply Forall_cons in Hsz as [Hsz _].
      cbn [view dv_sending dv_receiving dv_sent dv_acked dv_out dv_in dv_msg dv_heap dv_queue in_transit] in *.
      apply bool_decide_eq_false in Ha, Hse. rewrite Hpb in Ho. cbn in Ho. injection Ho as Ho.
      destruct (enqueue_ok _ _ _ q m1 (Hbuf (other x)) Hq1 Hsz ltac:(lia)) as (h' & self' & rc & q' & E & Hq' & Hrc).
      unfold peer_sp. sides. rewrite Hp'. cbn [mbind result_bind]. rewrite Hmsg, E. cbn [mbind result_bind].
      destruct Hrc as [(-> & -> & Hne')|(-> & ->)].
      + rewrite (bool_decide_false (- EAGAIN = 0)), bool_decide_true by done. cbn [orb assert_ mbind result_bind].
        eexists _, q, (TLinger m1). split; [done|]. split.
        * constructor; [apply (both_sides _ x)|..]; try (sides; done).
          -- constructor; sides; try done; eauto.
          -- constructor; sides; try done; eauto.
          -- unfold view. sides. cbn [transit_ok dv_sending dv_receiving dv_sent dv_acked dv_out dv_msg]. rewrite Hpb. cbn. rewrite Ho.
             rewrite !bool_decide_false by done. repeat (split; [done|]). done.
          -- rewrite Hmsgs. by rewrite <- app_assoc.
          -- by constructor.
        * unfold view. sides. by rewrite Hpb'.
      + rewrite bool_decide_true by done. cbn [orb assert_ mbind result_bind]. sides. rewrite raiseto_ok by (sides; done). cbn [mbind result_bind].
        eexists _, (q ++ [m1]), TAcked. split; [done|]. split.
        * constructor; [apply (both_sides _ x)|..]; try (sides; done).
          -- constructor; sides; try done; eauto.
             ++ apply NoDup_app. split; [done|]. split; [set_solver|]. apply NoDup_singleton.
             ++ apply Forall_app. split; [done|]. constructor; [by right|done].
          -- constructor; sides; try done; eauto.
          -- unfold view. sides. cbn [transit_ok dv_sending dv_receiving dv_sent dv_acked dv_out dv_msg]. rewrite Hpb. cbn. rewrite Ho.
             rewrite bool_decide_false by done. rewrite bool_decide_true by set_solver. done.
          -- rewrite Hmsgs. cbn [in_transit]. by rewrite app_nil_r, <- app_assoc.
        * unfold view. sides. rewrite Hpb'. cbn. by rewrite member_snoc.
    - assert (Hsame : t = TNone \/ (exists m1, t = TSent m1) \/ t = TAcked).
      { destruct t as [|m1|m1|]; [auto|eauto| |auto]. destruct Ht as (?&?&?). cbn [view dv_receiving] in *. congruence. }
      eexists _, q, t. split; [done|]. split.
      + constructor; [apply (both_sides _ x)|..]; try (sides; done).
        * constructor; sides; try done; eauto.
        * constructor; sides; try done; eauto.
        * assert (Ev : view (set_sp (set_pipe w (pipe_of (other x)) (set_in NN_PIPEBASE_INSTATE_RECEIVING pb')) (other x) (sp_set_queue h1 self1 (sp w (other x)))) x
              = DView (dv_sending (view w x)) (dv_receiving (view w x)) (dv_sent (view w x)) (dv_acked (view w x)) (dv_msg (view w x)) h1 self1 (dv_out (view w x)) (Some NN_PIPEBASE_INSTATE_RECEIVING)).
          { unfold view. sides. done. }
          rewrite Ev. destruct Hsame as [->|[[m1 ->]| ->]]; exact Ht.
        * rewrite Hmsgs. by rewrite <- app_assoc.
      + unfold view. sides. by rewrite Hpb'. }
  destruct Emid as (w2 & q2 & t2 & E2 & Hmid & Hview).
  destruct (recv_tail w2 snt rcv x m _ q2 t2 Hmid) as (w' & rc & E & Hconn).
  { destruct (Hdirs (other x)) as (q' & t' & Hd). rewrite other_other in Hd. exists q', t'. by rewrite Hview. }
  exists w', rc, m. split; [|exact Hconn].
  unfold nn_pipe_recv. rewrite Hpb'. cbn [mbind result_bind deref]. rewrite Hidle'. rewrite bool_decide_true by done. cbn [assert_ mbind result_bind].
  cbn [vf_recv inproc_transport]. rewrite side_of_pipe. cbn [mbind result_bind]. unfold nn_sinproc_recv.
  cbn [view dv_heap dv_queue] in E1.
  change (sp (set_pipe w (pipe_of (other x)) (set_in NN_PIPEBASE_INSTATE_RECEIVING pb')) (other x)) with (sp w (other x)).
  rewrite E1, Hst'. rewrite (bool_decide_true (NN_SINPROC_STATE_ACTIVE = _)) by done. cbn [orb mbind result_bind assert_ deref].
  rewrite bool_decide_true by done. cbn [mbind result_bind assert_ deref]. fold w1. rewrite E2. cbn [mbind result_bind].
  revert E. destruct (negb (nn_msgqueue_empty (sp_queue (sp w2 (other x))))).
  - destruct (nn_pipebase_received w2 (pipe_of (other x))) as [w3|]; [|done]. cbn [mbind result_bind]. rewrite bool_decide_true by done. done.
  - cbn [mbind result_bind]. rewrite bool_decide_true by done. done.
Qed.

Lemma conn_ext w snt snt' rcv rcv' : conn_rep rcvbuf w snt rcv -> (forall x, snt' x = snt x) -> (forall x, rcv' x = rcv x) -> conn_rep rcvbuf w snt' rcv'.
Proof.
  intros [H1 H2 H3] Es Er. constructor; [done| |done]. intros x. destruct (H2 x) as (q & t & Hd). exists q, t. by rewrite Es, Er.
Qed.

(** Steps on an established connection. *)
Definition data_op (o : ip_op) : Prop := match o with USend _ m => msgsz (flat m) < 2 ^ 63 | URecv _ | Deliver _ => True | _ => False end.

Definition sent_in (x : side) (o : ip_op) (out : option nn_msg) : list nn_msg :=
  match o, out with USend y _, Some m => if decide (y = x) then [m] else [] | _, _ => [] end.
Definition rcvd_in (x : side) (o : ip_op) (out : option nn_msg) : list nn_msg :=
  match o, out with URecv y, Some m => if decide (y = x) then [m] else [] | _, _ => [] end.

Lemma data_step {S} (add : S -> iworld -> addr -> result (S * iworld * Z)) rm o (s : S) w snt rcv :
  conn_rep rcvbuf w snt rcv -> data_op o -> (forall x, Z.of_nat (length (snt x)) < 2 ^ 63) ->
  exists w' out, ip_step add rm o s w = Ok (s, w', out) /\
    conn_rep rcvbuf w' (fun x => snt x ++ sent_in x o out) (fun x => rcv x ++ rcvd_in x o out).
Proof.
  intros Hc Ho Hlen.
  assert (Hnop : forall o, (forall x, sent_in x o None = []) -> (forall x, rcvd_in x o None = []) ->
    conn_rep rcvbuf w (fun x => snt x ++ sent_in x o None) (fun x => rcv x ++ rcvd_in x o None)).
  { intros o' E1 E2. eapply conn_ext; [exact Hc| |]; intros x; [rewrite E1|rewrite E2]; apply app_nil_r. }
  destruct o as [|x m|x|x|x]; try done; cbn [ip_step].
  - unfold pipe_is. destruct (er_pipe _ _ (cn_ends _ _ _ _ Hc x)) as [pb Hpb]. rewrite Hpb. case_bool_decide as Hout.
    + destruct (send_step w snt rcv x m Hc) as (w' & rc & -> & Hc'); [cbn; by rewrite Hpb, <- Hout|done|]. cbn [mbind result_bind].
      eexists _, _. split; [done|]. eapply conn_ext; [exact Hc'| |]; intros y; cbn [sent_in rcvd_in]; [|by rewrite app_nil_r].
      unfold upd. destruct (decide (x = y)) as [->|]; [by rewrite bool_decide_true|by rewrite bool_decide_false, app_nil_r by congruence].
    + eexists _, _. split; [done|]. by apply Hnop.
  - unfold pipe_is. destruct (er_pipe _ _ (cn_ends _ _ _ _ Hc x)) as [pb Hpb]. rewrite Hpb. case_bool_decide as Hin.
    + rewrite <- (other_other x) in Hpb |- *. destruct (recv_step w snt rcv (other x) Hc) as (w' & rc & m & -> & Hc'); [cbn; by rewrite Hpb, <- Hin|apply Hlen|].
      cbn [mbind result_bind]. eexists _, _. split; [done|]. rewrite other_other in Hc' |- *. eapply conn_ext; [exact Hc'| |]; intros y; cbn [sent_in rcvd_in]; [by rewrite app_nil_r|].
      unfold upd. destruct (decide (x = y)) as [->|]; [by rewrite bool_decide_true|by rewrite bool_decide_false, app_nil_r by congruence].
    + eexists _, _. split; [done|]. by apply Hnop.
  - destruct (chan w x) as [|type es] eqn:Ech; [eexists _, _; split; [done|]; by apply Hnop|].
    pose proof (er_chan _ _ (cn_ends _ _ _ _ Hc x)) as Hch. rewrite Ech in Hch. apply Forall_cons in Hch as [Hty _].
    assert (E : exists w', sinproc_feed add rm s (set_chan w x es) x NN_SINPROC_SRC_PEER type = Ok (s, w') /\ conn_rep rcvbuf (take_events w') snt rcv).
    { destruct Hty as [->| ->]; [|by apply acked_step].
      rewrite <- (other_other x). apply sent_step; [done|by rewrite other_other|apply Hlen]. }
    destruct E as (w' & E & Hc'). rewrite bool_decide_false by (destruct Hty; subst; done). rewrite E. cbn [mbind result_bind].
    eexists _, _. split; [done|]. eapply conn_ext; [exact Hc'| |]; intros y; apply app_nil_r.
Qed.

Fixpoint sends (x : side) (os : list ip_op) (outs : list (option nn_msg)) : list nn_msg :=
  match os, outs with o :: os, out :: outs => sent_in x o out ++ sends x os outs | _, _ => [] end.
Fixpoint receipts (x : side) (os : list ip_op) (outs : list (option nn_msg)) : list nn_msg :=
  match os, outs with o :: os, out :: outs => rcvd_in x o out ++ receipts x os outs | _, _ => [] end.

Lemma sent_in_length x o out : (length (sent_in x o out) <= 1)%nat.
Proof. destruct o, out; cbn; try destruct (decide _); cbn; lia. Qed.

Lemma data_run {S} (add : S -> iworld -> addr -> result (S * iworld * Z)) rm os : forall (s : S) w snt rcv,
  conn_rep rcvbuf w snt rcv -> Forall data_op os -> (forall x, Z.of_nat (length (snt x) + length os) < 2 ^ 63) ->
  exists w' outs, ip_run add rm os s w = Ok (s, w', outs) /\
    conn_rep rcvbuf w' (fun x => snt x ++ sends x os outs) (fun x => rcv x ++ receipts x os outs).
Proof.
  induction os as [|o os IH]; intros s w snt rcv Hc Hos Hlen.
  - eexists _, _. split; [done|]. eapply conn_ext; [exact Hc| |]; intros x; apply app_nil_r.
  - apply Forall_cons in Hos as [Ho Hos]. cbn [length] in Hlen.
    destruct (data_step add rm o s w snt rcv Hc Ho) as (w1 & out & E1 & Hc1); [intros x; specialize (Hlen x); lia|].
    destruct (IH s w1 _ _ Hc1 Hos) as (w2 & outs & E2 & Hc2).
    { intros x. rewrite length_app. pose proof (sent_in_length x o out). specialize (Hlen x). lia. }
    exists w2, (out :: outs). cbn [ip_run]. rewrite E1. cbn [mbind result_bind]. rewrite E2. split; [done|].
    eapply conn_ext; [exact Hc2| |]; intros x; cbn [sends receipts]; apply app_assoc.
Qed.

(** Nothing is on its way and the peer has nothing to read: all was received
    and the sender may send again. *)
Lemma quiet_direction w snt rcv x : conn_rep rcvbuf w snt rcv -> (forall y, chan w y = []) ->
  pipe_is w (other x) (fun pb => bool_decide (pb_instate pb = NN_PIPEBASE_INSTATE_IDLE)) = false ->
  snt x = rcv (other x) /\ pipe_is w x (fun pb => bool_decide (pb_outstate pb = NN_PIPEBASE_OUTSTATE_IDLE)) = true.
Proof.
  intros Hc Hch Hin. destruct (cn_dirs _ _ _ _ Hc x) as (q & t & [Hq Hi Ht Hm _]). unfold pipe_is in *.
  destruct (er_pipe _ _ (cn_ends _ _ _ _ Hc (other x))) as [pb' Hpb']. destruct (er_pipe _ _ (cn_ends _ _ _ _ Hc x)) as [pb Hpb].
  rewrite Hpb' in Hin. rewrite Hpb. unfold view in *. rewrite !Hch, Hpb in *. rewrite Hpb' in Hi. cbn in Hi, Ht.
  apply bool_decide_eq_false in Hin. injection Hi as Hi. destruct q as [|m q]; [|done].
  destruct t as [|m|m|]; destruct Ht as (H1 & H2 & H3 & H4 & H5); try done; cbn [dv_sent dv_acked dv_out] in *.
  - split; [by rewrite Hm, app_nil_r|]. apply bool_decide_true. by injection H5.
  - by destruct H5 as (_ & _ & []).
Qed.
End Steps.

Lemma ip_run_app {S} (add : S -> iworld -> addr -> result (S * iworld * Z)) rm os1 os2 : forall s s1 w w1 r outs1,
  ip_run add rm os1 s w = Ok (s1, w1, outs1) ->
  forall s2 w2 outs2, ip_run add rm os2 s1 w1 = Ok (s2, w2, outs2) -> r = outs1 ++ outs2 -> ip_run add rm (os1 ++ os2) s w = Ok (s2, w2, r).
Proof.
  induction os1 as [|o os1 IH]; intros s s1 w w1 r outs1 E1 s2 w2 outs2 E2 ->; cbn [ip_run app] in *.
  - injection E1 as <- <- <-. exact E2.
  - destruct (ip_step add rm o s w) as [[[s3 w3] out]|]; [|done]. cbn [mbind result_bind] in *.
    destruct (ip_run add rm os1 s3 w3) as [[[s4 w4] outs4]|] eqn:E4; [|done]. cbn [mbind result_bind] in *. injection E1 as <- <- <-.
    by rewrite (IH _ _ _ _ (outs4 ++ outs2) _ E4 _ _ _ E2 eq_refl).
Qed.

(** ** From the start of a connection *)

Definition new_connection (rcvbuf : side -> Z) (options : side -> nn_ep_options) : iworld :=
  World (Inproc (fun x => nn_sinproc_init (rcvbuf x)) (fun _ => []))
    {[1%positive := nn_pipebase_init (options SideA); 2%positive := nn_pipebase_init (options SideB)]} [] (fun _ => 0).

(** CONNECT to the bound side, READY back, ACCEPTED. *)
Definition handshake : list ip_op := [UConnect; Deliver SideB; Deliver SideA; Deliver SideB].

Section Connection.
  Context {S : Type} (add : S -> iworld -> addr -> result (S * iworld * Z)) (rm : S -> iworld -> addr -> result (S * iworld)) `{!AcceptingSockets add}.
  Context (rcvbuf : side -> Z) (Hbuf : forall x, 0 <= rcvbuf x <= 2 ^ 63).

Lemma start_pipe_ok s w x pb : w_pipes w !! pipe_of x = Some pb -> pb_state pb = NN_PIPEBASE_STATE_IDLE -> w_events w = [] ->
  exists s' d, start_pipe add s w x = Ok (s', set_events (set_pipe w (pipe_of x) (set_data d (set_out NN_PIPEBASE_OUTSTATE_IDLE (set_in NN_PIPEBASE_INSTATE_ASYNC
              (set_state NN_PIPEBASE_STATE_ACTIVE pb))))) [(pipe_of x, NN_PIPE_OUT)]).
Proof.
  intros Hpb Hst Hev. unfold start_pipe, nn_pipebase_start. rewrite Hpb. cbn [mbind result_bind deref]. rewrite Hst.
  rewrite bool_decide_true by done. cbn [assert_ mbind result_bind].
  set (pb1 := set_out _ _). destruct (accepts s (set_pipe w (pipe_of x) pb1) (pipe_of x) pb1) as (s' & d & ->); [apply lookup_insert_eq|].
  cbn [mbind result_bind]. rewrite bool_decide_false by lia. rewrite nn_pipe_raise_ok by (cbn; rewrite Hev; apply not_elem_of_nil). cbn [mbind result_bind].
  rewrite bool_decide_true by done. cbn [assert_ mbind result_bind]. exists s', d. unfold set_events, set_pipe. cbn. by rewrite Hev, insert_insert_eq.
Qed.

(** A new session, with an empty queue. *)
Lemma new_sinproc (r : Z) : 0 <= r <= 2 ^ 63 -> exists h q, nn_sinproc_init r = Sinproc NN_FSM_STATE_IDLE NN_SINPROC_STATE_IDLE false false false h q empty_msg [] /\
  queue_rep ∅ h q r [].
Proof.
  intros Hr. unfold nn_sinproc_init. pose proof (nn_msgqueue_init_rep ∅ r Hr) as Hq. destruct (nn_msgqueue_init ∅ r) as [h q]. by exists h, q.
Qed.

(** An end during the handshake; its pipe was started or not. *)
Record hs_end (w : iworld) (x : side) (fsm : fsm_state) (st : sinproc_state) (peer started : bool) : Prop := {
  hs_fsm : sp_fsm (sp w x) = fsm;
  hs_state : sp_state (sp w x) = st;
  hs_flags : sp_sending (sp w x) = false /\ sp_receiving (sp w x) = false;
  hs_peer : sp_peer (sp w x) = peer;
  hs_queue : queue_rep ∅ (sp_heap (sp w x)) (sp_queue (sp w x)) (rcvbuf x) [];
  hs_told : sp_told (sp w x) = [];
  hs_pipe : exists pb, w_pipes w !! pipe_of x = Some pb /\
    if started then pb_outstate pb = NN_PIPEBASE_OUTSTATE_IDLE /\ pb_instate pb = NN_PIPEBASE_INSTATE_ASYNC
    else pb_state pb = NN_PIPEBASE_STATE_IDLE /\ pb_outstate pb = NN_PIPEBASE_OUTSTATE_DEACTIVATED /\ pb_instate pb = NN_PIPEBASE_INSTATE_DEACTIVATED;
}.

Lemma hs_start (s : S) w x : sp_fsm (sp w x) = NN_FSM_STATE_IDLE -> sp_state (sp w x) = NN_SINPROC_STATE_IDLE -> sp_told (sp w x) = [] ->
  sinproc_start add rm s w x = Ok (s, set_sp (goto w x NN_SINPROC_STATE_CONNECTING) x (sp_set_fsm NN_FSM_STATE_ACTIVE (sp (goto w x NN_SINPROC_STATE_CONNECTING) x))).
Proof.
  intros Hf Hst Ht. unfold sinproc_start, nn_sinproc_isidle. rewrite Hf, Ht. rewrite bool_decide_true by done.
  rewrite bool_decide_true by apply not_elem_of_nil. cbn [andb assert_ mbind result_bind].
  unfold nn_sinproc_handler. rewrite Hst. by decide_bools.
Qed.

Lemma hs_connect (s : S) w x : hs_end w x NN_FSM_STATE_IDLE NN_SINPROC_STATE_IDLE false false -> hs_end w (other x) NN_FSM_STATE_IDLE NN_SINPROC_STATE_IDLE false false ->
  chan w x = [] -> chan w (other x) = [] ->
  exists w', nn_sinproc_connect add rm s w x = Ok (s, w') /\
    hs_end (take_events w') x NN_FSM_STATE_ACTIVE NN_SINPROC_STATE_CONNECTING false false /\
    hs_end (take_events w') (other x) NN_FSM_STATE_IDLE NN_SINPROC_STATE_IDLE false false /\
    chan (take_events w') x = [] /\ chan (take_events w') (other x) = [NN_SINPROC_CONNECT] /\ w_events (take_events w') = [].
Proof.
  intros [Hf Hst [Hse Hre] Hp Hq Ht Hpb] [Hf' Hst' [Hse' Hre'] Hp' Hq' Ht' Hpb'] Hc Hc'.
  unfold nn_sinproc_connect. rewrite (hs_start s w x Hf Hst Ht). cbn [mbind result_bind].
  rewrite raiseto_first by (sides; done). cbn [mbind result_bind]. eexists. split; [done|].
  split; [|split; [|sides; rewrite ?Hc, ?Hc'; done]].
  - constructor; sides; done.
  - constructor; sides; done.
Qed.

(** The bound endpoint accepts. *)
Lemma hs_accept (s : S) w x : hs_end w x NN_FSM_STATE_ACTIVE NN_SINPROC_STATE_CONNECTING false false -> hs_end w (other x) NN_FSM_STATE_IDLE NN_SINPROC_STATE_IDLE false false ->
  chan w x = [] -> chan w (other x) = [] ->
  exists w', nn_sinproc_accept add rm s w (other x) = Ok (s, w') /\
    hs_end (take_events w') x NN_FSM_STATE_ACTIVE NN_SINPROC_STATE_CONNECTING false false /\
    hs_end (take_events w') (other x) NN_FSM_STATE_ACTIVE NN_SINPROC_STATE_READY true false /\
    chan (take_events w') x = [NN_SINPROC_READY] /\ chan (take_events w') (other x) = [] /\ w_events (take_events w') = [].
Proof.
  intros [Hf Hst [Hse Hre] Hp Hq Ht Hpb] [Hf' Hst' [Hse' Hre'] Hp' Hq' Ht' Hpb'] Hc Hc'.
  unfold nn_sinproc_accept. rewrite Hp'. cbn [negb assert_ mbind result_bind]. rewrite other_other.
  rewrite raiseto_first by (sides; done). cbn [mbind result_bind].
  rewrite hs_start by (sides; done). cbn [mbind result_bind].
  unfold sinproc_feed, nn_sinproc_handler. sides. decide_bools. cbn [negb andb].
  eexists. split; [done|]. split; [|split; [|sides; rewrite ?Hc, ?Hc'; done]].
  - constructor; sides; done.
  - constructor; sides; done.
Qed.

(** READY: the connecting side is established. *)
Lemma hs_ready (s : S) w x : hs_end w x NN_FSM_STATE_ACTIVE NN_SINPROC_STATE_CONNECTING false false -> hs_end w (other x) NN_FSM_STATE_ACTIVE NN_SINPROC_STATE_READY true false ->
  chan w x = [] -> chan w (other x) = [] -> w_events w = [] ->
  exists s' w', sinproc_feed add rm s w x NN_SINPROC_SRC_PEER NN_SINPROC_READY = Ok (s', w') /\
    hs_end (take_events w') x NN_FSM_STATE_ACTIVE NN_SINPROC_STATE_ACTIVE true true /\
    hs_end (take_events w') (other x) NN_FSM_STATE_ACTIVE NN_SINPROC_STATE_READY true false /\
    chan (take_events w') x = [] /\ chan (take_events w') (other x) = [NN_SINPROC_ACCEPTED] /\ w_events (take_events w') = [].
Proof.
  intros [Hf Hst [Hse Hre] Hp Hq Ht (pb & Hpb & Hps & _)] [Hf' Hst' [Hse' Hre'] Hp' Hq' Ht' Hpb'] Hc Hc' Hev.
  unfold sinproc_feed. rewrite Hf. decide_bools. cbn [negb]. unfold nn_sinproc_handler. rewrite Hst. decide_bools. cbn [andb].
  destruct (start_pipe_ok s (set_sp w x (sp_set_peer true (sp w x))) x pb) as (s' & d & ->); [exact Hpb|exact Hps|exact Hev|]. cbn [mbind result_bind].
  rewrite raiseto_first by (sides; done). cbn [mbind result_bind].
  eexists _, _. split; [done|]. split; [|split; [|sides; rewrite ?Hc, ?Hc'; done]].
  - constructor; sides; try done. by eexists.
  - constructor; sides; done.
Qed.

(** The connecting side while ACCEPTED is on its way: it may have sent a
    message already, whose SENT is behind. *)
Record early_end (w : iworld) (x : side) (t : option nn_msg) : Prop := {
  ee_fsm : sp_fsm (sp w x) = NN_FSM_STATE_ACTIVE;
  ee_state : sp_state (sp w x) = NN_SINPROC_STATE_ACTIVE;
  ee_sending : sp_sending (sp w x) = bool_decide (is_Some t);
  ee_receiving : sp_receiving (sp w x) = false;
  ee_peer : sp_peer (sp w x) = true;
  ee_queue : queue_rep ∅ (sp_heap (sp w x)) (sp_queue (sp w x)) (rcvbuf x) [];
  ee_told : sp_told (sp w x) = [];
  ee_msg : forall m, t = Some m -> sp_msg (sp w x) = m /\ msgsz m < 2 ^ 63;
  ee_pipe : exists pb, w_pipes w !! pipe_of x = Some pb /\ pb_instate pb = NN_PIPEBASE_INSTATE_ASYNC /\
    pb_outstate pb = match t with Some _ => NN_PIPEBASE_OUTSTATE_ASYNC | None => NN_PIPEBASE_OUTSTATE_IDLE end;
  ee_chan : chan w x = [];
  ee_other : chan w (other x) = NN_SINPROC_ACCEPTED :: match t with Some _ => [NN_SINPROC_SENT] | None => [] end;
}.

Lemma hs_early w x : hs_end w x NN_FSM_STATE_ACTIVE NN_SINPROC_STATE_ACTIVE true true -> chan w x = [] -> chan w (other x) = [NN_SINPROC_ACCEPTED] ->
  early_end w x None.
Proof. intros [? ? [? ?] ? ? ? (pb & ? & ? & ?)] ? ?. constructor; try done. by exists pb. Qed.

(** It sends. *)
Lemma early_send (s : S) w x m : early_end w x None -> hs_end w (other x) NN_FSM_STATE_ACTIVE NN_SINPROC_STATE_READY true false -> w_events w = [] ->
  msgsz (flat m) < 2 ^ 63 ->
  exists w' rc, nn_pipe_send w (pipe_of x) m = Ok (w', rc) /\ early_end (take_events w') x (Some (flat m)) /\
    hs_end (take_events w') (other x) NN_FSM_STATE_ACTIVE NN_SINPROC_STATE_READY true false /\ w_events (take_events w') = [].
Proof.
  intros [Hf Hst Hse Hre Hp Hq Ht Hmsg (pb & Hpb & Hi & Ho) Hc Hc'] [Hf' Hst' [Hse' Hre'] Hp' Hq' Ht' Hpb'] Hev Hm.
  unfold nn_pipe_send. rewrite Hpb. cbn [mbind result_bind deref]. rewrite Ho. rewrite bool_decide_true by done. cbn [assert_ mbind result_bind].
  cbn [vf_send inproc_transport]. rewrite side_of_pipe. cbn [mbind result_bind]. unfold nn_sinproc_send, peer_sp. cbn in Hse.
  sides. rewrite Hst, Hse. sides. rewrite Hp. rewrite (bool_decide_false (NN_SINPROC_STATE_ACTIVE = _)) by done.
  rewrite (bool_decide_true (NN_SINPROC_STATE_ACTIVE = _)) by done. cbn [negb assert_ mbind result_bind].
  rewrite raiseto_ok by (sides; first [done|rewrite Hc'; set_solver]). sides. cbn [mbind result_bind].
  rewrite bool_decide_true by done. cbn [assert_ mbind result_bind]. sides. cbn [mbind result_bind deref]. fields.
  rewrite bool_decide_false by done. rewrite bool_decide_true by done. cbn [assert_ mbind result_bind].
  eexists _, _. split; [done|]. split; [|split; [|sides; done]].
  - constructor; sides; try done; [by intros ? [= <-]|by eexists|by rewrite Hc'].
  - constructor; sides; done.
Qed.

(** ACCEPTED: the other side is established too. *)
Lemma hs_accepted (s : S) w x t : early_end w x t -> hs_end w (other x) NN_FSM_STATE_ACTIVE NN_SINPROC_STATE_READY true false -> w_events w = [] ->
  exists s' w', sinproc_feed add rm s (set_chan w (other x) (match t with Some _ => [NN_SINPROC_SENT] | None => [] end)) (other x) NN_SINPROC_SRC_PEER NN_SINPROC_ACCEPTED = Ok (s', w') /\
    conn_rep rcvbuf (take_events w') (upd x (option_list t) (fun _ => [])) (fun _ => []).
Proof.
  intros [Hf Hst Hse Hre Hp Hq Ht Hmsg (pb & Hpb & Hi & Ho) Hc Hc'] [Hf' Hst' [Hse' Hre'] Hp' Hq' Ht' (pb' & Hpb' & Hps' & _)] Hev.
  set (es := match t with Some _ => [NN_SINPROC_SENT] | None => [] end) in *.
  unfold sinproc_feed. sides. rewrite Hf'. decide_bools. cbn [negb]. unfold nn_sinproc_handler. sides. rewrite Hst'. decide_bools. cbn [andb orb].
  destruct (start_pipe_ok s (set_chan w (other x) es) (other x) pb') as (s' & d & E); [exact Hpb'|exact Hps'|exact Hev|].
  unfold set_chan in E. rewrite E. cbn [mbind result_bind].
  eexists _, _. split; [done|]. constructor; [apply (both_sides _ x)|apply (both_sides _ x)|done].
  - constructor; sides; try done; [by eexists|rewrite Hc; constructor..].
  - constructor; sides; try done; [by eexists|unfold es; destruct t; repeat constructor; set_solver|unfold es; destruct t; repeat constructor; by left].
  - rewrite upd_eq. exists [], (match t with Some m => TSent m | None => TNone end). constructor; unfold view; sides; try done.
    + rewrite Hpb, Hc. unfold es. destruct t as [m|]; cbn in *; rewrite Hse, Hre', Ho; [|done]. repeat (split; [done|]). by apply Hmsg.
    + by destruct t.
    + destruct t as [m|]; [|constructor]. constructor; [by apply (Hmsg m)|constructor].
  - rewrite upd_ne by apply other_ne. exists [], TNone. rewrite ?other_other. constructor; unfold view; sides; rewrite ?other_other; sides; try done.
    + by rewrite Hpb, <- Hi.
    + rewrite Hc, Hse', Hre. unfold es. destruct t; cbn; done.
Qed.

(** From CONNECT on: SideA connects. *)
Inductive session_rep (w : iworld) (snt rcv : side -> list nn_msg) : Prop :=
  | SConnect : hs_end w SideA NN_FSM_STATE_ACTIVE NN_SINPROC_STATE_CONNECTING false false -> hs_end w SideB NN_FSM_STATE_IDLE NN_SINPROC_STATE_IDLE false false ->
      chan w SideA = [] -> chan w SideB = [NN_SINPROC_CONNECT] -> w_events w = [] -> (forall x, snt x = []) -> (forall x, rcv x = []) -> session_rep w snt rcv
  | SReady : hs_end w SideA NN_FSM_STATE_ACTIVE NN_SINPROC_STATE_CONNECTING false false -> hs_end w SideB NN_FSM_STATE_ACTIVE NN_SINPROC_STATE_READY true false ->
      chan w SideA = [NN_SINPROC_READY] -> chan w SideB = [] -> w_events w = [] -> (forall x, snt x = []) -> (forall x, rcv x = []) -> session_rep w snt rcv
  | SAccepted t : early_end w SideA t -> hs_end w SideB NN_FSM_STATE_ACTIVE NN_SINPROC_STATE_READY true false ->
      w_events w = [] -> snt SideA = option_list t -> snt SideB = [] -> (forall x, rcv x = []) -> session_rep w snt rcv
  | SConnected : conn_rep rcvbuf w snt rcv -> session_rep w snt rcv.

Lemma session_ext w snt snt' rcv rcv' : session_rep w snt rcv -> (forall x, snt' x = snt x) -> (forall x, rcv' x = rcv x) -> session_rep w snt' rcv'.
Proof.
  intros R Es Er. destruct R.
  - apply SConnect; try done; intros x; congruence.
  - apply SReady; try done; intros x; congruence.
  - apply (SAccepted _ _ _ t); try done; try congruence; intros x; congruence.
  - apply SConnected. by eapply conn_ext.
Qed.

(** A pipe that is not started, or has nothing to do, keeps the user waiting. *)
Lemma hs_waits w x f st peer : hs_end w x f st peer false ->
  pipe_is w x (fun pb => bool_decide (pb_outstate pb = NN_PIPEBASE_OUTSTATE_IDLE)) = false /\
  pipe_is w x (fun pb => bool_decide (pb_instate pb = NN_PIPEBASE_INSTATE_IDLE)) = false.
Proof. intros [_ _ _ _ _ _ (pb & Hpb & _ & Ho & Hi)]. unfold pipe_is. by rewrite Hpb, Ho, Hi. Qed.

Lemma early_waits w x t : early_end w x t ->
  pipe_is w x (fun pb => bool_decide (pb_outstate pb = NN_PIPEBASE_OUTSTATE_IDLE)) = bool_decide (t = None) /\
  pipe_is w x (fun pb => bool_decide (pb_instate pb = NN_PIPEBASE_INSTATE_IDLE)) = false.
Proof. intros [_ _ _ _ _ _ _ _ (pb & Hpb & Hi & Ho) _ _]. unfold pipe_is. rewrite Hpb, Ho, Hi. by destruct t. Qed.

(** A step that does nothing. *)
Lemma idle_step o (s : S) w snt rcv : session_rep w snt rcv -> ip_step add rm o s w = Ok (s, w, None) ->
  exists s' w' out, ip_step add rm o s w = Ok (s', w', out) /\ session_rep w' (fun x => snt x ++ sent_in x o out) (fun x => rcv x ++ rcvd_in x o out).
Proof.
  intros R E. exists s, w, None. split; [done|]. eapply session_ext; [exact R| |]; intros x; [unfold sent_in|unfold rcvd_in]; destruct o; apply app_nil_r.
Qed.

(** A step that hands no message over. *)
Lemma silent_step o (s s' : S) w w' snt rcv : ip_step add rm o s w = Ok (s', w', None) -> session_rep w' snt rcv ->
  exists s' w' out, ip_step add rm o s w = Ok (s', w', out) /\ session_rep w' (fun x => snt x ++ sent_in x o out) (fun x => rcv x ++ rcvd_in x o out).
Proof.
  intros E R. exists s', w', None. split; [done|]. eapply session_ext; [exact R| |]; intros x; [unfold sent_in|unfold rcvd_in]; destruct o; apply app_nil_r.
Qed.

Lemma hs_end_chan w x y es f st peer started : hs_end w x f st peer started -> hs_end (set_chan w y es) x f st peer started.
Proof. intros []. by constructor. Qed.

Lemma connect_step o (s : S) w snt rcv : hs_end w SideA NN_FSM_STATE_ACTIVE NN_SINPROC_STATE_CONNECTING false false -> hs_end w SideB NN_FSM_STATE_IDLE NN_SINPROC_STATE_IDLE false false ->
  chan w SideA = [] -> chan w SideB = [NN_SINPROC_CONNECT] -> w_events w = [] -> (forall x, snt x = []) -> (forall x, rcv x = []) -> data_op o ->
  exists s' w' out, ip_step add rm o s w = Ok (s', w', out) /\ session_rep w' (fun x => snt x ++ sent_in x o out) (fun x => rcv x ++ rcvd_in x o out).
Proof.
  intros Ha Hb Ca Cb Ev Es Er Ho. pose proof (SConnect w snt rcv Ha Hb Ca Cb Ev Es Er) as R.
  destruct (hs_waits _ _ _ _ _ Ha) as [Wa1 Wa2], (hs_waits _ _ _ _ _ Hb) as [Wb1 Wb2].
  destruct o as [|x m|x|[]|x]; try done.
  - apply idle_step; [done|]. cbn [ip_step]. by destruct x; rewrite ?Wa1, ?Wb1.
  - apply idle_step; [done|]. cbn [ip_step]. by destruct x; rewrite ?Wa2, ?Wb2.
  - apply idle_step; [done|]. cbn [ip_step]. by rewrite Ca.
  - destruct (hs_accept s (set_chan w SideB []) SideA) as (w' & E & Ha' & Hb' & Ca' & Cb' & Ev'); [by apply hs_end_chan..|by sides|by sides|].
    apply (silent_step _ s s w (take_events w')); [|by apply SReady]. cbn [ip_step]. rewrite Cb, bool_decide_true by done. cbn [other] in E. by rewrite E.
Qed.

Lemma ready_step o (s : S) w snt rcv : hs_end w SideA NN_FSM_STATE_ACTIVE NN_SINPROC_STATE_CONNECTING false false -> hs_end w SideB NN_FSM_STATE_ACTIVE NN_SINPROC_STATE_READY true false ->
  chan w SideA = [NN_SINPROC_READY] -> chan w SideB = [] -> w_events w = [] -> (forall x, snt x = []) -> (forall x, rcv x = []) -> data_op o ->
  exists s' w' out, ip_step add rm o s w = Ok (s', w', out) /\ session_rep w' (fun x => snt x ++ sent_in x o out) (fun x => rcv x ++ rcvd_in x o out).
Proof.
  intros Ha Hb Ca Cb Ev Es Er Ho. pose proof (SReady w snt rcv Ha Hb Ca Cb Ev Es Er) as R.
  destruct (hs_waits _ _ _ _ _ Ha) as [Wa1 Wa2], (hs_waits _ _ _ _ _ Hb) as [Wb1 Wb2].
  destruct o as [|x m|x|[]|x]; try done.
  - apply idle_step; [done|]. cbn [ip_step]. by destruct x; rewrite ?Wa1, ?Wb1.
  - apply idle_step; [done|]. cbn [ip_step]. by destruct x; rewrite ?Wa2, ?Wb2.
  - destruct (hs_ready s (set_chan w SideA []) SideA) as (s' & w' & E & Ha' & Hb' & Ca' & Cb' & Ev'); [by apply hs_end_chan..|by sides|by sides|done|].
    apply (silent_step _ s s' w (take_events w')); [|apply (SAccepted _ _ _ None); try done; by apply hs_early].
    cbn [ip_step]. rewrite Ca, bool_decide_false by done. by rewrite E.
  - apply idle_step; [done|]. cbn [ip_step]. by rewrite Cb.
Qed.

Lemma early_step o (s : S) w snt rcv t : early_end w SideA t -> hs_end w SideB NN_FSM_STATE_ACTIVE NN_SINPROC_STATE_READY true false ->
  w_events w = [] -> snt SideA = option_list t -> snt SideB = [] -> (forall x, rcv x = []) -> data_op o ->
  exists s' w' out, ip_step add rm o s w = Ok (s', w', out) /\ session_rep w' (fun x => snt x ++ sent_in x o out) (fun x => rcv x ++ rcvd_in x o out).
Proof.
  intros Ha Hb Ev Ea Eb Er Ho. pose proof (SAccepted w snt rcv t Ha Hb Ev Ea Eb Er) as R.
  destruct (early_waits _ _ _ Ha) as [Wa1 Wa2], (hs_waits _ _ _ _ _ Hb) as [Wb1 Wb2].
  destruct o as [|[] m|x|[]|x]; try done.
  - destruct t as [m'|]; [apply idle_step; [done|]; cbn [ip_step]; by rewrite Wa1|].
    destruct (early_send s w SideA m Ha Hb Ev Ho) as (w' & rc & E & Ha' & Hb' & Ev').
    exists s, (take_events w'), (Some (flat m)). split; [cbn [ip_step]; rewrite Wa1, bool_decide_true by done; by rewrite E|].
    apply (SAccepted _ _ _ (Some (flat m))); try done; cbn; [by rewrite Ea|by rewrite Eb|]. intros x. by rewrite Er.
  - apply idle_step; [done|]. cbn [ip_step]. by rewrite Wb1.
  - apply idle_step; [done|]. cbn [ip_step]. by destruct x; rewrite ?Wa2, ?Wb2.
  - apply idle_step; [done|]. cbn [ip_step]. by rewrite (ee_chan _ _ _ Ha).
  - destruct (hs_accepted s w SideA t Ha Hb Ev) as (s' & w' & E & Hc). cbn [other] in E.
    apply (silent_step _ s s' w (take_events w')).
    + cbn [ip_step]. pose proof (ee_other _ _ _ Ha) as Cb. cbn [other] in Cb. rewrite Cb, bool_decide_false by done. by rewrite E.
    + apply SConnected. eapply conn_ext; [exact Hc| |done]. intros []; [by rewrite upd_eq|by rewrite upd_ne].
Qed.

Lemma session_step o (s : S) w snt rcv : session_rep w snt rcv -> data_op o -> (forall x, Z.of_nat (length (snt x)) < 2 ^ 63) ->
  exists s' w' out, ip_step add rm o s w = Ok (s', w', out) /\ session_rep w' (fun x => snt x ++ sent_in x o out) (fun x => rcv x ++ rcvd_in x o out).
Proof.
  intros R Ho Hlen. destruct R as [| |t|Hc]; [by eapply connect_step|by eapply ready_step|by eapply early_step|].
  destruct (data_step rcvbuf Hbuf add rm o s w snt rcv Hc Ho Hlen) as (w' & out & E & Hc'). exists s, w', out. split; [done|]. by apply SConnected.
Qed.

Lemma session_run os : forall (s : S) w snt rcv, session_rep w snt rcv -> Forall data_op os -> (forall x, Z.of_nat (length (snt x) + length os) < 2 ^ 63) ->
  exists s' w' outs, ip_run add rm os s w = Ok (s', w', outs) /\ session_rep w' (fun x => snt x ++ sends x os outs) (fun x => rcv x ++ receipts x os outs).
Proof.
  induction os as [|o os IH]; intros s w snt rcv Hc Hos Hlen.
  - eexists _, _, _. split; [done|]. eapply session_ext; [exact Hc| |]; intros x; apply app_nil_r.
  - apply Forall_cons in Hos as [Ho Hos]. cbn [length] in Hlen.
    destruct (session_step o s w snt rcv Hc Ho) as (s1 & w1 & out & E1 & Hc1); [intros x; specialize (Hlen x); lia|].
    destruct (IH s1 w1 _ _ Hc1 Hos) as (s2 & w2 & outs & E2 & Hc2).
    { intros x. rewrite length_app. pose proof (sent_in_length x o out). specialize (Hlen x). lia. }
    exists s2, w2, (out :: outs). cbn [ip_run]. rewrite E1. cbn [mbind result_bind]. rewrite E2. split; [done|].
    eapply session_ext; [exact Hc2| |]; intros x; cbn [sends receipts]; apply app_assoc.
Qed.

Lemma connect_call_ok s options : exists w, ip_step add rm UConnect s (new_connection rcvbuf options) = Ok (s, w, None) /\
  session_rep w (fun _ => []) (fun _ => []).
Proof.
  assert (Hnew : forall x, hs_end (new_connection rcvbuf options) x NN_FSM_STATE_IDLE NN_SINPROC_STATE_IDLE false false).
  { intros x. destruct (new_sinproc (rcvbuf x) (Hbuf x)) as (h & q & E & Hq). assert (Esp : sp (new_connection rcvbuf options) x = nn_sinproc_init (rcvbuf x)) by done. constructor; rewrite ?Esp, ?E; try done. destruct x; (eexists; split; [reflexivity|done]). }
  destruct (hs_connect s _ SideA (Hnew SideA) (Hnew SideB) eq_refl eq_refl) as (w1 & E1 & Ha1 & Hb1 & Ca1 & Cb1 & Ev1).
  cbn [ip_step]. rewrite E1. cbn [mbind result_bind other] in *. eexists. split; [done|]. by apply SConnect.
Qed.

(** What is where. *)
Lemma session_messages w snt rcv x : session_rep w snt rcv ->
  exists q t, snt x = rcv (other x) ++ q ++ in_transit t /\ q_count (sp_queue (sp w (other x))) = Z.of_nat (length q).
Proof.
  assert (Hempty : forall w x f st peer started, hs_end w x f st peer started -> q_count (sp_queue (sp w x)) = 0).
  { intros w' x' f st peer started []. exact (qr_count _ _ _ _ _ hs_queue0). }
  intros [Ha Hb _ _ _ Es Er|Ha Hb _ _ _ Es Er|t Ha Hb _ Ea Eb Er|Hc].
  - exists [], TNone. rewrite Es, Er. split; [done|]. by destruct x; eapply Hempty.
  - exists [], TNone. rewrite Es, Er. split; [done|]. by destruct x; eapply Hempty.
  - rewrite Er. destruct x; cbn [other].
    + exists [], (match t with Some m => TSent m | None => TNone end). rewrite Ea. split; [by destruct t|]. by eapply Hempty.
    + exists [], TNone. rewrite Eb. split; [done|]. exact (qr_count _ _ _ _ _ (ee_queue _ _ _ Ha)).
  - destruct (cn_dirs _ _ _ _ Hc x) as (q & t & [Hq _ _ Hm _]). exists q, t. split; [exact Hm|]. exact (qr_count _ _ _ _ _ Hq).
Qed.

Lemma session_quiet w snt rcv : session_rep w snt rcv -> (forall y, chan w y = []) -> conn_rep rcvbuf w snt rcv.
Proof.
  intros R Hch. destruct R as [? ? ? C|? ? C|t Ha|]; [..|done].
  - by rewrite Hch in C.
  - by rewrite Hch in C.
  - pose proof (ee_other _ _ _ Ha) as C. by rewrite Hch in C.
Qed.
End Connection.

(** C11. In-process connections are reliable.  Between any two sockets, from the
    moment one connects to the other, whatever the users send and receive and
    in whatever order the events of the handshake and of the messages are
    delivered, as long as neither side is stopped: no assertion fails; each side
    receives exactly a prefix of what the other sent, in order and each message
    once, with at most one message on its way besides those in the queue; and
    when no event is pending and a side has nothing to read, it has received
    everything and its peer may send again. *)
Theorem inproc_reliable {S : Type} (add : S -> iworld -> addr -> result (S * iworld * Z)) (rm : S -> iworld -> addr -> result (S * iworld))
    (rcvbuf : side -> Z) (options : side -> nn_ep_options) (s : S) (os : list ip_op) :
  AcceptingSockets add -> (forall x, 0 <= rcvbuf x <= 2 ^ 63) -> Forall data_op os -> Z.of_nat (length os) < 2 ^ 63 ->
  exists s' w outs, ip_run add rm (UConnect :: os) s (new_connection rcvbuf options) = Ok (s', w, None :: outs) /\
    (forall x, exists q t, sends x os outs = receipts (other x) os outs ++ q ++ in_transit t /\ q_count (sp_queue (sp w (other x))) = Z.of_nat (length q)) /\
    ((forall y, chan w y = []) -> forall x, pipe_is w (other x) (fun pb => bool_decide (pb_instate pb = NN_PIPEBASE_INSTATE_IDLE)) = false ->
       sends x os outs = receipts (other x) os outs /\ pipe_is w x (fun pb => bool_decide (pb_outstate pb = NN_PIPEBASE_OUTSTATE_IDLE)) = true).
Proof.
  intros Hadd Hbuf Hos Hlen. destruct (connect_call_ok add rm rcvbuf Hbuf s options) as (w1 & E1 & Hc1).
  destruct (session_run add rm rcvbuf Hbuf os s w1 _ _ Hc1 Hos) as (s2 & w2 & outs & E2 & Hc2); [intros; cbn; lia|].
  exists s2, w2, outs. split; [cbn [ip_run]; rewrite E1; cbn [mbind result_bind]; by rewrite E2|]. split.
  - intros x. by apply (session_messages rcvbuf w2 (fun x => [] ++ sends x os outs) (fun x => [] ++ receipts x os outs)).
  - intros Hch x Hin. pose proof (session_quiet rcvbuf w2 _ _ Hc2 Hch) as Hc3.
    by apply (quiet_direction rcvbuf w2 (fun x => [] ++ sends x os outs) (fun x => [] ++ receipts x os outs)).
Qed.

(** ** Examples *)

(** Sockets that remember their pipe. *)
Definition demo_add (s : unit) (w : iworld) (p : addr) : result (unit * iworld * Z) := w ← nn_pipe_setdata w p (Some p); Ok (s, w, 0).
Definition demo_rm (s : unit) (w : iworld) (p : addr) : result (unit * iworld) := Ok (s, w).
#[local] Instance demo_accepting : AcceptingSockets demo_add.
Proof. intros s w p pb Hp. unfold demo_add, nn_pipe_setdata. rewrite Hp. by exists s, (Some p). Qed.

Definition demo_options (x : side) : nn_ep_options := EpOptions 8 8 1.
Definition demo_start : iworld := new_connection (fun _ => 4) demo_options.

(** The receive buffer holds four bytes: the third message lingers with the
    sender until the first was read. *)
Definition demo_session : list ip_op :=
  [Deliver SideB; Deliver SideA; USend SideA (Msg [] [] [8]); Deliver SideB; Deliver SideB; Deliver SideA; URecv SideB;
   USend SideA (Msg [1] [] [2]); USend SideA (Msg [] [] [9]); Deliver SideB; Deliver SideA; USend SideA (Msg [] [] [3]);
   USend SideB (Msg [] [] [7]); Deliver SideB; Deliver SideA; Deliver SideA; USend SideA (Msg [] [] [4]); Deliver SideB; URecv SideB;
   Deliver SideB; Deliver SideA; URecv SideB; URecv SideB; URecv SideB; URecv SideA].

Lemma inproc_reliable_witness :
  exists w outs, ip_run demo_add demo_rm (UConnect :: demo_session) tt demo_start = Ok (tt, w, None :: outs) /\
    receipts SideB demo_session outs = [Msg [] [] [8]; Msg [] [] [1; 2]; Msg [] [] [3]; Msg [] [] [4]] /\
    sends SideA demo_session outs = receipts SideB demo_session outs /\ sends SideB demo_session outs = receipts SideA demo_session outs.
Proof.
  destruct (inproc_reliable demo_add demo_rm (fun _ => 4) demo_options tt demo_session) as ([] & w & outs & E & H1 & H2).
  - exact demo_accepting.
  - intros x. split; [discriminate|]. vm_compute. discriminate.
  - repeat constructor; vm_compute; reflexivity.
  - vm_compute. reflexivity.
  - exists w, outs. split; [exact E|].
    pose (seen := fun r : unit * iworld * list (option nn_msg) => (snd r, (chan (snd (fst r)) SideA, chan (snd (fst r)) SideB,
      pipe_is (snd (fst r)) SideA (fun pb => bool_decide (pb_instate pb = NN_PIPEBASE_INSTATE_IDLE)),
      pipe_is (snd (fst r)) SideB (fun pb => bool_decide (pb_instate pb = NN_PIPEBASE_INSTATE_IDLE))))).
    apply (f_equal (fmap seen)) in E. vm_compute in E. injection E as Eo Ea Eb Ia Ib.
    assert (Hch : forall y, chan w y = []) by (intros []; by symmetry).
    split; [by rewrite <- Eo|]. split; [apply (H2 Hch SideA)|apply (H2 Hch SideB)]; by symmetry.
Defined.

(** A side that is stopped while the other's SENT is on its way aborts when
    it arrives: STOPPING_PEER knows DISCONNECT and RECEIVED only. *)
Example inproc_stop_while_sending :
  ip_run demo_add demo_rm (handshake ++ [USend SideB (Msg [] [] [1]); UStop SideA; Deliver SideA]) tt demo_start = Err AssertFailed.
Proof. vm_compute. reflexivity. Qed.

(** A side that is stopped before READY reached it has no peer to tell. *)
Example inproc_stop_while_connecting :
  ip_run demo_add demo_rm [UConnect; UStop SideA] tt demo_start = Err BadAccess.
Proof. vm_compute. reflexivity. Qed.
