(* ===== verification/Ctx.v ===== *)
(** * Contexts and events ([aio/ctx.c], the raising part of [aio/fsm.c])

    The state machines of one connection share a context.  An event is
    raised by queueing its object, which remembers whom it is for; the thread
    that leaves the context processes the queue, and what that raises in
    turn, before it lets go of the lock.  The components of a connection are
    named by [comp], and an event object by its component and field. *)

From S2P Require Import Prelude Timer.
Local Open Scope Z_scope.

Inductive comp := CUsock | CListener | CTimer | CHeader | CSession | COwner | CRetry | CDns | CEndpoint | CParent.
#[export] Instance comp_eq_dec : EqDecision comp.
Proof. solve_decision. Defined.

(** The event objects of a component: the fields of type [nn_fsm_event]. *)
Inductive slot := SEstablished | SSent | SReceived | SError | SDone | SStopped.
#[export] Instance slot_eq_dec : EqDecision slot.
Proof. solve_decision. Defined.

Record nn_fsm_event := FsmEvent { ev_obj : comp * slot; ev_fsm : option comp; ev_src : Z; ev_type : Z }.
#[export] Instance nn_fsm_event_eq_dec : EqDecision nn_fsm_event.
Proof. solve_decision. Defined.

(** The queue of the context, [events]. *)
Abbreviation nn_ctx := (list nn_fsm_event).

Definition nn_fsm_event_active (q : nn_ctx) (obj : comp * slot) : bool := bool_decide (obj ∈ ev_obj <$> q).

(** [nn_queue_push] asserts that the object is not queued. *)
Definition nn_ctx_raise (q : nn_ctx) (e : nn_fsm_event) : result nn_ctx :=
  _ ← assert_ (negb (nn_fsm_event_active q (ev_obj e))); Ok (q ++ [e]).

(** [nn_fsm_raise]: the event goes to the owner the machine has now. *)
Definition raise (q : nn_ctx) (obj : comp * slot) (owner : option comp) (src type : Z) : result nn_ctx :=
  nn_ctx_raise q (FsmEvent obj owner src type).

Lemma raise_empty obj owner src type : raise [] obj owner src type = Ok [FsmEvent obj owner src type].
Proof. reflexivity. Qed.

(** [nn_ctx_leave]: [S] is the state the machines of the context share, [feed]
    is [nn_fsm_event_process]. *)
Section Leave.
  Context {S : Type} (events : S -> nn_ctx) (set_events : S -> nn_ctx -> S) (feed : S -> nn_fsm_event -> result S).

Fixpoint nn_ctx_leave (fuel : nat) (s : S) : result S :=
  match events s with
  | [] => Ok s
  | e :: es =>
      match fuel with
      | O => Err NoFuel
      | Datatypes.S fuel => s ← feed (set_events s es) e; nn_ctx_leave fuel s
      end
  end.

Lemma nn_ctx_leave_empty fuel s : events s = [] -> nn_ctx_leave fuel s = Ok s.
Proof. intros E. destruct fuel; cbn [nn_ctx_leave]; by rewrite E. Qed.

Lemma nn_ctx_leave_step fuel s e es s' :
  events s = e :: es -> feed (set_events s es) e = Ok s' -> nn_ctx_leave (Datatypes.S fuel) s = nn_ctx_leave fuel s'.
Proof. intros E1 E2. cbn [nn_ctx_leave]. by rewrite E1, E2. Qed.
End Leave.
