(* ===== verification/Usock.v ===== *)
(** * Sockets of the operating system ([aio/usock_posix.inc])

    [nn_usock] wraps a non-blocking descriptor: it sends and receives a whole
    buffer, at once if the kernel lets it, else through the worker thread,
    and reports with an event when the buffer is through.

    The kernel is the environment.  A [reply] says what the next system call
    answers; what it transfers is a prefix of what there is ([sendmsg],
    [recvmsg]).  [os_rx] are the bytes that arrived and were not read yet,
    [os_tx] all bytes the kernel took.  The memory a request points to is
    kept with the request: [us_out] are the parts still to be sent, [in_buf]
    the bytes stored in the receiver's buffer so far.  Passing file
    descriptors (SCM_RIGHTS) is left out: every caller in the library passes
    no place for one. *)

From S2P Require Import Prelude Wire Timer Ctx.
Local Open Scope Z_scope.

(** ** Data *)

Definition NN_USOCK_CONNECTED : Z := 1.
Definition NN_USOCK_ACCEPTED : Z := 2.
Definition NN_USOCK_SENT : Z := 3.
Definition NN_USOCK_RECEIVED : Z := 4.
Definition NN_USOCK_ERROR : Z := 5.
Definition NN_USOCK_ACCEPT_ERROR : Z := 6.
Definition NN_USOCK_STOPPED : Z := 7.
Definition NN_USOCK_SHUTDOWN : Z := 8.
Definition NN_USOCK_MAX_IOVCNT : nat := 3.
Definition NN_USOCK_BATCH_SIZE : Z := 2048.

Definition NN_USOCK_ACTION_ACCEPT : Z := 1.
Definition NN_USOCK_ACTION_BEING_ACCEPTED : Z := 2.
Definition NN_USOCK_ACTION_CANCEL : Z := 3.
Definition NN_USOCK_ACTION_LISTEN : Z := 4.
Definition NN_USOCK_ACTION_CONNECT : Z := 5.
Definition NN_USOCK_ACTION_ACTIVATE : Z := 6.
Definition NN_USOCK_ACTION_DONE : Z := 7.
Definition NN_USOCK_ACTION_ERROR : Z := 8.
Definition NN_USOCK_ACTION_STARTED : Z := 9.

Definition NN_USOCK_SRC_FD : Z := 1.
Definition NN_WORKER_FD_IN : Z := 1.
Definition NN_WORKER_FD_OUT : Z := 2.
Definition NN_WORKER_FD_ERR : Z := 3.

Definition ECONNRESET : Z := 104.
Definition EINPROGRESS : Z := 115.
Definition ECONNABORTED : Z := 103.
Definition ENFILE : Z := 23.
Definition EMFILE : Z := 24.
Definition ENOMEM : Z := 12.

Inductive usock_state :=
  | NN_USOCK_STATE_IDLE | NN_USOCK_STATE_STARTING | NN_USOCK_STATE_BEING_ACCEPTED | NN_USOCK_STATE_ACCEPTED
  | NN_USOCK_STATE_CONNECTING | NN_USOCK_STATE_ACTIVE | NN_USOCK_STATE_REMOVING_FD | NN_USOCK_STATE_DONE
  | NN_USOCK_STATE_LISTENING | NN_USOCK_STATE_ACCEPTING | NN_USOCK_STATE_ACCEPTING_ERROR
  | NN_USOCK_STATE_CANCELLING | NN_USOCK_STATE_STOPPING | NN_USOCK_STATE_STOPPING_ACCEPT.
#[export] Instance usock_state_eq_dec : EqDecision usock_state.
Proof. solve_decision. Defined.

(** The tasks of the worker. *)
Inductive usock_task :=
  | NN_USOCK_SRC_TASK_CONNECTING | NN_USOCK_SRC_TASK_CONNECTED | NN_USOCK_SRC_TASK_ACCEPT
  | NN_USOCK_SRC_TASK_SEND | NN_USOCK_SRC_TASK_RECV | NN_USOCK_SRC_TASK_STOP.
#[export] Instance usock_task_eq_dec : EqDecision usock_task.
Proof. solve_decision. Defined.

(** The source of an event that reaches the machine. *)
Inductive usock_src := SrcAction | SrcFd | SrcTask (t : usock_task).
#[export] Instance usock_src_eq_dec : EqDecision usock_src.
Proof. solve_decision. Defined.

(** [nn_worker_fd], the handle in the worker's poller: registered, and polled
    for IN and OUT. *)
Record nn_worker_fd := WorkerFd { wfd_added : bool; wfd_in : bool; wfd_out : bool }.

Record os_socket := OsSocket { os_rx : bytes; os_tx : bytes }.

(** [us_s]: the descriptor is open; [us_tasks]: the tasks in the queue of the
    worker; [us_asock]: [asock] is set. *)
Record nn_usock := Usock {
  us_name : comp;
  us_fsm : fsm_state;
  us_src : Z;
  us_owner : option comp;
  us_state : usock_state;
  us_s : bool;
  us_os : os_socket;
  us_wfd : nn_worker_fd;
  in_len : Z;
  in_buf : bytes;
  in_batch : bytes;
  us_out : list bytes;
  us_tasks : list usock_task;
  us_asock : bool;
  us_errnum : Z
}.

Definition us_set_fsm v u := Usock (us_name u) v (us_src u) (us_owner u) (us_state u) (us_s u) (us_os u) (us_wfd u) (in_len u) (in_buf u) (in_batch u) (us_out u) (us_tasks u) (us_asock u) (us_errnum u).
Definition us_set_owner o s u := Usock (us_name u) (us_fsm u) s o (us_state u) (us_s u) (us_os u) (us_wfd u) (in_len u) (in_buf u) (in_batch u) (us_out u) (us_tasks u) (us_asock u) (us_errnum u).
Definition us_set_state v u := Usock (us_name u) (us_fsm u) (us_src u) (us_owner u) v (us_s u) (us_os u) (us_wfd u) (in_len u) (in_buf u) (in_batch u) (us_out u) (us_tasks u) (us_asock u) (us_errnum u).
Definition us_set_s v u := Usock (us_name u) (us_fsm u) (us_src u) (us_owner u) (us_state u) v (us_os u) (us_wfd u) (in_len u) (in_buf u) (in_batch u) (us_out u) (us_tasks u) (us_asock u) (us_errnum u).
Definition us_set_os v u := Usock (us_name u) (us_fsm u) (us_src u) (us_owner u) (us_state u) (us_s u) v (us_wfd u) (in_len u) (in_buf u) (in_batch u) (us_out u) (us_tasks u) (us_asock u) (us_errnum u).
Definition us_set_wfd v u := Usock (us_name u) (us_fsm u) (us_src u) (us_owner u) (us_state u) (us_s u) (us_os u) v (in_len u) (in_buf u) (in_batch u) (us_out u) (us_tasks u) (us_asock u) (us_errnum u).
Definition us_set_in n b u := Usock (us_name u) (us_fsm u) (us_src u) (us_owner u) (us_state u) (us_s u) (us_os u) (us_wfd u) n b (in_batch u) (us_out u) (us_tasks u) (us_asock u) (us_errnum u).
Definition us_set_batch v u := Usock (us_name u) (us_fsm u) (us_src u) (us_owner u) (us_state u) (us_s u) (us_os u) (us_wfd u) (in_len u) (in_buf u) v (us_out u) (us_tasks u) (us_asock u) (us_errnum u).
Definition us_set_out v u := Usock (us_name u) (us_fsm u) (us_src u) (us_owner u) (us_state u) (us_s u) (us_os u) (us_wfd u) (in_len u) (in_buf u) (in_batch u) v (us_tasks u) (us_asock u) (us_errnum u).
Definition us_set_tasks v u := Usock (us_name u) (us_fsm u) (us_src u) (us_owner u) (us_state u) (us_s u) (us_os u) (us_wfd u) (in_len u) (in_buf u) (in_batch u) (us_out u) v (us_asock u) (us_errnum u).
Definition us_set_asock v u := Usock (us_name u) (us_fsm u) (us_src u) (us_owner u) (us_state u) (us_s u) (us_os u) (us_wfd u) (in_len u) (in_buf u) (in_batch u) (us_out u) (us_tasks u) v (us_errnum u).
Definition us_set_errnum v u := Usock (us_name u) (us_fsm u) (us_src u) (us_owner u) (us_state u) (us_s u) (us_os u) (us_wfd u) (in_len u) (in_buf u) (in_batch u) (us_out u) (us_tasks u) (us_asock u) v.

Definition no_socket : os_socket := OsSocket [] [].

Definition nn_usock_init (name : comp) (src : Z) (owner : option comp) : nn_usock :=
  Usock name NN_FSM_STATE_IDLE src owner NN_USOCK_STATE_IDLE false no_socket (WorkerFd false false false) 0 [] [] [] [] false 0.

Definition nn_usock_isidle (q : nn_ctx) (self : nn_usock) : bool :=
  bool_decide (us_fsm self = NN_FSM_STATE_IDLE) && negb (nn_fsm_event_active q (us_name self, SStopped)).

(** [nn_worker_cancel] takes the receive task from the queue, if it is there;
    the other tasks must not be queued. *)
Definition nn_usock_term (q : nn_ctx) (self : nn_usock) : result unit :=
  _ ← assert_ (bool_decide (us_state self = NN_USOCK_STATE_IDLE));
  _ ← assert_ (bool_decide (filter (fun t => t <> NN_USOCK_SRC_TASK_RECV) (us_tasks self) = []));
  assert_ (nn_usock_isidle q self).

Definition nn_usock_swap_owner (self : nn_usock) (o : option comp * Z) : nn_usock * (option comp * Z) :=
  (us_set_owner o.1 o.2 self, (us_owner self, us_src self)).

Definition usock_raise (q : nn_ctx) (self : nn_usock) (s : slot) (type : Z) : result nn_ctx :=
  raise q (us_name self, s) (us_owner self) (us_src self) type.

(** ** The worker and its poller *)

Definition execute (t : usock_task) (self : nn_usock) : result nn_usock :=
  _ ← assert_ (bool_decide (t ∉ us_tasks self)); Ok (us_set_tasks (us_tasks self ++ [t]) self).

Definition nn_worker_add_fd (self : nn_usock) : nn_usock := us_set_wfd (WorkerFd true false false) self.
Definition nn_worker_rm_fd (self : nn_usock) : nn_usock := us_set_wfd (WorkerFd false (wfd_in (us_wfd self)) (wfd_out (us_wfd self))) self.
Definition nn_worker_set_in (b : bool) (self : nn_usock) : nn_usock := us_set_wfd (WorkerFd (wfd_added (us_wfd self)) b (wfd_out (us_wfd self))) self.
Definition nn_worker_set_out (b : bool) (self : nn_usock) : nn_usock := us_set_wfd (WorkerFd (wfd_added (us_wfd self)) (wfd_in (us_wfd self)) b) self.

(** [nn_closefd]: the descriptor must be open. *)
Definition nn_closefd (self : nn_usock) : result nn_usock := _ ← assert_ (us_s self); Ok (us_set_s false self).

(** ** System calls *)

(** [Done n]: up to [n] bytes are transferred, or the call succeeds; [Eof]: the
    peer closed the connection; [Errno e]: it fails with [errno = e]. *)
Inductive reply := Done (n : nat) | Eof | Errno (e : Z).

Definition again (e : Z) : bool := bool_decide (e = EAGAIN).

(** The loop of [nn_usock_send_raw] that skips the [nbytes] bytes sent. *)
Fixpoint skip_sent (iov : list bytes) (nbytes : nat) : result (list bytes * Z) :=
  match nbytes, iov with
  | O, [] => Ok ([], 0)
  | O, _ => Ok (iov, - EAGAIN)
  | _, [] => Err BadAccess
  | _, b :: iov' =>
      if bool_decide (length b <= nbytes)%nat then
        match iov' with
        | [] => _ ← assert_ (bool_decide (nbytes = length b)); Ok ([], 0)
        | _ => skip_sent iov' (nbytes - length b)
        end
      else Ok (drop nbytes b :: iov', - EAGAIN)
  end.

Definition nn_usock_send_raw (self : nn_usock) (r : reply) : result (nn_usock * Z) :=
  let data := concat (us_out self) in
  let send n :=
    '(iov, rc) ← skip_sent (us_out self) (length (take n data));
    Ok (us_set_out iov (us_set_os (OsSocket (os_rx (us_os self)) (os_tx (us_os self) ++ take n data)) self), rc) in
  match r with
  | Done n => send n
  | Errno e => if again e then send 0%nat else Ok (self, - ECONNRESET)
  | Eof => Ok (self, - ECONNRESET)
  end.

(** [recvmsg] into a buffer of [len] bytes: no byte there is EAGAIN. *)
Inductive received := RcvData (d : bytes) | RcvEof | RcvErrno (e : Z).
Definition recvmsg (os : os_socket) (len : Z) (r : reply) : os_socket * received :=
  match r with
  | Done n =>
      let k := Nat.min n (Z.to_nat (Z.min len (Z.of_nat (length (os_rx os))))) in
      if bool_decide (k = 0)%nat then (os, RcvErrno EAGAIN)
      else (OsSocket (drop k (os_rx os)) (os_tx os), RcvData (take k (os_rx os)))
  | Eof => (os, RcvEof)
  | Errno e => (os, RcvErrno e)
  end.

(** The bytes stored at [buf]; their number is the result [*len]. *)
Definition nn_usock_recv_raw (self : nn_usock) (len : Z) (r : reply) : nn_usock * Z * bytes :=
  let batched := Z.of_nat (length (in_batch self)) in
  let sz := Z.min len batched in
  let d1 := take (Z.to_nat sz) (in_batch self) in
  let self := us_set_batch (drop (Z.to_nat sz) (in_batch self)) self in
  let length_ := len - sz in
  if negb (bool_decide (batched = 0)) && bool_decide (length_ = 0) then (self, 0, d1)
  else
    let direct := bool_decide (length_ > NN_USOCK_BATCH_SIZE) in
    let '(os, res) := recvmsg (us_os self) (if direct then length_ else NN_USOCK_BATCH_SIZE) r in
    let store d :=
      let self := us_set_os os self in
      if direct then (self, 0, d1 ++ d)
      else let sz := Z.min length_ (Z.of_nat (length d)) in
           (us_set_batch (drop (Z.to_nat sz) d) self, 0, d1 ++ take (Z.to_nat sz) d) in
    match res with
    | RcvData d => store d
    | RcvEof => (self, - ECONNRESET, d1)
    | RcvErrno e => if again e then store [] else (self, - ECONNRESET, d1)
    end.

(** ** The state machine *)

Definition nn_usock_async_stop (q : nn_ctx) (self : nn_usock) : result (nn_ctx * nn_usock) :=
  self ← execute NN_USOCK_SRC_TASK_STOP self;
  q ← usock_raise q self SError NN_USOCK_SHUTDOWN;
  Ok (q, self).

(** [nn_internal_tasks]; [None] is the result 0. *)
Definition nn_internal_tasks (self : nn_usock) (src : usock_src) : option nn_usock :=
  match src with
  | SrcTask NN_USOCK_SRC_TASK_SEND => Some (nn_worker_set_out true self)
  | SrcTask NN_USOCK_SRC_TASK_RECV => Some (nn_worker_set_in true self)
  | SrcTask NN_USOCK_SRC_TASK_CONNECTED => Some (nn_worker_add_fd self)
  | SrcTask NN_USOCK_SRC_TASK_CONNECTING => Some (nn_worker_set_out true (nn_worker_add_fd self))
  | SrcTask NN_USOCK_SRC_TASK_ACCEPT => Some (nn_worker_set_in true (nn_worker_add_fd self))
  | _ => None
  end.

(** [nn_fsm_stopped (&usock->fsm, NN_USOCK_STOPPED)] in the state IDLE. *)
Definition usock_finish (q : nn_ctx) (self : nn_usock) : result (nn_ctx * nn_usock) :=
  _ ← assert_ (bool_decide (us_fsm self = NN_FSM_STATE_STOPPING));
  q ← usock_raise q self SStopped NN_USOCK_STOPPED;
  Ok (q, us_set_fsm NN_FSM_STATE_IDLE (us_set_state NN_USOCK_STATE_IDLE self)).

(** The descriptor is closed, the owner told. *)
Definition usock_failed (q : nn_ctx) (self : nn_usock) : result (nn_ctx * nn_usock) :=
  self ← nn_closefd self;
  q ← usock_raise q self SError NN_USOCK_ERROR;
  Ok (q, us_set_state NN_USOCK_STATE_DONE self).

(** [act] performs an action on [asock], the other socket of an accept in
    progress: [nn_fsm_action (&usock->asock->fsm, type)]. *)
Section Handlers.
  Context (act : Z -> nn_ctx -> nn_usock -> result (nn_ctx * nn_usock)).

Abbreviation state := (nn_ctx * nn_usock * option nn_usock)%type.

Definition act_asock (type : Z) (q : nn_ctx) (self : nn_usock) (asock : option nn_usock) : result state :=
  a ← (if us_asock self then deref asock else Err BadAccess);
  '(q, a) ← act type q a;
  Ok (q, self, Some a).

Definition alone (r : result (nn_ctx * nn_usock)) (asock : option nn_usock) : result state :=
  '(q, self) ← r; Ok (q, self, asock).

Definition nn_usock_shutdown (q : nn_ctx) (self : nn_usock) (asock : option nn_usock) (src : usock_src) (type : Z) : result state :=
  match nn_internal_tasks self src with
  | Some self => Ok (q, self, asock)
  | None =>
      let close_and_finish self := self ← nn_closefd self; usock_finish q self in
      if bool_decide (src = SrcAction) && bool_decide (type = NN_FSM_STOP) then
        _ ← assert_ (negb (bool_decide (us_state self = NN_USOCK_STATE_ACCEPTING)) && negb (bool_decide (us_state self = NN_USOCK_STATE_CANCELLING)));
        let self := us_set_errnum 0 self in
        match us_state self with
        | NN_USOCK_STATE_IDLE => Ok (q, self, asock)
        | NN_USOCK_STATE_DONE => alone (usock_finish q self) asock
        | NN_USOCK_STATE_STARTING | NN_USOCK_STATE_ACCEPTED | NN_USOCK_STATE_ACCEPTING_ERROR | NN_USOCK_STATE_LISTENING =>
            alone (close_and_finish self) asock
        | NN_USOCK_STATE_BEING_ACCEPTED =>
            '(q, self, asock) ← act_asock NN_USOCK_ACTION_CANCEL q self asock;
            Ok (q, us_set_state NN_USOCK_STATE_STOPPING_ACCEPT self, asock)
        | NN_USOCK_STATE_REMOVING_FD => Ok (q, us_set_state NN_USOCK_STATE_STOPPING self, asock)
        | _ => '(q, self) ← nn_usock_async_stop q self; Ok (q, us_set_state NN_USOCK_STATE_STOPPING self, asock)
        end
      else match us_state self with
      | NN_USOCK_STATE_STOPPING_ACCEPT =>
          _ ← assert_ (bool_decide (src = SrcAction) && bool_decide (type = NN_USOCK_ACTION_DONE));
          alone (usock_finish q self) asock
      | NN_USOCK_STATE_STOPPING =>
          if negb (bool_decide (src = SrcTask NN_USOCK_SRC_TASK_STOP)) then Ok (q, self, asock)
          else alone (close_and_finish (nn_worker_rm_fd self)) asock
      | _ => Err AssertFailed
      end
  end.

(** FD_IN in the state ACTIVE. *)
Definition active_in (q : nn_ctx) (self : nn_usock) (r : reply) : result (nn_ctx * nn_usock) :=
  let '(self, rc, d) := nn_usock_recv_raw self (in_len self) r in
  if bool_decide (rc = 0) then
    let self := us_set_in (in_len self - Z.of_nat (length d)) (in_buf self ++ d) self in
    if bool_decide (in_len self = 0) then
      let self := nn_worker_set_in false self in
      q ← usock_raise q self SReceived NN_USOCK_RECEIVED;
      Ok (q, self)
    else Ok (q, self)
  else
    _ ← assert_ (bool_decide (rc = - ECONNRESET));
    usock_failed q (nn_worker_rm_fd self).

(** FD_OUT in the state ACTIVE. *)
Definition active_out (q : nn_ctx) (self : nn_usock) (r : reply) : result (nn_ctx * nn_usock) :=
  '(self, rc) ← nn_usock_send_raw self r;
  if bool_decide (rc = 0) then
    let self := nn_worker_set_out false self in
    q ← usock_raise q self SSent NN_USOCK_SENT;
    Ok (q, self)
  else if bool_decide (rc = - EAGAIN) then Ok (q, self)
  else
    _ ← assert_ (bool_decide (rc = - ECONNRESET));
    usock_failed q (nn_worker_rm_fd self).

(** FD_OUT in the state CONNECTING: [nn_usock_geterr]. *)
Definition connected (q : nn_ctx) (self : nn_usock) (r : reply) : result (nn_ctx * nn_usock) :=
  let self := us_set_state NN_USOCK_STATE_ACTIVE (nn_worker_set_out false self) in
  match r with
  | Errno e => usock_failed q (nn_worker_rm_fd (us_set_errnum e self))
  | _ => q ← usock_raise q self SEstablished NN_USOCK_CONNECTED; Ok (q, self)
  end.

(** FD_IN in the state ACCEPTING. *)
Definition accept_in (q : nn_ctx) (self : nn_usock) (asock : option nn_usock) (r : reply) : result state :=
  match r with
  | Errno e =>
      if bool_decide (e = ECONNABORTED) then Ok (q, self, asock)
      else
        _ ← assert_ (bool_decide (e = ENFILE) || bool_decide (e = EMFILE) || bool_decide (e = ENOBUFS) || bool_decide (e = ENOMEM));
        let self := nn_worker_rm_fd (us_set_state NN_USOCK_STATE_ACCEPTING_ERROR (us_set_errnum e self)) in
        q ← usock_raise q self SError NN_USOCK_ACCEPT_ERROR;
        Ok (q, self, asock)
  | _ =>
      a ← (if us_asock self then deref asock else Err BadAccess);
      _ ← assert_ (negb (us_s a));
      let a := us_set_state NN_USOCK_STATE_ACCEPTED (us_set_os no_socket (us_set_s true a)) in
      q ← usock_raise q a SEstablished NN_USOCK_ACCEPTED;
      let a := us_set_asock false a in
      Ok (q, us_set_state NN_USOCK_STATE_LISTENING (nn_worker_rm_fd (us_set_asock false self)), Some a)
  end.

Definition nn_usock_handler (q : nn_ctx) (self : nn_usock) (asock : option nn_usock) (src : usock_src) (type : Z) (r : reply) : result state :=
  match nn_internal_tasks self src with
  | Some self => Ok (q, self, asock)
  | None =>
      let goto st := Ok (q, us_set_state st self, asock) in
      match us_state self, src with
      | NN_USOCK_STATE_IDLE, SrcAction =>
          if bool_decide (type = NN_FSM_START) then goto NN_USOCK_STATE_STARTING else Err AssertFailed
      | NN_USOCK_STATE_STARTING, SrcAction =>
          if bool_decide (type = NN_USOCK_ACTION_LISTEN) then goto NN_USOCK_STATE_LISTENING
          else if bool_decide (type = NN_USOCK_ACTION_CONNECT) then goto NN_USOCK_STATE_CONNECTING
          else if bool_decide (type = NN_USOCK_ACTION_BEING_ACCEPTED) then goto NN_USOCK_STATE_BEING_ACCEPTED
          else if bool_decide (type = NN_USOCK_ACTION_STARTED) then Ok (q, us_set_state NN_USOCK_STATE_ACTIVE (nn_worker_add_fd self), asock)
          else Err AssertFailed
      | NN_USOCK_STATE_BEING_ACCEPTED, SrcAction =>
          if bool_decide (type = NN_USOCK_ACTION_DONE) then
            q ← usock_raise q self SEstablished NN_USOCK_ACCEPTED;
            Ok (q, us_set_state NN_USOCK_STATE_ACCEPTED self, asock)
          else Err AssertFailed
      | NN_USOCK_STATE_ACCEPTED, SrcAction =>
          if bool_decide (type = NN_USOCK_ACTION_ACTIVATE) then Ok (q, us_set_state NN_USOCK_STATE_ACTIVE (nn_worker_add_fd self), asock)
          else Err AssertFailed
      | NN_USOCK_STATE_CONNECTING, SrcAction =>
          if bool_decide (type = NN_USOCK_ACTION_DONE) then
            self ← execute NN_USOCK_SRC_TASK_CONNECTED (us_set_state NN_USOCK_STATE_ACTIVE self);
            q ← usock_raise q self SEstablished NN_USOCK_CONNECTED;
            Ok (q, self, asock)
          else if bool_decide (type = NN_USOCK_ACTION_ERROR) then alone (usock_failed q self) asock
          else Err AssertFailed
      | NN_USOCK_STATE_CONNECTING, SrcFd =>
          if bool_decide (type = NN_WORKER_FD_OUT) then alone (connected q self r) asock
          else if bool_decide (type = NN_WORKER_FD_ERR) then alone (usock_failed q (nn_worker_rm_fd self)) asock
          else Err AssertFailed
      | NN_USOCK_STATE_ACTIVE, SrcFd =>
          if bool_decide (type = NN_WORKER_FD_IN) then alone (active_in q self r) asock
          else if bool_decide (type = NN_WORKER_FD_OUT) then alone (active_out q self r) asock
          else if bool_decide (type = NN_WORKER_FD_ERR) then alone (usock_failed q (nn_worker_rm_fd self)) asock
          else Err AssertFailed
      | NN_USOCK_STATE_ACTIVE, SrcAction =>
          if bool_decide (type = NN_USOCK_ACTION_ERROR) then
            alone (nn_usock_async_stop q (us_set_state NN_USOCK_STATE_REMOVING_FD self)) asock
          else Err AssertFailed
      | NN_USOCK_STATE_REMOVING_FD, SrcTask NN_USOCK_SRC_TASK_STOP => alone (usock_failed q (nn_worker_rm_fd self)) asock
      | NN_USOCK_STATE_REMOVING_FD, SrcFd => Ok (q, self, asock)
      | NN_USOCK_STATE_REMOVING_FD, SrcAction =>
          if bool_decide (type = NN_USOCK_ACTION_ERROR) then Ok (q, self, asock) else Err AssertFailed
      | NN_USOCK_STATE_DONE, _ => Ok (q, self, asock)
      | NN_USOCK_STATE_LISTENING, SrcAction | NN_USOCK_STATE_ACCEPTING_ERROR, SrcAction =>
          if bool_decide (type = NN_USOCK_ACTION_ACCEPT) then goto NN_USOCK_STATE_ACCEPTING else Err AssertFailed
      | NN_USOCK_STATE_ACCEPTING, SrcAction =>
          if bool_decide (type = NN_USOCK_ACTION_DONE) then goto NN_USOCK_STATE_LISTENING
          else if bool_decide (type = NN_USOCK_ACTION_CANCEL) then
            self ← execute NN_USOCK_SRC_TASK_STOP (us_set_state NN_USOCK_STATE_CANCELLING self);
            Ok (q, self, asock)
          else Err AssertFailed
      | NN_USOCK_STATE_ACCEPTING, SrcFd =>
          if bool_decide (type = NN_WORKER_FD_IN) then accept_in q self asock r else Err AssertFailed
      | NN_USOCK_STATE_CANCELLING, SrcTask NN_USOCK_SRC_TASK_STOP =>
          act_asock NN_USOCK_ACTION_DONE q (us_set_state NN_USOCK_STATE_LISTENING (nn_worker_rm_fd self)) asock
      | NN_USOCK_STATE_CANCELLING, SrcFd =>
          if bool_decide (type = NN_WORKER_FD_IN) then Ok (q, self, asock) else Err AssertFailed
      | _, _ => Err AssertFailed
      end
  end.

Definition usock_feed (q : nn_ctx) (self : nn_usock) (asock : option nn_usock) (src : usock_src) (type : Z) (r : reply) : result state :=
  if negb (bool_decide (us_fsm self = NN_FSM_STATE_STOPPING)) then nn_usock_handler q self asock src type r
  else nn_usock_shutdown q self asock src type.

End Handlers.

(** ** Operations *)

(** An action on the other socket of an accept concerns that one alone. *)
Definition nn_fsm_action (type : Z) (q : nn_ctx) (self : nn_usock) : result (nn_ctx * nn_usock) :=
  _ ← assert_ (bool_decide (type > 0));
  '(q, self, _) ← usock_feed (fun _ _ _ => Err AssertFailed) q self None SrcAction type Eof;
  Ok (q, self).

Definition feed := usock_feed nn_fsm_action.

Definition usock_fsm_start (q : nn_ctx) (self : nn_usock) : result (nn_ctx * nn_usock) :=
  _ ← assert_ (nn_usock_isidle q self);
  '(q, self, _) ← nn_usock_handler nn_fsm_action q self None SrcAction NN_FSM_START Eof;
  Ok (q, us_set_fsm NN_FSM_STATE_ACTIVE self).

(** The first assertion of this function holds in every state, as it tests
    the constant NN_USOCK_STATE_BEING_ACCEPTED. *)
Definition nn_usock_init_from_fd (self : nn_usock) : result nn_usock :=
  _ ← assert_ (negb (us_s self));
  Ok (us_set_os no_socket (us_set_s true self)).

(** The replies are those of [socket], [setsockopt], [bind], [listen]. *)
Definition nn_usock_start (q : nn_ctx) (self : nn_usock) (r : reply) : result (nn_ctx * nn_usock * Z) :=
  match r with
  | Errno e => Ok (q, self, - e)
  | _ => self ← nn_usock_init_from_fd self; '(q, self) ← usock_fsm_start q self; Ok (q, self, 0)
  end.

Definition nn_usock_start_fd (q : nn_ctx) (self : nn_usock) : result (nn_ctx * nn_usock) :=
  self ← nn_usock_init_from_fd self;
  '(q, self) ← usock_fsm_start q self;
  nn_fsm_action NN_USOCK_ACTION_STARTED q self.

Definition nn_usock_stop (q : nn_ctx) (self : nn_usock) (asock : option nn_usock) : result (nn_ctx * nn_usock * option nn_usock) :=
  if negb (bool_decide (us_fsm self = NN_FSM_STATE_ACTIVE)) then Ok (q, self, asock)
  else nn_usock_shutdown nn_fsm_action q (us_set_fsm NN_FSM_STATE_STOPPING self) asock SrcAction NN_FSM_STOP.

Definition nn_usock_setsockopt (self : nn_usock) (r : reply) : result Z :=
  _ ← assert_ (bool_decide (us_state self = NN_USOCK_STATE_STARTING) || bool_decide (us_state self = NN_USOCK_STATE_ACCEPTED));
  match r with Errno e => Ok (- e) | _ => Ok 0 end.

Definition nn_usock_bind (self : nn_usock) (r : reply) : result Z :=
  _ ← assert_ (bool_decide (us_state self = NN_USOCK_STATE_STARTING));
  match r with Errno e => Ok (- e) | _ => Ok 0 end.

Definition nn_usock_listen (q : nn_ctx) (self : nn_usock) (r : reply) : result (nn_ctx * nn_usock * Z) :=
  _ ← assert_ (bool_decide (us_state self = NN_USOCK_STATE_STARTING));
  match r with
  | Errno e => Ok (q, self, - e)
  | _ => '(q, self) ← nn_fsm_action NN_USOCK_ACTION_LISTEN q self; Ok (q, self, 0)
  end.

Definition accept_errno (e : Z) : bool :=
  again e || bool_decide (e = ECONNABORTED) || bool_decide (e = ENFILE) || bool_decide (e = EMFILE)
  || bool_decide (e = ENOBUFS) || bool_decide (e = ENOMEM).

Definition nn_usock_accept (q : nn_ctx) (self listener : nn_usock) (r : reply) : result (nn_ctx * nn_usock * nn_usock) :=
  '(q, self) ← (if nn_usock_isidle q self then
                  '(q, self) ← usock_fsm_start q self;
                  nn_fsm_action NN_USOCK_ACTION_BEING_ACCEPTED q self
                else Ok (q, self));
  '(q, listener) ← nn_fsm_action NN_USOCK_ACTION_ACCEPT q listener;
  match r with
  | Errno e =>
      _ ← assert_ (accept_errno e);
      let self := us_set_asock true self in
      let listener := us_set_asock true listener in
      if negb (again e) && negb (bool_decide (e = ECONNABORTED)) && negb (bool_decide (e = us_errnum listener)) then
        let listener := us_set_state NN_USOCK_STATE_ACCEPTING_ERROR (us_set_errnum e listener) in
        q ← usock_raise q listener SError NN_USOCK_ACCEPT_ERROR;
        Ok (q, self, listener)
      else
        listener ← execute NN_USOCK_SRC_TASK_ACCEPT listener;
        Ok (q, self, listener)
  | _ =>
      let listener := us_set_asock false listener in
      self ← nn_usock_init_from_fd (us_set_asock false self);
      '(q, listener) ← nn_fsm_action NN_USOCK_ACTION_DONE q listener;
      '(q, self) ← nn_fsm_action NN_USOCK_ACTION_DONE q self;
      Ok (q, self, listener)
  end.

Definition nn_usock_activate (q : nn_ctx) (self : nn_usock) : result (nn_ctx * nn_usock) := nn_fsm_action NN_USOCK_ACTION_ACTIVATE q self.

Definition nn_usock_connect (q : nn_ctx) (self : nn_usock) (r : reply) : result (nn_ctx * nn_usock) :=
  '(q, self) ← nn_fsm_action NN_USOCK_ACTION_CONNECT q self;
  match r with
  | Errno e =>
      if negb (bool_decide (e = EINPROGRESS)) then nn_fsm_action NN_USOCK_ACTION_ERROR q (us_set_errnum e self)
      else self ← execute NN_USOCK_SRC_TASK_CONNECTING self; Ok (q, self)
  | _ => nn_fsm_action NN_USOCK_ACTION_DONE q self
  end.

Definition nn_usock_send (q : nn_ctx) (self : nn_usock) (iov : list bytes) (r : reply) : result (nn_ctx * nn_usock) :=
  if negb (bool_decide (us_state self = NN_USOCK_STATE_ACTIVE)) then nn_fsm_action NN_USOCK_ACTION_ERROR q self
  else
    _ ← assert_ (bool_decide (length iov <= NN_USOCK_MAX_IOVCNT)%nat);
    '(self, rc) ← nn_usock_send_raw (us_set_out (filter (fun b => b <> []) iov) self) r;
    if bool_decide (rc = 0) then q ← usock_raise q self SSent NN_USOCK_SENT; Ok (q, self)
    else if negb (bool_decide (rc = - EAGAIN)) then
      _ ← assert_ (bool_decide (rc = - ECONNRESET));
      nn_fsm_action NN_USOCK_ACTION_ERROR q self
    else self ← execute NN_USOCK_SRC_TASK_SEND self; Ok (q, self).

Definition nn_usock_recv (q : nn_ctx) (self : nn_usock) (len : Z) (r : reply) : result (nn_ctx * nn_usock) :=
  if negb (bool_decide (us_state self = NN_USOCK_STATE_ACTIVE)) then nn_fsm_action NN_USOCK_ACTION_ERROR q self
  else
    let '(self, rc, d) := nn_usock_recv_raw self len r in
    if bool_decide (rc < 0) then
      _ ← assert_ (bool_decide (rc = - ECONNRESET));
      nn_fsm_action NN_USOCK_ACTION_ERROR q self
    else if bool_decide (Z.of_nat (length d) = len) then
      q ← usock_raise q self SReceived NN_USOCK_RECEIVED; Ok (q, us_set_in (in_len self) d self)
    else
      self ← execute NN_USOCK_SRC_TASK_RECV (us_set_in (len - Z.of_nat (length d)) d self);
      Ok (q, self).

(** ** The worker thread: it executes a task, or reports on the descriptor *)

Inductive worker_job := WTask | WIn (r : reply) | WOut (r : reply) | WErr.

Definition worker_can (self : nn_usock) (j : worker_job) : bool :=
  match j with
  | WTask => negb (bool_decide (us_tasks self = []))
  | WIn _ => wfd_added (us_wfd self) && wfd_in (us_wfd self)
  | WOut _ => wfd_added (us_wfd self) && wfd_out (us_wfd self)
  | WErr => wfd_added (us_wfd self)
  end.

Definition worker_do (q : nn_ctx) (self : nn_usock) (asock : option nn_usock) (j : worker_job) : result (nn_ctx * nn_usock * option nn_usock) :=
  match j with
  | WTask =>
      match us_tasks self with
      | t :: ts => feed q (us_set_tasks ts self) asock (SrcTask t) NN_WORKER_TASK_EXECUTE Eof
      | [] => Ok (q, self, asock)
      end
  | WIn r => feed q self asock SrcFd NN_WORKER_FD_IN r
  | WOut r => feed q self asock SrcFd NN_WORKER_FD_OUT r
  | WErr => feed q self asock SrcFd NN_WORKER_FD_ERR Eof
  end.

(** ** A socket in use

    The context's queue, the socket, and the kernel's answers to come (none
    left: EAGAIN). *)
Record io := Io { io_q : nn_ctx; io_us : nn_usock; io_sys : list reply }.

Definition io_set_q q x := Io q (io_us x) (io_sys x).
Definition io_set_us u x := Io (io_q x) u (io_sys x).

Definition next_reply (x : io) : reply * io :=
  match io_sys x with r :: rs => (r, Io (io_q x) (io_us x) rs) | [] => (Errno EAGAIN, x) end.

Definition io_raise (x : io) (obj : comp * slot) (owner : option comp) (src type : Z) : result io :=
  q ← raise (io_q x) obj owner src type; Ok (io_set_q q x).

Definition io_send (x : io) (iov : list bytes) : result io :=
  let '(r, x) := next_reply x in '(q, u) ← nn_usock_send (io_q x) (io_us x) iov r; Ok (Io q u (io_sys x)).

Definition io_recv (x : io) (len : Z) : result io :=
  let '(r, x) := next_reply x in '(q, u) ← nn_usock_recv (io_q x) (io_us x) len r; Ok (Io q u (io_sys x)).

Definition io_swap_owner (x : io) (o : option comp * Z) : io * (option comp * Z) :=
  let '(u, o) := nn_usock_swap_owner (io_us x) o in (io_set_us u x, o).

Definition io_worker (x : io) (j : worker_job) : result io :=
  '(q, u, _) ← worker_do (io_q x) (io_us x) None j; Ok (Io q u (io_sys x)).

(** ** The data path of a connected socket *)

(** A call that does not fail. *)
Definition reply_ok (r : reply) : Prop := match r with Done _ => True | Errno e => e = EAGAIN | Eof => False end.
#[export] Instance reply_ok_dec r : Decision (reply_ok r).
Proof. destruct r; cbn; apply _. Defined.

(** The bytes given to the socket so far, and those it did not hand out yet. *)
Definition outgoing (u : nn_usock) : bytes := os_tx (us_os u) ++ concat (us_out u).
Definition incoming (u : nn_usock) : bytes := in_batch u ++ os_rx (us_os u).

Record usock_active (o : option comp * Z) (u : nn_usock) : Prop := {
  ua_name : us_name u = CUsock;
  ua_fsm : us_fsm u = NN_FSM_STATE_ACTIVE;
  ua_owner : (us_owner u, us_src u) = o;
  ua_state : us_state u = NN_USOCK_STATE_ACTIVE;
  ua_added : wfd_added (us_wfd u) = true;
  ua_nodup : NoDup (us_tasks u);
  ua_tasks : Forall (fun t => t = NN_USOCK_SRC_TASK_SEND \/ t = NN_USOCK_SRC_TASK_RECV) (us_tasks u);
}.

(** What the directions are: a request in progress waits for its task to be
    executed, or for the poller. *)
Definition waits (u : nn_usock) (t : usock_task) (polled : bool) : Prop :=
  (t ∈ us_tasks u /\ polled = false) \/ (t ∉ us_tasks u /\ polled = true).
Definition quiet (u : nn_usock) (t : usock_task) (polled : bool) : Prop := t ∉ us_tasks u /\ polled = false.

Definition out_idle (u : nn_usock) : Prop := us_out u = [] /\ quiet u NN_USOCK_SRC_TASK_SEND (wfd_out (us_wfd u)).
Definition out_busy (u : nn_usock) : Prop :=
  us_out u <> [] /\ Forall (fun b => b <> []) (us_out u) /\ waits u NN_USOCK_SRC_TASK_SEND (wfd_out (us_wfd u)).
Definition in_idle (u : nn_usock) : Prop := quiet u NN_USOCK_SRC_TASK_RECV (wfd_in (us_wfd u)).
Definition in_busy (u : nn_usock) (n : Z) : Prop :=
  0 < in_len u /\ Z.of_nat (length (in_buf u)) + in_len u = n /\ waits u NN_USOCK_SRC_TASK_RECV (wfd_in (us_wfd u)).

(** What the other direction sees of an operation: nothing. *)
Definition out_side (u : nn_usock) : bytes * list bytes * bool * bool :=
  (os_tx (us_os u), us_out u, bool_decide (NN_USOCK_SRC_TASK_SEND ∈ us_tasks u), wfd_out (us_wfd u)).
Definition in_side (u : nn_usock) : Z * bytes * bytes * bytes * bool * bool :=
  (in_len u, in_buf u, in_batch u, os_rx (us_os u), bool_decide (NN_USOCK_SRC_TASK_RECV ∈ us_tasks u), wfd_in (us_wfd u)).

Lemma bool_decide_inj P Q `{Decision P, Decision Q} : bool_decide P = bool_decide Q -> P <-> Q.
Proof. intros E. rewrite <- (bool_decide_eq_true P), <- (bool_decide_eq_true Q). by rewrite E. Qed.

Lemma out_side_idle u u' : out_side u' = out_side u -> out_idle u -> out_idle u'.
Proof. intros [= E1 E2 E3 E4]. unfold out_idle, quiet. rewrite E2, E4. apply bool_decide_inj in E3. naive_solver. Qed.

Lemma out_side_busy u u' : out_side u' = out_side u -> out_busy u -> out_busy u'.
Proof. intros [= E1 E2 E3 E4]. unfold out_busy, waits. rewrite E2, E4. apply bool_decide_inj in E3. naive_solver. Qed.

Lemma out_side_outgoing u u' : out_side u' = out_side u -> outgoing u' = outgoing u.
Proof. intros [= E1 E2 E3 E4]. unfold outgoing. by rewrite E1, E2. Qed.

Lemma in_side_idle u u' : in_side u' = in_side u -> in_idle u -> in_idle u'.
Proof. intros [= E1 E2 E3 E4 E5 E6]. unfold in_idle, quiet. rewrite E6. apply bool_decide_inj in E5. naive_solver. Qed.

Lemma in_side_busy n u u' : in_side u' = in_side u -> in_busy u n -> in_busy u' n.
Proof. intros [= E1 E2 E3 E4 E5 E6]. unfold in_busy, waits. rewrite E1, E2, E6. apply bool_decide_inj in E5. naive_solver. Qed.

Lemma in_side_incoming u u' : in_side u' = in_side u -> incoming u' = incoming u.
Proof. intros [= E1 E2 E3 E4 E5 E6]. unfold incoming. by rewrite E3, E4. Qed.

(** Evaluates the [bool_decide]s of constants. *)
Ltac eval_bools :=
  repeat match goal with
    | |- context [bool_decide ?P] =>
        let v := eval vm_compute in (bool_decide P) in
        lazymatch v with true => change (bool_decide P) with true | false => change (bool_decide P) with false end
    end; cbn [negb andb orb].

(** *** Sending *)

Lemma skip_sent_ok iov : forall n, Forall (fun b => b <> []) iov -> (n <= length (concat iov))%nat ->
  exists iov', concat iov' = drop n (concat iov) /\ Forall (fun b => b <> []) iov' /\
    skip_sent iov n = Ok (iov', if bool_decide (iov' = []) then 0 else - EAGAIN).
Proof.
  induction iov as [|b iov IH]; intros n Hne Hn.
  { cbn in Hn. assert (n = 0)%nat as -> by lia. exists []. done. }
  apply Forall_cons in Hne as [Hb Hne]. cbn [concat] in *. rewrite length_app in Hn.
  destruct n as [|n]; [exists (b :: iov); split; [done|]; split; [by apply Forall_cons|done]|].
  cbn [skip_sent]. case_bool_decide as Hle.
  - rewrite drop_app_ge by lia. destruct iov as [|c iov].
    + cbn [concat length] in Hn. exists []. rewrite bool_decide_true by lia. cbn [concat]. rewrite drop_nil. done.
    + destruct (IH (Datatypes.S n - length b)%nat) as (iov' & E1 & E2 & E3); [done|lia|]. exists iov'. done.
  - exists (drop (Datatypes.S n) b :: iov). cbn [concat]. rewrite drop_app_le by lia. split; [done|]. split.
    + apply Forall_cons. split; [|done]. intros E%(f_equal length). rewrite length_drop in E. cbn in E. lia.
    + by rewrite bool_decide_false.
Qed.

(** A call of [sendmsg] that does not fail. *)
Lemma send_raw_ok u r : reply_ok r -> Forall (fun b => b <> []) (us_out u) -> exists iov' k,
  nn_usock_send_raw u r = Ok (us_set_out iov' (us_set_os (OsSocket (os_rx (us_os u)) (os_tx (us_os u) ++ take k (concat (us_out u)))) u),
                              if bool_decide (iov' = []) then 0 else - EAGAIN)
  /\ concat iov' = drop k (concat (us_out u)) /\ Forall (fun b => b <> []) iov'.
Proof.
  intros Hr Hne. assert (Hk : forall n, exists iov', concat iov' = drop n (concat (us_out u)) /\ Forall (fun b => b <> []) iov' /\
    skip_sent (us_out u) (length (take n (concat (us_out u)))) = Ok (iov', if bool_decide (iov' = []) then 0 else - EAGAIN)).
  { intros n. rewrite length_take. destruct (skip_sent_ok (us_out u) (Nat.min n (length (concat (us_out u))))) as (iov' & E1 & E2 & E3); [done|lia|].
    exists iov'. split; [|done]. rewrite E1. destruct (decide (n <= length (concat (us_out u)))%nat); [by rewrite Nat.min_l by lia|].
    rewrite Nat.min_r by lia. by rewrite !drop_ge by lia. }
  unfold nn_usock_send_raw. destruct r as [n| |e]; cbn in Hr; [|done|].
  - destruct (Hk n) as (iov' & E1 & E2 & E3). exists iov', n. rewrite E3. done.
  - subst e. destruct (Hk 0%nat) as (iov' & E1 & E2 & E3). exists iov', 0%nat. cbn [again bool_decide decide]. rewrite E3. done.
Qed.

Definition sent_event (o : option comp * Z) : nn_fsm_event := FsmEvent (CUsock, SSent) o.1 o.2 NN_USOCK_SENT.
Definition received_event (o : option comp * Z) : nn_fsm_event := FsmEvent (CUsock, SReceived) o.1 o.2 NN_USOCK_RECEIVED.

(** A step on the sending side: the event, or the request goes on. *)
Definition out_result (o : option comp * Z) (q : nn_ctx) (u : nn_usock) : Prop :=
  (q = [sent_event o] /\ out_idle u) \/ (q = [] /\ out_busy u).

Lemma usock_raise_nil o u s type : usock_active o u -> usock_raise [] u s type = Ok [FsmEvent (CUsock, s) o.1 o.2 type].
Proof. intros Hu. unfold usock_raise. rewrite (ua_name _ _ Hu). rewrite <- (ua_owner _ _ Hu). reflexivity. Qed.

Lemma concat_nonempty (iov : list bytes) : concat (filter (fun b => b <> []) iov) = concat iov.
Proof.
  induction iov as [|b iov IH]; [done|]. destruct (decide (b = [])) as [->|Hb].
  - rewrite filter_cons_False by (intros E; by apply E). exact IH.
  - rewrite filter_cons_True by done. cbn [concat]. by rewrite IH.
Qed.

Lemma nn_usock_send_ok o u iov r :
  usock_active o u -> out_idle u -> reply_ok r -> (length iov <= 3)%nat -> concat iov <> [] ->
  exists q u', nn_usock_send [] u iov r = Ok (q, u') /\ usock_active o u' /\ in_side u' = in_side u
    /\ outgoing u' = outgoing u ++ concat iov /\ out_result o q u'.
Proof.
  intros Hu (Eout & Hnt & Hp) Hr Hlen Hne. unfold nn_usock_send. rewrite (ua_state _ _ Hu), !bool_decide_true by done. mred.
  set (iov1 := filter _ iov). assert (Hf : Forall (fun b => b <> []) iov1) by (apply Forall_forall; intros b Hb; by apply list_elem_of_filter in Hb as [? _]).
  destruct (send_raw_ok (us_set_out iov1 u) r Hr Hf) as (iov' & k & -> & Ecat & Hne'). mred. cbn [us_out us_set_out] in Ecat.
  assert (Hout : forall u', os_tx (us_os u') = os_tx (us_os u) ++ take k (concat iov1) -> us_out u' = iov' -> outgoing u' = outgoing u ++ concat iov).
  { intros u' E1 E2. unfold outgoing. rewrite E1, E2, Ecat, Eout. cbn [concat]. rewrite app_nil_r, <- app_assoc, take_drop. unfold iov1. by rewrite concat_nonempty. }
  cases (iov' = []) as Ei.
  - subst iov'. eval_bools. rewrite (usock_raise_nil o) by (destruct Hu; by constructor). mred.
    eexists _, _. split; [reflexivity|]. split; [destruct Hu; by constructor|]. split; [done|]. split; [by apply Hout|]. left. done.
  - eval_bools. unfold execute. rewrite bool_decide_true by done. mred.
    eexists _, _. split; [reflexivity|].
    split. { destruct Hu. constructor; cbn; try done.
      - apply NoDup_app. split; [done|]. split; [|apply NoDup_singleton]. intros t Ht1 Ht2%list_elem_of_singleton. by subst t.
      - apply Forall_app. split; [done|]. apply Forall_singleton. by left. }
    split. { unfold in_side. cbn [us_tasks us_set_tasks]. do 2 f_equal. apply bool_decide_ext. rewrite elem_of_app, list_elem_of_singleton. naive_solver. }
    split; [by apply Hout|]. right. split; [done|]. split; [done|]. split; [done|]. left. cbn. split; [|done]. apply elem_of_app. right. by apply list_elem_of_singleton.
Qed.

(** FD_OUT. *)
Lemma active_out_ok o u r : usock_active o u -> out_busy u -> reply_ok r -> wfd_out (us_wfd u) = true ->
  exists q u', active_out [] u r = Ok (q, u') /\ usock_active o u' /\ in_side u' = in_side u /\ outgoing u' = outgoing u /\ out_result o q u'.
Proof.
  intros Hu (Hn & Hne & Hw) Hr Hp. unfold active_out. destruct (send_raw_ok u r Hr Hne) as (iov' & k & -> & Ecat & Hne'). mred.
  assert (Hout : forall u', os_tx (us_os u') = os_tx (us_os u) ++ take k (concat (us_out u)) -> us_out u' = iov' -> outgoing u' = outgoing u).
  { intros u' E1 E2. unfold outgoing. by rewrite E1, E2, Ecat, <- app_assoc, take_drop. }
  assert (Ht : NN_USOCK_SRC_TASK_SEND ∉ us_tasks u) by (destruct Hw as [[? ?]|[? ?]]; congruence).
  cases (iov' = []) as Ei.
  - eval_bools. rewrite (usock_raise_nil o) by (destruct Hu; by constructor). mred. subst iov'.
    eexists _, _. split; [reflexivity|]. split; [destruct Hu; by constructor|]. split; [done|]. split; [by apply Hout|]. left. done.
  - eval_bools.
    eexists _, _. split; [reflexivity|]. split; [destruct Hu; by constructor|]. split; [done|]. split; [by apply Hout|].
    right. split; [done|]. split; [done|]. split; [done|]. by right.
Qed.

(** *** Receiving *)

(** A step on the receiving side. *)
Definition in_result (o : option comp * Z) (n : Z) (q : nn_ctx) (u : nn_usock) : Prop :=
  (q = [received_event o] /\ in_idle u /\ Z.of_nat (length (in_buf u)) = n) \/ (q = [] /\ in_busy u n).

(** A call of [recvmsg] that does not fail. *)
Lemma recvmsg_ok os len r : reply_ok r -> 0 <= len -> exists d,
  recvmsg os len r = (OsSocket (drop (length d) (os_rx os)) (os_tx os), if bool_decide (d = []) then RcvErrno EAGAIN else RcvData d)
  /\ os_rx os = d ++ drop (length d) (os_rx os) /\ Z.of_nat (length d) <= len.
Proof.
  intros Hr Hlen. destruct os as [rx tx]. unfold recvmsg. cbn [os_rx os_tx]. destruct r as [n| |e]; cbn in Hr; [|done|].
  - set (k := Nat.min _ _). assert (Hk : (k <= length rx)%nat /\ Z.of_nat k <= len) by lia. destruct Hk as [Hk Hkl]. case_bool_decide as Ek.
    + exists []. cbn. rewrite drop_0. done.
    + exists (take k rx). rewrite length_take, Nat.min_l, take_drop by lia. rewrite bool_decide_false; [done|].
      intros E%(f_equal length). rewrite length_take in E. cbn in E. lia.
  - subst e. exists []. cbn. rewrite drop_0. done.
Qed.

Lemma recv_raw_ok u len r : reply_ok r -> 0 < len -> exists d b rx,
  nn_usock_recv_raw u len r = (us_set_batch b (us_set_os (OsSocket rx (os_tx (us_os u))) u), 0, d)
  /\ incoming u = d ++ b ++ rx /\ Z.of_nat (length d) <= len.
Proof.
  intros Hr Hlen. unfold nn_usock_recv_raw, incoming. set (sz := Z.min len _).
  assert (Hsz : 0 <= sz <= Z.of_nat (length (in_batch u))) by lia.
  set (b1 := take (Z.to_nat sz) (in_batch u)). set (b2 := drop (Z.to_nat sz) (in_batch u)).
  assert (Eb : in_batch u = b1 ++ b2) by (symmetry; apply take_drop).
  assert (Hb1 : Z.of_nat (length b1) = sz) by (unfold b1; rewrite length_take; lia).
  case_bool_decide as Hz; cbn [negb andb]; [|case_bool_decide as Hfull].
  2: { exists b1, b2, (os_rx (us_os u)). split; [|split; [by rewrite Eb, <- app_assoc|lia]]. by destruct u as [? ? ? ? ? ? [? ?] ? ? ? ? ? ? ? ?]. }
  all: assert (Hrest : b2 = [] \/ len - sz = 0) by (destruct (decide (len <= Z.of_nat (length (in_batch u)))); [right; lia|left; apply drop_ge; lia]).
  all: destruct Hrest as [Hb2|?]; [|lia].
  all: destruct (recvmsg_ok (us_os u) (if bool_decide (len - sz > NN_USOCK_BATCH_SIZE) then len - sz else NN_USOCK_BATCH_SIZE) r Hr) as (d & E & Hrx & Hd);
    [unfold NN_USOCK_BATCH_SIZE; case_bool_decide; lia|].
  all: replace (us_os (us_set_batch b2 u)) with (us_os u) by done; rewrite E.
  all: assert (Estore : match (if bool_decide (d = []) then RcvErrno EAGAIN else RcvData d) with
         | RcvData d' => d' = d | RcvEof => False | RcvErrno e => again e = true /\ d = [] end) by (destruct (decide (d = [])) as [Ed|Ed]; [by rewrite (bool_decide_eq_true_2 _ Ed)|by rewrite (bool_decide_eq_false_2 _ Ed)]).
  all: clear E.
  all: destruct (if bool_decide (d = []) then RcvErrno EAGAIN else RcvData d) as [d'| |e]; [subst d'|done|destruct Estore as [-> ->]].
  all: case_bool_decide as Hdir;
    [ eexists _, b2, _; split; [by destruct u|]; rewrite Hb2, Eb, Hb2, !app_nil_r, <- ?app_assoc; cbn [app] in *; split; [by f_equal|rewrite ?length_app; lia]
    | eexists _, _, _; split; [by destruct u|]; split; [|rewrite length_app, length_take; lia] ].
  all: rewrite Eb, Hb2, app_nil_r, <- app_assoc; f_equal; rewrite (app_assoc (take _ _)), take_drop; done.
Qed.

Lemma nn_usock_recv_ok o u n r : usock_active o u -> in_idle u -> reply_ok r -> 0 < n ->
  exists q u', nn_usock_recv [] u n r = Ok (q, u') /\ usock_active o u' /\ out_side u' = out_side u
    /\ incoming u = in_buf u' ++ incoming u' /\ in_result o n q u'.
Proof.
  intros Hu (Hnt & Hp) Hr Hn. unfold nn_usock_recv. rewrite (ua_state _ _ Hu), bool_decide_true by done. cbn [negb].
  destruct (recv_raw_ok u n r Hr Hn) as (d & b & rx & -> & Hin & Hd). change (bool_decide (0 < 0)) with false. cbn iota.
  case_bool_decide as Hfull.
  - rewrite (usock_raise_nil o) by (destruct Hu; by constructor). mred. eexists _, _. split; [reflexivity|].
    split; [destruct Hu; by constructor|]. split; [done|]. split; [done|]. left. done.
  - unfold execute. rewrite bool_decide_true by done. mred. eexists _, _. split; [reflexivity|].
    split. { destruct Hu. constructor; cbn; try done.
      - apply NoDup_app. split; [done|]. split; [|apply NoDup_singleton]. intros t Ht1 Ht2%list_elem_of_singleton. by subst t.
      - apply Forall_app. split; [done|]. apply Forall_singleton. by right. }
    split. { unfold out_side. cbn [us_tasks us_set_tasks]. do 2 f_equal. apply bool_decide_ext. rewrite elem_of_app, list_elem_of_singleton. naive_solver. }
    split; [done|]. right. split; [done|]. split; [cbn; lia|]. split; [cbn; lia|]. left. cbn. split; [|done]. apply elem_of_app. right. by apply list_elem_of_singleton.
Qed.

(** FD_IN. *)
Lemma active_in_ok o u n r : usock_active o u -> in_busy u n -> reply_ok r -> wfd_in (us_wfd u) = true ->
  exists q u' d, active_in [] u r = Ok (q, u') /\ usock_active o u' /\ out_side u' = out_side u
    /\ in_buf u' = in_buf u ++ d /\ incoming u = d ++ incoming u' /\ in_result o n q u'.
Proof.
  intros Hu (Hpos & Hlen & Hw) Hr Hp. unfold active_in. destruct (recv_raw_ok u (in_len u) r Hr Hpos) as (d & b & rx & -> & Hin & Hd).
  change (bool_decide (0 = 0)) with true. cbn iota.
  assert (Ht : NN_USOCK_SRC_TASK_RECV ∉ us_tasks u) by (destruct Hw as [[? ?]|[? ?]]; congruence).
  cbn [in_len in_buf us_set_batch us_set_os us_set_in]. case_bool_decide as Hz.
  - rewrite (usock_raise_nil o) by (destruct Hu; by constructor). mred. eexists _, _, d. split; [reflexivity|].
    split; [destruct Hu; by constructor|]. split; [done|]. split; [done|]. split; [done|]. left. split; [done|].
    split; [done|]. cbn. rewrite length_app. lia.
  - eexists _, _, d. split; [reflexivity|]. split; [destruct Hu; by constructor|]. split; [done|]. split; [done|]. split; [done|].
    right. split; [done|]. split; [cbn; lia|]. split; [cbn; rewrite length_app; lia|]. by right.
Qed.

(** *** The worker *)

(** Executing a task only starts the polling. *)
Lemma worker_task_ok o u : usock_active o u -> exists u', worker_do [] u None WTask = Ok ([], u', None) /\ usock_active o u'
  /\ outgoing u' = outgoing u /\ incoming u' = incoming u /\ in_buf u' = in_buf u
  /\ (out_idle u -> out_idle u') /\ (out_busy u -> out_busy u') /\ (in_idle u -> in_idle u') /\ (forall n, in_busy u n -> in_busy u' n).
Proof.
  intros Hu. unfold worker_do. destruct (us_tasks u) as [|t ts] eqn:Et; [by exists u|].
  pose proof (ua_nodup _ _ Hu) as Hnd. pose proof (ua_tasks _ _ Hu) as Hall. rewrite Et in Hnd, Hall.
  apply NoDup_cons in Hnd as [Hnt Hnd]. apply Forall_cons in Hall as [Ht Hall].
  unfold feed, usock_feed. replace (us_fsm (us_set_tasks ts u)) with (us_fsm u) by done. rewrite (ua_fsm _ _ Hu). change (bool_decide (NN_FSM_STATE_ACTIVE = NN_FSM_STATE_STOPPING)) with false. cbn [negb].
  destruct Ht as [-> | ->]; cbn [nn_usock_handler nn_internal_tasks]; unfold nn_usock_handler; cbn [nn_internal_tasks];
    (eexists; split; [reflexivity|]); (split; [destruct Hu; by constructor|]); do 3 (split; [done|]);
    unfold out_idle, out_busy, in_idle, in_busy, quiet, waits; rewrite Et; cbn; set_solver.
Qed.

(** What the worker may do to a socket whose requests are these, when the
    kernel reports no failure. *)
Definition job_ok (j : worker_job) : Prop := match j with WTask => True | WIn r | WOut r => reply_ok r | WErr => False end.

Lemma worker_feed_fd o u type r : usock_active o u -> type = NN_WORKER_FD_IN \/ type = NN_WORKER_FD_OUT ->
  feed [] u None SrcFd type r = alone (if bool_decide (type = NN_WORKER_FD_IN) then active_in [] u r else active_out [] u r) None.
Proof.
  intros Hu Ht. unfold feed, usock_feed. rewrite (ua_fsm _ _ Hu). change (bool_decide (NN_FSM_STATE_ACTIVE = NN_FSM_STATE_STOPPING)) with false. cbn [negb].
  unfold nn_usock_handler. cbn [nn_internal_tasks]. rewrite (ua_state _ _ Hu). destruct Ht as [-> | ->]; done.
Qed.
