(* ===== verification/Streamhdr.v ===== *)
(** * The exchange of protocol headers ([transports/utils/streamhdr.c])

    Both ends of a stream send eight bytes, NUL 'S' 'P' NUL, the protocol of
    the socket and two zeros, and check those of the other end, within a
    second.  The machine borrows the socket of the session it works for and
    returns it when the timer has stopped. *)

From S2P Require Import Prelude Wire Timer Ctx Usock.
Local Open Scope Z_scope.

Definition NN_STREAMHDR_OK : Z := 1.
Definition NN_STREAMHDR_ERROR : Z := 2.
Definition NN_STREAMHDR_STOPPED : Z := 3.
Definition NN_STREAMHDR_SRC_USOCK : Z := 1.
Definition NN_STREAMHDR_SRC_TIMER : Z := 2.

Inductive streamhdr_state :=
  | NN_STREAMHDR_STATE_IDLE | NN_STREAMHDR_STATE_SENDING | NN_STREAMHDR_STATE_RECEIVING
  | NN_STREAMHDR_STATE_STOPPING_TIMER_ERROR | NN_STREAMHDR_STATE_STOPPING_TIMER_DONE
  | NN_STREAMHDR_STATE_DONE | NN_STREAMHDR_STATE_STOPPING.
#[export] Instance streamhdr_state_eq_dec : EqDecision streamhdr_state.
Proof. solve_decision. Defined.

(** [sh_usock]: [usock] is set; [sh_owner]: [usock_owner]; [sh_src]: the source
    its events have for the owner, which is the session. *)
Record nn_streamhdr := Streamhdr {
  sh_fsm : fsm_state;
  sh_src : Z;
  sh_state : streamhdr_state;
  sh_timer : nn_timer;
  sh_usock : bool;
  sh_owner : option comp * Z;
  sh_protohdr : bytes
}.

Definition sh_set_fsm v h := Streamhdr v (sh_src h) (sh_state h) (sh_timer h) (sh_usock h) (sh_owner h) (sh_protohdr h).
Definition sh_set_state v h := Streamhdr (sh_fsm h) (sh_src h) v (sh_timer h) (sh_usock h) (sh_owner h) (sh_protohdr h).
Definition sh_set_timer v h := Streamhdr (sh_fsm h) (sh_src h) (sh_state h) v (sh_usock h) (sh_owner h) (sh_protohdr h).
Definition sh_set_usock v o h := Streamhdr (sh_fsm h) (sh_src h) (sh_state h) (sh_timer h) v o (sh_protohdr h).
Definition sh_set_protohdr v h := Streamhdr (sh_fsm h) (sh_src h) (sh_state h) (sh_timer h) (sh_usock h) (sh_owner h) v.

Definition nn_streamhdr_init (src : Z) : nn_streamhdr :=
  Streamhdr NN_FSM_STATE_IDLE src NN_STREAMHDR_STATE_IDLE nn_timer_init false (None, -1) (repeat 0 8).

Definition nn_streamhdr_isidle (q : nn_ctx) (self : nn_streamhdr) : bool :=
  bool_decide (sh_fsm self = NN_FSM_STATE_IDLE) && negb (nn_fsm_event_active q (CHeader, SStopped)).

Definition nn_streamhdr_term (q : nn_ctx) (self : nn_streamhdr) : result unit :=
  _ ← assert_ (bool_decide (sh_state self = NN_STREAMHDR_STATE_IDLE));
  _ ← nn_timer_term (sh_timer self);
  assert_ (nn_streamhdr_isidle q self).

(** ** The timer

    The timer keeps the type of an event it raised; here the event enters the
    queue of the context too, and leaves both when it is processed. *)
Definition timer_raised (q : nn_ctx) (before after : option Z) (s : slot) : result nn_ctx :=
  match before, after with
  | None, Some type => raise q (CTimer, s) (Some CHeader) NN_STREAMHDR_SRC_TIMER type
  | _, _ => Ok q
  end.

Definition with_timer (x : io) (self : nn_streamhdr) (f : nn_timer -> result nn_timer) : result (io * nn_streamhdr) :=
  let t := sh_timer self in
  t' ← f t;
  q ← timer_raised (io_q x) (tm_done t) (tm_done t') SDone;
  q ← timer_raised q (fsm_stopped (tm_fsm t)) (fsm_stopped (tm_fsm t')) SStopped;
  Ok (io_set_q q x, sh_set_timer t' self).

(** The timer's slot of an event that is being processed becomes free. *)
Definition timer_taken (s : slot) (t : nn_timer) : nn_timer :=
  let '(Timer fsm state start_task stop_task wtimer done timeout) := t in
  match s with
  | SDone => Timer fsm state start_task stop_task wtimer None timeout
  | _ => Timer (Fsm (fsm_st fsm) None) state start_task stop_task wtimer done timeout
  end.

(** ** The machine

    [protocol] is the option NN_PROTOCOL of the socket, [ispeer] the function
    of its type. *)
Section Header.
  Context (protocol : Z) (ispeer : Z -> bool).

Definition nn_sock_ispeer (socktype : Z) : bool :=
  if negb (bool_decide (Z.land protocol 0xfff0 = Z.land socktype 0xfff0)) then false else ispeer socktype.

Definition nn_pipebase_ispeer (socktype : Z) : bool := nn_sock_ispeer socktype.

Abbreviation state := (io * nn_streamhdr)%type.

Definition magic : bytes := [0; 83; 80; 0].

Definition give_back (x : io) (self : nn_streamhdr) : state :=
  let '(x, _) := io_swap_owner x (sh_owner self) in (x, sh_set_usock false (None, -1) self).

Definition stop_timer (x : io) (self : nn_streamhdr) (st : streamhdr_state) : result state :=
  '(x, self) ← with_timer x self nn_timer_stop; Ok (x, sh_set_state st self).

Definition finish (x : io) (self : nn_streamhdr) (type : Z) : result state :=
  let '(x, self) := give_back x self in
  x ← io_raise x (CHeader, SDone) (Some CSession) (sh_src self) type;
  Ok (x, sh_set_state NN_STREAMHDR_STATE_DONE self).

Definition nn_streamhdr_handler (x : io) (self : nn_streamhdr) (src type : Z) : result state :=
  match sh_state self with
  | NN_STREAMHDR_STATE_IDLE =>
      if bool_decide (src = NN_FSM_ACTION) && bool_decide (type = NN_FSM_START) then
        '(x, self) ← with_timer x self (fun t => nn_timer_start t 1000);
        x ← io_send x [sh_protohdr self];
        Ok (x, sh_set_state NN_STREAMHDR_STATE_SENDING self)
      else Err AssertFailed
  | NN_STREAMHDR_STATE_SENDING =>
      if bool_decide (src = NN_STREAMHDR_SRC_USOCK) then
        if bool_decide (type = NN_USOCK_SENT) then
          x ← io_recv x (Z.of_nat (length (sh_protohdr self)));
          Ok (x, sh_set_state NN_STREAMHDR_STATE_RECEIVING self)
        else if bool_decide (type = NN_USOCK_SHUTDOWN) then Ok (x, self)
        else if bool_decide (type = NN_USOCK_ERROR) then stop_timer x self NN_STREAMHDR_STATE_STOPPING_TIMER_ERROR
        else Err AssertFailed
      else if bool_decide (src = NN_STREAMHDR_SRC_TIMER) && bool_decide (type = NN_TIMER_TIMEOUT) then
        stop_timer x self NN_STREAMHDR_STATE_STOPPING_TIMER_ERROR
      else Err AssertFailed
  | NN_STREAMHDR_STATE_RECEIVING =>
      if bool_decide (src = NN_STREAMHDR_SRC_USOCK) then
        if bool_decide (type = NN_USOCK_RECEIVED) then
          let self := sh_set_protohdr (in_buf (io_us x)) self in
          if negb (bool_decide (take 4 (sh_protohdr self) = magic)) then
            stop_timer x self NN_STREAMHDR_STATE_STOPPING_TIMER_ERROR
          else
            proto ← nn_gets (drop 4 (sh_protohdr self));
            if negb (nn_pipebase_ispeer proto) then stop_timer x self NN_STREAMHDR_STATE_STOPPING_TIMER_ERROR
            else stop_timer x self NN_STREAMHDR_STATE_STOPPING_TIMER_DONE
        else if bool_decide (type = NN_USOCK_SHUTDOWN) then Ok (x, self)
        else if bool_decide (type = NN_USOCK_ERROR) then stop_timer x self NN_STREAMHDR_STATE_STOPPING_TIMER_ERROR
        else Err AssertFailed
      else if bool_decide (src = NN_STREAMHDR_SRC_TIMER) && bool_decide (type = NN_TIMER_TIMEOUT) then
        stop_timer x self NN_STREAMHDR_STATE_STOPPING_TIMER_ERROR
      else Err AssertFailed
  | NN_STREAMHDR_STATE_STOPPING_TIMER_ERROR =>
      if bool_decide (src = NN_STREAMHDR_SRC_USOCK) then _ ← assert_ (bool_decide (type = NN_USOCK_ERROR)); Ok (x, self)
      else if bool_decide (src = NN_STREAMHDR_SRC_TIMER) && bool_decide (type = NN_TIMER_STOPPED) then finish x self NN_STREAMHDR_ERROR
      else Err AssertFailed
  | NN_STREAMHDR_STATE_STOPPING_TIMER_DONE =>
      if bool_decide (src = NN_STREAMHDR_SRC_USOCK) then _ ← assert_ (bool_decide (type = NN_USOCK_ERROR)); Ok (x, self)
      else if bool_decide (src = NN_STREAMHDR_SRC_TIMER) && bool_decide (type = NN_TIMER_STOPPED) then finish x self NN_STREAMHDR_OK
      else Err AssertFailed
  | _ => Err AssertFailed
  end.

Definition nn_streamhdr_shutdown (x : io) (self : nn_streamhdr) (src type : Z) : result state :=
  '(x, self) ← (if bool_decide (src = NN_FSM_ACTION) && bool_decide (type = NN_FSM_STOP)
                then stop_timer x self NN_STREAMHDR_STATE_STOPPING else Ok (x, self));
  if bool_decide (sh_state self = NN_STREAMHDR_STATE_STOPPING) then
    if negb (nn_timer_isidle (sh_timer self)) then Ok (x, self)
    else
      _ ← assert_ (bool_decide (sh_fsm self = NN_FSM_STATE_STOPPING));
      x ← io_raise x (CHeader, SStopped) (Some CSession) (sh_src self) NN_STREAMHDR_STOPPED;
      Ok (x, sh_set_fsm NN_FSM_STATE_IDLE (sh_set_state NN_STREAMHDR_STATE_IDLE self))
  else Err AssertFailed.

Definition streamhdr_feed (x : io) (self : nn_streamhdr) (src type : Z) : result state :=
  if negb (bool_decide (sh_fsm self = NN_FSM_STATE_STOPPING)) then nn_streamhdr_handler x self src type
  else nn_streamhdr_shutdown x self src type.

Definition streamhdr_fsm_start (x : io) (self : nn_streamhdr) : result state :=
  _ ← assert_ (nn_streamhdr_isidle (io_q x) self);
  '(x, self) ← nn_streamhdr_handler x self NN_FSM_ACTION NN_FSM_START;
  Ok (x, sh_set_fsm NN_FSM_STATE_ACTIVE self).

Definition nn_streamhdr_start (x : io) (self : nn_streamhdr) : result state :=
  _ ← assert_ (negb (sh_usock self) && bool_decide ((sh_owner self).1 = None));
  let '(x, o) := io_swap_owner x (Some CHeader, NN_STREAMHDR_SRC_USOCK) in
  let self := sh_set_usock true o self in
  hdr ← nn_puts (drop 4 (magic ++ [0; 0; 0; 0])) (u16 protocol);
  streamhdr_fsm_start x (sh_set_protohdr (magic ++ hdr) self).

Definition nn_streamhdr_stop (x : io) (self : nn_streamhdr) : result state :=
  if negb (bool_decide (sh_fsm self = NN_FSM_STATE_ACTIVE)) then Ok (x, self)
  else nn_streamhdr_shutdown x (sh_set_fsm NN_FSM_STATE_STOPPING self) NN_FSM_ACTION NN_FSM_STOP.

End Header.
