(* ===== verification/Stcp.v ===== *)
(** * Sessions over streams ([transports/tcp/stcp.c], [transports/ipc/sipc.c])

    A session takes over a connected socket, exchanges protocol headers and
    then passes messages: each is preceded by its size in eight bytes, after
    a byte with the type of the message for IPC.  The two files are the same
    text but for this header and the limit on the size, which only TCP
    checks; the class [Framing] holds the difference and the definitions
    below serve for both. *)

From S2P Require Import Prelude NNList Wire Timer Pipe Ctx Usock Streamhdr.
Local Open Scope Z_scope.

Class Framing := { fr_prefix : bytes; fr_checks_size : bool }.

Definition NN_SIPC_MSG_NORMAL : Z := 1.
Definition tcp_framing : Framing := {| fr_prefix := []; fr_checks_size := true |}.
Definition ipc_framing : Framing := {| fr_prefix := [NN_SIPC_MSG_NORMAL]; fr_checks_size := false |}.

Definition NN_STCP_ERROR : Z := 1.
Definition NN_STCP_STOPPED : Z := 2.
Definition NN_STCP_SRC_USOCK : Z := 1.
Definition NN_STCP_SRC_STREAMHDR : Z := 2.

Inductive stcp_state :=
  | NN_STCP_STATE_IDLE | NN_STCP_STATE_PROTOHDR | NN_STCP_STATE_STOPPING_STREAMHDR | NN_STCP_STATE_ACTIVE
  | NN_STCP_STATE_SHUTTING_DOWN | NN_STCP_STATE_DONE | NN_STCP_STATE_STOPPING.
#[export] Instance stcp_state_eq_dec : EqDecision stcp_state.
Proof. solve_decision. Defined.
Inductive stcp_instate := NN_STCP_INSTATE_HDR | NN_STCP_INSTATE_BODY | NN_STCP_INSTATE_HASMSG.
#[export] Instance stcp_instate_eq_dec : EqDecision stcp_instate.
Proof. solve_decision. Defined.
Inductive stcp_outstate := NN_STCP_OUTSTATE_IDLE | NN_STCP_OUTSTATE_SENDING.
#[export] Instance stcp_outstate_eq_dec : EqDecision stcp_outstate.
Proof. solve_decision. Defined.

(** [None] for the state -1.  The buffer [inhdr] and the body of [inmsg] while
    it is received are kept with the socket's request. *)
Record nn_stcp := Stcp {
  st_fsm : fsm_state;
  st_src : Z;
  st_state : stcp_state;
  st_usock : bool;
  st_owner : option comp * Z;
  st_instate : option stcp_instate;
  st_inmsg : nn_msg;
  st_outstate : option stcp_outstate;
  st_outmsg : nn_msg;
  st_outhdr : bytes
}.

Definition st_set_fsm v s := Stcp v (st_src s) (st_state s) (st_usock s) (st_owner s) (st_instate s) (st_inmsg s) (st_outstate s) (st_outmsg s) (st_outhdr s).
Definition st_set_state v s := Stcp (st_fsm s) (st_src s) v (st_usock s) (st_owner s) (st_instate s) (st_inmsg s) (st_outstate s) (st_outmsg s) (st_outhdr s).
Definition st_set_usock v o s := Stcp (st_fsm s) (st_src s) (st_state s) v o (st_instate s) (st_inmsg s) (st_outstate s) (st_outmsg s) (st_outhdr s).
Definition st_set_in i m s := Stcp (st_fsm s) (st_src s) (st_state s) (st_usock s) (st_owner s) i m (st_outstate s) (st_outmsg s) (st_outhdr s).
Definition st_set_out o m s := Stcp (st_fsm s) (st_src s) (st_state s) (st_usock s) (st_owner s) (st_instate s) (st_inmsg s) o m (st_outhdr s).
Definition st_set_outhdr v s := Stcp (st_fsm s) (st_src s) (st_state s) (st_usock s) (st_owner s) (st_instate s) (st_inmsg s) (st_outstate s) (st_outmsg s) v.

(** A connection: the socket with its context, the child machine, the session
    and the events its owner was told. *)
Record conn := Conn { c_io : io; c_sh : nn_streamhdr; c_st : nn_stcp; c_told : list (Z * Z) }.

Abbreviation cworld := (world conn).
Definition the_pipe : addr := 1%positive.

Definition cn (w : cworld) : conn := w_net w.
Definition st (w : cworld) : nn_stcp := c_st (cn w).
Definition us (w : cworld) : nn_usock := io_us (c_io (cn w)).
Definition set_cn (w : cworld) (c : conn) : cworld := set_net w c.
Definition set_io (w : cworld) (x : io) : cworld := set_cn w (Conn x (c_sh (cn w)) (c_st (cn w)) (c_told (cn w))).
Definition set_sh (w : cworld) (x : io) (h : nn_streamhdr) : cworld := set_cn w (Conn x h (c_st (cn w)) (c_told (cn w))).
Definition set_st (w : cworld) (s : nn_stcp) : cworld := set_cn w (Conn (c_io (cn w)) (c_sh (cn w)) s (c_told (cn w))).

Definition empty_msg : nn_msg := Msg [] [] [].

Section Session.
  Context `{Framing}.

Definition nn_stcp_init (src : Z) : nn_stcp :=
  Stcp NN_FSM_STATE_IDLE src NN_STCP_STATE_IDLE false (None, -1) None empty_msg None empty_msg (repeat 0 (length fr_prefix + 8)).

Definition nn_stcp_isidle (q : nn_ctx) (self : nn_stcp) : bool :=
  bool_decide (st_fsm self = NN_FSM_STATE_IDLE) && negb (nn_fsm_event_active q (CSession, SStopped)).

Definition nn_stcp_term (w : cworld) : result unit :=
  _ ← assert_ (bool_decide (st_state (st w) = NN_STCP_STATE_IDLE));
  pb ← deref (w_pipes w !! the_pipe);
  _ ← nn_pipebase_term pb;
  _ ← nn_streamhdr_term (io_q (c_io (cn w))) (c_sh (cn w));
  assert_ (nn_stcp_isidle (io_q (c_io (cn w))) (st w)).

Definition stcp_raise (w : cworld) (s : slot) (type : Z) : result cworld :=
  x ← io_raise (c_io (cn w)) (CSession, s) (Some COwner) (st_src (st w)) type; Ok (set_io w x).

(** ** The virtual functions of the pipe *)

Definition msg_size (m : nn_msg) : Z := u64 (Z.of_nat (length (sphdr m)) + Z.of_nat (length (body m))).

Definition nn_stcp_send (w : cworld) (msg : nn_msg) : result (cworld * Z) :=
  let self := st w in
  _ ← assert_ (bool_decide (st_state self = NN_STCP_STATE_ACTIVE));
  _ ← assert_ (bool_decide (st_outstate self = Some NN_STCP_OUTSTATE_IDLE));
  let self := st_set_out (st_outstate self) msg self in
  size ← nn_putll (drop (length fr_prefix) (st_outhdr self)) (msg_size msg);
  let self := st_set_outhdr (fr_prefix ++ size) self in
  x ← io_send (c_io (cn w)) [st_outhdr self; sphdr msg; body msg];
  let w := set_st (set_io w x) (st_set_out (Some NN_STCP_OUTSTATE_SENDING) msg self) in
  Ok (w, 0).

Definition recv_header (w : cworld) : result cworld :=
  let self := st w in
  let w := set_st w (st_set_in (Some NN_STCP_INSTATE_HDR) (st_inmsg self) self) in
  x ← io_recv (c_io (cn w)) (Z.of_nat (length fr_prefix) + 8);
  Ok (set_io w x).

Definition nn_stcp_recv (w : cworld) : result (cworld * Z * nn_msg) :=
  let self := st w in
  _ ← assert_ (bool_decide (st_state self = NN_STCP_STATE_ACTIVE));
  _ ← assert_ (bool_decide (st_instate self = Some NN_STCP_INSTATE_HASMSG));
  w ← recv_header (set_st w (st_set_in (st_instate self) empty_msg self));
  Ok (w, 0, st_inmsg self).

#[export] Instance stcp_transport : Transport conn := {|
  tr_backlog c := if bool_decide (st_instate (c_st c) = Some NN_STCP_INSTATE_HASMSG) then 1%nat else 0%nat;
  vf_send w p m := nn_stcp_send w m;
  vf_recv w p := nn_stcp_recv w
|}.

(** ** The state machine

    [protocol], [ispeer]: the socket; [rcvmaxsize]: its option NN_RCVMAXSIZE;
    [alloc n]: a message of [n] bytes can be allocated (when it cannot, the
    process aborts). *)
Context {S : Type} (nn_sock_add : S -> cworld -> addr -> result (S * cworld * Z)) (nn_sock_rm : S -> cworld -> addr -> result (S * cworld)).
Context (protocol : Z) (ispeer : Z -> bool) (rcvmaxsize : Z) (alloc : Z -> bool).

Definition st_goto (w : cworld) (s : stcp_state) : cworld := set_st w (st_set_state s (st w)).

Definition session_error (s : S) (w : cworld) : result (S * cworld) :=
  w ← stcp_raise (st_goto w NN_STCP_STATE_DONE) SDone NN_STCP_ERROR; Ok (s, w).

Definition has_msg (s : S) (w : cworld) (m : nn_msg) : result (S * cworld) :=
  let w := set_st w (st_set_in (Some NN_STCP_INSTATE_HASMSG) m (st w)) in
  w ← nn_pipebase_received w the_pipe;
  Ok (s, w).

(** RECEIVED while the size is awaited. *)
Definition received_header (s : S) (w : cworld) : result (S * cworld) :=
  let inhdr := in_buf (us w) in
  _ ← assert_ (bool_decide (take (length fr_prefix) inhdr = fr_prefix));
  size ← nn_getll (drop (length fr_prefix) inhdr);
  if fr_checks_size && bool_decide (0 <= rcvmaxsize) && bool_decide (size > rcvmaxsize) then session_error s w
  else
    _ ← assert_ (alloc size);
    if bool_decide (size = 0) then has_msg s w empty_msg
    else
      let w := set_st w (st_set_in (Some NN_STCP_INSTATE_BODY) empty_msg (st w)) in
      x ← io_recv (c_io (cn w)) size;
      Ok (s, set_io w x).

Definition nn_stcp_handler (s : S) (w : cworld) (src type : Z) : result (S * cworld) :=
  match st_state (st w) with
  | NN_STCP_STATE_IDLE =>
      if bool_decide (src = NN_FSM_ACTION) && bool_decide (type = NN_FSM_START) then
        '(x, h) ← nn_streamhdr_start protocol ispeer (c_io (cn w)) (c_sh (cn w));
        Ok (s, st_goto (set_sh w x h) NN_STCP_STATE_PROTOHDR)
      else Err AssertFailed
  | NN_STCP_STATE_PROTOHDR =>
      if bool_decide (src = NN_STCP_SRC_STREAMHDR) then
        if bool_decide (type = NN_STREAMHDR_OK) then
          '(x, h) ← nn_streamhdr_stop (c_io (cn w)) (c_sh (cn w));
          Ok (s, st_goto (set_sh w x h) NN_STCP_STATE_STOPPING_STREAMHDR)
        else if bool_decide (type = NN_STREAMHDR_ERROR) then session_error s w
        else Err AssertFailed
      else Err AssertFailed
  | NN_STCP_STATE_STOPPING_STREAMHDR =>
      if bool_decide (src = NN_STCP_SRC_STREAMHDR) && bool_decide (type = NN_STREAMHDR_STOPPED) then
        '(s, w, rc) ← nn_pipebase_start nn_sock_add s w the_pipe;
        if bool_decide (rc < 0) then session_error s w
        else
          w ← recv_header w;
          let w := set_st w (st_set_out (Some NN_STCP_OUTSTATE_IDLE) (st_outmsg (st w)) (st w)) in
          Ok (s, st_goto w NN_STCP_STATE_ACTIVE)
      else Err AssertFailed
  | NN_STCP_STATE_ACTIVE =>
      if negb (bool_decide (src = NN_STCP_SRC_USOCK)) then Err AssertFailed
      else if bool_decide (type = NN_USOCK_SENT) then
        _ ← assert_ (bool_decide (st_outstate (st w) = Some NN_STCP_OUTSTATE_SENDING));
        let w := set_st w (st_set_out (Some NN_STCP_OUTSTATE_IDLE) empty_msg (st w)) in
        w ← nn_pipebase_sent w the_pipe;
        Ok (s, w)
      else if bool_decide (type = NN_USOCK_RECEIVED) then
        match st_instate (st w) with
        | Some NN_STCP_INSTATE_HDR => received_header s w
        | Some NN_STCP_INSTATE_BODY => has_msg s w (Msg [] [] (in_buf (us w)))
        | _ => Err AssertFailed
        end
      else if bool_decide (type = NN_USOCK_SHUTDOWN) then
        '(s, w) ← nn_pipebase_stop nn_sock_rm s w the_pipe;
        Ok (s, st_goto w NN_STCP_STATE_SHUTTING_DOWN)
      else if bool_decide (type = NN_USOCK_ERROR) then
        '(s, w) ← nn_pipebase_stop nn_sock_rm s w the_pipe;
        session_error s w
      else Err AssertFailed
  | NN_STCP_STATE_SHUTTING_DOWN =>
      if bool_decide (src = NN_STCP_SRC_USOCK) && bool_decide (type = NN_USOCK_ERROR) then session_error s w
      else Err AssertFailed
  | _ => Err AssertFailed
  end.

Definition nn_stcp_shutdown (s : S) (w : cworld) (src type : Z) : result (S * cworld) :=
  '(s, w) ← (if bool_decide (src = NN_FSM_ACTION) && bool_decide (type = NN_FSM_STOP) then
               '(s, w) ← nn_pipebase_stop nn_sock_rm s w the_pipe;
               '(x, h) ← nn_streamhdr_stop (c_io (cn w)) (c_sh (cn w));
               Ok (s, st_goto (set_sh w x h) NN_STCP_STATE_STOPPING)
             else Ok (s, w));
  if bool_decide (st_state (st w) = NN_STCP_STATE_STOPPING) then
    if nn_streamhdr_isidle (io_q (c_io (cn w))) (c_sh (cn w)) then
      let '(x, _) := io_swap_owner (c_io (cn w)) (st_owner (st w)) in
      let w := set_st (set_io w x) (st_set_state NN_STCP_STATE_IDLE (st_set_usock false (None, -1) (st w))) in
      _ ← assert_ (bool_decide (st_fsm (st w) = NN_FSM_STATE_STOPPING));
      w ← stcp_raise w SStopped NN_STCP_STOPPED;
      Ok (s, set_st w (st_set_fsm NN_FSM_STATE_IDLE (st w)))
    else Ok (s, w)
  else Err AssertFailed.

Definition stcp_feed (s : S) (w : cworld) (src type : Z) : result (S * cworld) :=
  if negb (bool_decide (st_fsm (st w) = NN_FSM_STATE_STOPPING)) then nn_stcp_handler s w src type
  else nn_stcp_shutdown s w src type.

Definition nn_stcp_start (s : S) (w : cworld) : result (S * cworld) :=
  _ ← assert_ (negb (st_usock (st w)) && bool_decide ((st_owner (st w)).1 = None));
  let '(x, o) := io_swap_owner (c_io (cn w)) (Some CSession, NN_STCP_SRC_USOCK) in
  let w := set_st (set_io w x) (st_set_usock true o (st w)) in
  _ ← assert_ (nn_stcp_isidle (io_q (c_io (cn w))) (st w));
  '(s, w) ← nn_stcp_handler s w NN_FSM_ACTION NN_FSM_START;
  Ok (s, set_st w (st_set_fsm NN_FSM_STATE_ACTIVE (st w))).

Definition nn_stcp_stop (s : S) (w : cworld) : result (S * cworld) :=
  if negb (bool_decide (st_fsm (st w) = NN_FSM_STATE_ACTIVE)) then Ok (s, w)
  else nn_stcp_shutdown s (set_st w (st_set_fsm NN_FSM_STATE_STOPPING (st w))) NN_FSM_ACTION NN_FSM_STOP.

(** ** The context of a connection

    [nn_fsm_event_process] for the machines of the connection; what its owner
    is told is recorded. *)
Definition process_event (sw : S * cworld) (e : nn_fsm_event) : result (S * cworld) :=
  let '(s, w) := sw in
  let h := c_sh (cn w) in
  let h := match ev_obj e with (CTimer, sl) => sh_set_timer (timer_taken sl (sh_timer h)) h | _ => h end in
  let w := set_sh w (c_io (cn w)) h in
  match ev_fsm e with
  | Some CHeader =>
      '(x, h) ← streamhdr_feed protocol ispeer (c_io (cn w)) h (ev_src e) (ev_type e);
      Ok (s, set_sh w x h)
  | Some CSession => stcp_feed s w (ev_src e) (ev_type e)
  | Some COwner => Ok (s, set_cn w (Conn (c_io (cn w)) h (c_st (cn w)) (c_told (cn w) ++ [(ev_src e, ev_type e)])))
  | _ => Err BadAccess
  end.

Definition events (sw : S * cworld) : nn_ctx := io_q (c_io (cn sw.2)).
Definition with_events (sw : S * cworld) (q : nn_ctx) : S * cworld := (sw.1, set_io sw.2 (io_set_q q (c_io (cn sw.2)))).

(** Every step raises a few events at most. *)
Definition leave_fuel : nat := 20.
Definition leave (sw : S * cworld) : result (S * cworld) := nn_ctx_leave events with_events process_event leave_fuel sw.

End Session.

(** ** IPC: the functions of [sipc.c] *)
Section Ipc.
  Context {S : Type} (nn_sock_add : S -> cworld -> addr -> result (S * cworld * Z)) (nn_sock_rm : S -> cworld -> addr -> result (S * cworld)).
  Context (protocol : Z) (ispeer : Z -> bool) (rcvmaxsize : Z) (alloc : Z -> bool).

Definition nn_sipc_init : Z -> nn_stcp := @nn_stcp_init ipc_framing.
Definition nn_sipc_term : cworld -> result unit := nn_stcp_term.
Definition nn_sipc_isidle : nn_ctx -> nn_stcp -> bool := nn_stcp_isidle.
Definition nn_sipc_send : cworld -> nn_msg -> result (cworld * Z) := @nn_stcp_send ipc_framing.
Definition nn_sipc_recv : cworld -> result (cworld * Z * nn_msg) := @nn_stcp_recv ipc_framing.
Definition nn_sipc_handler : S -> cworld -> Z -> Z -> result (S * cworld) := @nn_stcp_handler ipc_framing S nn_sock_add nn_sock_rm protocol ispeer rcvmaxsize alloc.
Definition nn_sipc_shutdown : S -> cworld -> Z -> Z -> result (S * cworld) := nn_stcp_shutdown nn_sock_rm.
Definition nn_sipc_start : S -> cworld -> result (S * cworld) := @nn_stcp_start ipc_framing S nn_sock_add nn_sock_rm protocol ispeer rcvmaxsize alloc.
Definition nn_sipc_stop : S -> cworld -> result (S * cworld) := nn_stcp_stop nn_sock_rm.
End Ipc.
