(* ===== verification/Streams.v ===== *)
(** * Messages over a stream arrive

    Two sessions of the file [Stcp], TCP or IPC, connected by the byte streams
    of the kernel.  From the start on, whatever the users do, however the
    kernel splits the bytes and in whatever order the threads run: nothing
    aborts, and the messages received are those sent, in order.  A socket that
    fails and a header that takes a second are left to the examples at the
    end of the file. *)

From S2P Require Import Prelude NNList Wire Timer Pipe Ctx Usock Streamhdr Stcp.
Local Open Scope Z_scope.

(** ** The steps of one end *)

(** [sys]: what the kernel answers during the step. *)
Inductive conn_op :=
  | SendMsg (m : nn_msg) (sys : list reply)
  | RecvMsg (sys : list reply)
  | Worker (j : worker_job) (sys : list reply)
  | TimerJob (e : worker_event) (sys : list reply).

Definition with_sys (w : cworld) (sys : list reply) : cworld := set_io w (Io (io_q (c_io (cn w))) (us w) sys).

Definition pipe_is (w : cworld) (f : nn_pipebase -> bool) : bool :=
  match w_pipes w !! the_pipe with Some pb => f pb | None => false end.

Section Steps.
  Context `{Framing} {S : Type}.
  Context (add : S -> cworld -> addr -> result (S * cworld * Z)) (rm : S -> cworld -> addr -> result (S * cworld)).
  Context (protocol : Z) (ispeer : Z -> bool) (rcvmaxsize : Z) (alloc : Z -> bool).

Abbreviation leave := (leave add rm protocol ispeer rcvmaxsize alloc).

(** The context is left; the socket takes the events of its pipe. *)
Definition settle (s : S) (w : cworld) : result (S * cworld) :=
  sw ← leave (s, w); Ok (sw.1, set_events sw.2 []).

(** The user sends on a pipe that was reported writable, and receives on one
    that was reported readable.  The result is the message received. *)
Definition conn_step (o : conn_op) (s : S) (w : cworld) : result (S * cworld * option nn_msg) :=
  match o with
  | SendMsg m sys =>
      if pipe_is w (fun pb => bool_decide (pb_state pb = NN_PIPEBASE_STATE_ACTIVE) && bool_decide (pb_outstate pb = NN_PIPEBASE_OUTSTATE_IDLE)) then
        '(w, _) ← nn_pipe_send (with_sys w sys) the_pipe m;
        '(s, w) ← settle s w; Ok (s, w, Some m)
      else Ok (s, w, None)
  | RecvMsg sys =>
      if pipe_is w (fun pb => bool_decide (pb_state pb = NN_PIPEBASE_STATE_ACTIVE) && bool_decide (pb_instate pb = NN_PIPEBASE_INSTATE_IDLE)) then
        '(w, _, m) ← nn_pipe_recv (with_sys w sys) the_pipe;
        '(s, w) ← settle s w; Ok (s, w, Some m)
      else Ok (s, w, None)
  | Worker j sys =>
      if worker_can (us w) j then
        x ← io_worker (c_io (cn (with_sys w sys))) j;
        '(s, w) ← settle s (set_io w x); Ok (s, w, None)
      else Ok (s, w, None)
  | TimerJob e sys =>
      let h := c_sh (cn w) in
      if worker_pending (sh_timer h) e then
        '(x, h) ← Streamhdr.with_timer (c_io (cn (with_sys w sys))) h (fun t => worker_feed t e);
        '(s, w) ← settle s (set_sh w x h); Ok (s, w, None)
      else Ok (s, w, None)
  end.

(** The owner starts the session on a connected socket. *)
Definition conn_start (s : S) (w : cworld) (sys : list reply) : result (S * cworld) :=
  '(s, w) ← nn_stcp_start add rm protocol ispeer rcvmaxsize alloc s (with_sys w sys); settle s w.
End Steps.

(** ** What is on the wire *)
Section Wire.
  Context `{Framing}.

Definition wire_msg (m : nn_msg) : bytes := sphdr m ++ body m.
Definition header_len : Z := Z.of_nat (length fr_prefix) + 8.
Definition header (b : bytes) : bytes := fr_prefix ++ be_bytes 8 (Z.of_nat (length b)).
Definition frame (b : bytes) : bytes := header b ++ b.
Definition frames (q : list bytes) : bytes := concat (frame <$> q).
Definition hello (protocol : Z) : bytes := magic ++ be_bytes 2 (u16 protocol) ++ [0; 0].

Lemma header_length b : Z.of_nat (length (header b)) = header_len.
Proof. unfold header, header_len. rewrite length_app, be_bytes_length. lia. Qed.

Lemma frame_nonempty b : frame b <> [].
Proof. unfold frame, header. intros E%(f_equal length). rewrite !length_app, be_bytes_length in E. cbn in E. lia. Qed.

Lemma hello_length p : length (hello p) = 8%nat.
Proof. reflexivity. Qed.

Lemma frames_snoc q b : frames (q ++ [b]) = frames q ++ frame b.
Proof. unfold frames. rewrite fmap_app, concat_app. cbn. by rewrite app_nil_r. Qed.

(** A complete header at the front of the stream is the first message's. *)
Lemma first_header hd rest q : Z.of_nat (length hd) = header_len -> hd ++ rest = frames q ->
  exists b q', q = b :: q' /\ hd = header b /\ rest = b ++ frames q'.
Proof.
  intros Hl E. destruct q as [|b q'].
  { apply (f_equal length) in E. rewrite length_app in E. cbn in E. unfold header_len in Hl. lia. }
  cbn in E. unfold frame in E. rewrite <- app_assoc in E. apply app_inj_1 in E as [E1 E2]; [|pose proof (header_length b); lia].
  exists b, q'. done.
Qed.

Lemma header_inj b b1 : Z.of_nat (length b) < 2 ^ 64 -> Z.of_nat (length b1) < 2 ^ 64 -> header b = header b1 -> length b = length b1.
Proof. unfold header. intros H1 H2 E%app_inv_head%(f_equal (be_val 0)). rewrite !be_round in E by lia. lia. Qed.

Lemma read_header b : Z.of_nat (length b) < 2 ^ 64 ->
  take (length fr_prefix) (header b) = fr_prefix /\ nn_getll (drop (length fr_prefix) (header b)) = Ok (Z.of_nat (length b)).
Proof.
  intros Hb. unfold header. rewrite take_app_length, drop_app_length. split; [done|].
  pose proof (be_bytes_ok 8 (Z.of_nat (length b))) as Hok. pose proof (be_bytes_length 8 (Z.of_nat (length b))) as Hlen.
  pose proof (be_round 8 (Z.of_nat (length b)) ltac:(lia)) as Hr. remember (be_bytes 8 (Z.of_nat (length b))) as l eqn:El. clear El.
  do 8 (destruct l as [|? l]; [done|]). destruct l; [|done]. by rewrite nn_getll_eq, Hr.
Qed.

Lemma write_header m hdr : Z.of_nat (length (wire_msg m)) < 2 ^ 64 -> Z.of_nat (length hdr) = header_len ->
  exists size, nn_putll (drop (length fr_prefix) hdr) (msg_size m) = Ok size /\ fr_prefix ++ size = header (wire_msg m).
Proof.
  intros Hm Hh. unfold header, msg_size, wire_msg in *. rewrite length_app in *.
  rewrite Nat2Z.inj_add in *. rewrite wrap_small by (unfold in_range; lia).
  assert (Hl : length (drop (length fr_prefix) hdr) = 8%nat) by (rewrite length_drop; unfold header_len in Hh; lia).
  destruct (drop (length fr_prefix) hdr) as [|b0 l]; [done|]. do 7 (destruct l as [|? l]; [done|]). destruct l; [|done].
  rewrite nn_putll_eq by lia. eexists. split; [reflexivity|]. by rewrite app_nil_r.
Qed.
End Wire.

(** ** An established session *)

Definition session_owner : option comp * Z := (Some CSession, NN_STCP_SRC_USOCK).
Definition header_owner : option comp * Z := (Some CHeader, NN_STREAMHDR_SRC_USOCK).

Section Rep.
  Context `{Framing}.

(** A request of [n] bytes: complete, its event being queued, or not. *)
Definition in_request (rcvd : bool) (u : nn_usock) (n : Z) : Prop :=
  if rcvd then in_idle u /\ Z.of_nat (length (in_buf u)) = n else in_busy u n.
Definition out_request (sent : bool) (u : nn_usock) : Prop := if sent then out_idle u else out_busy u.

(** The receiving half: [cur] are the bytes of the message in the session. *)
Inductive in_link (w : cworld) (pb : nn_pipebase) : bool -> bytes -> Prop :=
  | InHdr rcvd : st_instate (st w) = Some NN_STCP_INSTATE_HDR -> pb_instate pb = NN_PIPEBASE_INSTATE_ASYNC ->
      in_request rcvd (us w) header_len -> (the_pipe, NN_PIPE_IN) ∉ w_events w -> in_link w pb rcvd (in_buf (us w))
  | InBody rcvd b : st_instate (st w) = Some NN_STCP_INSTATE_BODY -> pb_instate pb = NN_PIPEBASE_INSTATE_ASYNC ->
      in_request rcvd (us w) (Z.of_nat (length b)) -> Z.of_nat (length b) < 2 ^ 64 -> b <> [] -> (the_pipe, NN_PIPE_IN) ∉ w_events w ->
      in_link w pb rcvd (header b ++ in_buf (us w))
  | InMsg b : st_instate (st w) = Some NN_STCP_INSTATE_HASMSG -> pb_instate pb = NN_PIPEBASE_INSTATE_IDLE ->
      in_idle (us w) -> st_inmsg (st w) = Msg [] [] b -> Z.of_nat (length b) < 2 ^ 64 -> in_link w pb false (frame b).

(** The sending half. *)
Inductive out_link (w : cworld) (pb : nn_pipebase) : bool -> Prop :=
  | OutIdle : st_outstate (st w) = Some NN_STCP_OUTSTATE_IDLE -> pb_outstate pb = NN_PIPEBASE_OUTSTATE_IDLE -> out_idle (us w) ->
      out_link w pb false
  | OutSending sent : st_outstate (st w) = Some NN_STCP_OUTSTATE_SENDING -> pb_outstate pb = NN_PIPEBASE_OUTSTATE_ASYNC ->
      out_request sent (us w) -> (the_pipe, NN_PIPE_OUT) ∉ w_events w -> out_link w pb sent.

Record active (w : cworld) (sent rcvd : bool) (cur : bytes) : Prop := {
  ac_events : io_q (c_io (cn w)) = (if sent then [sent_event session_owner] else []) ++ (if rcvd then [received_event session_owner] else []);
  ac_usock : usock_active session_owner (us w);
  ac_state : st_state (st w) = NN_STCP_STATE_ACTIVE;
  ac_fsm : st_fsm (st w) = NN_FSM_STATE_ACTIVE;
  ac_outhdr : Z.of_nat (length (st_outhdr (st w))) = header_len;
  ac_sys : Forall reply_ok (io_sys (c_io (cn w)));
  ac_pipe : exists pb, w_pipes w !! the_pipe = Some pb /\ pb_state pb = NN_PIPEBASE_STATE_ACTIVE /\ in_link w pb rcvd cur /\ out_link w pb sent;
}.

(** The bytes the session took from the stream, and those to come: [rest] has
    not reached the kernel of this end. *)
Definition stream (w : cworld) (cur rest : bytes) : bytes := cur ++ incoming (us w) ++ rest.
End Rep.

Ltac conn_simpl :=
  unfold st_goto, set_st, set_io, set_sh, set_cn, st, us, cn, with_sys, io_set_q, io_set_us in *;
  cbn [w_net w_pipes w_events set_net set_pipe set_events c_io c_sh c_st c_told io_q io_us io_sys
       st_fsm st_src st_state st_usock st_owner st_instate st_inmsg st_outstate st_outmsg st_outhdr
       st_set_fsm st_set_state st_set_usock st_set_in st_set_out st_set_outhdr
       pb_state pb_instate pb_outstate pb_data pb_options set_in set_out set_state set_data] in *.

Lemma next_reply_ok (x : io) r x' : next_reply x = (r, x') -> Forall reply_ok (io_sys x) ->
  reply_ok r /\ io_q x' = io_q x /\ io_us x' = io_us x /\ Forall reply_ok (io_sys x').
Proof.
  unfold next_reply. destruct x as [q u sys]. cbn. destruct sys as [|r0 rs]; intros [= <- <-] Hs; [done|].
  apply Forall_cons in Hs as [? ?]. done.
Qed.

(** A request on the session's socket. *)
Lemma io_recv_ok o x n : usock_active o (io_us x) -> io_q x = [] -> Forall reply_ok (io_sys x) -> in_idle (io_us x) -> 0 < n ->
  exists x' rcvd, io_recv x n = Ok x' /\ usock_active o (io_us x') /\ io_q x' = (if rcvd : bool then [received_event o] else [])
    /\ Forall reply_ok (io_sys x') /\ out_side (io_us x') = out_side (io_us x)
    /\ incoming (io_us x) = in_buf (io_us x') ++ incoming (io_us x') /\ in_request rcvd (io_us x') n.
Proof.
  intros Hu Hq Hs Hin Hn. unfold io_recv. destruct (next_reply x) as [r x1] eqn:E.
  apply next_reply_ok in E as (Hr & Eq & Eu & Hs'); [|done]. rewrite Eq, Eu, Hq.
  destruct (nn_usock_recv_ok o (io_us x) n r Hu Hin Hr Hn) as (q & u' & -> & Hu' & Hout & Hinc & Hres). mred.
  destruct Hres as [(-> & Hi & Hl)|(-> & Hb)]; [eexists _, true|eexists _, false]; done.
Qed.

Lemma io_send_ok o x iov : usock_active o (io_us x) -> io_q x = [] -> Forall reply_ok (io_sys x) -> out_idle (io_us x) ->
  (length iov <= 3)%nat -> concat iov <> [] ->
  exists x' sent, io_send x iov = Ok x' /\ usock_active o (io_us x') /\ io_q x' = (if sent : bool then [sent_event o] else [])
    /\ Forall reply_ok (io_sys x') /\ in_side (io_us x') = in_side (io_us x)
    /\ outgoing (io_us x') = outgoing (io_us x) ++ concat iov /\ out_request sent (io_us x').
Proof.
  intros Hu Hq Hs Hout Hn Hne. unfold io_send. destruct (next_reply x) as [r x1] eqn:E.
  apply next_reply_ok in E as (Hr & Eq & Eu & Hs'); [|done]. rewrite Eq, Eu, Hq.
  destruct (nn_usock_send_ok o (io_us x) iov r Hu Hout Hr Hn Hne) as (q & u' & -> & Hu' & Hin & Hog & Hres). mred.
  destruct Hres as [(-> & Hi)|(-> & Hb)]; [eexists _, true|eexists _, false]; done.
Qed.

(** [nn_pipebase_received] and [nn_pipebase_sent] on a pipe that waits. *)
Lemma pipe_received {T} (w : world T) pb p : w_pipes w !! p = Some pb -> pb_instate pb = NN_PIPEBASE_INSTATE_ASYNC -> (p, NN_PIPE_IN) ∉ w_events w ->
  nn_pipebase_received w p = Ok (set_events (set_pipe w p (set_in NN_PIPEBASE_INSTATE_IDLE pb)) (w_events w ++ [(p, NN_PIPE_IN)])).
Proof.
  intros Hp Hi He. unfold nn_pipebase_received. rewrite Hp. mred. rewrite Hi. decide_bools. mred. by rewrite nn_pipe_raise_ok.
Qed.

Lemma pipe_sent {T} (w : world T) pb p : w_pipes w !! p = Some pb -> pb_outstate pb = NN_PIPEBASE_OUTSTATE_ASYNC -> (p, NN_PIPE_OUT) ∉ w_events w ->
  nn_pipebase_sent w p = Ok (set_events (set_pipe w p (set_out NN_PIPEBASE_OUTSTATE_IDLE pb)) (w_events w ++ [(p, NN_PIPE_OUT)])).
Proof.
  intros Hp Hi He. unfold nn_pipebase_sent. rewrite Hp. mred. rewrite Hi. decide_bools. mred. by rewrite nn_pipe_raise_ok.
Qed.
Section Ext.
  Context `{Framing}.

Lemma out_link_ext w w' pb pb' sent : out_link w pb sent -> st_outstate (st w') = st_outstate (st w) -> pb_outstate pb' = pb_outstate pb ->
  out_side (us w') = out_side (us w) -> ((the_pipe, NN_PIPE_OUT) ∈ w_events w' -> (the_pipe, NN_PIPE_OUT) ∈ w_events w) -> out_link w' pb' sent.
Proof.
  intros Hl Es Ep Eu Ee. destruct Hl as [H1 H2 H3|sent H1 H2 H3 H4]; rewrite <- Es in H1; rewrite <- Ep in H2.
  - apply OutIdle; [done..|]. by eapply out_side_idle.
  - apply OutSending; [done|done| |naive_solver]. destruct sent; [by eapply out_side_idle|by eapply out_side_busy].
Qed.

Lemma in_request_ext u u' rcvd n : in_side u' = in_side u -> in_request rcvd u n -> in_request rcvd u' n.
Proof.
  intros E Hr. destruct rcvd; [|by eapply in_side_busy]. destruct Hr as [Hi Hl]. split; [by eapply in_side_idle|].
  injection E as _ E _ _ _ _. by rewrite E.
Qed.

Lemma in_link_ext w w' pb pb' rcvd cur : in_link w pb rcvd cur -> st_instate (st w') = st_instate (st w) -> st_inmsg (st w') = st_inmsg (st w) ->
  pb_instate pb' = pb_instate pb -> in_side (us w') = in_side (us w) ->
  ((the_pipe, NN_PIPE_IN) ∈ w_events w' -> (the_pipe, NN_PIPE_IN) ∈ w_events w) -> in_link w' pb' rcvd cur.
Proof.
  intros Hl Es Em Ep Eu Ee. assert (Eb : in_buf (us w') = in_buf (us w)) by (by injection Eu).
  destruct Hl as [rcvd H1 H2 H3 H4|rcvd b H1 H2 H3 H4 H5 H6|b H1 H2 H3 H4 H5]; rewrite <- Es in H1; rewrite <- Ep in H2; rewrite <- ?Eb.
  - apply InHdr; [done|done| |naive_solver]. by eapply in_request_ext.
  - apply InBody; [done|done| |done|done|naive_solver]. by eapply in_request_ext.
  - rewrite <- Em in H4. apply InMsg; [done..| |done|done]. by eapply in_side_idle.
Qed.

End Ext.

(** ** The events of an established session *)
Section Data.
  Context `{Framing} {S : Type}.
  Context (add : S -> cworld -> addr -> result (S * cworld * Z)) (rm : S -> cworld -> addr -> result (S * cworld)).
  Context (protocol : Z) (ispeer : Z -> bool) (rcvmaxsize : Z) (alloc : Z -> bool).

Abbreviation handler := (nn_stcp_handler add rm protocol ispeer rcvmaxsize alloc).

(** A message this end can take. *)
Definition acceptable (b : bytes) : Prop :=
  Z.of_nat (length b) < 2 ^ 64 /\ alloc (Z.of_nat (length b)) = true /\
  (fr_checks_size = true -> 0 <= rcvmaxsize -> Z.of_nat (length b) <= rcvmaxsize).

(** The event at the front leaves the queue. *)
Definition popped (w : cworld) : cworld := set_io w (Io [] (us w) (io_sys (c_io (cn w)))).

Lemma has_msg_ok (s : S) w b pb : w_pipes w !! the_pipe = Some pb -> pb_instate pb = NN_PIPEBASE_INSTATE_ASYNC -> (the_pipe, NN_PIPE_IN) ∉ w_events w ->
  exists w', has_msg s w (Msg [] [] b) = Ok (s, w') /\ c_io (cn w') = c_io (cn w) /\ st w' = st_set_in (Some NN_STCP_INSTATE_HASMSG) (Msg [] [] b) (st w)
    /\ w_pipes w' !! the_pipe = Some (set_in NN_PIPEBASE_INSTATE_IDLE pb) /\ w_events w' = w_events w ++ [(the_pipe, NN_PIPE_IN)] /\ c_sh (cn w') = c_sh (cn w).
Proof.
  intros Hp Hi He. unfold has_msg. rewrite (pipe_received _ pb) by done. mred. eexists. split; [reflexivity|].
  repeat (split; [done|]). split; [apply lookup_insert_eq|done].
Qed.

Lemma inbound_step s w cur rest q : active w false true cur -> stream w cur rest = frames q -> Forall acceptable q ->
  exists w' rcvd cur', handler s (popped w) NN_STCP_SRC_USOCK NN_USOCK_RECEIVED = Ok (s, w') /\ active w' false rcvd cur' /\ stream w' cur' rest = frames q
    /\ outgoing (us w') = outgoing (us w) /\ c_sh (cn w') = c_sh (cn w) /\ (rcvd = true -> st_instate (st w) = Some NN_STCP_INSTATE_HDR /\ st_instate (st w') = Some NN_STCP_INSTATE_BODY).
Proof.
  intros [Hq Hu Hst Hf Hoh Hsys (pb & Hp & Hps & Hin & Hout)] Hstr Hacc. unfold nn_stcp_handler.
  replace (st (popped w)) with (st w) by done. rewrite Hst. eval_bools.
  assert (Hmsg : forall b P, Z.of_nat (length b) < 2 ^ 64 -> in_idle (us w) -> pb_instate pb = NN_PIPEBASE_INSTATE_ASYNC -> (the_pipe, NN_PIPE_IN) ∉ w_events w ->
    frame b ++ incoming (us w) ++ rest = frames q ->
    exists w' rcvd cur', has_msg s (popped w) (Msg [] [] b) = Ok (s, w') /\ active w' false rcvd cur' /\ stream w' cur' rest = frames q
    /\ outgoing (us w') = outgoing (us w) /\ c_sh (cn w') = c_sh (cn w) /\ (rcvd = true -> P w')).
  { intros b P Hb64 Hidle Hpi He Hb. destruct (has_msg_ok s (popped w) b pb) as (w' & E & Eio & Est & Epb & Eev & Esh); [done..|].
    assert (Eus : us w' = us w) by (unfold us; by rewrite Eio).
    exists w', false, (frame b). split; [exact E|]. split; [|split; [unfold stream; by rewrite Eus|split; [by rewrite Eus|split; [by rewrite Esh|done]]]].
    constructor; [by rewrite Eio|by rewrite Eus|by rewrite Est|by rewrite Est|by rewrite Est|by rewrite Eio|].
    eexists. split; [exact Epb|]. split; [done|]. split; [by apply InMsg; rewrite ?Est, ?Eus|].
    eapply out_link_ext; [exact Hout|by rewrite Est|done|by rewrite Eus|]. rewrite Eev, elem_of_app, list_elem_of_singleton. naive_solver. }
  inversion Hin as [r Hi Hpi Hreq0 He Er Ec|r b Hi Hpi Hreq0 Hb64 Hb He Er Ec|]; subst r; destruct Hreq0 as [Hidle Hlen]; rewrite Hi.
  - unfold received_header. replace (us (popped w)) with (us w) by done. rewrite <- Ec in Hstr. unfold stream in Hstr.
    destruct (first_header _ _ _ Hlen Hstr) as (b & q' & -> & Ehd & Erest). apply Forall_cons in Hacc as [(Hb64 & Hal & Hmax) _].
    rewrite Ehd. destruct (read_header b Hb64) as [-> ->]. rewrite (bool_decide_eq_true_2 (fr_prefix = fr_prefix) eq_refl). mred.
    assert (Hchk : fr_checks_size && bool_decide (0 <= rcvmaxsize) && bool_decide (Z.of_nat (length b) > rcvmaxsize) = false).
    { destruct fr_checks_size; [|done]. specialize (Hmax eq_refl). destruct (decide (0 <= rcvmaxsize)); [|by rewrite (bool_decide_false (0 <= _))].
      rewrite (bool_decide_false (_ > _)) by lia. apply andb_false_r. }
    rewrite Hchk, Hal. mred. cases (Z.of_nat (length b) = 0) as Hz.
    + destruct b; [|cbn in Hz; lia]. apply (Hmsg [] (fun w' => _ /\ st_instate (st w') = _)); [done..|]. rewrite Erest. unfold frames, frame. cbn. by rewrite app_nil_r.
    + destruct (io_recv_ok session_owner (Io [] (us w) (io_sys (c_io (cn w)))) (Z.of_nat (length b)) Hu eq_refl Hsys Hidle) as
        (x' & rcvd & E & Hu' & Hq' & Hsys' & Hos & Hinc & Hreq); [lia|]. cbn [io_us] in *.
      unfold popped. conn_simpl. rewrite E. mred. eexists _, rcvd, (header b ++ in_buf (io_us x')). split; [reflexivity|].
      split; [|split; [|split; [by apply out_side_outgoing|done]]].
      * constructor; conn_simpl; [by rewrite Hq'|done..|]. exists pb. split; [done|]. split; [done|]. split.
        -- apply InBody; conn_simpl; [done..| |done]. by intros ->.
        -- eapply out_link_ext; [exact Hout|done..].
      * unfold stream. conn_simpl. unfold frames. cbn [fmap list_fmap concat]. unfold frame at 1. rewrite <- !app_assoc. f_equal.
        rewrite (app_assoc (in_buf _)), <- Hinc. exact Erest.
  - rewrite <- Ec in Hstr. unfold stream in Hstr. rewrite <- app_assoc in Hstr.
    destruct (first_header _ _ _ (header_length b) Hstr) as (b1 & q' & -> & Ehd & Erest). apply Forall_cons in Hacc as [(Hb1 & _) _].
    pose proof (header_inj b b1 Hb64 Hb1 Ehd) as Elen.
    apply app_inj_1 in Erest as [Eb Erest]; [|lia]. replace (us (popped w)) with (us w) by done. rewrite Eb. apply (Hmsg b1 (fun w' => _ /\ st_instate (st w') = _)); [done..|].
    rewrite Erest. unfold frames. reflexivity.
Qed.

Lemma outbound_step s w cur : active w true false cur ->
  exists w', handler s (popped w) NN_STCP_SRC_USOCK NN_USOCK_SENT = Ok (s, w') /\ active w' false false cur /\ us w' = us w /\ c_sh (cn w') = c_sh (cn w).
Proof.
  intros [Hq Hu Hst Hf Hoh Hsys (pb & Hp & Hps & Hin & Hout)]. unfold nn_stcp_handler.
  replace (st (popped w)) with (st w) by done. rewrite Hst. eval_bools.
  inversion Hout as [|sent Hso Hpo Hidle He Er]; subst sent. rewrite Hso, bool_decide_true by done. mred.
  rewrite (pipe_sent _ pb) by done. mred. eexists. split; [reflexivity|]. split; [|done].
  constructor; [done..|]. eexists. split; [apply lookup_insert_eq|]. split; [done|]. split; [|by apply OutIdle].
  eapply in_link_ext; [exact Hin|done..|]. cbn. rewrite elem_of_app, list_elem_of_singleton. naive_solver.
Qed.

(** *** Leaving the context *)

Abbreviation process := (process_event add rm protocol ispeer rcvmaxsize alloc).
Abbreviation run_events := (nn_ctx_leave events with_events process).

Lemma process_session s w type sl : st_fsm (st w) = NN_FSM_STATE_ACTIVE ->
  process (with_events (s, w) []) (FsmEvent (CUsock, sl) session_owner.1 session_owner.2 type) = handler s (popped w) NN_STCP_SRC_USOCK type.
Proof.
  intros Hf. unfold process_event, with_events. cbn [ev_obj ev_fsm ev_src ev_type fst snd session_owner]. unfold stcp_feed.
  match goal with |- (if negb (bool_decide (st_fsm (st ?v) = _)) then _ else _) = _ => change (st_fsm (st v)) with (st_fsm (st w)) end.
  rewrite Hf. eval_bools. reflexivity.
Qed.

Lemma drain_received fuel s w cur rest q rcvd : (2 <= fuel)%nat -> active w false rcvd cur -> stream w cur rest = frames q -> Forall acceptable q ->
  exists w' cur', run_events fuel (s, w) = Ok (s, w') /\ active w' false false cur' /\ stream w' cur' rest = frames q
    /\ outgoing (us w') = outgoing (us w) /\ c_sh (cn w') = c_sh (cn w).
Proof.
  intros Hfuel Hac Hstr Hacc. destruct rcvd.
  2: { exists w, cur. split; [|done]. apply nn_ctx_leave_empty. apply Hac. }
  destruct fuel as [|[|fuel]]; [lia..|].
  assert (Hstep : forall fuel w w1, active w false true cur \/ (exists c, active w false true c) -> handler s (popped w) NN_STCP_SRC_USOCK NN_USOCK_RECEIVED = Ok (s, w1) ->
    run_events (Datatypes.S fuel) (s, w) = run_events fuel (s, w1)).
  { intros fuel0 v v1 Hv E. assert (exists c, active v false true c) as [c Hc] by naive_solver.
    apply (nn_ctx_leave_step _ _ _ fuel0 (s, v) (received_event session_owner) [] (s, v1)); [apply Hc|].
    unfold received_event. rewrite process_session by apply Hc. exact E. }
  destruct (inbound_step s w cur rest q Hac Hstr Hacc) as (w1 & r1 & c1 & E1 & Hac1 & Hstr1 & Ho1 & Hsh1 & Hb1).
  rewrite (Hstep (Datatypes.S fuel) w w1) by eauto. destruct r1.
  2: { exists w1, c1. split; [|done]. apply nn_ctx_leave_empty. apply Hac1. }
  destruct (inbound_step s w1 c1 rest q Hac1 Hstr1 Hacc) as (w2 & r2 & c2 & E2 & Hac2 & Hstr2 & Ho2 & Hsh2 & Hb2).
  rewrite (Hstep fuel w1 w2) by eauto.
  assert (r2 = false) as ->.
  { destruct r2; [|done]. destruct (Hb1 eq_refl) as [_ Hb]. destruct (Hb2 eq_refl) as [Hh _]. congruence. }
  exists w2, c2. split; [apply nn_ctx_leave_empty; apply Hac2|]. split; [done|]. split; [done|]. split; [by rewrite Ho2|by rewrite Hsh2].
Qed.

Lemma drain_sent fuel s w cur : (1 <= fuel)%nat -> active w true false cur ->
  exists w', run_events fuel (s, w) = Ok (s, w') /\ active w' false false cur /\ us w' = us w /\ c_sh (cn w') = c_sh (cn w).
Proof.
  intros Hfuel Hac. destruct fuel as [|fuel]; [lia|]. destruct (outbound_step s w cur Hac) as (w' & E & Hac' & Hu & Hsh). exists w'. split; [|done].
  rewrite (nn_ctx_leave_step _ _ _ fuel (s, w) (sent_event session_owner) [] (s, w')).
  - apply nn_ctx_leave_empty. apply Hac'.
  - apply Hac.
  - unfold sent_event. rewrite process_session by apply Hac. exact E.
Qed.

(** *** The operations *)

Abbreviation step := (conn_step add rm protocol ispeer rcvmaxsize alloc).

(** An established session between two steps. *)
Definition at_rest (w : cworld) (cur : bytes) : Prop := active w false false cur /\ w_events w = [].

Lemma settle_ok s w s' w' : run_events leave_fuel (s, w) = Ok (s', w') -> settle add rm protocol ispeer rcvmaxsize alloc s w = Ok (s', set_events w' []).
Proof. intros E. unfold settle, Stcp.leave. rewrite E. reflexivity. Qed.

(** Taking the pipe's events forgets nothing the session relies on. *)
Lemma rest_events w cur : active w false false cur -> at_rest (set_events w []) cur.
Proof.
  intros [Hq Hu Hst Hf Hoh Hsys (pb & Hp & Hps & Hin & Hout)]. split; [|done]. constructor; [done..|]. exists pb.
  split; [done|]. split; [done|]. split; [eapply in_link_ext; [exact Hin|done..|]|eapply out_link_ext; [exact Hout|done..|]]; cbn; set_solver.
Qed.

Lemma active_send s w cur m sys : at_rest w cur -> Forall reply_ok sys -> Z.of_nat (length (wire_msg m)) < 2 ^ 64 ->
  (exists w', step (SendMsg m sys) s w = Ok (s, w', Some m) /\ at_rest w' cur /\ in_side (us w') = in_side (us w)
     /\ outgoing (us w') = outgoing (us w) ++ frame (wire_msg m) /\ c_sh (cn w') = c_sh (cn w)) \/ step (SendMsg m sys) s w = Ok (s, w, None).
Proof.
  intros [[Hq Hu Hst Hf Hoh Hsys (pb & Hp & Hps & Hin & Hout)] Hev] Hs Hm. unfold conn_step, pipe_is. rewrite Hp, Hps.
  change (bool_decide (NN_PIPEBASE_STATE_ACTIVE = NN_PIPEBASE_STATE_ACTIVE)) with true. cbn [andb].
  cases (pb_outstate pb = NN_PIPEBASE_OUTSTATE_IDLE) as Ho; [left|by right].
  inversion Hout as [Hso _ Hidle|sent _ Hpo]; [|congruence]. clear Hout.
  unfold nn_pipe_send. replace (w_pipes (with_sys w sys)) with (w_pipes w) by done. rewrite Hp. mred. rewrite (bool_decide_eq_true_2 _ Ho). mred.
  cbn [vf_send stcp_transport]. unfold nn_stcp_send. set (w1 := set_pipe _ _ _).
  replace (st w1) with (st w) by done. rewrite Hst, Hso, !bool_decide_true by done. mred.
  destruct (write_header m (st_outhdr (st w)) Hm Hoh) as (size & Esz & Ehd). cbn [st_outhdr st_set_out]. rewrite Esz. mred.
  cbn [st_outhdr st_set_outhdr]. rewrite Ehd.
  destruct (io_send_ok session_owner (c_io (cn w1)) [header (wire_msg m); sphdr m; body m]) as (x' & sent & E & Hu' & Hq' & Hs' & Hi' & Ho' & Hreq); [done..|cbn; lia| |].
  { cbn [concat]. intros E%(f_equal length). rewrite length_app in E. pose proof (header_length (wire_msg m)) as Hl. unfold header_len in Hl. cbn [length] in E. lia. }
  rewrite E. mred. rewrite bool_decide_true by lia. mred. 
  match goal with |- context [w_pipes ?v !! the_pipe] => assert (Ep : w_pipes v !! the_pipe = Some (set_out NN_PIPEBASE_OUTSTATE_SENDING pb)) by apply lookup_insert_eq end.
  rewrite Ep. mred.
  eval_bools. mred.
  set (w2 := set_pipe _ _ _). assert (Hac : active w2 sent false cur).
  { constructor; unfold w2; conn_simpl; [by rewrite Hq', app_nil_r|done|done|done| |done|].
    - unfold st_set_out, st_set_outhdr. cbn. by rewrite header_length.
    - eexists. split; [apply lookup_insert_eq|]. split; [done|]. split.
      + eapply in_link_ext; [exact Hin|done..].
      + apply OutSending; [done|done|done|]. cbn. rewrite Hev. set_solver. }
  assert (Hout2 : outgoing (us w2) = outgoing (us w) ++ frame (wire_msg m)).
  { change (us w2) with (io_us x'). rewrite Ho'. change (io_us (c_io (cn w1))) with (us w). f_equal. cbn [concat]. by rewrite app_nil_r. }
  destruct sent.
  - destruct (drain_sent leave_fuel s w2 cur) as (w3 & E3 & Hac3 & Hu3 & Hsh3); [unfold leave_fuel; lia|done|].
    rewrite (settle_ok s w2 s w3 E3). mred. eexists. split; [reflexivity|]. split; [by apply rest_events|].
    change (us (set_events w3 [])) with (us w3). rewrite Hu3. done.
  - rewrite (settle_ok s w2 s w2) by (by apply nn_ctx_leave_empty, Hac). mred. eexists. split; [reflexivity|]. split; [by apply rest_events|]. done.
Qed.

(** The context is left with the events of at most one direction. *)
Lemma settle_active s w sent rcvd cur rest q : active w sent rcvd cur -> sent && rcvd = false -> stream w cur rest = frames q -> Forall acceptable q ->
  exists w' cur', settle add rm protocol ispeer rcvmaxsize alloc s w = Ok (s, w') /\ at_rest w' cur' /\ stream w' cur' rest = frames q
    /\ outgoing (us w') = outgoing (us w) /\ c_sh (cn w') = c_sh (cn w).
Proof.
  intros Hac Hb Hstr Hacc. destruct sent; [destruct rcvd; [done|]|].
  - destruct (drain_sent leave_fuel s w cur) as (w' & E & Hac' & Hu & Hsh); [unfold leave_fuel; lia|done|].
    exists (set_events w' []), cur. rewrite (settle_ok s w s w' E). split; [done|]. split; [by apply rest_events|].
    split; [unfold stream; change (us (set_events w' [])) with (us w'); by rewrite Hu|]. split; [|done]. change (us (set_events w' [])) with (us w'). by rewrite Hu.
  - destruct (drain_received leave_fuel s w cur rest q rcvd) as (w' & cur' & E & Hac' & Hstr' & Ho & Hsh); [unfold leave_fuel; lia|done|done|done|].
    exists (set_events w' []), cur'. rewrite (settle_ok s w s w' E). split; [done|]. split; [by apply rest_events|]. done.
Qed.

Lemma active_recv s w cur rest q sys : at_rest w cur -> Forall reply_ok sys -> stream w cur rest = frames q -> Forall acceptable q ->
  (exists w' cur' b q', step (RecvMsg sys) s w = Ok (s, w', Some (Msg [] [] b)) /\ q = b :: q' /\ at_rest w' cur' /\ stream w' cur' rest = frames q'
     /\ outgoing (us w') = outgoing (us w) /\ c_sh (cn w') = c_sh (cn w)) \/ step (RecvMsg sys) s w = Ok (s, w, None).
Proof.
  intros [[Hq Hu Hst Hf Hoh Hsys (pb & Hp & Hps & Hin & Hout)] Hev] Hs Hstr Hacc. unfold conn_step, pipe_is. rewrite Hp, Hps.
  change (bool_decide (NN_PIPEBASE_STATE_ACTIVE = NN_PIPEBASE_STATE_ACTIVE)) with true. cbn [andb].
  cases (pb_instate pb = NN_PIPEBASE_INSTATE_IDLE) as Hi; [left|by right].
  inversion Hin as [r Hsi Hpi|r b0 Hsi Hpi|b Hsi _ Hidle Hmsg Hb64 Er Ec]; [congruence..|]. clear Hin. subst cur.
  unfold stream in Hstr. unfold frame in Hstr. rewrite <- app_assoc in Hstr.
  destruct (first_header _ _ _ (header_length b) Hstr) as (b1 & q' & -> & Ehd & Erest).
  apply Forall_cons in Hacc as [(Hb1 & _) Hacc]. apply app_inj_1 in Erest as [<- Hstr']; [|by apply header_inj].
  unfold nn_pipe_recv. replace (w_pipes (with_sys w sys)) with (w_pipes w) by done. rewrite Hp. mred. rewrite (bool_decide_eq_true_2 _ Hi). mred.
  cbn [vf_recv stcp_transport]. unfold nn_stcp_recv. set (w1 := set_pipe _ _ _).
  replace (st w1) with (st w) by done. rewrite Hst, Hsi, !bool_decide_true by done. mred. unfold recv_header.
  set (x1 := c_io (cn (set_st (set_st w1 _) _))).
  destruct (io_recv_ok session_owner x1 header_len) as (x' & rcvd & E & Hu' & Hq' & Hsys' & Hos & Hinc & Hreq); [done..|unfold header_len; lia|].
  unfold header_len in E. rewrite E. mred. rewrite bool_decide_true by lia. mred.
  match goal with |- context [w_pipes ?v !! the_pipe] => assert (Ep : w_pipes v !! the_pipe = Some (set_in NN_PIPEBASE_INSTATE_RECEIVING pb)) by apply lookup_insert_eq end.
  rewrite Ep. mred. eval_bools. mred. rewrite Hmsg.
  set (w2 := set_pipe _ _ _). assert (Hac : active w2 false rcvd (in_buf (io_us x'))).
  { constructor; unfold w2; conn_simpl; [by rewrite Hq'|done..|]. eexists. split; [apply lookup_insert_eq|]. split; [done|]. split.
    - apply InHdr; [done|done|done|]. cbn. rewrite Hev. set_solver.
    - eapply out_link_ext; [exact Hout|done|done|exact Hos|done]. }
  assert (Hstr2 : stream w2 (in_buf (io_us x')) rest = frames q').
  { unfold stream. change (us w2) with (io_us x'). rewrite app_assoc, <- Hinc. exact Hstr'. }
  destruct (settle_active s w2 false rcvd _ rest q' Hac eq_refl Hstr2 Hacc) as (w3 & cur3 & -> & Hrest & Hstr3 & Ho3 & Hsh3). mred.
  exists w3, cur3, b, q'. split; [done|]. split; [done|]. split; [done|]. split; [done|]. split; [|done].
  rewrite Ho3. by apply out_side_outgoing.
Qed.

(** *** The worker *)

(** What a job does to a socket in use, seen from both directions. *)
Lemma io_worker_ok o x j (sent rcvd : bool) n : usock_active o (io_us x) -> io_q x = [] -> Forall reply_ok (io_sys x) -> job_ok j -> worker_can (io_us x) j = true ->
  (if sent then out_busy (io_us x) else out_idle (io_us x)) -> (if rcvd then in_busy (io_us x) n else in_idle (io_us x)) ->
  exists x' s' r' d, io_worker x j = Ok x' /\ usock_active o (io_us x') /\ io_q x' = (if s' : bool then [sent_event o] else []) ++ (if r' : bool then [received_event o] else [])
    /\ s' && r' = false /\ Forall reply_ok (io_sys x') /\ outgoing (io_us x') = outgoing (io_us x)
    /\ incoming (io_us x) = d ++ incoming (io_us x') /\ in_buf (io_us x') = in_buf (io_us x) ++ d
    /\ (if sent then out_request s' (io_us x') else s' = false /\ out_idle (io_us x'))
    /\ (if rcvd then in_request r' (io_us x') n else r' = false /\ d = [] /\ in_idle (io_us x')).
Proof.
  intros Hu Hq Hs Hj Hcan Hout Hin. unfold io_worker. rewrite Hq. destruct j as [|r|r|]; cbn in Hj; [| | |done].
  - destruct (worker_task_ok o (io_us x) Hu) as (u' & -> & Hu' & Ho & Hi & Hb & H1 & H2 & H3 & H4). mred.
    eexists _, false, false, []. rewrite !app_nil_r. cbn [io_q io_us io_sys app]. repeat (split; [done|]).
    split; [destruct sent; [by apply H2|by split; [|apply H1]]|]. destruct rcvd; [by apply H4|]. split; [done|]. split; [done|]. by apply H3.
  - cbn in Hcan. apply andb_prop in Hcan as [_ Hp]. destruct rcvd; [|by destruct Hin as [_ Hin]; rewrite Hin in Hp].
    cbn [worker_do]. rewrite (worker_feed_fd o) by auto. change (bool_decide (NN_WORKER_FD_IN = NN_WORKER_FD_IN)) with true. cbn iota.
    destruct (active_in_ok o (io_us x) n r Hu Hin Hj Hp) as (q & u' & d & -> & Hu' & Hos & Hbuf & Hinc & Hres). cbn [alone]. mred.
    assert (Hout' : if sent then out_request false u' else false = false /\ out_idle u') by (destruct sent; [by eapply out_side_busy|split; [done|]; by eapply out_side_idle]).
    destruct Hres as [(-> & Hi)|(-> & Hb)]; [eexists _, false, true, d|eexists _, false, false, d]; cbn [io_q io_us io_sys];
      repeat (split; [first [done|by apply out_side_outgoing]|]); done.
  - cbn in Hcan. apply andb_prop in Hcan as [_ Hp]. destruct sent; [|by destruct Hout as (_ & _ & Hout); rewrite Hout in Hp].
    cbn [worker_do]. rewrite (worker_feed_fd o) by auto. change (bool_decide (NN_WORKER_FD_OUT = NN_WORKER_FD_IN)) with false. cbn iota.
    destruct (active_out_ok o (io_us x) r Hu Hout Hj Hp) as (q & u' & -> & Hu' & His & Hog & Hres). cbn [alone]. mred.
    assert (Hin' : if rcvd then in_request false u' n else false = false /\ [] = @nil Z /\ in_idle u') by (destruct rcvd; [by eapply in_side_busy|do 2 (split; [done|]); by eapply in_side_idle]).
    assert (Hbuf : in_buf u' = in_buf (io_us x)) by (by injection His). pose proof (in_side_incoming _ _ His) as Hinc.
    destruct Hres as [(-> & Hi)|(-> & Hb)]; [eexists _, true, false, []|eexists _, false, false, []]; rewrite !app_nil_r; cbn [io_q io_us io_sys app];
      repeat (split; [first [done|by symmetry]|]); done.
Qed.

Lemma active_worker s w cur rest q j sys : at_rest w cur -> Forall reply_ok sys -> job_ok j -> stream w cur rest = frames q -> Forall acceptable q ->
  exists w' cur', step (Worker j sys) s w = Ok (s, w', None) /\ at_rest w' cur' /\ stream w' cur' rest = frames q
     /\ outgoing (us w') = outgoing (us w) /\ c_sh (cn w') = c_sh (cn w).
Proof.
  intros Hrest Hs Hj Hstr Hacc. unfold conn_step. destruct (worker_can (us w) j) eqn:Hcan; [|by exists w, cur].
  destruct Hrest as [[Hq Hu Hst Hf Hoh Hsys (pb & Hp & Hps & Hin & Hout)] Hev].
  set (x := c_io (cn (with_sys w sys))).
  assert (Hsent : exists sent, (if sent : bool then out_busy (us w) else out_idle (us w))
    /\ forall s' w2 pb2, (if sent then out_request s' (us w2) else s' = false /\ out_idle (us w2)) -> st_outstate (st w2) = st_outstate (st w) ->
         pb_outstate pb2 = pb_outstate pb -> w_events w2 = [] -> out_link w2 pb2 s').
  { inversion Hout as [H1 H2 H3|r H1 H2 H3 H4]; [exists false|subst r; exists true]; (split; [done|]); intros s' w2 pb2 Ho Es Ep Ee.
    - destruct Ho as [-> Ho]. by apply OutIdle; rewrite ?Es, ?Ep.
    - apply OutSending; rewrite ?Es, ?Ep, ?Ee; [done..|set_solver]. }
  assert (Hrcvd : exists rcvd n, (if rcvd : bool then in_busy (us w) n else in_idle (us w))
    /\ forall r' d w2 pb2, (if rcvd then in_request r' (us w2) n else r' = false /\ d = [] /\ in_idle (us w2)) -> st_instate (st w2) = st_instate (st w) ->
         st_inmsg (st w2) = st_inmsg (st w) -> pb_instate pb2 = pb_instate pb -> w_events w2 = [] -> in_buf (us w2) = in_buf (us w) ++ d -> in_link w2 pb2 r' (cur ++ d)).
  { inversion Hin as [r H1 H2 H3 H4|r b H1 H2 H3 H4 H5 H6|b H1 H2 H3 H4 H5]; [subst r; exists true, header_len|subst r; exists true, (Z.of_nat (length b))|exists false, 0];
      (split; [done|]); intros r' d w2 pb2 Hi Es Em Ep Ee Eb.
    - rewrite <- Eb. apply InHdr; rewrite ?Es, ?Ep, ?Ee; [done..|set_solver].
    - rewrite <- app_assoc, <- Eb. apply InBody; rewrite ?Es, ?Ep, ?Ee; [done..|set_solver].
    - destruct Hi as (-> & -> & Hi). rewrite app_nil_r. by apply InMsg; rewrite ?Es, ?Ep, ?Em. }
  destruct Hsent as (sent & Hout0 & Hout1), Hrcvd as (rcvd & n & Hin0 & Hin1).
  destruct (io_worker_ok session_owner x j sent rcvd n) as (x' & s' & r' & d & -> & Hu' & Hq' & Hsr & Hs' & Ho' & Hi' & Hb' & Hout' & Hin'); [done..|]. mred.
  destruct (settle_active s (set_io w x') s' r' (cur ++ d) rest q) as (w3 & cur3 & -> & Hrest & Hstr3 & Ho3 & Hsh3); [|done| |done|].
  { constructor; [done..|]. exists pb. split; [done|]. split; [done|]. split; [by eapply Hin1|by eapply Hout1]. }
  { rewrite <- Hstr. unfold stream. change (us (set_io w x')) with (io_us x'). rewrite <- app_assoc. f_equal. rewrite app_assoc. f_equal. by rewrite <- Hi'. }
  mred. exists w3, cur3. split; [done|]. split; [done|]. split; [done|]. split; [by rewrite Ho3|done].
Qed.
End Data.

(** ** The exchange of headers *)

(** The phases of the child machine; an event of the socket may be queued. *)
Inductive greeting := HSending (sent : bool) | HReceiving (rcvd : bool) | HStopping.

Definition greeting_events (ph : greeting) : nn_ctx :=
  match ph with HSending true => [sent_event header_owner] | HReceiving true => [received_event header_owner] | _ => [] end.
Definition greeting_bytes (ph : greeting) (w : cworld) : bytes := match ph with HReceiving _ => in_buf (us w) | _ => [] end.
Definition greeted (ph : greeting) : bool := match ph with HStopping => true | _ => false end.

Definition greeting_phase (ph : greeting) (w : cworld) : Prop :=
  let h := c_sh (cn w) in
  match ph with
  | HSending sent => sh_state h = NN_STREAMHDR_STATE_SENDING /\ timer_rep (sh_timer h) (PActive false)
      /\ length (sh_protohdr h) = 8%nat /\ (if sent then out_idle (us w) else out_busy (us w)) /\ in_idle (us w)
  | HReceiving rcvd => sh_state h = NN_STREAMHDR_STATE_RECEIVING /\ timer_rep (sh_timer h) (PActive false)
      /\ out_idle (us w) /\ (if rcvd then in_idle (us w) /\ Z.of_nat (length (in_buf (us w))) = 8 else in_busy (us w) 8)
  | HStopping => sh_state h = NN_STREAMHDR_STATE_STOPPING_TIMER_DONE /\ timer_rep (sh_timer h) PStopping
      /\ out_idle (us w) /\ in_idle (us w)
  end.

Lemma timer_start_job t ph : timer_rep t ph -> worker_pending t WStart = true ->
  exists t', worker_feed t WStart = Ok t' /\ timer_rep t' ph.
Proof.
  open_timer t. intros (-> & -> & Hph) Hp. destruct ph as [|fired|]; destruct_and! Hph; subst; try done.
  - match goal with H : _ \/ _ |- _ => destruct H as [(_ & -> & Ht & ->)|(? & _)]; [|done] end.
    unfold nn_fsm_feed. cbn [m_fsm timer_machine tm_fsm fsm_st m_fn]. decide_bools. mred. cbn [nn_timer_handler]. decide_bools. mred.
    eexists. split; [reflexivity|]. cbn. naive_solver.
  - eexists. split; [reflexivity|]. cbn. naive_solver.
Qed.

Lemma timer_stop_job t : timer_rep t PStopping -> worker_pending t WStop = true ->
  exists t', worker_feed t WStop = Ok t' /\ tm_done t' = None /\ fsm_stopped (tm_fsm t') = Some NN_TIMER_STOPPED /\ timer_rep (timer_taken SStopped t') PIdle.
Proof.
  open_timer t. intros (-> & -> & Hph) Hp. destruct_and! Hph; subst. apply andb_prop in Hp as [_ Hp].
  eexists. split; [reflexivity|]. cbn. destruct (tm_start_task); done.
Qed.

Section Greeting.
  Context `{Framing} {S : Type}.
  Context (add : S -> cworld -> addr -> result (S * cworld * Z)) (rm : S -> cworld -> addr -> result (S * cworld)) `{!AcceptingSockets add}.
  Context (protocol : Z) (ispeer : Z -> bool) (rcvmaxsize : Z) (alloc : Z -> bool).
  Context (peer_protocol : Z) (Hpeer : nn_pipebase_ispeer protocol ispeer (u16 peer_protocol) = true).

Abbreviation run_events := (nn_ctx_leave events with_events (process_event add rm protocol ispeer rcvmaxsize alloc)).
Abbreviation process := (process_event add rm protocol ispeer rcvmaxsize alloc).
Abbreviation acceptable := (acceptable rcvmaxsize alloc).

(** A session whose child exchanges the headers. *)
Record greets (w : cworld) (ph : greeting) : Prop := {
  gr_events : io_q (c_io (cn w)) = greeting_events ph;
  gr_usock : usock_active header_owner (us w);
  gr_sys : Forall reply_ok (io_sys (c_io (cn w)));
  gr_state : st_state (st w) = NN_STCP_STATE_PROTOHDR;
  gr_fsm : st_fsm (st w) = NN_FSM_STATE_ACTIVE;
  gr_outhdr : Z.of_nat (length (st_outhdr (st w))) = header_len;
  gr_sh_fsm : sh_fsm (c_sh (cn w)) = NN_FSM_STATE_ACTIVE;
  gr_sh_src : sh_src (c_sh (cn w)) = NN_STCP_SRC_STREAMHDR;
  gr_sh_owner : sh_owner (c_sh (cn w)) = session_owner;
  gr_pipe : exists pb, w_pipes w !! the_pipe = Some pb /\ pb_state pb = NN_PIPEBASE_STATE_IDLE;
  gr_wevents : w_events w = [];
  gr_phase : greeting_phase ph w;
}.

(** What the session and the peer's bytes are about: the header first, then
    messages. *)
Definition greeting_stream (w : cworld) (ph : greeting) (rest : bytes) (q : list bytes) : Prop :=
  stream w (greeting_bytes ph w) rest = (if greeted ph then [] else hello peer_protocol) ++ frames q.

Lemma process_header s w type sl : sh_fsm (c_sh (cn w)) = NN_FSM_STATE_ACTIVE ->
  process (with_events (s, w) []) (FsmEvent (CUsock, sl) header_owner.1 header_owner.2 type) =
    '(x, h) ← nn_streamhdr_handler protocol ispeer (c_io (cn (popped w))) (c_sh (cn w)) NN_STREAMHDR_SRC_USOCK type; Ok (s, set_sh (popped w) x h).
Proof.
  intros Hf. unfold process_event, with_events. cbn [ev_obj ev_fsm ev_src ev_type fst snd header_owner]. unfold streamhdr_feed.
  match goal with |- (if negb (bool_decide (sh_fsm ?v = _)) then _ else _) ≫= _ = _ => change (sh_fsm v) with (sh_fsm (c_sh (cn w))) end.
  rewrite Hf. eval_bools. reflexivity.
Qed.

(** The header is sent. *)
Lemma greeting_sent s w rest q : greets w (HSending true) -> greeting_stream w (HSending true) rest q ->
  exists w' r, process (with_events (s, w) []) (sent_event header_owner) = Ok (s, w') /\ greets w' (HReceiving r)
    /\ greeting_stream w' (HReceiving r) rest q /\ outgoing (us w') = outgoing (us w).
Proof.
  intros [Hq Hu Hsys Hst Hf Hoh Hsf Hss Hso Hp Hev (Hsh & Ht & Hl & Hout & Hin)] Hstr.
  unfold sent_event. rewrite process_header by done. unfold nn_streamhdr_handler. rewrite Hsh. eval_bools. rewrite Hl. change (Z.of_nat 8) with 8.
  destruct (io_recv_ok header_owner (c_io (cn (popped w))) 8) as (x' & r & -> & Hu' & Hq' & Hs' & Hos & Hinc & Hreq); [done..|]. mred.
  eexists _, r. split; [reflexivity|]. split; [|split; [|by apply out_side_outgoing]].
  - constructor; [by conn_simpl; rewrite Hq'; destruct r|done..|]. split; [done|]. split; [done|]. split; [by eapply out_side_idle|]. by destruct r.
  - unfold greeting_stream, stream in *. cbn [greeting_bytes greeted app] in *. rewrite <- Hstr. cbn. rewrite app_assoc. f_equal. by symmetry.
Qed.

(** The header of the peer is there, and good. *)
Lemma greeting_received s w rest q : greets w (HReceiving true) -> greeting_stream w (HReceiving true) rest q ->
  exists w', process (with_events (s, w) []) (received_event header_owner) = Ok (s, w') /\ greets w' HStopping
    /\ greeting_stream w' HStopping rest q /\ us w' = us w.
Proof.
  intros [Hq Hu Hsys Hst Hf Hoh Hsf Hss Hso Hp Hev (Hsh & Ht & Hout & Hin & Hlen)] Hstr.
  unfold greeting_stream, stream in Hstr. cbn [greeting_bytes greeted] in Hstr.
  apply app_inj_1 in Hstr as [Hbuf Hstr]; [|rewrite hello_length; lia].
  unfold received_event. rewrite process_header by done. unfold nn_streamhdr_handler. rewrite Hsh. eval_bools.
  replace (in_buf (io_us (c_io (cn (popped w))))) with (in_buf (us w)) by done. rewrite Hbuf. cbn [sh_set_protohdr sh_protohdr].
  rewrite (bool_decide_eq_true_2 (take 4 (hello peer_protocol) = magic)) by done. cbn [negb].
  assert (Eg : nn_gets (drop 4 (hello peer_protocol)) = Ok (u16 peer_protocol)).
  { change (drop 4 (hello peer_protocol)) with (be_bytes 2 (u16 peer_protocol) ++ [0; 0]).
    pose proof (be_bytes_ok 2 (u16 peer_protocol)) as Hok. pose proof (be_bytes_length 2 (u16 peer_protocol)) as Hl.
    pose proof (be_round 2 (u16 peer_protocol)) as Hr. destruct (be_bytes 2 (u16 peer_protocol)) as [|b0 [|b1 [|]]]; try done.
    cbn [app]. rewrite nn_gets_eq by done. f_equal. apply Hr. pose proof (wrap_range 16 peer_protocol). unfold in_range in *. lia. }
  rewrite Eg. mred. rewrite Hpeer. cbn [negb]. unfold stop_timer, Streamhdr.with_timer. cbn [sh_timer sh_set_protohdr].
  destruct (nn_timer_stop_rep (sh_timer (c_sh (cn w))) (PActive false) Ht) as (t' & -> & Ht'). mred.
  pose proof (proj1 Ht) as E1. pose proof (proj1 (proj2 Ht)) as E2. pose proof (proj1 Ht') as E3. pose proof (proj1 (proj2 Ht')) as E4.
  rewrite E1, E2, E3, E4. cbn [timer_raised]. mred. eexists. split; [reflexivity|]. split; [|done].
  constructor; [done..|]. done.
Qed.

Lemma greeting_drain fuel s w ph rest q : (2 <= fuel)%nat -> greets w ph -> greeting_stream w ph rest q ->
  exists w' ph', run_events fuel (s, w) = Ok (s, w') /\ greets w' ph' /\ io_q (c_io (cn w')) = [] /\ greeting_stream w' ph' rest q /\ outgoing (us w') = outgoing (us w).
Proof.
  intros Hfuel Hg Hstr. destruct fuel as [|[|fuel]]; [lia..|].
  assert (Hdone : forall w fuel, io_q (c_io (cn w)) = [] -> run_events fuel (s, w) = Ok (s, w)) by (intros; by apply nn_ctx_leave_empty).
  assert (Hrcv : forall fuel w, greets w (HReceiving true) -> greeting_stream w (HReceiving true) rest q ->
    exists w' ph', run_events (Datatypes.S fuel) (s, w) = Ok (s, w') /\ greets w' ph' /\ io_q (c_io (cn w')) = [] /\ greeting_stream w' ph' rest q /\ outgoing (us w') = outgoing (us w)).
  { intros f v Hv Hstrv. destruct (greeting_received s v rest q Hv Hstrv) as (v' & E & Hv' & Hstrv' & Hus). exists v', HStopping.
    rewrite (nn_ctx_leave_step _ _ _ f (s, v) _ [] (s, v') (gr_events _ _ Hv) E). rewrite Hdone by apply Hv'. rewrite Hus. pose proof (gr_events _ _ Hv'). done. }
  pose proof (gr_events _ _ Hg) as Hq. destruct ph as [[]|[]|]; cbn [greeting_events] in Hq; [| |by apply Hrcv| |].
  2-4: by eexists w, _; rewrite Hdone by done.
  destruct (greeting_sent s w rest q Hg Hstr) as (w1 & r & E & Hg1 & Hstr1 & Ho1).
  rewrite (nn_ctx_leave_step _ _ _ (Datatypes.S fuel) (s, w) _ [] (s, w1) Hq E). destruct r.
  - destruct (Hrcv fuel w1 Hg1 Hstr1) as (w2 & ph2 & ? & ? & ? & ? & Ho2). exists w2, ph2. by rewrite <- Ho1.
  - exists w1, (HReceiving false). rewrite Hdone by apply Hg1. pose proof (gr_events _ _ Hg1). done.
Qed.

Abbreviation step := (conn_step add rm protocol ispeer rcvmaxsize alloc).

Lemma greets_events w ph : greets w ph -> greets (set_events w []) ph.
Proof. intros [Hq Hu Hsys Hst Hf Hoh Hsf Hss Hso Hp Hev Hph]. by constructor. Qed.

Lemma greeting_settle s w ph rest q : greets w ph -> greeting_stream w ph rest q ->
  exists w' ph', settle add rm protocol ispeer rcvmaxsize alloc s w = Ok (s, w') /\ greets w' ph' /\ io_q (c_io (cn w')) = []
    /\ greeting_stream w' ph' rest q /\ outgoing (us w') = outgoing (us w).
Proof.
  intros Hg Hstr. destruct (greeting_drain leave_fuel s w ph rest q) as (w' & ph' & E & Hg' & Hq & Hstr' & Ho); [unfold leave_fuel; lia|done|done|].
  exists (set_events w' []), ph'. rewrite (settle_ok _ _ _ _ _ _ s w s w' E). split; [done|]. split; [by apply greets_events|]. done.
Qed.

Lemma greeting_worker s w ph rest q j sys : greets w ph -> io_q (c_io (cn w)) = [] -> greeting_stream w ph rest q -> Forall reply_ok sys -> job_ok j ->
  exists w' ph', step (Worker j sys) s w = Ok (s, w', None) /\ greets w' ph' /\ io_q (c_io (cn w')) = []
    /\ greeting_stream w' ph' rest q /\ outgoing (us w') = outgoing (us w).
Proof.
  intros Hg Hq0 Hstr Hs Hj. unfold conn_step. destruct (worker_can (us w) j) eqn:Hcan; [|by exists w, ph].
  pose proof Hg as [Hq Hu Hsys Hst Hf Hoh Hsf Hss Hso Hp Hev Hph]. set (x := c_io (cn (with_sys w sys))).
  assert (Hflags : exists sent rcvd n, (if sent : bool then out_busy (us w) else out_idle (us w)) /\ (if rcvd : bool then in_busy (us w) n else in_idle (us w)) /\
    forall s' r' x' d, io_q x' = (if s' : bool then [sent_event header_owner] else []) ++ (if r' : bool then [received_event header_owner] else []) -> s' && r' = false ->
      usock_active header_owner (io_us x') -> Forall reply_ok (io_sys x') -> incoming (us w) = d ++ incoming (io_us x') -> in_buf (io_us x') = in_buf (us w) ++ d ->
      (if sent then out_request s' (io_us x') else s' = false /\ out_idle (io_us x')) ->
      (if rcvd then in_request r' (io_us x') n else r' = false /\ d = [] /\ in_idle (io_us x')) ->
      exists ph', greets (set_io w x') ph' /\ greeting_stream (set_io w x') ph' rest q).
  { unfold greeting_stream, stream in Hstr. rewrite Hq in Hq0. destruct ph as [[]|[]|]; cbn [greeting_events] in Hq0; try done.
    - destruct Hph as (Hsh & Ht & Hl & Hout & Hin). exists true, false, 0. split; [done|]. split; [done|].
      intros s' r' x' d Hq' Hsr Hu' Hs' Hinc Hbuf Ho (-> & -> & Hi). rewrite app_nil_r in Hq'. exists (HSending s'). split.
      + constructor; [by conn_simpl; rewrite Hq'; destruct s'|done..|]. split; [done|]. split; [done|]. split; [done|]. by destruct s'.
      + unfold greeting_stream, stream. cbn [greeting_bytes greeted app] in *. rewrite <- Hstr. change (us (set_io w x')) with (io_us x'). by rewrite Hinc.
    - destruct Hph as (Hsh & Ht & Hout & Hin). exists false, true, 8. split; [done|]. split; [done|].
      intros s' r' x' d Hq' Hsr Hu' Hs' Hinc Hbuf (-> & Ho) Hi. exists (HReceiving r'). split.
      + constructor; [by conn_simpl; rewrite Hq'; destruct r'|done..|]. split; [done|]. split; [done|]. split; [done|]. by destruct r'.
      + unfold greeting_stream, stream. cbn [greeting_bytes greeted] in *. rewrite <- Hstr. change (us (set_io w x')) with (io_us x').
        rewrite Hbuf, Hinc, <- !app_assoc. done.
    - destruct Hph as (Hsh & Ht & Hout & Hin). exists false, false, 0. split; [done|]. split; [done|].
      intros s' r' x' d Hq' Hsr Hu' Hs' Hinc Hbuf (-> & Ho) (-> & -> & Hi). exists HStopping. split; [by constructor|].
      unfold greeting_stream, stream. rewrite <- Hstr. cbn [greeting_bytes app]. change (us (set_io w x')) with (io_us x'). by rewrite Hinc. }
  destruct Hflags as (sent & rcvd & n & Ho & Hi & Hnext).
  destruct (io_worker_ok header_owner x j sent rcvd n) as (x' & s' & r' & d & -> & Hu' & Hq' & Hsr & Hs' & Ho' & Hi' & Hb' & Hout' & Hin'); [done..|]. mred.
  destruct (Hnext s' r' x' d) as (ph1 & Hg1 & Hstr1); [done..|].
  destruct (greeting_settle s (set_io w x') ph1 rest q Hg1 Hstr1) as (w2 & ph2 & -> & Hg2 & Hq2 & Hstr2 & Ho2). mred.
  exists w2, ph2. split; [done|]. split; [done|]. split; [done|]. split; [done|]. rewrite Ho2. exact Ho'.
Qed.

(** *** The timer *)

Lemma greeting_timer_start s w ph rest q sys : greets w ph -> io_q (c_io (cn w)) = [] -> greeting_stream w ph rest q -> Forall reply_ok sys ->
  exists w' ph', step (TimerJob WStart sys) s w = Ok (s, w', None) /\ greets w' ph' /\ io_q (c_io (cn w')) = []
    /\ greeting_stream w' ph' rest q /\ outgoing (us w') = outgoing (us w).
Proof.
  intros Hg Hq0 Hstr Hs. unfold conn_step. set (h := c_sh (cn w)). destruct (worker_pending (sh_timer h) WStart) eqn:Hp; [|by exists w, ph].
  pose proof Hg as [Hq Hu Hsys Hst Hf Hoh Hsf Hss Hso Hpb Hev Hph].
  assert (Ht : exists tp, timer_rep (sh_timer h) tp /\ forall t', timer_rep t' tp ->
    greets (set_sh w (c_io (cn (with_sys w sys))) (sh_set_timer t' h)) ph).
  { destruct ph as [sent|rcvd|]; [exists (PActive false)|exists (PActive false)|exists PStopping]; (split; [apply Hph|]); intros t' Ht'; constructor; done || (unfold greeting_phase in *; naive_solver). }
  destruct Ht as (tp & Ht & Hnext). destruct (timer_start_job _ tp Ht Hp) as (t' & E & Ht').
  unfold Streamhdr.with_timer. rewrite E. mred. rewrite (proj1 Ht), (proj1 Ht'), (proj1 (proj2 Ht)), (proj1 (proj2 Ht')). cbn [timer_raised]. mred.
  destruct (greeting_settle s _ ph rest q (Hnext t' Ht')) as (w2 & ph2 & E2 & Hg2 & Hq2 & Hstr2 & Ho2); [exact Hstr|].
  change (io_set_q _ _) with (c_io (cn (with_sys w sys))). rewrite E2. mred. by exists w2, ph2.
Qed.

(** The timer has stopped: the child returns the socket and is stopped, the
    pipe is started and the first message awaited. *)
Lemma header_done s w t' : greets w HStopping -> fsm_stopped (tm_fsm t') = Some NN_TIMER_STOPPED -> timer_rep (timer_taken SStopped t') PIdle ->
  exists w1, process (with_events (s, set_sh w (c_io (cn w)) (sh_set_timer t' (c_sh (cn w)))) []) (FsmEvent (CTimer, SStopped) (Some CHeader) NN_STREAMHDR_SRC_TIMER NN_TIMER_STOPPED) = Ok (s, w1)
    /\ w1 = set_sh w (Io [FsmEvent (CHeader, SDone) (Some CSession) NN_STCP_SRC_STREAMHDR NN_STREAMHDR_OK] (us_set_owner (Some CSession) NN_STCP_SRC_USOCK (us w)) (io_sys (c_io (cn w))))
              (sh_set_state NN_STREAMHDR_STATE_DONE (sh_set_usock false (None, -1) (sh_set_timer (timer_taken SStopped t') (c_sh (cn w))))).
Proof.
  intros [Hq Hu Hsys Hst Hf Hoh Hsf Hss Hso Hpb Hev (Hsh & _)] Hst' _. eexists. split; [|reflexivity].
  unfold process_event, with_events. cbn [ev_obj ev_fsm ev_src ev_type fst snd]. unfold streamhdr_feed.
  conn_simpl. cbn [sh_fsm sh_set_timer]. rewrite Hsf. eval_bools. unfold nn_streamhdr_handler. cbn [sh_state sh_set_timer]. rewrite Hsh. eval_bools.
  unfold finish, give_back. cbn [sh_owner sh_set_timer]. rewrite Hso. cbn [session_owner io_swap_owner nn_usock_swap_owner fst snd io_us io_q io_raise io_set_us].
  unfold io_raise. cbn [io_q io_us io_sys io_set_us io_set_q sh_src sh_set_usock sh_set_timer]. rewrite Hss, raise_empty. reflexivity.
Qed.

Lemma child_stopped s w u h : io_q (c_io (cn w)) = [] -> st_state (st w) = NN_STCP_STATE_PROTOHDR -> st_fsm (st w) = NN_FSM_STATE_ACTIVE ->
  u = us w -> h = c_sh (cn w) -> sh_fsm h = NN_FSM_STATE_ACTIVE -> sh_src h = NN_STCP_SRC_STREAMHDR -> timer_rep (sh_timer h) PIdle ->
  exists t h', timer_rep t PIdle /\ sh_timer h' = t /\
    process (with_events (s, w) []) (FsmEvent (CHeader, SDone) (Some CSession) NN_STCP_SRC_STREAMHDR NN_STREAMHDR_OK) =
      Ok (s, st_goto (set_sh w (Io [FsmEvent (CHeader, SStopped) (Some CSession) NN_STCP_SRC_STREAMHDR NN_STREAMHDR_STOPPED] u (io_sys (c_io (cn w)))) h') NN_STCP_STATE_STOPPING_STREAMHDR).
Proof.
  intros Hq Hst Hf -> -> Hsf Hss Ht. unfold process_event, with_events. cbn [ev_obj ev_fsm ev_src ev_type fst snd]. unfold stcp_feed.
  conn_simpl. rewrite Hf. eval_bools. unfold nn_stcp_handler. conn_simpl. rewrite Hst. eval_bools.
  unfold nn_streamhdr_stop. rewrite Hsf. eval_bools. unfold nn_streamhdr_shutdown. eval_bools.
  unfold stop_timer, Streamhdr.with_timer. cbn [sh_timer sh_set_fsm].
  destruct (nn_timer_stop_rep _ PIdle Ht) as (t' & -> & Ht'). mred. cbn [stop_phase] in Ht'.
  rewrite (proj1 Ht), (proj1 Ht'), (proj1 (proj2 Ht)), (proj1 (proj2 Ht')). cbn [timer_raised]. mred.
  cbn [sh_state sh_set_state sh_set_timer sh_timer sh_set_fsm sh_fsm]. eval_bools. rewrite (nn_timer_isidle_rep t' PIdle Ht'). eval_bools. mred.
  unfold io_raise. cbn [io_q io_us io_sys io_set_q sh_src sh_set_state sh_set_timer sh_set_fsm]. rewrite Hss, raise_empty. mred.
  eexists t', _. split; [done|]. split; [|reflexivity]. reflexivity.
Qed.

Lemma session_active s w pb rest q : io_q (c_io (cn w)) = [] -> usock_active session_owner (us w) -> out_idle (us w) -> in_idle (us w) ->
  Forall reply_ok (io_sys (c_io (cn w))) -> st_state (st w) = NN_STCP_STATE_STOPPING_STREAMHDR -> st_fsm (st w) = NN_FSM_STATE_ACTIVE ->
  Z.of_nat (length (st_outhdr (st w))) = header_len -> w_pipes w !! the_pipe = Some pb -> pb_state pb = NN_PIPEBASE_STATE_IDLE -> w_events w = [] ->
  stream w [] rest = frames q ->
  exists s' w' rcvd cur, process (with_events (s, w) []) (FsmEvent (CHeader, SStopped) (Some CSession) NN_STCP_SRC_STREAMHDR NN_STREAMHDR_STOPPED) = Ok (s', w')
    /\ active w' false rcvd cur /\ stream w' cur rest = frames q /\ outgoing (us w') = outgoing (us w) /\ c_sh (cn w') = c_sh (cn w).
Proof.
  intros Hq Hu Hout Hin Hs Hst Hf Hoh Hp Hps Hev Hstr. unfold process_event, with_events. cbn [ev_obj ev_fsm ev_src ev_type fst snd]. unfold stcp_feed.
  set (w1 := set_sh _ _ _). replace (st w1) with (st w) by done. rewrite Hf. eval_bools. unfold nn_stcp_handler. replace (st w1) with (st w) by done. rewrite Hst. eval_bools.
  destruct (accepts s (set_pipe w1 the_pipe (starting pb)) the_pipe (starting pb)) as (s' & d & Eadd); [apply lookup_insert_eq|].
  rewrite (nn_pipebase_start_ok add s s' w1 the_pipe pb _ (set_data d (starting pb)) 0 Hp Hps Eadd); [|apply lookup_insert_eq|].
  2: { cbn. rewrite Hev. set_solver. }
  change (bool_decide (0 < 0)) with false. cbn iota. mred. set (w2 := set_events _ _).
  change (bool_decide (0 < 0)) with false. cbn iota. unfold recv_header. set (x1 := c_io (cn (set_st w2 _))).
  destruct (io_recv_ok session_owner x1 header_len) as (x' & rcvd & E & Hu' & Hq' & Hsys' & Hos & Hinc & Hreq); [done..|unfold header_len; lia|].
  unfold header_len in E. rewrite E. mred. eexists s', _, rcvd, (in_buf (io_us x')). split; [reflexivity|].
  split; [|split; [|split; [by apply (out_side_outgoing _ _ Hos)|done]]].
  - constructor; [by conn_simpl; rewrite Hq'|done..|]. exists (set_data d (starting pb)). split; [apply lookup_insert_eq|]. split; [done|]. split.
    + apply InHdr; [done|done|done|]. cbn. rewrite Hev. set_solver.
    + apply OutIdle; [done|done|]. by apply (out_side_idle _ _ Hos).
  - rewrite <- Hstr. unfold stream. cbn [app]. rewrite app_assoc. f_equal. symmetry. exact Hinc.
Qed.

Lemma greeting_timer_stop s w rest q sys : greets w HStopping -> greeting_stream w HStopping rest q -> Forall reply_ok sys -> Forall acceptable q ->
  step (TimerJob WStop sys) s w = Ok (s, w, None) \/
  exists s' w' cur, step (TimerJob WStop sys) s w = Ok (s', w', None) /\ at_rest w' cur /\ timer_rep (sh_timer (c_sh (cn w'))) PIdle
    /\ stream w' cur rest = frames q /\ outgoing (us w') = outgoing (us w).
Proof.
  intros Hg Hstr Hs Hacc. unfold conn_step. destruct (worker_pending (sh_timer (c_sh (cn w))) WStop) eqn:Hp; [right|by left].
  pose proof Hg as [Hq Hu Hsys Hst Hf Hoh Hsf Hss Hso (pb & Hpb & Hps) Hev (Hsh & Ht & Hout & Hin)].
  destruct (timer_stop_job _ Ht Hp) as (t' & E & Hd & Hstop & Ht'). unfold Streamhdr.with_timer. rewrite E. mred.
  rewrite (proj1 Ht), (proj1 (proj2 Ht)), Hd, Hstop. cbn [timer_raised]. mred.
  replace (io_q (c_io (cn (with_sys w sys)))) with (@nil nn_fsm_event) by (by symmetry). rewrite raise_empty. mred.
  set (ev := FsmEvent _ _ _ _). set (w0 := with_sys w sys).
  assert (Hg0 : greets w0 HStopping) by (constructor; done || (by exists pb)).
  destruct (header_done s w0 t' Hg0 Hstop Ht') as (w1 & E1 & Hw1).
  set (w2 := set_sh w (io_set_q [ev] (c_io (cn w0))) (sh_set_timer t' (c_sh (cn w)))).
  assert (R1 : forall fuel, run_events (Datatypes.S fuel) (s, w2) = run_events fuel (s, w1)).
  { intros fuel. apply (nn_ctx_leave_step _ _ _ fuel (s, w2) ev [] (s, w1)); [done|]. exact E1. }
  destruct (child_stopped s (set_io w1 (io_set_q [] (c_io (cn w1)))) (us w1) (c_sh (cn w1))) as (t2 & h2 & Ht2 & Eh2 & E2); [by subst w1..|].
  set (w3 := st_goto _ _) in E2.
  assert (R2 : forall fuel, run_events (Datatypes.S fuel) (s, w1) = run_events fuel (s, w3)).
  { intros fuel. refine (nn_ctx_leave_step _ _ _ fuel (s, w1) _ [] (s, w3) _ E2). by subst w1. }
  destruct (session_active s (set_io w3 (io_set_q [] (c_io (cn w3)))) pb rest q) as (s' & w4 & rcvd & cur & E3 & Hac & Hstr4 & Ho4 & Hsh4); [done|by subst w1; destruct Hu; constructor|by subst w1..| |].
  { subst w1. unfold greeting_stream, stream in *. cbn [greeting_bytes greeted app] in *. exact Hstr. }
  assert (R3 : forall fuel, run_events (Datatypes.S fuel) (s, w3) = run_events fuel (s', w4)).
  { intros fuel. refine (nn_ctx_leave_step _ _ _ fuel (s, w3) _ [] (s', w4) _ E3). by subst w1. }
  destruct (drain_received add rm protocol ispeer rcvmaxsize alloc 17 s' w4 cur rest q rcvd) as (w5 & cur5 & R4 & Hac5 & Hstr5 & Ho5 & Hsh5); [lia|done|done|done|].
  rewrite (settle_ok _ _ _ _ _ _ s w2 s' w5); [|unfold leave_fuel; by rewrite (R1 19%nat), (R2 18%nat), (R3 17%nat)]. mred.
  exists s', (set_events w5 []), cur5. split; [done|]. split; [by apply rest_events|]. split; [|split; [done|]].
  - change (c_sh (cn (set_events w5 []))) with (c_sh (cn w5)). rewrite Hsh5, Hsh4. change (c_sh (cn (set_io w3 _))) with h2. by rewrite Eh2.
  - change (us (set_events w5 [])) with (us w5). rewrite Ho5, Ho4. by subst w1.
Qed.

(** *** Starting *)

(** A new session on a connected socket. *)
Record fresh_conn (w : cworld) : Prop := {
  fc_events : io_q (c_io (cn w)) = [];
  fc_usock : usock_active (us_owner (us w), us_src (us w)) (us w);
  fc_out : out_idle (us w);
  fc_tx : os_tx (us_os (us w)) = [];
  fc_in : in_idle (us w);
  fc_rx : incoming (us w) = [];
  fc_st : exists src, st w = nn_stcp_init src;
  fc_sh : c_sh (cn w) = nn_streamhdr_init NN_STCP_SRC_STREAMHDR;
  fc_pipe : exists pb, w_pipes w !! the_pipe = Some pb /\ pb_state pb = NN_PIPEBASE_STATE_IDLE;
  fc_wevents : w_events w = [];
}.

Lemma start_ok s w rest q sys : fresh_conn w -> Forall reply_ok sys -> rest = hello peer_protocol ++ frames q ->
  exists w' ph, conn_start add rm protocol ispeer rcvmaxsize alloc s w sys = Ok (s, w') /\ greets w' ph /\ io_q (c_io (cn w')) = []
    /\ greeting_stream w' ph rest q /\ outgoing (us w') = hello protocol.
Proof.
  intros [Hq Hu Hout Htx Hin Hrx [src Hst] Hsh Hp Hev] Hs Hrest. unfold conn_start, nn_stcp_start.
  replace (st (with_sys w sys)) with (st w) by done. rewrite Hst. cbn [st_usock st_owner nn_stcp_init fst negb andb]. eval_bools. mred.
  unfold io_swap_owner, nn_usock_swap_owner. cbn [fst snd].
  set (w1 := set_st _ _). assert (Eq1 : io_q (c_io (cn w1)) = []) by (by subst w1).
  replace (nn_stcp_isidle (io_q (c_io (cn w1))) (st w1)) with true by (by rewrite Eq1). mred.
  unfold nn_stcp_handler. replace (st_state (st w1)) with NN_STCP_STATE_IDLE by done. eval_bools.
  replace (c_sh (cn w1)) with (nn_streamhdr_init NN_STCP_SRC_STREAMHDR) by (by rewrite <- Hsh).
  unfold nn_streamhdr_start. cbn [sh_usock sh_owner nn_streamhdr_init fst negb andb]. eval_bools. mred.
  unfold io_swap_owner, nn_usock_swap_owner. cbn [fst snd].
  assert (Eputs : nn_puts (drop 4 (magic ++ [0; 0; 0; 0])) (u16 protocol) = Ok (be_bytes 2 (u16 protocol) ++ [0; 0])).
  { apply (nn_puts_eq 0 0 [0; 0]). apply wrap_range. lia. }
  rewrite Eputs. mred. change (magic ++ be_bytes 2 (u16 protocol) ++ [0; 0]) with (hello protocol).
  unfold streamhdr_fsm_start. set (x2 := io_set_us _ _). assert (Eq2 : io_q x2 = []) by (by subst x2).
  rewrite Eq2. replace (nn_streamhdr_isidle [] _) with true by done. mred. unfold nn_streamhdr_handler. cbn [sh_state sh_set_protohdr sh_set_usock nn_streamhdr_init]. eval_bools.
  unfold Streamhdr.with_timer. cbn [sh_timer sh_set_protohdr sh_set_usock nn_streamhdr_init].
  destruct (nn_timer_start_rep nn_timer_init 1000 nn_timer_init_rep) as (t & -> & Ht); [lia|]. mred.
  rewrite (proj1 Ht), (proj1 (proj2 Ht)). cbn [timer_raised tm_done nn_timer_init fsm_stopped tm_fsm nn_fsm_init]. mred.
  cbn [sh_set_timer sh_set_protohdr sh_set_usock nn_streamhdr_init sh_protohdr sh_set_state sh_set_fsm sh_fsm sh_src sh_state sh_timer sh_usock sh_owner].
  destruct (io_send_ok header_owner (io_set_q (io_q x2) x2) [hello protocol]) as (x' & sent & -> & Hu' & Hq' & Hs' & Hi' & Ho' & Hreq); [by destruct Hu; constructor|done|done|done|cbn; lia|done|]. mred.
  match goal with |- context [settle _ _ _ _ _ _ _ ?v] => set (w2 := v) end. assert (Hg : greets w2 (HSending sent)).
  { constructor; [by subst w2; conn_simpl; rewrite Hq'; destruct sent|done|done|done|done| |done|done|done|done|done|].
    - change (st_outhdr (st w2)) with (repeat 0 (length fr_prefix + 8)). unfold header_len. rewrite repeat_length. lia.
    - split; [done|]. split; [done|]. split; [done|]. split; [by destruct sent|]. by apply (in_side_idle _ _ Hi'). }
  destruct (greeting_settle s w2 _ rest q Hg) as (w3 & ph & -> & Hg3 & Hq3 & Hstr3 & Ho3).
  { unfold greeting_stream, stream. cbn [greeting_bytes greeted app]. change (us w2) with (io_us x'). rewrite (in_side_incoming _ _ Hi').
    change (incoming (io_us (io_set_q (io_q x2) x2))) with (incoming (us w)). by rewrite Hrx. }
  exists w3, ph. split; [done|]. split; [done|]. split; [done|]. split; [done|]. rewrite Ho3. change (us w2) with (io_us x'). rewrite Ho'.
  change (outgoing (io_us (io_set_q (io_q x2) x2))) with (outgoing (us w)). unfold outgoing. rewrite Htx, (proj1 Hout). cbn [concat app]. by rewrite app_nil_r.
Qed.

(** *** An end, from the start on *)
Inductive conn_rep (w : cworld) : bool -> bytes -> Prop :=
  | RepGreets ph : greets w ph -> io_q (c_io (cn w)) = [] -> conn_rep w (greeted ph) (greeting_bytes ph w)
  | RepActive cur : at_rest w cur -> timer_rep (sh_timer (c_sh (cn w))) PIdle -> conn_rep w true cur.

Definition conn_stream (w : cworld) (g : bool) (cur rest : bytes) (q : list bytes) : Prop :=
  stream w cur rest = (if g then [] else hello peer_protocol) ++ frames q.

(** Steps without failures; the size of a message is an [uint64_t]. *)
Definition quiet_op (o : conn_op) : Prop :=
  match o with
  | SendMsg m sys => Z.of_nat (length (wire_msg m)) < 2 ^ 64 /\ Forall reply_ok sys
  | RecvMsg sys => Forall reply_ok sys
  | Worker j sys => job_ok j /\ Forall reply_ok sys
  | TimerJob e sys => e <> WTimeout /\ Forall reply_ok sys
  end.

Lemma greets_not_active w ph f : greets w ph -> pipe_is w (fun pb => bool_decide (pb_state pb = NN_PIPEBASE_STATE_ACTIVE) && f pb) = false.
Proof. intros Hg. destruct (gr_pipe _ _ Hg) as (pb & Hp & Hps). unfold pipe_is. by rewrite Hp, Hps. Qed.

Lemma conn_step_ok s w g cur rest q o : conn_rep w g cur -> conn_stream w g cur rest q -> Forall acceptable q -> quiet_op o ->
  exists s' w' out g' cur' q', step o s w = Ok (s', w', out) /\ conn_rep w' g' cur' /\ conn_stream w' g' cur' rest q'
    /\ match o with
       | SendMsg m _ => (out = Some m /\ outgoing (us w') = outgoing (us w) ++ frame (wire_msg m) \/ out = None /\ outgoing (us w') = outgoing (us w)) /\ q' = q
       | RecvMsg _ => outgoing (us w') = outgoing (us w) /\ ((exists b, out = Some (Msg [] [] b) /\ q = b :: q') \/ out = None /\ q' = q)
       | _ => outgoing (us w') = outgoing (us w) /\ out = None /\ q' = q
       end.
Proof.
  intros Hrep Hstr Hacc Ho. assert (Hskip : step o s w = Ok (s, w, None) -> exists s' w' out g' cur' q', step o s w = Ok (s', w', out) /\ conn_rep w' g' cur' /\ conn_stream w' g' cur' rest q'
    /\ match o with
       | SendMsg m _ => (out = Some m /\ outgoing (us w') = outgoing (us w) ++ frame (wire_msg m) \/ out = None /\ outgoing (us w') = outgoing (us w)) /\ q' = q
       | RecvMsg _ => outgoing (us w') = outgoing (us w) /\ ((exists b, out = Some (Msg [] [] b) /\ q = b :: q') \/ out = None /\ q' = q)
       | _ => outgoing (us w') = outgoing (us w) /\ out = None /\ q' = q
       end).
  { intros E. exists s, w, None, g, cur, q. split; [done|]. split; [done|]. split; [done|]. destruct o; auto. }
  destruct Hrep as [ph Hg Hq|cur Hac Ht].
  - destruct o as [m sys|sys|j sys|e sys]; cbn [quiet_op] in Ho.
    + apply Hskip. unfold conn_step. by rewrite (greets_not_active w ph).
    + apply Hskip. unfold conn_step. by rewrite (greets_not_active w ph).
    + destruct (greeting_worker s w ph rest q j sys Hg Hq Hstr (proj2 Ho) (proj1 Ho)) as (w' & ph' & E & Hg' & Hq' & Hstr' & Ho').
      exists s, w', None, (greeted ph'), (greeting_bytes ph' w'), q. split; [done|]. split; [by apply RepGreets|]. done.
    + destruct Ho as [He Hs]. destruct e; [| |done].
      * destruct (greeting_timer_start s w ph rest q sys Hg Hq Hstr Hs) as (w' & ph' & E & Hg' & Hq' & Hstr' & Ho').
        exists s, w', None, (greeted ph'), (greeting_bytes ph' w'), q. split; [done|]. split; [by apply RepGreets|]. done.
      * assert (Hph : ph = HStopping \/ worker_pending (sh_timer (c_sh (cn w))) WStop = false).
        { destruct ph; [right|right|by left]; destruct (gr_phase _ _ Hg) as (_ & (_ & _ & _ & _ & Hstop & _) & _); cbn; by rewrite Hstop. }
        destruct Hph as [-> | Hnp]; [|apply Hskip; unfold conn_step; by rewrite Hnp].
        destruct (greeting_timer_stop s w rest q sys Hg Hstr Hs Hacc) as [E|(s' & w' & cur' & E & Hac' & Ht' & Hstr' & Ho')]; [by apply Hskip|].
        exists s', w', None, true, cur', q. split; [done|]. split; [by apply RepActive|]. done.
  - unfold conn_stream in Hstr. cbn [app] in Hstr. destruct o as [m sys|sys|j sys|e sys]; cbn [quiet_op] in Ho.
    + destruct (active_send add rm protocol ispeer rcvmaxsize alloc s w cur m sys Hac (proj2 Ho) (proj1 Ho)) as [(w' & E & Hac' & Hi & Hog & Hsh)|E]; [|by apply Hskip].
      exists s, w', (Some m), true, cur, q. split; [done|]. split; [by apply RepActive; rewrite ?Hsh|]. split; [|auto].
      unfold conn_stream, stream. by rewrite (in_side_incoming _ _ Hi).
    + destruct (active_recv add rm protocol ispeer rcvmaxsize alloc s w cur rest q sys Hac Ho Hstr Hacc) as [(w' & cur' & b & q' & E & -> & Hac' & Hstr' & Hog & Hsh)|E]; [|by apply Hskip].
      exists s, w', (Some (Msg [] [] b)), true, cur', q'. split; [done|]. split; [by apply RepActive; rewrite ?Hsh|]. split; [done|]. split; [done|]. left. by exists b.
    + destruct (active_worker add rm protocol ispeer rcvmaxsize alloc s w cur rest q j sys Hac (proj2 Ho) (proj1 Ho) Hstr Hacc) as (w' & cur' & E & Hac' & Hstr' & Hog & Hsh).
      exists s, w', None, true, cur', q. split; [done|]. split; [by apply RepActive; rewrite ?Hsh|]. done.
    + apply Hskip. unfold conn_step. destruct Ht as (_ & _ & _ & _ & Hts & Htp & Htw). destruct e; cbn [worker_pending]; by rewrite ?Hts, ?Htp, ?Htw.
Qed.
End Greeting.

(** ** Two ends *)

(** [l_arrived x]: the bytes of the other end that reached the kernel of [x];
    [l_sent], [l_rcvd]: what the users sent and received. *)
Record link (S : Type) := Link {
  l_end : side -> S * cworld;
  l_arrived : side -> nat;
  l_sent : side -> list nn_msg;
  l_rcvd : side -> list nn_msg
}.
Arguments Link {_} _ _ _ _.
Arguments l_end {_} _ _.
Arguments l_arrived {_} _ _.
Arguments l_sent {_} _ _.
Arguments l_rcvd {_} _ _.

(** The kernel delivers up to [n] bytes to [x]. *)
Inductive link_op := End (x : side) (o : conn_op) | Arrive (x : side) (n : nat).

(** The parameters of a socket. *)
Record endpoint (S : Type) := Endpoint {
  e_add : S -> cworld -> addr -> result (S * cworld * Z);
  e_rm : S -> cworld -> addr -> result (S * cworld);
  e_protocol : Z;
  e_ispeer : Z -> bool;
  e_rcvmaxsize : Z;
  e_alloc : Z -> bool
}.
Arguments Endpoint {_} _ _ _ _ _ _.
Arguments e_add {_} _ _ _ _.
Arguments e_rm {_} _ _ _ _.
Arguments e_protocol {_} _.
Arguments e_ispeer {_} _ _.
Arguments e_rcvmaxsize {_} _.
Arguments e_alloc {_} _ _.

Section Link.
  Context `{Framing} {S : Type} (ep : side -> endpoint S).

Definition end_step (x : side) := conn_step (e_add (ep x)) (e_rm (ep x)) (e_protocol (ep x)) (e_ispeer (ep x)) (e_rcvmaxsize (ep x)) (e_alloc (ep x)).
Definition end_start (x : side) := conn_start (e_add (ep x)) (e_rm (ep x)) (e_protocol (ep x)) (e_ispeer (ep x)) (e_rcvmaxsize (ep x)) (e_alloc (ep x)).

Definition us_of (l : link S) (x : side) : nn_usock := us (l_end l x).2.
Definition in_flight (l : link S) (x : side) : bytes := drop (l_arrived l x) (os_tx (us_os (us_of l (other x)))).

Definition deliver (d : bytes) (w : cworld) : cworld :=
  set_io w (io_set_us (us_set_os (OsSocket (os_rx (us_os (us w)) ++ d) (os_tx (us_os (us w)))) (us w)) (c_io (cn w))).

Definition link_step (o : link_op) (l : link S) : result (link S) :=
  match o with
  | End x o =>
      '(s, w, out) ← end_step x o (l_end l x).1 (l_end l x).2;
      let ends := upd x (s, w) (l_end l) in
      Ok match o, out with
         | SendMsg _ _, Some m => Link ends (l_arrived l) (upd x (l_sent l x ++ [m]) (l_sent l)) (l_rcvd l)
         | RecvMsg _, Some m => Link ends (l_arrived l) (l_sent l) (upd x (l_rcvd l x ++ [m]) (l_rcvd l))
         | _, _ => Link ends (l_arrived l) (l_sent l) (l_rcvd l)
         end
  | Arrive x n =>
      let d := take n (in_flight l x) in
      let '(s, w) := l_end l x in
      Ok (Link (upd x (s, deliver d w) (l_end l)) (upd x (l_arrived l x + length d)%nat (l_arrived l)) (l_sent l) (l_rcvd l))
  end.

Fixpoint link_run (os : list link_op) (l : link S) : result (link S) :=
  match os with [] => Ok l | o :: os => l ← link_step o l; link_run os l end.

(** Both sessions are started on the two ends of a connection. *)
Definition link_start (s : side -> S) (w : side -> cworld) (sys : side -> list reply) : result (link S) :=
  a ← end_start SideA (s SideA) (w SideA) (sys SideA);
  b ← end_start SideB (s SideB) (w SideB) (sys SideB);
  Ok (Link (fun x => match x with SideA => a | SideB => b end) (fun _ => 0%nat) (fun _ => []) (fun _ => [])).

(** What a received message looks like: one body. *)
Definition arrives_as (m : nn_msg) : nn_msg := Msg [] [] (wire_msg m).

(** No byte is under way to [x], and its user has no message to receive. *)
Definition drained (l : link S) (x : side) : Prop :=
  in_flight l x = [] /\ us_out (us_of l (other x)) = [] /\ incoming (us_of l x) = [] /\ st_state (st (l_end l x).2) = NN_STCP_STATE_ACTIVE
  /\ pipe_is (l_end l x).2 (fun pb => bool_decide (pb_instate pb = NN_PIPEBASE_INSTATE_IDLE)) = false.

Definition link_op_ok (o : link_op) : Prop :=
  match o with
  | End x o => quiet_op o /\ match o with SendMsg m _ => acceptable (e_rcvmaxsize (ep (other x))) (e_alloc (ep (other x))) (wire_msg m) | _ => True end
  | Arrive _ _ => True
  end.

(** The bytes that did not reach the kernel of [x] yet. *)
Definition rest_of (l : link S) (x : side) : bytes := drop (l_arrived l x) (outgoing (us_of l (other x))).

(** The direction to [x]: [q] are the messages under way. *)
Definition link_dir (l : link S) (x : side) (q : list bytes) : Prop :=
  (l_arrived l x <= length (outgoing (us_of l (other x))))%nat /\
  (exists g cur, conn_rep (l_end l x).2 g cur /\ conn_stream (e_protocol (ep (other x))) (l_end l x).2 g cur (rest_of l x) q) /\
  arrives_as <$> l_sent l (other x) = l_rcvd l x ++ (Msg [] [] <$> q) /\
  Forall (acceptable (e_rcvmaxsize (ep x)) (e_alloc (ep x))) q.

Context `{!forall x, AcceptingSockets (e_add (ep x))}.
Context (Hpeers : forall x, nn_pipebase_ispeer (e_protocol (ep x)) (e_ispeer (ep x)) (u16 (e_protocol (ep (other x)))) = true).

Lemma take_arrived (n a : nat) (tx out : bytes) (d := take n (drop a tx)) : (a <= length (tx ++ out))%nat ->
  drop a (tx ++ out) = d ++ drop (a + length d) (tx ++ out) /\ (a + length d <= length (tx ++ out))%nat.
Proof.
  intros Ha. assert (Hd : d = take (length d) (drop a (tx ++ out))).
  { destruct (decide (a <= length tx)%nat) as [Hle|Hgt].
    - unfold d. rewrite drop_app_le by lia. rewrite length_take, length_drop. rewrite take_app_le by (rewrite length_drop; lia).
      destruct (decide (n <= length tx - a)%nat); [by rewrite Nat.min_l by lia|]. rewrite Nat.min_r by lia. rewrite !take_ge by (rewrite length_drop; lia). done.
    - unfold d. rewrite drop_ge by lia. by rewrite take_nil. }
  split; [rewrite Hd at 1; by rewrite <- drop_drop, take_drop|].
  assert (Hl : (length d <= length (drop a (tx ++ out)))%nat) by (rewrite Hd, length_take; lia). rewrite length_drop in Hl. lia.
Qed.

Lemma deliver_rep w g cur d rest q x : conn_rep w g cur -> conn_stream x w g cur (d ++ rest) q ->
  conn_rep (deliver d w) g cur /\ conn_stream x (deliver d w) g cur rest q.
Proof.
  intros Hrep Hstr. split.
  - destruct Hrep as [ph [Hq Hu Hsys Hst Hf Hoh Hsf Hss Hso Hp Hev Hph] Hq0|cur [[Hq Hu Hst Hf Hoh Hsys (pb & Hp & Hps & Hin & Hout)] Hev] Ht].
    + change (greeting_bytes ph w) with (greeting_bytes ph (deliver d w)). apply RepGreets; [|done]. constructor; [done|by destruct Hu; constructor|done..|]. by destruct ph.
    + apply RepActive; [|done]. split; [|done]. constructor; [done|by destruct Hu; constructor|done..|]. exists pb. split; [done|]. split; [done|].
      split; [|by eapply out_link_ext]. destruct Hin as [rcvd H1 H2 H3 H4|rcvd b H1 H2 H3 H4 H5 H6|b H1 H2 H3 H4 H5].
      * change (in_buf (us w)) with (in_buf (us (deliver d w))). by apply InHdr.
      * change (in_buf (us w)) with (in_buf (us (deliver d w))). by apply InBody.
      * by apply InMsg.
  - unfold conn_stream, stream in *. rewrite <- Hstr. change (incoming (us (deliver d w))) with (in_batch (us w) ++ os_rx (us_os (us w)) ++ d).
    unfold incoming. by rewrite <- !app_assoc.
Qed.

(** Both directions after a step of the end [x]: [q1] is left on the way to
    [x], and [f] was added to the other one. *)
Lemma end_dirs (l : link S) x s' w' (q : side -> list bytes) g' cur' (q1 : list bytes) : (forall x, link_dir l x (q x)) ->
  conn_rep w' g' cur' -> conn_stream (e_protocol (ep (other x))) w' g' cur' (rest_of l x) q1 ->
  forall l' q2, l_end l' = upd x (s', w') (l_end l) -> l_arrived l' = l_arrived l ->
    arrives_as <$> l_sent l' (other x) = l_rcvd l' x ++ (Msg [] [] <$> q1) -> Forall (acceptable (e_rcvmaxsize (ep x)) (e_alloc (ep x))) q1 ->
    arrives_as <$> l_sent l' x = l_rcvd l' (other x) ++ (Msg [] [] <$> q2) -> Forall (acceptable (e_rcvmaxsize (ep (other x))) (e_alloc (ep (other x)))) q2 ->
    (exists f, outgoing (us w') = outgoing (us_of l x) ++ f /\ frames q2 = frames (q (other x)) ++ f) ->
    exists q', forall y, link_dir l' y (q' y).
Proof.
  intros Hl Hrep' Hstr' l' q2 Ee Ea Hl1 Hq1 Hl2 Hq2 (f & Eout & Ef).
  destruct (Hl x) as (Ha & _), (Hl (other x)) as (Ha2 & (g2 & cur2 & Hrep2 & Hstr2) & _). rewrite other_other in Ha2, Hstr2.
  exists (upd x q1 (upd (other x) q2 q)). apply (both_sides _ x).
  - rewrite upd_eq. split; [|split; [exists g', cur'|done]].
    + unfold us_of. rewrite Ee, Ea, upd_ne by apply other_ne. exact Ha.
    + unfold rest_of, us_of. rewrite Ee, Ea, upd_eq, upd_ne by apply other_ne. done.
  - rewrite upd_ne by apply other_ne. rewrite upd_eq. unfold link_dir, rest_of, us_of. rewrite other_other, Ee, Ea, upd_eq, upd_ne by apply other_ne.
    cbn [snd]. rewrite Eout. split; [rewrite length_app; lia|]. split; [|done]. exists g2, cur2. split; [done|].
    unfold conn_stream, stream in *. rewrite drop_app_le by done. rewrite Ef, (app_assoc _ (frames _)), <- Hstr2. unfold rest_of. rewrite other_other, <- !app_assoc. reflexivity.
Qed.

Lemma link_step_ok o l (q : side -> list bytes) : (forall x, link_dir l x (q x)) -> link_op_ok o ->
  exists l' q', link_step o l = Ok l' /\ forall x, link_dir l' x (q' x).
Proof.
  intros Hl Ho. destruct o as [x o|x n]; cbn [link_step].
  - destruct Ho as [Ho Hm]. destruct (Hl x) as (Ha & (g & cur & Hrep & Hstr) & Hlog & Hacc), (Hl (other x)) as (Ha2 & (g2 & cur2 & Hrep2 & Hstr2) & Hlog2 & Hacc2).
    rewrite other_other in Ha2, Hstr2, Hlog2.
    destruct (conn_step_ok (e_add (ep x)) (e_rm (ep x)) (e_protocol (ep x)) (e_ispeer (ep x)) (e_rcvmaxsize (ep x)) (e_alloc (ep x)) _ (Hpeers x)
      (l_end l x).1 (l_end l x).2 g cur (rest_of l x) (q x) o Hrep Hstr Hacc Ho) as (s' & w' & out & g' & cur' & q1 & E & Hrep' & Hstr' & Hout).
    unfold end_step. rewrite E. mred.
    pose proof (end_dirs l x s' w' q g' cur' q1 Hl Hrep' Hstr') as Hend.
    destruct o as [m sys|sys|j sys|e sys].
    + destruct Hout as [[[-> Eout]|[-> Eout]] ->].
      * destruct (Hend (Link (upd x (s', w') (l_end l)) (l_arrived l) (upd x (l_sent l x ++ [m]) (l_sent l)) (l_rcvd l)) (q (other x) ++ [wire_msg m])) as [q' Hq']; [done|done| |done| | | |by eexists _, q'].
        -- cbn. rewrite upd_ne by apply other_ne. done.
        -- cbn. rewrite upd_eq, !fmap_app, Hlog2. by rewrite <- app_assoc.
        -- apply Forall_app. split; [done|]. by apply Forall_singleton.
        -- exists (frame (wire_msg m)). split; [exact Eout|]. apply frames_snoc.
      * destruct (Hend (Link (upd x (s', w') (l_end l)) (l_arrived l) (l_sent l) (l_rcvd l)) (q (other x))) as [q' Hq']; [done..| |by eexists _, q'].
        exists []. by rewrite !app_nil_r.
    + destruct Hout as [Eout [(b & -> & Eq)|[-> ->]]].
      * rewrite Eq in Hlog, Hacc. apply Forall_cons in Hacc as [_ Hacc].
        destruct (Hend (Link (upd x (s', w') (l_end l)) (l_arrived l) (l_sent l) (upd x (l_rcvd l x ++ [Msg [] [] b]) (l_rcvd l))) (q (other x))) as [q' Hq']; [done|done| |done| |done| |by eexists _, q'].
        -- cbn. rewrite upd_eq, Hlog. cbn. by rewrite <- app_assoc.
        -- cbn. rewrite upd_ne by apply other_ne. done.
        -- exists []. by rewrite !app_nil_r.
      * destruct (Hend (Link (upd x (s', w') (l_end l)) (l_arrived l) (l_sent l) (l_rcvd l)) (q (other x))) as [q' Hq']; [done..| |by eexists _, q'].
        exists []. by rewrite !app_nil_r.
    + destruct Hout as (Eout & -> & ->). destruct (Hend (Link (upd x (s', w') (l_end l)) (l_arrived l) (l_sent l) (l_rcvd l)) (q (other x))) as [q' Hq']; [done..| |by eexists _, q'].
      exists []. by rewrite !app_nil_r.
    + destruct Hout as (Eout & -> & ->). destruct (Hend (Link (upd x (s', w') (l_end l)) (l_arrived l) (l_sent l) (l_rcvd l)) (q (other x))) as [q' Hq']; [done..| |by eexists _, q'].
      exists []. by rewrite !app_nil_r.
  - destruct (l_end l x) as [s w] eqn:Ex. set (d := take n (in_flight l x)). eexists _, q. split; [reflexivity|].
    destruct (Hl x) as (Ha & (g & cur & Hrep & Hstr) & Hlog & Hacc), (Hl (other x)) as (Ha2 & (g2 & cur2 & Hrep2 & Hstr2) & Hlog2 & Hacc2).
    rewrite Ex in Hrep, Hstr. cbn [snd] in Hrep, Hstr.
    destruct (take_arrived n (l_arrived l x) (os_tx (us_os (us_of l (other x)))) (concat (us_out (us_of l (other x)))) Ha) as [Ed Hle].
    apply (both_sides _ x).
    + unfold link_dir, rest_of, us_of. cbn [l_end l_arrived l_sent l_rcvd]. rewrite !upd_eq, !upd_ne by apply other_ne. cbn [snd].
      split; [exact Hle|]. split; [|done]. exists g, cur. apply deliver_rep; [done|]. unfold rest_of, outgoing, us_of in Hstr. unfold us_of in Ed. rewrite Ed in Hstr. exact Hstr.
    + unfold link_dir, rest_of, us_of in *. cbn [l_end l_arrived l_sent l_rcvd]. rewrite other_other in *. rewrite !upd_eq, !upd_ne by apply other_ne. cbn [snd].
      change (outgoing (us (deliver d w))) with (outgoing (us w)). rewrite Ex in *. cbn [snd] in *. split; [done|]. split; [|done]. by exists g2, cur2.
Qed.

Lemma link_run_ok os : forall l q, (forall x, link_dir l x (q x)) -> Forall link_op_ok os ->
  exists l' q', link_run os l = Ok l' /\ forall x, link_dir l' x (q' x).
Proof.
  induction os as [|o os IH]; intros l q Hl Hos; [by exists l, q|]. apply Forall_cons in Hos as [Ho Hos]. cbn [link_run].
  destruct (link_step_ok o l q Hl Ho) as (l1 & q1 & -> & Hl1). mred. by apply (IH l1 q1).
Qed.

Lemma link_start_ok s w sys : (forall x, fresh_conn (w x)) -> (forall x, Forall reply_ok (sys x)) ->
  exists l, link_start s w sys = Ok l /\ forall x, link_dir l x [].
Proof.
  intros Hw Hs. assert (Hone : forall x, exists w' ph, end_start x (s x) (w x) (sys x) = Ok (s x, w') /\ greets w' ph /\ io_q (c_io (cn w')) = []
    /\ greeting_stream (e_protocol (ep (other x))) w' ph (hello (e_protocol (ep (other x)))) [] /\ outgoing (us w') = hello (e_protocol (ep x))).
  { intros x. unfold end_start. apply (start_ok (e_add (ep x)) (e_rm (ep x)) (e_protocol (ep x)) (e_ispeer (ep x)) (e_rcvmaxsize (ep x)) (e_alloc (ep x)) (e_protocol (ep (other x))));
      [apply Hpeers|apply Hw|apply Hs|]. unfold frames. cbn [fmap list_fmap concat]. by rewrite app_nil_r. }
  destruct (Hone SideA) as (wa & pa & Ea & Ga & Qa & Sa & Oa), (Hone SideB) as (wb & pb & Eb & Gb & Qb & Sb & Ob).
  unfold link_start. rewrite Ea, Eb. mred. eexists. split; [reflexivity|]. intros x. unfold link_dir, rest_of, us_of. cbn [l_end l_arrived l_sent l_rcvd].
  rewrite drop_0. split; [lia|]. split; [|done]. destruct x; cbn [other snd] in *; rewrite ?Oa, ?Ob.
  - exists (greeted pa), (greeting_bytes pa wa). split; [by apply RepGreets|done].
  - exists (greeted pb), (greeting_bytes pb wb). split; [by apply RepGreets|done].
Qed.

(** Nothing is held back: with no byte under way and nothing to receive, all
    messages were received. *)
Lemma drained_all l x q : link_dir l x q -> drained l x -> q = [].
Proof.
  intros (_ & (g & cur & Hrep & Hstr) & _ & Hacc) (Hfl & Hout & Hinc & Hst & Hpipe).
  assert (Hrest : rest_of l x = []) by (unfold rest_of, outgoing; rewrite Hout; cbn; by rewrite app_nil_r).
  unfold conn_stream, stream in Hstr. rewrite Hrest in Hstr. unfold us_of in Hinc. rewrite Hinc, !app_nil_r in Hstr.
  destruct Hrep as [ph Hg|cur [Hac _] _]; [rewrite (gr_state _ _ Hg) in Hst; done|]. cbn [app] in Hstr.
  destruct Hac as [_ _ _ _ _ _ (pb & Hp & _ & Hin & _)]. destruct q as [|b q]; [done|]. exfalso.
  unfold frames in Hstr. cbn [fmap list_fmap concat] in Hstr. unfold frame at 1 in Hstr. rewrite <- app_assoc in Hstr.
  inversion Hin as [r H1 H2 H3 _ Er Ec|r b0 H1 H2 H3 H5 H6 _ Er Ec|b0 H1 H2 _ _ _ Er Ec]; try subst r; rewrite <- Ec in Hstr; [destruct H3 as (H3 & H4 & _)..|].
  - apply (f_equal length) in Hstr. rewrite length_app in Hstr. pose proof (header_length b). lia.
  - apply Forall_cons in Hacc as [(Hb & _) _]. assert (Eh : header b0 = header b /\ in_buf (us (l_end l x).2) = b ++ concat (frame <$> q)).
    { apply app_inj_1; [|done]. pose proof (header_length b). pose proof (header_length b0). lia. }
    destruct Eh as [Eh Eb]. apply header_inj in Eh; [|done|done]. apply (f_equal length) in Eb. rewrite length_app in Eb. lia.
  - unfold pipe_is in Hpipe. rewrite Hp in Hpipe. by apply bool_decide_eq_false in Hpipe.
Qed.
End Link.


(** ** Examples *)

Definition NN_PAIR : Z := 16.
Definition demo_add (s : unit) (w : cworld) (p : addr) : result (unit * cworld * Z) := w ← nn_pipe_setdata w p (Some p); Ok (s, w, 0).
Definition demo_rm (s : unit) (w : cworld) (p : addr) : result (unit * cworld) := Ok (s, w).
#[export] Instance demo_add_accepts : AcceptingSockets demo_add.
Proof. intros s w p pb Hp. exists s, (Some p). unfold demo_add, nn_pipe_setdata. by rewrite Hp. Qed.

Definition demo_endpoint (x : side) : endpoint unit :=
  Endpoint demo_add demo_rm NN_PAIR (fun t => bool_decide (t = NN_PAIR)) 1048576 (fun n => bool_decide (n < 2 ^ 30)).

(** A connected socket, as [nn_usock_start_fd] leaves it. *)
Definition demo_usock : nn_usock :=
  match nn_usock_start_fd [] (nn_usock_init CUsock 1 (Some COwner)) with Ok (_, u) => u | Err _ => nn_usock_init CUsock 1 None end.
Definition demo_conn `{Framing} (x : side) : cworld :=
  World (Conn (Io [] demo_usock []) (nn_streamhdr_init NN_STCP_SRC_STREAMHDR) (nn_stcp_init 2) [])
    {[1%positive := nn_pipebase_init (EpOptions 8 8 1)]} [] (fun _ => 0).

Lemma demo_conn_fresh `{Framing} x : fresh_conn (demo_conn x).
Proof.
  constructor; try done.
  - constructor; try done. apply NoDup_nil_2.
  - split; [done|]. split; [apply not_elem_of_nil|done].
  - split; [apply not_elem_of_nil|done].
  - by exists 2.
  - eexists. split; [reflexivity|done].
Qed.

(** The kernel takes five bytes at a time and delivers three, or more. *)
Definition demo_greeting : list link_op :=
  let one x := [End x (Worker WTask []); End x (Worker (WOut (Done 5)) []); End x (Worker (WOut (Done 5)) []); End x (Worker WTask [])] in
  let two x := [Arrive x 3; End x (Worker (WIn (Done 100)) []); Arrive x 100; End x (Worker (WIn (Done 100)) []);
                End x (TimerJob WStart []); End x (TimerJob WStop []); End x (Worker WTask [])] in
  one SideA ++ one SideB ++ two SideA ++ two SideB.
Definition demo_messages : list link_op :=
  [End SideA (SendMsg (Msg [1; 2] [] [3; 4; 5]) [Done 4]); Arrive SideB 2; End SideB (Worker (WIn (Done 9)) []);
   End SideA (Worker WTask []); End SideA (Worker (WOut (Done 100)) []); End SideA (SendMsg (Msg [] [] []) [Done 100]);
   Arrive SideB 100; End SideB (Worker (WIn (Done 100)) []); End SideB (RecvMsg []); End SideB (RecvMsg []);
   End SideB (SendMsg (Msg [] [] [7]) [Done 100]); Arrive SideA 100; End SideA (Worker (WIn (Done 100)) []); End SideA (RecvMsg [])].

Definition seen {S : Type} (l : link S) : list nn_msg * list nn_msg := (l_rcvd l SideA, l_rcvd l SideB).

Definition demo_delivers (framing : Framing) : Prop :=
  exists l l', @link_start framing unit demo_endpoint (fun _ => tt) (@demo_conn framing) (fun _ => []) = Ok l
    /\ @link_run framing unit demo_endpoint (demo_greeting ++ demo_messages) l = Ok l'
    /\ l_rcvd l' SideB = [Msg [] [] [1; 2; 3; 4; 5]; Msg [] [] []] /\ l_rcvd l' SideA = [Msg [] [] [7]]
    /\ exists q, arrives_as <$> l_sent l' SideA = l_rcvd l' SideB ++ q.


(** ** When the network misbehaves *)

Section Failures.

Definition one_step `{Framing} (r : result (unit * cworld)) (o : conn_op) : result (unit * cworld) :=
  '(s, w) ← r; '(s, w, _) ← conn_step (e_add (demo_endpoint SideA)) (e_rm (demo_endpoint SideA)) (e_protocol (demo_endpoint SideA)) (e_ispeer (demo_endpoint SideA))
     (e_rcvmaxsize (demo_endpoint SideA)) (e_alloc (demo_endpoint SideA)) o s w; Ok (s, w).
Definition one_end `{Framing} (rx : bytes) (sys : list reply) (os : list conn_op) : result (unit * cworld) :=
  foldl one_step (conn_start (e_add (demo_endpoint SideA)) (e_rm (demo_endpoint SideA)) (e_protocol (demo_endpoint SideA)) (e_ispeer (demo_endpoint SideA))
     (e_rcvmaxsize (demo_endpoint SideA)) (e_alloc (demo_endpoint SideA)) tt (deliver rx (demo_conn SideA)) sys) os.

(** The header is still being sent when its time is over: if the kernel takes
    the rest before the worker has stopped the timer, SENT finds the machine
    in a state that asserts ERROR, and the process aborts. *)
Example header_late : @one_end tcp_framing [] []
  [Worker WTask []; TimerJob WStart []; TimerJob WTimeout []; Worker (WOut (Done 8)) []] = Err AssertFailed.
Proof. vm_compute. reflexivity. Qed.

(** The same with the header of the peer. *)
Example peer_header_late : @one_end tcp_framing (hello NN_PAIR) [Done 8]
  [TimerJob WStart []; TimerJob WTimeout []; Worker WTask []; Worker (WIn (Done 8)) []] = Err AssertFailed.
Proof. vm_compute. reflexivity. Qed.

(** The connection breaks between the headers and the first message: the
    error is ignored, the session becomes active on a dead socket, and its
    owner, who would connect again, is told nothing. *)
Example break_unnoticed :
  (fun sw => (st_state (st sw.2), us_state (us sw.2), c_told (cn sw.2), us_tasks (us sw.2))) <$>
    @one_end tcp_framing (hello NN_PAIR) [Done 8; Done 8] [TimerJob WStart []; Worker WErr []; TimerJob WStop []; SendMsg (Msg [] [] [1]) []]
  = Ok (NN_STCP_STATE_ACTIVE, NN_USOCK_STATE_DONE, [], []).
Proof. vm_compute. reflexivity. Qed.

(** An IPC peer aborts the process with one byte. *)
Example ipc_bad_type : @one_end ipc_framing (hello NN_PAIR ++ [2; 0; 0; 0; 0; 0; 0; 0; 0]) [Done 8; Done 100; Done 100]
  [TimerJob WStart []; TimerJob WStop []] = Err AssertFailed.
Proof. vm_compute. reflexivity. Qed.

(** A size above NN_RCVMAXSIZE ends the TCP session in an orderly way. *)
Example tcp_too_large :
  (fun sw => (st_state (st sw.2), c_told (cn sw.2))) <$>
    @one_end tcp_framing (hello NN_PAIR ++ [0; 0; 0; 0; 0; 16; 0; 1]) [Done 8; Done 100; Done 100] [TimerJob WStart []; TimerJob WStop []]
  = Ok (NN_STCP_STATE_DONE, [(2, NN_STCP_ERROR)]).
Proof. vm_compute. reflexivity. Qed.

(** IPC makes no such check: the allocation fails and the process aborts. *)
Example ipc_too_large : @one_end ipc_framing (hello NN_PAIR ++ [1; 127; 0; 0; 0; 0; 16; 0; 1]) [Done 8; Done 100; Done 100]
  [TimerJob WStart []; TimerJob WStop []] = Err AssertFailed.
Proof. vm_compute. reflexivity. Qed.
End Failures.
