(* ===== verification/Utf8.v ===== *)
(** * UTF-8 ([nn_utf8_code_point] in [transports/ws/sws.c])

    The recogniser of one code point, the loop over a text that sws.c has
    twice, and the encoding of RFC 3629 they are proved against. *)

From S2P Require Import Prelude Wire.
Local Open Scope Z_scope.

Definition NN_SWS_UTF8_INVALID : Z := -2.
Definition NN_SWS_UTF8_FRAGMENT : Z := -1.
Definition NN_SWS_UTF8_MAX_CODEPOINT_LEN : nat := 4.

(** [(buffer [i] & 0xC0) != 0x80] *)
Definition not_continuation (b : Z) : bool := negb (Z.land b 0xC0 =? 0x80).

(** Reading beyond the buffer is a fault; so is falling off the last case. *)
Definition nn_utf8_code_point (buffer : bytes) (len : nat) : result Z :=
  if (len =? 0)%nat then Ok NN_SWS_UTF8_FRAGMENT
  else
    b0 ← rd buffer 0;
    if b0 <=? 0x7F then Ok 1
    else if b0 <? 0xC2 then Ok NN_SWS_UTF8_INVALID
    else if b0 <=? 0xDF then
      if (len <? 2)%nat then Ok NN_SWS_UTF8_FRAGMENT
      else
        b1 ← rd buffer 1;
        if not_continuation b1 then Ok NN_SWS_UTF8_INVALID else Ok 2
    else if b0 <=? 0xEF then
      if (len <? 2)%nat then Ok NN_SWS_UTF8_FRAGMENT
      else
        b1 ← rd buffer 1;
        if (b0 =? 0xE0) && ((b1 <? 0xA0) || (b1 =? 0x80)) then Ok NN_SWS_UTF8_INVALID
        else if (b0 =? 0xED) && (0xA0 <=? b1) then Ok NN_SWS_UTF8_INVALID
        else if (len <? 3)%nat then Ok NN_SWS_UTF8_FRAGMENT
        else
          b2 ← rd buffer 2;
          if not_continuation b1 || not_continuation b2 then Ok NN_SWS_UTF8_INVALID else Ok 3
    else if b0 <=? 0xF4 then
      if (len <? 2)%nat then Ok NN_SWS_UTF8_FRAGMENT
      else
        b1 ← rd buffer 1;
        if (b0 =? 0xF0) && (b1 <? 0x90) then Ok NN_SWS_UTF8_INVALID
        else if (b0 =? 0xF4) && (0x90 <=? b1) then Ok NN_SWS_UTF8_INVALID
        else if (len <? 4)%nat then Ok NN_SWS_UTF8_FRAGMENT
        else
          b2 ← rd buffer 2; b3 ← rd buffer 3;
          if not_continuation b1 || not_continuation b2 || not_continuation b3 then Ok NN_SWS_UTF8_INVALID else Ok 4
    else if 0xF5 <=? b0 then Ok NN_SWS_UTF8_INVALID
    else Err AssertFailed.

(** The loop [while (len > 0)] of [nn_sws_validate_utf8_chunk] and of
    [nn_sws_acknowledge_close_handshake]: what is left when it ends, and the
    code that ended it, if one did. *)
Fixpoint utf8_scan (fuel : nat) (pos : bytes) : result (bytes * option Z) :=
  match fuel with
  | O => Err NoFuel
  | S fuel =>
      if (length pos =? 0)%nat then Ok ([], None)
      else
        code_point_len ← nn_utf8_code_point pos (length pos);
        if 0 <? code_point_len then
          _ ← assert_ (code_point_len <=? Z.of_nat (length pos));
          utf8_scan fuel (drop (Z.to_nat code_point_len) pos)
        else Ok (pos, Some code_point_len)
  end.

(** ** RFC 3629 *)

Definition scalar (c : Z) : Prop := 0 <= c < 0xD800 \/ 0xE000 <= c <= 0x10FFFF.

Definition utf8 (c : Z) : bytes :=
  if c <? 0x80 then [c]
  else if c <? 0x800 then [0xC0 + c / 64; 0x80 + c mod 64]
  else if c <? 0x10000 then [0xE0 + c / 4096; 0x80 + c / 64 mod 64; 0x80 + c mod 64]
  else [0xF0 + c / 262144; 0x80 + c / 4096 mod 64; 0x80 + c / 64 mod 64; 0x80 + c mod 64].

Definition utf8_text (b : bytes) : Prop := exists cs, Forall scalar cs /\ b = concat (utf8 <$> cs).

Lemma not_continuation_eq b : in_range 8 b -> not_continuation b = negb ((0x80 <=? b) && (b <? 0xC0)).
Proof. revert b. apply (below_spec 256 (fun b => not_continuation b = negb ((0x80 <=? b) && (b <? 0xC0)))). vm_compute. reflexivity. Qed.

Ltac zdivs := unfold scalar, in_range in *; Z.div_mod_to_equations; lia.

Lemma utf8_length c : (1 <= length (utf8 c) <= 4)%nat.
Proof. unfold utf8. repeat case_match; cbn; lia. Qed.

Lemma utf8_ok c : scalar c -> bytes_ok (utf8 c).
Proof. intros Hc. unfold utf8. repeat case_match; repeat (apply Forall_cons; split; [zdivs|]); apply Forall_nil_2. Qed.

(** Settles the comparisons of the recogniser, from the ranges in the context. *)
Ltac leb_cases_by tac := repeat match goal with
  | |- context [?a <=? ?b] => destruct (Z.leb_spec a b); try (exfalso; tac)
  | |- context [?a <? ?b] => destruct (Z.ltb_spec a b); try (exfalso; tac)
  | |- context [?a =? ?b] => destruct (Z.eqb_spec a b); try (exfalso; tac)
  end; cbn [andb orb negb].
Ltac leb_cases := leb_cases_by ltac:(zdivs).

(** A code point at the start is recognised, with its length. *)
Lemma code_point_complete c rest : scalar c -> bytes_ok rest ->
  nn_utf8_code_point (utf8 c ++ rest) (length (utf8 c ++ rest)) = Ok (Z.of_nat (length (utf8 c))).
Proof.
  intros Hc Hr. pose proof (utf8_ok c Hc) as Hok. unfold utf8 in *.
  repeat case_match; split_bytes; cbn [app length] in *; unfold nn_utf8_code_point; cbn [Nat.eqb Nat.ltb Nat.leb rd lookup list_lookup deref mbind result_bind];
    rewrite ?not_continuation_eq by done; leb_cases; reflexivity.
Qed.

(** The code point that one to four bytes stand for. *)
Definition decode (b : bytes) : Z :=
  match b with
  | [b0] => b0
  | [b0; b1] => (b0 - 0xC0) * 64 + (b1 - 0x80)
  | [b0; b1; b2] => (b0 - 0xE0) * 4096 + (b1 - 0x80) * 64 + (b2 - 0x80)
  | [b0; b1; b2; b3] => (b0 - 0xF0) * 262144 + (b1 - 0x80) * 4096 + (b2 - 0x80) * 64 + (b3 - 0x80)
  | _ => 0
  end.

Definition recognised (b : bytes) (r : Z) : Prop :=
  r = NN_SWS_UTF8_INVALID \/ (r = NN_SWS_UTF8_FRAGMENT /\ (length b < 4)%nat) \/
  exists n, (n <= length b)%nat /\ r = Z.of_nat n /\ scalar (decode (take n b)) /\ utf8 (decode (take n b)) = take n b.

(** What is recognised is a code point. *)
Lemma code_point_sound b : bytes_ok b -> exists r, nn_utf8_code_point b (length b) = Ok r /\ recognised b r.
Proof.
  intros Hok. unfold nn_utf8_code_point, recognised.
  destruct b as [|b0 [|b1 [|b2 [|b3 b]]]]; split_bytes; cbn [length Nat.eqb Nat.ltb Nat.leb rd lookup list_lookup deref mbind result_bind];
    rewrite ?not_continuation_eq by done; unfold in_range in *; leb_cases_by ltac:(lia).
  all: try (eexists; split; [reflexivity|]; left; reflexivity).
  all: try (eexists; split; [reflexivity|]; right; left; split; [reflexivity|lia]).
  all: eexists; split; [reflexivity|]; right; right.
  all: first [exists 1%nat; split; [cbn; lia|]; split; [reflexivity|] | exists 2%nat; split; [cbn; lia|]; split; [reflexivity|] | exists 3%nat; split; [cbn; lia|]; split; [reflexivity|] | exists 4%nat; split; [cbn; lia|]; split; [reflexivity|]].
  all: cbn [take]; rewrite ?take_0; cbn [decode]; split; [zdivs|]; unfold utf8; leb_cases; repeat f_equal; zdivs.
Qed.

(** A proper prefix of a code point asks for more. *)
Lemma code_point_prefix c b t : scalar c -> utf8 c = b ++ t -> t <> [] -> nn_utf8_code_point b (length b) = Ok NN_SWS_UTF8_FRAGMENT.
Proof.
  intros Hc E Ht. pose proof (utf8_ok c Hc) as Hok. rewrite E in Hok. apply Forall_app in Hok as [Hok Hok']. unfold utf8 in E.
  destruct b as [|b0 [|b1 [|b2 [|b3 b]]]]; repeat case_match; cbn [app] in E; simplify_eq; try done;
    unfold nn_utf8_code_point; cbn [length Nat.eqb Nat.ltb Nat.leb rd lookup list_lookup deref mbind result_bind]; leb_cases; try reflexivity.
  all: try destruct b; destruct t; done.
Qed.

(** ** Texts *)

Lemma utf8_text_nil : utf8_text [].
Proof. exists []. split; [constructor|done]. Qed.

Lemma utf8_text_cons c b : scalar c -> utf8_text b -> utf8_text (utf8 c ++ b).
Proof. intros Hc (cs & Hcs & ->). exists (c :: cs). split; [by constructor|done]. Qed.

Lemma scan_step fuel c b : scalar c -> bytes_ok b -> utf8_scan (S fuel) (utf8 c ++ b) = utf8_scan fuel b.
Proof.
  intros Hc Hb. cbn [utf8_scan]. pose proof (utf8_length c) as Hl.
  rewrite (proj2 (Nat.eqb_neq _ _)) by (rewrite length_app; lia). rewrite code_point_complete by done. mred.
  rewrite (proj2 (Z.ltb_lt _ _)) by lia. rewrite (proj2 (Z.leb_le _ _)) by (rewrite length_app; lia). mred.
  by rewrite Nat2Z.id, drop_app_length.
Qed.

(** The scan splits a text into whole code points and what follows them. *)
Lemma scan_spec fuel b : bytes_ok b -> (length b < fuel)%nat ->
  exists good rest stop, utf8_scan fuel b = Ok (rest, stop) /\ b = good ++ rest /\ utf8_text good /\
    match stop with
    | None => rest = []
    | Some r => rest <> [] /\ nn_utf8_code_point rest (length rest) = Ok r /\ (r = NN_SWS_UTF8_INVALID \/ r = NN_SWS_UTF8_FRAGMENT /\ (length rest < 4)%nat)
    end.
Proof.
  revert b. induction fuel as [|fuel IH]; intros b Hb Hf; [lia|].
  destruct b as [|x b]; [exists [], [], None; repeat split; by exists []|].
  destruct (code_point_sound (x :: b) Hb) as (r & Er & [-> | [[-> Hl] | (n & Hn & -> & Hc & Eu)]]).
  - exists [], (x :: b), (Some NN_SWS_UTF8_INVALID). cbn [utf8_scan]. rewrite Er. repeat split; [apply utf8_text_nil|done|by left].
  - exists [], (x :: b), (Some NN_SWS_UTF8_FRAGMENT). cbn [utf8_scan]. rewrite Er. repeat split; [apply utf8_text_nil|done|by right].
  - set (c := decode (take n (x :: b))) in *. assert (E : x :: b = utf8 c ++ drop n (x :: b)) by (by rewrite Eu, take_drop).
    revert Hb Hf E. clear Er Hn Eu. generalize (drop n (x :: b)) as d. intros d. clearbody c. generalize (x :: b). intros l Hb Hf ->.
    apply Forall_app in Hb as [_ Hd]. rewrite scan_step by done. pose proof (utf8_length c) as Hlc. rewrite length_app in Hf.
    destruct (IH d Hd) as (good & rest & stop & E & -> & Hg & Hs); [lia|].
    exists (utf8 c ++ good), rest, stop. split; [done|]. split; [by rewrite <- app_assoc|]. split; [by apply utf8_text_cons|done].
Qed.

Lemma utf8_text_ok b : utf8_text b -> bytes_ok b.
Proof.
  intros (cs & Hcs & ->). induction Hcs as [|c cs Hc _ IH]; [constructor|]. apply Forall_app. split; [by apply utf8_ok|done].
Qed.

Lemma scan_text fuel good rest : utf8_text good -> bytes_ok rest -> exists fuel', (fuel <= fuel')%nat /\ (fuel' <= fuel + length good)%nat /\
  utf8_scan fuel' (good ++ rest) = utf8_scan fuel rest.
Proof.
  intros (cs & Hcs & ->) Hr. induction Hcs as [|c cs Hc Hcs (fuel' & Hf & Hf' & IH)].
  - by exists fuel; repeat split; try lia.
  - exists (S fuel'). cbn [fmap list_fmap concat]. rewrite length_app. pose proof (utf8_length c). split; [lia|]. split; [lia|].
    rewrite <- app_assoc, scan_step; [done|done|]. apply Forall_app. split; [|done]. apply utf8_text_ok. by exists cs.
Qed.

(** Only the fuel that is used up matters. *)
Lemma scan_fuel fuel fuel' b r : utf8_scan fuel b = Ok r -> (fuel <= fuel')%nat -> utf8_scan fuel' b = Ok r.
Proof.
  revert fuel' b. induction fuel as [|fuel IH]; intros fuel' b E Hf; [done|]. destruct fuel' as [|fuel']; [lia|]. cbn [utf8_scan] in *.
  destruct (length b =? 0)%nat; [done|]. destruct (nn_utf8_code_point b (length b)) as [n|]; [|done]. mred in E. mred.
  destruct (0 <? n); [|done]. destruct (n <=? _); [|done]. mred in E. mred. apply IH; [done|lia].
Qed.

Lemma scan_accepts b : utf8_text b -> utf8_scan (S (length b)) b = Ok ([], None).
Proof.
  intros Ht. destruct (scan_text 1 b [] Ht ltac:(constructor)) as (fuel & H1 & H2 & E'). rewrite app_nil_r in E'. by apply (scan_fuel fuel); [rewrite E'|lia].
Qed.

(** The loop over a text takes whole code points of RFC 3629 as long as
    it finds them, so it accepts exactly the texts; a text that is cut inside
    a code point is reported as a fragment, from the cut code point on. *)
Theorem utf8_scan_rfc3629 (b : bytes) : bytes_ok b ->
  (exists r, utf8_scan (S (length b)) b = Ok r) /\
  (utf8_scan (S (length b)) b = Ok ([], None) <-> utf8_text b) /\
  (forall good c cut t, b = good ++ cut -> utf8_text good -> scalar c -> utf8 c = cut ++ t -> cut <> [] -> t <> [] ->
     utf8_scan (S (length b)) b = Ok (cut, Some NN_SWS_UTF8_FRAGMENT)).
Proof.
  intros Hb. destruct (scan_spec (S (length b)) b Hb ltac:(lia)) as (good & rest & stop & E & Eb & Hg & Hs).
  split; [by eexists|]. split; [split|].
  - rewrite E. intros [= -> ->]. by rewrite Eb, app_nil_r.
  - apply scan_accepts.
  - intros good' c cut t -> Hg' Hc Eu Hcut Ht. apply Forall_app in Hb as [_ Hb].
    destruct (scan_text 1 good' cut Hg' Hb) as (fuel & H1 & H2 & E'). apply (scan_fuel fuel); [|rewrite length_app; lia].
    rewrite E'. cbn [utf8_scan]. rewrite (proj2 (Nat.eqb_neq _ _)) by (by destruct cut). by rewrite (code_point_prefix c cut t).
Qed.

(** The euro sign, cut after two bytes. *)
Lemma utf8_scan_rfc3629_witness :
  utf8_scan 4 [0x41; 0xE2; 0x82] = Ok ([0xE2; 0x82], Some NN_SWS_UTF8_FRAGMENT).
Proof.
  apply (utf8_scan_rfc3629 [0x41; 0xE2; 0x82]) with (good := [0x41]) (c := 0x20AC) (t := [0xAC]); try done.
  - repeat (apply Forall_cons; split; [unfold in_range; lia|]). apply Forall_nil_2.
  - exists [0x41]. split; [|done]. apply Forall_cons; split; [unfold scalar; lia|apply Forall_nil_2].
  - unfold scalar; lia.
Defined.
