(* ===== verification/Sha1.v ===== *)
(** * SHA-1 ([transports/ws/sha1.c])

    The hash of the opening handshake, computed a byte at a time with the
    block as a circular message schedule.  The specification below is the one
    of FIPS 180-4: padding, schedule of eighty words, compression. *)

From S2P Require Import Prelude Wire.
Local Open Scope Z_scope.

Definition SHA1_HASH_LEN : nat := 20.
Definition SHA1_BLOCK_LEN : nat := 64.

(** The sixteen words of [buffer] as the 64 bytes in memory; [state]: the five
    words; the machine has words with the least significant byte first when
    [is_little_endian]. *)
Record nn_sha1 := Sha1 {
  sha_buffer : bytes;
  sha_state : list Z;
  sha_hashed : Z;
  sha_offset : nat;
  sha_le : bool
}.

(** [sha1_rol32] on [uint32_t]. *)
Definition sha1_rol32 (num bits : Z) : Z := Z.lor (u32 (Z.shiftl num bits)) (Z.shiftr num (32 - bits)).

(** The word at index [i] of an array, read and written. *)
Definition rd_word (le : bool) (buf : bytes) (i : nat) : Z :=
  let b := take 4 (drop (4 * i) buf) in be_val 0 (if le then rev b else b).
Definition wr_word (le : bool) (buf : bytes) (i : nat) (v : Z) : bytes :=
  take (4 * i) buf ++ (if le then rev (be_bytes 4 v) else be_bytes 4 v) ++ drop (4 * i + 4) buf.

(** [memory]: what [buffer] holds, which is not initialised. *)
Definition nn_sha1_init (le : bool) (memory : bytes) : nn_sha1 :=
  Sha1 memory [0x67452301; 0xefcdab89; 0x98badcfe; 0x10325476; 0xc3d2e1f0] 0 0 le.

Definition word_slot (i : nat) : nat := Nat.land i 15.

Record vars := Vars { va : Z; vb : Z; vc : Z; vd : Z; ve : Z }.

(** The body of the loop over [i]. *)
Definition sha1_round (le : bool) (i : nat) (s : bytes * vars) : bytes * vars :=
  let '(buf, Vars a b c d e) := s in
  let buf :=
    if (16 <=? i)%nat then
      let t := Z.lxor (Z.lxor (Z.lxor (rd_word le buf (word_slot (i + 13))) (rd_word le buf (word_slot (i + 8)))) (rd_word le buf (word_slot (i + 2)))) (rd_word le buf (word_slot i)) in
      wr_word le buf (word_slot i) (sha1_rol32 t 1)
    else buf in
  let t :=
    if (i <? 20)%nat then u32 (Z.lxor d (Z.land b (Z.lxor c d)) + 0x5A827999)
    else if (i <? 40)%nat then u32 (Z.lxor (Z.lxor b c) d + 0x6ED9EBA1)
    else if (i <? 60)%nat then u32 (Z.lor (Z.land b c) (Z.land d (Z.lor b c)) + 0x8F1BBCDC)
    else u32 (Z.lxor (Z.lxor b c) d + 0xCA62C1D6) in
  let t := u32 (t + (sha1_rol32 a 5 + e + rd_word le buf (word_slot i))) in
  (buf, Vars t a (sha1_rol32 b 30) c d).

Definition sha1_rounds (le : bool) (s : bytes * vars) : bytes * vars := fold_left (fun s i => sha1_round le i s) (seq 0 80) s.

Definition nn_sha1_add (self : nn_sha1) (data : Z) : result nn_sha1 :=
  let le := sha_le self in
  buf ← wr (sha_buffer self) (if le then Nat.lxor (sha_offset self) 3 else sha_offset self) data;
  let offset := S (sha_offset self) in
  if (offset =? SHA1_BLOCK_LEN)%nat then
    match sha_state self with
    | [s0; s1; s2; s3; s4] =>
        let '(buf, Vars a b c d e) := sha1_rounds le (buf, Vars s0 s1 s2 s3 s4) in
        Ok (Sha1 buf [u32 (s0 + a); u32 (s1 + b); u32 (s2 + c); u32 (s3 + d); u32 (s4 + e)] (sha_hashed self) 0 le)
    | _ => Err BadAccess
    end
  else Ok (Sha1 buf (sha_state self) (sha_hashed self) offset le).

Definition nn_sha1_hashbyte (self : nn_sha1) (data : Z) : result nn_sha1 :=
  nn_sha1_add (Sha1 (sha_buffer self) (sha_state self) (u32 (sha_hashed self + 1)) (sha_offset self) (sha_le self)) data.

Fixpoint sha1_add_all (self : nn_sha1) (data : bytes) : result nn_sha1 :=
  match data with [] => Ok self | x :: data => self ← nn_sha1_add self x; sha1_add_all self data end.

(** [while (self->buffer_offset != 56)] *)
Fixpoint sha1_pad (fuel : nat) (self : nn_sha1) : result nn_sha1 :=
  match fuel with
  | O => Err NoFuel
  | S fuel => if (sha_offset self =? 56)%nat then Ok self else self ← nn_sha1_add self 0; sha1_pad fuel self
  end.

Definition swap_bytes (s : Z) : Z :=
  Z.lor (Z.lor (Z.lor (Z.land (u32 (Z.shiftl s 24)) 0xFF000000) (Z.land (u32 (Z.shiftl s 8)) 0x00FF0000)) (Z.land (Z.shiftr s 8) 0x0000FF00))
        (Z.land (Z.shiftr s 24) 0x000000FF).

(** The bytes of the array [state] in memory. *)
Definition state_bytes (le : bool) (s : list Z) : bytes := concat ((fun w => if le then rev (be_bytes 4 w) else be_bytes 4 w) <$> s).

Definition nn_sha1_result (self : nn_sha1) : result (nn_sha1 * bytes) :=
  self ← nn_sha1_add self 0x80;
  self ← sha1_pad 65 self;
  let n := sha_hashed self in
  self ← sha1_add_all self [0; 0; 0; u8 (Z.shiftr n 29); u8 (Z.shiftr n 21); u8 (Z.shiftr n 13); u8 (Z.shiftr n 5); u8 (Z.shiftl n 3)];
  let le := sha_le self in
  let s := if le then swap_bytes <$> sha_state self else sha_state self in
  Ok (Sha1 (sha_buffer self) s (sha_hashed self) (sha_offset self) le, state_bytes le s).

(** The use of the three functions: hash the bytes of a buffer. *)
Fixpoint sha1_hash_bytes (self : nn_sha1) (data : bytes) : result nn_sha1 :=
  match data with [] => Ok self | x :: data => self ← nn_sha1_hashbyte self x; sha1_hash_bytes self data end.

Definition nn_sha1_hash (le : bool) (memory : bytes) (data : bytes) : result bytes :=
  self ← sha1_hash_bytes (nn_sha1_init le memory) data; '(_, digest) ← nn_sha1_result self; Ok digest.

(** ** FIPS 180-4 *)

Module Fips.

Definition ROTL (n x : Z) : Z := u32 (Z.shiftl x n) + Z.shiftr x (32 - n).
Definition Ch (x y z : Z) : Z := Z.lxor (Z.land x y) (Z.land (Z.lxor x (Z.ones 32)) z).
Definition Parity (x y z : Z) : Z := Z.lxor (Z.lxor x y) z.
Definition Maj (x y z : Z) : Z := Z.lxor (Z.lxor (Z.land x y) (Z.land x z)) (Z.land y z).

Definition f (t : nat) : Z -> Z -> Z -> Z :=
  if (t <? 20)%nat then Ch else if (t <? 40)%nat then Parity else if (t <? 60)%nat then Maj else Parity.
Definition K (t : nat) : Z :=
  if (t <? 20)%nat then 0x5A827999 else if (t <? 40)%nat then 0x6ED9EBA1 else if (t <? 60)%nat then 0x8F1BBCDC else 0xCA62C1D6.

Definition H0 : vars := Vars 0x67452301 0xefcdab89 0x98badcfe 0x10325476 0xc3d2e1f0.

(** A message of bytes: its padding is a byte 0x80, as many zeros as fill a
    block up to its last eight bytes, and its length in bits. *)
Definition zeros (n : Z) : nat := Z.to_nat ((55 - n) mod 64).
Definition padded (msg : bytes) : bytes :=
  let n := Z.of_nat (length msg) in msg ++ [0x80] ++ replicate (zeros n) 0 ++ be_bytes 8 (8 * n).

(** The words of a block and the message schedule: [W t] for [t < n]. *)
Fixpoint schedule (n : nat) (M : list Z) : list Z :=
  match n with
  | O => []
  | S t =>
      let W := schedule t M in
      W ++ [if (t <? 16)%nat then M !!! t else ROTL 1 (Z.lxor (Z.lxor (Z.lxor (W !!! (t - 3)%nat) (W !!! (t - 8)%nat)) (W !!! (t - 14)%nat)) (W !!! (t - 16)%nat))]
  end.

Definition step (W : list Z) (v : vars) (t : nat) : vars :=
  let '(Vars a b c d e) := v in
  Vars (u32 (ROTL 5 a + f t b c d + e + K t + W !!! t)) a (ROTL 30 b) c d.

Definition block_words (block : bytes) : list Z := (fun i => be_val 0 (take 4 (drop (4 * i) block))) <$> seq 0 16.

Definition compress (H : vars) (block : bytes) : vars :=
  let W := schedule 80 (block_words block) in
  let v := fold_left (step W) (seq 0 80) H in
  Vars (u32 (va H + va v)) (u32 (vb H + vb v)) (u32 (vc H + vc v)) (u32 (vd H + vd v)) (u32 (ve H + ve v)).

Fixpoint blocks (n : nat) (H : vars) (msg : bytes) : vars :=
  match n with O => H | S n => blocks n (compress H (take 64 msg)) (drop 64 msg) end.

Definition digest (v : vars) : bytes := concat (be_bytes 4 <$> [va v; vb v; vc v; vd v; ve v]).

Definition sha1 (msg : bytes) : bytes := let p := padded msg in digest (blocks (length p / 64) H0 p).

End Fips.

Example sha1_abc : Fips.sha1 [97; 98; 99] = [0xa9; 0x99; 0x3e; 0x36; 0x47; 0x06; 0x81; 0x6a; 0xba; 0x3e; 0x25; 0x71; 0x78; 0x50; 0xc2; 0x6c; 0x9c; 0xd0; 0xd8; 0x9d].
Proof. vm_compute. reflexivity. Qed.

Example hash_abc : nn_sha1_hash true (replicate 64 7) [97; 98; 99] = Ok (Fips.sha1 [97; 98; 99]) /\ nn_sha1_hash false (replicate 64 7) [97; 98; 99] = Ok (Fips.sha1 [97; 98; 99]).
Proof. split; vm_compute; reflexivity. Qed.

(** ** Words *)

Abbreviation word := (in_range 32).

Lemma rol32_ROTL n x : 0 <= n <= 32 -> word x -> sha1_rol32 x n = Fips.ROTL n x.
Proof.
  intros Hn Hx. unfold in_range in Hx. unfold sha1_rol32, Fips.ROTL. unfold wrap. rewrite Z.shiftl_mul_pow2, Z.shiftr_div_pow2 by lia.
  assert (E : 2 ^ 32 = 2 ^ (32 - n) * 2 ^ n) by (rewrite <- Z.pow_add_r by lia; f_equal; lia).
  assert (0 < 2 ^ n /\ 0 < 2 ^ (32 - n)) by (split; apply Z.pow_pos_nonneg; lia).
  rewrite E, Z.mul_mod_distr_r by lia. rewrite <- Z.shiftl_mul_pow2 by lia.
  rewrite lor_add; [by rewrite Z.shiftl_mul_pow2 by lia|lia|]. split; [apply Z.div_pos; lia|]. apply Z.div_lt_upper_bound; lia.
Qed.

Lemma ROTL_word n x : 0 <= n <= 32 -> word x -> word (Fips.ROTL n x).
Proof.
  intros Hn Hx. unfold in_range in *. unfold Fips.ROTL, wrap. rewrite Z.shiftl_mul_pow2, Z.shiftr_div_pow2 by lia.
  assert (E : 2 ^ 32 = 2 ^ (32 - n) * 2 ^ n) by (rewrite <- Z.pow_add_r by lia; f_equal; lia).
  assert (0 < 2 ^ n /\ 0 < 2 ^ (32 - n)) by (split; apply Z.pow_pos_nonneg; lia).
  rewrite E, Z.mul_mod_distr_r by lia. pose proof (Z.mod_pos_bound x (2 ^ (32 - n)) ltac:(lia)).
  assert (0 <= x / 2 ^ (32 - n) < 2 ^ n) by (split; [apply Z.div_pos; lia|apply Z.div_lt_upper_bound; lia]). nia.
Qed.

Lemma word_bit x i : word x -> 32 <= i -> Z.testbit x i = false.
Proof.
  intros Hx Hi. unfold in_range in Hx. destruct (decide (x = 0)) as [->|]; [apply Z.testbit_0_l|].
  apply Z.bits_above_log2; [lia|]. apply Z.lt_le_trans with 32; [|lia]. apply Z.log2_lt_pow2; lia.
Qed.

Lemma Ch_eq b c d : word d -> Z.lxor d (Z.land b (Z.lxor c d)) = Fips.Ch b c d.
Proof.
  intros Hd. unfold Fips.Ch. apply Z.bits_inj'. intros i Hi. rewrite !Z.lxor_spec, !Z.land_spec, !Z.lxor_spec.
  destruct (Z.lt_ge_cases i 32); [rewrite Z.ones_spec_low by lia|rewrite (word_bit d i) by done];
    destruct (Z.testbit b i), (Z.testbit c i); try destruct (Z.testbit d i); try destruct (Z.testbit (Z.ones 32) i); done.
Qed.

Lemma Maj_eq b c d : Z.lor (Z.land b c) (Z.land d (Z.lor b c)) = Fips.Maj b c d.
Proof.
  unfold Fips.Maj. apply Z.bits_inj'. intros i Hi. rewrite !Z.lxor_spec, !Z.lor_spec, !Z.land_spec, !Z.lor_spec.
  destruct (Z.testbit b i), (Z.testbit c i), (Z.testbit d i); done.
Qed.

Lemma lxor_word x y : word x -> word y -> word (Z.lxor x y).
Proof.
  intros Hx Hy. unfold in_range. split; [apply Z.lxor_nonneg; unfold in_range in *; lia|].
  assert (E : Z.lxor x y = Z.lxor x y mod 2 ^ 32); [|rewrite E; apply Z.mod_pos_bound; lia].
  apply Z.bits_inj'. intros i Hi. rewrite Z.testbit_mod_pow2 by lia. destruct (Z.ltb_spec i 32); [done|].
  rewrite Z.lxor_spec, !word_bit by (done || lia). done.
Qed.

(** ** The block in memory *)

Lemma rd_word_range le buf i : bytes_ok buf -> (4 * i + 4 <= length buf)%nat -> word (rd_word le buf i).
Proof.
  intros Hb Hi. unfold rd_word. set (b := take 4 (drop (4 * i) buf)).
  assert (Hok : bytes_ok b) by (by apply Forall_take, Forall_drop). assert (Hl : length b = 4%nat) by (unfold b; rewrite length_take, length_drop; lia).
  assert (Hok' : bytes_ok (if le then rev b else b)) by (destruct le; [apply Forall_rev|]; done).
  pose proof (be_val_range _ 0 Hok' ltac:(lia)) as Hr. assert (Hl' : length (if le then rev b else b) = 4%nat) by (destruct le; rewrite ?length_rev; done).
  rewrite Hl' in Hr. unfold in_range. change (256 ^ Z.of_nat 4) with (2 ^ 32) in Hr. lia.
Qed.

Lemma wr_word_length le buf i v : (4 * i + 4 <= length buf)%nat -> length (wr_word le buf i v) = length buf.
Proof.
  intros Hi. unfold wr_word. rewrite !length_app, length_take, length_drop.
  assert (length (if le then rev (be_bytes 4 v) else be_bytes 4 v) = 4%nat) as -> by (destruct le; rewrite ?length_rev; apply be_bytes_length). lia.
Qed.

Lemma wr_word_ok le buf i v : bytes_ok buf -> bytes_ok (wr_word le buf i v).
Proof.
  intros Hb. unfold wr_word. apply Forall_app. split; [by apply Forall_take|]. apply Forall_app. split; [|by apply Forall_drop].
  destruct le; [apply Forall_rev|]; apply be_bytes_ok.
Qed.

Lemma rd_wr_word le buf i j v : word v -> (4 * i + 4 <= length buf)%nat ->
  rd_word le (wr_word le buf i v) j = if bool_decide (i = j) then v else rd_word le buf j.
Proof.
  intros Hv Hi. unfold rd_word, wr_word. set (b := if le then rev (be_bytes 4 v) else be_bytes 4 v).
  assert (Hb : length b = 4%nat) by (unfold b; destruct le; rewrite ?length_rev; apply be_bytes_length).
  assert (Ht : length (take (4 * i) buf) = (4 * i)%nat) by (rewrite length_take; lia).
  cases (i = j) as Hij.
  - subst j. rewrite drop_app_le, drop_ge by lia. cbn [app]. rewrite take_app_le, take_ge by lia.
    unfold b. destruct le; rewrite ?rev_involutive; apply be_round; unfold in_range in Hv; cbn; lia.
  - assert (E : take 4 (drop (4 * j) (take (4 * i) buf ++ b ++ drop (4 * i + 4) buf)) = take 4 (drop (4 * j) buf)); [|by rewrite E].
    destruct (Nat.lt_ge_cases j i).
    + rewrite drop_app_le by lia. rewrite take_app_le by (rewrite length_drop; lia). rewrite skipn_firstn_comm, take_take. f_equal. lia.
    + rewrite drop_app_ge by lia. rewrite drop_app_ge by lia. rewrite drop_drop, Ht, Hb. do 2 f_equal. lia.
Qed.

(** ** The schedule *)

Lemma schedule_length n M : length (Fips.schedule n M) = n.
Proof. induction n; cbn; [done|]. rewrite length_app, IHn. cbn. lia. Qed.

Lemma schedule_prefix t n M : (t <= n)%nat -> exists l, Fips.schedule n M = Fips.schedule t M ++ l.
Proof.
  induction 1 as [|n _ (l & E)]; [exists []; by rewrite app_nil_r|]. cbn [Fips.schedule]. eexists. rewrite app_assoc. by rewrite <- E.
Qed.

Lemma schedule_stable t n M j : (j < t)%nat -> (t <= n)%nat -> Fips.schedule n M !!! j = Fips.schedule t M !!! j.
Proof. intros Hj (l & ->)%(fun H => schedule_prefix t n M H). apply lookup_total_app_l. by rewrite schedule_length. Qed.

Lemma schedule_entry n M t : (t < n)%nat -> let W := Fips.schedule n M in
  W !!! t = if (t <? 16)%nat then M !!! t
            else Fips.ROTL 1 (Z.lxor (Z.lxor (Z.lxor (W !!! (t - 3)%nat) (W !!! (t - 8)%nat)) (W !!! (t - 14)%nat)) (W !!! (t - 16)%nat)).
Proof.
  intros Ht W. unfold W. rewrite (schedule_stable (S t) n M t) by lia. cbn [Fips.schedule].
  rewrite lookup_total_app_r by (by rewrite schedule_length). rewrite schedule_length, Nat.sub_diag. cbn [lookup_total list_lookup_total].
  destruct (Nat.ltb_spec t 16); [done|]. by rewrite !(schedule_stable t n M) by lia.
Qed.

Lemma schedule_word n M t : (forall i, (i < 16)%nat -> word (M !!! i)) -> (t < n)%nat -> word (Fips.schedule n M !!! t).
Proof.
  intros HM. induction t as [t IH] using lt_wf_ind. intros Ht. rewrite schedule_entry by done.
  destruct (Nat.ltb_spec t 16); [by apply HM|]. apply ROTL_word; [lia|]. repeat apply lxor_word; apply IH; lia.
Qed.

(** ** The loop over a block *)

Definition words (v : vars) : Prop := word (va v) /\ word (vb v) /\ word (vc v) /\ word (vd v) /\ word (ve v).

Lemma wrap_word x : word (u32 x).
Proof. by apply wrap_range. Qed.
#[local] Hint Resolve wrap_word : core.

Lemma word_slot_mod i : word_slot i = (i mod 16)%nat.
Proof. apply (Nat.land_ones i 4). Qed.

Lemma step_words W v t : words v -> words (Fips.step W v t).
Proof.
  destruct v as [a b c d e]. intros (Ha & Hb & Hc & Hd & He). cbn in *. unfold words. split_and!; cbn [va vb vc vd ve Fips.step]; try done. apply ROTL_word; [lia|done].
Qed.

Lemma f_eq t b c d : word d ->
  (if (t <? 20)%nat then u32 (Z.lxor d (Z.land b (Z.lxor c d)) + 0x5A827999)
   else if (t <? 40)%nat then u32 (Z.lxor (Z.lxor b c) d + 0x6ED9EBA1)
   else if (t <? 60)%nat then u32 (Z.lor (Z.land b c) (Z.land d (Z.lor b c)) + 0x8F1BBCDC)
   else u32 (Z.lxor (Z.lxor b c) d + 0xCA62C1D6)) = u32 (Fips.f t b c d + Fips.K t).
Proof. intros Hd. unfold Fips.f, Fips.K. rewrite Ch_eq, Maj_eq by done. by repeat case_match. Qed.

Section Block.
  Context (le : bool) (M : list Z) (H : vars).
  Context (HM : forall i, (i < 16)%nat -> word (M !!! i)) (HH : words H).
Let W := Fips.schedule 80 M.

(** At the start of round [i] the memory holds the last sixteen words of the
    schedule, at first the block. *)
Definition round_inv (i : nat) (s : bytes * vars) : Prop :=
  length s.1 = 64%nat /\ bytes_ok s.1 /\ words s.2 /\ s.2 = fold_left (Fips.step W) (seq 0 i) H /\
  forall j, (j < 80)%nat -> (j < Nat.max i 16)%nat -> (i <= j + 16)%nat -> rd_word le s.1 (word_slot j) = W !!! j.

Lemma word_slot_lt i : (4 * word_slot i + 4 <= 64)%nat.
Proof. rewrite word_slot_mod. pose proof (Nat.mod_upper_bound i 16). lia. Qed.

Lemma slot_ne i j : (j < i)%nat -> (i < j + 16)%nat -> word_slot i <> word_slot j.
Proof. intros. rewrite !word_slot_mod. intros E. pose proof (Nat.div_mod_eq i 16). pose proof (Nat.div_mod_eq j 16). lia. Qed.

(** The sixteen words the recurrence reads. *)
Lemma slot_back i k : (16 <= i)%nat -> (k <= 16)%nat -> word_slot (i + (16 - k)) = word_slot (i - k).
Proof. intros. rewrite !word_slot_mod. replace (i + (16 - k))%nat with (i - k + 1 * 16)%nat by lia. by rewrite Nat.Div0.mod_add. Qed.

Lemma round_ok i s : (i < 80)%nat -> round_inv i s -> round_inv (S i) (sha1_round le i s).
Proof.
  intros Hi. destruct s as [buf [a b c d e]]. intros (Hl & Hok & Hw & Hv & Hbuf). cbn [fst snd] in *.
  set (buf' := if (16 <=? i)%nat then wr_word le buf (word_slot i) (W !!! i) else buf).
  assert (E : sha1_round le i (buf, Vars a b c d e) = (buf', Fips.step W (Vars a b c d e) i)
    /\ length buf' = 64%nat /\ bytes_ok buf' /\
    forall j, (j < 80)%nat -> (j < Nat.max (S i) 16)%nat -> (S i <= j + 16)%nat -> rd_word le buf' (word_slot j) = W !!! j).
  2: { destruct E as (-> & Hl' & Hok' & Hbuf'). split; [done|]. split; [done|]. split; [by apply step_words|].
       split; [|exact Hbuf']. rewrite seq_S, fold_left_app, <- Hv. done. }
  assert (HWi : word (W !!! i)) by (apply schedule_word; done).
  assert (Hbuf' : forall j, (j < 80)%nat -> (j < Nat.max (S i) 16)%nat -> (S i <= j + 16)%nat -> rd_word le buf' (word_slot j) = W !!! j).
  { intros j Hj Hm Hs. unfold buf'. destruct (Nat.leb_spec 16 i); [|apply Hbuf; lia].
    rewrite rd_wr_word by (done || rewrite Hl; apply word_slot_lt). cases (word_slot i = word_slot j) as Hsl.
    - destruct (decide (i = j)) as [->|]; [done|]. exfalso. apply (slot_ne i j); [lia|lia|done].
    - apply Hbuf; try lia. destruct (decide (i = j)) as [->|]; [done|lia]. }
  split; [|split; [|split; [|done]]].
  2, 3: unfold buf'; destruct (16 <=? i)%nat; [|done].
  2: rewrite wr_word_length; [done|rewrite Hl; apply word_slot_lt].
  2: by apply wr_word_ok.
  destruct Hw as (Ha & Hb & Hc & Hd & He). cbn in Ha, Hb, Hc, Hd, He. unfold sha1_round.
  rewrite (f_eq i b c d Hd), (rol32_ROTL 5 a), (rol32_ROTL 30 b) by (lia || done).
  assert (E : (if (16 <=? i)%nat
    then wr_word le buf (word_slot i) (sha1_rol32 (Z.lxor (Z.lxor (Z.lxor (rd_word le buf (word_slot (i + 13))) (rd_word le buf (word_slot (i + 8)))) (rd_word le buf (word_slot (i + 2)))) (rd_word le buf (word_slot i))) 1)
    else buf) = buf').
  { unfold buf'. destruct (Nat.leb_spec 16 i); [|done]. f_equal.
    change (i + 13)%nat with (i + (16 - 3))%nat. change (i + 8)%nat with (i + (16 - 8))%nat. change (i + 2)%nat with (i + (16 - 14))%nat.
    rewrite !slot_back by lia. replace (word_slot i) with (word_slot (i - 16)) by (rewrite <- (slot_back i 16) by lia; f_equal; lia).
    rewrite !Hbuf by lia. rewrite rol32_ROTL; [|lia|repeat apply lxor_word; apply schedule_word; (done || lia)].
    pose proof (schedule_entry 80 M i Hi) as Ei. cbv zeta in Ei. fold W in Ei. rewrite Ei. by rewrite (proj2 (Nat.ltb_ge i 16)) by lia. }
  rewrite E. rewrite (Hbuf' i) by lia. f_equal. cbn [Fips.step]. f_equal. unfold wrap. rewrite Zplus_mod_idemp_l. f_equal. lia.
Qed.

Lemma rounds_ok s : round_inv 0 s -> round_inv 80 (sha1_rounds le s).
Proof.
  intros Hs. unfold sha1_rounds. assert (Hn : forall n, (n <= 80)%nat -> round_inv n (fold_left (fun s i => sha1_round le i s) (seq 0 n) s)).
  { induction n as [|n IH]; intros Hn; [done|]. rewrite seq_S, fold_left_app. cbn [fold_left]. apply round_ok; [lia|]. apply IH. lia. }
  by apply Hn.
Qed.
End Block.

(** ** Bytes into blocks *)

(** The place in memory of byte [j] of the block. *)
Definition place (le : bool) (j : nat) : nat := if le then Nat.lxor j 3 else j.

Lemma place_inj le i j : place le i = place le j -> i = j.
Proof.
  destruct le; [|done]. cbn. intros E. rewrite <- (Nat.lxor_0_r i), <- (Nat.lxor_0_r j), <- (Nat.lxor_nilpotent 3), <- !Nat.lxor_assoc.
  by rewrite E.
Qed.

Lemma place_eq le i k : (i < 16)%nat -> (k < 4)%nat -> place le (4 * i + k) = (4 * i + if le then 3 - k else k)%nat.
Proof.
  intros Hi Hk. destruct le; [|done].
  assert (HF : forallb (fun i => forallb (fun k => Nat.eqb (place true (4 * i + k)) (4 * i + (3 - k))) (seq 0 4)) (seq 0 16) = true) by (vm_compute; reflexivity).
  rewrite forallb_forall in HF. specialize (HF i ltac:(apply in_seq; lia)). rewrite forallb_forall in HF.
  specialize (HF k ltac:(apply in_seq; lia)). by apply Nat.eqb_eq.
Qed.

Lemma place_lt le j : (j < 64)%nat -> (place le j < 64)%nat.
Proof.
  intros Hj. pose proof (place_eq le (j / 4) (j mod 4)) as E. pose proof (Nat.div_mod_eq j 4). pose proof (Nat.mod_upper_bound j 4).
  rewrite <- Nat.div_mod_eq in E. rewrite E by lia. destruct le; lia.
Qed.

Lemma take4 (b : bytes) n : (n + 4 <= length b)%nat -> take 4 (drop n b) = [b !!! n; b !!! (n + 1)%nat; b !!! (n + 2)%nat; b !!! (n + 3)%nat].
Proof.
  intros Hn. rewrite <- (take_drop n b) at 2 3 4 5. assert (Hl : length (take n b) = n) by (rewrite length_take; lia).
  assert (Hd : (4 <= length (drop n b))%nat) by (rewrite length_drop; lia). rewrite !lookup_total_app_r by lia. rewrite Hl.
  destruct (drop n b) as [|x0 [|x1 [|x2 [|x3 d]]]]; cbn in Hd; try lia. cbn [take].
  rewrite Nat.sub_diag. replace (n + 1 - n)%nat with 1%nat by lia. replace (n + 2 - n)%nat with 2%nat by lia. by replace (n + 3 - n)%nat with 3%nat by lia.
Qed.

(** Memory that holds the whole block has its words. *)
Lemma full_words le buf block i : length buf = 64%nat -> length block = 64%nat -> (i < 16)%nat ->
  (forall j, (j < 64)%nat -> buf !! place le j = block !! j) -> rd_word le buf i = Fips.block_words block !!! i.
Proof.
  intros Hl Hb Hi Hbuf. unfold rd_word, Fips.block_words. rewrite (@list_lookup_total_fmap nat Z _ _) by (rewrite length_seq; lia).
  rewrite lookup_total_seq_lt by lia. rewrite !take4 by lia. cbn [Nat.add].
  assert (E : forall k, (k < 4)%nat -> block !!! (4 * i + k)%nat = buf !!! (4 * i + if le then 3 - k else k)%nat).
  { intros k Hk. rewrite !list_lookup_total_alt, <- place_eq, Hbuf by lia. done. }
  pose proof (E 0%nat ltac:(lia)) as E0. rewrite Nat.add_0_r in E0. rewrite E0, !E by lia. by destruct le; cbn [rev app Nat.sub]; rewrite ?Nat.add_0_r.
Qed.

Record repr (self : nn_sha1) (H : vars) (pend : bytes) : Prop := {
  rp_state : sha_state self = [va H; vb H; vc H; vd H; ve H];
  rp_words : words H;
  rp_offset : sha_offset self = length pend;
  rp_lt : (length pend < 64)%nat;
  rp_length : length (sha_buffer self) = 64%nat;
  rp_ok : bytes_ok (sha_buffer self);
  rp_bytes : forall j, (j < length pend)%nat -> sha_buffer self !! place (sha_le self) j = pend !! j
}.

(** The state after some more bytes [data]. *)
Definition absorbs (self self' : nn_sha1) (H : vars) (data : bytes) : Prop :=
  let n := (length data / 64)%nat in
  sha_hashed self' = sha_hashed self /\ sha_le self' = sha_le self /\ repr self' (Fips.blocks n H data) (drop (64 * n) data).

Lemma compress_words H block : words (Fips.compress H block).
Proof. unfold words, Fips.compress. cbv zeta. cbn [va vb vc vd ve]. exact (conj (wrap_word _) (conj (wrap_word _) (conj (wrap_word _) (conj (wrap_word _) (wrap_word _))))). Qed.

Lemma block_words_word block i : bytes_ok block -> length block = 64%nat -> (i < 16)%nat -> word (Fips.block_words block !!! i).
Proof.
  intros Hb Hl Hi. rewrite <- (full_words false block block) by done. apply rd_word_range; [done|lia].
Qed.

Lemma bytes_snoc b x : bytes_ok b -> in_range 8 x -> bytes_ok (b ++ [x]).
Proof. intros Hb Hx. apply Forall_app. split; [done|]. apply Forall_cons. split; [done|apply Forall_nil_2]. Qed.

Lemma compress_eq H block : Fips.compress H block =
  let v := fold_left (Fips.step (Fips.schedule 80 (Fips.block_words block))) (seq 0 80) H in
  Vars (u32 (va H + va v)) (u32 (vb H + vb v)) (u32 (vc H + vc v)) (u32 (vd H + vd v)) (u32 (ve H + ve v)).
Proof. reflexivity. Qed.

#[local] Opaque sha1_rounds Fips.schedule Fips.compress.

Lemma add_ok self H pend x : repr self H pend -> in_range 8 x -> bytes_ok pend ->
  exists self', nn_sha1_add self x = Ok self' /\ absorbs self self' H (pend ++ [x]).
Proof.
  intros [Hst Hw Ho Hlt Hl Hok Hb] Hx Hp. unfold nn_sha1_add. set (le := sha_le self) in *.
  change (if le then Nat.lxor (sha_offset self) 3 else sha_offset self) with (place le (sha_offset self)). rewrite Ho.
  pose proof (place_lt le (length pend) Hlt) as Hpl. unfold wr. rewrite bool_decide_true by lia. mred.
  set (buf := <[place le (length pend) := x]> (sha_buffer self)).
  assert (Hl' : length buf = 64%nat) by (unfold buf; rewrite length_insert; done).
  assert (Hok' : bytes_ok buf) by (by apply Forall_insert).
  assert (Hb' : forall j, (j < length (pend ++ [x]))%nat -> buf !! place le j = (pend ++ [x]) !! j).
  { intros j. rewrite length_app. cbn [length]. intros Hj. unfold buf. destruct (decide (j = length pend)) as [->|Hne].
    - rewrite list_lookup_insert_eq by lia. by rewrite lookup_app_r, Nat.sub_diag by lia.
    - rewrite list_lookup_insert_ne by (intros E; by apply place_inj in E). rewrite lookup_app_l by lia. apply Hb. lia. }
  unfold absorbs. rewrite length_app in *. cbn [length] in *. rewrite (Nat.add_comm _ 1) in *. cbn [Nat.add] in *.
  destruct (Nat.eqb_spec (S (length pend)) SHA1_BLOCK_LEN) as [Hfull|Hfull]; unfold SHA1_BLOCK_LEN in Hfull.
  - rewrite Hst, Hfull. change (64 / 64)%nat with 1%nat. cbn [Fips.blocks].
    assert (Hlen : length (pend ++ [x]) = 64%nat) by (rewrite length_app; cbn; lia).
    rewrite take_ge by lia. set (block := pend ++ [x]) in *.
    assert (HM : forall i, (i < 16)%nat -> word (Fips.block_words block !!! i)).
    { intros i Hi. apply block_words_word; [by apply bytes_snoc|done|done]. }
    pose proof (rounds_ok le (Fips.block_words block) H HM (buf, H)) as Hr.
    destruct Hr as (Hrl & Hrok & Hrw & Hrv & _).
    { split; [done|]. split; [done|]. split; [done|]. split; [done|]. intros j Hj Hm _. cbn [fst].
      rewrite word_slot_mod, Nat.mod_small by lia. rewrite (full_words le buf block); [|done|done|lia|intros; apply Hb'; lia].
      pose proof (schedule_entry 80 (Fips.block_words block) j Hj) as Ej. cbv zeta in Ej. by rewrite Ej, (proj2 (Nat.ltb_lt j 16)) by lia. }
    assert (EH : Vars (va H) (vb H) (vc H) (vd H) (ve H) = H) by (by destruct H). rewrite EH. clear EH.
    assert (Ec : Fips.compress H block = let v := (sha1_rounds le (buf, H)).2 in Vars (u32 (va H + va v)) (u32 (vb H + vb v)) (u32 (vc H + vc v)) (u32 (vd H + vd v)) (u32 (ve H + ve v)))
      by (by rewrite compress_eq, <- Hrv).
    rewrite Ec. pose proof (compress_words H block) as Hcw. rewrite Ec in Hcw. clear Ec Hrv. revert Hrl Hrok Hcw.
    generalize (sha1_rounds le (buf, H)) as r. intros [buf' [a' b' c' d' e']]. cbn [fst snd va vb vc vd ve]. intros Hrl Hrok Hcw.
    eexists. split; [reflexivity|]. split; [done|]. split; [done|]. rewrite drop_ge by lia. constructor; cbn; try done; lia.
  - eexists. split; [reflexivity|]. split; [done|]. split; [done|]. rewrite Nat.div_small by lia. cbn [Fips.blocks Nat.mul]. rewrite drop_0.
    constructor; cbn; try done; rewrite ?length_app; cbn; try lia. intros j Hj. apply Hb'. lia.
Qed.

Lemma blocks_app n m H a b : length a = (64 * n)%nat -> Fips.blocks (n + m) H (a ++ b) = Fips.blocks m (Fips.blocks n H a) b.
Proof.
  revert H a. induction n as [|n IH]; intros H a Ha; cbn [Nat.add Fips.blocks].
  - by apply nil_length_inv in Ha as ->.
  - rewrite take_app_le, drop_app_le by lia. apply IH. rewrite length_drop. lia.
Qed.

Lemma blocks_more n H a b : length a = (64 * n)%nat -> Fips.blocks n H (a ++ b) = Fips.blocks n H a.
Proof. intros Ha. rewrite <- (Nat.add_0_r n) at 1. by rewrite blocks_app. Qed.

Lemma absorbs_app self self' self'' H a b :
  let n := (length a / 64)%nat in absorbs self self' H a -> absorbs self' self'' (Fips.blocks n H a) (drop (64 * n) a ++ b) -> absorbs self self'' H (a ++ b).
Proof.
  intros n (E1 & E2 & Hr) (E3 & E4 & Hr2). fold n in Hr.
  split; [congruence|]. split; [congruence|]. pose proof (Nat.div_mod_eq (length a) 64) as Hdm. fold n in Hdm.
  assert (Hlen : length (drop (64 * n) a ++ b) = (length (a ++ b) - 64 * n)%nat) by (rewrite !length_app, length_drop; lia).
  assert (Hk : (length (a ++ b) / 64)%nat = (n + length (drop (64 * n) a ++ b) / 64)%nat).
  { rewrite Hlen. replace (length (a ++ b)) with (n * 64 + (length (a ++ b) - 64 * n))%nat at 1 by (rewrite length_app; lia).
    by rewrite Nat.div_add_l by lia. }
  rewrite Hk. set (m := (length (drop (64 * n) a ++ b) / 64)%nat) in *.
  assert (Ha : length (take (64 * n) a) = (64 * n)%nat) by (rewrite length_take; lia).
  assert (E : a ++ b = take (64 * n) a ++ (drop (64 * n) a ++ b)) by (by rewrite app_assoc, take_drop).
  rewrite E, blocks_app by done. rewrite drop_app_ge by lia. rewrite Ha. replace (64 * (n + m) - 64 * n)%nat with (64 * m)%nat by lia.
  replace (Fips.blocks n H (take (64 * n) a)) with (Fips.blocks n H a); [done|]. rewrite <- (blocks_more n H (take (64 * n) a) (drop (64 * n) a)) by done. by rewrite take_drop.
Qed.

Lemma add_all_ok data : forall self H pend, repr self H pend -> bytes_ok (pend ++ data) ->
  exists self', sha1_add_all self data = Ok self' /\ absorbs self self' H (pend ++ data).
Proof.
  induction data as [|x data IH]; intros self H pend Hr Hok.
  - exists self. split; [done|]. rewrite app_nil_r in *. destruct Hr as [Hst Hw Ho Hlt Hl Hok' Hb]. split; [done|]. split; [done|].
    rewrite Nat.div_small by lia. cbn [Fips.blocks Nat.mul]. rewrite drop_0. by constructor.
  - apply Forall_app in Hok as [Hp Hx]. apply Forall_cons in Hx as [Hx Hd]. cbn [sha1_add_all].
    destruct (add_ok self H pend x Hr Hx Hp) as (self1 & E1 & Ha1). rewrite E1. mred.
    assert (Hp1 : bytes_ok (pend ++ [x])) by (by apply bytes_snoc).
    destruct (IH self1 _ _ (proj2 (proj2 Ha1))) as (self' & E' & Ha'); [apply Forall_app; split; [by apply Forall_drop|done]|].
    exists self'. split; [done|]. replace (pend ++ x :: data) with ((pend ++ [x]) ++ data) by (by rewrite <- app_assoc).
    by apply (absorbs_app self self1).
Qed.

(** ** The counter, the padding and the digest *)

Definition set_hashed (n : Z) (self : nn_sha1) : nn_sha1 := Sha1 (sha_buffer self) (sha_state self) n (sha_offset self) (sha_le self).

Lemma add_set_hashed n self x : nn_sha1_add (set_hashed n self) x = set_hashed n <$> nn_sha1_add self x.
Proof.
  unfold nn_sha1_add. cbn [sha_buffer sha_state sha_hashed sha_offset sha_le set_hashed]. destruct (wr _ _ _) as [buf|]; [|done]. mred.
  destruct (_ =? _)%nat; [|done]. destruct (sha_state self) as [|s0 [|s1 [|s2 [|s3 [|s4 [|? ?]]]]]]; [done|done|done|done|done| |done].
  destruct (sha1_rounds _ _) as [b' []]. reflexivity.
Qed.

Lemma hash_bytes_add_all data : forall self, in_range 32 (sha_hashed self) ->
  sha1_hash_bytes self data = sha1_add_all (set_hashed (u32 (sha_hashed self + Z.of_nat (length data))) self) data.
Proof.
  induction data as [|x data IH]; intros self Hh.
  - cbn. rewrite Z.add_0_r, wrap_small by done. by destruct self.
  - cbn [sha1_hash_bytes sha1_add_all]. unfold nn_sha1_hashbyte. fold (set_hashed (u32 (sha_hashed self + 1)) self). rewrite !add_set_hashed.
    destruct (nn_sha1_add self x) as [self1|]; [|done]. mred. rewrite IH by (cbn [sha_hashed set_hashed]; apply wrap_word).
    cbn [sha_hashed set_hashed sha_buffer sha_state sha_offset sha_le length]. f_equal. unfold set_hashed. cbn. f_equal. unfold wrap. rewrite Zplus_mod_idemp_l. f_equal. lia.
Qed.

Lemma repr_set_hashed n self H pend : repr self H pend -> repr (set_hashed n self) H pend.
Proof. by intros []. Qed.

Lemma add_all_app self a b : sha1_add_all self (a ++ b) = (self ← sha1_add_all self a; sha1_add_all self b).
Proof. revert self. induction a as [|x a IH]; intros self; [done|]. cbn [app sha1_add_all]. destruct (nn_sha1_add self x); [|done]. mred. apply IH. Qed.

Lemma add_all_cons self x d : sha1_add_all self (x :: d) = (self ← nn_sha1_add self x; sha1_add_all self d).
Proof. reflexivity. Qed.

Lemma pad_ok k : forall fuel self H pend, repr self H pend -> bytes_ok pend -> (k < fuel)%nat -> ((length pend + k) mod 64 = 56)%nat ->
  (forall k', (k' < k)%nat -> (length pend + k') mod 64 <> 56)%nat -> sha1_pad fuel self = sha1_add_all self (replicate k 0).
Proof.
  induction k as [|k IH]; intros fuel self H pend Hr Hp Hf Hk Hmin; (destruct fuel as [|fuel]; [lia|]); cbn [sha1_pad replicate sha1_add_all];
    pose proof (rp_offset _ _ _ Hr) as Ho; pose proof (rp_lt _ _ _ Hr) as Hlt; rewrite Ho.
  - rewrite Nat.add_0_r, Nat.mod_small in Hk by done. by rewrite (proj2 (Nat.eqb_eq _ _)).
  - specialize (Hmin 0%nat ltac:(lia)) as H0. rewrite Nat.add_0_r, Nat.mod_small in H0 by done. rewrite (proj2 (Nat.eqb_neq _ _)) by done.
    assert (Hz : in_range 8 0) by (unfold in_range; lia). destruct (add_ok self H pend 0 Hr Hz Hp) as (self1 & E1 & _ & _ & Hr1). rewrite E1. mred.
    set (more := pend ++ [0]) in *. set (n := (length more / 64)%nat) in *. pose proof (Nat.div_mod_eq (length more) 64) as Hdm. fold n in Hdm.
    assert (Hml : length more = S (length pend)) by (unfold more; rewrite length_app; cbn; lia).
    assert (Hl : forall j, ((length (drop (64 * n) more) + j) mod 64 = (length pend + S j) mod 64)%nat).
    { intros j. rewrite length_drop. replace (length pend + S j)%nat with (length more - 64 * n + j + n * 64)%nat by lia.
      by rewrite Nat.Div0.mod_add. }
    apply (IH fuel self1 _ _ Hr1); [by apply Forall_drop, bytes_snoc|lia|by rewrite Hl|]. intros k' Hk'. rewrite Hl. apply Hmin. lia.
Qed.

Lemma byte_at x k : 0 <= k -> Z.land x (Z.shiftl 255 k) = Z.shiftl (x / 2 ^ k mod 256) k.
Proof.
  intros Hk. change 256 with (2 ^ 8). rewrite <- Z.land_ones by lia. rewrite <- Z.shiftr_div_pow2 by lia. rewrite Z.shiftl_land. change (Z.ones 8) with 255.
  apply Z.bits_inj'. intros i Hi. rewrite !Z.land_spec, !Z.shiftl_spec by lia. destruct (Z.lt_ge_cases i k); [by rewrite (Z.testbit_neg_r 255), !andb_false_r by lia|].
  rewrite Z.shiftr_spec by lia. do 2 f_equal. lia.
Qed.

Lemma swap_bytes_eq s : word s -> rev (be_bytes 4 (swap_bytes s)) = be_bytes 4 s.
Proof.
  intros Hs. unfold in_range in Hs. unfold swap_bytes.
  change 0xFF000000 with (Z.shiftl 255 24). change 0x00FF0000 with (Z.shiftl 255 16). change 0x0000FF00 with (Z.shiftl 255 8). change 0x000000FF with (Z.shiftl 255 0).
  rewrite !byte_at by lia. unfold wrap. rewrite !Z.shiftl_mul_pow2, !Z.shiftr_div_pow2 by lia.
  set (b0 := s * 2 ^ 24 mod 2 ^ 32 / 2 ^ 24 mod 256). set (b1 := s * 2 ^ 8 mod 2 ^ 32 / 2 ^ 16 mod 256). set (b2 := s / 2 ^ 8 / 2 ^ 8 mod 256). set (b3 := s / 2 ^ 24 / 2 ^ 0 mod 256).
  assert (H0 : b0 = s mod 256) by (unfold b0; Z.div_mod_to_equations; lia).
  assert (H1 : b1 = s / 256 mod 256) by (unfold b1; Z.div_mod_to_equations; lia).
  assert (H2 : b2 = s / 256 / 256 mod 256) by (unfold b2; done).
  assert (H3 : b3 = s / 256 / 256 / 256 mod 256) by (unfold b3; Z.div_mod_to_equations; lia).
  assert (Hr : 0 <= b0 < 256 /\ 0 <= b1 < 256 /\ 0 <= b2 < 256 /\ 0 <= b3 < 256) by (repeat split; unfold b0, b1, b2, b3; apply Z.mod_pos_bound; lia).
  clearbody b0 b1 b2 b3. rewrite <- (Z.shiftl_mul_pow2 b0) by lia. rewrite (lor_add b0 (b1 * 2 ^ 16) 24) by lia.
  replace (b0 * 2 ^ 24 + b1 * 2 ^ 16) with (Z.shiftl (b0 * 256 + b1) 16) by (rewrite Z.shiftl_mul_pow2; lia). rewrite (lor_add _ (b2 * 2 ^ 8) 16) by lia.
  replace ((b0 * 256 + b1) * 2 ^ 16 + b2 * 2 ^ 8) with (Z.shiftl ((b0 * 256 + b1) * 256 + b2) 8) by (rewrite Z.shiftl_mul_pow2; lia). rewrite (lor_add _ (b3 * 2 ^ 0) 8) by lia.
  cbn [be_bytes app rev]. rewrite <- H0, <- H1, <- H2, <- H3. repeat f_equal; Z.div_mod_to_equations; lia.
Qed.

Lemma state_bytes_eq le s : Forall word s -> state_bytes le (if le then swap_bytes <$> s else s) = concat (be_bytes 4 <$> s).
Proof.
  intros Hs. unfold state_bytes. destruct le; [|done]. f_equal. rewrite <- list_fmap_compose. apply list_fmap_ext. intros i w Hw. cbn.
  apply swap_bytes_eq. by eapply Forall_lookup_1.
Qed.

Lemma length_bytes n : in_range 32 n ->
  [0; 0; 0; u8 (Z.shiftr n 29); u8 (Z.shiftr n 21); u8 (Z.shiftr n 13); u8 (Z.shiftr n 5); u8 (Z.shiftl n 3)] = be_bytes 8 (8 * n).
Proof.
  intros Hn. unfold in_range in Hn. rewrite !Z.shiftr_div_pow2, Z.shiftl_mul_pow2 by lia. unfold wrap. cbn [be_bytes app].
  repeat lazymatch goal with |- _ :: _ = _ :: _ => apply (f_equal2 cons) end; try reflexivity; Z.div_mod_to_equations; lia.
Qed.

Lemma zeros_lt n : (Fips.zeros n < 64)%nat.
Proof. unfold Fips.zeros. pose proof (Z.mod_pos_bound (55 - n) 64). lia. Qed.

(** The padding ends eight bytes before the end of a block, and not earlier. *)
Lemma zeros_spec (l : nat) : ((l + 1 + Fips.zeros (Z.of_nat l)) mod 64 = 56)%nat /\
  forall k, (k < Fips.zeros (Z.of_nat l))%nat -> ((l + 1 + k) mod 64 <> 56)%nat.
Proof.
  unfold Fips.zeros. pose proof (Z.mod_pos_bound (55 - Z.of_nat l) 64 ltac:(lia)) as Hb. pose proof (Z.div_mod (55 - Z.of_nat l) 64 ltac:(lia)) as Hd.
  set (z := (55 - Z.of_nat l) mod 64) in *. set (d := (55 - Z.of_nat l) / 64) in *. split.
  - apply Nat2Z.inj. rewrite Nat2Z.inj_mod, !Nat2Z.inj_add, Z2Nat.id by lia. symmetry. apply (Z.mod_unique_pos _ _ (- d)); lia.
  - intros k Hk E. pose proof (Nat.div_mod_eq (l + 1 + k) 64) as E'. rewrite E in E'. lia.
Qed.

Lemma padded_length msg : (length (Fips.padded msg) mod 64 = 0)%nat.
Proof.
  unfold Fips.padded. rewrite !length_app, length_replicate, be_bytes_length. cbn [length]. pose proof (zeros_lt (Z.of_nat (length msg))).
  destruct (zeros_spec (length msg)) as [E _]. pose proof (Nat.div_mod_eq (length msg + 1 + Fips.zeros (Z.of_nat (length msg))) 64) as E'. rewrite E in E'.
  replace (length msg + (1 + (Fips.zeros (Z.of_nat (length msg)) + 8)))%nat with ((1 + (length msg + 1 + Fips.zeros (Z.of_nat (length msg))) / 64) * 64)%nat by lia.
  apply Nat.Div0.mod_mul.
Qed.

Lemma padded_ok msg : bytes_ok msg -> bytes_ok (Fips.padded msg).
Proof.
  intros Hm. unfold Fips.padded. apply Forall_app. split; [done|]. apply Forall_app. split; [apply Forall_cons; split; [unfold in_range; lia|apply Forall_nil_2]|].
  apply Forall_app. split; [|apply be_bytes_ok]. apply Forall_replicate. unfold in_range. lia.
Qed.

Lemma init_repr le memory : length memory = 64%nat -> bytes_ok memory -> repr (nn_sha1_init le memory) Fips.H0 [].
Proof.
  intros Hl Hok. constructor; try done; cbn; lia.
Qed.

(** The padding of [nn_sha1_result] is the one of the standard. *)
Lemma result_adds self H msg : absorbs self self H [] -> repr self H [] -> bytes_ok msg -> in_range 32 (sha_hashed self) ->
  sha_hashed self = Z.of_nat (length msg) ->
  (self1 ← sha1_add_all self msg; '(_, digest) ← nn_sha1_result self1; Ok digest)
    = (self2 ← sha1_add_all self (Fips.padded msg);
       Ok (state_bytes (sha_le self2) (if sha_le self2 then swap_bytes <$> sha_state self2 else sha_state self2))).
Proof.
  intros _ Hr Hm Hh Hl. unfold Fips.padded. rewrite add_all_app. destruct (add_all_ok msg self H [] Hr Hm) as (s1 & E1 & Hh1 & Hle1 & Hr1). rewrite E1. mred. cbn [app] in *.
  set (n := (length msg / 64)%nat) in *. set (H1 := Fips.blocks n H msg) in *. set (pend := drop (64 * n) msg) in *. assert (Hp : bytes_ok pend) by (by apply Forall_drop).
  assert (H80 : in_range 8 0x80) by (unfold in_range; lia). unfold nn_sha1_result. rewrite add_all_cons.
  destruct (add_ok s1 H1 pend 0x80 Hr1 H80 Hp) as (s2 & E2 & Hh2 & Hle2 & Hr2). rewrite E2. mred. rewrite add_all_app.
  pose proof (bytes_snoc pend 0x80 Hp H80) as Hp2. set (more := pend ++ [0x80]) in *. set (m := (length more / 64)%nat) in *.
  assert (Hml : length more = S (length pend)) by (unfold more; rewrite length_app; cbn; lia).
  pose proof (Nat.div_mod_eq (length msg) 64) as Hd1. fold n in Hd1. pose proof (Nat.div_mod_eq (length more) 64) as Hd2. fold m in Hd2.
  assert (Hlp : length pend = (length msg - 64 * n)%nat) by (unfold pend; rewrite length_drop; lia).
  assert (Hj : forall j, ((length (drop (64 * m) more) + j) mod 64 = (length msg + 1 + j) mod 64)%nat).
  { intros j. rewrite length_drop. replace (length msg + 1 + j)%nat with (length more - 64 * m + j + (m + n) * 64)%nat by lia. by rewrite Nat.Div0.mod_add. }
  destruct (zeros_spec (length msg)) as [Hz Hmin].
  rewrite (pad_ok (Fips.zeros (Z.of_nat (length msg))) 65 s2 _ _ Hr2); [|by apply Forall_drop|pose proof (zeros_lt (Z.of_nat (length msg))); lia|by rewrite Hj|intros k Hk; rewrite Hj; by apply Hmin].
  assert (Hok0 : bytes_ok (drop (64 * m) more ++ replicate (Fips.zeros (Z.of_nat (length msg))) 0))
    by (apply Forall_app; split; [by apply Forall_drop|apply Forall_replicate; unfold in_range; lia]).
  destruct (add_all_ok _ s2 _ _ Hr2 Hok0) as (s3 & E3 & Hh3 & Hle3 & _). rewrite E3. mred.
  rewrite length_bytes by congruence. rewrite Hh3, Hh2, Hh1, Hl. by destruct (sha1_add_all s3 _).
Qed.

(** C28. Whatever the byte order of the machine and the contents of the
    uninitialised buffer, hashing a message of less than 2^32 bytes one byte
    at a time gives its SHA-1 digest as FIPS 180-4 defines it. *)
Theorem nn_sha1_fips180 (le : bool) (memory msg : bytes) :
  length memory = 64%nat -> bytes_ok memory -> bytes_ok msg -> Z.of_nat (length msg) < 2 ^ 32 ->
  nn_sha1_hash le memory msg = Ok (Fips.sha1 msg).
Proof.
  intros Hlm Hmem Hmsg Hlen. pose proof (init_repr le memory Hlm Hmem) as Hr0. unfold nn_sha1_hash.
  assert (Hn : in_range 32 (Z.of_nat (length msg))) by (unfold in_range; lia).
  rewrite hash_bytes_add_all by (cbn; unfold in_range; lia). cbn [sha_hashed nn_sha1_init]. rewrite Z.add_0_l, wrap_small by done.
  set (self := set_hashed (Z.of_nat (length msg)) (nn_sha1_init le memory)). assert (Hr : repr self Fips.H0 []) by (by apply repr_set_hashed).
  rewrite (result_adds self Fips.H0); [|by split; [|split]|done|done|done|done].
  destruct (add_all_ok (Fips.padded msg) self Fips.H0 [] Hr (padded_ok msg Hmsg)) as (s & E & _ & _ & Hrs). rewrite E. mred. cbn [app] in Hrs. f_equal.
  pose proof (rp_state _ _ _ Hrs) as Hst. pose proof (rp_words _ _ _ Hrs) as (Ha & Hb & Hc & Hd & He). unfold Fips.sha1, Fips.digest.
  rewrite state_bytes_eq; [by rewrite Hst|]. rewrite Hst. repeat (apply Forall_cons; split; [done|]). apply Forall_nil_2.
Qed.

(** The hash of RFC 6455, section 1.3. *)
Lemma nn_sha1_fips180_witness :
  nn_sha1_hash true (replicate 64 7) [100; 71; 104; 108] = Ok (Fips.sha1 [100; 71; 104; 108]).
Proof.
  apply (nn_sha1_fips180 true (replicate 64 7) [100; 71; 104; 108]); [reflexivity|apply Forall_replicate; unfold in_range; lia| |reflexivity].
  repeat (apply Forall_cons; split; [unfold in_range; lia|]). apply Forall_nil_2.
Defined.
