(* ===== verification/Cmsg.v ===== *)
(** * Ancillary data ([nn_cmsg_nxthdr_] in [core/global.c], macros of [nn.h])

    The headers of a message as a sequence of properties, each a length, a
    level and a type, in the byte order and sizes of x86-64, followed by its
    data and aligned to eight bytes. *)

From S2P Require Import Prelude Wire.
Local Open Scope Z_scope.

(** Little-endian numbers. *)
Definition le_bytes (n : nat) (v : Z) : bytes := rev (be_bytes n v).
Definition le_val (b : bytes) : Z := be_val 0 (rev b).

Definition NN_CMSG_ALIGN_ (len : Z) : Z := Z.land (u64 (len + 7)) (Z.lnot 7).
Definition sizeof_cmsghdr : Z := 16.
Definition NN_CMSG_SPACE (len : Z) : Z := u64 (NN_CMSG_ALIGN_ len + NN_CMSG_ALIGN_ sizeof_cmsghdr).
Definition NN_CMSG_LEN (len : Z) : Z := u64 (NN_CMSG_ALIGN_ sizeof_cmsghdr + len).

(** The bytes at an offset; beyond the end is a fault. *)
Definition slice (data : bytes) (off : Z) (n : nat) : result bytes :=
  if bool_decide (0 <= off) && bool_decide (off + Z.of_nat n <= Z.of_nat (length data)) then Ok (take n (drop (Z.to_nat off) data))
  else Err BadAccess.

Definition cmsg_len (data : bytes) (off : Z) : result Z := b ← slice data off 8; Ok (le_val b).
Definition cmsg_level (data : bytes) (off : Z) : result Z := b ← slice data (off + 8) 4; Ok (to_int (le_val b)).
Definition cmsg_type (data : bytes) (off : Z) : result Z := b ← slice data (off + 12) 4; Ok (to_int (le_val b)).
Definition NN_CMSG_DATA (off : Z) : Z := off + sizeof_cmsghdr.

(** [data]: the control area; a property is its offset. *)
Definition nn_cmsg_nxthdr_ (data : bytes) (cmsg : option Z) : result (option Z) :=
  let sz := Z.of_nat (length data) in
  if sz <? NN_CMSG_SPACE 0 then Ok None
  else
    headsz ← match cmsg with None => Ok 0 | Some off => len ← cmsg_len data off; Ok (u64 (off + NN_CMSG_ALIGN_ len)) end;
    if sz <? u64 (headsz + NN_CMSG_SPACE 0) then Ok None
    else
      len ← cmsg_len data headsz;
      if sz <? u64 (headsz + NN_CMSG_ALIGN_ len) then Ok None else Ok (Some headsz).

(** The search for a property of a level and a type, as [nn_sws_send] does it. *)
Fixpoint find_cmsg (fuel : nat) (data : bytes) (level type : Z) (cmsg : option Z) : result (option Z) :=
  match cmsg with
  | None => Ok None
  | Some off =>
      match fuel with
      | O => Err NoFuel
      | S fuel =>
          l ← cmsg_level data off; t ← cmsg_type data off;
          if (l =? level) && (t =? type) then Ok (Some off)
          else next ← nn_cmsg_nxthdr_ data (Some off); find_cmsg fuel data level type next
      end
  end.

(** ** Properties in a row *)

Record cmsg := Cmsg { cm_level : Z; cm_type : Z; cm_data : bytes }.

Definition cmsg_ok (c : cmsg) : Prop := - 2 ^ 31 <= cm_level c < 2 ^ 31 /\ - 2 ^ 31 <= cm_type c < 2 ^ 31 /\ bytes_ok (cm_data c).

Definition padding (n : nat) : nat := (8 - n mod 8) mod 8.

(** A property whose length is the one of [NN_CMSG_LEN], with its padding. *)
Definition cmsg_bytes (c : cmsg) : bytes :=
  le_bytes 8 (16 + Z.of_nat (length (cm_data c))) ++ le_bytes 4 (cm_level c) ++ le_bytes 4 (cm_type c) ++ cm_data c ++
  replicate (padding (length (cm_data c))) 0.

Definition cmsgs_bytes (cs : list cmsg) : bytes := concat (cmsg_bytes <$> cs).

Lemma padding_spec n : (n + padding n = (n + 7) / 8 * 8)%nat.
Proof.
  unfold padding. pose proof (Nat.div_mod_eq n 8) as Hn. pose proof (Nat.mod_upper_bound n 8 ltac:(lia)) as Hm. set (q := (n / 8)%nat) in *.
  destruct (decide (n mod 8 = 0)%nat) as [E|E].
  - rewrite E. change ((8 - 0) mod 8)%nat with 0%nat. rewrite <- (Nat.div_unique (n + 7) 8 q 7); lia.
  - rewrite Nat.mod_small by lia. rewrite <- (Nat.div_unique (n + 7) 8 (q + 1) (n mod 8 - 1)); lia.
Qed.

Lemma align_spec len : 0 <= len -> len + 7 < 2 ^ 64 -> NN_CMSG_ALIGN_ len = (len + 7) / 8 * 8.
Proof.
  intros H0 H1. unfold NN_CMSG_ALIGN_. rewrite wrap_small by (unfold in_range; lia). rewrite <- Z.ldiff_land. change 7 with (Z.ones 3) at 2.
  rewrite Z.ldiff_ones_r by lia. rewrite Z.shiftr_div_pow2, Z.shiftl_mul_pow2 by lia. done.
Qed.

Lemma le_bytes_length n v : length (le_bytes n v) = n.
Proof. unfold le_bytes. by rewrite length_rev, be_bytes_length. Qed.

Lemma le_round n v : 0 <= v < 256 ^ Z.of_nat n -> le_val (le_bytes n v) = v.
Proof. intros Hv. unfold le_val, le_bytes. rewrite rev_involutive. by apply be_round. Qed.

Lemma be_bytes_mod n v : be_bytes n v = be_bytes n (v mod 256 ^ Z.of_nat n).
Proof.
  revert v. induction n as [|n IH]; intros v; [done|]. cbn [be_bytes]. rewrite Nat2Z.inj_succ, Z.pow_succ_r by lia.
  assert (0 < 256 ^ Z.of_nat n) by (apply Z.pow_pos_nonneg; lia). rewrite Z.rem_mul_r by lia. f_equal.
  - rewrite IH. f_equal. rewrite (Z.mul_comm 256), Z.div_add by lia. rewrite (Z.div_small (v mod 256)) by (apply Z.mod_pos_bound; lia). done.
  - by rewrite (Z.mul_comm 256), Z.mod_add, Z.mod_mod by lia.
Qed.

Lemma int_round v : - 2 ^ 31 <= v < 2 ^ 31 -> to_int (le_val (le_bytes 4 v)) = v.
Proof.
  intros Hv. unfold le_bytes. rewrite be_bytes_mod. fold (le_bytes 4 (v mod 256 ^ Z.of_nat 4)). change (256 ^ Z.of_nat 4) with (2 ^ 32).
  rewrite le_round by (apply Z.mod_pos_bound; lia). unfold to_int. rewrite wrap_small by (apply Z.mod_pos_bound; lia).
  assert (E : v mod 2 ^ 32 = if bool_decide (v < 0) then v + 2 ^ 32 else v).
  { case_bool_decide; [symmetry; apply (Z.mod_unique_pos v (2 ^ 32) (-1)); lia|apply Z.mod_small; lia]. }
  rewrite E. cases (v < 0) as Hneg; [rewrite bool_decide_false by lia|rewrite bool_decide_true by lia]; lia.
Qed.

Lemma cmsg_bytes_length c : length (cmsg_bytes c) = (16 + (length (cm_data c) + 7) / 8 * 8)%nat.
Proof. unfold cmsg_bytes. rewrite !length_app, !le_bytes_length, length_replicate, <- padding_spec. lia. Qed.

Lemma slice_app a b off n : Z.to_nat off = length a -> 0 <= off -> (n <= length b)%nat -> slice (a ++ b) off n = Ok (take n b).
Proof.
  intros Ho H0 Hn. unfold slice. rewrite length_app. rewrite !bool_decide_true by lia. cbn [andb]. by rewrite Ho, drop_app_length.
Qed.

(** The three fields of a property in a row. *)
Lemma cmsg_fields pre c rest off : off = Z.of_nat (length pre) -> cmsg_ok c -> Z.of_nat (length (cm_data c)) < 2 ^ 32 ->
  let data := pre ++ cmsg_bytes c ++ rest in
  cmsg_len data off = Ok (16 + Z.of_nat (length (cm_data c))) /\ cmsg_level data off = Ok (cm_level c) /\ cmsg_type data off = Ok (cm_type c).
Proof.
  intros -> (Hl & Ht & _) Hd data. unfold data, cmsg_len, cmsg_level, cmsg_type, cmsg_bytes. rewrite <- !app_assoc. split; [|split].
  - rewrite slice_app by (try lia; rewrite length_app, le_bytes_length; lia). mred. rewrite take_app_le, take_ge by (rewrite le_bytes_length; lia).
    f_equal. apply le_round. change (256 ^ Z.of_nat 8) with (2 ^ 64). lia.
  - rewrite (app_assoc pre). rewrite slice_app by (try lia; rewrite !length_app, ?le_bytes_length; lia). mred. rewrite take_app_le, take_ge by (rewrite le_bytes_length; lia).
    f_equal. by apply int_round.
  - rewrite (app_assoc pre), (app_assoc (pre ++ _)). rewrite slice_app by (try lia; rewrite !length_app, ?le_bytes_length; lia). mred.
    rewrite take_app_le, take_ge by (rewrite le_bytes_length; lia). f_equal. by apply int_round.
Qed.

Lemma cmsgs_app a b : cmsgs_bytes (a ++ b) = cmsgs_bytes a ++ cmsgs_bytes b.
Proof. unfold cmsgs_bytes. by rewrite fmap_app, concat_app. Qed.

Section Walk.
  Context (cs : list cmsg) (Hok : Forall cmsg_ok cs) (Hsize : Z.of_nat (length (cmsgs_bytes cs)) < 2 ^ 32).

(** Where the properties after [pre] begin, if there are any. *)
Definition position (pre : list cmsg) (rest : list cmsg) : option Z :=
  match rest with [] => None | _ => Some (Z.of_nat (length (cmsgs_bytes pre))) end.

Lemma nxthdr_at pre rest headsz : cs = pre ++ rest -> headsz = Z.of_nat (length (cmsgs_bytes pre)) ->
  (if Z.of_nat (length (cmsgs_bytes cs)) <? u64 (headsz + NN_CMSG_SPACE 0) then Ok None
   else len ← cmsg_len (cmsgs_bytes cs) headsz;
        if Z.of_nat (length (cmsgs_bytes cs)) <? u64 (headsz + NN_CMSG_ALIGN_ len) then Ok None else Ok (Some headsz)) = Ok (position pre rest).
Proof.
  intros E ->. rewrite E in Hok, Hsize. rewrite E. clear E. rewrite cmsgs_app, length_app in *. change (NN_CMSG_SPACE 0) with 16. destruct rest as [|c rest].
  - cbn [cmsgs_bytes fmap list_fmap concat length] in *. rewrite wrap_small by (unfold in_range; lia). by rewrite (proj2 (Z.ltb_lt _ _)) by lia.
  - assert (Hc : cmsg_ok c) by (apply Forall_app in Hok as [_ Hc]; by apply Forall_cons in Hc as [? _]).
    change (cmsgs_bytes (c :: rest)) with (cmsg_bytes c ++ cmsgs_bytes rest) in *. pose proof (cmsg_bytes_length c) as Hl. rewrite length_app in *.
    assert (Hdl : (length (cm_data c) <= (length (cm_data c) + 7) / 8 * 8)%nat) by (rewrite <- padding_spec; lia).
    rewrite wrap_small by (unfold in_range; lia). rewrite (proj2 (Z.ltb_ge _ _)) by lia.
    destruct (cmsg_fields (cmsgs_bytes pre) c (cmsgs_bytes rest) _ eq_refl Hc ltac:(lia)) as (-> & _ & _). mred.
    rewrite align_spec by lia. assert (Ha : (16 + Z.of_nat (length (cm_data c)) + 7) / 8 * 8 = Z.of_nat (length (cmsg_bytes c))).
    { rewrite Hl, Nat2Z.inj_add, Nat2Z.inj_mul, Nat2Z.inj_div, Nat2Z.inj_add. replace (16 + Z.of_nat (length (cm_data c)) + 7) with (Z.of_nat (length (cm_data c)) + 7 + 2 * 8) by lia.
      rewrite Z.div_add by lia. change (Z.of_nat 7) with 7. change (Z.of_nat 8) with 8. lia. }
    rewrite Ha, wrap_small by (unfold in_range; lia). by rewrite (proj2 (Z.ltb_ge _ _)) by lia.
Qed.

Lemma nxthdr_first : nn_cmsg_nxthdr_ (cmsgs_bytes cs) None = Ok (position [] cs).
Proof.
  unfold nn_cmsg_nxthdr_. pose proof (nxthdr_at [] cs 0 eq_refl eq_refl) as E. destruct (Z.ltb_spec (Z.of_nat (length (cmsgs_bytes cs))) (NN_CMSG_SPACE 0)) as [Hlt|].
  - mred in E. rewrite <- E. change (u64 (0 + NN_CMSG_SPACE 0)) with (NN_CMSG_SPACE 0). by rewrite (proj2 (Z.ltb_lt _ _)).
  - mred. exact E.
Qed.

Lemma nxthdr_next pre c rest : cs = pre ++ c :: rest ->
  nn_cmsg_nxthdr_ (cmsgs_bytes cs) (Some (Z.of_nat (length (cmsgs_bytes pre)))) = Ok (position (pre ++ [c]) rest).
Proof.
  intros E. unfold nn_cmsg_nxthdr_. assert (Hc : cmsg_ok c) by (rewrite E in Hok; apply Forall_app in Hok as [_ Hc]; by apply Forall_cons in Hc as [? _]).
  pose proof (cmsg_bytes_length c) as Hl. assert (Hdl : (length (cm_data c) <= (length (cm_data c) + 7) / 8 * 8)%nat) by (rewrite <- padding_spec; lia).
  assert (Ebytes : cmsgs_bytes cs = cmsgs_bytes pre ++ cmsg_bytes c ++ cmsgs_bytes rest) by (by rewrite E, cmsgs_app).
  assert (Hlen : (length (cmsgs_bytes cs) = length (cmsgs_bytes pre) + length (cmsg_bytes c) + length (cmsgs_bytes rest))%nat) by (rewrite Ebytes, !length_app; lia).
  change (NN_CMSG_SPACE 0) with 16. rewrite (proj2 (Z.ltb_ge _ _)) by lia.
  destruct (cmsg_fields (cmsgs_bytes pre) c (cmsgs_bytes rest) _ eq_refl Hc ltac:(lia)) as (El & _ & _). rewrite <- Ebytes in El. rewrite El. mred.
  assert (Ha : u64 (Z.of_nat (length (cmsgs_bytes pre)) + NN_CMSG_ALIGN_ (16 + Z.of_nat (length (cm_data c)))) = Z.of_nat (length (cmsgs_bytes (pre ++ [c])))).
  { rewrite align_spec by lia. rewrite cmsgs_app. change (cmsgs_bytes [c]) with (cmsg_bytes c ++ []). rewrite app_nil_r, length_app, Hl, !Nat2Z.inj_add, Nat2Z.inj_mul, Nat2Z.inj_div, Nat2Z.inj_add.
    replace (16 + Z.of_nat (length (cm_data c)) + 7) with (Z.of_nat (length (cm_data c)) + 7 + 2 * 8) by lia. rewrite Z.div_add by lia.
    change (Z.of_nat 7) with 7. change (Z.of_nat 8) with 8. rewrite wrap_small; [lia|]. unfold in_range. pose proof (Z.div_mod (Z.of_nat (length (cm_data c)) + 7) 8). pose proof (Z.mod_pos_bound (Z.of_nat (length (cm_data c)) + 7) 8). lia. }
  rewrite Ha. apply nxthdr_at; [by rewrite <- app_assoc|done].
Qed.

(** What matters of a property. *)
Definition wanted (level type : Z) (c : cmsg) : bool := (cm_level c =? level) && (cm_type c =? type).

Lemma find_cmsg_at level type : forall rest pre fuel, cs = pre ++ rest -> (length rest <= fuel)%nat ->
  exists r, find_cmsg fuel (cmsgs_bytes cs) level type (position pre rest) = Ok r /\
    match r with
    | None => forallb (fun c => negb (wanted level type c)) rest = true
    | Some off => exists a c b, rest = a ++ c :: b /\ forallb (fun c => negb (wanted level type c)) a = true /\ wanted level type c = true /\
                    off = Z.of_nat (length (cmsgs_bytes (pre ++ a)))
    end.
Proof.
  induction rest as [|c rest IH]; intros pre fuel E Hf; [exists None; by destruct fuel|]. destruct fuel as [|fuel]; [cbn in Hf; lia|].
  assert (Hc : cmsg_ok c) by (rewrite E in Hok; apply Forall_app in Hok as [_ Hc]; by apply Forall_cons in Hc as [? _]).
  assert (Ebytes : cmsgs_bytes cs = cmsgs_bytes pre ++ cmsg_bytes c ++ cmsgs_bytes rest) by (by rewrite E, cmsgs_app).
  pose proof (cmsg_bytes_length c) as Hl. assert (Hdl : (length (cm_data c) <= (length (cm_data c) + 7) / 8 * 8)%nat) by (rewrite <- padding_spec; lia).
  assert (Hlen : (length (cmsgs_bytes cs) = length (cmsgs_bytes pre) + length (cmsg_bytes c) + length (cmsgs_bytes rest))%nat) by (rewrite Ebytes, !length_app; lia).
  destruct (cmsg_fields (cmsgs_bytes pre) c (cmsgs_bytes rest) _ eq_refl Hc ltac:(lia)) as (_ & El & Et). rewrite <- Ebytes in El, Et.
  cbn [position find_cmsg]. rewrite El, Et. mred. fold (wanted level type c). destruct (wanted level type c) eqn:Ew.
  - eexists. split; [reflexivity|]. exists [], c, rest. by rewrite app_nil_r.
  - rewrite (nxthdr_next pre c rest E). mred. destruct (IH (pre ++ [c]) fuel) as (r & Er & Hr); [by rewrite <- app_assoc|cbn in Hf; lia|].
    exists r. split; [done|]. destruct r as [off|]; [|cbn; by rewrite Ew, Hr]. destruct Hr as (a & c' & b & -> & Ha & Hc' & ->).
    exists (c :: a), c', b. cbn. rewrite Ew, Ha. by rewrite <- app_assoc.
Qed.

(** C0. On properties laid out with NN_CMSG_SPACE, the search visits each once
    and ends with the first of the level and type, or with none. *)
Theorem find_cmsg_first level type : exists r,
  (first ← nn_cmsg_nxthdr_ (cmsgs_bytes cs) None; find_cmsg (length cs) (cmsgs_bytes cs) level type first) = Ok r /\
  match r with
  | None => forallb (fun c => negb (wanted level type c)) cs = true
  | Some off => exists a c b, cs = a ++ c :: b /\ forallb (fun c => negb (wanted level type c)) a = true /\ wanted level type c = true /\
                  off = Z.of_nat (length (cmsgs_bytes a))
  end.
Proof. rewrite nxthdr_first. mred. apply (find_cmsg_at level type cs []); done. Qed.
End Walk.

(** A property that says its length is 0 is its own successor: the search for
    another one never ends. *)
Lemma find_cmsg_endless fuel : find_cmsg fuel (replicate 16 0) (-4) 1 (Some 0) = Err NoFuel.
Proof. induction fuel as [|fuel IH]; [done|]. cbn [find_cmsg]. change (nn_cmsg_nxthdr_ (replicate 16 0) (Some 0)) with (Ok (Some 0) : result (option Z)). exact IH. Qed.

Lemma find_cmsg_first_witness : exists r,
  (first ← nn_cmsg_nxthdr_ (cmsgs_bytes [Cmsg 0 1 [9]; Cmsg (-4) 1 [2]]) None; find_cmsg 2 (cmsgs_bytes [Cmsg 0 1 [9]; Cmsg (-4) 1 [2]]) (-4) 1 first) = Ok r /\ r = Some 24.
Proof.
  destruct (find_cmsg_first [Cmsg 0 1 [9]; Cmsg (-4) 1 [2]]) with (level := -4) (type := 1) as (r & Er & _).
  - repeat (apply Forall_cons; split); try apply Forall_nil_2; (split; [cbn; lia|split; [cbn; lia|apply Forall_cons; split; [unfold in_range; lia|apply Forall_nil_2]]]).
  - vm_compute. reflexivity.
  - exists r. split; [exact Er|]. revert Er. vm_compute. by intros [= <-].
Defined.
