(* ===== verification/Wsparse.v ===== *)
(** * The text of the opening handshake ([transports/ws/ws_handshake.c])

    The string functions of the handshake, the parsers of a client's request
    and of a server's response, and the texts that are sent.  A C string is
    the list of its bytes before the NUL; a pointer into it is the suffix it
    points to. *)

From S2P Require Import Prelude Wire Base64 Streamhdr Sha1.
From Stdlib Require Import Strings.Ascii.
From Stdlib Require Strings.String.
Import String.StringSyntax.
Local Open Scope Z_scope.

Definition text (s : String.string) : bytes := (fun c => Z.of_N (N_of_ascii c)) <$> String.list_ascii_of_string s.
Arguments text s%_string_scope.

Definition NN_WS_HANDSHAKE_MAX_SIZE : nat := 4096.
(** The size of [response]. *)
Definition RESPONSE_SIZE : nat := 512.
Definition NN_WS_HANDSHAKE_MAGIC_GUID : bytes := text "258EAFA5-E914-47DA-95CA-C5AB0DC85B11".
Definition NN_WS_HANDSHAKE_CRLF : bytes := [13; 10].
Definition NN_WS_HANDSHAKE_TERMSEQ : bytes := [13; 10; 13; 10].
Definition NN_WS_HANDSHAKE_TERMSEQ_LEN : nat := 4.
Definition NN_WS_HANDSHAKE_ACCEPT_KEY_LEN : Z := 28.

Inductive parse_rc := NN_WS_HANDSHAKE_VALID | NN_WS_HANDSHAKE_RECV_MORE | NN_WS_HANDSHAKE_INVALID.
#[export] Instance parse_rc_eq_dec : EqDecision parse_rc.
Proof. solve_decision. Defined.

Inductive response_code :=
  | NN_WS_HANDSHAKE_RESPONSE_NULL | NN_WS_HANDSHAKE_RESPONSE_OK | NN_WS_HANDSHAKE_RESPONSE_TOO_BIG
  | NN_WS_HANDSHAKE_RESPONSE_WSPROTO | NN_WS_HANDSHAKE_RESPONSE_WSVERSION | NN_WS_HANDSHAKE_RESPONSE_NNPROTO
  | NN_WS_HANDSHAKE_RESPONSE_NOTPEER | NN_WS_HANDSHAKE_RESPONSE_UNKNOWNTYPE.
#[export] Instance response_code_eq_dec : EqDecision response_code.
Proof. solve_decision. Defined.

(** ** Strings *)

(** [tolower] in the C locale. *)
Definition tolower (c : Z) : Z := if (65 <=? c) && (c <=? 90) then c + 32 else c.

Definition same_char (case_insensitive : bool) (a b : Z) : bool :=
  if case_insensitive then tolower a =? tolower b else a =? b.

Fixpoint skip_spaces (s : bytes) : bytes :=
  match s with c :: s' => if c =? 32 then skip_spaces s' else s | [] => [] end.

Fixpoint token_rest (ci : bool) (token pos : bytes) : option bytes :=
  match token, pos with
  | [], _ => Some pos
  | _ :: _, [] => None
  | t :: token, p :: pos => if same_char ci t p then token_rest ci token pos else None
  end.

(** The new subject on a match. *)
Definition nn_ws_match_token (token subj : bytes) (case_insensitive ignore_leading_sp : bool) : option bytes :=
  token_rest case_insensitive token (if ignore_leading_sp then skip_spaces subj else subj).

(** [strstr]: what precedes the first occurrence, and what follows it. *)
Fixpoint strstr (s pat : bytes) : option (bytes * bytes) :=
  match token_rest false pat s with
  | Some rest => Some ([], rest)
  | None => match s with [] => None | c :: s => '(a, b) ← strstr s pat; Some (c :: a, b) end
  end.

(** The new subject and the value. *)
Definition nn_ws_match_value (termseq subj : bytes) (ignore_leading_sp ignore_trailing_sp : bool) : option (bytes * bytes) :=
  '(v, rest) ← strstr subj termseq;
  let v := if ignore_leading_sp then skip_spaces v else v in
  let v := if ignore_trailing_sp then rev (skip_spaces (rev v)) else v in
  Some (rest, v).

Fixpoint same_text (ci : bool) (a b : bytes) : bool :=
  match a, b with a0 :: a, b0 :: b => same_char ci a0 b0 && same_text ci a b | _, _ => true end.

Definition nn_ws_validate_value (expected subj : bytes) (case_insensitive : bool) : bool :=
  (length expected =? length subj)%nat && same_text case_insensitive expected subj.

(** ** The fields of a handshake *)

Inductive hname :=
  | HHost | HOrigin | HKey | HUpgrade | HConn | HVersion | HProtocol | HUri | HExtensions
  | HServer | HAcceptKey | HStatusCode | HReasonPhrase.
#[export] Instance hname_eq_dec : EqDecision hname.
Proof. solve_decision. Defined.

(** A pointer with its length: not initialised, NULL, or to some bytes. *)
Inductive field := Unset | Null | At (v : bytes).
Definition headers := hname -> field.

Definition set_header (n : hname) (v : field) (h : headers) : headers := fun m => if bool_decide (m = n) then v else h m.

(** Only NULL is tested for; the tests come after the initialisation. *)
Definition is_null (f : field) : bool := match f with At _ => false | _ => true end.

(** The value behind a pointer that is not NULL. *)
Definition value (f : field) : result bytes := match f with At v => Ok v | _ => Err BadAccess end.
(** [strncpy] of a field into a string: nothing is read when the length is 0. *)
Definition copied (f : field) : result bytes := match f with At v => Ok v | Null => Ok [] | Unset => Err BadAccess end.

(** The chain of [else if]s: the first token that matches. *)
Fixpoint first_token (table : list (bytes * hname)) (pos : bytes) : option (hname * bytes) :=
  match table with
  | [] => None
  | (token, n) :: table =>
      match nn_ws_match_token token pos true false with Some rest => Some (n, rest) | None => first_token table pos end
  end.

(** [while (strlen (pos))]: the position after the last field, or RECV_MORE. *)
Fixpoint parse_fields (fuel : nat) (table : list (bytes * hname)) (pos : bytes) (h : headers) : result (option bytes * headers) :=
  match fuel with
  | O => Err NoFuel
  | S fuel =>
      if (length pos =? 0)%nat then Ok (Some pos, h)
      else
        match first_token table pos with
        | Some (n, rest) =>
            match nn_ws_match_value NN_WS_HANDSHAKE_CRLF rest true true with
            | Some (rest, v) => parse_fields fuel table rest (set_header n (At v) h)
            | None => Ok (None, set_header n Null h)
            end
        | None =>
            match nn_ws_match_token NN_WS_HANDSHAKE_CRLF pos true false with
            | Some rest => Ok (Some rest, h)
            | None =>
                match nn_ws_match_value NN_WS_HANDSHAKE_CRLF pos true true with
                | Some (rest, _) => parse_fields fuel table rest h
                | None => Ok (None, h)
                end
            end
        end
  end.

Definition client_table : list (bytes * hname) :=
  [(text "Host:", HHost); (text "Origin:", HOrigin); (text "Sec-WebSocket-Key:", HKey); (text "Upgrade:", HUpgrade);
   (text "Connection:", HConn); (text "Sec-WebSocket-Version:", HVersion); (text "Sec-WebSocket-Protocol:", HProtocol);
   (text "Sec-WebSocket-Extensions:", HExtensions)].

Definition server_table : list (bytes * hname) :=
  [(text "Server:", HServer); (text "Sec-WebSocket-Accept:", HAcceptKey); (text "Upgrade:", HUpgrade); (text "Connection:", HConn);
   (text "Sec-WebSocket-Version-Server:", HVersion); (text "Sec-WebSocket-Protocol-Server:", HProtocol);
   (text "Sec-WebSocket-Extensions:", HExtensions)].

(** The string in a buffer; the assertion that there is a NUL. *)
Fixpoint cstring (buf : bytes) : option bytes :=
  match buf with [] => None | c :: buf => if c =? 0 then Some [] else s ← cstring buf; Some (c :: s) end.

(** ** The scalability protocols *)

Definition NN_PAIR : Z := 1 * 16 + 0.
Definition NN_PUB : Z := 2 * 16 + 0.
Definition NN_SUB : Z := 2 * 16 + 1.
Definition NN_REQ : Z := 3 * 16 + 0.
Definition NN_REP : Z := 3 * 16 + 1.
Definition NN_PUSH : Z := 5 * 16 + 0.
Definition NN_PULL : Z := 5 * 16 + 1.
Definition NN_SURVEYOR : Z := 6 * 16 + 2.
Definition NN_RESPONDENT : Z := 6 * 16 + 3.
Definition NN_BUS : Z := 7 * 16 + 0.

Record nn_ws_sp_map := SpMap { map_server : Z; map_client : Z; map_ws_sp : bytes }.

Definition NN_WS_HANDSHAKE_SP_MAP : list nn_ws_sp_map :=
  [SpMap NN_PAIR NN_PAIR (text "pair.sp.nanomsg.org"); SpMap NN_REQ NN_REP (text "req.sp.nanomsg.org");
   SpMap NN_REP NN_REQ (text "rep.sp.nanomsg.org"); SpMap NN_PUB NN_SUB (text "pub.sp.nanomsg.org");
   SpMap NN_SUB NN_PUB (text "sub.sp.nanomsg.org"); SpMap NN_SURVEYOR NN_RESPONDENT (text "surveyor.sp.nanomsg.org");
   SpMap NN_RESPONDENT NN_SURVEYOR (text "respondent.sp.nanomsg.org"); SpMap NN_PUSH NN_PULL (text "push.sp.nanomsg.org");
   SpMap NN_PULL NN_PUSH (text "pull.sp.nanomsg.org"); SpMap NN_BUS NN_BUS (text "bus.sp.nanomsg.org")].

(** ** The client's request, read by the server *)

Definition client_fields : list hname := [HHost; HOrigin; HKey; HUpgrade; HConn; HVersion; HProtocol; HUri].
Definition server_fields : list hname := [HStatusCode; HReasonPhrase; HServer; HAcceptKey; HUpgrade; HConn; HVersion; HProtocol].

Definition null_fields (names : list hname) (h : headers) : headers := fold_left (fun h n => set_header n Null h) names h.

Section Server.
  (** The protocol of the socket and the peers of its type. *)
  Context (protocol : Z) (ispeer : Z -> bool).

(** The declared protocol must be the first one of the map with that name. *)
Definition declared_protocol (v : bytes) : parse_rc * response_code :=
  match filter (fun e => nn_ws_validate_value (map_ws_sp e) v true = true) NN_WS_HANDSHAKE_SP_MAP with
  | e :: _ => if protocol =? map_server e then (NN_WS_HANDSHAKE_VALID, NN_WS_HANDSHAKE_RESPONSE_OK)
              else (NN_WS_HANDSHAKE_INVALID, NN_WS_HANDSHAKE_RESPONSE_NOTPEER)
  | [] => (NN_WS_HANDSHAKE_INVALID, NN_WS_HANDSHAKE_RESPONSE_UNKNOWNTYPE)
  end.

(** The checks after the fields were found. *)
Definition check_opening (h : headers) : result (parse_rc * response_code) :=
  if is_null (h HHost) || is_null (h HUpgrade) || is_null (h HConn) || is_null (h HKey) || is_null (h HVersion)
  then Ok (NN_WS_HANDSHAKE_INVALID, NN_WS_HANDSHAKE_RESPONSE_WSPROTO)
  else
    version ← value (h HVersion);
    if negb (nn_ws_validate_value (text "13") version true) then Ok (NN_WS_HANDSHAKE_INVALID, NN_WS_HANDSHAKE_RESPONSE_WSVERSION)
    else
      upgrade ← value (h HUpgrade);
      if negb (nn_ws_validate_value (text "websocket") upgrade true) then Ok (NN_WS_HANDSHAKE_INVALID, NN_WS_HANDSHAKE_RESPONSE_WSPROTO)
      else
        conn ← value (h HConn);
        if negb (nn_ws_validate_value (text "Upgrade") conn true) then Ok (NN_WS_HANDSHAKE_INVALID, NN_WS_HANDSHAKE_RESPONSE_WSPROTO)
        else
          match h HProtocol with
          | At v => Ok (declared_protocol v)
          | _ => if nn_pipebase_ispeer protocol ispeer NN_PAIR then Ok (NN_WS_HANDSHAKE_VALID, NN_WS_HANDSHAKE_RESPONSE_OK)
                 else Ok (NN_WS_HANDSHAKE_INVALID, NN_WS_HANDSHAKE_RESPONSE_NOTPEER)
          end.

Definition recv_more (h : headers) : result (parse_rc * response_code * headers) :=
  Ok (NN_WS_HANDSHAKE_RECV_MORE, NN_WS_HANDSHAKE_RESPONSE_NULL, h).

(** [code]: the field [response_code] before. *)
Definition nn_ws_handshake_parse_client_opening (opening_hs : bytes) (code : response_code) (h : headers) : result (parse_rc * response_code * headers) :=
  match cstring opening_hs with
  | None => Err AssertFailed
  | Some pos =>
      match strstr pos NN_WS_HANDSHAKE_TERMSEQ with
      | None => Ok (NN_WS_HANDSHAKE_RECV_MORE, code, h)
      | Some _ =>
          let h := null_fields client_fields h in
          match nn_ws_match_token (text "GET ") pos false false with
          | None => recv_more h
          | Some pos =>
              match nn_ws_match_value (text " ") pos false false with
              | None => recv_more h
              | Some (pos, uri) =>
                  let h := set_header HUri (At uri) h in
                  match nn_ws_match_token (text "HTTP/1.1") pos false false with
                  | None => recv_more h
                  | Some pos =>
                      match nn_ws_match_token NN_WS_HANDSHAKE_CRLF pos false false with
                      | None => recv_more h
                      | Some pos =>
                          '(pos, h) ← parse_fields (S (length pos)) client_table pos h;
                          match pos with
                          | None => recv_more h
                          | Some pos =>
                              _ ← assert_ (length pos =? 0)%nat;
                              '(rc, code) ← check_opening h;
                              Ok (rc, code, h)
                          end
                      end
                  end
              end
          end
      end
  end.
End Server.

(** ** The server's response, read by the client *)

Definition check_response (expected_accept_key : bytes) (h : headers) : result parse_rc :=
  if is_null (h HStatusCode) || is_null (h HUpgrade) || is_null (h HConn) || is_null (h HAcceptKey) then Ok NN_WS_HANDSHAKE_INVALID
  else
    status ← value (h HStatusCode);
    if negb (nn_ws_validate_value (text "101") status true) then Ok NN_WS_HANDSHAKE_INVALID
    else
      upgrade ← value (h HUpgrade);
      if negb (nn_ws_validate_value (text "websocket") upgrade true) then Ok NN_WS_HANDSHAKE_INVALID
      else
        conn ← value (h HConn);
        if negb (nn_ws_validate_value (text "Upgrade") conn true) then Ok NN_WS_HANDSHAKE_INVALID
        else
          key ← value (h HAcceptKey);
          if negb (nn_ws_validate_value expected_accept_key key true) then Ok NN_WS_HANDSHAKE_INVALID
          else Ok NN_WS_HANDSHAKE_VALID.

Definition nn_ws_handshake_parse_server_response (response : bytes) (expected_accept_key : bytes) (h : headers) : result (parse_rc * headers) :=
  match cstring response with
  | None => Err AssertFailed
  | Some pos =>
      match strstr pos NN_WS_HANDSHAKE_TERMSEQ with
      | None => Ok (NN_WS_HANDSHAKE_RECV_MORE, h)
      | Some _ =>
          let h := null_fields server_fields h in
          match nn_ws_match_token (text "HTTP/1.1 ") pos false false with
          | None => Ok (NN_WS_HANDSHAKE_RECV_MORE, h)
          | Some pos =>
              match nn_ws_match_value (text " ") pos false false with
              | None => Ok (NN_WS_HANDSHAKE_RECV_MORE, h)
              | Some (pos, status) =>
                  let h := set_header HStatusCode (At status) h in
                  match nn_ws_match_value NN_WS_HANDSHAKE_CRLF pos false false with
                  | None => Ok (NN_WS_HANDSHAKE_RECV_MORE, h)
                  | Some (pos, reason) =>
                      let h := set_header HReasonPhrase (At reason) h in
                      '(pos, h) ← parse_fields (S (length pos)) server_table pos h;
                      match pos with
                      | None => Ok (NN_WS_HANDSHAKE_RECV_MORE, h)
                      | Some pos =>
                          _ ← assert_ (length pos =? 0)%nat;
                          rc ← check_response expected_accept_key h;
                          Ok (rc, h)
                      end
                  end
              end
          end
      end
  end.

(** ** The texts that are sent *)

(** [nn_ws_handshake_hash_key]: what the encoder returns and writes.  [le] and
    [memory]: the byte order and the stack of the hash. *)
Definition nn_ws_handshake_hash_key (le : bool) (memory key : bytes) (hashed_len : Z) : result (Z * bytes) :=
  digest ← nn_sha1_hash le memory (key ++ NN_WS_HANDSHAKE_MAGIC_GUID);
  nn_base64_encode digest hashed_len.

(** A text that is printed into a buffer of [size] bytes, with its NUL. *)
Definition sprintf (size : nat) (s : bytes) : result bytes :=
  if (length s <? size)%nat then Ok s else Err BadAccess.

Definition crlf (s : bytes) : bytes := s ++ NN_WS_HANDSHAKE_CRLF.

Definition request_text (resource remote_host encoded_key ws_sp : bytes) : bytes :=
  crlf (text "GET " ++ resource ++ text " HTTP/1.1") ++ crlf (text "Host: " ++ remote_host) ++ crlf (text "Upgrade: websocket") ++
  crlf (text "Connection: Upgrade") ++ crlf (text "Sec-WebSocket-Key: " ++ encoded_key) ++ crlf (text "Sec-WebSocket-Version: 13") ++
  crlf (text "Sec-WebSocket-Protocol: " ++ ws_sp) ++ NN_WS_HANDSHAKE_CRLF.

(** The request, and the accept key that is expected. *)
Definition nn_ws_handshake_client_request (le : bool) (memory : bytes) (protocol : Z) (rand_key resource remote_host : bytes) : result (bytes * bytes) :=
  '(rc, out) ← nn_base64_encode rand_key 25;
  _ ← assert_ (0 <=? rc);
  encoded_key ← deref (cstring out);
  _ ← assert_ (length encoded_key =? 24)%nat;
  '(rc, out) ← nn_ws_handshake_hash_key le memory encoded_key 29;
  _ ← assert_ (rc =? NN_WS_HANDSHAKE_ACCEPT_KEY_LEN);
  expected_accept_key ← deref (cstring out);
  match filter (fun e => map_client e = protocol) NN_WS_HANDSHAKE_SP_MAP with
  | [] => Err AssertFailed
  | e :: _ =>
      open_request ← sprintf NN_WS_HANDSHAKE_MAX_SIZE (request_text resource remote_host encoded_key (map_ws_sp e));
      Ok (open_request, expected_accept_key)
  end.

Definition reply_text (accept_key protocol : bytes) : bytes :=
  crlf (text "HTTP/1.1 101 Switching Protocols") ++ crlf (text "Upgrade: websocket") ++ crlf (text "Connection: Upgrade") ++
  crlf (text "Sec-WebSocket-Accept: " ++ accept_key) ++ crlf (text "Sec-WebSocket-Protocol: " ++ protocol) ++ NN_WS_HANDSHAKE_CRLF.

Definition failure_code (code : response_code) : result bytes :=
  match code with
  | NN_WS_HANDSHAKE_RESPONSE_TOO_BIG => Ok (text "400 Opening Handshake Too Long")
  | NN_WS_HANDSHAKE_RESPONSE_WSPROTO => Ok (text "400 Cannot Have Body")
  | NN_WS_HANDSHAKE_RESPONSE_WSVERSION => Ok (text "400 Unsupported WebSocket Version")
  | NN_WS_HANDSHAKE_RESPONSE_NNPROTO => Ok (text "400 Missing nanomsg Required Headers")
  | NN_WS_HANDSHAKE_RESPONSE_NOTPEER => Ok (text "400 Incompatible Socket Type")
  | NN_WS_HANDSHAKE_RESPONSE_UNKNOWNTYPE => Ok (text "400 Unrecognized Socket Type")
  | _ => Err AssertFailed
  end.

Definition nn_ws_handshake_server_reply (le : bool) (memory : bytes) (code : response_code) (h : headers) : result bytes :=
  if bool_decide (code = NN_WS_HANDSHAKE_RESPONSE_OK) then
    key ← value (h HKey);
    '(rc, out) ← nn_ws_handshake_hash_key le memory key 29;
    _ ← assert_ (0 <=? rc);
    accept_key ← deref (cstring out);
    _ ← assert_ (Z.of_nat (length accept_key) =? NN_WS_HANDSHAKE_ACCEPT_KEY_LEN);
    protocol ← copied (h HProtocol);
    sprintf RESPONSE_SIZE (reply_text accept_key protocol)
  else
    reason ← failure_code code;
    version ← copied (h HVersion);
    sprintf RESPONSE_SIZE (crlf (text "HTTP/1.1 " ++ reason) ++ crlf (text "Sec-WebSocket-Version: " ++ version)).

(** RFC 6455, section 1.3. *)
Example accept_key_rfc6455 : nn_ws_handshake_hash_key true (replicate 64 0) (text "dGhlIHNhbXBsZSBub25jZQ==") 29
  = Ok (28, text "s3pPLMBiTxaQ9kYGzzhZRbK+xOo=" ++ [0]).
Proof. vm_compute. reflexivity. Qed.
