(* ===== verification/Addr.v ===== *)
(** * Addresses ([transports/utils/port.c], [literal.c], [iface.c], [dns.c])

    How the endpoints read the text of an address.  A C string is the list of
    its bytes, without the NUL; [inet_pton] of the C library is a parameter. *)

From S2P Require Import Prelude Wire Wsparse.
Local Open Scope Z_scope.

(** ** Ports *)

Definition digit (c : Z) : bool := bool_decide (48 <= c <= 57).

Fixpoint port_loop (res : Z) (port : bytes) : Z :=
  match port with
  | [] => if bool_decide (res = 0) then - EINVAL else res
  | c :: port =>
      if negb (digit c) then - EINVAL
      else
        let res := res * 10 + (c - 48) in
        if bool_decide (res > 0xffff) then - EINVAL else port_loop res port
  end.
Definition nn_port_resolve (port : bytes) : Z := port_loop 0 port.

(** ** Host names *)

Definition hostname_char (c : Z) : bool :=
  bool_decide (97 <= c <= 122) || bool_decide (65 <= c <= 90) || digit c || bool_decide (c = 45).

Fixpoint hostname_loop (labelsz : Z) (name : bytes) : Z :=
  match name with
  | [] => if bool_decide (labelsz = 0) then - EINVAL else 0
  | c :: name =>
      if bool_decide (c = 46) then
        if bool_decide (labelsz = 0) then - EINVAL else hostname_loop 0 name
      else if hostname_char c then
        let labelsz := labelsz + 1 in
        if bool_decide (labelsz > 63) then - EINVAL else hostname_loop labelsz name
      else - EINVAL
  end.

Definition nn_dns_check_hostname (name : bytes) : Z :=
  if bool_decide (Z.of_nat (length name) < 1) || bool_decide (Z.of_nat (length name) > 255) then - EINVAL
  else if bool_decide (head name = Some 45) then - EINVAL
  else hostname_loop 0 name.

(** ** Literals

    [ss_family] and the address proper of a [struct sockaddr_storage]. *)

Definition AF_INET : Z := 2.
Definition AF_INET6 : Z := 10.
Definition INET6_ADDRSTRLEN : Z := 46.
Record sockaddr := Sockaddr { ss_family : Z; ss_addr : bytes }.
#[export] Instance sockaddr_eq_dec : EqDecision sockaddr.
Proof. solve_decision. Defined.

Section Literals.
  Context (inet_pton : Z -> bytes -> option bytes).

(** The text without its brackets, if it fits into [addrz]. *)
Definition literal_text (addr : bytes) : option bytes :=
  if bool_decide (head addr = Some 91) then
    if negb (bool_decide (last addr = Some 93)) then None
    else if bool_decide (Z.of_nat (length addr) - 2 + 1 > INET6_ADDRSTRLEN) then None
    else Some (take (length addr - 2) (drop 1 addr))
  else if bool_decide (Z.of_nat (length addr) + 1 > INET6_ADDRSTRLEN) then None
  else Some addr.

(** [None] for -EINVAL. *)
Definition nn_literal_resolve (addr : bytes) (ipv4only : bool) : option sockaddr :=
  addrz ← literal_text addr;
  let v4 := a ← inet_pton AF_INET addrz; Some (Sockaddr AF_INET a) in
  if ipv4only then v4
  else match inet_pton AF_INET6 addrz with Some a => Some (Sockaddr AF_INET6 a) | None => v4 end.

Definition nn_iface_any (ipv4only : bool) : sockaddr :=
  if ipv4only then Sockaddr AF_INET (replicate 4 0) else Sockaddr AF_INET6 (replicate 16 0).

(** [None] for -ENODEV. *)
Definition nn_iface_resolve (addr : bytes) (ipv4only : bool) : option sockaddr :=
  if bool_decide (addr = [42]) then Some (nn_iface_any ipv4only) else nn_literal_resolve addr ipv4only.

(** ** The parts of an address

    [strchr], [strrchr]: what precedes the first and the last occurrence, and
    what follows it. *)
Fixpoint strchr (s : bytes) (c : Z) : option (bytes * bytes) :=
  match s with
  | [] => None
  | x :: s => if bool_decide (x = c) then Some ([], s) else '(a, b) ← strchr s c; Some (x :: a, b)
  end.
Fixpoint strrchr (s : bytes) (c : Z) : option (bytes * bytes) :=
  match s with
  | [] => None
  | x :: s =>
      match strrchr s c with
      | Some (a, b) => Some (x :: a, b)
      | None => if bool_decide (x = c) then Some ([], s) else None
      end
  end.

Definition colon : Z := 58.
Definition semicolon : Z := 59.
Definition slash : Z := 47.

Definition host_ok (hostname : bytes) (ipv4only : bool) : bool :=
  negb (bool_decide (nn_dns_check_hostname hostname < 0) && bool_decide (nn_literal_resolve hostname ipv4only = None)).

Definition local_ok (local : option bytes) (ipv4only : bool) : bool :=
  match local with Some l => bool_decide (nn_iface_resolve l ipv4only <> None) | None => true end.

(** What an endpoint gets out of its address: the local address, if there is
    one, the host and the port; for WebSocket the resource too. *)
Record target := Target { tg_local : option bytes; tg_host : bytes; tg_port : Z; tg_remote_host : bytes; tg_resource : bytes }.

(** The address as [nn_ctcp_create] reads it.  When the last colon precedes
    the semicolon the text after it is no port. *)
Definition ctcp_address (addr : bytes) (ipv4only : bool) : target + Z :=
  let local := fst <$> strchr addr semicolon in
  match strrchr addr colon with
  | None => inr (- EINVAL)
  | Some (before, port) =>
      let rc := nn_port_resolve port in
      if bool_decide (rc < 0) then inr (- EINVAL)
      else
        let hostname := match strchr before semicolon with Some (_, h) => h | None => before end in
        if negb (host_ok hostname ipv4only) then inr (- EINVAL)
        else if negb (local_ok local ipv4only) then inr (- ENODEV)
        else inl (Target local hostname rc [] [])
  end.

(** [nn_btcp_create], [nn_bws_create]: the local address and the port. *)
Definition btcp_address (addr : bytes) (ipv4only : bool) : (sockaddr * Z) + Z :=
  match strrchr addr colon with
  | None => inr (- EINVAL)
  | Some (iface, port) =>
      let rc := nn_port_resolve port in
      if bool_decide (rc < 0) then inr (- EINVAL)
      else match nn_iface_resolve iface ipv4only with None => inr (- ENODEV) | Some ss => inl (ss, rc) end
  end.

(** [nn_cws_create].  The resource is what follows the first slash after the
    last colon; the pointers are offsets into [addr]. *)
Definition index_of (s : bytes) (p : option (bytes * bytes)) : option nat := (fun ab : bytes * bytes => length (fst ab)) <$> p.

Definition cws_address (addr : bytes) (ipv4only : bool) : target + Z :=
  let local := fst <$> strchr addr semicolon in
  let hostname := match local with Some l => S (length l) | None => 0%nat end in
  let col := index_of addr (strrchr addr colon) in
  let slash_ := match col with Some c => (fun n => c + n)%nat <$> index_of addr (strchr (drop c addr) slash) | None => index_of addr (strchr addr slash) end in
  let resource := default (length addr) slash_ in
  let hostname_end := default resource col in
  let rc := match col with Some c => nn_port_resolve (take (resource - S c) (drop (S c) addr)) | None => 80 end in
  if bool_decide (rc < 0) then inr (- EINVAL)
  else if bool_decide (hostname_end < hostname)%nat then inr (- EINVAL)
  else
    let host := take (hostname_end - hostname) (drop hostname addr) in
    if negb (host_ok host ipv4only) then inr (- EINVAL)
    else if negb (local_ok local ipv4only) then inr (- ENODEV)
    else inl (Target local host rc (take (resource - hostname) (drop hostname addr)) (if bool_decide (resource < length addr)%nat then drop resource addr else [slash])).

End Literals.

(** ** What they accept *)

(** The number a text of digits stands for. *)
Definition dec (s : bytes) : Z := foldl (fun r c => r * 10 + (c - 48)) 0 s.

Lemma dec_ge s : forall r, 0 <= r -> forallb digit s = true -> r <= foldl (fun r c => r * 10 + (c - 48)) r s.
Proof.
  induction s as [|c s IH]; intros r Hr Hs; [done|]. cbn [forallb foldl] in *. apply andb_prop in Hs as [Hc Hs].
  apply bool_decide_eq_true in Hc. etrans; [|apply IH; [lia|done]]. lia.
Qed.

Lemma port_loop_dec s : forall r, 0 <= r ->
  port_loop r s = let v := foldl (fun r c => r * 10 + (c - 48)) r s in
    if forallb digit s && bool_decide (1 <= v) && (bool_decide (s = []) || bool_decide (v <= 65535)) then v else - EINVAL.
Proof.
  induction s as [|c s IH]; intros r Hr; cbn [port_loop forallb foldl]; cbv zeta.
  { rewrite (bool_decide_eq_true_2 ([] = ([] : bytes))) by done. cbn [orb andb]. rewrite andb_true_r. repeat case_bool_decide; lia || done. }
  destruct (digit c) eqn:Ec; cbn [negb andb]; [|done]. pose proof Ec as Ec'. apply bool_decide_eq_true in Ec'.
  rewrite (bool_decide_eq_false_2 (c :: s = [])) by done. cbn [orb].
  destruct (forallb digit s) eqn:Es; cbn [andb].
  - pose proof (dec_ge s (r * 10 + (c - 48)) ltac:(lia) Es) as Hge.
    cases (r * 10 + (c - 48) > 65535) as Hbig; [by rewrite (bool_decide_eq_false_2 (_ <= 65535)), andb_false_r by lia|].
    rewrite IH by lia. cbn [andb]. cbv zeta. destruct s as [|d s]; [|by rewrite (bool_decide_eq_false_2 (d :: s = [])) by done].
    cbn [foldl] in *. rewrite (bool_decide_eq_true_2 ([] = ([] : bytes))), (bool_decide_eq_true_2 (_ <= 65535)) by (done || lia). done.
  - cases (r * 10 + (c - 48) > 65535) as Hbig; [done|]. by rewrite IH by lia.
Qed.

Lemma nn_port_resolve_spec s :
  nn_port_resolve s = if forallb digit s && bool_decide (1 <= dec s <= 65535) then dec s else - EINVAL.
Proof.
  unfold nn_port_resolve. rewrite port_loop_dec by done. cbv zeta. fold (dec s). destruct (forallb digit s); [|done]. cbn [andb].
  destruct s as [|c s]; [done|]. rewrite (bool_decide_eq_false_2 (c :: s = [])) by done. cbn [orb].
  repeat case_bool_decide; cbn [andb]; done || lia.
Qed.

Lemma port_valid s : nn_port_resolve s < 0 <-> ~ (forallb digit s = true /\ 1 <= dec s <= 65535).
Proof.
  rewrite nn_port_resolve_spec. destruct (forallb digit s); cbn [andb]; [|change (- EINVAL) with (-22); naive_solver lia].
  case_bool_decide; [naive_solver lia|change (- EINVAL) with (-22); naive_solver lia].
Qed.

(** *** Host names *)

(** Texts with a separator between them. *)
Fixpoint join (sep : bytes) (ls : list bytes) : bytes :=
  match ls with
  | [] => []
  | [l] => l
  | l :: ls => l ++ sep ++ join sep ls
  end.

Lemma forallb_True_iff {A} (f : A -> bool) l : forallb f l = true <-> Forall (fun x => f x = true) l.
Proof. rewrite forallb_forall, Forall_forall. by setoid_rewrite list_elem_of_In. Qed.

(** The labels of a name. *)
Fixpoint labels (s : bytes) : list bytes :=
  match s with
  | [] => [[]]
  | c :: s => if bool_decide (c = 46) then [] :: labels s
              else match labels s with l :: ls => (c :: l) :: ls | [] => [[c]] end
  end.

Definition label_ok (l : bytes) : bool := bool_decide (1 <= length l <= 63)%nat && forallb hostname_char l.

Lemma labels_cons s : exists l ls, labels s = l :: ls.
Proof. destruct s as [|c s]; cbn; [by eexists _, _|]. case_bool_decide; [by eexists _, _|]. destruct (labels s); by eexists _, _. Qed.

Lemma hostname_loop_spec s : forall n, 0 <= n <= 63 ->
  hostname_loop n s = match labels s with
    | l :: ls => if bool_decide (1 <= n + Z.of_nat (length l) <= 63) && forallb hostname_char l && forallb label_ok ls then 0 else - EINVAL
    | [] => - EINVAL end.
Proof.
  induction s as [|c s IH]; intros n Hn; cbn [hostname_loop labels].
  { cbn [length forallb]. rewrite !andb_true_r. case_bool_decide; case_bool_decide; lia || done. }
  case_bool_decide as Hdot.
  - cbn [length forallb]. rewrite andb_true_r. rewrite IH by lia. destruct (labels_cons s) as (l & ls & ->). cbn [forallb]. unfold label_ok at 2.
    case_bool_decide as Hz; [by rewrite (bool_decide_eq_false_2 (1 <= _ <= 63)) by lia|].
    rewrite (bool_decide_eq_true_2 (1 <= n + Z.of_nat 0 <= 63)) by lia. cbn [andb]. by rewrite (bool_decide_ext (1 <= 0 + Z.of_nat (length l) <= 63) (1 <= length l <= 63)%nat) by lia.
  - destruct (labels_cons s) as (l & ls & E). rewrite E. cbn [length forallb]. destruct (hostname_char c); cbn [andb]; [|by rewrite andb_false_r].
    case_bool_decide as H63; [by rewrite (bool_decide_eq_false_2 (1 <= _ <= 63)) by lia|]. rewrite IH, E by lia.
    rewrite (bool_decide_ext (1 <= n + 1 + Z.of_nat (length l) <= 63) (1 <= n + Z.of_nat (S (length l)) <= 63)) by lia. done.
Qed.

(** Host names are one to 255 bytes, labels of one to 63 letters, digits and
    hyphens with dots between them, and do not start with a hyphen. *)
Lemma nn_dns_check_hostname_spec name :
  nn_dns_check_hostname name =
    if bool_decide (1 <= length name <= 255)%nat && negb (bool_decide (head name = Some 45)) && forallb label_ok (labels name) then 0 else - EINVAL.
Proof.
  unfold nn_dns_check_hostname. rewrite hostname_loop_spec by lia. destruct (labels_cons name) as (l & ls & E). rewrite E. cbn [forallb]. unfold label_ok at 2.
  rewrite (bool_decide_ext (1 <= 0 + Z.of_nat (length l) <= 63) (1 <= length l <= 63)%nat) by lia.
  case_bool_decide as H1; cbn [orb]; [by rewrite (bool_decide_eq_false_2 (1 <= length name <= 255)%nat) by lia|].
  case_bool_decide as H2; [by rewrite (bool_decide_eq_false_2 (1 <= length name <= 255)%nat) by lia|].
  rewrite (bool_decide_eq_true_2 (1 <= length name <= 255)%nat) by lia. cbn [andb]. case_bool_decide; cbn [negb andb]; [done|]. by destruct (bool_decide (1 <= length l <= 63)%nat), (forallb hostname_char l), (forallb label_ok ls).
Qed.

(** *** Splitting *)

Lemma strchr_spec s c a b : strchr s c = Some (a, b) <-> s = a ++ c :: b /\ c ∉ a.
Proof.
  revert a b. induction s as [|x s IH]; intros a b; cbn [strchr].
  { split; [done|]. intros [E _]. by destruct a. }
  case_bool_decide as Hx.
  - subst x. split; [intros [= <- <-]; set_solver|]. intros [E Hn]. destruct a as [|y a]; [by injection E as ->|]. injection E as -> ->. set_solver.
  - destruct (strchr s c) as [[a' b']|] eqn:E; cbn.
    + destruct (proj1 (IH a' b') eq_refl) as [-> Hn]. split.
      * intros [= <- <-]. set_solver.
      * intros [E' Hn']. destruct a as [|y a]; [naive_solver|]. injection E' as -> E'. assert (Some (a', b') = Some (a, b)) as [= -> ->]; [|done].
        apply IH. set_solver.
    + split; [done|]. intros [E' Hn]. destruct a as [|y a]; [naive_solver|]. injection E' as -> E'.
      assert (None = Some (a, b)) as [=]. apply IH. set_solver.
Qed.

Lemma strchr_none s c : strchr s c = None <-> c ∉ s.
Proof.
  induction s as [|x s IH]; cbn [strchr]; [set_solver|]. case_bool_decide as Hx; [set_solver|].
  destruct (strchr s c) as [[a b]|]; cbn; rewrite not_elem_of_cons; naive_solver.
Qed.

Lemma strrchr_none s c : strrchr s c = None <-> c ∉ s.
Proof.
  induction s as [|x s IH]; cbn [strrchr]; [set_solver|]. rewrite not_elem_of_cons.
  destruct (strrchr s c) as [[a b]|]; [naive_solver|]. case_bool_decide; naive_solver.
Qed.

Lemma strrchr_spec s c a b : strrchr s c = Some (a, b) <-> s = a ++ c :: b /\ c ∉ b.
Proof.
  revert a b. induction s as [|x s IH]; intros a b; cbn [strrchr].
  { split; [done|]. intros [E _]. by destruct a. }
  destruct (strrchr s c) as [[a' b']|] eqn:E.
  - destruct (proj1 (IH a' b') eq_refl) as [-> Hn]. split; [intros [= <- <-]; done|]. intros [E' Hn'].
    destruct a as [|y a]; [injection E' as -> <-; set_solver|]. injection E' as -> E'. assert (Some (a', b') = Some (a, b)) as [= -> ->]; [|done]. by apply IH.
  - apply strrchr_none in E. case_bool_decide as Hx; [subst x|].
    + split; [by intros [= <- <-]|]. intros [E' Hn']. destruct a as [|y a]; [by injection E' as ->|]. injection E' as -> ->. set_solver.
    + split; [done|]. intros [E' Hn']. destruct a as [|y a]; [naive_solver|]. injection E' as -> ->. set_solver.
Qed.

(** *** Addresses to connect to *)

Section Targets.
  Context (inet_pton : Z -> bytes -> option bytes).

Definition prefix_of (local : option bytes) : bytes := match local with Some l => l ++ [semicolon] | None => [] end.

Lemma digits_no_sep p c : forallb digit p = true -> c = colon \/ c = semicolon -> c ∉ p.
Proof.
  intros Hp Hc Hin. rewrite forallb_forall in Hp. apply list_elem_of_In in Hin. specialize (Hp _ Hin). apply bool_decide_eq_true in Hp.
  unfold colon, semicolon in Hc. lia.
Qed.

(** What [ctcp_address] accepts, in terms of its own checks. *)
Lemma ctcp_address_parts (addr : bytes) (ipv4only : bool) (t : target) :
  ctcp_address inet_pton addr ipv4only = inl t <->
  exists local host port,
    addr = prefix_of local ++ host ++ [colon] ++ port /\ t = Target local host (dec port) [] [] /\
    semicolon ∉ default host local /\ forallb digit port = true /\ 1 <= dec port <= 65535 /\
    host_ok inet_pton host ipv4only = true /\ local_ok inet_pton local ipv4only = true.
Proof.
  unfold ctcp_address. split.
  - destruct (strrchr addr colon) as [[before port]|] eqn:Ec; [|done]. apply strrchr_spec in Ec as [-> Hnp].
    case_bool_decide as Hport; [done|]. rewrite port_valid in Hport. apply dec_stable in Hport as [Hdig Hdec].
    assert (Hval : nn_port_resolve port = dec port) by (rewrite nn_port_resolve_spec, Hdig, bool_decide_true by done; done). rewrite Hval.
    pose proof (digits_no_sep port semicolon Hdig ltac:(by right)) as Hsp.
    destruct (strchr before semicolon) as [[l h]|] eqn:Es.
    + apply strchr_spec in Es as [-> Hnl]. replace (strchr ((l ++ semicolon :: h) ++ colon :: port) semicolon) with (Some (l, h ++ colon :: port));
        [|symmetry; apply strchr_spec; by rewrite <- app_assoc].
      cbn [fmap option_fmap option_map fst]. destruct (host_ok _ h _) eqn:Eh; [|done]. destruct (local_ok _ (Some l) _) eqn:El; [|done]. intros [= <-].
      exists (Some l), h, port. cbn [prefix_of default]. rewrite <- !app_assoc. done.
    + apply strchr_none in Es. replace (strchr (before ++ colon :: port) semicolon) with (@None (bytes * bytes));
        [|symmetry; apply strchr_none; unfold colon, semicolon in *; set_solver].
      cbn [fmap option_fmap option_map]. destruct (host_ok _ before _) eqn:Eh; [|done]. cbn. intros [= <-]. by exists None, before, port.
  - intros (local & host & port & -> & -> & Hns & Hdig & Hdec & Hh & Hl).
    pose proof (digits_no_sep port semicolon Hdig ltac:(by right)) as Hsp. pose proof (digits_no_sep port colon Hdig ltac:(by left)) as Hcp.
    replace (strrchr (prefix_of local ++ host ++ [colon] ++ port) colon) with (Some (prefix_of local ++ host, port));
      [|symmetry; apply strrchr_spec; by rewrite <- app_assoc].
    assert (Hval : nn_port_resolve port = dec port) by (rewrite nn_port_resolve_spec, Hdig, bool_decide_true by done; done).
    rewrite Hval, bool_decide_eq_false_2 by lia. destruct local as [l|]; cbn [prefix_of default] in *.
    + replace (strchr ((l ++ [semicolon]) ++ host) semicolon) with (Some (l, host)); [|symmetry; apply strchr_spec; by rewrite <- app_assoc].
      replace (strchr ((l ++ [semicolon]) ++ host ++ [colon] ++ port) semicolon) with (Some (l, host ++ [colon] ++ port));
        [|symmetry; apply strchr_spec; by rewrite <- app_assoc].
      cbn [fmap option_fmap option_map fst]. by rewrite Hh, Hl.
    + cbn [app]. replace (strchr host semicolon) with (@None (bytes * bytes)) by (symmetry; by apply strchr_none).
      replace (strchr (host ++ colon :: port) semicolon) with (@None (bytes * bytes));
        [|symmetry; apply strchr_none; unfold colon, semicolon in *; set_solver].
      cbn [fmap option_fmap option_map]. by rewrite Hh.
Qed.
(** *** The grammar of the manual

    A host name: labels with dots between them. *)
Definition name_char (c : Z) : Prop := 97 <= c <= 122 \/ 65 <= c <= 90 \/ 48 <= c <= 57 \/ c = 45.
Definition hostname (s : bytes) : Prop :=
  (exists ls, ls <> [] /\ s = join [46] ls /\ Forall (fun l => (1 <= length l <= 63)%nat /\ Forall name_char l) ls) /\
  (length s <= 255)%nat /\ head s <> Some 45.

(** An address in numeric form, with or without square brackets. *)
Definition numeric (text : bytes) (ipv4only : bool) : Prop :=
  (length text <= 45)%nat /\ (is_Some (inet_pton AF_INET text) \/ ipv4only = false /\ is_Some (inet_pton AF_INET6 text)).
Definition literal (s : bytes) (ipv4only : bool) : Prop :=
  exists text, numeric text ipv4only /\ (s = [91] ++ text ++ [93] \/ s = text /\ head text <> Some 91).

Lemma hostname_char_iff c : hostname_char c = true <-> name_char c.
Proof. unfold hostname_char, digit, name_char. rewrite !orb_true_iff, !bool_decide_eq_true. lia. Qed.

Lemma join_labels s : s = join [46] (labels s).
Proof.
  induction s as [|c s IH]; [done|]. cbn [labels]. case_bool_decide as Hc.
  - subst c. destruct (labels_cons s) as (l & ls & E). rewrite E in IH |- *. cbn [join] in *. by rewrite <- IH.
  - destruct (labels_cons s) as (l & ls & E). rewrite E in IH |- *. cbn [join] in *. destruct ls; by rewrite IH at 1.
Qed.

Lemma labels_app l s : 46 ∉ l -> labels (l ++ s) = match labels s with l' :: ls => (l ++ l') :: ls | [] => [l] end.
Proof.
  induction l as [|c l IH]; cbn [app labels]; intros Hl; [by destruct (labels_cons s) as (? & ? & ->)|].
  apply not_elem_of_cons in Hl as [Hc Hl]. rewrite bool_decide_eq_false_2 by congruence. rewrite IH by done.
  by destruct (labels_cons s) as (? & ? & ->).
Qed.

Lemma labels_join ls : ls <> [] -> Forall (fun l => 46 ∉ l) ls -> labels (join [46] ls) = ls.
Proof.
  induction ls as [|l ls IH]; [done|]. intros _ [Hl Hls]%Forall_cons. destruct ls as [|l' ls].
  - cbn [join]. rewrite <- (app_nil_r l) at 1. rewrite labels_app by done. cbn. by rewrite app_nil_r.
  - change (join [46] (l :: l' :: ls)) with (l ++ [46] ++ join [46] (l' :: ls)). rewrite labels_app by done. cbn [app labels].
    rewrite bool_decide_eq_true_2 by done. rewrite IH by done. by rewrite app_nil_r.
Qed.

Lemma hostname_iff s : nn_dns_check_hostname s = 0 <-> hostname s.
Proof.
  rewrite nn_dns_check_hostname_spec. unfold hostname.
  assert (Hlab : forall l, label_ok l = true <-> (1 <= length l <= 63)%nat /\ Forall name_char l).
  { intros l. unfold label_ok. rewrite andb_true_iff, bool_decide_eq_true, forallb_True_iff. by setoid_rewrite hostname_char_iff. }
  split.
  - destruct (_ && _) eqn:E; [intros _|done]. rewrite !andb_true_iff, bool_decide_eq_true, negb_true_iff, bool_decide_eq_false in E.
    destruct E as [[Hl Hh] Hls]. split; [|split; [lia|done]]. exists (labels s). split; [by destruct (labels_cons s) as (? & ? & ->)|].
    split; [apply join_labels|]. apply forallb_True_iff in Hls. eapply Forall_impl; [exact Hls|]. intros l. apply Hlab.
  - intros ((ls & Hne & -> & Hls) & Hlen & Hh).
    assert (Hdot : Forall (fun l => 46 ∉ l) ls).
    { eapply Forall_impl; [exact Hls|]. intros l [_ Hl] Hin. rewrite Forall_forall in Hl. specialize (Hl _ Hin). unfold name_char in Hl. lia. }
    rewrite labels_join by done. assert (1 <= length (join [46%Z] ls))%nat.
    { destruct ls as [|l ls]; [done|]. apply Forall_cons in Hls as [[Hl _] _]. destruct ls; cbn; rewrite ?length_app; lia. }
    rewrite !bool_decide_eq_true_2, bool_decide_eq_false_2 by (done || lia). cbn [negb andb].
    assert (forallb label_ok ls = true) as -> by (apply forallb_True_iff; eapply Forall_impl; [exact Hls|]; intros l; apply Hlab). done.
Qed.

Lemma bracketed (x y : Z) (s : bytes) : take (length (x :: s ++ [y]) - 2) (drop 1 (x :: s ++ [y])) = s.
Proof. change (drop 1 (x :: s ++ [y])) with (s ++ [y]). apply take_app_length'. cbn [length]. rewrite length_app. cbn. lia. Qed.

Lemma literal_text_iff s text : literal_text s = Some text <->
  (length text <= 45)%nat /\ (s = [91] ++ text ++ [93] \/ s = text /\ head text <> Some 91).
Proof.
  unfold literal_text, INET6_ADDRSTRLEN. split.
  - case_bool_decide as Hh.
    + destruct (bool_decide (last s = Some 93)) eqn:Hl; cbn [negb]; [|done]. apply bool_decide_eq_true in Hl. case_bool_decide as Hlen; [done|]. intros [= <-].
      destruct s as [|c s]; [done|]. injection Hh as ->. apply last_Some in Hl as [s' E]. destruct s' as [|c s']; [done|]. injection E as <- ->.
      rewrite bracketed. cbn [length] in Hlen. rewrite length_app in Hlen. cbn in Hlen. split; [lia|by left].
    + case_bool_decide as Hlen; [done|]. intros [= <-]. split; [lia|by right].
  - intros [Hlen [->|[-> Hh]]].
    + rewrite bool_decide_eq_true_2 by done. cbn [app]. rewrite bracketed, app_comm_cons, last_snoc, bool_decide_eq_true_2 by done. cbn [negb].
      rewrite bool_decide_eq_false_2; [done|]. rewrite length_app. cbn [length]. lia.
    + rewrite !bool_decide_eq_false_2 by (done || lia). done.
Qed.

Lemma literal_iff s ipv4only : nn_literal_resolve inet_pton s ipv4only <> None <-> literal s ipv4only.
Proof.
  unfold nn_literal_resolve, literal, numeric. split.
  - destruct (literal_text s) as [text|] eqn:E; [|done]. apply literal_text_iff in E as [Hl Hs]. cbn. intros H. exists text. split; [|done]. split; [done|].
    destruct ipv4only; [left; by destruct (inet_pton AF_INET text)|].
    destruct (inet_pton AF_INET6 text); [by right|left]. by destruct (inet_pton AF_INET text).
  - intros (text & [Hl Hn] & Hs). assert (literal_text s = Some text) as -> by (by apply literal_text_iff). cbn.
    destruct Hn as [[a ->]|[-> [a ->]]]; [|done]. cbn. destruct ipv4only; [done|]. by destruct (inet_pton AF_INET6 text).
Qed.

Lemma host_ok_iff s ipv4only : host_ok inet_pton s ipv4only = true <-> hostname s \/ literal s ipv4only.
Proof.
  unfold host_ok. rewrite negb_true_iff, andb_false_iff, !bool_decide_eq_false, <- hostname_iff, <- literal_iff.
  assert (nn_dns_check_hostname s = 0 \/ nn_dns_check_hostname s = -22).
  { rewrite nn_dns_check_hostname_spec. destruct (_ && _); [by left|by right]. }
  split; (intros [?|?]; [left; lia|by right]).
Qed.

End Targets.

(** [inet_pton] for one address of each family. *)
Definition sample_pton (family : Z) (text : bytes) : option bytes :=
  if bool_decide (family = AF_INET /\ text = [49; 46; 50; 46; 51; 46; 52]) then Some [1; 2; 3; 4]
  else if bool_decide (family = AF_INET6 /\ text = [58; 58; 49]) then Some (replicate 15 0 ++ [1]) else None.

(** [[::1];my-host:80] is accepted; so is [*;h:80], whose interface the manual
    does not list; and [[h]:80] is not, although the manual allows brackets around
    the name of a host. *)
Example connect_parts : ctcp_address sample_pton [91; 58; 58; 49; 93; 59; 109; 121; 45; 104; 58; 56; 48] false = inl (Target (Some [91; 58; 58; 49; 93]) [109; 121; 45; 104] 80 [] []).
Proof. vm_compute. reflexivity. Qed.
Example connect_any : ctcp_address sample_pton [42; 59; 104; 58; 56; 48] false = inl (Target (Some [42]) [104] 80 [] []).
Proof. vm_compute. reflexivity. Qed.
Example connect_bracketed_name : ctcp_address sample_pton [91; 104; 93; 58; 56; 48] false = inr (- EINVAL).
Proof. vm_compute. reflexivity. Qed.
