(* ===== verification/Dns.v ===== *)
(** * The resolver ([transports/utils/dns.h], [dns_getaddrinfo.inc])

    The variant that asks the C library and waits for the answer: when
    [nn_dns_start] returns the result is there, and the event DONE queued.
    The library's [getaddrinfo] is a parameter of the start, its answer an
    error or an address. *)

From S2P Require Import Prelude Wire Timer Ctx Addr.
Local Open Scope Z_scope.

Definition NN_DNS_DONE : Z := 1.
Definition NN_DNS_STOPPED : Z := 2.
Definition NN_SOCKADDR_MAX : Z := 128.

Inductive dns_state := NN_DNS_STATE_IDLE | NN_DNS_STATE_DONE.
#[export] Instance dns_state_eq_dec : EqDecision dns_state.
Proof. solve_decision. Defined.

(** [nn_dns_result]: the [error], or the address. *)
Abbreviation nn_dns_result := (Z + sockaddr)%type.

(** The object the result is stored to is part of the owner; here it is kept
    with the resolver. *)
Record nn_dns := Dns { dn_fsm : fsm_state; dn_src : Z; dn_state : dns_state; dn_result : option nn_dns_result }.

Definition nn_dns_init (src : Z) : nn_dns := Dns NN_FSM_STATE_IDLE src NN_DNS_STATE_IDLE None.

Definition nn_dns_isidle (q : nn_ctx) (self : nn_dns) : bool :=
  bool_decide (dn_fsm self = NN_FSM_STATE_IDLE) && negb (nn_fsm_event_active q (CDns, SStopped)).

(** [nn_fsm_event_term] asserts that the event is not queued. *)
Definition nn_dns_term (q : nn_ctx) (self : nn_dns) : result unit :=
  _ ← assert_ (bool_decide (dn_state self = NN_DNS_STATE_IDLE));
  _ ← assert_ (negb (nn_fsm_event_active q (CDns, SDone)));
  assert_ (nn_dns_isidle q self).

Definition nn_dns_handler (q : nn_ctx) (self : nn_dns) (src type : Z) : result (nn_ctx * nn_dns) :=
  match dn_state self with
  | NN_DNS_STATE_IDLE =>
      if bool_decide (src = NN_FSM_ACTION) && bool_decide (type = NN_FSM_START) then
        q ← raise q (CDns, SDone) (Some COwner) (dn_src self) NN_DNS_DONE;
        Ok (q, Dns (dn_fsm self) (dn_src self) NN_DNS_STATE_DONE (dn_result self))
      else Err AssertFailed
  | NN_DNS_STATE_DONE => Err AssertFailed
  end.

Definition nn_dns_shutdown (q : nn_ctx) (self : nn_dns) (src type : Z) : result (nn_ctx * nn_dns) :=
  if bool_decide (src = NN_FSM_ACTION) && bool_decide (type = NN_FSM_STOP) then
    _ ← assert_ (bool_decide (dn_fsm self = NN_FSM_STATE_STOPPING));
    q ← raise q (CDns, SStopped) (Some COwner) (dn_src self) NN_DNS_STOPPED;
    Ok (q, Dns NN_FSM_STATE_IDLE (dn_src self) NN_DNS_STATE_IDLE (dn_result self))
  else Err AssertFailed.

Definition dns_fsm_start (q : nn_ctx) (self : nn_dns) : result (nn_ctx * nn_dns) :=
  _ ← assert_ (nn_dns_isidle q self);
  '(q, self) ← nn_dns_handler q self NN_FSM_ACTION NN_FSM_START;
  Ok (q, Dns NN_FSM_STATE_ACTIVE (dn_src self) (dn_state self) (dn_result self)).

Definition nn_dns_start (inet_pton : Z -> bytes -> option bytes) (getaddrinfo : nn_dns_result)
    (q : nn_ctx) (self : nn_dns) (addr : bytes) (ipv4only : bool) : result (nn_ctx * nn_dns) :=
  _ ← assert_ (bool_decide (dn_state self = NN_DNS_STATE_IDLE));
  let done_ r := dns_fsm_start q (Dns (dn_fsm self) (dn_src self) (dn_state self) (Some r)) in
  match nn_literal_resolve inet_pton addr ipv4only with
  | Some ss => done_ (inr ss)
  | None =>
      _ ← assert_ (bool_decide (NN_SOCKADDR_MAX > Z.of_nat (length addr)));
      done_ getaddrinfo
  end.

Definition nn_dns_stop (q : nn_ctx) (self : nn_dns) : result (nn_ctx * nn_dns) :=
  if negb (bool_decide (dn_fsm self = NN_FSM_STATE_ACTIVE)) then Ok (q, self)
  else nn_dns_shutdown q (Dns NN_FSM_STATE_STOPPING (dn_src self) (dn_state self) (dn_result self)) NN_FSM_ACTION NN_FSM_STOP.
