(* ===== verification/Wshandshake.v ===== *)
(** * The opening handshake of WebSocket ([transports/ws/ws_handshake.c])

    The client sends a request, the server reads it up to the empty line that
    ends it, answers and is done when the answer is sent; the client reads
    the answer.  The machine borrows the socket of the session, as the one
    of [transports/utils/streamhdr.c] does, and has five seconds. *)

From S2P Require Import Prelude Wire Timer Ctx Usock Streamhdr Wsparse.
From Stdlib Require Strings.String.
Import String.StringSyntax.
Local Open Scope Z_scope.

Definition NN_WS_CLIENT : Z := 1.
Definition NN_WS_SERVER : Z := 2.
Definition NN_WS_HANDSHAKE_OK : Z := 1.
Definition NN_WS_HANDSHAKE_ERROR : Z := 2.
Definition NN_WS_HANDSHAKE_STOPPED : Z := 3.
Definition NN_WS_HANDSHAKE_SRC_USOCK : Z := 1.
Definition NN_WS_HANDSHAKE_SRC_TIMER : Z := 2.
Definition NN_WS_HANDSHAKE_TIMEOUT : Z := 5000.

Inductive ws_handshake_state :=
  | NN_WS_HANDSHAKE_STATE_IDLE | NN_WS_HANDSHAKE_STATE_SERVER_RECV | NN_WS_HANDSHAKE_STATE_SERVER_REPLY
  | NN_WS_HANDSHAKE_STATE_CLIENT_SEND | NN_WS_HANDSHAKE_STATE_CLIENT_RECV | NN_WS_HANDSHAKE_STATE_HANDSHAKE_SENT
  | NN_WS_HANDSHAKE_STATE_STOPPING_TIMER_ERROR | NN_WS_HANDSHAKE_STATE_STOPPING_TIMER_DONE
  | NN_WS_HANDSHAKE_STATE_DONE | NN_WS_HANDSHAKE_STATE_STOPPING.
#[export] Instance ws_handshake_state_eq_dec : EqDecision ws_handshake_state.
Proof. solve_decision. Defined.

(** The reading of a text: the buffer, and what was asked for last. *)
Record reading := Reading { rd_buf : bytes; rd_pos : nat; rd_len : nat }.

Record nn_ws_handshake := Handshake {
  hs_fsm : fsm_state;
  hs_src : Z;
  hs_state : ws_handshake_state;
  hs_mode : Z;
  hs_timer : nn_timer;
  hs_usock : bool;
  hs_owner : option comp * Z;
  hs_resource : bytes;
  hs_remote_host : bytes;
  hs_recv : reading;              (* [opening_hs] of a server, [response] of a client *)
  hs_headers : headers;
  hs_code : response_code;
  hs_accept_key : bytes
}.

Definition hs_set_fsm v h := Handshake v (hs_src h) (hs_state h) (hs_mode h) (hs_timer h) (hs_usock h) (hs_owner h) (hs_resource h) (hs_remote_host h) (hs_recv h) (hs_headers h) (hs_code h) (hs_accept_key h).
Definition hs_set_state v h := Handshake (hs_fsm h) (hs_src h) v (hs_mode h) (hs_timer h) (hs_usock h) (hs_owner h) (hs_resource h) (hs_remote_host h) (hs_recv h) (hs_headers h) (hs_code h) (hs_accept_key h).
Definition hs_set_timer v h := Handshake (hs_fsm h) (hs_src h) (hs_state h) (hs_mode h) v (hs_usock h) (hs_owner h) (hs_resource h) (hs_remote_host h) (hs_recv h) (hs_headers h) (hs_code h) (hs_accept_key h).
Definition hs_set_usock v o h := Handshake (hs_fsm h) (hs_src h) (hs_state h) (hs_mode h) (hs_timer h) v o (hs_resource h) (hs_remote_host h) (hs_recv h) (hs_headers h) (hs_code h) (hs_accept_key h).
Definition hs_set_recv v h := Handshake (hs_fsm h) (hs_src h) (hs_state h) (hs_mode h) (hs_timer h) (hs_usock h) (hs_owner h) (hs_resource h) (hs_remote_host h) v (hs_headers h) (hs_code h) (hs_accept_key h).
Definition hs_set_parsed c v h := Handshake (hs_fsm h) (hs_src h) (hs_state h) (hs_mode h) (hs_timer h) (hs_usock h) (hs_owner h) (hs_resource h) (hs_remote_host h) (hs_recv h) v c (hs_accept_key h).
Definition hs_set_accept_key v h := Handshake (hs_fsm h) (hs_src h) (hs_state h) (hs_mode h) (hs_timer h) (hs_usock h) (hs_owner h) (hs_resource h) (hs_remote_host h) (hs_recv h) (hs_headers h) (hs_code h) v.
Definition hs_set_peer m r host rcv h := Handshake (hs_fsm h) (hs_src h) (hs_state h) m (hs_timer h) (hs_usock h) (hs_owner h) r host rcv (hs_headers h) (hs_code h) (hs_accept_key h).

Definition nn_ws_handshake_init (src : Z) : nn_ws_handshake :=
  Handshake NN_FSM_STATE_IDLE src NN_WS_HANDSHAKE_STATE_IDLE 0 nn_timer_init false (None, -1) [] [] (Reading [] 0 0) (fun _ => Unset) NN_WS_HANDSHAKE_RESPONSE_NULL [].

Definition nn_ws_handshake_isidle (q : nn_ctx) (self : nn_ws_handshake) : bool :=
  bool_decide (hs_fsm self = NN_FSM_STATE_IDLE) && negb (nn_fsm_event_active q (CHeader, SStopped)).

Definition nn_ws_handshake_term (q : nn_ctx) (self : nn_ws_handshake) : result unit :=
  _ ← assert_ (bool_decide (hs_state self = NN_WS_HANDSHAKE_STATE_IDLE));
  _ ← nn_timer_term (hs_timer self);
  assert_ (nn_ws_handshake_isidle q self).

Definition hs_with_timer (x : io) (self : nn_ws_handshake) (f : nn_timer -> result nn_timer) : result (io * nn_ws_handshake) :=
  let t := hs_timer self in
  t' ← f t;
  q ← timer_raised (io_q x) (tm_done t) (tm_done t') SDone;
  q ← timer_raised q (fsm_stopped (tm_fsm t)) (fsm_stopped (tm_fsm t')) SStopped;
  Ok (io_set_q q x, hs_set_timer t' self).

(** ** Reading up to the empty line *)

(** What arrived is in the buffer, behind what was there. *)
Definition stored (r : reading) (data : bytes) : bytes := take (rd_pos r) (rd_buf r) ++ data ++ drop (rd_pos r + length data) (rd_buf r).

(** The longest beginning of the terminating sequence the text ends with:
    the loop over [i], from [i] down. *)
Fixpoint overlap (i : nat) (buf : bytes) (pos : nat) : nat :=
  match i with
  | O => O
  | S i' => if bool_decide (take i NN_WS_HANDSHAKE_TERMSEQ = take i (drop (pos - i) buf)) then i else overlap i' buf pos
  end.

(** After RECV_MORE: the next request, unless the buffer is too short for it. *)
Definition receive_more (r : reading) : result (reading * bool) :=
  let size := length (rd_buf r) in
  let pos := (rd_pos r + rd_len r)%nat in
  _ ← assert_ (pos <? size)%nat;
  _ ← assert_ (NN_WS_HANDSHAKE_TERMSEQ_LEN <=? pos)%nat;
  let i := overlap NN_WS_HANDSHAKE_TERMSEQ_LEN (rd_buf r) pos in
  _ ← assert_ (i <? NN_WS_HANDSHAKE_TERMSEQ_LEN)%nat;
  let len := (NN_WS_HANDSHAKE_TERMSEQ_LEN - i)%nat in
  Ok (Reading (rd_buf r) pos len, negb (size <? len + pos)%nat).

(** ** The machine

    [le], [memory]: the machine's byte order and stack, for the hash;
    [rand_key]: the 16 random bytes of a client. *)
Section Machine.
  Context (protocol : Z) (ispeer : Z -> bool) (le : bool) (memory rand_key : bytes).

Abbreviation state := (io * nn_ws_handshake)%type.

Definition hs_stop_timer (x : io) (self : nn_ws_handshake) (st : ws_handshake_state) : result state :=
  '(x, self) ← hs_with_timer x self nn_timer_stop; Ok (x, hs_set_state st self).

Definition nn_ws_handshake_leave (x : io) (self : nn_ws_handshake) (rc : Z) : result state :=
  let '(x, _) := io_swap_owner x (hs_owner self) in
  let self := hs_set_state NN_WS_HANDSHAKE_STATE_DONE (hs_set_usock false (None, -1) self) in
  x ← io_raise x (CHeader, SDone) (Some CSession) (hs_src self) rc;
  Ok (x, self).

(** The end of [nn_ws_handshake_server_reply]: the response is sent. *)
Definition server_reply (x : io) (self : nn_ws_handshake) : result state :=
  response ← nn_ws_handshake_server_reply le memory (hs_code self) (hs_headers self);
  x ← io_send x [response];
  Ok (x, self).

(** SERVER_RECV, RECEIVED *)
Definition server_received (x : io) (self : nn_ws_handshake) : result state :=
  let r := hs_recv self in
  let r := Reading (stored r (in_buf (io_us x))) (rd_pos r) (rd_len r) in
  '(rc, code, h) ← nn_ws_handshake_parse_client_opening protocol ispeer (rd_buf r) (hs_code self) (hs_headers self);
  let self := hs_set_parsed code h (hs_set_recv r self) in
  match rc with
  | NN_WS_HANDSHAKE_RECV_MORE =>
      '(r, fits) ← receive_more r;
      let self := hs_set_recv r self in
      if fits : bool then
        x ← io_recv x (Z.of_nat (rd_len r)); Ok (x, self)
      else server_reply x (hs_set_state NN_WS_HANDSHAKE_STATE_SERVER_REPLY (hs_set_parsed NN_WS_HANDSHAKE_RESPONSE_TOO_BIG (hs_headers self) self))
  | _ => server_reply x (hs_set_state NN_WS_HANDSHAKE_STATE_SERVER_REPLY self)
  end.

(** CLIENT_RECV, RECEIVED *)
Definition client_received (x : io) (self : nn_ws_handshake) : result state :=
  let r := hs_recv self in
  let r := Reading (stored r (in_buf (io_us x))) (rd_pos r) (rd_len r) in
  '(rc, h) ← nn_ws_handshake_parse_server_response (rd_buf r) (hs_accept_key self) (hs_headers self);
  let self := hs_set_parsed (hs_code self) h (hs_set_recv r self) in
  match rc with
  | NN_WS_HANDSHAKE_INVALID => hs_stop_timer x self NN_WS_HANDSHAKE_STATE_STOPPING_TIMER_ERROR
  | NN_WS_HANDSHAKE_VALID => hs_stop_timer x self NN_WS_HANDSHAKE_STATE_STOPPING_TIMER_DONE
  | NN_WS_HANDSHAKE_RECV_MORE =>
      '(r, fits) ← receive_more r;
      let self := hs_set_recv r self in
      if fits : bool then
        x ← io_recv x (Z.of_nat (rd_len r)); Ok (x, self)
      else hs_stop_timer x self NN_WS_HANDSHAKE_STATE_STOPPING_TIMER_ERROR
  end.

(** SHUTDOWN is ignored, ERROR and TIMEOUT stop the timer, in five states. *)
Definition hs_otherwise (x : io) (self : nn_ws_handshake) (src type : Z) : result state :=
  if bool_decide (src = NN_WS_HANDSHAKE_SRC_USOCK) then
    if bool_decide (type = NN_USOCK_SHUTDOWN) then Ok (x, self)
    else if bool_decide (type = NN_USOCK_ERROR) then hs_stop_timer x self NN_WS_HANDSHAKE_STATE_STOPPING_TIMER_ERROR
    else Err AssertFailed
  else if bool_decide (src = NN_WS_HANDSHAKE_SRC_TIMER) && bool_decide (type = NN_TIMER_TIMEOUT) then
    hs_stop_timer x self NN_WS_HANDSHAKE_STATE_STOPPING_TIMER_ERROR
  else Err AssertFailed.

Definition from_usock (src type want : Z) : bool := bool_decide (src = NN_WS_HANDSHAKE_SRC_USOCK) && bool_decide (type = want).

Definition nn_ws_handshake_handler (x : io) (self : nn_ws_handshake) (src type : Z) : result state :=
  match hs_state self with
  | NN_WS_HANDSHAKE_STATE_IDLE =>
      if bool_decide (src = NN_FSM_ACTION) && bool_decide (type = NN_FSM_START) then
        let r := hs_recv self in
        _ ← assert_ (rd_pos r =? 0)%nat;
        _ ← assert_ (NN_WS_HANDSHAKE_TERMSEQ_LEN <=? rd_len r)%nat;
        '(x, self) ← hs_with_timer x self (fun t => nn_timer_start t NN_WS_HANDSHAKE_TIMEOUT);
        _ ← assert_ (rd_len r <=? length (rd_buf r))%nat;
        if bool_decide (hs_mode self = NN_WS_CLIENT) then
          '(request, key) ← nn_ws_handshake_client_request le memory protocol rand_key (hs_resource self) (hs_remote_host self);
          x ← io_send x [request];
          Ok (x, hs_set_accept_key key (hs_set_state NN_WS_HANDSHAKE_STATE_CLIENT_SEND self))
        else if bool_decide (hs_mode self = NN_WS_SERVER) then
          x ← io_recv x (Z.of_nat (rd_len r));
          Ok (x, hs_set_state NN_WS_HANDSHAKE_STATE_SERVER_RECV self)
        else Err AssertFailed
      else Err AssertFailed
  | NN_WS_HANDSHAKE_STATE_SERVER_RECV =>
      if from_usock src type NN_USOCK_RECEIVED then server_received x self else hs_otherwise x self src type
  | NN_WS_HANDSHAKE_STATE_SERVER_REPLY =>
      if from_usock src type NN_USOCK_SENT then hs_stop_timer x self NN_WS_HANDSHAKE_STATE_STOPPING_TIMER_DONE
      else hs_otherwise x self src type
  | NN_WS_HANDSHAKE_STATE_CLIENT_SEND =>
      if from_usock src type NN_USOCK_SENT then
        x ← io_recv x (Z.of_nat (rd_len (hs_recv self)));
        Ok (x, hs_set_state NN_WS_HANDSHAKE_STATE_CLIENT_RECV self)
      else hs_otherwise x self src type
  | NN_WS_HANDSHAKE_STATE_CLIENT_RECV =>
      if from_usock src type NN_USOCK_RECEIVED then client_received x self else hs_otherwise x self src type
  | NN_WS_HANDSHAKE_STATE_HANDSHAKE_SENT =>
      if from_usock src type NN_USOCK_SENT then hs_stop_timer x self NN_WS_HANDSHAKE_STATE_STOPPING_TIMER_DONE
      else hs_otherwise x self src type
  | NN_WS_HANDSHAKE_STATE_STOPPING_TIMER_ERROR =>
      if bool_decide (src = NN_WS_HANDSHAKE_SRC_USOCK) then Ok (x, self)
      else if bool_decide (src = NN_WS_HANDSHAKE_SRC_TIMER) && bool_decide (type = NN_TIMER_STOPPED) then nn_ws_handshake_leave x self NN_WS_HANDSHAKE_ERROR
      else Err AssertFailed
  | NN_WS_HANDSHAKE_STATE_STOPPING_TIMER_DONE =>
      if bool_decide (src = NN_WS_HANDSHAKE_SRC_USOCK) then Ok (x, self)
      else if bool_decide (src = NN_WS_HANDSHAKE_SRC_TIMER) && bool_decide (type = NN_TIMER_STOPPED) then nn_ws_handshake_leave x self NN_WS_HANDSHAKE_OK
      else Err AssertFailed
  | _ => Err AssertFailed
  end.

Definition nn_ws_handshake_shutdown (x : io) (self : nn_ws_handshake) (src type : Z) : result state :=
  '(x, self) ← (if bool_decide (src = NN_FSM_ACTION) && bool_decide (type = NN_FSM_STOP)
                then hs_stop_timer x self NN_WS_HANDSHAKE_STATE_STOPPING else Ok (x, self));
  if bool_decide (hs_state self = NN_WS_HANDSHAKE_STATE_STOPPING) then
    if negb (nn_timer_isidle (hs_timer self)) then Ok (x, self)
    else
      _ ← assert_ (bool_decide (hs_fsm self = NN_FSM_STATE_STOPPING));
      x ← io_raise x (CHeader, SStopped) (Some CSession) (hs_src self) NN_WS_HANDSHAKE_STOPPED;
      Ok (x, hs_set_fsm NN_FSM_STATE_IDLE (hs_set_state NN_WS_HANDSHAKE_STATE_IDLE self))
  else Err AssertFailed.

Definition ws_handshake_feed (x : io) (self : nn_ws_handshake) (src type : Z) : result state :=
  if negb (bool_decide (hs_fsm self = NN_FSM_STATE_STOPPING)) then nn_ws_handshake_handler x self src type
  else nn_ws_handshake_shutdown x self src type.

(** The shortest texts there can be. *)
Definition SERVER_RECV_LEN : nat := Eval vm_compute in
  length (crlf (text "GET x HTTP/1.1") ++ crlf (text "Upgrade: websocket") ++ crlf (text "Connection: Upgrade") ++ crlf (text "Host: x") ++
          crlf (text "Origin: x") ++ crlf (text "Sec-WebSocket-Key: xxxxxxxxxxxxxxxxxxxxxxxx") ++ crlf (text "Sec-WebSocket-Version: xx") ++ crlf []).
Definition CLIENT_RECV_LEN : nat := Eval vm_compute in length (crlf (text "HTTP/1.1 xxx") ++ crlf []).

Definition nn_ws_handshake_start (x : io) (self : nn_ws_handshake) (mode : Z) (resource host : bytes) : result state :=
  _ ← assert_ (negb (bool_decide (mode = NN_WS_CLIENT)) || (1 <=? length resource)%nat);
  _ ← assert_ (negb (hs_usock self) && bool_decide ((hs_owner self).1 = None));
  let '(x, o) := io_swap_owner x (Some CHeader, NN_WS_HANDSHAKE_SRC_USOCK) in
  let self := hs_set_usock true o self in
  r ← (if bool_decide (mode = NN_WS_SERVER) then Ok (Reading (replicate NN_WS_HANDSHAKE_MAX_SIZE 0) 0 SERVER_RECV_LEN)
       else if bool_decide (mode = NN_WS_CLIENT) then Ok (Reading (replicate RESPONSE_SIZE 0) 0 CLIENT_RECV_LEN)
       else Err AssertFailed);
  let self := hs_set_peer mode resource host r self in
  _ ← assert_ (nn_ws_handshake_isidle (io_q x) self);
  '(x, self) ← nn_ws_handshake_handler x self NN_FSM_ACTION NN_FSM_START;
  Ok (x, hs_set_fsm NN_FSM_STATE_ACTIVE self).

Definition nn_ws_handshake_stop (x : io) (self : nn_ws_handshake) : result state :=
  if negb (bool_decide (hs_fsm self = NN_FSM_STATE_ACTIVE)) then Ok (x, self)
  else nn_ws_handshake_shutdown x (hs_set_fsm NN_FSM_STATE_STOPPING self) NN_FSM_ACTION NN_FSM_STOP.

End Machine.
