(* ===== verification/Sws.v ===== *)
(** * WebSocket sessions ([transports/ws/sws.c])

    A session takes over a connected socket, has the opening handshake done
    and then passes messages as the frames of RFC 6455: outgoing messages in
    one frame, masked when it is the client; incoming ones reassembled from
    their fragments, with control frames in between, texts checked to be
    UTF-8, and violations answered with a close frame. *)

From S2P Require Import Prelude NNList Wire Timer Pipe Ctx Usock Utf8 Cmsg Streamhdr Wsparse Wshandshake.
From Stdlib Require Strings.String.
Import String.StringSyntax.
Local Open Scope Z_scope.

Definition NN_SWS_RETURN_ERROR : Z := 1.
Definition NN_SWS_RETURN_CLOSE_HANDSHAKE : Z := 2.
Definition NN_SWS_RETURN_STOPPED : Z := 3.
Definition NN_SWS_SRC_USOCK : Z := 1.
Definition NN_SWS_SRC_HANDSHAKE : Z := 2.

Definition NN_WS : Z := -4.
Definition NN_WS_MSG_TYPE : Z := 1.
Definition NN_WS_OPCODE_FRAGMENT : Z := 0x00.
Definition NN_WS_OPCODE_TEXT : Z := 0x01.
Definition NN_WS_OPCODE_BINARY : Z := 0x02.
Definition NN_WS_OPCODE_CLOSE : Z := 0x08.
Definition NN_WS_OPCODE_PING : Z := 0x09.
Definition NN_WS_OPCODE_PONG : Z := 0x0A.

Definition NN_SWS_FRAME_BITMASK_FIN : Z := 0x80.
Definition NN_SWS_FRAME_BITMASK_RSV1 : Z := 0x40.
Definition NN_SWS_FRAME_BITMASK_RSV2 : Z := 0x20.
Definition NN_SWS_FRAME_BITMASK_RSV3 : Z := 0x10.
Definition NN_SWS_FRAME_BITMASK_OPCODE : Z := 0x0F.
Definition NN_SWS_FRAME_BITMASK_MASKED : Z := 0x80.
Definition NN_SWS_FRAME_BITMASK_LENGTH : Z := 0x7F.

Definition NN_SWS_FRAME_SIZE_INITIAL : nat := 2.
Definition NN_SWS_FRAME_SIZE_PAYLOAD_16 : nat := 2.
Definition NN_SWS_FRAME_SIZE_PAYLOAD_63 : nat := 8.
Definition NN_SWS_FRAME_SIZE_MASK : nat := 4.
Definition NN_SWS_FRAME_MAX_HDR_LEN : nat := 14.
Definition NN_SWS_PAYLOAD_MAX_LENGTH : Z := 125.
Definition NN_SWS_PAYLOAD_MAX_LENGTH_16 : Z := 65535.
Definition NN_SWS_PAYLOAD_FRAME_16 : Z := 0x7E.
Definition NN_SWS_PAYLOAD_FRAME_63 : Z := 0x7F.
Definition NN_SWS_CLOSE_CODE_LEN : nat := 2.

Definition NN_SWS_CLOSE_NORMAL : Z := 1000.
Definition NN_SWS_CLOSE_GOING_AWAY : Z := 1001.
Definition NN_SWS_CLOSE_ERR_PROTO : Z := 1002.
Definition NN_SWS_CLOSE_ERR_WUT : Z := 1003.
Definition NN_SWS_CLOSE_ERR_INVALID_FRAME : Z := 1007.
Definition NN_SWS_CLOSE_ERR_POLICY : Z := 1008.
Definition NN_SWS_CLOSE_ERR_TOOBIG : Z := 1009.
Definition NN_SWS_CLOSE_ERR_EXTENSION : Z := 1010.
Definition NN_SWS_CLOSE_ERR_SERVER : Z := 1011.

Inductive sws_state :=
  | NN_SWS_STATE_IDLE | NN_SWS_STATE_HANDSHAKE | NN_SWS_STATE_STOPPING_HANDSHAKE | NN_SWS_STATE_ACTIVE
  | NN_SWS_STATE_CLOSING_CONNECTION | NN_SWS_STATE_BROKEN_CONNECTION | NN_SWS_STATE_DONE | NN_SWS_STATE_STOPPING.
#[export] Instance sws_state_eq_dec : EqDecision sws_state.
Proof. solve_decision. Defined.
Inductive sws_instate :=
  | NN_SWS_INSTATE_RECV_HDR | NN_SWS_INSTATE_RECV_HDREXT | NN_SWS_INSTATE_RECV_PAYLOAD | NN_SWS_INSTATE_RECVD_CHUNKED
  | NN_SWS_INSTATE_RECVD_CONTROL | NN_SWS_INSTATE_CLOSED.
#[export] Instance sws_instate_eq_dec : EqDecision sws_instate.
Proof. solve_decision. Defined.
Inductive sws_outstate := NN_SWS_OUTSTATE_IDLE | NN_SWS_OUTSTATE_SENDING.
#[export] Instance sws_outstate_eq_dec : EqDecision sws_outstate.
Proof. solve_decision. Defined.

(** ** Masking *)

(** The index is an [unsigned int]: for 2^32 bytes the loop does not end. *)
Definition nn_sws_mask_payload (payload mask : bytes) (mask_start_pos : nat) : result (bytes * nat) :=
  if 2 ^ 32 <=? Z.of_nat (length payload) then Err NoFuel
  else Ok (imap (fun i b => Z.lxor b (mask !!! ((i + mask_start_pos) mod length mask)%nat)) payload,
           ((length payload + mask_start_pos) mod length mask)%nat).

(** ** The session

    The part that receives. [in_chunks]: the chunks of [inmsg_array];
    [in_control]: [inmsg_control]; [in_where]: whether the current buffer is
    [inmsg_control] or the last chunk; [in_frag]: the first
    [utf8_code_pt_fragment_len] bytes of the fragment; [in_mask]: the place
    of the mask in the header. *)
Record inbound := Inbound {
  in_state : option sws_instate;
  in_hdr : bytes;
  in_opcode : Z;
  in_payload_ctl : Z;
  in_masked : bool;
  in_mask : option nat;
  in_ext_len : nat;
  in_final : bool;
  in_is_control : bool;
  in_continuing : bool;
  in_frag : bytes;
  in_chunks : list bytes;
  in_where : bool;
  in_chunk_len : Z;
  in_total : Z;
  in_msg_hdr : Z;
  in_control : bytes
}.

Definition i_set_state v i := Inbound v (in_hdr i) (in_opcode i) (in_payload_ctl i) (in_masked i) (in_mask i) (in_ext_len i) (in_final i) (in_is_control i) (in_continuing i) (in_frag i) (in_chunks i) (in_where i) (in_chunk_len i) (in_total i) (in_msg_hdr i) (in_control i).
Definition i_set_hdr v i := Inbound (in_state i) v (in_opcode i) (in_payload_ctl i) (in_masked i) (in_mask i) (in_ext_len i) (in_final i) (in_is_control i) (in_continuing i) (in_frag i) (in_chunks i) (in_where i) (in_chunk_len i) (in_total i) (in_msg_hdr i) (in_control i).
Definition i_set_parsed fin masked ext op ctl mh i := Inbound (in_state i) (in_hdr i) op ctl masked (in_mask i) ext fin (in_is_control i) (in_continuing i) (in_frag i) (in_chunks i) (in_where i) (in_chunk_len i) (in_total i) mh (in_control i).
Definition i_set_mask v n i := Inbound (in_state i) (in_hdr i) (in_opcode i) (in_payload_ctl i) (in_masked i) v (in_ext_len i) (in_final i) (in_is_control i) (in_continuing i) (in_frag i) (in_chunks i) (in_where i) n (in_total i) (in_msg_hdr i) (in_control i).
Definition i_set_kind ctl cont i := Inbound (in_state i) (in_hdr i) (in_opcode i) (in_payload_ctl i) (in_masked i) (in_mask i) (in_ext_len i) (in_final i) ctl cont (in_frag i) (in_chunks i) (in_where i) (in_chunk_len i) (in_total i) (in_msg_hdr i) (in_control i).
Definition i_set_frag v i := Inbound (in_state i) (in_hdr i) (in_opcode i) (in_payload_ctl i) (in_masked i) (in_mask i) (in_ext_len i) (in_final i) (in_is_control i) (in_continuing i) v (in_chunks i) (in_where i) (in_chunk_len i) (in_total i) (in_msg_hdr i) (in_control i).
Definition i_set_chunks cs whr n total i := Inbound (in_state i) (in_hdr i) (in_opcode i) (in_payload_ctl i) (in_masked i) (in_mask i) (in_ext_len i) (in_final i) (in_is_control i) (in_continuing i) (in_frag i) cs whr n total (in_msg_hdr i) (in_control i).
Definition i_set_control v i := Inbound (in_state i) (in_hdr i) (in_opcode i) (in_payload_ctl i) (in_masked i) (in_mask i) (in_ext_len i) (in_final i) (in_is_control i) (in_continuing i) (in_frag i) (in_chunks i) (in_where i) (in_chunk_len i) (in_total i) (in_msg_hdr i) v.

(** The counters of pings and pongs and of chunks are not kept: nothing
    reads them.  [sw_random]: what [nn_random_generate] gives. *)
Record nn_sws := Sws {
  sw_fsm : fsm_state;
  sw_src : Z;
  sw_state : sws_state;
  sw_msg_type : Z;
  sw_mode : Z;
  sw_usock : bool;
  sw_owner : option comp * Z;
  sw_resource : bytes;
  sw_remote_host : bytes;
  sw_in : inbound;
  sw_outstate : option sws_outstate;
  sw_outhdr : bytes;
  sw_outmsg : nn_msg;
  sw_fail_msg : bytes;
  sw_random : list bytes
}.

Definition sw_set_fsm v s := Sws v (sw_src s) (sw_state s) (sw_msg_type s) (sw_mode s) (sw_usock s) (sw_owner s) (sw_resource s) (sw_remote_host s) (sw_in s) (sw_outstate s) (sw_outhdr s) (sw_outmsg s) (sw_fail_msg s) (sw_random s).
Definition sw_set_state v s := Sws (sw_fsm s) (sw_src s) v (sw_msg_type s) (sw_mode s) (sw_usock s) (sw_owner s) (sw_resource s) (sw_remote_host s) (sw_in s) (sw_outstate s) (sw_outhdr s) (sw_outmsg s) (sw_fail_msg s) (sw_random s).
Definition sw_set_peer m r h t s := Sws (sw_fsm s) (sw_src s) (sw_state s) t m (sw_usock s) (sw_owner s) r h (sw_in s) (sw_outstate s) (sw_outhdr s) (sw_outmsg s) (sw_fail_msg s) (sw_random s).
Definition sw_set_usock v o s := Sws (sw_fsm s) (sw_src s) (sw_state s) (sw_msg_type s) (sw_mode s) v o (sw_resource s) (sw_remote_host s) (sw_in s) (sw_outstate s) (sw_outhdr s) (sw_outmsg s) (sw_fail_msg s) (sw_random s).
Definition sw_set_in v s := Sws (sw_fsm s) (sw_src s) (sw_state s) (sw_msg_type s) (sw_mode s) (sw_usock s) (sw_owner s) (sw_resource s) (sw_remote_host s) v (sw_outstate s) (sw_outhdr s) (sw_outmsg s) (sw_fail_msg s) (sw_random s).
Definition sw_set_out o h m s := Sws (sw_fsm s) (sw_src s) (sw_state s) (sw_msg_type s) (sw_mode s) (sw_usock s) (sw_owner s) (sw_resource s) (sw_remote_host s) (sw_in s) o h m (sw_fail_msg s) (sw_random s).
Definition sw_set_fail v s := Sws (sw_fsm s) (sw_src s) (sw_state s) (sw_msg_type s) (sw_mode s) (sw_usock s) (sw_owner s) (sw_resource s) (sw_remote_host s) (sw_in s) (sw_outstate s) (sw_outhdr s) (sw_outmsg s) v (sw_random s).
Definition sw_set_random v s := Sws (sw_fsm s) (sw_src s) (sw_state s) (sw_msg_type s) (sw_mode s) (sw_usock s) (sw_owner s) (sw_resource s) (sw_remote_host s) (sw_in s) (sw_outstate s) (sw_outhdr s) (sw_outmsg s) (sw_fail_msg s) v.

(** [nn_random_generate] of four bytes. *)
Definition next_mask (s : nn_sws) : bytes * nn_sws :=
  match sw_random s with m :: ms => (m, sw_set_random ms s) | [] => (replicate NN_SWS_FRAME_SIZE_MASK 0, s) end.

(** A connection, as in the file [Stcp]. *)
Record wconn := WConn { wc_io : io; wc_hs : nn_ws_handshake; wc_sws : nn_sws; wc_told : list (Z * Z) }.

Abbreviation wworld := (world wconn).
Definition ws_pipe : addr := 1%positive.

Definition wc (w : wworld) : wconn := w_net w.
Definition sw (w : wworld) : nn_sws := wc_sws (wc w).
Definition sin (w : wworld) : inbound := sw_in (sw w).
Definition wus (w : wworld) : nn_usock := io_us (wc_io (wc w)).
Definition set_wc (w : wworld) (c : wconn) : wworld := set_net w c.
Definition set_wio (w : wworld) (x : io) : wworld := set_wc w (WConn x (wc_hs (wc w)) (wc_sws (wc w)) (wc_told (wc w))).
Definition set_hs (w : wworld) (x : io) (h : nn_ws_handshake) : wworld := set_wc w (WConn x h (wc_sws (wc w)) (wc_told (wc w))).
Definition set_sw (w : wworld) (s : nn_sws) : wworld := set_wc w (WConn (wc_io (wc w)) (wc_hs (wc w)) s (wc_told (wc w))).
Definition set_sin (w : wworld) (i : inbound) : wworld := set_sw w (sw_set_in i (sw w)).

Definition no_msg : nn_msg := Msg [] [] [].
Definition no_inbound : inbound :=
  Inbound None (replicate NN_SWS_FRAME_MAX_HDR_LEN 0) 0 0 false None 0 false false false [] [] false 0 0 0 (replicate (Z.to_nat NN_SWS_PAYLOAD_MAX_LENGTH) 0).

(** [memory]: what the uninitialised [fail_msg] holds. *)
Definition nn_sws_init (src : Z) (memory : bytes) (random : list bytes) : nn_sws :=
  Sws NN_FSM_STATE_IDLE src NN_SWS_STATE_IDLE 0 0 false (None, -1) [] [] no_inbound None (replicate NN_SWS_FRAME_MAX_HDR_LEN 0) no_msg memory random.

Definition nn_sws_isidle (q : nn_ctx) (self : nn_sws) : bool :=
  bool_decide (sw_fsm self = NN_FSM_STATE_IDLE) && negb (nn_fsm_event_active q (CSession, SStopped)).

Definition nn_sws_term (w : wworld) : result unit :=
  _ ← assert_ (bool_decide (sw_state (sw w) = NN_SWS_STATE_IDLE));
  pb ← deref (w_pipes w !! ws_pipe);
  _ ← nn_pipebase_term pb;
  _ ← nn_ws_handshake_term (io_q (wc_io (wc w))) (wc_hs (wc w));
  assert_ (nn_sws_isidle (io_q (wc_io (wc w))) (sw w)).

Definition sws_raise (w : wworld) (s : slot) (type : Z) : result wworld :=
  x ← io_raise (wc_io (wc w)) (CSession, s) (Some COwner) (sw_src (sw w)) type; Ok (set_wio w x).

Definition sws_goto (w : wworld) (s : sws_state) : wworld := set_sw w (sw_set_state s (sw w)).
Definition sws_in_goto (w : wworld) (s : sws_instate) : wworld := set_sin w (i_set_state (Some s) (sin w)).

Definition sws_io_recv (w : wworld) (len : Z) : result wworld :=
  x ← io_recv (wc_io (wc w)) len; Ok (set_wio w x).
Definition sws_io_send (w : wworld) (iov : list bytes) : result wworld :=
  x ← io_send (wc_io (wc w)) iov; Ok (set_wio w x).

(** ** Frames that are sent *)

(** The first bytes of a frame: opcode, size, mask. *)
Definition frame_header (op size : Z) (mask : option bytes) : result bytes :=
  let b0 := Z.lor op NN_SWS_FRAME_BITMASK_FIN in
  let m := match mask with Some _ => NN_SWS_FRAME_BITMASK_MASKED | None => 0 end in
  '(b1, ext) ← (if size <=? NN_SWS_PAYLOAD_MAX_LENGTH then Ok (u8 size, [])
                else if size <=? NN_SWS_PAYLOAD_MAX_LENGTH_16 then ext ← nn_puts (replicate NN_SWS_FRAME_SIZE_PAYLOAD_16 0) (u16 size); Ok (NN_SWS_PAYLOAD_FRAME_16, ext)
                else ext ← nn_putll (replicate NN_SWS_FRAME_SIZE_PAYLOAD_63 0) (u64 size); Ok (NN_SWS_PAYLOAD_FRAME_63, ext));
  Ok ([b0; Z.lor b1 m] ++ ext ++ default [] mask).

(** [hdr_len] bytes of [outhdr] are in use. *)
Definition outhdr_of (h : bytes) : bytes := h ++ replicate (NN_SWS_FRAME_MAX_HDR_LEN - length h) 0.

(** The opcode the headers of a message ask for; as many steps as there are
    bytes are enough for headers of which every property has a length. *)
Definition opcode_of (self : nn_sws) (m : nn_msg) : result Z :=
  cmsg ← (if (0 <? length (hdrs m))%nat then first ← nn_cmsg_nxthdr_ (hdrs m) None; find_cmsg (length (hdrs m)) (hdrs m) NN_WS NN_WS_MSG_TYPE first else Ok None);
  match cmsg with
  | Some off => b ← slice (hdrs m) (NN_CMSG_DATA off) 1; rd b 0
  | None => Ok (sw_msg_type self)
  end.

Definition nn_sws_send (w : wworld) (msg : nn_msg) : result (wworld * Z) :=
  let self := sw w in
  _ ← assert_ (bool_decide (sw_state self = NN_SWS_STATE_ACTIVE));
  _ ← assert_ (bool_decide (sw_outstate self = Some NN_SWS_OUTSTATE_IDLE));
  op ← opcode_of self msg;
  let size := u64 (Z.of_nat (length (sphdr msg)) + Z.of_nat (length (body msg))) in
  '(h, msg, self) ← (if bool_decide (sw_mode self = NN_WS_CLIENT) then
                       let '(mask, self) := next_mask self in
                       h ← frame_header op size (Some mask);
                       '(hd, mask_pos) ← nn_sws_mask_payload (sphdr msg) mask 0;
                       '(bd, _) ← nn_sws_mask_payload (body msg) mask mask_pos;
                       Ok (h, Msg hd (hdrs msg) bd, self)
                     else if bool_decide (sw_mode self = NN_WS_SERVER) then
                       h ← frame_header op size None; Ok (h, msg, self)
                     else Err AssertFailed);
  let w := set_sw w (sw_set_out (sw_outstate self) (outhdr_of h) msg self) in
  w ← sws_io_send w [h; sphdr msg; body msg];
  Ok (set_sw w (sw_set_out (Some NN_SWS_OUTSTATE_SENDING) (outhdr_of h) msg (sw w)), 0).

(** ** Receiving *)

(** [memset] of the two buffers, and the request for the first two bytes. *)
Definition nn_sws_recv_hdr (w : wworld) : result wworld :=
  let i := sin w in
  i ← (if negb (in_continuing i) then _ ← assert_ (bool_decide (in_chunks i = [])); Ok (i_set_chunks [] (in_where i) 0 0 i) else Ok i);
  let i := i_set_control (replicate (Z.to_nat NN_SWS_PAYLOAD_MAX_LENGTH) 0) (i_set_hdr (replicate NN_SWS_FRAME_MAX_HDR_LEN 0) i) in
  sws_io_recv (set_sin w (i_set_state (Some NN_SWS_INSTATE_RECV_HDR) i)) (Z.of_nat NN_SWS_FRAME_SIZE_INITIAL).

(** The property the opcode is handed out in: 24 bytes, seven of which are
    not initialised, and which is its own length. *)
Definition opcode_cmsg (junk : bytes) (opcode_hdr : Z) : bytes :=
  le_bytes 8 (NN_CMSG_SPACE 1) ++ le_bytes 4 NN_WS ++ le_bytes 4 NN_WS_MSG_TYPE ++ [opcode_hdr] ++ junk.

(** [nn_msg_init] of the size of the message, and the copies into its body. *)
Definition reassemble (alloc : Z -> bool) (i : inbound) : result bytes :=
  let b := concat (in_chunks i) in
  _ ← assert_ (alloc (in_total i));
  if in_total i <? Z.of_nat (length b) then Err BadAccess
  else _ ← assert_ (Z.of_nat (length b) =? in_total i); Ok b.

Definition has_bit (b m : Z) : bool := negb (Z.land b m =? 0).

Section Receive.
  Context (alloc : Z -> bool) (junk : bytes).

Definition nn_sws_recv (w : wworld) : result (wworld * Z * nn_msg) :=
  _ ← assert_ (bool_decide (sw_state (sw w) = NN_SWS_STATE_ACTIVE));
  let i := sin w in
  match in_state i with
  | Some NN_SWS_INSTATE_RECVD_CHUNKED =>
      let opcode_hdr := in_msg_hdr i in
      _ ← assert_ (in_final i);
      _ ← assert_ (has_bit opcode_hdr NN_SWS_FRAME_BITMASK_FIN);
      let opcode_hdr := Z.land opcode_hdr 0x7F in
      let opcode := Z.land opcode_hdr NN_SWS_FRAME_BITMASK_OPCODE in
      _ ← assert_ ((opcode =? NN_WS_OPCODE_BINARY) || (opcode =? NN_WS_OPCODE_TEXT));
      b ← reassemble alloc i;
      let i := i_set_kind (in_is_control i) false (i_set_chunks [] (in_where i) (in_chunk_len i) (in_total i) i) in
      w ← nn_sws_recv_hdr (set_sin w i);
      Ok (w, 0, Msg [] (opcode_cmsg junk opcode_hdr) b)
  | Some NN_SWS_INSTATE_RECVD_CONTROL =>
      opcode_hdr ← rd (in_hdr i) 0;
      _ ← assert_ (in_final i);
      _ ← assert_ (has_bit opcode_hdr NN_SWS_FRAME_BITMASK_FIN);
      let opcode_hdr := Z.land opcode_hdr 0x7F in
      let opcode := Z.land opcode_hdr NN_SWS_FRAME_BITMASK_OPCODE in
      _ ← assert_ ((opcode =? NN_WS_OPCODE_PING) || (opcode =? NN_WS_OPCODE_PONG));
      let b := take (Z.to_nat (in_chunk_len i)) (in_control i) in
      w ← nn_sws_recv_hdr w;
      Ok (w, 0, Msg [] (opcode_cmsg junk opcode_hdr) b)
  | _ => Err AssertFailed
  end.

#[export] Instance sws_transport : Transport wconn := {|
  tr_backlog c := match in_state (sw_in (wc_sws c)) with Some NN_SWS_INSTATE_RECVD_CHUNKED | Some NN_SWS_INSTATE_RECVD_CONTROL => 1%nat | _ => 0%nat end;
  vf_send w p m := nn_sws_send w m;
  vf_recv w p := nn_sws_recv w
|}.

(** ** The state machine

    [protocol], [ispeer], [rcvmaxsize]: the socket; [alloc n]: [n] bytes can
    be allocated; [le], [memory], [rand_key]: for the handshake. *)
Context {S : Type} (nn_sock_add : S -> wworld -> addr -> result (S * wworld * Z)) (nn_sock_rm : S -> wworld -> addr -> result (S * wworld)).
Context (protocol : Z) (ispeer : Z -> bool) (rcvmaxsize : Z) (le : bool) (memory rand_key : bytes).

(** The close frame; [fail_msg_len] counts the close code twice. *)
Definition close_frame (self : nn_sws) (code : Z) (reason : bytes) : result (bytes * Z * nn_sws) :=
  let payload_len := Z.of_nat (length reason) + Z.of_nat NN_SWS_CLOSE_CODE_LEN in
  _ ← assert_ (payload_len <=? NN_SWS_PAYLOAD_MAX_LENGTH);
  status ← nn_puts (replicate NN_SWS_CLOSE_CODE_LEN 0) (u16 code);
  let payload := status ++ reason in
  '(frame, self) ← (if bool_decide (sw_mode self = NN_WS_SERVER) then
                      Ok ([Z.lor NN_SWS_FRAME_BITMASK_FIN NN_WS_OPCODE_CLOSE; u8 payload_len] ++ payload, self)
                    else if bool_decide (sw_mode self = NN_WS_CLIENT) then
                      let '(mask, self) := next_mask self in
                      '(payload, _) ← nn_sws_mask_payload payload mask 0;
                      Ok ([Z.lor NN_SWS_FRAME_BITMASK_FIN NN_WS_OPCODE_CLOSE; Z.lor (u8 payload_len) NN_SWS_FRAME_BITMASK_MASKED] ++ mask ++ payload, self)
                    else Err AssertFailed);
  let fail_msg := frame ++ drop (length frame) (sw_fail_msg self) in
  let fail_msg_len := Z.of_nat (length frame) + Z.of_nat NN_SWS_CLOSE_CODE_LEN in
  if Z.of_nat (length (sw_fail_msg self)) <? fail_msg_len then Err BadAccess
  else Ok (fail_msg, fail_msg_len, sw_set_fail fail_msg self).

Definition nn_sws_fail_conn (s : S) (w : wworld) (code : Z) (reason : String.string) : result (S * wworld) :=
  _ ← assert_ (bool_decide (sw_state (sw w) = NN_SWS_STATE_ACTIVE));
  let w := sws_in_goto w NN_SWS_INSTATE_CLOSED in
  '(s, w) ← nn_pipebase_stop nn_sock_rm s w ws_pipe;
  let i := sin w in
  let w := set_sin w (i_set_chunks [] (in_where i) (in_chunk_len i) (in_total i) i) in
  '(fail_msg, fail_msg_len, self) ← close_frame (sw w) code (text reason);
  let w := set_sw w self in
  if bool_decide (sw_outstate self = Some NN_SWS_OUTSTATE_IDLE) then
    w ← sws_io_send w [take (Z.to_nat fail_msg_len) fail_msg];
    let w := set_sw w (sw_set_out (Some NN_SWS_OUTSTATE_SENDING) (sw_outhdr (sw w)) (sw_outmsg (sw w)) (sw w)) in
    Ok (s, sws_goto w NN_SWS_STATE_CLOSING_CONNECTION)
  else
    w ← sws_raise (sws_goto w NN_SWS_STATE_DONE) SDone NN_SWS_RETURN_CLOSE_HANDSHAKE;
    Ok (s, w).

#[local] Arguments nn_sws_fail_conn _ _ _ _%_string_scope.

Definition sws_received (s : S) (w : wworld) (st : sws_instate) : result (S * wworld) :=
  w ← nn_pipebase_received (sws_in_goto w st) ws_pipe; Ok (s, w).

Definition recv_next (s : S) (w : wworld) : result (S * wworld) := w ← nn_sws_recv_hdr w; Ok (s, w).

(** The current chunk: the contents of the buffer it is received into. *)
Definition current_chunk (i : inbound) : bytes :=
  if in_where i then take (Z.to_nat (in_chunk_len i)) (in_control i) else default [] (last (in_chunks i)).
Definition set_current (b : bytes) (i : inbound) : inbound :=
  if in_where i then i_set_control (b ++ drop (length b) (in_control i)) i
  else i_set_chunks (take (length (in_chunks i) - 1) (in_chunks i) ++ [b]) (in_where i) (in_chunk_len i) (in_total i) i.

(** Completing a code point that was cut off: the bytes of the fragment, the
    bytes left, and what ended the loop. *)
Fixpoint frag_loop (frag pos : bytes) : result (bytes * bytes * option Z) :=
  match pos with
  | [] => Ok (frag, [], None)
  | c :: pos =>
      if (NN_SWS_UTF8_MAX_CODEPOINT_LEN <=? length frag)%nat then Err BadAccess
      else
        let frag := frag ++ [c] in
        r ← nn_utf8_code_point frag (length frag);
        if 0 <? r then Ok (frag, pos, None)
        else if (r =? NN_SWS_UTF8_INVALID) || (r =? NN_SWS_UTF8_FRAGMENT) then Ok (frag, pos, Some r)
        else frag_loop frag pos
  end.

Definition truncated (s : S) (w : wworld) : result (S * wworld) :=
  if in_final (sin w) then nn_sws_fail_conn s w NN_SWS_CLOSE_ERR_INVALID_FRAME "Truncated UTF-8 payload with invalid code point."
  else recv_next s w.

Definition nn_sws_validate_utf8_chunk (s : S) (w : wworld) : result (S * wworld) :=
  let pos := current_chunk (sin w) in
  '(pos, w, stop) ← (if (0 <? length (in_frag (sin w)))%nat then
                       _ ← assert_ (length (in_frag (sin w)) <? NN_SWS_UTF8_MAX_CODEPOINT_LEN)%nat;
                       '(frag, pos, stop) ← frag_loop (in_frag (sin w)) pos;
                       Ok (pos, set_sin w (i_set_frag frag (sin w)), stop)
                     else Ok (pos, w, None));
  match stop with
  | Some r =>
      if r =? NN_SWS_UTF8_INVALID then nn_sws_fail_conn s w NN_SWS_CLOSE_ERR_INVALID_FRAME "Invalid UTF-8 code point split on previous frame."
      else truncated s w
  | None =>
      _ ← assert_ (length (in_frag (sin w)) <? NN_SWS_UTF8_MAX_CODEPOINT_LEN)%nat;
      '(rest, stop) ← utf8_scan (Datatypes.S (length pos)) pos;
      match stop with
      | Some r =>
          if r =? NN_SWS_UTF8_INVALID then
            nn_sws_fail_conn s (set_sin w (i_set_frag [] (sin w))) NN_SWS_CLOSE_ERR_INVALID_FRAME "Invalid UTF-8 code point in payload."
          else
            _ ← assert_ (length rest <? NN_SWS_UTF8_MAX_CODEPOINT_LEN)%nat;
            truncated s (set_sin w (i_set_frag rest (sin w)))
      | None =>
          let w := set_sin w (i_set_frag [] (sin w)) in
          if in_final (sin w) then sws_received s w NN_SWS_INSTATE_RECVD_CHUNKED else recv_next s w
      end
  end.

Definition close_code_known (c : Z) : bool :=
  (c =? NN_SWS_CLOSE_NORMAL) || (c =? NN_SWS_CLOSE_GOING_AWAY) || (c =? NN_SWS_CLOSE_ERR_PROTO) || (c =? NN_SWS_CLOSE_ERR_WUT) ||
  (c =? NN_SWS_CLOSE_ERR_INVALID_FRAME) || (c =? NN_SWS_CLOSE_ERR_POLICY) || (c =? NN_SWS_CLOSE_ERR_TOOBIG) ||
  (c =? NN_SWS_CLOSE_ERR_EXTENSION) || (c =? NN_SWS_CLOSE_ERR_SERVER) || ((3000 <=? c) && (c <=? 3999)) || ((4000 <=? c) && (c <=? 4999)).

Definition nn_sws_acknowledge_close_handshake (s : S) (w : wworld) : result (S * wworld) :=
  let len := in_chunk_len (sin w) in
  if len =? 0 then nn_sws_fail_conn s w NN_SWS_CLOSE_NORMAL ""
  else
    _ ← assert_ (Z.of_nat NN_SWS_CLOSE_CODE_LEN <=? len);
    let chunk := current_chunk (sin w) in
    let pos := drop NN_SWS_CLOSE_CODE_LEN chunk in
    '(_, stop) ← utf8_scan (Datatypes.S (length pos)) pos;
    match stop with
    | Some _ => nn_sws_fail_conn s w NN_SWS_CLOSE_ERR_PROTO "Invalid UTF-8 sent as Close Reason."
    | None =>
        close_code ← nn_gets chunk;
        if close_code_known close_code then nn_sws_fail_conn s w close_code ""
        else nn_sws_fail_conn s w NN_SWS_CLOSE_ERR_PROTO "Unrecognized close code."
    end.

(** ** A frame arrives *)

Definition reason_text (r : String.string) : String.string := r.
#[local] Arguments reason_text _%_string_scope.

(** What the mode demands of the mask bit: the size of the mask. *)
Definition mask_rule (mode : Z) (masked : bool) : result (nat + String.string)%type :=
  if bool_decide (mode = NN_WS_SERVER) then
    Ok (if masked then inl NN_SWS_FRAME_SIZE_MASK else inr (reason_text "Server expects MASK bit to be set."))
  else if bool_decide (mode = NN_WS_CLIENT) then
    Ok (if masked then inr (reason_text "Client expects MASK bit to be unset.") else inl 0%nat)
  else Err AssertFailed.

Definition payload_ext (payload_ctl : Z) : result nat :=
  if payload_ctl <=? NN_SWS_PAYLOAD_MAX_LENGTH then Ok 0%nat
  else if payload_ctl =? NN_SWS_PAYLOAD_FRAME_16 then Ok NN_SWS_FRAME_SIZE_PAYLOAD_16
  else if payload_ctl =? NN_SWS_PAYLOAD_FRAME_63 then Ok NN_SWS_FRAME_SIZE_PAYLOAD_63
  else Err AssertFailed.

(** The payload of the current frame is asked for, at the end of both header
    states; the limit is for messages, not for control frames. *)
Definition receive_payload (s : S) (w : wworld) (too_big : String.string) : result (S * wworld) :=
  let i := sin w in
  let len := in_chunk_len i in
  if in_is_control i then
    let i := i_set_state (Some NN_SWS_INSTATE_RECV_PAYLOAD) (i_set_chunks (in_chunks i) true len (in_total i) i) in
    w ← sws_io_recv (set_sin w i) len; Ok (s, w)
  else
    let total := u64 (in_total i + len) in
    let w := set_sin w (i_set_chunks (in_chunks i) (in_where i) len total i) in
    if bool_decide (0 <= rcvmaxsize) && bool_decide (total > rcvmaxsize) then nn_sws_fail_conn s w NN_SWS_CLOSE_ERR_TOOBIG too_big
    else
      _ ← assert_ (alloc len);
      let i := i_set_state (Some NN_SWS_INSTATE_RECV_PAYLOAD) (i_set_chunks (in_chunks i ++ [[]]) false len total (sin w)) in
      w ← sws_io_recv (set_sin w i) len; Ok (s, w).

#[local] Arguments receive_payload _ _ _%_string_scope.

(** A frame of two bytes. *)
Definition empty_frame (i : inbound) : bool := (in_ext_len i =? 0)%nat && (in_payload_ctl i =? 0).

Definition with_len (w : wworld) (len : Z) : wworld := set_sin w (i_set_chunks (in_chunks (sin w)) (in_where (sin w)) len (in_total (sin w)) (sin w)).

(** The rest of the header, or the payload, of a frame that was accepted. *)
Definition header_rest (s : S) (w : wworld) : result (S * wworld) :=
  let i := sin w in
  if (in_ext_len i =? 0)%nat then
    _ ← assert_ (bool_decide (sw_mode (sw w) = NN_WS_CLIENT));
    _ ← assert_ ((0 <? in_payload_ctl i) && (in_payload_ctl i <=? NN_SWS_PAYLOAD_MAX_LENGTH));
    receive_payload s (with_len w (in_payload_ctl i)) "Message larger than application allows."
  else
    let w := sws_in_goto w NN_SWS_INSTATE_RECV_HDREXT in
    w ← sws_io_recv w (Z.of_nat (in_ext_len i)); Ok (s, w).

(** An empty frame of a message. *)
Definition empty_data_frame (s : S) (w : wworld) : result (S * wworld) :=
  _ ← assert_ (bool_decide (sw_mode (sw w) = NN_WS_CLIENT));
  let w := with_len w 0 in
  if in_continuing (sin w) then recv_next s w else sws_received s w NN_SWS_INSTATE_RECVD_CHUNKED.

Definition data_frame (s : S) (w : wworld) (continuing : bool) : result (S * wworld) :=
  let w := set_sin w (i_set_kind false continuing (sin w)) in
  if empty_frame (sin w) then empty_data_frame s w else header_rest s w.

Definition as_control (w : wworld) : wworld := set_sin w (i_set_kind true (in_continuing (sin w)) (sin w)).

(** PING and PONG *)
Definition ping_frame (s : S) (w : wworld) : result (S * wworld) :=
  let w := as_control w in
  let i := sin w in
  if NN_SWS_PAYLOAD_MAX_LENGTH <? in_payload_ctl i then nn_sws_fail_conn s w NN_SWS_CLOSE_ERR_PROTO "Control frame payload exceeds allowable length."
  else if negb (in_final i) then nn_sws_fail_conn s w NN_SWS_CLOSE_ERR_PROTO "Cannot fragment control message (FIN=0)."
  else if empty_frame i then sws_received s (with_len w 0) NN_SWS_INSTATE_RECVD_CONTROL
  else header_rest s w.

Definition close_frame_received (s : S) (w : wworld) : result (S * wworld) :=
  let w := as_control w in
  let i := sin w in
  if negb (in_final i) then nn_sws_fail_conn s w NN_SWS_CLOSE_ERR_PROTO "Cannot fragment control message (FIN=0)."
  else if NN_SWS_PAYLOAD_MAX_LENGTH <? in_payload_ctl i then nn_sws_fail_conn s w NN_SWS_CLOSE_ERR_PROTO "Control frame payload exceeds allowable length."
  else if in_payload_ctl i =? 1 then nn_sws_fail_conn s w NN_SWS_CLOSE_ERR_PROTO "Expected 2byte close code."
  else if empty_frame i then nn_sws_acknowledge_close_handshake s (with_len w 0)
  else header_rest s w.

(** RECV_HDR *)
Definition received_hdr (s : S) (w : wworld) : result (S * wworld) :=
  let d := in_buf (wus w) in
  let w := set_sin w (i_set_hdr (d ++ drop (length d) (in_hdr (sin w))) (sin w)) in
  let i := sin w in
  b0 ← rd (in_hdr i) 0; b1 ← rd (in_hdr i) 1;
  if has_bit b0 NN_SWS_FRAME_BITMASK_RSV1 || has_bit b0 NN_SWS_FRAME_BITMASK_RSV2 || has_bit b0 NN_SWS_FRAME_BITMASK_RSV3 then
    nn_sws_fail_conn s w NN_SWS_CLOSE_ERR_PROTO "RSV1, RSV2, and RSV3 must be unset."
  else
    let final := has_bit b0 NN_SWS_FRAME_BITMASK_FIN in
    let masked := has_bit b1 NN_SWS_FRAME_BITMASK_MASKED in
    rule ← mask_rule (sw_mode (sw w)) masked;
    match rule with
    | inr reason =>
        let w := set_sin w (i_set_parsed final masked (in_ext_len i) (in_opcode i) (in_payload_ctl i) (in_msg_hdr i) i) in
        nn_sws_fail_conn s w NN_SWS_CLOSE_ERR_PROTO reason
    | inl mask_len =>
        let opcode := Z.land b0 NN_SWS_FRAME_BITMASK_OPCODE in
        let payload_ctl := Z.land b1 NN_SWS_FRAME_BITMASK_LENGTH in
        let w' := set_sin w (i_set_parsed final masked mask_len opcode payload_ctl (in_msg_hdr i) i) in
        if negb (in_continuing i) && (opcode =? NN_WS_OPCODE_FRAGMENT) then nn_sws_fail_conn s w' NN_SWS_CLOSE_ERR_PROTO "No message to continue."
        else
          let msg_hdr := if negb (in_continuing i) then Z.lor b0 NN_SWS_FRAME_BITMASK_FIN else in_msg_hdr i in
          ext ← payload_ext payload_ctl;
          let w := set_sin w (i_set_parsed final masked (mask_len + ext) opcode payload_ctl msg_hdr i) in
          if (opcode =? NN_WS_OPCODE_TEXT) || (opcode =? NN_WS_OPCODE_BINARY) then
            if in_continuing i then
              nn_sws_fail_conn s (set_sin w (i_set_kind false (in_continuing i) (sin w))) NN_SWS_CLOSE_ERR_PROTO "Expected continuation frame opcode."
            else data_frame s w (negb final)
          else if opcode =? NN_WS_OPCODE_FRAGMENT then data_frame s w (negb final)
          else if (opcode =? NN_WS_OPCODE_PING) || (opcode =? NN_WS_OPCODE_PONG) then ping_frame s w
          else if opcode =? NN_WS_OPCODE_CLOSE then close_frame_received s w
          else nn_sws_fail_conn s w NN_SWS_CLOSE_ERR_PROTO "Invalid opcode."
    end.

(** RECV_HDREXT: the size, and the place of the mask. *)
Definition ext_size (i : inbound) : result (option (Z * nat)) :=
  let ext := drop NN_SWS_FRAME_SIZE_INITIAL (in_hdr i) in
  if in_payload_ctl i <=? NN_SWS_PAYLOAD_MAX_LENGTH then Ok (Some (in_payload_ctl i, NN_SWS_FRAME_SIZE_INITIAL))
  else if in_payload_ctl i =? NN_SWS_PAYLOAD_FRAME_16 then n ← nn_gets ext; Ok (Some (n, (NN_SWS_FRAME_SIZE_INITIAL + NN_SWS_FRAME_SIZE_PAYLOAD_16)%nat))
  else if in_payload_ctl i =? NN_SWS_PAYLOAD_FRAME_63 then n ← nn_getll ext; Ok (Some (n, (NN_SWS_FRAME_SIZE_INITIAL + NN_SWS_FRAME_SIZE_PAYLOAD_63)%nat))
  else Ok None.

Definition received_hdrext (s : S) (w : wworld) : result (S * wworld) :=
  _ ← assert_ (0 <? in_ext_len (sin w))%nat;
  let d := in_buf (wus w) in
  let i := sin w in
  let i := i_set_hdr (take NN_SWS_FRAME_SIZE_INITIAL (in_hdr i) ++ d ++ drop (NN_SWS_FRAME_SIZE_INITIAL + length d) (in_hdr i)) i in
  size ← ext_size i;
  match size with
  | None => nn_sws_fail_conn s (set_sin w i) NN_SWS_CLOSE_ERR_PROTO "Invalid payload length."
  | Some (len, off) =>
      let w := set_sin w (i_set_mask (if in_masked i then Some off else None) len i) in
      if len =? 0 then
        if in_final i then
          if in_opcode i =? NN_WS_OPCODE_CLOSE then nn_sws_acknowledge_close_handshake s w
          else sws_received s w (if in_is_control i then NN_SWS_INSTATE_RECVD_CONTROL else NN_SWS_INSTATE_RECVD_CHUNKED)
        else recv_next s w
      else receive_payload s w "Message size exceeds limit."
  end.

(** RECV_PAYLOAD *)
Definition chunk_complete (s : S) (w : wworld) : result (S * wworld) :=
  if in_final (sin w) then sws_received s w NN_SWS_INSTATE_RECVD_CHUNKED else recv_next s w.

Definition unmasked (i : inbound) (d : bytes) : result bytes :=
  if in_masked i then
    off ← deref (in_mask i);
    '(d, _) ← nn_sws_mask_payload d (take NN_SWS_FRAME_SIZE_MASK (drop off (in_hdr i))) 0; Ok d
  else Ok d.

Definition received_payload (s : S) (w : wworld) : result (S * wworld) :=
  d ← unmasked (sin w) (in_buf (wus w));
  let w := set_sin w (set_current d (sin w)) in
  let i := sin w in
  if in_opcode i =? NN_WS_OPCODE_TEXT then nn_sws_validate_utf8_chunk s w
  else if in_opcode i =? NN_WS_OPCODE_BINARY then chunk_complete s w
  else if in_opcode i =? NN_WS_OPCODE_FRAGMENT then
    if Z.land (in_msg_hdr i) NN_SWS_FRAME_BITMASK_OPCODE =? NN_WS_OPCODE_TEXT then nn_sws_validate_utf8_chunk s w else chunk_complete s w
  else if (in_opcode i =? NN_WS_OPCODE_PING) || (in_opcode i =? NN_WS_OPCODE_PONG) then sws_received s w NN_SWS_INSTATE_RECVD_CONTROL
  else if in_opcode i =? NN_WS_OPCODE_CLOSE then nn_sws_acknowledge_close_handshake s w
  else Err AssertFailed.

Definition sws_done (s : S) (w : wworld) (rc : Z) : result (S * wworld) :=
  w ← sws_raise (sws_goto w NN_SWS_STATE_DONE) SDone rc; Ok (s, w).

Definition handshake_start (w : wworld) : result wworld :=
  '(x, h) ← nn_ws_handshake_start protocol ispeer le memory rand_key (wc_io (wc w)) (wc_hs (wc w)) (sw_mode (sw w)) (sw_resource (sw w)) (sw_remote_host (sw w));
  Ok (set_hs w x h).
Definition handshake_stop (w : wworld) : result wworld :=
  '(x, h) ← nn_ws_handshake_stop (wc_io (wc w)) (wc_hs (wc w)); Ok (set_hs w x h).

Definition nn_sws_handler (s : S) (w : wworld) (src type : Z) : result (S * wworld) :=
  match sw_state (sw w) with
  | NN_SWS_STATE_IDLE =>
      if bool_decide (src = NN_FSM_ACTION) && bool_decide (type = NN_FSM_START) then
        w ← handshake_start w; Ok (s, sws_goto w NN_SWS_STATE_HANDSHAKE)
      else Err AssertFailed
  | NN_SWS_STATE_HANDSHAKE =>
      if bool_decide (src = NN_SWS_SRC_HANDSHAKE) then
        if bool_decide (type = NN_WS_HANDSHAKE_OK) then
          w ← handshake_stop w; Ok (s, sws_goto w NN_SWS_STATE_STOPPING_HANDSHAKE)
        else if bool_decide (type = NN_WS_HANDSHAKE_ERROR) then sws_done s w NN_SWS_RETURN_CLOSE_HANDSHAKE
        else Err AssertFailed
      else Err AssertFailed
  | NN_SWS_STATE_STOPPING_HANDSHAKE =>
      if bool_decide (src = NN_SWS_SRC_HANDSHAKE) && bool_decide (type = NN_WS_HANDSHAKE_STOPPED) then
        '(s, w, rc) ← nn_pipebase_start nn_sock_add s w ws_pipe;
        if bool_decide (rc < 0) then sws_done s w NN_SWS_RETURN_ERROR
        else
          w ← nn_sws_recv_hdr w;
          let w := set_sw w (sw_set_out (Some NN_SWS_OUTSTATE_IDLE) (sw_outhdr (sw w)) (sw_outmsg (sw w)) (sw w)) in
          Ok (s, sws_goto w NN_SWS_STATE_ACTIVE)
      else Err AssertFailed
  | NN_SWS_STATE_ACTIVE =>
      if negb (bool_decide (src = NN_SWS_SRC_USOCK)) then Err AssertFailed
      else if bool_decide (type = NN_USOCK_SENT) then
        _ ← assert_ (bool_decide (sw_outstate (sw w) = Some NN_SWS_OUTSTATE_SENDING));
        let w := set_sw w (sw_set_out (Some NN_SWS_OUTSTATE_IDLE) (sw_outhdr (sw w)) no_msg (sw w)) in
        w ← nn_pipebase_sent w ws_pipe;
        Ok (s, w)
      else if bool_decide (type = NN_USOCK_RECEIVED) then
        match in_state (sin w) with
        | Some NN_SWS_INSTATE_RECV_HDR => received_hdr s w
        | Some NN_SWS_INSTATE_RECV_HDREXT => received_hdrext s w
        | Some NN_SWS_INSTATE_RECV_PAYLOAD => received_payload s w
        | _ => Err AssertFailed
        end
      else if bool_decide (type = NN_USOCK_SHUTDOWN) then
        '(s, w) ← nn_pipebase_stop nn_sock_rm s w ws_pipe;
        Ok (s, sws_goto w NN_SWS_STATE_BROKEN_CONNECTION)
      else if bool_decide (type = NN_USOCK_ERROR) then
        '(s, w) ← nn_pipebase_stop nn_sock_rm s w ws_pipe;
        sws_done s w NN_SWS_RETURN_ERROR
      else Err AssertFailed
  | NN_SWS_STATE_CLOSING_CONNECTION =>
      if negb (bool_decide (src = NN_SWS_SRC_USOCK)) then Err AssertFailed
      else if bool_decide (type = NN_USOCK_SENT) then
        _ ← assert_ (bool_decide (sw_outstate (sw w) = Some NN_SWS_OUTSTATE_SENDING));
        let w := set_sw w (sw_set_out (Some NN_SWS_OUTSTATE_IDLE) (sw_outhdr (sw w)) (sw_outmsg (sw w)) (sw w)) in
        sws_done s w NN_SWS_RETURN_CLOSE_HANDSHAKE
      else if bool_decide (type = NN_USOCK_SHUTDOWN) then Ok (s, w)
      else if bool_decide (type = NN_USOCK_ERROR) then sws_done s w NN_SWS_RETURN_ERROR
      else Err AssertFailed
  | NN_SWS_STATE_BROKEN_CONNECTION =>
      if bool_decide (src = NN_SWS_SRC_USOCK) && bool_decide (type = NN_USOCK_ERROR) then sws_done s w NN_SWS_RETURN_ERROR
      else Err AssertFailed
  | _ => Err AssertFailed
  end.

Definition nn_sws_shutdown (s : S) (w : wworld) (src type : Z) : result (S * wworld) :=
  '(s, w) ← (if bool_decide (src = NN_FSM_ACTION) && bool_decide (type = NN_FSM_STOP) then
               '(s, w) ← nn_pipebase_stop nn_sock_rm s w ws_pipe;
               w ← handshake_stop w;
               Ok (s, sws_goto w NN_SWS_STATE_STOPPING)
             else Ok (s, w));
  if bool_decide (sw_state (sw w) = NN_SWS_STATE_STOPPING) then
    if nn_ws_handshake_isidle (io_q (wc_io (wc w))) (wc_hs (wc w)) then
      let '(x, _) := io_swap_owner (wc_io (wc w)) (sw_owner (sw w)) in
      let w := set_sw (set_wio w x) (sw_set_state NN_SWS_STATE_IDLE (sw_set_usock false (None, -1) (sw w))) in
      _ ← assert_ (bool_decide (sw_fsm (sw w) = NN_FSM_STATE_STOPPING));
      w ← sws_raise w SStopped NN_SWS_RETURN_STOPPED;
      Ok (s, set_sw w (sw_set_fsm NN_FSM_STATE_IDLE (sw w)))
    else Ok (s, w)
  else Err AssertFailed.

Definition sws_feed (s : S) (w : wworld) (src type : Z) : result (S * wworld) :=
  if negb (bool_decide (sw_fsm (sw w) = NN_FSM_STATE_STOPPING)) then nn_sws_handler s w src type
  else nn_sws_shutdown s w src type.

Definition nn_sws_start (s : S) (w : wworld) (mode : Z) (resource host : bytes) (msg_type : Z) : result (S * wworld) :=
  _ ← assert_ (negb (sw_usock (sw w)) && bool_decide ((sw_owner (sw w)).1 = None));
  let '(x, o) := io_swap_owner (wc_io (wc w)) (Some CSession, NN_SWS_SRC_USOCK) in
  let w := set_sw (set_wio w x) (sw_set_peer mode resource host msg_type (sw_set_usock true o (sw w))) in
  _ ← assert_ (nn_sws_isidle (io_q (wc_io (wc w))) (sw w));
  '(s, w) ← nn_sws_handler s w NN_FSM_ACTION NN_FSM_START;
  Ok (s, set_sw w (sw_set_fsm NN_FSM_STATE_ACTIVE (sw w))).

Definition nn_sws_stop (s : S) (w : wworld) : result (S * wworld) :=
  if negb (bool_decide (sw_fsm (sw w) = NN_FSM_STATE_ACTIVE)) then Ok (s, w)
  else nn_sws_shutdown s (set_sw w (sw_set_fsm NN_FSM_STATE_STOPPING (sw w))) NN_FSM_ACTION NN_FSM_STOP.

(** ** The context of a connection *)

Definition ws_process_event (sws : S * wworld) (e : nn_fsm_event) : result (S * wworld) :=
  let '(s, w) := sws in
  let h := wc_hs (wc w) in
  let h := match ev_obj e with (CTimer, sl) => hs_set_timer (timer_taken sl (hs_timer h)) h | _ => h end in
  let w := set_hs w (wc_io (wc w)) h in
  match ev_fsm e with
  | Some CHeader =>
      '(x, h) ← ws_handshake_feed protocol ispeer le memory rand_key (wc_io (wc w)) h (ev_src e) (ev_type e);
      Ok (s, set_hs w x h)
  | Some CSession => sws_feed s w (ev_src e) (ev_type e)
  | Some COwner => Ok (s, set_wc w (WConn (wc_io (wc w)) h (sw w) (wc_told (wc w) ++ [(ev_src e, ev_type e)])))
  | _ => Err BadAccess
  end.

Definition ws_events (x : S * wworld) : nn_ctx := io_q (wc_io (wc x.2)).
Definition ws_with_events (x : S * wworld) (q : nn_ctx) : S * wworld := (x.1, set_wio x.2 (io_set_q q (wc_io (wc x.2)))).

(** A step raises a few events for every frame that is in the batch buffer. *)
Definition ws_leave (fuel : nat) (x : S * wworld) : result (S * wworld) := nn_ctx_leave ws_events ws_with_events ws_process_event fuel x.

End Receive.
