(* ===== verification/Wsframes.v ===== *)
(** * Frames of RFC 6455

    What a peer may send, as data: frames, their bytes, and the messages a
    sequence of frames stands for.  The header of a frame, read back by the
    session of the file [Sws]. *)

From S2P Require Import Prelude NNList Wire Timer Pipe Ctx Usock Utf8 Cmsg Sws.
Local Open Scope Z_scope.

Record wframe := WFrame { f_fin : bool; f_op : Z; f_mask : option bytes; f_payload : bytes }.

Definition size_code (n : Z) : Z := if n <=? 125 then n else if n <=? 65535 then 126 else 127.
Definition size_ext (n : Z) : bytes := if n <=? 125 then [] else if n <=? 65535 then be_bytes 2 n else be_bytes 8 n.

Definition apply_mask (mask p : bytes) : bytes := imap (fun i b => Z.lxor b (mask !!! (i mod 4)%nat)) p.
Definition on_wire (f : wframe) : bytes := match f_mask f with Some m => apply_mask m (f_payload f) | None => f_payload f end.
Definition f_len (f : wframe) : Z := Z.of_nat (length (f_payload f)).

Definition first_byte_of (fin : bool) (op : Z) : Z := (if fin then 0x80 else 0) + op.
Definition second_byte_of (masked : bool) (code : Z) : Z := (if masked then 0x80 else 0) + code.
Definition is_masked (f : wframe) : bool := match f_mask f with Some _ => true | None => false end.

Definition head2 (f : wframe) : bytes := [first_byte_of (f_fin f) (f_op f); second_byte_of (is_masked f) (size_code (f_len f))].
Definition head_ext (f : wframe) : bytes := size_ext (f_len f) ++ default [] (f_mask f).
Definition encode (f : wframe) : bytes := head2 f ++ head_ext f ++ on_wire f.

(** ** Messages

    The message that is being assembled: its opcode and the bytes so far. *)
Abbreviation partial := (option (Z * bytes)).

Definition is_control_op (op : Z) : bool := (op =? NN_WS_OPCODE_PING) || (op =? NN_WS_OPCODE_PONG).
Definition is_data_op (op : Z) : bool := (op =? NN_WS_OPCODE_TEXT) || (op =? NN_WS_OPCODE_BINARY).

(** One frame: the state after it, and the message it completes. *)
Definition take_frame (a : partial) (f : wframe) : option (partial * option (Z * bytes)) :=
  if is_control_op (f_op f) then if f_fin f then Some (a, Some (f_op f, f_payload f)) else None
  else
    m ← (if is_data_op (f_op f) then match a with None => Some (f_op f, f_payload f) | Some _ => None end
         else if f_op f =? NN_WS_OPCODE_FRAGMENT then match a with Some (op, b) => Some (op, b ++ f_payload f) | None => None end
         else None);
    Some (if f_fin f then (None, Some m) else (Some m, None)).

(** The messages of a sequence of frames. *)
Fixpoint assemble (a : partial) (q : list wframe) : option (list (Z * bytes)) :=
  match q with
  | [] => Some []
  | f :: q =>
      '(a, m) ← take_frame a f; ms ← assemble a q;
      Some (match m with Some m => m :: ms | None => ms end)
  end.

(** What the session accepts besides: sizes, and texts that are cut only
    between code points. *)
Section Limits.
  Context (rcvmaxsize : Z) (alloc : Z -> bool) (masked : bool).

Definition size_ok (n : Z) : Prop := n < 2 ^ 64 /\ alloc n = true /\ (0 <= rcvmaxsize -> n <= rcvmaxsize).

Definition frame_ok (a : partial) (f : wframe) : Prop :=
  is_masked f = masked /\ (forall m, f_mask f = Some m -> length m = 4%nat /\ bytes_ok m) /\ bytes_ok (f_payload f) /\ f_len f < 2 ^ 32 /\
  if is_control_op (f_op f) then f_len f <= 125
  else alloc (f_len f) = true /\
    let '(op, b) := default (f_op f, []) a in size_ok (Z.of_nat (length b) + f_len f) /\ (op = NN_WS_OPCODE_TEXT -> utf8_text (f_payload f)).

(** A sequence of frames that can be received, with the messages. *)
Fixpoint stream_ok (a : partial) (q : list wframe) (ms : list (Z * bytes)) : Prop :=
  match q with
  | [] => ms = []
  | f :: q =>
      frame_ok a f /\ exists a' m ms', take_frame a f = Some (a', m) /\ stream_ok a' q ms' /\
        ms = match m with Some m => m :: ms' | None => ms' end
  end.

Lemma stream_ok_assemble q : forall a ms, stream_ok a q ms -> assemble a q = Some ms.
Proof.
  induction q as [|f q IH]; intros a ms; cbn [stream_ok assemble]; [by intros ->|]. intros (_ & a' & m & ms' & -> & Hq & ->). cbn. by rewrite (IH a' ms').
Qed.
End Limits.

(** ** The bytes of a header *)

Lemma size_code_range n : 0 <= n -> 0 <= size_code n <= 127.
Proof. intros. unfold size_code. destruct (Z.leb_spec n 125); [lia|]. destruct (Z.leb_spec n 65535); lia. Qed.

Lemma f_len_nonneg f : 0 <= f_len f.
Proof. unfold f_len. lia. Qed.

Definition header_bits (fin : bool) (op : Z) : Prop :=
  let b := first_byte_of fin op in
  has_bit b NN_SWS_FRAME_BITMASK_RSV1 = false /\ has_bit b NN_SWS_FRAME_BITMASK_RSV2 = false /\ has_bit b NN_SWS_FRAME_BITMASK_RSV3 = false /\
  has_bit b NN_SWS_FRAME_BITMASK_FIN = fin /\ Z.land b NN_SWS_FRAME_BITMASK_OPCODE = op /\ Z.lor b NN_SWS_FRAME_BITMASK_FIN = first_byte_of true op /\ in_range 8 b.

#[export] Instance header_bits_dec fin op : Decision (header_bits fin op).
Proof. unfold header_bits, in_range. solve_decision. Defined.

Lemma first_byte_spec fin op : 0 <= op < 16 -> header_bits fin op.
Proof. intros Hop. revert op Hop. apply (below_spec 16 (header_bits fin)). destruct fin; vm_compute; reflexivity. Qed.

Definition second_bits (masked : bool) (code : Z) : Prop :=
  let b := second_byte_of masked code in
  has_bit b NN_SWS_FRAME_BITMASK_MASKED = masked /\ Z.land b NN_SWS_FRAME_BITMASK_LENGTH = code /\ in_range 8 b /\ Z.lor code (if masked then 0x80 else 0) = b.

#[export] Instance second_bits_dec masked code : Decision (second_bits masked code).
Proof. unfold second_bits, in_range. solve_decision. Defined.

Lemma second_byte_spec masked code : 0 <= code <= 127 -> second_bits masked code.
Proof. intros Hc. assert (Hc' : 0 <= code < 128) by lia. revert code Hc' Hc. intros code Hc' _. revert code Hc'. apply (below_spec 128 (second_bits masked)). destruct masked; vm_compute; reflexivity. Qed.

Lemma apply_mask_length m p : length (apply_mask m p) = length p.
Proof. unfold apply_mask. by rewrite length_imap. Qed.

(** Masking twice changes nothing. *)
Lemma apply_mask_twice m p : apply_mask m (apply_mask m p) = p.
Proof.
  unfold apply_mask. apply list_eq. intros i. rewrite !list_lookup_imap. destruct (p !! i) as [b|]; [|done]. cbn. f_equal.
  by rewrite Z.lxor_assoc, Z.lxor_nilpotent, Z.lxor_0_r.
Qed.

Lemma mask_payload_eq p m k : length m = 4%nat -> Z.of_nat (length p) < 2 ^ 32 -> exists k',
  nn_sws_mask_payload p m k = Ok (imap (fun i b => Z.lxor b (m !!! ((i + k) mod 4)%nat)) p, k') /\ k' = ((length p + k) mod 4)%nat.
Proof. intros Hm Hp. unfold nn_sws_mask_payload. rewrite Hm, (proj2 (Z.leb_gt _ _)) by lia. by eexists. Qed.

Lemma mask_payload_0 p m : length m = 4%nat -> Z.of_nat (length p) < 2 ^ 32 -> exists k, nn_sws_mask_payload p m 0 = Ok (apply_mask m p, k).
Proof.
  intros Hm Hp. destruct (mask_payload_eq p m 0 Hm Hp) as (k & E & _). exists k. rewrite E. do 2 f_equal. unfold apply_mask.
  apply imap_ext. intros i b _. by rewrite Nat.add_0_r.
Qed.

(** Masking in two parts, as the header and the body of a message are. *)
Lemma mask_payload_app p1 p2 m : length m = 4%nat -> Z.of_nat (length p1) < 2 ^ 32 -> Z.of_nat (length p2) < 2 ^ 32 -> exists k a b k2,
  nn_sws_mask_payload p1 m 0 = Ok (a, k) /\ nn_sws_mask_payload p2 m k = Ok (b, k2) /\ a ++ b = apply_mask m (p1 ++ p2).
Proof.
  intros Hm H1 H2. destruct (mask_payload_eq p1 m 0 Hm H1) as (k & E1 & Ek). destruct (mask_payload_eq p2 m k Hm H2) as (k2 & E2 & _).
  eexists _, _, _, _. split; [exact E1|]. split; [exact E2|]. unfold apply_mask. rewrite imap_app. f_equal.
  - apply imap_ext. intros i b _. by rewrite Nat.add_0_r.
  - apply imap_ext. intros i b _. assert (E : ((i + k) mod 4 = (length p1 + i) mod 4)%nat) by (rewrite Ek, Nat.add_0_r, Nat.Div0.add_mod_idemp_r; f_equal; lia).
    by rewrite E.
Qed.

Lemma size_ext_length n : 0 <= n -> Ok (length (size_ext n)) = payload_ext (size_code n).
Proof.
  intros Hn. unfold size_ext, size_code, payload_ext, NN_SWS_PAYLOAD_MAX_LENGTH. destruct (Z.leb_spec n 125).
  - by rewrite (proj2 (Z.leb_le _ _)) by lia.
  - by destruct (Z.leb_spec n 65535).
Qed.

(** What [nn_sws_send] puts before the payload. *)
Lemma frame_header_eq f : 0 <= f_op f < 16 -> f_fin f = true -> f_len f < 2 ^ 64 -> frame_header (f_op f) (f_len f) (f_mask f) = Ok (head2 f ++ head_ext f).
Proof.
  intros Hop Hfin Hlen. pose proof (f_len_nonneg f) as H0. unfold frame_header, head2, head_ext. rewrite Hfin.
  destruct (first_byte_spec false (f_op f) Hop) as (_ & _ & _ & _ & _ & Hor & _). unfold first_byte_of at 1 in Hor. rewrite Z.add_0_l in Hor. rewrite Hor.
  assert (Hm : match f_mask f with Some _ => NN_SWS_FRAME_BITMASK_MASKED | None => 0 end = if is_masked f then 0x80 else 0) by (unfold is_masked; by destruct (f_mask f)). rewrite Hm.
  pose proof (second_byte_spec (is_masked f) (size_code (f_len f)) (size_code_range _ H0)) as (_ & _ & _ & Hs). unfold size_code in Hs |- *. unfold size_ext, NN_SWS_PAYLOAD_MAX_LENGTH, NN_SWS_PAYLOAD_MAX_LENGTH_16.
  destruct (Z.leb_spec (f_len f) 125); [|destruct (Z.leb_spec (f_len f) 65535)].
  - mred. rewrite wrap_small by (unfold in_range; lia). by rewrite Hs.
  - rewrite wrap_small by (unfold in_range; lia). cbn [replicate NN_SWS_FRAME_SIZE_PAYLOAD_16]. rewrite nn_puts_eq by lia. mred.
    unfold NN_SWS_PAYLOAD_FRAME_16. change 0x7E with 126. rewrite Hs, app_nil_r. reflexivity.
  - rewrite wrap_small by (unfold in_range; lia). cbn [replicate NN_SWS_FRAME_SIZE_PAYLOAD_63]. rewrite nn_putll_eq by lia. mred.
    unfold NN_SWS_PAYLOAD_FRAME_63. change 0x7F with 127. rewrite Hs, app_nil_r. reflexivity.
Qed.
