(* ===== verification/Wsreceive.v ===== *)
(** * A session receives frames

    The handler of the file [Sws] follows the frames of the file [Wsframes]:
    whatever phase the header, its extension or the payload is in, what it
    asks for next, and what it hands out, are those of the frame. *)

From S2P Require Import Prelude NNList Wire Timer Pipe Ctx Usock Utf8 Cmsg Streamhdr Wsparse Wshandshake Sws Wsframes.
Local Open Scope Z_scope.

(** ** The phases of a frame *)

Definition started (a : partial) : bool := match a with Some _ => true | None => false end.

(** What was assembled before the frame. *)
Definition holds (a : partial) (i : inbound) : Prop :=
  match a with None => in_chunks i = [] /\ in_total i = 0 | Some (op, b) => concat (in_chunks i) = b /\ in_total i = Z.of_nat (length b) end.
Definition partial_ok (a : partial) : Prop :=
  match a with Some (op, b) => is_data_op op = true /\ Z.of_nat (length b) < 2 ^ 64 | None => True end.

(** The opcode of the message, with the final bit. *)
Definition kept_hdr (a : partial) (f : wframe) : Z := first_byte_of true (match a with Some (op, _) => op | None => f_op f end).

Record buffers (i : inbound) : Prop := {
  bu_hdr : length (in_hdr i) = 14%nat;
  bu_control : length (in_control i) = 125%nat;
  bu_frag : in_frag i = []
}.

(** Between two frames. *)
Record between (a : partial) (i : inbound) : Prop := {
  bt_buffers : buffers i;
  bt_continuing : in_continuing i = started a;
  bt_holds : holds a i;
  bt_hdr : match a with Some (op, _) => in_msg_hdr i = first_byte_of true op | None => True end
}.

(** The same before the total is reset. *)
Record resting (a : partial) (i : inbound) : Prop := {
  re_buffers : buffers i;
  re_continuing : in_continuing i = started a;
  re_holds : match a with None => in_chunks i = [] | Some _ => holds a i end;
  re_hdr : match a with Some (op, _) => in_msg_hdr i = first_byte_of true op | None => True end
}.

Lemma between_resting a i : between a i -> resting a i.
Proof. intros [Hb Hc Hh Hm]. constructor; [done..| |done]. destruct a as [[op b]|]; [done|]. by destruct Hh. Qed.

(** The header was accepted. *)
Record parsed (a : partial) (f : wframe) (i : inbound) : Prop := {
  pa_buffers : buffers i;
  pa_opcode : in_opcode i = f_op f;
  pa_ctl : in_payload_ctl i = size_code (f_len f);
  pa_masked : in_masked i = is_masked f;
  pa_final : in_final i = f_fin f;
  pa_control : in_is_control i = is_control_op (f_op f);
  pa_continuing : in_continuing i = if is_control_op (f_op f) then started a else negb (f_fin f);
  pa_msg_hdr : in_msg_hdr i = kept_hdr a f;
  pa_first : in_hdr i !! 0%nat = Some (first_byte_of (f_fin f) (f_op f))
}.

(** The state of the receiver when [cur] bytes of the frame were asked for. *)
Inductive phase (a : partial) (f : wframe) (i : inbound) : Prop :=
  | PExt : parsed a f i -> holds a i -> in_state i = Some NN_SWS_INSTATE_RECV_HDREXT -> in_ext_len i = length (head_ext f) -> (0 < length (head_ext f))%nat ->
      in_hdr i = head2 f ++ replicate 12 0 -> phase a f i
  | PPayload : parsed a f i -> in_state i = Some NN_SWS_INSTATE_RECV_PAYLOAD -> in_chunk_len i = f_len f -> 0 < f_len f ->
      (forall m, f_mask f = Some m -> exists off, in_mask i = Some off /\ take 4 (drop off (in_hdr i)) = m) ->
      in_where i = is_control_op (f_op f) ->
      (if is_control_op (f_op f) then holds a i
       else exists cs, in_chunks i = cs ++ [[]] /\ concat cs = match a with Some (_, b) => b | None => [] end /\
                       in_total i = Z.of_nat (length (concat cs)) + f_len f) -> phase a f i
  | PMessage m a' : take_frame a f = Some (a', Some m) -> parsed a f i -> 
      in_state i = Some (if is_control_op (f_op f) then NN_SWS_INSTATE_RECVD_CONTROL else NN_SWS_INSTATE_RECVD_CHUNKED) ->
      (if is_control_op (f_op f) then holds a i /\ in_chunk_len i = f_len f /\ take (length (f_payload f)) (in_control i) = f_payload f
       else concat (in_chunks i) = m.2 /\ in_total i = Z.of_nat (length m.2)) -> phase a f i.

(** What the handler does at the end. *)
Inductive continuation := KRecv (i : inbound) (n : Z) | KMessage (i : inbound) (st : sws_instate) | KNext (i : inbound).

Definition continues {S : Type} (k : continuation) (s : S) (w : wworld) : result (S * wworld) :=
  match k with
  | KRecv i n => w ← sws_io_recv (set_sin w i) n; Ok (s, w)
  | KMessage i st => sws_received s (set_sin w i) st
  | KNext i => recv_next s (set_sin w i)
  end.

(** [n]: how many bytes of the frame there are up to the next event. *)
Definition asked_for (f : wframe) (i : inbound) : bytes :=
  match in_state i with Some NN_SWS_INSTATE_RECV_HDREXT => head_ext f | _ => on_wire f end.
(** And what there is after that. *)
Definition awaited_after (f : wframe) (i : inbound) : bytes :=
  match in_state i with Some NN_SWS_INSTATE_RECV_HDREXT => on_wire f | _ => [] end.

Definition received_state (st : sws_instate) : Prop := st = NN_SWS_INSTATE_RECVD_CHUNKED \/ st = NN_SWS_INSTATE_RECVD_CONTROL.

(** [rest]: the bytes of the frame that were not consumed. *)
Definition continuation_ok (a : partial) (f : wframe) (rest : bytes) (k : continuation) : Prop :=
  match k with
  | KRecv i n => phase a f i /\ n = Z.of_nat (length (asked_for f i)) /\ 0 < n /\ rest = asked_for f i ++ awaited_after f i /\
      (in_state i = Some NN_SWS_INSTATE_RECV_PAYLOAD \/ in_state i = Some NN_SWS_INSTATE_RECV_HDREXT)
  | KMessage i st => exists a' m, take_frame a f = Some (a', Some m) /\ phase a f (i_set_state (Some st) i) /\ rest = [] /\ received_state st
  | KNext i => exists a', take_frame a f = Some (a', None) /\ between a' i /\ rest = []
  end.

Ltac ws_simpl :=
  unfold sws_goto, sws_in_goto, with_len, as_control, set_sin, set_sw, set_wio, set_hs, set_wc, sin, sw, wus, wc in *;
  cbn [w_net w_pipes w_events set_net set_pipe set_events wc_io wc_hs wc_sws wc_told
       sw_in sw_set_in sw_mode sw_state sw_outstate sw_fsm sw_set_state sw_set_out
       in_state in_hdr in_opcode in_payload_ctl in_masked in_mask in_ext_len in_final in_is_control in_continuing in_frag in_chunks in_where in_chunk_len in_total in_msg_hdr in_control
       i_set_state i_set_hdr i_set_parsed i_set_mask i_set_kind i_set_frag i_set_chunks i_set_control] in *.

Lemma sin_set w i : sin (set_sin w i) = i.
Proof. reflexivity. Qed.
Lemma set_sin_twice w i i' : set_sin (set_sin w i) i' = set_sin w i'.
Proof. reflexivity. Qed.
Lemma set_sin_same w : set_sin w (sin w) = w.
Proof. by destruct w as [[? ? []] ? ? ?]. Qed.

Lemma take_frame_op a f r : take_frame a f = Some r -> 0 <= f_op f < 16 /\
  (is_control_op (f_op f) = true \/ (is_control_op (f_op f) = false /\ is_data_op (f_op f) = true /\ a = None) \/
   (is_control_op (f_op f) = false /\ is_data_op (f_op f) = false /\ f_op f = NN_WS_OPCODE_FRAGMENT /\ started a = true)).
Proof.
  unfold take_frame, is_control_op, is_data_op. destruct (Z.eqb_spec (f_op f) NN_WS_OPCODE_PING) as [->|]; [split; [by split|by left]|].
  destruct (Z.eqb_spec (f_op f) NN_WS_OPCODE_PONG) as [->|]; [split; [by split|by left]|]. cbn [orb].
  destruct (Z.eqb_spec (f_op f) NN_WS_OPCODE_TEXT) as [->|]; [destruct a; [done|]; split; [by split|right; left; done]|].
  destruct (Z.eqb_spec (f_op f) NN_WS_OPCODE_BINARY) as [->|]; [destruct a; [done|]; split; [by split|right; left; done]|]. cbn [orb].
  destruct (Z.eqb_spec (f_op f) NN_WS_OPCODE_FRAGMENT) as [->|]; [|done]. destruct a as [[op b]|]; [|done]. split; [by split|]. right; right. done.
Qed.

Lemma take_frame_final a f a' m : take_frame a f = Some (a', m) -> m = None <-> f_fin f = false.
Proof.
  unfold take_frame. destruct (is_control_op (f_op f)); [destruct (f_fin f); [|done]; naive_solver|].
  destruct (if is_data_op (f_op f) then _ else _) as [m0|]; [|done]. cbn. destruct (f_fin f); naive_solver.
Qed.

Lemma op_not_close a f r : take_frame a f = Some r -> (f_op f =? NN_WS_OPCODE_CLOSE) = false.
Proof.
  intros Ht. destruct (take_frame_op a f r Ht) as [_ H]. destruct (Z.eqb_spec (f_op f) NN_WS_OPCODE_CLOSE) as [E|]; [|done]. rewrite E in H. naive_solver.
Qed.

Lemma data_op_byte op : is_data_op op = true -> 0 <= op < 16 /\ Z.land (first_byte_of true op) NN_SWS_FRAME_BITMASK_OPCODE = op /\ (op =? NN_WS_OPCODE_BINARY) || (op =? NN_WS_OPCODE_TEXT) = true.
Proof. unfold is_data_op. intros [->%Z.eqb_eq| ->%Z.eqb_eq]%orb_prop; by repeat split. Qed.

Lemma data_op_bits op : is_data_op op = true ->
  has_bit (first_byte_of true op) NN_SWS_FRAME_BITMASK_FIN = true /\ Z.land (first_byte_of true op) 0x7F = op /\
  Z.land (Z.land (first_byte_of true op) 0x7F) NN_SWS_FRAME_BITMASK_OPCODE = op /\ (op =? NN_WS_OPCODE_BINARY) || (op =? NN_WS_OPCODE_TEXT) = true.
Proof. unfold is_data_op. intros [->%Z.eqb_eq| ->%Z.eqb_eq]%orb_prop; by repeat split. Qed.
Lemma control_op_byte op : is_control_op op = true ->
  has_bit (first_byte_of true op) NN_SWS_FRAME_BITMASK_FIN = true /\ Z.land (Z.land (first_byte_of true op) 0x7F) NN_SWS_FRAME_BITMASK_OPCODE = op /\
  Z.land (first_byte_of true op) 0x7F = op /\ (op =? NN_WS_OPCODE_PING) || (op =? NN_WS_OPCODE_PONG) = true.
Proof. unfold is_control_op. intros [->%Z.eqb_eq| ->%Z.eqb_eq]%orb_prop; by repeat split. Qed.

Definition received_phase (i : inbound) : Prop := exists st, in_state i = Some st /\ received_state st.

Section Receiver.
  Context {S : Type} (rm : S -> wworld -> addr -> result (S * wworld)) (rcvmaxsize : Z) (alloc : Z -> bool) (mode : Z).
  Context (Hmode : mode = NN_WS_SERVER \/ mode = NN_WS_CLIENT).

Abbreviation masked := (bool_decide (mode = NN_WS_SERVER)).
Abbreviation acceptable := (frame_ok rcvmaxsize alloc masked).

(** The rest of the payload is asked for. *)
Lemma receive_payload_ok s w a f r reason : acceptable a f -> take_frame a f = Some r -> partial_ok a -> 0 < f_len f ->
  parsed a f (sin w) -> holds a (sin w) -> in_chunk_len (sin w) = f_len f ->
  (forall m, f_mask f = Some m -> exists off, in_mask (sin w) = Some off /\ take 4 (drop off (in_hdr (sin w))) = m) ->
  exists k, receive_payload alloc rm rcvmaxsize s w reason = continues k s w /\ continuation_ok a f (on_wire f) k.
Proof.
  intros (Hm & Hml & Hp & H32 & Hlim) Ht Ha Hlen [[Hh Hc Hfr] Hop Hctl Hmsk Hfin Hco Hct Hmh Hf0] Hh' Hcl Hmask. unfold receive_payload. rewrite Hco, Hcl.
  destruct (is_control_op (f_op f)) eqn:Ec.
  - eexists (KRecv _ _). split; [reflexivity|]. split; [|split; [|split; [done|split; [by unfold asked_for, awaited_after; ws_simpl; rewrite app_nil_r|by left]]]].
    + apply PPayload; rewrite ?Ec; ws_simpl; try done. constructor; try done; cbn; rewrite ?Ec; done.
    + unfold asked_for. ws_simpl. unfold on_wire, f_len. destruct (f_mask f); by rewrite ?apply_mask_length.
  - destruct Hlim as [Hal Hsz].
    assert (Htot : in_total (sin w) + f_len f < 2 ^ 64 /\ (0 <= rcvmaxsize -> in_total (sin w) + f_len f <= rcvmaxsize) /\ 0 <= in_total (sin w)).
    { unfold holds in Hh'. destruct a as [[op b]|]; cbn [default] in Hsz; destruct Hsz as [(H1 & H2 & H3) _]; destruct Hh' as [_ Et]; rewrite Et; cbn [length] in *; lia. }
    rewrite wrap_small by (unfold in_range; lia).
    assert (Hchk : bool_decide (0 <= rcvmaxsize) && bool_decide (in_total (sin w) + f_len f > rcvmaxsize) = false).
    { destruct (decide (0 <= rcvmaxsize)) as [H0|H0]; [|by rewrite (bool_decide_eq_false_2 _ H0)]. rewrite (bool_decide_false (_ > _)) by lia. apply andb_false_r. }
    rewrite Hchk, Hal. mred. eexists (KRecv _ _). split; [reflexivity|]. split; [|split; [|split; [done|split; [by unfold asked_for, awaited_after; ws_simpl; rewrite app_nil_r|by left]]]].
    + apply PPayload; rewrite ?Ec; ws_simpl; try done; [constructor; try done; cbn; by rewrite ?Ec|].
      eexists. split; [reflexivity|]. unfold holds in Hh'. destruct a as [[op b]|]; destruct Hh' as [Hcc ->].
      * split; [done|]. by rewrite Hcc.
      * by rewrite Hcc.
    + unfold asked_for. ws_simpl. unfold on_wire, f_len. destruct (f_mask f); by rewrite ?apply_mask_length.
Qed.
Lemma continues_set k (s : S) w i : continues k s (set_sin w i) = continues k s w.
Proof. by destruct k. Qed.

(** The mask is the only extension of a small frame. *)
Lemma no_ext f : (forall m, f_mask f = Some m -> length m = 4%nat /\ bytes_ok m) -> head_ext f = [] -> f_mask f = None /\ f_len f <= 125 /\ size_code (f_len f) = f_len f.
Proof.
  unfold head_ext. intros Hm [E1 E2]%app_eq_nil. pose proof (f_len_nonneg f). unfold size_ext in E1. unfold size_code.
  destruct (Z.leb_spec (f_len f) 125); [|exfalso].
  { destruct (f_mask f) as [m|]; [|done]. destruct (Hm m eq_refl) as [Hl _]. cbn in E2. by subst m. }
  destruct (_ <=? _); apply (f_equal length) in E1; by rewrite be_bytes_length in E1.
Qed.

Lemma header_rest_ok s w a f r : acceptable a f -> take_frame a f = Some r -> partial_ok a -> sw_mode (sw w) = mode ->
  parsed a f (sin w) -> holds a (sin w) -> in_ext_len (sin w) = length (head_ext f) -> in_hdr (sin w) = head2 f ++ replicate 12 0 ->
  (head_ext f = [] -> 0 < f_len f) ->
  exists k, header_rest alloc rm rcvmaxsize s w = continues k s w /\ continuation_ok a f (head_ext f ++ on_wire f) k.
Proof.
  intros Hok Ht Ha Hmd Hpa Hh Hext Hhd Hpos. unfold header_rest. rewrite Hext. destruct (Nat.eqb_spec (length (head_ext f)) 0) as [E|E].
  - apply nil_length_inv in E. destruct (no_ext f (proj1 (proj2 Hok)) E) as (Em & Hl & Es). specialize (Hpos E). pose proof (proj1 Hok) as Hmsk. unfold is_masked in Hmsk. rewrite Em in Hmsk.
    rewrite Hmd, (bool_decide_eq_true_2 (mode = NN_WS_CLIENT)) by (destruct Hmode; [by rewrite bool_decide_true in Hmsk|done]). mred.
    rewrite (pa_ctl _ _ _ Hpa), Es. rewrite (proj2 (Z.ltb_lt _ _)), (proj2 (Z.leb_le _ _)) by (unfold NN_SWS_PAYLOAD_MAX_LENGTH; lia). mred.
    match goal with |- context [receive_payload _ _ _ _ _ ?t] => destruct (receive_payload_ok s (with_len w (f_len f)) a f r t) as (k & Ek & Hk); try done end.
    + destruct Hpa as [[] ]. constructor; try done; by constructor.
    + by rewrite Em.
    + exists k. split; [|by rewrite E]. rewrite Ek. unfold with_len. apply continues_set.
  - eexists (KRecv _ _). split; [reflexivity|]. split; [|split; [by unfold asked_for|split; [lia|split; [by unfold asked_for, awaited_after|by right]]]].
    apply PExt; try done; [|cbn; lia]. destruct Hpa as [[] ]. constructor; try done; by constructor.
Qed.

Lemma empty_on_wire f : f_len f = 0 -> on_wire f = [].
Proof. unfold on_wire, f_len. intros H. destruct (f_payload f); [|cbn in H; lia]. by destruct (f_mask f). Qed.

(** An empty frame is complete with its header. *)
Lemma empty_frame_ok (a : partial) f (i : inbound) r : acceptable a f -> take_frame a f = Some r -> f_len f = 0 -> parsed a f i -> holds a i -> in_chunk_len i = 0 ->
  match r.2 with
  | Some m => phase a f (i_set_state (Some (if is_control_op (f_op f) then NN_SWS_INSTATE_RECVD_CONTROL else NN_SWS_INSTATE_RECVD_CHUNKED)) i)
  | None => between r.1 i
  end.
Proof.
  intros Hok Ht Hl Hpa Hh Hcl. destruct r as [a' m]. cbn [fst snd].
  assert (Hp : f_payload f = []) by (unfold f_len in Hl; destruct (f_payload f); [done|cbn in Hl; lia]).
  destruct m as [m|].
  - apply (PMessage a f _ m a'); [done| |done|].
    { destruct Hpa as [[] ]. constructor; try done; by constructor. }
    cbn [in_chunk_len i_set_state in_control in_chunks in_total]. unfold take_frame in Ht. rewrite Hp, Hl. destruct (is_control_op (f_op f)); [by split|].
    unfold holds in Hh. destruct (is_data_op (f_op f)).
    + destruct a; [done|]. cbn in Ht. destruct (f_fin f); [|done]. injection Ht as _ <-. destruct Hh as [-> ->]. by rewrite Hp.
    + destruct (f_op f =? NN_WS_OPCODE_FRAGMENT); [|done]. destruct a as [[op b]|]; [|done]. cbn in Ht. destruct (f_fin f); [|done]. injection Ht as _ <-. by rewrite Hp, app_nil_r.
  - destruct Hpa as [Hb Hop Hctl Hms Hfin Hco Hct Hmh Hf0]. unfold take_frame in Ht. unfold kept_hdr in Hmh. unfold holds in Hh.
    destruct (is_control_op (f_op f)); [by destruct (f_fin f)|]. destruct (is_data_op (f_op f)).
    + destruct a; [done|]. cbn in Ht. destruct (f_fin f); [done|]. injection Ht as <-. constructor; try done. unfold holds. rewrite Hp. by destruct Hh as [-> ->].
    + destruct (f_op f =? NN_WS_OPCODE_FRAGMENT); [|done]. destruct a as [[op b]|]; [|done]. cbn in Ht. destruct (f_fin f); [done|]. injection Ht as <-. constructor; try done. by rewrite Hp, app_nil_r.
Qed.

Lemma head_ext_nil_len f : f_len f = 0 -> f_mask f = None -> head_ext f = [].
Proof. intros Hl Hm. unfold head_ext, size_ext. rewrite Hl, Hm. done. Qed.

(** RECV_HDR *)
Lemma received_hdr_ok s w a f a' m : sw_mode (sw w) = mode -> between a (sin w) -> in_hdr (sin w) = replicate 14 0 -> in_buf (wus w) = head2 f ->
  acceptable a f -> take_frame a f = Some (a', m) -> partial_ok a ->
  exists k, received_hdr alloc rm rcvmaxsize s w = continues k s w /\ continuation_ok a f (head_ext f ++ on_wire f) k.
Proof.
  intros Hmd [[Hbh Hbc Hbf] Hcont Hh Hmh] Hhd Hbuf Hok Ht Ha. pose proof Hok as (Hmk & Hml & Hpok & H32 & Hlim). pose proof (f_len_nonneg f) as Hl0.
  destruct (take_frame_op a f _ Ht) as [Hop Hkind]. unfold received_hdr. rewrite Hbuf.
  set (hdr := head2 f ++ drop (length (head2 f)) (in_hdr (sin w))). assert (Ehdr : hdr = head2 f ++ replicate 12 0) by (unfold hdr; by rewrite Hhd).
  rewrite sin_set. cbn [in_hdr i_set_hdr]. rewrite Ehdr. cbn [rd lookup list_lookup app head2 deref]. mred.
  destruct (first_byte_spec (f_fin f) (f_op f) Hop) as (E1 & E2 & E3 & E4 & E5 & E6 & _). rewrite E1, E2, E3. cbn [orb]. rewrite E4, E5, E6.
  destruct (second_byte_spec (is_masked f) (size_code (f_len f)) (size_code_range _ Hl0)) as (F1 & F2 & _). rewrite F1, F2.
  change (sw_mode (sw (set_sin w (i_set_hdr (first_byte_of (f_fin f) (f_op f) :: second_byte_of (is_masked f) (size_code (f_len f)) :: replicate 12 0) (sin w))))) with (sw_mode (sw w)). rewrite Hmd.
  assert (Hrule : mask_rule mode (is_masked f) = Ok (inl (length (default [] (f_mask f))))).
  { unfold mask_rule. rewrite Hmk. unfold is_masked in Hmk. destruct Hmode as [->| ->]; eval_bools.
    - destruct (f_mask f) as [mk|]; [|done]. cbn. by destruct (Hml mk eq_refl) as [-> _].
    - destruct (f_mask f); [done|]. done. }
  rewrite Hrule. mred. cbn [in_continuing i_set_hdr]. rewrite Hcont.
  assert (Hnf : negb (started a) && (f_op f =? NN_WS_OPCODE_FRAGMENT) = false).
  { destruct Hkind as [Hc|[(_ & Hd & ->)|(_ & _ & _ & ->)]]; [| |done].
    - unfold is_control_op in Hc. destruct (Z.eqb_spec (f_op f) NN_WS_OPCODE_FRAGMENT) as [E|]; [by rewrite E in Hc|apply andb_false_r].
    - unfold is_data_op in Hd. destruct (Z.eqb_spec (f_op f) NN_WS_OPCODE_FRAGMENT) as [E|]; [by rewrite E in Hd|done]. }
  rewrite Hnf. rewrite <- size_ext_length by done. mred. rewrite set_sin_twice.
  set (len := (length (default [] (f_mask f)) + length (size_ext (f_len f)))%nat).
  assert (Elen : len = length (head_ext f)) by (unfold len, head_ext; rewrite length_app; lia).
  set (mh := if negb (started a) then _ else _).
  assert (Emh : mh = kept_hdr a f) by (unfold mh, kept_hdr; destruct a as [[op b]|]; done).
  set (i1 := i_set_parsed _ _ _ _ _ _ _).
  assert (Hpa : forall ctl, ctl = is_control_op (f_op f) -> parsed a f (i_set_kind ctl (if ctl then started a else negb (f_fin f)) i1)).
  { intros ctl ->. constructor; try done; by constructor. }
  assert (Hempty : forall i, in_ext_len i = len -> in_payload_ctl i = size_code (f_len f) -> empty_frame i = bool_decide (head_ext f = [] /\ f_len f = 0)).
  { intros i El Ec. unfold empty_frame. rewrite El, Ec, Elen. destruct (Nat.eqb_spec (length (head_ext f)) 0) as [E|E].
    - apply nil_length_inv in E. destruct (no_ext f Hml E) as (_ & _ & ->). destruct (Z.eqb_spec (f_len f) 0); [by rewrite bool_decide_true|]. by rewrite bool_decide_false by naive_solver.
    - rewrite bool_decide_false; [done|]. intros [E' _]. by rewrite E' in E. }
  assert (Hrest : forall ctl w', w' = set_sin w (i_set_kind ctl (if ctl then started a else negb (f_fin f)) i1) -> ctl = is_control_op (f_op f) -> ~ (head_ext f = [] /\ f_len f = 0) ->
    exists k, header_rest alloc rm rcvmaxsize s w' = continues k s w /\ continuation_ok a f (head_ext f ++ on_wire f) k).
  { intros ctl w' -> Hctl Hne. destruct (header_rest_ok s (set_sin w (i_set_kind ctl (if ctl then started a else negb (f_fin f)) i1)) a f (a', m)) as (k & Ek & Hk); try done.
    - by apply Hpa.
    - intros E. destruct (decide (f_len f = 0)); [naive_solver|lia].
    - exists k. split; [|done]. rewrite Ek. apply continues_set. }
  assert (Hclient : head_ext f = [] -> mode = NN_WS_CLIENT).
  { intros E. destruct (no_ext f Hml E) as (Em & _ & _). unfold is_masked in Hmk. rewrite Em in Hmk. destruct Hmode; [by rewrite bool_decide_true in Hmk|done]. }
  destruct (is_control_op (f_op f)) eqn:Ec.
  - (* a control frame *)
    assert (Hfin : f_fin f = true) by (unfold take_frame in Ht; rewrite Ec in Ht; by destruct (f_fin f)).
    assert (Hdo : (f_op f =? NN_WS_OPCODE_TEXT) || (f_op f =? NN_WS_OPCODE_BINARY) = false /\ (f_op f =? NN_WS_OPCODE_FRAGMENT) = false).
    { unfold is_control_op in Ec. apply orb_prop in Ec as [E%Z.eqb_eq|E%Z.eqb_eq]; by rewrite E. }
    destruct Hdo as [-> ->]. fold (is_control_op (f_op f)). rewrite Ec. unfold ping_frame, as_control. rewrite !sin_set, set_sin_twice.
    change (in_continuing i1) with (in_continuing (sin w)). rewrite Hcont.
    change (in_payload_ctl (i_set_kind true (started a) i1)) with (size_code (f_len f)). change (in_final (i_set_kind true (started a) i1)) with (f_fin f). rewrite Hfin.
    assert (Hsc : size_code (f_len f) = f_len f) by (unfold size_code; by rewrite (proj2 (Z.leb_le _ _)) by lia). rewrite Hsc.
    rewrite (proj2 (Z.ltb_ge _ _)) by (unfold NN_SWS_PAYLOAD_MAX_LENGTH; lia). cbn [negb].
    rewrite Hempty by done. cases (head_ext f = [] /\ f_len f = 0) as He.
    + eexists (KMessage _ _). split; [reflexivity|]. exists a', (f_op f, f_payload f). destruct He as [He1 He2].
      assert (Em : m = Some (f_op f, f_payload f)) by (unfold take_frame in Ht; rewrite Ec, Hfin in Ht; by injection Ht). subst m. split; [done|].
      pose proof (empty_frame_ok a f (i_set_chunks (in_chunks (i_set_kind true (started a) i1)) (in_where (i_set_kind true (started a) i1)) 0 (in_total (i_set_kind true (started a) i1)) (i_set_kind true (started a) i1)) _ Hok Ht He2) as Hph.
      rewrite Ec in Hph. split; [apply Hph; [|done|done]|split; [by rewrite He1, (empty_on_wire f)|by right]]. destruct (Hpa true eq_refl) as [[] ]. constructor; try done; by constructor.
    + by apply (Hrest true).
  - (* a data frame *)
    assert (Hdata : exists k, data_frame alloc rm rcvmaxsize s (set_sin w i1) (negb (f_fin f)) = continues k s w /\ continuation_ok a f (head_ext f ++ on_wire f) k).
    { unfold data_frame. rewrite sin_set, set_sin_twice, sin_set. rewrite Hempty by done. cases (head_ext f = [] /\ f_len f = 0) as He; [|by apply (Hrest false)].
      destruct He as [He1 He2]. unfold empty_data_frame. match goal with |- context [sw_mode (sw ?v)] => change (sw_mode (sw v)) with (sw_mode (sw w)) end.
      rewrite Hmd, (Hclient He1). eval_bools. mred. unfold with_len. rewrite !sin_set, set_sin_twice. set (i2 := i_set_chunks _ _ _ _ _).
      change (in_continuing i2) with (negb (f_fin f)).
      assert (Hpa2 : parsed a f i2). { destruct (Hpa false eq_refl) as [[] ]. constructor; try done; by constructor. }
      pose proof (empty_frame_ok a f i2 _ Hok Ht He2 Hpa2 ltac:(done) eq_refl) as Hph. rewrite Ec in Hph. cbn [fst snd] in Hph.
      assert (Hm : m = None <-> f_fin f = false).
      { unfold take_frame in Ht. rewrite Ec in Ht. destruct (if is_data_op (f_op f) then _ else _) as [m0|]; [|done]. cbn in Ht. destruct (f_fin f); injection Ht as _ <-; naive_solver. }
      destruct (f_fin f) eqn:Ef; cbn [negb].
      - destruct m as [m|]; [|naive_solver]. eexists (KMessage _ _). split; [reflexivity|]. exists a', m. split; [done|]. split; [done|]. split; [by rewrite He1, (empty_on_wire f)|by left].
      - assert (m = None) as -> by naive_solver. eexists (KNext _). split; [reflexivity|]. exists a'. split; [done|]. split; [done|]. by rewrite He1, (empty_on_wire f). }
    destruct Hkind as [?|[(_ & Hd & ->)|(_ & Hd & Hfr & Hs)]]; [congruence| |]; unfold is_data_op in Hd; rewrite Hd.
    + change (in_continuing (i_set_hdr _ _)) with (in_continuing (sin w)). cbn [started]. exact Hdata.
    + rewrite Hfr. exact Hdata.
Qed.

Lemma gets_be n rest : 0 <= n < 2 ^ 16 -> nn_gets (be_bytes 2 n ++ rest) = Ok n.
Proof.
  intros Hn. pose proof (be_bytes_ok 2 n) as Hok. pose proof (be_bytes_length 2 n) as Hl. pose proof (be_round 2 n ltac:(cbn; lia)) as Hr.
  destruct (be_bytes 2 n) as [|b0 [|b1 [|]]]; try done. cbn [app]. by rewrite nn_gets_eq, Hr.
Qed.

Lemma getll_be n rest : 0 <= n < 2 ^ 64 -> nn_getll (be_bytes 8 n ++ rest) = Ok n.
Proof.
  intros Hn. pose proof (be_bytes_ok 8 n) as Hok. pose proof (be_bytes_length 8 n) as Hl. pose proof (be_round 8 n) as Hr.
  remember (be_bytes 8 n) as l eqn:El. clear El. do 8 (destruct l as [|? l]; [done|]). destruct l; [|done]. cbn [app]. rewrite nn_getll_eq, Hr; [done|lia|done].
Qed.

Lemma ext_size_ok f i z : in_hdr i = head2 f ++ head_ext f ++ z -> in_payload_ctl i = size_code (f_len f) -> f_len f < 2 ^ 64 ->
  ext_size i = Ok (Some (f_len f, (2 + length (size_ext (f_len f)))%nat)).
Proof.
  intros Hh Hc Hl. pose proof (f_len_nonneg f). unfold ext_size. rewrite Hh, Hc. unfold head2, head_ext. cbn [app drop NN_SWS_FRAME_SIZE_INITIAL].
  unfold size_code, size_ext, NN_SWS_PAYLOAD_MAX_LENGTH. destruct (Z.leb_spec (f_len f) 125).
  - by rewrite (proj2 (Z.leb_le _ _)) by lia.
  - destruct (Z.leb_spec (f_len f) 65535).
    + change (126 <=? 125) with false. change (126 =? NN_SWS_PAYLOAD_FRAME_16) with true. cbn iota. rewrite drop_0, <- app_assoc, gets_be by lia. reflexivity.
    + change (127 <=? 125) with false. change (127 =? NN_SWS_PAYLOAD_FRAME_16) with false. change (127 =? NN_SWS_PAYLOAD_FRAME_63) with true. cbn iota. rewrite drop_0, <- app_assoc, getll_be by lia. reflexivity.
Qed.

(** The mask follows the size. *)
Lemma mask_place f z m : f_mask f = Some m -> length m = 4%nat ->
  take 4 (drop (2 + length (size_ext (f_len f))) (head2 f ++ head_ext f ++ z)) = m.
Proof.
  intros Hm Hl. unfold head_ext, head2. rewrite Hm. cbn [default from_option id app Nat.add drop]. rewrite <- app_assoc.
  rewrite drop_app_length. rewrite take_app_le by lia. apply take_ge. lia.
Qed.

(** RECV_HDREXT *)
Lemma received_hdrext_ok s w a f a' m : phase a f (sin w) -> in_state (sin w) = Some NN_SWS_INSTATE_RECV_HDREXT -> in_buf (wus w) = head_ext f ->
  acceptable a f -> take_frame a f = Some (a', m) -> partial_ok a ->
  exists k, received_hdrext alloc rm rcvmaxsize s w = continues k s w /\ continuation_ok a f (on_wire f) k.
Proof.
  intros Hph Hst Hbuf Hok Ht Ha. destruct Hph as [Hpa Hh _ Hext Hpos Hhd|? Hst'|? ? ? ? Hst']; [|congruence|rewrite Hst in Hst'; by destruct (is_control_op (f_op f))].
  pose proof Hok as (Hmk & Hml & Hpok & H32 & Hlim). pose proof (f_len_nonneg f) as Hl0.
  unfold received_hdrext. rewrite Hext, (proj2 (Nat.ltb_lt _ _)) by done. mred. rewrite Hbuf.
  set (i0 := i_set_hdr _ _). assert (Hlen : (length (head_ext f) <= 12)%nat).
  { unfold head_ext. rewrite length_app. assert (length (size_ext (f_len f)) <= 8)%nat by (unfold size_ext; repeat case_match; rewrite ?be_bytes_length; cbn; lia).
    assert (length (default [] (f_mask f)) <= 4)%nat; [|lia]. destruct (f_mask f) as [mk|]; cbn; [destruct (Hml mk eq_refl); lia|lia]. }
  assert (Ehdr : in_hdr i0 = head2 f ++ head_ext f ++ replicate (12 - length (head_ext f)) 0).
  { unfold i0. cbn [in_hdr i_set_hdr]. rewrite Hhd. cbn [head2 app take drop NN_SWS_FRAME_SIZE_INITIAL Nat.add]. by rewrite drop_replicate. }
  assert (Hpa0 : parsed a f i0).
  { destruct Hpa as [[] ]. constructor; try done; [constructor; try done|]; rewrite Ehdr; [|done]. unfold head2. rewrite !length_app, length_replicate. cbn [length]. lia. }
  rewrite (ext_size_ok f i0 _ Ehdr (pa_ctl _ _ _ Hpa0)) by lia. mred. cbn iota.
  rewrite (pa_masked _ _ _ Hpa0). set (i1 := i_set_mask _ _ _).
  assert (Hpa1 : parsed a f i1) by (destruct Hpa0 as [[] ]; constructor; try done; by constructor).
  destruct (Z.eqb_spec (f_len f) 0) as [Hz|Hz].
  - rewrite (pa_final _ _ _ Hpa0), (pa_opcode _ _ _ Hpa0), (pa_control _ _ _ Hpa0).
    pose proof (empty_frame_ok a f i1 (a', m) Hok Ht Hz Hpa1 ltac:(done) Hz) as He. cbn [fst snd] in He.
    assert (Hm : m = None <-> f_fin f = false) by exact (take_frame_final a f a' m Ht).
    rewrite (op_not_close a f _ Ht). destruct (f_fin f) eqn:Ef.
    + destruct m as [m|]; [|naive_solver]. eexists (KMessage _ _). split; [reflexivity|]. exists a', m. split; [done|]. split; [done|]. split; [by apply empty_on_wire|].
      destruct (is_control_op (f_op f)); [by right|by left].
    + assert (m = None) as -> by naive_solver. eexists (KNext _). split; [reflexivity|]. exists a'. split; [done|]. split; [done|]. by apply empty_on_wire.
  - match goal with |- context [receive_payload _ _ _ _ _ ?t] => destruct (receive_payload_ok s (set_sin w i1) a f _ t Hok Ht Ha ltac:(lia)) as (k & Ek & Hk); try done end.
    + intros mk Emk. eexists. split; [unfold i1, is_masked; cbn [in_mask i_set_mask sin set_sin sw set_sw wc set_wc w_net set_net wc_sws sw_in sw_set_in]; by rewrite Emk|]. change (in_hdr (sin (set_sin w i1))) with (in_hdr i0). rewrite Ehdr.
      apply mask_place; [done|]. by destruct (Hml mk Emk).
    + exists k. split; [|done]. rewrite Ek. apply continues_set.
Qed.

(** RECV_PAYLOAD *)
Lemma unmasked_ok a f i : acceptable a f -> parsed a f i -> (forall m, f_mask f = Some m -> exists off, in_mask i = Some off /\ take 4 (drop off (in_hdr i)) = m) ->
  unmasked i (on_wire f) = Ok (f_payload f).
Proof.
  intros (_ & Hml & _ & H32 & _) Hpa Hmask. unfold unmasked, on_wire. rewrite (pa_masked _ _ _ Hpa). unfold is_masked.
  destruct (f_mask f) as [mk|]; [|done]. destruct (Hmask mk eq_refl) as (off & -> & E). destruct (Hml mk eq_refl) as [Hl _]. mred. unfold NN_SWS_FRAME_SIZE_MASK. rewrite E.
  destruct (mask_payload_0 (apply_mask mk (f_payload f)) mk Hl) as (k & Ek); [rewrite apply_mask_length; unfold f_len in H32; lia|].
  rewrite Ek. mred. by rewrite apply_mask_twice.
Qed.

(** The frame is complete. *)
Definition complete_state (f : wframe) : sws_instate := if is_control_op (f_op f) then NN_SWS_INSTATE_RECVD_CONTROL else NN_SWS_INSTATE_RECVD_CHUNKED.

Lemma complete_ok a f i a' m : take_frame a f = Some (a', m) -> parsed a f i ->
  (if is_control_op (f_op f) then holds a i /\ in_chunk_len i = f_len f /\ take (length (f_payload f)) (in_control i) = f_payload f
   else concat (in_chunks i) = match a with Some (_, b) => b | None => [] end ++ f_payload f /\ in_total i = Z.of_nat (length (concat (in_chunks i)))) ->
  match m with Some m => phase a f (i_set_state (Some (complete_state f)) i) | None => between a' i end.
Proof.
  intros Ht Hpa Hi. destruct m as [m|].
  - apply (PMessage a f _ m a'); [done| |done|].
    { destruct Hpa as [[] ]. constructor; try done; by constructor. }
    cbn [in_chunk_len i_set_state in_control in_chunks in_total]. unfold take_frame in Ht. destruct (is_control_op (f_op f)); [done|]. destruct Hi as [Hc Htot].
    rewrite Htot, Hc. destruct (is_data_op (f_op f)).
    + destruct a; [done|]. cbn in Ht. destruct (f_fin f); [|done]. by injection Ht as _ <-.
    + destruct (f_op f =? NN_WS_OPCODE_FRAGMENT); [|done]. destruct a as [[op b]|]; [|done]. cbn in Ht. destruct (f_fin f); [|done]. by injection Ht as _ <-.
  - destruct Hpa as [Hb Hop Hctl Hms Hfin Hco Hct Hmh Hf0]. unfold take_frame in Ht. unfold kept_hdr in Hmh.
    destruct (is_control_op (f_op f)); [by destruct (f_fin f)|]. destruct Hi as [Hc Htot]. destruct (is_data_op (f_op f)).
    + destruct a; [done|]. cbn in Ht. destruct (f_fin f); [done|]. injection Ht as <-. constructor; try done. unfold holds. by rewrite Htot, Hc.
    + destruct (f_op f =? NN_WS_OPCODE_FRAGMENT); [|done]. destruct a as [[op b]|]; [|done]. cbn in Ht. destruct (f_fin f); [done|]. injection Ht as <-. constructor; try done.
      unfold holds. by rewrite Htot, Hc.
Qed.

Lemma received_payload_ok s w a f a' m : phase a f (sin w) -> in_state (sin w) = Some NN_SWS_INSTATE_RECV_PAYLOAD -> in_buf (wus w) = on_wire f ->
  acceptable a f -> take_frame a f = Some (a', m) -> partial_ok a ->
  exists k, received_payload rm s w = continues k s w /\ continuation_ok a f [] k.
Proof.
  intros Hph Hst Hbuf Hok Ht Ha. destruct Hph as [? ? Hst'|Hpa _ Hcl Hpos Hmask Hwh Hch|? ? ? ? Hst']; [congruence| |rewrite Hst in Hst'; by destruct (is_control_op (f_op f))].
  unfold received_payload. rewrite Hbuf, (unmasked_ok a f) by done. mred. rewrite sin_set. set (i1 := set_current _ _).
  pose proof Hok as (_ & _ & _ & _ & Hlim). destruct (take_frame_op a f _ Ht) as [_ Hkind]. pose proof (take_frame_final a f a' m Ht) as Hm.
  assert (Hpa1 : parsed a f i1).
  { unfold i1, set_current. destruct Hpa as [[Hh Hc Hf] ]. destruct (in_where (sin w)) eqn:Ew; (constructor; [|done..]); [|by constructor]. constructor; [done| |done].
    cbn [in_control i_set_control]. rewrite length_app, length_drop. rewrite <- Hwh in Hlim. unfold f_len in Hlim. lia. }
  assert (Hdone : match m with Some m => phase a f (i_set_state (Some (complete_state f)) i1) | None => between a' i1 end).
  { apply complete_ok; [done|done|]. unfold i1, set_current. rewrite Hwh. destruct (is_control_op (f_op f)).
    - split; [exact Hch|]. split; [exact Hcl|]. cbn [in_control i_set_control]. by rewrite take_app_length.
    - destruct Hch as (cs & -> & Hcc & Htot). cbn [in_chunks in_total i_set_chunks]. rewrite length_app, Nat.add_sub, take_app_length, concat_app. cbn [concat]. rewrite app_nil_r.
      rewrite Hcc. split; [done|]. rewrite Htot, Hcc, length_app. unfold f_len. lia. }
  rewrite (pa_opcode _ _ _ Hpa1).
  assert (Hchunk : is_control_op (f_op f) = false -> exists k, chunk_complete s (set_sin w i1) = continues k s w /\ continuation_ok a f [] k).
  { intros Ec. unfold chunk_complete. rewrite sin_set, (pa_final _ _ _ Hpa1). unfold complete_state in Hdone. rewrite Ec in Hdone. destruct (f_fin f) eqn:Ef.
    - destruct m as [m|]; [|naive_solver]. exists (KMessage i1 NN_SWS_INSTATE_RECVD_CHUNKED). split; [reflexivity|]. exists a', m. by repeat split; try left.
    - assert (m = None) as -> by naive_solver. exists (KNext i1). split; [reflexivity|]. by exists a'. }
  assert (Htext : is_control_op (f_op f) = false -> utf8_text (f_payload f) -> exists k, nn_sws_validate_utf8_chunk rm s (set_sin w i1) = continues k s w /\ continuation_ok a f [] k).
  { intros Ec Hu. unfold nn_sws_validate_utf8_chunk. rewrite sin_set. rewrite (bu_frag _ (pa_buffers _ _ _ Hpa1)). cbn [length Nat.ltb Nat.leb]. mred. rewrite sin_set, (bu_frag _ (pa_buffers _ _ _ Hpa1)). mred.
    assert (Ecur : current_chunk i1 = f_payload f).
    { unfold current_chunk, i1, set_current. rewrite Hwh, Ec. cbn [in_where i_set_chunks in_chunks]. by rewrite last_snoc. }
    rewrite Ecur, scan_accepts by done. mred. rewrite set_sin_twice, sin_set.
    assert (Ei : i_set_frag [] i1 = i1) by (pose proof (bu_frag _ (pa_buffers _ _ _ Hpa1)) as E; destruct i1; cbn in E; by subst). rewrite Ei.
    destruct (Hchunk Ec) as (k & Ek & Hk). exists k. split; [|done]. rewrite <- Ek. unfold chunk_complete. by rewrite sin_set. }
  destruct Hkind as [Ec|[(Ec & Hd & ->)|(Ec & Hd & Hfr & Hs)]].
  - assert (Hfin : f_fin f = true) by (unfold take_frame in Ht; rewrite Ec in Ht; by destruct (f_fin f)). destruct m as [m|]; [|by rewrite (proj1 Hm eq_refl) in Hfin].
    assert (Hother : forall op, op = f_op f -> (op =? NN_WS_OPCODE_TEXT) = false /\ (op =? NN_WS_OPCODE_BINARY) = false /\ (op =? NN_WS_OPCODE_FRAGMENT) = false).
    { intros op ->. unfold is_control_op in Ec. apply orb_prop in Ec as [E%Z.eqb_eq|E%Z.eqb_eq]; by rewrite E. }
    destruct (Hother _ eq_refl) as (-> & -> & ->). fold (is_control_op (f_op f)). rewrite Ec. exists (KMessage i1 NN_SWS_INSTATE_RECVD_CONTROL). split; [reflexivity|].
    exists a', m. unfold complete_state in Hdone. rewrite Ec in Hdone. by repeat split; try right.
  - rewrite Ec in Hlim. destruct Hlim as [_ Hsz]. cbn [default from_option id] in Hsz. destruct Hsz as [_ Hut]. unfold is_data_op in Hd. destruct (Z.eqb_spec (f_op f) NN_WS_OPCODE_TEXT) as [E|E].
    + by apply Htext; [|apply Hut].
    + cbn [orb] in Hd. rewrite Hd. by apply Hchunk.
  - rewrite Ec in Hlim. destruct Hlim as [_ Hsz]. destruct a as [[op b]|]; [|done]. cbn [default from_option id] in Hsz. destruct Hsz as [_ Hut]. rewrite Hfr. cbn [Z.eqb NN_WS_OPCODE_FRAGMENT NN_WS_OPCODE_TEXT NN_WS_OPCODE_BINARY Pos.eqb].
    rewrite (pa_msg_hdr _ _ _ Hpa1). unfold kept_hdr. destruct Ha as [Hop _]. rewrite (proj1 (proj2 (data_op_byte op Hop))). destruct (Z.eqb_spec op NN_WS_OPCODE_TEXT) as [E|E]; [by apply Htext; [|apply Hut]|by apply Hchunk].
Qed.

(** ** Between frames *)

Lemma recv_hdr_ok w a : resting a (sin w) -> exists i,
  nn_sws_recv_hdr w = sws_io_recv (set_sin w i) 2 /\ between a i /\ in_state i = Some NN_SWS_INSTATE_RECV_HDR /\ in_hdr i = replicate 14 0.
Proof.
  intros [[Hh Hc Hf] Hco Hho Hmh]. unfold nn_sws_recv_hdr. rewrite Hco. destruct a as [[op b]|]; cbn [started negb].
  - mred. eexists. split; [reflexivity|]. split; [|done]. constructor; try done.
  - rename Hho into Hcs. rewrite (bool_decide_eq_true_2 _ Hcs). mred. eexists. split; [reflexivity|]. split; [|done]. constructor; try done.
Qed.

(** The message is handed out. *)
Lemma sws_recv_ok junk w a f a' m : phase a f (sin w) -> received_phase (sin w) -> sw_state (sw w) = NN_SWS_STATE_ACTIVE -> take_frame a f = Some (a', Some m) ->
  acceptable a f -> partial_ok a ->
  exists i, nn_sws_recv alloc junk w = (w' ← sws_io_recv (set_sin w i) 2; Ok (w', 0, Msg [] (opcode_cmsg junk m.1) m.2)) /\
    between a' i /\ in_state i = Some NN_SWS_INSTATE_RECV_HDR /\ in_hdr i = replicate 14 0.
Proof.
  intros Hph (st & Hst & Hrs) Hact Ht Hok Ha. destruct Hph as [? ? Hst'|? Hst'|m0 a0 Ht0 Hpa Hst' Hm]; [destruct Hrs; congruence|destruct Hrs; congruence|].
  rewrite Ht in Ht0. injection Ht0 as <- <-. clear st Hst Hrs. pose proof (take_frame_final a f a' (Some m) Ht) as Hfin.
  assert (Ef : f_fin f = true) by (destruct (f_fin f); [done|]; naive_solver). clear Hfin.
  unfold nn_sws_recv. rewrite Hact, Hst', (pa_final _ _ _ Hpa), Ef. eval_bools. mred.
  pose proof (pa_msg_hdr _ _ _ Hpa) as Hmh. unfold kept_hdr in Hmh. destruct (take_frame_op a f _ Ht) as [Hop Hkind]. destruct Hpa as [Hb _ _ _ _ _ Hco _ Hf0].
  destruct (is_control_op (f_op f)) eqn:Ec.
  - rewrite Ef in Hf0. unfold rd. rewrite Hf0. mred. destruct (control_op_byte _ Ec) as (-> & -> & -> & ->). mred.
    destruct (recv_hdr_ok w a) as (i & -> & Hbt & Hi & Hhd).
    { destruct Hm as [Hh _]. apply between_resting. constructor; try done. by destruct a as [[op b]|]. }
    unfold take_frame in Ht. rewrite Ec, Ef in Ht. injection Ht as <- <-. exists i. split; [|done]. destruct Hm as (_ & -> & Hctl). unfold f_len. by rewrite Nat2Z.id, Hctl.
  - rewrite Hmh. assert (Hmop : is_data_op m.1 = true /\ match a with Some (op, _) => op | None => f_op f end = m.1 /\ a' = None).
    { unfold take_frame in Ht. rewrite Ec, Ef in Ht. destruct (is_data_op (f_op f)) eqn:Ed.
      - destruct a; [done|]. by injection Ht as <- <-.
      - destruct (f_op f =? NN_WS_OPCODE_FRAGMENT); [|done]. destruct a as [[op b]|]; [|done]. injection Ht as <- <-. by destruct Ha. }
    destruct Hmop as (Hd & -> & ->). destruct (data_op_bits _ Hd) as (-> & -> & -> & ->). mred. destruct Hm as [Hc Htot].
    assert (Hre : reassemble alloc (sin w) = Ok m.2).
    { unfold reassemble. rewrite Hc, Htot, Z.ltb_irrefl, Z.eqb_refl. destruct Hok as (_ & _ & _ & _ & Hlim). rewrite Ec in Hlim. destruct Hlim as [_ Hsz].
      assert (Hal : alloc (Z.of_nat (length m.2)) = true); [|by rewrite Hal]. unfold take_frame in Ht. rewrite Ec, Ef in Ht. destruct (is_data_op (f_op f)) eqn:Ed.
      - destruct a; [done|]. injection Ht as <-. cbn in Hsz. unfold f_len in Hsz. by destruct Hsz as [(_ & ? & _) _].
      - destruct (f_op f =? NN_WS_OPCODE_FRAGMENT); [|done]. destruct a as [[op b]|]; [|done]. injection Ht as <-. cbn in Hsz |- *. unfold f_len in Hsz. rewrite length_app, Nat2Z.inj_add.
        by destruct Hsz as [(_ & ? & _) _]. }
    rewrite Hre. mred. match goal with |- context [nn_sws_recv_hdr ?v] => destruct (recv_hdr_ok v None) as (i & -> & Hbt & Hi & Hhd) end.
    { destruct Hb. constructor; [by constructor|done..]. }
    exists i. split; [reflexivity|done].
Qed.

End Receiver.
