(* ===== verification/Wsstreams.v ===== *)
(** * A WebSocket session and any peer

    A session of the file [Sws] whose peer keeps to RFC 6455, whatever it is:
    the peer fragments its messages and puts control frames between the
    fragments as it likes, the kernel splits the bytes as it likes, and the
    user and the worker threads act in any order.  From the end of the
    opening handshake on nothing aborts, the user receives the messages of
    the peer's frames, and what the session writes are well-formed frames of
    the messages the user sent. *)

From S2P Require Import Prelude NNList Wire Timer Pipe Ctx Usock Utf8 Cmsg Streamhdr Stcp Streams Wsparse Wshandshake Sws Wsframes Wsreceive.
Local Open Scope Z_scope.

(** ** The steps of an end *)

(** [sys]: what the kernel answers during the step; [WArrive]: bytes of the
    peer reach the kernel. *)
Inductive ws_op := WSend (m : nn_msg) (sys : list reply) | WRecv (sys : list reply) | WWorker (j : worker_job) (sys : list reply) | WArrive (n : nat).

Definition ws_with_sys (w : wworld) (sys : list reply) : wworld := set_wio w (Io (io_q (wc_io (wc w))) (wus w) sys).
Definition ws_pipe_is (w : wworld) (f : nn_pipebase -> bool) : bool := match w_pipes w !! ws_pipe with Some pb => f pb | None => false end.
Definition ws_deliver (d : bytes) (w : wworld) : wworld :=
  set_wio w (io_set_us (us_set_os (OsSocket (os_rx (us_os (wus w)) ++ d) (os_tx (us_os (wus w)))) (wus w)) (wc_io (wc w))).

(** The end, the bytes of the peer that did not arrive yet, and what the user
    sent and received. *)
Record ws_end (S : Type) := WsEnd { we_state : S * wworld; we_rest : bytes; we_sent : list (Z * bytes); we_rcvd : list nn_msg }.
Arguments WsEnd {_} _ _ _ _.
Arguments we_state {_} _.
Arguments we_rest {_} _.
Arguments we_sent {_} _.
Arguments we_rcvd {_} _.

Section Steps.
  Context {S : Type} (add : S -> wworld -> addr -> result (S * wworld * Z)) (rm : S -> wworld -> addr -> result (S * wworld)).
  Context (protocol : Z) (ispeer : Z -> bool) (rcvmaxsize : Z) (alloc : Z -> bool) (le : bool) (memory rand_key junk : bytes).
#[local] Instance ws_tr : Transport wconn := sws_transport alloc junk.

(** Every event but the first consumed bytes that had arrived. *)
Definition ws_fuel (w : wworld) : nat := 2 + length (incoming (wus w)).
Definition ws_settle (s : S) (w : wworld) : result (S * wworld) :=
  sw ← ws_leave alloc add rm protocol ispeer rcvmaxsize le memory rand_key (ws_fuel w) (s, w); Ok (sw.1, set_events sw.2 []).

Definition ws_step (o : ws_op) (e : ws_end S) : result (ws_end S) :=
  let '(s, w) := we_state e in
  match o with
  | WSend m sys =>
      if ws_pipe_is w (fun pb => bool_decide (pb_state pb = NN_PIPEBASE_STATE_ACTIVE) && bool_decide (pb_outstate pb = NN_PIPEBASE_OUTSTATE_IDLE)) then
        op ← opcode_of (sw w) m;
        '(w, _) ← nn_pipe_send (ws_with_sys w sys) ws_pipe m;
        x ← ws_settle s w; Ok (WsEnd x (we_rest e) (we_sent e ++ [(op, wire_msg m)]) (we_rcvd e))
      else Ok e
  | WRecv sys =>
      if ws_pipe_is w (fun pb => bool_decide (pb_state pb = NN_PIPEBASE_STATE_ACTIVE) && bool_decide (pb_instate pb = NN_PIPEBASE_INSTATE_IDLE)) then
        '(w, _, m) ← nn_pipe_recv (ws_with_sys w sys) ws_pipe;
        x ← ws_settle s w; Ok (WsEnd x (we_rest e) (we_sent e) (we_rcvd e ++ [m]))
      else Ok e
  | WWorker j sys =>
      if worker_can (wus w) j then
        x ← io_worker (wc_io (wc (ws_with_sys w sys))) j;
        x ← ws_settle s (set_wio w x); Ok (WsEnd x (we_rest e) (we_sent e) (we_rcvd e))
      else Ok e
  | WArrive n => Ok (WsEnd (s, ws_deliver (take n (we_rest e)) w) (drop n (we_rest e)) (we_sent e) (we_rcvd e))
  end.

Fixpoint ws_run (os : list ws_op) (e : ws_end S) : result (ws_end S) :=
  match os with [] => Ok e | o :: os => e ← ws_step o e; ws_run os e end.

(** The handshake is over, and its machine has stopped; the peer will send
    [bytes]. *)
Definition ws_begin (s : S) (w : wworld) (sys : list reply) (rest : bytes) : result (ws_end S) :=
  '(s, w) ← nn_sws_handler alloc add rm protocol ispeer rcvmaxsize le memory rand_key s (ws_with_sys w sys) NN_SWS_SRC_HANDSHAKE NN_WS_HANDSHAKE_STOPPED;
  x ← ws_settle s w; Ok (WsEnd x rest [] []).
End Steps.

Definition encodes (q : list wframe) : bytes := concat (encode <$> q).
Definition ws_owner : option comp * Z := (Some CSession, NN_SWS_SRC_USOCK).
Definition mask_ok (m : bytes) : Prop := length m = 4%nat /\ bytes_ok m.

(** ** An established session *)
Section Rep.
  Context (rcvmaxsize : Z) (alloc : Z -> bool) (mode msg_type : Z).
  Context (Hmode : mode = NN_WS_SERVER \/ mode = NN_WS_CLIENT).

Abbreviation from_peer := (bool_decide (mode = NN_WS_SERVER)).
Abbreviation stream_ok := (stream_ok rcvmaxsize alloc from_peer).
Abbreviation frame_ok := (frame_ok rcvmaxsize alloc from_peer).

(** A frame [f] is being received: what the frames after it stand for. *)
Definition within (a : partial) (f : wframe) (q : list wframe) (ms : list (Z * bytes)) : Prop :=
  partial_ok a /\ frame_ok a f /\ exists a' m ms', take_frame a f = Some (a', m) /\ stream_ok a' q ms' /\ ms = match m with Some m => m :: ms' | None => ms' end.

(** The receiving half: [ms] is yet to be handed out, [after] are the bytes
    that were not asked for. *)
Inductive ws_in (w : wworld) (pb : nn_pipebase) (after : bytes) (ms : list (Z * bytes)) : bool -> Prop :=
  | WInHdr rcvd a q : between a (sin w) -> partial_ok a -> in_state (sin w) = Some NN_SWS_INSTATE_RECV_HDR -> in_hdr (sin w) = replicate 14 0 ->
      pb_instate pb = NN_PIPEBASE_INSTATE_ASYNC -> (ws_pipe, NN_PIPE_IN) ∉ w_events w -> in_request rcvd (wus w) 2 ->
      stream_ok a q ms -> in_buf (wus w) ++ after = encodes q -> ws_in w pb after ms rcvd
  | WInPart rcvd a f q : phase a f (sin w) -> in_state (sin w) = Some NN_SWS_INSTATE_RECV_PAYLOAD \/ in_state (sin w) = Some NN_SWS_INSTATE_RECV_HDREXT ->
      pb_instate pb = NN_PIPEBASE_INSTATE_ASYNC -> (ws_pipe, NN_PIPE_IN) ∉ w_events w -> in_request rcvd (wus w) (Z.of_nat (length (asked_for f (sin w)))) ->
      within a f q ms -> in_buf (wus w) ++ after = asked_for f (sin w) ++ awaited_after f (sin w) ++ encodes q -> ws_in w pb after ms rcvd
  | WInMsg a f q a' m : phase a f (sin w) -> received_phase (sin w) -> take_frame a f = Some (a', Some m) ->
      pb_instate pb = NN_PIPEBASE_INSTATE_IDLE -> in_idle (wus w) -> within a f q ms -> after = encodes q -> ws_in w pb after ms false.

Inductive ws_out (w : wworld) (pb : nn_pipebase) : bool -> Prop :=
  | WOutIdle : sw_outstate (sw w) = Some NN_SWS_OUTSTATE_IDLE -> pb_outstate pb = NN_PIPEBASE_OUTSTATE_IDLE -> out_idle (wus w) -> ws_out w pb false
  | WOutSending sent : sw_outstate (sw w) = Some NN_SWS_OUTSTATE_SENDING -> pb_outstate pb = NN_PIPEBASE_OUTSTATE_ASYNC ->
      out_request sent (wus w) -> (ws_pipe, NN_PIPE_OUT) ∉ w_events w -> ws_out w pb sent.

Record ws_active (w : wworld) (sent rcvd : bool) (rest : bytes) (ms : list (Z * bytes)) : Prop := {
  wa_events : io_q (wc_io (wc w)) = (if sent then [sent_event ws_owner] else []) ++ (if rcvd then [received_event ws_owner] else []);
  wa_usock : usock_active ws_owner (wus w);
  wa_state : sw_state (sw w) = NN_SWS_STATE_ACTIVE;
  wa_fsm : sw_fsm (sw w) = NN_FSM_STATE_ACTIVE;
  wa_mode : sw_mode (sw w) = mode;
  wa_type : sw_msg_type (sw w) = msg_type;
  wa_random : Forall mask_ok (sw_random (sw w));
  wa_sys : Forall reply_ok (io_sys (wc_io (wc w)));
  wa_pipe : exists pb, w_pipes w !! ws_pipe = Some pb /\ pb_state pb = NN_PIPEBASE_STATE_ACTIVE /\ ws_in w pb (incoming (wus w) ++ rest) ms rcvd /\ ws_out w pb sent
}.

Lemma ws_out_ext w w' pb pb' sent : ws_out w pb sent -> sw_outstate (sw w') = sw_outstate (sw w) -> pb_outstate pb' = pb_outstate pb ->
  out_side (wus w') = out_side (wus w) -> ((ws_pipe, NN_PIPE_OUT) ∈ w_events w' -> (ws_pipe, NN_PIPE_OUT) ∈ w_events w) -> ws_out w' pb' sent.
Proof.
  intros Hl Es Ep Eu Ee. destruct Hl as [H1 H2 H3|sent H1 H2 H3 H4]; rewrite <- Es in H1; rewrite <- Ep in H2.
  - apply WOutIdle; [done..|]. by eapply out_side_idle.
  - apply WOutSending; [done|done| |naive_solver]. destruct sent; [by eapply out_side_idle|by eapply out_side_busy].
Qed.

Lemma ws_in_ext w w' pb pb' after ms rcvd : ws_in w pb after ms rcvd -> sin w' = sin w -> pb_instate pb' = pb_instate pb ->
  in_side (wus w') = in_side (wus w) -> ((ws_pipe, NN_PIPE_IN) ∈ w_events w' -> (ws_pipe, NN_PIPE_IN) ∈ w_events w) -> ws_in w' pb' after ms rcvd.
Proof.
  intros Hl Es Ep Eu Ee. assert (Eb : in_buf (wus w') = in_buf (wus w)) by (by injection Eu).
  destruct Hl as [rcvd a q H1 H2 H3 H4 H5 H6 H7 H8 H9|rcvd a f q H1 H2 H3 H4 H5 H6 H7|a f q a' m H1 H2 H3 H4 H5 H6 H7].
  - apply (WInHdr _ _ _ _ rcvd a q); rewrite ?Es, ?Ep, ?Eb; try done; [naive_solver|by eapply in_request_ext].
  - apply (WInPart _ _ _ _ rcvd a f q); rewrite ?Es, ?Ep, ?Eb; try done; [naive_solver|by eapply in_request_ext].
  - apply (WInMsg _ _ _ _ a f q a' m); rewrite ?Es, ?Ep; try done. by eapply in_side_idle.
Qed.

Lemma take_frame_partial a f a' m : take_frame a f = Some (a', m) -> frame_ok a f -> partial_ok a -> partial_ok a'.
Proof.
  intros Ht (_ & _ & _ & _ & Hlim) Ha. unfold take_frame in Ht. destruct (is_control_op (f_op f)); [destruct (f_fin f); [|done]; by injection Ht as <- _|].
  destruct Hlim as [_ Hsz]. destruct (is_data_op (f_op f)) eqn:Ed.
  - destruct a; [done|]. cbn in Ht, Hsz. destruct (f_fin f); injection Ht as <- _; [done|]. split; [done|]. unfold f_len in Hsz. by destruct Hsz as [(? & _) _].
  - destruct (f_op f =? NN_WS_OPCODE_FRAGMENT); [|done]. destruct a as [[op b]|]; [|done]. cbn in Ht, Hsz. destruct (f_fin f); injection Ht as <- _; [done|].
    split; [apply Ha|]. rewrite length_app. unfold f_len in Hsz. destruct Hsz as [(? & _) _]. lia.
Qed.

Context {S : Type} (add : S -> wworld -> addr -> result (S * wworld * Z)) (rm : S -> wworld -> addr -> result (S * wworld)).
Context (protocol : Z) (ispeer : Z -> bool) (le : bool) (memory rand_key junk : bytes).

(** A session whose receiving half has nothing to wait for. *)
Record ws_free (w : wworld) (pb : nn_pipebase) : Prop := {
  wf_events : io_q (wc_io (wc w)) = [];
  wf_usock : usock_active ws_owner (wus w);
  wf_state : sw_state (sw w) = NN_SWS_STATE_ACTIVE;
  wf_fsm : sw_fsm (sw w) = NN_FSM_STATE_ACTIVE;
  wf_mode : sw_mode (sw w) = mode;
  wf_type : sw_msg_type (sw w) = msg_type;
  wf_random : Forall mask_ok (sw_random (sw w));
  wf_sys : Forall reply_ok (io_sys (wc_io (wc w)));
  wf_pipe : w_pipes w !! ws_pipe = Some pb;
  wf_active : pb_state pb = NN_PIPEBASE_STATE_ACTIVE;
  wf_idle : in_idle (wus w);
  wf_out : ws_out w pb false
}.

(** The outcome of a step on the receiving half. *)
Definition ws_goes_on (w : wworld) (rest : bytes) (ms : list (Z * bytes)) (w' : wworld) : Prop := exists rcvd,
  ws_active w' false rcvd rest ms /\ outgoing (wus w') = outgoing (wus w) /\ wc_hs (wc w') = wc_hs (wc w) /\
  (rcvd = true -> (length (incoming (wus w')) < length (incoming (wus w)))%nat).

(** A request is made. *)
Lemma free_request w pb i n rest ms : ws_free w pb -> 0 < n ->
  (forall rcvd w', sin w' = i -> in_request rcvd (wus w') n -> incoming (wus w) = in_buf (wus w') ++ incoming (wus w') ->
     w_events w' = w_events w -> ws_in w' pb (incoming (wus w') ++ rest) ms rcvd) ->
  exists w', sws_io_recv (set_sin w i) n = Ok w' /\ ws_goes_on w rest ms w'.
Proof.
  intros [Hq Hu Hst Hf Hm Ht Hr Hs Hp Hps Hidle Hout] Hn Hin. unfold sws_io_recv.
  destruct (io_recv_ok ws_owner (wc_io (wc w)) n) as (x' & rcvd & E & Hu' & Hq' & Hs' & Hos & Hinc & Hreq); [done..|].
  change (wc_io (wc (set_sin w i))) with (wc_io (wc w)). rewrite E. mred. eexists. split; [reflexivity|]. exists rcvd. split; [|split; [by apply out_side_outgoing|split; [done|]]].
  - constructor; [by ws_simpl; rewrite Hq'|done..|]. exists pb. split; [done|]. split; [done|]. split; [by apply Hin|]. by eapply ws_out_ext.
  - intros ->. destruct Hreq as [_ Hl]. unfold wus at 2. rewrite Hinc, length_app. change (wus (set_wio (set_sin w i) x')) with (io_us x'). lia.
Qed.

Lemma free_message (s : S) w pb i st rest ms a f q a' m : ws_free w pb -> pb_instate pb = NN_PIPEBASE_INSTATE_ASYNC -> (ws_pipe, NN_PIPE_IN) ∉ w_events w ->
  phase a f (i_set_state (Some st) i) -> received_state st -> take_frame a f = Some (a', Some m) -> within a f q ms -> incoming (wus w) ++ rest = encodes q ->
  exists w', sws_received s (set_sin w i) st = Ok (s, w') /\ ws_goes_on w rest ms w'.
Proof.
  intros [Hq Hu Hst Hf Hm Ht Hr Hs Hp Hps Hidle Hout] Hpi He Hph Hrs Hta Hw Hb. unfold sws_received, sws_in_goto. rewrite (pipe_received _ pb) by done. mred.
  eexists. split; [reflexivity|]. exists false. split; [|done]. constructor; [done..|]. eexists. split; [apply lookup_insert_eq|]. split; [done|]. split.
  - by apply (WInMsg _ _ _ _ a f q a' m); try done; exists st.
  - eapply ws_out_ext; [exact Hout|done..|]. cbn. rewrite elem_of_app, list_elem_of_singleton. naive_solver.
Qed.

Lemma free_next w pb i rest ms a q : ws_free w pb -> pb_instate pb = NN_PIPEBASE_INSTATE_ASYNC -> (ws_pipe, NN_PIPE_IN) ∉ w_events w ->
  resting a i -> partial_ok a -> stream_ok a q ms -> incoming (wus w) ++ rest = encodes q ->
  exists w', nn_sws_recv_hdr (set_sin w i) = Ok w' /\ ws_goes_on w rest ms w'.
Proof.
  intros Hfree Hpi He Hre Ha Hso Hb. destruct (recv_hdr_ok (set_sin w i) a Hre) as (i' & -> & Hbt & Hst & Hhd). rewrite set_sin_twice.
  apply (free_request w pb i' 2); [done|lia|]. intros rcvd w' Hsin Hreq Hinc Hev. apply (WInHdr _ _ _ _ rcvd a q); rewrite ?Hsin, ?Hev; try done.
  by rewrite app_assoc, <- Hinc.
Qed.

(** What the handler does with a frame keeps the session going. *)
Lemma free_continues (s : S) w pb k rest ms a f q part : ws_free w pb -> pb_instate pb = NN_PIPEBASE_INSTATE_ASYNC -> (ws_pipe, NN_PIPE_IN) ∉ w_events w ->
  continuation_ok a f part k -> within a f q ms -> incoming (wus w) ++ rest = part ++ encodes q ->
  exists w', continues k s w = Ok (s, w') /\ ws_goes_on w rest ms w'.
Proof.
  intros Hfree Hpi He Hk Hw Hb. pose proof Hw as (Ha & Hfo & a' & m & ms' & Ht & Hso & Ems). destruct k as [i n|i st|i]; cbn [continues continuation_ok] in *.
  - destruct Hk as (Hph & -> & Hn & -> & Hor). destruct (free_request w pb i (Z.of_nat (length (asked_for f i))) rest ms Hfree Hn) as (w' & E & Hgo).
    + intros rcvd w' Hsin Hreq Hinc Hev. apply (WInPart _ _ _ _ rcvd a f q); rewrite ?Hsin, ?Hev; try done. by rewrite app_assoc, <- Hinc, Hb, <- app_assoc.
    + exists w'. rewrite E. by mred.
  - destruct Hk as (a0 & m0 & Ht0 & Hph & -> & Hrs). by apply (free_message s w pb i st rest ms a f q a0 m0).
  - destruct Hk as (a0 & Ht0 & Hbt & ->). rewrite Ht in Ht0. injection Ht0 as <- ->. subst ms.
    destruct (free_next w pb i rest ms' a' q Hfree Hpi He (between_resting _ _ Hbt) (take_frame_partial _ _ _ _ Ht Hfo Ha) Hso Hb) as (w' & E & Hgo).
    exists w'. unfold recv_next. rewrite E. by mred.
Qed.

(** The event at the front leaves the queue. *)
Definition ws_popped (w : wworld) : wworld := set_wio w (Io [] (wus w) (io_sys (wc_io (wc w)))).

Lemma head_encodes hd after q : Z.of_nat (length hd) = 2 -> hd ++ after = encodes q -> exists f q', q = f :: q' /\ hd = head2 f /\ after = (head_ext f ++ on_wire f) ++ encodes q'.
Proof.
  intros Hl E. destruct q as [|f q]; [by destruct hd|]. exists f, q. split; [done|]. unfold encodes in E. cbn [fmap list_fmap concat] in E. unfold encode at 1 in E.
  rewrite <- !app_assoc in E. apply app_inj_1 in E as [E1 E2]; [|cbn; lia]. split; [done|]. by rewrite <- app_assoc.
Qed.

Lemma ws_inbound s w rest ms : ws_active w false true rest ms ->
  exists w', nn_sws_handler alloc add rm protocol ispeer rcvmaxsize le memory rand_key s (ws_popped w) NN_SWS_SRC_USOCK NN_USOCK_RECEIVED = Ok (s, w') /\ ws_goes_on w rest ms w'.
Proof.
  intros [Hq Hu Hst Hf Hm Ht Hr Hs (pb & Hp & Hps & Hin & Hout)]. unfold nn_sws_handler. change (sw (ws_popped w)) with (sw w). rewrite Hst. eval_bools.
  assert (Hfree : in_idle (wus w) -> ws_free (ws_popped w) pb) by (intros; constructor; try done; by eapply ws_out_ext).
  change (sin (ws_popped w)) with (sin w).
  assert (Hgo : forall w', ws_goes_on (ws_popped w) rest ms w' -> ws_goes_on w rest ms w') by done.
  inversion Hin as [r a q Hbt Ha Hsi Hhd Hpi He Hreq Hso Hb Er|r a f q Hph Hsi Hpi He Hreq Hw Hb Er|]; subst r; destruct Hreq as [Hidle Hl]; specialize (Hfree Hidle).
  - rewrite Hsi. destruct (head_encodes _ _ _ Hl Hb) as (f & q' & -> & Ehd & Eaf). pose proof Hso as (Hfo & a' & m & ms' & Hta & Hso' & Ems).
    destruct (received_hdr_ok rm rcvmaxsize alloc mode Hmode s (ws_popped w) a f a' m) as (k & -> & Hk); [done..|].
    destruct (free_continues s (ws_popped w) pb k rest ms a f q' _ Hfree Hpi He Hk) as (w' & -> & Hg); [|done|exists w'; split; [done|by apply Hgo]].
    split; [done|]. split; [done|]. by exists a', m, ms'.
  - pose proof Hw as (Ha & Hfo & a' & m & ms' & Hta & Hso' & Ems).
    apply app_inj_1 in Hb as [Eb Eaf]; [|lia]. unfold asked_for in Eb. unfold awaited_after in Eaf.
    assert (Hk : exists k part, match in_state (sin w) with Some NN_SWS_INSTATE_RECV_HDR => received_hdr alloc rm rcvmaxsize s (ws_popped w)
       | Some NN_SWS_INSTATE_RECV_HDREXT => received_hdrext alloc rm rcvmaxsize s (ws_popped w) | Some NN_SWS_INSTATE_RECV_PAYLOAD => received_payload rm s (ws_popped w)
       | _ => Err AssertFailed end = continues k s (ws_popped w) /\ continuation_ok a f part k /\ incoming (wus w) ++ rest = part ++ encodes q).
    { destruct Hsi as [Hsi|Hsi]; rewrite Hsi in *.
      - destruct (received_payload_ok rm rcvmaxsize alloc mode Hmode s (ws_popped w) a f a' m) as (k & -> & Hk); [done..|]. by exists k, [].
      - destruct (received_hdrext_ok rm rcvmaxsize alloc mode Hmode s (ws_popped w) a f a' m) as (k & -> & Hk); [done..|]. by exists k, (on_wire f). }
    destruct Hk as (k & part & -> & Hk & Hpart). destruct (free_continues s (ws_popped w) pb k rest ms a f q part Hfree Hpi He Hk Hw Hpart) as (w' & -> & Hg).
    exists w'. split; [done|by apply Hgo].
Qed.

Lemma ws_outbound s w rest ms : ws_active w true false rest ms ->
  exists w', nn_sws_handler alloc add rm protocol ispeer rcvmaxsize le memory rand_key s (ws_popped w) NN_SWS_SRC_USOCK NN_USOCK_SENT = Ok (s, w') /\
    ws_active w' false false rest ms /\ wus w' = wus w.
Proof.
  intros [Hq Hu Hst Hf Hm Ht Hr Hs (pb & Hp & Hps & Hin & Hout)]. unfold nn_sws_handler. change (sw (ws_popped w)) with (sw w). rewrite Hst. eval_bools.
  inversion Hout as [|sent Hso Hpo Hidle He Er]; subst sent. rewrite Hso, bool_decide_true by done. mred.
  rewrite (pipe_sent _ pb) by done. mred. eexists. split; [reflexivity|]. split; [|done].
  constructor; [done..|]. eexists. split; [apply lookup_insert_eq|]. split; [done|]. split; [|by apply WOutIdle].
  eapply ws_in_ext; [exact Hin|done..|]. cbn. rewrite elem_of_app, list_elem_of_singleton. naive_solver.
Qed.

(** *** Leaving the context *)

Abbreviation run_events := (nn_ctx_leave ws_events ws_with_events (ws_process_event alloc add rm protocol ispeer rcvmaxsize le memory rand_key)).
Abbreviation settle := (ws_settle add rm protocol ispeer rcvmaxsize alloc le memory rand_key).

Lemma ws_process_session s w type sl : sw_fsm (sw w) = NN_FSM_STATE_ACTIVE ->
  ws_process_event alloc add rm protocol ispeer rcvmaxsize le memory rand_key (ws_with_events (s, w) []) (FsmEvent (CUsock, sl) ws_owner.1 ws_owner.2 type) =
  nn_sws_handler alloc add rm protocol ispeer rcvmaxsize le memory rand_key s (ws_popped w) NN_SWS_SRC_USOCK type.
Proof.
  intros Hf. unfold ws_process_event, ws_with_events. cbn [ev_obj ev_fsm ev_src ev_type fst snd ws_owner]. unfold sws_feed.
  match goal with |- (if negb (bool_decide (sw_fsm (sw ?v) = _)) then _ else _) = _ => change (sw_fsm (sw v)) with (sw_fsm (sw w)) end.
  rewrite Hf. eval_bools. reflexivity.
Qed.

Lemma ws_drain_received fuel s : forall w rest ms rcvd, (length (incoming (wus w)) < fuel)%nat -> ws_active w false rcvd rest ms ->
  exists w', run_events fuel (s, w) = Ok (s, w') /\ ws_active w' false false rest ms /\ outgoing (wus w') = outgoing (wus w).
Proof.
  induction fuel as [|fuel IH]; intros w rest ms rcvd Hfuel Hac; [lia|]. destruct rcvd.
  2: { exists w. split; [|done]. apply nn_ctx_leave_empty. apply Hac. }
  destruct (ws_inbound s w rest ms Hac) as (w1 & E & r1 & Hac1 & Ho1 & _ & Hl).
  rewrite (nn_ctx_leave_step _ _ _ fuel (s, w) (received_event ws_owner) [] (s, w1)); [|apply Hac|unfold received_event; rewrite ws_process_session by apply Hac; exact E].
  destruct r1.
  - destruct (IH w1 rest ms true) as (w' & E' & Hac' & Ho'); [specialize (Hl eq_refl); lia|done|]. exists w'. by rewrite Ho'.
  - exists w1. split; [|done]. apply nn_ctx_leave_empty. apply Hac1.
Qed.

Definition ws_rests (w : wworld) (rest : bytes) (ms : list (Z * bytes)) : Prop := ws_active w false false rest ms /\ w_events w = [].

Lemma ws_rest_events w rest ms : ws_active w false false rest ms -> ws_rests (set_events w []) rest ms.
Proof.
  intros [Hq Hu Hst Hf Hm Ht Hr Hs (pb & Hp & Hps & Hin & Hout)]. split; [|done]. constructor; [done..|]. exists pb.
  split; [done|]. split; [done|]. split; [eapply ws_in_ext; [exact Hin|done..|]|eapply ws_out_ext; [exact Hout|done..|]]; cbn; set_solver.
Qed.

(** The context is left with the events of at most one direction. *)
Lemma ws_settle_ok s w sent rcvd rest ms : ws_active w sent rcvd rest ms -> sent && rcvd = false ->
  exists w', settle s w = Ok (s, w') /\ ws_rests w' rest ms /\ outgoing (wus w') = outgoing (wus w).
Proof.
  intros Hac Hb. unfold ws_settle, ws_leave. destruct sent; [destruct rcvd; [done|]|].
  - destruct (ws_outbound s w rest ms Hac) as (w' & E & Hac' & Hu). exists (set_events w' []).
    rewrite (nn_ctx_leave_step _ _ _ (1 + length (incoming (wus w))) (s, w) (sent_event ws_owner) [] (s, w')); [|apply Hac|unfold sent_event; rewrite ws_process_session by apply Hac; exact E].
    rewrite nn_ctx_leave_empty by apply Hac'. mred. split; [done|]. split; [by apply ws_rest_events|]. change (wus (set_events w' [])) with (wus w'). by rewrite Hu.
  - destruct (ws_drain_received (ws_fuel w) s w rest ms rcvd) as (w' & E & Hac' & Ho); [unfold ws_fuel; lia|done|]. exists (set_events w' []). rewrite E. mred.
    split; [done|]. split; [by apply ws_rest_events|done].
Qed.

(** *** The operations *)

#[local] Instance wst : Transport wconn := sws_transport alloc junk.

Lemma ws_worker_ok s w rest ms j sys : ws_rests w rest ms -> Forall reply_ok sys -> job_ok j -> worker_can (wus w) j = true ->
  exists x w', io_worker (wc_io (wc (ws_with_sys w sys))) j = Ok x /\ settle s (set_wio w x) = Ok (s, w') /\ ws_rests w' rest ms /\ outgoing (wus w') = outgoing (wus w).
Proof.
  intros [[Hq Hu Hst Hf Hm Ht Hr Hsy (pb & Hp & Hps & Hin & Hout)] Hev] Hs Hj Hcan. set (x := wc_io (wc (ws_with_sys w sys))).
  assert (Hsent : exists sent, (if sent : bool then out_busy (wus w) else out_idle (wus w))
    /\ forall s' w2 pb2, (if sent then out_request s' (wus w2) else s' = false /\ out_idle (wus w2)) -> sw_outstate (sw w2) = sw_outstate (sw w) ->
         pb_outstate pb2 = pb_outstate pb -> w_events w2 = [] -> ws_out w2 pb2 s').
  { inversion Hout as [H1 H2 H3|r H1 H2 H3 H4]; [exists false|subst r; exists true]; (split; [done|]); intros s' w2 pb2 Ho Es Ep Ee.
    - destruct Ho as [-> Ho]. by apply WOutIdle; rewrite ?Es, ?Ep.
    - apply WOutSending; rewrite ?Es, ?Ep, ?Ee; [done..|set_solver]. }
  assert (Hrcvd : exists rcvd n, (if rcvd : bool then in_busy (wus w) n else in_idle (wus w))
    /\ forall r' d w2 pb2, (if rcvd then in_request r' (wus w2) n else r' = false /\ d = [] /\ in_idle (wus w2)) -> sin w2 = sin w ->
         pb_instate pb2 = pb_instate pb -> w_events w2 = [] -> in_buf (wus w2) = in_buf (wus w) ++ d -> incoming (wus w) = d ++ incoming (wus w2) -> ws_in w2 pb2 (incoming (wus w2) ++ rest) ms r').
  { inversion Hin as [r a q H1 H2 H3 H4 H5 H6 H7 H8 H9|r a f q H1 H2 H3 H4 H5 H6 H7|a f q a' m H1 H2 H3 H4 H5 H6 H7]; [subst r; exists true, 2|subst r; eexists true, _|exists false, 0];
      (split; [done|]); intros r' d w2 pb2 Hi Es Ep Ee Eb Einc.
    - apply (WInHdr _ _ _ _ r' a q); rewrite ?Es, ?Ep, ?Ee, ?Eb; try done; [set_solver|]. rewrite <- H9, Einc. by rewrite <- !app_assoc.
    - apply (WInPart _ _ _ _ r' a f q); rewrite ?Es, ?Ep, ?Ee, ?Eb; try done; [set_solver|]. rewrite <- H7, Einc. by rewrite <- !app_assoc.
    - destruct Hi as (-> & -> & Hi). apply (WInMsg _ _ _ _ a f q a' m); rewrite ?Es, ?Ep; try done. by rewrite <- H7, Einc. }
  destruct Hsent as (sent & Hout0 & Hout1), Hrcvd as (rcvd & n & Hin0 & Hin1).
  destruct (io_worker_ok ws_owner x j sent rcvd n) as (x' & s' & r' & d & -> & Hu' & Hq' & Hsr & Hs' & Ho' & Hi' & Hb' & Hout' & Hin'); [done..|].
  destruct (ws_settle_ok s (set_wio w x') s' r' rest ms) as (w3 & E & Hrest & Ho3); [|done|].
  { constructor; [done..|]. exists pb. split; [done|]. split; [done|]. split; [by eapply Hin1|by eapply Hout1]. }
  exists x', w3. split; [done|]. split; [done|]. split; [done|]. by rewrite Ho3.
Qed.

(** A frame the session may send. *)
Definition sent_frame (op : Z) (b : bytes) (f : wframe) : Prop :=
  f_fin f = true /\ f_op f = op /\ f_payload f = b /\ is_masked f = bool_decide (mode = NN_WS_CLIENT) /\ (forall m, f_mask f = Some m -> mask_ok m).

Lemma next_mask_ok self m self' : next_mask self = (m, self') -> Forall mask_ok (sw_random self) ->
  mask_ok m /\ exists ms, self' = sw_set_random ms self /\ Forall mask_ok ms.
Proof.
  unfold next_mask. destruct (sw_random self) as [|m0 ms0] eqn:Er; intros [= <- <-] Hf.
  - split; [split; [done|]; repeat (apply Forall_cons; split; [by split|]); apply Forall_nil_2|]. exists []. split; [|done]. by destruct self; cbn in *; subst.
  - apply Forall_cons in Hf as [? ?]. split; [done|]. by exists ms0.
Qed.

Lemma encode_sent f (h a b : bytes) : head2 f ++ head_ext f = h -> a ++ b = on_wire f -> concat [h; a; b] = encode f.
Proof. intros <- E. cbn [concat]. rewrite app_nil_r, E. unfold encode. by rewrite <- app_assoc. Qed.

(** The frame of a message, and what is left of the session. *)
Lemma sws_send_ok w m op : sw_state (sw w) = NN_SWS_STATE_ACTIVE -> sw_outstate (sw w) = Some NN_SWS_OUTSTATE_IDLE -> sw_mode (sw w) = mode ->
  Forall mask_ok (sw_random (sw w)) -> opcode_of (sw w) m = Ok op -> 0 <= op < 16 -> Z.of_nat (length (wire_msg m)) < 2 ^ 32 ->
  exists f h a b msg rs, sent_frame op (wire_msg m) f /\ concat [h; a; b] = encode f /\ Forall mask_ok rs /\
    nn_sws_send w m = (w' ← sws_io_send (set_sw w (sw_set_out (sw_outstate (sw w)) (outhdr_of h) msg (sw_set_random rs (sw w)))) [h; a; b];
                       Ok (set_sw w' (sw_set_out (Some NN_SWS_OUTSTATE_SENDING) (outhdr_of h) msg (sw w')), 0)).
Proof.
  intros Hst Hos Hm Hr Hop Hrng Hlen. unfold wire_msg in *. rewrite length_app in Hlen. unfold nn_sws_send. rewrite Hst, Hos, Hop. eval_bools. mred. rewrite Hm.
  assert (Esz : u64 (Z.of_nat (length (sphdr m)) + Z.of_nat (length (body m))) = Z.of_nat (length (sphdr m ++ body m))) by (rewrite length_app, wrap_small by (unfold in_range; lia); lia).
  assert (Hhdr : forall mk, let f := WFrame true op mk (sphdr m ++ body m) in
    frame_header op (u64 (Z.of_nat (length (sphdr m)) + Z.of_nat (length (body m)))) mk = Ok (head2 f ++ head_ext f)).
  { intros mk f. rewrite Esz. apply (frame_header_eq f); [done|done|]. unfold f_len. cbn. rewrite length_app. lia. }
  destruct Hmode as [E|E]; rewrite E; eval_bools.
  - rewrite Hhdr. mred. set (f := WFrame true op None (sphdr m ++ body m)).
    exists f, (head2 f ++ head_ext f), (sphdr m), (body m), m, (sw_random (sw w)). split; [unfold sent_frame; by rewrite E|]. split; [by apply encode_sent|]. split; [done|].
    replace (sw_set_random (sw_random (sw w)) (sw w)) with (sw w) by (by destruct (sw w)). rewrite Hos. reflexivity.
  - destruct (next_mask (sw w)) as [mk self'] eqn:Emk. destruct (next_mask_ok _ _ _ Emk Hr) as ([Hml Hmb] & rs & -> & Hrs).
    rewrite Hhdr. mred. set (f := WFrame true op (Some mk) (sphdr m ++ body m)).
    destruct (mask_payload_app (sphdr m) (body m) mk Hml) as (k & a & b & k2 & E1 & E2 & Eab); [lia|lia|]. rewrite E1. mred. rewrite E2. mred.
    exists f, (head2 f ++ head_ext f), a, b, (Msg a (hdrs m) b), rs. split; [unfold sent_frame; rewrite E; repeat (split; [done|]); by intros m0 [= <-]|]. split; [by apply encode_sent|]. split; [done|].
    cbn [sphdr body]. cbn [sw_outstate sw_set_random]. rewrite ?Hos. reflexivity.
Qed.

Lemma encode_nonempty f : encode f <> [].
Proof. done. Qed.

Lemma ws_send_ok s w rest ms m sys op : ws_rests w rest ms -> Forall reply_ok sys -> ws_pipe_is w (fun pb => bool_decide (pb_state pb = NN_PIPEBASE_STATE_ACTIVE) && bool_decide (pb_outstate pb = NN_PIPEBASE_OUTSTATE_IDLE)) = true ->
  opcode_of (sw w) m = Ok op -> 0 <= op < 16 -> Z.of_nat (length (wire_msg m)) < 2 ^ 32 ->
  exists w1 rc f w', nn_pipe_send (ws_with_sys w sys) ws_pipe m = Ok (w1, rc) /\ settle s w1 = Ok (s, w') /\ ws_rests w' rest ms /\
    sent_frame op (wire_msg m) f /\ outgoing (wus w') = outgoing (wus w) ++ encode f.
Proof.
  intros [[Hq Hu Hst Hf Hm Ht Hr Hsy (pb & Hp & Hps & Hin & Hout)] Hev] Hs Hpi Hop Hrng Hlen. unfold ws_pipe_is in Hpi. rewrite Hp in Hpi.
  apply andb_prop in Hpi as [_ Ho%bool_decide_eq_true]. inversion Hout as [Hso _ Hidle|sent _ Hpo]; [|congruence]. clear Hout.
  unfold nn_pipe_send. replace (w_pipes (ws_with_sys w sys)) with (w_pipes w) by done. rewrite Hp. mred. rewrite (bool_decide_eq_true_2 _ Ho). mred.
  cbn [vf_send wst sws_transport]. set (w1 := set_pipe _ _ _).
  destruct (sws_send_ok w1 m op) as (f & h & a & b & msg & rs & Hsf & Ecat & Hrs & ->); [done..|].
  unfold sws_io_send. match goal with |- context [io_send (wc_io (wc ?v)) _] => change (wc_io (wc v)) with (wc_io (wc (ws_with_sys w sys))) end.
  destruct (io_send_ok ws_owner (wc_io (wc (ws_with_sys w sys))) [h; a; b]) as (x' & sent & E & Hu' & Hq' & Hs' & Hi' & Ho' & Hreq); [done..|cbn; lia|by rewrite Ecat|].
  rewrite E. mred. rewrite bool_decide_true by lia. mred.
  match goal with |- context [w_pipes ?v !! ws_pipe] => assert (Ep : w_pipes v !! ws_pipe = Some (set_out NN_PIPEBASE_OUTSTATE_SENDING pb)) by apply lookup_insert_eq end.
  rewrite Ep. mred. eval_bools. mred. set (w2 := set_pipe _ _ _).
  assert (Hinc : incoming (wus w2) = incoming (wus w)) by (change (wus w2) with (io_us x'); by apply in_side_incoming).
  assert (Hac : ws_active w2 sent false rest ms).
  { constructor; [unfold w2; ws_simpl; by rewrite Hq', app_nil_r|done..|]. eexists. split; [apply lookup_insert_eq|]. split; [done|]. split.
    - rewrite Hinc. by eapply ws_in_ext; [exact Hin|done|done|exact Hi'|].
    - apply WOutSending; [done|done|done|]. cbn. rewrite Hev. set_solver. }
  destruct (ws_settle_ok s w2 sent false rest ms Hac (andb_false_r _)) as (w3 & E3 & Hrest & Ho3).
  eexists w2, _, f, w3. split; [reflexivity|]. split; [done|]. split; [done|]. split; [done|]. rewrite Ho3. change (wus w2) with (io_us x'). by rewrite Ho', Ecat.
Qed.

Definition hands_out (m : Z * bytes) : nn_msg := Msg [] (opcode_cmsg junk m.1) m.2.

Lemma ws_recv_ok s w rest ms sys : ws_rests w rest ms -> Forall reply_ok sys -> ws_pipe_is w (fun pb => bool_decide (pb_state pb = NN_PIPEBASE_STATE_ACTIVE) && bool_decide (pb_instate pb = NN_PIPEBASE_INSTATE_IDLE)) = true ->
  exists w1 rc m ms' w', nn_pipe_recv (ws_with_sys w sys) ws_pipe = Ok (w1, rc, hands_out m) /\ settle s w1 = Ok (s, w') /\ ms = m :: ms' /\ ws_rests w' rest ms' /\
    outgoing (wus w') = outgoing (wus w).
Proof.
  intros [[Hq Hu Hst Hf Hm Ht Hr Hsy (pb & Hp & Hps & Hin & Hout)] Hev] Hs Hpi. unfold ws_pipe_is in Hpi. rewrite Hp in Hpi.
  apply andb_prop in Hpi as [_ Hi%bool_decide_eq_true].
  inversion Hin as [r a q H1 H2 H3 H4 H5|r a f q H1 H2 H3|a f q a' m Hph Hrp Hta _ Hidle Hw Hb Er]; [congruence..|]. clear Hin.
  destruct Hw as (Ha & Hfo & a0 & m0 & ms' & Hta0 & Hso & Ems). rewrite Hta in Hta0. injection Hta0 as <- <-.
  unfold nn_pipe_recv. replace (w_pipes (ws_with_sys w sys)) with (w_pipes w) by done. rewrite Hp. mred. rewrite (bool_decide_eq_true_2 _ Hi). mred.
  cbn [vf_recv wst sws_transport]. set (w1 := set_pipe _ _ _).
  destruct (sws_recv_ok rcvmaxsize alloc mode Hmode junk w1 a f a' m) as (i & -> & Hbt & Hsi & Hhd); [done..|].
  unfold sws_io_recv. destruct (io_recv_ok ws_owner (wc_io (wc (set_sin w1 i))) 2) as (x' & rcvd & E & Hu' & Hq' & Hsys' & Hos & Hinc & Hreq); [done..|].
  rewrite E. mred. rewrite bool_decide_true by lia. mred.
  match goal with |- context [w_pipes ?v !! ws_pipe] => assert (Ep : w_pipes v !! ws_pipe = Some (set_in NN_PIPEBASE_INSTATE_RECEIVING pb)) by apply lookup_insert_eq end.
  rewrite Ep. mred. eval_bools. mred. set (w2 := set_pipe _ _ _).
  assert (Hac : ws_active w2 false rcvd rest ms').
  { constructor; [unfold w2; ws_simpl; by rewrite Hq'|done..|]. eexists. split; [apply lookup_insert_eq|]. split; [done|]. split.
    - apply (WInHdr _ _ _ _ rcvd a' q); [done|by eapply take_frame_partial|done|done|done| |done|done|].
      + cbn. rewrite Hev. set_solver.
      + change (wus w2) with (io_us x'). rewrite app_assoc, <- Hinc. exact Hb.
    - eapply ws_out_ext; [exact Hout|done|done|exact Hos|done]. }
  destruct (ws_settle_ok s w2 false rcvd rest ms' Hac eq_refl) as (w3 & E3 & Hrest & Ho3).
  eexists w2, _, m, ms', w3. split; [reflexivity|]. split; [done|]. split; [done|]. split; [done|]. rewrite Ho3. by apply out_side_outgoing.
Qed.

Lemma ws_arrive_ok w d rest ms : ws_rests w (d ++ rest) ms -> ws_rests (ws_deliver d w) rest ms.
Proof.
  intros [[Hq Hu Hst Hf Hm Ht Hr Hsy (pb & Hp & Hps & Hin & Hout)] Hev]. split; [|done]. constructor; [done|by destruct Hu; constructor|done..|].
  exists pb. split; [done|]. split; [done|]. split; [|by eapply ws_out_ext].
  assert (E : incoming (wus (ws_deliver d w)) ++ rest = incoming (wus w) ++ d ++ rest).
  { change (incoming (wus (ws_deliver d w))) with (in_batch (wus w) ++ os_rx (us_os (wus w)) ++ d). unfold incoming. by rewrite <- !app_assoc. }
  rewrite E. destruct Hin as [r a q H1 H2 H3 H4 H5 H6 H7 H8 H9|r a f q H1 H2 H3 H4 H5 H6 H7|a f q a' m H1 H2 H3 H4 H5 H6 H7].
  - by apply (WInHdr _ _ _ _ r a q).
  - by apply (WInPart _ _ _ _ r a f q).
  - by apply (WInMsg _ _ _ _ a f q a' m).
Qed.

(** *** The beginning *)

(** The handshake is over and its machine has stopped: the session owns the
    socket, which has no request, and its pipe was not started. *)
Record ws_ready (w : wworld) : Prop := {
  wr_events : io_q (wc_io (wc w)) = [];
  wr_usock : usock_active ws_owner (wus w);
  wr_state : sw_state (sw w) = NN_SWS_STATE_STOPPING_HANDSHAKE;
  wr_fsm : sw_fsm (sw w) = NN_FSM_STATE_ACTIVE;
  wr_mode : sw_mode (sw w) = mode;
  wr_type : sw_msg_type (sw w) = msg_type;
  wr_random : Forall mask_ok (sw_random (sw w));
  wr_resting : resting None (sin w);
  wr_in : in_idle (wus w);
  wr_out : out_idle (wus w);
  wr_pipe : exists pb, w_pipes w !! ws_pipe = Some pb /\ pb_state pb = NN_PIPEBASE_STATE_IDLE;
  wr_wevents : w_events w = []
}.

Lemma ws_begin_ok `{!AcceptingSockets add} s w sys rest q ms : ws_ready w -> Forall reply_ok sys -> stream_ok None q ms -> incoming (wus w) ++ rest = encodes q ->
  exists s' w', ws_begin add rm protocol ispeer rcvmaxsize alloc le memory rand_key s w sys rest = Ok (WsEnd (s', w') rest [] []) /\ ws_rests w' rest ms /\
    outgoing (wus w') = outgoing (wus w).
Proof.
  intros [Hq Hu Hst Hf Hm Ht Hr Hre Hin Hout (pb & Hp & Hps) Hev] Hs Hso Hb. unfold ws_begin, nn_sws_handler. set (w1 := ws_with_sys w sys).
  change (sw w1) with (sw w). rewrite Hst. eval_bools.
  destruct (accepts s (set_pipe w1 ws_pipe (starting pb)) ws_pipe (starting pb)) as (s' & d & Eadd); [apply lookup_insert_eq|].
  rewrite (nn_pipebase_start_ok add s s' w1 ws_pipe pb _ (set_data d (starting pb)) 0 Hp Hps Eadd); [|apply lookup_insert_eq|].
  2: { cbn. rewrite Hev. set_solver. }
  change (bool_decide (0 < 0)) with false. cbn iota. mred. set (w2 := set_events _ _). change (bool_decide (0 < 0)) with false. cbn iota.
  destruct (recv_hdr_ok w2 None Hre) as (i & -> & Hbt & Hsi & Hhd). unfold sws_io_recv.
  destruct (io_recv_ok ws_owner (wc_io (wc (set_sin w2 i))) 2) as (x' & rcvd & E & Hu' & Hq' & Hsys' & Hos & Hinc & Hreq); [done..|].
  rewrite E. mred. set (w3 := sws_goto _ _).
  assert (Hac : ws_active w3 false rcvd rest ms).
  { constructor; [unfold w3; ws_simpl; by rewrite Hq'|done..|]. exists (set_data d (starting pb)). split; [apply lookup_insert_eq|]. split; [done|]. split.
    - apply (WInHdr _ _ _ _ rcvd None q); [done|done|done|done|done| |done|done|].
      + cbn. rewrite Hev. set_solver.
      + change (wus w3) with (io_us x'). rewrite app_assoc, <- Hinc. exact Hb.
    - apply WOutIdle; [done|done|]. by apply (out_side_idle _ _ Hos). }
  destruct (ws_settle_ok s' w3 false rcvd rest ms Hac eq_refl) as (w4 & E4 & Hrest & Ho4). exists s', w4. rewrite E4. mred. split; [done|]. split; [done|]. rewrite Ho4. by apply out_side_outgoing.
Qed.

(** *** Runs *)

(** A message the user may send: of a type of RFC 6455, and not a long
    control frame. *)
Definition sendable (m : nn_msg) : Prop := exists op, (forall self, sw_msg_type self = msg_type -> opcode_of self m = Ok op) /\
  (is_data_op op = true \/ is_control_op op = true /\ Z.of_nat (length (wire_msg m)) <= 125) /\ Z.of_nat (length (wire_msg m)) < 2 ^ 32.

Definition ws_op_ok (o : ws_op) : Prop :=
  match o with
  | WSend m sys => sendable m /\ Forall reply_ok sys
  | WRecv sys => Forall reply_ok sys
  | WWorker j sys => job_ok j /\ Forall reply_ok sys
  | WArrive _ => True
  end.

(** [fs]: the frames the session has sent. *)
Definition ws_inv (out0 : bytes) (all : list (Z * bytes)) (e : ws_end S) : Prop := exists ms fs,
  ws_rests (we_state e).2 (we_rest e) ms /\ hands_out <$> all = we_rcvd e ++ (hands_out <$> ms) /\
  outgoing (wus (we_state e).2) = out0 ++ encodes fs /\ Forall2 (fun m f => sent_frame m.1 m.2 f /\ (is_control_op m.1 = true -> f_len f <= 125)) (we_sent e) fs /\
  assemble None fs = Some (we_sent e).

Lemma assemble_snoc fs ms f op b : assemble None fs = Some ms -> Forall (fun f => f_fin f = true) fs -> sent_frame op b f -> is_data_op op = true \/ is_control_op op = true ->
  assemble None (fs ++ [f]) = Some (ms ++ [(op, b)]).
Proof.
  intros Ha Hfin (Hf & Hop & Hb & _) Hk. assert (Hone : forall g m, take_frame None g = Some (None, Some m) -> assemble None [g] = Some [m]) by (intros g m E; cbn; by rewrite E).
  assert (Hf1 : take_frame None f = Some (None, Some (op, b))).
  { unfold take_frame. rewrite Hf, Hop, Hb. destruct (is_control_op op); [done|]. destruct Hk as [->|]; done. }
  revert ms Ha. induction Hfin as [|g fs Hg Hfs IH]; intros ms Ha; cbn [app].
  - injection Ha as <-. by apply Hone.
  - cbn [assemble] in *. destruct (take_frame None g) as [[a m]|] eqn:Eg; [|done]. cbn in Ha |- *.
    assert (a = None) as ->. { unfold take_frame in Eg. rewrite Hg in Eg. destruct (is_control_op (f_op g)); [by injection Eg|]. destruct (if is_data_op _ then _ else _); [|done]. by injection Eg. }
    destruct (assemble None fs) as [ms0|]; [|done]. cbn in Ha. rewrite (IH ms0 eq_refl). cbn. destruct m; by injection Ha as <-.
Qed.

Lemma encodes_snoc fs f : encodes (fs ++ [f]) = encodes fs ++ encode f.
Proof. unfold encodes. rewrite fmap_app, concat_app. cbn [fmap list_fmap concat]. by rewrite app_nil_r. Qed.

Abbreviation step := (ws_step add rm protocol ispeer rcvmaxsize alloc le memory rand_key junk).

Lemma ws_step_ok out0 all e o : ws_inv out0 all e -> ws_op_ok o -> exists e', step o e = Ok e' /\ ws_inv out0 all e'.
Proof.
  intros (ms & fs & Hrest & Hall & Hout & Hfs & Has) Ho. destruct e as [[s w] rest sent rcvd]. cbn [we_state we_rest we_sent we_rcvd snd] in *.
  unfold ws_step. cbn [we_state we_rest we_sent we_rcvd]. destruct o as [m sys|sys|j sys|n]; cbn [ws_op_ok] in Ho.
  - destruct (ws_pipe_is w _) eqn:Ep; [|eexists; split; [reflexivity|by exists ms, fs]]. destruct Ho as [(op & Hop & Hk & Hlen) Hs].
    specialize (Hop (sw w) (wa_type _ _ _ _ _ (proj1 Hrest))). rewrite Hop. mred.
    assert (Hrng : 0 <= op < 16). { destruct Hk as [Hd|[Hc _]]; [by apply data_op_byte|]. unfold is_control_op in Hc. by apply orb_prop in Hc as [->%Z.eqb_eq| ->%Z.eqb_eq]. }
    destruct (ws_send_ok s w rest ms m sys op Hrest Hs Ep Hop Hrng Hlen) as (w1 & rc & f & w' & E1 & E2 & Hrest' & Hsf & Hout').
    match goal with |- exists e', (nn_pipe_send ?a ?b ?c ≫= _) = _ /\ _ => change (nn_pipe_send a b c) with (nn_pipe_send (T := wconn) (ws_with_sys w sys) ws_pipe m) end.
    rewrite E1. mred. rewrite E2. mred. eexists. split; [reflexivity|]. exists ms, (fs ++ [f]). cbn [we_state we_rest we_sent we_rcvd snd].
    split; [done|]. split; [done|]. split; [by rewrite Hout', Hout, encodes_snoc, <- app_assoc|]. split.
    + apply Forall2_app; [done|]. apply Forall2_cons. split; [|by apply Forall2_nil]. split; [done|]. cbn. destruct Hsf as (_ & _ & Hb & _). unfold f_len. rewrite Hb.
      intros Hc. destruct Hk as [Hd|[_ ?]]; [|done]. unfold is_data_op in Hd. apply orb_prop in Hd as [->%Z.eqb_eq| ->%Z.eqb_eq]; done.
    + apply assemble_snoc; [done| |done|naive_solver]. clear -Hfs. induction Hfs as [|? ? ? ? [(? & _) _]]; by constructor.
  - destruct (ws_pipe_is w _) eqn:Ep; [|eexists; split; [reflexivity|by exists ms, fs]].
    destruct (ws_recv_ok s w rest ms sys Hrest Ho Ep) as (w1 & rc & m & ms' & w' & E1 & E2 & -> & Hrest' & Hout').
    match goal with |- exists e', (nn_pipe_recv ?a ?b ≫= _) = _ /\ _ => change (nn_pipe_recv a b) with (nn_pipe_recv (T := wconn) (ws_with_sys w sys) ws_pipe) end.
    rewrite E1. mred. rewrite E2. mred. eexists. split; [reflexivity|]. exists ms', fs. cbn [we_state we_rest we_sent we_rcvd snd].
    split; [done|]. split; [by rewrite Hall, <- app_assoc|]. by rewrite Hout'.
  - destruct (worker_can (wus w) j) eqn:Ec; [|eexists; split; [reflexivity|by exists ms, fs]]. destruct Ho as [Hj Hs].
    destruct (ws_worker_ok s w rest ms j sys Hrest Hs Hj Ec) as (x & w' & E1 & E2 & Hrest' & Hout'). rewrite E1. mred. rewrite E2. mred.
    eexists. split; [reflexivity|]. exists ms, fs. cbn [we_state we_rest we_sent we_rcvd snd]. by rewrite Hout'.
  - eexists. split; [reflexivity|]. exists ms, fs. cbn [we_state we_rest we_sent we_rcvd snd]. split; [|done]. apply ws_arrive_ok. by rewrite take_drop.
Qed.

Lemma ws_run_ok out0 all os : forall e, ws_inv out0 all e -> Forall ws_op_ok os ->
  exists e', ws_run add rm protocol ispeer rcvmaxsize alloc le memory rand_key junk os e = Ok e' /\ ws_inv out0 all e'.
Proof.
  induction os as [|o os IH]; intros e He Hos; [by exists e|]. apply Forall_cons in Hos as [Ho Hos]. cbn [ws_run].
  destruct (ws_step_ok out0 all e o He Ho) as (e1 & -> & He1). mred. by apply IH.
Qed.

(** All bytes arrived and were taken from the socket, and there is no message
    to receive. *)
Definition ws_drained (e : ws_end S) : Prop :=
  we_rest e = [] /\ incoming (wus (we_state e).2) = [] /\ ws_pipe_is (we_state e).2 (fun pb => bool_decide (pb_instate pb = NN_PIPEBASE_INSTATE_IDLE)) = false.

Lemma ws_drained_all w ms : ws_rests w [] ms -> incoming (wus w) = [] -> ws_pipe_is w (fun pb => bool_decide (pb_instate pb = NN_PIPEBASE_INSTATE_IDLE)) = false -> ms = [].
Proof.
  intros [[_ _ _ _ _ _ _ _ (pb & Hp & _ & Hin & _)] _] Hi Hpi. rewrite Hi, app_nil_r in Hin.
  inversion Hin as [r a q H1 H2 H3 H4 H5 H6 H7 H8 H9 Er|r a f q H1 H2 H3 H4 H5 H6 H7 Er|a f q a' m H1 H2 H3 H4]; try subst r.
  - destruct q as [|f q]; [by cbn in H8|]. exfalso. destruct H7 as (Hl & Hs & _). rewrite app_nil_r in H9. apply (f_equal length) in H9. unfold encodes in H9. cbn [fmap list_fmap concat] in H9.
    unfold encode in H9. rewrite !length_app in H9. cbn [length head2] in H9. lia.
  - exfalso. destruct H5 as (Hl & Hs & _). rewrite app_nil_r in H7. apply (f_equal length) in H7. rewrite length_app in H7. lia.
  - exfalso. unfold ws_pipe_is in Hpi. rewrite Hp in Hpi. by apply bool_decide_eq_false in Hpi.
Qed.
End Rep.


(** ** Examples *)

Definition demo_add (s : unit) (w : wworld) (p : addr) : result (unit * wworld * Z) := w ← nn_pipe_setdata w p (Some p); Ok (s, w, 0).
Definition demo_rm (s : unit) (w : wworld) (p : addr) : result (unit * wworld) := Ok (s, w).
#[export] Instance demo_ws_accepts : AcceptingSockets demo_add.
Proof. intros s w p pb Hp. exists s, (Some p). unfold demo_add, nn_pipe_setdata. by rewrite Hp. Qed.

Definition demo_alloc (n : Z) : bool := bool_decide (n < 2 ^ 30).

(** A session whose handshake is over. *)
Definition demo_session (mode : Z) : nn_sws :=
  sw_set_fsm NN_FSM_STATE_ACTIVE (sw_set_state NN_SWS_STATE_STOPPING_HANDSHAKE (sw_set_usock true (Some COwner, 1) (sw_set_peer mode [] [] NN_WS_OPCODE_BINARY
    (nn_sws_init 2 (replicate 125 0xCC) [[1; 2; 3; 4]])))).
Definition demo_socket : nn_usock :=
  match nn_usock_start_fd [] (nn_usock_init CUsock 1 (Some COwner)) with Ok (_, u) => (nn_usock_swap_owner u ws_owner).1 | Err _ => nn_usock_init CUsock 1 None end.
Definition demo_ws (mode : Z) : wworld :=
  World (WConn (Io [] demo_socket []) (nn_ws_handshake_init 3) (demo_session mode) []) {[1%positive := nn_pipebase_init (EpOptions 8 8 1)]} [] (fun _ => 0).

Lemma demo_ws_ready mode : ws_ready mode NN_WS_OPCODE_BINARY (demo_ws mode).
Proof.
  constructor; try done.
  - constructor; try done. apply NoDup_nil_2.
  - repeat (apply Forall_cons; split; [split; [done|]; repeat (apply Forall_cons; split; [by split|]); apply Forall_nil_2|]). apply Forall_nil_2.
  - split; [apply not_elem_of_nil|done].
  - split; [done|]. split; [apply not_elem_of_nil|done].
  - eexists. split; [reflexivity|done].
Qed.

(** "Hi" in two fragments, a ping between them, and three bytes of binary
    data, from a client. *)
Definition demo_frames : list wframe :=
  [WFrame false NN_WS_OPCODE_TEXT (Some [1; 2; 3; 4]) [72]; WFrame true NN_WS_OPCODE_PING (Some [9; 9; 9; 9]) [];
   WFrame true NN_WS_OPCODE_FRAGMENT (Some [5; 6; 7; 8]) [105]; WFrame true NN_WS_OPCODE_BINARY (Some [255; 0; 255; 0]) [1; 2; 3]].
Definition demo_texts : list (Z * bytes) := [(NN_WS_OPCODE_PING, []); (NN_WS_OPCODE_TEXT, [72; 105]); (NN_WS_OPCODE_BINARY, [1; 2; 3])].

(** The answer goes out in two parts; the bytes of the peer arrive seven at
    first. *)
Definition demo_ops : list ws_op :=
  let reads := [WWorker WTask []; WWorker WTask []; WWorker (WIn (Done 100)) []] in
  [WArrive 7] ++ reads ++ [WSend (Msg [1] [] [2]) [Done 1]; WArrive 100] ++ reads ++ [WWorker (WOut (Done 100)) []; WRecv []] ++ reads ++ [WRecv []] ++ reads ++ [WRecv []].

Definition demo_begin := ws_begin demo_add demo_rm 16 (fun _ => true) 1048576 demo_alloc true [] [] tt (demo_ws NN_WS_SERVER) [] (encodes demo_frames).
Definition demo_run := ws_run demo_add demo_rm 16 (fun _ => true) 1048576 demo_alloc true [] [] (replicate 7 0).

Ltac concrete_bytes := repeat (apply Forall_cons; split; [by split|]); apply Forall_nil_2.

Lemma demo_frames_ok : stream_ok 1048576 demo_alloc true None demo_frames demo_texts.
Proof.
  assert (Hmask : forall f : wframe, f ∈ demo_frames -> forall m, f_mask f = Some m -> length m = 4%nat /\ bytes_ok m).
  { intros f Hf. unfold demo_frames in Hf. rewrite !elem_of_cons in Hf. destruct_or! Hf; [subst f; intros m [= <-]; split; [done|concrete_bytes]..|by apply elem_of_nil in Hf]. }
  assert (Htext : forall c, c = 72 \/ c = 105 -> utf8_text [c]) by (intros c [-> | ->]; [exists [72]|exists [105]]; split; [|done| |done]; apply Forall_singleton; unfold scalar; lia).
  unfold demo_frames in *.
  repeat (split; [split; [done|]; split; [apply Hmask; set_solver|]; split; [concrete_bytes|]; split; [done|]; cbn;
                  first [done|split; [done|]; split; [by split|]; first [done|intros _; apply Htext; auto]]|]; eexists _, _, _; split; [reflexivity|]; split; [|reflexivity]).
  reflexivity.
Qed.

