(* ===== verification/Wsexamples.v ===== *)
(** * WebSocket in practice

    Sessions of the files [Sws] and [Wshandshake] on concrete bytes: a whole
    connection from the opening handshake on, and what happens outside the
    frames the file [Wsstreams] admits. *)

From S2P Require Import Prelude NNList Wire Timer Pipe Ctx Usock Utf8 Cmsg Streamhdr Stcp Streams Wsparse Wshandshake Sws Wsframes Wsstreams.
From Stdlib Require Strings.String.
Import String.StringSyntax.
Local Open Scope Z_scope.
#[local] Arguments text _%_string_scope.

(** ** Frames *)

Definition reads (n : nat) : list ws_op := concat (replicate n [WWorker WTask []; WWorker WTask []; WWorker (WIn (Done 1000)) []]).

(** A client whose server sends these bytes. *)
Definition client_gets (b : bytes) (ops : list ws_op) : result (ws_end unit) :=
  e ← ws_begin demo_add demo_rm 16 (fun _ => true) 1048576 demo_alloc true [] [] tt (demo_ws NN_WS_CLIENT) [] b;
  ws_run demo_add demo_rm 16 (fun _ => true) 1048576 demo_alloc true [] [] (replicate 7 0) ([WArrive 1000] ++ ops) e.

Definition client_sees (b : bytes) (ops : list ws_op) : result (list bytes * sws_state * bytes) :=
  e ← client_gets b ops; Ok (body <$> we_rcvd e, sw_state (sw (we_state e).2), outgoing (wus (we_state e).2)).

Definition text_frame (fin : bool) (b : bytes) : wframe := WFrame fin NN_WS_OPCODE_TEXT None b.
Definition more_frame (fin : bool) (b : bytes) : wframe := WFrame fin NN_WS_OPCODE_FRAGMENT None b.

(** U+1F600 in four bytes: the last one in a frame of its own. *)
Example four_byte_split_aborts : client_sees (encodes [text_frame false [0xF0; 0x9F; 0x98]; more_frame true [0x80]]) (reads 8) = Err AssertFailed.
Proof. vm_compute. reflexivity. Qed.

(** The euro sign, its last two bytes in the last frame: the connection is
    closed for a text that is well-formed. *)
Example valid_text_rejected :
  (fun x => (x.1.1, x.1.2)) <$> client_sees (encodes [text_frame false [0xE2]; more_frame true [0x82; 0xAC]]) (reads 8 ++ [WRecv []]) = Ok ([], NN_SWS_STATE_CLOSING_CONNECTION).
Proof. vm_compute. reflexivity. Qed.

(** In a frame that is not the last one the rest of the chunk is skipped, and
    what is handed out as a text is not one. *)
Example invalid_text_accepted :
  (fun x => x.1.1) <$> client_sees (encodes [text_frame false [0xE2]; more_frame false [0x82; 0xFF]; more_frame true [0xAC]]) (reads 12 ++ [WRecv []]) = Ok [[0xE2; 0x82; 0xFF; 0xAC]].
Proof. vm_compute. reflexivity. Qed.
Example invalid_text_is_none : utf8_scan 5 [0xE2; 0x82; 0xFF; 0xAC] = Ok ([0xE2; 0x82; 0xFF; 0xAC], Some NN_SWS_UTF8_INVALID).
Proof. reflexivity. Qed.

(** An empty last frame ends the check: a cut code point is handed out, and
    the next message is taken for its continuation. *)
Example cut_text_accepted :
  (fun x => (x.1.1, x.1.2)) <$> client_sees (encodes [text_frame false [0xE2]; more_frame true []; text_frame true [0x41]]) (reads 8 ++ [WRecv []] ++ reads 4 ++ [WRecv []])
  = Ok ([[0xE2]], NN_SWS_STATE_CLOSING_CONNECTION).
Proof. vm_compute. reflexivity. Qed.

(** The close frame of this violation has a reason of 35 bytes; two bytes of
    memory that was not initialised follow it. *)
Definition server_closes : result bytes :=
  e ← ws_begin demo_add demo_rm 16 (fun _ => true) 1048576 demo_alloc true [] [] tt (demo_ws NN_WS_SERVER) [] [0xC1; 0x80];
  e ← ws_run demo_add demo_rm 16 (fun _ => true) 1048576 demo_alloc true [] [] [] ([WArrive 1000] ++ reads 4) e;
  Ok (outgoing (wus (we_state e).2)).
Example close_frame_too_long : server_closes = Ok ([0x88; 37] ++ [3; 234] ++ text "RSV1, RSV2, and RSV3 must be unset." ++ [0xCC; 0xCC]).
Proof. vm_compute. reflexivity. Qed.

(** The sum of the sizes of the fragments wraps around: the second frame,
    which says it has 2^64 - 1 bytes, passes the limit on the size of messages
    and the allocation fails. *)
Example total_size_wraps : client_sees ([0x02; 1; 7] ++ [0x80; 127; 255; 255; 255; 255; 255; 255; 255; 255]) (reads 8) = Err AssertFailed.
Proof. vm_compute. reflexivity. Qed.
(** One that is only too large is refused. *)
Example too_large_refused :
  (fun x => x.1.2) <$> client_sees ([0x02; 1; 7] ++ [0x80; 127; 0; 0; 0; 0; 255; 255; 255; 255]) (reads 8) = Ok NN_SWS_STATE_CLOSING_CONNECTION.
Proof. vm_compute. reflexivity. Qed.

(** ** The opening handshake *)

Inductive open_op := OArrive (b : bytes) | OWorker (j : worker_job) | OTimer (e : worker_event).

(** The end of a connection, from the connected socket on. *)
Section Opening.
  Context (protocol : Z) (ispeer : Z -> bool).

Let leave (x : unit * wworld) : result (unit * wworld) :=
  y ← ws_leave demo_alloc demo_add demo_rm protocol ispeer 1048576 true (replicate 64 0) (replicate 16 7) 2000 x; Ok (y.1, set_events y.2 []).

Definition open_step (x : unit * wworld) (o : open_op) : result (unit * wworld) :=
  let '(s, w) := x in
  match o with
  | OArrive b => Ok (s, ws_deliver b w)
  | OWorker j => if worker_can (wus w) j then y ← io_worker (wc_io (wc w)) j; leave (s, set_wio w y) else Ok x
  | OTimer e => if worker_pending (hs_timer (wc_hs (wc w))) e then '(y, h) ← hs_with_timer (wc_io (wc w)) (wc_hs (wc w)) (fun t => worker_feed t e); leave (s, set_hs w y h) else Ok x
  end.
Definition open_run (os : list open_op) (x : unit * wworld) : result (unit * wworld) := foldl (fun r o => x ← r; open_step x o) (Ok x) os.

Definition idle_ws : wworld :=
  World (WConn (Io [] (match nn_usock_start_fd [] (nn_usock_init CUsock 1 (Some COwner)) with Ok (_, u) => u | Err _ => nn_usock_init CUsock 1 None end) [])
               (nn_ws_handshake_init NN_SWS_SRC_HANDSHAKE) (nn_sws_init 2 (replicate 125 0xCC) [[1; 2; 3; 4]]) []) {[1%positive := nn_pipebase_init (EpOptions 8 8 1)]} [] (fun _ => 0).
Definition open_start (mode : Z) (resource host : bytes) : result (unit * wworld) :=
  x ← nn_sws_start demo_alloc demo_add demo_rm protocol ispeer 1048576 true (replicate 64 0) (replicate 16 7) tt idle_ws mode resource host NN_WS_OPCODE_BINARY; leave x.

Definition jobs : list open_op := concat (replicate 5 [OWorker WTask; OWorker WTask; OWorker (WIn (Done 5000)); OWorker (WOut (Done 5000)); OTimer WStart; OTimer WStop]).
(** One end that receives [b]: its state, what it wrote. *)
Definition opens (mode : Z) (b : bytes) : result (sws_state * bytes * list (Z * Z)) :=
  x ← open_start mode (text "/") (text "host"); x ← open_run (jobs ++ [OArrive b] ++ jobs) x;
  Ok (sw_state (sw x.2), outgoing (wus x.2), wc_told (wc x.2)).
End Opening.

Definition pair_peer (t : Z) : bool := t =? NN_PAIR.
Definition the_request : bytes := request_text (text "/") (text "host") (text "BwcHBwcHBwcHBwcHBwcHBw==") (text "pair.sp.nanomsg.org").
Definition the_reply : bytes := match opens NN_PAIR pair_peer NN_WS_SERVER the_request with Ok (_, b, _) => b | Err _ => [] end.

(** Both ends of a connection become active. *)
Example server_accepts : (fun x => x.1.1) <$> opens NN_PAIR pair_peer NN_WS_SERVER the_request = Ok NN_SWS_STATE_ACTIVE.
Proof. vm_compute. reflexivity. Qed.
Example client_accepts : opens NN_PAIR pair_peer NN_WS_CLIENT the_reply = Ok (NN_SWS_STATE_ACTIVE, the_request, []).
Proof. vm_compute. reflexivity. Qed.

(** A client of the wrong type is told so, and becomes a session all the same:
    the server's machine ends with OK whatever it replied. *)
Definition refusal : bytes := crlf (text "HTTP/1.1 400 Incompatible Socket Type") ++ crlf (text "Sec-WebSocket-Version: 13").
Example rejected_client_admitted : (fun x => x.1) <$> opens NN_PUSH (Z.eqb NN_PULL) NN_WS_SERVER the_request = Ok (NN_SWS_STATE_ACTIVE, refusal).
Proof. vm_compute. reflexivity. Qed.

(** The refusal lacks the empty line at its end: the client goes on waiting
    for it. *)
Example refusal_not_understood : (fun x => x.1.1) <$> opens NN_PAIR pair_peer NN_WS_CLIENT refusal = Ok NN_SWS_STATE_HANDSHAKE.
Proof. vm_compute. reflexivity. Qed.

(** A request with another method aborts the server. *)
Example other_method_aborts : opens NN_PAIR pair_peer NN_WS_SERVER (text "PUT" ++ drop 3 the_request) = Err AssertFailed.
Proof. vm_compute. reflexivity. Qed.

(** So does a short request followed by anything. *)
Example short_request_aborts : opens NN_PAIR pair_peer NN_WS_SERVER (crlf (crlf (text "GET / HTTP/1.1")) ++ replicate 200 120) = Err AssertFailed.
Proof. vm_compute. reflexivity. Qed.

(** The accept key is compared without regard to case. *)
Example accept_key_case : nn_ws_validate_value (text "s3pPLMBiTxaQ9kYGzzhZRbK+xOo=") (text "S3PPLMBITXAQ9KYGZZHZRBK+XOO=") true = true.
Proof. reflexivity. Qed.
