(* ===== verification/Sock.v ===== *)
(** * Sockets and socket types ([core/sock.c], [core/sockbase.c], [aio/ctx.c])

    A socket type ("protocol") is a set of virtual functions,
    [nn_sockbase_vfptr]: the class [SockProto].  The core calls them when a
    pipe is added, removed, readable or writable, and when the user sends or
    receives.  This file models that core: the hand-over of pipes with the
    connection statistics, the event loop that runs when a context is left,
    the signalling of the two file descriptors the user polls, and the
    non-blocking paths of [nn_sock_send] and [nn_sock_recv].

    [SockSpec] is the contract of a protocol, and [sock_run_until] the theorem
    that a socket whose protocol meets it never aborts, whatever its
    transports and its user do, up to a receive that the contract does not
    cover ([sk_takes]); protocols without such receives are [SockTakes].  Each
    protocol file gives an instance. *)

From S2P Require Import Prelude NNList Wire Pipe Timer.
Local Open Scope Z_scope.

Definition NN_SOCKBASE_EVENT_IN : Z := 1.
Definition NN_SOCKBASE_EVENT_OUT : Z := 2.
Definition ENOTSUP : Z := 95.
Definition EBADF : Z := 9.

Definition has_in (events : Z) : bool := negb (bool_decide (Z.land events NN_SOCKBASE_EVENT_IN = 0)).
Definition has_out (events : Z) : bool := negb (bool_decide (Z.land events NN_SOCKBASE_EVENT_OUT = 0)).

(** The [nn_sockbase_vfptr] of a socket type with state [S], and its flags
    [NN_SOCKTYPE_FLAG_NOSEND] and [NN_SOCKTYPE_FLAG_NORECV].  A socket type
    with a timer also gets the worker thread's events: [sb_pending] says which
    are possible, [sb_worker] feeds the timer and handles what it raises. *)
Class SockProto (T S : Type) := {
  sb_nosend : bool;
  sb_norecv : bool;
  sb_add : S -> world T -> addr -> result (S * world T * Z);
  sb_rm : S -> world T -> addr -> result (S * world T);
  sb_in : S -> world T -> addr -> result (S * world T);
  sb_out : S -> world T -> addr -> result (S * world T);
  sb_events : S -> Z;
  sb_send : S -> world T -> nn_msg -> result (S * world T * Z);
  sb_recv : S -> world T -> result (S * world T * Z * option nn_msg);
  sb_pending : S -> worker_event -> bool;
  sb_worker : S -> world T -> worker_event -> result (S * world T)
}.

(** The [int] and [uint64_t] counters; [CURRENT_SND_PRIORITY] is a level. *)
Definition nn_sock_stat_increment {T} (w : world T) (name : nn_stat) (increment : Z) : result (world T) :=
  match name with
  | NN_STAT_ESTABLISHED_CONNECTIONS | NN_STAT_ACCEPTED_CONNECTIONS | NN_STAT_DROPPED_CONNECTIONS
  | NN_STAT_BROKEN_CONNECTIONS | NN_STAT_CONNECT_ERRORS | NN_STAT_BIND_ERRORS | NN_STAT_ACCEPT_ERRORS
  | NN_STAT_MESSAGES_SENT | NN_STAT_MESSAGES_RECEIVED =>
      _ ← assert_ (bool_decide (increment > 0));
      Ok (set_stat w name (u64 (w_stats w name + increment)))
  | NN_STAT_BYTES_SENT | NN_STAT_BYTES_RECEIVED =>
      _ ← assert_ (bool_decide (increment >= 0));
      Ok (set_stat w name (u64 (w_stats w name + increment)))
  | NN_STAT_CURRENT_CONNECTIONS | NN_STAT_INPROGRESS_CONNECTIONS | NN_STAT_CURRENT_EP_ERRORS =>
      _ ← assert_ (bool_decide (increment > 0) || bool_decide (w_stats w name >= - increment));
      _ ← assert_ (bool_decide (increment < INT_MAX) && bool_decide (increment > - INT_MAX));
      if bool_decide (w_stats w name + increment <= INT_MAX) then
        Ok (set_stat w name (w_stats w name + increment))
      else Err IntOverflow
  | NN_STAT_CURRENT_SND_PRIORITY =>
      _ ← assert_ ((bool_decide (increment > 0) && bool_decide (increment <= 16))
                   || bool_decide (increment = -1));
      Ok (set_stat w name increment)
  end.

Arguments nn_sock_stat_increment : simpl never.

Inductive sock_state :=
  | NN_SOCK_STATE_INIT | NN_SOCK_STATE_ACTIVE | NN_SOCK_STATE_STOPPING_EPS
  | NN_SOCK_STATE_STOPPING | NN_SOCK_STATE_FINI.
#[export] Instance sock_state_eq_dec : EqDecision sock_state.
Proof. solve_decision. Defined.

Section Sock.
  Context {T S : Type} `{SockProto T S}.

(** [sk_flag_in], [sk_flag_out] are the bits of [flags]; [sk_rcvfd],
    [sk_sndfd] tell whether the descriptors are signalled. *)
Record nn_sock := Sock {
  sk_state : sock_state;
  sk_base : S;
  sk_world : world T;
  sk_flag_in : bool;
  sk_flag_out : bool;
  sk_rcvfd : bool;
  sk_sndfd : bool
}.

Definition with_base (self : nn_sock) (s : S) (w : world T) : nn_sock :=
  Sock (sk_state self) s w (sk_flag_in self) (sk_flag_out self) (sk_rcvfd self) (sk_sndfd self).

Definition nn_sock_add (s : S) (w : world T) (pipe : addr) : result (S * world T * Z) :=
  '(s, w, rc) ← sb_add s w pipe;
  w ← (if bool_decide (rc >= 0) then nn_sock_stat_increment w NN_STAT_CURRENT_CONNECTIONS 1 else Ok w);
  Ok (s, w, rc).

Definition nn_sock_rm (s : S) (w : world T) (pipe : addr) : result (S * world T) :=
  '(s, w) ← sb_rm s w pipe;
  w ← nn_sock_stat_increment w NN_STAT_CURRENT_CONNECTIONS (-1);
  Ok (s, w).

(** The part of [nn_sock_handler] that dispatches the events of pipes. *)
Definition nn_sock_pipe_event (s : S) (w : world T) (pipe : addr) (e : pipe_event) : result (S * world T) :=
  match e with NN_PIPE_IN => sb_in s w pipe | NN_PIPE_OUT => sb_out s w pipe end.

(** An [nn_efd]: signalling is idempotent, unsignalling asserts that there is
    something to read. *)
Definition nn_efd_signal (fd : bool) : bool := true.
Definition nn_efd_unsignal (fd : bool) : result bool := _ ← assert_ fd; Ok false.

(** One direction of [nn_sock_onleave]: the flag and the descriptor. *)
Definition adjust_fd (event flag fd : bool) : result (bool * bool) :=
  if event then
    if negb flag then Ok (true, nn_efd_signal fd) else Ok (flag, fd)
  else
    if flag then fd ← nn_efd_unsignal fd; Ok (false, fd) else Ok (flag, fd).

Definition nn_sock_onleave (self : nn_sock) : result nn_sock :=
  if negb (bool_decide (sk_state self = NN_SOCK_STATE_ACTIVE)) then Ok self
  else
    let events := sb_events (sk_base self) in
    _ ← assert_ (bool_decide (events >= 0));
    '(fi, rfd) ← (if negb (sb_norecv (T := T) (S := S)) then adjust_fd (has_in events) (sk_flag_in self) (sk_rcvfd self)
                  else Ok (sk_flag_in self, sk_rcvfd self));
    '(fo, sfd) ← (if negb (sb_nosend (T := T) (S := S)) then adjust_fd (has_out events) (sk_flag_out self) (sk_sndfd self)
                  else Ok (sk_flag_out self, sk_sndfd self));
    Ok (Sock (sk_state self) (sk_base self) (sk_world self) fi fo rfd sfd).

(** The event loop of [nn_ctx_leave]. *)
Fixpoint process_events (fuel : nat) (s : S) (w : world T) : result (S * world T) :=
  match fuel with
  | O => Err NoFuel
  | Datatypes.S fuel =>
      match w_events w with
      | [] => Ok (s, w)
      | (pipe, e) :: es =>
          '(s, w) ← nn_sock_pipe_event s (set_events w es) pipe e;
          process_events fuel s w
      end
  end.

(** Handlers raise no events towards their own socket, so the events queued
    on leaving are all there is to process. *)
Definition nn_ctx_leave (self : nn_sock) : result nn_sock :=
  '(s, w) ← process_events (Datatypes.S (length (w_events (sk_world self)))) (sk_base self) (sk_world self);
  nn_sock_onleave (with_base self s w).

(** [nn_sock_send] with [NN_DONTWAIT]. *)
Definition nn_sock_send (self : nn_sock) (msg : nn_msg) : result (nn_sock * Z) :=
  if sb_nosend (T := T) (S := S) then Ok (self, - ENOTSUP)
  else
    match sk_state self with
    | NN_SOCK_STATE_ACTIVE | NN_SOCK_STATE_INIT =>
        '(s, w, rc) ← sb_send (sk_base self) (sk_world self) msg;
        _ ← assert_ (bool_decide (rc = 0) || bool_decide (rc < 0));
        self ← nn_ctx_leave (with_base self s w);
        Ok (self, rc)
    | _ => self ← nn_ctx_leave self; Ok (self, - EBADF)
    end.

(** [nn_sock_recv] with [NN_DONTWAIT]. *)
Definition nn_sock_recv (self : nn_sock) : result (nn_sock * Z * option nn_msg) :=
  if sb_norecv (T := T) (S := S) then Ok (self, - ENOTSUP, None)
  else
    match sk_state self with
    | NN_SOCK_STATE_ACTIVE | NN_SOCK_STATE_INIT =>
        '(s, w, rc, msg) ← sb_recv (sk_base self) (sk_world self);
        _ ← assert_ (bool_decide (rc = 0) || bool_decide (rc < 0));
        self ← nn_ctx_leave (with_base self s w);
        Ok (self, rc, msg)
    | _ => self ← nn_ctx_leave self; Ok (self, - EBADF, None)
    end.

(** ** What transports and the user do to a socket

    A transport connects a new pipe (dropping it when the protocol refuses
    it), closes one, or reports the completion of an asynchronous operation; the
    worker thread executes a task; each runs inside the socket's context. *)
Inductive sock_op :=
  | KConnect (p : addr) (options : nn_ep_options)
  | KClose (p : addr)
  | KSent (p : addr)
  | KReceived (p : addr)
  | KSend (m : nn_msg)
  | KRecv
  | KWorker (e : worker_event).

Inductive sock_out := ONone | OSend (rc : Z) | ORecv (rc : Z) (m : option nn_msg).

Definition drop_pipe (w : world T) (p : addr) : world T :=
  World (w_net w) (delete p (w_pipes w)) (w_events w) (w_stats w).

Definition valid_options (o : nn_ep_options) : bool :=
  bool_decide (1 <= opt_sndprio o <= 16) && bool_decide (1 <= opt_rcvprio o <= 16).

(** A transport closing its pipe: stop, terminate, deallocate. *)
Definition close_pipe (s : S) (w : world T) (p : addr) : result (S * world T) :=
  '(s, w) ← nn_pipebase_stop nn_sock_rm s w p;
  pb ← deref (w_pipes w !! p);
  _ ← nn_pipebase_term pb;
  Ok (s, drop_pipe w p).

(** Steps that are not possible in the current state are skipped. *)
Definition sock_step (self : nn_sock) (o : sock_op) : result (nn_sock * sock_out) :=
  let w := sk_world self in
  match o with
  | KConnect p options =>
      if bool_decide (w_pipes w !! p = None) && valid_options options
         && bool_decide (Z.of_nat (size (w_pipes w)) < INT_MAX) then
        '(s, w, rc) ← nn_pipebase_start nn_sock_add (sk_base self)
                         (set_pipe w p (nn_pipebase_init options)) p;
        '(s, w) ← (if bool_decide (rc < 0) then close_pipe s w p else Ok (s, w));
        self ← nn_ctx_leave (with_base self s w);
        Ok (self, ONone)
      else Ok (self, ONone)
  | KClose p =>
      if bool_decide (w_pipes w !! p = None) then Ok (self, ONone)
      else
        '(s, w) ← close_pipe (sk_base self) w p;
        self ← nn_ctx_leave (with_base self s w);
        Ok (self, ONone)
  | KSent p =>
      if bool_decide (pb_outstate <$> w_pipes w !! p = Some NN_PIPEBASE_OUTSTATE_ASYNC) then
        w ← nn_pipebase_sent w p;
        self ← nn_ctx_leave (with_base self (sk_base self) w);
        Ok (self, ONone)
      else Ok (self, ONone)
  | KReceived p =>
      if bool_decide (pb_instate <$> w_pipes w !! p = Some NN_PIPEBASE_INSTATE_ASYNC) then
        w ← nn_pipebase_received w p;
        self ← nn_ctx_leave (with_base self (sk_base self) w);
        Ok (self, ONone)
      else Ok (self, ONone)
  | KSend m => '(self, rc) ← nn_sock_send self m; Ok (self, OSend rc)
  | KRecv => '(self, rc, m) ← nn_sock_recv self; Ok (self, ORecv rc m)
  | KWorker e =>
      if sb_pending (T := T) (sk_base self) e then
        '(s, w) ← sb_worker (sk_base self) w e;
        self ← nn_ctx_leave (with_base self s w);
        Ok (self, ONone)
      else Ok (self, ONone)
  end.

Fixpoint sock_run (self : nn_sock) (os : list sock_op) : result (nn_sock * list sock_out) :=
  match os with
  | [] => Ok (self, [])
  | o :: os =>
      '(self, r) ← sock_step self o;
      '(self, rs) ← sock_run self os;
      Ok (self, r :: rs)
  end.

(** The end of [nn_sock_init]: the state machine is started and the context
    left for the first time. *)
Definition nn_sock_init (s : S) (net : T) : result nn_sock :=
  nn_ctx_leave (Sock NN_SOCK_STATE_ACTIVE s (World net ∅ [] (fun _ => 0)) false false false false).

End Sock.
Arguments nn_sock : clear implicits.

(** ** Well-formed worlds *)
Section World.
  Context {T : Type}.
  Implicit Types (w : world T) (p : addr).

(** Pipe [p] was offered for writing (reading) and not released since. *)
Definition off_out w p : Prop := exists pb, w_pipes w !! p = Some pb
  /\ pb_outstate pb = NN_PIPEBASE_OUTSTATE_IDLE /\ (p, NN_PIPE_OUT) ∉ w_events w.
Definition off_in w p : Prop := exists pb, w_pipes w !! p = Some pb
  /\ pb_instate pb = NN_PIPEBASE_INSTATE_IDLE /\ (p, NN_PIPE_IN) ∉ w_events w.

Definition stable (pb : nn_pipebase) : Prop :=
  pb_state pb = NN_PIPEBASE_STATE_ACTIVE
  /\ (pb_instate pb = NN_PIPEBASE_INSTATE_IDLE \/ pb_instate pb = NN_PIPEBASE_INSTATE_ASYNC)
  /\ (pb_outstate pb = NN_PIPEBASE_OUTSTATE_IDLE \/ pb_outstate pb = NN_PIPEBASE_OUTSTATE_ASYNC)
  /\ 1 <= opt_sndprio (pb_options pb) <= 16 /\ 1 <= opt_rcvprio (pb_options pb) <= 16.

(** Another pipe fits. *)
Definition room w (options : nn_ep_options) : Prop :=
  valid_options options = true /\ Z.of_nat (size (w_pipes w)) < INT_MAX.

Record world_ok w : Prop := {
  wo_pipes p pb : w_pipes w !! p = Some pb -> stable pb;
  wo_events p e : (p, e) ∈ w_events w -> exists pb, w_pipes w !! p = Some pb
    /\ match e with
       | NN_PIPE_IN => pb_instate pb = NN_PIPEBASE_INSTATE_IDLE
       | NN_PIPE_OUT => pb_outstate pb = NN_PIPEBASE_OUTSTATE_IDLE
       end;
  wo_nodup : NoDup (w_events w);
  wo_size : Z.of_nat (size (w_pipes w)) <= INT_MAX
}.

(** What a protocol can see of the world. *)
Definition view_eq w w' : Prop :=
  (forall p, (fun pb => (pb_data pb, pb_options pb)) <$> w_pipes w !! p
             = (fun pb => (pb_data pb, pb_options pb)) <$> w_pipes w' !! p)
  /\ (forall p, off_in w p <-> off_in w' p) /\ (forall p, off_out w p <-> off_out w' p).

#[export] Instance view_eq_refl : Reflexive view_eq.
Proof. intros w. done. Qed.
#[export] Instance view_eq_sym : Symmetric view_eq.
Proof. intros w w' (? & Hi & Ho). split; [done|]. split; intros p; by rewrite ?Hi, ?Ho. Qed.

(** A handler's effect on the world around its protocol. *)
Record handled w w' : Prop := {
  hd_ok : world_ok w';
  hd_events : w_events w' = w_events w;
  hd_dom : dom (w_pipes w') = dom (w_pipes w);
  hd_conn : w_stats w' NN_STAT_CURRENT_CONNECTIONS = w_stats w NN_STAT_CURRENT_CONNECTIONS
}.

Lemma off_out_writable w p : world_ok w -> off_out w p -> writable w p.
Proof. intros Hw (pb & Hp & Ho & _). exists pb. destruct (wo_pipes _ Hw _ _ Hp) as [? _]. done. Qed.
Lemma off_in_readable w p : world_ok w -> off_in w p -> readable w p.
Proof. intros Hw (pb & Hp & Ho & _). exists pb. destruct (wo_pipes _ Hw _ _ Hp) as [? _]. done. Qed.

(** The world after a message was sent to (received from) an offered pipe. *)
Lemma world_after_send w w' p pb rc :
  world_ok w -> off_out w p -> w_pipes w !! p = Some pb ->
  w_pipes w' = <[p := after_send rc pb]> (w_pipes w) -> w_events w' = w_events w ->
  w_stats w' = w_stats w ->
  handled w w' /\ (forall q, q <> p -> off_out w q <-> off_out w' q)
  /\ (off_out w' p <-> released rc = false) /\ (forall q, off_in w q <-> off_in w' q)
  /\ (forall q, (fun pb => (pb_data pb, pb_options pb)) <$> w_pipes w !! q
             = (fun pb => (pb_data pb, pb_options pb)) <$> w_pipes w' !! q).
Proof.
  intros [Hs He Hn Hsz] (pb0 & Hp0 & Ho & Hev) Hp Hp' He' Hst. assert (pb0 = pb) as -> by congruence.
  pose proof (Hs p pb Hp) as (Ha & Hi & _ & Hopt).
  assert (Hlook : forall q pb', w_pipes w' !! q = Some pb' ->
            (q = p /\ pb' = after_send rc pb) \/ (q <> p /\ w_pipes w !! q = Some pb')).
  { intros q pb'. rewrite Hp'. intros [[<- <-]|[? ?]]%lookup_insert_Some; auto. }
  assert (Hne : forall q, q <> p -> w_pipes w' !! q = w_pipes w !! q).
  { intros q Hq. rewrite Hp'. by rewrite lookup_insert_ne. }
  assert (Heq : w_pipes w' !! p = Some (after_send rc pb)) by (rewrite Hp'; apply lookup_insert_eq).
  split; [constructor|repeat split].
  - constructor; rewrite ?He'; [| |done|rewrite Hp'; by rewrite map_size_insert_Some].
    + intros q pb' [[-> ->]|[_ Hq]]%Hlook; [|by eapply Hs]. unfold after_send.
      split; [done|]. split; [done|]. split; [|done]. cbn. destruct (released rc); auto.
    + intros q e Hqe. destruct (He q e Hqe) as (pb' & Hq & Hst'). destruct (decide (q = p)) as [->|Hq'].
      * exists (after_send rc pb). split; [done|]. destruct e; [by assert (pb' = pb) as -> by congruence|by destruct Hev].
      * exists pb'. by rewrite Hne.
  - done.
  - rewrite Hp'. by apply dom_insert_lookup_L.
  - by rewrite Hst.
  - intros (pb' & Hq & ?). exists pb'. by rewrite Hne, He'.
  - intros (pb' & Hq & ?). exists pb'. by rewrite <- Hne, <- He'.
  - intros (pb' & Hq & Hq' & _). rewrite Heq in Hq. injection Hq as <-. cbn in Hq'. by destruct (released rc).
  - intros Hr. exists (after_send rc pb). rewrite He'. split; [done|]. split; [|done]. cbn. by rewrite Hr.
  - intros (pb' & Hq & Hq' & ?). destruct (decide (q = p)) as [->|Hqp].
    + exists (after_send rc pb). rewrite He'. simplify_eq. done.
    + exists pb'. by rewrite Hne, He'.
  - intros (pb' & Hq & Hq' & ?). destruct (decide (q = p)) as [->|Hqp].
    + exists pb. rewrite <- He'. rewrite Heq in Hq. injection Hq as <-. done.
    + exists pb'. by rewrite <- Hne, <- He'.
  - intros q. destruct (decide (q = p)) as [->|Hqp]; [|by rewrite Hne]. by rewrite Heq, Hp.
Qed.

Lemma world_after_recv w w' p pb rc :
  world_ok w -> off_in w p -> w_pipes w !! p = Some pb ->
  w_pipes w' = <[p := after_recv rc pb]> (w_pipes w) -> w_events w' = w_events w ->
  w_stats w' = w_stats w ->
  handled w w' /\ (forall q, q <> p -> off_in w q <-> off_in w' q)
  /\ (off_in w' p <-> released rc = false) /\ (forall q, off_out w q <-> off_out w' q)
  /\ (forall q, (fun pb => (pb_data pb, pb_options pb)) <$> w_pipes w !! q
             = (fun pb => (pb_data pb, pb_options pb)) <$> w_pipes w' !! q).
Proof.
  intros [Hs He Hn Hsz] (pb0 & Hp0 & Ho & Hev) Hp Hp' He' Hst. assert (pb0 = pb) as -> by congruence.
  pose proof (Hs p pb Hp) as (Ha & _ & Hi & Hopt).
  assert (Hlook : forall q pb', w_pipes w' !! q = Some pb' ->
            (q = p /\ pb' = after_recv rc pb) \/ (q <> p /\ w_pipes w !! q = Some pb')).
  { intros q pb'. rewrite Hp'. intros [[<- <-]|[? ?]]%lookup_insert_Some; auto. }
  assert (Hne : forall q, q <> p -> w_pipes w' !! q = w_pipes w !! q).
  { intros q Hq. rewrite Hp'. by rewrite lookup_insert_ne. }
  assert (Heq : w_pipes w' !! p = Some (after_recv rc pb)) by (rewrite Hp'; apply lookup_insert_eq).
  split; [constructor|repeat split].
  - constructor; rewrite ?He'; [| |done|rewrite Hp'; by rewrite map_size_insert_Some].
    + intros q pb' [[-> ->]|[_ Hq]]%Hlook; [|by eapply Hs]. unfold after_recv.
      split; [done|]. split; [|done]. cbn. destruct (released rc); auto.
    + intros q e Hqe. destruct (He q e Hqe) as (pb' & Hq & Hst'). destruct (decide (q = p)) as [->|Hq'].
      * exists (after_recv rc pb). split; [done|]. destruct e; [by destruct Hev|by assert (pb' = pb) as -> by congruence].
      * exists pb'. by rewrite Hne.
  - done.
  - rewrite Hp'. by apply dom_insert_lookup_L.
  - by rewrite Hst.
  - intros (pb' & Hq & ?). exists pb'. by rewrite Hne, He'.
  - intros (pb' & Hq & ?). exists pb'. by rewrite <- Hne, <- He'.
  - intros (pb' & Hq & Hq' & _). rewrite Heq in Hq. injection Hq as <-. cbn in Hq'. by destruct (released rc).
  - intros Hr. exists (after_recv rc pb). rewrite He'. split; [done|]. split; [|done]. cbn. by rewrite Hr.
  - intros (pb' & Hq & Hq' & ?). destruct (decide (q = p)) as [->|Hqp].
    + exists (after_recv rc pb). rewrite He'. simplify_eq. done.
    + exists pb'. by rewrite Hne, He'.
  - intros (pb' & Hq & Hq' & ?). destruct (decide (q = p)) as [->|Hqp].
    + exists pb. rewrite <- He'. rewrite Heq in Hq. injection Hq as <-. done.
    + exists pb'. by rewrite <- Hne, <- He'.
  - intros q. destruct (decide (q = p)) as [->|Hqp]; [|by rewrite Hne]. by rewrite Heq, Hp.
Qed.
End World.

(** ** The contract of a socket type

    [sk_hears]: the protocol expects messages from its peers.  One that does
    not is let down by its [in] function when a message comes.  [sk_sends]:
    the messages its user may send.  [sk_takes]: the states in which the user
    may receive (some protocols would use an object that is gone, or read
    beyond the end of a message).  [sk_room n]: [n] more pipes may be added
    (some protocols number their pipes). *)
Inductive proto_step {T S} `{SockProto T S} : S -> S -> Prop :=
  | step_rm s w p s' w' : sb_rm s w p = Ok (s', w') -> proto_step s s'
  | step_in s w p s' w' : sb_in s w p = Ok (s', w') -> proto_step s s'
  | step_out s w p s' w' : sb_out s w p = Ok (s', w') -> proto_step s s'
  | step_send s w m s' w' rc : sb_send s w m = Ok (s', w', rc) -> proto_step s s'
  | step_recv s w s' w' rc m : sb_recv s w = Ok (s', w', rc, m) -> proto_step s s'
  | step_worker s w e s' w' : sb_worker s w e = Ok (s', w') -> proto_step s s'.

Class SockSpec (T S : Type) `{SockProto T S} := {
  sk_hears : bool;
  sk_sends : nn_msg -> bool;
  sk_takes : S -> world T -> bool;
  sk_room : nat -> S -> Prop;
  sk_room_le n s : sk_room (Datatypes.S n) s -> sk_room n s;
  sk_room_add s w p s' w' rc n : sb_add s w p = Ok (s', w', rc) -> sk_room (Datatypes.S n) s -> sk_room n s';
  sk_room_step s s' n : proto_step s s' -> sk_room n s -> sk_room n s';
  sk_rep : S -> world T -> Prop;
  sk_rep_view s w w' : view_eq w w' -> sk_rep s w -> sk_rep s w';
  sb_events_spec s : 0 <= sb_events s;
  sb_add_spec s w p options :
    world_ok w -> sk_rep s w -> w_pipes w !! p = None -> room w options -> sk_room 1 s ->
    let pb := starting (nn_pipebase_init options) in
    exists s' d rc, sb_add s (set_pipe w p pb) p = Ok (s', set_pipe w p (set_data d pb), rc)
      /\ if bool_decide (rc < 0) then sk_rep s' w
         else sk_rep s' (set_events (set_pipe w p (set_data d pb)) (w_events w ++ [(p, NN_PIPE_OUT)]));
  sb_rm_spec s w p pb :
    world_ok w -> sk_rep s w -> w_pipes w !! p = Some pb -> (forall e, (p, e) ∉ w_events w) ->
    exists s' w', sb_rm s w p = Ok (s', w') /\ handled w w' /\ sk_rep s' (drop_pipe w' p);
  sb_in_spec s w p es :
    sk_hears = true -> world_ok w -> sk_rep s w -> w_events w = (p, NN_PIPE_IN) :: es ->
    exists s' w', sb_in s (set_events w es) p = Ok (s', w')
      /\ handled (set_events w es) w' /\ sk_rep s' w';
  sb_out_spec s w p es :
    world_ok w -> sk_rep s w -> w_events w = (p, NN_PIPE_OUT) :: es ->
    exists s' w', sb_out s (set_events w es) p = Ok (s', w')
      /\ handled (set_events w es) w' /\ sk_rep s' w';
  sb_send_spec s w m :
    sb_nosend (T := T) (S := S) = false -> sk_sends m = true -> world_ok w -> sk_rep s w ->
    exists s' w' rc, sb_send s w m = Ok (s', w', rc) /\ rc <= 0 /\ handled w w' /\ sk_rep s' w';
  sb_recv_spec s w :
    sb_norecv (T := T) (S := S) = false -> sk_takes s w = true -> world_ok w -> sk_rep s w ->
    exists s' w' rc m, sb_recv s w = Ok (s', w', rc, m) /\ rc <= 0 /\ handled w w' /\ sk_rep s' w'
      /\ (rc = 0 <-> is_Some m);
  sb_worker_spec s w e :
    world_ok w -> sk_rep s w -> sb_pending (T := T) s e = true ->
    exists s' w', sb_worker s w e = Ok (s', w') /\ handled w w' /\ sk_rep s' w'
}.

(** The user of most protocols may receive at any time. *)
Class SockTakes (T S : Type) `{SockSpec T S} := sk_takes_all (s : S) (w : world T) : sk_takes s w = true.

Section Pop.
  Context {T : Type}.
  Implicit Types (w : world T) (p : addr).

Lemma pop_world_ok w x es : world_ok w -> w_events w = x :: es -> world_ok (set_events w es).
Proof.
  intros [Hs He Hn Hsz] E. constructor; cbn; [done| | |done].
  - intros q e Hq. apply He. rewrite E. set_solver.
  - rewrite E in Hn. by apply NoDup_cons in Hn as [_ ?].
Qed.

(** The pipe whose event is handled becomes offered; nothing else changes. *)
Lemma pop_out w p es :
  world_ok w -> w_events w = (p, NN_PIPE_OUT) :: es ->
  ~ off_out w p /\ off_out (set_events w es) p
  /\ (forall q, q <> p -> off_out w q <-> off_out (set_events w es) q)
  /\ (forall q, off_in w q <-> off_in (set_events w es) q) /\ exists pb, w_pipes w !! p = Some pb.
Proof.
  intros [Hs He Hn Hsz] E. rewrite E in Hn. apply NoDup_cons in Hn as [Hp Hn].
  destruct (He p NN_PIPE_OUT) as (pb & Hpb & Ho); [rewrite E; set_solver|].
  split; [intros (? & _ & _ & Hno); rewrite E in Hno; set_solver|].
  split; [by exists pb|]. split; [|split; [|by exists pb]].
  - intros q Hq. unfold off_out; cbn. rewrite E. setoid_rewrite elem_of_cons. naive_solver.
  - intros q. unfold off_in; cbn. rewrite E. setoid_rewrite elem_of_cons. naive_solver.
Qed.

Lemma pop_in w p es :
  world_ok w -> w_events w = (p, NN_PIPE_IN) :: es ->
  ~ off_in w p /\ off_in (set_events w es) p
  /\ (forall q, q <> p -> off_in w q <-> off_in (set_events w es) q)
  /\ (forall q, off_out w q <-> off_out (set_events w es) q) /\ exists pb, w_pipes w !! p = Some pb.
Proof.
  intros [Hs He Hn Hsz] E. rewrite E in Hn. apply NoDup_cons in Hn as [Hp Hn].
  destruct (He p NN_PIPE_IN) as (pb & Hpb & Ho); [rewrite E; set_solver|].
  split; [intros (? & _ & _ & Hno); rewrite E in Hno; set_solver|].
  split; [by exists pb|]. split; [|split; [|by exists pb]].
  - intros q Hq. unfold off_in; cbn. rewrite E. setoid_rewrite elem_of_cons. naive_solver.
  - intros q. unfold off_out; cbn. rewrite E. setoid_rewrite elem_of_cons. naive_solver.
Qed.

(** A newly started pipe: its OUT event is on the way. *)
Definition started w p d options : world T :=
  set_events (set_pipe w p (set_data d (starting (nn_pipebase_init options)))) (w_events w ++ [(p, NN_PIPE_OUT)]).

Lemma no_event_of_missing w p e : world_ok w -> w_pipes w !! p = None -> (p, e) ∉ w_events w.
Proof. intros [_ He _ _] Hp Hin. destruct (He p e Hin) as (pb & ? & _). congruence. Qed.

Lemma started_ok w p d options :
  world_ok w -> w_pipes w !! p = None -> room w options ->
  world_ok (started w p d options)
  /\ ~ off_out (started w p d options) p /\ ~ off_in (started w p d options) p
  /\ (forall q, q <> p -> off_out w q <-> off_out (started w p d options) q)
  /\ (forall q, q <> p -> off_in w q <-> off_in (started w p d options) q).
Proof.
  intros Hw Hp Hv. pose proof (fun e => no_event_of_missing w p e Hw Hp) as Hno. destruct Hw as [Hs He Hn Hsz].
  destruct Hv as [Hv Hmax]. apply andb_true_iff in Hv as [Hv1%bool_decide_eq_true Hv2%bool_decide_eq_true].
  split; [constructor; cbn|].
  - intros q pb [[<- <-]|[_ Hq]]%lookup_insert_Some; [|by eapply Hs].
    split; [done|]. cbn. split; [auto|]. split; [auto|]. split; lia.
  - intros q e [Hq|Hq]%elem_of_app.
    + destruct (He q e Hq) as (pb & Hpb & ?). exists pb. rewrite lookup_insert_ne; [done|]. intros <-. congruence.
    + apply list_elem_of_singleton in Hq as [= -> ->]. eexists. by rewrite lookup_insert_eq.
  - by apply nodup_snoc.
  - rewrite map_size_insert_None by done. lia.
  - unfold off_out, off_in, started; cbn. split; [|split; [|split]].
    + intros (pb & _ & _ & Hx). set_solver.
    + intros (pb & Hx & Hy & _). rewrite lookup_insert_eq in Hx. by simplify_eq.
    + intros q Hq. setoid_rewrite elem_of_app. setoid_rewrite list_elem_of_singleton.
      setoid_rewrite lookup_insert_ne; [|done]. naive_solver.
    + intros q Hq. setoid_rewrite elem_of_app. setoid_rewrite list_elem_of_singleton.
      setoid_rewrite lookup_insert_ne; [|done]. naive_solver.
Qed.
End Pop.

Section SockRun.
  Context {T S : Type} `{SockSpec T S}.
  Implicit Types (w : world T) (s : S) (k : nn_sock T S).

(** What holds of a socket between two calls: besides the protocol's own
    invariant, no event is pending, the connection counter counts the pipes,
    and the descriptors are signalled exactly when the protocol says that
    receiving (sending) is possible. *)
Record sock_inv k : Prop := {
  si_state : sk_state k = NN_SOCK_STATE_ACTIVE;
  si_world : world_ok (sk_world k);
  si_rep : sk_rep (sk_base k) (sk_world k);
  si_events : w_events (sk_world k) = [];
  si_conn : w_stats (sk_world k) NN_STAT_CURRENT_CONNECTIONS = Z.of_nat (size (w_pipes (sk_world k)));
  si_in : sb_norecv (T := T) (S := S) = false ->
    sk_rcvfd k = sk_flag_in k /\ sk_flag_in k = has_in (sb_events (T := T) (sk_base k));
  si_out : sb_nosend (T := T) (S := S) = false ->
    sk_sndfd k = sk_flag_out k /\ sk_flag_out k = has_out (sb_events (T := T) (sk_base k))
}.

(** The same before the context is left: events may be pending, the
    descriptors out of date. *)
Record sock_mid k s w : Prop := {
  sm_state : sk_state k = NN_SOCK_STATE_ACTIVE;
  sm_world : world_ok w;
  sm_rep : sk_rep s w;
  sm_events : forall p, (p, NN_PIPE_IN) ∈ w_events w -> sk_hears (T := T) (S := S) = true;
  sm_conn : w_stats w NN_STAT_CURRENT_CONNECTIONS = Z.of_nat (size (w_pipes w));
  sm_in : sb_norecv (T := T) (S := S) = false -> sk_rcvfd k = sk_flag_in k;
  sm_out : sb_nosend (T := T) (S := S) = false -> sk_sndfd k = sk_flag_out k
}.

Definition expected w : Prop := forall p, (p, NN_PIPE_IN) ∈ w_events w -> sk_hears (T := T) (S := S) = true.

Lemma process_events_ok fuel : forall s w,
  (length (w_events w) < fuel)%nat -> world_ok w -> sk_rep s w -> expected w ->
  exists s' w', process_events fuel s w = Ok (s', w') /\ world_ok w' /\ sk_rep s' w' /\ w_events w' = []
    /\ dom (w_pipes w') = dom (w_pipes w)
    /\ w_stats w' NN_STAT_CURRENT_CONNECTIONS = w_stats w NN_STAT_CURRENT_CONNECTIONS.
Proof.
  induction fuel as [|fuel IH]; intros s w Hf Hw Hr Hx; [lia|]. cbn [process_events].
  destruct (w_events w) as [|[p e] es] eqn:E; [by exists s, w|]. cbn in Hf.
  assert (Hh : exists s' w', nn_sock_pipe_event s (set_events w es) p e = Ok (s', w')
      /\ handled (set_events w es) w' /\ sk_rep s' w').
  { destruct e; [|by apply sb_out_spec]. apply sb_in_spec; try done. apply (Hx p). rewrite E. set_solver. }
  destruct Hh as (s' & w' & -> & [Hw' He Hd Hc] & Hr'). mred. cbn in He, Hd, Hc.
  destruct (IH s' w') as (s2 & w2 & -> & ? & ? & ? & Hd2 & Hc2); [rewrite He; lia|done|done| |].
  { intros q Hq. rewrite He in Hq. apply (Hx q). rewrite E. set_solver. }
  exists s2, w2. repeat (split; [done|]). by rewrite Hd2, Hc2.
Qed.

Lemma size_dom_eq w w' : dom (w_pipes w') = dom (w_pipes w) -> size (w_pipes w') = size (w_pipes w).
Proof. intros Hd. by rewrite <- !size_dom, Hd. Qed.

Lemma adjust_fd_ok event flag : adjust_fd event flag flag = Ok (event, event).
Proof. by destruct event, flag. Qed.

Lemma nn_ctx_leave_ok k s w :
  sock_mid k s w -> exists k', nn_ctx_leave (with_base k s w) = Ok k' /\ sock_inv k'.
Proof.
  intros [Hst Hw Hr Hx Hc Hi Ho]. unfold nn_ctx_leave. cbn.
  destruct (process_events_ok (Datatypes.S (length (w_events w))) s w) as (s' & w' & E & Hw' & Hr' & He' & Hd & Hc');
    [lia|done|done|done|].
  cbn in E. rewrite E. mred. pose proof (size_dom_eq _ _ Hd) as Hsz.
  unfold nn_sock_onleave. cbn. rewrite Hst. pose proof (sb_events_spec (T := T) s') as Hev. decide_bools. mred.
  set (ri := if negb sb_norecv then _ else _). set (ro := if negb sb_nosend then _ else _).
  assert (Hri : exists fi rfd, ri = Ok (fi, rfd)
            /\ (sb_norecv (T := T) (S := S) = false -> rfd = fi /\ fi = has_in (sb_events (T := T) s'))).
  { subst ri. destruct (sb_norecv (T := T) (S := S)); cbn; [by eexists _, _|].
    rewrite Hi, adjust_fd_ok by done. by eexists _, _. }
  assert (Hro : exists fo sfd, ro = Ok (fo, sfd)
            /\ (sb_nosend (T := T) (S := S) = false -> sfd = fo /\ fo = has_out (sb_events (T := T) s'))).
  { subst ro. destruct (sb_nosend (T := T) (S := S)); cbn; [by eexists _, _|].
    rewrite Ho, adjust_fd_ok by done. by eexists _, _. }
  destruct Hri as (fi & rfd & -> & Hin). mred. destruct Hro as (fo & sfd & -> & Hout). mred.
  eexists. split; [done|]. constructor; cbn; try done. by rewrite Hc', Hsz.
Qed.

Lemma leave_out (k : nn_sock T S) s w (r : sock_out) :
  sock_mid k s w ->
  exists k', (k ← nn_ctx_leave (with_base k s w); Ok (k, r)) = Ok (k', r) /\ sock_inv k'.
Proof. intros Hm. destruct (nn_ctx_leave_ok k s w Hm) as (k' & -> & Hk). mred. eauto. Qed.

Lemma sock_inv_mid k : sock_inv k -> sock_mid k (sk_base k) (sk_world k).
Proof. intros []. constructor; try done; [|naive_solver..]. intros p. rewrite si_events0. by intros ?%elem_of_nil. Qed.

Lemma mid_handled k s w s' w' : sock_mid k s w -> handled w w' -> sk_rep s' w' -> sock_mid k s' w'.
Proof.
  intros [] [? He Hd Hc] ?. pose proof (size_dom_eq _ _ Hd) as Hsz.
  constructor; try done; [by rewrite He|by rewrite Hc, Hsz].
Qed.

Lemma starting_idle options :
  pb_state (nn_pipebase_init options) = NN_PIPEBASE_STATE_IDLE.
Proof. done. Qed.

Lemma stat_connections w inc :
  -1 <= inc <= 1 -> 0 <= w_stats w NN_STAT_CURRENT_CONNECTIONS + inc <= INT_MAX ->
  nn_sock_stat_increment w NN_STAT_CURRENT_CONNECTIONS inc
    = Ok (set_stat w NN_STAT_CURRENT_CONNECTIONS (w_stats w NN_STAT_CURRENT_CONNECTIONS + inc)).
Proof.
  intros Hi Hw. unfold nn_sock_stat_increment, INT_MAX in *.
  destruct (decide (inc > 0)).
  - decide_bools. mred. by decide_bools.
  - rewrite (bool_decide_false (inc > 0)) by lia. decide_bools. mred. by decide_bools.
Qed.

(** The statistics are not part of what a protocol sees. *)
Lemma view_set_stat w name v : view_eq w (set_stat w name v).
Proof. done. Qed.

Lemma world_ok_stat w name v : world_ok w -> world_ok (set_stat w name v).
Proof. by intros []. Qed.

Lemma lookup_set_pipe w p pb : w_pipes (set_pipe w p pb) !! p = Some pb.
Proof. apply lookup_insert_eq. Qed.

Lemma drop_set_pipe w p pb : drop_pipe (set_pipe w p pb) p = drop_pipe w p.
Proof. unfold drop_pipe, set_pipe. cbn. by rewrite delete_insert_eq. Qed.

Lemma drop_missing w p : w_pipes w !! p = None -> drop_pipe w p = w.
Proof. intros Hp. unfold drop_pipe. rewrite delete_id by done. by destruct w. Qed.

(** Closing a pipe the protocol refused. *)
Lemma close_failed s w p pb :
  pb_state pb <> NN_PIPEBASE_STATE_ACTIVE -> close_pipe s (set_pipe w p pb) p = Ok (s, drop_pipe w p).
Proof.
  intros Hpb. unfold close_pipe, nn_pipebase_stop. rewrite lookup_set_pipe. mred. decide_bools. mred.
  rewrite !lookup_set_pipe. mred. rewrite lookup_set_pipe. mred. unfold nn_pipebase_term. cbn.
  by rewrite !drop_set_pipe.
Qed.

Lemma connect_ok k p options :
  sock_inv k -> sk_room 1 (sk_base k) -> w_pipes (sk_world k) !! p = None -> valid_options options = true ->
  Z.of_nat (size (w_pipes (sk_world k))) < INT_MAX ->
  exists s w rc s' w', nn_pipebase_start nn_sock_add (sk_base k) (set_pipe (sk_world k) p (nn_pipebase_init options)) p
      = Ok (s, w, rc)
    /\ (if bool_decide (rc < 0) then close_pipe s w p else Ok (s, w)) = Ok (s', w') /\ sock_mid k s' w'.
Proof.
  intros Hk Hone Hp Hv Hmax. pose proof Hk as [Hst Hw Hr He Hc Hi Ho]. pose proof (conj Hv Hmax : room _ _) as Hroom.
  set (w0 := sk_world k) in *. pose proof (starting_idle options) as Hidle.
  destruct (sb_add_spec (sk_base k) w0 p options Hw Hr Hp Hroom Hone) as (s & d & rc & Hadd & Hpost).
  set (pb := starting (nn_pipebase_init options)) in *.
  pose proof (fun e => no_event_of_missing w0 p e Hw Hp) as Hno.
  set (w1 := set_pipe w0 p (set_data d pb)) in *.
  assert (Hsock : exists w2, nn_sock_add (sk_base k) (set_pipe (set_pipe w0 p (nn_pipebase_init options)) p pb) p
            = Ok (s, w2, rc) /\ w2 = (if bool_decide (rc < 0) then w1
                                     else set_stat w1 NN_STAT_CURRENT_CONNECTIONS
                                            (w_stats w1 NN_STAT_CURRENT_CONNECTIONS + 1))).
  { unfold nn_sock_add. unfold set_pipe at 1 2; cbn. rewrite insert_insert_eq.
    change (World _ _ _ _) with (set_pipe w0 p pb). rewrite Hadd. mred.
    case_bool_decide as Hrc; decide_bools; [mred; by eexists|].
    rewrite stat_connections; [mred; by eexists|lia|]. cbn. rewrite Hc. lia. }
  destruct Hsock as (w2 & Hsock & Hw2).
  assert (Hw2p : w_pipes w2 !! p = Some (set_data d pb)).
  { rewrite Hw2. case_bool_decide; cbn; apply lookup_insert_eq. }
  assert (Hw2e : w_events w2 = w_events w0) by (rewrite Hw2; by case_bool_decide).
  rewrite (nn_pipebase_start_ok nn_sock_add (sk_base k) s (set_pipe w0 p (nn_pipebase_init options)) p
             (nn_pipebase_init options) w2 (set_data d pb) rc);
    [|apply lookup_insert_eq|done|exact Hsock|exact Hw2p|rewrite Hw2e; apply Hno].
  case_bool_decide as Hrc.
  - exists s, (set_pipe w2 p (set_state NN_PIPEBASE_STATE_FAILED (set_data d pb))), rc.
    rewrite bool_decide_true by done. subst w2.
    eexists _, _. split; [done|]. split; [by apply close_failed|]. unfold w1.
    rewrite drop_set_pipe, drop_missing by done.
    constructor; try done; [|naive_solver..]. intros q. cbn. rewrite He. by intros ?%elem_of_nil.
  - exists s. eexists _, 0. rewrite (bool_decide_false (0 < 0)) by lia. eexists _, _. split; [done|]. split; [done|].
    subst w2.
    destruct (started_ok w0 p d options Hw Hp Hroom) as [Hsw _].
    constructor; cbn; try done.
    + by apply (world_ok_stat (started w0 p d options)).
    + apply (sk_rep_view s (started w0 p d options)); [done|]. exact Hpost.
    + intros q. rewrite He. by intros [=]%list_elem_of_singleton.
    + rewrite map_size_insert_None by done. decide_bools. rewrite Hc. lia.
    + naive_solver.
    + naive_solver.
Qed.

Lemma close_ok k p pb :
  sock_inv k -> w_pipes (sk_world k) !! p = Some pb ->
  exists s' w', close_pipe (sk_base k) (sk_world k) p = Ok (s', w') /\ sock_mid k s' w'.
Proof.
  intros Hk Hp. pose proof Hk as [Hst Hw Hr He Hc Hi Ho]. set (w := sk_world k) in *. pose proof (wo_size _ Hw) as Hm.
  destruct (sb_rm_spec (sk_base k) w p pb Hw Hr Hp) as (s' & w' & E & [Hw' He' Hd Hc'] & Hr');
    [intros e; rewrite He; set_solver|].
  pose proof (size_dom_eq _ _ Hd) as Hsz.
  assert (Hpos : (size (w_pipes w) <> 0)%nat) by (eapply map_size_ne_0_lookup_2; by eexists).
  assert (Hp' : exists pb', w_pipes w' !! p = Some pb').
  { apply elem_of_dom. rewrite Hd. by apply elem_of_dom. }
  destruct Hp' as [pb' Hp']. unfold close_pipe, nn_pipebase_stop, nn_sock_rm. rewrite Hp. mred.
  rewrite (proj1 (wo_pipes _ Hw _ _ Hp)). decide_bools. rewrite E. mred.
  rewrite stat_connections; [mred|lia|rewrite Hc', Hc; lia]. cbn [set_stat w_pipes]. rewrite Hp'. mred.
  rewrite lookup_set_pipe. mred. cbn [nn_pipebase_term set_state pb_state]. unfold nn_pipebase_term. cbn.
  decide_bools. mred. rewrite drop_set_pipe. eexists _, _. split; [done|].
  constructor; cbn; try done.
  - destruct Hw' as [Hs1 Hs2 Hs3 Hs4]. constructor; cbn;
    [|intros q e; rewrite He', He; set_solver|rewrite He', He; constructor|].
    { intros q pbq [_ Hq]%lookup_delete_Some. by eapply Hs1. }
    rewrite map_size_delete_Some by (by eexists). lia.
  - by apply (sk_rep_view s' (drop_pipe w' p)).
  - intros q. rewrite He', He. by intros ?%elem_of_nil.
  - decide_bools. rewrite Hc', Hc, map_size_delete_Some by (by eexists). lia.
  - naive_solver.
  - naive_solver.
Qed.

(** The transport reports that an asynchronous send is complete. *)
Lemma sent_ok w p pb :
  world_ok w -> w_events w = [] -> w_pipes w !! p = Some pb -> pb_outstate pb = NN_PIPEBASE_OUTSTATE_ASYNC ->
  exists w', nn_pipebase_sent w p = Ok w' /\ world_ok w' /\ view_eq w w' /\ size (w_pipes w') = size (w_pipes w)
    /\ w_stats w' = w_stats w /\ w_events w' = [(p, NN_PIPE_OUT)].
Proof.
  intros [Hs He Hn Hsz] Hev Hp Ho. unfold nn_pipebase_sent. rewrite Hp. mred. rewrite Ho. decide_bools. mred.
  rewrite nn_pipe_raise_ok by (cbn; rewrite Hev; set_solver). eexists. split; [done|].
  cbn. rewrite Hev. split; [constructor; cbn|split; [|split; [|done]]].
  - intros q pb' [[<- <-]|[_ Hq]]%lookup_insert_Some; [|by eapply Hs].
    destruct (Hs _ _ Hp) as (? & ? & _ & ?). split; [done|]. cbn. auto.
  - intros q e [= -> ->]%list_elem_of_singleton. rewrite lookup_insert_eq. eexists. by split.
  - apply NoDup_singleton.
  - by rewrite map_size_insert_Some.
  - split; [|split]; intros q; cbn.
    + destruct (decide (p = q)) as [<-|]; [by rewrite lookup_insert_eq, Hp|by rewrite lookup_insert_ne].
    + unfold off_in; cbn. rewrite Hev. destruct (decide (p = q)) as [<-|Hne].
      * rewrite lookup_insert_eq, Hp. split; intros (? & [= <-] & ? & ?); eexists; (split; [done|]); set_solver.
      * rewrite lookup_insert_ne by done. setoid_rewrite list_elem_of_singleton. set_solver.
    + unfold off_out; cbn. rewrite Hev. destruct (decide (p = q)) as [<-|Hne].
      * rewrite lookup_insert_eq, Hp. split; intros (? & [= <-] & Hx & Hy); [congruence|set_solver].
      * rewrite lookup_insert_ne by done. setoid_rewrite list_elem_of_singleton.
        split; intros (x & ? & ? & ?); exists x; (split; [done|]); (split; [done|]); set_solver.
  - by rewrite map_size_insert_Some.
Qed.

Lemma received_ok w p pb :
  world_ok w -> w_events w = [] -> w_pipes w !! p = Some pb -> pb_instate pb = NN_PIPEBASE_INSTATE_ASYNC ->
  exists w', nn_pipebase_received w p = Ok w' /\ world_ok w' /\ view_eq w w' /\ size (w_pipes w') = size (w_pipes w)
    /\ w_stats w' = w_stats w /\ w_events w' = [(p, NN_PIPE_IN)].
Proof.
  intros [Hs He Hn Hsz] Hev Hp Ho. unfold nn_pipebase_received. rewrite Hp. mred. rewrite Ho. decide_bools. mred.
  rewrite nn_pipe_raise_ok by (cbn; rewrite Hev; set_solver). eexists. split; [done|].
  cbn. rewrite Hev. split; [constructor; cbn|split; [|split; [|done]]].
  - intros q pb' [[<- <-]|[_ Hq]]%lookup_insert_Some; [|by eapply Hs].
    destruct (Hs _ _ Hp) as (? & _ & ? & ?). split; [done|]. cbn. auto.
  - intros q e [= -> ->]%list_elem_of_singleton. rewrite lookup_insert_eq. eexists. by split.
  - apply NoDup_singleton.
  - by rewrite map_size_insert_Some.
  - split; [|split]; intros q; cbn.
    + destruct (decide (p = q)) as [<-|]; [by rewrite lookup_insert_eq, Hp|by rewrite lookup_insert_ne].
    + unfold off_in; cbn. rewrite Hev. destruct (decide (p = q)) as [<-|Hne].
      * rewrite lookup_insert_eq, Hp. split; intros (? & [= <-] & Hx & Hy); [congruence|set_solver].
      * rewrite lookup_insert_ne by done. setoid_rewrite list_elem_of_singleton.
        split; intros (x & ? & ? & ?); exists x; (split; [done|]); (split; [done|]); set_solver.
    + unfold off_out; cbn. rewrite Hev. destruct (decide (p = q)) as [<-|Hne].
      * rewrite lookup_insert_eq, Hp. split; intros (? & [= <-] & ? & ?); eexists; (split; [done|]); set_solver.
      * rewrite lookup_insert_ne by done. setoid_rewrite list_elem_of_singleton. set_solver.
  - by rewrite map_size_insert_Some.
Qed.

Lemma mid_view k w' :
  sock_inv k -> world_ok w' -> view_eq (sk_world k) w' -> size (w_pipes w') = size (w_pipes (sk_world k)) ->
  w_stats w' = w_stats (sk_world k) -> expected w' -> sock_mid k (sk_base k) w'.
Proof.
  intros [Hst _ Hr He Hc Hi Ho] Hw Hv Hsz Hs Hx. constructor; try done; [|by rewrite Hs, Hsz|naive_solver..].
  by eapply sk_rep_view.
Qed.

Lemma sock_send_ok k m :
  sock_inv k -> sk_sends (T := T) (S := S) m = true ->
  exists k' rc, nn_sock_send k m = Ok (k', rc) /\ sock_inv k' /\ rc <= 0.
Proof.
  intros Hk Hs. pose proof (sock_inv_mid k Hk) as Hm. pose proof Hk as [Hst Hw Hr _ _ _ _].
  unfold nn_sock_send. destruct (sb_nosend (T := T) (S := S)) eqn:En.
  { by exists k, (- ENOTSUP). }
  rewrite Hst. destruct (sb_send_spec (sk_base k) (sk_world k) m En Hs Hw Hr) as (s' & w' & rc & -> & Hrc & Hh & Hr').
  mred. replace (bool_decide (rc = 0) || bool_decide (rc < 0)) with true
    by (symmetry; apply orb_true_iff; rewrite !bool_decide_eq_true; lia). mred.
  destruct (nn_ctx_leave_ok k s' w' (mid_handled _ _ _ _ _ Hm Hh Hr')) as (k' & -> & Hk'). mred. eauto 6.
Qed.

Lemma sock_recv_ok k :
  sock_inv k -> sk_takes (sk_base k) (sk_world k) = true ->
  exists k' rc m, nn_sock_recv k = Ok (k', rc, m) /\ sock_inv k' /\ rc <= 0 /\ (rc = 0 <-> is_Some m).
Proof.
  intros Hk Ht. pose proof (sock_inv_mid k Hk) as Hm. pose proof Hk as [Hst Hw Hr _ _ _ _].
  unfold nn_sock_recv. destruct (sb_norecv (T := T) (S := S)) eqn:En.
  { exists k, (- ENOTSUP), None. split; [done|]. split; [done|]. split; [unfold ENOTSUP; lia|].
    split; [done|by intros [? ?]]. }
  rewrite Hst. destruct (sb_recv_spec (sk_base k) (sk_world k) En Ht Hw Hr) as (s' & w' & rc & m & -> & Hrc & Hh & Hr' & Hsome).
  mred. replace (bool_decide (rc = 0) || bool_decide (rc < 0)) with true
    by (symmetry; apply orb_true_iff; rewrite !bool_decide_eq_true; lia). mred.
  destruct (nn_ctx_leave_ok k s' w' (mid_handled _ _ _ _ _ Hm Hh Hr')) as (k' & -> & Hk'). mred. eauto 8.
Qed.

(** How many pipes a session adds. *)
Fixpoint connects (os : list sock_op) : nat :=
  match os with
  | [] => 0
  | KConnect _ _ :: os => Datatypes.S (connects os)
  | _ :: os => connects os
  end.

(** What a session must keep to: messages come only where they are expected,
    the user sends what the protocol lets it, and there is room for the pipes. *)
Record fits s (os : list sock_op) : Prop := {
  ft_hears : sk_hears (T := T) (S := S) = true \/ forall p, KReceived p ∉ os;
  ft_sends m : KSend m ∈ os -> sk_sends (T := T) (S := S) m = true;
  ft_room : sk_room (connects os) s
}.

Lemma fits_any s os :
  sk_hears (T := T) (S := S) = true -> (forall m, sk_sends (T := T) (S := S) m = true) ->
  (forall n s, sk_room (T := T) (S := S) n s) -> fits s os.
Proof. by constructor; [left|..]. Qed.

Lemma room_zero n s : sk_room n s -> sk_room 0 s.
Proof. induction n as [|n IH]; [done|]. intros Hn. by apply IH, sk_room_le. Qed.

Lemma fits_head s o os : fits s (o :: os) -> fits s [o].
Proof.
  intros [Hh Hs Hr]. constructor.
  - destruct Hh as [?|Hno]; [by left|]. right; intros p Hp; apply (Hno p); set_solver.
  - intros m Hm. apply Hs. set_solver.
  - destruct o; cbn in *; try by eapply room_zero. revert Hr. generalize (connects os). intros n.
    induction n as [|n IH]; [done|]. intros Hn. by apply IH, sk_room_le.
Qed.

Lemma sock_step_ok k o :
  sock_inv k -> fits (sk_base k) [o] -> (o = KRecv -> sk_takes (sk_base k) (sk_world k) = true) ->
  exists k' r, sock_step k o = Ok (k', r) /\ sock_inv k'.
Proof.
  intros Hk [Hheard Hsends Hroom] Htakes. pose proof (si_events _ Hk) as Hev. pose proof (si_world _ Hk) as Hw.
  destruct o as [p options|p|p|p|m| |e]; cbn [sock_step].
  - case_bool_decide as E1; [|by exists k, ONone].
    destruct (valid_options options) eqn:E2; [|by exists k, ONone]. cbn [andb].
    case_bool_decide as E3; [|by exists k, ONone].
    destruct (connect_ok k p options Hk Hroom E1 E2 E3) as (s & w & rc & s' & w' & -> & E & Hm). mred. rewrite E. mred.
    destruct (leave_out k s' w' ONone Hm) as (k' & -> & ?). eauto.
  - case_bool_decide as E; [by exists k, ONone|]. destruct (w_pipes (sk_world k) !! p) as [pb|] eqn:Ep; [|done].
    destruct (close_ok k p pb Hk Ep) as (s' & w' & -> & Hm). mred.
    destruct (leave_out k s' w' ONone Hm) as (k' & -> & ?). eauto.
  - case_bool_decide as E; [|by exists k, ONone]. destruct (w_pipes (sk_world k) !! p) as [pb|] eqn:Ep; [|done].
    cbn in E. injection E as E. destruct (sent_ok _ p pb Hw Hev Ep E) as (w' & -> & ? & ? & ? & ? & He'). mred.
    destruct (leave_out k (sk_base k) w' ONone) as (k' & -> & ?); [|eauto]. apply mid_view; try done.
    intros q Hq. rewrite He' in Hq. by apply list_elem_of_singleton in Hq.
  - case_bool_decide as E; [|by exists k, ONone]. destruct (w_pipes (sk_world k) !! p) as [pb|] eqn:Ep; [|done].
    cbn in E. injection E as E. destruct (received_ok _ p pb Hw Hev Ep E) as (w' & -> & ? & ? & ? & ? & He'). mred.
    destruct (leave_out k (sk_base k) w' ONone) as (k' & -> & ?); [|eauto]. apply mid_view; try done.
    intros q Hq. rewrite He' in Hq. destruct Hheard as [|Hno]; [done|]. by destruct (Hno p); apply list_elem_of_singleton.
  - destruct (sock_send_ok k m Hk) as (k' & rc & -> & ? & _); [apply Hsends; set_solver|]. mred. eauto.
  - destruct (sock_recv_ok k Hk (Htakes eq_refl)) as (k' & rc & m & -> & ? & _). mred. eauto.
  - destruct (sb_pending (sk_base k) e) eqn:E; [|by exists k, ONone].
    destruct (sb_worker_spec (sk_base k) (sk_world k) e Hw (si_rep _ Hk) E) as (s' & w' & -> & Hh & Hr'). mred.
    destruct (leave_out k s' w' ONone) as (k' & -> & ?); [|eauto]. eapply mid_handled; [by apply sock_inv_mid|done|done].
Qed.

(** ** The room for pipes *)
Definition room_kept s s' : Prop := forall n, sk_room n s -> sk_room n s'.

#[local] Instance room_kept_preorder : PreOrder room_kept.
Proof. split; [by intros s n|]. intros s1 s2 s3 H12 H23 n Hn. auto. Qed.

Lemma step_room s s' : proto_step s s' -> room_kept s s'.
Proof. intros Hs n. by apply sk_room_step. Qed.

Lemma process_events_room fuel : forall s w s' w', process_events fuel s w = Ok (s', w') -> room_kept s s'.
Proof.
  induction fuel as [|fuel IH]; intros s w s' w' E; cbn in E; [done|].
  destruct (w_events w) as [|[p e] es]; [by simplify_eq|].
  apply bind_Ok in E as ([s1 w1] & E1 & E2). apply IH in E2. etrans; [|exact E2].
  destruct e; cbn in E1; apply step_room; by econstructor.
Qed.

Lemma nn_ctx_leave_room k s w k' : nn_ctx_leave (with_base k s w) = Ok k' -> room_kept s (sk_base k').
Proof.
  unfold nn_ctx_leave. intros ([s1 w1] & E1 & E2)%bind_Ok. apply process_events_room in E1. etrans; [exact E1|].
  unfold nn_sock_onleave in E2. cbn [sk_state with_base sk_base sk_world] in E2.
  destruct (negb _); [by simplify_eq|].
  apply bind_Ok in E2 as (_ & _ & ([fi rfd] & _ & ([fo sfd] & _ & E2)%bind_Ok)%bind_Ok). by simplify_eq.
Qed.

Lemma close_pipe_room s w p s' w' : close_pipe s w p = Ok (s', w') -> room_kept s s'.
Proof.
  unfold close_pipe, nn_pipebase_stop, nn_sock_rm. intros ([s1 w1] & E1 & E2)%bind_Ok.
  apply bind_Ok in E2 as (pb & _ & (_ & _ & E2)%bind_Ok). simplify_eq.
  apply bind_Ok in E1 as (pb1 & _ & ([s2 w2] & E1 & (pb2 & _ & E2)%bind_Ok)%bind_Ok). simplify_eq.
  case_bool_decide; [|by simplify_eq].
  apply bind_Ok in E1 as ([s3 w3] & E1 & (w4 & E2 & E3)%bind_Ok). simplify_eq. apply step_room. by econstructor.
Qed.

Lemma start_room s w p s' w' rc n :
  nn_pipebase_start nn_sock_add s w p = Ok (s', w', rc) -> sk_room (Datatypes.S n) s -> sk_room n s'.
Proof.
  unfold nn_pipebase_start, nn_sock_add. intros (pb & _ & (_ & _ & ([[s1 w1] rc1] & E & E2)%bind_Ok)%bind_Ok)%bind_Ok.
  apply bind_Ok in E as ([[s2 w2] rc2] & E1 & (w3 & E3 & E4)%bind_Ok). simplify_eq.
  assert (s' = s1) as ->; [|by apply (sk_room_add _ _ _ _ _ _ _ E1)].
  case_bool_decide; [apply bind_Ok in E2 as (pb2 & _ & E2)|apply bind_Ok in E2 as (w4 & _ & E2)]; by simplify_eq.
Qed.

Lemma sock_step_room k o k' r n :
  sock_step k o = Ok (k', r) -> sk_room (connects [o] + n) (sk_base k) -> sk_room n (sk_base k').
Proof.
  intros E Hn. destruct o as [p options|p|p|p|m| |e]; cbn [sock_step] in E; cbn [connects plus] in Hn.
  - destruct (_ && _) in E; [|simplify_eq; by apply sk_room_le].
    apply bind_Ok in E as ([[s1 w1] rc] & E1 & ([s2 w2] & E2 & (k1 & E3%nn_ctx_leave_room & E4)%bind_Ok)%bind_Ok).
    simplify_eq. apply E3. pose proof (start_room _ _ _ _ _ _ _ E1 Hn) as Hn1.
    case_bool_decide; [by apply (close_pipe_room _ _ _ _ _ E2)|by simplify_eq].
  - case_bool_decide; [by simplify_eq|].
    apply bind_Ok in E as ([s1 w1] & E1%close_pipe_room & (k1 & E3%nn_ctx_leave_room & E4)%bind_Ok).
    simplify_eq. by apply E3, E1.
  - case_bool_decide; [|by simplify_eq].
    apply bind_Ok in E as (w1 & E1 & (k1 & E3%nn_ctx_leave_room & E4)%bind_Ok). simplify_eq. by apply E3.
  - case_bool_decide; [|by simplify_eq].
    apply bind_Ok in E as (w1 & E1 & (k1 & E3%nn_ctx_leave_room & E4)%bind_Ok). simplify_eq. by apply E3.
  - apply bind_Ok in E as ([k1 rc] & E & E4). simplify_eq. unfold nn_sock_send in E.
    destruct (sb_nosend (T := T) (S := S)); [by simplify_eq|].
    destruct (sk_state k); try (by apply bind_Ok in E as (k2 & E3%(nn_ctx_leave_room k) & E5); simplify_eq; apply E3).
    all: apply bind_Ok in E as ([[s1 w1] rc1] & E1 & (_ & _ & (k2 & E3%nn_ctx_leave_room & E5)%bind_Ok)%bind_Ok).
    all: simplify_eq; apply E3; refine (step_room _ _ _ _ Hn); by econstructor.
  - apply bind_Ok in E as ([[k1 rc] m] & E & E4). simplify_eq. unfold nn_sock_recv in E.
    destruct (sb_norecv (T := T) (S := S)); [by simplify_eq|].
    destruct (sk_state k); try (by apply bind_Ok in E as (k2 & E3%(nn_ctx_leave_room k) & E5); simplify_eq; apply E3).
    all: apply bind_Ok in E as ([[[s1 w1] rc1] m1] & E1 & (_ & _ & (k2 & E3%nn_ctx_leave_room & E5)%bind_Ok)%bind_Ok).
    all: simplify_eq; apply E3; refine (step_room _ _ _ _ Hn); by econstructor.
  - destruct (sb_pending _ e); [|by simplify_eq].
    apply bind_Ok in E as ([s1 w1] & E1 & (k1 & E3%nn_ctx_leave_room & E4)%bind_Ok).
    simplify_eq. apply E3. refine (step_room _ _ _ _ Hn); by econstructor.
Qed.

Lemma fits_tail k o os k' r : fits (sk_base k) (o :: os) -> sock_step k o = Ok (k', r) -> fits (sk_base k') os.
Proof.
  intros [Hh Hs Hr] E. constructor.
  - destruct Hh as [?|Hno]; [by left|]. right; intros p Hp; apply (Hno p); set_solver.
  - intros m Hm. apply Hs. set_solver.
  - apply (sock_step_room _ _ _ _ _ E). by destruct o.
Qed.

Lemma sock_run_app os1 os2 : forall k,
  sock_run k (os1 ++ os2) = ('(k, rs1) ← sock_run k os1; '(k, rs2) ← sock_run k os2; Ok (k, rs1 ++ rs2)).
Proof.
  induction os1 as [|o os IH]; intros k; cbn [sock_run app].
  - mred. by destruct (sock_run k os2) as [[? ?]|].
  - destruct (sock_step k o) as [[k1 r]|]; [|done]. mred. rewrite IH. destruct (sock_run k1 os) as [[k2 rs]|]; [|done]. mred.
    by destruct (sock_run k2 os2) as [[? ?]|].
Qed.

(** A session goes on until the user receives where that is not covered. *)
Lemma sock_run_until os : forall k, sock_inv k -> fits (sk_base k) os ->
  (exists k' rs, sock_run k os = Ok (k', rs) /\ sock_inv k') \/
  (exists os1 os2 k1 rs1, os = os1 ++ KRecv :: os2 /\ sock_run k os1 = Ok (k1, rs1) /\ sock_inv k1
     /\ sk_takes (sk_base k1) (sk_world k1) = false).
Proof.
  induction os as [|o os IH]; intros k Hk Hos; [left; cbn [sock_run]; eauto|].
  assert (Hd : (o = KRecv -> sk_takes (sk_base k) (sk_world k) = true)
    \/ o = KRecv /\ sk_takes (sk_base k) (sk_world k) = false).
  { destruct (sk_takes (sk_base k) (sk_world k)); [by left|]. destruct o; try (left; discriminate). by right. }
  destruct Hd as [Ht|[-> Ht]]; [|right; by exists [], os, k, []].
  destruct (sock_step_ok k o Hk (fits_head _ _ _ Hos) Ht) as (k1 & r & E & Hk1).
  destruct (IH k1 Hk1 (fits_tail _ _ _ _ _ Hos E)) as [(k2 & rs & E2 & Hk2)|(os1 & os2 & k2 & rs & -> & E2 & Hk2 & Hf)].
  - left. exists k2, (r :: rs). split; [|done]. cbn [sock_run]. rewrite E. mred. by rewrite E2.
  - right. exists (o :: os1), os2, k2, (r :: rs). split; [done|]. split; [|done]. cbn [sock_run]. rewrite E. mred. by rewrite E2.
Qed.

Lemma sock_run_inv `{!SockTakes T S} os : forall k,
  sock_inv k -> fits (sk_base k) os -> exists k' rs, sock_run k os = Ok (k', rs) /\ sock_inv k'.
Proof.
  intros k Hk Hos. destruct (sock_run_until os k Hk Hos) as [?|(os1 & os2 & k1 & rs1 & _ & _ & _ & Hf)]; [done|].
  by rewrite sk_takes_all in Hf.
Qed.

Lemma nn_sock_init_ok s net :
  sk_rep s (World net ∅ [] (fun _ => 0)) -> exists k, nn_sock_init s net = Ok k /\ sock_inv k.
Proof.
  intros Hr. unfold nn_sock_init.
  apply (nn_ctx_leave_ok (Sock NN_SOCK_STATE_ACTIVE s (World net ∅ [] (fun _ => 0)) false false false false)).
  constructor; cbn; try done; [|by intros p ?%elem_of_nil].
  constructor; cbn; [by intros p pb Hp; rewrite lookup_empty in Hp|set_solver|constructor|].
  rewrite map_size_empty. unfold INT_MAX. lia.
Qed.

Lemma nn_sock_init_fits s net k os : nn_sock_init s net = Ok k -> fits s os -> fits (sk_base k) os.
Proof.
  intros E%(nn_ctx_leave_room (Sock NN_SOCK_STATE_ACTIVE s (World net ∅ [] (fun _ => 0)) false false false false) s) [Hh Hs Hr].
  constructor; [done|done|]. by apply E.
Qed.

Lemma sock_session_until s net os :
  sk_rep s (World net ∅ [] (fun _ => 0)) -> fits s os ->
  (exists k rs, (k ← nn_sock_init s net; sock_run k os) = Ok (k, rs) /\ sock_inv k) \/
  (exists os1 os2 k1 rs1, os = os1 ++ KRecv :: os2 /\ (k ← nn_sock_init s net; sock_run k os1) = Ok (k1, rs1) /\ sock_inv k1
     /\ sk_takes (sk_base k1) (sk_world k1) = false
     /\ forall e, sock_step k1 KRecv = Err e -> (k ← nn_sock_init s net; sock_run k os) = Err e).
Proof.
  intros Hr Hos. destruct (nn_sock_init_ok s net Hr) as (k & E & Hk). rewrite E. mred.
  destruct (sock_run_until os k Hk) as [?|(os1 & os2 & k1 & rs1 & -> & E1 & Hk1 & Hf)]; [by eapply nn_sock_init_fits|by left|].
  right. exists os1, os2, k1, rs1. do 4 (split; [done|]). intros e Ee. rewrite sock_run_app, E1. mred. cbn [sock_run]. by rewrite Ee.
Qed.

Lemma sock_session_ok `{!SockTakes T S} s net os :
  sk_rep s (World net ∅ [] (fun _ => 0)) -> fits s os ->
  exists k rs, (k ← nn_sock_init s net; sock_run k os) = Ok (k, rs) /\ sock_inv k.
Proof.
  intros Hr Hos. destruct (sock_session_until s net os Hr Hos) as [?|(os1 & os2 & k1 & rs1 & _ & _ & _ & Hf & _)]; [done|].
  by rewrite sk_takes_all in Hf.
Qed.
End SockRun.

(** ** The account of messages

    For the socket types that hand every message over once: adding, removing
    and signalling pipes moves no message, an accepted send passes exactly
    the given message to a pipe, and a delivered message was received from a
    pipe just then. *)
Class SockLedger (T S : Type) `{SockSpec T S} `{TransportSpec T} := {
  lg_add s w p s' w' rc : sb_add s w p = Ok (s', w', rc) -> w_net w' = w_net w;
  lg_rm s w p s' w' : sb_rm s w p = Ok (s', w') -> w_net w' = w_net w;
  lg_in s w p s' w' : sb_in s w p = Ok (s', w') -> w_net w' = w_net w;
  lg_out s w p s' w' : sb_out s w p = Ok (s', w') -> w_net w' = w_net w;
  lg_send s w m s' w' rc :
    sb_nosend (T := T) (S := S) = false -> world_ok w -> sk_rep s w -> sb_send s w m = Ok (s', w', rc) ->
    snd <$> sent (w_net w') = (snd <$> sent (w_net w)) ++ (if bool_decide (rc = 0) then [m] else [])
    /\ rcvd (w_net w') = rcvd (w_net w);
  lg_recv s w s' w' rc m :
    sb_norecv (T := T) (S := S) = false -> world_ok w -> sk_rep s w -> sb_recv s w = Ok (s', w', rc, m) ->
    snd <$> rcvd (w_net w') = (snd <$> rcvd (w_net w)) ++ option_list m
    /\ sent (w_net w') = sent (w_net w);
  lg_worker s w e s' w' : sb_worker s w e = Ok (s', w') -> w_net w' = w_net w
}.

(** The messages the user was told are sent, and those it was given. *)
Fixpoint accepted (os : list sock_op) (rs : list sock_out) : list nn_msg :=
  match os, rs with
  | KSend m :: os, OSend rc :: rs => if bool_decide (rc = 0) then m :: accepted os rs else accepted os rs
  | _ :: os, _ :: rs => accepted os rs
  | _, _ => []
  end.
Fixpoint delivered (rs : list sock_out) : list nn_msg :=
  match rs with
  | ORecv _ (Some m) :: rs => m :: delivered rs
  | _ :: rs => delivered rs
  | [] => []
  end.

Section Ledger.
  Context {T S : Type} `{SockLedger T S} `{!SockTakes T S}.
  Implicit Types (w : world T) (s : S) (k : nn_sock T S).

Lemma process_events_net fuel : forall s w s' w',
  process_events fuel s w = Ok (s', w') -> w_net w' = w_net w.
Proof.
  induction fuel as [|fuel IH]; intros s w s' w' E; cbn in E; [done|].
  destruct (w_events w) as [|[p e] es]; [by simplify_eq|].
  apply bind_Ok in E as ([s1 w1] & E1 & E2). apply IH in E2. rewrite E2.
  destruct e; cbn in E1; [apply lg_in in E1|apply lg_out in E1]; by rewrite E1.
Qed.

Lemma nn_ctx_leave_net k s w k' :
  nn_ctx_leave (with_base k s w) = Ok k' -> w_net (sk_world k') = w_net w.
Proof.
  unfold nn_ctx_leave. intros ([s1 w1] & E1 & E2)%bind_Ok. apply process_events_net in E1. cbn in E1.
  rewrite <- E1. unfold nn_sock_onleave in E2. cbn [sk_state with_base sk_base sk_world] in E2.
  destruct (negb _); [by simplify_eq|].
  apply bind_Ok in E2 as (_ & _ & ([fi rfd] & _ & ([fo sfd] & _ & E2)%bind_Ok)%bind_Ok). by simplify_eq.
Qed.

Lemma stat_net w name inc w' : nn_sock_stat_increment w name inc = Ok w' -> w_net w' = w_net w.
Proof.
  unfold nn_sock_stat_increment. destruct name; intros E; inv_ok; try done; case_bool_decide; by simplify_eq.
Qed.

Lemma close_pipe_net s w p s' w' : close_pipe s w p = Ok (s', w') -> w_net w' = w_net w.
Proof.
  unfold close_pipe, nn_pipebase_stop, nn_sock_rm. intros ([s1 w1] & E1 & E2)%bind_Ok.
  apply bind_Ok in E2 as (pb & _ & (_ & _ & E2)%bind_Ok). simplify_eq. cbn.
  apply bind_Ok in E1 as (pb1 & _ & ([s2 w2] & E1 & (pb2 & _ & E2)%bind_Ok)%bind_Ok). simplify_eq. cbn.
  case_bool_decide; [|by simplify_eq].
  apply bind_Ok in E1 as ([s3 w3] & E1%lg_rm & (w4 & E2%stat_net & E3)%bind_Ok). simplify_eq. congruence.
Qed.

Lemma start_net s w p s' w' rc : nn_pipebase_start nn_sock_add s w p = Ok (s', w', rc) -> w_net w' = w_net w.
Proof.
  unfold nn_pipebase_start, nn_sock_add. intros (pb & _ & (_ & _ & ([[s1 w1] rc1] & E & E2)%bind_Ok)%bind_Ok)%bind_Ok.
  apply bind_Ok in E as ([[s2 w2] rc2] & E1%lg_add & (w3 & E3 & E4)%bind_Ok). simplify_eq. cbn in E1.
  assert (Hn : w_net w1 = w_net w2) by (destruct (bool_decide (rc1 >= 0)); [by apply stat_net in E3|by simplify_eq]).
  case_bool_decide.
  - apply bind_Ok in E2 as (pb2 & _ & E2). simplify_eq. cbn. congruence.
  - apply bind_Ok in E2 as (w4 & E2 & E5). simplify_eq. unfold nn_pipe_raise in E2.
    apply bind_Ok in E2 as (_ & _ & E2). simplify_eq. cbn. congruence.
Qed.

(** What one step adds to the account. *)
Definition ledger_step k k' (o : sock_op) (r : sock_out) : Prop :=
  snd <$> sent (w_net (sk_world k')) = (snd <$> sent (w_net (sk_world k))) ++ accepted [o] [r]
  /\ snd <$> rcvd (w_net (sk_world k')) = (snd <$> rcvd (w_net (sk_world k))) ++ delivered [r].

Lemma ledger_quiet k k' o r :
  w_net (sk_world k') = w_net (sk_world k) -> accepted [o] [r] = [] -> delivered [r] = [] -> ledger_step k k' o r.
Proof. intros E Ha Hd. unfold ledger_step. by rewrite E, Ha, Hd, !app_nil_r. Qed.

Lemma pipebase_done_net w w' p :
  nn_pipebase_sent w p = Ok w' \/ nn_pipebase_received w p = Ok w' -> w_net w' = w_net w.
Proof.
  unfold nn_pipebase_sent, nn_pipebase_received, nn_pipe_raise.
  intros [(pb & _ & E)%bind_Ok|(pb & _ & E)%bind_Ok]; case_bool_decide; inv_ok; done.
Qed.

Lemma sock_step_ledger k o k' r : sock_inv k -> sock_step k o = Ok (k', r) -> ledger_step k k' o r.
Proof.
  intros Hk E. pose proof (si_world _ Hk) as Hw. pose proof (si_rep _ Hk) as Hr. pose proof (si_state _ Hk) as Hs.
  destruct o as [p options|p|p|p|m| |e]; cbn [sock_step] in E.
  - destruct (_ && _) in E; [|simplify_eq; by apply ledger_quiet].
    apply bind_Ok in E as ([[s1 w1] rc] & E1%start_net & ([s2 w2] & E2 & (k1 & E3%nn_ctx_leave_net & E4)%bind_Ok)%bind_Ok).
    simplify_eq. apply ledger_quiet; [|done|done]. rewrite E3. transitivity (w_net w1); [|exact E1].
    case_bool_decide; [by apply close_pipe_net in E2|by simplify_eq].
  - case_bool_decide; [simplify_eq; by apply ledger_quiet|].
    apply bind_Ok in E as ([s1 w1] & E1%close_pipe_net & (k1 & E3%nn_ctx_leave_net & E4)%bind_Ok).
    simplify_eq. apply ledger_quiet; [congruence|done|done].
  - case_bool_decide; [|simplify_eq; by apply ledger_quiet].
    apply bind_Ok in E as (w1 & E1 & (k1 & E3%nn_ctx_leave_net & E4)%bind_Ok).
    simplify_eq. apply ledger_quiet; [|done|done]. rewrite E3. eapply pipebase_done_net. eauto.
  - case_bool_decide; [|simplify_eq; by apply ledger_quiet].
    apply bind_Ok in E as (w1 & E1 & (k1 & E3%nn_ctx_leave_net & E4)%bind_Ok).
    simplify_eq. apply ledger_quiet; [|done|done]. rewrite E3. eapply pipebase_done_net. eauto.
  - apply bind_Ok in E as ([k1 rc] & E & E4). simplify_eq. unfold nn_sock_send in E.
    destruct (sb_nosend (T := T) (S := S)) eqn:En; [simplify_eq; by apply ledger_quiet|].
    rewrite Hs in E. apply bind_Ok in E as ([[s1 w1] rc1] & E1 & (_ & _ & (k2 & E3%nn_ctx_leave_net & E5)%bind_Ok)%bind_Ok).
    simplify_eq. destruct (lg_send _ _ _ _ _ _ En Hw Hr E1) as [Hsent Hrcvd].
    unfold ledger_step. cbn. rewrite E3, Hsent, Hrcvd, app_nil_r. by case_bool_decide.
  - apply bind_Ok in E as ([[k1 rc] m] & E & E4). simplify_eq. unfold nn_sock_recv in E.
    destruct (sb_norecv (T := T) (S := S)) eqn:En; [simplify_eq; by apply ledger_quiet|].
    rewrite Hs in E. apply bind_Ok in E as ([[[s1 w1] rc1] m1] & E1 & (_ & _ & (k2 & E3%nn_ctx_leave_net & E5)%bind_Ok)%bind_Ok).
    simplify_eq. destruct (lg_recv _ _ _ _ _ _ En Hw Hr E1) as [Hrcvd Hsent].
    unfold ledger_step. cbn. rewrite E3, Hrcvd, Hsent, app_nil_r. by destruct m.
  - destruct (sb_pending _ e); [|simplify_eq; by apply ledger_quiet].
    apply bind_Ok in E as ([s1 w1] & E1%lg_worker & (k1 & E3%nn_ctx_leave_net & E4)%bind_Ok).
    simplify_eq. apply ledger_quiet; [congruence|done|done].
Qed.

Lemma accepted_cons o os r rs : accepted (o :: os) (r :: rs) = accepted [o] [r] ++ accepted os rs.
Proof. destruct o, r; try done. cbn. by case_bool_decide. Qed.
Lemma delivered_cons r rs : delivered (r :: rs) = delivered [r] ++ delivered rs.
Proof. by destruct r as [| |? []]. Qed.

Lemma sock_run_ledger os : forall k k' rs,
  sock_inv k -> fits (sk_base k) os -> sock_run k os = Ok (k', rs) ->
  snd <$> sent (w_net (sk_world k')) = (snd <$> sent (w_net (sk_world k))) ++ accepted os rs
  /\ snd <$> rcvd (w_net (sk_world k')) = (snd <$> rcvd (w_net (sk_world k))) ++ delivered rs.
Proof.
  induction os as [|o os IH]; intros k k' rs Hk Hos E; cbn [sock_run] in E.
  - simplify_eq. cbn. by rewrite !app_nil_r.
  - apply bind_Ok in E as ([k1 r] & E1 & ([k2 rs2] & E2 & E3)%bind_Ok). simplify_eq.
    pose proof (fits_tail _ _ _ _ _ Hos E1) as Hos1.
    destruct (sock_step_ok k o Hk (fits_head _ _ _ Hos) (fun _ => sk_takes_all _ _)) as (k1' & r' & E1' & Hk1). rewrite E1 in E1'. injection E1' as <- <-.
    destruct (IH _ _ _ Hk1 Hos1 E2) as [-> ->]. destruct (sock_step_ledger _ _ _ _ Hk E1) as [-> ->].
    rewrite (accepted_cons o os r rs2), (delivered_cons r rs2). by rewrite <- !app_assoc.
Qed.

(** A whole session: it never aborts, and the account balances. *)
Lemma sock_session_ledger s net os :
  sk_rep s (World net ∅ [] (fun _ => 0)) -> fits s os ->
  exists k rs, (k ← nn_sock_init s net; sock_run k os) = Ok (k, rs) /\ sock_inv k
    /\ snd <$> sent (w_net (sk_world k)) = (snd <$> sent net) ++ accepted os rs
    /\ snd <$> rcvd (w_net (sk_world k)) = (snd <$> rcvd net) ++ delivered rs.
Proof.
  intros Hr Hos. destruct (nn_sock_init_ok s net Hr) as (k & E & Hk). rewrite E. mred.
  apply (nn_sock_init_fits _ _ _ _ E) in Hos.
  destruct (sock_run_inv os k Hk Hos) as (k' & rs & E' & Hk'). exists k', rs. split; [done|]. split; [done|].
  destruct (sock_run_ledger os k k' rs Hk Hos E') as [-> ->]. unfold nn_sock_init in E.
  apply (nn_ctx_leave_net (Sock NN_SOCK_STATE_ACTIVE s (World net ∅ [] (fun _ => 0)) false false false false)) in E.
  by rewrite E.
Qed.
End Ledger.
