(* ===== verification/Ep.v ===== *)
(** * Endpoints of a socket ([core/ep.c], [core/epbase.c])

    What [nn_bind] and [nn_connect] create.  The transport's part is behind
    two virtual functions, [stop] and [destroy], and reports with
    [nn_epbase_stopped] that it has stopped; [nn_ep] passes that on to the
    socket. *)

From S2P Require Import Prelude Timer Pipe Ctx Sock.
Local Open Scope Z_scope.

Definition NN_EP_STOPPED : Z := 1.
Definition NN_EP_ACTION_STOPPED : Z := 1.
Definition NN_SOCK_SRC_EP : Z := 1.

Inductive ep_state := NN_EP_STATE_IDLE | NN_EP_STATE_ACTIVE | NN_EP_STATE_STOPPING.
#[export] Instance ep_state_eq_dec : EqDecision ep_state.
Proof. solve_decision. Defined.

Record nn_ep := Ep { ep_fsm : fsm_state; ep_st : ep_state; ep_eid : Z; ep_options : nn_ep_options; ep_addr : list Z; ep_last_errno : Z }.

Definition ep_set_fsm v e := Ep v (ep_st e) (ep_eid e) (ep_options e) (ep_addr e) (ep_last_errno e).
Definition ep_set_state v e := Ep (ep_fsm e) v (ep_eid e) (ep_options e) (ep_addr e) (ep_last_errno e).
Definition ep_set_errno v e := Ep (ep_fsm e) (ep_st e) (ep_eid e) (ep_options e) (ep_addr e) v.

(** [ep_template] of the socket is copied; the address fits. *)
Definition nn_ep_init (eid : Z) (template : nn_ep_options) (addr : list Z) : result nn_ep :=
  _ ← assert_ (bool_decide (Z.of_nat (length addr) <= 128));
  Ok (Ep NN_FSM_STATE_IDLE NN_EP_STATE_IDLE eid template addr 0).

(** *** Errors and statistics *)

Section Stats.
  Context {T : Type}.
  Implicit Types (w : world T).

Definition nn_ep_set_error w (self : nn_ep) (errnum : Z) : result (world T * nn_ep) :=
  if bool_decide (ep_last_errno self = errnum) then Ok (w, self)
  else
    w ← (if bool_decide (ep_last_errno self = 0) then nn_sock_stat_increment w NN_STAT_CURRENT_EP_ERRORS 1 else Ok w);
    Ok (w, ep_set_errno errnum self).

Definition nn_ep_clear_error w (self : nn_ep) : result (world T * nn_ep) :=
  if bool_decide (ep_last_errno self = 0) then Ok (w, self)
  else
    w ← nn_sock_stat_increment w NN_STAT_CURRENT_EP_ERRORS (-1);
    Ok (w, ep_set_errno 0 self).

Definition nn_ep_stat_increment w (name : nn_stat) (increment : Z) : result (world T) := nn_sock_stat_increment w name increment.

End Stats.

(** *** The machine

    [X]: what the endpoint lives in; [epbase_stop]: the virtual function. *)
Section Machine.
  Context {X : Type} (epbase_stop : X -> result X) (raise_ep : X -> Z -> Z -> result X).

(** [nn_ep_stopped] queues the endpoint's event [stopped] for the endpoint
    itself; [raise_ep x src type] does it, with [src] the source the receiver
    sees: NN_FSM_ACTION for itself, NN_SOCK_SRC_EP for the socket. *)
Definition nn_ep_stopped (x : X) : result X := raise_ep x NN_FSM_ACTION NN_EP_ACTION_STOPPED.

Definition nn_ep_handler (x : X) (self : nn_ep) (src type : Z) : result (X * nn_ep) :=
  match ep_st self with
  | NN_EP_STATE_IDLE =>
      if bool_decide (src = NN_FSM_ACTION) && bool_decide (type = NN_FSM_START) then Ok (x, ep_set_state NN_EP_STATE_ACTIVE self)
      else Err AssertFailed
  | _ => Err AssertFailed
  end.

Definition nn_ep_shutdown (x : X) (self : nn_ep) (src type : Z) : result (X * nn_ep) :=
  if bool_decide (src = NN_FSM_ACTION) && bool_decide (type = NN_FSM_STOP) then
    x ← epbase_stop x; Ok (x, ep_set_state NN_EP_STATE_STOPPING self)
  else if bool_decide (ep_st self = NN_EP_STATE_STOPPING) then
    if negb (bool_decide (src = NN_FSM_ACTION)) || negb (bool_decide (type = NN_EP_ACTION_STOPPED)) then Ok (x, self)
    else
      _ ← assert_ (bool_decide (ep_fsm self = NN_FSM_STATE_STOPPING));
      x ← raise_ep x NN_SOCK_SRC_EP NN_EP_STOPPED;
      Ok (x, ep_set_fsm NN_FSM_STATE_IDLE (ep_set_state NN_EP_STATE_IDLE self))
  else Err AssertFailed.

Definition ep_feed (x : X) (self : nn_ep) (src type : Z) : result (X * nn_ep) :=
  if negb (bool_decide (ep_fsm self = NN_FSM_STATE_STOPPING)) then nn_ep_handler x self src type
  else nn_ep_shutdown x self src type.

Definition nn_ep_start (x : X) (self : nn_ep) : result (X * nn_ep) :=
  _ ← assert_ (bool_decide (ep_fsm self = NN_FSM_STATE_IDLE));
  '(x, self) ← nn_ep_handler x self NN_FSM_ACTION NN_FSM_START;
  Ok (x, ep_set_fsm NN_FSM_STATE_ACTIVE self).

Definition nn_ep_stop (x : X) (self : nn_ep) : result (X * nn_ep) :=
  if negb (bool_decide (ep_fsm self = NN_FSM_STATE_ACTIVE)) then Ok (x, self)
  else nn_ep_shutdown x (ep_set_fsm NN_FSM_STATE_STOPPING self) NN_FSM_ACTION NN_FSM_STOP.

(** [nn_fsm_term] asserts that the machine is idle. *)
Definition nn_ep_term (epbase_destroy : X -> result X) (x : X) (self : nn_ep) : result X :=
  _ ← assert_ (bool_decide (ep_st self = NN_EP_STATE_IDLE));
  x ← epbase_destroy x;
  _ ← assert_ (bool_decide (ep_fsm self = NN_FSM_STATE_IDLE));
  Ok x.
End Machine.
