(* ===== verification/Connect.v ===== *)
(** * Connecting endpoints ([transports/tcp/ctcp.c], [ipc/cipc.c], [ws/cws.c])

    An endpoint that connects resolves the host, connects, lets a session use
    the connection, and when that ends waits and starts again.  The three
    files are one machine: TCP has a resolver and a local address, IPC
    neither, and a WebSocket that was closed by its peer is not connected
    again.  The classes [Connector] and [Session] hold the differences. *)

From S2P Require Import Prelude NNList Wire Timer Backoff Pipe Ctx Usock Streamhdr Stcp Addr Dns Sock Ep.
Local Open Scope Z_scope.

(** ** The machines of an endpoint

    The state of the session, with the socket it uses: [se_new] makes one,
    [se_process] handles an event of the session or of a machine it owns. *)
Class Session (S T : Type) := {
  se_new : nn_ctx -> nn_usock -> list reply -> T;
  se_io : T -> io;
  se_set_io : T -> io -> T;
  se_pipe : addr;
  se_isidle : T -> bool;
  se_start : S -> world T -> result (S * world T);
  se_stop : S -> world T -> result (S * world T);
  se_term : world T -> result unit;
  se_process : S * world T -> nn_fsm_event -> result (S * world T);
  se_timer : world T -> worker_event -> option (result (world T))
}.

(** The differences of the three files: the sources and types of the events,
    whether there is a resolver and a local address, and the event that says
    that the peer closed the connection. *)
Class Connector := {
  cn_tcp : bool;
  cn_src_session : Z;
  cn_error : Z;
  cn_stopped : Z;
  cn_closed : option Z
}.

Definition NN_CTCP_SRC_USOCK : Z := 1.
Definition NN_CTCP_SRC_RECONNECT_TIMER : Z := 2.
Definition NN_CTCP_SRC_DNS : Z := 3.
Definition NN_CTCP_SRC_STCP : Z := 4.
Definition NN_CIPC_SRC_SIPC : Z := 3.

Inductive ctcp_state :=
  | NN_CTCP_STATE_IDLE | NN_CTCP_STATE_RESOLVING | NN_CTCP_STATE_STOPPING_DNS | NN_CTCP_STATE_CONNECTING | NN_CTCP_STATE_ACTIVE
  | NN_CTCP_STATE_STOPPING_STCP | NN_CTCP_STATE_STOPPING_USOCK | NN_CTCP_STATE_WAITING | NN_CTCP_STATE_STOPPING_BACKOFF
  | NN_CTCP_STATE_STOPPING_STCP_FINAL | NN_CTCP_STATE_STOPPING.
#[export] Instance ctcp_state_eq_dec : EqDecision ctcp_state.
Proof. solve_decision. Defined.

(** [ct_peer_gone]: of [nn_cws] only. [ct_stopped] counts the calls of
    [nn_epbase_stopped]. *)
Record nn_ctcp := Ctcp {
  ct_fsm : fsm_state;
  ct_state : ctcp_state;
  ct_ep : nn_ep;
  ct_target : target;
  ct_retry : nn_backoff;
  ct_dns : nn_dns;
  ct_peer_gone : bool;
  ct_stopped : nat
}.

Definition ct_set_fsm v c := Ctcp v (ct_state c) (ct_ep c) (ct_target c) (ct_retry c) (ct_dns c) (ct_peer_gone c) (ct_stopped c).
Definition ct_set_state v c := Ctcp (ct_fsm c) v (ct_ep c) (ct_target c) (ct_retry c) (ct_dns c) (ct_peer_gone c) (ct_stopped c).
Definition ct_set_ep v c := Ctcp (ct_fsm c) (ct_state c) v (ct_target c) (ct_retry c) (ct_dns c) (ct_peer_gone c) (ct_stopped c).
Definition ct_set_retry v c := Ctcp (ct_fsm c) (ct_state c) (ct_ep c) (ct_target c) v (ct_dns c) (ct_peer_gone c) (ct_stopped c).
Definition ct_set_dns v c := Ctcp (ct_fsm c) (ct_state c) (ct_ep c) (ct_target c) (ct_retry c) v (ct_peer_gone c) (ct_stopped c).
Definition ct_set_peer_gone v c := Ctcp (ct_fsm c) (ct_state c) (ct_ep c) (ct_target c) (ct_retry c) (ct_dns c) v (ct_stopped c).
Definition ct_set_stopped v c := Ctcp (ct_fsm c) (ct_state c) (ct_ep c) (ct_target c) (ct_retry c) (ct_dns c) (ct_peer_gone c) v.

(** ** The retry timer in the context *)

Definition with_retry (x : io) (b : nn_backoff) (f : nn_backoff -> result nn_backoff) : result (io * nn_backoff) :=
  let t := bo_timer b in
  b' ← f b;
  let t' := bo_timer b' in
  let raised q before after s := match before, after with
    | None, Some type => raise q (CRetry, s) (Some COwner) NN_CTCP_SRC_RECONNECT_TIMER type | _, _ => Ok q end in
  q ← raised (io_q x) (tm_done t) (tm_done t') SDone;
  q ← raised q (fsm_stopped (tm_fsm t)) (fsm_stopped (tm_fsm t')) SStopped;
  Ok (io_set_q q x, b').

(** What the worker does to the timer. *)
Definition retry_feed (b : nn_backoff) (e : worker_event) : result nn_backoff := t ← worker_feed (bo_timer b) e; Ok (Backoff.with_timer t b).

Definition retry_taken (s : slot) (b : nn_backoff) : nn_backoff := Backoff.with_timer (timer_taken s (bo_timer b)) b.

(** The calls on the socket; each system call takes the next reply. *)
Definition io_start (x : io) : result (io * Z) :=
  let '(r, x) := next_reply x in '(q, u, rc) ← nn_usock_start (io_q x) (io_us x) r; Ok (Io q u (io_sys x), rc).
Definition io_setsockopt (x : io) : result io :=
  let '(r, x) := next_reply x in _ ← nn_usock_setsockopt (io_us x) r; Ok x.
Definition io_bind (x : io) : result (io * Z) :=
  let '(r, x) := next_reply x in rc ← nn_usock_bind (io_us x) r; Ok (x, rc).
Definition io_connect (x : io) : result io :=
  let '(r, x) := next_reply x in '(q, u) ← nn_usock_connect (io_q x) (io_us x) r; Ok (Io q u (io_sys x)).
Definition io_stop (x : io) : result io :=
  '(q, u, _) ← nn_usock_stop (io_q x) (io_us x) None; Ok (Io q u (io_sys x)).

Section Connect.
  Context {S T : Type} `{Session S T, Connector}.
  Context (inet_pton : Z -> bytes -> option bytes) (getaddrinfo : nn_dns_result).

(** The socket, the connection with what it shares, the endpoint. *)
Abbreviation cep := (S * world T * nn_ctcp)%type.

Definition wio (w : world T) : io := se_io (w_net w).
Definition set_wio (w : world T) (x : io) : world T := set_net w (se_set_io (w_net w) x).
Definition ipv4only (self : nn_ctcp) : bool := negb (bool_decide (opt_ipv4only (ep_options (ct_ep self)) = 0)).

Definition ct_goto (st : ctcp_state) (s : S) (w : world T) (self : nn_ctcp) : result cep := Ok (s, w, ct_set_state st self).

Definition ct_retry_do (f : nn_backoff -> result nn_backoff) (w : world T) (self : nn_ctcp) : result (world T * nn_ctcp) :=
  '(x, b) ← with_retry (wio w) (ct_retry self) f; Ok (set_wio w x, ct_set_retry b self).

(** [nn_backoff_start] and the state WAITING. *)
Definition start_waiting (s : S) (w : world T) (self : nn_ctcp) : result cep :=
  '(w, self) ← ct_retry_do nn_backoff_start w self; ct_goto NN_CTCP_STATE_WAITING s w self.

(** [nn_cws_start_resolving] asserts that there is a host. *)
Definition nn_ctcp_start_resolving (s : S) (w : world T) (self : nn_ctcp) : result cep :=
  _ ← assert_ (bool_decide (cn_closed = None) || bool_decide (tg_remote_host (ct_target self) <> []));
  '(q, d) ← nn_dns_start inet_pton getaddrinfo (io_q (wio w)) (ct_dns self) (tg_host (ct_target self)) (ipv4only self);
  ct_goto NN_CTCP_STATE_RESOLVING s (set_wio w (io_set_q q (wio w))) (ct_set_dns d self).

(** The socket is started, its buffers set, bound to the local address, and
    connects.  [nn_cipc_start_connecting] asserts that the path fits into
    [sun_path] instead. *)
Definition sun_path_size : Z := 108.
Definition nn_ctcp_start_connecting (s : S) (w : world T) (self : nn_ctcp) (remote : option sockaddr) : result cep :=
  let family_ok := match remote with Some ss => bool_decide (ss_family ss = AF_INET) || bool_decide (ss_family ss = AF_INET6) | None => true end in
  if cn_tcp && bool_decide (nn_iface_resolve inet_pton (default [42] (tg_local (ct_target self))) (ipv4only self) = None) then
    start_waiting s w self
  else
    _ ← assert_ family_ok;
    '(x, rc) ← io_start (wio w);
    let w := set_wio w x in
    if bool_decide (rc < 0) then start_waiting s w self
    else
      x ← io_setsockopt (wio w);
      x ← io_setsockopt x;
      '(x, rc) ← (if cn_tcp then io_bind x
                   else _ ← assert_ (bool_decide (Z.of_nat (length (ep_addr (ct_ep self))) < sun_path_size)); Ok (x, 0));
      let w := set_wio w x in
      if negb (bool_decide (rc = 0)) then start_waiting s w self
      else
        x ← io_connect (wio w);
        w ← nn_ep_stat_increment (set_wio w x) NN_STAT_INPROGRESS_CONNECTIONS 1;
        ct_goto NN_CTCP_STATE_CONNECTING s w self.

Definition begin_connection (s : S) (w : world T) (self : nn_ctcp) : result cep :=
  if cn_tcp then nn_ctcp_start_resolving s w self
  else nn_ctcp_start_connecting s w self None.

Definition set_error (w : world T) (self : nn_ctcp) : result (world T * nn_ctcp) :=
  '(w, e) ← nn_ep_set_error w (ct_ep self) (us_errnum (io_us (wio w))); Ok (w, ct_set_ep e self).
Definition clear_error (w : world T) (self : nn_ctcp) : result (world T * nn_ctcp) :=
  '(w, e) ← nn_ep_clear_error w (ct_ep self); Ok (w, ct_set_ep e self).
Definition stop_usock (w : world T) : result (world T) := x ← io_stop (wio w); Ok (set_wio w x).
Definition stop_dns (w : world T) (self : nn_ctcp) : result (world T * nn_ctcp) :=
  '(q, d) ← nn_dns_stop (io_q (wio w)) (ct_dns self); Ok (set_wio w (io_set_q q (wio w)), ct_set_dns d self).

Definition is_closed (type : Z) : bool := bool_decide (cn_closed = Some type).

Definition nn_ctcp_handler (s : S) (w : world T) (self : nn_ctcp) (src type : Z) : result cep :=
  match ct_state self with
  | NN_CTCP_STATE_IDLE =>
      if bool_decide (src = NN_FSM_ACTION) && bool_decide (type = NN_FSM_START) then begin_connection s w self else Err AssertFailed
  | NN_CTCP_STATE_RESOLVING =>
      if bool_decide (src = NN_CTCP_SRC_DNS) && bool_decide (type = NN_DNS_DONE) then
        '(w, self) ← stop_dns w self; ct_goto NN_CTCP_STATE_STOPPING_DNS s w self
      else Err AssertFailed
  | NN_CTCP_STATE_STOPPING_DNS =>
      if bool_decide (src = NN_CTCP_SRC_DNS) && bool_decide (type = NN_DNS_STOPPED) then
        match dn_result (ct_dns self) with
        | Some (inr ss) => nn_ctcp_start_connecting s w self (Some ss)
        | Some (inl _) => start_waiting s w self
        | None => Err BadAccess
        end
      else Err AssertFailed
  | NN_CTCP_STATE_CONNECTING =>
      if negb (bool_decide (src = NN_CTCP_SRC_USOCK)) then Err AssertFailed
      else if bool_decide (type = NN_USOCK_CONNECTED) then
        '(s, w) ← se_start s w;
        w ← nn_ep_stat_increment w NN_STAT_INPROGRESS_CONNECTIONS (-1);
        w ← nn_ep_stat_increment w NN_STAT_ESTABLISHED_CONNECTIONS 1;
        '(w, self) ← clear_error w (ct_set_peer_gone false self);
        ct_goto NN_CTCP_STATE_ACTIVE s w self
      else if bool_decide (type = NN_USOCK_ERROR) then
        '(w, self) ← set_error w self;
        w ← stop_usock w;
        w ← nn_ep_stat_increment w NN_STAT_INPROGRESS_CONNECTIONS (-1);
        w ← nn_ep_stat_increment w NN_STAT_CONNECT_ERRORS 1;
        ct_goto NN_CTCP_STATE_STOPPING_USOCK s w self
      else Err AssertFailed
  | NN_CTCP_STATE_ACTIVE =>
      if negb (bool_decide (src = cn_src_session)) then Err AssertFailed
      else if is_closed type then
        '(s, w) ← se_stop s w;
        ct_goto NN_CTCP_STATE_STOPPING_STCP s w (ct_set_peer_gone true self)
      else if bool_decide (type = cn_error) then
        '(s, w) ← se_stop s w;
        w ← nn_ep_stat_increment w NN_STAT_BROKEN_CONNECTIONS 1;
        ct_goto NN_CTCP_STATE_STOPPING_STCP s w self
      else Err AssertFailed
  | NN_CTCP_STATE_STOPPING_STCP =>
      if negb (bool_decide (src = cn_src_session)) then Err AssertFailed
      else if bool_decide (type = NN_USOCK_SHUTDOWN) then Ok (s, w, self)
      else if bool_decide (type = cn_stopped) then
        w ← stop_usock w; ct_goto NN_CTCP_STATE_STOPPING_USOCK s w self
      else Err AssertFailed
  | NN_CTCP_STATE_STOPPING_USOCK =>
      if negb (bool_decide (src = NN_CTCP_SRC_USOCK)) then Err AssertFailed
      else if bool_decide (type = NN_USOCK_SHUTDOWN) then Ok (s, w, self)
      else if bool_decide (type = NN_USOCK_STOPPED) then
        if bool_decide (cn_closed = None) || negb (ct_peer_gone self) then start_waiting s w self else Ok (s, w, self)
      else Err AssertFailed
  | NN_CTCP_STATE_WAITING =>
      if bool_decide (src = NN_CTCP_SRC_RECONNECT_TIMER) && bool_decide (type = NN_BACKOFF_TIMEOUT) then
        '(w, self) ← ct_retry_do nn_backoff_stop w self; ct_goto NN_CTCP_STATE_STOPPING_BACKOFF s w self
      else Err AssertFailed
  | NN_CTCP_STATE_STOPPING_BACKOFF =>
      if bool_decide (src = NN_CTCP_SRC_RECONNECT_TIMER) && bool_decide (type = NN_BACKOFF_STOPPED) then begin_connection s w self
      else Err AssertFailed
  | _ => Err AssertFailed
  end.

Definition dns_isidle (w : world T) (self : nn_ctcp) : bool := if cn_tcp then nn_dns_isidle (io_q (wio w)) (ct_dns self) else true.

(** The end of [nn_ctcp_shutdown]: the parts that are left. *)
Definition shutdown_rest (s : S) (w : world T) (self : nn_ctcp) : result cep :=
  if negb (nn_backoff_isidle (ct_retry self)) || negb (nn_usock_isidle (io_q (wio w)) (io_us (wio w))) || negb (dns_isidle w self) then Ok (s, w, self)
  else
    _ ← assert_ (bool_decide (ct_fsm self = NN_FSM_STATE_STOPPING));
    Ok (s, w, ct_set_stopped (Datatypes.S (ct_stopped self)) (ct_set_fsm NN_FSM_STATE_IDLE (ct_set_state NN_CTCP_STATE_IDLE self))).

Definition shutdown_final (s : S) (w : world T) (self : nn_ctcp) : result cep :=
  if negb (se_isidle (w_net w)) then Ok (s, w, self)
  else
    '(w, self) ← ct_retry_do nn_backoff_stop w self;
    w ← stop_usock w;
    '(w, self) ← (if cn_tcp then stop_dns w self else Ok (w, self));
    shutdown_rest s w (ct_set_state NN_CTCP_STATE_STOPPING self).

Definition nn_ctcp_shutdown (s : S) (w : world T) (self : nn_ctcp) (src type : Z) : result cep :=
  if bool_decide (src = NN_FSM_ACTION) && bool_decide (type = NN_FSM_STOP) then
    '(s, w) ← (if negb (se_isidle (w_net w)) then
                 w ← nn_ep_stat_increment w NN_STAT_DROPPED_CONNECTIONS 1; se_stop s w
               else Ok (s, w));
    shutdown_final s w (ct_set_state NN_CTCP_STATE_STOPPING_STCP_FINAL self)
  else match ct_state self with
  | NN_CTCP_STATE_STOPPING_STCP_FINAL => shutdown_final s w self
  | NN_CTCP_STATE_STOPPING => shutdown_rest s w self
  | _ => Err AssertFailed
  end.

Definition ctcp_feed (s : S) (w : world T) (self : nn_ctcp) (src type : Z) : result cep :=
  if negb (bool_decide (ct_fsm self = NN_FSM_STATE_STOPPING)) then nn_ctcp_handler s w self src type
  else nn_ctcp_shutdown s w self src type.

Definition nn_ctcp_stop (x : cep) : result cep :=
  let '(s, w, self) := x in
  if negb (bool_decide (ct_fsm self = NN_FSM_STATE_ACTIVE)) then Ok x
  else nn_ctcp_shutdown s w (ct_set_fsm NN_FSM_STATE_STOPPING self) NN_FSM_ACTION NN_FSM_STOP.

Definition nn_ctcp_destroy (x : cep) : result unit :=
  let '(s, w, self) := x in
  _ ← (if cn_tcp then nn_dns_term (io_q (wio w)) (ct_dns self) else Ok tt);
  _ ← se_term w;
  _ ← nn_backoff_term (ct_retry self);
  _ ← nn_usock_term (io_q (wio w)) (io_us (wio w));
  assert_ (bool_decide (ct_fsm self = NN_FSM_STATE_IDLE)).

(** The machines of a new endpoint; [sys] are the replies of its first system
    calls, [garbage] what the memory of [peer_gone] holds. *)
Definition nn_ctcp_create (s : S) (ep : nn_ep) (t : target) (reconnect_ivl reconnect_ivl_max : Z) (sys : list reply) (garbage : bool) (w0 : world T) : result cep :=
  let reconnect_ivl_max := if bool_decide (reconnect_ivl_max = 0) then reconnect_ivl else reconnect_ivl_max in
  let w := set_pipe (set_net w0 (se_new [] (nn_usock_init CUsock NN_CTCP_SRC_USOCK (Some COwner)) sys)) se_pipe (nn_pipebase_init (ep_options ep)) in
  let self := Ctcp NN_FSM_STATE_IDLE NN_CTCP_STATE_IDLE ep t (nn_backoff_init reconnect_ivl reconnect_ivl_max) (nn_dns_init NN_CTCP_SRC_DNS) garbage 0 in
  '(s, w, self) ← nn_ctcp_handler s w self NN_FSM_ACTION NN_FSM_START;
  Ok (s, w, ct_set_fsm NN_FSM_STATE_ACTIVE self).

(** ** The context *)

Definition ct_process_event (x : cep) (e : nn_fsm_event) : result cep :=
  let '(s, w, self) := x in
  let self := match ev_obj e with (CRetry, sl) => ct_set_retry (retry_taken sl (ct_retry self)) self | _ => self end in
  match ev_fsm e with
  | Some COwner => ctcp_feed s w self (ev_src e) (ev_type e)
  | _ => '(s, w) ← se_process (s, w) e; Ok (s, w, self)
  end.

Definition ct_events (x : cep) : nn_ctx := io_q (wio x.1.2).
Definition ct_with_events (x : cep) (q : nn_ctx) : cep := (x.1.1, set_wio x.1.2 (io_set_q q (wio x.1.2)), x.2).
Definition ct_fuel : nat := 40.
Definition ct_leave (x : cep) : result cep := Ctx.nn_ctx_leave ct_events ct_with_events ct_process_event ct_fuel x.

(** What happens to an endpoint: the worker executes a task of its socket or
    reports on the descriptor, executes a task of one of the timers or reports
    its end, the bytes of the peer arrive, the user stops it.  [sys]: the
    kernel's answers during the step. *)
Inductive cep_op :=
  | EWorker (j : worker_job) (sys : list reply)
  | ERetry (e : worker_event) (sys : list reply)
  | ETimer (e : worker_event) (sys : list reply)
  | EArrive (b : bytes)
  | EStop.

Definition cep_with_sys (w : world T) (sys : list reply) : world T := set_wio w (Io (io_q (wio w)) (io_us (wio w)) sys).

(** The pipe's events are taken by the socket when the context is left. *)
Definition ct_settle (x : result cep) : result cep := x ← x; '(s, w, self) ← ct_leave x; Ok (s, set_events w [], self).

Definition cep_step (x : cep) (o : cep_op) : result cep :=
  let '(s, w, self) := x in
  match o with
  | EWorker j sys =>
      if worker_can (io_us (wio w)) j then
        let w := cep_with_sys w sys in
        ct_settle (y ← io_worker (wio w) j; Ok (s, set_wio w y, self))
      else Ok x
  | ERetry e sys =>
      if worker_pending (bo_timer (ct_retry self)) e then
        let w := cep_with_sys w sys in
        ct_settle ('(w, self) ← ct_retry_do (fun b => retry_feed b e) w self; Ok (s, w, self))
      else Ok x
  | ETimer e sys =>
      match se_timer (cep_with_sys w sys) e with
      | Some r => ct_settle (w ← r; Ok (s, w, self))
      | None => Ok x
      end
  | EArrive b =>
      let u := io_us (wio w) in
      Ok (s, set_wio w (io_set_us (us_set_os (OsSocket (os_rx (us_os u) ++ b) (os_tx (us_os u))) u) (wio w)), self)
  | EStop => ct_settle (nn_ctcp_stop x)
  end.

Definition cep_run (os : list cep_op) (x : cep) : result cep := foldl (fun r o => x ← r; cep_step x o) (Ok x) os.

Definition cep_create (s : S) (ep : nn_ep) (t : target) (ivl ivl_max : Z) (sys : list reply) (garbage : bool) (w0 : world T) : result cep :=
  ct_settle (nn_ctcp_create s ep t ivl ivl_max sys garbage w0).

End Connect.
