(* ===== verification/Accept.v ===== *)
(** * Accepted connections ([transports/tcp/atcp.c], [ipc/aipc.c], [ws/aws.c])

    The machine that waits for one connection on the socket of a bound
    endpoint and then lets a session use it.  It borrows the listening socket
    while it waits.  The three files are one text but for the session and its
    events; the classes of the file [Connect] serve here too. *)

From S2P Require Import Prelude NNList Wire Timer Backoff Pipe Ctx Usock Streamhdr Stcp Sock Ep Connect.
Local Open Scope Z_scope.

Definition NN_ATCP_ACCEPTED : Z := 34231.
Definition NN_ATCP_ERROR : Z := 34232.
Definition NN_ATCP_STOPPED : Z := 34233.
Definition NN_ATCP_SRC_USOCK : Z := 1.
Definition NN_ATCP_SRC_STCP : Z := 2.
Definition NN_ATCP_SRC_LISTENER : Z := 3.

Inductive atcp_state :=
  | NN_ATCP_STATE_IDLE | NN_ATCP_STATE_ACCEPTING | NN_ATCP_STATE_ACTIVE | NN_ATCP_STATE_STOPPING_STCP
  | NN_ATCP_STATE_STOPPING_USOCK | NN_ATCP_STATE_DONE | NN_ATCP_STATE_STOPPING_STCP_FINAL | NN_ATCP_STATE_STOPPING.
#[export] Instance atcp_state_eq_dec : EqDecision atcp_state.
Proof. solve_decision. Defined.

(** [at_listener]: [listener] is set; [at_src]: the source its events have. *)
Record nn_atcp := Atcp {
  at_fsm : fsm_state;
  at_src : Z;
  at_state : atcp_state;
  at_listener : bool;
  at_listener_owner : option comp * Z
}.

Definition at_set_fsm v a := Atcp v (at_src a) (at_state a) (at_listener a) (at_listener_owner a).
Definition at_set_state v a := Atcp (at_fsm a) (at_src a) v (at_listener a) (at_listener_owner a).
Definition at_set_listener v o a := Atcp (at_fsm a) (at_src a) (at_state a) v o.

Definition nn_atcp_init (src : Z) : nn_atcp := Atcp NN_FSM_STATE_IDLE src NN_ATCP_STATE_IDLE false (None, -1).

(** The event objects [accepted], [done] and [fsm.stopped]. *)
Definition nn_atcp_isidle (q : nn_ctx) (self : nn_atcp) : bool :=
  bool_decide (at_fsm self = NN_FSM_STATE_IDLE) && negb (nn_fsm_event_active q (COwner, SStopped)).

Section Accept.
  Context {S T : Type} `{Session S T, Connector}.

(** The socket, the connection with what it shares, the machine, the listening
    socket, and the endpoint. *)
Abbreviation acc := (S * world T * nn_atcp * nn_usock * nn_ep)%type.

Definition at_raise (w : world T) (self : nn_atcp) (s : slot) (type : Z) : result (world T) :=
  q ← raise (io_q (wio w)) (COwner, s) (Some CParent) (at_src self) type; Ok (set_wio w (io_set_q q (wio w))).

(** [nn_list_item_term] asserts that the machine is in no list: that is the
    endpoint's business. *)
Definition nn_atcp_term (w : world T) (self : nn_atcp) : result unit :=
  let q := io_q (wio w) in
  _ ← assert_ (bool_decide (at_state self = NN_ATCP_STATE_IDLE));
  _ ← assert_ (negb (nn_fsm_event_active q (COwner, SDone)));
  _ ← assert_ (negb (nn_fsm_event_active q (COwner, SEstablished)));
  _ ← se_term w;
  _ ← nn_usock_term q (io_us (wio w));
  assert_ (nn_atcp_isidle q self).

(** The listening socket goes back to its owner. *)
Definition return_listener (self : nn_atcp) (l : nn_usock) : result (nn_atcp * nn_usock) :=
  if at_listener self then
    let '(l, _) := nn_usock_swap_owner l (at_listener_owner self) in Ok (at_set_listener false (None, -1) self, l)
  else Err BadAccess.

(** [nn_usock_accept] on the connection's socket and the listening one. *)
Definition accept_on (w : world T) (l : nn_usock) : result (world T * nn_usock) :=
  let '(r, x) := next_reply (wio w) in
  '(q, u, l) ← nn_usock_accept (io_q x) (io_us x) l r;
  Ok (set_wio w (Io q u (io_sys x)), l).

Definition at_stop_usock (w : world T) (l : nn_usock) : result (world T * nn_usock) :=
  let x := wio w in
  '(q, u, al) ← nn_usock_stop (io_q x) (io_us x) (Some l);
  l ← deref al;
  Ok (set_wio w (Io q u (io_sys x)), l).

Definition nn_atcp_handler (s : S) (w : world T) (self : nn_atcp) (l : nn_usock) (ep : nn_ep) (src type : Z) : result acc :=
  match at_state self with
  | NN_ATCP_STATE_IDLE =>
      if bool_decide (src = NN_FSM_ACTION) && bool_decide (type = NN_FSM_START) then
        '(w, l) ← accept_on w l;
        Ok (s, w, at_set_state NN_ATCP_STATE_ACCEPTING self, l, ep)
      else Err AssertFailed
  | NN_ATCP_STATE_ACCEPTING =>
      if bool_decide (src = NN_ATCP_SRC_USOCK) && bool_decide (type = NN_USOCK_ACCEPTED) then
        (* SO_SNDBUF, SO_RCVBUF, and SO_RCVTIMEO for WebSocket. *)
        '(w, ep) ← nn_ep_clear_error w ep;
        x ← io_setsockopt (wio w);
        x ← io_setsockopt x;
        x ← (if bool_decide (cn_closed = None) then Ok x else io_setsockopt x);
        '(self, l) ← return_listener self l;
        w ← at_raise (set_wio w x) self SEstablished NN_ATCP_ACCEPTED;
        '(q, u) ← nn_usock_activate (io_q (wio w)) (io_us (wio w));
        '(s, w) ← se_start s (set_wio w (Io q u (io_sys (wio w))));
        w ← nn_ep_stat_increment w NN_STAT_ACCEPTED_CONNECTIONS 1;
        Ok (s, w, at_set_state NN_ATCP_STATE_ACTIVE self, l, ep)
      else if bool_decide (src = NN_ATCP_SRC_LISTENER) && bool_decide (type = NN_USOCK_ACCEPT_ERROR) then
        '(w, ep) ← nn_ep_set_error w ep (us_errnum l);
        w ← nn_ep_stat_increment w NN_STAT_ACCEPT_ERRORS 1;
        '(w, l) ← accept_on w l;
        Ok (s, w, self, l, ep)
      else Err AssertFailed
  | NN_ATCP_STATE_ACTIVE =>
      if negb (bool_decide (src = cn_src_session)) then Err AssertFailed
      else if is_closed type then
        '(s, w) ← se_stop s w;
        Ok (s, w, at_set_state NN_ATCP_STATE_STOPPING_STCP self, l, ep)
      else if bool_decide (type = cn_error) then
        '(s, w) ← se_stop s w;
        w ← nn_ep_stat_increment w NN_STAT_BROKEN_CONNECTIONS 1;
        Ok (s, w, at_set_state NN_ATCP_STATE_STOPPING_STCP self, l, ep)
      else Err AssertFailed
  | NN_ATCP_STATE_STOPPING_STCP =>
      if negb (bool_decide (src = cn_src_session)) then Err AssertFailed
      else if bool_decide (type = NN_USOCK_SHUTDOWN) then Ok (s, w, self, l, ep)
      else if bool_decide (type = cn_stopped) then
        '(w, l) ← at_stop_usock w l;
        Ok (s, w, at_set_state NN_ATCP_STATE_STOPPING_USOCK self, l, ep)
      else Err AssertFailed
  | NN_ATCP_STATE_STOPPING_USOCK =>
      if negb (bool_decide (src = NN_ATCP_SRC_USOCK)) then Err AssertFailed
      else if bool_decide (type = NN_USOCK_SHUTDOWN) then Ok (s, w, self, l, ep)
      else if bool_decide (type = NN_USOCK_STOPPED) then
        w ← at_raise w self SDone NN_ATCP_ERROR;
        Ok (s, w, at_set_state NN_ATCP_STATE_DONE self, l, ep)
      else Err AssertFailed
  | _ => Err AssertFailed
  end.

(** The end of [nn_atcp_shutdown]. *)
Definition at_shutdown_rest (s : S) (w : world T) (self : nn_atcp) (l : nn_usock) (ep : nn_ep) : result acc :=
  if negb (nn_usock_isidle (io_q (wio w)) (io_us (wio w))) then Ok (s, w, self, l, ep)
  else
    '(self, l) ← (if at_listener self then
                    _ ← assert_ (negb (bool_decide ((at_listener_owner self).1 = None)));
                    return_listener self l
                  else Ok (self, l));
    _ ← assert_ (bool_decide (at_fsm self = NN_FSM_STATE_STOPPING));
    w ← at_raise w self SStopped NN_ATCP_STOPPED;
    Ok (s, w, at_set_fsm NN_FSM_STATE_IDLE (at_set_state NN_ATCP_STATE_IDLE self), l, ep).

Definition at_shutdown_final (s : S) (w : world T) (self : nn_atcp) (l : nn_usock) (ep : nn_ep) : result acc :=
  if negb (se_isidle (w_net w)) then Ok (s, w, self, l, ep)
  else
    '(w, l) ← at_stop_usock w l;
    at_shutdown_rest s w (at_set_state NN_ATCP_STATE_STOPPING self) l ep.

Definition nn_atcp_shutdown (s : S) (w : world T) (self : nn_atcp) (l : nn_usock) (ep : nn_ep) (src type : Z) : result acc :=
  if bool_decide (src = NN_FSM_ACTION) && bool_decide (type = NN_FSM_STOP) then
    '(s, w) ← (if negb (se_isidle (w_net w)) then
                 w ← nn_ep_stat_increment w NN_STAT_DROPPED_CONNECTIONS 1; se_stop s w
               else Ok (s, w));
    at_shutdown_final s w (at_set_state NN_ATCP_STATE_STOPPING_STCP_FINAL self) l ep
  else match at_state self with
  | NN_ATCP_STATE_STOPPING_STCP_FINAL => at_shutdown_final s w self l ep
  | NN_ATCP_STATE_STOPPING => at_shutdown_rest s w self l ep
  | _ => Err AssertFailed
  end.

Definition atcp_feed (s : S) (w : world T) (self : nn_atcp) (l : nn_usock) (ep : nn_ep) (src type : Z) : result acc :=
  if negb (bool_decide (at_fsm self = NN_FSM_STATE_STOPPING)) then nn_atcp_handler s w self l ep src type
  else nn_atcp_shutdown s w self l ep src type.

Definition nn_atcp_start (s : S) (w : world T) (self : nn_atcp) (l : nn_usock) (ep : nn_ep) : result acc :=
  _ ← assert_ (bool_decide (at_state self = NN_ATCP_STATE_IDLE));
  let '(l, o) := nn_usock_swap_owner l (Some COwner, NN_ATCP_SRC_LISTENER) in
  let self := at_set_listener true o self in
  _ ← assert_ (nn_atcp_isidle (io_q (wio w)) self);
  '(s, w, self, l, ep) ← nn_atcp_handler s w self l ep NN_FSM_ACTION NN_FSM_START;
  Ok (s, w, at_set_fsm NN_FSM_STATE_ACTIVE self, l, ep).

Definition nn_atcp_stop (x : acc) : result acc :=
  let '(s, w, self, l, ep) := x in
  if negb (bool_decide (at_fsm self = NN_FSM_STATE_ACTIVE)) then Ok x
  else nn_atcp_shutdown s w (at_set_fsm NN_FSM_STATE_STOPPING self) l ep NN_FSM_ACTION NN_FSM_STOP.

End Accept.
