(* ===== verification/Bind.v ===== *)
(** * Bound endpoints ([transports/tcp/btcp.c], [ipc/bipc.c], [ws/bws.c])

    An endpoint that listens keeps one machine of the file [Accept] waiting
    for a connection; when it has one, it goes to the list of the accepted
    ones and the next machine is started.  What the endpoint needs of those
    machines and of the listening socket is the class [Acceptors]; [W] is
    what they live in. *)

From S2P Require Import Prelude Timer Ctx Usock Ep Accept.
Local Open Scope Z_scope.

Definition NN_BTCP_SRC_USOCK : Z := 1.
Definition NN_BTCP_SRC_ATCP : Z := 2.

Inductive btcp_state :=
  | NN_BTCP_STATE_IDLE | NN_BTCP_STATE_ACTIVE | NN_BTCP_STATE_STOPPING_ATCP | NN_BTCP_STATE_STOPPING_USOCK | NN_BTCP_STATE_STOPPING_ATCPS.
#[export] Instance btcp_state_eq_dec : EqDecision btcp_state.
Proof. solve_decision. Defined.

Abbreviation aid := positive.

(** [ac_new]: [nn_alloc] and [nn_atcp_init]; [ac_start]: [nn_atcp_start] on
    the listening socket; [ac_free]: [nn_atcp_term] and [nn_free].  The calls
    on the listening socket: [ls_listen] is everything of [nn_btcp_listen]
    before the first acceptor is started. *)
Class Acceptors (W : Type) := {
  ac_new : W -> aid -> W;
  ac_start : W -> aid -> result W;
  ac_stop : W -> aid -> result W;
  ac_isidle : W -> aid -> bool;
  ac_free : W -> aid -> result W;
  ls_stop : W -> result W;
  ls_isidle : W -> bool;
  ls_listen : W -> result (W * Z);
  ls_term : W -> result unit;
  bt_unlink : W -> result W
}.

(** [bt_atcp]: the machine that waits for a connection; [bt_atcps]: the list
    of the accepted ones; [bt_next]: a name that was not used;
    [bt_stopped] counts the calls of [nn_epbase_stopped]. *)
Record nn_btcp := Btcp {
  bt_fsm : fsm_state;
  bt_state : btcp_state;
  bt_atcp : option aid;
  bt_atcps : list aid;
  bt_next : aid;
  bt_stopped : nat
}.

Definition bt_set_fsm v b := Btcp v (bt_state b) (bt_atcp b) (bt_atcps b) (bt_next b) (bt_stopped b).
Definition bt_set_state v b := Btcp (bt_fsm b) v (bt_atcp b) (bt_atcps b) (bt_next b) (bt_stopped b).
Definition bt_set_atcp v b := Btcp (bt_fsm b) (bt_state b) v (bt_atcps b) (bt_next b) (bt_stopped b).
Definition bt_set_atcps v b := Btcp (bt_fsm b) (bt_state b) (bt_atcp b) v (bt_next b) (bt_stopped b).
Definition bt_set_next v b := Btcp (bt_fsm b) (bt_state b) (bt_atcp b) (bt_atcps b) v (bt_stopped b).
Definition bt_set_stopped v b := Btcp (bt_fsm b) (bt_state b) (bt_atcp b) (bt_atcps b) (bt_next b) v.

Section Bind.
  Context {W : Type} `{Acceptors W}.

Abbreviation bep := (W * nn_btcp)%type.

Definition nn_btcp_start_accepting (w : W) (self : nn_btcp) : result bep :=
  _ ← assert_ (bool_decide (bt_atcp self = None));
  let i := bt_next self in
  w ← ac_start (ac_new w i) i;
  Ok (w, bt_set_next (Pos.succ i) (bt_set_atcp (Some i) self)).

(** [nn_list_erase] asserts that the item is in a list. *)
Definition erase (i : aid) (self : nn_btcp) : result nn_btcp :=
  _ ← assert_ (bool_decide (i ∈ bt_atcps self)); Ok (bt_set_atcps (filter (fun j => j <> i) (bt_atcps self)) self).

(** [nn_list_insert] asserts that the item is in no list. *)
Definition insert_last (i : aid) (self : nn_btcp) : result nn_btcp :=
  _ ← assert_ (negb (bool_decide (i ∈ bt_atcps self))); Ok (bt_set_atcps (bt_atcps self ++ [i]) self).

Definition nn_btcp_handler (w : W) (self : nn_btcp) (src type : Z) (srcptr : option aid) : result bep :=
  match bt_state self with
  | NN_BTCP_STATE_IDLE =>
      _ ← assert_ (bool_decide (src = NN_FSM_ACTION)); _ ← assert_ (bool_decide (type = NN_FSM_START));
      Ok (w, bt_set_state NN_BTCP_STATE_ACTIVE self)
  | NN_BTCP_STATE_ACTIVE =>
      if bool_decide (src = NN_BTCP_SRC_USOCK) then
        _ ← assert_ (bool_decide (type = NN_USOCK_SHUTDOWN) || bool_decide (type = NN_USOCK_STOPPED)); Ok (w, self)
      else
        _ ← assert_ (bool_decide (src = NN_BTCP_SRC_ATCP));
        i ← deref srcptr;
        if bool_decide (type = NN_ATCP_ACCEPTED) then
          _ ← assert_ (bool_decide (bt_atcp self = Some i));
          self ← insert_last i self;
          nn_btcp_start_accepting w (bt_set_atcp None self)
        else if bool_decide (type = NN_ATCP_ERROR) then
          w ← ac_stop w i; Ok (w, self)
        else if bool_decide (type = NN_ATCP_STOPPED) then
          self ← erase i self; w ← ac_free w i; Ok (w, self)
        else Err AssertFailed
  | _ => Err AssertFailed
  end.

(** The loop over the list: every accepted machine is asked to stop. *)
Fixpoint stop_all (w : W) (l : list aid) : result W :=
  match l with [] => Ok w | i :: l => w ← ac_stop w i; stop_all w l end.

(** The label [atcps_stopping]. *)
Definition atcps_stopping (w : W) (self : nn_btcp) : result bep :=
  if bool_decide (bt_atcps self = []) then
    _ ← assert_ (bool_decide (bt_fsm self = NN_FSM_STATE_STOPPING));
    Ok (w, bt_set_stopped (S (bt_stopped self)) (bt_set_fsm NN_FSM_STATE_IDLE (bt_set_state NN_BTCP_STATE_IDLE self)))
  else Ok (w, self).

Definition stopping_usock (w : W) (self : nn_btcp) : result bep :=
  if negb (ls_isidle w) then Ok (w, self)
  else
    w ← stop_all w (bt_atcps self);
    atcps_stopping w (bt_set_state NN_BTCP_STATE_STOPPING_ATCPS self).

(** [bt_unlink]: [nn_bipc_shutdown] removes the file before it closes the
    listening socket; the others do nothing. *)
Definition stopping_atcp (w : W) (self : nn_btcp) : result bep :=
  i ← deref (bt_atcp self);
  if negb (ac_isidle w i) then Ok (w, self)
  else
    w ← ac_free w i;
    w ← bt_unlink w;
    w ← ls_stop w;
    stopping_usock w (bt_set_state NN_BTCP_STATE_STOPPING_USOCK (bt_set_atcp None self)).

Definition nn_btcp_shutdown (w : W) (self : nn_btcp) (src type : Z) (srcptr : option aid) : result bep :=
  if bool_decide (src = NN_FSM_ACTION) && bool_decide (type = NN_FSM_STOP) then
    match bt_atcp self with
    | Some i => w ← ac_stop w i; stopping_atcp w (bt_set_state NN_BTCP_STATE_STOPPING_ATCP self)
    | None => stopping_usock w (bt_set_state NN_BTCP_STATE_STOPPING_USOCK self)
    end
  else match bt_state self with
  | NN_BTCP_STATE_STOPPING_ATCP => stopping_atcp w self
  | NN_BTCP_STATE_STOPPING_USOCK => stopping_usock w self
  | NN_BTCP_STATE_STOPPING_ATCPS =>
      _ ← assert_ (bool_decide (src = NN_BTCP_SRC_ATCP) && bool_decide (type = NN_ATCP_STOPPED));
      i ← deref srcptr;
      self ← erase i self;
      w ← ac_free w i;
      atcps_stopping w self
  | _ => Err AssertFailed
  end.

Definition btcp_feed (w : W) (self : nn_btcp) (src type : Z) (srcptr : option aid) : result bep :=
  if negb (bool_decide (bt_fsm self = NN_FSM_STATE_STOPPING)) then nn_btcp_handler w self src type srcptr
  else nn_btcp_shutdown w self src type srcptr.

Definition nn_btcp_stop (x : bep) : result bep :=
  if negb (bool_decide (bt_fsm x.2 = NN_FSM_STATE_ACTIVE)) then Ok x
  else nn_btcp_shutdown x.1 (bt_set_fsm NN_FSM_STATE_STOPPING x.2) NN_FSM_ACTION NN_FSM_STOP None.

Definition nn_btcp_destroy (x : bep) : result unit :=
  _ ← assert_ (bool_decide (bt_state x.2 = NN_BTCP_STATE_IDLE));
  _ ← assert_ (bool_decide (bt_atcps x.2 = []));
  _ ← assert_ (bool_decide (bt_atcp x.2 = None));
  _ ← ls_term x.1;
  assert_ (bool_decide (bt_fsm x.2 = NN_FSM_STATE_IDLE)).

(** [nn_btcp_listen]: a socket that was started and cannot be bound or listen
    is stopped, which is part of [ls_listen]. *)
Definition nn_btcp_listen (w : W) (self : nn_btcp) : result (bep * Z) :=
  '(w, rc) ← ls_listen w;
  if bool_decide (rc < 0) then Ok (w, self, rc)
  else '(w, self) ← nn_btcp_start_accepting w self; Ok (w, self, 0).

(** [nn_btcp_create] with an address that was accepted. *)
Definition nn_btcp_create (w : W) : result (bep * Z) :=
  let self := Btcp NN_FSM_STATE_IDLE NN_BTCP_STATE_IDLE None [] 1 0 in
  '(w, self) ← nn_btcp_handler w self NN_FSM_ACTION NN_FSM_START None;
  nn_btcp_listen w (bt_set_fsm NN_FSM_STATE_ACTIVE self).

End Bind.
