(* ===== verification/Bindsafe.v ===== *)
(** * Bound endpoints accept until they are stopped

    What a bound endpoint owes its socket, from what the accepting machines
    owe the endpoint: the class [AcceptorsSpec] says what a machine that
    waits, is connected, has failed or is being stopped may tell, and the
    theorem holds for whatever fulfils it. *)

From S2P Require Import Prelude Timer Ctx Usock Ep Accept Bind.
Local Open Scope Z_scope.

(** ** The contract of the accepting machines *)

(** [AAccepting]: waits for a connection, with the listening socket;
    [AActive]: has one, and said so; [AFailed]: lost it, and said so;
    [AStopped]: has stopped, and the event is queued. *)
Inductive aphase := AIdle | AAccepting | AActive | AFailed | AStopping | AStopped.
#[export] Instance aphase_eq_dec : EqDecision aphase.
Proof. solve_decision. Defined.
Inductive lphase := LIdle | LListening | LLent (i : aid) | LStopped.
#[export] Instance lphase_eq_dec : EqDecision lphase.
Proof. solve_decision. Defined.

(** The queued events for the endpoint: of its socket, or of a machine. *)
Record bview := BView { v_ph : gmap aid aphase; v_ls : lphase; v_q : list (option aid * Z) }.

Definition set_ph (i : aid) (p : aphase) (v : bview) : bview := BView (<[i := p]> (v_ph v)) (v_ls v) (v_q v).
Definition set_ls (l : lphase) (v : bview) : bview := BView (v_ph v) l (v_q v).
Definition tell (i : option aid) (type : Z) (v : bview) : bview := BView (v_ph v) (v_ls v) (v_q v ++ [(i, type)]).

(** The head of the queue is being processed. *)
Definition taken (e : option aid * Z) (q : list (option aid * Z)) (v : bview) : bview :=
  match e with
  | (Some i, type) => BView (if bool_decide (type = NN_ATCP_STOPPED) then <[i := AIdle]> (v_ph v) else v_ph v) (v_ls v) q
  | (None, type) => BView (v_ph v) (if bool_decide (type = NN_USOCK_STOPPED) then LIdle else v_ls v) q
  end.

(** The listening socket is returned by the machine that stops. *)
Definition returned (i : aid) (v : bview) : bview := if bool_decide (v_ls v = LLent i) then set_ls LListening v else v.

Definition ac_stopped (i : aid) (v : bview) : bview := tell (Some i) NN_ATCP_STOPPED (set_ph i AStopped v).

(** What a call of [ac_stop] may do. *)
Inductive stops (i : aid) (v : bview) : bview -> Prop :=
  | StopsAccepting : v_ph v !! i = Some AAccepting -> stops i v (set_ph i AStopping v)
  | StopsLater : v_ph v !! i = Some AActive -> stops i v (set_ph i AStopping v)
  | StopsNow : v_ph v !! i = Some AActive \/ v_ph v !! i = Some AFailed -> stops i v (ac_stopped i v)
  | StopsNot p : v_ph v !! i = Some p -> p = AIdle \/ p = AStopping \/ p = AStopped -> stops i v v.

Class AcceptorsSpec (W : Type) `{Acceptors W} := {
  view : W -> bview;
  take_event : W -> W;
  take_event_ok w e q : v_q (view w) = e :: q -> view (take_event w) = taken e q (view w);
  ac_new_ok w i : v_ph (view w) !! i = None -> view (ac_new w i) = set_ph i AIdle (view w);
  ac_start_ok w i : v_ph (view w) !! i = Some AIdle -> v_ls (view w) = LListening ->
    exists w', ac_start w i = Ok w' /\ view w' = set_ls (LLent i) (set_ph i AAccepting (view w));
  ac_stop_ok w i : is_Some (v_ph (view w) !! i) -> exists w', ac_stop w i = Ok w' /\ stops i (view w) (view w');
  ac_isidle_ok w i p : v_ph (view w) !! i = Some p -> ac_isidle w i = bool_decide (p = AIdle);
  ac_free_ok w i : v_ph (view w) !! i = Some AIdle ->
    exists w', ac_free w i = Ok w' /\ view w' = BView (delete i (v_ph (view w))) (v_ls (view w)) (v_q (view w));
  ls_stop_ok w : v_ls (view w) = LListening -> exists w', ls_stop w = Ok w' /\ view w' = tell None NN_USOCK_STOPPED (set_ls LStopped (view w));
  ls_isidle_ok w : ls_isidle w = bool_decide (v_ls (view w) = LIdle);
  ls_listen_ok w : view w = BView ∅ LIdle [] -> exists w' rc, ls_listen w = Ok (w', rc) /\ (rc < 0 \/ rc = 0 /\ view w' = BView ∅ LListening []);
  ls_term_ok w : v_ls (view w) = LIdle -> ls_term w = Ok tt;
  bt_unlink_ok w : exists w', bt_unlink w = Ok w' /\ view w' = view w
}.

(** The events of one source. *)
Definition evs (q : list (option aid * Z)) (i : option aid) : list Z := snd <$> filter (fun e => e.1 = i) q.

Lemma evs_nil i : evs [] i = [].
Proof. reflexivity. Qed.
Lemma evs_cons i j t q : evs ((i, t) :: q) j = if decide (i = j) then t :: evs q j else evs q j.
Proof. unfold evs. rewrite filter_cons. cbn [fst]. by destruct (decide (i = j)). Qed.
Lemma evs_snoc i j t q : evs (q ++ [(i, t)]) j = if decide (i = j) then evs q j ++ [t] else evs q j.
Proof. unfold evs. rewrite filter_app, fmap_app, filter_cons. cbn [fst]. destruct (decide (i = j)); [done|]. cbn. by rewrite app_nil_r. Qed.

(** What happens without the endpoint.  A machine is told of a connection at
    once if one waits already; a session that fails does so after its
    [NN_ATCP_ACCEPTED] was delivered, and not among the events of the stop of
    the listening socket. *)
Inductive happens (v : bview) : bview -> Prop :=
  | HAccept i : v_ph v !! i = Some AAccepting -> v_ls v = LLent i ->
      happens v (tell (Some i) NN_ATCP_ACCEPTED (set_ls LListening (set_ph i AActive v)))
  | HError i : v_ph v !! i = Some AActive -> v_ls v <> LStopped -> evs (v_q v) (Some i) = [] ->
      happens v (tell (Some i) NN_ATCP_ERROR (set_ph i AFailed v))
  | HStopped i : v_ph v !! i = Some AStopping -> happens v (ac_stopped i (returned i v)).

(** ** Runs *)

Section Runs.
  Context {W : Type} `{AcceptorsSpec W}.

Definition src_of (i : option aid) : Z := match i with Some _ => NN_BTCP_SRC_ATCP | None => NN_BTCP_SRC_USOCK end.

(** A step of the machines or of the context, and what it returns. *)
Inductive bind_move (x : W * nn_btcp) : result (W * nn_btcp) -> Prop :=
  | BHappens w' : happens (view x.1) (view w') -> bind_move x (Ok (w', x.2))
  | BDeliver i type q : v_q (view x.1) = (i, type) :: q -> bind_move x (btcp_feed (take_event x.1) x.2 (src_of i) type i).

(** The socket asks the endpoint to stop when the queue of the context is
    empty. *)
Inductive bind_step (x : W * nn_btcp) : result (W * nn_btcp) -> Prop :=
  | BMove r : bind_move x r -> bind_step x r
  | BStop : v_q (view x.1) = [] -> bind_step x (nn_btcp_stop x).

Inductive bind_reach (x0 : W * nn_btcp) : W * nn_btcp -> Prop :=
  | BReach0 : bind_reach x0 x0
  | BReachS x y : bind_reach x0 x -> bind_step x (Ok y) -> bind_reach x0 y.

(** ** The invariant *)

Definition told (v : bview) (i : aid) : list Z := evs (v_q v) (Some i).

Lemma evs_tell i t v j : evs (v_q (tell i t v)) j = if decide (i = j) then evs (v_q v) j ++ [t] else evs (v_q v) j.
Proof. apply evs_snoc. Qed.
Lemma told_ph v i p j : told (set_ph i p v) j = told v j.
Proof. done. Qed.

(** The accepted machines while the endpoint is active, while it waits for
    the listening socket, and at last. *)
Inductive member (st : btcp_state) : aphase -> list Z -> Prop :=
  | MActive : st <> NN_BTCP_STATE_STOPPING_ATCPS -> member st AActive []
  | MFailed : st <> NN_BTCP_STATE_STOPPING_ATCPS -> member st AFailed [NN_ATCP_ERROR]
  | MIgnored : st <> NN_BTCP_STATE_ACTIVE -> st <> NN_BTCP_STATE_STOPPING_ATCPS -> member st AFailed []
  | MStopping : st = NN_BTCP_STATE_STOPPING_ATCPS -> member st AStopping []
  | MStopped : st = NN_BTCP_STATE_ACTIVE \/ st = NN_BTCP_STATE_STOPPING_ATCPS -> member st AStopped [NN_ATCP_STOPPED].

(** The machine that waits for a connection. *)
Inductive waiting (st : btcp_state) (v : bview) (i : aid) : Prop :=
  | WAccepting : st = NN_BTCP_STATE_ACTIVE -> v_ph v !! i = Some AAccepting -> v_ls v = LLent i -> told v i = [] -> waiting st v i
  | WAccepted : st = NN_BTCP_STATE_ACTIVE -> v_ph v !! i = Some AActive -> v_ls v = LListening -> told v i = [NN_ATCP_ACCEPTED] -> waiting st v i
  | WStopping : st = NN_BTCP_STATE_STOPPING_ATCP -> v_ph v !! i = Some AStopping -> v_ls v = LLent i -> told v i = [] -> waiting st v i
  | WStopped : st = NN_BTCP_STATE_STOPPING_ATCP -> v_ph v !! i = Some AStopped -> v_ls v = LListening -> told v i = [NN_ATCP_STOPPED] -> waiting st v i.

Definition fsm_of (st : btcp_state) : fsm_state :=
  match st with NN_BTCP_STATE_IDLE => NN_FSM_STATE_IDLE | NN_BTCP_STATE_ACTIVE => NN_FSM_STATE_ACTIVE | _ => NN_FSM_STATE_STOPPING end.

(** What holds in each state besides. *)
Definition state_ok (v : bview) (b : nn_btcp) : Prop :=
  match bt_state b with
  | NN_BTCP_STATE_ACTIVE | NN_BTCP_STATE_STOPPING_ATCP =>
      exists i, bt_atcp b = Some i /\ i ∉ bt_atcps b /\ waiting (bt_state b) v i /\ evs (v_q v) None = [] /\ bt_stopped b = 0%nat
  | NN_BTCP_STATE_STOPPING_USOCK =>
      bt_atcp b = None /\ v_ls v = LStopped /\ (exists q, v_q v = q ++ [(None, NN_USOCK_STOPPED)] /\ evs q None = []) /\ bt_stopped b = 0%nat
  | NN_BTCP_STATE_STOPPING_ATCPS => bt_atcp b = None /\ v_ls v = LIdle /\ evs (v_q v) None = [] /\ bt_atcps b <> [] /\ bt_stopped b = 0%nat
  | NN_BTCP_STATE_IDLE => bt_atcp b = None /\ v_ls v = LIdle /\ bt_atcps b = [] /\ v_q v = [] /\ bt_stopped b = 1%nat
  end.

(** No machine is lost: those there are, are in the list or wait. *)
Record bind_shape (v : bview) (b : nn_btcp) : Prop := {
  bi_fsm_ok : bt_fsm b = fsm_of (bt_state b);
  bi_nodup : NoDup (bt_atcps b);
  bi_dom i : is_Some (v_ph v !! i) <-> i ∈ bt_atcps b \/ bt_atcp b = Some i;
  bi_fresh i : (bt_next b <= i)%positive -> v_ph v !! i = None;
  bi_quiet i : v_ph v !! i = None -> told v i = [];
  bi_members i p : i ∈ bt_atcps b -> v_ph v !! i = Some p -> member (bt_state b) p (told v i)
}.
Record bind_inv (v : bview) (b : nn_btcp) : Prop := { bi_shape :> bind_shape v b; bi_state_ok : state_ok v b }.

(** ** Stopping everything *)

(** What is left to do for a machine, and for all of them. *)
Definition weight (p : aphase) : nat :=
  match p with AIdle => 0 | AStopped => 1 | AFailed | AStopping | AAccepting => 3 | AActive => 5 end.
Definition weights (m : gmap aid aphase) : nat := map_fold (fun _ p n => weight p + n)%nat 0%nat m.
Definition rank (v : bview) : nat :=
  (weights (v_ph v) + length (v_q v) + match v_ls v with LIdle => 0 | LStopped => 1 | _ => 3 end)%nat.

Lemma weights_delete m i p : m !! i = Some p -> weights m = (weight p + weights (delete i m))%nat.
Proof. intros Hi. unfold weights. by rewrite (map_fold_delete_L _ _ i p m) by (try done; intros; lia). Qed.

Lemma weights_insert m i p p' : m !! i = Some p -> (weights (<[i := p']> m) + weight p = weights m + weight p')%nat.
Proof.
  intros Hi. rewrite (weights_delete m i p Hi), (weights_delete (<[i := p']> m) i p') by apply lookup_insert_eq.
  rewrite delete_insert_eq. lia.
Qed.

(** A member after its [ac_stop]. *)
Definition going (v : bview) (i : aid) : Prop :=
  v_ph v !! i = Some AStopping /\ told v i = [] \/ v_ph v !! i = Some AStopped /\ told v i = [NN_ATCP_STOPPED].

(** What a call that concerns the machines of a list leaves alone. *)
Record apart (l : list aid) (v v' : bview) : Prop := {
  ap_ph j : j ∉ l -> v_ph v' !! j = v_ph v !! j;
  ap_told j : j ∉ l -> told v' j = told v j;
  ap_ls : v_ls v' = v_ls v;
  ap_none : evs (v_q v') None = evs (v_q v) None;
  ap_rank : (rank v' <= rank v)%nat
}.

Lemma apart_refl l v : apart l v v.
Proof. by constructor. Qed.
Lemma apart_cons i l v v' v'' : apart [i] v v' -> apart l v' v'' -> apart (i :: l) v v''.
Proof.
  intros [a1 a2 a3 a4 a5] [b1 b2 b3 b4 b5]. constructor; [| |congruence..|lia].
  - intros j Hj. rewrite not_elem_of_cons in Hj. rewrite b1, a1 by (try rewrite list_elem_of_singleton; naive_solver). done.
  - intros j Hj. rewrite not_elem_of_cons in Hj. rewrite b2, a2 by (try rewrite list_elem_of_singleton; naive_solver). done.
Qed.

Lemma stops_member i v v' : stops i v v' -> v_ph v !! i = Some AActive \/ v_ph v !! i = Some AFailed -> told v i = [] ->
  going v' i /\ apart [i] v v'.
Proof.
  intros Hst Hp Ht. destruct Hst as [H1|H1|H1|p H1 H2]; [naive_solver| | |naive_solver].
  - split; [left; split; [apply lookup_insert_eq|done]|].
    constructor; try done; cbn.
    + intros j Hj. rewrite list_elem_of_singleton in Hj. by rewrite lookup_insert_ne by congruence.
    + unfold rank. cbn. pose proof (weights_insert _ _ _ AStopping H1). cbn [weight] in *. lia.
  - unfold ac_stopped, told in *. split.
    + right. split; [apply lookup_insert_eq|]. unfold told. rewrite evs_tell, decide_True by done. by rewrite (Ht : evs (v_q (set_ph _ _ _)) _ = _).
    + constructor; [| |done| |].
      * intros j Hj. rewrite list_elem_of_singleton in Hj. cbn. by rewrite lookup_insert_ne by congruence.
      * intros j Hj. rewrite list_elem_of_singleton in Hj. unfold told. by rewrite evs_tell, decide_False by congruence.
      * by rewrite evs_tell, decide_False by done.
      * unfold rank. cbn. rewrite length_app. cbn.
        destruct H1 as [H1|H1]; pose proof (weights_insert _ _ _ AStopped H1); cbn [weight] in *; lia.
Qed.

Lemma stop_all_ok l : forall w, NoDup l ->
  (forall i, i ∈ l -> (v_ph (view w) !! i = Some AActive \/ v_ph (view w) !! i = Some AFailed) /\ told (view w) i = []) ->
  exists w', stop_all w l = Ok w' /\ apart l (view w) (view w') /\ forall i, i ∈ l -> going (view w') i.
Proof.
  induction l as [|i l IH]; intros w Hnd Hm; [exists w; split_and!; [done|apply apart_refl|intros i Hi; by apply not_elem_of_nil in Hi]|].
  apply NoDup_cons in Hnd as [Hi Hnd].
  destruct (Hm i (list_elem_of_here _ _)) as [Hp Ht].
  destruct (ac_stop_ok w i) as (w1 & E1 & S1); [naive_solver|].
  destruct (stops_member i _ _ S1 Hp Ht) as [G1 A1].
  destruct (IH w1 Hnd) as (w' & E2 & A2 & G2).
  { intros j Hj. assert (j ∉ [i]) as Hj1 by (rewrite list_elem_of_singleton; congruence).
    rewrite (ap_ph _ _ _ A1 j Hj1), (ap_told _ _ _ A1 j Hj1). apply Hm. by apply list_elem_of_further. }
  exists w'. cbn [stop_all]. rewrite E1. mred. split_and!; [done|by eapply apart_cons|].
  intros j [->|Hj]%elem_of_cons; [|by apply G2].
  unfold going in *. rewrite (ap_ph _ _ _ A2 i Hi), (ap_told _ _ _ A2 i Hi). done.
Qed.

(** ** The machines by themselves *)

Lemma inv_update v v' b i p : bind_inv v b -> is_Some (v_ph v !! i) -> v_ph v' = <[i := p]> (v_ph v) ->
  (forall j, j <> i -> told v' j = told v j) -> (i ∈ bt_atcps b -> member (bt_state b) p (told v' i)) -> state_ok v' b -> bind_inv v' b.
Proof.
  intros [[I1 I2 I3 I4 I5 I6] I7] Hi Hph Ht Hm Hst. constructor; [|done]. constructor; [by apply I1|by apply I2| | | |]; intros j; rewrite ?Hph.
  - rewrite <- I3. destruct (decide (j = i)) as [->|Hj]; [rewrite lookup_insert_eq; naive_solver|by rewrite lookup_insert_ne].
  - intros Hj. assert (j <> i) by (intros ->; rewrite I4 in Hi by done; by destruct Hi). rewrite lookup_insert_ne by done. by apply I4.
  - intros Hj. destruct (decide (j = i)) as [->|Hji]; [by rewrite lookup_insert_eq in Hj|].
    rewrite lookup_insert_ne in Hj by done. rewrite Ht by done. by apply I5.
  - intros q Hin Hq. destruct (decide (j = i)) as [->|Hji].
    + rewrite lookup_insert_eq in Hq. injection Hq as <-. by apply Hm.
    + rewrite lookup_insert_ne in Hq by done. rewrite Ht by done. by apply I6.
Qed.

Lemma told_app v v' i t j : v_q v' = v_q v ++ [(Some i, t)] -> told v' j = if decide (i = j) then told v j ++ [t] else told v j.
Proof. intros E. unfold told. rewrite E, evs_snoc. destruct (decide (i = j)) as [->|Hij]; [by rewrite decide_True|by rewrite decide_False by congruence]. Qed.

Lemma none_app v v' i t : v_q v' = v_q v ++ [(Some i, t)] -> evs (v_q v') None = evs (v_q v) None.
Proof. intros E. by rewrite E, evs_snoc, decide_False by done. Qed.

Lemma returned_ph i v : v_ph (returned i v) = v_ph v.
Proof. unfold returned. by case_bool_decide. Qed.
Lemma returned_q i v : v_q (returned i v) = v_q v.
Proof. unfold returned. by case_bool_decide. Qed.
Lemma returned_other i v : v_ls v <> LLent i -> returned i v = v.
Proof. intros Hi. unfold returned. by rewrite bool_decide_eq_false_2. Qed.
Lemma returned_rank i v : rank (returned i v) = rank v.
Proof. unfold returned. case_bool_decide as Hl; [|done]. unfold rank. cbn. by rewrite Hl. Qed.

(** Who may be in a phase. *)
Lemma who_accepts v b i : bind_inv v b -> v_ph v !! i = Some AAccepting -> bt_atcp b = Some i /\ i ∉ bt_atcps b.
Proof.
  intros I Hi. assert (i ∉ bt_atcps b) as Hn by (intros Hin; pose proof (bi_members _ _ I i _ Hin Hi) as M; by inversion M).
  split; [|done]. pose proof (proj1 (bi_dom _ _ I i)) as D. rewrite Hi in D. naive_solver.
Qed.

Lemma rank_tell i t v : rank (tell i t v) = Datatypes.S (rank v).
Proof. unfold rank. cbn. rewrite length_app. cbn. lia. Qed.
Lemma rank_set_ph v i p p' : v_ph v !! i = Some p -> (rank (set_ph i p' v) + weight p = rank v + weight p')%nat.
Proof. intros Hi. unfold rank. cbn. pose proof (weights_insert _ _ _ p' Hi). lia. Qed.

(** The waiting machine does not mind another. *)
Lemma waiting_other st v v' i j : j <> i -> waiting st v i -> (forall k, k <> j -> v_ph v' !! k = v_ph v !! k) ->
  v_ls v' = v_ls v -> (forall k, k <> j -> told v' k = told v k) -> waiting st v' i.
Proof.
  intros Hj [] Hp Hl Ht; [eapply WAccepting|eapply WAccepted|eapply WStopping|eapply WStopped]; try done; rewrite ?Hl, ?Ht, ?Hp by congruence; done.
Qed.

(** A machine there is waits, or is a member. *)
Lemma who_is v b i p : bind_inv v b -> v_ph v !! i = Some p ->
  bt_atcp b = Some i /\ i ∉ bt_atcps b /\ waiting (bt_state b) v i /\ evs (v_q v) None = [] /\ bt_stopped b = 0%nat \/
  i ∈ bt_atcps b /\ bt_atcp b <> Some i /\ member (bt_state b) p (told v i).
Proof.
  intros I Hi. pose proof (bi_state_ok _ _ I) as Hst. unfold state_ok in Hst.
  destruct (proj1 (bi_dom _ _ I i)) as [Hin|Hb]; [by rewrite Hi| |].
  - right. split_and!; [done| |by apply (bi_members _ _ I)]. intros Hb. destruct (bt_state b); naive_solver.
  - left. destruct (bt_state b); naive_solver.
Qed.

Lemma state_ok_other v v' b i : state_ok v b -> bt_state b <> NN_BTCP_STATE_STOPPING_USOCK -> i ∈ bt_atcps b -> bt_atcp b <> Some i ->
  (forall k, k <> i -> v_ph v' !! k = v_ph v !! k) -> (forall k, k <> i -> told v' k = told v k) ->
  v_ls v' = v_ls v -> evs (v_q v') None = evs (v_q v) None -> state_ok v' b.
Proof.
  intros Hst Hu Hin Hb Hp Ht Hl He. unfold state_ok in *. rewrite Hl, He.
  destruct (bt_state b); [destruct Hst as (_ & _ & Hnil & _); rewrite Hnil in Hin; by apply not_elem_of_nil in Hin| | |done|done];
    destruct Hst as (j & Hj & Hnj & Hw & Hn & Hs); exists j; split_and!; try done; apply (waiting_other _ v v' j i); try done; congruence.
Qed.

Lemma inv_happens v v' b : bind_inv v b -> happens v v' -> bind_inv v' b /\ (bt_state b <> NN_BTCP_STATE_ACTIVE -> (rank v' < rank v)%nat).
Proof.
  intros I [i Hi Hl|i Hi Hl Ht|i Hi].
  - destruct (who_accepts _ _ _ I Hi) as [Hb Hn].
    pose proof (bi_state_ok _ _ I) as Hst. unfold state_ok in Hst.
    destruct (bt_state b) eqn:Es; [naive_solver| |destruct Hst as (j & Hj & _ & [] & _); naive_solver|naive_solver|naive_solver].
    destruct Hst as (j & Hj & _ & Hw & Hev & Hs). replace j with i in * by congruence.
    assert (Hq := eq_refl : v_q (tell (Some i) NN_ATCP_ACCEPTED (set_ls LListening (set_ph i AActive v))) = v_q v ++ [(Some i, NN_ATCP_ACCEPTED)]).
    split; [|done]. eapply (inv_update _ _ _ i AActive); [done|by rewrite Hi|done| |done|].
    + intros k Hk. by rewrite (told_app _ _ _ _ _ Hq), decide_False by congruence.
    + unfold state_ok. rewrite Es. exists i. split_and!; [done|done| |by rewrite (none_app _ _ _ _ Hq)|done].
      apply WAccepted; [done|apply lookup_insert_eq|done|]. rewrite (told_app _ _ _ _ _ Hq), decide_True by done.
      destruct Hw as [_ _ _ ->| | |]; [done|congruence..].
  - assert (Hq := eq_refl : v_q (tell (Some i) NN_ATCP_ERROR (set_ph i AFailed v)) = v_q v ++ [(Some i, NN_ATCP_ERROR)]).
    destruct (who_is _ _ _ _ I Hi) as [(Hb & _ & Hw & _)|(Hin & Hb & M)]; [destruct Hw; unfold told in *; congruence|].
    split; [|intros _; rewrite rank_tell; pose proof (rank_set_ph v i _ AFailed Hi); cbn [weight] in *; lia].
    eapply (inv_update _ _ _ i AFailed); [done|by rewrite Hi|done| | |].
    + intros k Hk. by rewrite (told_app _ _ _ _ _ Hq), decide_False by congruence.
    + intros _. rewrite (told_app _ _ _ _ _ Hq), decide_True by done. unfold told. rewrite Ht. constructor.
      inversion M; congruence.
    + apply (state_ok_other v _ _ i); [by apply bi_state_ok| |done|done| | |done|by rewrite (none_app _ _ _ _ Hq)].
      * intros Hs. pose proof (bi_state_ok _ _ I) as Hst. unfold state_ok in Hst. rewrite Hs in Hst. naive_solver.
      * intros k Hk. by apply lookup_insert_ne.
      * intros k Hk. by rewrite (told_app _ _ _ _ _ Hq), decide_False by congruence.
  - assert (Hq : v_q (ac_stopped i (returned i v)) = v_q v ++ [(Some i, NN_ATCP_STOPPED)]) by (cbn; by rewrite returned_q).
    assert (Hph : v_ph (ac_stopped i (returned i v)) = <[i := AStopped]> (v_ph v)) by (cbn; by rewrite returned_ph).
    split; [|intros _; unfold ac_stopped; rewrite rank_tell; pose proof (rank_set_ph (returned i v) i AStopping AStopped) as R;
      rewrite returned_ph, returned_rank in R; specialize (R Hi); cbn [weight] in *; lia].
    eapply (inv_update _ _ _ i AStopped); [done|by rewrite Hi|done| | |].
    + intros k Hk. by rewrite (told_app _ _ _ _ _ Hq), decide_False by congruence.
    + intros Hin. rewrite (told_app _ _ _ _ _ Hq), decide_True by done.
      pose proof (bi_members _ _ I i _ Hin Hi) as M. inversion M; subst. constructor. by right.
    + destruct (who_is _ _ _ _ I Hi) as [(Hb & Hn & Hw & Hev & Hs)|(Hin & Hb & M)].
      * inversion Hw as [| |Es _ Hl Ht|]; try congruence. unfold state_ok. rewrite Es. exists i. split_and!; [done|done| |by rewrite (none_app _ _ _ _ Hq)|done].
        apply WStopped; [done|by rewrite Hph, lookup_insert_eq| |].
        -- cbn. unfold returned. by rewrite bool_decide_eq_true_2.
        -- rewrite (told_app _ _ _ _ _ Hq), decide_True by done. by rewrite Ht.
      * pose proof (bi_state_ok _ _ I) as Hst.
        inversion M as [| | |Es Et|]; subst.
        apply (state_ok_other v _ _ i); [done|congruence|done|done| | | |by rewrite (none_app _ _ _ _ Hq)].
        -- intros k Hk. by rewrite Hph, lookup_insert_ne.
        -- intros k Hk. by rewrite (told_app _ _ _ _ _ Hq), decide_False by congruence.
        -- cbn. rewrite returned_other; [done|]. unfold state_ok in Hst. rewrite Es in Hst. destruct Hst as (_ & -> & _). done.
Qed.

(** ** Deliveries *)

Definition bind_next (x y : W * nn_btcp) : Prop :=
  bind_inv (view y.1) y.2 /\ (bt_state x.2 = NN_BTCP_STATE_ACTIVE <-> bt_state y.2 = NN_BTCP_STATE_ACTIVE) /\
  (bt_state x.2 <> NN_BTCP_STATE_ACTIVE -> (rank (view y.1) < rank (view x.1))%nat).

Lemma told_cons v i t q j : v_q v = (i, t) :: q -> told v j = if decide (i = Some j) then t :: evs q (Some j) else evs q (Some j).
Proof. intros E. unfold told. by rewrite E, evs_cons. Qed.

Lemma evs_nil_inv q : (forall i, evs q i = []) -> q = [].
Proof. destruct q as [|[i t] q]; [done|]. intros Hq. specialize (Hq i). rewrite evs_cons, decide_True in Hq by done. done. Qed.

Lemma evs_snoc_inv q i j t u : evs (q ++ [(i, t)]) j = u :: evs [] j -> i <> j -> evs q j = [u].
Proof. intros Hq Hij. by rewrite evs_snoc, decide_False in Hq by done. Qed.

(** What is told after a delivery. *)
Lemma told_rest v i t q : v_q v = (Some i, t) :: q -> (forall j, j <> i -> told v j = evs q (Some j)) /\ told v i = t :: evs q (Some i) /\ evs (v_q v) None = evs q None.
Proof.
  intros E. split_and!; [intros j Hj|..]; unfold told; rewrite E, evs_cons; [by rewrite decide_False by congruence|by rewrite decide_True by done|by rewrite decide_False by done].
Qed.

(** A member leaves the list and is freed. *)
Lemma shape_remove v v' b i : bind_shape v b -> i ∈ bt_atcps b -> bt_atcp b <> Some i -> v_ph v' = delete i (v_ph v) ->
  (forall j, j <> i -> told v' j = told v j) -> told v' i = [] -> bind_shape v' (bt_set_atcps (filter (fun j => j <> i) (bt_atcps b)) b).
Proof.
  intros [I1 I2 I3 I4 I5 I6] Hin Hb Hph Ht Hti. constructor; cbn [bt_fsm bt_state bt_atcps bt_atcp bt_next bt_set_atcps]; [done|by apply NoDup_filter| | | |];
    intros j; rewrite ?Hph; (destruct (decide (j = i)) as [->|Hj]; [rewrite ?lookup_delete_eq|rewrite ?lookup_delete_ne by done; rewrite ?Ht by done]).
  - rewrite list_elem_of_filter. split; [by intros []|naive_solver].
  - rewrite list_elem_of_filter, I3. naive_solver.
  - done.
  - apply I4.
  - done.
  - apply I5.
  - done.
  - intros p [_ Hj2]%list_elem_of_filter. by apply I6.
Qed.

(** The listening machine has a connection: it becomes a member, and a new
    one waits. *)
Lemma accepted_next w b i q : bind_inv (view w) b -> bt_state b = NN_BTCP_STATE_ACTIVE -> bt_atcp b = Some i ->
  waiting NN_BTCP_STATE_ACTIVE (view w) i -> v_q (view w) = (Some i, NN_ATCP_ACCEPTED) :: q ->
  exists y, btcp_feed (take_event w) b NN_BTCP_SRC_ATCP NN_ATCP_ACCEPTED (Some i) = Ok y /\ bind_next (w, b) y.
Proof.
  intros I Es Hb Hw Hq. destruct Hw as [|_ Hi Hl Ht| |]; [unfold told in *; rewrite Hq, evs_cons, decide_True in * by done; done| |done|done].
  destruct (who_is _ _ _ _ I Hi) as [(_ & Hn & _ & Hev & Hs)|(_ & ? & _)]; [|done].
  pose proof (take_event_ok w _ _ Hq) as Ev. cbn in Ev.
  set (n := bt_next b). assert (v_ph (view w) !! n = None) as Hfresh by (by apply (bi_fresh _ _ I)).
  assert (i <> n) as Hni by congruence.
  pose proof (ac_new_ok (take_event w) n) as Enew. rewrite Ev in Enew. specialize (Enew Hfresh).
  destruct (ac_start_ok (ac_new (take_event w) n) n) as (w' & E1 & V1); [rewrite Enew; apply lookup_insert_eq|by rewrite Enew|].
  rewrite Enew in V1.
  unfold btcp_feed, nn_btcp_handler, insert_last, nn_btcp_start_accepting. rewrite (bi_fsm_ok _ _ I), Es. decide_bools. mred. decide_bools. mred.
  cbn [bt_atcps bt_atcp bt_next bt_set_atcp bt_set_atcps]. fold n. decide_bools. mred. rewrite E1. mred.
  eexists. split; [done|]. unfold bind_next. cbn [fst snd]. split_and!; [|done|by rewrite Es].
  rewrite bool_decide_eq_false_2 in V1 by done.
  assert (v_ph (view w') = <[n := AAccepting]> (v_ph (view w))) as Hph by (rewrite V1; cbn; by rewrite insert_insert_eq).
  destruct (told_rest _ _ _ _ Hq) as (Htj & Hti & Hen). rewrite Ht in Hti. injection Hti as Hti.
  assert (told (view w') = fun j => evs q (Some j)) as Hq' by (by rewrite V1).
  constructor; [constructor|];
    cbn [bt_fsm bt_state bt_atcps bt_atcp bt_next bt_set_atcp bt_set_atcps bt_set_next bt_stopped]; rewrite ?Hq', ?Hph; [by rewrite (bi_fsm_ok _ _ I)| | | | | |].
  - apply NoDup_app. split_and!; [exact (bi_nodup _ _ I)| |apply NoDup_singleton]. intros j Hj ->%list_elem_of_singleton. done.
  - intros j. rewrite elem_of_app, list_elem_of_singleton. destruct (decide (j = n)) as [->|Hj].
    + rewrite lookup_insert_eq. naive_solver.
    + rewrite lookup_insert_ne by done. rewrite (bi_dom _ _ I), Hb. naive_solver.
  - intros j Hj. rewrite lookup_insert_ne by (unfold n; lia). apply (bi_fresh _ _ I). unfold n in *. lia.
  - intros j Hj. destruct (decide (j = n)) as [->|Hjn]; [by rewrite lookup_insert_eq in Hj|]. rewrite lookup_insert_ne in Hj by done.
    rewrite <- Htj by congruence. by apply (bi_quiet _ _ I).
  - intros j p Hj Hp. destruct (decide (j = n)) as [->|Hjn].
    { apply elem_of_app in Hj as [Hj|Hj%list_elem_of_singleton]; [|congruence].
      pose proof (proj2 (bi_dom _ _ I n) (or_introl Hj)) as [? ?]. congruence. }
    rewrite lookup_insert_ne in Hp by done. destruct (decide (j = i)) as [->|Hji].
    + rewrite Hi in Hp. injection Hp as <-. rewrite <- Hti. constructor. by rewrite Es.
    + apply elem_of_app in Hj as [Hj|Hj%list_elem_of_singleton]; [|done]. rewrite <- Htj by done. by apply (bi_members _ _ I).
  - unfold state_ok. cbn [bt_state bt_set_atcp bt_set_atcps bt_set_next bt_atcp bt_atcps bt_stopped]. rewrite Es.
    exists n. split_and!; [done| | |rewrite V1; change (evs q None = []); congruence|done].
    + rewrite elem_of_app, list_elem_of_singleton. intros [Hj|Hj]; [|congruence].
      pose proof (proj2 (bi_dom _ _ I n) (or_introl Hj)) as [? ?]. congruence.
    + apply WAccepting; [done|by rewrite Hph, lookup_insert_eq|by rewrite V1|]. rewrite Hq', <- Htj by done. by apply (bi_quiet _ _ I).
Qed.

(** A member has failed: it is stopped. *)
Lemma error_next w b i q : bind_inv (view w) b -> bt_state b = NN_BTCP_STATE_ACTIVE -> i ∈ bt_atcps b ->
  v_ph (view w) !! i = Some AFailed -> v_q (view w) = (Some i, NN_ATCP_ERROR) :: q -> evs q (Some i) = [] ->
  exists y, btcp_feed (take_event w) b NN_BTCP_SRC_ATCP NN_ATCP_ERROR (Some i) = Ok y /\ bind_next (w, b) y.
Proof.
  intros I Es Hin Hi Hq Ht0.
  destruct (who_is _ _ _ _ I Hi) as [(_ & ? & _)|(_ & Hb & M)]; [done|].
  pose proof (take_event_ok w _ _ Hq) as Ev. cbn in Ev. rewrite bool_decide_eq_false_2 in Ev by done.
  destruct (ac_stop_ok (take_event w) i) as (w' & E1 & S1); [rewrite Ev; cbn; naive_solver|].
  rewrite Ev in S1. destruct (stops_member _ _ _ S1 (or_intror Hi) Ht0) as [G [A1 A2 A3 A4 A5]].
  unfold btcp_feed, nn_btcp_handler. rewrite (bi_fsm_ok _ _ I), Es. decide_bools. mred. decide_bools. rewrite E1. mred.
  eexists. split; [done|]. unfold bind_next. cbn [fst snd]. split_and!; [|done|by rewrite Es].
  destruct (told_rest _ _ _ _ Hq) as (Htj & Hti & Hen).
  assert (v_ph (view w') = <[i := AStopped]> (v_ph (view w)) /\ told (view w') i = [NN_ATCP_STOPPED]) as [Hph Hto].
  { clear - S1 Hi Ht0 G. inversion S1 as [H1|H1|_|p H1 H2]; cbn in *; [congruence|congruence| |naive_solver]; subst.
    destruct G as [[G _]|[_ G]]; cbn in *; [by rewrite lookup_insert_eq in G|done]. }
  assert (forall j, j <> i -> told (view w') j = told (view w) j) as Hto'.
  { intros j Hj. rewrite A2 by (by rewrite list_elem_of_singleton). by rewrite Htj. }
  eapply (inv_update _ _ _ i AStopped); [done|by rewrite Hi|done|done| |].
  - intros _. rewrite Hto. constructor. by left.
  - apply (state_ok_other (view w) _ _ i); [by apply bi_state_ok|congruence|done|done| |done|by rewrite A3|].
    + intros k Hk. by rewrite Hph, lookup_insert_ne.
    + rewrite A4. by rewrite Hen.
Qed.

(** A machine that has stopped is freed. *)
Lemma freed_next w b i q : bind_inv (view w) b -> i ∈ bt_atcps b -> bt_atcp b <> Some i ->
  v_ph (view w) !! i = Some AStopped -> v_q (view w) = (Some i, NN_ATCP_STOPPED) :: q -> evs q (Some i) = [] ->
  exists w', ac_free (take_event w) i = Ok w' /\
    view w' = BView (delete i (v_ph (view w))) (v_ls (view w)) q /\
    bind_shape (view w') (bt_set_atcps (filter (fun j => j <> i) (bt_atcps b)) b) /\
    (rank (view w') < rank (view w))%nat.
Proof.
  intros I Hin Hb Hi Hq Ht0.
  pose proof (take_event_ok w _ _ Hq) as Ev. cbn in Ev. rewrite bool_decide_eq_true_2 in Ev by done.
  destruct (ac_free_ok (take_event w) i) as (w' & E1 & V1); [rewrite Ev; apply lookup_insert_eq|].
  rewrite Ev in V1. cbn [v_ph v_ls v_q] in V1. rewrite delete_insert_eq in V1.
  destruct (told_rest _ _ _ _ Hq) as (Htj & Hti & Hen).
  exists w'. split_and!; [done|done| |].
  - apply (shape_remove (view w)); [by apply bi_shape|done|done|by rewrite V1| |].
    + intros j Hj. rewrite V1. change (evs q (Some j) = told (view w) j). by rewrite Htj.
    + by rewrite V1.
  - rewrite V1. unfold rank. cbn [v_ph v_ls v_q]. rewrite Hq, (weights_delete _ _ _ Hi). cbn. lia.
Qed.

Lemma deliver_active w b i t q : bind_inv (view w) b -> bt_state b = NN_BTCP_STATE_ACTIVE -> v_q (view w) = (i, t) :: q ->
  exists y, btcp_feed (take_event w) b (src_of i) t i = Ok y /\ bind_next (w, b) y.
Proof.
  intros I Es Hq. pose proof (bi_state_ok _ _ I) as Hst. unfold state_ok in Hst. rewrite Es in Hst.
  destruct Hst as (k & Hk & Hnk & Hw & Hev & Hs).
  destruct i as [i|]; [|rewrite Hq, evs_cons, decide_True in Hev by done; done].
  destruct (told_rest _ _ _ _ Hq) as (Htj & Hti & Hen).
  destruct (v_ph (view w) !! i) as [p|] eqn:Hi; [|by rewrite (bi_quiet _ _ I i Hi) in Hti].
  destruct (who_is _ _ _ _ I Hi) as [(Hb & Hn & Hwi & _)|(Hin & Hb & M)].
  - rewrite Es in Hwi. pose proof Hwi as Hwi'. destruct Hwi as [_ _ _ Ht|_ _ _ Ht| |]; [congruence| |done|done].
    rewrite Ht in Hti. injection Hti as <- _. eapply accepted_next; done.
  - rewrite Es in M. inversion M as [? Hp Ht|? Hp Ht|? ? Hp Ht|? Hp Ht|? Hp Ht]; rewrite <- Ht in Hti; try done; injection Hti as <- Hti; subst p.
    + eapply error_next; done.
    + destruct (freed_next _ _ _ _ I Hin Hb Hi Hq) as (w' & E1 & V1 & I1 & R1); [done|].
      unfold btcp_feed, nn_btcp_handler, erase. rewrite (bi_fsm_ok _ _ I), Es. decide_bools. mred. decide_bools. mred. rewrite E1. mred.
      eexists. split; [done|]. unfold bind_next. cbn [fst snd]. split_and!; [|done|by rewrite Es].
      constructor; [done|]. unfold state_ok. cbn [bt_state bt_set_atcps bt_atcp bt_atcps bt_stopped]. rewrite Es. exists k.
      assert (k <> i) as Hki by congruence.
      split_and!; [done| | |rewrite V1; cbn [v_q]; congruence|done].
      * rewrite list_elem_of_filter. naive_solver.
      * apply (waiting_other _ (view w) _ k i); [done|done| |by rewrite V1|].
        -- intros j Hj. rewrite V1. by apply lookup_delete_ne.
        -- intros j Hj. rewrite V1. change (evs q (Some j) = told (view w) j). by rewrite Htj.
Qed.

(** ** After the stop *)

(** A failure is of no interest any more. *)
Lemma ignored_next w b i q : bind_inv (view w) b -> bt_state b <> NN_BTCP_STATE_ACTIVE -> i ∈ bt_atcps b ->
  v_ph (view w) !! i = Some AFailed -> v_q (view w) = (Some i, NN_ATCP_ERROR) :: q -> evs q (Some i) = [] ->
  view (take_event w) = BView (v_ph (view w)) (v_ls (view w)) q /\ bind_next (w, b) (take_event w, b).
Proof.
  intros I Es Hin Hi Hq Ht0.
  destruct (who_is _ _ _ _ I Hi) as [(_ & ? & _)|(_ & Hb & M)]; [done|].
  pose proof (take_event_ok w _ _ Hq) as Ev. cbn in Ev. rewrite bool_decide_eq_false_2 in Ev by done.
  destruct (told_rest _ _ _ _ Hq) as (Htj & Hti & Hen).
  split; [done|]. unfold bind_next. cbn [fst snd]. split_and!; [|done|intros _; rewrite Ev; unfold rank; cbn [v_ph v_ls v_q]; rewrite Hq; cbn; lia].
  assert (bt_state b <> NN_BTCP_STATE_STOPPING_ATCPS) as Hns by (inversion M; congruence).
  apply (inv_update (view w) _ _ i AFailed); [done|by rewrite Hi|by rewrite Ev, insert_id| | |].
  - intros j Hj. rewrite Ev. change (evs q (Some j) = told (view w) j). by rewrite Htj.
  - intros _. rewrite Ev. change (member (bt_state b) AFailed (evs q (Some i))). rewrite Ht0. by constructor.
  - pose proof (bi_state_ok _ _ I) as Hst. destruct (decide (bt_state b = NN_BTCP_STATE_STOPPING_USOCK)) as [Hu|Hu].
    + unfold state_ok in *. rewrite Hu in *. destruct Hst as (H1 & H2 & (q0 & H3 & H4) & H5). rewrite Ev. split_and!; try done.
      rewrite H3 in Hq. destruct q0 as [|e q0]; [by injection Hq|]. injection Hq as -> Hq. exists q0. split; [done|].
      by rewrite evs_cons, decide_False in H4 by done.
    + apply (state_ok_other (view w) _ _ i); [done|done|done|done| | |by rewrite Ev|].
      * intros k _. by rewrite Ev.
      * intros k Hk. rewrite Ev. change (evs q (Some k) = told (view w) k). by rewrite Htj.
      * rewrite Ev. by rewrite Hen.
Qed.

(** The last machine of the list has gone. *)
Lemma atcps_stopping_ok w b : bind_shape (view w) b -> bt_state b = NN_BTCP_STATE_STOPPING_ATCPS -> bt_atcp b = None ->
  v_ls (view w) = LIdle -> evs (v_q (view w)) None = [] -> bt_stopped b = 0%nat ->
  exists b', atcps_stopping w b = Ok (w, b') /\ bind_inv (view w) b' /\ bt_state b' <> NN_BTCP_STATE_ACTIVE.
Proof.
  intros I Es Hb Hl He Hs. unfold atcps_stopping. destruct (decide (bt_atcps b = [])) as [Hnil|Hnil].
  - rewrite bool_decide_eq_true_2 by done. rewrite (bi_fsm_ok _ _ I), Es. decide_bools. mred.
    assert (forall i, v_ph (view w) !! i = None) as Hnone.
    { intros i. apply eq_None_not_Some. rewrite (bi_dom _ _ I), Hnil, Hb. intros [Hi|Hi]; [by apply not_elem_of_nil in Hi|done]. }
    assert (v_q (view w) = []) as Hq.
    { apply evs_nil_inv. intros [i|]; [by apply (bi_quiet _ _ I)|done]. }
    eexists. split; [done|]. split; [|done]. constructor; [constructor|]; cbn; rewrite ?Hnil; try done.
    + apply NoDup_nil_2.
    + intros i. rewrite Hnone, Hb. split; [by intros []|]. intros [Hi|Hi]; [by apply not_elem_of_nil in Hi|done].
    + intros i _. by apply (bi_quiet _ _ I).
    + intros i p Hi. by apply not_elem_of_nil in Hi.
    + unfold state_ok. cbn. by rewrite Hs.
  - rewrite bool_decide_eq_false_2 by done. eexists. split; [done|]. split; [|by rewrite Es].
    constructor; [done|]. unfold state_ok. by rewrite Es.
Qed.

(** The listening socket has stopped: the accepted machines are stopped. *)
Lemma stopping_usock_ok w b : bind_shape (view w) b -> bt_state b = NN_BTCP_STATE_STOPPING_USOCK -> bt_atcp b = None ->
  v_ls (view w) = LIdle -> v_q (view w) = [] -> bt_stopped b = 0%nat ->
  exists y, stopping_usock w b = Ok y /\ bind_inv (view y.1) y.2 /\ bt_state y.2 <> NN_BTCP_STATE_ACTIVE /\ (rank (view y.1) <= rank (view w))%nat.
Proof.
  intros I Es Hb Hl Hq Hs. unfold stopping_usock. rewrite ls_isidle_ok, bool_decide_eq_true_2 by done. cbn [negb].
  assert (forall i, told (view w) i = []) as Ht0 by (intros i; unfold told; by rewrite Hq).
  destruct (stop_all_ok (bt_atcps b) w) as (w' & E1 & [A1 A2 A3 A4 A5] & G1).
  { by apply (bi_nodup _ _ I). }
  { intros i Hi. split; [|done]. destruct (proj2 (bi_dom _ _ I i) (or_introl Hi)) as [p Hp].
    pose proof (bi_members _ _ I i p Hi Hp) as M. rewrite Es, Ht0 in M. inversion M; subst; naive_solver. }
  rewrite E1. mred.
  destruct (atcps_stopping_ok w' (bt_set_state NN_BTCP_STATE_STOPPING_ATCPS b)) as (b' & E2 & I2 & N2); [|done|done|congruence|by rewrite A4, Hq|done|].
  { constructor; cbn [bt_fsm bt_state bt_atcps bt_atcp bt_next bt_set_state].
    - by rewrite (bi_fsm_ok _ _ I), Es.
    - by apply (bi_nodup _ _ I).
    - intros i. destruct (decide (i ∈ bt_atcps b)) as [Hi|Hi].
      + destruct (G1 i Hi) as [[-> _]|[-> _]]; naive_solver.
      + rewrite A1 by done. apply (bi_dom _ _ I).
    - intros i Hi. rewrite A1; [by apply (bi_fresh _ _ I)|]. intros Hin.
      destruct (proj2 (bi_dom _ _ I i) (or_introl Hin)) as [p Hp]. rewrite (bi_fresh _ _ I) in Hp by done. done.
    - intros i Hi. destruct (decide (i ∈ bt_atcps b)) as [Hin|Hin]; [|by rewrite A2, Ht0].
      destruct (G1 i Hin) as [[E _]|[E _]]; congruence.
    - intros i p Hi Hp. destruct (G1 i Hi) as [[E ->]|[E ->]]; rewrite E in Hp; injection Hp as <-; constructor; [done|by right]. }
  rewrite E2. exists (w', b'). done.
Qed.

Lemma deliver_usock w b i t q : bind_inv (view w) b -> bt_state b = NN_BTCP_STATE_STOPPING_USOCK -> v_q (view w) = (i, t) :: q ->
  exists y, btcp_feed (take_event w) b (src_of i) t i = Ok y /\ bind_next (w, b) y.
Proof.
  intros I Es Hq. pose proof (bi_state_ok _ _ I) as Hst. unfold state_ok in Hst. rewrite Es in Hst.
  destruct Hst as (Hb & Hl & (q0 & Hq0 & He0) & Hs).
  unfold btcp_feed, nn_btcp_shutdown. rewrite (bi_fsm_ok _ _ I), Es. cbn [fsm_of]. decide_bools. cbn [negb].
  destruct i as [i|]; cbn [src_of]; decide_bools; cbn [andb].
  - destruct (told_rest _ _ _ _ Hq) as (Htj & Hti & Hen).
    destruct (v_ph (view w) !! i) as [p|] eqn:Hi; [|by rewrite (bi_quiet _ _ I i Hi) in Hti].
    destruct (who_is _ _ _ _ I Hi) as [(Hb' & _)|(Hin & _ & M)]; [congruence|].
    rewrite Es in M. inversion M as [? Hp Ht|? Hp Ht|? ? Hp Ht|? Hp Ht|[?|?] Hp Ht]; rewrite <- Ht in Hti; try done; injection Hti as <- Hti; subst p.
    destruct (ignored_next w b i q I) as [Ev N]; try done; [by rewrite Es|].
    unfold stopping_usock. rewrite ls_isidle_ok, Ev. cbn [v_ls]. rewrite Hl, bool_decide_eq_false_2 by done. cbn [negb].
    by exists (take_event w, b).
  - assert (q0 = []) as ->.
    { destruct q0 as [|e q0]; [done|]. rewrite Hq0 in Hq. injection Hq as -> _. by rewrite evs_cons, decide_True in He0 by done. }
    rewrite Hq0 in Hq. injection Hq as <- <-.
    pose proof (take_event_ok w _ _ Hq0) as Ev. cbn in Ev. rewrite bool_decide_eq_true_2 in Ev by done.
    assert (forall j, told (view w) j = []) as Ht0 by (intros j; unfold told; by rewrite Hq0).
    destruct (stopping_usock_ok (take_event w) b) as (y & E & I' & N & R); try (by rewrite Ev); try done.
    { destruct (bi_shape _ _ I) as [I1 I2 I3 I4 I5 I6]. rewrite Ev. constructor; try done.
      intros j p Hj Hp. specialize (I6 j p Hj Hp). by rewrite Ht0 in I6. }
    exists y. split; [done|]. unfold bind_next. cbn [fst snd]. split_and!; [done|by rewrite Es|].
    intros _. enough (rank (view (take_event w)) < rank (view w))%nat by lia.
    rewrite Ev. unfold rank. cbn [v_ph v_ls v_q]. rewrite Hq0, Hl. cbn [length app]. lia.
Qed.

(** The machine that waited has stopped: the listening socket is next. *)
Lemma waiter_gone w b i q : bind_inv (view w) b -> bt_state b = NN_BTCP_STATE_STOPPING_ATCP -> bt_atcp b = Some i ->
  v_ph (view w) !! i = Some AStopped -> v_ls (view w) = LListening -> v_q (view w) = (Some i, NN_ATCP_STOPPED) :: q -> evs q (Some i) = [] ->
  exists y, stopping_atcp (take_event w) b = Ok y /\ bind_next (w, b) y.
Proof.
  intros I Es Hb Hi Hl Hq Ht0.
  destruct (who_is _ _ _ _ I Hi) as [(_ & Hn & _ & Hev & Hs)|(_ & ? & _)]; [|done].
  pose proof (take_event_ok w _ _ Hq) as Ev. cbn in Ev. rewrite bool_decide_eq_true_2 in Ev by done.
  destruct (ac_free_ok (take_event w) i) as (w1 & E1 & V1); [rewrite Ev; apply lookup_insert_eq|].
  rewrite Ev in V1. cbn [v_ph v_ls v_q] in V1. rewrite delete_insert_eq in V1.
  destruct (bt_unlink_ok w1) as (w2 & E2 & V2). rewrite V1 in V2.
  destruct (ls_stop_ok w2) as (w3 & E3 & V3); [by rewrite V2|]. rewrite V2 in V3.
  unfold stopping_atcp. rewrite Hb. mred. rewrite (ac_isidle_ok (take_event w) i AIdle) by (rewrite Ev; apply lookup_insert_eq).
  rewrite bool_decide_eq_true_2 by done. mred. rewrite E1. mred. rewrite E2. mred. rewrite E3. mred.
  unfold stopping_usock. rewrite ls_isidle_ok, V3. cbn [v_ls set_ls tell]. rewrite bool_decide_eq_false_2 by done. cbn [negb].
  destruct (told_rest _ _ _ _ Hq) as (Htj & Hti & Hen).
  assert (forall j, told (view w3) j = evs q (Some j)) as Hto.
  { intros j. rewrite V3. unfold told. by rewrite evs_tell, decide_False by done. }
  assert (v_ph (view w3) = delete i (v_ph (view w))) as Hph by (by rewrite V3).
  eexists. split; [done|]. unfold bind_next. cbn [fst snd]. split_and!; [|by rewrite Es|].
  - constructor; [constructor|]; cbn [bt_fsm bt_state bt_atcps bt_atcp bt_next bt_set_state bt_set_atcp]; rewrite ?Hph.
    + by rewrite (bi_fsm_ok _ _ I), Es.
    + by apply (bi_nodup _ _ I).
    + intros j. destruct (decide (j = i)) as [->|Hj]; [rewrite lookup_delete_eq|rewrite lookup_delete_ne by done].
      * split; [by intros []|]. by intros [?|?].
      * rewrite (bi_dom _ _ I), Hb. naive_solver.
    + intros j Hj. apply lookup_delete_None. right. by apply (bi_fresh _ _ I).
    + intros j Hj. rewrite Hto. destruct (decide (j = i)) as [->|Hji]; [done|]. rewrite <- Htj by done.
      rewrite lookup_delete_ne in Hj by done. by apply (bi_quiet _ _ I).
    + intros j p Hj Hp. assert (j <> i) as Hji by congruence. rewrite lookup_delete_ne in Hp by done.
      pose proof (bi_members _ _ I j p Hj Hp) as M. rewrite Hto, <- Htj by done. rewrite Es in M.
      inversion M as [|?|? ?|?|[?|?]]; subst; try done; by constructor.
    + unfold state_ok. cbn. rewrite V3. split_and!; try done. exists q. split; [done|]. congruence.
  - intros _. rewrite V3, rank_tell. unfold rank. cbn [v_ph v_ls v_q set_ls]. rewrite Hq, Hl, (weights_delete _ _ _ Hi). cbn [length weight]. lia.
Qed.

Lemma deliver_atcp w b i t q : bind_inv (view w) b -> bt_state b = NN_BTCP_STATE_STOPPING_ATCP -> v_q (view w) = (i, t) :: q ->
  exists y, btcp_feed (take_event w) b (src_of i) t i = Ok y /\ bind_next (w, b) y.
Proof.
  intros I Es Hq. pose proof (bi_state_ok _ _ I) as Hst. unfold state_ok in Hst. rewrite Es in Hst.
  destruct Hst as (k & Hk & Hnk & Hw & Hev & Hs).
  destruct i as [i|]; [|rewrite Hq, evs_cons, decide_True in Hev by done; done].
  unfold btcp_feed, nn_btcp_shutdown. rewrite (bi_fsm_ok _ _ I), Es. cbn [fsm_of src_of]. decide_bools. cbn [negb andb].
  destruct (told_rest _ _ _ _ Hq) as (Htj & Hti & Hen).
  destruct (v_ph (view w) !! i) as [p|] eqn:Hi; [|by rewrite (bi_quiet _ _ I i Hi) in Hti].
  destruct (who_is _ _ _ _ I Hi) as [(Hb & Hn & Hwi & _)|(Hin & Hb & M)].
  - rewrite Es in Hwi. destruct Hwi as [? _ _ _|? _ _ _|_ _ _ Ht|_ Hp Hl Ht]; [done|done|congruence|].
    rewrite Ht in Hti. injection Hti as <- Hti. eapply waiter_gone; done.
  - rewrite Es in M. inversion M as [? Hp Ht|? Hp Ht|? ? Hp Ht|? Hp Ht|[?|?] Hp Ht]; rewrite <- Ht in Hti; try done; injection Hti as <- Hti; subst p.
    destruct (ignored_next w b i q I) as [Ev N]; try done; [by rewrite Es|].
    unfold stopping_atcp. rewrite Hk. mred.
    destruct Hw as [?|?|_ Hp _ _|_ Hp _ _]; try done; rewrite (ac_isidle_ok _ k _ ltac:(rewrite Ev; exact Hp)); rewrite bool_decide_eq_false_2 by done; cbn [negb];
      by exists (take_event w, b).
Qed.

Lemma deliver_atcps w b i t q : bind_inv (view w) b -> bt_state b = NN_BTCP_STATE_STOPPING_ATCPS -> v_q (view w) = (i, t) :: q ->
  exists y, btcp_feed (take_event w) b (src_of i) t i = Ok y /\ bind_next (w, b) y.
Proof.
  intros I Es Hq. pose proof (bi_state_ok _ _ I) as Hst. unfold state_ok in Hst. rewrite Es in Hst.
  destruct Hst as (Hb & Hl & Hev & Hn & Hs).
  destruct i as [i|]; [|rewrite Hq, evs_cons, decide_True in Hev by done; done].
  destruct (told_rest _ _ _ _ Hq) as (Htj & Hti & Hen).
  destruct (v_ph (view w) !! i) as [p|] eqn:Hi; [|by rewrite (bi_quiet _ _ I i Hi) in Hti].
  destruct (who_is _ _ _ _ I Hi) as [(Hb' & _)|(Hin & Hb' & M)]; [congruence|].
  rewrite Es in M. inversion M as [? Hp Ht|? Hp Ht|? ? Hp Ht|? Hp Ht|? Hp Ht]; rewrite <- Ht in Hti; try done; injection Hti as <- Hti; subst p.
  destruct (freed_next _ _ _ _ I Hin Hb' Hi Hq) as (w' & E1 & V1 & I1 & R1); [done|].
  unfold btcp_feed, nn_btcp_shutdown, erase. rewrite (bi_fsm_ok _ _ I), Es. cbn [fsm_of src_of]. decide_bools. mred. decide_bools. mred. rewrite E1. mred.
  destruct (atcps_stopping_ok w' (bt_set_atcps (filter (fun j => j <> i) (bt_atcps b)) b)) as (b' & E2 & I2 & N2);
    [done|done|done|by rewrite V1|rewrite V1; cbn [v_q]; congruence|done|].
  rewrite E2. exists (w', b'). split; [done|]. unfold bind_next. cbn [fst snd]. split_and!; [done|by rewrite Es|done].
Qed.

Lemma inv_deliver w b i t q : bind_inv (view w) b -> v_q (view w) = (i, t) :: q ->
  exists y, btcp_feed (take_event w) b (src_of i) t i = Ok y /\ bind_next (w, b) y.
Proof.
  intros I Hq. destruct (bt_state b) eqn:Es.
  - pose proof (bi_state_ok _ _ I) as Hst. unfold state_ok in Hst. rewrite Es in Hst. destruct Hst as (_ & _ & _ & Hn & _). congruence.
  - by eapply deliver_active.
  - by eapply deliver_atcp.
  - by eapply deliver_usock.
  - by eapply deliver_atcps.
Qed.

(** ** The stop, and the start *)

Lemma inv_stop w b : bind_inv (view w) b -> v_q (view w) = [] ->
  exists y, nn_btcp_stop (w, b) = Ok y /\ bind_inv (view y.1) y.2 /\ bt_state y.2 <> NN_BTCP_STATE_ACTIVE.
Proof.
  intros I Hq. unfold nn_btcp_stop. cbn [fst snd]. rewrite (bi_fsm_ok _ _ I).
  destruct (decide (bt_state b = NN_BTCP_STATE_ACTIVE)) as [Es|Es].
  2: { exists (w, b). split; [|done]. rewrite bool_decide_eq_false_2; [done|]. by destruct (bt_state b). }
  assert (forall j, told (view w) j = []) as Ht0 by (intros j; unfold told; by rewrite Hq).
  pose proof (bi_state_ok _ _ I) as Hst. unfold state_ok in Hst. rewrite Es in Hst |- *.
  destruct Hst as (i & Hb & Hn & Hw & Hev & Hs). destruct Hw as [_ Hi Hl Ht|_ _ _ Ht| |]; [|by rewrite Ht0 in Ht|done|done].
  destruct (ac_stop_ok w i) as (w' & E1 & S1); [naive_solver|].
  assert (view w' = set_ph i AStopping (view w)) as V1.
  { inversion S1 as [H1 E|H1|[H1|H1]|p H1 H2]; try congruence; subst. rewrite Hi in H1. injection H1 as <-. naive_solver. }
  unfold nn_btcp_shutdown, stopping_atcp. cbn [fsm_of]. decide_bools. mred. cbn [bt_atcp bt_set_fsm bt_set_state]. rewrite Hb. mred. rewrite E1. mred.
  rewrite (ac_isidle_ok w' i AStopping) by (rewrite V1; apply lookup_insert_eq). rewrite bool_decide_eq_false_2 by done. mred.
  eexists. split; [done|]. cbn [fst snd]. split; [|done].
  constructor; [constructor|]; cbn [bt_fsm bt_state bt_atcps bt_atcp bt_next bt_set_state bt_set_fsm]; rewrite ?V1; try done.
  - by apply (bi_nodup _ _ I).
  - intros j. cbn [v_ph set_ph]. destruct (decide (j = i)) as [->|Hj]; [rewrite lookup_insert_eq, Hb; naive_solver|].
    rewrite lookup_insert_ne by done. apply (bi_dom _ _ I).
  - intros j Hj. cbn [v_ph set_ph]. destruct (decide (j = i)) as [->|Hji]; [by rewrite (bi_fresh _ _ I) in Hi|].
    rewrite lookup_insert_ne by done. by apply (bi_fresh _ _ I).
  - intros j _. apply Ht0.
  - intros j p Hj Hp. cbn [v_ph set_ph] in Hp. rewrite lookup_insert_ne in Hp by congruence.
    pose proof (bi_members _ _ I j p Hj Hp) as M. rewrite Es in M. rewrite told_ph, Ht0 in *. inversion M; subst; try done. by constructor.
  - unfold state_ok. cbn [bt_fsm bt_state bt_atcps bt_atcp bt_next bt_stopped bt_set_state bt_set_fsm]. exists i. split_and!; try done.
    apply WStopping; [done|apply lookup_insert_eq|done|done].
Qed.

Lemma inv_create w x : view w = BView ∅ LIdle [] -> nn_btcp_create w = Ok (x, 0) -> bind_inv (view x.1) x.2 /\ bt_state x.2 = NN_BTCP_STATE_ACTIVE.
Proof.
  intros V. unfold nn_btcp_create, nn_btcp_handler, nn_btcp_listen. cbn [bt_state]. decide_bools. mred.
  destruct (ls_listen_ok w V) as (w1 & rc & E1 & D). rewrite E1. mred.
  destruct D as [Hrc|[-> V1]]; [rewrite bool_decide_eq_true_2 by done; intros E; injection E; lia|].
  rewrite bool_decide_eq_false_2 by lia. unfold nn_btcp_start_accepting. cbn [bt_atcp bt_next bt_set_state bt_set_fsm]. decide_bools. mred.
  pose proof (ac_new_ok w1 1) as En. rewrite V1 in En. specialize (En (lookup_empty _)).
  destruct (ac_start_ok (ac_new w1 1) 1) as (w2 & E2 & V2); [rewrite En; apply lookup_insert_eq|by rewrite En|]. rewrite En in V2. rewrite E2. mred.
  intros E. injection E as <-. cbn [fst snd]. split; [|done].
  assert (forall j, told (view w2) j = []) as Ht0 by (intros j; by rewrite V2).
  assert (v_ph (view w2) = {[1%positive := AAccepting]}) as Hph by (rewrite V2; cbn; by rewrite insert_insert_eq).
  constructor; [constructor|]; cbn [bt_fsm bt_state bt_atcps bt_atcp bt_next bt_set_state bt_set_fsm bt_set_next bt_set_atcp]; rewrite ?Hph; try done.
  - apply NoDup_nil_2.
  - intros j. destruct (decide (j = 1%positive)) as [->|Hj]; [rewrite lookup_singleton_eq; naive_solver|].
    rewrite lookup_singleton_ne by done. split; [by intros []|]. intros [Hj2|Hj2]; [by apply not_elem_of_nil in Hj2|congruence].
  - intros j Hj. apply lookup_singleton_ne. lia.
  - intros j p Hj. by apply not_elem_of_nil in Hj.
  - unfold state_ok. cbn. exists 1%positive. split_and!; [done|apply not_elem_of_nil| |by rewrite V2|done].
    apply WAccepting; [done|by rewrite Hph, lookup_singleton_eq|by rewrite V2|apply Ht0].
Qed.

(** ** The endpoint *)

(** Whatever the machines and the context do, the endpoint stops: until then
    an event is queued or a machine is on its way to stop. *)
Inductive comes_to_stop (x : W * nn_btcp) : Prop :=
  | StopNow : bt_stopped x.2 = 1%nat -> nn_btcp_destroy x = Ok tt -> comes_to_stop x
  | StopLater : v_q (view x.1) <> [] \/ (exists i, v_ph (view x.1) !! i = Some AStopping) ->
      (forall r, bind_move x r -> exists y, r = Ok y /\ comes_to_stop y) -> comes_to_stop x.

Lemma inv_move x r : bind_inv (view x.1) x.2 -> bind_move x r -> exists y, r = Ok y /\ bind_next x y.
Proof.
  destruct x as [w b]. cbn [fst snd]. intros I [w' Hh|i t q Hq].
  - exists (w', b). split; [done|]. destruct (inv_happens _ _ _ I Hh) as [I' R]. by split_and!.
  - by apply (inv_deliver w b i t q).
Qed.

Lemma inv_reach x y : bind_inv (view x.1) x.2 -> bind_reach x y -> bind_inv (view y.1) y.2.
Proof.
  intros I R. induction R as [|y z R IH S]; [done|].
  inversion S as [r M E|Hq E]; subst.
  - destruct (inv_move _ _ IH M) as (? & [= <-] & N & _). done.
  - destruct y as [w b]. destruct (inv_stop w b IH Hq) as (u & E1 & I1 & _). congruence.
Qed.

Lemma told_queued v i t l : told v i = t :: l -> v_q v <> [].
Proof. unfold told. intros Ht Hq. by rewrite Hq in Ht. Qed.

Lemma stopping_moves v b : bind_inv v b -> bt_state b <> NN_BTCP_STATE_ACTIVE -> bt_state b <> NN_BTCP_STATE_IDLE ->
  v_q v <> [] \/ exists i, v_ph v !! i = Some AStopping.
Proof.
  intros I Ha Hi. pose proof (bi_state_ok _ _ I) as Hst. unfold state_ok in Hst. destruct (bt_state b) eqn:Es; try done.
  - destruct Hst as (i & _ & _ & [| |_ Hp _ _|_ _ _ Ht] & _); try done; [naive_solver|left; by eapply told_queued].
  - destruct Hst as (_ & _ & (q & -> & _) & _). left. by destruct q.
  - destruct Hst as (_ & _ & _ & Hn & _). destruct (bt_atcps b) as [|i l] eqn:El; [done|].
    assert (i ∈ bt_atcps b) as Hin by (rewrite El; apply list_elem_of_here).
    destruct (proj2 (bi_dom _ _ I i) (or_introl Hin)) as [p Hp].
    pose proof (bi_members _ _ I i p Hin Hp) as M. rewrite Es in M. inversion M as [? Q|? Q|? ? Q|? Q Ht|? Q Ht]; subst; try done; [naive_solver|].
    left. by eapply told_queued.
Qed.

Lemma idle_destroy w b : bind_inv (view w) b -> bt_state b = NN_BTCP_STATE_IDLE -> bt_stopped b = 1%nat /\ nn_btcp_destroy (w, b) = Ok tt.
Proof.
  intros I Es. pose proof (bi_state_ok _ _ I) as Hst. unfold state_ok in Hst. rewrite Es in Hst. destruct Hst as (H1 & H2 & H3 & H4 & H5).
  split; [done|]. unfold nn_btcp_destroy. cbn [fst snd]. rewrite H1, H3, Es, (bi_fsm_ok _ _ I), Es. decide_bools. mred. by rewrite ls_term_ok.
Qed.

Lemma inv_comes n : forall x, (rank (view x.1) < n)%nat -> bind_inv (view x.1) x.2 -> bt_state x.2 <> NN_BTCP_STATE_ACTIVE -> comes_to_stop x.
Proof.
  induction n as [|n IH]; intros [w b] Hn I Es; [lia|]. cbn [fst snd] in *.
  destruct (decide (bt_state b = NN_BTCP_STATE_IDLE)) as [Ei|Ei].
  - destruct (idle_destroy w b I Ei). by apply StopNow.
  - apply StopLater; [by eapply stopping_moves|]. intros r M. destruct (inv_move (w, b) r I M) as (y & E & I' & [N1 N2] & R). cbn [fst snd] in *.
    exists y. split; [done|]. apply IH; [specialize (R Es); lia|done|naive_solver].
Qed.

(** C29. An endpoint that is bound, with machines and a listening socket that
    keep to their contract: no sequence of connections, failures, deliveries
    and a stop makes an assertion of it fail; until it is stopped a machine
    other than the accepted ones waits with the listening socket for the
    next connection, or was told of one; and whatever happens after the stop
    it comes to report that it has stopped, once, with all the machines
    freed, and its destruction succeeds. *)
Theorem bind_endpoint w x y :
  view w = BView ∅ LIdle [] -> nn_btcp_create w = Ok (x, 0) -> bind_reach x y ->
  (forall r, bind_step y r -> exists z, r = Ok z) /\
  (bt_fsm y.2 = NN_FSM_STATE_ACTIVE -> exists i, bt_atcp y.2 = Some i /\ i ∉ bt_atcps y.2 /\
    (v_ph (view y.1) !! i = Some AAccepting /\ v_ls (view y.1) = LLent i \/
     v_ph (view y.1) !! i = Some AActive /\ (Some i, NN_ATCP_ACCEPTED) ∈ v_q (view y.1))) /\
  (bt_fsm y.2 <> NN_FSM_STATE_ACTIVE -> comes_to_stop y) /\
  (v_q (view y.1) = [] -> exists z, nn_btcp_stop y = Ok z /\ comes_to_stop z).
Proof.
  intros V C R. destruct (inv_create w x V C) as [I0 _]. assert (I := inv_reach x y I0 R). destruct y as [w' b]. cbn [fst snd] in *.
  assert (v_q (view w') = [] -> exists z, nn_btcp_stop (w', b) = Ok z /\ comes_to_stop z) as Hstop.
  { intros Hq. destruct (inv_stop w' b I Hq) as (z & E & I' & N). exists z. split; [done|]. by apply (inv_comes (Datatypes.S (rank (view z.1)))); [lia|..]. }
  split_and!; [| | |done].
  - intros r [r' M|Hq]; [destruct (inv_move (w', b) r' I M) as (z & -> & _); by exists z|].
    destruct (Hstop Hq) as (z & E & _). by exists z.
  - rewrite (bi_fsm_ok _ _ I). intros Es. pose proof (bi_state_ok _ _ I) as Hst. unfold state_ok in Hst.
    destruct (bt_state b) eqn:Eb; try done. destruct Hst as (i & Hb & Hn & Hw & _). exists i. split_and!; [done|done|].
    destruct Hw as [_ Hp Hl Ht|_ Hp Hl Ht| |]; [naive_solver| |done|done]. right. split; [done|].
    assert (NN_ATCP_ACCEPTED ∈ told (view w') i) as Hin by (rewrite Ht; apply list_elem_of_here).
    unfold told, evs in Hin. apply list_elem_of_fmap in Hin as ([j t] & Et & [Ej Hin]%list_elem_of_filter). cbn in *. by subst.
  - intros Es. apply (inv_comes (Datatypes.S (rank (view w')))); cbn [fst snd]; [lia|done|]. intros Ea. apply Es. by rewrite (bi_fsm_ok _ _ I), Ea.
Qed.
End Runs.

(** ** A reference for the machines *)

(** Machines that do what the contract says and nothing else. *)
#[export] Instance reference_acceptors : Acceptors bview := {
  ac_new v i := set_ph i AIdle v;
  ac_start v i :=
    _ ← assert_ (bool_decide (v_ph v !! i = Some AIdle) && bool_decide (v_ls v = LListening));
    Ok (set_ls (LLent i) (set_ph i AAccepting v));
  ac_stop v i :=
    p ← deref (v_ph v !! i);
    Ok (match p with AAccepting | AActive => set_ph i AStopping v | AFailed => ac_stopped i v | _ => v end);
  ac_isidle v i := bool_decide (v_ph v !! i = Some AIdle);
  ac_free v i := _ ← assert_ (bool_decide (v_ph v !! i = Some AIdle)); Ok (BView (delete i (v_ph v)) (v_ls v) (v_q v));
  ls_stop v := _ ← assert_ (bool_decide (v_ls v = LListening)); Ok (tell None NN_USOCK_STOPPED (set_ls LStopped v));
  ls_isidle v := bool_decide (v_ls v = LIdle);
  ls_listen v := Ok (set_ls LListening v, 0);
  ls_term v := assert_ (bool_decide (v_ls v = LIdle));
  bt_unlink v := Ok v
}.

#[export] Instance reference_spec : AcceptorsSpec bview.
Proof.
  refine {| view := fun v => v; take_event := fun v => match v_q v with e :: q => taken e q v | [] => v end |}; cbn.
  - by intros v e q ->.
  - done.
  - intros v i -> ->. decide_bools. mred. by eexists.
  - intros v i [p Hp]. rewrite Hp. mred. eexists. split; [done|]. destruct p.
    + by eapply StopsNot; [|left].
    + by apply StopsAccepting.
    + by apply StopsLater.
    + apply StopsNow. by right.
    + eapply StopsNot; [done|]. right. by left.
    + eapply StopsNot; [done|]. by right; right.
  - intros v i p ->. apply bool_decide_ext. naive_solver.
  - intros v i ->. decide_bools. mred. by eexists.
  - intros v ->. decide_bools. mred. by eexists.
  - done.
  - intros v ->. exists (BView ∅ LListening []), 0. split; [done|]. by right.
  - intros v ->. by decide_bools.
  - by eexists.
Defined.

(** Two connections, one of which has failed and is gone. *)
Definition after_two : bview * nn_btcp :=
  (BView (<[3%positive := AAccepting]> {[2%positive := AActive]}) (LLent 3) [],
   Btcp NN_FSM_STATE_ACTIVE NN_BTCP_STATE_ACTIVE (Some 3%positive) [2%positive] 4 0).

(** Runs of the reference: a connection ([true]) or a failure of a machine,
    or a delivery. *)
Definition act (x : bview * nn_btcp) (a : option (aid * bool)) : option (bview * nn_btcp) :=
  let '(v, b) := x in
  match a with
  | Some (i, true) =>
      if decide (v_ph v !! i = Some AAccepting /\ v_ls v = LLent i) then Some (tell (Some i) NN_ATCP_ACCEPTED (set_ls LListening (set_ph i AActive v)), b) else None
  | Some (i, false) =>
      if decide (v_ph v !! i = Some AActive /\ v_ls v <> LStopped /\ evs (v_q v) (Some i) = []) then Some (tell (Some i) NN_ATCP_ERROR (set_ph i AFailed v), b) else None
  | None =>
      match v_q v with
      | (i, t) :: _ => match btcp_feed (take_event v) b (src_of i) t i with Ok y => Some y | _ => None end
      | [] => None
      end
  end.

Fixpoint acts (x : bview * nn_btcp) (l : list (option (aid * bool))) : option (bview * nn_btcp) :=
  match l with [] => Some x | a :: l => match act x a with Some x => acts x l | None => None end end.

Lemma act_step x a y : act x a = Some y -> bind_step x (Ok y).
Proof.
  destruct x as [v b], a as [[i []]|]; cbn [act].
  - case_decide as D; [|done]. intros [= <-]. destruct D. apply BMove, (BHappens (v, b) _). by apply HAccept.
  - case_decide as D; [|done]. intros [= <-]. destruct D as (? & ? & ?). apply BMove, (BHappens (v, b) _). by apply HError.
  - destruct (v_q v) as [|[i t] q] eqn:Hq; [done|].
    destruct (btcp_feed (take_event v) b (src_of i) t i) as [z|] eqn:E; [|done]. intros [= <-]. rewrite <- E.
    apply BMove. by apply (BDeliver (v, b) i t q).
Qed.

Lemma acts_reach x0 l : forall x y, bind_reach x0 x -> acts x l = Some y -> bind_reach x0 y.
Proof.
  induction l as [|a l IH]; cbn [acts]; intros x y R E; [by injection E as <-|].
  destruct (act x a) as [z|] eqn:Ea; [|done]. apply (IH z); [|done]. eapply BReachS; [done|by eapply act_step].
Qed.

Definition created : bview * nn_btcp :=
  (BView {[1%positive := AAccepting]} (LLent 1) [], Btcp NN_FSM_STATE_ACTIVE NN_BTCP_STATE_ACTIVE (Some 1%positive) [] 2 0).

Lemma reach_after_two : bind_reach created after_two.
Proof.
  apply (acts_reach _ [Some (1%positive, true); None; Some (2%positive, true); None; Some (1%positive, false); None; None] _ _ (BReach0 _)).
  reflexivity.
Qed.

Lemma bind_endpoint_witness :
  nn_btcp_create (BView ∅ LIdle []) = Ok (created, 0) /\ bind_reach created after_two /\
  exists z, nn_btcp_stop after_two = Ok z /\ comes_to_stop z.
Proof.
  split; [reflexivity|]. split; [exact reach_after_two|].
  apply (bind_endpoint (BView ∅ LIdle []) created after_two); [reflexivity|reflexivity|exact reach_after_two|reflexivity].
Defined.
