(* ===== verification/Endpoints.v ===== *)
(** * The endpoints of TCP, IPC and WebSocket

    The machines of the files [Connect], [Accept] and [Bind] with the sessions of
    [Stcp] and [Sws]: a class instance and the names of the source for each
    transport. *)

From S2P Require Import Prelude NNList Wire Timer Backoff Pipe Ctx Usock Streamhdr Stcp Wsparse Wshandshake Sws Addr Dns Sock Ep Connect Accept Bind.
Local Open Scope Z_scope.

(** ** TCP and IPC *)
Section Stream.
  Context `{Framing} {S : Type} (add : S -> cworld -> addr -> result (S * cworld * Z)) (rm : S -> cworld -> addr -> result (S * cworld)).
  Context (protocol : Z) (ispeer : Z -> bool) (rcvmaxsize : Z) (alloc : Z -> bool).

(** [src]: the source the owner gives the session. *)
Definition stream_session (src : Z) : Session S conn := {|
  se_new q u sys := Conn (Io q u sys) (nn_streamhdr_init NN_STCP_SRC_STREAMHDR) (nn_stcp_init src) [];
  se_io := c_io;
  se_set_io c x := Conn x (c_sh c) (c_st c) (c_told c);
  se_pipe := the_pipe;
  se_isidle c := nn_stcp_isidle (io_q (c_io c)) (c_st c);
  se_start := nn_stcp_start add rm protocol ispeer rcvmaxsize alloc;
  se_stop := nn_stcp_stop rm;
  se_term := nn_stcp_term;
  se_process := process_event add rm protocol ispeer rcvmaxsize alloc;
  se_timer w e :=
    if worker_pending (sh_timer (c_sh (cn w))) e then
      Some ('(x, h) ← Streamhdr.with_timer (c_io (cn w)) (c_sh (cn w)) (fun t => worker_feed t e); Ok (set_sh w x h))
    else None
|}.
End Stream.

(** The connecting and the accepting machine of TCP and of IPC. *)
Definition ctcp_connector : Connector := {| cn_tcp := true; cn_src_session := NN_CTCP_SRC_STCP; cn_error := NN_STCP_ERROR; cn_stopped := NN_STCP_STOPPED; cn_closed := None |}.
Definition cipc_connector : Connector := {| cn_tcp := false; cn_src_session := NN_CIPC_SRC_SIPC; cn_error := NN_STCP_ERROR; cn_stopped := NN_STCP_STOPPED; cn_closed := None |}.
Definition atcp_connector : Connector := {| cn_tcp := true; cn_src_session := NN_ATCP_SRC_STCP; cn_error := NN_STCP_ERROR; cn_stopped := NN_STCP_STOPPED; cn_closed := None |}.

(** ** WebSocket *)
Definition NN_CWS_SRC_SWS : Z := 4.
Definition NN_AWS_SRC_SWS : Z := 2.
Definition cws_connector : Connector := {| cn_tcp := true; cn_src_session := NN_CWS_SRC_SWS; cn_error := NN_SWS_RETURN_ERROR; cn_stopped := NN_SWS_RETURN_STOPPED; cn_closed := Some NN_SWS_RETURN_CLOSE_HANDSHAKE |}.
Definition aws_connector : Connector := {| cn_tcp := true; cn_src_session := NN_AWS_SRC_SWS; cn_error := NN_SWS_RETURN_ERROR; cn_stopped := NN_SWS_RETURN_STOPPED; cn_closed := Some NN_SWS_RETURN_CLOSE_HANDSHAKE |}.

Section Ws.
  Context (alloc : Z -> bool) {S : Type} (add : S -> wworld -> addr -> result (S * wworld * Z)) (rm : S -> wworld -> addr -> result (S * wworld)).
  Context (protocol : Z) (ispeer : Z -> bool) (rcvmaxsize : Z) (le : bool) (memory rand_key junk : bytes) (random : list bytes).

(** [mode], [resource], [host], [msg_type]: what the endpoint gives to
    [nn_sws_start]. *)
Definition ws_session (src mode : Z) (resource host : bytes) (msg_type : Z) : Session S wconn := {|
  se_new q u sys := WConn (Io q u sys) (nn_ws_handshake_init NN_SWS_SRC_HANDSHAKE) (nn_sws_init src junk random) [];
  se_io := wc_io;
  se_set_io c x := WConn x (wc_hs c) (wc_sws c) (wc_told c);
  se_pipe := ws_pipe;
  se_isidle c := nn_sws_isidle (io_q (wc_io c)) (wc_sws c);
  se_start s w := nn_sws_start alloc add rm protocol ispeer rcvmaxsize le memory rand_key s w mode resource host msg_type;
  se_stop := nn_sws_stop rm;
  se_term := nn_sws_term;
  se_process := ws_process_event alloc add rm protocol ispeer rcvmaxsize le memory rand_key;
  se_timer w e :=
    if worker_pending (hs_timer (wc_hs (wc w))) e then
      Some ('(x, h) ← hs_with_timer (wc_io (wc w)) (wc_hs (wc w)) (fun t => worker_feed t e); Ok (set_hs w x h))
    else None
|}.
End Ws.

(** ** The functions of IPC *)
Section Ipc.
  Context {S T : Type} `{Session S T} (inet_pton : Z -> bytes -> option bytes) (getaddrinfo : nn_dns_result).
#[local] Existing Instance cipc_connector.

Definition nn_cipc_start_connecting : S -> world T -> nn_ctcp -> option sockaddr -> result (S * world T * nn_ctcp) := nn_ctcp_start_connecting inet_pton.
Definition nn_cipc_handler : S -> world T -> nn_ctcp -> Z -> Z -> result (S * world T * nn_ctcp) := nn_ctcp_handler inet_pton getaddrinfo.
Definition nn_cipc_shutdown : S -> world T -> nn_ctcp -> Z -> Z -> result (S * world T * nn_ctcp) := nn_ctcp_shutdown.
Definition nn_cipc_stop : S * world T * nn_ctcp -> result (S * world T * nn_ctcp) := nn_ctcp_stop.
Definition nn_cipc_destroy : S * world T * nn_ctcp -> result unit := nn_ctcp_destroy.
Definition nn_cipc_create (s : S) (ep : nn_ep) : Z -> Z -> list reply -> world T -> result (S * world T * nn_ctcp) :=
  fun ivl ivl_max sys w => nn_ctcp_create inet_pton getaddrinfo s ep (Target None [] 0 [] []) ivl ivl_max sys false w.
End Ipc.

Section IpcAccept.
  Context {S T : Type} `{Session S T}.
#[local] Existing Instance atcp_connector.

Definition nn_aipc_init : Z -> nn_atcp := nn_atcp_init.
Definition nn_aipc_term : world T -> nn_atcp -> result unit := nn_atcp_term.
Definition nn_aipc_isidle : nn_ctx -> nn_atcp -> bool := nn_atcp_isidle.
Definition nn_aipc_handler : S -> world T -> nn_atcp -> nn_usock -> nn_ep -> Z -> Z -> result (S * world T * nn_atcp * nn_usock * nn_ep) := nn_atcp_handler.
Definition nn_aipc_shutdown : S -> world T -> nn_atcp -> nn_usock -> nn_ep -> Z -> Z -> result (S * world T * nn_atcp * nn_usock * nn_ep) := nn_atcp_shutdown.
Definition nn_aipc_start : S -> world T -> nn_atcp -> nn_usock -> nn_ep -> result (S * world T * nn_atcp * nn_usock * nn_ep) := nn_atcp_start.
Definition nn_aipc_stop : S * world T * nn_atcp * nn_usock * nn_ep -> result (S * world T * nn_atcp * nn_usock * nn_ep) := nn_atcp_stop.
End IpcAccept.

(** ** The functions of WebSocket *)
Section WsConnect.
  Context {S T : Type} `{Session S T} (inet_pton : Z -> bytes -> option bytes) (getaddrinfo : nn_dns_result).
#[local] Existing Instance cws_connector.

Definition nn_cws_start_resolving : S -> world T -> nn_ctcp -> result (S * world T * nn_ctcp) := nn_ctcp_start_resolving inet_pton getaddrinfo.
Definition nn_cws_start_connecting : S -> world T -> nn_ctcp -> option sockaddr -> result (S * world T * nn_ctcp) := nn_ctcp_start_connecting inet_pton.
Definition nn_cws_handler : S -> world T -> nn_ctcp -> Z -> Z -> result (S * world T * nn_ctcp) := nn_ctcp_handler inet_pton getaddrinfo.
Definition nn_cws_shutdown : S -> world T -> nn_ctcp -> Z -> Z -> result (S * world T * nn_ctcp) := nn_ctcp_shutdown.
Definition nn_cws_stop : S * world T * nn_ctcp -> result (S * world T * nn_ctcp) := nn_ctcp_stop.
Definition nn_cws_destroy : S * world T * nn_ctcp -> result unit := nn_ctcp_destroy.

(** The address, and the machines when it is accepted. *)
Definition nn_cws_create (s : S) (ep : nn_ep) (ivl ivl_max : Z) (sys : list reply) (garbage : bool) (w : world T) : result ((S * world T * nn_ctcp) + Z) :=
  match cws_address inet_pton (ep_addr ep) (negb (bool_decide (opt_ipv4only (ep_options ep) = 0))) with
  | inr rc => Ok (inr rc)
  | inl t => x ← nn_ctcp_create inet_pton getaddrinfo s ep t ivl ivl_max sys garbage w; Ok (inl x)
  end.
End WsConnect.

Section WsAccept.
  Context {S T : Type} `{Session S T}.
#[local] Existing Instance aws_connector.

Definition nn_aws_init : Z -> nn_atcp := nn_atcp_init.
Definition nn_aws_term : world T -> nn_atcp -> result unit := nn_atcp_term.
Definition nn_aws_isidle : nn_ctx -> nn_atcp -> bool := nn_atcp_isidle.
Definition nn_aws_handler : S -> world T -> nn_atcp -> nn_usock -> nn_ep -> Z -> Z -> result (S * world T * nn_atcp * nn_usock * nn_ep) := nn_atcp_handler.
Definition nn_aws_shutdown : S -> world T -> nn_atcp -> nn_usock -> nn_ep -> Z -> Z -> result (S * world T * nn_atcp * nn_usock * nn_ep) := nn_atcp_shutdown.
Definition nn_aws_start : S -> world T -> nn_atcp -> nn_usock -> nn_ep -> result (S * world T * nn_atcp * nn_usock * nn_ep) := nn_atcp_start.
Definition nn_aws_stop : S * world T * nn_atcp * nn_usock * nn_ep -> result (S * world T * nn_atcp * nn_usock * nn_ep) := nn_atcp_stop.
End WsAccept.

(** ** Bound endpoints

    The listening socket is opened as the source does it; a call that fails
    stops the socket that was started. *)
Definition io_listen (x : io) : result (io * Z) :=
  let '(r, x) := next_reply x in '(q, u, rc) ← nn_usock_listen (io_q x) (io_us x) r; Ok (Io q u (io_sys x), rc).

Definition open_listener (x : io) : result (io * Z) :=
  '(x, rc) ← io_start x;
  if bool_decide (rc < 0) then Ok (x, rc)
  else
    '(x, rc) ← io_bind x;
    if bool_decide (rc < 0) then x ← io_stop x; Ok (x, rc)
    else
      '(x, rc) ← io_listen x;
      if bool_decide (rc < 0) then x ← io_stop x; Ok (x, rc) else Ok (x, 0).

Section Listen.
  Context (inet_pton : Z -> bytes -> option bytes).

(** [nn_btcp_listen] up to the first accepting machine. *)
Definition btcp_open (addr : bytes) (ipv4only : bool) (x : io) : result (io * Z) :=
  match strrchr addr colon with
  | None => Ok (x, - EINVAL)
  | Some (iface, port) =>
      let rc := nn_port_resolve port in
      if bool_decide (rc <= 0) then Ok (x, rc)
      else match nn_iface_resolve inet_pton iface ipv4only with
           | None => Ok (x, - ENODEV)
           | Some ss => _ ← assert_ (bool_decide (ss_family ss = AF_INET) || bool_decide (ss_family ss = AF_INET6)); open_listener x
           end
  end.

Definition bws_open (addr : bytes) (ipv4only : bool) (x : io) : result (io * Z) :=
  match strrchr addr colon with
  | None => Err AssertFailed
  | Some (iface, port) =>
      let rc := nn_port_resolve port in
      if bool_decide (rc < 0) then Ok (x, rc)
      else match nn_iface_resolve inet_pton iface ipv4only with
           | None => Ok (x, - ENODEV)
           | Some ss => _ ← assert_ (bool_decide (ss_family ss = AF_INET) || bool_decide (ss_family ss = AF_INET6)); open_listener x
           end
  end.
End Listen.

Definition ENOENT : Z := 2.
Definition ECONNREFUSED : Z := 111.

Definition succeeded (r : reply) : bool := match r with Errno _ => false | _ => true end.
Definition failed_with (e : Z) (r : reply) : bool := match r with Errno e' => bool_decide (e' = e) | _ => false end.

(** The call of [unlink] on the file of the address. *)
Definition unlink_file (x : io) : result io :=
  let '(r, x) := next_reply x in _ ← assert_ (succeeded r || failed_with ENOENT r); Ok x.

(** A file that nobody listens on is removed: [socket], [fcntl], [connect],
    [unlink] and [close]. *)
Definition remove_stale (x : io) : result io :=
  let '(r, x) := next_reply x in
  if negb (succeeded r) then Ok x
  else
    let '(r, x) := next_reply x in
    _ ← assert_ (succeeded r || failed_with EINVAL r);
    let '(r, x) := next_reply x in
    x ← (if failed_with ECONNREFUSED r then unlink_file x else Ok x);
    let '(r, x) := next_reply x in
    _ ← assert_ (succeeded r); Ok x.

(** [nn_bipc_listen] up to the first accepting machine. *)
Definition bipc_open (addr : bytes) (x : io) : result (io * Z) :=
  _ ← assert_ (bool_decide (Z.of_nat (length addr) < sun_path_size));
  x ← remove_stale x;
  open_listener x.

Section BoundNames.
  Context {W : Type} `{Acceptors W}.

Definition nn_bipc_create : W -> result (W * nn_btcp * Z) := nn_btcp_create.
Definition nn_bipc_stop : W * nn_btcp -> result (W * nn_btcp) := nn_btcp_stop.
Definition nn_bipc_destroy : W * nn_btcp -> result unit := nn_btcp_destroy.
Definition nn_bipc_shutdown : W -> nn_btcp -> Z -> Z -> option aid -> result (W * nn_btcp) := nn_btcp_shutdown.
Definition nn_bipc_handler : W -> nn_btcp -> Z -> Z -> option aid -> result (W * nn_btcp) := nn_btcp_handler.
Definition nn_bipc_listen : W -> nn_btcp -> result (W * nn_btcp * Z) := nn_btcp_listen.
Definition nn_bipc_start_accepting : W -> nn_btcp -> result (W * nn_btcp) := nn_btcp_start_accepting.

Definition nn_bws_create : W -> result (W * nn_btcp * Z) := nn_btcp_create.
Definition nn_bws_stop : W * nn_btcp -> result (W * nn_btcp) := nn_btcp_stop.
Definition nn_bws_destroy : W * nn_btcp -> result unit := nn_btcp_destroy.
Definition nn_bws_shutdown : W -> nn_btcp -> Z -> Z -> option aid -> result (W * nn_btcp) := nn_btcp_shutdown.
Definition nn_bws_handler : W -> nn_btcp -> Z -> Z -> option aid -> result (W * nn_btcp) := nn_btcp_handler.
Definition nn_bws_listen : W -> nn_btcp -> result (W * nn_btcp * Z) := nn_btcp_listen.
Definition nn_bws_start_accepting : W -> nn_btcp -> result (W * nn_btcp) := nn_btcp_start_accepting.
End BoundNames.
