(* ===== verification/Endexamples.v ===== *)
(** * Endpoints in practice

    The machines of the file [Connect] with the sessions, sockets, timers and
    the resolver as they are: what an endpoint does when connecting fails,
    when the connection breaks and when it is stopped. *)

From S2P Require Import Prelude NNList Wire Timer Backoff Pipe Ctx Usock Streamhdr Stcp Wsparse Sws Addr Dns Sock Ep Connect Accept Bind Endpoints.
From Stdlib Require Strings.String.
Import String.StringSyntax.
Local Open Scope Z_scope.
#[local] Arguments text _%_string_scope.

Definition pipe_add (s : unit) (w : cworld) (p : addr) : result (unit * cworld * Z) := Ok (s, w, 0).
Definition pipe_rm (s : unit) (w : cworld) (p : addr) : result (unit * cworld) := Ok (s, w).

(** A PAIR socket over TCP that reads any dotted address as 10.0.0.1. *)
Definition pton (family : Z) (a : bytes) : option bytes := if bool_decide (family = AF_INET) then Some [10; 0; 0; 1] else None.
#[local] Instance tcp_pair : Session unit conn := @stream_session tcp_framing unit pipe_add pipe_rm 16 (Z.eqb 16) 1048576 (fun _ => true) NN_CTCP_SRC_STCP.
#[local] Existing Instance ctcp_connector.

Definition no_pipes : cworld := World (se_new [] (nn_usock_init CUsock 1 None) []) ∅ [] (fun _ => 0).
Definition an_ep (a : bytes) : nn_ep := Ep NN_FSM_STATE_IDLE NN_EP_STATE_ACTIVE 1 (EpOptions 8 8 1) a 0.
Definition the_target : target := Target None (text "10.0.0.1") 5555 [] [].

(** The replies of [socket], the two [setsockopt], [bind] and [connect]. *)
Definition refused : list reply := [Done 0; Done 0; Done 0; Done 0; Errno 111].
Definition accepted_later : list reply := [Done 0; Done 0; Done 0; Done 0; Errno EINPROGRESS].
Definition cannot_bind : list reply := [Done 0; Done 0; Done 0; Errno 98].

Definition tcp_run (sys : list reply) (os : list cep_op) : result (unit * cworld * nn_ctcp) :=
  x ← cep_create pton (inl 1) tt (an_ep []) the_target 100 1000 sys false no_pipes; cep_run pton (inl 1) os x.

(** One attempt after another: the timer is started, fires and is stopped. *)
Definition wait_over (sys : list reply) : list cep_op := [ERetry WStart []; ERetry WTimeout []; ERetry WStop sys].
Definition retries (x : result (unit * cworld * nn_ctcp)) : result (ctcp_state * Z * Z * Z) :=
  '(_, w, c) ← x;
  Ok (ct_state c, w_stats w NN_STAT_CONNECT_ERRORS, w_stats w NN_STAT_INPROGRESS_CONNECTIONS, w_stats w NN_STAT_CURRENT_EP_ERRORS).

(** Refused twice, then under way. *)
Example two_refusals : retries (tcp_run refused (wait_over refused ++ wait_over accepted_later)) = Ok (NN_CTCP_STATE_CONNECTING, 2, 1, 1).
Proof. vm_compute. reflexivity. Qed.

(** Connected: the header goes out, the peer's comes in, the pipe starts. *)
Definition pair_header : bytes := [0; 83; 80; 0; 0; 16; 0; 0].
Definition connects : list cep_op := [EWorker WTask []; EWorker (WOut (Done 0)) [Done 100]].
Definition headers_pass : list cep_op :=
  [ETimer WStart []; EArrive pair_header; EWorker WTask []; EWorker (WIn (Done 100)) []; ETimer WStop []].
Definition sees (x : result (unit * cworld * nn_ctcp)) : result (ctcp_state * stcp_state * bytes * bool) :=
  '(_, w, c) ← x; Ok (ct_state c, st_state (st w), os_tx (us_os (us w)), nn_stcp_isidle (io_q (c_io (cn w))) (st w)).

Example session_established :
  sees (tcp_run accepted_later (connects ++ headers_pass)) = Ok (NN_CTCP_STATE_ACTIVE, NN_STCP_STATE_ACTIVE, pair_header, false).
Proof. vm_compute. reflexivity. Qed.

(** The peer goes: the session ends, the socket is closed, the timer runs. *)
Definition breaks : list cep_op := [EWorker WTask []; EWorker (WIn Eof) []].
Example session_broken :
  (fun x => (x.1.1.1, x.2)) <$> sees (tcp_run accepted_later (connects ++ headers_pass ++ breaks)) = Ok (NN_CTCP_STATE_WAITING, true).
Proof. vm_compute. reflexivity. Qed.

(** Stopped in the middle of a session: everything is idle in the end. *)
Definition ends (x : result (unit * cworld * nn_ctcp)) : result (ctcp_state * nat * bool) :=
  x ← x; Ok (ct_state x.2, ct_stopped x.2, match nn_ctcp_destroy x with Ok _ => true | Err _ => false end).
Example session_stopped :
  ends (tcp_run accepted_later (connects ++ headers_pass ++ [EStop; EWorker WTask []; EWorker WTask []; EWorker WTask []])) = Ok (NN_CTCP_STATE_IDLE, 1%nat, true).
Proof. vm_compute. reflexivity. Qed.

(** ** What goes wrong

    When the local address cannot be bound the socket is left started: the
    next attempt starts it again, which an assertion forbids. *)
Example bind_failure_aborts : (fun _ => tt) <$> tcp_run cannot_bind (wait_over refused) = Err AssertFailed.
Proof. vm_compute. reflexivity. Qed.

(** An endpoint stopped while it connects stays counted among the connections
    in progress. *)
Example stopped_while_connecting :
  retries (tcp_run accepted_later [EWorker WTask []; EStop; EWorker WTask []]) = Ok (NN_CTCP_STATE_IDLE, 0, 1, 0).
Proof. vm_compute. reflexivity. Qed.

(** The bytes of a broken connection that were read ahead stay in the buffer
    of the socket: here two messages that arrived with the header.  They are
    taken for the header of the next connection, which the peer is then
    told to be broken. *)
Definition two_messages : bytes := [0; 0; 0; 0; 0; 0; 0; 1; 65] ++ [0; 0; 0; 0; 0; 0; 0; 1; 66].
Definition reads_ahead : list cep_op :=
  [ETimer WStart []; EArrive (pair_header ++ two_messages); EWorker WTask []; EWorker (WIn (Done 100)) []; ETimer WStop []; EWorker WErr []].
Definition reconnected : list cep_op := connects ++ headers_pass.
Example stale_bytes :
  (fun x => in_batch (us x.1.2)) <$> tcp_run accepted_later (connects ++ reads_ahead) = Ok [0; 0; 0; 0; 0; 0; 0; 1; 66].
Proof. vm_compute. reflexivity. Qed.
Example stale_bytes_break_the_next_connection :
  (fun x => x.1.1.1) <$> sees (tcp_run accepted_later (connects ++ reads_ahead ++ wait_over accepted_later ++ connects ++ [ETimer WStart []; ETimer WStop []; EWorker WTask []; EWorker WTask []]))
  = Ok NN_CTCP_STATE_WAITING.
Proof. vm_compute. reflexivity. Qed.
(** Without them the same steps end in a session. *)
Example no_stale_bytes :
  (fun x => (x.1.1.1, x.1.1.2)) <$> sees (tcp_run accepted_later (connects ++ headers_pass ++ breaks ++ wait_over accepted_later ++ connects ++ headers_pass)) = Ok (NN_CTCP_STATE_ACTIVE, NN_STCP_STATE_ACTIVE).
Proof. vm_compute. reflexivity. Qed.

(** The path of an IPC address may have 108 bytes and more until it is used. *)
Example long_path_aborts :
  (fun _ => tt) <$> @cep_create unit conn tcp_pair cipc_connector pton (inl 1) tt (an_ep (replicate 108 120)) (Target None [] 0 [] []) 100 1000 accepted_later false no_pipes = Err AssertFailed.
Proof. vm_compute. reflexivity. Qed.

(** [peer_gone] is set when a connection is established or closed by its peer,
    and read when the first attempt fails: if the memory was not zero, the
    endpoint never tries again. *)
Definition first_refused (c : Connector) (garbage : bool) : result (ctcp_state * bool) :=
  '(_, w, c) ← @cep_create unit conn tcp_pair c pton (inl 1) tt (an_ep []) (Target None (text "10.0.0.1") 80 (text "10.0.0.1") (text "/")) 100 1000 refused garbage no_pipes;
  Ok (ct_state c, nn_usock_isidle (io_q (c_io (cn w))) (us w)).
Example peer_gone_unset : first_refused cws_connector true = Ok (NN_CTCP_STATE_STOPPING_USOCK, true) /\ first_refused cws_connector false = Ok (NN_CTCP_STATE_WAITING, true).
Proof. split; vm_compute; reflexivity. Qed.

(** *** Addresses of WebSocket

    A colon in the path is taken for the one of the port, as is the last one of
    an IPv6 address without port. *)
Example colon_in_the_path : cws_address (fun _ _ => None) (text "example.com/a:80") true = inr (- EINVAL).
Proof. vm_compute. reflexivity. Qed.
Example literal_without_port : cws_address (fun _ _ => Some []) (text "[::1]/a") false = inr (- EINVAL).
Proof. vm_compute. reflexivity. Qed.
Example address_of_websocket :
  cws_address pton (text "*;example.com:8080/a?b") true = inl (Target (Some (text "*")) (text "example.com") 8080 (text "example.com:8080") (text "/a?b")).
Proof. vm_compute. reflexivity. Qed.

(** The file of an earlier run belongs to somebody else: [unlink] fails with
    EACCES, and [nn_bind] aborts. *)
Example stale_file_aborts :
  (fun _ => tt) <$> bipc_open [97] (Io [] (nn_usock_init CUsock 1 None) [Done 3; Done 0; Errno ECONNREFUSED; Errno 13]) = Err AssertFailed.
Proof. vm_compute. reflexivity. Qed.

(** The socket cannot be bound: the call fails and the socket is stopped. *)
Example bind_refused :
  (fun x : io * Z => (us_state (io_us x.1), x.2)) <$>
  btcp_open pton (text "*:5555") true (Io [] (nn_usock_init CUsock 1 None) [Done 3; Errno 98]) = Ok (NN_USOCK_STATE_IDLE, -98).
Proof. vm_compute. reflexivity. Qed.
