(* ===== verification/Message.v ===== *)
(** * Messages of the C API ([nn_sendmsg], [nn_recvmsg] in [core/global.c]; [devices/device.c])

    How the buffers and properties of the user become a message and how a
    message becomes them again, and the devices that pass messages from one
    socket to another with these calls.  What lies below, the descriptors and
    the sockets, is the class [SockApi]. *)

From S2P Require Import Prelude Wire Pipe Cmsg.
Local Open Scope Z_scope.

Definition NN_MSG : Z := 2 ^ 64 - 1.
Definition PROTO_SP : Z := 1.
Definition SP_HDR : Z := 1.
Definition EINTR : Z := 4.
Definition EBADF : Z := 9.
Definition EFAULT : Z := 14.
Definition EMSGSIZE : Z := 90.
Definition ETERM : Z := 156384765.
Definition sizeof_size_t : Z := 8.

(** A buffer of memory (or NULL) and the length the user gives for it, or,
    with the length NN_MSG, a place with the pointer of a whole message. *)
Inductive nn_iovec := Buffer (base : option bytes) (len : Z) | Whole (chunk : option bytes).

(** [msg_control]: NULL, a buffer with its length, or with NN_MSG the place
    of the pointer of a chunk. *)
Inductive nn_control := NoControl | ControlBuf (b : bytes) | ControlMsg (chunk : bytes).

(** [msg_iovlen] may be negative; otherwise it is the length of [msg_iov]. *)
Record nn_msghdr := MsgHdr { msg_iov : list nn_iovec; msg_negative : bool; msg_control : nn_control }.

(** ** Sending *)

(** The total size, or the error. *)
Fixpoint iov_size (sz : Z) (iov : list nn_iovec) : Z + Z :=
  match iov with
  | [] => inr sz
  | Whole _ :: _ => inl (- EINVAL)
  | Buffer base len :: iov =>
      if bool_decide (base = None) && negb (bool_decide (len = 0)) then inl (- EFAULT)
      else if bool_decide (u64 (sz + len) < sz) then inl (- EINVAL)
      else iov_size (u64 (sz + len)) iov
  end.

Fixpoint gather (iov : list nn_iovec) : result bytes :=
  match iov with
  | Buffer base len :: iov =>
      b ← (match base with Some d => slice d 0 (Z.to_nat len) | None => _ ← assert_ (bool_decide (len = 0)); Ok [] end);
      rest ← gather iov;
      Ok (b ++ rest)
  | _ => Ok []
  end.

(** [sphdr]: the body of the first SP_HDR property.  The fuel is that of a
    walk that advances; see [Cmsg.find_cmsg_endless] for one that does not. *)
Definition find_sphdr (ctrl : bytes) : result bytes :=
  first ← nn_cmsg_nxthdr_ ctrl None;
  found ← find_cmsg (length ctrl) ctrl PROTO_SP SP_HDR first;
  match found with
  | None => Ok []
  | Some off =>
      len ← cmsg_len ctrl off;
      let clen := u64 (len - NN_CMSG_SPACE 0) in
      if bool_decide (clen > sizeof_size_t) then
        b ← slice ctrl (NN_CMSG_DATA off) 8;
        let spsz := le_val b in
        if bool_decide (spsz <= clen - sizeof_size_t) then slice ctrl (NN_CMSG_DATA off + sizeof_size_t) (Z.to_nat spsz)
        else Ok []
      else Ok []
  end.

Definition control_bytes (c : nn_control) : option bytes :=
  match c with NoControl => None | ControlBuf b | ControlMsg b => Some b end.

(** The body, its size, and whether it is a chunk of the user. *)
Definition send_content (iov : list nn_iovec) : result (Z + bytes * Z * bool) :=
  match iov with
  | [Whole None] => Ok (inl (- EFAULT))
  | [Whole (Some chunk)] => Ok (inr (chunk, Z.of_nat (length chunk), true))
  | _ => match iov_size 0 iov with
         | inl rc => Ok (inl rc)
         | inr sz => b ← gather iov; Ok (inr (b, sz, false))
         end
  end.

(** The message, its size, and whether its body is a chunk of the user. *)
Definition build_msg (m : option nn_msghdr) : result (Z + nn_msg * Z * bool) :=
  match m with
  | None => Ok (inl (- EINVAL))
  | Some m =>
      if msg_negative m then Ok (inl (- EMSGSIZE))
      else
        content ← send_content (msg_iov m);
        match content with
        | inl rc => Ok (inl rc)
        | inr (b, sz, nnmsg) =>
            match control_bytes (msg_control m) with
            | None => Ok (inr (Msg [] [] b, sz, nnmsg))
            | Some ctrl => sp ← find_sphdr ctrl; Ok (inr (Msg sp ctrl b, sz, nnmsg))
            end
        end
  end.

(** ** Receiving *)

(** [memcpy] into a buffer. *)
Definition write (base : option bytes) (d : bytes) : result (option bytes) :=
  match base with
  | Some mem => _ ← (if bool_decide (length d <= length mem)%nat then Ok tt else Err BadAccess); Ok (Some (d ++ drop (length d) mem))
  | None => _ ← (if bool_decide (d = []) then Ok tt else Err BadAccess); Ok None
  end.

(** [None]: -EINVAL, and the message is gone. *)
Fixpoint scatter (iov : list nn_iovec) (data : bytes) : result (option (list nn_iovec)) :=
  match iov with
  | [] => Ok (Some [])
  | Whole _ :: _ => Ok None
  | Buffer base len :: iov =>
      if bool_decide (len > Z.of_nat (length data)) then base ← write base data; Ok (Some (Buffer base len :: iov))
      else
        base ← write base (take (Z.to_nat len) data);
        rest ← scatter iov (drop (Z.to_nat len) data);
        Ok (match rest with Some rest => Some (Buffer base len :: rest) | None => None end)
  end.

(** The SP_HDR property of a received message, without its padding. *)
Definition sp_property (sp : bytes) : bytes :=
  le_bytes 8 (NN_CMSG_SPACE (Z.of_nat (length sp) + sizeof_size_t)) ++ le_bytes 4 PROTO_SP ++ le_bytes 4 SP_HDR ++
  le_bytes 8 (Z.of_nat (length sp)) ++ sp.

(** [ctrl]: what the control area held. *)
Definition fill_control (m : nn_msg) (ctrl : bytes) : bytes :=
  let total := Z.to_nat (NN_CMSG_SPACE (Z.of_nat (length (sphdr m)) + sizeof_size_t)) in
  if bool_decide (length ctrl < total)%nat then ctrl
  else
    let p := sp_property (sphdr m) in
    let h := take (length ctrl - total) (hdrs m) in
    p ++ take (total - length p) (drop (length p) ctrl) ++ h ++ drop (total + length h) ctrl.

(** [junk n]: the contents of a fresh chunk. *)
Definition take_control (junk : nat -> bytes) (m : nn_msg) (c : nn_control) : nn_control :=
  match c with
  | NoControl => NoControl
  | ControlBuf b => ControlBuf (fill_control m b)
  | ControlMsg _ => ControlMsg (fill_control m (junk (Z.to_nat (NN_CMSG_SPACE (Z.of_nat (length (sphdr m)) + sizeof_size_t)) + length (hdrs m))%nat))
  end.

Definition recv_content (iov : list nn_iovec) (data : bytes) : result (option (list nn_iovec)) :=
  match iov with [Whole _] => Ok (Some [Whole (Some data)]) | _ => scatter iov data end.

Definition deliver_msg (junk : nat -> bytes) (m : nn_msg) (h : nn_msghdr) : result (Z + nn_msghdr * Z) :=
  content ← recv_content (msg_iov h) (body m);
  match content with
  | None => Ok (inl (- EINVAL))
  | Some iov => Ok (inr (MsgHdr iov false (take_control junk m (msg_control h)), Z.of_nat (length (body m))))
  end.

(** ** The calls

    A descriptor is held while it is used; [api_send] and [api_recv] are
    [nn_sock_send] and [nn_sock_recv], [api_stat] counts. *)
Class SockApi (X : Type) := {
  api_hold : X -> Z -> result (X * Z);
  api_rele : X -> Z -> result X;
  api_send : X -> Z -> nn_msg -> result (X * Z);
  api_recv : X -> Z -> result (X * Z * nn_msg);
  api_stat : X -> Z -> nn_stat -> Z -> result X
}.

(** [called rc e]: a call that returned [rc], and [errno] when that is -1. *)
Record called := Called { cl_rc : Z; cl_errno : Z }.

(** What the library did with the chunks of the user: on success it owns
    them; the chunk of properties is freed on failure too, that of the body
    is not. *)
Record taken := Taken { tk_body : bool; tk_control : bool }.
Definition nothing_taken : taken := Taken false false.
Definition control_chunk (m : option nn_msghdr) : bool :=
  match m with Some (MsgHdr _ _ (ControlMsg _)) => true | _ => false end.

Section Api.
  Context {X : Type} `{SockApi X} (junk : nat -> bytes).

Definition api_fail (x : X) (s rc : Z) : result (X * called) := x ← api_rele x s; Ok (x, Called (-1) (- rc)).

Definition nn_sendmsg (x : X) (s : Z) (m : option nn_msghdr) : result (X * called * taken) :=
  '(x, rc) ← api_hold x s;
  if bool_decide (rc < 0) then Ok (x, Called (-1) (- rc), nothing_taken)
  else
    built ← build_msg m;
    match built with
    | inl rc => '(x, c) ← api_fail x s rc; Ok (x, c, nothing_taken)
    | inr (msg, sz, nnmsg) =>
        '(x, rc) ← api_send x s msg;
        if bool_decide (rc < 0) then '(x, c) ← api_fail x s rc; Ok (x, c, Taken false (control_chunk m))
        else
          x ← api_stat x s NN_STAT_MESSAGES_SENT 1;
          x ← api_stat x s NN_STAT_BYTES_SENT sz;
          x ← api_rele x s;
          Ok (x, Called (to_int sz) 0, Taken nnmsg (control_chunk m))
    end.

Definition nn_recvmsg (x : X) (s : Z) (m : option nn_msghdr) : result (X * called * option nn_msghdr) :=
  '(x, rc) ← api_hold x s;
  if bool_decide (rc < 0) then Ok (x, Called (-1) (- rc), m)
  else match m with
  | None => '(x, c) ← api_fail x s (- EINVAL); Ok (x, c, m)
  | Some h =>
      if msg_negative h then '(x, c) ← api_fail x s (- EMSGSIZE); Ok (x, c, m)
      else
        '(x, rc, msg) ← api_recv x s;
        if bool_decide (rc < 0) then '(x, c) ← api_fail x s rc; Ok (x, c, m)
        else
          got ← deliver_msg junk msg h;
          match got with
          | inl rc => '(x, c) ← api_fail x s rc; Ok (x, c, m)
          | inr (h, sz) =>
              x ← api_stat x s NN_STAT_MESSAGES_RECEIVED 1;
              x ← api_stat x s NN_STAT_BYTES_RECEIVED sz;
              x ← api_rele x s;
              Ok (x, Called (to_int sz) 0, Some h)
          end
  end.

Definition nn_send (x : X) (s : Z) (buf : option bytes) (len : Z) : result (X * called * taken) :=
  nn_sendmsg x s (Some (MsgHdr [if bool_decide (len = NN_MSG) then Whole buf else Buffer buf len] false NoControl)).

Definition nn_recv (x : X) (s : Z) (buf : option bytes) (len : Z) : result (X * called * option nn_msghdr) :=
  nn_recvmsg x s (Some (MsgHdr [if bool_decide (len = NN_MSG) then Whole buf else Buffer buf len] false NoControl)).

(** ** Devices *)

Definition device_hdr : nn_msghdr := MsgHdr [Whole None] false (ControlMsg []).
Definition gone (c : called) : bool :=
  bool_decide (cl_rc c < 0) && (bool_decide (cl_errno c = ETERM) || bool_decide (cl_errno c = EBADF)).

(** [nn_device_rewritemsg] of the ordinary device: always forward. *)
Definition nn_device_rewritemsg (h : nn_msghdr) : Z := 1.

Definition nn_device_mvmsg (x : X) (from to : Z) : result (X * Z) :=
  '(x, c, h) ← nn_recvmsg x from (Some device_hdr);
  if gone c then Ok (x, -1)
  else
    _ ← assert_ (bool_decide (cl_rc c >= 0));
    h ← deref h;
    let rc := nn_device_rewritemsg h in
    if bool_decide (rc = -1) then Ok (x, -1)
    else if bool_decide (rc = 0) then Ok (x, 0)
    else
      _ ← assert_ (bool_decide (rc = 1));
      '(x, c, _) ← nn_sendmsg x to (Some h);
      if gone c then Ok (x, -1)
      else _ ← assert_ (bool_decide (cl_rc c >= 0)); Ok (x, 0).

(** What [nn_getsockopt] says of the two sockets of a device. *)
Record sock_info := SockInfo { si_domain : Z; si_protocol : Z; si_rcv : bool; si_snd : bool }.
Definition AF_SP_RAW : Z := 2.

Inductive route := Loopback (s : Z) | Twoway (s1 s2 : Z) | Oneway (from to : Z).

Definition nn_device_loopback (info : Z -> option sock_info) (s : Z) : route + Z :=
  match info s with
  | None => inr EBADF
  | Some i => if bool_decide (si_domain i <> AF_SP_RAW) then inr EINVAL else inl (Loopback s)
  end.

(** [nn_device_entry] with the checks of [nn_ordinary_device]: where the
    messages go, or [errno]. *)
Definition nn_device_entry (info : Z -> option sock_info) (s1 s2 : Z) : result (route + Z) :=
  if bool_decide (s1 < 0) && bool_decide (s2 < 0) then Ok (inr EBADF)
  else if bool_decide (s2 < 0) then Ok (nn_device_loopback info s1)
  else if bool_decide (s1 < 0) then Ok (nn_device_loopback info s2)
  else match info s1, info s2 with
  | Some i1, Some i2 =>
      if negb (bool_decide (si_domain i1 = AF_SP_RAW)) || negb (bool_decide (si_domain i2 = AF_SP_RAW)) then Ok (inr EINVAL)
      else if negb (bool_decide (si_protocol i1 / 16 = si_protocol i2 / 16)) then Ok (inr EINVAL)
      else if si_rcv i1 && negb (si_snd i2) then Ok (inr EINVAL)
      else if si_snd i1 && negb (si_rcv i2) then Ok (inr EINVAL)
      else if si_rcv i2 && negb (si_snd i1) then Ok (inr EINVAL)
      else if si_snd i2 && negb (si_rcv i1) then Ok (inr EINVAL)
      else if si_rcv i1 && si_snd i1 && si_rcv i2 && si_snd i2 then Ok (inl (Twoway s1 s2))
      else if si_rcv i1 && negb (si_snd i1) && negb (si_rcv i2) && si_snd i2 then Ok (inl (Oneway s1 s2))
      else if negb (si_rcv i1) && si_snd i1 && si_rcv i2 && negb (si_snd i2) then Ok (inl (Oneway s2 s1))
      else Err AssertFailed
  | _, _ => Ok (inr EBADF)
  end.

(** The endless loop of [nn_device_oneway], [nn_device_loopback] and of each
    thread of [nn_device_twoway], for as many messages as the fuel says. *)
Fixpoint nn_device_oneway (fuel : nat) (x : X) (s1 s2 : Z) : result (X * Z) :=
  match fuel with
  | O => Ok (x, 0)
  | S fuel => '(x, rc) ← nn_device_mvmsg x s1 s2; if bool_decide (rc < 0) then Ok (x, -1) else nn_device_oneway fuel x s1 s2
  end.
End Api.

(** ** Scatter and gather *)

Definition buffers (ds : list bytes) : list nn_iovec := (fun d => Buffer (Some d) (Z.of_nat (length d))) <$> ds.

Lemma iov_size_buffers ds : forall sz, 0 <= sz -> sz + Z.of_nat (length (concat ds)) < 2 ^ 64 ->
  iov_size sz (buffers ds) = inr (sz + Z.of_nat (length (concat ds))).
Proof.
  induction ds as [|d ds IH]; intros sz H0 Hs; cbn [buffers fmap list_fmap iov_size concat length]; [f_equal; lia|].
  cbn [concat] in Hs. rewrite length_app in *. rewrite bool_decide_eq_false_2 by done. cbn [andb].
  rewrite wrap_small by (unfold in_range; lia). rewrite bool_decide_eq_false_2 by lia. fold (buffers ds). rewrite IH by lia. f_equal. lia.
Qed.

Lemma slice_all d : slice d 0 (length d) = Ok d.
Proof. rewrite <- (app_nil_l d) at 1. rewrite slice_app by (cbn; lia). by rewrite firstn_all. Qed.

Lemma gather_buffers ds : gather (buffers ds) = Ok (concat ds).
Proof.
  induction ds as [|d ds IH]; [done|]. cbn [buffers fmap list_fmap gather]. rewrite Nat2Z.id, slice_all. mred.
  fold (buffers ds). by rewrite IH.
Qed.

(** Memory after a copy of [d] to its beginning. *)
Definition overwrite (mem d : bytes) : bytes := d ++ drop (length d) mem.

Lemma scatter_buffers ds : forall data, exists ds', scatter (buffers ds) data = Ok (Some (buffers ds')) /\
  length <$> ds' = length <$> ds /\ concat ds' = overwrite (concat ds) (take (length (concat ds)) data).
Proof.
  induction ds as [|d ds IH]; intros data; [by exists []|].
  cbn [buffers fmap list_fmap scatter concat]. rewrite Nat2Z.id. unfold overwrite. rewrite length_app.
  destruct (decide (length data < length d)%nat) as [Hlt|Hge].
  - rewrite bool_decide_eq_true_2 by lia. unfold write. rewrite bool_decide_eq_true_2 by lia. mred.
    exists ((data ++ drop (length data) d) :: ds). assert (length (data ++ drop (length data) d) = length d) as El by (rewrite length_app, length_drop; lia).
    split_and!.
    + cbn [buffers fmap list_fmap]. by rewrite El.
    + cbn. by rewrite El.
    + cbn [concat]. rewrite take_ge by lia. rewrite drop_app_le by lia. by rewrite app_assoc.
  - rewrite bool_decide_eq_false_2 by lia. unfold write. assert (length (take (length d) data) = length d) as El by (rewrite length_take; lia).
    rewrite El, bool_decide_eq_true_2 by lia. mred. fold (buffers ds).
    destruct (IH (drop (length d) data)) as (ds' & E & Hl & Hc). rewrite E. mred.
    exists ((take (length d) data ++ drop (length d) d) :: ds'). rewrite drop_all, app_nil_r.
    split_and!.
    + cbn [buffers fmap list_fmap]. by rewrite El.
    + cbn [fmap list_fmap]. by rewrite El, Hl.
    + cbn [concat]. rewrite Hc. unfold overwrite. rewrite <- (take_take_drop data (length d) (length (concat ds))).
      rewrite length_app, El. rewrite <- app_assoc. f_equal. f_equal. rewrite length_take, length_drop.
      rewrite drop_app_ge by lia. f_equal. lia.
Qed.

(** C33. [nn_sendmsg] sends the concatenation of the buffers it is given, none of
    which is empty, and [nn_recvmsg] fills the buffers it is given, in order and each up to its
    size, with the message received, leaves the memory behind it alone, and
    computes the size of the whole message (which the call returns as an [int]). *)
Theorem scatter_gather junk ds ds0 m :
  Forall (fun d => d <> []) ds -> Z.of_nat (length (concat ds)) < 2 ^ 64 ->
  build_msg (Some (MsgHdr (buffers ds) false NoControl)) = Ok (inr (Msg [] [] (concat ds), Z.of_nat (length (concat ds)), false)) /\
  exists ds', deliver_msg junk m (MsgHdr (buffers ds0) false NoControl) = Ok (inr (MsgHdr (buffers ds') false NoControl, Z.of_nat (length (body m)))) /\
    length <$> ds' = length <$> ds0 /\ concat ds' = overwrite (concat ds0) (take (length (concat ds0)) (body m)).
Proof.
  intros _ Hs. split.
  - unfold build_msg. cbn [msg_negative msg_iov msg_control control_bytes].
    assert (send_content (buffers ds) = Ok (inr (concat ds, Z.of_nat (length (concat ds)), false))) as ->; [|done].
    transitivity (match iov_size 0 (buffers ds) with inl rc => Ok (inl rc) | inr sz => b ← gather (buffers ds); Ok (inr (b, sz, false)) end : result (Z + bytes * Z * bool)).
    + destruct ds as [|d [|d' ds]]; done.
    + rewrite iov_size_buffers by lia. rewrite gather_buffers. done.
  - destruct (scatter_buffers ds0 (body m)) as (ds' & E & Hl & Hc). exists ds'. split_and!; [|done|done].
    unfold deliver_msg. cbn [msg_iov msg_control take_control].
    assert (recv_content (buffers ds0) (body m) = Ok (Some (buffers ds'))) as ->; [|done].
    rewrite <- E. destruct ds0 as [|d [|d' ds0]]; done.
Qed.

(** ** The SP_HDR property *)

(** The size of the property of a header of [n] bytes. *)
Definition sp_total (n : nat) : nat := (16 + (n + 8 + 7) / 8 * 8)%nat.

Lemma space_total n : Z.of_nat n < 2 ^ 32 -> NN_CMSG_SPACE (Z.of_nat n + sizeof_size_t) = Z.of_nat (sp_total n).
Proof.
  intros Hn. unfold NN_CMSG_SPACE, sizeof_size_t, sizeof_cmsghdr, sp_total. change (NN_CMSG_ALIGN_ 16) with 16. rewrite align_spec by lia.
  rewrite Nat2Z.inj_add, Nat2Z.inj_mul, Nat2Z.inj_div, !Nat2Z.inj_add. change (Z.of_nat 8) with 8. change (Z.of_nat 7) with 7. change (Z.of_nat 16) with 16.
  rewrite wrap_small; [lia|]. unfold in_range. pose proof (Z.div_mod (Z.of_nat n + 8 + 7) 8). pose proof (Z.mod_pos_bound (Z.of_nat n + 8 + 7) 8). lia.
Qed.

Lemma total_bounds n : (24 + n <= sp_total n <= 31 + n)%nat.
Proof. unfold sp_total. pose proof (Nat.div_mod_eq (n + 8 + 7) 8). pose proof (Nat.mod_upper_bound (n + 8 + 7) 8). lia. Qed.

Lemma sp_property_length sp : length (sp_property sp) = (24 + length sp)%nat.
Proof. unfold sp_property. rewrite !length_app, !le_bytes_length. lia. Qed.

Lemma slice_mid a b c off n : Z.of_nat (length a) = off -> length b = n -> slice (a ++ b ++ c) off n = Ok b.
Proof. intros <- <-. rewrite slice_app by (rewrite ?length_app; lia). by rewrite take_app_length. Qed.

Lemma find_sphdr_property sp pad rest : Z.of_nat (length sp + length rest) < 2 ^ 32 -> (length sp + length pad + 24 = sp_total (length sp))%nat ->
  find_sphdr (sp_property sp ++ pad ++ rest) = Ok sp.
Proof.
  intros Hn Hp. pose proof (total_bounds (length sp)) as Hb. set (total := Z.of_nat (sp_total (length sp))).
  assert (Ha : NN_CMSG_ALIGN_ total = total).
  { rewrite align_spec by (unfold total; lia). unfold total, sp_total. rewrite Nat2Z.inj_add, Nat2Z.inj_mul. change (Z.of_nat 16) with 16. change (Z.of_nat 8) with 8.
    replace (16 + Z.of_nat ((length sp + 8 + 7) / 8) * 8 + 7) with (7 + (2 + Z.of_nat ((length sp + 8 + 7) / 8)) * 8) by lia.
    rewrite Z.div_add by lia. change (7 / 8) with 0. lia. }
  unfold sp_property. rewrite space_total by lia. fold total. rewrite <- !app_assoc.
  set (ctrl := le_bytes 8 total ++ le_bytes 4 PROTO_SP ++ le_bytes 4 SP_HDR ++ le_bytes 8 (Z.of_nat (length sp)) ++ sp ++ pad ++ rest).
  assert (Hlen : length ctrl = (24 + length sp + length pad + length rest)%nat) by (unfold ctrl; rewrite !length_app, !le_bytes_length; lia).
  assert (E1 : cmsg_len ctrl 0 = Ok total).
  { unfold cmsg_len. replace (slice ctrl 0 8) with (Ok (le_bytes 8 total)) by (symmetry; by apply (slice_mid []); [|apply le_bytes_length]). mred. f_equal. apply le_round. unfold total. change (256 ^ Z.of_nat 8) with (2 ^ 64). lia. }
  assert (E2 : cmsg_level ctrl 0 = Ok PROTO_SP).
  { unfold cmsg_level, ctrl. rewrite (slice_mid (le_bytes 8 total) (le_bytes 4 PROTO_SP)) by (rewrite ?le_bytes_length; done). mred. by rewrite int_round by (unfold PROTO_SP, SP_HDR; lia). }
  assert (E3 : cmsg_type ctrl 0 = Ok SP_HDR).
  { unfold cmsg_type, ctrl. rewrite (app_assoc (le_bytes 8 total)). rewrite slice_mid by (rewrite ?length_app, ?le_bytes_length; done). mred. by rewrite int_round by (unfold PROTO_SP, SP_HDR; lia). }
  assert (E4 : slice ctrl 16 8 = Ok (le_bytes 8 (Z.of_nat (length sp)))).
  { unfold ctrl. rewrite (app_assoc (le_bytes 8 total)), (app_assoc (le_bytes 8 total ++ _)). by rewrite slice_mid by (rewrite ?length_app, ?le_bytes_length; done). }
  assert (E5 : slice ctrl 24 (length sp) = Ok sp).
  { unfold ctrl. rewrite (app_assoc (le_bytes 8 total)), (app_assoc (le_bytes 8 total ++ _)), (app_assoc ((le_bytes 8 total ++ _) ++ _)).
    by rewrite slice_mid by (rewrite ?length_app, ?le_bytes_length; done). }
  clearbody ctrl. unfold find_sphdr, nn_cmsg_nxthdr_. change (NN_CMSG_SPACE 0) with 16.
  rewrite (proj2 (Z.ltb_ge _ _)) by lia. mred. change (u64 (0 + 16)) with 16. rewrite (proj2 (Z.ltb_ge _ _)) by lia.
  rewrite E1. mred. rewrite Ha, wrap_small by (unfold in_range, total; lia). rewrite (proj2 (Z.ltb_ge _ _)) by (unfold total; lia). mred.
  destruct (length ctrl) as [|n] eqn:El; [lia|]. cbn [find_cmsg]. rewrite E2, E3. mred. change (PROTO_SP =? PROTO_SP) with true. change (SP_HDR =? SP_HDR) with true. mred.
  rewrite E1. mred. rewrite wrap_small by (unfold in_range, total; lia). unfold sizeof_size_t, NN_CMSG_DATA, sizeof_cmsghdr. change (0 + 16) with 16. change (16 + 8) with 24.
  destruct sp as [|b sp].
  - rewrite bool_decide_eq_false_2; [done|]. unfold total. change (Z.of_nat (sp_total (length []))) with 24. lia.
  - assert (25 <= sp_total (length (b :: sp)))%nat as Hb2 by (cbn [length] in *; lia).
    assert (32 <= sp_total (length (b :: sp)))%nat as Hb3.
    { unfold sp_total in *. pose proof (Nat.div_mod_eq (length (b :: sp) + 8 + 7) 8). pose proof (Nat.mod_upper_bound (length (b :: sp) + 8 + 7) 8). cbn [length] in *. lia. }
    rewrite bool_decide_eq_true_2 by (unfold total; lia). rewrite E4. mred.
    rewrite le_round by (change (256 ^ Z.of_nat 8) with (2 ^ 64); lia). rewrite bool_decide_eq_true_2 by (unfold total; lia).
    rewrite Nat2Z.id. exact E5.
Qed.

Lemma fill_control_fresh m g : Z.of_nat (length (sphdr m)) < 2 ^ 32 -> length g = (sp_total (length (sphdr m)) + length (hdrs m))%nat ->
  exists pad, fill_control m g = sp_property (sphdr m) ++ pad ++ hdrs m /\ (length (sphdr m) + length pad + 24 = sp_total (length (sphdr m)))%nat.
Proof.
  intros Hn Hg. pose proof (total_bounds (length (sphdr m))) as Hb. unfold fill_control. rewrite space_total, Nat2Z.id by done.
  rewrite bool_decide_eq_false_2 by lia. rewrite sp_property_length.
  rewrite (take_ge (hdrs m)) by lia. rewrite (drop_ge _ (_ + length (hdrs m))%nat) by lia. rewrite app_nil_r.
  eexists. split; [done|]. rewrite length_take, length_drop. lia.
Qed.

(** What a message becomes that is received and sent again whole: the header
    and the body are the same, and the properties follow the header's own. *)
Definition forwarded (m m' : nn_msg) : Prop :=
  sphdr m' = sphdr m /\ body m' = body m /\ exists pre, hdrs m' = pre ++ hdrs m.

Definition small_msg (m : nn_msg) : Prop := Z.of_nat (length (sphdr m) + length (hdrs m)) < 2 ^ 32 /\ Z.of_nat (length (body m)) < 2 ^ 31.

Lemma receive_and_send junk m : (forall n, length (junk n) = n) -> small_msg m ->
  exists h, deliver_msg junk m device_hdr = Ok (inr (h, Z.of_nat (length (body m)))) /\
  exists m', build_msg (Some h) = Ok (inr (m', Z.of_nat (length (body m)), true)) /\ forwarded m m'.
Proof.
  intros Hj [Hs Hb]. unfold deliver_msg, device_hdr. cbn [msg_iov recv_content msg_control take_control]. mred. eexists. split; [done|].
  unfold build_msg. cbn [msg_negative msg_iov send_content msg_control control_bytes]. mred.
  rewrite space_total, Nat2Z.id by lia.
  destruct (fill_control_fresh m (junk (sp_total (length (sphdr m)) + length (hdrs m))%nat)) as (pad & -> & Hp); [lia|apply Hj|].
  rewrite find_sphdr_property by (try done; lia). mred. eexists. split; [done|]. split_and!; [done|done|]. cbn [hdrs].
  exists (sp_property (sphdr m) ++ pad). by rewrite app_assoc.
Qed.

(** ** Devices forward everything *)

(** What a device sees of its sockets while nobody else uses them: the
    messages that arrive before the socket is closed, and those sent.  The
    end of [from]'s queue is the closing of the socket; [to] takes what it is
    given. *)
Class SockApiSpec (X : Type) `{SockApi X} := {
  inbox : X -> Z -> list nn_msg;
  outbox : X -> Z -> list nn_msg;
  same_boxes x y := (forall s, inbox y s = inbox x s) /\ (forall s, outbox y s = outbox x s);
  hold_ok x s : exists y, api_hold x s = Ok (y, 0) /\ same_boxes x y;
  rele_ok x s : exists y, api_rele x s = Ok y /\ same_boxes x y;
  stat_ok x s name n : 0 < n \/ name = NN_STAT_BYTES_SENT /\ 0 <= n \/ name = NN_STAT_BYTES_RECEIVED /\ 0 <= n ->
    exists y, api_stat x s name n = Ok y /\ same_boxes x y;
  recv_some x s m q : inbox x s = m :: q ->
    exists y, api_recv x s = Ok (y, 0, m) /\ inbox y s = q /\ (forall s', s' <> s -> inbox y s' = inbox x s') /\ (forall s, outbox y s = outbox x s);
  recv_none x s : inbox x s = [] -> exists y m, api_recv x s = Ok (y, - EBADF, m) /\ same_boxes x y;
  send_ok x s m : exists y, api_send x s m = Ok (y, 0) /\ (forall s, inbox y s = inbox x s) /\ outbox y s = outbox x s ++ [m] /\
    (forall s', s' <> s -> outbox y s' = outbox x s')
}.

Section Device.
  Context {X : Type} `{SockApiSpec X} (junk : nat -> bytes) (Hjunk : forall n, length (junk n) = n).

Lemma mvmsg_some x s1 s2 m q : inbox x s1 = m :: q -> small_msg m ->
  exists y m', nn_device_mvmsg junk x s1 s2 = Ok (y, 0) /\ forwarded m m' /\ inbox y s1 = q /\ outbox y s2 = outbox x s2 ++ [m'].
Proof.
  intros Hq Hm. destruct (receive_and_send junk m Hjunk Hm) as (h & Eh & m' & Eb & F).
  assert (to_int (Z.of_nat (length (body m))) = Z.of_nat (length (body m))) as Eint.
  { unfold to_int. rewrite wrap_small by (unfold in_range; destruct Hm; lia). rewrite bool_decide_eq_true_2 by (destruct Hm; lia). done. }
  unfold nn_device_mvmsg, nn_recvmsg.
  destruct (hold_ok x s1) as (x1 & -> & Hi1 & Ho1). mred. decide_bools. cbn [msg_negative device_hdr].
  destruct (recv_some x1 s1 m q) as (x2 & -> & Hi2 & _ & Ho2); [by rewrite Hi1|]. mred. decide_bools. fold device_hdr. rewrite Eh. mred.
  destruct (stat_ok x2 s1 NN_STAT_MESSAGES_RECEIVED 1) as (x3 & -> & Hi3 & Ho3); [by left|]. mred.
  destruct (stat_ok x3 s1 NN_STAT_BYTES_RECEIVED (Z.of_nat (length (body m)))) as (x4 & -> & Hi4 & Ho4); [right; right; split; [done|lia]|]. mred.
  destruct (rele_ok x4 s1) as (x5 & -> & Hi5 & Ho5). mred. rewrite Eint. unfold gone. cbn [cl_rc cl_errno]. decide_bools. mred. unfold nn_device_rewritemsg. decide_bools. mred.
  unfold nn_sendmsg. destruct (hold_ok x5 s2) as (x6 & -> & Hi6 & Ho6). mred. decide_bools. rewrite Eb. mred.
  destruct (send_ok x6 s2 m') as (x7 & -> & Hi7 & Ho7 & _). mred. decide_bools.
  destruct (stat_ok x7 s2 NN_STAT_MESSAGES_SENT 1) as (x8 & -> & Hi8 & Ho8); [by left|]. mred.
  destruct (stat_ok x8 s2 NN_STAT_BYTES_SENT (Z.of_nat (length (body m)))) as (x9 & -> & Hi9 & Ho9); [right; left; split; [done|lia]|]. mred.
  destruct (rele_ok x9 s2) as (y & -> & Hi10 & Ho10). mred. rewrite Eint. cbn [cl_rc]. decide_bools. mred.
  exists y, m'. split_and!; [done|done| |].
  - by rewrite Hi10, Hi9, Hi8, Hi7, Hi6, Hi5, Hi4, Hi3.
  - by rewrite Ho10, Ho9, Ho8, Ho7, Ho6, Ho5, Ho4, Ho3, Ho2, Ho1.
Qed.

Lemma mvmsg_none x s1 s2 : inbox x s1 = [] -> exists y, nn_device_mvmsg junk x s1 s2 = Ok (y, -1) /\ same_boxes x y.
Proof.
  intros Hq. unfold nn_device_mvmsg, nn_recvmsg.
  destruct (hold_ok x s1) as (x1 & -> & Hi1 & Ho1). mred. decide_bools. cbn [msg_negative device_hdr].
  destruct (recv_none x1 s1) as (x2 & m & -> & Hi2 & Ho2); [by rewrite Hi1|]. mred. decide_bools. unfold api_fail.
  destruct (rele_ok x2 s1) as (y & -> & Hi3 & Ho3). mred. unfold gone. cbn [cl_rc cl_errno]. decide_bools. mred.
  exists y. split; [done|]. split; intros s; [by rewrite Hi3, Hi2, Hi1|by rewrite Ho3, Ho2, Ho1].
Qed.

(** C32. A device moves every message that arrives at one socket before it is
    closed to the other, in order, with the same header and the same body,
    and then returns. *)
Theorem device_forwards_all s1 s2 : forall x n, (length (inbox x s1) < n)%nat -> Forall small_msg (inbox x s1) ->
  exists y ms, nn_device_oneway junk n x s1 s2 = Ok (y, -1) /\ inbox y s1 = [] /\ outbox y s2 = outbox x s2 ++ ms /\
    Forall2 forwarded (inbox x s1) ms.
Proof.
  intros x n. revert x. induction n as [|n IH]; intros x Hn Hm; [lia|]. cbn [nn_device_oneway].
  destruct (inbox x s1) as [|m q] eqn:Hq.
  - destruct (mvmsg_none x s1 s2 Hq) as (y & -> & Hi & Ho). mred. decide_bools. exists y, []. rewrite Hi, Ho, app_nil_r. by split_and!; [|done..|].
  - apply Forall_cons in Hm as [Hm Hms].
    destruct (mvmsg_some x s1 s2 m q Hq Hm) as (y & m' & -> & F & Hi & Ho). mred. decide_bools.
    destruct (IH y) as (z & ms & -> & Hz & Hoz & Hf); [rewrite Hi; cbn in Hn; lia|by rewrite Hi|].
    exists z, (m' :: ms). split_and!; [done|done|rewrite Hoz, Ho; by rewrite <- app_assoc|].
    rewrite Hi in Hf. by constructor.
Qed.
End Device.

(** Two sockets of the same family that can do something: the device has a
    direction for them, or refuses them; it never aborts. *)
Lemma nn_device_entry_total info s1 s2 :
  (forall s i, info s = Some i -> si_rcv i || si_snd i = true) -> is_Ok (nn_device_entry info s1 s2).
Proof.
  intros Hi. unfold nn_device_entry, is_Ok. destruct (_ && _); [by eexists|]. case_bool_decide; [by eexists|]. case_bool_decide; [by eexists|].
  destruct (info s1) as [i1|] eqn:E1; [|by eexists]. destruct (info s2) as [i2|] eqn:E2; [|by eexists].
  pose proof (Hi _ _ E1) as H1. pose proof (Hi _ _ E2) as H2.
  destruct (negb (bool_decide (si_domain i1 = _)) || _); [by eexists|]. destruct (negb (bool_decide (si_protocol i1 / 16 = _))); [by eexists|].
  destruct (si_rcv i1), (si_snd i1), (si_rcv i2), (si_snd i2); cbn [negb andb orb] in *; try done; by eexists.
Qed.

(** ** Sockets as queues *)

Record boxes := Boxes { bx_in : gmap Z (list nn_msg); bx_out : gmap Z (list nn_msg) }.
#[export] Instance boxes_api : SockApi boxes := {
  api_hold x s := Ok (x, 0);
  api_rele x s := Ok x;
  api_send x s m := Ok (Boxes (bx_in x) (<[s := default [] (bx_out x !! s) ++ [m]]> (bx_out x)), 0);
  api_recv x s := match default [] (bx_in x !! s) with
                  | m :: q => Ok (Boxes (<[s := q]> (bx_in x)) (bx_out x), 0, m)
                  | [] => Ok (x, - EBADF, Msg [] [] [])
                  end;
  api_stat x s name n := Ok x
}.
#[export] Instance boxes_spec : SockApiSpec boxes.
Proof.
  refine {| inbox := fun x s => default [] (bx_in x !! s); outbox := fun x s => default [] (bx_out x !! s) |}; cbn.
  - intros x s. exists x. by repeat split.
  - intros x s. exists x. by repeat split.
  - intros x s name n _. exists x. by repeat split.
  - intros x s m q ->. eexists. split; [done|]. cbn. rewrite lookup_insert_eq. split; [done|]. split; [|done]. intros s' Hs. by rewrite lookup_insert_ne.
  - intros x s ->. exists x, (Msg [] [] []). by repeat split.
  - intros x s m. eexists. split; [done|]. cbn. rewrite lookup_insert_eq. split; [done|]. split; [done|]. intros s' Hs. by rewrite lookup_insert_ne.
Defined.

(** A request that goes through a device on its way to a REP socket. *)
Definition two_requests : boxes := Boxes {[0 := [Msg [128; 0; 0; 1] [] [65; 66]; Msg [128; 0; 0; 2] [] []]]} ∅.

Lemma device_forwards_all_witness : exists y ms,
  nn_device_oneway (fun n => replicate n 7) 3 two_requests 0 1 = Ok (y, -1) /\
  Forall2 forwarded (inbox two_requests 0) ms /\ outbox y 1 = ms.
Proof.
  destruct (device_forwards_all (fun n => replicate n 7) (fun n => length_replicate n 7) 0 1 two_requests 3) as (y & ms & E & _ & Ho & F).
  - apply (bool_decide_unpack _). vm_compute. exact I.
  - change (Forall small_msg [Msg [128; 0; 0; 1] [] [65; 66]; Msg [128; 0; 0; 2] [] []]).
    apply Forall_cons. split; [split; vm_compute; reflexivity|]. apply Forall_cons. split; [split; vm_compute; reflexivity|apply Forall_nil_2].
  - exists y, ms. split; [exact E|]. split; [exact F|]. exact Ho.
Defined.

Lemma scatter_gather_witness :
  build_msg (Some (MsgHdr (buffers [[1; 2]; [3]]) false NoControl)) = Ok (inr (Msg [] [] [1; 2; 3], 3, false)) /\
  exists ds', deliver_msg (fun n => replicate n 7) (Msg [] [] [1; 2; 3]) (MsgHdr (buffers [[9; 9]; [9; 9]]) false NoControl) = Ok (inr (MsgHdr (buffers ds') false NoControl, 3)) /\
    concat ds' = [1; 2; 3; 9].
Proof.
  destruct (scatter_gather (fun n => replicate n 7) [[1; 2]; [3]] [[9; 9]; [9; 9]] (Msg [] [] [1; 2; 3])) as (E & ds' & E' & _ & Hc); [repeat constructor; discriminate|vm_compute; reflexivity|].
  split; [exact E|]. exists ds'. split; [exact E'|exact Hc].
Defined.

(** A scatter buffer of length 0 is accepted, whereas the documentation of
    [nn_sendmsg] announces EFAULT for it. *)
Example empty_buffer_accepted :
  build_msg (Some (MsgHdr (buffers [[1; 2]; []; [3]]) false NoControl)) = Ok (inr (Msg [] [] [1; 2; 3], 3, false)).
Proof. reflexivity. Qed.

(** A signal that interrupts the device while it waits aborts the process. *)
Inductive interrupted := Interrupted.
#[local] Instance interrupted_api : SockApi interrupted := {
  api_hold x s := Ok (x, 0); api_rele x s := Ok x; api_send x s m := Ok (x, - EINTR); api_recv x s := Ok (x, - EINTR, Msg [] [] []); api_stat x s name n := Ok x }.
Lemma device_aborts_on_signal junk : nn_device_mvmsg junk Interrupted 0 1 = Err AssertFailed.
Proof. reflexivity. Qed.

(** The properties of a message that could not be sent are freed, although
    the call failed and its body was not. *)
Lemma control_freed_on_failure x : nn_sendmsg Interrupted 0 (Some (MsgHdr [Whole (Some x)] false (ControlMsg []))) = Ok (Interrupted, Called (-1) EINTR, Taken false true).
Proof. reflexivity. Qed.
