(* ===== verification/Options.v ===== *)
(** * Socket options ([nn_sock_setopt], [nn_sock_getopt] in [core/sock.c]; [tcp.c], [ipc.c], [ws.c])

    The options of a socket, the defaults [nn_sock_init] gives them, the
    checks and the copies in and out of the user's memory; and the sets of
    options of the transports, which are allocated when they are first
    used.  An option of the socket type (a positive level) goes to the type's
    own function, a parameter here. *)

From S2P Require Import Prelude Wire Pipe Cmsg Wsparse Sws Message.
Local Open Scope Z_scope.

Definition NN_SOL_SOCKET : Z := 0.
Definition NN_IPC : Z := -2.
Definition NN_TCP : Z := -3.
Definition NN_MAX_TRANSPORT : Z := 4.

Inductive sock_option :=
  | NN_LINGER | NN_SNDBUF | NN_RCVBUF | NN_SNDTIMEO | NN_RCVTIMEO | NN_RECONNECT_IVL | NN_RECONNECT_IVL_MAX | NN_SNDPRIO | NN_RCVPRIO
  | NN_SNDFD | NN_RCVFD | NN_DOMAIN | NN_PROTOCOL | NN_IPV4ONLY | NN_SOCKET_NAME | NN_RCVMAXSIZE | NN_MAXTTL.
#[export] Instance sock_option_eq_dec : EqDecision sock_option.
Proof. solve_decision. Defined.

(** The numbers 1 to 17 of [nn.h]. *)
Definition option_of (n : Z) : option sock_option :=
  if bool_decide (n <= 0) then None
  else [NN_LINGER; NN_SNDBUF; NN_RCVBUF; NN_SNDTIMEO; NN_RCVTIMEO; NN_RECONNECT_IVL; NN_RECONNECT_IVL_MAX; NN_SNDPRIO; NN_RCVPRIO;
        NN_SNDFD; NN_RCVFD; NN_DOMAIN; NN_PROTOCOL; NN_IPV4ONLY; NN_SOCKET_NAME; NN_RCVMAXSIZE; NN_MAXTTL] !! Z.to_nat (n - 1).

(** The [int] options of the socket, [ep_template] included. *)
Record sock_opts := SockOpts {
  so_linger : Z; so_sndbuf : Z; so_rcvbuf : Z; so_rcvmaxsize : Z; so_sndtimeo : Z; so_rcvtimeo : Z;
  so_reconnect_ivl : Z; so_reconnect_ivl_max : Z; so_maxttl : Z; so_sndprio : Z; so_rcvprio : Z; so_ipv4only : Z;
  so_name : bytes
}.

Record nn_tcp_optset := TcpOptset { nodelay : Z }.
Record nn_ipc_optset := IpcOptset { sec_attr : Z; outbuffersz : Z; inbuffersz : Z }.
Record nn_ws_optset := WsOptset { msg_type : Z }.

(** [so_domain], [so_protocol], [so_nosend], [so_norecv]: the socket type;
    the descriptors of its two events; [so_tcp], [so_ipc], [so_ws]: the sets
    allocated so far. *)
Record opt_sock (S : Type) := OptSock {
  os_base : S; os_domain : Z; os_protocol : Z; os_nosend : bool; os_norecv : bool; os_sndfd : Z; os_rcvfd : Z;
  os_opts : sock_opts; os_tcp : option nn_tcp_optset; os_ipc : option nn_ipc_optset; os_ws : option nn_ws_optset
}.
Arguments OptSock {S}. Arguments os_base {S}. Arguments os_domain {S}. Arguments os_protocol {S}. Arguments os_nosend {S}. Arguments os_norecv {S}.
Arguments os_sndfd {S}. Arguments os_rcvfd {S}. Arguments os_opts {S}. Arguments os_tcp {S}. Arguments os_ipc {S}. Arguments os_ws {S}.

(** [sprintf] of the descriptor. *)
Definition default_opts (name : bytes) : sock_opts := SockOpts 1000 (128 * 1024) (128 * 1024) (1024 * 1024) (-1) (-1) 100 0 8 8 8 1 name.

(** The value of an [int] option, and the set with another one. *)
Definition opt_value (o : sock_opts) (k : sock_option) : option Z :=
  match k with
  | NN_LINGER => Some (so_linger o) | NN_SNDBUF => Some (so_sndbuf o) | NN_RCVBUF => Some (so_rcvbuf o) | NN_RCVMAXSIZE => Some (so_rcvmaxsize o)
  | NN_SNDTIMEO => Some (so_sndtimeo o) | NN_RCVTIMEO => Some (so_rcvtimeo o) | NN_RECONNECT_IVL => Some (so_reconnect_ivl o)
  | NN_RECONNECT_IVL_MAX => Some (so_reconnect_ivl_max o) | NN_MAXTTL => Some (so_maxttl o) | NN_SNDPRIO => Some (so_sndprio o)
  | NN_RCVPRIO => Some (so_rcvprio o) | NN_IPV4ONLY => Some (so_ipv4only o)
  | NN_SNDFD | NN_RCVFD | NN_DOMAIN | NN_PROTOCOL | NN_SOCKET_NAME => None
  end.

(** The switch of [nn_sock_setopt_inner]: -EINVAL outside the range,
    -ENOPROTOOPT for an option that cannot be set. *)
Definition set_int (o : sock_opts) (k : sock_option) (v : Z) : sock_opts * Z :=
  let '(SockOpts linger sndbuf rcvbuf rcvmaxsize sndtimeo rcvtimeo ivl ivlmax maxttl sndprio rcvprio ipv4only name) := o in
  match k with
  | NN_LINGER => (SockOpts v sndbuf rcvbuf rcvmaxsize sndtimeo rcvtimeo ivl ivlmax maxttl sndprio rcvprio ipv4only name, 0)
  | NN_SNDBUF => if bool_decide (v <= 0) then (o, - EINVAL) else (SockOpts linger v rcvbuf rcvmaxsize sndtimeo rcvtimeo ivl ivlmax maxttl sndprio rcvprio ipv4only name, 0)
  | NN_RCVBUF => if bool_decide (v <= 0) then (o, - EINVAL) else (SockOpts linger sndbuf v rcvmaxsize sndtimeo rcvtimeo ivl ivlmax maxttl sndprio rcvprio ipv4only name, 0)
  | NN_RCVMAXSIZE => if bool_decide (v < -1) then (o, - EINVAL) else (SockOpts linger sndbuf rcvbuf v sndtimeo rcvtimeo ivl ivlmax maxttl sndprio rcvprio ipv4only name, 0)
  | NN_SNDTIMEO => (SockOpts linger sndbuf rcvbuf rcvmaxsize v rcvtimeo ivl ivlmax maxttl sndprio rcvprio ipv4only name, 0)
  | NN_RCVTIMEO => (SockOpts linger sndbuf rcvbuf rcvmaxsize sndtimeo v ivl ivlmax maxttl sndprio rcvprio ipv4only name, 0)
  | NN_RECONNECT_IVL => if bool_decide (v < 0) then (o, - EINVAL) else (SockOpts linger sndbuf rcvbuf rcvmaxsize sndtimeo rcvtimeo v ivlmax maxttl sndprio rcvprio ipv4only name, 0)
  | NN_RECONNECT_IVL_MAX => if bool_decide (v < 0) then (o, - EINVAL) else (SockOpts linger sndbuf rcvbuf rcvmaxsize sndtimeo rcvtimeo ivl v maxttl sndprio rcvprio ipv4only name, 0)
  | NN_SNDPRIO => if bool_decide (v < 1) || bool_decide (v > 16) then (o, - EINVAL) else (SockOpts linger sndbuf rcvbuf rcvmaxsize sndtimeo rcvtimeo ivl ivlmax maxttl v rcvprio ipv4only name, 0)
  | NN_RCVPRIO => if bool_decide (v < 1) || bool_decide (v > 16) then (o, - EINVAL) else (SockOpts linger sndbuf rcvbuf rcvmaxsize sndtimeo rcvtimeo ivl ivlmax maxttl sndprio v ipv4only name, 0)
  | NN_IPV4ONLY => if negb (bool_decide (v = 0)) && negb (bool_decide (v = 1)) then (o, - EINVAL) else (SockOpts linger sndbuf rcvbuf rcvmaxsize sndtimeo rcvtimeo ivl ivlmax maxttl sndprio rcvprio v name, 0)
  | NN_MAXTTL => if bool_decide (v < 1) || bool_decide (v > 255) then (o, - EINVAL) else (SockOpts linger sndbuf rcvbuf rcvmaxsize sndtimeo rcvtimeo ivl ivlmax v sndprio rcvprio ipv4only name, 0)
  | NN_SNDFD | NN_RCVFD | NN_DOMAIN | NN_PROTOCOL | NN_SOCKET_NAME => (o, - ENOPROTOOPT)
  end.

Definition set_name (o : sock_opts) (name : bytes) : sock_opts :=
  let '(SockOpts linger sndbuf rcvbuf rcvmaxsize sndtimeo rcvtimeo ivl ivlmax maxttl sndprio rcvprio ipv4only _) := o in
  SockOpts linger sndbuf rcvbuf rcvmaxsize sndtimeo rcvtimeo ivl ivlmax maxttl sndprio rcvprio ipv4only name.

(** *** Memory of the user *)

(** An [int] at the beginning of the memory. *)
Definition int_at (mem : bytes) : result Z := b ← slice mem 0 4; Ok (to_int (le_val b)).

(** [memcpy] of at most [len] bytes of a value. *)
Definition copy_out (mem : bytes) (len : Z) (v : bytes) : result bytes :=
  let d := if bool_decide (len < Z.of_nat (length v)) then take (Z.to_nat len) v else v in
  r ← write (Some mem) d; deref r.

(** [strncpy] pads with zeros up to [len]. *)
Definition strncpy_out (mem : bytes) (len : Z) (s : bytes) : result bytes :=
  r ← write (Some mem) (take (Z.to_nat len) (s ++ replicate (Z.to_nat len) 0)); deref r.

(** Up to the first zero. *)
Fixpoint c_string (s : bytes) : bytes :=
  match s with [] => [] | x :: s => if bool_decide (x = 0) then [] else x :: c_string s end.

Definition sizeof_int : Z := 4.

(** ** The options of the transports *)

Definition NN_TCP_NODELAY : Z := 1.
Definition NN_IPC_SEC_ATTR : Z := 1.
Definition NN_IPC_OUTBUFSZ : Z := 2.
Definition NN_IPC_INBUFSZ : Z := 3.
Definition NN_WS_MSG_TYPE_TEXT : Z := 1.
Definition NN_WS_MSG_TYPE_BINARY : Z := 2.

Definition nn_tcp_optset_init : nn_tcp_optset := TcpOptset 0.
Definition nn_ipc_optset_init : nn_ipc_optset := IpcOptset 0 4096 4096.
Definition nn_ws_optset_init : nn_ws_optset := WsOptset NN_WS_MSG_TYPE_BINARY.

Definition nn_tcp_optset_setopt (self : nn_tcp_optset) (option : Z) (optval : bytes) : result (nn_tcp_optset * Z) :=
  if bool_decide (Z.of_nat (length optval) <> sizeof_int) then Ok (self, - EINVAL)
  else
    val ← int_at optval;
    if bool_decide (option = NN_TCP_NODELAY) then
      if negb (bool_decide (val = 0)) && negb (bool_decide (val = 1)) then Ok (self, - EINVAL) else Ok (TcpOptset val, 0)
    else Ok (self, - ENOPROTOOPT).

Definition nn_tcp_optset_getopt (self : nn_tcp_optset) (option : Z) (mem : bytes) (len : Z) : result (bytes * Z * Z) :=
  if bool_decide (option = NN_TCP_NODELAY) then mem ← copy_out mem len (le_bytes 4 (nodelay self)); Ok (mem, sizeof_int, 0)
  else Ok (mem, len, - ENOPROTOOPT).

(** [ptr]: where the user's value is; the security attribute is that address. *)
Definition nn_ipc_optset_setopt (self : nn_ipc_optset) (option : Z) (ptr : Z) (optval : bytes) : result (nn_ipc_optset * Z) :=
  if bool_decide (Z.of_nat (length optval) < sizeof_int) then Ok (self, - EINVAL)
  else if bool_decide (option = NN_IPC_SEC_ATTR) then Ok (IpcOptset ptr (outbuffersz self) (inbuffersz self), 0)
  else if bool_decide (option = NN_IPC_OUTBUFSZ) then v ← int_at optval; Ok (IpcOptset (sec_attr self) v (inbuffersz self), 0)
  else if bool_decide (option = NN_IPC_INBUFSZ) then v ← int_at optval; Ok (IpcOptset (sec_attr self) (outbuffersz self) v, 0)
  else Ok (self, - ENOPROTOOPT).

(** The length the user gives is not looked at. *)
Definition nn_ipc_optset_getopt (self : nn_ipc_optset) (option : Z) (mem : bytes) (len : Z) : result (bytes * Z * Z) :=
  let give v := r ← write (Some mem) v; mem ← deref r; Ok (mem, Z.of_nat (length v), 0) in
  if bool_decide (option = NN_IPC_SEC_ATTR) then give (le_bytes 8 (sec_attr self))
  else if bool_decide (option = NN_IPC_OUTBUFSZ) then give (le_bytes 4 (outbuffersz self))
  else if bool_decide (option = NN_IPC_INBUFSZ) then give (le_bytes 4 (inbuffersz self))
  else Ok (mem, len, - ENOPROTOOPT).

Definition nn_ws_optset_setopt (self : nn_ws_optset) (option : Z) (optval : bytes) : result (nn_ws_optset * Z) :=
  if bool_decide (Z.of_nat (length optval) <> sizeof_int) then Ok (self, - EINVAL)
  else
    val ← int_at optval;
    if bool_decide (option = NN_WS_MSG_TYPE) then
      if bool_decide (val = NN_WS_MSG_TYPE_TEXT) || bool_decide (val = NN_WS_MSG_TYPE_BINARY) then Ok (WsOptset val, 0) else Ok (self, - EINVAL)
    else Ok (self, - ENOPROTOOPT).

Definition nn_ws_optset_getopt (self : nn_ws_optset) (option : Z) (mem : bytes) (len : Z) : result (bytes * Z * Z) :=
  if bool_decide (option = NN_WS_MSG_TYPE) then mem ← copy_out mem len (le_bytes 4 (msg_type self)); Ok (mem, sizeof_int, 0)
  else Ok (mem, len, - ENOPROTOOPT).

(** ** The calls *)

Section Calls.
  Context {S : Type} (base_setopt : S -> Z -> Z -> bytes -> result (S * Z)) (base_getopt : S -> Z -> Z -> bytes -> Z -> result (bytes * Z * Z)).
  Implicit Types (self : opt_sock S).

Definition os_set_base (s : S) self := OptSock s (os_domain self) (os_protocol self) (os_nosend self) (os_norecv self) (os_sndfd self) (os_rcvfd self) (os_opts self) (os_tcp self) (os_ipc self) (os_ws self).
Definition os_set_opts (o : sock_opts) self := OptSock (os_base self) (os_domain self) (os_protocol self) (os_nosend self) (os_norecv self) (os_sndfd self) (os_rcvfd self) o (os_tcp self) (os_ipc self) (os_ws self).
Definition os_set_tcp (o : nn_tcp_optset) self := OptSock (os_base self) (os_domain self) (os_protocol self) (os_nosend self) (os_norecv self) (os_sndfd self) (os_rcvfd self) (os_opts self) (Some o) (os_ipc self) (os_ws self).
Definition os_set_ipc (o : nn_ipc_optset) self := OptSock (os_base self) (os_domain self) (os_protocol self) (os_nosend self) (os_norecv self) (os_sndfd self) (os_rcvfd self) (os_opts self) (os_tcp self) (Some o) (os_ws self).
Definition os_set_ws (o : nn_ws_optset) self := OptSock (os_base self) (os_domain self) (os_protocol self) (os_nosend self) (os_norecv self) (os_sndfd self) (os_rcvfd self) (os_opts self) (os_tcp self) (os_ipc self) (Some o).

(** [nn_sock_optset]: the set of a level, allocated when it is missing; the
    in-process transport, level -1, has none. *)
Inductive optset := TcpSet (o : nn_tcp_optset) | IpcSet (o : nn_ipc_optset) | WsSet (o : nn_ws_optset).
Definition nn_sock_optset self (id : Z) : option optset :=
  let index := - id - 1 in
  if bool_decide (index < 0) || bool_decide (index >= NN_MAX_TRANSPORT) then None
  else if bool_decide (id = NN_TCP) then Some (TcpSet (default nn_tcp_optset_init (os_tcp self)))
  else if bool_decide (id = NN_IPC) then Some (IpcSet (default nn_ipc_optset_init (os_ipc self)))
  else if bool_decide (id = NN_WS) then Some (WsSet (default nn_ws_optset_init (os_ws self)))
  else None.
Definition os_put (o : optset) self : opt_sock S :=
  match o with TcpSet o => os_set_tcp o self | IpcSet o => os_set_ipc o self | WsSet o => os_set_ws o self end.

Definition optset_setopt (o : optset) (option ptr : Z) (optval : bytes) : result (optset * Z) :=
  match o with
  | TcpSet o => '(o, rc) ← nn_tcp_optset_setopt o option optval; Ok (TcpSet o, rc)
  | IpcSet o => '(o, rc) ← nn_ipc_optset_setopt o option ptr optval; Ok (IpcSet o, rc)
  | WsSet o => '(o, rc) ← nn_ws_optset_setopt o option optval; Ok (WsSet o, rc)
  end.
Definition optset_getopt (o : optset) (option : Z) (mem : bytes) (len : Z) : result (bytes * Z * Z) :=
  match o with
  | TcpSet o => nn_tcp_optset_getopt o option mem len
  | IpcSet o => nn_ipc_optset_getopt o option mem len
  | WsSet o => nn_ws_optset_getopt o option mem len
  end.

Definition nn_sock_setopt_inner self (level option ptr : Z) (optval : bytes) : result (opt_sock S * Z) :=
  if bool_decide (level > NN_SOL_SOCKET) then '(s, rc) ← base_setopt (os_base self) level option optval; Ok (os_set_base s self, rc)
  else if bool_decide (level < NN_SOL_SOCKET) then
    match nn_sock_optset self level with
    | None => Ok (self, - ENOPROTOOPT)
    | Some o => '(o, rc) ← optset_setopt o option ptr optval; Ok (os_put o self, rc)
    end
  else if bool_decide (option_of option = Some NN_SOCKET_NAME) then
    if bool_decide (Z.of_nat (length optval) > 63) then Ok (self, - EINVAL)
    else Ok (os_set_opts (set_name (os_opts self) (c_string optval)) self, 0)
  else if bool_decide (Z.of_nat (length optval) <> sizeof_int) then Ok (self, - EINVAL)
  else
    val ← int_at optval;
    match option_of option with
    | None => Ok (self, - ENOPROTOOPT)
    | Some k => let '(o, rc) := set_int (os_opts self) k val in Ok (os_set_opts o self, rc)
    end.

(** [mem], [len]: the memory of the user and its length; both come back. *)
Definition nn_sock_getopt_inner self (level option : Z) (mem : bytes) (len : Z) : result (opt_sock S * (bytes * Z * Z)) :=
  if bool_decide (level > NN_SOL_SOCKET) then r ← base_getopt (os_base self) level option mem len; Ok (self, r)
  else if bool_decide (level < NN_SOL_SOCKET) then
    match nn_sock_optset self level with
    | None => Ok (self, (mem, len, - ENOPROTOOPT))
    | Some o => r ← optset_getopt o option mem len; Ok (os_put o self, r)
    end
  else
    let give v := mem ← copy_out mem len (le_bytes 4 v); Ok (self, (mem, sizeof_int, 0)) in
    match option_of option with
    | None => Ok (self, (mem, len, - ENOPROTOOPT))
    | Some NN_DOMAIN => give (os_domain self)
    | Some NN_PROTOCOL => give (os_protocol self)
    | Some NN_SNDFD => if os_nosend self then Ok (self, (mem, len, - ENOPROTOOPT)) else give (os_sndfd self)
    | Some NN_RCVFD => if os_norecv self then Ok (self, (mem, len, - ENOPROTOOPT)) else give (os_rcvfd self)
    | Some NN_SOCKET_NAME =>
        mem ← strncpy_out mem len (so_name (os_opts self)); Ok (self, (mem, Z.of_nat (length (so_name (os_opts self))), 0))
    | Some k => match opt_value (os_opts self) k with Some v => give v | None => Ok (self, (mem, len, - ENOPROTOOPT)) end
    end.
End Calls.

(** ** The ranges *)

(** What the rest of the library relies on: intervals and sizes that are not
    negative, priorities and hops in their ranges. *)
Record opts_ok (o : sock_opts) : Prop := {
  ok_sndbuf : 0 < so_sndbuf o;
  ok_rcvbuf : 0 < so_rcvbuf o;
  ok_rcvmaxsize : -1 <= so_rcvmaxsize o;
  ok_ivl : 0 <= so_reconnect_ivl o;
  ok_ivl_max : 0 <= so_reconnect_ivl_max o;
  ok_maxttl : 1 <= so_maxttl o <= 255;
  ok_sndprio : 1 <= so_sndprio o <= 16;
  ok_rcvprio : 1 <= so_rcvprio o <= 16;
  ok_ipv4only : so_ipv4only o = 0 \/ so_ipv4only o = 1;
  ok_name : (length (so_name o) <= 63)%nat
}.

Lemma default_opts_ok name : (length name <= 63)%nat -> opts_ok (default_opts name).
Proof. intros Hn. constructor; cbn; try lia; done. Qed.

Lemma set_int_spec o k v o' rc : set_int o k v = (o', rc) ->
  (rc = 0 /\ opt_value o' k = Some v /\ so_name o' = so_name o /\ (forall k', k' <> k -> opt_value o' k' = opt_value o k') /\ (opts_ok o -> opts_ok o')) \/ (rc < 0 /\ o' = o).
Proof.
  destruct o as [linger sndbuf rcvbuf rcvmaxsize sndtimeo rcvtimeo ivl ivlmax maxttl sndprio rcvprio ipv4only name].
  assert (Hdone : forall oo, oo = SockOpts linger sndbuf rcvbuf rcvmaxsize sndtimeo rcvtimeo ivl ivlmax maxttl sndprio rcvprio ipv4only name ->
    forall rr, rr < 0 -> (oo, rr) = (o', rc) -> rc < 0 /\ o' = oo) by (intros oo _ rr Hr [= <- <-]; done).
  destruct k; cbn [set_int]; repeat case_bool_decide; cbn [negb andb orb]; intros E;
    first [ right; eapply Hdone; [reflexivity| |exact E]; unfold EINVAL, ENOPROTOOPT; lia
          | left; injection E as <- <-; split; [done|]; split; [done|]; split; [done|]; split; [intros []; first [done|congruence]|];
            intros []; constructor; cbn in *; first [done|lia|by left|by right] ].
Qed.

(** ** Setting and getting *)

Lemma option_of_inj n m k : option_of n = Some k -> option_of m = Some k -> n = m.
Proof.
  unfold option_of. case_bool_decide as Hn; [done|]. case_bool_decide as Hm; [done|]. intros En Em.
  assert (Z.to_nat (n - 1) = Z.to_nat (m - 1)) as E; [|lia].
  eapply NoDup_lookup; [|exact En|exact Em]. apply (bool_decide_unpack _). vm_compute. exact I.
Qed.

Lemma le_val_bytes b : bytes_ok b -> le_bytes (length b) (le_val b) = b.
Proof.
  intros Hb. unfold le_bytes, le_val. rewrite <- (length_rev b), be_bytes_val; [apply rev_involutive|].
  unfold bytes_ok. apply Forall_forall. intros x Hx. rewrite list_elem_of_In, <- in_rev, <- list_elem_of_In in Hx. revert x Hx. by apply Forall_forall.
Qed.

Lemma le_int_bytes b : bytes_ok b -> length b = 4%nat -> le_bytes 4 (to_int (le_val b)) = b.
Proof.
  intros Hb Hl. rewrite <- (le_val_bytes b Hb) at 2. rewrite Hl. unfold le_bytes. f_equal.
  rewrite be_bytes_mod, (be_bytes_mod 4 (le_val b)). f_equal. change (256 ^ Z.of_nat 4) with (2 ^ 32).
  unfold to_int, u32, wrap. case_bool_decide; [by rewrite Z.mod_mod|].
  rewrite Zminus_mod, Z.mod_same, Z.sub_0_r, !Z.mod_mod by lia. done.
Qed.

Lemma int_at_all b : length b = 4%nat -> int_at b = Ok (to_int (le_val b)).
Proof. intros Hl. unfold int_at. rewrite <- Hl, slice_all. done. Qed.

Lemma int_at_take b : (4 <= length b)%nat -> int_at b = Ok (to_int (le_val (take 4 b))).
Proof. intros Hl. unfold int_at. unfold slice. rewrite !bool_decide_eq_true_2 by lia. done. Qed.

Lemma copy_out_all mem v : (length v <= length mem)%nat -> copy_out mem (Z.of_nat (length mem)) v = Ok (overwrite mem v).
Proof. intros Hl. unfold copy_out. rewrite bool_decide_eq_false_2 by lia. unfold write. rewrite bool_decide_eq_true_2 by lia. done. Qed.

(** What [nn_getsockopt] gives back for what [nn_setsockopt] was given. *)
Definition given (level option ptr : Z) (optval : bytes) : bytes :=
  if bool_decide (level = NN_SOL_SOCKET /\ option_of option = Some NN_SOCKET_NAME) then c_string optval
  else if bool_decide (level = NN_IPC) then (if bool_decide (option = NN_IPC_SEC_ATTR) then le_bytes 8 ptr else take 4 optval)
  else optval.

Lemma c_string_length s : (length (c_string s) <= length s)%nat.
Proof. induction s as [|x s IH]; cbn; [lia|]. case_bool_decide; cbn; lia. Qed.

Section Roundtrip.
  Context {S : Type} (base_setopt : S -> Z -> Z -> bytes -> result (S * Z)) (base_getopt : S -> Z -> Z -> bytes -> Z -> result (bytes * Z * Z)).
  Implicit Types (self : opt_sock S).
  Abbreviation setopt := (nn_sock_setopt_inner base_setopt).
  Abbreviation getopt := (nn_sock_getopt_inner base_getopt).

(** What is got does not depend on whether the set was allocated. *)
Definition got self (level option : Z) (mem : bytes) : result (bytes * Z * Z) := snd <$> getopt self level option mem (Z.of_nat (length mem)).

Lemma got_socket self option mem : got self NN_SOL_SOCKET option mem =
  match option_of option with
  | None => Ok (mem, Z.of_nat (length mem), - ENOPROTOOPT)
  | Some k =>
      match k with
      | NN_SNDFD => if os_nosend self then Ok (mem, Z.of_nat (length mem), - ENOPROTOOPT) else mem ← copy_out mem (Z.of_nat (length mem)) (le_bytes 4 (os_sndfd self)); Ok (mem, 4, 0)
      | NN_RCVFD => if os_norecv self then Ok (mem, Z.of_nat (length mem), - ENOPROTOOPT) else mem ← copy_out mem (Z.of_nat (length mem)) (le_bytes 4 (os_rcvfd self)); Ok (mem, 4, 0)
      | NN_DOMAIN => mem ← copy_out mem (Z.of_nat (length mem)) (le_bytes 4 (os_domain self)); Ok (mem, 4, 0)
      | NN_PROTOCOL => mem ← copy_out mem (Z.of_nat (length mem)) (le_bytes 4 (os_protocol self)); Ok (mem, 4, 0)
      | NN_SOCKET_NAME => mem ← strncpy_out mem (Z.of_nat (length mem)) (so_name (os_opts self)); Ok (mem, Z.of_nat (length (so_name (os_opts self))), 0)
      | k => match opt_value (os_opts self) k with
             | Some v => mem ← copy_out mem (Z.of_nat (length mem)) (le_bytes 4 v); Ok (mem, 4, 0)
             | None => Ok (mem, Z.of_nat (length mem), - ENOPROTOOPT)
             end
      end
  end.
Proof.
  unfold got, nn_sock_getopt_inner. decide_bools. destruct (option_of option) as [k|]; [|done].
  destruct k; cbn [opt_value]; try (destruct (copy_out _ _ _); done); [destruct (os_nosend self); [done|]|destruct (os_norecv self); [done|]|]; try (destruct (copy_out _ _ _); done). destruct (strncpy_out _ _ _); done.
Qed.

Lemma got_transport self level option mem : level < NN_SOL_SOCKET -> got self level option mem =
  match nn_sock_optset self level with
  | None => Ok (mem, Z.of_nat (length mem), - ENOPROTOOPT)
  | Some o => optset_getopt o option mem (Z.of_nat (length mem))
  end.
Proof.
  intros Hl. unfold got, nn_sock_getopt_inner. unfold NN_SOL_SOCKET in *. rewrite bool_decide_eq_false_2, bool_decide_eq_true_2 by lia.
  destruct (nn_sock_optset self level) as [o|]; [|done]. destruct (optset_getopt _ _ _ _); done.
Qed.

Lemma optset_eq self level : nn_sock_optset self level =
  if bool_decide (level = NN_TCP) then Some (TcpSet (default nn_tcp_optset_init (os_tcp self)))
  else if bool_decide (level = NN_IPC) then Some (IpcSet (default nn_ipc_optset_init (os_ipc self)))
  else if bool_decide (level = NN_WS) then Some (WsSet (default nn_ws_optset_init (os_ws self)))
  else None.
Proof.
  unfold nn_sock_optset, NN_TCP, NN_IPC, NN_WS, NN_MAX_TRANSPORT.
  destruct (bool_decide (- level - 1 < 0) || bool_decide (- level - 1 >= 4)) eqn:E; [|done].
  rewrite !bool_decide_eq_false_2; [done| | |]; intros ->; vm_compute in E; done.
Qed.

Definition set_level (o : optset) : Z := match o with TcpSet _ => NN_TCP | IpcSet _ => NN_IPC | WsSet _ => NN_WS end.

Lemma optset_level self level o : nn_sock_optset self level = Some o -> set_level o = level.
Proof. rewrite optset_eq. repeat case_bool_decide; intros E; try injection E as <-; try done. Qed.

Lemma optset_put self o o' level : nn_sock_optset self level = Some o -> set_level o' = level ->
  nn_sock_optset (os_put o' self) level = Some o' /\ (forall l, l <> level -> nn_sock_optset (os_put o' self) l = nn_sock_optset self l).
Proof.
  intros Ho <-. split; [|intros l Hl]; rewrite !optset_eq; destruct o'; cbn [set_level os_put os_set_tcp os_set_ipc os_set_ws os_tcp os_ipc os_ws] in *;
    decide_bools; try done; by rewrite ?(bool_decide_eq_false_2 (l = _)) by done.
Qed.

(** A setting that succeeds is got back, and one that fails changes nothing. *)
Lemma optset_spec o option ptr optval o' rc : bytes_ok optval -> optset_setopt o option ptr optval = Ok (o', rc) ->
  set_level o' = set_level o /\
  (rc = 0 /\ (forall mem, (length (given (set_level o) option ptr optval) <= length mem)%nat ->
              optset_getopt o' option mem (Z.of_nat (length mem)) = Ok (overwrite mem (given (set_level o) option ptr optval), Z.of_nat (length (given (set_level o) option ptr optval)), 0)) /\
            (forall opt mem, opt <> option -> optset_getopt o' opt mem (Z.of_nat (length mem)) = optset_getopt o opt mem (Z.of_nat (length mem))) \/
   rc < 0 /\ o' = o).
Proof.
  intros Hb. assert (forall l, l <> NN_SOL_SOCKET -> given l option ptr optval = if bool_decide (l = NN_IPC) then (if bool_decide (option = NN_IPC_SEC_ATTR) then le_bytes 8 ptr else take 4 optval) else optval) as Hg.
  { intros l Hl. unfold given. rewrite bool_decide_eq_false_2 by naive_solver. done. }
  destruct o as [o|o|o]; cbn [optset_setopt set_level]; rewrite Hg by done; clear Hg.
  - unfold nn_tcp_optset_setopt. case_bool_decide as Hl; mred; [intros [= <- <-]; split; [done|right; by split]|].
    unfold sizeof_int in Hl. rewrite int_at_all by lia. mred. decide_bools.
    case_bool_decide as Ho; [|intros [= <- <-]; split; [done|right; by split]].
    destruct (_ && _); mred; intros [= <- <-]; (split; [done|]); [right; by split|left]. split; [done|]. split.
    + intros mem Hm. cbn [optset_getopt]. unfold nn_tcp_optset_getopt. rewrite bool_decide_eq_true_2 by done. cbn [nodelay]. rewrite le_int_bytes by (done || lia).
      rewrite copy_out_all by done. mred. unfold sizeof_int. by replace (Z.of_nat (length optval)) with 4 by lia.
    + intros opt mem Hopt. cbn [optset_getopt]. unfold nn_tcp_optset_getopt. by rewrite !bool_decide_eq_false_2 by congruence.
  - unfold nn_ipc_optset_setopt. case_bool_decide as Hl; mred; [intros [= <- <-]; split; [done|right; by split]|].
    unfold sizeof_int in Hl. decide_bools. assert (length (take 4 optval) = 4%nat) as Ht by (rewrite length_take; lia).
    assert (bytes_ok (take 4 optval)) as Hbt by (by apply Forall_take).
    rewrite int_at_take by lia.
    repeat case_bool_decide; mred; intros [= <- <-]; (split; [done|]); try (right; by split); left; (split; [done|]); split.
    all: try (intros mem Hm; cbn [optset_getopt]; unfold nn_ipc_optset_getopt; decide_bools; cbn [sec_attr outbuffersz inbuffersz]; rewrite ?le_int_bytes by done;
      unfold write; rewrite bool_decide_eq_true_2 by done; done).
    all: intros opt mem Hopt; cbn [optset_getopt]; unfold nn_ipc_optset_getopt; cbn [sec_attr outbuffersz inbuffersz]; repeat case_bool_decide; congruence.
  - unfold nn_ws_optset_setopt. case_bool_decide as Hl; mred; [intros [= <- <-]; split; [done|right; by split]|].
    unfold sizeof_int in Hl. rewrite int_at_all by lia. mred. decide_bools.
    case_bool_decide as Ho; [|intros [= <- <-]; split; [done|right; by split]].
    destruct (_ || _); mred; intros [= <- <-]; (split; [done|]); [left|right; by split]. split; [done|]. split.
    + intros mem Hm. cbn [optset_getopt]. unfold nn_ws_optset_getopt. rewrite bool_decide_eq_true_2 by done. cbn [msg_type]. rewrite le_int_bytes by (done || lia).
      rewrite copy_out_all by done. mred. unfold sizeof_int. by replace (Z.of_nat (length optval)) with 4 by lia.
    + intros opt mem Hopt. cbn [optset_getopt]. unfold nn_ws_optset_getopt. by rewrite !bool_decide_eq_false_2 by congruence.
Qed.

Lemma got_same_sets self self' : (forall l, nn_sock_optset self' l = nn_sock_optset self l) -> forall l opt mem, l < NN_SOL_SOCKET -> got self' l opt mem = got self l opt mem.
Proof. intros Hs l opt mem Hl. by rewrite !got_transport, Hs. Qed.

(** Everything [got_socket] looks at but the options. *)
Lemma got_same_opts self o option mem :
  (forall k, option_of option = Some k -> opt_value o k = opt_value (os_opts self) k) -> (option_of option = Some NN_SOCKET_NAME -> so_name o = so_name (os_opts self)) ->
  got (os_set_opts o self) NN_SOL_SOCKET option mem = got self NN_SOL_SOCKET option mem.
Proof.
  intros Hk Hn. rewrite !got_socket. cbn [os_nosend os_norecv os_sndfd os_rcvfd os_domain os_protocol os_opts os_set_opts].
  destruct (option_of option) as [k|]; [|done]. destruct k; try (by rewrite Hk); try done. by rewrite Hn.
Qed.

Lemma got_put self o option mem : got (os_put o self) NN_SOL_SOCKET option mem = got self NN_SOL_SOCKET option mem.
Proof. rewrite !got_socket. by destruct o. Qed.

Lemma put_opts self o : os_opts (os_put o self) = os_opts self.
Proof. by destruct o. Qed.

Lemma got_name self option mem : option_of option = Some NN_SOCKET_NAME -> (length (so_name (os_opts self)) <= length mem)%nat ->
  exists rest, got self NN_SOL_SOCKET option mem = Ok (so_name (os_opts self) ++ rest, Z.of_nat (length (so_name (os_opts self))), 0).
Proof.
  intros Ho Hl. rewrite got_socket, Ho. unfold strncpy_out, write. rewrite Nat2Z.id.
  rewrite bool_decide_eq_true_2 by (rewrite length_take; lia). mred. eexists. f_equal. f_equal. f_equal.
  rewrite take_app_ge by done. by rewrite <- app_assoc.
Qed.

Lemma transport_setopt self level option ptr optval self' rc : level < NN_SOL_SOCKET -> bytes_ok optval -> setopt self level option ptr optval = Ok (self', rc) ->
  os_opts self' = os_opts self /\ (forall opt mem, got self' NN_SOL_SOCKET opt mem = got self NN_SOL_SOCKET opt mem) /\
  (rc < 0 /\ (forall l, nn_sock_optset self' l = nn_sock_optset self l) \/
   rc = 0 /\ (forall mem, (length (given level option ptr optval) <= length mem)%nat ->
              got self' level option mem = Ok (overwrite mem (given level option ptr optval), Z.of_nat (length (given level option ptr optval)), 0)) /\
   (forall l opt mem, l < NN_SOL_SOCKET -> (l, opt) <> (level, option) -> got self' l opt mem = got self l opt mem)).
Proof.
  intros Hl Hb. unfold nn_sock_setopt_inner, NN_SOL_SOCKET in *. rewrite bool_decide_eq_false_2, bool_decide_eq_true_2 by lia.
  destruct (nn_sock_optset self level) as [o|] eqn:Eo; [|intros [= <- <-]; split; [done|]; split; [done|]; left; split; [unfold ENOPROTOOPT; lia|done]].
  destruct (optset_setopt o option ptr optval) as [[o' rc']|] eqn:Es; mred; [|done]. intros [= <- <-].
  destruct (optset_spec _ _ _ _ _ _ Hb Es) as [Hlev D]. rewrite (optset_level _ _ _ Eo) in *.
  destruct (optset_put self o o' level Eo Hlev) as [P1 P2].
  split; [apply put_opts|]. split; [intros opt mem; by apply got_put|].
  destruct D as [(-> & Hsame & Hother)|[Hrc ->]].
  - right. split; [done|]. split.
    + intros mem Hm. rewrite got_transport by done. rewrite P1. by apply Hsame.
    + intros l opt mem Hl' Hne. rewrite !got_transport by done. destruct (decide (l = level)) as [->|Hll].
      * rewrite P1, Eo. apply Hother. congruence.
      * by rewrite P2.
  - left. split; [done|]. intros l. destruct (decide (l = level)) as [->|Hll]; [by rewrite P1, Eo|by apply P2].
Qed.

Lemma socket_setopt self option ptr optval self' rc : bytes_ok optval -> setopt self NN_SOL_SOCKET option ptr optval = Ok (self', rc) ->
  rc < 0 /\ (exists o, o = os_opts self /\ self' = os_set_opts o self) \/
  rc = 0 /\ exists o k, option_of option = Some k /\ self' = os_set_opts o self /\ (opts_ok (os_opts self) -> opts_ok o) /\
    (forall k', k' <> k -> opt_value o k' = opt_value (os_opts self) k') /\ (k <> NN_SOCKET_NAME -> so_name o = so_name (os_opts self)) /\
    (k = NN_SOCKET_NAME -> so_name o = c_string optval) /\ (k <> NN_SOCKET_NAME -> length optval = 4%nat /\ opt_value o k = Some (to_int (le_val optval))).
Proof.
  assert (self = os_set_opts (os_opts self) self) as Hself by (by destruct self).
  intros Hb. unfold nn_sock_setopt_inner. decide_bools. case_bool_decide as Hn.
  - case_bool_decide as Hl; intros [= <- <-]; [left; split; [unfold EINVAL; lia|by exists (os_opts self)]|right]. split; [done|].
    eexists _, NN_SOCKET_NAME. split; [done|]. split; [done|]. destruct (os_opts self) as [] eqn:E; cbn. split_and!; [|intros []; done|done|done|done].
    intros []. constructor; cbn in *; try done. pose proof (c_string_length optval). lia.
  - case_bool_decide as Hl; [intros [= <- <-]; left; split; [unfold EINVAL; lia|by exists (os_opts self)]|].
    unfold sizeof_int in Hl. assert (length optval = 4%nat) as Hlen by lia. rewrite int_at_all by done. mred.
    destruct (option_of option) as [k|] eqn:Ek; [|intros [= <- <-]; left; split; [unfold ENOPROTOOPT; lia|by exists (os_opts self)]].
    destruct (set_int (os_opts self) k (to_int (le_val optval))) as [o rc'] eqn:Es. intros [= <- <-].
    destruct (set_int_spec _ _ _ _ _ Es) as [(-> & Hv & Hname & Hother & Hok)|[Hrc ->]]; [right|left; split; [done|by exists (os_opts self)]].
    split; [done|]. exists o, k. split_and!; try done. intros ->. done.
Qed.

(** C34. An option of the socket or of a transport (the levels up to NN_SOL_SOCKET;
    the positive ones are handed to the socket type) that [nn_setsockopt] accepts
    is what [nn_getsockopt] gives back, whole, to memory at least as long, and it
    changes no other such option; one it refuses changes none.  Either way the
    options stay in the ranges that the timers, the priorities and the transports
    rely on. *)
Theorem option_roundtrip self level option ptr optval self' rc :
  level <= NN_SOL_SOCKET -> bytes_ok optval -> setopt self level option ptr optval = Ok (self', rc) ->
  (opts_ok (os_opts self) -> opts_ok (os_opts self')) /\
  (rc < 0 /\ (forall l opt mem, l <= NN_SOL_SOCKET -> got self' l opt mem = got self l opt mem) \/
   rc = 0 /\
   (forall mem, (length (given level option ptr optval) <= length mem)%nat -> exists rest,
      got self' level option mem = Ok (given level option ptr optval ++ rest, Z.of_nat (length (given level option ptr optval)), 0)) /\
   (forall l opt mem, l <= NN_SOL_SOCKET -> (l, opt) <> (level, option) -> got self' l opt mem = got self l opt mem)).
Proof.
  intros Hl Hb E. destruct (decide (level = NN_SOL_SOCKET)) as [->|Hne].
  - destruct (socket_setopt _ _ _ _ _ _ Hb E) as [(Hrc & o & -> & ->)|(-> & o & k & Hk & -> & Hok & Hother & Hn1 & Hn2 & Hv)]; (split; [done|]).
    + left. split; [done|]. by destruct self.
    + right. split; [done|]. split.
      * intros mem Hm. unfold given in *. destruct (decide (k = NN_SOCKET_NAME)) as [->|Hkn].
        -- rewrite bool_decide_eq_true_2 in * by done. rewrite <- (Hn2 eq_refl) in *. by apply (got_name (os_set_opts o self)).
        -- rewrite (bool_decide_eq_false_2 (_ /\ _)) in * by naive_solver. rewrite bool_decide_eq_false_2 in * by done.
           destruct (Hv Hkn) as [Hlen Hval]. exists (drop (length optval) mem).
           rewrite got_socket, Hk. cbn [os_opts os_set_opts]. rewrite Hval, le_int_bytes, copy_out_all by done. mred.
           replace (Z.of_nat (length optval)) with 4 by lia. destruct k; try done.
      * intros l opt mem Hl' Hne. destruct (decide (l = NN_SOL_SOCKET)) as [->|Hl0].
        -- apply got_same_opts.
           ++ intros k' Hk'. apply Hother. intros ->. apply Hne. f_equal. by eapply option_of_inj.
           ++ intros Hopt. apply Hn1. intros ->. apply Hne. f_equal. by eapply option_of_inj.
        -- apply got_same_sets; [done|]. unfold NN_SOL_SOCKET in *. lia.
  - destruct (transport_setopt self level option ptr optval self' rc ltac:(unfold NN_SOL_SOCKET in *; lia) Hb E) as (Ho & Hg & D). rewrite Ho. split; [done|].
    destruct D as [[Hrc Hs]|(-> & Hsame & Hother)]; [left|right]; (split; [done|]).
    + intros l opt mem Hl'. destruct (decide (l = NN_SOL_SOCKET)) as [->|Hl0]; [apply Hg|].
      apply got_same_sets; [done|]. unfold NN_SOL_SOCKET in *. lia.
    + split; [intros mem Hm; eexists; by apply Hsame|].
      intros l opt mem Hl' Hne'. destruct (decide (l = NN_SOL_SOCKET)) as [->|Hl0]; [apply Hg|]. apply Hother; [|done]. unfold NN_SOL_SOCKET in *. lia.
Qed.
End Roundtrip.

(** ** Examples *)

Definition no_setopt (s : unit) (level option : Z) (optval : bytes) : result (unit * Z) := Ok (s, - ENOPROTOOPT).
Definition new_socket : opt_sock unit := OptSock tt 1 16 false false 7 8 (default_opts [48]) None None None.

Lemma option_roundtrip_witness :
  exists self', nn_sock_setopt_inner no_setopt new_socket 0 8 0 [3; 0; 0; 0] = Ok (self', 0) /\ opts_ok (os_opts self') /\ so_sndprio (os_opts self') = 3.
Proof.
  eexists. split; [reflexivity|]. split; [|reflexivity].
  eapply (option_roundtrip no_setopt (fun _ _ _ m n => Ok (m, n, 0)) new_socket 0 8 0 [3; 0; 0; 0] _ 0).
  - done.
  - repeat (apply Forall_cons; split; [by split|]). apply Forall_nil_2.
  - reflexivity.
  - apply default_opts_ok. cbn. lia.
Defined.

(** The options of IPC are written to the user's memory whatever its length. *)
Example ipc_getopt_overruns : nn_ipc_optset_getopt nn_ipc_optset_init NN_IPC_OUTBUFSZ [0; 0] 2 = Err BadAccess.
Proof. reflexivity. Qed.

(** A buffer too small for a name gets it without its end. *)
Example name_cut : snd <$> nn_sock_getopt_inner (fun _ _ _ m n => Ok (m, n, 0)) (os_set_opts (set_name (default_opts []) [97; 98; 99]) new_socket) 0 15 [0; 0] 2 = Ok ([97; 98], 3, 0).
Proof. reflexivity. Qed.
