(* ===== verification/Life.v ===== *)
(** * The life of a socket ([core/sock.c], [core/ep.c])

    From [nn_sock_init] to [nn_sock_term]: endpoints are added and removed,
    calls hold the socket, and [nn_close] stops the endpoints, then the
    socket type, then posts the semaphore that [nn_sock_term] waits for.  The
    transports' endpoints and the socket type are the class [Environment];
    the messages that pass meanwhile are the file [Sock]. *)

From S2P Require Import Prelude Timer Pipe Ctx Sock Ep.
Local Open Scope Z_scope.

Definition NN_SOCK_ACTION_STOPPED : Z := 1.

(** [ep_open x i tp bind addr]: [bind] or [connect] of the transport [tp] for
    the endpoint [i]; [ep_stop], [ep_destroy]:
    the functions of the endpoint's table; [sk_stop]: the function [stop] of
    the socket type, which may be missing. *)
Class Environment (X : Type) := {
  ep_open : X -> Z -> Z -> bool -> list Z -> result (X * Z);
  ep_stop : X -> Z -> result X;
  ep_destroy : X -> Z -> result X;
  sk_stop : X -> option (result X);
  sk_destroy : X -> result X
}.

(** [lf_ep]: the endpoints that are allocated, by their ids; [lf_eps] and
    [lf_sdeps]: the lists; [lf_queue]: those whose NN_EP_STOPPED is queued for
    the socket; [lf_termsem], [lf_relesem] count the posts. *)
Record life := Life {
  lf_fsm : fsm_state; lf_state : sock_state; lf_eps : list Z; lf_sdeps : list Z; lf_ep : gmap Z nn_ep; lf_eid : Z; lf_queue : list Z;
  lf_holds : Z; lf_termsem : nat; lf_relesem : nat
}.

Definition lf_set_fsm v s := Life v (lf_state s) (lf_eps s) (lf_sdeps s) (lf_ep s) (lf_eid s) (lf_queue s) (lf_holds s) (lf_termsem s) (lf_relesem s).
Definition lf_set_state v s := Life (lf_fsm s) v (lf_eps s) (lf_sdeps s) (lf_ep s) (lf_eid s) (lf_queue s) (lf_holds s) (lf_termsem s) (lf_relesem s).
Definition lf_set_eps v s := Life (lf_fsm s) (lf_state s) v (lf_sdeps s) (lf_ep s) (lf_eid s) (lf_queue s) (lf_holds s) (lf_termsem s) (lf_relesem s).
Definition lf_set_sdeps v s := Life (lf_fsm s) (lf_state s) (lf_eps s) v (lf_ep s) (lf_eid s) (lf_queue s) (lf_holds s) (lf_termsem s) (lf_relesem s).
Definition lf_set_ep v s := Life (lf_fsm s) (lf_state s) (lf_eps s) (lf_sdeps s) v (lf_eid s) (lf_queue s) (lf_holds s) (lf_termsem s) (lf_relesem s).
Definition lf_set_eid v s := Life (lf_fsm s) (lf_state s) (lf_eps s) (lf_sdeps s) (lf_ep s) v (lf_queue s) (lf_holds s) (lf_termsem s) (lf_relesem s).
Definition lf_set_queue v s := Life (lf_fsm s) (lf_state s) (lf_eps s) (lf_sdeps s) (lf_ep s) (lf_eid s) v (lf_holds s) (lf_termsem s) (lf_relesem s).
Definition lf_set_holds v s := Life (lf_fsm s) (lf_state s) (lf_eps s) (lf_sdeps s) (lf_ep s) (lf_eid s) (lf_queue s) v (lf_termsem s) (lf_relesem s).
Definition lf_post_term s := Life (lf_fsm s) (lf_state s) (lf_eps s) (lf_sdeps s) (lf_ep s) (lf_eid s) (lf_queue s) (lf_holds s) (S (lf_termsem s)) (lf_relesem s).
Definition lf_post_rele s := Life (lf_fsm s) (lf_state s) (lf_eps s) (lf_sdeps s) (lf_ep s) (lf_eid s) (lf_queue s) (lf_holds s) (lf_termsem s) (S (lf_relesem s)).

(** After [nn_sock_init]: started, and held by the caller. *)
Definition new_life : life := Life NN_FSM_STATE_ACTIVE NN_SOCK_STATE_ACTIVE [] [] ∅ 1 [] 1 0 0.

Section Life.
  Context {X : Type} `{Environment X}.

(** [nn_list_insert] and [nn_list_erase] assert. *)
Definition to_sdeps (i : Z) (self : life) : result life :=
  _ ← assert_ (bool_decide (i ∈ lf_eps self));
  _ ← assert_ (negb (bool_decide (i ∈ lf_sdeps self)));
  Ok (lf_set_sdeps (lf_sdeps self ++ [i]) (lf_set_eps (filter (fun j => j <> i) (lf_eps self)) self)).

(** [nn_ep_stop] of one endpoint: the machine of the file [Ep]. *)
Definition call_ep (i : Z) (f : X * list Z -> nn_ep -> result (X * list Z * nn_ep)) (x : X) (self : life) : result (X * life) :=
  e ← deref (lf_ep self !! i);
  '(x, q, e) ← f (x, lf_queue self) e;
  Ok (x, lf_set_queue q (lf_set_ep (<[i := e]> (lf_ep self)) self)).
Definition ep_base_stop (i : Z) (x : X * list Z) : result (X * list Z) := y ← ep_stop x.1 i; Ok (y, x.2).
Definition ep_raise (i : Z) (x : X * list Z) (src type : Z) : result (X * list Z) :=
  Ok (if bool_decide (src = NN_SOCK_SRC_EP) then (x.1, x.2 ++ [i]) else x).

Definition stop_ep (i : Z) : X -> life -> result (X * life) := call_ep i (nn_ep_stop (ep_base_stop i) (ep_raise i)).
(** The event [stopped] of the endpoint for itself. *)
Definition ep_told (i : Z) : X -> life -> result (X * life) :=
  call_ep i (fun x e => ep_feed (ep_base_stop i) (ep_raise i) x e NN_FSM_ACTION NN_EP_ACTION_STOPPED).

Definition nn_sock_add_ep (x : X) (self : life) (template : nn_ep_options) (tp : Z) (bind : bool) (addr : list Z) : result (X * life * Z) :=
  let i := lf_eid self in
  e ← nn_ep_init i template addr;
  '(x, rc) ← ep_open x i tp bind addr;
  if bool_decide (rc < 0) then Ok (x, self, rc)
  else
    '(x, e) ← nn_ep_start x e;
    if bool_decide (i + 1 <= INT_MAX) then
      _ ← assert_ (negb (bool_decide (i ∈ lf_eps self)));
      Ok (x, lf_set_eps (lf_eps self ++ [i]) (lf_set_eid (i + 1) (lf_set_ep (<[i := e]> (lf_ep self)) self)), i)
    else Err IntOverflow.

Definition nn_sock_rm_ep (x : X) (self : life) (i : Z) : result (X * life * Z) :=
  if negb (bool_decide (i ∈ lf_eps self)) then Ok (x, self, - EINVAL)
  else
    self ← to_sdeps i self;
    '(x, self) ← stop_ep i x self;
    Ok (x, self, 0).

(** The label [finish1]. *)
Definition finish1 (x : X) (self : life) : result (X * life) :=
  x ← sk_destroy x; Ok (x, lf_post_term (lf_set_state NN_SOCK_STATE_FINI self)).

(** The label [finish2]. *)
Definition finish2 (x : X) (self : life) : result (X * life) :=
  if negb (bool_decide (lf_sdeps self = [])) then Ok (x, self)
  else
    _ ← assert_ (bool_decide (lf_eps self = []));
    let self := lf_set_state NN_SOCK_STATE_STOPPING self in
    match sk_stop x with None => finish1 x self | Some r => x ← r; Ok (x, self) end.

(** An endpoint that has stopped is freed. *)
Definition free_ep (i : Z) (x : X) (self : life) : result (X * life) :=
  _ ← assert_ (bool_decide (i ∈ lf_sdeps self));
  e ← deref (lf_ep self !! i);
  x ← nn_ep_term (fun x => ep_destroy x i) x e;
  Ok (x, lf_set_sdeps (filter (fun j => j <> i) (lf_sdeps self)) (lf_set_ep (delete i (lf_ep self)) self)).

Fixpoint stop_eps (l : list Z) (x : X) (self : life) : result (X * life) :=
  match l with
  | [] => Ok (x, self)
  | i :: l => self ← to_sdeps i self; '(x, self) ← stop_ep i x self; stop_eps l x self
  end.

Definition nn_sock_shutdown (x : X) (self : life) (src type srcptr : Z) : result (X * life) :=
  if bool_decide (src = NN_FSM_ACTION) && bool_decide (type = NN_FSM_STOP) then
    _ ← assert_ (bool_decide (lf_state self = NN_SOCK_STATE_ACTIVE));
    '(x, self) ← stop_eps (lf_eps self) x self;
    finish2 x (lf_set_state NN_SOCK_STATE_STOPPING_EPS self)
  else match lf_state self with
  | NN_SOCK_STATE_STOPPING_EPS =>
      if negb (bool_decide (src = NN_SOCK_SRC_EP) && bool_decide (type = NN_EP_STOPPED)) then Ok (x, self)
      else '(x, self) ← free_ep srcptr x self; finish2 x self
  | NN_SOCK_STATE_STOPPING =>
      _ ← assert_ (bool_decide (src = NN_FSM_ACTION) && bool_decide (type = NN_SOCK_ACTION_STOPPED)); finish1 x self
  | _ => Err AssertFailed
  end.

(** The events that are not those of pipes. *)
Definition nn_sock_handler (x : X) (self : life) (src type srcptr : Z) : result (X * life) :=
  match lf_state self with
  | NN_SOCK_STATE_INIT =>
      if bool_decide (src = NN_FSM_ACTION) && bool_decide (type = NN_FSM_START) then Ok (x, lf_set_state NN_SOCK_STATE_ACTIVE self) else Err AssertFailed
  | NN_SOCK_STATE_ACTIVE => if bool_decide (src = NN_SOCK_SRC_EP) && bool_decide (type = NN_EP_STOPPED) then free_ep srcptr x self else Err AssertFailed
  | _ => Err AssertFailed
  end.

Definition sock_feed (x : X) (self : life) (src type srcptr : Z) : result (X * life) :=
  if negb (bool_decide (lf_fsm self = NN_FSM_STATE_STOPPING)) then nn_sock_handler x self src type srcptr
  else nn_sock_shutdown x self src type srcptr.

Definition nn_sock_stop (x : X) (self : life) : result (X * life) :=
  if negb (bool_decide (lf_fsm self = NN_FSM_STATE_ACTIVE)) then Ok (x, self)
  else nn_sock_shutdown x (lf_set_fsm NN_FSM_STATE_STOPPING self) NN_FSM_ACTION NN_FSM_STOP 0.

Definition nn_sock_hold (self : life) : life * Z :=
  match lf_state self with
  | NN_SOCK_STATE_ACTIVE | NN_SOCK_STATE_INIT => (lf_set_holds (lf_holds self + 1) self, 0)
  | _ => (self, - EBADF)
  end.

Definition nn_sock_rele (self : life) : life :=
  let self := lf_set_holds (lf_holds self - 1) self in
  if bool_decide (lf_holds self = 0) then lf_post_rele self else self.

(** [nn_sock_term] once both semaphores were posted; [None]: it waits. *)
Definition nn_sock_term (self : life) : option (result unit) :=
  if bool_decide (lf_termsem self = 0%nat) || bool_decide (lf_relesem self = 0%nat) then None
  else Some (_ ← assert_ (bool_decide (lf_fsm self = NN_FSM_STATE_STOPPING));
             _ ← assert_ (bool_decide (lf_sdeps self = []));
             assert_ (bool_decide (lf_eps self = []))).

End Life.
