(* ===== verification/Lifesafe.v ===== *)
(** * Closing a socket terminates

    What the transports' endpoints and the socket type owe the socket (the
    class [EnvironmentSpec]), and what the socket then owes its user: no
    assertion fails while endpoints come and go, and [nn_close] returns. *)

From S2P Require Import Prelude Timer Pipe Ctx Sock Ep Life.
Local Open Scope Z_scope.

(** ** The contract *)

(** An endpoint runs, is stopping, has reported that it stopped, or was heard. *)
Inductive ephase := EActive | EStopping | ETold | EIdle.
(** The socket type runs, is stopping, has reported, was heard, is destroyed. *)
Inductive sphase := SActive | SStopping | STold | SIdle | SGone.

Record eview := EView { e_ph : gmap Z ephase; e_q : list Z; e_sb : sphase }.
Definition e_set (i : Z) (p : ephase) (v : eview) : eview := EView (<[i := p]> (e_ph v)) (e_q v) (e_sb v).
Definition e_tell (i : Z) (v : eview) : eview := EView (<[i := ETold]> (e_ph v)) (e_q v ++ [i]) (e_sb v).
Definition e_set_sb (s : sphase) (v : eview) : eview := EView (e_ph v) (e_q v) s.

(** What the environment does by itself: a stop comes to its end. *)
Inductive e_happens (v : eview) : eview -> Prop :=
  | HEpStopped i : e_ph v !! i = Some EStopping -> e_happens v (e_tell i v)
  | HBaseStopped : e_sb v = SStopping -> e_happens v (e_set_sb STold v).

Class EnvironmentSpec (X : Type) `{Environment X} := {
  eview_of : X -> eview;
  take_told : X -> X;
  take_told_ok x i q : e_q (eview_of x) = i :: q -> eview_of (take_told x) = EView (<[i := EIdle]> (e_ph (eview_of x))) q (e_sb (eview_of x));
  take_base : X -> X;
  take_base_ok x : e_sb (eview_of x) = STold -> eview_of (take_base x) = e_set_sb SIdle (eview_of x);
  ep_open_ok x i tp bind a : e_ph (eview_of x) !! i = None -> exists x' rc, ep_open x i tp bind a = Ok (x', rc) /\
    (rc < 0 /\ eview_of x' = eview_of x \/ 0 <= rc /\ eview_of x' = e_set i EActive (eview_of x));
  ep_stop_ok x i : e_ph (eview_of x) !! i = Some EActive -> exists x', ep_stop x i = Ok x' /\
    (eview_of x' = e_set i EStopping (eview_of x) \/ eview_of x' = e_tell i (eview_of x));
  ep_destroy_ok x i : e_ph (eview_of x) !! i = Some EIdle -> exists x', ep_destroy x i = Ok x' /\
    eview_of x' = EView (delete i (e_ph (eview_of x))) (e_q (eview_of x)) (e_sb (eview_of x));
  sk_stop_ok x : e_sb (eview_of x) = SActive -> sk_stop x = None \/
    exists x' s, sk_stop x = Some (Ok x') /\ (s = SStopping \/ s = STold) /\ eview_of x' = e_set_sb s (eview_of x);
  sk_destroy_ok x : e_sb (eview_of x) = SActive /\ sk_stop x = None \/ e_sb (eview_of x) = SIdle ->
    exists x', sk_destroy x = Ok x' /\ eview_of x' = e_set_sb SGone (eview_of x);
  happens_ok x v : e_happens (eview_of x) v -> exists x', eview_of x' = v
}.

(** ** Runs *)

(** [nn_close] up to [nn_sock_term], with the lock of the library held. *)
Definition nn_close_start {X} `{Environment X} (x : X) (self : life) : result (X * life * Z) :=
  let '(self, rc) := nn_sock_hold self in
  if bool_decide (rc < 0) then Ok (x, self, rc)
  else '(x, self) ← nn_sock_stop x self; Ok (x, nn_sock_rele (nn_sock_rele self), 0).

Section Runs.
  Context {X : Type} `{EnvironmentSpec X}.

(** What goes on after [nn_close]: the events, and the calls that still hold
    the socket return. *)
Inductive life_move (s : X * life) : result (X * life) -> Prop :=
  | MHappens x' : e_happens (eview_of s.1) (eview_of x') -> life_move s (Ok (x', s.2))
  | MTold i q : e_q (eview_of s.1) = i :: q -> life_move s (ep_told i (take_told s.1) s.2)
  | MEp i q : lf_queue s.2 = i :: q -> life_move s (sock_feed s.1 (lf_set_queue q s.2) NN_SOCK_SRC_EP NN_EP_STOPPED i)
  | MBase : e_sb (eview_of s.1) = STold -> life_move s (sock_feed (take_base s.1) s.2 NN_FSM_ACTION NN_SOCK_ACTION_STOPPED 0)
  | MRele : lf_state s.2 <> NN_SOCK_STATE_ACTIVE -> 0 < lf_holds s.2 -> life_move s (Ok (s.1, nn_sock_rele s.2)).

(** The user's calls before.  The hold of [nn_socket] itself is kept until
    [nn_close]. *)
Inductive life_step (s : X * life) : result (X * life) -> Prop :=
  | LMove r : life_move s r -> life_step s r
  | LAdd template tp bind a : lf_state s.2 = NN_SOCK_STATE_ACTIVE -> Z.of_nat (length a) <= 128 -> lf_eid s.2 < INT_MAX ->
      life_step s (fst <$> nn_sock_add_ep s.1 s.2 template tp bind a)
  | LRm i : life_step s (fst <$> nn_sock_rm_ep s.1 s.2 i)
  | LHold : life_step s (Ok (s.1, fst (nn_sock_hold s.2)))
  | LRele : lf_state s.2 = NN_SOCK_STATE_ACTIVE -> 1 < lf_holds s.2 -> life_step s (Ok (s.1, nn_sock_rele s.2))
  | LClose : life_step s (fst <$> nn_close_start s.1 s.2).

Inductive life_reach (s0 : X * life) : X * life -> Prop :=
  | LReach0 : life_reach s0 s0
  | LReachS s t : life_reach s0 s -> life_step s (Ok t) -> life_reach s0 t.

(** ** The invariant *)

Definition ep_is (e : nn_ep) (f : fsm_state) (s : ep_state) : Prop := ep_fsm e = f /\ ep_st e = s.

(** An endpoint that was asked to stop. *)
Inductive sdep_ok (v : eview) (self : life) (i : Z) (e : nn_ep) : Prop :=
  | SdStopping : ep_is e NN_FSM_STATE_STOPPING NN_EP_STATE_STOPPING -> e_ph v !! i = Some EStopping -> i ∉ e_q v -> i ∉ lf_queue self -> sdep_ok v self i e
  | SdTold : ep_is e NN_FSM_STATE_STOPPING NN_EP_STATE_STOPPING -> e_ph v !! i = Some ETold -> i ∈ e_q v -> i ∉ lf_queue self -> sdep_ok v self i e
  | SdQueued : ep_is e NN_FSM_STATE_IDLE NN_EP_STATE_IDLE -> e_ph v !! i = Some EIdle -> i ∉ e_q v -> i ∈ lf_queue self -> sdep_ok v self i e.

Definition ep_ok (v : eview) (self : life) (i : Z) (e : nn_ep) : Prop :=
  (i ∈ lf_eps self /\ i ∉ lf_sdeps self /\ ep_is e NN_FSM_STATE_ACTIVE NN_EP_STATE_ACTIVE /\ e_ph v !! i = Some EActive /\ i ∉ e_q v /\ i ∉ lf_queue self) \/
  (i ∈ lf_sdeps self /\ i ∉ lf_eps self /\ sdep_ok v self i e).

Record eps_ok (v : eview) (self : life) : Prop := {
  eo_nodup : NoDup (lf_eps self) /\ NoDup (lf_sdeps self) /\ NoDup (e_q v) /\ NoDup (lf_queue self);
  eo_some i e : lf_ep self !! i = Some e -> ep_ok v self i e;
  eo_none i : lf_ep self !! i = None -> i ∉ lf_eps self /\ i ∉ lf_sdeps self /\ e_ph v !! i = None /\ i ∉ e_q v /\ i ∉ lf_queue self;
  eo_fresh i : lf_eid self <= i -> lf_ep self !! i = None
}.

Record same_at (j : Z) (v v' : eview) (self self' : life) : Prop := {
  sa_ep : lf_ep self' !! j = lf_ep self !! j;
  sa_ph : e_ph v' !! j = e_ph v !! j;
  sa_eps : j ∈ lf_eps self' <-> j ∈ lf_eps self;
  sa_sdeps : j ∈ lf_sdeps self' <-> j ∈ lf_sdeps self;
  sa_q : j ∈ e_q v' <-> j ∈ e_q v;
  sa_queue : j ∈ lf_queue self' <-> j ∈ lf_queue self
}.

Lemma ep_ok_same j v v' self self' e : same_at j v v' self self' -> ep_ok v self j e -> ep_ok v' self' j e.
Proof.
  intros [S1 S2 S3 S4 S5 S6] [(H1 & H2 & H3 & H4 & H5 & H6)|(H1 & H2 & D)]; [left; rewrite S3, S4, S2, S5, S6; done|right].
  rewrite S3, S4. split; [done|]. split; [done|].
  destruct D; [apply SdStopping|apply SdTold|apply SdQueued]; rewrite ?S2, ?S5, ?S6; done.
Qed.

Definition ep_absent (v : eview) (self : life) (i : Z) : Prop :=
  i ∉ lf_eps self /\ i ∉ lf_sdeps self /\ e_ph v !! i = None /\ i ∉ e_q v /\ i ∉ lf_queue self.

Definition nodups (v : eview) (self : life) : Prop := NoDup (lf_eps self) /\ NoDup (lf_sdeps self) /\ NoDup (e_q v) /\ NoDup (lf_queue self).

Lemma eps_ok_at i v v' self self' : eps_ok v self -> nodups v' self' -> (forall j, j <> i -> same_at j v v' self self') ->
  match lf_ep self' !! i with Some e => ep_ok v' self' i e | None => ep_absent v' self' i end ->
  (forall j, lf_eid self' <= j -> lf_ep self' !! j = None) -> eps_ok v' self'.
Proof.
  intros [E1 E2 E3 E4] Hn Hs Hi Hf. constructor; [done| | |done].
  - intros j e Hj. destruct (decide (j = i)) as [->|Hji]; [by rewrite Hj in Hi|].
    pose proof (Hs j Hji) as S1. rewrite (sa_ep _ _ _ _ _ S1) in Hj. by apply (ep_ok_same j v v' self self'), E2.
  - intros j Hj. destruct (decide (j = i)) as [->|Hji]; [by rewrite Hj in Hi|].
    pose proof (Hs j Hji) as [S1 S2 S3 S4 S5 S6]. rewrite S1 in Hj. rewrite S2, S3, S4, S5, S6. by apply E3.
Qed.

Lemma elem_filter_ne (i j : Z) (l : list Z) : j ∈ filter (fun k => k <> i) l <-> j <> i /\ j ∈ l.
Proof. by rewrite list_elem_of_filter. Qed.

Lemma elem_snoc (i j : Z) (l : list Z) : j ∈ l ++ [i] <-> j = i \/ j ∈ l.
Proof. rewrite elem_of_app, list_elem_of_singleton. tauto. Qed.

Lemma NoDup_snoc (i : Z) (l : list Z) : NoDup l -> i ∉ l -> NoDup (l ++ [i]).
Proof. intros Hl Hi. apply NoDup_app. split; [done|]. split; [|apply NoDup_singleton]. intros j Hj ->%list_elem_of_singleton. done. Qed.

(** *** The endpoints stop by themselves *)

Lemma eps_happens v v' self : eps_ok v self -> e_happens v v' -> eps_ok v' self.
Proof.
  intros E [i Hi|Hb].
  - destruct (eo_nodup _ _ E) as (N1 & N2 & N3 & N4).
    destruct (lf_ep self !! i) as [e|] eqn:He; [|apply (eo_none _ _ E) in He as (_ & _ & He & _); congruence].
    destruct (eo_some _ _ E i e He) as [(_ & _ & _ & Hp & _)|(Hs & Hne & D)]; [congruence|]. inversion D as [De Dp Dq Dl|De Dp Dq Dl|De Dp Dq Dl]; [|congruence..].
    apply (eps_ok_at i v _ self); [done| | | |by apply (eo_fresh v)].
    + split_and!; try done. apply NoDup_snoc; [done|exact Dq].
    + intros j Hj. constructor; try done; cbn; [by rewrite lookup_insert_ne by done|]. rewrite elem_snoc. naive_solver.
    + rewrite He. right. split_and!; try done. apply SdTold; try done; cbn; [apply lookup_insert_eq|rewrite elem_snoc; by left].
  - destruct E as [E1 E2 E3 E4]. constructor; try done. intros i e Hi. by apply (ep_ok_same i v (e_set_sb STold v) self self), E2.
Qed.

(** *** An endpoint is heard *)

Lemma eps_told x self i q : eps_ok (eview_of x) self -> e_q (eview_of x) = i :: q ->
  exists self', ep_told i (take_told x) self = Ok (take_told x, self') /\ eps_ok (eview_of (take_told x)) self' /\
    lf_fsm self' = lf_fsm self /\ lf_state self' = lf_state self /\ lf_eps self' = lf_eps self /\ lf_sdeps self' = lf_sdeps self /\
    lf_holds self' = lf_holds self /\ lf_termsem self' = lf_termsem self /\ lf_relesem self' = lf_relesem self /\ e_ph (eview_of x) !! i = Some ETold.
Proof.
  intros E Hq. destruct (eo_nodup _ _ E) as (N1 & N2 & N3 & N4).
  assert (i ∈ e_q (eview_of x)) as Hin by (rewrite Hq; apply list_elem_of_here).
  destruct (lf_ep self !! i) as [e|] eqn:He; [|apply (eo_none _ _ E) in He; naive_solver].
  destruct (eo_some _ _ E i e He) as [(_ & _ & _ & _ & Hp & _)|(Hs & Hne & D)]; [done|]. inversion D as [De Dp Dq Dl|[De1 De2] Dp Dq Dl|De Dp Dq Dl]; [done| |done].
  unfold ep_told, call_ep. rewrite He. mred. unfold ep_feed, nn_ep_shutdown. rewrite De1, De2. decide_bools. mred.
  eexists. split; [reflexivity|]. split; [|cbn; by split_and!].
  pose proof (take_told_ok x i q Hq) as Ev. rewrite Hq in N3. apply NoDup_cons in N3 as [Hiq N3].
  apply (eps_ok_at i (eview_of x) _ self); [done| | | |].
  - rewrite Ev. cbn. split_and!; try done. by apply NoDup_snoc.
  - intros j Hj. rewrite Ev. constructor; cbn; try done; rewrite ?lookup_insert_ne by done; try done.
    + rewrite Hq, elem_of_cons. naive_solver.
    + rewrite elem_snoc. naive_solver.
  - cbn. rewrite lookup_insert_eq. right. cbn. split_and!; try done. rewrite Ev. apply SdQueued; cbn; [done|apply lookup_insert_eq|done|rewrite elem_snoc; by left].
  - intros j Hj. cbn in *. pose proof (eo_fresh _ _ E j Hj). rewrite lookup_insert_ne by congruence. done.
Qed.

(** *** An endpoint is freed *)

Lemma eps_free x self i q : eps_ok (eview_of x) self -> lf_queue self = i :: q ->
  exists x' self', free_ep i x (lf_set_queue q self) = Ok (x', self') /\ eps_ok (eview_of x') self' /\
    eview_of x' = EView (delete i (e_ph (eview_of x))) (e_q (eview_of x)) (e_sb (eview_of x)) /\ e_ph (eview_of x) !! i = Some EIdle /\
    lf_fsm self' = lf_fsm self /\ lf_state self' = lf_state self /\ lf_eps self' = lf_eps self /\
    lf_holds self' = lf_holds self /\ lf_termsem self' = lf_termsem self /\ lf_relesem self' = lf_relesem self.
Proof.
  intros E Hq. destruct (eo_nodup _ _ E) as (N1 & N2 & N3 & N4).
  assert (i ∈ lf_queue self) as Hin by (rewrite Hq; apply list_elem_of_here).
  destruct (lf_ep self !! i) as [e|] eqn:He; [|apply (eo_none _ _ E) in He; naive_solver].
  destruct (eo_some _ _ E i e He) as [(_ & _ & _ & _ & _ & Hp)|(Hs & Hne & D)]; [done|]. inversion D as [De Dp Dq Dl|De Dp Dq Dl|[De1 De2] Dp Dq Dl]; [done|done|].
  unfold free_ep. cbn [lf_sdeps lf_ep lf_set_queue]. decide_bools. mred. rewrite He. mred. unfold nn_ep_term. rewrite De1, De2. decide_bools. mred.
  destruct (ep_destroy_ok x i Dp) as (x' & E1 & V1). rewrite E1. mred. decide_bools. mred.
  eexists x', _. split; [reflexivity|]. split; [|split; [done|]; split; [done|]; cbn; by split_and!].
  rewrite Hq in N4. apply NoDup_cons in N4 as [Hiq N4]. rewrite V1.
  apply (eps_ok_at i (eview_of x) _ self); [done| | | |].
  - cbn. split_and!; try done. by apply NoDup_filter.
  - intros j Hj. constructor; cbn; try done; rewrite ?lookup_delete_ne by done; try done.
    + rewrite elem_filter_ne. naive_solver.
    + rewrite Hq, elem_of_cons. naive_solver.
  - cbn. rewrite lookup_delete_eq. unfold ep_absent. cbn. rewrite elem_filter_ne, lookup_delete_eq. naive_solver.
  - intros j Hj. cbn in *. apply lookup_delete_None. right. by apply (eo_fresh _ _ E).
Qed.

(** *** An endpoint is asked to stop *)

Lemma eps_stop x self i : eps_ok (eview_of x) self -> i ∈ lf_eps self ->
  exists self1 x' self', to_sdeps i self = Ok self1 /\ stop_ep i x self1 = Ok (x', self') /\ eps_ok (eview_of x') self' /\
    e_sb (eview_of x') = e_sb (eview_of x) /\
    lf_fsm self' = lf_fsm self /\ lf_state self' = lf_state self /\ lf_eps self' = filter (fun j => j <> i) (lf_eps self) /\
    lf_holds self' = lf_holds self /\ lf_termsem self' = lf_termsem self /\ lf_relesem self' = lf_relesem self /\ lf_eid self' = lf_eid self.
Proof.
  intros E Hin. destruct (eo_nodup _ _ E) as (N1 & N2 & N3 & N4).
  destruct (lf_ep self !! i) as [e|] eqn:He; [|apply (eo_none _ _ E) in He; naive_solver].
  destruct (eo_some _ _ E i e He) as [(_ & Hns & [De1 De2] & Hp & Hnq & Hnl)|(_ & ? & _)]; [|done].
  destruct (ep_stop_ok x i Hp) as (x' & E1 & D).
  unfold to_sdeps. decide_bools. mred. eexists _, x', _. split; [reflexivity|].
  unfold stop_ep, call_ep. cbn [lf_ep lf_set_sdeps lf_set_eps]. rewrite He. mred. unfold nn_ep_stop. rewrite De1. decide_bools. mred.
  unfold nn_ep_shutdown. decide_bools. mred. unfold ep_base_stop. cbn [fst snd]. rewrite E1. mred.
  split; [reflexivity|]. split; [|split; [destruct D as [-> | ->]; done|cbn; by split_and!]].
  assert (forall j, j <> i -> e_ph (eview_of x') !! j = e_ph (eview_of x) !! j) as Hph.
  { intros j Hj. destruct D as [-> | ->]; cbn; by rewrite lookup_insert_ne. }
  apply (eps_ok_at i (eview_of x) _ self); [done| | | |].
  - cbn. split_and!; [by apply NoDup_filter|by apply NoDup_snoc| |done]. destruct D as [-> | ->]; cbn; [done|by apply NoDup_snoc].
  - intros j Hj. constructor; cbn; try done; [by rewrite lookup_insert_ne by done|by apply Hph| | |].
    + rewrite elem_filter_ne. naive_solver.
    + rewrite elem_snoc. naive_solver.
    + destruct D as [-> | ->]; cbn; [done|]. rewrite elem_snoc. naive_solver.
  - cbn. rewrite lookup_insert_eq. right. cbn. rewrite elem_snoc, elem_filter_ne. split; [by left|]. split; [naive_solver|].
    destruct D as [-> | ->]; [apply SdStopping|apply SdTold]; cbn; rewrite ?lookup_insert_eq, ?elem_snoc; try done. by left.
  - intros j Hj. cbn in *. pose proof (eo_fresh _ _ E j Hj). rewrite lookup_insert_ne by congruence. done.
Qed.

Lemma filter_cons_all (i : Z) (l : list Z) : i ∉ l -> filter (fun j => j <> i) (i :: l) = l.
Proof.
  intros Hi. rewrite filter_cons, decide_False by (intros Hn; by apply Hn).
  induction l as [|j l IH]; [done|]. rewrite not_elem_of_cons in Hi. rewrite filter_cons, decide_True by naive_solver. f_equal. naive_solver.
Qed.

Lemma eps_stop_all l : forall x self, eps_ok (eview_of x) self -> lf_eps self = l ->
  exists x' self', stop_eps l x self = Ok (x', self') /\ eps_ok (eview_of x') self' /\ e_sb (eview_of x') = e_sb (eview_of x) /\
    lf_fsm self' = lf_fsm self /\ lf_state self' = lf_state self /\ lf_eps self' = [] /\
    lf_holds self' = lf_holds self /\ lf_termsem self' = lf_termsem self /\ lf_relesem self' = lf_relesem self.
Proof.
  induction l as [|i l IH]; intros x self E Hl; [by exists x, self|].
  destruct (eps_stop x self i E) as (self1 & x1 & self2 & E1 & E2 & E3 & Hsb & H1 & H2 & H3 & H4 & H5 & H6 & _); [rewrite Hl; apply list_elem_of_here|].
  cbn [stop_eps]. rewrite E1. mred. rewrite E2. mred.
  destruct (eo_nodup _ _ E) as (N1 & _). rewrite Hl in N1, H3. apply NoDup_cons in N1 as [Hi _]. rewrite filter_cons_all in H3 by done.
  destruct (IH x1 self2 E3 H3) as (x' & self' & E' & Ho & G1 & G2 & G3 & G4 & G5 & G6 & G7).
  exists x', self'. split_and!; try done; congruence.
Qed.

(** ** The states of the socket *)

(** The semaphore of the holds is posted when the last is gone. *)
Definition holds_ok (self : life) : Prop := 0 < lf_holds self /\ lf_relesem self = 0%nat \/ lf_holds self = 0 /\ lf_relesem self = 1%nat.

Definition life_state_ok (v : eview) (self : life) : Prop :=
  match lf_state self with
  | NN_SOCK_STATE_INIT => False
  | NN_SOCK_STATE_ACTIVE => lf_fsm self = NN_FSM_STATE_ACTIVE /\ e_sb v = SActive /\ lf_termsem self = 0%nat /\ lf_relesem self = 0%nat /\ 0 < lf_holds self
  | NN_SOCK_STATE_STOPPING_EPS => lf_fsm self = NN_FSM_STATE_STOPPING /\ e_sb v = SActive /\ lf_eps self = [] /\ lf_sdeps self <> [] /\ lf_termsem self = 0%nat /\ holds_ok self
  | NN_SOCK_STATE_STOPPING => lf_fsm self = NN_FSM_STATE_STOPPING /\ (e_sb v = SStopping \/ e_sb v = STold) /\ lf_eps self = [] /\ lf_sdeps self = [] /\ lf_termsem self = 0%nat /\ holds_ok self
  | NN_SOCK_STATE_FINI => lf_fsm self = NN_FSM_STATE_STOPPING /\ e_sb v = SGone /\ lf_eps self = [] /\ lf_sdeps self = [] /\ lf_termsem self = 1%nat /\ holds_ok self
  end.

Record life_inv (v : eview) (self : life) : Prop := { li_eps : eps_ok v self; li_state : life_state_ok v self }.

(** What is left to do. *)
Definition eweight (p : ephase) : nat := match p with EActive => 4 | EStopping => 3 | ETold => 2 | EIdle => 1 end.
Definition eweights (m : gmap Z ephase) : nat := map_fold (fun _ p n => eweight p + n)%nat 0%nat m.
Definition sweight (s : sphase) : nat := match s with SActive => 4 | SStopping => 3 | STold => 2 | SIdle => 1 | SGone => 0 end.
Definition life_rank (v : eview) (self : life) : nat := (eweights (e_ph v) + sweight (e_sb v) + Z.to_nat (lf_holds self))%nat.

Lemma eweights_delete m i p : m !! i = Some p -> eweights m = (eweight p + eweights (delete i m))%nat.
Proof. intros Hi. unfold eweights. by rewrite (map_fold_delete_L _ _ i p m) by (try done; intros; lia). Qed.
Lemma eweights_insert m i p p' : m !! i = Some p -> (eweights (<[i := p']> m) + eweight p = eweights m + eweight p')%nat.
Proof.
  intros Hi. rewrite (eweights_delete m i p Hi), (eweights_delete (<[i := p']> m) i p') by apply lookup_insert_eq.
  rewrite delete_insert_eq. lia.
Qed.

Definition closing_next (s t : X * life) : Prop :=
  life_inv (eview_of t.1) t.2 /\ (lf_state s.2 = NN_SOCK_STATE_ACTIVE <-> lf_state t.2 = NN_SOCK_STATE_ACTIVE) /\
  (lf_state s.2 <> NN_SOCK_STATE_ACTIVE -> (life_rank (eview_of t.1) t.2 < life_rank (eview_of s.1) s.2)%nat).

Lemma eps_only v v' self self' : eps_ok v self -> e_ph v' = e_ph v -> e_q v' = e_q v -> lf_eps self' = lf_eps self -> lf_sdeps self' = lf_sdeps self ->
  lf_ep self' = lf_ep self -> lf_queue self' = lf_queue self -> lf_eid self' = lf_eid self -> eps_ok v' self'.
Proof.
  intros [E1 E2 E3 E4] H1 H2 H3 H4 H5 H6 H7. constructor; rewrite ?H1, ?H2, ?H3, ?H4, ?H5, ?H6, ?H7; try done.
  intros i e Hi. apply (ep_ok_same i v v' self self'); [constructor; by rewrite ?H1, ?H2, ?H3, ?H4, ?H5, ?H6, ?H7|by apply E2].
Qed.

(** The label [finish2]. *)
Lemma finish2_ok x self : eps_ok (eview_of x) self -> lf_state self = NN_SOCK_STATE_STOPPING_EPS -> lf_fsm self = NN_FSM_STATE_STOPPING ->
  e_sb (eview_of x) = SActive -> lf_eps self = [] -> lf_termsem self = 0%nat -> holds_ok self ->
  exists t, finish2 x self = Ok t /\ life_inv (eview_of t.1) t.2 /\ lf_state t.2 <> NN_SOCK_STATE_ACTIVE /\ lf_holds t.2 = lf_holds self /\
    (life_rank (eview_of t.1) t.2 <= life_rank (eview_of x) self)%nat.
Proof.
  intros E Es Ef Hb He Ht Hh. unfold finish2. destruct (decide (lf_sdeps self = [])) as [Hs|Hs].
  2: { rewrite bool_decide_eq_false_2 by done. mred. exists (x, self). split; [done|]. cbn [fst snd]. split; [|by rewrite Es]. constructor; [done|]. unfold life_state_ok. rewrite Es. by split_and!. }
  rewrite bool_decide_eq_true_2 by done. mred. rewrite He. decide_bools. mred.
  destruct (sk_stop_ok x Hb) as [Hk|(x' & st & Hk & Hst & V)]; rewrite Hk.
  - unfold finish1. destruct (sk_destroy_ok x (or_introl (conj Hb Hk))) as (x' & -> & V). mred.
    eexists. split; [done|]. cbn [fst snd]. rewrite V. split; [|split; [done|]; split; [done|]; unfold life_rank; cbn; rewrite Hb; cbn; lia].
    constructor; [by apply (eps_only (eview_of x) _ self)|]. unfold life_state_ok. cbn. rewrite Ht. split_and!; done.
  - mred. eexists. split; [done|]. cbn [fst snd]. rewrite V. split; [|split; [done|]; split; [done|]; unfold life_rank; cbn; rewrite Hb; destruct Hst as [-> | ->]; cbn; lia].
    constructor; [by apply (eps_only (eview_of x) _ self)|]. unfold life_state_ok. cbn. split_and!; done.
Qed.

(** The end of an endpoint reaches the socket. *)
Lemma move_ep x self i q : life_inv (eview_of x) self -> lf_queue self = i :: q ->
  exists t, sock_feed x (lf_set_queue q self) NN_SOCK_SRC_EP NN_EP_STOPPED i = Ok t /\ closing_next (x, self) t.
Proof.
  intros [E St] Hq. destruct (eps_free x self i q E Hq) as (x' & self' & E1 & Eo & V & Hp & G1 & G2 & G3 & G4 & G5 & G6).
  unfold life_state_ok in St. unfold sock_feed, nn_sock_handler, nn_sock_shutdown. cbn [lf_fsm lf_state lf_set_queue].
  assert (life_rank (eview_of x') self' < life_rank (eview_of x) self)%nat as HR.
  { rewrite V. unfold life_rank. cbn. rewrite (eweights_delete _ _ _ Hp), G4. cbn. lia. }
  destruct (lf_state self) eqn:Es; [done| | | |].
  - destruct St as (S1 & S2 & S3 & S4 & S5). rewrite S1. decide_bools. mred. rewrite E1. eexists. split; [done|].
    unfold closing_next. cbn [fst snd]. rewrite Es. split; [|split; [by rewrite G2|done]].
    constructor; [done|]. unfold life_state_ok. rewrite V, G1, G2, G4, G5, G6. by split_and!.
  - destruct St as (S1 & S2 & S3 & S4 & S5 & S6). rewrite S1. decide_bools. mred. rewrite E1. mred.
    destruct (finish2_ok x' self') as (t & Ef & I & N & Hh & R); try done; try congruence; [by rewrite V|by unfold holds_ok; rewrite G4, G6|].
    exists t. split; [done|]. unfold closing_next. cbn [fst snd]. rewrite Es. split; [done|]. split; [done|]. intros _. lia.
  - destruct St as (S1 & S2 & S3 & S4 & S5). exfalso.
    assert (i ∈ lf_queue self) as Hin by (rewrite Hq; apply list_elem_of_here).
    destruct (lf_ep self !! i) as [e|] eqn:He; [|apply (eo_none _ _ E) in He; naive_solver].
    destruct (eo_some _ _ E i e He) as [(_ & _ & _ & _ & _ & ?)|(Hs & _)]; [done|]. rewrite S4 in Hs. by apply not_elem_of_nil in Hs.
  - destruct St as (S1 & S2 & S3 & S4 & S5). exfalso.
    assert (i ∈ lf_queue self) as Hin by (rewrite Hq; apply list_elem_of_here).
    destruct (lf_ep self !! i) as [e|] eqn:He; [|apply (eo_none _ _ E) in He; naive_solver].
    destruct (eo_some _ _ E i e He) as [(_ & _ & _ & _ & _ & ?)|(Hs & _)]; [done|]. rewrite S4 in Hs. by apply not_elem_of_nil in Hs.
Qed.

Lemma rele_ok self : 0 < lf_holds self -> lf_relesem self = 0%nat -> holds_ok (nn_sock_rele self) /\ lf_holds (nn_sock_rele self) = lf_holds self - 1 /\
  (0 < lf_holds self - 1 -> lf_relesem (nn_sock_rele self) = 0%nat).
Proof.
  intros Hh Hr. unfold nn_sock_rele, holds_ok. cbn [lf_holds lf_set_holds]. case_bool_decide as Hz; cbn; rewrite ?Hr; split_and!; try lia.
Qed.

Lemma rele_same self : lf_state (nn_sock_rele self) = lf_state self /\ lf_fsm (nn_sock_rele self) = lf_fsm self /\ lf_eps (nn_sock_rele self) = lf_eps self /\
  lf_sdeps (nn_sock_rele self) = lf_sdeps self /\ lf_ep (nn_sock_rele self) = lf_ep self /\ lf_queue (nn_sock_rele self) = lf_queue self /\
  lf_eid (nn_sock_rele self) = lf_eid self /\ lf_termsem (nn_sock_rele self) = lf_termsem self.
Proof. unfold nn_sock_rele. cbn. by case_bool_decide. Qed.

Lemma inv_rele v self : life_inv v self -> lf_state self <> NN_SOCK_STATE_ACTIVE \/ 1 < lf_holds self -> 0 < lf_holds self ->
  life_inv v (nn_sock_rele self) /\ (life_rank v (nn_sock_rele self) < life_rank v self)%nat.
Proof.
  intros [E St] Hst Hh. destruct (rele_same self) as (H1 & H2 & H3 & H4 & H5 & H6 & H7 & H8). unfold life_state_ok in St.
  assert (lf_relesem self = 0%nat) as Hr.
  { destruct (lf_state self); try (destruct St as (_ & _ & _ & _ & _ & [[_ ?]|[? _]]); [done|lia]); [done|by destruct St as (_ & _ & _ & ? & _)]. }
  destruct (rele_ok self Hh Hr) as (R1 & R2 & R3).
  split; [|unfold life_rank; rewrite R2; lia]. constructor; [by apply (eps_only v _ self)|].
  unfold life_state_ok. rewrite H1, H2, H3, H4, H8. destruct (lf_state self) eqn:Es; [done| |destruct St as (?&?&?&?&?&_); done..].
  destruct St as (S1 & S2 & S3 & S4 & S5). destruct Hst as [?|Hst]; [done|]. rewrite R2. split_and!; try done; [apply R3; lia|lia].
Qed.

Lemma life_inv_move s r : life_inv (eview_of s.1) s.2 -> life_move s r -> exists t, r = Ok t /\ closing_next s t.
Proof.
  destruct s as [x self]. cbn [fst snd]. intros I [x' Hh|i q Hq|i q Hq|Hb|Hst Hh]; cbn [fst snd] in *.
  - eexists. split; [done|]. unfold closing_next. cbn [fst snd]. split; [|split; [done|intros _]].
    + destruct I as [E St]. constructor; [by eapply eps_happens|]. unfold life_state_ok in *. destruct Hh as [i Hi|Hb]; cbn; [done|].
      destruct (lf_state self); try done; destruct St as (S1 & S2 & St); try (rewrite Hb in S2; done). split; [done|]. split; [by right|done].
    + unfold life_rank. destruct Hh as [i Hi|Hb]; cbn.
      * pose proof (eweights_insert _ _ _ ETold Hi). cbn [eweight] in *. lia.
      * rewrite Hb. cbn. lia.
  - destruct I as [E St]. destruct (eps_told x self i q E Hq) as (self' & -> & Eo & G1 & G2 & G3 & G4 & G5 & G6 & G7 & Hp).
    eexists. split; [done|]. unfold closing_next. cbn [fst snd]. split; [|split; [by rewrite G2|intros _]].
    + constructor; [done|]. unfold life_state_ok, holds_ok in *. rewrite (take_told_ok _ _ _ Hq), G1, G2, G3, G4, G5, G6, G7. done.
    + unfold life_rank. rewrite (take_told_ok _ _ _ Hq), G5. cbn. pose proof (eweights_insert _ _ _ EIdle Hp). cbn [eweight] in *. lia.
  - by apply (move_ep x self i q).
  - destruct I as [E St]. unfold life_state_ok in St. unfold sock_feed, nn_sock_shutdown.
    destruct (lf_state self) eqn:Es; [done| | | |]; destruct St as (S1 & S2 & St); try congruence; rewrite S1.
    decide_bools. mred. unfold finish1. pose proof (take_base_ok x Hb) as V.
    destruct (sk_destroy_ok (take_base x)) as (x' & -> & V'); [right; by rewrite V|]. mred. rewrite V in V'.
    eexists. split; [done|]. unfold closing_next. cbn [fst snd]. rewrite V', Es. split; [|split; [done|intros _; unfold life_rank; cbn; rewrite Hb; cbn; lia]].
    destruct St as (S3 & S4 & S5 & S6). constructor; [by apply (eps_only (eview_of x) _ self)|]. unfold life_state_ok. cbn. rewrite S5. split_and!; done.
  - destruct (inv_rele _ _ I (or_introl Hst) Hh) as [I' R]. eexists. split; [done|]. unfold closing_next. cbn [fst snd].
    split; [done|]. split; [|done]. by rewrite (proj1 (rele_same self)).
Qed.

(** ** The calls *)

Lemma close_life_ok x self : life_inv (eview_of x) self -> lf_state self = NN_SOCK_STATE_ACTIVE ->
  exists x' self', nn_close_start x self = Ok (x', self', 0) /\ life_inv (eview_of x') self' /\ lf_state self' <> NN_SOCK_STATE_ACTIVE.
Proof.
  intros [E St] Hs. unfold life_state_ok in St. rewrite Hs in St. destruct St as (S1 & S2 & S3 & S4 & S5).
  unfold nn_close_start, nn_sock_hold. rewrite Hs. decide_bools. unfold nn_sock_stop. cbn [lf_fsm lf_set_holds]. rewrite S1. decide_bools. mred.
  unfold nn_sock_shutdown. cbn [lf_state lf_set_fsm lf_set_holds lf_eps]. rewrite Hs. decide_bools. mred.
  set (self1 := lf_set_fsm _ _).
  destruct (eps_stop_all (lf_eps self) x self1) as (x1 & self2 & E1 & Eo & V & G1 & G2 & G3 & G4 & G5 & G6); [by apply (eps_only (eview_of x) _ self)|done|].
  rewrite E1. mred. cbn in G1, G2, G4, G5, G6.
  destruct (finish2_ok x1 (lf_set_state NN_SOCK_STATE_STOPPING_EPS self2)) as ([x2 self3] & Ef & I & N & Hh & _); cbn [lf_state lf_fsm lf_eps lf_termsem lf_set_state];
    try done; try congruence; [by apply (eps_only (eview_of x1) _ self2)|left; cbn; rewrite G4, G6; lia|].
  rewrite Ef. mred. cbn in Hh. cbn [fst snd] in I, N.
  destruct (inv_rele _ _ I) as [I1 _]; [by left|lia|]. pose proof (proj1 (rele_same self3)) as Hs3.
  assert (lf_holds (nn_sock_rele self3) = lf_holds self) as Hh1 by (unfold nn_sock_rele; case_bool_decide; cbn; lia).
  destruct (inv_rele _ _ I1) as [I2 _]; [left; congruence|lia|].
  do 2 eexists. split; [done|]. split; [done|]. by rewrite (proj1 (rele_same _)), Hs3.
Qed.

Lemma add_life_ok x self template tp bind a : life_inv (eview_of x) self -> lf_state self = NN_SOCK_STATE_ACTIVE -> Z.of_nat (length a) <= 128 -> lf_eid self < INT_MAX ->
  exists x' self' rc, nn_sock_add_ep x self template tp bind a = Ok (x', self', rc) /\ life_inv (eview_of x') self' /\
    lf_state self' = lf_state self /\ lf_holds self' = lf_holds self.
Proof.
  intros [E St] Hs Ha He. pose proof (eo_fresh _ _ E (lf_eid self) ltac:(lia)) as Hf.
  destruct (eo_none _ _ E _ Hf) as (H1 & H2 & H3 & H4 & H5). destruct (eo_nodup _ _ E) as (N1 & N2 & N3 & N4).
  unfold nn_sock_add_ep, nn_ep_init. decide_bools. mred. destruct (ep_open_ok x _ tp bind a H3) as (x' & rc & -> & [[Hr V]|[Hr V]]); mred.
  { decide_bools. exists x', self, rc. split; [done|]. split; [|done]. rewrite V. by constructor. }
  decide_bools. unfold nn_ep_start. cbn [ep_fsm]. decide_bools. mred. cbn. decide_bools. mred.
  do 3 eexists. split; [reflexivity|]. split; [|done]. constructor.
  - rewrite V. apply (eps_ok_at (lf_eid self) (eview_of x) _ self); [done| | | |].
    + split_and!; try done. by apply NoDup_snoc.
    + intros j Hj. constructor; cbn; try done; [by rewrite lookup_insert_ne|by rewrite lookup_insert_ne|]. rewrite elem_snoc. naive_solver.
    + cbn. rewrite lookup_insert_eq. left. cbn. rewrite elem_snoc, lookup_insert_eq. split_and!; try done. by left.
    + intros j Hj. cbn in *. rewrite lookup_insert_ne by lia. apply (eo_fresh _ _ E). lia.
  - unfold life_state_ok in *. rewrite V. cbn. by rewrite Hs in *.
Qed.

Lemma rm_ok x self i : life_inv (eview_of x) self -> exists x' self' rc, nn_sock_rm_ep x self i = Ok (x', self', rc) /\ rc <= 0 /\ life_inv (eview_of x') self' /\
  lf_state self' = lf_state self /\ lf_holds self' = lf_holds self.
Proof.
  intros [E St]. unfold nn_sock_rm_ep. destruct (decide (i ∈ lf_eps self)) as [Hi|Hi]; decide_bools; [|by exists x, self, (- EINVAL)].
  destruct (eps_stop x self i E Hi) as (self1 & x' & self' & E1 & E2 & Eo & V & G1 & G2 & G3 & G4 & G5 & G6 & _).
  rewrite E1. mred. rewrite E2. mred. exists x', self', 0. split; [done|]. split; [done|]. split; [|done]. constructor; [done|].
  unfold life_state_ok in *. rewrite V, G1, G2, G3, G4, G5, G6.
  destruct (lf_state self); try done; destruct St as (_ & _ & St & _); rewrite St in Hi; by apply not_elem_of_nil in Hi.
Qed.

Lemma life_inv_step s r : life_inv (eview_of s.1) s.2 -> life_step s r -> exists t, r = Ok t /\ life_inv (eview_of t.1) t.2.
Proof.
  destruct s as [x self]. cbn [fst snd]. intros I [r' Hm|template tp bind a Hs Ha He|i| |Hs Hh|]; cbn [fst snd] in *.
  - destruct (life_inv_move (x, self) r' I Hm) as (t & -> & I' & _). by exists t.
  - destruct (add_life_ok x self template tp bind a I Hs Ha He) as (x' & self' & rc & -> & I' & _). by exists (x', self').
  - destruct (rm_ok x self i I) as (x' & self' & rc & -> & _ & I' & _). by exists (x', self').
  - eexists. split; [done|]. cbn [fst snd]. unfold nn_sock_hold. destruct I as [E St]. unfold life_state_ok in St.
    destruct (lf_state self) eqn:Es; cbn [fst]; [done| |by (constructor; [done|unfold life_state_ok; rewrite Es])..].
    constructor; [by apply (eps_only (eview_of x) _ self)|]. unfold life_state_ok. cbn. rewrite Es. destruct St as (S1 & S2 & S3 & S4 & S5). split_and!; try done. lia.
  - destruct (inv_rele _ _ I (or_intror Hh)) as [I' _]; [lia|]. by exists (x, nn_sock_rele self).
  - destruct (decide (lf_state self = NN_SOCK_STATE_ACTIVE)) as [Hs|Hs].
    + destruct (close_life_ok x self I Hs) as (x' & self' & -> & I' & _). by exists (x', self').
    + exists (x, self). split; [|done]. unfold nn_close_start, nn_sock_hold. destruct I as [_ St]. unfold life_state_ok in St. destruct (lf_state self); done.
Qed.

Lemma new_ok x : eview_of x = EView ∅ [] SActive -> life_inv (eview_of x) new_life.
Proof.
  intros V. rewrite V. constructor; [|done]. constructor; cbn; try done.
  - split_and!; constructor.
  - intros i _. rewrite lookup_empty. split_and!; try apply not_elem_of_nil. done.
Qed.

Lemma reach_inv x s : eview_of x = EView ∅ [] SActive -> life_reach (x, new_life) s -> life_inv (eview_of s.1) s.2.
Proof.
  intros V. induction 1 as [|s t _ IH Hst]; [by apply new_ok|]. destruct (life_inv_step s (Ok t) IH Hst) as (t' & [= ->] & I). exact I.
Qed.

(** ** The end *)

(** [nn_sock_term] returns without failing an assertion, and the endpoints and
    the socket type are destroyed; or something still happens, and whatever
    happens leads there. *)
Inductive comes_to_end (s : X * life) : Prop :=
  | CEnd : nn_sock_term s.2 = Some (Ok tt) -> lf_ep s.2 = ∅ -> e_sb (eview_of s.1) = SGone -> comes_to_end s
  | CLater : (exists r, life_move s r) -> (forall r, life_move s r -> exists t, r = Ok t /\ comes_to_end t) -> comes_to_end s.

Lemma no_eps v self : eps_ok v self -> lf_eps self = [] -> lf_sdeps self = [] -> lf_ep self = ∅.
Proof.
  intros E H1 H2. apply map_empty. intros i. destruct (lf_ep self !! i) as [e|] eqn:He; [|done].
  destruct (eo_some _ _ E i e He) as [(Hi & _)|(Hi & _)]; rewrite ?H1, ?H2 in Hi; by apply not_elem_of_nil in Hi.
Qed.

Lemma sdeps_move x self : eps_ok (eview_of x) self -> lf_sdeps self <> [] ->
  exists r, life_move (x, self) r.
Proof.
  intros E Hs. destruct (lf_sdeps self) as [|i l] eqn:Hl; [done|]. assert (i ∈ lf_sdeps self) as Hi by (rewrite Hl; apply list_elem_of_here).
  destruct (lf_ep self !! i) as [e|] eqn:He; [|apply (eo_none _ _ E) in He; naive_solver].
  destruct (eo_some _ _ E i e He) as [(_ & ? & _)|(_ & _ & [De Dp Dq Dl|De Dp Dq Dl|De Dp Dq Dl])]; [done| | |].
  - destruct (happens_ok x _ (HEpStopped _ i Dp)) as [x' Hx']. eexists. apply (MHappens _ x'). cbn. rewrite Hx'. by constructor.
  - destruct (e_q (eview_of x)) as [|j q] eqn:Hq; [by apply not_elem_of_nil in Dq|]. eexists. by apply (MTold _ j q).
  - destruct (lf_queue self) as [|j q] eqn:Hq; [by apply not_elem_of_nil in Dl|]. eexists. by apply (MEp _ j q).
Qed.

Lemma life_progress x self : life_inv (eview_of x) self -> lf_state self <> NN_SOCK_STATE_ACTIVE ->
  nn_sock_term self = Some (Ok tt) /\ lf_ep self = ∅ /\ e_sb (eview_of x) = SGone \/ exists r, life_move (x, self) r.
Proof.
  intros [E St] Hs. unfold life_state_ok in St. destruct (lf_state self) eqn:Es; [done|done| | |]; destruct St as (S1 & S2 & S3 & S4 & S5 & S6); [right..|].
  - by apply sdeps_move.
  - destruct S2 as [Hb|Hb]; [|eexists; by apply MBase].
    destruct (happens_ok x _ (HBaseStopped _ Hb)) as [x' Hx']. eexists. apply (MHappens _ x'). cbn. rewrite Hx'. by constructor.
  - destruct S6 as [[Hh _]|[_ Hr]]; [right; eexists; apply MRele; cbn; [congruence|done]|left].
    split; [|split; [by apply no_eps with (eview_of x)|done]]. unfold nn_sock_term. rewrite S5, Hr, S1, S3, S4. reflexivity.
Qed.

Lemma ends s : life_inv (eview_of s.1) s.2 -> lf_state s.2 <> NN_SOCK_STATE_ACTIVE -> comes_to_end s.
Proof.
  remember (life_rank (eview_of s.1) s.2) as n eqn:Hn. revert s Hn. induction (lt_wf n) as [n _ IH]. intros [x self] Hn I Hs. cbn [fst snd] in *.
  destruct (life_progress x self I Hs) as [(H1 & H2 & H3)|Hm]; [by apply CEnd|apply CLater; [done|]].
  intros r Hr. destruct (life_inv_move (x, self) r I Hr) as (t & -> & I' & Hst & Hk). exists t. split; [done|].
  cbn [fst snd] in *. apply (IH (life_rank (eview_of t.1) t.2)); [subst n; by apply Hk|done|done|by rewrite <- Hst].
Qed.

(** C35. From [nn_socket] on, when endpoints are only added while the socket is
    active (an addition that [nn_close] of another thread overtakes is
    [bind_races_close]), whatever endpoints are added and removed, whatever calls
    hold the socket and in whatever order events come: no assertion of the
    socket or of its endpoints fails; [nn_close] of a socket
    that is open succeeds; and once it was called [nn_sock_term] comes to
    return, with every endpoint and the socket type destroyed, after finitely
    many events and releases. *)
Theorem close_terminates x s : eview_of x = EView ∅ [] SActive -> life_reach (x, new_life) s ->
  (forall r, life_step s r -> exists t, r = Ok t) /\
  (lf_state s.2 = NN_SOCK_STATE_ACTIVE -> exists x' self', nn_close_start s.1 s.2 = Ok (x', self', 0) /\ comes_to_end (x', self')) /\
  (lf_state s.2 <> NN_SOCK_STATE_ACTIVE -> comes_to_end s).
Proof.
  intros V R. pose proof (reach_inv x s V R) as I. split; [|split; [|by apply ends]].
  - intros r Hr. destruct (life_inv_step s r I Hr) as (t & -> & _). by exists t.
  - intros Hs. destruct s as [x1 self1]. cbn [fst snd] in *. destruct (close_life_ok x1 self1 I Hs) as (x' & self' & Ec & I' & N).
    exists x', self'. split; [done|]. by apply ends.
Qed.
End Runs.

(** ** An environment that keeps the contract *)

(** Endpoints whose address is refused when their id is a multiple of three,
    that stop at once when it is even; a socket type that stops later. *)
#[export] Instance env_ref : Environment eview := {
  ep_open v i _ _ _ := Ok (if bool_decide (i mod 3 = 0) then (v, - EINVAL) else (e_set i EActive v, 0));
  ep_stop v i := Ok (if Z.even i then e_tell i v else e_set i EStopping v);
  ep_destroy v i := Ok (EView (delete i (e_ph v)) (e_q v) (e_sb v));
  sk_stop v := Some (Ok (e_set_sb SStopping v));
  sk_destroy v := Ok (e_set_sb SGone v)
}.

#[export] Instance env_ref_spec : EnvironmentSpec eview.
Proof.
  refine {| eview_of := fun v => v;
            take_told := fun v => match e_q v with i :: q => EView (<[i := EIdle]> (e_ph v)) q (e_sb v) | [] => v end;
            take_base := e_set_sb SIdle |}.
  - intros v i q ->. done.
  - done.
  - intros v i tp bind a _. cbn. case_bool_decide; (do 2 eexists; split; [done|]); [by left|by right].
  - intros v i _. cbn. destruct (Z.even i); eexists; (split; [done|]); [by right|by left].
  - intros v i _. by eexists.
  - intros v _. right. exists (e_set_sb SStopping v), SStopping. split; [done|]. split; [by left|done].
  - intros v _. by eexists.
  - intros v v' _. by exists v'.
Defined.

Definition ref_view : eview := EView ∅ [] SActive.

Definition demo_opts : nn_ep_options := EpOptions 8 8 1.
Definition run_to (s : eview * life) (r : result (eview * life)) : eview * life := match r with Ok t => t | _ => s end.
(** Three endpoints, the third refused; the first is removed; then [nn_close]. *)
Definition demo1 := run_to (ref_view, new_life) (fst <$> nn_sock_add_ep ref_view new_life demo_opts (-1) true []).
Definition demo2 := run_to demo1 (fst <$> nn_sock_add_ep demo1.1 demo1.2 demo_opts (-1) true []).
Definition demo3 := run_to demo2 (fst <$> nn_sock_add_ep demo2.1 demo2.2 demo_opts (-1) true []).
Definition demo4 := run_to demo3 (fst <$> nn_sock_rm_ep demo3.1 demo3.2 1).
Definition demo5 := run_to demo4 (fst <$> nn_close_start demo4.1 demo4.2).

Lemma reach_run s0 s r : life_reach s0 s -> life_step s r -> r = Ok (run_to s r) -> life_reach s0 (run_to s r).
Proof. intros R Hs E. rewrite E in Hs. by eapply LReachS. Qed.

Lemma demo_reached : life_reach (ref_view, new_life) demo5.
Proof.
  apply reach_run; [|apply LClose|by vm_compute]. apply reach_run; [|apply LRm|by vm_compute].
  apply reach_run; [|apply LAdd; by vm_compute|by vm_compute]. apply reach_run; [|apply LAdd; by vm_compute|by vm_compute].
  apply reach_run; [|apply LAdd; by vm_compute|by vm_compute]. apply LReach0.
Qed.

Lemma close_terminates_witness : lf_sdeps demo5.2 = [1; 2] /\ lf_state demo5.2 = NN_SOCK_STATE_STOPPING_EPS /\ comes_to_end demo5.
Proof.
  split; [by vm_compute|]. split; [by vm_compute|].
  apply (close_terminates (X := eview) ref_view demo5); [reflexivity|apply demo_reached|by vm_compute].
Defined.

(** A [nn_bind] that held the socket before [nn_close] and gets its context
    after: the endpoint is added although the socket is stopping, and the
    assertion on the list of endpoints fails once the others have stopped. *)
Definition race1 := run_to demo1 (fst <$> nn_close_start demo1.1 demo1.2).
Definition race2 := run_to race1 (fst <$> nn_sock_add_ep race1.1 race1.2 demo_opts (-1) true []).
Definition race3 := run_to race2 (ep_told 1 (take_told (e_tell 1 race2.1)) race2.2).

Example bind_races_close : life_reach (ref_view, new_life) race1 /\ lf_state race1.2 = NN_SOCK_STATE_STOPPING_EPS /\
  nn_sock_add_ep race1.1 race1.2 demo_opts (-1) true [] = Ok (race2.1, race2.2, 2) /\
  ep_told 1 (take_told (e_tell 1 race2.1)) race2.2 = Ok race3 /\
  sock_feed race3.1 (lf_set_queue [] race3.2) NN_SOCK_SRC_EP NN_EP_STOPPED 1 = Err AssertFailed.
Proof.
  split; [|by vm_compute]. apply reach_run; [|apply LClose|by vm_compute].
  apply reach_run; [|apply LAdd; by vm_compute|by vm_compute]. apply LReach0.
Qed.
