(* ===== verification/Table.v ===== *)
(** * The sockets of the library ([core/global.c])

    The table of the sockets, whose indices are the descriptors, the stack of
    the unused ones, and the calls that go through it: creating and closing
    sockets, holding one during a call, adding and removing endpoints by
    address, statistics, and the end of the library.  What a socket is and how
    it comes to its end are the files [Life] and [Lifesafe]; every call keeps
    the lock of the library but for the time it waits. *)

From S2P Require Import Prelude Wire Timer Pipe Ctx Sock Ep Life Lifesafe.
Local Open Scope Z_scope.

Definition NN_MAX_SOCKETS : Z := 512.
Definition NN_SOCKADDR_MAX : Z := 128.
Definition AF_SP : Z := 1.
Definition AF_SP_RAW : Z := 2.
Definition EFAULT : Z := 14.
Definition EMFILE : Z := 24.
Definition ENAMETOOLONG : Z := 36.
Definition EPROTONOSUPPORT : Z := 93.
Definition EAFNOSUPPORT : Z := 97.
Definition ETERM : Z := 156384765.

(** ** Transports and socket types *)

(** The names and ids that [nn_global_init] plugs in. *)
Definition transports : list (bytes * Z) :=
  [([105; 110; 112; 114; 111; 99], -1); ([105; 112; 99], -2); ([116; 99; 112], -3); ([119; 115], -4)].
Definition nn_global_transport (id : Z) : option (bytes * Z) := find (fun tp => bool_decide (tp.2 = id)) transports.

(** The socket types, by domain and protocol, in the order of the list. *)
Definition NN_PAIR : Z := 1 * 16 + 0.
Definition NN_PUB : Z := 2 * 16 + 0.
Definition NN_SUB : Z := 2 * 16 + 1.
Definition NN_REQ : Z := 3 * 16 + 0.
Definition NN_REP : Z := 3 * 16 + 1.
Definition NN_PUSH : Z := 5 * 16 + 0.
Definition NN_PULL : Z := 5 * 16 + 1.
Definition NN_SURVEYOR : Z := 6 * 16 + 2.
Definition NN_RESPONDENT : Z := 6 * 16 + 3.
Definition NN_BUS : Z := 7 * 16 + 0.
Definition socktypes : list (Z * Z) :=
  [(AF_SP, NN_PAIR); (AF_SP_RAW, NN_PAIR); (AF_SP, NN_PUB); (AF_SP, NN_SUB); (AF_SP_RAW, NN_PUB); (AF_SP_RAW, NN_SUB);
   (AF_SP, NN_REP); (AF_SP, NN_REQ); (AF_SP_RAW, NN_REP); (AF_SP_RAW, NN_REQ); (AF_SP, NN_PUSH); (AF_SP_RAW, NN_PUSH);
   (AF_SP, NN_PULL); (AF_SP_RAW, NN_PULL); (AF_SP, NN_RESPONDENT); (AF_SP, NN_SURVEYOR); (AF_SP_RAW, NN_RESPONDENT);
   (AF_SP_RAW, NN_SURVEYOR); (AF_SP, NN_BUS); (AF_SP_RAW, NN_BUS)].
Definition find_socktype (domain protocol : Z) : option (Z * Z) :=
  find (fun t => bool_decide (t.1 = domain) && bool_decide (t.2 = protocol)) socktypes.

(** ** Addresses *)

(** [strchr] of a colon: what is before it, and after. *)
Fixpoint split_colon (s : bytes) : option (bytes * bytes) :=
  match s with
  | [] => None
  | c :: s => if bool_decide (c = 58) then Some ([], s) else match split_colon s with Some (a, b) => Some (c :: a, b) | None => None end
  end.

(** The transport and its address, or the error. *)
Definition parse_address (addr : option bytes) : Z * bytes + Z :=
  match addr with
  | None => inr (- EINVAL)
  | Some addr =>
      if bool_decide (Z.of_nat (length addr) >= NN_SOCKADDR_MAX) then inr (- ENAMETOOLONG)
      else match split_colon addr with
           | Some (proto, 47 :: 47 :: rest) =>
               match find (fun tp => bool_decide (tp.1 = proto)) transports with
               | Some tp => inl (tp.2, rest)
               | None => inr (- EPROTONOSUPPORT)
               end
           | _ => inr (- EINVAL)
           end
  end.

Lemma split_colon_spec s a b : split_colon s = Some (a, b) -> s = a ++ 58 :: b.
Proof.
  revert a b. induction s as [|c s IH]; intros a b; [done|]. cbn. case_bool_decide as Hc; [by intros [= <- <-]; subst|].
  destruct (split_colon s) as [[a' b']|]; [|done]. intros [= <- <-]. cbn. f_equal. by apply IH.
Qed.

(** The addresses that are accepted. *)
Lemma parse_address_spec addr tp rest : parse_address (Some addr) = inl (tp, rest) <->
  exists name, (name, tp) ∈ transports /\ addr = name ++ [58; 47; 47] ++ rest /\ Z.of_nat (length addr) < NN_SOCKADDR_MAX.
Proof.
  unfold parse_address. case_bool_decide as Hl.
  { split; [done|]. intros (name & _ & _ & ?). lia. }
  split.
  - destruct (split_colon addr) as [[name after]|] eqn:E; [|done]. apply split_colon_spec in E.
    destruct after as [|c1 after]; [done|]. destruct (decide (c1 = 47)) as [->|]; [|by destruct c1 as [|[]|]; repeat (destruct p; try done)].
    destruct after as [|c2 after]; [done|]. destruct (decide (c2 = 47)) as [->|]; [|by destruct c2 as [|[]|]; repeat (destruct p; try done)].
    destruct (find _ transports) as [[n t]|] eqn:F; [|done]. intros [= <- <-]. apply find_some in F as [Hin Hn%bool_decide_eq_true].
    cbn in *. subst. exists name. rewrite list_elem_of_In. split; [done|]. split; [done|lia].
  - intros (name & Hin%list_elem_of_In & -> & _). cbn in Hin. destruct Hin as [[= <- <-]|[[= <- <-]|[[= <- <-]|[[= <- <-]|[]]]]]; reflexivity.
Qed.

(** ** The table *)

(** [g_socks]: missing while the library is not initialised; [g_unused]: the
    array of the stack. *)
Record nn_global (T : Type) := Global {
  g_socks : option (list (option T)); g_unused : list Z; g_nsocks : Z; g_terming : bool; g_termed : bool
}.
Arguments Global {T}. Arguments g_socks {T}. Arguments g_unused {T}. Arguments g_nsocks {T}. Arguments g_terming {T}. Arguments g_termed {T}.

(** Before the first call. *)
Definition global_zero {T} : nn_global T := Global None [] 0 false false.

Section Calls.
  Context {X : Type} `{Environment X} (create : Z * Z -> X).
  Local Abbreviation glob := (nn_global (X * life)).
  Implicit Types (g : glob).

Definition g_put_socks (l : option (list (option (X * life)))) g : glob := Global l (g_unused g) (g_nsocks g) (g_terming g) (g_termed g).

Definition nn_global_init g : glob :=
  match g_socks g with
  | Some _ => g
  | None => Global (Some (replicate (Z.to_nat NN_MAX_SOCKETS) None)) ((fun i => NN_MAX_SOCKETS - i - 1) <$> seqZ 0 NN_MAX_SOCKETS) 0 false false
  end.

(** The transports, the workers and the table are freed with the last socket. *)
Definition nn_global_term g : result glob :=
  _ ← assert_ (bool_decide (is_Some (g_socks g)));
  if bool_decide (g_nsocks g > 0) then Ok g else Ok (g_put_socks None g).

(** [os]: what opening the descriptors of the events returned. *)
Definition nn_global_create_socket g (domain protocol os : Z) : result (glob * Z) :=
  if negb (bool_decide (domain = AF_SP)) && negb (bool_decide (domain = AF_SP_RAW)) then Ok (g, - EAFNOSUPPORT)
  else if bool_decide (g_nsocks g >= NN_MAX_SOCKETS) then Ok (g, - EMFILE)
  else
    s ← deref (g_unused g !! Z.to_nat (NN_MAX_SOCKETS - g_nsocks g - 1));
    match find_socktype domain protocol with
    | None => Ok (g, - EINVAL)
    | Some t =>
        if bool_decide (os < 0) then Ok (g, os)
        else
          socks ← deref (g_socks g);
          _ ← assert_ (bool_decide (Z.to_nat s < length socks)%nat);
          Ok (Global (Some (<[Z.to_nat s := Some (create t, new_life)]> socks)) (g_unused g) (g_nsocks g + 1) (g_terming g) (g_termed g), s)
    end.

(** The result and [errno]. *)
Definition nn_socket g (domain protocol os : Z) : result (glob * Z * Z) :=
  if g_terming g || g_termed g then Ok (g, -1, ETERM)
  else
    '(g, rc) ← nn_global_create_socket (nn_global_init g) domain protocol os;
    if bool_decide (rc < 0) then g ← nn_global_term g; Ok (g, -1, - rc) else Ok (g, rc, 0).

(** [self.socks [s]], when the descriptor is one. *)
Definition socket_at g (s : Z) : option (X * life) :=
  if bool_decide (s < 0) || bool_decide (s >= NN_MAX_SOCKETS) then None
  else match g_socks g with None => None | Some socks => default None (socks !! Z.to_nat s) end.
Definition put_socket g (s : Z) (t : option (X * life)) : glob :=
  g_put_socks ((fun socks => <[Z.to_nat s := t]> socks) <$> g_socks g) g.

Definition nn_global_hold_socket_locked g (s : Z) : glob * Z :=
  match socket_at g s with
  | None => (g, - EBADF)
  | Some (x, self) => let '(self, rc) := nn_sock_hold self in if negb (bool_decide (rc = 0)) then (g, - EBADF) else (put_socket g s (Some (x, self)), 0)
  end.
Definition nn_global_rele_socket g (s : Z) : result glob :=
  '(x, self) ← deref (socket_at g s); Ok (put_socket g s (Some (x, nn_sock_rele self))).

(** [nn_close] up to its wait, and after it: [None] while it waits. *)
Definition nn_close_begin g (s : Z) : result (glob * Z * Z) :=
  match socket_at g s with
  | None => Ok (g, -1, EBADF)
  | Some (x, self) =>
      '(x, self, rc) ← nn_close_start x self;
      Ok (put_socket g s (Some (x, self)), if bool_decide (rc < 0) then -1 else 0, - rc)
  end.
Definition nn_close_end g (s : Z) : option (result glob) :=
  '(x, self) ← socket_at g s;
  r ← nn_sock_term self;
  Some (_ ← r;
        let i := Z.to_nat (NN_MAX_SOCKETS - g_nsocks g) in
        _ ← assert_ (bool_decide (i < length (g_unused g))%nat);
        let g := put_socket g s None in
        nn_global_term (Global (g_socks g) (<[i := s]> (g_unused g)) (g_nsocks g - 1) (g_terming g) (g_termed g))).

(** A call of the C API on one socket: [f] is what it does while it holds the
    socket. *)
Definition with_socket g (s : Z) (f : X -> life -> result (X * life * Z)) : result (glob * Z * Z) :=
  let '(g, rc) := nn_global_hold_socket_locked g s in
  if bool_decide (rc < 0) then Ok (g, -1, - rc)
  else
    '(x, self) ← deref (socket_at g s);
    '(x, self, rc) ← f x self;
    g ← nn_global_rele_socket (put_socket g s (Some (x, self))) s;
    if bool_decide (rc < 0) then Ok (g, -1, - rc) else Ok (g, rc, 0).

Definition nn_global_create_ep (template : nn_ep_options) (x : X) (self : life) (addr : option bytes) (bind : bool) : result (X * life * Z) :=
  match parse_address addr with
  | inr rc => Ok (x, self, rc)
  | inl (tp, addr) => nn_sock_add_ep x self template tp bind addr
  end.
Definition nn_bind g s template addr : result (glob * Z * Z) := with_socket g s (fun x self => nn_global_create_ep template x self addr true).
Definition nn_connect g s template addr : result (glob * Z * Z) := with_socket g s (fun x self => nn_global_create_ep template x self addr false).
Definition nn_shutdown g s how : result (glob * Z * Z) :=
  with_socket g s (fun x self => '(x, self, rc) ← nn_sock_rm_ep x self how; _ ← assert_ (bool_decide (rc <= 0)); Ok (x, self, rc)).

(** The switch: the errors of accepting are those of binding. *)
Definition statistic_of (statistic : Z) : option nn_stat :=
  match statistic with
  | 101 => Some NN_STAT_ESTABLISHED_CONNECTIONS | 102 => Some NN_STAT_ACCEPTED_CONNECTIONS | 103 => Some NN_STAT_DROPPED_CONNECTIONS
  | 104 => Some NN_STAT_BROKEN_CONNECTIONS | 105 => Some NN_STAT_CONNECT_ERRORS | 106 => Some NN_STAT_BIND_ERRORS | 107 => Some NN_STAT_BIND_ERRORS
  | 301 => Some NN_STAT_MESSAGES_SENT | 302 => Some NN_STAT_MESSAGES_RECEIVED | 303 => Some NN_STAT_BYTES_SENT | 304 => Some NN_STAT_BYTES_RECEIVED
  | 201 => Some NN_STAT_CURRENT_CONNECTIONS | 202 => Some NN_STAT_INPROGRESS_CONNECTIONS | 401 => Some NN_STAT_CURRENT_SND_PRIORITY
  | 203 => Some NN_STAT_CURRENT_EP_ERRORS
  | _ => None
  end.

(** [stats]: the statistics of the socket; the value and [errno]. *)
Definition nn_get_statistic g (s : Z) (stats : nn_stat -> Z) (statistic : Z) : result (glob * Z * Z) :=
  let '(g, rc) := nn_global_hold_socket_locked g s in
  if bool_decide (rc < 0) then Ok (g, 2 ^ 64 - 1, - rc)
  else
    g ← nn_global_rele_socket g s;
    Ok (match statistic_of statistic with Some k => (g, stats k, 0) | None => (g, 2 ^ 64 - 1, EINVAL) end).

(** [nn_setsockopt] and [nn_getsockopt]: [null] is a missing value of a
    length that is not zero. *)
Definition sockopt_call g (s : Z) (null : bool) (f : X -> life -> result (X * life * Z)) : result (glob * Z * Z) :=
  with_socket g s (fun x self => if null then Ok (x, self, - EFAULT) else '(x, self, rc) ← f x self; _ ← assert_ (bool_decide (rc <= 0)); Ok (x, self, rc)).

(** [nn_term] sets a flag, closes every descriptor, and sets the other;
    [nn_init] waits until no [nn_term] is at work. *)
Definition nn_term_begin g : glob := Global (g_socks g) (g_unused g) (g_nsocks g) true (g_termed g).
Definition nn_term_end g : glob := Global (g_socks g) (g_unused g) (g_nsocks g) false true.
Definition nn_init g : option glob := if g_terming g then None else Some (Global (g_socks g) (g_unused g) (g_nsocks g) (g_terming g) false).
End Calls.

(** ** The descriptors *)

Section Slots.
  Context {T : Type}.
  Implicit Types (l : list (option T)) (unused : list Z).

Definition slot l (s : Z) : option T := default None (l !! Z.to_nat s).
Definition in_table (s : Z) : Prop := 0 <= s < NN_MAX_SOCKETS.
Definition free_slots unused (n : Z) : list Z := take (Z.to_nat (NN_MAX_SOCKETS - n)) unused.
Definition used_slots l : list Z := filter (fun s => is_Some (slot l s)) (seqZ 0 NN_MAX_SOCKETS).

(** The stack holds every unused descriptor once. *)
Record table_ok l unused (n : Z) : Prop := {
  tk_len : length l = Z.to_nat NN_MAX_SOCKETS /\ length unused = Z.to_nat NN_MAX_SOCKETS /\ 0 <= n <= NN_MAX_SOCKETS;
  tk_nodup : NoDup (free_slots unused n);
  tk_free s : s ∈ free_slots unused n <-> in_table s /\ slot l s = None
}.

Lemma slot_insert l s t s' : in_table s -> in_table s' -> length l = Z.to_nat NN_MAX_SOCKETS ->
  slot (<[Z.to_nat s := t]> l) s' = if bool_decide (s = s') then t else slot l s'.
Proof.
  unfold slot, in_table. intros Hs Hs' Hl. cases (s = s') as E; decide_bools.
  - subst. by rewrite list_lookup_insert_eq by lia.
  - by rewrite list_lookup_insert_ne by lia.
Qed.

Lemma table_init : table_ok (replicate (Z.to_nat NN_MAX_SOCKETS) None) ((fun i => NN_MAX_SOCKETS - i - 1) <$> seqZ 0 NN_MAX_SOCKETS) 0.
Proof.
  assert (free_slots ((fun i => NN_MAX_SOCKETS - i - 1) <$> seqZ 0 NN_MAX_SOCKETS) 0 = (fun i => NN_MAX_SOCKETS - i - 1) <$> seqZ 0 NN_MAX_SOCKETS) as E.
  { unfold free_slots. rewrite take_ge; [done|]. rewrite length_fmap, length_seqZ. lia. }
  constructor.
  - rewrite length_replicate, length_fmap, length_seqZ. unfold NN_MAX_SOCKETS. lia.
  - rewrite E. apply NoDup_fmap_2; [|apply NoDup_seqZ]. intros i j. lia.
  - intros s. rewrite E, list_elem_of_fmap. unfold in_table, slot. setoid_rewrite elem_of_seqZ. split.
    + intros (i & -> & Hi). split; [lia|]. by rewrite lookup_replicate_2 by lia.
    + intros [Hs _]. exists (NN_MAX_SOCKETS - s - 1). lia.
Qed.

Lemma slot_lookup l s : is_Some (slot l s) -> exists t, l !! Z.to_nat s = Some (Some t).
Proof. unfold slot. intros [t Ht]. destruct (l !! Z.to_nat s) as [[?|]|]; naive_solver. Qed.

(** The count is that of the sockets. *)
Lemma table_count l unused n : table_ok l unused n -> Z.of_nat (length (used_slots l)) = n.
Proof.
  intros [(H1 & H2 & H3) Hn Hf].
  assert (free_slots unused n ++ used_slots l ≡ₚ seqZ 0 NN_MAX_SOCKETS) as P.
  { apply NoDup_Permutation; [|apply NoDup_seqZ|].
    - apply NoDup_app. split; [done|]. split; [|apply NoDup_filter, NoDup_seqZ].
      intros s Hs%Hf. unfold used_slots. rewrite list_elem_of_filter. intros [[t Ht] _]. destruct Hs. congruence.
    - intros s. unfold used_slots. rewrite elem_of_app, Hf, list_elem_of_filter, elem_of_seqZ. unfold in_table.
      split; [intros [[? _]|[_ ?]]; lia|]. intros Hs. destruct (slot l s) eqn:E; [right; split; [by eexists|lia]|left; split; [lia|done]]. }
  apply Permutation_length in P. rewrite length_app, length_seqZ in P. unfold free_slots in P. rewrite length_take in P. lia.
Qed.

Lemma table_update l unused n s t : table_ok l unused n -> in_table s -> is_Some (slot l s) -> table_ok (<[Z.to_nat s := Some t]> l) unused n.
Proof.
  intros [(H1 & H2 & H3) Hn Hf] Hs Hi. constructor; [by rewrite length_insert|done|].
  intros s'. rewrite Hf. split; intros [Hs' E]; (split; [done|]).
  - rewrite slot_insert by done. cases (s = s') as Es; decide_bools; [subst; destruct Hi; congruence|done].
  - rewrite slot_insert in E by done. by case_bool_decide.
Qed.

Lemma table_alloc l unused n t : table_ok l unused n -> n < NN_MAX_SOCKETS ->
  exists s, unused !! Z.to_nat (NN_MAX_SOCKETS - n - 1) = Some s /\ in_table s /\ slot l s = None /\ table_ok (<[Z.to_nat s := Some t]> l) unused (n + 1).
Proof.
  intros [(H1 & H2 & H3) Hn Hf] Hlt.
  destruct (lookup_lt_is_Some_2 unused (Z.to_nat (NN_MAX_SOCKETS - n - 1))) as [s Hs]; [lia|].
  assert (free_slots unused n = free_slots unused (n + 1) ++ [s]) as E.
  { unfold free_slots. replace (Z.to_nat (NN_MAX_SOCKETS - n)) with (Datatypes.S (Z.to_nat (NN_MAX_SOCKETS - (n + 1)))) by lia.
    apply take_S_r. by replace (Z.to_nat (NN_MAX_SOCKETS - (n + 1))) with (Z.to_nat (NN_MAX_SOCKETS - n - 1)) by lia. }
  assert (s ∈ free_slots unused n) as Hin by (rewrite E, elem_of_app, list_elem_of_singleton; by right).
  apply Hf in Hin as [Hin Hsl]. exists s. split; [done|]. split; [done|]. split; [done|].
  rewrite E in Hn. apply NoDup_app in Hn as (Hn & Hd & _).
  constructor; [rewrite length_insert; lia|done|]. intros s'. specialize (Hf s'). rewrite E, elem_of_app, list_elem_of_singleton in Hf.
  split.
  - intros Hs'. assert (s' <> s) as Hne by (intros ->; apply (Hd s Hs'); by apply list_elem_of_singleton).
    destruct (proj1 Hf (or_introl Hs')) as [? ?]. split; [done|]. rewrite (slot_insert _ _ _ s') by done. by decide_bools.
  - intros [Hs' Hsl']. rewrite (slot_insert _ _ _ s') in Hsl' by done. case_bool_decide as Es; [done|].
    destruct (proj2 Hf (conj Hs' Hsl')) as [?|?]; [done|congruence].
Qed.

Lemma table_release l unused n s : table_ok l unused n -> in_table s -> is_Some (slot l s) ->
  (Z.to_nat (NN_MAX_SOCKETS - n) < length unused)%nat /\ table_ok (<[Z.to_nat s := None]> l) (<[Z.to_nat (NN_MAX_SOCKETS - n) := s]> unused) (n - 1).
Proof.
  intros Hok Hs Hi. pose proof (table_count _ _ _ Hok) as Hc. destruct Hok as [(H1 & H2 & H3) Hn Hf].
  assert (0 < n) as H0.
  { assert (s ∈ used_slots l) as Hu by (apply list_elem_of_filter; split; [done|apply elem_of_seqZ; unfold in_table in Hs; lia]).
    destruct (used_slots l); [by apply not_elem_of_nil in Hu|cbn in Hc; lia]. }
  split; [lia|].
  assert (free_slots (<[Z.to_nat (NN_MAX_SOCKETS - n) := s]> unused) (n - 1) = free_slots unused n ++ [s]) as E.
  { unfold free_slots. replace (Z.to_nat (NN_MAX_SOCKETS - (n - 1))) with (Datatypes.S (Z.to_nat (NN_MAX_SOCKETS - n))) by lia.
    rewrite (take_S_r _ _ s) by (apply list_lookup_insert_eq; lia). f_equal. by apply take_insert_ge. }
  constructor; [rewrite !length_insert; lia| |].
  - rewrite E. apply NoDup_app. split; [done|]. split; [|apply NoDup_singleton].
    intros s' Hs' ->%list_elem_of_singleton. apply Hf in Hs' as [_ ?]. destruct Hi. congruence.
  - intros s'. rewrite E, elem_of_app, list_elem_of_singleton, Hf. split.
    + intros [[Hs' Hsl]| ->]; (split; [done|]); rewrite slot_insert by done; [|by decide_bools]. case_bool_decide; done.
    + intros [Hs' Hsl]. rewrite slot_insert in Hsl by done. case_bool_decide as Es; [by right|by left].
Qed.
End Slots.

(** ** The calls keep the table *)

Section Safe.
  Context {X : Type} `{EnvironmentSpec X} (create : Z * Z -> X) (create_ok : forall t, eview_of (create t) = EView ∅ [] SActive).
  Local Abbreviation glob := (nn_global (X * life)).
  Implicit Types (g : glob).

Definition socks_inv (l : list (option (X * life))) : Prop := forall s x self, in_table s -> slot l s = Some (x, self) -> life_inv (eview_of x) self.
Definition global_ok g : Prop := forall l, g_socks g = Some l -> table_ok l (g_unused g) (g_nsocks g) /\ 0 < g_nsocks g /\ socks_inv l.
Definition descriptors g : list Z := match g_socks g with None => [] | Some l => used_slots l end.

Lemma socket_at_slot g s l : g_socks g = Some l -> in_table s -> socket_at g s = slot l s.
Proof. intros E Hs. unfold socket_at, in_table in *. rewrite E. by decide_bools. Qed.

Lemma socket_at_some g s t : socket_at g s = Some t -> in_table s /\ exists l, g_socks g = Some l /\ slot l s = Some t.
Proof.
  unfold socket_at, in_table. case_bool_decide; [done|]. case_bool_decide; [done|]. cbn. destruct (g_socks g) as [l|]; [|done]. intros E. split; [lia|by exists l].
Qed.

Lemma socket_at_out g s : ~ in_table s -> socket_at g s = None.
Proof. unfold socket_at, in_table. intros Hs. case_bool_decide; [done|]. case_bool_decide; [done|]. lia. Qed.

(** The sockets are those of a list of slots. *)
Lemma sockets_insert g g' l s t s' : g_socks g' = Some (<[Z.to_nat s := t]> l) -> g_socks g = Some l -> length l = Z.to_nat NN_MAX_SOCKETS -> in_table s ->
  socket_at g' s' = if bool_decide (s = s') then t else socket_at g s'.
Proof.
  intros E E0 Hl Hs. destruct (decide (in_table s')) as [Hs'|Hs'].
  - rewrite (socket_at_slot g' s' _ E), (socket_at_slot g s' _ E0) by done. by apply slot_insert.
  - rewrite !socket_at_out by done. case_bool_decide; [by subst|done].
Qed.

Lemma socks_insert l s t : length l = Z.to_nat NN_MAX_SOCKETS -> in_table s -> socks_inv l -> (forall x self, t = Some (x, self) -> life_inv (eview_of x) self) ->
  socks_inv (<[Z.to_nat s := t]> l).
Proof. intros Hl Hs Hi Ht s' x self Hs'. rewrite slot_insert by done. case_bool_decide; [by apply Ht|by apply Hi]. Qed.

Lemma put_ok g s t x self : global_ok g -> socket_at g s = Some t -> life_inv (eview_of x) self ->
  global_ok (put_socket g s (Some (x, self))) /\ forall s', socket_at (put_socket g s (Some (x, self))) s' = if bool_decide (s = s') then Some (x, self) else socket_at g s'.
Proof.
  intros G Hs I. apply socket_at_some in Hs as (Hs & l & El & Hsl). destruct (G l El) as (Tk & Hn & Hi). destruct (tk_len _ _ _ Tk) as (Hl & _).
  unfold put_socket. rewrite El. cbn. split.
  - intros l' [= <-]. cbn. split; [by apply table_update; [..|rewrite Hsl]|]. split; [done|]. apply socks_insert; try done. by intros ?? [= <- <-].
  - intros s'. by apply (sockets_insert g _ l).
Qed.

Lemma at_inv g s x self : global_ok g -> socket_at g s = Some (x, self) -> life_inv (eview_of x) self.
Proof. intros G Hs. apply socket_at_some in Hs as (Hs & l & El & Hsl). destruct (G l El) as (_ & _ & Hi). by apply (Hi s). Qed.

(** *** [nn_socket] *)

(** Why no socket is created. *)
Definition socket_errno g (domain protocol os : Z) : option Z :=
  if g_terming g || g_termed g then Some ETERM
  else if negb (bool_decide (domain = AF_SP)) && negb (bool_decide (domain = AF_SP_RAW)) then Some EAFNOSUPPORT
  else if bool_decide (Z.of_nat (length (descriptors g)) >= NN_MAX_SOCKETS) then Some EMFILE
  else match find_socktype domain protocol with
       | None => Some EINVAL
       | Some _ => if bool_decide (os < 0) then Some (- os) else None
       end.

Definition socket_made g (domain protocol os : Z) (g' : glob) (rc e : Z) : Prop :=
  match socket_errno g domain protocol os with
  | Some e' => rc = -1 /\ e = e' /\ forall s, socket_at g' s = socket_at g s
  | None => e = 0 /\ in_table rc /\ socket_at g rc = None /\
            forall s, socket_at g' s = if bool_decide (rc = s) then Some (create (domain, protocol), new_life) else socket_at g s
  end.

Lemma find_socktype_is d p t : find_socktype d p = Some t -> t = (d, p).
Proof.
  unfold find_socktype. intros [_ E]%find_some. apply andb_prop in E as [E1%bool_decide_eq_true E2%bool_decide_eq_true]. destruct t. cbn in *. by subst.
Qed.

(** The table of a library that is initialised. *)
Lemma init_ok g : global_ok g -> exists l, g_socks (nn_global_init g) = Some l /\ table_ok l (g_unused (nn_global_init g)) (g_nsocks (nn_global_init g)) /\
  socks_inv l /\ g_nsocks (nn_global_init g) = Z.of_nat (length (descriptors g)) /\ (forall s, socket_at (nn_global_init g) s = socket_at g s).
Proof.
  intros G. unfold nn_global_init, descriptors. destruct (g_socks g) as [l|] eqn:El.
  - destruct (G l El) as (Tk & Hn & Hi). exists l. split_and!; try done. by rewrite (table_count _ _ _ Tk).
  - eexists. split; [done|]. cbn [g_unused g_nsocks]. split; [by apply table_init|].
    assert (forall s, slot (replicate (Z.to_nat NN_MAX_SOCKETS) (@None (X * life))) s = None) as E0.
    { intros s. unfold slot. destruct (replicate _ _ !! _) as [[?|]|] eqn:E; [|done..]. apply lookup_replicate_1 in E as [E _]. discriminate E. }
    split; [intros s x self _; by rewrite E0|]. split; [done|].
    intros s. unfold socket_at. rewrite El. case_bool_decide; [done|]. case_bool_decide; [done|]. apply E0.
Qed.

(** A failed call frees the library again when it has no socket. *)
Lemma term_global_ok g l : g_socks g = Some l -> table_ok l (g_unused g) (g_nsocks g) -> socks_inv l ->
  exists g', nn_global_term g = Ok g' /\ global_ok g' /\ (forall s, socket_at g' s = socket_at g s) /\ g_terming g' = g_terming g /\ g_termed g' = g_termed g.
Proof.
  intros El Tk Hi. unfold nn_global_term. rewrite El. decide_bools. mred. case_bool_decide as Hn.
  - exists g. split; [done|]. split; [|done]. intros l' [= <-]%(eq_trans (eq_sym El)). split; [done|]. split; [lia|done].
  - eexists. split; [done|]. split; [done|]. split; [|done].
    intros s. destruct (decide (in_table s)) as [Hs|Hs]; [|by rewrite !socket_at_out]. rewrite (socket_at_slot g s l El Hs).
    unfold socket_at. cbn. destruct (slot l s) as [t|] eqn:E; [|by repeat case_bool_decide]. exfalso.
    pose proof (table_count _ _ _ Tk) as Hc. assert (s ∈ used_slots l) as Hu.
    { apply list_elem_of_filter. split; [by rewrite E|]. apply elem_of_seqZ. unfold in_table in Hs. lia. }
    destruct (used_slots l); [by apply not_elem_of_nil in Hu|cbn in Hc; lia].
Qed.

Lemma nn_socket_ok g d p os : global_ok g ->
  exists g' rc e, nn_socket create g d p os = Ok (g', rc, e) /\ global_ok g' /\ socket_made g d p os g' rc e.
Proof.
  intros G. unfold nn_socket, socket_made, socket_errno. destruct (g_terming g || g_termed g); [by exists g, (-1), ETERM|].
  destruct (init_ok g G) as (l & El & Tk & Hi & Hc & Ha). set (g1 := nn_global_init g) in *.
  destruct (term_global_ok g1 l El Tk Hi) as (g2 & Et & G2 & Ha2 & _). unfold nn_global_create_socket. rewrite <- Hc.
  assert (forall s, socket_at g2 s = socket_at g s) as Ha3 by (intros s; by rewrite Ha2).
  destruct (negb (bool_decide (d = AF_SP)) && negb (bool_decide (d = AF_SP_RAW))).
  { mred. decide_bools. rewrite Et. mred. exists g2, (-1), EAFNOSUPPORT. done. }
  case_bool_decide as Hfull.
  { mred. decide_bools. rewrite Et. mred. exists g2, (-1), EMFILE. done. }
  destruct (table_alloc l (g_unused g1) (g_nsocks g1) (create (d, p), new_life) Tk ltac:(lia)) as (s & Es & Hs & Hsl & Tk').
  rewrite Es. mred. destruct (find_socktype d p) as [t|] eqn:Ef.
  2: { mred. decide_bools. rewrite Et. mred. exists g2, (-1), EINVAL. done. }
  apply find_socktype_is in Ef as ->. case_bool_decide as Ho.
  { mred. decide_bools. rewrite Et. mred. exists g2, (-1), (- os). done. }
  rewrite El. mred. destruct (tk_len _ _ _ Tk) as (Hl & _ & Hn). assert (Z.to_nat s < length l)%nat by (unfold in_table in Hs; lia). decide_bools. mred.
  assert (0 <= s) by (unfold in_table in Hs; lia). decide_bools. do 3 eexists. split; [done|]. split.
  - intros l' [= <-]. cbn. split; [done|]. split; [lia|]. apply socks_insert; try done. intros x self [= <- <-]. apply new_ok, create_ok.
  - split; [done|]. split; [done|]. split; [by rewrite <- Ha, (socket_at_slot g1 s l El Hs)|].
    intros s'. rewrite <- Ha. by apply (sockets_insert g1 _ l).
Qed.

(** *** [nn_close] *)

Definition active g (s : Z) : Prop := exists x self, socket_at g s = Some (x, self) /\ lf_state self = NN_SOCK_STATE_ACTIVE.

Lemma close_begin_ok g s : global_ok g -> exists g' rc e, nn_close_begin g s = Ok (g', rc, e) /\ global_ok g' /\
  (forall s', s' <> s -> socket_at g' s' = socket_at g s') /\
  (active g s /\ rc = 0 /\ e = 0 /\ (exists x self, socket_at g' s = Some (x, self) /\ comes_to_end (x, self)) \/
   ~ active g s /\ rc = -1 /\ e = EBADF /\ socket_at g' s = socket_at g s).
Proof.
  intros G. unfold nn_close_begin. destruct (socket_at g s) as [[x self]|] eqn:Hs.
  2: { exists g, (-1), EBADF. split; [done|]. split; [done|]. split; [done|]. right. split; [|done]. intros (x & self & E & _). congruence. }
  pose proof (at_inv g s x self G Hs) as I. destruct (decide (lf_state self = NN_SOCK_STATE_ACTIVE)) as [Ha|Ha].
  - destruct (close_life_ok x self I Ha) as (x' & self' & -> & I' & N). mred. destruct (put_ok g s _ x' self' G Hs I') as [G' A].
    decide_bools. do 3 eexists. split; [done|]. split; [done|]. split; [intros s' Hne; rewrite A; by decide_bools|].
    left. split; [by exists x, self|]. split; [done|]. split; [done|]. exists x', self'. rewrite A. decide_bools. split; [done|]. by apply ends.
  - assert (nn_close_start x self = Ok (x, self, - EBADF)) as ->.
    { unfold nn_close_start, nn_sock_hold. destruct I as [_ St]. unfold life_state_ok in St. by destruct (lf_state self). }
    mred. destruct (put_ok g s _ x self G Hs I) as [G' A]. decide_bools. do 3 eexists. split; [done|]. split; [done|].
    split; [intros s' Hne; rewrite A; by decide_bools|]. right. split; [|split; [done|split; [done|]]].
    + intros (x1 & self1 & E & ?). rewrite Hs in E. injection E as <- <-. done.
    + rewrite A. by decide_bools.
Qed.

Lemma term_life_ok v self r : life_inv v self -> nn_sock_term self = Some r -> r = Ok tt.
Proof.
  intros [_ St] E. unfold nn_sock_term in E. case_bool_decide as H1; [done|]. case_bool_decide as H2; [done|]. injection E as <-.
  unfold life_state_ok in St. destruct (lf_state self); [done|by destruct St as (_ & _ & ? & _)|by destruct St as (_ & _ & _ & _ & ? & _)|by destruct St as (_ & _ & _ & _ & ? & _)|]. destruct St as (S1 & S2 & S3 & S4 & _). rewrite S1, S3, S4. reflexivity.
Qed.

Lemma close_end_ok g s r : global_ok g -> nn_close_end g s = Some r -> exists g', r = Ok g' /\ global_ok g' /\
  forall s', socket_at g' s' = if bool_decide (s = s') then None else socket_at g s'.
Proof.
  intros G. unfold nn_close_end. destruct (socket_at g s) as [[x self]|] eqn:Hs; [|done]. cbn.
  destruct (nn_sock_term self) as [r'|] eqn:Et; [|done]. intros [= <-]. rewrite (term_life_ok _ _ _ (at_inv g s x self G Hs) Et). mred.
  apply socket_at_some in Hs as (Hs & l & El & Hsl). destruct (G l El) as (Tk & Hn & Hi). destruct (tk_len _ _ _ Tk) as (Hl & _).
  destruct (table_release l (g_unused g) (g_nsocks g) s Tk Hs) as [Hlt Tk']; [by rewrite Hsl|]. decide_bools. mred.
  set (g1 := Global _ _ _ _ _). assert (g_socks g1 = Some (<[Z.to_nat s := None]> l)) as E1 by (unfold g1, put_socket; by rewrite El).
  destruct (term_global_ok g1 (<[Z.to_nat s := None]> l) E1) as (g' & -> & G' & A & _); [done|by apply socks_insert|].
  exists g'. split; [done|]. split; [done|]. intros s'. rewrite A. by apply (sockets_insert g _ l).
Qed.

(** *** The calls on one socket *)

Definition call_ok (f : X -> life -> result (X * life * Z)) : Prop := forall x self, life_inv (eview_of x) self -> lf_state self = NN_SOCK_STATE_ACTIVE ->
  lf_eid self < INT_MAX -> exists x' self' rc, f x self = Ok (x', self', rc) /\ life_inv (eview_of x') self' /\ lf_state self' = lf_state self /\ lf_holds self' = lf_holds self.

(** [eid] is an [int]. *)
Definition eids_ok g : Prop := forall s x self, socket_at g s = Some (x, self) -> lf_eid self < INT_MAX.

Lemma with_socket_ok g s f : global_ok g -> eids_ok g -> call_ok f -> exists g' rc e, with_socket g s f = Ok (g', rc, e) /\ global_ok g' /\
  (forall s', s' <> s -> socket_at g' s' = socket_at g s') /\ (active g s -> active g' s) /\ (~ active g s -> rc = -1 /\ e = EBADF /\ g' = g).
Proof.
  intros G Hid Hf. unfold with_socket, nn_global_hold_socket_locked. destruct (socket_at g s) as [[x self]|] eqn:Hs.
  2: { decide_bools. exists g, (-1), EBADF. done. }
  pose proof (at_inv g s x self G Hs) as I. destruct (decide (lf_state self = NN_SOCK_STATE_ACTIVE)) as [Ha|Ha].
  - unfold nn_sock_hold. rewrite Ha. decide_bools. cbn [negb]. set (self1 := lf_set_holds (lf_holds self + 1) self).
    assert (life_inv (eview_of x) self1 /\ 0 < lf_holds self) as [I1 Hh].
    { pose proof I as [E St]. unfold life_state_ok in St. rewrite Ha in St. destruct St as (S1 & S2 & S3 & S4 & S5). split; [|done].
      constructor; [by apply (eps_only (eview_of x) _ self)|]. unfold life_state_ok. cbn. rewrite Ha. split_and!; try done. lia. }
    destruct (put_ok g s _ x self1 G Hs I1) as [G1 A1]. set (g1 := put_socket g s _) in *. decide_bools. rewrite A1. decide_bools. mred.
    destruct (Hf x self1 I1) as (x' & self' & rc & -> & I' & Hst & Hho); [done|by apply (Hid s x self)|]. mred.
    destruct (put_ok g1 s (x, self1) x' self' G1) as [G2 A2]; [rewrite A1; by decide_bools|done|]. set (g2 := put_socket g1 s _) in *.
    unfold nn_global_rele_socket. rewrite A2. decide_bools. mred. cbn in Hho.
    destruct (inv_rele _ _ I') as [I2 _]; [right; lia|lia|].
    destruct (put_ok g2 s (x', self') x' (nn_sock_rele self') G2) as [G3 A3]; [rewrite A2; by decide_bools|done|].
    set (g3 := put_socket g2 s _) in *.
    assert (forall s', s' <> s -> socket_at g3 s' = socket_at g s') as O by (intros s' Hne; rewrite A3, A2, A1; by decide_bools).
    assert (active g3 s) as A. { exists x', (nn_sock_rele self'). rewrite A3. decide_bools. split; [done|]. rewrite (proj1 (rele_same self')), Hst. done. }
    assert (active g s) by (by exists x, self).
    case_bool_decide; do 3 eexists; (split; [done|]); (split; [done|]); done.
  - assert (~ active g s) as Hna. { intros (x1 & self1 & E & ?). rewrite Hs in E. injection E as <- <-. done. }
    exists g, (-1), EBADF. split; [|done]. unfold nn_sock_hold. destruct I as [_ St]. unfold life_state_ok in St. destruct (lf_state self); done.
Qed.

Lemma create_ep_call template addr bind : call_ok (fun x self => nn_global_create_ep template x self addr bind).
Proof.
  intros x self I Ha Hid. unfold nn_global_create_ep. destruct (parse_address addr) as [[tp a]|rc] eqn:E.
  - destruct (add_life_ok x self template tp bind a I Ha) as (x' & self' & rc & -> & I' & ?); [|done|by exists x', self', rc].
    destruct addr as [addr|]; [|done]. apply parse_address_spec in E as (name & _ & -> & Hl). unfold NN_SOCKADDR_MAX in Hl. rewrite !length_app in Hl. lia.
  - by exists x, self, rc.
Qed.

Lemma shutdown_call how : call_ok (fun x self => '(x, self, rc) ← nn_sock_rm_ep x self how; _ ← assert_ (bool_decide (rc <= 0)); Ok (x, self, rc)).
Proof. intros x self I Ha Hid. destruct (rm_ok x self how I) as (x' & self' & rc & -> & Hrc & ?). mred. decide_bools. mred. by exists x', self', rc. Qed.

(** ** Runs of the library *)

Inductive g_step g : result glob -> Prop :=
  | GSocket d p os : g_step g (fst ∘ fst <$> nn_socket create g d p os)
  | GCloseBegin s : g_step g (fst ∘ fst <$> nn_close_begin g s)
  | GCloseEnd s r : nn_close_end g s = Some r -> g_step g r
  | GLife s x self r : socket_at g s = Some (x, self) -> life_step (x, self) r -> g_step g (t ← r; Ok (put_socket g s (Some t)))
  | GTermBegin : g_step g (Ok (nn_term_begin g))
  | GTermEnd : g_step g (Ok (nn_term_end g))
  | GInit g' : nn_init g = Some g' -> g_step g (Ok g').

Inductive g_reach (g0 : glob) : glob -> Prop :=
  | GReach0 : g_reach g0 g0
  | GReachS g g' : g_reach g0 g -> g_step g (Ok g') -> g_reach g0 g'.

Lemma g_step_ok g r : global_ok g -> g_step g r -> exists g', r = Ok g' /\ global_ok g'.
Proof.
  intros G [d p os|s|s r' E|s x self r' Hs Hr| | |g' E].
  - destruct (nn_socket_ok g d p os G) as (g' & rc & e & -> & G' & _). by exists g'.
  - destruct (close_begin_ok g s G) as (g' & rc & e & -> & G' & _). by exists g'.
  - destruct (close_end_ok g s r' G E) as (g' & -> & G' & _). by exists g'.
  - destruct (life_inv_step (x, self) r' (at_inv g s x self G Hs) Hr) as ([x' self'] & -> & I). mred.
    destruct (put_ok g s _ x' self' G Hs I) as [G' _]. by eexists.
  - by eexists.
  - by eexists.
  - exists g'. split; [done|]. unfold nn_init in E. destruct (g_terming g); [done|]. injection E as <-. exact G.
Qed.

Lemma g_reach_ok g : g_reach global_zero g -> global_ok g.
Proof. induction 1 as [|g g' _ IH Hst]; [done|]. by destruct (g_step_ok g (Ok g') IH Hst) as (g1 & [= ->] & G). Qed.

(** Before [nn_term], after which the manual announces ETERM. *)
Definition in_use g : Prop := g_terming g = false /\ g_termed g = false.

(** C37. In every run of the library in which endpoints are only added to sockets
    that no other thread is closing, with any interleaving of calls, events and
    threads that close: nothing aborts; [nn_socket] fails exactly for one of its
    documented reasons, EMFILE when all 512 descriptors are in use, and otherwise
    gives a descriptor that is not in use, with a fresh socket, and touches no
    other; [nn_close] of an open socket succeeds, once, and its wait comes to an
    end, after which the descriptor is free again and no other has changed;
    calls on one socket keep it open when it is, and fail and change nothing when
    it is not, before [nn_term] with EBADF. *)
Theorem descriptors_ok g : g_reach global_zero g ->
  (forall r, g_step g r -> exists g', r = Ok g') /\
  (forall d p os, exists g' rc e, nn_socket create g d p os = Ok (g', rc, e) /\ socket_made g d p os g' rc e) /\
  (forall s, exists g' rc e, nn_close_begin g s = Ok (g', rc, e) /\ (forall s', s' <> s -> socket_at g' s' = socket_at g s') /\
     (active g s /\ rc = 0 /\ (exists x self, socket_at g' s = Some (x, self) /\ comes_to_end (x, self)) \/
      ~ active g s /\ rc = -1 /\ (in_use g -> e = EBADF) /\ socket_at g' s = socket_at g s)) /\
  (forall s x self, socket_at g s = Some (x, self) -> nn_sock_term self = Some (Ok tt) ->
     exists g', nn_close_end g s = Some (Ok g') /\ forall s', socket_at g' s' = if bool_decide (s = s') then None else socket_at g s') /\
  (eids_ok g -> forall s template addr how,
     Forall (fun r => exists g' rc e, r = Ok (g', rc, e) /\ (active g s -> active g' s) /\ (~ active g s -> rc = -1 /\ (in_use g -> e = EBADF) /\ g' = g))
       [nn_bind g s template addr; nn_connect g s template addr; nn_shutdown g s how]).
Proof.
  intros G%g_reach_ok. split; [|split; [|split; [|split]]].
  - intros r Hr. destruct (g_step_ok g r G Hr) as (g' & -> & _). by exists g'.
  - intros d p os. destruct (nn_socket_ok g d p os G) as (g' & rc & e & -> & _ & M). by exists g', rc, e.
  - intros s. destruct (close_begin_ok g s G) as (g' & rc & e & -> & _ & O & D). exists g', rc, e. split; [done|]. split; [exact O|].
    destruct D as [(D1 & D2 & _ & D4)|(D1 & D2 & D3 & D4)]; [by left|by right].
  - intros s x self Hs Ht. destruct (nn_close_end g s) as [r|] eqn:E.
    + destruct (close_end_ok g s r G E) as (g' & -> & _ & A). by exists g'.
    + exfalso. unfold nn_close_end in E. rewrite Hs in E. cbn in E. by rewrite Ht in E.
  - intros Hid s template addr how.
    assert (forall f, call_ok f -> exists g' rc e, with_socket g s f = Ok (g', rc, e) /\ (active g s -> active g' s) /\ (~ active g s -> rc = -1 /\ (in_use g -> e = EBADF) /\ g' = g)) as C.
    { intros f Hf. destruct (with_socket_ok g s f G Hid Hf) as (g' & rc & e & -> & _ & _ & D1 & D2). exists g', rc, e. split; [done|]. split; [done|].
      intros Hn. destruct (D2 Hn) as (? & ? & ?). done. }
    apply Forall_cons; split; [apply C, create_ep_call|]. apply Forall_cons; split; [apply C, create_ep_call|]. apply Forall_cons; split; [apply C, shutdown_call|done].
Qed.
End Safe.

(** ** A run *)

Definition no_type (t : Z * Z) : eview := ref_view.
Definition to_global (g : nn_global (eview * life)) (r : result (nn_global (eview * life))) := match r with Ok g' => g' | _ => g end.
Definition lib1 := to_global global_zero (fst ∘ fst <$> nn_socket no_type global_zero AF_SP NN_PAIR 0).
Definition lib2 := to_global lib1 (fst ∘ fst <$> nn_socket no_type lib1 AF_SP_RAW NN_BUS 0).
(** The first socket is being closed and has nothing to wait for. *)
Definition lib3 := to_global lib2 (fst ∘ fst <$> nn_close_begin lib2 0).

Lemma g_reach_run g0 g r : g_reach no_type g0 g -> g_step no_type g r -> r = Ok (to_global g r) -> g_reach no_type g0 (to_global g r).
Proof. intros R Hs E. rewrite E in Hs. by eapply GReachS. Qed.

Lemma no_type_fresh t : eview_of (no_type t) = EView ∅ [] SActive.
Proof. reflexivity. Qed.

Lemma lib_reached : g_reach no_type global_zero lib3.
Proof.
  apply g_reach_run; [|apply GCloseBegin|by vm_compute]. apply g_reach_run; [|apply GSocket|by vm_compute].
  apply g_reach_run; [|apply GSocket|by vm_compute]. apply GReach0.
Qed.

Lemma descriptors_ok_witness : descriptors lib3 = [0; 1] /\
  exists g' rc e, nn_socket no_type lib3 AF_SP NN_REQ 0 = Ok (g', rc, e) /\ socket_made no_type lib3 AF_SP NN_REQ 0 g' rc e.
Proof. split; [by vm_compute|]. apply (descriptors_ok no_type no_type_fresh lib3 lib_reached). Defined.

(** After [nn_term], the calls on a descriptor, which it has closed, fail with EBADF. *)
Example terminated_is_ebadf : nn_shutdown (nn_term_end (nn_term_begin global_zero)) 0 1 = Ok (nn_term_end (nn_term_begin (global_zero (T := eview * life))), -1, EBADF).
Proof. reflexivity. Qed.

(** The errors of accepting are never reported. *)
Example accept_errors_hidden : exists g, nn_get_statistic lib3 1 (fun k => if bool_decide (k = NN_STAT_ACCEPT_ERRORS) then 7 else 0) 107 = Ok (g, 0, 0).
Proof. eexists. vm_compute. reflexivity. Qed.
