(* ===== verification/Poller.v ===== *)
(** * What a worker expects of its poller ([aio/poller.h])

    The functions of [poller.h] as the class [Poller], and as an executable
    abstract poller: the registered handles with what they poll for, and the
    events that have not been handed out.  [PollerSpec] is the contract: every
    step of an implementation is one the abstract poller allows.  The files
    [Epoll] and [Pollset] are the two implementations for POSIX. *)

From S2P Require Import Prelude Wire.
Local Open Scope Z_scope.

Definition NN_POLLER_IN : Z := 1.
Definition NN_POLLER_OUT : Z := 2.
Definition NN_POLLER_ERR : Z := 3.

(** The bits of [poll] and of [epoll], which agree. *)
Definition POLLIN : Z := 1.
Definition POLLOUT : Z := 4.
Definition POLLERR : Z := 8.
Definition POLLHUP : Z := 16.
Definition has (events bit : Z) : bool := negb (bool_decide (Z.land events bit = 0)).

Definition EINTR : Z := 4.

(** What [poll] or [epoll_wait] reports: pairs of a file descriptor and its
    events, or an error, for example that a signal came. *)
Inductive reply := Ready (ans : list (Z * Z)) | Errno (e : Z).

(** Handles are named by their addresses.  [p_wait] is given the replies of the
    kernel to the system calls it makes, one after the other, and returns 0 or
    an error; it is still waiting ([Err NoFuel]) when there are no more.
    [p_event] returns [None] for -EAGAIN. *)
Class Poller (P : Type) := {
  p_init : P;
  p_add : P -> Z -> Z -> result P;
  p_rm : P -> Z -> result P;
  p_set : P -> Z -> Z -> result P;
  p_reset : P -> Z -> Z -> result P;
  p_wait : P -> list reply -> result (P * Z);
  p_event : P -> result (P * option (Z * Z))
}.

(** ** The abstract poller *)

(** [pv_reg]: by handle, the file descriptor and the events polled for;
    [pv_pend]: by handle, the events of the last wait that are left. *)
Record pview := PView { pv_reg : gmap Z (Z * Z); pv_pend : gmap Z Z }.

Definition pview_init : pview := PView ∅ ∅.

Inductive poll_op := PAdd (fd h : Z) | PRm (h : Z) | PSet (h bit : Z) | PReset (h bit : Z) | PWait (ans : list (Z * Z)) | PEvent.

Definition put_events (h events : Z) (m : gmap Z Z) : gmap Z Z := if bool_decide (events = 0) then delete h m else <[h := events]> m.

(** The next event of a handle, and what is left of it. *)
Definition next_event (events : Z) : Z * Z :=
  if has events POLLIN then (NN_POLLER_IN, Z.ldiff events POLLIN)
  else if has events POLLOUT then (NN_POLLER_OUT, Z.ldiff events POLLOUT)
  else (NN_POLLER_ERR, 0).

Definition reported (ans : list (Z * Z)) (r : Z * Z) : option Z := list_to_map (M := gmap Z Z) ans !! r.1.

(** One step, for an output the code may give; [None]: it may not. *)
Definition a_next (v : pview) (op : poll_op) (out : option (Z * Z)) : option pview :=
  match op, out with
  | PAdd fd h, None => Some (PView (<[h := (fd, 0)]> (pv_reg v)) (pv_pend v))
  | PRm h, None => Some (PView (delete h (pv_reg v)) (delete h (pv_pend v)))
  | PSet h bit, None => Some (PView (alter (fun r => (r.1, Z.lor r.2 bit)) h (pv_reg v)) (pv_pend v))
  | PReset h bit, None =>
      Some (PView (alter (fun r => (r.1, Z.ldiff r.2 bit)) h (pv_reg v))
              (match pv_pend v !! h with Some e => put_events h (Z.ldiff e bit) (pv_pend v) | None => pv_pend v end))
  | PWait ans, None => Some (PView (pv_reg v) (omap (reported ans) (pv_reg v)))
  | PEvent, None => if bool_decide (pv_pend v = ∅) then Some v else None
  | PEvent, Some (ev, h) =>
      match pv_pend v !! h with
      | None => None
      | Some e => if bool_decide (ev = (next_event e).1) then Some (PView (pv_reg v) (put_events h (next_event e).2 (pv_pend v))) else None
      end
  | _, _ => None
  end.

(** What the caller may ask, and what the kernel may answer: events that were
    asked for, errors and hang-ups, for descriptors that are polled. *)
Definition answer_ok (v : pview) (r : Z * Z) : Prop :=
  r.2 <> 0 /\ exists h e, pv_reg v !! h = Some (r.1, e) /\ Z.ldiff r.2 (Z.lor e (Z.lor POLLERR POLLHUP)) = 0.

Definition legal (limit : Z) (v : pview) (op : poll_op) : Prop :=
  match op with
  | PAdd fd h => pv_reg v !! h = None /\ forall h' r, pv_reg v !! h' = Some r -> r.1 <> fd
  | PRm h => is_Some (pv_reg v !! h)
  | PSet h bit | PReset h bit => is_Some (pv_reg v !! h) /\ (bit = POLLIN \/ bit = POLLOUT)
  | PWait ans => NoDup (fst <$> ans) /\ Forall (answer_ok v) ans /\ Z.of_nat (length ans) <= limit
  | PEvent => True
  end.

(** The same, to be computed. *)
Definition answer_b (v : pview) (r : Z * Z) : bool :=
  negb (bool_decide (r.2 = 0)) && existsb (fun hr => bool_decide (hr.2.1 = r.1) && bool_decide (Z.ldiff r.2 (Z.lor hr.2.2 (Z.lor POLLERR POLLHUP)) = 0)) (map_to_list (pv_reg v)).
Definition legal_b (limit : Z) (v : pview) (op : poll_op) : bool :=
  match op with
  | PAdd fd h => bool_decide (pv_reg v !! h = None) && bool_decide (map_Forall (fun _ (r : Z * Z) => r.1 <> fd) (pv_reg v))
  | PRm h => bool_decide (is_Some (pv_reg v !! h))
  | PSet h bit | PReset h bit => bool_decide (is_Some (pv_reg v !! h)) && (bool_decide (bit = POLLIN) || bool_decide (bit = POLLOUT))
  | PWait ans => bool_decide (NoDup (fst <$> ans)) && forallb (answer_b v) ans && bool_decide (Z.of_nat (length ans) <= limit)
  | PEvent => true
  end.

Lemma legal_b_ok limit v op : legal_b limit v op = true -> legal limit v op.
Proof.
  destruct op; cbn; rewrite ?andb_true_iff, ?orb_true_iff, ?bool_decide_eq_true; [by intros [H1 H2]|done|done|done| |done].
  intros [[H1 H2] H3]. split; [done|]. split; [|done]. apply Forall_forall. intros r Hr. rewrite forallb_forall in H2. apply list_elem_of_In in Hr. specialize (H2 r Hr).
  unfold answer_b in H2. apply andb_true_iff in H2 as [H2 H4]. split; [by case_bool_decide|].
  apply existsb_exists in H4 as ([h [fd e]] & Hin & Hb). apply list_elem_of_In, elem_of_map_to_list in Hin. apply andb_true_iff in Hb as [Hb1%bool_decide_eq_true Hb2%bool_decide_eq_true].
  exists h, e. cbn in *. by subst.
Qed.

(** ** The contract *)

Section Contract.
  Context {P : Type} `{Poller P}.

Definition p_step (op : poll_op) (p : P) : result (P * option (Z * Z)) :=
  match op with
  | PAdd fd h => p ← p_add p fd h; Ok (p, None)
  | PRm h => p ← p_rm p h; Ok (p, None)
  | PSet h bit => p ← p_set p h bit; Ok (p, None)
  | PReset h bit => p ← p_reset p h bit; Ok (p, None)
  | PWait ans => '(p, rc) ← p_wait p [Ready ans]; _ ← assert_ (bool_decide (rc = 0)); Ok (p, None)
  | PEvent => p_event p
  end.
End Contract.

Class PollerSpec (P : Type) `{Poller P} := {
  p_limit : Z;
  p_limit_pos : 0 < p_limit;
  p_rep : P -> pview -> Prop;
  p_init_rep : p_rep p_init pview_init;
  p_step_ok p v op : p_rep p v -> legal p_limit v op -> exists p' out v', p_step op p = Ok (p', out) /\ a_next v op out = Some v' /\ p_rep p' v';
  p_retries : bool;   (** whether a wait that a signal interrupts is repeated *)
  p_interrupted p v rs : p_rep p v ->
    if p_retries then p_wait p (Errno EINTR :: rs) = p_wait p rs
    else exists p', p_wait p (Errno EINTR :: rs) = Ok (p', - EINTR) /\ p_rep p' (PView (pv_reg v) ∅)
}.

(** The replies to a wait that ends with the report [ans]; a signal comes in
    between only if the wait is then repeated. *)
Inductive waits `{PollerSpec P} : list reply -> list (Z * Z) -> Prop :=
  | WaitsReady ans : waits [Ready ans] ans
  | WaitsAgain rs ans : p_retries = true -> waits rs ans -> waits (Errno EINTR :: rs) ans.

(** ** What follows from it *)

(** Pending events are of registered handles, and are wanted. *)
Definition wanted (v : pview) (h e : Z) : Prop := exists r, pv_reg v !! h = Some r /\ Z.ldiff e (Z.lor r.2 (Z.lor POLLERR POLLHUP)) = 0.
Record pview_ok (v : pview) : Prop := {
  po_wanted h e : pv_pend v !! h = Some e -> e <> 0 /\ wanted v h e;
  po_fd h h' r r' : pv_reg v !! h = Some r -> pv_reg v !! h' = Some r' -> r.1 = r'.1 -> h = h'
}.

Lemma pview_init_ok : pview_ok pview_init.
Proof. constructor; cbn; intros *; by rewrite lookup_empty. Qed.

Lemma put_events_lookup h e m h' : put_events h e m !! h' = if bool_decide (h' = h) then (if bool_decide (e = 0) then None else Some e) else m !! h'.
Proof.
  unfold put_events. cases (h' = h) as E; decide_bools.
  - subst. case_bool_decide; [apply lookup_delete_eq|apply lookup_insert_eq].
  - case_bool_decide; [by rewrite lookup_delete_ne|by rewrite lookup_insert_ne].
Qed.

(** [e] without some bits asks for less. *)
Lemma ldiff_le e b m : Z.ldiff e m = 0 -> Z.ldiff (Z.ldiff e b) m = 0.
Proof.
  intros E. apply Z.bits_inj'. intros n Hn. rewrite !Z.ldiff_spec, Z.bits_0. assert (Z.testbit (Z.ldiff e m) n = false) as Hb by (by rewrite E, Z.bits_0).
  rewrite Z.ldiff_spec in Hb. by destruct (Z.testbit e n), (Z.testbit m n), (Z.testbit b n).
Qed.
Lemma ldiff_more e m b : Z.ldiff e m = 0 -> Z.ldiff e (Z.lor m b) = 0.
Proof.
  intros E. apply Z.bits_inj'. intros n Hn. rewrite Z.ldiff_spec, Z.lor_spec, Z.bits_0. assert (Z.testbit (Z.ldiff e m) n = false) as Hb by (by rewrite E, Z.bits_0).
  rewrite Z.ldiff_spec in Hb. by destruct (Z.testbit e n), (Z.testbit m n).
Qed.
Lemma ldiff_both e m b x : Z.ldiff e (Z.lor m x) = 0 -> Z.ldiff (Z.ldiff e b) (Z.lor (Z.ldiff m b) x) = 0.
Proof.
  intros E. apply Z.bits_inj'. intros n Hn. rewrite !Z.ldiff_spec, Z.lor_spec, Z.ldiff_spec, Z.bits_0.
  assert (Z.testbit (Z.ldiff e (Z.lor m x)) n = false) as Hb by (by rewrite E, Z.bits_0).
  rewrite Z.ldiff_spec, Z.lor_spec in Hb. by destruct (Z.testbit e n), (Z.testbit m n), (Z.testbit b n), (Z.testbit x n).
Qed.

(** What is not polled for is not pending. *)
Lemma has_bits e n : 0 <= n -> has e (2 ^ n) = Z.testbit e n.
Proof.
  intros Hn. unfold has. replace (Z.land e (2 ^ n)) with (if Z.testbit e n then 2 ^ n else 0).
  - destruct (Z.testbit e n); case_bool_decide; cbn; try done. pose proof (Z.pow_pos_nonneg 2 n). lia.
  - apply Z.bits_inj'. intros m Hm. rewrite Z.land_spec, Z.pow2_bits_eqb by done. destruct (Z.eqb_spec n m) as [->|Hne].
    + destruct (Z.testbit e m); [by rewrite Z.pow2_bits_true|by rewrite Z.bits_0].
    + rewrite andb_false_r. destruct (Z.testbit e n); [by apply Z.pow2_bits_false|apply Z.bits_0].
Qed.
Lemma ldiff_not e bit : has e bit = false -> Z.ldiff e bit = e.
Proof.
  unfold has. intros Hb. case_bool_decide as Hz; [|done]. apply Z.bits_inj'. intros n Hn. rewrite Z.ldiff_spec.
  assert (Z.testbit (Z.land e bit) n = false) as Hx by (by rewrite Hz, Z.bits_0). rewrite Z.land_spec in Hx. by destruct (Z.testbit e n), (Z.testbit bit n).
Qed.
Lemma lor_has e bit : bit = POLLIN \/ bit = POLLOUT -> has e bit = true -> Z.lor e bit = e.
Proof.
  intros Hb. assert (exists n, 0 <= n /\ bit = 2 ^ n) as (n & Hn & ->) by (destruct Hb as [-> | ->]; [by exists 0|by exists 2]).
  rewrite has_bits by done. intros He. apply Z.bits_inj'. intros m Hm. rewrite Z.lor_spec, Z.pow2_bits_eqb by done.
  destruct (Z.eqb_spec n m) as [<-|]; [by rewrite He|by rewrite orb_false_r].
Qed.
Lemma wanted_bit v h e n r : wanted v h e -> pv_reg v !! h = Some r -> 0 <= n < 3 -> Z.testbit e n = true -> Z.testbit r.2 n = true.
Proof.
  intros (r' & Hr' & Hw) Hr Hn Hb. rewrite Hr in Hr'. injection Hr' as <-.
  assert (Z.testbit (Z.ldiff e (Z.lor r.2 (Z.lor POLLERR POLLHUP))) n = false) as Hx by (by rewrite Hw, Z.bits_0).
  rewrite Z.ldiff_spec, !Z.lor_spec, Hb in Hx. assert (Z.testbit POLLERR n = false /\ Z.testbit POLLHUP n = false) as [Ee Eh].
  { assert (n = 0 \/ n = 1 \/ n = 2) as [-> | [-> | ->]] by lia; done. }
  rewrite Ee, Eh in Hx. by destruct (Z.testbit r.2 n).
Qed.
Lemma not_polled v h e bit r : wanted v h e -> pv_reg v !! h = Some r -> bit = POLLIN \/ bit = POLLOUT -> has r.2 bit = false -> has e bit = false.
Proof.
  intros W Hr Hb. assert (exists n, 0 <= n < 3 /\ bit = 2 ^ n) as (n & Hn & ->) by (destruct Hb as [-> | ->]; [by exists 0|by exists 2]).
  rewrite !has_bits by lia. intros Hf. destruct (Z.testbit e n) eqn:E; [|done]. by rewrite (wanted_bit v h e n r W Hr Hn E) in Hf.
Qed.

Lemma next_event_wanted v h e : wanted v h e -> (next_event e).2 <> 0 -> wanted v h (next_event e).2.
Proof.
  intros (r & Hr & Hw). unfold next_event. destruct (has e POLLIN); [|destruct (has e POLLOUT)]; cbn [snd]; [..|done]; intros _; exists r; (split; [done|]); by apply ldiff_le.
Qed.

Lemma reported_in ans r e : NoDup (fst <$> ans) -> reported ans r = Some e <-> (r.1, e) ∈ ans.
Proof. intros Hn. unfold reported. symmetry. by apply elem_of_list_to_map. Qed.

Lemma a_next_ok limit v op out v' : pview_ok v -> legal limit v op -> a_next v op out = Some v' -> pview_ok v'.
Proof.
  intros [W F] L. destruct op as [fd h|h|h bit|h bit|ans|], out as [[ev h1]|]; cbn; try done.
  - intros [= <-]. destruct L as [L1 L2]. constructor; cbn.
    + intros h' e He. destruct (W _ _ He) as (Hz & r & Hr & Hw). split; [done|]. exists r. split; [|done]. cbn.
      rewrite lookup_insert_ne; [done|]. intros ->. congruence.
    + intros h1 h2 r1 r2 [[<- <-]|[_ H1]]%lookup_insert_Some [[<- <-]|[_ H2]]%lookup_insert_Some E; cbn in E; [done|..|by eapply F].
      * by destruct (L2 _ _ H2).
      * by destruct (L2 _ _ H1).
  - intros [= <-]. constructor; cbn.
    + intros h' e. rewrite lookup_delete_Some. intros [Hne He]. destruct (W _ _ He) as (Hz & r & Hr & Hw). split; [done|]. exists r. split; [|done]. cbn. by rewrite lookup_delete_ne.
    + intros h1 h2 r1 r2. rewrite !lookup_delete_Some. intros [_ H1] [_ H2]. by apply F.
  - intros [= <-]. constructor; cbn.
    + intros h' e He. destruct (W _ _ He) as (Hz & r & Hr & Hw). split; [done|]. destruct (decide (h' = h)) as [->|Hne].
      * exists (r.1, Z.lor r.2 bit). cbn. rewrite lookup_alter_eq, Hr. split; [done|]. rewrite <- Z.lor_assoc, (Z.lor_comm bit), Z.lor_assoc. by apply ldiff_more.
      * exists r. cbn. by rewrite lookup_alter_ne.
    + intros h1 h2 r1 r2 H1 H2 E. apply lookup_alter_Some in H1, H2. destruct H1 as [(<- & r1' & H1 & ->)|[_ H1]], H2 as [(<- & r2' & H2 & ->)|[_ H2]]; cbn in *; eauto.
  - intros [= <-]. constructor; cbn.
    + intros h' e He. destruct (decide (h' = h)) as [->|Hne].
      * destruct (pv_pend v !! h) as [e0|] eqn:He0; [|congruence]. rewrite put_events_lookup in He. rewrite bool_decide_eq_true_2 in He by done.
        case_bool_decide; [done|]. injection He as <-. destruct (W _ _ He0) as (Hz & r & Hr & Hw). split; [done|].
        exists (r.1, Z.ldiff r.2 bit). cbn. rewrite lookup_alter_eq, Hr. split; [done|]. by apply ldiff_both.
      * assert (pv_pend v !! h' = Some e) as He'.
        { destruct (pv_pend v !! h); [|done]. rewrite put_events_lookup, bool_decide_eq_false_2 in He; done. }
        destruct (W _ _ He') as (Hz & r & Hr & Hw). split; [done|]. exists r. cbn. by rewrite lookup_alter_ne.
    + intros h1 h2 r1 r2 H1 H2 E. apply lookup_alter_Some in H1, H2. destruct H1 as [(<- & r1' & H1 & ->)|[_ H1]], H2 as [(<- & r2' & H2 & ->)|[_ H2]]; cbn in *; eauto.
  - intros [= <-]. destruct L as (L1 & L2 & _). constructor; cbn; [|done].
    intros h e (r & Hr & Hw)%lookup_omap_Some. apply (reported_in _ _ _ L1) in Hr. rewrite Forall_forall in L2.
    destruct (L2 _ Hr) as (Hz & h' & e' & Hr' & Hd). cbn in *. split; [done|]. assert (h' = h) as ->. { apply (F _ _ _ _ Hr' Hw). done. }
    exists r. split; [done|]. rewrite Hw in Hr'. injection Hr' as ->. exact Hd.
  - destruct (pv_pend v !! h1) as [e|] eqn:He; [|done]. case_bool_decide; [|done]. intros [= <-]. constructor; cbn; [|done].
    intros h' e'. rewrite put_events_lookup. cases (h' = h1) as E; decide_bools; [|by apply W]. case_bool_decide; [done|]. intros [= <-]. subst.
    split; [done|]. apply (next_event_wanted v h1 e); [apply W|]; done.
  - case_bool_decide; [|done]. intros [= <-]. by constructor.
Qed.

(** An event is for a registered handle that polls for it at this moment. *)
Lemma event_wanted v ev h v' : pview_ok v -> a_next v PEvent (Some (ev, h)) = Some v' ->
  exists r, pv_reg v !! h = Some r /\ (ev = NN_POLLER_IN -> has r.2 POLLIN) /\ (ev = NN_POLLER_OUT -> has r.2 POLLOUT).
Proof.
  intros [W _]. cbn. destruct (pv_pend v !! h) as [e|] eqn:He; [|done]. case_bool_decide as Hev; [|done]. intros _.
  destruct (W _ _ He) as (_ & r & Hr & Hw). exists r. split; [done|].
  assert (forall n, 0 <= n < 3 -> Z.testbit e n = true -> Z.testbit r.2 n = true) as Hb by (intros n Hn; apply (wanted_bit v h e n r); [by exists r|done..]).
  subst ev. unfold next_event. change POLLIN with (2 ^ 0). change POLLOUT with (2 ^ 2). rewrite !has_bits by lia.
  destruct (Z.testbit e 0) eqn:E0; [|destruct (Z.testbit e 2) eqn:E2]; cbn; (split; intros E; try discriminate E); apply Is_true_true; [apply (Hb 0)|apply (Hb 2)]; done.
Qed.

Section Runs.
  Context {P : Type} `{PollerSpec P}.

(** A legal use of a poller, and the abstract one along. *)
Inductive tracks : P -> pview -> Prop :=
  | Tracks0 : tracks p_init pview_init
  | TracksS p v op p' out v' : tracks p v -> legal p_limit v op -> p_step op p = Ok (p', out) -> a_next v op out = Some v' -> tracks p' v'.

Lemma tracks_rep p v : tracks p v -> p_rep p v /\ pview_ok v.
Proof.
  induction 1 as [|p v op p' out v' _ [IR IO] L E A]; [split; [apply p_init_rep|apply pview_init_ok]|].
  destruct (p_step_ok p v op IR L) as (p1 & out1 & v1 & E1 & A1 & R1). rewrite E1 in E. injection E as -> ->. rewrite A1 in A. injection A as ->.
  split; [done|]. by eapply a_next_ok.
Qed.

Lemma poller_ok p v op : tracks p v -> legal p_limit v op ->
  exists p' out v', p_step op p = Ok (p', out) /\ a_next v op out = Some v' /\ tracks p' v' /\
    (forall ev h, out = Some (ev, h) -> exists r, pv_reg v !! h = Some r /\ (ev = NN_POLLER_IN -> has r.2 POLLIN) /\ (ev = NN_POLLER_OUT -> has r.2 POLLOUT)).
Proof.
  intros T L. destruct (tracks_rep p v T) as [R O]. destruct (p_step_ok p v op R L) as (p' & out & v' & E & A & _).
  exists p', out, v'. split; [done|]. split; [done|]. split; [by eapply TracksS|]. intros ev h ->. destruct op; try done. by eapply event_wanted.
Qed.

(** A sequence of calls, and the poller it leaves. *)
Fixpoint p_run (ops : list poll_op) (p : P) (v : pview) : option (P * pview) :=
  match ops with
  | [] => Some (p, v)
  | op :: ops => match p_step op p with Ok (p, out) => match a_next v op out with Some v => p_run ops p v | None => None end | _ => None end
  end.
Fixpoint legal_run (ops : list poll_op) (p : P) (v : pview) : bool :=
  match ops with
  | [] => true
  | op :: ops => legal_b p_limit v op && match p_step op p with Ok (p, out) => match a_next v op out with Some v => legal_run ops p v | None => false end | _ => false end
  end.
Lemma tracks_run ops : forall p v p' v', tracks p v -> legal_run ops p v = true -> p_run ops p v = Some (p', v') -> tracks p' v'.
Proof.
  induction ops as [|op ops IH]; intros p v p' v' T L; cbn in *; [by intros [= <- <-]|]. apply andb_true_iff in L as [L1%legal_b_ok L2].
  destruct (p_step op p) as [[p1 out]|] eqn:E; [|done]. destruct (a_next v op out) as [v1|] eqn:A; [|done]. apply IH; [by eapply TracksS|done].
Qed.
End Runs.

(** ** Batches of events

    Both implementations keep the events of the last wait in an array and walk
    over it; entries without events are skipped. *)

Definition live (l : list (Z * Z)) : list (Z * Z) := filter (fun r => r.1 <> 0) l.
Record pend_rep (l : list (Z * Z)) (m : gmap Z Z) : Prop := {
  pr_nodup : NoDup (snd <$> live l);
  pr_lookup h e : m !! h = Some e <-> (e, h) ∈ live l
}.

(** The loop that skips empty entries. *)
Fixpoint skip_empty (l : list (Z * Z)) : nat :=
  match l with [] => 0 | r :: l => if bool_decide (r.1 = 0) then S (skip_empty l) else 0 end.

Lemma live_cons_zero r l : r.1 = 0 -> live (r :: l) = live l.
Proof. intros Hr. unfold live. by rewrite filter_cons, decide_False by (intros Hn; by apply Hn). Qed.
Lemma live_cons r l : r.1 <> 0 -> live (r :: l) = r :: live l.
Proof. intros Hr. unfold live. by rewrite filter_cons, decide_True. Qed.

Lemma elem_live e h l : (e, h) ∈ live l <-> (e, h) ∈ l /\ e <> 0.
Proof. unfold live. rewrite list_elem_of_filter. naive_solver. Qed.

Lemma pend_rep_zero r l m : r.1 = 0 -> pend_rep (r :: l) m <-> pend_rep l m.
Proof. intros Hr. by split; intros [N L]; constructor; rewrite ?live_cons_zero in * by done. Qed.

Lemma pend_rep_skip l m : pend_rep l m -> pend_rep (drop (skip_empty l) l) m.
Proof.
  induction l as [|r l IH]; [done|]. cbn. case_bool_decide as Hr; [|done]. intros R. cbn. apply IH. by apply (pend_rep_zero r).
Qed.

Lemma skip_empty_head l r : l !! skip_empty l = Some r -> r.1 <> 0.
Proof. induction l as [|r' l IH]; [done|]. cbn. case_bool_decide as Hr; [exact IH|]. by intros [= <-]. Qed.

Lemma pend_rep_empty l m : pend_rep l m -> l = [] -> m = ∅.
Proof. intros [_ L] ->. apply map_empty. intros h. destruct (m !! h) as [e|] eqn:E; [|done]. by apply L, not_elem_of_nil in E. Qed.

Lemma pend_rep_tail e h l m : e <> 0 -> pend_rep ((e, h) :: l) m -> m !! h = Some e /\ pend_rep l (delete h m) /\ h ∉ (snd <$> live l).
Proof.
  intros He [N L]. rewrite live_cons in N by done. cbn in N. apply NoDup_cons in N as [Hh N]. split; [|split; [|done]].
  - apply L. rewrite live_cons by done. apply list_elem_of_here.
  - constructor; [done|]. intros h' e'. rewrite lookup_delete_Some, L, live_cons by done. rewrite elem_of_cons. split.
    + intros [Hne [[= -> ->]|?]]; [done|done].
    + intros Hin. split; [|by right]. intros <-. apply Hh. apply list_elem_of_fmap. by exists (e', h).
Qed.

(** The first entry changes. *)
Lemma pend_rep_head e e' h l m : e <> 0 -> pend_rep ((e, h) :: l) m -> pend_rep ((e', h) :: l) (put_events h e' m).
Proof.
  intros He R. destruct (pend_rep_tail e h l m He R) as (Hm & [N L] & Hh). destruct (decide (e' = 0)) as [->|He'].
  - unfold put_events. decide_bools. apply pend_rep_zero; done.
  - constructor; rewrite live_cons by done.
    + cbn. apply NoDup_cons. done.
    + intros h' e1. rewrite put_events_lookup, elem_of_cons, <- L, lookup_delete_Some. decide_bools. case_bool_decide; naive_solver.
Qed.

(** The events of a handle change, wherever they are. *)
Definition at_hndl (h : Z) (g : Z -> Z) (r : Z * Z) : Z * Z := if bool_decide (r.2 = h) then (g r.1, r.2) else r.

Lemma at_hndl_live h g l : g 0 = 0 -> forall h', h' ∈ (snd <$> live (at_hndl h g <$> l)) -> h' ∈ (snd <$> live l).
Proof.
  intros Hg h'. rewrite !list_elem_of_fmap. intros ([e h1] & -> & Hin). apply elem_live in Hin as [Hin He].
  apply list_elem_of_fmap in Hin as ([e1 h2] & E & Hin). unfold at_hndl in E. cbn in E. case_bool_decide; injection E as -> ->.
  - subst. exists (e1, h). split; [done|]. apply elem_live. split; [done|]. intros ->. done.
  - exists (e1, h2). split; [done|]. by apply elem_live.
Qed.

Lemma pend_rep_at h g l m : g 0 = 0 -> pend_rep l m -> pend_rep (at_hndl h g <$> l) (match m !! h with Some e => put_events h (g e) m | None => m end).
Proof.
  intros Hg [N L]. constructor.
  - clear L. induction l as [|[e h1] l IH]; [constructor|]. cbn [fmap list_fmap]. destruct (decide (e = 0)) as [->|He].
    + rewrite live_cons_zero in N by done. rewrite live_cons_zero; [by apply IH|]. unfold at_hndl. cbn. by case_bool_decide.
    + rewrite live_cons in N by done. cbn in N. apply NoDup_cons in N as [Hh N].
      destruct (decide ((at_hndl h g (e, h1)).1 = 0)) as [Hz|Hz]; [rewrite live_cons_zero by done; by apply IH|]. rewrite live_cons by done. cbn. apply NoDup_cons. split; [|by apply IH].
      intros Hin%at_hndl_live; [|done]. apply Hh. unfold at_hndl in Hin. by case_bool_decide.
  - assert (forall e, m !! h = Some e <-> (e, h) ∈ l /\ e <> 0) as Lh by (intros e; by rewrite L, elem_live).
    intros h' e. rewrite elem_live, list_elem_of_fmap. transitivity (if bool_decide (h' = h) then exists e0, m !! h = Some e0 /\ e = g e0 /\ e <> 0 else m !! h' = Some e).
    + destruct (m !! h) as [e0|] eqn:He0; [rewrite put_events_lookup|]; case_bool_decide; subst; [..|done].
      * case_bool_decide; naive_solver.
      * done.
      * rewrite He0. naive_solver.
    + unfold at_hndl. case_bool_decide as Hh.
      * subst. split.
        -- intros (e0 & Hm & -> & Hz). split; [|done]. exists (e0, h). cbn. decide_bools. split; [done|]. by apply Lh.
        -- intros [([e0 h1] & E & Hin) Hz]. cbn in E. case_bool_decide; injection E as -> ->; [|done]. subst. exists e0. split; [|done]. apply Lh. split; [done|]. intros ->. done.
      * rewrite L, elem_live. split.
        -- intros [Hin Hz]. split; [|done]. exists (e, h'). cbn. by decide_bools.
        -- intros [([e0 h1] & E & Hin) Hz]. cbn in E. case_bool_decide; injection E as -> ->; [done|done].
Qed.
