(* ===== verification/Epoll.v ===== *)
(** * The poller over [epoll] ([aio/poller_epoll.inc])

    The batch of events the kernel returned is walked over with an index;
    events that are no longer wanted are taken out of the rest of it.  The
    kernel's table of the epoll instance is part of the state. *)

From S2P Require Import Prelude Wire Poller.
Local Open Scope Z_scope.

Definition NN_POLLER_MAX_EVENTS : Z := 32.

(** [ep_tab]: the kernel's table, by file descriptor the events and the
    pointer; [ep_hndl]: the handles, with [fd] and [events]; [ep_events]: the
    [nevents] entries, events and pointer.  [ep_failed]: [nevents] is -1; a loop
    that goes on until the index is [nevents] then runs past the array. *)
Record nn_poller := Epoll { ep_tab : gmap Z (Z * Z); ep_hndl : gmap Z (Z * Z); ep_events : list (Z * Z); ep_index : nat; ep_failed : bool }.

Definition nn_poller_init : nn_poller := Epoll ∅ ∅ [] 0 false.

(** [epoll_ctl]; what it returns is not looked at. *)
Definition ctl_add (fd : Z) (d : Z * Z) (t : gmap Z (Z * Z)) : gmap Z (Z * Z) := match t !! fd with Some _ => t | None => <[fd := d]> t end.
Definition ctl_mod (fd : Z) (d : Z * Z) (t : gmap Z (Z * Z)) : gmap Z (Z * Z) := match t !! fd with Some _ => <[fd := d]> t | None => t end.
Definition ctl_del (fd : Z) (t : gmap Z (Z * Z)) : gmap Z (Z * Z) := delete fd t.

(** The loop that invalidates the events of a handle from the index on. *)
Definition invalidated (h : Z) (g : Z -> Z) (self : nn_poller) : list (Z * Z) :=
  take (ep_index self) (ep_events self) ++ (at_hndl h g <$> drop (ep_index self) (ep_events self)).
Definition invalidate (h : Z) (g : Z -> Z) (self : nn_poller) : result (list (Z * Z)) :=
  if ep_failed self then Err BadAccess else Ok (invalidated h g self).

Definition nn_poller_add (self : nn_poller) (fd h : Z) : result nn_poller :=
  Ok (Epoll (ctl_add fd (0, h) (ep_tab self)) (<[h := (fd, 0)]> (ep_hndl self)) (ep_events self) (ep_index self) (ep_failed self)).

Definition nn_poller_rm (self : nn_poller) (h : Z) : result nn_poller :=
  '(fd, _) ← deref (ep_hndl self !! h);
  events ← invalidate h (fun _ => 0) self;
  Ok (Epoll (ctl_del fd (ep_tab self)) (ep_hndl self) events (ep_index self) (ep_failed self)).

(** [nn_poller_set_in], [nn_poller_set_out]. *)
Definition nn_poller_set (self : nn_poller) (h bit : Z) : result nn_poller :=
  '(fd, events) ← deref (ep_hndl self !! h);
  if has events bit then Ok self
  else Ok (Epoll (ctl_mod fd (Z.lor events bit, h) (ep_tab self)) (<[h := (fd, Z.lor events bit)]> (ep_hndl self)) (ep_events self) (ep_index self) (ep_failed self)).

(** [nn_poller_reset_in], [nn_poller_reset_out]. *)
Definition nn_poller_reset (self : nn_poller) (h bit : Z) : result nn_poller :=
  '(fd, events) ← deref (ep_hndl self !! h);
  if negb (has events bit) then Ok self
  else
    left ← invalidate h (fun e => Z.ldiff e bit) self;
    Ok (Epoll (ctl_mod fd (Z.ldiff events bit, h) (ep_tab self)) (<[h := (fd, Z.ldiff events bit)]> (ep_hndl self)) left (ep_index self) (ep_failed self)).

(** What [epoll_wait] stores for the descriptors that are ready; the array
    has room for 32. *)
Fixpoint epoll_wait (t : gmap Z (Z * Z)) (ans : list (Z * Z)) : result (list (Z * Z)) :=
  match ans with
  | [] => Ok []
  | (fd, e) :: ans => '(_, h) ← deref (t !! fd); l ← epoll_wait t ans; Ok ((e, h) :: l)
  end.

(** The assertion after the loop tests [self->nevents], which is 0, instead
    of the result of the call. *)
Fixpoint nn_poller_wait (self : nn_poller) (rs : list reply) : result (nn_poller * Z) :=
  match rs with
  | [] => Err NoFuel
  | Ready ans :: _ =>
      events ← epoll_wait (ep_tab self) ans;
      _ ← (if bool_decide (Z.of_nat (length events) <= NN_POLLER_MAX_EVENTS) then Ok tt else Err BadAccess);
      Ok (Epoll (ep_tab self) (ep_hndl self) events 0 false, 0)
  | Errno e :: rs =>
      if bool_decide (e = EINTR) then nn_poller_wait self rs
      else Ok (Epoll (ep_tab self) (ep_hndl self) [] 0 true, 0)
  end.

Definition nn_poller_event (self : nn_poller) : result (nn_poller * option (Z * Z)) :=
  let i := (ep_index self + skip_empty (drop (ep_index self) (ep_events self)))%nat in
  let at_index i events := Epoll (ep_tab self) (ep_hndl self) events i (ep_failed self) in
  match ep_events self !! i with
  | None => Ok (at_index i (ep_events self), None)
  | Some (e, h) =>
      let put e := at_index i (<[i := (e, h)]> (ep_events self)) in
      if has e POLLIN then Ok (put (Z.ldiff e POLLIN), Some (NN_POLLER_IN, h))
      else if has e POLLOUT then Ok (put (Z.ldiff e POLLOUT), Some (NN_POLLER_OUT, h))
      else Ok (at_index (S i) (ep_events self), Some (NN_POLLER_ERR, h))
  end.

#[export] Instance epoll_poller : Poller nn_poller := {
  p_init := nn_poller_init; p_add := nn_poller_add; p_rm := nn_poller_rm; p_set := nn_poller_set; p_reset := nn_poller_reset;
  p_wait := nn_poller_wait; p_event := nn_poller_event
}.

(** ** It keeps the contract *)

Definition batch (p : nn_poller) : list (Z * Z) := drop (ep_index p) (ep_events p).

Record epoll_rep (p : nn_poller) (v : pview) : Prop := {
  er_tab fd e h : ep_tab p !! fd = Some (e, h) <-> pv_reg v !! h = Some (fd, e);
  er_hndl h fd e : pv_reg v !! h = Some (fd, e) -> ep_hndl p !! h = Some (fd, e);
  er_index : (ep_index p <= length (ep_events p))%nat;
  er_failed : ep_failed p = false;
  er_pend : pend_rep (batch p) (pv_pend v);
  er_ok : pview_ok v
}.

Lemma batch_invalidate h g p : (ep_index p <= length (ep_events p))%nat -> drop (ep_index p) (invalidated h g p) = at_hndl h g <$> batch p.
Proof. intros Hi. unfold invalidated, batch. rewrite drop_app_length' by (rewrite length_take; lia). done. Qed.

Lemma invalidate_ok h g p v : epoll_rep p v -> invalidate h g p = Ok (invalidated h g p).
Proof. intros R. unfold invalidate. by rewrite (er_failed _ _ R). Qed.

Lemma invalidate_index h g p : (ep_index p <= length (ep_events p))%nat -> (ep_index p <= length (invalidated h g p))%nat.
Proof. intros Hi. unfold invalidated. rewrite length_app, length_take, length_fmap, length_drop. lia. Qed.

(** The kernel's table has at most one descriptor with a pointer. *)
Lemma tab_change p v h fd e d : epoll_rep p v -> pv_reg v !! h = Some (fd, e) -> ctl_mod fd d (ep_tab p) = <[fd := d]> (ep_tab p).
Proof. intros R Hr. unfold ctl_mod. by rewrite (proj2 (er_tab _ _ R fd e h) Hr). Qed.

Lemma rep_change p v h fd e e' : epoll_rep p v -> pv_reg v !! h = Some (fd, e) ->
  (forall fd' e1 h', <[fd := (e', h)]> (ep_tab p) !! fd' = Some (e1, h') <-> <[h := (fd, e')]> (pv_reg v) !! h' = Some (fd', e1)) /\
  (forall h' fd' e1, <[h := (fd, e')]> (pv_reg v) !! h' = Some (fd', e1) -> <[h := (fd, e')]> (ep_hndl p) !! h' = Some (fd', e1)).
Proof.
  intros R Hr. pose proof (proj2 (er_tab _ _ R fd e h) Hr) as Ht. split.
  - intros fd' e1 h'. rewrite !lookup_insert_Some, (er_tab _ _ R). split.
    + intros [[-> [= -> ->]]|[Hne Hr']]; [by left|right]. split; [|done]. intros ->. rewrite Hr in Hr'. congruence.
    + intros [[-> [= -> ->]]|[Hne Hr']]; [by left|right]. split; [|done]. intros ->. apply (er_tab _ _ R) in Hr'. rewrite Ht in Hr'. congruence.
  - intros h' fd' e1. rewrite !lookup_insert_Some. intros [?|[Hne Hr']]; [by left|right; split; [done|by apply (er_hndl _ _ R)]].
Qed.

Lemma alter_is h f (m : gmap Z (Z * Z)) r : m !! h = Some r -> alter f h m = <[h := f r]> m.
Proof.
  intros Hr. apply map_eq. intros h'. destruct (decide (h' = h)) as [->|Hne].
  - by rewrite lookup_alter_eq, lookup_insert_eq, Hr.
  - by rewrite lookup_alter_ne, lookup_insert_ne.
Qed.

Lemma rep_add p v fd h : epoll_rep p v -> legal NN_POLLER_MAX_EVENTS v (PAdd fd h) ->
  exists p', nn_poller_add p fd h = Ok p' /\ epoll_rep p' (PView (<[h := (fd, 0)]> (pv_reg v)) (pv_pend v)).
Proof.
  intros R L. pose proof (a_next_ok _ v (PAdd fd h) None _ (er_ok _ _ R) L eq_refl) as O. destruct L as [L1 L2].
  eexists. split; [reflexivity|].
  assert (ep_tab p !! fd = None) as Hf. { destruct (ep_tab p !! fd) as [[e h']|] eqn:E; [|done]. apply (er_tab _ _ R) in E. by destruct (L2 _ _ E). }
  constructor; cbn; [| |apply (er_index _ _ R)|apply (er_failed _ _ R)|apply (er_pend _ _ R)|exact O].
  - intros fd' e h'. unfold ctl_add. rewrite Hf, !lookup_insert_Some, (er_tab _ _ R). split.
    + intros [[-> [= <- <-]]|[Hne Hr]]; [by left|right]. split; [|done]. intros ->. congruence.
    + intros [[-> [= -> <-]]|[Hne Hr]]; [by left|right]. split; [|done]. intros ->. by destruct (L2 _ _ Hr).
  - intros h' fd' e. rewrite !lookup_insert_Some. intros [?|[Hne Hr]]; [by left|right; split; [done|by apply (er_hndl _ _ R)]].
Qed.

Lemma rep_rm p v h : epoll_rep p v -> legal NN_POLLER_MAX_EVENTS v (PRm h) ->
  exists p', nn_poller_rm p h = Ok p' /\ epoll_rep p' (PView (delete h (pv_reg v)) (delete h (pv_pend v))).
Proof.
  intros R L. pose proof (a_next_ok _ v (PRm h) None _ (er_ok _ _ R) L eq_refl) as O. destruct L as [[fd e] Hr].
  unfold nn_poller_rm. rewrite (er_hndl _ _ R _ _ _ Hr). mred. rewrite (invalidate_ok _ _ _ _ R). mred. eexists. split; [reflexivity|].
  pose proof (proj2 (er_tab _ _ R fd e h) Hr) as Ht.
  constructor; cbn; [| |by apply invalidate_index, (er_index _ _ R)|apply (er_failed _ _ R)| |exact O].
  - intros fd' e' h'. unfold ctl_del. rewrite !lookup_delete_Some, (er_tab _ _ R). split; intros [Hne Hr']; (split; [|done]); intros ->; [congruence|].
    apply (er_tab _ _ R) in Hr'. congruence.
  - intros h' fd' e'. rewrite lookup_delete_Some. intros [_ Hr']. by apply (er_hndl _ _ R).
  - unfold batch. cbn. rewrite batch_invalidate by apply (er_index _ _ R).
    pose proof (pend_rep_at h (fun _ => 0) _ _ eq_refl (er_pend _ _ R)) as Q. replace (delete h (pv_pend v)) with (match pv_pend v !! h with Some _ => put_events h 0 (pv_pend v) | None => pv_pend v end); [exact Q|].
    unfold put_events. decide_bools. destruct (pv_pend v !! h) eqn:E; [done|by rewrite delete_id].
Qed.

Lemma rep_set p v h bit : epoll_rep p v -> legal NN_POLLER_MAX_EVENTS v (PSet h bit) ->
  exists p', nn_poller_set p h bit = Ok p' /\ epoll_rep p' (PView (alter (fun r => (r.1, Z.lor r.2 bit)) h (pv_reg v)) (pv_pend v)).
Proof.
  intros R L. pose proof (a_next_ok _ v (PSet h bit) None _ (er_ok _ _ R) L eq_refl) as O. destruct L as [[[fd e] Hr] Hb].
  unfold nn_poller_set. rewrite (er_hndl _ _ R _ _ _ Hr). mred. rewrite (alter_is _ _ _ _ Hr) in *. cbn [fst snd] in *.
  destruct (has e bit) eqn:Hh.
  - exists p. split; [done|]. replace (Z.lor e bit) with e in *; [rewrite insert_id in * by done; by destruct v|].
    by rewrite lor_has.
  - destruct (rep_change p v h fd e (Z.lor e bit) R Hr) as [T1 T2]. rewrite (tab_change p v h fd e _ R Hr). eexists. split; [reflexivity|].
    constructor; cbn; [exact T1|exact T2|apply (er_index _ _ R)|apply (er_failed _ _ R)|apply (er_pend _ _ R)|exact O].
Qed.

Lemma rep_reset p v h bit : epoll_rep p v -> legal NN_POLLER_MAX_EVENTS v (PReset h bit) ->
  exists p', nn_poller_reset p h bit = Ok p' /\ exists v', a_next v (PReset h bit) None = Some v' /\ epoll_rep p' v'.
Proof.
  intros R L. eassert (a_next v (PReset h bit) None = Some _) as A by reflexivity.
  pose proof (a_next_ok _ v (PReset h bit) None _ (er_ok _ _ R) L A) as O. destruct L as [[[fd e] Hr] Hb].
  unfold nn_poller_reset. rewrite (er_hndl _ _ R _ _ _ Hr). mred.
  destruct (has e bit) eqn:Hh; cbn [negb].
  - destruct (rep_change p v h fd e (Z.ldiff e bit) R Hr) as [T1 T2]. rewrite (tab_change p v h fd e _ R Hr).
    rewrite (invalidate_ok _ _ _ _ R). mred. eexists. split; [reflexivity|]. eexists. split; [exact A|]. rewrite (alter_is _ _ _ _ Hr) in *.
    constructor; cbn; [exact T1|exact T2|by apply invalidate_index, (er_index _ _ R)|apply (er_failed _ _ R)| |exact O].
    unfold batch. cbn. rewrite batch_invalidate by apply (er_index _ _ R). apply (pend_rep_at h (fun e => Z.ldiff e bit)); [by destruct bit|apply (er_pend _ _ R)].
  - exists p. split; [done|]. eexists. split; [exact A|]. rewrite (alter_is _ _ _ _ Hr) in *. cbn [fst snd] in *. rewrite ldiff_not, insert_id in * by done.
    replace (match pv_pend v !! h with Some e0 => _ | None => _ end) with (pv_pend v); [by destruct v|].
    destruct (pv_pend v !! h) as [e0|] eqn:E; [|done]. destruct (po_wanted _ (er_ok _ _ R) _ _ E) as [Hz W].
    rewrite ldiff_not by (by apply (not_polled v h e0 bit (fd, e))). unfold put_events. decide_bools. by rewrite insert_id.
Qed.

Lemma epoll_wait_ok p v ans : epoll_rep p v -> NoDup (fst <$> ans) -> Forall (answer_ok v) ans ->
  exists l, epoll_wait (ep_tab p) ans = Ok l /\ length l = length ans /\ NoDup (snd <$> l) /\
    forall e h, (e, h) ∈ l <-> exists fd e0, (fd, e) ∈ ans /\ pv_reg v !! h = Some (fd, e0).
Proof.
  intros R. induction ans as [|[fd e] ans IH]; intros Hn Ha.
  { exists []. cbn. split_and!; try done. intros e h. split; [by intros ?%not_elem_of_nil|]. by intros (fd & e0 & ?%not_elem_of_nil & _). }
  cbn in Hn. apply NoDup_cons in Hn as [Hf Hn]. apply Forall_cons in Ha as [(Hz & h & e0 & Hr & _) Ha]. cbn in *.
  destruct (IH Hn Ha) as (l & E & Hl & Hd & Hi). rewrite (proj2 (er_tab _ _ R fd e0 h) Hr). mred. rewrite E. mred.
  exists ((e, h) :: l). split; [done|]. split; [cbn; lia|]. split.
  - cbn. apply NoDup_cons. split; [|done]. intros ([e1 h1] & E1 & Hin)%list_elem_of_fmap. cbn in E1. subst h1. apply Hi in Hin as (fd1 & e2 & Hin & Hr1).
    apply Hf, list_elem_of_fmap. exists (fd1, e1). cbn. split; [congruence|done].
  - intros e1 h1. rewrite elem_of_cons. split.
    + intros [[= -> ->]|Hin]; [exists fd, e0; split; [apply list_elem_of_here|done]|]. apply Hi in Hin as (fd1 & e2 & Hin & Hr1). exists fd1, e2. split; [by right|done].
    + intros (fd1 & e2 & Hin & Hr1). rewrite elem_of_cons in Hin. destruct Hin as [[= -> ->]|Hin]; [left|right; apply Hi; by exists fd1, e2].
      f_equal. by apply (po_fd _ (er_ok _ _ R) _ _ _ _ Hr1 Hr).
Qed.

Lemma rep_wait p v ans : epoll_rep p v -> legal NN_POLLER_MAX_EVENTS v (PWait ans) ->
  forall rs, exists p', nn_poller_wait p (Ready ans :: rs) = Ok (p', 0) /\ epoll_rep p' (PView (pv_reg v) (omap (reported ans) (pv_reg v))).
Proof.
  intros R L. pose proof (a_next_ok _ v (PWait ans) None _ (er_ok _ _ R) L eq_refl) as O. destruct L as (L1 & L2 & L3).
  destruct (epoll_wait_ok p v ans R L1 L2) as (l & E & Hl & Hd & Hi). intros rs. cbn [nn_poller_wait]. rewrite E. mred. rewrite Hl. decide_bools. mred.
  eexists. split; [reflexivity|]. constructor; cbn; [apply (er_tab _ _ R)|apply (er_hndl _ _ R)|lia|done| |exact O].
  assert (live l = l) as Hlive.
  { unfold live. clear -L2 Hi. assert (Forall (fun r : Z * Z => r.1 <> 0) l) as F.
    { apply Forall_forall. intros [e h] Hin. apply Hi in Hin as (fd & e0 & Hin & _). rewrite Forall_forall in L2. by destruct (L2 _ Hin). }
    clear -F. induction F as [|r l Hr _ IH]; [done|]. rewrite filter_cons, decide_True by done. by rewrite IH. }
  change (pend_rep l (omap (reported ans) (pv_reg v))). constructor; [by rewrite Hlive|]. intros h e. rewrite Hlive, Hi, lookup_omap_Some. split.
  - intros ([fd e0] & Hin & Hr). apply (reported_in _ _ _ L1) in Hin. by exists fd, e0.
  - intros (fd & e0 & Hin & Hr). exists (fd, e0). split; [|done]. by apply reported_in.
Qed.

Lemma rep_event p v : epoll_rep p v -> exists p' out v', nn_poller_event p = Ok (p', out) /\ a_next v PEvent out = Some v' /\ epoll_rep p' v'.
Proof.
  intros R. pose proof (er_index _ _ R) as Hi. pose proof (pend_rep_skip _ _ (er_pend _ _ R)) as Q. unfold nn_poller_event.
  set (n := skip_empty (batch p)). fold (batch p). fold n. fold n in Q.
  assert (drop n (batch p) = drop (ep_index p + n) (ep_events p)) as Ed by (unfold batch; apply drop_drop).
  assert (forall v' (q : nn_poller), pv_reg v' = pv_reg v -> ep_tab q = ep_tab p -> ep_hndl q = ep_hndl p -> ep_failed q = ep_failed p -> (ep_index q <= length (ep_events q))%nat -> pend_rep (batch q) (pv_pend v') -> pview_ok v' -> epoll_rep q v') as K.
  { intros v' q E1 E2 E3 E7 E4 E5 E6. constructor; rewrite ?E1, ?E2, ?E3, ?E7; try done; [apply (er_tab _ _ R)|apply (er_hndl _ _ R)|apply (er_failed _ _ R)]. }
  destruct (ep_events p !! (ep_index p + n)%nat) as [[e h]|] eqn:El.
  - pose proof (skip_empty_head (batch p) (e, h)) as Hz. fold n in Hz. unfold batch in Hz at 1. rewrite lookup_drop in Hz. specialize (Hz El). cbn in Hz.
    rewrite Ed, (drop_S _ _ _ El) in Q. destruct (pend_rep_tail _ _ _ _ Hz Q) as (Hm & Qt & _).
    pose proof (lookup_lt_Some _ _ _ El) as Hlt.
    assert (forall e', drop (ep_index p + n) (<[(ep_index p + n)%nat := (e', h)]> (ep_events p)) = (e', h) :: drop (S (ep_index p + n)) (ep_events p)) as Ei.
    { intros e'. rewrite (drop_S _ (e', h)) by (by rewrite list_lookup_insert_eq). by rewrite drop_insert_lt by lia. }
    assert (a_next v PEvent (Some ((next_event e).1, h)) = Some (PView (pv_reg v) (put_events h (next_event e).2 (pv_pend v)))) as A by (cbn; rewrite Hm; by decide_bools).
    pose proof (a_next_ok NN_POLLER_MAX_EVENTS v PEvent _ _ (er_ok _ _ R) I A) as O. unfold next_event in *.
    destruct (has e POLLIN); [|destruct (has e POLLOUT)]; (do 3 eexists; split; [reflexivity|]; split; [exact A|]); (apply K; cbn; [done..|rewrite ?length_insert; lia| |exact O]).
    + unfold batch. cbn. rewrite Ei. by apply (pend_rep_head e).
    + unfold batch. cbn. rewrite Ei. by apply (pend_rep_head e).
    + unfold batch. cbn. unfold put_events. by decide_bools.
  - assert (pv_pend v = ∅) as He. { apply (pend_rep_empty _ _ Q). rewrite Ed. apply drop_ge. by apply lookup_ge_None. }
    do 3 eexists. split; [reflexivity|]. split; [cbn; by decide_bools|]. apply K; cbn; try done.
    + assert (n <= length (batch p))%nat as Hn. { unfold n. clear. induction (batch p) as [|r l IH]; [done|]. cbn. case_bool_decide; lia. }
      unfold batch in Hn. rewrite length_drop in Hn. lia.
    + change (pend_rep (drop (ep_index p + n) (ep_events p)) (pv_pend v)). by rewrite <- Ed.
    + apply (er_ok _ _ R).
Qed.

#[export] Instance epoll_spec : PollerSpec nn_poller.
Proof.
  refine {| p_limit := NN_POLLER_MAX_EVENTS; p_limit_pos := eq_refl; p_rep := epoll_rep; p_retries := true |}.
  - constructor; cbn; [intros *; by rewrite !lookup_empty|intros *; by rewrite !lookup_empty|lia|done| |apply pview_init_ok].
    constructor; [constructor|]. intros h e. rewrite lookup_empty. split; [done|]. by intros ?%not_elem_of_nil.
  - intros p v op R L. destruct op as [fd h|h|h bit|h bit|ans|]; cbn [p_step].
    + destruct (rep_add p v fd h R L) as (p' & E & R'). cbn [p_add epoll_poller]. rewrite E. mred. by do 3 eexists.
    + destruct (rep_rm p v h R L) as (p' & E & R'). cbn [p_rm epoll_poller]. rewrite E. mred. by do 3 eexists.
    + destruct (rep_set p v h bit R L) as (p' & E & R'). cbn [p_set epoll_poller]. rewrite E. mred. by do 3 eexists.
    + destruct (rep_reset p v h bit R L) as (p' & E & v' & A & R'). cbn [p_reset epoll_poller]. rewrite E. mred. by do 3 eexists.
    + destruct (rep_wait p v ans R L []) as (p' & E & R'). cbn [p_wait epoll_poller]. rewrite E. mred. by do 3 eexists.
    + apply (rep_event p v R).
  - done.
Defined.

(** A failing [epoll_wait] is taken for no events, and the next removal of a
    handle runs past the array. *)
Example epoll_error_unnoticed :
  (p ← nn_poller_add nn_poller_init 5 100; '(p, rc) ← nn_poller_wait p [Errno 9]; '(p, e) ← nn_poller_event p; Ok (rc, e)) = Ok (0, None)
  /\ (p ← nn_poller_add nn_poller_init 5 100; '(p, _) ← nn_poller_wait p [Errno 9]; nn_poller_rm p 100) = Err BadAccess.
Proof. by vm_compute. Qed.
