(* ===== verification/Pollset.v ===== *)
(** * The poller over [poll] ([aio/poller_poll.inc])

    An array for [poll] and, beside it, an array with the handle of each
    entry; a handle knows its index.  Entries that are removed are linked by
    indices into a list, in both directions and in place, and are filled with
    the entries from the end before the next wait.  An entry from the end may
    itself be removed, and then the list has to be mended. *)

From S2P Require Import Prelude Wire Poller.
Local Open Scope Z_scope.

Definition NN_POLLER_GRANULARITY : nat := 16.

Record pollfd := PollFd { pf_fd : Z; pf_events : Z; pf_revents : Z }.

(** [prev], [next]: [None] as long as they were not written. *)
Record nn_hndls_item := HItem { hi_hndl : option Z; hi_prev : option Z; hi_next : option Z }.

(** The capacity is the length of both arrays; [ps_hndl] is the field [index]
    of the handles. *)
Record nn_poller := Pollset {
  ps_size : nat; ps_index : nat; ps_pollset : list pollfd; ps_hndls : list nn_hndls_item; ps_removed : Z; ps_hndl : gmap Z nat
}.
Definition ps_capacity (self : nn_poller) : nat := length (ps_pollset self).

(** Fresh memory. *)
Definition junk_fds (n : nat) : list pollfd := replicate n (PollFd 0 0 0).
Definition junk_items (n : nat) : list nn_hndls_item := replicate n (HItem None None None).

Definition nn_poller_init : nn_poller := Pollset 0 0 (junk_fds NN_POLLER_GRANULARITY) (junk_items NN_POLLER_GRANULARITY) (-1) ∅.

(** Writing to an element of an array. *)
Definition update {A} (l : list A) (i : Z) (f : A -> A) : result (list A) :=
  if bool_decide (i < 0) then Err BadAccess else x ← deref (l !! Z.to_nat i); Ok (<[Z.to_nat i := f x]> l).
Definition set_hndl (h : option Z) (x : nn_hndls_item) := HItem h (hi_prev x) (hi_next x).
Definition set_prev (i : Z) (x : nn_hndls_item) := HItem (hi_hndl x) (Some i) (hi_next x).
Definition set_next (i : Z) (x : nn_hndls_item) := HItem (hi_hndl x) (hi_prev x) (Some i).
Definition set_events (g : Z -> Z) (x : pollfd) := PollFd (pf_fd x) (g (pf_events x)) (pf_revents x).
Definition set_revents (g : Z -> Z) (x : pollfd) := PollFd (pf_fd x) (pf_events x) (g (pf_revents x)).

Definition nn_poller_add (self : nn_poller) (fd h : Z) : result nn_poller :=
  let more := if bool_decide (ps_capacity self <= ps_size self)%nat then ps_capacity self else 0%nat in
  pollset ← update (ps_pollset self ++ junk_fds more) (Z.of_nat (ps_size self)) (fun _ => PollFd fd 0 0);
  hndls ← update (ps_hndls self ++ junk_items more) (Z.of_nat (ps_size self)) (set_hndl (Some h));
  Ok (Pollset (S (ps_size self)) (ps_index self) pollset hndls (ps_removed self) (<[h := ps_size self]> (ps_hndl self))).

Definition nn_poller_rm (self : nn_poller) (h : Z) : result nn_poller :=
  i ← deref (ps_hndl self !! h);
  pollset ← update (ps_pollset self) (Z.of_nat i) (set_revents (fun _ => 0));
  hndls ← (if negb (bool_decide (ps_removed self = -1)) then update (ps_hndls self) (ps_removed self) (set_prev (Z.of_nat i)) else Ok (ps_hndls self));
  hndls ← update hndls (Z.of_nat i) (fun _ => HItem None (Some (-1)) (Some (ps_removed self)));
  Ok (Pollset (ps_size self) (ps_index self) pollset hndls (Z.of_nat i) (ps_hndl self)).

(** [nn_poller_set_in], [nn_poller_set_out]; [nn_poller_reset_in], [nn_poller_reset_out]. *)
Definition nn_poller_set (self : nn_poller) (h bit : Z) : result nn_poller :=
  i ← deref (ps_hndl self !! h);
  pollset ← update (ps_pollset self) (Z.of_nat i) (set_events (fun e => Z.lor e bit));
  Ok (Pollset (ps_size self) (ps_index self) pollset (ps_hndls self) (ps_removed self) (ps_hndl self)).
Definition nn_poller_reset (self : nn_poller) (h bit : Z) : result nn_poller :=
  i ← deref (ps_hndl self !! h);
  pollset ← update (ps_pollset self) (Z.of_nat i) (set_events (fun e => Z.ldiff e bit));
  pollset ← update pollset (Z.of_nat i) (set_revents (fun e => Z.ldiff e bit));
  Ok (Pollset (ps_size self) (ps_index self) pollset (ps_hndls self) (ps_removed self) (ps_hndl self)).

(** *** Getting rid of the removed entries *)

(** The entry [i] may have come from the end as a removed one (or be the end
    itself). *)
Definition mend (i size : Z) (hndls : list nn_hndls_item) (removed : Z) : result (list nn_hndls_item * Z) :=
  x ← deref (hndls !! Z.to_nat i);
  match hi_hndl x with
  | Some _ => Ok (hndls, removed)
  | None =>
      prev ← deref (hi_prev x);
      hndls ← (if negb (bool_decide (prev = -1)) then update hndls prev (set_next i) else Ok hndls);
      x ← deref (hndls !! Z.to_nat i);
      next ← deref (hi_next x);
      hndls ← (if negb (bool_decide (next = -1)) then update hndls next (set_prev i) else Ok hndls);
      Ok (hndls, if bool_decide (removed = size) then i else removed)
  end.

(** The entry at the end replaces the entry [i]. *)
Definition replace (i size : Z) (self : nn_poller) : result (list pollfd * list nn_hndls_item * gmap Z nat) :=
  last ← deref (ps_pollset self !! Z.to_nat size);
  pollset ← update (ps_pollset self) i (fun _ => last);
  x ← deref (ps_hndls self !! Z.to_nat i);
  next ← deref (hi_next x);
  hndls ← (if negb (bool_decide (next = -1)) then update (ps_hndls self) next (set_prev (-1)) else Ok (ps_hndls self));
  last ← deref (hndls !! Z.to_nat size);
  hndls ← update hndls i (fun _ => last);
  Ok (pollset, hndls, match hi_hndl last with Some h => <[h := Z.to_nat i]> (ps_hndl self) | None => ps_hndl self end).

(** One round of the loop. *)
Definition remove_one (self : nn_poller) : result nn_poller :=
  let i := ps_removed self in
  x ← deref (if bool_decide (i < 0) then None else ps_hndls self !! Z.to_nat i);
  removed ← deref (hi_next x);
  let size := Z.of_nat (ps_size self) - 1 in
  '(pollset, hndls, hndl) ← (if negb (bool_decide (i = size)) then replace i size self else Ok (ps_pollset self, ps_hndls self, ps_hndl self));
  '(hndls, removed) ← mend i size hndls removed;
  Ok (Pollset (Z.to_nat size) (ps_index self) pollset hndls removed hndl).

Fixpoint remove_all (fuel : nat) (self : nn_poller) : result nn_poller :=
  if bool_decide (ps_removed self = -1) then Ok self
  else match fuel with O => Err NoFuel | S fuel => self ← remove_one self; remove_all fuel self end.

(** [poll]: the events of the descriptors that are ready. *)
Definition poll_fd (ans : list (Z * Z)) (x : pollfd) : pollfd := set_revents (fun _ => default 0 (list_to_map (M := gmap Z Z) ans !! pf_fd x)) x.
(** [poll] stores no events when it fails. *)
Definition polled (ans : list (Z * Z)) (self : nn_poller) : nn_poller :=
  Pollset (ps_size self) 0 ((poll_fd ans <$> take (ps_size self) (ps_pollset self)) ++ drop (ps_size self) (ps_pollset self))
    (ps_hndls self) (ps_removed self) (ps_hndl self).
Definition nn_poller_wait (self : nn_poller) (rs : list reply) : result (nn_poller * Z) :=
  self ← remove_all (ps_size self) self;
  match rs with
  | [] => Err NoFuel
  | Ready ans :: _ => Ok (polled ans self, 0)
  | Errno e :: _ => if bool_decide (e = EINTR) then Ok (polled [] self, - EINTR) else Err AssertFailed
  end.

(** The entries from the index on: events and handle. *)
Definition entry (x : pollfd) (y : nn_hndls_item) : Z * Z := (pf_revents x, default 0 (hi_hndl y)).
Definition entries (self : nn_poller) : list (Z * Z) := take (ps_size self) (zip_with entry (ps_pollset self) (ps_hndls self)).

Definition nn_poller_event (self : nn_poller) : result (nn_poller * option (Z * Z)) :=
  let i := (ps_index self + skip_empty (drop (ps_index self) (entries self)))%nat in
  let at_index j pollset := Pollset (ps_size self) j pollset (ps_hndls self) (ps_removed self) (ps_hndl self) in
  if bool_decide (ps_size self <= i)%nat then Ok (at_index i (ps_pollset self), None)
  else
    x ← deref (ps_pollset self !! i);
    y ← deref (ps_hndls self !! i);
    h ← deref (hi_hndl y);
    let e := pf_revents x in
    if has e POLLIN then Ok (at_index i (<[i := set_revents (fun e => Z.ldiff e POLLIN) x]> (ps_pollset self)), Some (NN_POLLER_IN, h))
    else if has e POLLOUT then Ok (at_index i (<[i := set_revents (fun e => Z.ldiff e POLLOUT) x]> (ps_pollset self)), Some (NN_POLLER_OUT, h))
    else Ok (at_index (S i) (ps_pollset self), Some (NN_POLLER_ERR, h)).

#[export] Instance pollset_poller : Poller nn_poller := {
  p_init := nn_poller_init; p_add := nn_poller_add; p_rm := nn_poller_rm; p_set := nn_poller_set; p_reset := nn_poller_reset;
  p_wait := nn_poller_wait; p_event := nn_poller_event
}.

(** ** The invariant *)

(** The list [R] of the removed entries in the array. *)
Definition next_of (R : list nat) (k : nat) : Z := match R !! S k with Some j => Z.of_nat j | None => -1 end.
Definition head_of (R : list nat) : Z := match R with [] => -1 | j :: _ => Z.of_nat j end.

(** What the link back of the head may hold: it is never followed into the
    part of the array that is in use. *)
Definition prev_ok (size capacity : nat) (R : list nat) (k : nat) (pz : Z) : Prop :=
  match k with O => pz = -1 \/ Z.of_nat size <= pz < Z.of_nat capacity | S k => Some pz = Z.of_nat <$> R !! k end.

Definition linked (size : nat) (hndls : list nn_hndls_item) (R : list nat) : Prop :=
  forall k j, R !! k = Some j -> exists pz, hndls !! j = Some (HItem None (Some pz) (Some (next_of R k))) /\ prev_ok size (length hndls) R k pz.

(** An entry in use. *)
Record used (reg : gmap Z (Z * Z)) (hndl : gmap Z nat) (x : pollfd) (y : nn_hndls_item) (j : nat) (h : Z) : Prop := {
  us_hndl : hi_hndl y = Some h;
  us_reg : reg !! h = Some (pf_fd x, pf_events x);
  us_index : hndl !! h = Some j
}.

Record core (size : nat) (pollset : list pollfd) (hndls : list nn_hndls_item) (removed : Z) (hndl : gmap Z nat) (reg : gmap Z (Z * Z)) (R : list nat) : Prop := {
  co_len : length pollset = length hndls /\ (size <= length hndls)%nat;
  co_removed : NoDup R /\ Forall (fun j => j < size)%nat R /\ removed = head_of R;
  co_linked : linked size hndls R;
  co_used j x y : (j < size)%nat -> j ∉ R -> pollset !! j = Some x -> hndls !! j = Some y -> exists h, used reg hndl x y j h;
  co_reg h r : reg !! h = Some r -> exists j y, hndl !! h = Some j /\ (j < size)%nat /\ j ∉ R /\ hndls !! j = Some y /\ hi_hndl y = Some h
}.

Lemma update_ok {A} (l : list A) i f x : l !! i = Some x -> update l (Z.of_nat i) f = Ok (<[i := f x]> l).
Proof. intros E. unfold update. decide_bools. rewrite Nat2Z.id, E. by mred. Qed.

Lemma head_of_neg R : head_of R = -1 <-> R = [].
Proof. destruct R; cbn; [done|]. split; [lia|done]. Qed.

(** A handle is in one entry only. *)
Lemma core_handle size pollset hndls removed hndl reg R j x y h r : core size pollset hndls removed hndl reg R ->
  (j < size)%nat -> j ∉ R -> pollset !! j = Some x -> hndls !! j = Some y -> reg !! h = Some r -> hndl !! h = Some j -> used reg hndl x y j h.
Proof.
  intros C Hj HR Hx Hy Hr Hi. destruct (co_used _ _ _ _ _ _ _ C j x y Hj HR Hx Hy) as (h' & U). destruct (co_reg _ _ _ _ _ _ _ C h r Hr) as (j1 & y1 & E1 & _ & _ & E2 & E3).
  rewrite Hi in E1. injection E1 as <-. rewrite Hy in E2. injection E2 as <-. rewrite (us_hndl _ _ _ _ _ _ U) in E3. injection E3 as <-. exact U.
Qed.

Lemma core_lookup size pollset hndls removed hndl reg R j : core size pollset hndls removed hndl reg R -> (j < size)%nat ->
  exists x y, pollset !! j = Some x /\ hndls !! j = Some y.
Proof.
  intros C Hj. destruct (co_len _ _ _ _ _ _ _ C) as [H1 H2].
  destruct (lookup_lt_is_Some_2 pollset j) as [x Hx]; [lia|]. destruct (lookup_lt_is_Some_2 hndls j) as [y Hy]; [lia|]. by exists x, y.
Qed.

(** *** The list of the removed *)

Lemma linked_tail size size' hndls hndls' i R pz : linked size hndls (i :: R) -> NoDup R -> length hndls' = length hndls -> prev_ok size' (length hndls) R 0 pz ->
  (forall j, j ∈ R -> hndls' !! j = (if bool_decide (R !! 0%nat = Some j) then set_prev pz else id) <$> hndls !! j) -> linked size' hndls' R.
Proof.
  intros L N Hl Hp Hs k j Hj. destruct (L (S k) j Hj) as (pz0 & Hi & Hpz). rewrite (Hs j) by (by eapply list_elem_of_lookup_2). rewrite Hi.
  destruct k as [|k]; cbn [fmap option_fmap option_map].
  - decide_bools. exists pz. split; [done|]. by rewrite Hl.
  - rewrite bool_decide_eq_false_2 by (intros H0; pose proof (NoDup_lookup _ _ _ _ N H0 Hj); lia). exists pz0. split; [done|]. exact Hpz.
Qed.

Lemma next_of_written R k i k' : S k' <> k -> next_of (<[k := i]> R) k' = next_of R k'.
Proof. intros Hne. unfold next_of. by rewrite list_lookup_insert_ne. Qed.

(** The removed entry [n] of the list moves to [i]. *)
Lemma linked_replace size hndls hndls' R k n i pz : linked size hndls R -> NoDup R -> R !! k = Some n -> i ∉ R -> length hndls' = length hndls ->
  hndls !! n = Some (HItem None (Some pz) (Some (next_of R k))) -> (k = 0%nat -> pz = -1) ->
  hndls' !! i = hndls !! n ->
  (forall j, j ∈ R -> j <> n -> hndls' !! j = (fun x => (if bool_decide (next_of R k = Z.of_nat j) then set_prev (Z.of_nat i) else id)
                                                      ((if bool_decide (pz = Z.of_nat j) then set_next (Z.of_nat i) else id) x)) <$> hndls !! j) ->
  linked size hndls' (<[k := i]> R).
Proof.
  intros L N Hk Hi Hl Hn Hpz Hi' Hs k1 j Hj. pose proof (lookup_lt_Some _ _ _ Hk) as Hlt. destruct (L k n Hk) as (pz' & Hn' & Hp). rewrite Hn in Hn'. injection Hn' as <-.
  destruct (decide (k1 = k)) as [->|Hk1].
  { rewrite list_lookup_insert_eq in Hj by done. injection Hj as <-. exists pz. rewrite Hi', Hn, next_of_written, Hl by lia. split; [done|].
    destruct k as [|k]; [left; by apply Hpz|]. cbn in *. by rewrite list_lookup_insert_ne by lia. }
  rewrite list_lookup_insert_ne in Hj by done. assert (j <> n) as Hjn by (intros ->; apply Hk1; by eapply NoDup_lookup).
  destruct (L k1 j Hj) as (pj & Hx & Hpj). rewrite (Hs j) by (done || by eapply list_elem_of_lookup_2). rewrite Hx. cbn [fmap option_fmap option_map].
  assert (next_of R k = Z.of_nat j <-> k1 = S k) as Hnx.
  { unfold next_of. split; [|intros ->; by rewrite Hj]. destruct (R !! S k) as [j'|] eqn:E; [|lia]. intros E1%Nat2Z.inj. subst j'. by eapply NoDup_lookup. }
  assert (pz = Z.of_nat j <-> k = S k1) as Hpx.
  { destruct k as [|k]; cbn in Hp; [rewrite (Hpz eq_refl); split; lia|]. split; [|intros [= ->]; rewrite Hj in Hp; by injection Hp].
    intros ->. destruct (R !! k) as [j'|] eqn:E; [|done]. cbn in Hp. injection Hp as E1%Nat2Z.inj. subst j'. f_equal. by eapply NoDup_lookup. }
  cases (next_of R k = Z.of_nat j) as Hb1; cases (pz = Z.of_nat j) as Hb2; decide_bools.
  - apply Hnx in Hb1. apply Hpx in Hb2. lia.
  - apply Hnx in Hb1 as ->. exists (Z.of_nat i). unfold id, set_prev. cbn [hi_hndl hi_next]. rewrite next_of_written by lia. split; [done|].
    cbn. by rewrite list_lookup_insert_eq.
  - apply Hpx in Hb2 as ->. exists pj. unfold id, set_next. cbn [hi_hndl hi_prev]. split.
    + f_equal. f_equal. unfold next_of. by rewrite list_lookup_insert_eq.
    + rewrite Hl. destruct k1 as [|k1]; [done|]. cbn in *. by rewrite list_lookup_insert_ne by lia.
  - exists pj. unfold id. rewrite next_of_written by (intros E; apply Hb2; by apply Hpx). split; [done|]. rewrite Hl.
    destruct k1 as [|k1]; [done|]. cbn in *. rewrite list_lookup_insert_ne; [done|]. intros ->. apply Hb1. by apply Hnx.
Qed.

Lemma NoDup_replace (R : list nat) k i : NoDup R -> i ∉ R -> NoDup (<[k := i]> R).
Proof.
  intros N Hi. apply NoDup_alt. intros k1 k2 x H1 H2. apply list_lookup_insert_Some in H1, H2.
  destruct H1 as [(-> & <- & _)|[Hk1 H1]], H2 as [(-> & E2 & _)|[Hk2 H2]]; [done|..|by eapply NoDup_lookup].
  - destruct Hi. by eapply list_elem_of_lookup_2.
  - subst. destruct Hi. by eapply list_elem_of_lookup_2.
Qed.

Lemma head_of_elem R j : head_of R = Z.of_nat j -> j ∈ R.
Proof. destruct R as [|j' R]; cbn; [lia|]. intros E%Nat2Z.inj. subst. apply list_elem_of_here. Qed.

(** Writing the link back of the head. *)
Definition write_head (hndls : list nn_hndls_item) (R : list nat) (pz : Z) : list nn_hndls_item :=
  match R with [] => hndls | j :: _ => alter (set_prev pz) j hndls end.

Lemma write_head_ok hndls R pz : (forall j, j ∈ R -> is_Some (hndls !! j)) ->
  (if negb (bool_decide (head_of R = -1)) then update hndls (head_of R) (set_prev pz) else Ok hndls) = Ok (write_head hndls R pz).
Proof.
  intros Hs. destruct R as [|j R]; cbn [head_of write_head]; decide_bools; cbn [negb]; [done|].
  destruct (Hs j (list_elem_of_here _ _)) as [x Hx]. rewrite (update_ok _ _ _ _ Hx). f_equal. symmetry. apply list_eq. intros j'.
  destruct (decide (j' = j)) as [->|Hne]; [|by rewrite list_lookup_alter_ne, list_lookup_insert_ne].
  rewrite list_lookup_alter_eq, Hx, list_lookup_insert_eq; [done|]. by eapply lookup_lt_Some.
Qed.

Lemma write_head_length hndls R pz : length (write_head hndls R pz) = length hndls.
Proof. destruct R; [done|]. apply length_alter. Qed.

Lemma write_head_lookup hndls R pz j : write_head hndls R pz !! j = (if bool_decide (R !! 0%nat = Some j) then set_prev pz else id) <$> hndls !! j.
Proof.
  destruct R as [|j' R]; cbn; [by rewrite option_fmap_id|]. cases (j' = j) as E; decide_bools.
  - subst. apply list_lookup_alter_eq.
  - rewrite list_lookup_alter_ne by done. by rewrite option_fmap_id.
Qed.

Lemma write_head_other hndls R pz j : j ∉ R -> write_head hndls R pz !! j = hndls !! j.
Proof. intros Hj. rewrite write_head_lookup, bool_decide_eq_false_2; [by rewrite option_fmap_id|]. intros E. apply Hj. by eapply list_elem_of_lookup_2. Qed.

(** *** One round *)

Ltac item_step := cbn [mbind result_bind deref hi_hndl hi_prev hi_next].

Abbreviation core_of p reg R := (core (ps_size p) (ps_pollset p) (ps_hndls p) (ps_removed p) (ps_hndl p) reg R).

Lemma linked_some size hndls R j : linked size hndls R -> j ∈ R -> is_Some (hndls !! j).
Proof. intros L [k Hk]%list_elem_of_lookup_1. destruct (L k j Hk) as (pz & -> & _). by eexists. Qed.

(** The removed entry is the last one: the array gets shorter. *)
Lemma mend_last n hndls R pz : linked (S n) hndls (n :: R) -> NoDup (n :: R) -> Forall (fun j => j < S n)%nat R -> hndls !! n = Some (HItem None (Some pz) (Some (head_of R))) ->
  prev_ok (S n) (length hndls) (n :: R) 0 pz -> exists hndls', mend (Z.of_nat n) (Z.of_nat n) hndls (head_of R) = Ok (hndls', head_of R) /\
    length hndls' = length hndls /\ linked n hndls' R /\ (forall j, (j < n)%nat -> j ∉ R -> hndls' !! j = hndls !! j).
Proof.
  intros L N F Hn Hp. apply NoDup_cons in N as [Hnr N]. pose proof (lookup_lt_Some _ _ _ Hn) as Hlt. unfold mend. rewrite Nat2Z.id, Hn. item_step.
  assert (exists hndls1, (if negb (bool_decide (pz = -1)) then update hndls pz (set_next (Z.of_nat n)) else Ok hndls) = Ok hndls1 /\
    length hndls1 = length hndls /\ forall j, (j <= n)%nat -> hndls1 !! j = hndls !! j) as (hndls1 & E1 & Hl1 & H1).
  { cases (pz = -1) as Hz; decide_bools; cbn [negb]; [by exists hndls|]. destruct Hp as [?|Hp]; [done|].
    destruct (lookup_lt_is_Some_2 hndls (Z.to_nat pz)) as [x Hx]; [lia|]. replace pz with (Z.of_nat (Z.to_nat pz)) by lia. rewrite (update_ok _ _ _ _ Hx).
    eexists. split; [done|]. split; [apply length_insert|]. intros j Hj. apply list_lookup_insert_ne. lia. }
  rewrite E1. item_step. rewrite (H1 n), Hn by lia. item_step. rewrite Forall_forall in F.
  rewrite (write_head_ok hndls1 R). 2: { intros j Hj. rewrite H1 by (specialize (F j Hj); lia). apply (linked_some _ _ _ j L). by right. }
  item_step. exists (write_head hndls1 R (Z.of_nat n)). split; [|split; [by rewrite write_head_length|split]].
  - f_equal. f_equal. rewrite bool_decide_eq_false_2; [done|]. intros E%head_of_elem. done.
  - apply (linked_tail (S n) n hndls _ n R (Z.of_nat n) L N); [by rewrite write_head_length|right; lia|].
    intros j Hj. rewrite write_head_lookup. by rewrite H1 by (specialize (F j Hj); lia).
  - intros j Hj HR. rewrite write_head_other by done. apply H1. lia.
Qed.

(** Writing to an element, if there is one. *)
Definition write_at (z : Z) (f : nn_hndls_item -> nn_hndls_item) (l : list nn_hndls_item) : list nn_hndls_item := if bool_decide (z < 0) then l else alter f (Z.to_nat z) l.

Lemma write_at_ok z f l : z = -1 \/ 0 <= z < Z.of_nat (length l) -> (if negb (bool_decide (z = -1)) then update l z f else Ok l) = Ok (write_at z f l).
Proof.
  unfold write_at. intros [-> | Hz]; decide_bools; cbn [negb]; [done|]. destruct (lookup_lt_is_Some_2 l (Z.to_nat z)) as [x Hx]; [lia|].
  replace z with (Z.of_nat (Z.to_nat z)) at 1 by lia. rewrite (update_ok _ _ _ _ Hx). f_equal. apply list_eq. intros j. destruct (decide (j = Z.to_nat z)) as [->|Hne].
  - rewrite list_lookup_alter_eq, Hx, list_lookup_insert_eq; [done|]. by eapply lookup_lt_Some.
  - by rewrite list_lookup_alter_ne, list_lookup_insert_ne.
Qed.

Lemma write_at_lookup z f l j : write_at z f l !! j = (if bool_decide (z = Z.of_nat j) then f else id) <$> l !! j.
Proof.
  unfold write_at. cases (z = Z.of_nat j) as E; decide_bools.
  - subst. rewrite Nat2Z.id. apply list_lookup_alter_eq.
  - rewrite option_fmap_id. case_bool_decide; [done|]. apply list_lookup_alter_ne. lia.
Qed.
Lemma write_at_length z f l : length (write_at z f l) = length l.
Proof. unfold write_at. case_bool_decide; [done|apply length_alter]. Qed.

(** The last entry is a removed one: the list is mended around its new place. *)
Lemma mend_moved n i hndls R k pz : linked n hndls R -> NoDup R -> Forall (fun j => j < length hndls)%nat R -> R !! k = Some n -> i ∉ R -> (i < length hndls)%nat ->
  hndls !! n = Some (HItem None (Some pz) (Some (next_of R k))) -> (k = 0%nat -> pz = -1) -> exists hndls',
    mend (Z.of_nat i) (Z.of_nat n) (<[i := HItem None (Some pz) (Some (next_of R k))]> hndls) (head_of R) = Ok (hndls', head_of (<[k := i]> R)) /\
    length hndls' = length hndls /\ linked n hndls' (<[k := i]> R) /\ (forall j, j ∉ R -> j <> i -> hndls' !! j = hndls !! j).
Proof.
  intros L N F Hk Hi Hlt Hn Hpz. set (item := HItem None (Some pz) (Some (next_of R k))) in *. unfold mend. rewrite Nat2Z.id, list_lookup_insert_eq by done. item_step.
  change (hi_hndl item) with (@None Z). change (hi_prev item) with (Some pz). item_step.
  rewrite Forall_forall in F. destruct (L k n Hk) as (pz' & Hn' & Hp). rewrite Hn in Hn'. injection Hn' as <-.
  assert (pz = -1 \/ exists j, pz = Z.of_nat j /\ j ∈ R) as Hpj.
  { destruct k as [|k]; [left; by apply Hpz|right]. cbn in Hp. destruct (R !! k) as [j|] eqn:E; [|done]. cbn in Hp. exists j. split; [congruence|]. by eapply list_elem_of_lookup_2. }
  assert (next_of R k = -1 \/ exists j, next_of R k = Z.of_nat j /\ j ∈ R) as Hnj.
  { unfold next_of. destruct (R !! S k) as [j|] eqn:E; [right|by left]. exists j. split; [done|]. by eapply list_elem_of_lookup_2. }
  assert (forall z, (z = -1 \/ exists j, z = Z.of_nat j /\ j ∈ R) -> z <> Z.of_nat i /\ (z = -1 \/ 0 <= z < Z.of_nat (length hndls))) as B.
  { intros z [-> |(j & -> & Hj)]; [lia|]. specialize (F j Hj). split; [intros ->%Nat2Z.inj; done|lia]. }
  destruct (B _ Hpj) as [Hpi Hpb]. destruct (B _ Hnj) as [Hni Hnb].
  rewrite write_at_ok by (by rewrite length_insert). item_step. rewrite write_at_lookup, list_lookup_insert_eq by done. rewrite (bool_decide_eq_false_2 (pz = _)) by done. cbn [fmap option_fmap option_map]. item_step.
  change (hi_next (id item)) with (Some (next_of R k)). item_step.
  rewrite write_at_ok by (by rewrite write_at_length, length_insert). item_step.
  exists (write_at (next_of R k) (set_prev (Z.of_nat i)) (write_at pz (set_next (Z.of_nat i)) (<[i := item]> hndls))).
  split; [|split; [by rewrite !write_at_length, length_insert|split]].
  - f_equal. f_equal. destruct R as [|j0 R]; [done|]. destruct k as [|k]; cbn.
    + injection Hk as ->. by decide_bools.
    + rewrite bool_decide_eq_false_2; [done|]. intros ->%Nat2Z.inj. apply NoDup_cons in N as [N _]. apply N. by eapply list_elem_of_lookup_2.
  - apply (linked_replace n hndls _ R k n i pz); try done; [by rewrite !write_at_length, length_insert| |].
    + rewrite !write_at_lookup, list_lookup_insert_eq by done. rewrite !bool_decide_eq_false_2 by done. by rewrite Hn.
    + intros j Hj Hjn. rewrite !write_at_lookup, list_lookup_insert_ne by (by intros ->). by destruct (hndls !! j).
  - intros j Hj Hji. assert (forall z, (z = -1 \/ exists j, z = Z.of_nat j /\ j ∈ R) -> z <> Z.of_nat j) as B'.
    { intros z [-> |(j' & -> & Hj')]; [lia|]. intros ->%Nat2Z.inj. done. }
    rewrite !write_at_lookup, list_lookup_insert_ne by done. rewrite !bool_decide_eq_false_2 by (by apply B'). by rewrite !option_fmap_id.
Qed.

(** The last entry is in use and moves. *)
Lemma core_move n i pollset hndls removed hndl reg R xn yn h hndls' : core (S n) pollset hndls removed hndl reg (i :: R) -> (i < n)%nat ->
  pollset !! n = Some xn -> hndls !! n = Some yn -> used reg hndl xn yn n h -> n ∉ R ->
  length hndls' = length hndls -> linked n hndls' R -> hndls' !! i = Some yn -> (forall j, (j < n)%nat -> j <> i -> j ∉ R -> hndls' !! j = hndls !! j) ->
  core n (<[i := xn]> pollset) hndls' (head_of R) (<[h := i]> hndl) reg R.
Proof.
  intros C Hin Hx Hy U Hn Hl L Hi Hs. destruct (co_len _ _ _ _ _ _ _ C) as [L1 L2]. destruct (co_removed _ _ _ _ _ _ _ C) as (N & F & _).
  apply NoDup_cons in N as [Hir N]. apply Forall_cons in F as [_ F]. constructor; [by rewrite length_insert; lia| |done| |].
  - split; [done|]. split; [|done]. rewrite Forall_forall in *. intros j Hj. assert (j <> n) by (intros ->; done). specialize (F j Hj). lia.
  - intros j x y Hj HR Hx' Hy'. destruct (decide (j = i)) as [->|Hji].
    + rewrite list_lookup_insert_eq in Hx' by lia. injection Hx' as <-. rewrite Hi in Hy'. injection Hy' as <-. exists h.
      constructor; [apply (us_hndl _ _ _ _ _ _ U)|apply (us_reg _ _ _ _ _ _ U)|apply lookup_insert_eq].
    + rewrite list_lookup_insert_ne in Hx' by done. rewrite Hs in Hy' by done. destruct (co_used _ _ _ _ _ _ _ C j x y) as (h' & U'); [lia|by rewrite not_elem_of_cons|done..|].
      exists h'. destruct U' as [U1 U2 U3]. constructor; [done..|]. rewrite lookup_insert_ne; [done|]. intros ->. rewrite (us_index _ _ _ _ _ _ U) in U3. injection U3 as ->. lia.
  - intros h' r Hr. destruct (decide (h' = h)) as [->|Hne].
    + exists i, yn. rewrite lookup_insert_eq. split_and!; try done. apply (us_hndl _ _ _ _ _ _ U).
    + rewrite lookup_insert_ne by done. destruct (co_reg _ _ _ _ _ _ _ C h' r Hr) as (j & y & E1 & E2 & E3 & E4 & E5). apply not_elem_of_cons in E3 as [E3 E3'].
      assert (j <> n). { intros ->. rewrite Hy in E4. injection E4 as <-. rewrite (us_hndl _ _ _ _ _ _ U) in E5. by injection E5. }
      exists j, y. split_and!; try done; [lia|]. rewrite Hs; [done|lia|done..].
Qed.

(** The entries in use stay where they are. *)
Lemma core_stay n i pollset pollset' hndls removed hndl reg R hndls' R' : core (S n) pollset hndls removed hndl reg (i :: R) ->
  (forall j, j ∈ R' -> (j < n)%nat) -> (forall j, (j < n)%nat -> j ∉ R' -> j ∉ i :: R) -> (forall j, j ∉ i :: R -> (j < S n)%nat -> (j < n)%nat /\ j ∉ R') -> NoDup R' ->
  length hndls' = length hndls -> length pollset' = length pollset -> linked n hndls' R' ->
  (forall j, (j < n)%nat -> j ∉ R' -> pollset' !! j = pollset !! j /\ hndls' !! j = hndls !! j) -> core n pollset' hndls' (head_of R') hndl reg R'.
Proof.
  intros C B1 B2 B3 N Hl Hl' L Hs. destruct (co_len _ _ _ _ _ _ _ C) as [L1 L2]. constructor; [lia| |done| |].
  - split; [done|]. split; [|done]. by apply Forall_forall.
  - intros j x y Hj HR Hx Hy. destruct (Hs j Hj HR) as [E1 E2]. rewrite E1 in Hx. rewrite E2 in Hy. apply (co_used _ _ _ _ _ _ _ C j x y); [lia|by apply B2|done..].
  - intros h r Hr. destruct (co_reg _ _ _ _ _ _ _ C h r Hr) as (j & y & E1 & E2 & E3 & E4 & E5). destruct (B3 j E3 E2) as [B4 B5].
    exists j, y. split_and!; try done. by rewrite (proj2 (Hs j B4 B5)).
Qed.

Lemma remove_one_ok p reg i R : core_of p reg (i :: R) -> exists p' R', remove_one p = Ok p' /\ core_of p' reg R' /\
  length R' = length R /\ ps_size p = S (ps_size p') /\ ps_index p' = ps_index p /\ ps_capacity p' = ps_capacity p.
Proof.
  intros C. destruct (co_len _ _ _ _ _ _ _ C) as [L1 L2]. destruct (co_removed _ _ _ _ _ _ _ C) as (N & F & Er). pose proof N as N0.
  apply NoDup_cons in N as [Hir N]. apply Forall_cons in F as [Hi F]. destruct (ps_size p) as [|n] eqn:En; [lia|].
  pose proof (co_linked _ _ _ _ _ _ _ C) as L. destruct (L 0%nat i eq_refl) as (pz & Hy & Hp). replace (next_of (i :: R) 0) with (head_of R) in Hy by (by destruct R).
  unfold remove_one. rewrite Er, En. cbn [head_of]. rewrite (bool_decide_eq_false_2 (Z.of_nat i < 0)) by lia. rewrite ?Nat2Z.id, Hy. item_step.
  replace (Z.of_nat (S n) - 1) with (Z.of_nat n) by lia. destruct (decide (i = n)) as [->|Hne].
  { rewrite bool_decide_eq_true_2 by done. cbn [negb]. item_step. assert (Forall (fun j => j < S n)%nat R) as F' by done.
    destruct (mend_last n (ps_hndls p) R pz L N0 F' Hy Hp) as (hndls' & -> & Hl & L' & Hs). item_step. rewrite ?Nat2Z.id. eexists _, R. split; [reflexivity|]. cbn. split; [|done].
    rewrite Forall_forall in F'. apply (core_stay n n _ _ _ _ _ _ R _ R C); try done.
    - intros j Hj. specialize (F' j Hj). assert (j <> n) by (intros ->; done). lia.
    - intros j Hj HR. apply not_elem_of_cons. split; [lia|done].
    - intros j [Hj1 Hj2]%not_elem_of_cons Hj. split; [lia|done].
    - intros j Hj HR. split; [done|by apply Hs]. }
  rewrite (bool_decide_eq_false_2 (Z.of_nat i = Z.of_nat n)) by lia. cbn [negb]. unfold replace. destruct (core_lookup _ _ _ _ _ _ _ n C) as (xn & yn & Hxn & Hyn); [lia|].
  rewrite ?Nat2Z.id, Hxn. item_step. destruct (core_lookup _ _ _ _ _ _ _ i C) as (xi & yi & Hxi & _); [lia|]. rewrite (update_ok _ _ _ _ Hxi). item_step.
  rewrite ?Nat2Z.id, Hy. item_step. rewrite write_head_ok by (intros j Hj; apply (linked_some _ _ _ j L); by right). item_step. set (hA := write_head (ps_hndls p) R (-1)).
  assert (length hA = length (ps_hndls p)) as HlA by apply write_head_length.
  assert (linked n hA R) as LA. { apply (linked_tail (S n) n (ps_hndls p) hA i R (-1) L N HlA); [by left|]. intros j Hj. apply write_head_lookup. }
  destruct (decide (n ∈ R)) as [Hnr|Hnr].
  - apply list_elem_of_lookup_1 in Hnr as Hk. destruct Hk as [k Hk]. destruct (LA k n Hk) as (pz' & HnA & Hp').
    rewrite HnA. item_step. assert (hA !! i = Some (HItem None (Some pz) (Some (head_of R)))) as HiA by (unfold hA; by rewrite write_head_other).
    rewrite (update_ok _ _ _ _ HiA). item_step.
    assert (k = 0%nat -> pz' = -1) as Hk0.
    { intros ->. unfold hA in HnA. rewrite write_head_lookup, Hk in HnA. rewrite bool_decide_eq_true_2 in HnA by done. destruct (ps_hndls p !! n); [|done]. cbn in HnA. by injection HnA. }
    assert (Forall (fun j => j < length hA)%nat R) as FA by (rewrite HlA; apply (Forall_impl _ _ _ F); intros j; lia).
    destruct (mend_moved n i hA R k pz' LA N FA Hk Hir) as (hndls' & -> & Hl & L' & Hs); [lia|done|done|]. item_step. rewrite ?Nat2Z.id. eexists _, (<[k := i]> R). split; [reflexivity|]. cbn.
    split; [|split; [apply length_insert|split_and!; try done; apply length_insert]]. pose proof (lookup_lt_Some _ _ _ Hk) as Hlt.
    assert (forall j, j ∈ <[k := i]> R <-> j = i \/ j ∈ R /\ j <> n) as Hel.
    { intros j. split.
      - intros [k' Hk']%list_elem_of_lookup_1. destruct (decide (k' = k)) as [->|Hkk]; [left; rewrite list_lookup_insert_eq in Hk' by done; congruence|right].
        rewrite list_lookup_insert_ne in Hk' by done. split; [by eapply list_elem_of_lookup_2|]. intros ->. apply Hkk. exact (NoDup_lookup _ _ _ _ N Hk' Hk).
      - intros [->|[[k' Hk']%list_elem_of_lookup_1 Hjn]]; [apply (list_elem_of_lookup_2 _ k); by apply list_lookup_insert_eq|].
        apply (list_elem_of_lookup_2 _ k'). rewrite list_lookup_insert_ne; [done|]. intros ->. congruence. }
    rewrite Forall_forall in F. apply (core_stay n i _ _ _ _ _ _ R _ _ C); try done.
    + intros j [->|[Hj Hjn]]%Hel; [lia|]. specialize (F j Hj). lia.
    + intros j Hj HR. rewrite Hel in HR. apply not_elem_of_cons. split; [naive_solver|]. intros Hj'. apply HR. right. split; [done|lia].
    + intros j [Hj1 Hj2]%not_elem_of_cons Hj. split; [|rewrite Hel; naive_solver]. assert (j <> n) by (intros ->; done). lia.
    + by apply NoDup_replace.
    + by rewrite Hl.
    + by rewrite length_insert.
    + intros j Hj HR. rewrite Hel in HR. rewrite list_lookup_insert_ne by naive_solver. split; [done|]. rewrite Hs; [unfold hA; apply write_head_other|..]; [intros Hj'; apply HR; right; split; [done|lia]..|naive_solver].
  - destruct (co_used _ _ _ _ _ _ _ C n xn yn) as (h & U); [lia|apply not_elem_of_cons; split; [lia|done]|done..|].
    assert (hA !! n = Some yn) as HnA by (unfold hA; by rewrite write_head_other). rewrite HnA. item_step.
    assert (hA !! i = Some (HItem None (Some pz) (Some (head_of R)))) as HiA by (unfold hA; by rewrite write_head_other).
    rewrite (update_ok _ _ _ _ HiA). item_step. rewrite (us_hndl _ _ _ _ _ _ U). unfold mend.
    rewrite ?Nat2Z.id, list_lookup_insert_eq by lia. item_step. rewrite (us_hndl _ _ _ _ _ _ U). item_step. rewrite ?Nat2Z.id. eexists _, R. split; [reflexivity|]. cbn. split; [|split_and!; try done; apply length_insert].
    apply (core_move n i _ (ps_hndls p) (ps_removed p) _ reg R xn yn h); try done; [lia|by rewrite length_insert| |apply list_lookup_insert_eq; lia|].
    + intros k j Hj. destruct (LA k j Hj) as (pj & E & Hpj). exists pj. rewrite list_lookup_insert_ne, length_insert; [done|]. intros ->. apply Hir. by eapply list_elem_of_lookup_2.
    + intros j Hj Hji HR. rewrite list_lookup_insert_ne by done. by apply write_head_other.
Qed.

(** ** It keeps the contract *)

Record ps_rep (p : nn_poller) (v : pview) (R : list nat) : Prop := {
  rp_core : core_of p (pv_reg v) R;
  rp_linked : linked (length (ps_hndls p)) (ps_hndls p) R;
  rp_zero j x : j ∈ R -> ps_pollset p !! j = Some x -> pf_revents x = 0;
  rp_index : (ps_index p <= ps_size p)%nat /\ (0 < ps_capacity p)%nat;
  rp_pend : pend_rep (drop (ps_index p) (entries p)) (pv_pend v);
  rp_ok : pview_ok v
}.

Lemma linked_weaken size size' hndls R : (size' <= size)%nat -> linked size hndls R -> linked size' hndls R.
Proof. intros Hs L k j Hj. destruct (L k j Hj) as (pz & E & Hp). exists pz. split; [done|]. destruct k; [|done]. destruct Hp as [?|?]; [by left|right; lia]. Qed.

Lemma entries_length p : length (ps_pollset p) = length (ps_hndls p) -> (ps_size p <= length (ps_hndls p))%nat -> length (entries p) = ps_size p.
Proof. intros H1 H2. unfold entries. rewrite length_take, length_zip_with. lia. Qed.

Lemma entries_lookup p j x y : (j < ps_size p)%nat -> ps_pollset p !! j = Some x -> ps_hndls p !! j = Some y -> entries p !! j = Some (entry x y).
Proof. intros Hj Hx Hy. unfold entries. rewrite lookup_take_lt by done. by rewrite lookup_zip_with, Hx, Hy. Qed.

Lemma entries_some p j r : entries p !! j = Some r -> exists x y, (j < ps_size p)%nat /\ ps_pollset p !! j = Some x /\ ps_hndls p !! j = Some y /\ r = entry x y.
Proof.
  unfold entries. intros [E Hj]%lookup_take_Some. apply lookup_zip_with_Some in E as (x & y & -> & Hx & Hy). by exists x, y.
Qed.

(** Entries without events may differ. *)
Lemma live_same l l' : Forall2 (fun r r' : Z * Z => r = r' \/ r.1 = 0 /\ r'.1 = 0) l l' -> live l = live l'.
Proof.
  induction 1 as [|r r' l l' [->|[H1 H2]] _ IH]; [done|..].
  - destruct (decide (r'.1 = 0)); [by rewrite !live_cons_zero|by rewrite !live_cons, IH].
  - by rewrite !live_cons_zero.
Qed.
Lemma pend_rep_same l l' m : live l = live l' -> pend_rep l m -> pend_rep l' m.
Proof. intros E [N L]. by constructor; rewrite <- E. Qed.

(** The events of the handle of the entry [i] change. *)
Lemma pend_rep_entry p v R p' h i g : ps_rep p v R -> ps_hndl p !! h = Some i -> is_Some (pv_reg v !! h) -> g 0 = 0 ->
  ps_size p' = ps_size p -> ps_index p' = ps_index p -> length (ps_pollset p') = length (ps_pollset p) -> length (ps_hndls p') = length (ps_hndls p) ->
  (forall j, j <> i -> pf_revents <$> ps_pollset p' !! j = pf_revents <$> ps_pollset p !! j) ->
  (forall j, j <> i -> hi_hndl <$> ps_hndls p' !! j = hi_hndl <$> ps_hndls p !! j) ->
  (forall x x' y', ps_pollset p !! i = Some x -> ps_pollset p' !! i = Some x' -> ps_hndls p' !! i = Some y' -> pf_revents x' = g (pf_revents x) /\ (hi_hndl y' = Some h \/ pf_revents x' = 0)) ->
  pend_rep (drop (ps_index p') (entries p')) (match pv_pend v !! h with Some e => put_events h (g e) (pv_pend v) | None => pv_pend v end).
Proof.
  intros R0 Hh [r Hr] Hg E1 E2 E3 E4 S1 S2 S3. pose proof (rp_core _ _ _ R0) as C. destruct (co_len _ _ _ _ _ _ _ C) as [L1 L2].
  apply (pend_rep_same (at_hndl h g <$> drop (ps_index p) (entries p))); [|by apply pend_rep_at, (rp_pend _ _ _ R0)]. rewrite E2, fmap_drop. apply live_same.
  assert (Forall2 (fun r r' : Z * Z => r = r' \/ r.1 = 0 /\ r'.1 = 0) (at_hndl h g <$> entries p) (entries p')) as F; [|by apply Forall2_drop].
  apply Forall2_same_length_lookup_2; [rewrite length_fmap, !entries_length; lia|]. intros j r1 r2 H1 H2.
  rewrite list_lookup_fmap in H1. destruct (entries p !! j) as [r0|] eqn:H0; [|done]. cbn in H1. injection H1 as <-.
  apply entries_some in H0 as (x & y & Hj & Hx & Hy & ->). apply entries_some in H2 as (x' & y' & _ & Hx' & Hy' & ->).
  destruct (co_reg _ _ _ _ _ _ _ C h r Hr) as (i' & yi & Hi' & Hil & HiR & Hyi & Hyh). rewrite Hh in Hi'. injection Hi' as <-.
  unfold at_hndl, entry. cbn [fst snd]. destruct (decide (j = i)) as [->|Hne].
  - destruct (S3 x x' y' Hx Hx' Hy') as [E5 E6]. rewrite Hy in Hyi. injection Hyi as ->. rewrite Hyh. cbn. decide_bools. rewrite E5.
    destruct E6 as [E6|E6]; [left; by rewrite E6|right]. rewrite E5 in E6. done.
  - specialize (S1 j Hne). rewrite Hx, Hx' in S1. cbn in S1. injection S1 as S1. specialize (S2 j Hne). rewrite Hy, Hy' in S2. cbn in S2. injection S2 as S2. rewrite S1, S2.
    case_bool_decide as Hd; [|by left]. destruct (decide (j ∈ R)) as [HjR|HjR].
    + left. rewrite (rp_zero _ _ _ R0 j x HjR Hx). by rewrite Hg, Hd.
    + destruct (co_used _ _ _ _ _ _ _ C j x y Hj HjR Hx Hy) as (h' & U). rewrite (us_hndl _ _ _ _ _ _ U) in Hd. cbn in Hd. subst h'.
      rewrite (us_index _ _ _ _ _ _ U) in Hh. injection Hh as ->. done.
Qed.

Lemma handle_entry p v R h r : ps_rep p v R -> pv_reg v !! h = Some r ->
  exists i x y, ps_hndl p !! h = Some i /\ (i < ps_size p)%nat /\ i ∉ R /\ ps_pollset p !! i = Some x /\ ps_hndls p !! i = Some y /\ used (pv_reg v) (ps_hndl p) x y i h /\ r = (pf_fd x, pf_events x).
Proof.
  intros R0 Hr. pose proof (rp_core _ _ _ R0) as C. destruct (co_reg _ _ _ _ _ _ _ C h r Hr) as (i & y & H1 & H2 & H3 & H4 & H5).
  destruct (core_lookup _ _ _ _ _ _ _ i C H2) as (x & y' & Hx & Hy). rewrite H4 in Hy. injection Hy as <-.
  pose proof (core_handle _ _ _ _ _ _ _ i x y h r C H2 H3 Hx H4 Hr H1) as U. exists i, x, y. split_and!; try done.
  pose proof (us_reg _ _ _ _ _ _ U) as E. rewrite Hr in E. by injection E.
Qed.

Lemma ps_rep_rm p v R h : ps_rep p v R -> legal (INT_MAX) v (PRm h) -> exists p' R', nn_poller_rm p h = Ok p' /\ ps_rep p' (PView (delete h (pv_reg v)) (delete h (pv_pend v))) R'.
Proof.
  intros R0 Lg. pose proof (a_next_ok _ v (PRm h) None _ (rp_ok _ _ _ R0) Lg eq_refl) as O. destruct Lg as [r Hr].
  destruct (handle_entry p v R h r R0 Hr) as (i & x & y & Hi & Hlt & HiR & Hx & Hy & U & ->). pose proof (rp_core _ _ _ R0) as C. destruct (co_len _ _ _ _ _ _ _ C) as [L1 L2].
  destruct (co_removed _ _ _ _ _ _ _ C) as (N & F & Er). pose proof (rp_linked _ _ _ R0) as L.
  unfold nn_poller_rm. rewrite Hi. item_step. rewrite (update_ok _ _ _ _ Hx). item_step. rewrite Er, write_head_ok by (intros j Hj; by eapply linked_some). item_step.
  set (hA := write_head (ps_hndls p) R (Z.of_nat i)). assert (hA !! i = Some y) as HA by (unfold hA; by rewrite write_head_other).
  rewrite (update_ok _ _ _ _ HA). item_step. set (p' := Pollset _ _ _ _ _ _). exists p', (i :: R). split; [done|].
  assert (length hA = length (ps_hndls p)) as HlA by apply write_head_length.
  assert (linked (length (ps_hndls p')) (ps_hndls p') (i :: R)) as L'.
  { intros k j Hj. destruct k as [|k].
    - injection Hj as <-. exists (-1). cbn. rewrite list_lookup_insert_eq by lia. split; [|by left]. f_equal. f_equal. by destruct R.
    - cbn in Hj. assert (j ∈ R) as HjR by (by eapply list_elem_of_lookup_2). destruct (L k j Hj) as (pz & Hpz & Hp). cbn. rewrite list_lookup_insert_ne by (by intros ->).
      unfold hA. rewrite write_head_lookup, Hpz. cbn [fmap option_fmap option_map]. destruct k as [|k].
      + rewrite bool_decide_eq_true_2 by done. by exists (Z.of_nat i).
      + rewrite bool_decide_eq_false_2 by (intros E; by pose proof (NoDup_lookup _ _ _ _ N E Hj)). by exists pz. }
  assert (forall j, j ∉ i :: R -> <[i := HItem None (Some (-1)) (Some (head_of R))]> hA !! j = ps_hndls p !! j) as Hs.
  { intros j [Hj1 Hj2]%not_elem_of_cons. rewrite list_lookup_insert_ne by done. by apply write_head_other. }
  constructor; cbn; [| exact L'| | | |exact O].
  - constructor; cbn; [rewrite !length_insert; lia| | | |].
    + split; [by apply NoDup_cons|]. split; [by apply Forall_cons|done].
    + apply (linked_weaken (length (ps_hndls p'))); [cbn; rewrite length_insert; lia|exact L'].
    + intros j x' y' Hj HR Hx' Hy'. rewrite Hs in Hy' by done. apply not_elem_of_cons in HR as [Hji HR]. rewrite list_lookup_insert_ne in Hx' by done.
      destruct (co_used _ _ _ _ _ _ _ C j x' y' Hj HR Hx' Hy') as (h' & [U1 U2 U3]). exists h'. constructor; try done. rewrite lookup_delete_ne; [done|]. intros <-. rewrite Hi in U3. by injection U3.
    + intros h' r' [Hne Hr']%lookup_delete_Some. destruct (co_reg _ _ _ _ _ _ _ C h' r' Hr') as (j & yj & E1 & E2 & E3 & E4 & E5).
      assert (j ∉ i :: R) as Hj. { apply not_elem_of_cons. split; [|done]. intros ->. rewrite Hy in E4. injection E4 as <-. rewrite (us_hndl _ _ _ _ _ _ U) in E5. by injection E5. }
      exists j, yj. split_and!; try done. by rewrite Hs.
  - intros j x' Hj Hx'. destruct (decide (j = i)) as [->|Hji].
    + rewrite list_lookup_insert_eq in Hx' by lia. by injection Hx' as <-.
    + rewrite list_lookup_insert_ne in Hx' by done. apply (rp_zero _ _ _ R0 j x'); [|done]. apply elem_of_cons in Hj. destruct Hj; done.
  - pose proof (rp_index _ _ _ R0). unfold ps_capacity in *. cbn. rewrite length_insert. lia.
  - replace (delete h (pv_pend v)) with (match pv_pend v !! h with Some e => put_events h 0 (pv_pend v) | None => pv_pend v end).
    2: { unfold put_events. decide_bools. destruct (pv_pend v !! h) eqn:E; [done|by rewrite delete_id]. }
    apply (pend_rep_entry p v R p' h i (fun _ => 0) R0 Hi); try done; cbn.
    + apply length_insert.
    + by rewrite length_insert.
    + intros j Hj. by rewrite list_lookup_insert_ne.
    + intros j Hj. rewrite list_lookup_insert_ne by done. unfold hA. rewrite write_head_lookup. destruct (ps_hndls p !! j); [|done]. cbn. by case_bool_decide.
    + intros x0 x' y' E1 E2 E3. rewrite list_lookup_insert_eq in E2 by lia. injection E2 as <-. split; [done|by right].
Qed.

(** The events polled for change. *)
Lemma core_events p v R h i x y f g : ps_rep p v R -> ps_hndl p !! h = Some i -> ps_pollset p !! i = Some x -> ps_hndls p !! i = Some y -> used (pv_reg v) (ps_hndl p) x y i h -> i ∉ R ->
  core (ps_size p) (<[i := set_revents g (set_events f x)]> (ps_pollset p)) (ps_hndls p) (ps_removed p) (ps_hndl p) (alter (fun r => (r.1, f r.2)) h (pv_reg v)) R.
Proof.
  intros R0 Hi Hx Hy U HiR. pose proof (rp_core _ _ _ R0) as C. destruct (co_len _ _ _ _ _ _ _ C) as [L1 L2]. pose proof (lookup_lt_Some _ _ _ Hx) as Hlt.
  constructor; [rewrite length_insert; lia|apply (co_removed _ _ _ _ _ _ _ C)|apply (co_linked _ _ _ _ _ _ _ C)| |].
  - intros j x' y' Hj HR Hx' Hy'. destruct (decide (j = i)) as [->|Hne].
    + rewrite list_lookup_insert_eq in Hx' by done. injection Hx' as <-. rewrite Hy in Hy'. injection Hy' as <-. exists h. destruct U as [U1 U2 U3]. constructor; try done.
      rewrite lookup_alter_eq, U2. done.
    + rewrite list_lookup_insert_ne in Hx' by done. destruct (co_used _ _ _ _ _ _ _ C j x' y' Hj HR Hx' Hy') as (h' & [U1 U2 U3]). exists h'. constructor; try done.
      rewrite lookup_alter_ne; [done|]. intros <-. rewrite Hi in U3. injection U3 as ->. done.
  - intros h' r Hr. apply lookup_alter_Some in Hr. destruct Hr as [(<- & r0 & Hr & _)|[_ Hr]]; by apply (co_reg _ _ _ _ _ _ _ C _ _ Hr).
Qed.

Lemma ps_rep_set p v R h bit : ps_rep p v R -> legal (INT_MAX) v (PSet h bit) ->
  exists p', nn_poller_set p h bit = Ok p' /\ ps_rep p' (PView (alter (fun r => (r.1, Z.lor r.2 bit)) h (pv_reg v)) (pv_pend v)) R.
Proof.
  intros R0 Lg. pose proof (a_next_ok _ v (PSet h bit) None _ (rp_ok _ _ _ R0) Lg eq_refl) as O. destruct Lg as [[r Hr] _].
  destruct (handle_entry p v R h r R0 Hr) as (i & x & y & Hi & Hlt & HiR & Hx & Hy & U & ->). pose proof (lookup_lt_Some _ _ _ Hx) as Hlx.
  unfold nn_poller_set. rewrite Hi. item_step. rewrite (update_ok _ _ _ _ Hx). item_step. set (p' := Pollset _ _ _ _ _ _). exists p'. split; [done|].
  constructor; cbn; [|apply (rp_linked _ _ _ R0)| | | |exact O].
  - replace (set_events (fun e => Z.lor e bit) x) with (set_revents id (set_events (fun e => Z.lor e bit) x)) by done. by apply (core_events p v R h i x y (fun e => Z.lor e bit) id).
  - intros j x' Hj Hx'. rewrite list_lookup_insert_ne in Hx' by (by intros ->). by apply (rp_zero _ _ _ R0 j).
  - pose proof (rp_index _ _ _ R0). unfold ps_capacity in *. cbn. by rewrite length_insert.
  - assert (match pv_pend v !! h with Some e => put_events h (id e) (pv_pend v) | None => pv_pend v end = pv_pend v) as Em.
    { destruct (pv_pend v !! h) as [e|] eqn:E; [|done]. unfold put_events, id. destruct (po_wanted _ (rp_ok _ _ _ R0) _ _ E) as [Hz _]. decide_bools. by apply insert_id. }
    rewrite <- Em. apply (pend_rep_entry p v R p' h i id R0 Hi); try done; cbn; [by rewrite length_insert|intros j Hj; by rewrite list_lookup_insert_ne|].
    intros x0 x' y' E1 E2 E3. rewrite list_lookup_insert_eq in E2 by done. injection E2 as <-. rewrite Hx in E1. injection E1 as <-. split; [done|left]. rewrite Hy in E3. injection E3 as <-. apply (us_hndl _ _ _ _ _ _ U).
Qed.

Lemma ps_rep_reset p v R h bit : ps_rep p v R -> legal (INT_MAX) v (PReset h bit) ->
  exists p', nn_poller_reset p h bit = Ok p' /\ exists v', a_next v (PReset h bit) None = Some v' /\ ps_rep p' v' R.
Proof.
  intros R0 Lg. eassert (a_next v (PReset h bit) None = Some _) as A by reflexivity.
  pose proof (a_next_ok _ v (PReset h bit) None _ (rp_ok _ _ _ R0) Lg A) as O. destruct Lg as [[r Hr] _].
  destruct (handle_entry p v R h r R0 Hr) as (i & x & y & Hi & Hlt & HiR & Hx & Hy & U & ->). pose proof (lookup_lt_Some _ _ _ Hx) as Hlx.
  unfold nn_poller_reset. rewrite Hi. item_step. rewrite (update_ok _ _ _ _ Hx). item_step.
  rewrite (update_ok _ i _ (set_events (fun e => Z.ldiff e bit) x)) by (by rewrite list_lookup_insert_eq). item_step. rewrite list_insert_insert_eq.
  set (p' := Pollset _ _ _ _ _ _). exists p'. split; [done|]. eexists. split; [exact A|].
  constructor; cbn; [by apply (core_events p v R h i x y (fun e => Z.ldiff e bit))|apply (rp_linked _ _ _ R0)| | | |exact O].
  - intros j x' Hj Hx'. rewrite list_lookup_insert_ne in Hx' by (by intros ->). by apply (rp_zero _ _ _ R0 j).
  - pose proof (rp_index _ _ _ R0). unfold ps_capacity in *. cbn. by rewrite length_insert.
  - apply (pend_rep_entry p v R p' h i (fun e => Z.ldiff e bit) R0 Hi); try done; cbn; [by rewrite length_insert|intros j Hj; by rewrite list_lookup_insert_ne|].
    intros x0 x' y' E1 E2 E3. rewrite list_lookup_insert_eq in E2 by done. injection E2 as <-. rewrite Hx in E1. injection E1 as <-. split; [done|left]. rewrite Hy in E3. injection E3 as <-. apply (us_hndl _ _ _ _ _ _ U).
Qed.

Lemma pend_rep_snoc l r m : r.1 = 0 -> pend_rep l m -> pend_rep (l ++ [r]) m.
Proof. intros Hr. apply pend_rep_same. unfold live. rewrite filter_app. rewrite filter_cons, decide_False by (intros Hn; by apply Hn). by rewrite app_nil_r. Qed.

Lemma ps_rep_add p v R fd h : ps_rep p v R -> legal (INT_MAX) v (PAdd fd h) ->
  exists p', nn_poller_add p fd h = Ok p' /\ ps_rep p' (PView (<[h := (fd, 0)]> (pv_reg v)) (pv_pend v)) R.
Proof.
  intros R0 Lg. pose proof (a_next_ok _ v (PAdd fd h) None _ (rp_ok _ _ _ R0) Lg eq_refl) as O. destruct Lg as [Hf _].
  pose proof (rp_core _ _ _ R0) as C. destruct (co_len _ _ _ _ _ _ _ C) as [L1 L2]. destruct (rp_index _ _ _ R0) as [Hix Hcap].
  destruct (co_removed _ _ _ _ _ _ _ C) as (N & F & Er). rewrite Forall_forall in F. unfold nn_poller_add.
  set (more := if bool_decide (ps_capacity p <= ps_size p)%nat then ps_capacity p else 0%nat).
  assert (ps_size p < length (ps_pollset p) + more)%nat as Hroom by (unfold more, ps_capacity in *; case_bool_decide; lia).
  destruct (lookup_lt_is_Some_2 (ps_pollset p ++ junk_fds more) (ps_size p)) as [x0 Hx0]; [rewrite length_app; unfold junk_fds; rewrite length_replicate; lia|].
  destruct (lookup_lt_is_Some_2 (ps_hndls p ++ junk_items more) (ps_size p)) as [y0 Hy0]; [rewrite length_app; unfold junk_items; rewrite length_replicate; lia|].
  rewrite (update_ok _ _ _ _ Hx0). item_step. rewrite (update_ok _ _ _ _ Hy0). item_step. set (p' := Pollset _ _ _ _ _ _). exists p'. split; [done|].
  pose proof (lookup_lt_Some _ _ _ Hx0) as Hlx. pose proof (lookup_lt_Some _ _ _ Hy0) as Hly.
  assert (forall j, (j < ps_size p)%nat -> ps_pollset p' !! j = ps_pollset p !! j /\ ps_hndls p' !! j = ps_hndls p !! j) as Hs.
  { intros j Hj. cbn. rewrite !list_lookup_insert_ne by lia. by rewrite !lookup_app_l by lia. }
  assert (forall s s' hs, (ps_size p' <= s')%nat -> linked (length (ps_hndls p)) (ps_hndls p) R -> s' = s -> hs = ps_hndls p' -> (s' <= length hs)%nat -> linked s' hs R) as HL.
  { intros s s' hs Hs' L _ -> _ k j Hj. destruct (L k j Hj) as (pz & E & Hp). exists pz. rewrite (proj2 (Hs j (F j ltac:(by eapply list_elem_of_lookup_2)))). split; [done|].
    destruct k; [|done]. destruct Hp as [?|?]; [by left|lia]. }
  assert (forall j x y, ps_pollset p' !! j = Some x -> ps_hndls p' !! j = Some y -> j = ps_size p -> x = PollFd fd 0 0 /\ hi_hndl y = Some h) as Hn.
  { intros j x y Hx Hy ->. cbn in Hx, Hy. rewrite list_lookup_insert_eq in Hx by done. rewrite list_lookup_insert_eq in Hy by done. injection Hx as <-. injection Hy as <-. done. }
  constructor; cbn [pv_reg pv_pend]; [| | | | |exact O].
  - constructor.
    + cbn. rewrite !length_insert, !length_app in *. unfold junk_fds, junk_items in *. rewrite !length_replicate in *. lia.
    + split; [done|]. split; [|done]. apply Forall_forall. intros j Hj. specialize (F j Hj). cbn. lia.
    + apply (HL (ps_size p')); try done; [apply (rp_linked _ _ _ R0)|]. cbn. rewrite length_insert. lia.
    + intros j x y Hj HR Hx Hy. cbn in Hj. destruct (decide (j = ps_size p)) as [->|Hne].
      * destruct (Hn _ x y Hx Hy eq_refl) as [-> Hy']. exists h. constructor; [done|cbn; apply lookup_insert_eq|cbn; apply lookup_insert_eq].
      * destruct (Hs j) as [E1 E2]; [lia|]. rewrite E1 in Hx. rewrite E2 in Hy. destruct (co_used _ _ _ _ _ _ _ C j x y) as (h' & [U1 U2 U3]); [lia|done..|].
        exists h'. assert (h' <> h) by (intros ->; congruence). constructor; [done|by rewrite lookup_insert_ne|cbn; by rewrite lookup_insert_ne].
    + intros h' r Hr. apply lookup_insert_Some in Hr. destruct Hr as [[<- _]|[Hne Hr]].
      * exists (ps_size p), (set_hndl (Some h) y0). cbn. rewrite lookup_insert_eq, list_lookup_insert_eq by done. split_and!; try done; [lia|]. intros Hj. specialize (F _ Hj). lia.
      * destruct (co_reg _ _ _ _ _ _ _ C h' r Hr) as (j & y & E1 & E2 & E3 & E4 & E5). exists j, y. rewrite (proj2 (Hs j E2)). cbn. rewrite lookup_insert_ne by done. split_and!; try done. lia.
  - apply (HL (length (ps_hndls p'))); try done; [|apply (rp_linked _ _ _ R0)]. cbn. rewrite length_insert. lia.
  - intros j x Hj Hx. rewrite (proj1 (Hs j (F j Hj))) in Hx. by apply (rp_zero _ _ _ R0 j).
  - unfold ps_capacity. cbn. rewrite length_insert. lia.
  - assert (entries p' = entries p ++ [(0, h)]) as ->.
    { apply list_eq. intros j. destruct (decide (j < ps_size p)%nat) as [Hj|Hj].
      - rewrite lookup_app_l by (rewrite entries_length; lia). destruct (core_lookup _ _ _ _ _ _ _ j C Hj) as (x & y & Hx & Hy). destruct (Hs j Hj) as [E1 E2].
        rewrite (entries_lookup p j x y Hj Hx Hy). apply entries_lookup; [cbn; lia|by rewrite E1|by rewrite E2].
      - destruct (decide (j = ps_size p)) as [->|Hne].
        + rewrite lookup_app_r by (rewrite entries_length; lia). rewrite entries_length, Nat.sub_diag by lia.
          rewrite (entries_lookup p' (ps_size p) (PollFd fd 0 0) (set_hndl (Some h) y0)); [done|cbn; lia|cbn; by rewrite list_lookup_insert_eq|cbn; by rewrite list_lookup_insert_eq].
        + rewrite !lookup_ge_None_2; [done|rewrite length_app, entries_length by lia; cbn; lia|].
          rewrite entries_length; cbn; [lia|rewrite !length_insert, !length_app; unfold junk_fds, junk_items; rewrite !length_replicate; lia|rewrite length_insert; lia]. }
    cbn [ps_index p']. rewrite drop_app_le by (rewrite entries_length; lia). apply pend_rep_snoc; [done|apply (rp_pend _ _ _ R0)].
Qed.

(** *** The wait *)

Lemma remove_all_ok fuel : forall p reg R, core_of p reg R -> (length R <= fuel)%nat ->
  exists p', remove_all fuel p = Ok p' /\ core_of p' reg [] /\ ps_capacity p' = ps_capacity p.
Proof.
  induction fuel as [|fuel IH]; intros p reg R C Hf; destruct (co_removed _ _ _ _ _ _ _ C) as (N & F & Er).
  - destruct R; [|cbn in Hf; lia]. exists p. cbn [remove_all]. by rewrite (bool_decide_eq_true_2 (ps_removed p = -1)) by (by rewrite Er).
  - destruct R as [|i R]; [exists p; cbn [remove_all]; by rewrite (bool_decide_eq_true_2 (ps_removed p = -1)) by (by rewrite Er)|]. cbn [remove_all]. rewrite Er. cbn [head_of]. rewrite bool_decide_eq_false_2 by lia.
    destruct (remove_one_ok p reg i R C) as (p1 & R1 & E1 & C1 & Hl & _ & _ & Hc). rewrite E1. mred. rewrite <- Hc. apply (IH p1 reg R1 C1). cbn in Hf. lia.
Qed.

(** The removed entries are distinct, so that there are enough rounds. *)
Lemma removed_length p reg R : core_of p reg R -> (length R <= ps_size p)%nat.
Proof.
  intros C. destruct (co_removed _ _ _ _ _ _ _ C) as (N & F & _). rewrite <- (length_seq (ps_size p) 0). apply submseteq_length, NoDup_submseteq; [done|].
  intros j Hj. rewrite Forall_forall in F. apply elem_of_seq. specialize (F j Hj). lia.
Qed.

Lemma poll_lookup ans p j x : (ps_size p <= length (ps_pollset p))%nat -> (j < ps_size p)%nat ->
  ((poll_fd ans <$> take (ps_size p) (ps_pollset p)) ++ drop (ps_size p) (ps_pollset p)) !! j = Some x -> exists x0, ps_pollset p !! j = Some x0 /\ x = poll_fd ans x0.
Proof.
  intros Hl Hj. rewrite lookup_app_l by (rewrite length_fmap, length_take; lia). rewrite list_lookup_fmap, lookup_take_lt by done.
  destruct (ps_pollset p !! j) as [x0|]; [|done]. intros [= <-]. by exists x0.
Qed.

Lemma ps_rep_wait p v R ans : ps_rep p v R -> legal (INT_MAX) v (PWait ans) ->
  exists q, remove_all (ps_size p) p = Ok q /\ ps_rep (polled ans q) (PView (pv_reg v) (omap (reported ans) (pv_reg v))) [].
Proof.
  intros R0 Lg. pose proof (a_next_ok _ v (PWait ans) None _ (rp_ok _ _ _ R0) Lg eq_refl) as O. destruct Lg as (La & Lb & _).
  pose proof (rp_core _ _ _ R0) as C. destruct (rp_index _ _ _ R0) as [_ Hcap].
  destruct (remove_all_ok (ps_size p) p (pv_reg v) R C (removed_length _ _ _ C)) as (q & Eq & Cq & Hc). exists q. split; [exact Eq|].
  unfold polled. set (p' := Pollset _ _ _ _ _ _). destruct (co_len _ _ _ _ _ _ _ Cq) as [L1 L2]. destruct (co_removed _ _ _ _ _ _ _ Cq) as (_ & _ & Er).
  assert (length (ps_pollset p') = length (ps_pollset q)) as El by (cbn; rewrite length_app, length_fmap, length_take, length_drop; lia).
  assert (core_of p' (pv_reg v) []) as C'.
  { constructor; [cbn [ps_hndls p' ps_size]; rewrite El; lia|split; [constructor|split; [constructor|exact Er]]|intros k j Hj; done| |apply (co_reg _ _ _ _ _ _ _ Cq)].
    intros j x y Hj HR Hx Hy. apply poll_lookup in Hx as (x0 & Hx & ->); [|lia|done]. destruct (co_used _ _ _ _ _ _ _ Cq j x0 y Hj HR Hx Hy) as (h & [U1 U2 U3]). by exists h. }
  constructor; cbn [pv_reg pv_pend]; [exact C'|intros k j Hj; done|intros j x Hj; by apply not_elem_of_nil in Hj|unfold ps_capacity in *; rewrite El; cbn [ps_index p' ps_size]; lia| |exact O].
  change (ps_index p') with 0%nat. rewrite drop_0.
  assert (forall j r, entries p' !! j = Some r -> exists x y h, ps_pollset q !! j = Some x /\ r = (default 0 (list_to_map (M := gmap Z Z) ans !! pf_fd x), h) /\ used (pv_reg v) (ps_hndl q) x y j h) as He.
  { intros j r Hj. apply entries_some in Hj as (x & y & Hj & Hx & Hy & ->). apply poll_lookup in Hx as (x0 & Hx & ->); [|lia|done].
    destruct (co_used _ _ _ _ _ _ _ Cq j x0 y Hj (not_elem_of_nil _) Hx Hy) as (h & U). exists x0, y, h. split; [done|]. split; [|done]. unfold entry. by rewrite (us_hndl _ _ _ _ _ _ U). }
  constructor.
  - assert (NoDup (snd <$> entries p')) as Nd.
    { apply NoDup_alt. intros j1 j2 h. rewrite !list_lookup_fmap. destruct (entries p' !! j1) as [r1|] eqn:E1; [|done]. destruct (entries p' !! j2) as [r2|] eqn:E2; [|done]. cbn. intros [= <-] [= E].
      apply He in E1 as (x1 & y1 & h1 & _ & -> & U1). apply He in E2 as (x2 & y2 & h2 & _ & -> & U2). cbn in E. subst h2.
      pose proof (us_index _ _ _ _ _ _ U1) as I1. rewrite (us_index _ _ _ _ _ _ U2) in I1. by injection I1. }
    clear -Nd. unfold live. induction (entries p') as [|r l IH]; [constructor|]. cbn in Nd. apply NoDup_cons in Nd as [Hr Nd]. rewrite filter_cons. case_decide; [|by apply IH].
    cbn. apply NoDup_cons. split; [|by apply IH]. intros (r' & E & [_ Hin]%list_elem_of_filter)%list_elem_of_fmap. apply Hr, list_elem_of_fmap. by exists r'.
  - intros h e. rewrite elem_live, lookup_omap_Some. split.
    + intros ([fd e0] & Hr & Hreg). destruct (co_reg _ _ _ _ _ _ _ Cq h _ Hreg) as (j & y & E1 & E2 & E3 & E4 & E5).
      destruct (core_lookup _ _ _ _ _ _ _ j Cq E2) as (x & y' & Hx & Hy). rewrite E4 in Hy. injection Hy as <-.
      pose proof (us_reg _ _ _ _ _ _ (core_handle _ _ _ _ _ _ _ j x y h _ Cq E2 E3 Hx E4 Hreg E1)) as Ex. rewrite Hreg in Ex. injection Ex as -> ->.
      split.
      * apply (list_elem_of_lookup_2 _ j). rewrite (entries_lookup p' j (poll_fd ans x) y); [|done| |done].
        -- unfold entry. rewrite E5. unfold reported in Hr. cbn in Hr. cbn. by rewrite Hr.
        -- cbn. rewrite lookup_app_l by (rewrite length_fmap, length_take; lia). by rewrite list_lookup_fmap, lookup_take_lt, Hx by done.
      * apply (reported_in _ _ _ La) in Hr. rewrite Forall_forall in Lb. by destruct (Lb _ Hr).
    + intros [Hin Hz]. apply list_elem_of_lookup_1 in Hin as [j Hj]. apply He in Hj as (x & y & h' & Hx & [= -> ->] & U).
      exists (pf_fd x, pf_events x). split; [|apply (us_reg _ _ _ _ _ _ U)]. unfold reported. cbn. destruct (list_to_map ans !! pf_fd x); [done|done].
Qed.

(** *** The next event *)

Lemma ps_rep_event p v R : ps_rep p v R -> exists p' out v', nn_poller_event p = Ok (p', out) /\ a_next v PEvent out = Some v' /\ ps_rep p' v' R.
Proof.
  intros R0. pose proof (rp_core _ _ _ R0) as C. destruct (co_len _ _ _ _ _ _ _ C) as [L1 L2]. destruct (rp_index _ _ _ R0) as [Hix Hcap].
  pose proof (pend_rep_skip _ _ (rp_pend _ _ _ R0)) as Q. unfold nn_poller_event. set (n := skip_empty (drop (ps_index p) (entries p))) in *. rewrite drop_drop in Q.
  assert (n <= length (drop (ps_index p) (entries p)))%nat as Hn.
  { unfold n. generalize (drop (ps_index p) (entries p)) as l. clear. intros l. induction l as [|r l IH]; [done|]. cbn. case_bool_decide; lia. }
  rewrite length_drop, entries_length in Hn by lia. set (i := (ps_index p + n)%nat) in *.
  cases (ps_size p <= i)%nat as Hi; decide_bools.
  - assert (pv_pend v = ∅) as He. { apply (pend_rep_empty _ _ Q). apply drop_ge. rewrite entries_length; lia. }
    do 3 eexists. split; [reflexivity|]. split; [cbn; by decide_bools|]. constructor; cbn; [exact C|apply (rp_linked _ _ _ R0)|apply (rp_zero _ _ _ R0)|unfold ps_capacity in *; cbn; lia|exact Q|apply (rp_ok _ _ _ R0)].
  - destruct (core_lookup _ _ _ _ _ _ _ i C) as (x & y & Hx & Hy); [lia|]. assert (entries p !! i = Some (entry x y)) as He by (apply entries_lookup; [lia|done..]).
    assert (pf_revents x <> 0) as Hz. { pose proof (skip_empty_head (drop (ps_index p) (entries p)) (entry x y)) as Hh. fold n in Hh. rewrite lookup_drop in Hh. apply (Hh He). }
    assert (i ∉ R) as HiR by (intros HR; by rewrite (rp_zero _ _ _ R0 i x HR Hx) in Hz).
    destruct (co_used _ _ _ _ _ _ _ C i x y) as (h & U); [lia|done..|]. rewrite Hx. item_step. rewrite Hy. item_step. rewrite (us_hndl _ _ _ _ _ _ U). item_step.
    assert (entry x y = (pf_revents x, h)) as Een by (unfold entry; by rewrite (us_hndl _ _ _ _ _ _ U)). set (e := pf_revents x) in *.
    rewrite (drop_S _ _ _ He), Een in Q. destruct (pend_rep_tail _ _ _ _ Hz Q) as (Hm & Qt & _).
    assert (a_next v PEvent (Some ((next_event e).1, h)) = Some (PView (pv_reg v) (put_events h (next_event e).2 (pv_pend v)))) as A by (cbn; rewrite Hm; by decide_bools).
    pose proof (a_next_ok 0 v PEvent _ _ (rp_ok _ _ _ R0) I A) as O. pose proof (lookup_lt_Some _ _ _ Hx) as Hlx.
    assert (forall g, (exists e', g e = e' /\ (next_event e).2 = e') -> ps_rep (Pollset (ps_size p) i (<[i := set_revents g x]> (ps_pollset p)) (ps_hndls p) (ps_removed p) (ps_hndl p))
      (PView (pv_reg v) (put_events h (next_event e).2 (pv_pend v))) R) as K.
    { intros g (e' & Hg & He'). constructor; cbn; [|apply (rp_linked _ _ _ R0)| | | |exact O].
      - constructor; [rewrite length_insert; lia|apply (co_removed _ _ _ _ _ _ _ C)|apply (co_linked _ _ _ _ _ _ _ C)| |apply (co_reg _ _ _ _ _ _ _ C)].
        intros j x' y' Hj HR Hx' Hy'. destruct (decide (j = i)) as [->|Hne].
        + rewrite list_lookup_insert_eq in Hx' by done. injection Hx' as <-. destruct (co_used _ _ _ _ _ _ _ C i x y' Hj HR Hx Hy') as (h' & [U1 U2 U3]). by exists h'.
        + rewrite list_lookup_insert_ne in Hx' by done. by apply (co_used _ _ _ _ _ _ _ C j x' y').
      - intros j x' Hj Hx'. rewrite list_lookup_insert_ne in Hx' by (by intros <-). by apply (rp_zero _ _ _ R0 j).
      - unfold ps_capacity in *. cbn. rewrite length_insert. lia.
      - pose (p' := Pollset (ps_size p) i (<[i := set_revents g x]> (ps_pollset p)) (ps_hndls p) (ps_removed p) (ps_hndl p)).
        change (pend_rep (drop i (entries p')) (put_events h (next_event e).2 (pv_pend v))). assert (entries p' = <[i := (e', h)]> (entries p)) as ->.
        { apply list_eq. intros j. destruct (decide (j < ps_size p)%nat) as [Hj|Hj].
          - destruct (core_lookup _ _ _ _ _ _ _ j C Hj) as (xj & yj & Hxj & Hyj). destruct (decide (j = i)) as [->|Hne].
            + rewrite list_lookup_insert_eq by (rewrite entries_length; lia). rewrite (entries_lookup p' i (set_revents g x) y); [|done|cbn; by apply list_lookup_insert_eq|done].
              unfold entry. cbn. by rewrite (us_hndl _ _ _ _ _ _ U), <- Hg.
            + rewrite list_lookup_insert_ne by done. rewrite (entries_lookup p j xj yj) by done. apply entries_lookup; [done|cbn; by rewrite list_lookup_insert_ne|done].
          - rewrite !lookup_ge_None_2; [done|rewrite length_insert, entries_length; lia|rewrite entries_length; cbn; rewrite ?length_insert; lia]. }
        rewrite (drop_S _ (e', h) i) by (rewrite list_lookup_insert_eq; [done|rewrite entries_length; lia]). rewrite drop_insert_lt by lia. rewrite He'. by apply (pend_rep_head e). }
    unfold next_event in *. destruct (has e POLLIN); [|destruct (has e POLLOUT)]; (do 3 eexists; split; [reflexivity|]; split; [exact A|]); [apply K; by eexists|apply K; by eexists|].
    constructor; cbn; [exact C|apply (rp_linked _ _ _ R0)|apply (rp_zero _ _ _ R0)|unfold ps_capacity in *; cbn; lia| |exact O].
    unfold put_events. decide_bools. exact Qt.
Qed.

#[export] Instance pollset_spec : PollerSpec nn_poller.
Proof.
  refine {| p_limit := INT_MAX; p_limit_pos := eq_refl; p_rep := fun p v => exists R, ps_rep p v R; p_retries := false |}.
  - exists []. constructor; cbn [pv_reg pv_pend pview_init].
    + constructor; [cbn; lia|split; [constructor|split; [constructor|done]]|intros k j Hj; done|intros j x y Hj; cbn in Hj; lia|intros h r; by rewrite lookup_empty].
    + intros k j Hj. done.
    + intros j x Hj. by apply not_elem_of_nil in Hj.
    + cbn. lia.
    + constructor; [constructor|]. intros h e. rewrite lookup_empty. split; [done|]. by intros ?%not_elem_of_nil.
    + apply pview_init_ok.
  - intros p v op [R R0] L. destruct op as [fd h|h|h bit|h bit|ans|]; cbn [p_step].
    + destruct (ps_rep_add p v R fd h R0 L) as (p' & E & R'). cbn [p_add pollset_poller]. rewrite E. mred. do 3 eexists. split; [done|]. split; [done|]. by exists R.
    + destruct (ps_rep_rm p v R h R0 L) as (p' & R1 & E & R'). cbn [p_rm pollset_poller]. rewrite E. mred. do 3 eexists. split; [done|]. split; [done|]. by exists R1.
    + destruct (ps_rep_set p v R h bit R0 L) as (p' & E & R'). cbn [p_set pollset_poller]. rewrite E. mred. do 3 eexists. split; [done|]. split; [done|]. by exists R.
    + destruct (ps_rep_reset p v R h bit R0 L) as (p' & E & v' & A & R'). cbn [p_reset pollset_poller]. rewrite E. mred. do 3 eexists. split; [done|]. split; [done|]. by exists R.
    + destruct (ps_rep_wait p v R ans R0 L) as (q & E & R'). cbn [p_wait pollset_poller]. unfold nn_poller_wait. rewrite E. mred. do 3 eexists. split; [done|]. split; [done|]. by exists [].
    + destruct (ps_rep_event p v R R0) as (p' & out & v' & E & A & R'). exists p', out, v'. split; [done|]. split; [done|]. by exists R.
  - intros p v rs [R R0]. destruct (ps_rep_wait p v R [] R0) as (q & E & R').
    { split; [constructor|]. split; [constructor|done]. }
    cbn [p_wait pollset_poller]. unfold nn_poller_wait. rewrite E. mred. decide_bools. eexists. split; [done|]. exists [].
    assert (omap (reported []) (pv_reg v) = ∅) as <-; [|exact R']. apply map_empty. intros h. rewrite lookup_omap. by destruct (pv_reg v !! h).
Defined.

(** C40. The poller over [poll] behaves as the abstract poller, whatever is
    added, removed, set and reset, before, after and while the events of a wait
    are handed out: nothing is read that was not written, no access is out of
    bounds, the removed entries are all gone before the kernel is asked again,
    and an event is only ever handed out for a handle that is registered and
    polls for it at that moment.  A wait that a signal interrupts returns
    -EINTR, keeps what is registered, and leaves no events. *)
Theorem pollset_refines (p : nn_poller) (v : pview) (op : poll_op) : tracks p v -> legal (p_limit (P := nn_poller)) v op ->
  (exists p' out v', p_step op p = Ok (p', out) /\ a_next v op out = Some v' /\ tracks p' v' /\
    (forall ev h, out = Some (ev, h) -> exists r, pv_reg v !! h = Some r /\ (ev = NN_POLLER_IN -> has r.2 POLLIN) /\ (ev = NN_POLLER_OUT -> has r.2 POLLOUT))) /\
  (forall rs, exists p', nn_poller_wait p (Errno EINTR :: rs) = Ok (p', - EINTR) /\ p_rep p' (PView (pv_reg v) ∅)).
Proof. intros T L. split; [by apply poller_ok|]. intros rs. exact (p_interrupted p v rs (proj1 (tracks_rep p v T))). Qed.

(** Three descriptors; the first and the last are removed, so that the second
    moves to the front; it becomes readable. *)
Definition demo_ops : list poll_op :=
  [PAdd 5 100; PSet 100 POLLIN; PAdd 6 101; PSet 101 POLLIN; PAdd 7 102; PSet 102 POLLOUT; PRm 100; PRm 102; PWait [(6, POLLIN)]].
Definition demo_end : nn_poller * pview := default (nn_poller_init, pview_init) (p_run demo_ops nn_poller_init pview_init).

Lemma pollset_refines_witness : ps_removed demo_end.1 = -1 /\ ps_hndl demo_end.1 !! 101 = Some 0%nat /\ ps_size demo_end.1 = 1%nat /\
  (exists p' out v', p_step PEvent demo_end.1 = Ok (p', out) /\ a_next demo_end.2 PEvent out = Some v' /\ tracks p' v' /\
    (forall ev h, out = Some (ev, h) -> exists r, pv_reg demo_end.2 !! h = Some r /\ (ev = NN_POLLER_IN -> has r.2 POLLIN) /\ (ev = NN_POLLER_OUT -> has r.2 POLLOUT))) /\
  (forall rs, exists p', nn_poller_wait demo_end.1 (Errno EINTR :: rs) = Ok (p', - EINTR) /\ p_rep p' (PView (pv_reg demo_end.2) ∅)).
Proof.
  split; [by vm_compute|]. split; [by vm_compute|]. split; [by vm_compute|].
  apply (pollset_refines demo_end.1 demo_end.2 PEvent); [|exact I].
  apply (tracks_run demo_ops nn_poller_init pview_init); [exact (Tracks0 (P := nn_poller))|by vm_compute|by vm_compute].
Defined.
