(* ===== verification/Worker.v ===== *)
(** * The worker thread ([aio/worker_posix.inc])

    The worker waits for events, feeds the timers that expired, and hands out
    the events of its poller; the event of its own descriptor [efd] makes it
    execute the tasks that other threads have queued.  The poller is any
    implementation of the class [Poller]; the state machines that are fed are
    the other files', and act on the worker through its functions. *)

From S2P Require Import Prelude Wire Poller Epoll Pollset.
Local Open Scope Z_scope.

(** [stop] is an item of the worker itself. *)
Inductive item := Task (t : Z) | StopItem.
#[export] Instance item_eq_dec : EqDecision item.
Proof. solve_decision. Defined.

(** Where the thread is: before [nn_poller_wait], among the timers, among the
    events, among the tasks of its local queue, or returned. *)
Inductive wpc := AtWait | AtTimers | AtEvents | AtTasks (l : list item) | Returned.

(** [wk_efd]: whether the descriptor is signalled; [wk_ran]: the tasks that
    were fed to their owners. *)
Record nn_worker (P : Type) := Worker { wk_pc : wpc; wk_tasks : list item; wk_efd : bool; wk_poller : P; wk_ran : list Z }.
Arguments Worker {P}. Arguments wk_pc {P}. Arguments wk_tasks {P}. Arguments wk_efd {P}. Arguments wk_poller {P}. Arguments wk_ran {P}.

Definition local_tasks (pc : wpc) : list item := match pc with AtTasks l => l | _ => [] end.

(** The descriptor of [efd], and the address of [efd_hndl]. *)
Definition efd_fd : Z := 3.
Definition efd_hndl : Z := 1.

Section Worker.
  Context {P : Type} `{Poller P}.
  Implicit Types (self : nn_worker P).

Definition nn_worker_init : result (nn_worker P) :=
  p ← p_add p_init efd_fd efd_hndl;
  p ← p_set p efd_hndl POLLIN;
  Ok (Worker AtWait [] false p []).

(** Whether an item is in a queue: the shared one or the thread's copy. *)
Definition isinqueue self (i : item) : bool := bool_decide (i ∈ wk_tasks self) || bool_decide (i ∈ local_tasks (wk_pc self)).

(** With the queue locked: [nn_queue_push], which asserts that the item is in
    no queue, and [nn_efd_signal]. *)
Definition push_item self (i : item) : result (nn_worker P) :=
  _ ← assert_ (negb (isinqueue self i));
  Ok (Worker (wk_pc self) (wk_tasks self ++ [i]) true (wk_poller self) (wk_ran self)).
Definition nn_worker_execute self (t : Z) : result (nn_worker P) := push_item self (Task t).
Definition nn_worker_stop self : result (nn_worker P) := push_item self StopItem.
Definition nn_worker_cancel self (t : Z) : nn_worker P :=
  Worker (wk_pc self) (filter (fun i => i <> Task t) (wk_tasks self)) (wk_efd self) (wk_poller self) (wk_ran self).

(** What a handler does to the poller: [nn_worker_add_fd], [nn_worker_rm_fd],
    [nn_worker_set_in] and so on. *)
Definition nn_worker_fd_call self (op : poll_op) : result (nn_worker P) :=
  '(p, _) ← p_step op (wk_poller self); Ok (Worker (wk_pc self) (wk_tasks self) (wk_efd self) p (wk_ran self)).

Definition at_pc (pc : wpc) (p : P) self : nn_worker P := Worker pc (wk_tasks self) (wk_efd self) p (wk_ran self).

(** One step of [nn_worker_routine]; [rs] are the replies of the kernel, if
    the step waits. *)
Definition nn_worker_routine self (rs : list reply) : result (nn_worker P) :=
  match wk_pc self with
  | AtWait =>
      '(p, rc) ← p_wait (wk_poller self) rs;
      _ ← assert_ (bool_decide (rc = 0));
      Ok (at_pc AtTimers p self)
  | AtTimers => Ok (at_pc AtEvents (wk_poller self) self)
  | AtEvents =>
      '(p, out) ← p_event (wk_poller self);
      match out with
      | None => Ok (at_pc AtWait p self)
      | Some (ev, h) =>
          if bool_decide (h = efd_hndl) then
            _ ← assert_ (bool_decide (ev = NN_POLLER_IN));
            _ ← assert_ (wk_efd self);
            Ok (Worker (AtTasks (wk_tasks self)) [] false p (wk_ran self))
          else Ok (at_pc AtEvents p self)
      end
  | AtTasks [] => Ok (at_pc AtEvents (wk_poller self) self)
  | AtTasks (StopItem :: _) => Ok (at_pc Returned (wk_poller self) self)
  | AtTasks (Task t :: l) => Ok (Worker (AtTasks l) (wk_tasks self) (wk_efd self) (wk_poller self) (wk_ran self ++ [t]))
  | Returned => Ok self
  end.
End Worker.

(** ** Runs of the worker and of the other threads *)

(** The tasks before the order to stop. *)
Fixpoint before_stop (l : list item) : list Z := match l with Task t :: l => t :: before_stop l | _ => [] end.

Section Runs.
  Context {P : Type} `{PollerSpec P}.
  Implicit Types (self w : nn_worker P) (v : pview).

(** What the kernel may report: what the poller may be told, and about the
    descriptor of the worker that it is readable, only if it is.  [prompt]: it
    is reported if it is, which holds of [epoll] as long as no more than
    [p_limit] descriptors are ready at once, and of [poll] always. *)
Definition truthful w v (ans : list (Z * Z)) : Prop :=
  legal p_limit v (PWait ans) /\ (forall e, (efd_fd, e) ∈ ans -> e = POLLIN /\ wk_efd w = true).
Definition prompt w (ans : list (Z * Z)) : Prop := wk_efd w = true -> (efd_fd, POLLIN) ∈ ans.

(** A handler leaves the worker's own handle and descriptor alone, and does
    not take events. *)
Definition handler_op (op : poll_op) : Prop :=
  match op with PAdd fd h => fd <> efd_fd /\ h <> efd_hndl | PRm h | PSet h _ | PReset h _ => h <> efd_hndl | PWait _ | PEvent => False end.

(** The poller along a step of the routine.  Unless the poller repeats a wait
    that was interrupted, no signal comes while the thread waits. *)
Definition own_view w v (rs : list reply) v' : Prop :=
  match wk_pc w with
  | AtWait => exists ans, waits rs ans /\ truthful w v ans /\ a_next v (PWait ans) None = Some v'
  | AtEvents => exists out p', p_event (wk_poller w) = Ok (p', out) /\ a_next v PEvent out = Some v'
  | _ => v' = v
  end.

(** A task is only queued when it is in no queue, which its owner sees to, and
    the order to stop is given once. *)
Inductive w_step w v : result (nn_worker P) -> pview -> Prop :=
  | WRoutine rs v' : own_view w v rs v' -> w_step w v (nn_worker_routine w rs) v'
  | WExecute t : isinqueue w (Task t) = false -> w_step w v (nn_worker_execute w t) v
  | WCancel t : w_step w v (Ok (nn_worker_cancel w t)) v
  | WStop : isinqueue w StopItem = false -> w_step w v (nn_worker_stop w) v
  | WHandler op v' : handler_op op -> legal p_limit v op -> a_next v op None = Some v' -> w_step w v (nn_worker_fd_call w op) v'.

Inductive w_reach : nn_worker P -> pview -> Prop :=
  | WReach0 w : nn_worker_init = Ok w -> w_reach w (PView {[efd_hndl := (efd_fd, POLLIN)]} ∅)
  | WReachS w v w' v' : w_reach w v -> w_step w v (Ok w') v' -> w_reach w' v'.

(** ** The invariant *)

Record w_inv w v : Prop := {
  wi_rep : p_rep (wk_poller w) v;
  wi_ok : pview_ok v;
  wi_efd : pv_reg v !! efd_hndl = Some (efd_fd, POLLIN);
  wi_signalled : wk_tasks w <> [] -> wk_efd w = true;
  wi_pend e : pv_pend v !! efd_hndl = Some e -> e = POLLIN /\ wk_efd w = true
}.

Lemma init_inv : exists w, nn_worker_init = Ok w /\ w_inv w (PView {[efd_hndl := (efd_fd, POLLIN)]} ∅).
Proof.
  destruct (p_step_ok p_init pview_init (PAdd efd_fd efd_hndl) p_init_rep) as (p1 & out1 & v1 & E1 & A1 & R1).
  { split; [done|]. intros h r. cbn. by rewrite lookup_empty. }
  cbn in E1, A1. destruct (p_add p_init efd_fd efd_hndl) as [p1'|] eqn:Ea; [|done]. cbn in E1. injection E1 as <- <-. injection A1 as <-.
  destruct (p_step_ok p1' _ (PSet efd_hndl POLLIN) R1) as (p2 & out2 & v2 & E2 & A2 & R2).
  { split; [cbn; rewrite lookup_insert_eq; by eexists|by left]. }
  cbn in E2, A2. destruct (p_set p1' efd_hndl POLLIN) as [p2'|] eqn:Es; [|done]. cbn in E2. injection E2 as <- <-. injection A2 as <-.
  unfold nn_worker_init. rewrite Ea. mred. rewrite Es. mred. eexists. split; [done|].
  assert (PView (alter (fun r : Z * Z => (r.1, Z.lor r.2 POLLIN)) efd_hndl (<[efd_hndl := (efd_fd, 0)]> ∅)) ∅ = PView {[efd_hndl := (efd_fd, POLLIN)]} ∅) as Ev by (by vm_compute).
  constructor; [cbn [wk_poller]; by rewrite <- Ev| |done|done|intros e; cbn; by rewrite lookup_empty].
  constructor; cbn; [intros h e; by rewrite lookup_empty|]. intros h h' r r' Hr Hr' _. apply lookup_singleton_Some in Hr as [<- _], Hr' as [<- _]. done.
Qed.

(** The outputs of the calls that are not [p_event]. *)
Lemma call_ok_none op p v : op <> PEvent -> p_rep p v -> legal p_limit v op ->
  exists p' v', p_step op p = Ok (p', None) /\ a_next v op None = Some v' /\ p_rep p' v'.
Proof.
  intros Hop R L. destruct (p_step_ok p v op R L) as (p' & out & v' & E & A & R'). exists p', v'.
  destruct out as [[ev h]|]; [|done]. by destruct op.
Qed.

Lemma handler_keeps v op v' : handler_op op -> a_next v op None = Some v' -> pv_reg v' !! efd_hndl = pv_reg v !! efd_hndl /\ pv_pend v' !! efd_hndl = pv_pend v !! efd_hndl.
Proof.
  destruct op as [fd h|h|h bit|h bit|ans|]; cbn; try done.
  - intros [_ Hh] [= <-]. cbn. by rewrite lookup_insert_ne.
  - intros Hh [= <-]. cbn. by rewrite !lookup_delete_ne.
  - intros Hh [= <-]. cbn. by rewrite lookup_alter_ne.
  - intros Hh [= <-]. cbn. rewrite lookup_alter_ne by done. split; [done|]. destruct (pv_pend v !! h); [|done]. rewrite put_events_lookup. by rewrite bool_decide_eq_false_2.
Qed.

Lemma handler_call_ok w v op : w_inv w v -> handler_op op -> legal p_limit v op ->
  exists w' v', nn_worker_fd_call w op = Ok w' /\ a_next v op None = Some v' /\ w_inv w' v'.
Proof.
  intros [I1 I2 I3 I4 I5] Ho L. destruct (call_ok_none op (wk_poller w) v) as (p' & v' & E & A & R'); [by intros ->|done|done|].
  unfold nn_worker_fd_call. rewrite E. mred. eexists _, v'. split; [done|]. split; [done|]. destruct (handler_keeps v op v' Ho A) as [K1 K2].
  constructor; cbn; [done|by eapply a_next_ok|by rewrite K1|done|intros e; rewrite K2; apply I5].
Qed.

(** *** The steps of the routine *)

Lemma waits_same p v rs ans : p_rep p v -> waits rs ans -> p_wait p rs = p_wait p [Ready ans].
Proof.
  intros R. induction 1 as [|rs ans Hr _ IH]; [done|]. pose proof (p_interrupted p v rs R) as Hi. rewrite Hr in Hi. congruence.
Qed.

Lemma wait_ok w v rs ans : w_inv w v -> wk_pc w = AtWait -> waits rs ans -> truthful w v ans ->
  exists p' v', nn_worker_routine w rs = Ok (at_pc AtTimers p' w) /\ a_next v (PWait ans) None = Some v' /\ w_inv (at_pc AtTimers p' w) v' /\
    (wk_efd w = true -> prompt w ans -> pv_pend v' !! efd_hndl = Some POLLIN).
Proof.
  intros [I1 I2 I3 I4 I5] Hpc Hrs [L T]. destruct (call_ok_none (PWait ans) (wk_poller w) v) as (p' & v' & E & A & R'); [done..|].
  unfold nn_worker_routine. rewrite Hpc, (waits_same _ _ _ _ I1 Hrs). cbn in E. destruct (p_wait (wk_poller w) [Ready ans]) as [[p1 rc]|] eqn:Ew; [|done].
  mred in E. mred. destruct (bool_decide (rc = 0)); [|done]. mred in E. injection E as ->. mred.
  exists p', v'. split; [done|]. split; [done|]. pose proof (a_next_ok _ _ _ _ _ I2 L A) as O. cbn in A. injection A as <-. destruct L as (L1 & _).
  assert (forall e, omap (reported ans) (pv_reg v) !! efd_hndl = Some e <-> (efd_fd, e) ∈ ans) as K.
  { intros e. rewrite lookup_omap, I3. change (reported ans (efd_fd, POLLIN) = Some e <-> (efd_fd, e) ∈ ans). by rewrite reported_in by exact L1. }
  split; [constructor; cbn; try done|].
  - intros e He. by apply T, K.
  - intros He Hp. by apply K, Hp.
Qed.

Lemma waits_fun rs ans ans' : waits rs ans -> waits rs ans' -> ans = ans'.
Proof. intros W. revert ans'. induction W as [ans|rs ans _ _ IH]; intros ans' W'; inversion W'; subst; [done|by apply IH]. Qed.

Definition weight (e : Z) : nat := (if has e POLLIN then 1 else 0) + (if has e POLLOUT then 1 else 0) + 1.
Definition pend_weight (m : gmap Z Z) : nat := map_fold (fun _ e n => weight e + n)%nat 0%nat m.

Lemma pend_weight_delete h e m : m !! h = Some e -> pend_weight m = (weight e + pend_weight (delete h m))%nat.
Proof. intros Hh. unfold pend_weight. by rewrite (map_fold_delete_L _ _ h e m) by (try done; intros; lia). Qed.

Lemma weight_next e : (next_event e).2 <> 0 -> (weight (next_event e).2 < weight e)%nat.
Proof.
  intros Hz. unfold next_event in *. unfold weight. change POLLIN with (2 ^ 0) in *. change POLLOUT with (2 ^ 2) in *.
  destruct (has e (2 ^ 0)) eqn:E1; [|destruct (has e (2 ^ 2)) eqn:E2]; cbn [snd] in *; [..|done]; rewrite !has_bits, !Z.ldiff_spec in * by lia.
  - rewrite (Z.pow2_bits_true 0), (Z.pow2_bits_false 0 2) by lia. rewrite andb_false_r, andb_true_r. destruct (Z.testbit e 2); lia.
  - rewrite (Z.pow2_bits_true 2), (Z.pow2_bits_false 2 0), E1, andb_false_r by lia. cbn. lia.
Qed.

Lemma pend_weight_next h e m : m !! h = Some e -> (pend_weight (put_events h (next_event e).2 m) < pend_weight m)%nat.
Proof.
  intros Hh. rewrite (pend_weight_delete h e m Hh). unfold put_events. cases ((next_event e).2 = 0) as Hz; decide_bools.
  - unfold weight. lia.
  - rewrite (pend_weight_delete h (next_event e).2 (<[h := _]> m)) by apply lookup_insert_eq. rewrite delete_insert_eq. pose proof (weight_next e Hz). lia.
Qed.

(** The thread takes the next event: there is none and it waits again; or
    tasks are queued and it takes them all; or it feeds the owner of a file
    descriptor. *)
Lemma event_ok w v rs : w_inv w v -> wk_pc w = AtEvents -> exists p' out v',
  p_event (wk_poller w) = Ok (p', out) /\ a_next v PEvent out = Some v' /\
  (out = None /\ v' = v /\ pv_pend v = ∅ /\ nn_worker_routine w rs = Ok (at_pc AtWait p' w) /\ w_inv (at_pc AtWait p' w) v' \/
   (exists h, out = Some (NN_POLLER_IN, h)) /\ wk_efd w = true /\ nn_worker_routine w rs = Ok (Worker (AtTasks (wk_tasks w)) [] false p' (wk_ran w)) /\
     w_inv (Worker (AtTasks (wk_tasks w)) [] false p' (wk_ran w)) v' /\ (pend_weight (pv_pend v') < pend_weight (pv_pend v))%nat \/
   nn_worker_routine w rs = Ok (at_pc AtEvents p' w) /\ w_inv (at_pc AtEvents p' w) v' /\ (pend_weight (pv_pend v') < pend_weight (pv_pend v))%nat /\
     pv_pend v' !! efd_hndl = pv_pend v !! efd_hndl).
Proof.
  intros [I1 I2 I3 I4 I5] Hpc. destruct (p_step_ok (wk_poller w) v PEvent I1 I) as (p' & out & v' & E & A & R'). cbn [p_step] in E.
  exists p', out, v'. split; [done|]. split; [done|]. unfold nn_worker_routine. rewrite Hpc, E. mred. pose proof (a_next_ok 0 v PEvent out v' I2 I A) as O.
  cbn in A. destruct out as [[ev h]|].
  - destruct (pv_pend v !! h) as [e|] eqn:He; [|done]. case_bool_decide as Hev; [|done]. injection A as <-. subst ev. cases (h = efd_hndl) as Hh; decide_bools.
    + right. left. subst h. destruct (I5 e He) as [-> Hefd]. change (next_event POLLIN) with (NN_POLLER_IN, 0) in *. rewrite Hefd. cbn [fst snd] in *. rewrite bool_decide_eq_true_2 by done. mred.
      split; [by exists efd_hndl|]. split; [done|]. split; [done|]. split; [|exact (pend_weight_next efd_hndl POLLIN (pv_pend v) He)].
      constructor; cbn; try done. intros e1. rewrite put_events_lookup. by rewrite bool_decide_eq_true_2.
    + right. right. split; [done|]. split; [|split; [by apply pend_weight_next|]].
      * constructor; cbn; try done. intros e1. rewrite put_events_lookup. rewrite bool_decide_eq_false_2 by done. apply I5.
      * cbn. rewrite put_events_lookup. by rewrite bool_decide_eq_false_2.
  - case_bool_decide as Hp; [|done]. injection A as <-. left. by split_and!.
Qed.

Lemma w_step_ok w v r v' : w_inv w v -> w_step w v r v' -> exists w', r = Ok w' /\ w_inv w' v'.
Proof.
  intros I [rs v1 M|t Hq|t|Hq|op v1 Ho L A].
  - unfold own_view in M. destruct (wk_pc w) as [| | |l|] eqn:Hpc.
    + destruct M as (ans & Hrs & T & M). destruct (wait_ok w v rs ans I Hpc Hrs T) as (p' & v2 & -> & A & I' & _). rewrite A in M. injection M as <-. by eexists.
    + subst. unfold nn_worker_routine. rewrite Hpc. eexists. split; [done|]. by destruct I.
    + destruct M as (out & p' & E & A). destruct (event_ok w v rs I Hpc) as (p1 & out1 & v2 & E1 & A1 & D). rewrite E1 in E. injection E as <- <-. rewrite A1 in A. injection A as <-.
      destruct D as [(_ & _ & _ & -> & I')|[(_ & _ & -> & I' & _)|(-> & I' & _)]]; by eexists.
    + subst. unfold nn_worker_routine. rewrite Hpc. destruct I. destruct l as [|[t|] l]; by eexists.
    + subst. unfold nn_worker_routine. rewrite Hpc. by exists w.
  - unfold nn_worker_execute, push_item. rewrite Hq. mred. eexists. split; [done|]. destruct I as [I1 I2 I3 I4 I5]. constructor; cbn; try done. intros e He. by destruct (I5 e He).
  - eexists. split; [done|]. destruct I as [I1 I2 I3 I4 I5]. constructor; cbn; try done. intros Hn. apply I4. by intros E; rewrite E in Hn.
  - unfold nn_worker_stop, push_item. rewrite Hq. mred. eexists. split; [done|]. destruct I as [I1 I2 I3 I4 I5]. constructor; cbn; try done. intros e He. by destruct (I5 e He).
  - destruct (handler_call_ok w v op I Ho L) as (w' & v2 & E & A2 & I'). rewrite A in A2. injection A2 as <-. by exists w'.
Qed.

Lemma w_reach_inv w v : w_reach w v -> w_inv w v.
Proof.
  induction 1 as [w E|w v w' v' _ IH Hst]; [destruct init_inv as (w1 & E1 & I); rewrite E1 in E; by injection E as <-|].
  by destruct (w_step_ok w v (Ok w') v' IH Hst) as (w1 & [= <-] & I).
Qed.

(** ** Progress

    [drains w v Q]: if the thread is left alone, then whatever the kernel
    reports in time, every step returns, and the thread arrives at its next
    wait with no task queued, or stops, when it has executed [Q]. *)
Definition alone w v (rs : list reply) v' : Prop := own_view w v rs v' /\ (wk_pc w = AtWait -> forall ans, waits rs ans -> prompt w ans).

Inductive drains : nn_worker P -> pview -> list Z -> Prop :=
  | DrainsIdle w v : wk_pc w = AtWait -> wk_tasks w = [] -> drains w v (wk_ran w)
  | DrainsStopped w v : wk_pc w = Returned -> drains w v (wk_ran w)
  | DrainsStep w v Q : (exists rs v', alone w v rs v') ->
      (forall rs v', alone w v rs v' -> exists w', nn_worker_routine w rs = Ok w' /\ drains w' v' Q) -> drains w v Q.

(** A step in which the kernel and the poller take no part. *)
Lemma drains_plain w v w' Q : (forall ans, nn_worker_routine w ans = Ok w') ->
  match wk_pc w with AtWait | AtEvents => False | _ => True end -> drains w' v Q -> drains w v Q.
Proof.
  intros E Hpc D. apply DrainsStep.
  - exists [], v. split; [unfold own_view|intros Hw]; destruct (wk_pc w); done.
  - intros ans v' [O _]. exists w'. split; [done|]. unfold own_view in O. destruct (wk_pc w); by subst.
Qed.

Lemma drains_tasks l : forall w v Q, w_inv w v -> wk_pc w = AtTasks l ->
  (forall w', w_inv w' v -> wk_pc w' = AtEvents -> wk_tasks w' = wk_tasks w -> wk_ran w' = wk_ran w ++ before_stop l -> StopItem ∉ l -> drains w' v Q) ->
  (StopItem ∈ l -> Q = wk_ran w ++ before_stop l) -> drains w v Q.
Proof.
  induction l as [|[t|] l IH]; intros w v Q I Hpc K S.
  - eapply drains_plain; [intros ans; unfold nn_worker_routine; by rewrite Hpc|by rewrite Hpc|]. apply K; [by destruct I|done|done|cbn; by rewrite app_nil_r|apply not_elem_of_nil].
  - eapply drains_plain; [intros ans; unfold nn_worker_routine; by rewrite Hpc|by rewrite Hpc|]. cbn in K, S. apply IH; [by destruct I|done| |].
    + intros w' I' Hpc' Ht Hr Hs. apply K; [done|done|done|cbn in Hr; by rewrite Hr, <- app_assoc|]. by rewrite elem_of_cons; intros [|].
    + intros Hs. rewrite S by (by right). cbn. by rewrite <- app_assoc.
  - eapply drains_plain; [intros ans; unfold nn_worker_routine; by rewrite Hpc|by rewrite Hpc|]. rewrite (S (list_elem_of_here _ _)). cbn. rewrite app_nil_r.
    exact (DrainsStopped (at_pc Returned (wk_poller w) w) v eq_refl).
Qed.

(** Among the events: the worker arrives at its wait, or takes its tasks. *)
Lemma drains_events Q (n : nat) : forall w v, (pend_weight (pv_pend v) < n)%nat -> w_inv w v -> wk_pc w = AtEvents ->
  (forall w' v', w_inv w' v' -> wk_pc w' = AtWait -> wk_tasks w' = wk_tasks w -> wk_ran w' = wk_ran w -> pv_pend v !! efd_hndl = None -> drains w' v' Q) ->
  (forall w' v', w_inv w' v' -> wk_pc w' = AtTasks (wk_tasks w) -> wk_tasks w' = [] -> wk_ran w' = wk_ran w -> (pend_weight (pv_pend v') < pend_weight (pv_pend v))%nat -> drains w' v' Q) ->
  drains w v Q.
Proof.
  induction n as [|n IH]; [lia|]. intros w v Hn I Hpc KW KT. destruct (event_ok w v [] I Hpc) as (p' & out & v1 & E & A & _). apply DrainsStep.
  - exists [], v1. split; [unfold own_view; rewrite Hpc; by exists out, p'|by rewrite Hpc].
  - intros ans v' [O _]. unfold own_view in O. rewrite Hpc in O. destruct O as (out' & p2 & E' & A'). destruct (event_ok w v ans I Hpc) as (p3 & out3 & v3 & E3 & A3 & D).
    rewrite E3 in E'. injection E' as <- <-. rewrite A3 in A'. injection A' as <-.
    destruct D as [(_ & -> & Hp & -> & I')|[(_ & _ & -> & I' & Hw)|(-> & I' & Hw & Hk)]]; eexists; (split; [done|]).
    + apply KW; try done. by rewrite Hp, lookup_empty.
    + by apply KT.
    + apply IH; [lia|done|done| |].
      * intros w' v2 I2 H1 H2 H3 H4. apply KW; try done. by rewrite <- Hk.
      * intros w' v2 I2 H1 H2 H3 H4. apply KT; try done. lia.
Qed.

(** With nothing queued: the local tasks, and then the wait. *)
Lemma drains_empty (n : nat) : forall w v, (pend_weight (pv_pend v) < n)%nat -> w_inv w v -> wk_pc w = AtEvents -> wk_tasks w = [] -> drains w v (wk_ran w).
Proof.
  induction n as [|n IH]; [lia|]. intros w v Hn I Hpc Ht. apply (drains_events _ (Datatypes.S n)); try done.
  - intros w' v' I' Hpc' Ht' <- _. apply DrainsIdle; [done|congruence].
  - intros w' v' I' Hpc' Ht' Hr' Hw. rewrite Ht in Hpc'. apply (drains_tasks [] w' v'); [done|done| |by intros []%not_elem_of_nil].
    intros w2 I2 Hpc2 Ht2 Hr2 _. cbn in Hr2. rewrite app_nil_r, Hr' in Hr2. rewrite <- Hr2. apply IH; [lia|done|done|congruence].
Qed.

Lemma drains_taken w v l : w_inv w v -> wk_pc w = AtTasks l -> wk_tasks w = [] -> drains w v (wk_ran w ++ before_stop l).
Proof.
  intros I Hpc Ht. apply (drains_tasks l); [done|done| |done]. intros w' I' Hpc' Ht' <- _. apply (drains_empty (Datatypes.S (pend_weight (pv_pend v)))); [lia|done|done|congruence].
Qed.

Lemma prompt_answer w v : w_inv w v -> exists ans, truthful w v ans /\ prompt w ans.
Proof.
  intros [I1 I2 I3 I4 I5]. pose proof p_limit_pos. unfold truthful, prompt. destruct (wk_efd w) eqn:E.
  - exists [(efd_fd, POLLIN)]. split; [split; [split_and!|]|intros _; apply list_elem_of_here].
    + cbn. apply NoDup_singleton.
    + apply Forall_singleton. split; [done|]. by exists efd_hndl, POLLIN.
    + cbn. lia.
    + intros e. rewrite list_elem_of_singleton. by intros [= ->].
  - exists []. split; [split; [split_and!|]|done]; [constructor|constructor|cbn; lia|]. by intros e ?%not_elem_of_nil.
Qed.

Lemma drains_wait w v : w_inv w v -> wk_pc w = AtWait -> drains w v (wk_ran w ++ before_stop (wk_tasks w)).
Proof.
  intros I Hpc. destruct (decide (wk_tasks w = [])) as [Ht|Ht]; [rewrite Ht; cbn; rewrite app_nil_r; by apply DrainsIdle|].
  pose proof (wi_signalled _ _ I Ht) as Hefd. apply DrainsStep.
  - destruct (prompt_answer w v I) as (ans & T & Hp). pose proof (WaitsReady ans) as Hrs.
    destruct (wait_ok w v _ ans I Hpc Hrs T) as (p' & v' & _ & A & _). exists [Ready ans], v'. split.
    + unfold own_view. rewrite Hpc. by exists ans.
    + intros _ ans' W'. by rewrite (waits_fun _ _ _ W' Hrs).
  - intros rs v' [O Hp]. unfold own_view in O. rewrite Hpc in O. destruct O as (ans & Hrs & T & A).
    destruct (wait_ok w v rs ans I Hpc Hrs T) as (p' & v2 & E & A2 & I' & Hpend). rewrite A in A2. injection A2 as <-.
    eexists. split; [done|]. eapply drains_plain; [intros ans'; by unfold nn_worker_routine|done|].
    apply (drains_events _ (Datatypes.S (pend_weight (pv_pend v')))); [lia|by destruct I'|done| |].
    + intros w' v3 _ _ _ _ Hnone. by rewrite (Hpend Hefd (Hp Hpc ans Hrs)) in Hnone.
    + intros w' v3 I3 Hpc3 Ht3 Hr3 _. cbn in Hr3, Hpc3. rewrite <- Hr3. by apply drains_taken.
Qed.

Lemma before_stop_app l l' : before_stop (l ++ l') = if bool_decide (StopItem ∈ l) then before_stop l else before_stop l ++ before_stop l'.
Proof.
  induction l as [|[t|] l IH]; [by rewrite bool_decide_eq_false_2 by apply not_elem_of_nil| |].
  - cbn. rewrite IH. repeat case_bool_decide; try done.
    + by match goal with Hn : StopItem ∉ _ |- _ => destruct Hn; right end.
    + by match goal with Hs : StopItem ∈ _ :: _ |- _ => apply elem_of_cons in Hs as [|] end.
  - by rewrite bool_decide_eq_true_2 by apply list_elem_of_here.
Qed.

Definition to_run w : list Z := match wk_pc w with Returned => [] | pc => before_stop (local_tasks pc ++ wk_tasks w) end.

Lemma drains_all w v : w_inv w v -> drains w v (wk_ran w ++ to_run w).
Proof.
  intros I. assert (forall w1 v1, w_inv w1 v1 -> wk_pc w1 = AtEvents -> drains w1 v1 (wk_ran w1 ++ before_stop (wk_tasks w1))) as KE.
  { intros w1 v1 I1 Hpc1. apply (drains_events _ (Datatypes.S (pend_weight (pv_pend v1)))); [lia|done|done| |].
    - intros w' v' I' Hpc' <- <- _. by apply drains_wait.
    - intros w' v' I' Hpc' Ht' <- _. by apply drains_taken. }
  unfold to_run. destruct (wk_pc w) as [| | |l|] eqn:Hpc; cbn [local_tasks app].
  - by apply drains_wait.
  - eapply drains_plain; [intros ans; unfold nn_worker_routine; by rewrite Hpc|by rewrite Hpc|]. apply (KE (at_pc AtEvents (wk_poller w) w)); [by destruct I|done].
  - by apply KE.
  - rewrite before_stop_app. apply (drains_tasks l); [done|done| |].
    + intros w' I' Hpc' Ht' Hr' Hs. rewrite bool_decide_eq_false_2 by done. rewrite app_assoc, <- Hr', <- Ht'. by apply KE.
    + intros Hs. by rewrite bool_decide_eq_true_2.
  - rewrite app_nil_r. by apply DrainsStopped.
Qed.

(** C39. Whatever tasks, cancellations and the order to stop come from other
    threads, as long as nothing is queued that is in the queue already, whatever
    the handlers do to the poller and whatever the kernel reports, as long as no
    signal interrupts a wait that the poller does not repeat, no step of the
    worker thread and no call of the others fails an assertion; and at any
    moment every queued task that was not cancelled is going to be executed,
    once, in the order of the queue, up to the order to stop, before the thread
    waits again: no wake-up is lost. *)
Theorem tasks_executed w v : w_reach w v ->
  (forall r v', w_step w v r v' -> exists w', r = Ok w') /\ drains w v (wk_ran w ++ to_run w).
Proof.
  intros R%w_reach_inv. split; [|by apply drains_all]. intros r v' S. destruct (w_step_ok w v r v' R S) as (w' & -> & _). by exists w'.
Qed.
End Runs.

(** Over [epoll]: two tasks are queued, and then the order to stop. *)
Definition demo_start : nn_worker Epoll.nn_poller := match nn_worker_init with Ok w => w | _ => Worker AtWait [] false Epoll.nn_poller_init [] end.
Definition demo_after (r : result (nn_worker Epoll.nn_poller)) : nn_worker Epoll.nn_poller := match r with Ok w => w | _ => demo_start end.
Definition demo_1 := demo_after (nn_worker_execute demo_start 7).
Definition demo_2 := demo_after (nn_worker_execute demo_1 8).
Definition demo_3 := demo_after (nn_worker_stop demo_2).
Definition demo_worker := demo_after (nn_worker_execute demo_3 9).
Definition demo_view : pview := PView {[efd_hndl := (efd_fd, POLLIN)]} ∅.

Lemma tasks_executed_witness : to_run demo_worker = [7; 8] /\ drains demo_worker demo_view ([] ++ [7; 8]).
Proof.
  split; [reflexivity|]. apply (tasks_executed demo_worker demo_view).
  apply (WReachS demo_3 demo_view); [|exact (WExecute demo_3 demo_view 9 eq_refl)].
  apply (WReachS demo_2 demo_view); [|exact (WStop demo_2 demo_view eq_refl)].
  apply (WReachS demo_1 demo_view); [|exact (WExecute demo_1 demo_view 8 eq_refl)].
  apply (WReachS demo_start demo_view); [|exact (WExecute demo_start demo_view 7 eq_refl)]. by apply WReach0.
Defined.

(** Over [epoll] a signal is no reason to stop waiting; over [poll] it aborts
    the process.  And so does queueing a task twice. *)
Example interrupted_epoll :
  (w ← nn_worker_init (P := Epoll.nn_poller); nn_worker_routine w [Errno EINTR; Ready []]) = (w ← nn_worker_init; nn_worker_routine w [Ready []]).
Proof. reflexivity. Qed.
Example interrupted_poll : (w ← nn_worker_init (P := Pollset.nn_poller); nn_worker_routine w [Errno EINTR; Ready []]) = Err AssertFailed.
Proof. vm_compute. reflexivity. Qed.
Example queued_twice : (w ← nn_worker_init (P := Epoll.nn_poller); w ← nn_worker_execute w 7; nn_worker_execute w 7) = Err AssertFailed.
Proof. vm_compute. reflexivity. Qed.
