(* ===== verification/Msg.v ===== *)
(** * Messages in memory ([utils/msg.c])

    A message is three references to chunks.  The other files take messages as
    values, [Pipe.nn_msg]: this one says why they may.  Whatever is made,
    copied, moved, cut and given up, each message is the value it stands for,
    although copies share their chunks. *)

From S2P Require Import Prelude NNList Wire Chunk Pipe.
Local Open Scope Z_scope.

(** [struct nn_msg]. *)
Record msg_refs := MsgRefs { mr_sphdr : nn_chunkref; mr_hdrs : nn_chunkref; mr_body : nn_chunkref }.

Section Ops.
  Context `{Malloc}.

(** [junk]: what the memory of the structure holds. *)
Definition nn_msg_init (h : cheap) (size : Z) (junk : bytes) : result (cheap * msg_refs) :=
  '(h, s) ← nn_chunkref_init h 0 junk; '(h, d) ← nn_chunkref_init h 0 junk; '(h, b) ← nn_chunkref_init h size junk; Ok (h, MsgRefs s d b).

Definition nn_msg_init_chunk (h : cheap) (chunk : cptr) (junk : bytes) : result (cheap * msg_refs) :=
  '(h, s) ← nn_chunkref_init h 0 junk; '(h, d) ← nn_chunkref_init h 0 junk; Ok (h, MsgRefs s d (nn_chunkref_init_chunk chunk)).
End Ops.

Definition nn_msg_term (h : cheap) (self : msg_refs) : result cheap :=
  h ← nn_chunkref_term h (mr_sphdr self); h ← nn_chunkref_term h (mr_hdrs self); nn_chunkref_term h (mr_body self).

Definition nn_msg_mv (src : msg_refs) : msg_refs :=
  MsgRefs (nn_chunkref_mv (mr_sphdr src)) (nn_chunkref_mv (mr_hdrs src)) (nn_chunkref_mv (mr_body src)).

Definition nn_msg_cp (h : cheap) (src : msg_refs) : result (cheap * msg_refs) :=
  '(h, s) ← nn_chunkref_cp h (mr_sphdr src); '(h, d) ← nn_chunkref_cp h (mr_hdrs src); '(h, b) ← nn_chunkref_cp h (mr_body src); Ok (h, MsgRefs s d b).

Definition nn_msg_bulkcopy_start (h : cheap) (self : msg_refs) (copies : Z) : result cheap :=
  h ← nn_chunkref_bulkcopy_start h (mr_sphdr self) copies;
  h ← nn_chunkref_bulkcopy_start h (mr_hdrs self) copies;
  nn_chunkref_bulkcopy_start h (mr_body self) copies.

Definition nn_msg_bulkcopy_cp (src : msg_refs) : msg_refs :=
  MsgRefs (nn_chunkref_bulkcopy_cp (mr_sphdr src)) (nn_chunkref_bulkcopy_cp (mr_hdrs src)) (nn_chunkref_bulkcopy_cp (mr_body src)).

Definition nn_msg_replace_body (h : cheap) (self : msg_refs) (new_body : nn_chunkref) : result (cheap * msg_refs) :=
  h ← nn_chunkref_term h (mr_body self); Ok (h, MsgRefs (mr_sphdr self) (mr_hdrs self) new_body).

(** ** A client of messages

    It makes a message of bytes, or of a chunk; gives the header of a message,
    or its body, a new content; cuts bytes off the front of the body; copies a
    message, once or many times; moves one; gives one up; reads one. *)
Inductive msg_op :=
  | MInit (data : bytes)
  | MInitChunk (data : bytes)
  | MSphdr (i : nat) (data : bytes)
  | MReplaceBody (i : nat) (data : bytes)
  | MTrim (i n : nat)
  | MCopy (i : nat)
  | MBulk (i copies : nat)
  | MMove (i : nat)
  | MTerm (i : nat)
  | MRead (i : nat).

Section Session.
  Context `{Malloc}.

(** A reference to new bytes. *)
Definition new_ref (h : cheap) (data : bytes) : result (cheap * nn_chunkref) :=
  '(h, r) ← nn_chunkref_init h (Z.of_nat (length data)) (replicate 31 0); write_ref h r data.

Definition read_msg (h : cheap) (m : msg_refs) : result nn_msg :=
  s ← nn_chunkref_data h (mr_sphdr m); d ← nn_chunkref_data h (mr_hdrs m); b ← nn_chunkref_data h (mr_body m); Ok (Msg s d b).

Definition msg_step (o : msg_op) (h : cheap) (ms : list msg_refs) : result (cheap * list msg_refs * option nn_msg) :=
  match o with
  | MInit data =>
      '(h, m) ← nn_msg_init h (Z.of_nat (length data)) (replicate 31 0);
      '(h, b) ← write_ref h (mr_body m) data;
      Ok (h, MsgRefs (mr_sphdr m) (mr_hdrs m) b :: ms, None)
  | MInitChunk data =>
      '(h, r) ← new_ref h data; '(h, chunk, _) ← nn_chunkref_getchunk h r;
      '(h, m) ← nn_msg_init_chunk h chunk (replicate 31 0); Ok (h, m :: ms, None)
  | MSphdr i data =>
      m ← deref (ms !! i); h ← nn_chunkref_term h (mr_sphdr m); '(h, r) ← new_ref h data;
      Ok (h, <[i := MsgRefs r (mr_hdrs m) (mr_body m)]> ms, None)
  | MReplaceBody i data => m ← deref (ms !! i); '(h, r) ← new_ref h data; '(h, m) ← nn_msg_replace_body h m r; Ok (h, <[i := m]> ms, None)
  | MTrim i n => m ← deref (ms !! i); '(h, b) ← nn_chunkref_trim h (mr_body m) (Z.of_nat n); Ok (h, <[i := MsgRefs (mr_sphdr m) (mr_hdrs m) b]> ms, None)
  | MCopy i => m ← deref (ms !! i); '(h, m) ← nn_msg_cp h m; Ok (h, m :: ms, None)
  | MBulk i copies =>
      m ← deref (ms !! i); h ← nn_msg_bulkcopy_start h m (Z.of_nat copies); Ok (h, replicate copies (nn_msg_bulkcopy_cp m) ++ ms, None)
  | MMove i => m ← deref (ms !! i); Ok (h, nn_msg_mv m :: delete i ms, None)
  | MTerm i => m ← deref (ms !! i); h ← nn_msg_term h m; Ok (h, delete i ms, None)
  | MRead i => m ← deref (ms !! i); v ← read_msg h m; Ok (h, ms, Some v)
  end.

Fixpoint msg_run (ops : list msg_op) (h : cheap) (ms : list msg_refs) : result (cheap * list msg_refs * list (option nn_msg)) :=
  match ops with
  | [] => Ok (h, ms, [])
  | o :: ops => '(h, ms, out) ← msg_step o h ms; '(h, ms, outs) ← msg_run ops h ms; Ok (h, ms, out :: outs)
  end.
End Session.

(** The same with values. *)
Definition at_msg (vs : list nn_msg) (i : nat) : nn_msg := default (Msg [] [] []) (vs !! i).
Definition spec_msg (o : msg_op) (vs : list nn_msg) : list nn_msg * option nn_msg :=
  let v i := at_msg vs i in
  match o with
  | MInit data | MInitChunk data => (Msg [] [] data :: vs, None)
  | MSphdr i data => (<[i := Msg data (hdrs (v i)) (body (v i))]> vs, None)
  | MReplaceBody i data => (<[i := Msg (sphdr (v i)) (hdrs (v i)) data]> vs, None)
  | MTrim i n => (<[i := Msg (sphdr (v i)) (hdrs (v i)) (drop n (body (v i)))]> vs, None)
  | MCopy i => (v i :: vs, None)
  | MBulk i copies => (replicate copies (v i) ++ vs, None)
  | MMove i => (v i :: delete i vs, None)
  | MTerm i => (delete i vs, None)
  | MRead i => (vs, Some (v i))
  end.

Fixpoint spec_msgs (ops : list msg_op) (vs : list nn_msg) : list nn_msg * list (option nn_msg) :=
  match ops with
  | [] => (vs, [])
  | o :: ops => let '(vs, out) := spec_msg o vs in let '(vs, outs) := spec_msgs ops vs in (vs, out :: outs)
  end.

(** All references of the client. *)
Definition refs_of (m : msg_refs) : list nn_chunkref := [mr_sphdr m; mr_hdrs m; mr_body m].
Definition all_refs (ms : list msg_refs) : list nn_chunkref := ms ≫= refs_of.

(** What the client owes: the message exists, its sizes fit, and a body that
    is cut is not shared; and there are fewer than [2 ^ 30] messages. *)
Definition not_shared (ms : list msg_refs) (i : nat) : Prop :=
  match mr_body <$> ms !! i with Some (RefChunk p) => users (cp_block p) (all_refs ms) = 1%nat | _ => True end.
Definition msg_pre (o : msg_op) (ms : list msg_refs) (vs : list nn_msg) : Prop :=
  match o with
  | MInit data | MInitChunk data => Z.of_nat (length data) < 2 ^ 32 - 1 /\ Z.of_nat (length ms) + 1 < 2 ^ 30
  | MSphdr i data | MReplaceBody i data => (i < length vs)%nat /\ Z.of_nat (length data) < 2 ^ 32 - 1
  | MTrim i n => (i < length vs)%nat /\ (n <= length (body (at_msg vs i)))%nat /\ not_shared ms i
  | MCopy i => (i < length vs)%nat /\ Z.of_nat (length ms) + 1 < 2 ^ 30
  | MBulk i copies => (i < length vs)%nat /\ Z.of_nat (copies + length ms) < 2 ^ 30
  | MMove i | MTerm i | MRead i => (i < length vs)%nat
  end.
Fixpoint msgs_pre `{Malloc} (ops : list msg_op) (h : cheap) (ms : list msg_refs) (vs : list nn_msg) : Prop :=
  match ops with
  | [] => True
  | o :: ops => msg_pre o ms vs /\ match msg_step o h ms with Ok (h, ms, _) => msgs_pre ops h ms (spec_msg o vs).1 | Err _ => True end
  end.

(** ** References with their values, in any order *)

Definition owns (h : cheap) (ps : list (nn_chunkref * bytes)) : Prop := refs_rep h ps.*1 ps.*2.

Lemma owns_forall h ps : Forall2 (ref_val h) ps.*1 ps.*2 <-> Forall (fun p => ref_val h p.1 p.2) ps.
Proof. induction ps as [|p ps IH]; cbn; [done|]. by rewrite Forall2_cons, Forall_cons, IH. Qed.

Lemma users_permutation a l l' : l ≡ₚ l' -> users a l = users a l'.
Proof. induction 1; cbn; lia. Qed.

#[export] Instance owns_permutation h : Proper ((≡ₚ) ==> iff) (owns h).
Proof.
  assert (forall ps qs, ps ≡ₚ qs -> owns h ps -> owns h qs) as K; [|intros ps qs E; split; by apply K].
  intros ps qs E [V C]. constructor; [rewrite owns_forall in *; by rewrite <- E|].
  intros a c Hc. rewrite <- (users_permutation a ps.*1 qs.*1) by (by rewrite E). by apply C.
Qed.

Lemma owns_in h ps r v : owns h ps -> (r, v) ∈ ps -> ref_val h r v.
Proof. intros [V _] Hin. rewrite owns_forall, Forall_forall in V. exact (V _ Hin). Qed.

Section Owned.
  Context `{Malloc} (malloc_gives : forall h sz, is_Some (malloc h sz)).
  Local Abbreviation few l := (Z.of_nat (length l) < 2 ^ 32).

Lemma own_term h r v ps : owns h ((r, v) :: ps) -> few ((r, v) :: ps) -> exists h', nn_chunkref_term h r = Ok h' /\ owns h' ps.
Proof.
  intros O L. destruct (term_rep h _ _ 0 r v O eq_refl) as (h' & E & R); [by apply (owns_in h _ r v O), list_elem_of_here|cbn; by rewrite length_fmap|].
  by exists h'.
Qed.

Lemma own_copies h r v ps k : owns h ps -> (r, v) ∈ ps -> Z.of_nat (k + length ps) < 2 ^ 32 ->
  exists h', nn_chunkref_bulkcopy_start h r (Z.of_nat k) = Ok h' /\ owns h' (replicate k (r, v) ++ ps).
Proof.
  intros O Hin L. pose proof (list_elem_of_lookup_1 _ _ Hin) as [i Hi].
  destruct (copies_rep h ps.*1 ps.*2 i k r v O) as (h' & E & R); [by rewrite list_lookup_fmap, Hi|by eapply owns_in|rewrite length_fmap; lia|].
  exists h'. split; [done|]. rewrite (Permutation_app_comm (replicate k (r, v)) ps). unfold owns. by rewrite !fmap_app, !fmap_replicate.
Qed.

Lemma own_cp h r v ps : owns h ps -> (r, v) ∈ ps -> Z.of_nat (1 + length ps) < 2 ^ 32 -> exists h', nn_chunkref_cp h r = Ok (h', r) /\ owns h' ((r, v) :: ps).
Proof. intros O Hin L. destruct (own_copies h r v ps 1 O Hin L) as (h' & E & R). exists h'. change (Z.of_nat 1) with 1 in E. unfold nn_chunkref_cp. destruct r; cbn in E |- *; [by injection E as ->|by rewrite E]. Qed.

Lemma own_init h ps data : owns h ps -> Z.of_nat (length data) < 2 ^ 32 - 1 -> exists h1 r h2 r',
  nn_chunkref_init h (Z.of_nat (length data)) (replicate 31 0) = Ok (h1, r) /\ write_ref h1 r data = Ok (h2, r') /\ owns h2 ((r', data) :: ps).
Proof.
  intros O L. destruct (init_rep malloc_gives h _ _ data O L) as (h1 & r & h2 & r2 & E1 & E2 & R). exists h1, r, h2, r2. split; [done|]. split; [done|].
  rewrite (Permutation_cons_append ps (r2, data)). unfold owns. by rewrite !fmap_app.
Qed.

(** An empty reference needs no chunk. *)
Lemma init_empty h : nn_chunkref_init h 0 (replicate 31 0) = Ok (h, RefInline []).
Proof. reflexivity. Qed.
Lemma own_empty h ps : owns h ps -> owns h ((RefInline [], []) :: ps).
Proof. intros [V C]. constructor; [constructor; [cbn; split; [done|lia]|done]|exact C]. Qed.

Lemma own_new h ps data : owns h ps -> Z.of_nat (length data) < 2 ^ 32 - 1 -> exists h' r, new_ref h data = Ok (h', r) /\ owns h' ((r, data) :: ps).
Proof. intros O L. destruct (own_init h ps data O L) as (h1 & r & h2 & r2 & E1 & E2 & R). exists h2, r2. unfold new_ref. rewrite E1. mred. by rewrite E2. Qed.

Lemma own_trim h r v ps n : owns h ((r, v) :: ps) -> (n <= length v)%nat -> unshared (r :: ps.*1) 0 ->
  exists h' r', nn_chunkref_trim h r (Z.of_nat n) = Ok (h', r') /\ owns h' ((r', drop n v) :: ps).
Proof.
  intros O L U. destruct (trim_rep h (r :: ps.*1) (v :: ps.*2) 0 n r v O) as (h' & r' & E & R); [done|done| |done|done|by exists h', r'].
  by apply (owns_in h _ r v O), list_elem_of_here.
Qed.

Lemma own_chunk h r v ps : owns h ((r, v) :: ps) -> exists h' p r', nn_chunkref_getchunk h r = Ok (h', p, r') /\ owns h' ((RefChunk p, v) :: ps).
Proof.
  intros O. destruct (chunk_rep malloc_gives h (r :: ps.*1) (v :: ps.*2) 0 r v O) as (h' & p & r' & E & R); [done|done| |by exists h', p, r'].
  by apply (owns_in h _ r v O), list_elem_of_here.
Qed.

Lemma own_data h r v ps : owns h ps -> (r, v) ∈ ps -> nn_chunkref_data h r = Ok v.
Proof. intros O Hin. pose proof (owns_in h ps r v O Hin) as Hr. destruct r as [d|p]; [by destruct Hr as [-> _]|]. destruct Hr as (c & Ec & Hl). by apply (data_ok h p c). Qed.
End Owned.

(** ** Messages with their values *)

Definition parts (x : msg_refs * nn_msg) : list (nn_chunkref * bytes) := [(mr_sphdr x.1, sphdr x.2); (mr_hdrs x.1, hdrs x.2); (mr_body x.1, body x.2)].
Record held (h : cheap) (mps : list (msg_refs * nn_msg)) : Prop := { hd_owns : owns h (mps ≫= parts); hd_few : Z.of_nat (length mps) < 2 ^ 30 }.

Lemma parts_length mps : length (mps ≫= parts) = (3 * length mps)%nat.
Proof. induction mps as [|x mps IH]; [done|]. cbn in *. lia. Qed.
Lemma parts_refs mps : (mps ≫= parts).*1 = all_refs mps.*1.
Proof. induction mps as [|x mps IH]; [done|]. cbn in *. by rewrite IH. Qed.

Lemma parts_open mps i x : mps !! i = Some x -> mps ≫= parts ≡ₚ parts x ++ (delete i mps ≫= parts).
Proof. intros Hi. by rewrite (delete_Permutation mps i x Hi) at 1. Qed.
Lemma parts_insert mps i x y : mps !! i = Some x -> <[i := y]> mps ≫= parts ≡ₚ parts y ++ (delete i mps ≫= parts).
Proof.
  intros Hi. rewrite (parts_open (<[i := y]> mps) i y) by (apply list_lookup_insert_eq; by eapply lookup_lt_Some). replace (delete i (<[i := y]> mps)) with (delete i mps); [done|].
  clear Hi. revert i. induction mps as [|z mps IH]; intros [|i]; cbn; [done..|]. by rewrite <- IH.
Qed.
Lemma lookup_fst (mps : list (msg_refs * nn_msg)) i m v : mps !! i = Some (m, v) -> mps.*1 !! i = Some m.
Proof. intros Hi. by rewrite list_lookup_fmap, Hi. Qed.
Lemma parts_in mps i x p : mps !! i = Some x -> p ∈ parts x -> p ∈ mps ≫= parts.
Proof. intros Hi Hp. rewrite (parts_open mps i x Hi). apply elem_of_app. by left. Qed.

Lemma parts_replicate k x mps : (replicate k x ++ mps) ≫= parts ≡ₚ
  replicate k (mr_body x.1, body x.2) ++ replicate k (mr_hdrs x.1, hdrs x.2) ++ replicate k (mr_sphdr x.1, sphdr x.2) ++ (mps ≫= parts).
Proof.
  induction k as [|k IH]; [done|]. cbn [replicate app]. change ((x :: replicate k x ++ mps) ≫= parts) with (parts x ++ ((replicate k x ++ mps) ≫= parts)).
  rewrite IH. cbn [parts app]. rewrite <- !Permutation_middle. apply Permutation_app_tail with (l := [_; _; _]) (l' := [_; _; _]), (Permutation_rev [_; _; _]).
Qed.

Section Steps.
  Context `{Malloc} (malloc_gives : forall h sz, is_Some (malloc h sz)).

(** A new empty message, and room for its body. *)
Lemma held_cons h mps b bv : owns h ((b, bv) :: (mps ≫= parts)) -> Z.of_nat (length mps) + 1 < 2 ^ 30 ->
  held h ((MsgRefs (RefInline []) (RefInline []) b, Msg [] [] bv) :: mps).
Proof.
  intros O L. constructor; [|cbn; lia]. change (owns h ((RefInline [], []) :: (RefInline [], []) :: (b, bv) :: (mps ≫= parts))). by do 2 apply own_empty.
Qed.

Lemma init_msg h mps data : held h mps -> Z.of_nat (length data) < 2 ^ 32 - 1 -> Z.of_nat (length mps) + 1 < 2 ^ 30 ->
  exists h' m, msg_step (MInit data) h mps.*1 = Ok (h', m :: mps.*1, None) /\ held h' ((m, Msg [] [] data) :: mps).
Proof.
  intros [O L] Hd Hl. destruct (own_init malloc_gives h _ data O Hd) as (h1 & r & h2 & r2 & E1 & E2 & R).
  exists h2, (MsgRefs (RefInline []) (RefInline []) r2). cbn [msg_step]. unfold nn_msg_init. do 2 (rewrite init_empty; mred). rewrite E1. mred. cbn [mr_body]. rewrite E2. mred.
  split; [done|]. by apply held_cons.
Qed.

Lemma init_chunk_msg h mps data : held h mps -> Z.of_nat (length data) < 2 ^ 32 - 1 -> Z.of_nat (length mps) + 1 < 2 ^ 30 ->
  exists h' m, msg_step (MInitChunk data) h mps.*1 = Ok (h', m :: mps.*1, None) /\ held h' ((m, Msg [] [] data) :: mps).
Proof.
  intros [O L] Hd Hl. destruct (own_new malloc_gives h _ data O Hd) as (h1 & r & E1 & O1). destruct (own_chunk malloc_gives h1 r data _ O1) as (h2 & p & r' & E2 & O2).
  exists h2, (MsgRefs (RefInline []) (RefInline []) (RefChunk p)). cbn [msg_step]. rewrite E1. mred. rewrite E2. mred. unfold nn_msg_init_chunk. do 2 (rewrite init_empty; mred).
  split; [done|]. by apply held_cons.
Qed.

(** One part of a message gets a new value; [rest] are the others. *)
Lemma held_insert h mps i x y : mps !! i = Some x -> Z.of_nat (length mps) < 2 ^ 30 -> owns h (parts y ++ (delete i mps ≫= parts)) -> held h (<[i := y]> mps).
Proof. intros Hi L O. constructor; [by rewrite (parts_insert mps i x y Hi)|by rewrite length_insert]. Qed.

Lemma few_parts mps i x : mps !! i = Some x -> Z.of_nat (length mps) < 2 ^ 30 -> Z.of_nat (length (parts x ++ (delete i mps ≫= parts))) + 1 < 2 ^ 32.
Proof. intros Hi L. rewrite <- (Permutation_length (parts_open mps i x Hi)), parts_length. lia. Qed.

Lemma sphdr_msg h mps i m v data : held h mps -> mps !! i = Some (m, v) -> Z.of_nat (length data) < 2 ^ 32 - 1 ->
  exists h' m', msg_step (MSphdr i data) h mps.*1 = Ok (h', <[i := m']> mps.*1, None) /\ held h' (<[i := (m', Msg data (hdrs v) (body v))]> mps).
Proof.
  intros [O L] Hi Hd. rewrite (parts_open mps i _ Hi) in O. destruct (own_term h _ _ _ O ltac:(pose proof (few_parts mps i _ Hi L); cbn in *; lia)) as (h1 & E1 & O1).
  destruct (own_new malloc_gives h1 _ data O1 Hd) as (h2 & r & E2 & O2). exists h2, (MsgRefs r (mr_hdrs m) (mr_body m)). cbn [msg_step]. rewrite (lookup_fst mps i m v Hi). mred.
  cbn [fst] in E1 |- *. rewrite E1. mred. rewrite E2. mred. split; [done|]. by apply (held_insert h2 mps i _ _ Hi).
Qed.

(** The body comes first. *)
Lemma body_first x l : parts x ++ l ≡ₚ (mr_body x.1, body x.2) :: (mr_sphdr x.1, sphdr x.2) :: (mr_hdrs x.1, hdrs x.2) :: l.
Proof.
  cbn. transitivity ((mr_sphdr x.1, sphdr x.2) :: (mr_body x.1, body x.2) :: (mr_hdrs x.1, hdrs x.2) :: l); [|apply Permutation_swap].
  apply Permutation_skip, Permutation_swap.
Qed.

Lemma replace_body_msg h mps i m v data : held h mps -> mps !! i = Some (m, v) -> Z.of_nat (length data) < 2 ^ 32 - 1 ->
  exists h' m', msg_step (MReplaceBody i data) h mps.*1 = Ok (h', <[i := m']> mps.*1, None) /\ held h' (<[i := (m', Msg (sphdr v) (hdrs v) data)]> mps).
Proof.
  intros [O L] Hi Hd. destruct (own_new malloc_gives h _ data O Hd) as (h1 & r & E1 & O1). rewrite (parts_open mps i _ Hi), body_first, Permutation_swap in O1.
  pose proof (few_parts mps i _ Hi L) as F. destruct (own_term h1 _ _ _ O1 ltac:(cbn in F |- *; lia)) as (h2 & E2 & O2).
  exists h2, (MsgRefs (mr_sphdr m) (mr_hdrs m) r). cbn [msg_step]. rewrite (lookup_fst mps i m v Hi). mred. rewrite E1. mred. unfold nn_msg_replace_body. cbn [fst] in E2 |- *. rewrite E2. mred.
  split; [done|]. apply (held_insert h2 mps i _ _ Hi L). by rewrite body_first.
Qed.

Lemma trim_msg h mps i m v n : held h mps -> mps !! i = Some (m, v) -> (n <= length (body v))%nat -> not_shared mps.*1 i ->
  exists h' m', msg_step (MTrim i n) h mps.*1 = Ok (h', <[i := m']> mps.*1, None) /\ held h' (<[i := (m', Msg (sphdr v) (hdrs v) (drop n (body v)))]> mps).
Proof.
  intros [O L] Hi Hn Hu. pose proof (parts_open mps i _ Hi) as P. rewrite body_first in P. rewrite P in O. unfold not_shared in Hu. rewrite (lookup_fst mps i m v Hi) in Hu. cbn in Hu.
  destruct (own_trim h _ _ _ n O Hn) as (h1 & r & E1 & O1).
  { unfold unshared. change (match mr_body m with RefChunk p => users (cp_block p) (mr_body m :: mr_sphdr m :: mr_hdrs m :: (delete i mps ≫= parts).*1) = 1%nat | RefInline _ => True end).
    destruct (mr_body m) as [d|p] eqn:Eb; [done|]. rewrite <- Hu, <- parts_refs. symmetry. apply users_permutation. rewrite P. cbn. by rewrite Eb. }
  exists h1, (MsgRefs (mr_sphdr m) (mr_hdrs m) r). cbn [msg_step]. rewrite (lookup_fst mps i m v Hi). mred. cbn [fst] in E1 |- *. rewrite E1. mred. split; [done|].
  apply (held_insert h1 mps i _ _ Hi L). by rewrite body_first.
Qed.

Lemma copy_msg h mps i m v : held h mps -> mps !! i = Some (m, v) -> Z.of_nat (length mps) + 1 < 2 ^ 30 ->
  exists h', msg_step (MCopy i) h mps.*1 = Ok (h', m :: mps.*1, None) /\ held h' ((m, v) :: mps).
Proof.
  intros [O L] Hi Hl. pose proof (parts_length mps) as Hp.
  destruct (own_cp h (mr_sphdr m) (sphdr v) _ O) as (h1 & E1 & O1); [eapply parts_in; [exact Hi|]; apply list_elem_of_here|lia|].
  destruct (own_cp h1 (mr_hdrs m) (hdrs v) _ O1) as (h2 & E2 & O2); [do 1 right; eapply parts_in; [exact Hi|]; right; apply list_elem_of_here|cbn; lia|].
  destruct (own_cp h2 (mr_body m) (body v) _ O2) as (h3 & E3 & O3); [do 2 right; eapply parts_in; [exact Hi|]; do 2 right; apply list_elem_of_here|cbn; lia|].
  exists h3. cbn [msg_step]. rewrite (lookup_fst mps i m v Hi). mred. unfold nn_msg_cp. rewrite E1. mred. rewrite E2. mred. rewrite E3. mred.
  split; [by destruct m|]. constructor; [|cbn; lia]. change (((m, v) :: mps) ≫= parts) with (parts (m, v) ++ (mps ≫= parts)).
  eapply owns_permutation; [|exact O3]. rewrite body_first. apply Permutation_skip, Permutation_swap.
Qed.

Lemma bulk_msg h mps i m v k : held h mps -> mps !! i = Some (m, v) -> Z.of_nat (k + length mps) < 2 ^ 30 ->
  exists h', msg_step (MBulk i k) h mps.*1 = Ok (h', replicate k m ++ mps.*1, None) /\ held h' (replicate k (m, v) ++ mps).
Proof.
  intros [O L] Hi Hl. pose proof (parts_length mps) as Hp.
  destruct (own_copies h (mr_sphdr m) (sphdr v) _ k O) as (h1 & E1 & O1); [eapply parts_in; [exact Hi|]; apply list_elem_of_here|lia|].
  destruct (own_copies h1 (mr_hdrs m) (hdrs v) _ k O1) as (h2 & E2 & O2).
  { apply elem_of_app. right. eapply parts_in; [exact Hi|]. right. apply list_elem_of_here. }
  { rewrite length_app, length_replicate. lia. }
  destruct (own_copies h2 (mr_body m) (body v) _ k O2) as (h3 & E3 & O3).
  { do 2 (apply elem_of_app; right). eapply parts_in; [exact Hi|]. do 2 right. apply list_elem_of_here. }
  { rewrite !length_app, !length_replicate. lia. }
  exists h3. cbn [msg_step]. rewrite (lookup_fst mps i m v Hi). mred. unfold nn_msg_bulkcopy_start. rewrite E1. mred. rewrite E2. mred. rewrite E3. mred.
  split; [by destruct m|]. constructor; [by rewrite parts_replicate|rewrite length_app, length_replicate; lia].
Qed.

Lemma term_msg h mps i m v : held h mps -> mps !! i = Some (m, v) -> exists h', msg_step (MTerm i) h mps.*1 = Ok (h', delete i mps.*1, None) /\ held h' (delete i mps).
Proof.
  intros [O L] Hi. pose proof (few_parts mps i _ Hi L) as F. rewrite (parts_open mps i _ Hi) in O. cbn [parts app fst snd] in O, F.
  destruct (own_term h _ _ _ O ltac:(cbn [length] in *; lia)) as (h1 & E1 & O1). destruct (own_term h1 _ _ _ O1 ltac:(cbn [length] in *; lia)) as (h2 & E2 & O2).
  destruct (own_term h2 _ _ _ O2 ltac:(cbn [length] in *; lia)) as (h3 & E3 & O3).
  exists h3. cbn [msg_step]. rewrite (lookup_fst mps i m v Hi). mred. unfold nn_msg_term. rewrite E1. mred. rewrite E2. mred. rewrite E3. mred.
  split; [done|]. constructor; [done|]. rewrite length_delete by (by rewrite Hi). lia.
Qed.

Lemma read_msg_ok h mps i m v : held h mps -> mps !! i = Some (m, v) -> read_msg h m = Ok v.
Proof.
  intros [O L] Hi. unfold read_msg.
  rewrite (own_data h (mr_sphdr m) (sphdr v) _ O) by (eapply parts_in; [exact Hi|]; apply list_elem_of_here). mred.
  rewrite (own_data h (mr_hdrs m) (hdrs v) _ O) by (eapply parts_in; [exact Hi|]; right; apply list_elem_of_here). mred.
  rewrite (own_data h (mr_body m) (body v) _ O) by (eapply parts_in; [exact Hi|]; do 2 right; apply list_elem_of_here). mred. by destruct v.
Qed.

Lemma msg_step_refines o h mps : held h mps -> msg_pre o mps.*1 mps.*2 ->
  exists h' mps', msg_step o h mps.*1 = Ok (h', mps'.*1, (spec_msg o mps.*2).2) /\ (spec_msg o mps.*2).1 = mps'.*2 /\ held h' mps'.
Proof.
  intros Hh Hpre. assert (forall i, (i < length mps.*2)%nat -> exists m v, mps !! i = Some (m, v) /\ at_msg mps.*2 i = v) as K.
  { intros i Hi. rewrite length_fmap in Hi. destruct (lookup_lt_is_Some_2 _ _ Hi) as [[m v] E]. exists m, v. split; [done|]. unfold at_msg. by rewrite list_lookup_fmap, E. }
  destruct o as [d|d|i d|i d|i n|i|i k|i|i|i]; cbn [msg_pre spec_msg fst snd] in *; rewrite ?length_fmap in Hpre.
  - destruct Hpre as [H1 H2]. destruct (init_msg h mps d Hh H1 H2) as (h' & m & -> & Hh'). by exists h', ((m, Msg [] [] d) :: mps).
  - destruct Hpre as [H1 H2]. destruct (init_chunk_msg h mps d Hh H1 H2) as (h' & m & -> & Hh'). by exists h', ((m, Msg [] [] d) :: mps).
  - destruct Hpre as [H1 H2]. destruct (K i) as (m & v & E & ->); [by rewrite length_fmap|]. destruct (sphdr_msg h mps i m v d Hh E H2) as (h' & m' & -> & Hh').
    eexists h', _. split; [|split; [|exact Hh']]; by rewrite list_fmap_insert.
  - destruct Hpre as [H1 H2]. destruct (K i) as (m & v & E & ->); [by rewrite length_fmap|]. destruct (replace_body_msg h mps i m v d Hh E H2) as (h' & m' & -> & Hh').
    eexists h', _. split; [|split; [|exact Hh']]; by rewrite list_fmap_insert.
  - destruct Hpre as (H1 & H2 & H3). destruct (K i) as (m & v & E & Ev); [by rewrite length_fmap|]. rewrite Ev in *. destruct (trim_msg h mps i m v n Hh E H2 H3) as (h' & m' & -> & Hh').
    eexists h', _. split; [|split; [|exact Hh']]; by rewrite list_fmap_insert.
  - destruct Hpre as [H1 H2]. destruct (K i) as (m & v & E & ->); [by rewrite length_fmap|]. destruct (copy_msg h mps i m v Hh E H2) as (h' & -> & Hh'). by exists h', ((m, v) :: mps).
  - destruct Hpre as [H1 H2]. destruct (K i) as (m & v & E & ->); [by rewrite length_fmap|]. destruct (bulk_msg h mps i m v k Hh E H2) as (h' & -> & Hh').
    exists h', (replicate k (m, v) ++ mps). by rewrite !fmap_app, !fmap_replicate.
  - destruct (K i) as (m & v & E & ->); [by rewrite length_fmap|]. exists h, ((m, v) :: delete i mps). cbn [msg_step]. rewrite (lookup_fst mps i m v E). mred.
    cbn. rewrite !list_fmap_delete. split; [by destruct m|]. split; [done|]. destruct Hh as [O L]. constructor; [by rewrite <- (delete_Permutation mps i _ E)|].
    cbn. rewrite length_delete by (by rewrite E). apply lookup_lt_Some in E. lia.
  - destruct (K i) as (m & v & E & _); [by rewrite length_fmap|]. destruct (term_msg h mps i m v Hh E) as (h' & -> & Hh'). exists h', (delete i mps). by rewrite !list_fmap_delete.
  - destruct (K i) as (m & v & E & ->); [by rewrite length_fmap|]. exists h, mps. cbn [msg_step]. rewrite (lookup_fst mps i m v E). mred.
    by rewrite (read_msg_ok h mps i m v Hh E).
Qed.

Lemma msg_run_refines ops : forall h mps, held h mps -> msgs_pre ops h mps.*1 mps.*2 ->
  exists h' mps', msg_run ops h mps.*1 = Ok (h', mps'.*1, (spec_msgs ops mps.*2).2) /\ (spec_msgs ops mps.*2).1 = mps'.*2 /\ held h' mps'.
Proof.
  induction ops as [|o ops IH]; intros h mps Hh Hpre; [by exists h, mps|]. cbn [msgs_pre] in Hpre. destruct Hpre as [Ho Hpre].
  destruct (msg_step_refines o h mps Hh Ho) as (h1 & mps1 & E1 & V1 & Hh1). rewrite E1, V1 in Hpre. destruct (IH h1 mps1 Hh1 Hpre) as (h2 & mps2 & E2 & V2 & Hh2).
  exists h2, mps2. cbn [msg_run spec_msgs]. destruct (spec_msg o mps.*2) as [vs out]. cbn [fst snd] in *. subst vs. destruct (spec_msgs ops mps1.*2) as [vs outs]. cbn [fst snd] in *.
  rewrite E1. mred. by rewrite E2.
Qed.

(** C38. Messages are values: whatever a client does with the messages it owns
    - making them of bytes or of a chunk, copying, moving, giving up, replacing
    a header or a body, and cutting bytes off a body it does not share - no
    memory is misused, each message reads as the value it stands for, no
    change of one shows in another although copies share their memory, and
    when no message is left all memory has been freed. *)
Theorem msgs_are_values (ops : list msg_op) : msgs_pre ops ∅ [] [] ->
  exists h ms, msg_run ops ∅ [] = Ok (h, ms, (spec_msgs ops []).2) /\
    Forall2 (fun m v => read_msg h m = Ok v) ms (spec_msgs ops []).1 /\ ((spec_msgs ops []).1 = [] -> h = ∅).
Proof.
  intros Hpre. destruct (msg_run_refines ops ∅ [] ltac:(constructor; [constructor; [constructor|done]|done]) Hpre) as (h & mps & E & V & Hh). cbn in E, V.
  exists h, mps.*1. split; [done|]. rewrite V. split.
  - apply Forall2_fmap, Forall_Forall2_diag, Forall_forall. intros [m v] Hin. apply list_elem_of_lookup_1 in Hin as [i Hi]. by eapply read_msg_ok.
  - intros Hnil%fmap_nil_inv. subst mps. destruct Hh as [[_ C] _]. apply map_eq. intros a. rewrite lookup_empty. destruct (h !! a) as [c|] eqn:Ha; [|done].
    destruct (C a c Ha) as [_ Hu]. cbn in Hu. lia.
Qed.
End Steps.

(** ** A session

    A message of 40 bytes gets a header, is copied to three peers and given up;
    one of the copies gets another body, which the other copies do not see, and
    is moved; a message made of a chunk loses its first bytes. *)
#[local] Existing Instance demo_malloc.

Definition demo_msgs : list msg_op :=
  [MInit (Z.of_nat <$> seq 0 40); MSphdr 0 [128; 0; 0; 1]; MBulk 0 2; MCopy 1; MTerm 3; MReplaceBody 1 [7; 8]; MMove 1; MRead 0; MRead 2;
   MInitChunk (Z.of_nat <$> seq 0 33); MTrim 0 30; MRead 0; MTerm 3; MTerm 1; MTerm 1; MTerm 0].

Lemma msgs_are_values_witness : exists outs, msg_run demo_msgs ∅ [] = Ok (∅, [], outs) /\
  outs !! 7%nat = Some (Some (Msg [128; 0; 0; 1] [] [7; 8])) /\ outs !! 8%nat = Some (Some (Msg [128; 0; 0; 1] [] (Z.of_nat <$> seq 0 40))) /\
  outs !! 11%nat = Some (Some (Msg [] [] [30; 31; 32])).
Proof.
  destruct (msgs_are_values ltac:(intros; by eexists) demo_msgs) as (h & ms & E & V & Hh).
  - vm_compute. repeat split; try lia; try (repeat constructor).
  - rewrite (Hh eq_refl) in E. apply Forall2_nil_inv_r in V. subst ms. eexists. split; [exact E|]. split; [|split]; vm_compute; reflexivity.
Defined.
