(* ===== verification/Poll.v ===== *)
(** * Polling sockets ([core/poll.c], the part for POSIX)

    [nn_poll] asks every socket for the descriptors that signal its events,
    polls them with the operating system, and moves the results back.  A socket
    that is polled for both events has two entries, one polled for none has no
    entry, so that the second pass over the sockets must find its place among
    the entries again. *)

From S2P Require Import Prelude Wire Poller.
Local Open Scope Z_scope.

Definition NN_POLLIN : Z := 1.
Definition NN_POLLOUT : Z := 2.

(** The two options that give the descriptors. *)
Inductive efd_option := RcvFd | SndFd.

Record nn_pollfd := NNPollFd { pl_fd : Z; pl_events : Z; pl_revents : Z }.

Section Poll.
  (** [nn_getsockopt]: the result, the value and its size.  The system's
      [poll]: the result, [errno] and the events of each entry. *)
  Variables (nn_getsockopt : Z -> efd_option -> Z * Z * Z) (poll : list (Z * Z) -> Z -> Z * Z * list Z).

(** One of the two parts of the loop that builds the pollset: nothing to poll
    for, an error, or an entry. *)
Definition poll_entry (bit : Z) (o : efd_option) (f : nn_pollfd) : result (list (Z * Z) + Z) :=
  if has (pl_events f) bit then
    let '(rc, fd, sz) := nn_getsockopt (pl_fd f) o in
    if bool_decide (rc < 0) then Ok (inr rc)
    else _ ← assert_ (bool_decide (sz = 4)); Ok (inl [(fd, POLLIN)])
  else Ok (inl []).

Fixpoint pollset (fds : list nn_pollfd) : result (list (Z * Z) + Z) :=
  match fds with
  | [] => Ok (inl [])
  | f :: fds =>
      i ← poll_entry NN_POLLIN RcvFd f;
      match i with inr rc => Ok (inr rc) | inl i =>
        o ← poll_entry NN_POLLOUT SndFd f;
        match o with inr rc => Ok (inr rc) | inl o =>
          l ← pollset fds;
          match l with inr rc => Ok (inr rc) | inl l => Ok (inl (i ++ o ++ l)) end
        end
      end
  end.

(** The second pass: [rev] are the events of the entries from [pos] on. *)
Definition move_result (bit : Z) (f : nn_pollfd) (rev : list Z) : result (Z * list Z) :=
  if has (pl_events f) bit then
    match rev with [] => Err BadAccess | r :: rev => Ok (if has r POLLIN then bit else 0, rev) end
  else Ok (0, rev).

Fixpoint move_results (fds : list nn_pollfd) (rev : list Z) : result (list nn_pollfd * Z) :=
  match fds with
  | [] => Ok ([], 0)
  | f :: fds =>
      '(i, rev) ← move_result NN_POLLIN f rev;
      '(o, rev) ← move_result NN_POLLOUT f rev;
      let revents := Z.lor i o in
      '(fds, res) ← move_results fds rev;
      Ok (NNPollFd (pl_fd f) (pl_events f) revents :: fds, if bool_decide (revents <> 0) then res + 1 else res)
  end.

(** The sockets, the result and [errno]. *)
Definition nn_poll (fds : list nn_pollfd) (timeout : Z) : result (list nn_pollfd * Z * Z) :=
  l ← pollset fds;
  match l with
  | inr rc => Ok (fds, -1, - rc)
  | inl l =>
      let '(rc, errno, rev) := poll l timeout in
      if bool_decide (rc <= 0) then Ok (fds, rc, errno)
      else '(fds, res) ← move_results fds rev; Ok (fds, res, errno)
  end.

(** ** What it gives *)

  (** The sockets are open, and the system reports what is readable. *)
  Variables (efd : Z -> efd_option -> Z) (readable : Z -> bool).
  Hypothesis getsockopt_ok : forall s o, nn_getsockopt s o = (0, efd s o, 4).
  Hypothesis poll_ok : forall l t rc e rev, poll l t = (rc, e, rev) -> 0 < rc -> Forall2 (fun r ev => has ev r.2 = readable r.1) l rev.

Definition ready (bit : Z) (o : efd_option) (f : nn_pollfd) : Z := if has (pl_events f) bit && readable (efd (pl_fd f) o) then bit else 0.
Definition polled (f : nn_pollfd) : nn_pollfd := NNPollFd (pl_fd f) (pl_events f) (Z.lor (ready NN_POLLIN RcvFd f) (ready NN_POLLOUT SndFd f)).

Definition entries_of (bit : Z) (o : efd_option) (f : nn_pollfd) : list (Z * Z) := if has (pl_events f) bit then [(efd (pl_fd f) o, POLLIN)] else [].

Lemma poll_entry_ok bit o f : poll_entry bit o f = Ok (inl (entries_of bit o f)).
Proof. unfold poll_entry, entries_of. rewrite getsockopt_ok. by destruct (has _ _). Qed.

Lemma pollset_ok fds : pollset fds = Ok (inl (mbind (fun f => entries_of NN_POLLIN RcvFd f ++ entries_of NN_POLLOUT SndFd f) fds)).
Proof. induction fds as [|f fds IH]; [done|]. cbn [pollset]. rewrite !poll_entry_ok. mred. rewrite IH. mred. cbn. by rewrite <- app_assoc. Qed.

Lemma move_result_ok bit o f l rev : Forall2 (fun r ev => has ev r.2 = readable r.1) (entries_of bit o f ++ l) rev ->
  exists rev', move_result bit f rev = Ok (ready bit o f, rev') /\ Forall2 (fun r ev => has ev r.2 = readable r.1) l rev'.
Proof.
  unfold move_result, entries_of, ready. destruct (has (pl_events f) bit); cbn; [|by exists rev].
  intros (r & rev' & E & F & ->)%Forall2_cons_inv_l. cbn in E. exists rev'. by rewrite E.
Qed.

Lemma move_results_ok fds : forall rev, Forall2 (fun r ev => has ev r.2 = readable r.1) (mbind (fun f => entries_of NN_POLLIN RcvFd f ++ entries_of NN_POLLOUT SndFd f) fds) rev ->
  move_results fds rev = Ok (polled <$> fds, Z.of_nat (length (filter (fun f => pl_revents f <> 0) (polled <$> fds)))).
Proof.
  induction fds as [|f fds IH]; intros rev F; [done|]. cbn [move_results]. cbn in F. rewrite <- !app_assoc in F.
  destruct (move_result_ok _ _ _ _ _ F) as (rev1 & -> & F1). mred. destruct (move_result_ok _ _ _ _ _ F1) as (rev2 & -> & F2). mred.
  rewrite (IH rev2 F2). mred. rewrite fmap_cons, filter_cons. cbn [pl_revents polled]. fold (polled f).
  destruct (decide (Z.lor (ready NN_POLLIN RcvFd f) (ready NN_POLLOUT SndFd f) <> 0)) as [Hz|Hz]; decide_bools; [|done]. do 2 f_equal. cbn [length]. lia.
Qed.

(** When the system reports something, each socket has exactly the events it
    was polled for and that are ready, and the result counts the sockets with
    events; otherwise nothing is written. *)
Lemma nn_poll_ok fds timeout : exists rc errno rev,
  poll (mbind (fun f => entries_of NN_POLLIN RcvFd f ++ entries_of NN_POLLOUT SndFd f) fds) timeout = (rc, errno, rev) /\
  nn_poll fds timeout =
    Ok (if bool_decide (rc <= 0) then (fds, rc, errno) else (polled <$> fds, Z.of_nat (length (filter (fun f => pl_revents f <> 0) (polled <$> fds))), errno)).
Proof.
  unfold nn_poll. rewrite pollset_ok. mred. destruct (poll _ timeout) as [[rc errno] rev] eqn:E. exists rc, errno, rev. split; [done|].
  case_bool_decide; [done|]. rewrite (move_results_ok fds rev) by (eapply poll_ok; [exact E|lia]). done.
Qed.
End Poll.

(** ** Corner cases *)

(** A descriptor that is not open: [errno] becomes 1, EPERM, since the result
    of [nn_getsockopt] is -1 and its error is in [errno]. *)
Example poll_errno : nn_poll (fun _ _ => (-1, 0, 4)) (fun _ _ => (0, 0, [])) [NNPollFd 9 NN_POLLIN 0] 0 = Ok ([NNPollFd 9 NN_POLLIN 0], -1, 1).
Proof. reflexivity. Qed.

(** When the time is over, the events of an earlier call are still there. *)
Example poll_stale : nn_poll (fun _ _ => (0, 3, 4)) (fun _ _ => (0, 0, [0])) [NNPollFd 9 NN_POLLIN NN_POLLIN] 0 = Ok ([NNPollFd 9 NN_POLLIN NN_POLLIN], 0, 0).
Proof. reflexivity. Qed.

(** An error of a descriptor ends the waiting with the result 0, that of a
    timeout. *)
Example poll_error_is_timeout : nn_poll (fun _ _ => (0, 3, 4)) (fun _ _ => (1, 0, [POLLERR])) [NNPollFd 9 NN_POLLIN 0] (-1) = Ok ([NNPollFd 9 NN_POLLIN 0], 0, 0).
Proof. reflexivity. Qed.
