(* ===== verification/Ins.v ===== *)
(** * In-process endpoints ([transports/inproc/ins.c], [binproc.c], [cinproc.c])

    A registry of the process has the names that are bound and the endpoints
    that connect; whoever comes second makes the connection.  The sessions of
    an endpoint are those of the file [Sinproc]; what an endpoint needs of
    them is the class [Sinprocs], and [W] is what they live in. *)

From S2P Require Import Prelude Wire Timer Pipe Sinproc.
Local Open Scope Z_scope.

Definition EADDRINUSE : Z := 98.

(** ** The registry

    [ii_ispeer] is [nn_epbase_ispeer] of the endpoint. *)
Record nn_ins_item := InsItem { ii_id : positive; ii_addr : bytes; ii_protocol : Z; ii_ispeer : Z -> bool }.
Record nn_ins := Ins { bound : list nn_ins_item; connected : list nn_ins_item }.

Definition nn_ins_init : nn_ins := Ins [] [].
(** [nn_list_term] asserts that the list is empty. *)
Definition nn_ins_term (self : nn_ins) : result unit :=
  _ ← assert_ (bool_decide (length (connected self) = 0%nat)); assert_ (bool_decide (length (bound self) = 0%nat)).

(** [strncmp] of two addresses, of which 128 bytes count. *)
Definition same_addr (a b : nn_ins_item) : bool := bool_decide (take 128 (ii_addr a) = take 128 (ii_addr b)).

(** The calls of [fn (item, citem)] while the lock is held, in their order. *)
Definition bind_calls (self : nn_ins) (item : nn_ins_item) : list nn_ins_item :=
  filter (fun c => same_addr item c = true /\ ii_ispeer item (ii_protocol c) = true) (connected self).

Definition nn_ins_bind (self : nn_ins) (item : nn_ins_item) : nn_ins * Z * list nn_ins_item :=
  if existsb (same_addr item) (bound self) then (self, - EADDRINUSE, [])
  else (Ins (bound self ++ [item]) (connected self), 0, bind_calls self item).

(** The first endpoint with this address, and no other, is called. *)
Definition connect_calls (self : nn_ins) (item : nn_ins_item) : list nn_ins_item :=
  match List.find (same_addr item) (bound self) with
  | Some b => if ii_ispeer item (ii_protocol b) then [b] else []
  | None => []
  end.

Definition nn_ins_connect (self : nn_ins) (item : nn_ins_item) : nn_ins * list nn_ins_item :=
  (Ins (bound self) (connected self ++ [item]), connect_calls self item).

(** [nn_list_erase] asserts that the item is in a list. *)
Definition erase_item (i : positive) (l : list nn_ins_item) : result (list nn_ins_item) :=
  _ ← assert_ (bool_decide (i ∈ ii_id <$> l)); Ok (filter (fun x => ii_id x <> i) l).

Definition nn_ins_disconnect (self : nn_ins) (i : positive) : result nn_ins :=
  l ← erase_item i (connected self); Ok (Ins (bound self) l).
Definition nn_ins_unbind (self : nn_ins) (i : positive) : result nn_ins :=
  l ← erase_item i (bound self); Ok (Ins l (connected self)).

(** *** What the endpoints do to the registry *)

Inductive ins_op := IBind (x : nn_ins_item) | IConnect (x : nn_ins_item) | IUnbind (i : positive) | IDisconnect (i : positive).

(** The pairs that were connected by a step: the bound one first. *)
Definition ins_step (self : nn_ins) (o : ins_op) : result (nn_ins * Z * list (nn_ins_item * nn_ins_item)) :=
  match o with
  | IBind x => let '(self, rc, calls) := nn_ins_bind self x in Ok (self, rc, (fun c => (x, c)) <$> calls)
  | IConnect x => let '(self, calls) := nn_ins_connect self x in Ok (self, 0, (fun b => (b, x)) <$> calls)
  | IUnbind i => self ← nn_ins_unbind self i; Ok (self, 0, [])
  | IDisconnect i => self ← nn_ins_disconnect self i; Ok (self, 0, [])
  end.

Fixpoint ins_run (self : nn_ins) (os : list ins_op) : result (nn_ins * list Z * list (nn_ins_item * nn_ins_item)) :=
  match os with
  | [] => Ok (self, [], [])
  | o :: os => '(self, rc, ps) ← ins_step self o; '(self, rcs, pss) ← ins_run self os; Ok (self, rc :: rcs, ps ++ pss)
  end.

(** ** The endpoints

    [sn_new]: [nn_alloc] and [nn_sinproc_init]; [sn_connect i p]:
    [nn_sinproc_connect] of session [i] to endpoint [p]; [sn_accept i p]:
    [nn_sinproc_accept] of session [i] with the peer session [p];
    [sn_reset]: [nn_sinproc_init] again; [sn_free]: [nn_sinproc_term] and
    [nn_free]. *)
Class Sinprocs (W : Type) := {
  sn_new : W -> positive -> W;
  sn_reset : W -> positive -> W;
  sn_connect : W -> positive -> positive -> result W;
  sn_accept : W -> positive -> positive -> result W;
  sn_stop : W -> positive -> result W;
  sn_isidle : W -> positive -> bool;
  sn_free : W -> positive -> result W;
  sn_stat : W -> nn_stat -> Z -> result W
}.

Definition NN_BINPROC_SRC_SINPROC : Z := 1.
Definition NN_CINPROC_SRC_SINPROC : Z := 1.
Definition NN_CINPROC_ACTION_CONNECT : Z := 1.

Inductive binproc_state := NN_BINPROC_STATE_IDLE | NN_BINPROC_STATE_ACTIVE | NN_BINPROC_STATE_STOPPING.
#[export] Instance binproc_state_eq_dec : EqDecision binproc_state.
Proof. solve_decision. Defined.
Inductive cinproc_state := NN_CINPROC_STATE_IDLE | NN_CINPROC_STATE_DISCONNECTED | NN_CINPROC_STATE_ACTIVE | NN_CINPROC_STATE_STOPPING.
#[export] Instance cinproc_state_eq_dec : EqDecision cinproc_state.
Proof. solve_decision. Defined.

(** [bi_sinprocs]: the list of sessions; [bi_next]: a name that was not used;
    [bi_stopped] counts the calls of [nn_epbase_stopped]. *)
Record nn_binproc := Binproc { bi_id : positive; bi_fsm : fsm_state; bi_state : binproc_state; bi_sinprocs : list positive; bi_next : positive; bi_stopped : nat }.
Record nn_cinproc := Cinproc { ci_id : positive; ci_fsm : fsm_state; ci_state : cinproc_state; ci_sinproc : positive; ci_stopped : nat }.

Definition bi_set_fsm v b := Binproc (bi_id b) v (bi_state b) (bi_sinprocs b) (bi_next b) (bi_stopped b).
Definition bi_set_state v b := Binproc (bi_id b) (bi_fsm b) v (bi_sinprocs b) (bi_next b) (bi_stopped b).
Definition bi_set_sinprocs v b := Binproc (bi_id b) (bi_fsm b) (bi_state b) v (bi_next b) (bi_stopped b).
Definition bi_set_next v b := Binproc (bi_id b) (bi_fsm b) (bi_state b) (bi_sinprocs b) v (bi_stopped b).
Definition bi_set_stopped v b := Binproc (bi_id b) (bi_fsm b) (bi_state b) (bi_sinprocs b) (bi_next b) v.
Definition ci_set_fsm v c := Cinproc (ci_id c) v (ci_state c) (ci_sinproc c) (ci_stopped c).
Definition ci_set_state v c := Cinproc (ci_id c) (ci_fsm c) v (ci_sinproc c) (ci_stopped c).
Definition ci_set_stopped v c := Cinproc (ci_id c) (ci_fsm c) (ci_state c) (ci_sinproc c) v.

Section Endpoints.
  Context {W : Type} `{Sinprocs W}.

(** A new session in the list. *)
Definition add_sinproc (w : W) (self : nn_binproc) : W * nn_binproc * positive :=
  let i := bi_next self in
  (sn_new w i, bi_set_next (Pos.succ i) (bi_set_sinprocs (bi_sinprocs self ++ [i]) self), i).

(** [peer]: the endpoint that connects. *)
Definition nn_binproc_connect (w : W) (self : nn_binproc) (peer : positive) : result (W * nn_binproc) :=
  _ ← assert_ (bool_decide (bi_state self = NN_BINPROC_STATE_ACTIVE));
  let '(w, self, i) := add_sinproc w self in
  w ← sn_connect w i peer;
  w ← sn_stat w NN_STAT_ACCEPTED_CONNECTIONS 1;
  Ok (w, self).

Definition nn_binproc_handler (w : W) (self : nn_binproc) (src type : Z) (srcptr : positive) : result (W * nn_binproc) :=
  match bi_state self with
  | NN_BINPROC_STATE_IDLE =>
      if bool_decide (src = NN_FSM_ACTION) && bool_decide (type = NN_FSM_START) then Ok (w, bi_set_state NN_BINPROC_STATE_ACTIVE self)
      else Err AssertFailed
  | NN_BINPROC_STATE_ACTIVE =>
      if bool_decide (src = NN_SINPROC_SRC_PEER) then
        if bool_decide (type = NN_SINPROC_CONNECT) then
          let '(w, self, i) := add_sinproc w self in
          w ← sn_accept w i srcptr; Ok (w, self)
        else Err AssertFailed
      else if bool_decide (src = NN_BINPROC_SRC_SINPROC) then Ok (w, self)
      else Err AssertFailed
  | NN_BINPROC_STATE_STOPPING => Err AssertFailed
  end.

Fixpoint stop_sinprocs (w : W) (l : list positive) : result W :=
  match l with [] => Ok w | i :: l => w ← sn_stop w i; stop_sinprocs w l end.

(** The label [finish]. *)
Definition binproc_finish (w : W) (self : nn_binproc) : result (W * nn_binproc) :=
  if negb (bool_decide (bi_sinprocs self = [])) then Ok (w, self)
  else
    _ ← assert_ (bool_decide (bi_fsm self = NN_FSM_STATE_STOPPING));
    Ok (w, bi_set_stopped (S (bi_stopped self)) (bi_set_fsm NN_FSM_STATE_IDLE (bi_set_state NN_BINPROC_STATE_IDLE self))).

Definition nn_binproc_shutdown (ins : nn_ins) (w : W) (self : nn_binproc) (src type : Z) (srcptr : positive) : result (nn_ins * W * nn_binproc) :=
  if bool_decide (src = NN_FSM_ACTION) && bool_decide (type = NN_FSM_STOP) then
    ins ← nn_ins_unbind ins (bi_id self);
    w ← stop_sinprocs w (bi_sinprocs self);
    '(w, self) ← binproc_finish w (bi_set_state NN_BINPROC_STATE_STOPPING self);
    Ok (ins, w, self)
  else match bi_state self with
  | NN_BINPROC_STATE_STOPPING =>
      _ ← assert_ (bool_decide (src = NN_BINPROC_SRC_SINPROC) && bool_decide (type = NN_SINPROC_STOPPED));
      _ ← assert_ (bool_decide (srcptr ∈ bi_sinprocs self));
      w ← sn_free w srcptr;
      '(w, self) ← binproc_finish w (bi_set_sinprocs (filter (fun j => j <> srcptr) (bi_sinprocs self)) self);
      Ok (ins, w, self)
  | _ => Err AssertFailed
  end.

Definition binproc_feed (ins : nn_ins) (w : W) (self : nn_binproc) (src type : Z) (srcptr : positive) : result (nn_ins * W * nn_binproc) :=
  if negb (bool_decide (bi_fsm self = NN_FSM_STATE_STOPPING)) then '(w, self) ← nn_binproc_handler w self src type srcptr; Ok (ins, w, self)
  else nn_binproc_shutdown ins w self src type srcptr.

Definition nn_binproc_stop (ins : nn_ins) (w : W) (self : nn_binproc) : result (nn_ins * W * nn_binproc) :=
  if negb (bool_decide (bi_fsm self = NN_FSM_STATE_ACTIVE)) then Ok (ins, w, self)
  else nn_binproc_shutdown ins w (bi_set_fsm NN_FSM_STATE_STOPPING self) NN_FSM_ACTION NN_FSM_STOP 1.

Fixpoint binproc_connects (w : W) (self : nn_binproc) (l : list nn_ins_item) : result (W * nn_binproc) :=
  match l with [] => Ok (w, self) | c :: l => '(w, self) ← nn_binproc_connect w self (ii_id c); binproc_connects w self l end.

(** The machine is started before the name is registered; when the name is in
    use the endpoint is thrown away. *)
Definition nn_binproc_create (ins : nn_ins) (w : W) (item : nn_ins_item) (next : positive) : result (nn_ins * W * (nn_binproc + Z)) :=
  let self := Binproc (ii_id item) NN_FSM_STATE_IDLE NN_BINPROC_STATE_IDLE [] next 0 in
  '(w, self) ← nn_binproc_handler w self NN_FSM_ACTION NN_FSM_START 1;
  let self := bi_set_fsm NN_FSM_STATE_ACTIVE self in
  let '(ins, rc, calls) := nn_ins_bind ins item in
  if bool_decide (rc < 0) then Ok (ins, w, inr rc)
  else '(w, self) ← binproc_connects w self calls; Ok (ins, w, inl self).

Definition nn_binproc_destroy (self : nn_binproc) : result unit :=
  _ ← assert_ (bool_decide (bi_sinprocs self = [])); assert_ (bool_decide (bi_fsm self = NN_FSM_STATE_IDLE)).

Definition nn_cinproc_handler (w : W) (self : nn_cinproc) (src type : Z) (srcptr : positive) : result (W * nn_cinproc) :=
  let established w := w ← sn_stat w NN_STAT_INPROGRESS_CONNECTIONS (-1); sn_stat w NN_STAT_ESTABLISHED_CONNECTIONS 1 in
  match ci_state self with
  | NN_CINPROC_STATE_IDLE =>
      if bool_decide (src = NN_FSM_ACTION) && bool_decide (type = NN_FSM_START) then
        w ← sn_stat w NN_STAT_INPROGRESS_CONNECTIONS 1; Ok (w, ci_set_state NN_CINPROC_STATE_DISCONNECTED self)
      else Err AssertFailed
  | NN_CINPROC_STATE_DISCONNECTED =>
      if bool_decide (src = NN_FSM_ACTION) && bool_decide (type = NN_CINPROC_ACTION_CONNECT) then
        w ← established w; Ok (w, ci_set_state NN_CINPROC_STATE_ACTIVE self)
      else if bool_decide (src = NN_SINPROC_SRC_PEER) && bool_decide (type = NN_SINPROC_CONNECT) then
        w ← sn_accept w (ci_sinproc self) srcptr;
        w ← established w; Ok (w, ci_set_state NN_CINPROC_STATE_ACTIVE self)
      else Err AssertFailed
  | NN_CINPROC_STATE_ACTIVE =>
      if bool_decide (src = NN_CINPROC_SRC_SINPROC) && bool_decide (type = NN_SINPROC_DISCONNECT) then
        w ← sn_stat w NN_STAT_INPROGRESS_CONNECTIONS 1;
        Ok (sn_reset w (ci_sinproc self), ci_set_state NN_CINPROC_STATE_DISCONNECTED self)
      else Err AssertFailed
  | NN_CINPROC_STATE_STOPPING => Err AssertFailed
  end.

(** [peer]: the bound endpoint. *)
Definition nn_cinproc_connect (w : W) (self : nn_cinproc) (peer : positive) : result (W * nn_cinproc) :=
  _ ← assert_ (bool_decide (ci_state self = NN_CINPROC_STATE_DISCONNECTED));
  w ← sn_connect w (ci_sinproc self) peer;
  nn_cinproc_handler w self NN_FSM_ACTION NN_CINPROC_ACTION_CONNECT 1.

Definition cinproc_finish (w : W) (self : nn_cinproc) : result (W * nn_cinproc) :=
  if negb (sn_isidle w (ci_sinproc self)) then Ok (w, self)
  else
    _ ← assert_ (bool_decide (ci_fsm self = NN_FSM_STATE_STOPPING));
    Ok (w, ci_set_stopped (S (ci_stopped self)) (ci_set_fsm NN_FSM_STATE_IDLE (ci_set_state NN_CINPROC_STATE_IDLE self))).

Definition nn_cinproc_shutdown (ins : nn_ins) (w : W) (self : nn_cinproc) (src type : Z) : result (nn_ins * W * nn_cinproc) :=
  if bool_decide (src = NN_FSM_ACTION) && bool_decide (type = NN_FSM_STOP) then
    ins ← nn_ins_disconnect ins (ci_id self);
    w ← sn_stop w (ci_sinproc self);
    '(w, self) ← cinproc_finish w (ci_set_state NN_CINPROC_STATE_STOPPING self);
    Ok (ins, w, self)
  else match ci_state self with
  | NN_CINPROC_STATE_STOPPING => '(w, self) ← cinproc_finish w self; Ok (ins, w, self)
  | _ => Err AssertFailed
  end.

Definition cinproc_feed (ins : nn_ins) (w : W) (self : nn_cinproc) (src type : Z) (srcptr : positive) : result (nn_ins * W * nn_cinproc) :=
  if negb (bool_decide (ci_fsm self = NN_FSM_STATE_STOPPING)) then '(w, self) ← nn_cinproc_handler w self src type srcptr; Ok (ins, w, self)
  else nn_cinproc_shutdown ins w self src type.

Definition nn_cinproc_stop (ins : nn_ins) (w : W) (self : nn_cinproc) : result (nn_ins * W * nn_cinproc) :=
  if negb (bool_decide (ci_fsm self = NN_FSM_STATE_ACTIVE)) then Ok (ins, w, self)
  else nn_cinproc_shutdown ins w (ci_set_fsm NN_FSM_STATE_STOPPING self) NN_FSM_ACTION NN_FSM_STOP.

(** At most one bound endpoint is called. *)
Definition nn_cinproc_create (ins : nn_ins) (w : W) (item : nn_ins_item) (i : positive) : result (nn_ins * W * nn_cinproc) :=
  let self := Cinproc (ii_id item) NN_FSM_STATE_IDLE NN_CINPROC_STATE_IDLE i 0 in
  '(w, self) ← nn_cinproc_handler (sn_new w i) self NN_FSM_ACTION NN_FSM_START 1;
  let self := ci_set_fsm NN_FSM_STATE_ACTIVE self in
  let '(ins, calls) := nn_ins_connect ins item in
  '(w, self) ← (match calls with b :: _ => nn_cinproc_connect w self (ii_id b) | [] => Ok (w, self) end);
  Ok (ins, w, self).

Definition nn_cinproc_destroy (w : W) (self : nn_cinproc) : result W :=
  w ← sn_free w (ci_sinproc self);
  _ ← assert_ (bool_decide (ci_fsm self = NN_FSM_STATE_IDLE)); Ok w.
End Endpoints.

(** ** The registry connects whom it should *)

Definition name (x : nn_ins_item) : bytes := take 128 (ii_addr x).
Definition matches (b c : nn_ins_item) : Prop := name b = name c /\ ii_ispeer b (ii_protocol c) = true.

Definition op_item (o : ins_op) : option nn_ins_item := match o with IBind x | IConnect x => Some x | _ => None end.
Definition items (os : list ins_op) : list nn_ins_item := omap op_item os.

(** Endpoints come with new identities, and leave the list they are in. *)
Definition op_ok (self : nn_ins) (used : list positive) (o : ins_op) : Prop :=
  match o with
  | IBind x | IConnect x => ii_id x ∉ used
  | IUnbind i => i ∈ ii_id <$> bound self
  | IDisconnect i => i ∈ ii_id <$> connected self
  end.
Fixpoint legal (self : nn_ins) (used : list positive) (os : list ins_op) : Prop :=
  match os with
  | [] => True
  | o :: os => op_ok self used o /\
      match ins_step self o with Ok (self, _, _) => legal self (match op_item o with Some x => ii_id x :: used | None => used end) os | Err _ => False end
  end.

#[export] Instance op_ok_dec self used o : Decision (op_ok self used o).
Proof. destruct o; cbn; apply _. Defined.
#[export] Instance legal_dec os : forall self used, Decision (legal self used os).
Proof.
  induction os as [|o os IH]; intros self used; cbn [legal]; [apply _|]. apply and_dec; [apply _|]. destruct (ins_step self o) as [[[? ?] ?]|]; apply _.
Defined.

Definition pair_ids (p : nn_ins_item * nn_ins_item) : positive * positive := (ii_id p.1, ii_id p.2).

(** [all]: the endpoints there ever are. *)
Record registry (all : list nn_ins_item) (used : list positive) (self : nn_ins) (ps : list (nn_ins_item * nn_ins_item)) : Prop := {
  rg_all : Forall (fun x => x ∈ all) (bound self ++ connected self);
  rg_used : Forall (fun x => ii_id x ∈ used) (bound self ++ connected self);
  rg_pairs_used : Forall (fun p => ii_id p.1 ∈ used /\ ii_id p.2 ∈ used) ps;
  rg_names : NoDup (name <$> bound self);
  rg_ids : NoDup (ii_id <$> bound self ++ connected self);
  rg_once : NoDup (pair_ids <$> ps);
  rg_match : Forall (fun p => matches p.1 p.2) ps;
  rg_complete : forall b c, b ∈ bound self -> c ∈ connected self -> matches b c -> (b, c) ∈ ps
}.

Lemma same_addr_name x y : same_addr x y = true <-> name x = name y.
Proof. unfold same_addr. by rewrite bool_decide_eq_true. Qed.

Lemma existsb_name x l : existsb (same_addr x) l = true <-> name x ∈ name <$> l.
Proof.
  rewrite existsb_exists, list_elem_of_fmap. split.
  - intros (y & Hy%list_elem_of_In & E%same_addr_name). by exists y.
  - intros (y & E & Hy). exists y. split; [by apply list_elem_of_In|]. by apply same_addr_name.
Qed.

Lemma connect_calls_spec self x b : NoDup (name <$> bound self) ->
  b ∈ connect_calls self x <-> b ∈ bound self /\ name x = name b /\ ii_ispeer x (ii_protocol b) = true.
Proof.
  intros Hnd. unfold connect_calls. destruct (List.find (same_addr x) (bound self)) as [b'|] eqn:E.
  - apply List.find_some in E as [Hin%list_elem_of_In Hs%same_addr_name].
    assert (Hu : forall b, b ∈ bound self -> name x = name b -> b = b').
    { intros b0 Hb0 Hn. apply list_elem_of_lookup_1 in Hb0 as (i & Hi). apply list_elem_of_lookup_1 in Hin as (j & Hj).
      assert (i = j) as ->; [|congruence]. eapply (NoDup_lookup (name <$> bound self) i j (name b0)); [done|by rewrite list_lookup_fmap, Hi|].
      rewrite list_lookup_fmap, Hj. cbn. congruence. }
    destruct (ii_ispeer x (ii_protocol b')) eqn:Ep.
    + rewrite list_elem_of_singleton. split; [intros ->; done|]. intros (? & ? & _). by apply Hu.
    + split; [by intros ?%not_elem_of_nil|]. intros (Hb & Hn & Hp). rewrite (Hu b Hb Hn) in Hp. congruence.
  - split; [by intros ?%not_elem_of_nil|]. intros (Hb & Hn & _). apply List.find_none with (x := b) in E; [|by apply list_elem_of_In].
    apply same_addr_name in Hn. congruence.
Qed.

Lemma connect_calls_short self x : (length (connect_calls self x) <= 1)%nat.
Proof. unfold connect_calls. destruct (List.find _ _); [destruct (ii_ispeer _ _)|]; cbn; lia. Qed.

Lemma bind_calls_spec self x c : c ∈ bind_calls self x <-> c ∈ connected self /\ matches x c.
Proof. unfold bind_calls, matches. rewrite list_elem_of_filter, same_addr_name. tauto. Qed.

Lemma filter_ids_sub (i : positive) (l : list nn_ins_item) : filter (fun x => ii_id x <> i) l ⊆ l.
Proof. intros x. by rewrite list_elem_of_filter; intros [_ ?]. Qed.

Lemma NoDup_fmap_filter {B} (f : nn_ins_item -> B) (i : positive) (l : list nn_ins_item) : NoDup (f <$> l) -> NoDup (f <$> filter (fun x => ii_id x <> i) l).
Proof.
  induction l as [|x l IH]; [done|]. rewrite fmap_cons. intros [Hx Hl]%NoDup_cons. rewrite filter_cons. destruct (decide _); [|by apply IH].
  rewrite fmap_cons. apply NoDup_cons. split; [|by apply IH]. intros Hin. apply Hx. apply list_elem_of_fmap in Hin as (y & -> & Hy%filter_ids_sub). by apply list_elem_of_fmap_2.
Qed.

Lemma used_cons i used l : Forall (fun x => ii_id x ∈ used) l -> Forall (fun x => ii_id x ∈ i :: used) l.
Proof. intros Hl. eapply Forall_impl; [exact Hl|]. intros x. apply list_elem_of_further. Qed.

Lemma pairs_used_cons i used (ps : list (nn_ins_item * nn_ins_item)) :
  Forall (fun p => ii_id p.1 ∈ used /\ ii_id p.2 ∈ used) ps -> Forall (fun p => ii_id p.1 ∈ i :: used /\ ii_id p.2 ∈ i :: used) ps.
Proof. intros Hl. eapply Forall_impl; [exact Hl|]. intros x []. split; by apply list_elem_of_further. Qed.

Section Registry.
  Context (all : list nn_ins_item) (Hsym : forall x y, x ∈ all -> y ∈ all -> ii_ispeer x (ii_protocol y) = ii_ispeer y (ii_protocol x)).

Lemma ins_step_ok self used ps o : registry all used self ps -> op_ok self used o -> match op_item o with Some x => x ∈ all | None => True end ->
  exists self' rc new, ins_step self o = Ok (self', rc, new) /\
    registry all (match op_item o with Some x => ii_id x :: used | None => used end) self' (ps ++ new).
Proof.
  intros [Hall Hused Hpu Hnames Hids Honce Hmatch Hcomp] Hok Hx. destruct o as [x|x|i|i]; cbn [ins_step op_ok op_item] in *.
  - unfold nn_ins_bind. destruct (existsb (same_addr x) (bound self)) eqn:Ee.
    { eexists _, _, []. split; [reflexivity|]. rewrite app_nil_r. constructor; try done.
      - by apply used_cons.
      - by apply pairs_used_cons. }
    eexists _, _, _. split; [reflexivity|]. apply not_true_iff_false in Ee. rewrite existsb_name in Ee.
    assert (Hnew : forall c, c ∈ connected self -> ii_id c ∈ used) by (intros c Hc; rewrite Forall_forall in Hused; apply Hused; set_solver).
    constructor; cbn [bound connected].
    + rewrite Forall_app in Hall. rewrite !Forall_app, Forall_singleton. naive_solver.
    + rewrite Forall_app in Hused. rewrite !Forall_app, Forall_singleton. destruct Hused as [H1 H2]. split; [split; [by apply used_cons|apply list_elem_of_here]|by apply used_cons].
    + apply Forall_app. split; [by apply pairs_used_cons|]. apply Forall_forall. intros p (c & -> & Hc)%list_elem_of_fmap.
      apply bind_calls_spec in Hc as [Hc _]. cbn. set_solver.
    + rewrite fmap_app. apply NoDup_app. split; [done|]. split; [|apply NoDup_singleton]. set_solver.
    + rewrite fmap_app in *. cbn [fmap list_fmap]. rewrite fmap_app. cbn [fmap list_fmap]. rewrite <- app_assoc. apply NoDup_app in Hids as (H1 & H2 & H3).
      apply NoDup_app. rewrite !Forall_app in Hused. destruct Hused as [U1 U2]. rewrite Forall_forall in U1, U2.
      split; [done|]. split.
      * intros j Hj. cbn. intros [->|Hj']%elem_of_cons; [|by apply (H2 j)]. apply list_elem_of_fmap in Hj as (y & E & Hy). apply Hok. rewrite E. by apply U1.
      * apply NoDup_cons. split; [|done]. intros (y & E & Hy)%list_elem_of_fmap. apply Hok. rewrite E. by apply U2.
    + rewrite fmap_app. apply NoDup_app. split; [done|]. split.
      * intros p (q & -> & Hq)%list_elem_of_fmap (c & E & Hc)%list_elem_of_fmap. apply list_elem_of_fmap in Hc as (c' & -> & Hc). rewrite Forall_forall in Hpu.
        destruct (Hpu q Hq) as [Hq1 _]. unfold pair_ids in E. injection E as E1 E2. congruence.
      * rewrite <- list_fmap_compose. rewrite fmap_app in Hids. apply NoDup_app in Hids as (_ & _ & H3).
        unfold bind_calls. clear -H3. induction (connected self) as [|y l IH]; [constructor|]. rewrite fmap_cons in H3. apply NoDup_cons in H3 as [Hy H3].
        rewrite filter_cons. destruct (decide _); [|by apply IH]. rewrite fmap_cons. apply NoDup_cons. split; [|by apply IH].
        intros (z & E & Hz)%list_elem_of_fmap. apply list_elem_of_filter in Hz as [_ Hz]. apply Hy. unfold pair_ids in E. cbn in E. injection E as E. rewrite E. by apply list_elem_of_fmap_2.
    + apply Forall_app. split; [done|]. apply Forall_forall. intros p (c & -> & Hc)%list_elem_of_fmap. by apply bind_calls_spec in Hc as [_ ?].
    + intros b c Hb Hc Hm. apply elem_of_app. apply elem_of_app in Hb as [Hb|Hb]; [left; by apply Hcomp|]. apply list_elem_of_singleton in Hb as ->.
      right. apply list_elem_of_fmap. exists c. split; [done|]. by apply bind_calls_spec.
  - eexists _, _, _. split; [reflexivity|].
    assert (Hb' : forall b, b ∈ bound self -> b ∈ all /\ ii_id b ∈ used).
    { intros b Hb. rewrite Forall_forall in Hall, Hused. split; [apply Hall|apply Hused]; set_solver. }
    assert (Hcalls : forall b, b ∈ connect_calls self x <-> b ∈ bound self /\ matches b x).
    { intros b. rewrite connect_calls_spec by done. unfold matches. split; intros (Hb & Hn & Hp); (split; [done|]); (split; [done|]).
      - rewrite Hsym; [done|by apply Hb'|done].
      - rewrite Hsym; [done|done|by apply Hb']. }
    constructor; cbn [bound connected].
    + rewrite Forall_app in Hall. rewrite !Forall_app, Forall_singleton. naive_solver.
    + rewrite Forall_app in Hused. rewrite !Forall_app, Forall_singleton. destruct Hused as [H1 H2]. split; [by apply used_cons|split; [by apply used_cons|apply list_elem_of_here]].
    + apply Forall_app. split; [by apply pairs_used_cons|]. apply Forall_forall. intros p (b & -> & Hb)%list_elem_of_fmap.
      apply Hcalls in Hb as [Hb _]. cbn. destruct (Hb' b Hb). set_solver.
    + done.
    + rewrite !fmap_app in *. cbn [fmap list_fmap]. rewrite app_assoc. apply NoDup_app. split; [done|]. split; [|apply NoDup_singleton].
      intros j Hj ->%list_elem_of_singleton. apply Hok. rewrite <- fmap_app in Hj. apply list_elem_of_fmap in Hj as (y & E & Hy). rewrite Forall_forall in Hused. rewrite E. by apply Hused.
    + rewrite fmap_app. apply NoDup_app. split; [done|]. split.
      * intros p (q & -> & Hq)%list_elem_of_fmap (c & E & Hc)%list_elem_of_fmap. apply list_elem_of_fmap in Hc as (c' & -> & Hc). rewrite Forall_forall in Hpu.
        destruct (Hpu q Hq) as [_ Hq2]. unfold pair_ids in E. injection E as E1 E2. congruence.
      * pose proof (connect_calls_short self x) as Hlen. destruct (connect_calls self x) as [|b [|? ?]]; [constructor|apply NoDup_singleton|cbn in Hlen; lia].
    + apply Forall_app. split; [done|]. apply Forall_forall. intros p (b & -> & Hb)%list_elem_of_fmap. by apply Hcalls in Hb as [_ ?].
    + intros b c Hb Hc Hm. apply elem_of_app. apply elem_of_app in Hc as [Hc|Hc]; [left; by apply Hcomp|]. apply list_elem_of_singleton in Hc as ->.
      right. apply list_elem_of_fmap. exists b. split; [done|]. by apply Hcalls.
  - unfold nn_ins_unbind, erase_item. rewrite bool_decide_eq_true_2 by done. mred. eexists _, _, []. split; [reflexivity|]. rewrite app_nil_r.
    constructor; cbn [bound connected]; try done.
    + rewrite Forall_app in *. split; [|naive_solver]. apply Forall_forall. intros y Hy%filter_ids_sub. rewrite !Forall_forall in Hall. naive_solver.
    + rewrite Forall_app in *. split; [|naive_solver]. apply Forall_forall. intros y Hy%filter_ids_sub. rewrite !Forall_forall in Hused. naive_solver.
    + by apply NoDup_fmap_filter.
    + rewrite fmap_app in *. apply NoDup_app in Hids as (H1 & H2 & H3). apply NoDup_app. split; [by apply NoDup_fmap_filter|]. split; [|done].
      intros j (y & -> & Hy%filter_ids_sub)%list_elem_of_fmap. apply H2. by apply list_elem_of_fmap_2.
    + intros b c Hb%filter_ids_sub. by apply Hcomp.
  - unfold nn_ins_disconnect, erase_item. rewrite bool_decide_eq_true_2 by done. mred. eexists _, _, []. split; [reflexivity|]. rewrite app_nil_r.
    constructor; cbn [bound connected]; try done.
    + rewrite Forall_app in *. split; [naive_solver|]. apply Forall_forall. intros y Hy%filter_ids_sub. rewrite !Forall_forall in Hall. naive_solver.
    + rewrite Forall_app in *. split; [naive_solver|]. apply Forall_forall. intros y Hy%filter_ids_sub. rewrite !Forall_forall in Hused. naive_solver.
    + rewrite fmap_app in *. apply NoDup_app in Hids as (H1 & H2 & H3). apply NoDup_app. split; [done|]. split; [|by apply NoDup_fmap_filter].
      intros j Hj (y & -> & Hy%filter_ids_sub)%list_elem_of_fmap. apply (H2 (ii_id y)); [done|]. by apply list_elem_of_fmap_2.
    + intros b c Hb Hc%filter_ids_sub. by apply Hcomp.
Qed.

Lemma ins_run_ok os : forall self used ps, registry all used self ps -> legal self used os -> Forall (fun x => x ∈ all) (items os) ->
  exists self' rcs new used', ins_run self os = Ok (self', rcs, new) /\ registry all used' self' (ps ++ new).
Proof.
  induction os as [|o os IH]; intros self used ps Hr Hl Hall; cbn [ins_run].
  { eexists _, _, _, used. split; [reflexivity|]. by rewrite app_nil_r. }
  destruct Hl as [Hok Hl]. unfold items in Hall. cbn [omap list_omap] in Hall.
  destruct (ins_step_ok self used ps o Hr Hok) as (self' & rc & new & E & Hr').
  { destruct (op_item o) as [x|]; [|done]. by apply Forall_cons in Hall as [Hx _]. }
  rewrite E in Hl |- *. mred. destruct (IH self' _ (ps ++ new) Hr' Hl) as (self'' & rcs & new' & used' & E' & Hr'').
  { destruct (op_item o); [by apply Forall_cons in Hall as [_ ?]|done]. }
  rewrite E'. mred. eexists _, _, _, used'. split; [reflexivity|]. by rewrite app_assoc.
Qed.
End Registry.

(** C30. In-process endpoints come and go in any order: no assertion of the
    registry fails, no name is bound twice, no pair of endpoints is connected
    twice or without matching in name and protocol, and any two endpoints
    that match and are registered at the same time were connected. *)
Theorem nn_ins_connects (os : list ins_op)
  (Hsym : forall x y, x ∈ items os -> y ∈ items os -> ii_ispeer x (ii_protocol y) = ii_ispeer y (ii_protocol x)) :
  legal nn_ins_init [] os ->
  exists ins rcs ps, ins_run nn_ins_init os = Ok (ins, rcs, ps) /\
    NoDup (name <$> bound ins) /\ NoDup (pair_ids <$> ps) /\ Forall (fun p => matches p.1 p.2) ps /\
    forall b c, b ∈ bound ins -> c ∈ connected ins -> (b, c) ∈ ps <-> matches b c.
Proof.
  intros Hl. destruct (ins_run_ok (items os) Hsym os nn_ins_init [] []) as (ins & rcs & ps & used & E & []); [|done|by apply Forall_forall|].
  { constructor; cbn; try constructor; intros ? ? ?%not_elem_of_nil; done. }
  cbn [app] in *. exists ins, rcs, ps. do 4 (split; [done|]). intros b c Hb Hc. split; [|by apply rg_complete0].
  intros Hp. rewrite Forall_forall in rg_match0. by apply (rg_match0 (b, c)).
Qed.

Definition demo_item (i : positive) (a : Z) : nn_ins_item := InsItem i [a] 16 (Z.eqb 16).
Definition demo_ops : list ins_op :=
  [IConnect (demo_item 1 97); IBind (demo_item 2 97); IConnect (demo_item 3 97); IConnect (demo_item 4 98); IBind (demo_item 5 97); IUnbind 2; IBind (demo_item 6 98)].

Lemma nn_ins_connects_witness : exists ins ps, ins_run nn_ins_init demo_ops = Ok (ins, [0; 0; 0; 0; - EADDRINUSE; 0; 0], ps) /\
  pair_ids <$> ps = [(2, 1); (2, 3); (6, 4)]%positive /\ NoDup (name <$> bound ins).
Proof.
  destruct (nn_ins_connects demo_ops) as (ins & rcs & ps & E & Hn & _).
  - intros x y Hx Hy. assert (Hall : Forall (fun x => ii_protocol x = 16 /\ ii_ispeer x = Z.eqb 16) (items demo_ops)) by (repeat constructor).
    rewrite Forall_forall in Hall. destruct (Hall x Hx) as [Hx1 Hx2], (Hall y Hy) as [Hy1 Hy2]. by rewrite Hx1, Hx2, Hy1, Hy2.
  - apply (bool_decide_unpack _). vm_compute. exact I.
  - vm_compute in E. injection E as <- <- <-. eexists _, _. split; [reflexivity|]. split; [reflexivity|]. exact Hn.
Defined.

(** ** Races

    A connecting endpoint whose CONNECT is on its way while the bound one is
    stopped, with a session that is not stopped yet, aborts the process. *)
Lemma connect_while_stopping {W} `{Sinprocs W} ins (w : W) self i :
  bi_fsm self = NN_FSM_STATE_STOPPING -> bi_state self = NN_BINPROC_STATE_STOPPING ->
  binproc_feed ins w self NN_SINPROC_SRC_PEER NN_SINPROC_CONNECT i = Err AssertFailed.
Proof. intros Hf Hs. unfold binproc_feed, nn_binproc_shutdown. by rewrite Hf, Hs. Qed.

(** So does the endpoint that is connected still when the name is bound anew. *)
Lemma connect_while_connected {W} `{Sinprocs W} ins (w : W) self i :
  ci_fsm self = NN_FSM_STATE_ACTIVE -> ci_state self = NN_CINPROC_STATE_ACTIVE ->
  cinproc_feed ins w self NN_SINPROC_SRC_PEER NN_SINPROC_CONNECT i = Err AssertFailed.
Proof. intros Hf Hs. unfold cinproc_feed, nn_cinproc_handler. by rewrite Hf, Hs. Qed.
