(* ===== verification/Balance.v ===== *)
(** * Fair queueing and load balancing ([protocols/utils/fq.c], [lb.c])

    Both are a priority list of pipes: [fq] takes the next message from the
    list's current pipe, [lb] sends the next message to it, and the list
    moves on, dropping the pipe when the call released it.  The [priodata]
    items live in the objects their owners allocate per pipe; the model keeps
    them next to the list head. *)

From S2P Require Import Prelude NNList NNFamily Priolist Wire Pipe.
Local Open Scope Z_scope.

Section Balance.
  Context {St L T : Type} `{ListOps St L} `{Transport T}.
  Implicit Types (w : world T).

Record nn_lb := Lb { lb_items : pitems St; lb_priolist : nn_priolist L }.

Definition nn_lb_init (items : pitems St) : nn_lb := Lb items nn_priolist_init.
Definition nn_lb_term (self : nn_lb) : result unit := nn_priolist_term (lb_priolist self).
Definition nn_lb_add (self : nn_lb) (data pipe : addr) (priority : Z) : nn_lb :=
  Lb (nn_priolist_add (lb_items self) data pipe priority) (lb_priolist self).
Definition nn_lb_rm (self : nn_lb) (data : addr) : result nn_lb :=
  '(s, p) ← nn_priolist_rm (lb_items self) (lb_priolist self) data; Ok (Lb s p).
Definition nn_lb_out (self : nn_lb) (data : addr) : result nn_lb :=
  '(s, p) ← nn_priolist_activate (lb_items self) (lb_priolist self) data; Ok (Lb s p).
Definition nn_lb_can_send (self : nn_lb) : bool := nn_priolist_is_active (lb_priolist self).
Definition nn_lb_get_priority (self : nn_lb) : Z := nn_priolist_get_priority (lb_priolist self).

(** The pipe is also the value of the [to] parameter. *)
Definition nn_lb_send (self : nn_lb) w (msg : nn_msg) : result (nn_lb * world T * Z * option addr) :=
  pipe ← nn_priolist_getpipe (lb_items self) (lb_priolist self);
  match pipe with
  | None => Ok (self, w, - EAGAIN, None)
  | Some pipe =>
      '(w, rc) ← nn_pipe_send w pipe msg;
      _ ← assert_ (bool_decide (0 <= rc));
      '(s, p) ← nn_priolist_advance (lb_items self) (lb_priolist self) (released rc);
      Ok (Lb s p, w, without_release rc, Some pipe)
  end.

Record nn_fq := Fq { fq_items : pitems St; fq_priolist : nn_priolist L }.

Definition nn_fq_init (items : pitems St) : nn_fq := Fq items nn_priolist_init.
Definition nn_fq_term (self : nn_fq) : result unit := nn_priolist_term (fq_priolist self).
Definition nn_fq_add (self : nn_fq) (data pipe : addr) (priority : Z) : nn_fq :=
  Fq (nn_priolist_add (fq_items self) data pipe priority) (fq_priolist self).
Definition nn_fq_rm (self : nn_fq) (data : addr) : result nn_fq :=
  '(s, p) ← nn_priolist_rm (fq_items self) (fq_priolist self) data; Ok (Fq s p).
Definition nn_fq_in (self : nn_fq) (data : addr) : result nn_fq :=
  '(s, p) ← nn_priolist_activate (fq_items self) (fq_priolist self) data; Ok (Fq s p).
Definition nn_fq_can_recv (self : nn_fq) : bool := nn_priolist_is_active (fq_priolist self).

(** The received message and the pipe it came from, when there is one. *)
Definition nn_fq_recv (self : nn_fq) w : result (nn_fq * world T * Z * option (nn_msg * addr)) :=
  p ← nn_priolist_getpipe (fq_items self) (fq_priolist self);
  match p with
  | None => Ok (self, w, - EAGAIN, None)
  | Some p =>
      '(w, rc, msg) ← nn_pipe_recv w p;
      _ ← assert_ (bool_decide (0 <= rc));
      '(s, l) ← nn_priolist_advance (fq_items self) (fq_priolist self) (released rc);
      Ok (Fq s l, w, without_release rc, Some (msg, p))
  end.

End Balance.
Arguments nn_lb : clear implicits.
Arguments nn_fq : clear implicits.

(** ** Specification

    [a] is the abstract priority list; [ready] says which pipes may be used.
    The pipes on the list are ready, and no pipe is there twice. *)
Section BalanceSpec.
  Context {St L T : Type} `{ListSpec St L} `{TransportSpec T}.
  Implicit Types (w : world T) (a : aprio) (ready : addr -> Prop).

Record balanced ready (s : pitems St) (p : nn_priolist L) a : Prop := {
  bal_sim : prio_sim s p a;
  bal_ready x d : x ∈ active (a_slots a) -> a_data a !! x = Some d -> ready (pd_pipe d);
  bal_inj x y d e : x ∈ active (a_slots a) -> y ∈ active (a_slots a) ->
    a_data a !! x = Some d -> a_data a !! y = Some e -> pd_pipe d = pd_pipe e -> x = y
}.

Lemma active_alter (f : zslot -> zslot) i abs x :
  (forall z, x ∈ zlist (f z) -> x ∈ zlist z) -> x ∈ active (alter f i abs) -> x ∈ active abs.
Proof.
  intros Hf. rewrite !active_elem. intros (j & z & Hj & Hx). destruct (decide (i = j)) as [<-|Hij].
  - rewrite list_lookup_alter_eq in Hj. destruct (abs !! i) as [y|] eqn:E; [|done].
    injection Hj as <-. eauto.
  - rewrite list_lookup_alter_ne in Hj by done. eauto.
Qed.

Lemma z_advance_sub z release x : x ∈ zlist (z_advance z release) -> x ∈ zlist z.
Proof.
  destruct z as [pre [|c suf]]; [done|]. cbn [z_advance snd fst]. rewrite zlist_norm.
  unfold zlist; cbn. destruct release; set_solver.
Qed.

Lemma z_remove_sub z y x : x ∈ zlist (z_remove z y) -> x ∈ zlist z.
Proof.
  unfold z_remove. destruct z as [pre suf]. case_decide; [rewrite zlist_norm|]; unfold zlist; cbn.
  - destruct suf; set_solver.
  - rewrite <- filter_app. by intros [_ ?]%list_elem_of_filter.
Qed.

Lemma z_activate_sub z y x : x ∈ zlist (z_activate z y) -> x = y \/ x ∈ zlist z.
Proof. unfold zlist, z_activate; cbn. set_solver. Qed.

Lemma sim_idle_inactive s p a x : prio_sim s p a -> x ∈ a_idle a -> x ∉ active (a_slots a).
Proof.
  intros (Hr & _ & Hi) Hx. eapply free_not_concat; [apply (pr_fam _ _ _ Hr)|by apply Hi].
Qed.

Lemma balanced_mono ready ready' s p a :
  (forall x d, x ∈ active (a_slots a) -> a_data a !! x = Some d -> ready (pd_pipe d) -> ready' (pd_pipe d)) ->
  balanced ready s p a -> balanced ready' s p a.
Proof. intros Hr [Hs Hd Hi]. split; [done| |done]. intros x d Hx Hxd. eapply Hr; eauto. Qed.

(** One use of the current pipe, which stays ready unless it was released. *)
Lemma balanced_advance ready ready' s p a x d release a' :
  balanced ready s p a -> next_up (a_slots a) = Some x -> a_data a !! x = Some d ->
  aprio_step a (PAdvance release) = Some a' ->
  (forall q, q <> pd_pipe d -> ready q -> ready' q) -> (release = false -> ready' (pd_pipe d)) ->
  exists s' p', nn_priolist_advance s p release = Ok (s', p') /\ balanced ready' s' p' a'.
Proof.
  intros [Hs Hd Hi] Hn Hx Ha Hr1 Hr2.
  destruct (prio_step_sim s p a (PAdvance release) a' Hs Ha) as (s' & p' & E & Hs').
  exists s', p'. split; [done|]. cbn in Ha. rewrite Hn in Ha. cbn in Ha. rewrite Hx in Ha. cbn in Ha.
  injection Ha as <-. cbn in *.
  assert (Hsub : forall y, y ∈ active (alter (fun z => z_advance z release) (prio_index d) (a_slots a)) ->
            y ∈ active (a_slots a)).
  { intros y. apply active_alter. intros z. apply z_advance_sub. }
  assert (Hxa : x ∈ active (a_slots a)).
  { destruct (next_up_first _ _ Hn) as (i & pre & suf & (Hz & _)). apply active_elem.
    eexists _, _. split; [exact Hz|]. unfold zlist. set_solver. }
  split; [done| |]; cbn.
  - intros y e Hy He. destruct (decide (pd_pipe e = pd_pipe d)) as [E2|Hne].
    + assert (y = x) as -> by (eapply Hi; eauto). simplify_eq. rewrite <- ?E2 in *.
      destruct release; [|by apply Hr2]. exfalso.
      eapply (sim_idle_inactive _ _ _ x Hs'); [set_solver|done].
    + apply Hr1; [done|]. by eapply Hd; [apply Hsub|].
  - intros y z e f Hy Hz. apply Hi; auto.
Qed.

Lemma balanced_out ready s p a :
  balanced ready s p a ->
  match aprio_out a with
  | (None, _) => nn_priolist_getpipe s p = Ok None /\ nn_priolist_is_active p = false
      /\ active (a_slots a) = [] /\ next_up (a_slots a) = None
  | (Some q, prio) => nn_priolist_getpipe s p = Ok (Some q) /\ nn_priolist_is_active p = true /\ ready q
      /\ (exists x d, x ∈ active (a_slots a) /\ next_up (a_slots a) = Some x /\ a_data a !! x = Some d
            /\ pd_pipe d = q /\ pd_priority d = prio
            /\ (forall y e, y ∈ active (a_slots a) -> a_data a !! y = Some e -> prio <= pd_priority e))
  end.
Proof.
  intros [(Hr & Hd & Hid) Hrd Hi]. pose proof (nn_priolist_getpipe_ok s p _ Hr) as Hg. rewrite Hd in *.
  rewrite (nn_priolist_is_active_ok s p _ Hr).
  unfold aprio_out. destruct (next_up (a_slots a)) as [x|]; cbn.
  - destruct Hg as (d & Hg & Hx & Hxa & Hp & Hmin). rewrite Hx. cbn. split; [done|].
    split; [apply bool_decide_eq_true; intros E; rewrite E in Hxa; set_solver|].
    split; [eapply Hrd; eauto|]. exists x, d. repeat (split; [done|]). by rewrite <- Hp.
  - destruct Hg as [Hg He]. rewrite He. done.
Qed.

(** ** A priority list that tracks the pipes of a socket

    [off q]: pipe [q] was offered to the protocol and not released yet.  Each
    pipe of the socket has its item, which its [data] field leads to; the item
    is on the list exactly while the pipe is offered, with the priority its
    option [pof] says. *)
Section Tracks.
  Context (pof : nn_ep_options -> Z).

Record tracks (off : addr -> Prop) (pipes : gmap addr nn_pipebase) (s : pitems St) (p : nn_priolist L) a : Prop := {
  tr_bal : balanced off s p a;
  tr_pipes q pb : pipes !! q = Some pb -> exists x d, pb_data pb = Some x /\ a_data a !! x = Some d
    /\ pd_pipe d = q /\ (1 <= pd_priority d <= 16 /\ pd_priority d = pof (pb_options pb))
    /\ ((x ∈ active (a_slots a) /\ off q) \/ (x ∈ a_idle a /\ ~ off q));
  tr_owner x d : x ∈ active (a_slots a) -> a_data a !! x = Some d ->
    exists pb, pipes !! pd_pipe d = Some pb /\ pb_data pb = Some x
}.

Lemma tracks_init off s : tracks off ∅ (PItems s ∅) nn_priolist_init aprio_init.
Proof.
  assert (Hn : forall x, x ∉ active (a_slots aprio_init)) by (intros x; cbn; set_solver).
  split; [split; [apply prio_sim_init| |]|done|]; intros; by exfalso; eapply Hn.
Qed.

Lemma tracks_ext off off' pipes pipes' s p a :
  (forall q, off q <-> off' q) ->
  (forall q, (fun pb => (pb_data pb, pb_options pb)) <$> pipes !! q
             = (fun pb => (pb_data pb, pb_options pb)) <$> pipes' !! q) ->
  tracks off pipes s p a -> tracks off' pipes' s p a.
Proof.
  intros Ho Hp [Hb Hq Hw]. split.
  - apply (balanced_mono off); [|exact Hb]. intros x d _ _. apply Ho.
  - intros q pb Hpb. specialize (Hp q). rewrite Hpb in Hp.
    destruct (pipes !! q) as [pb0|] eqn:E; [|done]. cbn in Hp. injection Hp as Hp1 Hp2.
    destruct (Hq q pb0 E) as (x & d & ?). exists x, d. by rewrite <- Hp1, <- Hp2, <- Ho.
  - intros x d Hx Hd. destruct (Hw x d Hx Hd) as (pb & Hpb & Hpd). specialize (Hp (pd_pipe d)).
    rewrite Hpb in Hp. destruct (pipes' !! pd_pipe d) as [pb'|]; [|done]. cbn in Hp. injection Hp as Hp _.
    exists pb'. by rewrite <- Hp.
Qed.

Lemma tracks_add off pipes s p a q x pr pb :
  tracks off pipes s p a -> pipes !! q = None -> pi_data s !! x = None -> ~ off q ->
  1 <= pr <= 16 -> pr = pof (pb_options pb) -> pb_data pb = Some x ->
  exists a', tracks off (<[q := pb]> pipes) (nn_priolist_add s x q pr) p a'.
Proof.
  intros [[Hs Hr Hi] Hq Hw] Hnq Hx Hoff Hpr Hpof Hpb. pose proof Hs as (Hrep & Hd & _).
  assert (Hxa : x ∉ active (a_slots a)).
  { intros (i & z & Hz & Hxz)%active_elem. destruct (pr_own _ _ _ Hrep i z x Hz Hxz) as (d & E & _). congruence. }
  set (a' := APrio (a_slots a) (<[x := PData q pr]> (a_data a)) (x :: a_idle a)).
  assert (Ha : aprio_step a (PAdd x q pr) = Some a') by (cbn; by rewrite option_guard_True).
  destruct (prio_step_sim _ _ _ _ _ Hs Ha) as (s' & p' & E & Hs'). injection E as <- <-.
  exists a'. split; [split; [done| |]| |]; cbn.
  - intros y d Hy. rewrite lookup_insert_ne by (intros <-; done). by apply Hr.
  - intros y z d e Hy Hz. rewrite !lookup_insert_ne by (intros <-; done). by apply Hi.
  - intros q' pb' [[<- <-]|[Hne Hq']]%lookup_insert_Some.
    + exists x, (PData q pr). rewrite lookup_insert_eq. repeat (split; [done|]). right. set_solver.
    + destruct (Hq q' pb' Hq') as (y & d & ? & ? & ? & ? & ?). exists y, d.
      rewrite lookup_insert_ne by (intros <-; congruence). set_solver.
  - intros y d Hy. rewrite lookup_insert_ne by (intros <-; done). intros Hyd.
    destruct (Hw y d Hy Hyd) as (pb' & ? & ?). exists pb'. rewrite lookup_insert_ne; [done|]. intros ->. congruence.
Qed.

Lemma tracks_activate off off' pipes s p a q pb x :
  tracks off pipes s p a -> pipes !! q = Some pb -> pb_data pb = Some x -> ~ off q -> off' q ->
  (forall r, r <> q -> off r <-> off' r) ->
  exists s' p' a', nn_priolist_activate s p x = Ok (s', p') /\ tracks off' pipes s' p' a' /\ pi_data s' = pi_data s.
Proof.
  intros [[Hs Hr Hi] Hq Hw] Hpb Hx Hno Hyes Hoff.
  destruct (Hq q pb Hpb) as (x0 & d & Hx0 & Hd & Hdq & [Hpr _] & [[_ ?]|[Hxi _]]); [done|].
  assert (x0 = x) as -> by congruence.
  set (a' := APrio (alter (fun z => z_activate z x) (prio_index d) (a_slots a)) (a_data a)
               (filter (fun y => y <> x) (a_idle a))).
  assert (Ha : aprio_step a (PActivate x) = Some a').
  { cbn. rewrite option_guard_True by done. cbn. rewrite Hd. cbn. by rewrite option_guard_True. }
  destruct (prio_step_sim _ _ _ _ _ Hs Ha) as (s' & p' & E & Hs'). exists s', p', a'. split; [done|].
  pose proof (sim_idle_inactive _ _ _ _ Hs Hxi) as Hxa.
  assert (Hact : forall y, y ∈ active (a_slots a') <-> y = x \/ y ∈ active (a_slots a)).
  { intros y. unfold a'. cbn [a_slots]. rewrite !active_elem. pose proof (pr_len _ _ _ (proj1 Hs)) as Hlen.
    destruct (lookup_lt_is_Some_2 (a_slots a) (prio_index d)) as [z0 Hz0]; [unfold prio_index; lia|].
    rewrite (alter_slot _ _ _ _ Hz0). pose proof (lookup_lt_Some _ _ _ Hz0). split.
    - intros (i & z & [(<- & <- & _)|[Hne Hz]]%list_lookup_insert_Some & Hy); [|eauto].
      apply z_activate_sub in Hy as [?|?]; eauto.
    - intros [->|(i & z & Hz & Hy)].
      + exists (prio_index d), (z_activate z0 x). rewrite list_lookup_insert_eq by done.
        split; [done|]. unfold zlist, z_activate; cbn; set_solver.
      + destruct (decide (prio_index d = i)) as [<-|Hne].
        * exists (prio_index d), (z_activate z0 x). rewrite list_lookup_insert_eq by done.
          split; [done|]. unfold zlist, z_activate in *; cbn. simplify_eq. set_solver.
        * exists i, z. by rewrite list_lookup_insert_ne. }
  assert (Hpipe : forall y e, y ∈ active (a_slots a) -> a_data a !! y = Some e -> pd_pipe e <> q).
  { intros y e Hy He Heq. destruct (Hw y e Hy He) as (pb' & Hpb' & Hy'). rewrite Heq in Hpb'. congruence. }
  split; [|destruct Hs as (_ & -> & _); by destruct Hs' as (_ & -> & _)].
  split; [split; [done| |]| |]; cbn [a_data a_idle a'].
  - intros y e [->|Hy]%Hact He; [simplify_eq; done|]. apply Hoff; [by eapply Hpipe|]. by eapply Hr.
  - intros y z e f [->|Hy]%Hact [->|Hz]%Hact He Hf Hef; [done|..|by eapply Hi].
    + exfalso. apply (Hpipe z f Hz Hf). congruence.
    + exfalso. apply (Hpipe y e Hy He). congruence.
  - intros r pb' Hr'. destruct (Hq r pb' Hr') as (y & e & Hy & He & Her & Hep & Hcase). exists y, e.
    repeat (split; [done|]). rewrite Hact. destruct (decide (r = q)) as [->|Hne].
    + left. assert (y = x) as -> by congruence. auto.
    + assert (y <> x) by (intros ->; congruence). rewrite list_elem_of_filter. rewrite <- Hoff by done. tauto.
  - intros y e [->|Hy]%Hact He; [simplify_eq; eauto|by apply Hw].
Qed.

Lemma tracks_rm off off' pipes s p a q pb x :
  tracks off pipes s p a -> pipes !! q = Some pb -> pb_data pb = Some x ->
  (forall r, r <> q -> off r <-> off' r) ->
  exists s' p' a', nn_priolist_rm s p x = Ok (s', p') /\ tracks off' (delete q pipes) s' p' a' /\ pi_data s' = pi_data s.
Proof.
  intros [[Hs Hr Hi] Hq Hw] Hpb Hx Hoff.
  destruct (Hq q pb Hpb) as (x0 & d & Hx0 & Hd & Hdq & Hpr & Hcase).
  assert (x0 = x) as -> by congruence.
  assert (Hpipe : forall y e, y ∈ active (a_slots a) -> y <> x -> a_data a !! y = Some e -> pd_pipe e <> q).
  { intros y e Hy Hne He Heq. destruct (Hw y e Hy He) as (pb' & Hpb' & Hy'). rewrite Heq in Hpb'. congruence. }
  assert (Hstep : exists a', aprio_step a (PRm x) = Some a' /\ a_data a' = a_data a
    /\ (forall y, y ∈ active (a_slots a') <-> y <> x /\ y ∈ active (a_slots a))
    /\ (forall y, y <> x -> y ∈ a_idle a' <-> y ∈ a_idle a)).
  { cbn [aprio_step]. destruct Hcase as [[Hxa _]|[Hxi _]].
    - rewrite decide_True by done. rewrite Hd. cbn [mbind option_bind]. eexists. split; [done|].
      cbn [a_data a_slots a_idle]. split; [done|]. split; [|set_solver].
      pose proof Hxa as (i & z & Hz & Hxz)%active_elem. pose proof Hs as (Hrep & Hdata & _).
      assert (prio_index d = i) as -> by (eapply prio_index_own; [exact Hrep|exact Hz|exact Hxz|congruence]).
      assert (Ha : aprio_step a (PRm x) = Some (APrio (alter (fun z => z_remove z x) i (a_slots a)) (a_data a) (x :: a_idle a))).
      { cbn [aprio_step]. rewrite decide_True by done. rewrite Hd. cbn [mbind option_bind].
        by rewrite (prio_index_own _ _ _ i z x d Hrep Hz Hxz) by congruence. }
      destruct (prio_step_sim _ _ _ _ _ Hs Ha) as (s' & p' & _ & Hs').
      assert (Hxn : x ∉ active (alter (fun z => z_remove z x) i (a_slots a))).
      { apply (sim_idle_inactive _ _ _ x Hs'). cbn. set_solver. }
      intros y. split.
      + intros Hy. split; [intros ->; done|]. revert Hy. apply active_alter. intros ?. apply z_remove_sub.
      + intros [Hne (j & w & Hj & Hy)%active_elem]. apply active_elem. rewrite (alter_slot _ _ _ _ Hz).
        destruct (decide (i = j)) as [<-|Hij]; [|exists j, w; by rewrite list_lookup_insert_ne].
        exists i, (z_remove z x). rewrite list_lookup_insert_eq by (by eapply lookup_lt_Some). split; [done|].
        assert (z = w) as -> by congruence. unfold z_remove. destruct w as [pre suf]. case_decide as Hh.
        * rewrite zlist_norm. unfold zlist in *; cbn in *. destruct suf; cbn in *; simplify_eq. set_solver.
        * unfold zlist in *; cbn in *. rewrite <- filter_app. by apply list_elem_of_filter.
    - pose proof (sim_idle_inactive _ _ _ _ Hs Hxi). rewrite decide_False by done.
      rewrite option_guard_True by done. exists a. set_solver. }
  destruct Hstep as (a' & Ha & Hda & Hact & Hidle).
  destruct (prio_step_sim _ _ _ _ _ Hs Ha) as (s' & p' & E & Hs'). exists s', p', a'. split; [done|].
  split; [|destruct Hs as (_ & -> & _); by destruct Hs' as (_ & -> & _)].
  split; [split; [done| |]| |]; rewrite ?Hda.
  - intros y e [Hne Hy]%Hact He. apply Hoff; [by eapply Hpipe|]. by eapply Hr.
  - intros y z e f [_ Hy]%Hact [_ Hz]%Hact. by apply Hi.
  - intros r pb' [Hne Hr']%lookup_delete_Some. destruct (Hq r pb' Hr') as (y & e & Hy & He & Her & Hep & Hcase').
    exists y, e. repeat (split; [done|]). assert (y <> x) by (intros ->; congruence).
    rewrite Hact, Hidle, <- Hoff by done. tauto.
  - intros y e [Hne Hy]%Hact He. destruct (Hw y e Hy He) as (pb' & Hpb' & ?). exists pb'.
    rewrite lookup_delete_ne; [done|]. intros Heq. by apply (Hpipe y e).
Qed.

(** One use of the current pipe. *)
Lemma tracks_use off off' pipes s p a q prio release :
  tracks off pipes s p a -> aprio_out a = (Some q, prio) ->
  (forall r, r <> q -> off r <-> off' r) -> (off' q <-> release = false) ->
  exists s' p' a', nn_priolist_advance s p release = Ok (s', p') /\ tracks off' pipes s' p' a'
    /\ aprio_step a (PAdvance release) = Some a' /\ pi_data s' = pi_data s.
Proof.
  intros [Hb Hq Hw] Ho Hoff Hoffq. pose proof (balanced_out _ _ _ _ Hb) as Hout. rewrite Ho in Hout.
  destruct Hout as (_ & _ & Hrdy & x & d & Hxa & Hn & Hd & Hdq & _). pose proof Hb as [Hs Hr Hi].
  assert (Hpipe : forall y e, y ∈ active (a_slots a) -> y <> x -> a_data a !! y = Some e -> pd_pipe e <> q).
  { intros y e Hy Hne He Heq. apply Hne. eapply Hi; eauto. congruence. }
  set (a' := APrio (alter (fun z => z_advance z release) (prio_index d) (a_slots a)) (a_data a)
               (if release then x :: a_idle a else a_idle a)).
  assert (Ha : aprio_step a (PAdvance release) = Some a') by (cbn; rewrite Hn; cbn; by rewrite Hd).
  destruct (balanced_advance off off' s p a x d release a' Hb Hn Hd Ha) as (s' & p' & E & Hb');
    [intros r Hne; apply Hoff; congruence|by rewrite Hdq, Hoffq|].
  exists s', p', a'. split; [done|].
  assert (Hact : forall y, y ∈ active (a_slots a') <-> y ∈ active (a_slots a) /\ (y = x -> release = false)).
  { destruct (next_up_first _ _ Hn) as (i & pre & suf & (Hz & _)). pose proof Hs as (Hrep & Hdata & _).
    assert (Hxz : x ∈ zlist (pre, x :: suf)) by (unfold zlist; set_solver).
    assert (Hpi : prio_index d = i) by (eapply prio_index_own; [exact Hrep|exact Hz|exact Hxz|congruence]).
    intros y. unfold a'. cbn [a_slots]. rewrite Hpi. split.
    - intros Hy. split; [eapply active_alter; [|exact Hy]; intros z; apply z_advance_sub|].
      intros ->. destruct release; [|done]. exfalso.
      apply (sim_idle_inactive _ _ _ x (bal_sim _ _ _ _ Hb')); [set_solver|]. unfold a'. cbn [a_slots]. by rewrite Hpi.
    - intros [(j & w & Hj & Hy)%active_elem Hyx]. apply active_elem. rewrite (alter_slot _ _ _ _ Hz).
      destruct (decide (i = j)) as [<-|Hij]; [|exists j, w; by rewrite list_lookup_insert_ne].
      eexists i, _. rewrite list_lookup_insert_eq by (by eapply lookup_lt_Some). split; [done|].
      simplify_eq. cbn [z_advance snd fst]. rewrite zlist_norm. unfold zlist in *; cbn in *.
      destruct release; set_solver. }
  split; [|split; [done|destruct Hs as (_ & -> & _); by destruct Hb' as [(_ & -> & _) _ _]]].
  split; [done| |].
  - intros r pb Hr'. destruct (Hq r pb Hr') as (y & e & Hy & He & Her & Hep & Hcase). exists y, e.
    repeat (split; [done|]). rewrite Hact. destruct (decide (r = q)) as [->|Hne].
    + assert (y = x) as ->.
      { destruct (Hw x d Hxa Hd) as (pb' & Hpb' & ?). rewrite Hdq in Hpb'. congruence. }
      rewrite Hoffq. unfold a'. cbn. destruct release; [right; set_solver|left; auto].
    + assert (y <> x) by (intros ->; congruence). rewrite <- Hoff by done. unfold a'. cbn.
      destruct Hcase as [[? ?]|[? ?]]; [left; done|right]. split; [|done]. destruct release; set_solver.
  - intros y e [Hy _]%Hact He. by eapply Hw.
Qed.

(** The pipe in use: an offered one, and none offered comes before it. *)
Lemma tracks_out off pipes s p a :
  tracks off pipes s p a ->
  match (aprio_out a).1 with
  | None => forall q pb, pipes !! q = Some pb -> ~ off q
  | Some q => exists pb, pipes !! q = Some pb /\ off q
      /\ forall r pbr, pipes !! r = Some pbr -> off r -> pof (pb_options pb) <= pof (pb_options pbr)
  end.
Proof.
  intros [Hb Hq Hw]. pose proof (balanced_out _ _ _ _ Hb) as Ho.
  destruct (aprio_out a) as [[q|] prio]; cbn [fst].
  - destruct Ho as (_ & _ & Hoff & x & d & Hx & _ & Hd & <- & Hp & Hmin).
    destruct (Hw x d Hx Hd) as (pb & Hpb & Hpx). exists pb. split; [done|]. split; [done|].
    destruct (Hq _ pb Hpb) as (x' & d' & Hx' & Hd' & _ & [_ Hp'] & _).
    assert (d' = d) as -> by congruence. intros r pbr Hr Hoffr.
    destruct (Hq r pbr Hr) as (y & e & _ & He & _ & [_ <-] & [[Hy _]|[_ ?]]); [|done].
    rewrite <- Hp', Hp. by eapply Hmin.
  - destruct Ho as (_ & _ & Hnil & _). intros q pb Hpb Hoff.
    destruct (Hq q pb Hpb) as (x & d & _ & _ & _ & _ & [[Hx _]|[_ ?]]); [|done]. rewrite Hnil in Hx. set_solver.
Qed.
End Tracks.
End BalanceSpec.
