(* ===== verification/Members.v ===== *)
(** * Fair queues and load balancers as members of a socket

    Socket types keep an [nn_fq] for the pipes that can be read and an
    [nn_lb] for those that can be written.  The lemmas here say how each
    operation keeps such a member in step with the pipes of the socket; the
    protocols' proofs are assembled from them. *)

From S2P Require Import Prelude NNList NNFamily Priolist Wire Pipe Sock Balance.
Local Open Scope Z_scope.

(** [nn_alloc]: an address not in use. *)
Definition alloc {A} (m : gmap addr A) : addr := fresh (dom m).

Lemma alloc_fresh {A} (m : gmap addr A) : m !! alloc m = None.
Proof. apply not_elem_of_dom, is_fresh. Qed.

Section View.
  Context {T : Type}.
  Implicit Types (w : world T) (p : addr).

Lemma valid_priorities w options :
  room w options -> 1 <= opt_sndprio options <= 16 /\ 1 <= opt_rcvprio options <= 16.
Proof. intros [Hv _]. unfold valid_options in Hv. by rewrite andb_true_iff, !bool_decide_eq_true in Hv. Qed.

Lemma handled_refl w : world_ok w -> handled w w.
Proof. by constructor. Qed.

Lemma handled_trans w1 w2 w3 : handled w1 w2 -> handled w2 w3 -> handled w1 w3.
Proof. intros [] []. constructor; [done|congruence..]. Qed.

Lemma handled_stat w name v : name <> NN_STAT_CURRENT_CONNECTIONS -> world_ok w -> handled w (set_stat w name v).
Proof. intros Hn Hw. constructor; cbn; [by apply world_ok_stat|done|done|]. by decide_bools. Qed.

Lemma drop_pipe_ok w p : world_ok w -> (forall e, (p, e) ∉ w_events w) -> world_ok (drop_pipe w p).
Proof.
  intros [Hs He Hn Hsz] Hno. constructor; cbn; [| |done|].
  - intros q pb [_ Hq]%lookup_delete_Some. by eapply Hs.
  - intros q e Hqe. destruct (He q e Hqe) as (pb & Hpb & ?). exists pb. split; [|done].
    rewrite lookup_delete_ne; [done|]. intros ->. by eapply Hno.
  - etrans; [|exact Hsz]. apply inj_le. apply map_subseteq_size, delete_subseteq.
Qed.

(** Dropping a pipe without events leaves the other pipes' offers alone. *)
Lemma drop_off_out w p q : q <> p -> off_out w q <-> off_out (drop_pipe w p) q.
Proof. intros Hq. unfold off_out, drop_pipe; cbn. by rewrite lookup_delete_ne. Qed.
Lemma drop_off_in w p q : q <> p -> off_in w q <-> off_in (drop_pipe w p) q.
Proof. intros Hq. unfold off_in, drop_pipe; cbn. by rewrite lookup_delete_ne. Qed.
End View.

(** Fuel for the loops that receive until they find a message they want:
    every turn uses up a waiting message or a readable pipe. *)
Definition recv_fuel {T} `{Transport T} (w : world T) : nat :=
  Datatypes.S (tr_backlog (w_net w) + size (w_pipes w)).

Section Members.
  Context {St L T : Type} `{ListSpec St L} `{TransportSpec T}.
  Implicit Types (w : world T) (lb : nn_lb St L) (fq : nn_fq St L) (a : aprio) (p : addr).

Definition lb_tracks w lb : Prop := exists a, tracks opt_sndprio (off_out w) (w_pipes w) (lb_items lb) (lb_priolist lb) a.
Definition fq_tracks w fq : Prop := exists a, tracks opt_rcvprio (off_in w) (w_pipes w) (fq_items fq) (fq_priolist fq) a.

Lemma lb_tracks_view w w' lb :
  (forall q, (fun pb => (pb_data pb, pb_options pb)) <$> w_pipes w !! q
             = (fun pb => (pb_data pb, pb_options pb)) <$> w_pipes w' !! q) ->
  (forall q, off_out w q <-> off_out w' q) -> lb_tracks w lb -> lb_tracks w' lb.
Proof. intros Hd Ho [a Ha]. exists a. by eapply tracks_ext. Qed.

Lemma fq_tracks_view w w' fq :
  (forall q, (fun pb => (pb_data pb, pb_options pb)) <$> w_pipes w !! q
             = (fun pb => (pb_data pb, pb_options pb)) <$> w_pipes w' !! q) ->
  (forall q, off_in w q <-> off_in w' q) -> fq_tracks w fq -> fq_tracks w' fq.
Proof. intros Hd Ho [a Ha]. exists a. by eapply tracks_ext. Qed.

Lemma lb_tracks_init w s : w_pipes w = ∅ -> lb_tracks w (nn_lb_init (PItems s ∅)).
Proof. intros E. exists aprio_init. cbn. rewrite E. apply tracks_init. Qed.
Lemma fq_tracks_init w s : w_pipes w = ∅ -> fq_tracks w (nn_fq_init (PItems s ∅)).
Proof. intros E. exists aprio_init. cbn. rewrite E. apply tracks_init. Qed.

(** Without pipes the members can be terminated. *)
Lemma tracks_term pof off (s : pitems St) (p : nn_priolist L) a : tracks pof off ∅ s p a -> nn_priolist_term p = Ok tt.
Proof.
  intros Ha. destruct (bal_sim _ _ _ _ (tr_bal _ _ _ _ _ _ Ha)) as (Hr & Hd & _).
  rewrite (nn_priolist_term_ok _ _ _ Hr). apply elem_of_nil_inv. intros x Hx.
  pose proof Hx as (i & z & Hi & Hz)%active_elem. destruct (pr_own _ _ _ Hr i z x Hi Hz) as (d & Hxd & _).
  rewrite Hd in Hxd. by destruct (tr_owner _ _ _ _ _ _ Ha x d Hx Hxd) as (pb & Hpb & _).
Qed.

Lemma lb_tracks_term w lb : w_pipes w = ∅ -> lb_tracks w lb -> nn_lb_term lb = Ok tt.
Proof. intros E [a Ha]. cbn in Ha. rewrite E in Ha. by eapply tracks_term. Qed.
Lemma fq_tracks_term w fq : w_pipes w = ∅ -> fq_tracks w fq -> nn_fq_term fq = Ok tt.
Proof. intros E [a Ha]. cbn in Ha. rewrite E in Ha. by eapply tracks_term. Qed.

(** The data of a tracked pipe. *)
Lemma lb_tracks_data w lb p pb : lb_tracks w lb -> w_pipes w !! p = Some pb -> exists x, pb_data pb = Some x.
Proof. intros [a Ha] Hp. destruct (tr_pipes _ _ _ _ _ _ Ha p pb Hp) as (x & _ & ? & _). eauto. Qed.
Lemma fq_tracks_data w fq p pb : fq_tracks w fq -> w_pipes w !! p = Some pb -> exists x, pb_data pb = Some x.
Proof. intros [a Ha] Hp. destruct (tr_pipes _ _ _ _ _ _ Ha p pb Hp) as (x & _ & ? & _). eauto. Qed.

Lemma lb_add_tracks w lb p options x pr :
  world_ok w -> lb_tracks w lb -> w_pipes w !! p = None -> room w options ->
  pi_data (lb_items lb) !! x = None -> pr = opt_sndprio options ->
  lb_tracks (started w p (Some x) options) (nn_lb_add lb x p pr).
Proof.
  intros Hw [a Ha] Hp Hv Hx Hpr. destruct (started_ok w p (Some x) options Hw Hp Hv) as (_ & Hno & _ & Hoff & _).
  destruct (valid_priorities _ _ Hv) as [Hv1 Hv2].
  destruct (tracks_add opt_sndprio (off_out (started w p (Some x) options)) (w_pipes w) (lb_items lb) (lb_priolist lb) a p x pr
    (set_data (Some x) (starting (nn_pipebase_init options)))) as [a' Ha']; [|by subst pr..|by exists a'].
  destruct Ha as [Hb Hq Ho]. split; [| |done].
  - eapply balanced_mono; [|exact Hb]. intros y d Hy Hd. destruct (Ho y d Hy Hd) as (pb & Hpb & _).
    apply Hoff. congruence.
  - intros q pb Hpb. destruct (Hq q pb Hpb) as (y & d & ? & ? & ? & ? & ?). exists y, d.
    rewrite <- Hoff by congruence. done.
Qed.

Lemma fq_add_tracks w fq p options x pr :
  world_ok w -> fq_tracks w fq -> w_pipes w !! p = None -> room w options ->
  pi_data (fq_items fq) !! x = None -> pr = opt_rcvprio options ->
  fq_tracks (started w p (Some x) options) (nn_fq_add fq x p pr).
Proof.
  intros Hw [a Ha] Hp Hv Hx Hpr. destruct (started_ok w p (Some x) options Hw Hp Hv) as (_ & _ & Hno & _ & Hoff).
  destruct (valid_priorities _ _ Hv) as [Hv1 Hv2].
  destruct (tracks_add opt_rcvprio (off_in (started w p (Some x) options)) (w_pipes w) (fq_items fq) (fq_priolist fq) a p x pr
    (set_data (Some x) (starting (nn_pipebase_init options)))) as [a' Ha']; [|by subst pr..|by exists a'].
  destruct Ha as [Hb Hq Ho]. split; [| |done].
  - eapply balanced_mono; [|exact Hb]. intros y d Hy Hd. destruct (Ho y d Hy Hd) as (pb & Hpb & _).
    apply Hoff. congruence.
  - intros q pb Hpb. destruct (Hq q pb Hpb) as (y & d & ? & ? & ? & ? & ?). exists y, d.
    rewrite <- Hoff by congruence. done.
Qed.

Lemma lb_rm_tracks w lb p pb x :
  lb_tracks w lb -> w_pipes w !! p = Some pb -> pb_data pb = Some x ->
  exists lb', nn_lb_rm lb x = Ok lb' /\ lb_tracks (drop_pipe w p) lb' /\ pi_data (lb_items lb') = pi_data (lb_items lb).
Proof.
  intros [a Ha] Hp Hx.
  destruct (tracks_rm _ (off_out w) (off_out (drop_pipe w p)) _ _ _ a p pb x Ha Hp Hx) as (s' & p' & a' & E & Ha' & Hd).
  { intros r Hr. by apply drop_off_out. }
  unfold nn_lb_rm. rewrite E. mred. eexists. split; [done|]. split; [by exists a'|done].
Qed.

Lemma fq_rm_tracks w fq p pb x :
  fq_tracks w fq -> w_pipes w !! p = Some pb -> pb_data pb = Some x ->
  exists fq', nn_fq_rm fq x = Ok fq' /\ fq_tracks (drop_pipe w p) fq' /\ pi_data (fq_items fq') = pi_data (fq_items fq).
Proof.
  intros [a Ha] Hp Hx.
  destruct (tracks_rm _ (off_in w) (off_in (drop_pipe w p)) _ _ _ a p pb x Ha Hp Hx) as (s' & p' & a' & E & Ha' & Hd).
  { intros r Hr. by apply drop_off_in. }
  unfold nn_fq_rm. rewrite E. mred. eexists. split; [done|]. split; [by exists a'|done].
Qed.

Lemma lb_out_tracks w lb p es pb x :
  world_ok w -> lb_tracks w lb -> w_events w = (p, NN_PIPE_OUT) :: es ->
  w_pipes w !! p = Some pb -> pb_data pb = Some x ->
  exists lb', nn_lb_out lb x = Ok lb' /\ lb_tracks (set_events w es) lb' /\ pi_data (lb_items lb') = pi_data (lb_items lb).
Proof.
  intros Hw [a Ha] He Hp Hx. destruct (pop_out w p es Hw He) as (Hno & Hyes & Hoff & _).
  destruct (tracks_activate _ _ _ _ _ _ _ _ _ _ Ha Hp Hx Hno Hyes Hoff) as (s' & p' & a' & E & Ha' & Hd).
  unfold nn_lb_out. rewrite E. mred. eexists. split; [done|]. split; [by exists a'|done].
Qed.

Lemma fq_in_tracks w fq p es pb x :
  world_ok w -> fq_tracks w fq -> w_events w = (p, NN_PIPE_IN) :: es ->
  w_pipes w !! p = Some pb -> pb_data pb = Some x ->
  exists fq', nn_fq_in fq x = Ok fq' /\ fq_tracks (set_events w es) fq' /\ pi_data (fq_items fq') = pi_data (fq_items fq).
Proof.
  intros Hw [a Ha] He Hp Hx. destruct (pop_in w p es Hw He) as (Hno & Hyes & Hoff & _).
  destruct (tracks_activate _ _ _ _ _ _ _ _ _ _ Ha Hp Hx Hno Hyes Hoff) as (s' & p' & a' & E & Ha' & Hd).
  unfold nn_fq_in. rewrite E. mred. eexists. split; [done|]. split; [by exists a'|done].
Qed.

(** An event of the other direction does not concern the member. *)
Lemma lb_pop_in_tracks w lb p es :
  world_ok w -> lb_tracks w lb -> w_events w = (p, NN_PIPE_IN) :: es -> lb_tracks (set_events w es) lb.
Proof.
  intros Hw Hl He. destruct (pop_in w p es Hw He) as (_ & _ & _ & Ho & _). by eapply lb_tracks_view; [..|exact Hl].
Qed.
Lemma fq_pop_out_tracks w fq p es :
  world_ok w -> fq_tracks w fq -> w_events w = (p, NN_PIPE_OUT) :: es -> fq_tracks (set_events w es) fq.
Proof.
  intros Hw Hl He. destruct (pop_out w p es Hw He) as (_ & _ & _ & Ho & _). by eapply fq_tracks_view; [..|exact Hl].
Qed.

(** The messages still to be received at most: one per readable pipe, and
    those the transports hold. *)
Definition readable_pipes w : gset addr :=
  dom (filter (fun kv => pb_instate kv.2 = NN_PIPEBASE_INSTATE_IDLE) (w_pipes w)).
Definition backlog w : nat := tr_backlog (w_net w) + size (readable_pipes w).

Lemma backlog_after_recv w w' p pb rc :
  w_pipes w !! p = Some pb -> pb_instate pb = NN_PIPEBASE_INSTATE_IDLE ->
  w_pipes w' = <[p := after_recv rc pb]> (w_pipes w) ->
  (tr_backlog (w_net w') + (if released rc then 0 else 1) <= tr_backlog (w_net w))%nat ->
  (backlog w' < backlog w)%nat.
Proof.
  intros Hp Hi Hp' Hb. unfold backlog.
  assert (Hsub : readable_pipes w' ⊆ readable_pipes w).
  { intros q. unfold readable_pipes. rewrite !elem_of_dom. intros [pbq [Hq Hqi]%map_lookup_filter_Some].
    rewrite Hp' in Hq. apply lookup_insert_Some in Hq as [[<- _]|[_ Hq]]; eexists; apply map_lookup_filter_Some; done. }
  destruct (released rc) eqn:Er; [|pose proof (subseteq_size _ _ Hsub); lia].
  assert (Hlt : readable_pipes w' ⊂ readable_pipes w).
  { split; [done|]. intros Hsup. assert (Hin : p ∈ readable_pipes w').
    { apply Hsup. unfold readable_pipes. apply elem_of_dom. exists pb. by apply map_lookup_filter_Some. }
    unfold readable_pipes in Hin. apply elem_of_dom in Hin as [pbq [Hq Hqi]%map_lookup_filter_Some].
    rewrite Hp', lookup_insert_eq in Hq. injection Hq as <-. cbn in Hqi. by rewrite Er in Hqi. }
  pose proof (subset_size _ _ Hlt). lia.
Qed.

(** What a successful send (receive) leaves unchanged. *)
Record sent_one w w' (p : addr) (m : nn_msg) : Prop := {
  so_handled : handled w w';
  so_sent : sent (w_net w') = sent (w_net w) ++ [(p, m)];
  so_rcvd : rcvd (w_net w') = rcvd (w_net w);
  so_in q : off_in w q <-> off_in w' q;
  so_out q : q <> p -> off_out w q <-> off_out w' q;
  so_to : off_out w p;
  so_data q : (fun pb => (pb_data pb, pb_options pb)) <$> w_pipes w !! q
            = (fun pb => (pb_data pb, pb_options pb)) <$> w_pipes w' !! q
}.
Record rcvd_one w w' (p : addr) (m : nn_msg) : Prop := {
  ro_handled : handled w w';
  ro_rcvd : rcvd (w_net w') = rcvd (w_net w) ++ [(p, m)];
  ro_sent : sent (w_net w') = sent (w_net w);
  ro_in q : q <> p -> off_in w q <-> off_in w' q;
  ro_out q : off_out w q <-> off_out w' q;
  ro_backlog : (backlog w' < backlog w)%nat;
  ro_from : off_in w p;
  ro_data q : (fun pb => (pb_data pb, pb_options pb)) <$> w_pipes w !! q
            = (fun pb => (pb_data pb, pb_options pb)) <$> w_pipes w' !! q
}.

(** Sending to an offered pipe. *)
Lemma pipe_send_one w p m :
  world_ok w -> off_out w p ->
  exists w' rc, nn_pipe_send w p m = Ok (w', rc) /\ 0 <= rc /\ without_release rc = 0
    /\ sent_one w w' p m /\ (off_out w' p <-> released rc = false).
Proof.
  intros Hw Hp. pose proof (off_out_writable w p Hw Hp) as (pb & Hpb & Ha & Ho).
  destruct (nn_pipe_send_ok w p m pb Hpb Ha Ho) as (w' & rc & E & H0rc & Hrc & Hpipes & Hev & Hst & Hs & Hr).
  destruct (world_after_send w w' p pb rc Hw Hp Hpb Hpipes Hev Hst) as (Hh & Hoff & Hoffp & Hin & Hd).
  exists w', rc. repeat (split; [done|]). done.
Qed.

Lemma pipe_recv_one w p :
  world_ok w -> off_in w p ->
  exists w' rc m, nn_pipe_recv w p = Ok (w', rc, m) /\ 0 <= rc
    /\ (without_release rc = 0 /\ sphdr m = [] \/ without_release rc = NN_PIPE_PARSED)
    /\ rcvd_one w w' p m /\ (off_in w' p <-> released rc = false).
Proof.
  intros Hw Hp. pose proof (off_in_readable w p Hw Hp) as (pb & Hpb & Ha & Ho).
  destruct (nn_pipe_recv_ok w p pb Hpb Ha Ho) as (w' & rc & m & E & H0rc & Hrc & Hpipes & Hev & Hst & Hr & Hs & Hbl).
  pose proof (backlog_after_recv w w' p pb rc Hpb Ho Hpipes Hbl) as Hlt.
  destruct (world_after_recv w w' p pb rc Hw Hp Hpb Hpipes Hev Hst) as (Hh & Hoff & Hoffp & Hin & Hd).
  exists w', rc, m. repeat (split; [done|]). done.
Qed.

Lemma nn_lb_send_ok w lb m a :
  world_ok w -> tracks opt_sndprio (off_out w) (w_pipes w) (lb_items lb) (lb_priolist lb) a ->
  match (aprio_out a).1 with
  | None => nn_lb_send lb w m = Ok (lb, w, - EAGAIN, None) /\ nn_lb_can_send lb = false
  | Some q => exists lb' w', nn_lb_send lb w m = Ok (lb', w', 0, Some q) /\ nn_lb_can_send lb = true
      /\ sent_one w w' q m /\ lb_tracks w' lb' /\ pi_data (lb_items lb') = pi_data (lb_items lb)
  end.
Proof.
  intros Hw Ha. pose proof (balanced_out _ _ _ _ (tr_bal _ _ _ _ _ _ Ha)) as Hb.
  unfold nn_lb_send, nn_lb_can_send. destruct (aprio_out a) as [[q|] prio] eqn:Ea; cbn [fst].
  - destruct Hb as (-> & -> & Hrdy & _). mred.
    destruct (pipe_send_one w q m Hw Hrdy) as (w' & rc & -> & H0rc & Hrc & Hs & Hoffq). mred. decide_bools. mred.
    destruct (tracks_use _ _ (off_out w') _ _ _ _ _ _ (released rc) Ha Ea (so_out _ _ _ _ Hs) Hoffq)
      as (s' & p' & a' & -> & Ha' & _ & Hd). mred. rewrite Hrc. eexists _, w'. repeat (split; [done|]).
    split; [|done]. exists a'. eapply tracks_ext; [done|apply Hs|done].
  - destruct Hb as (-> & -> & _). done.
Qed.

Lemma nn_fq_recv_ok w fq a :
  world_ok w -> tracks opt_rcvprio (off_in w) (w_pipes w) (fq_items fq) (fq_priolist fq) a ->
  match (aprio_out a).1 with
  | None => nn_fq_recv fq w = Ok (fq, w, - EAGAIN, None) /\ nn_fq_can_recv fq = false
  | Some q => exists fq' w' rc m, nn_fq_recv fq w = Ok (fq', w', rc, Some (m, q)) /\ nn_fq_can_recv fq = true
      /\ (rc = 0 /\ sphdr m = [] \/ rc = NN_PIPE_PARSED)
      /\ rcvd_one w w' q m /\ fq_tracks w' fq' /\ pi_data (fq_items fq') = pi_data (fq_items fq)
  end.
Proof.
  intros Hw Ha. pose proof (balanced_out _ _ _ _ (tr_bal _ _ _ _ _ _ Ha)) as Hb.
  unfold nn_fq_recv, nn_fq_can_recv. destruct (aprio_out a) as [[q|] prio] eqn:Ea; cbn [fst].
  - destruct Hb as (-> & -> & Hrdy & _). mred.
    destruct (pipe_recv_one w q Hw Hrdy) as (w' & rc & m & -> & H0rc & Hrc & Hs & Hoffq). mred. decide_bools. mred.
    destruct (tracks_use _ _ (off_in w') _ _ _ _ _ _ (released rc) Ha Ea (ro_in _ _ _ _ Hs) Hoffq)
      as (s' & p' & a' & -> & Ha' & _ & Hd). mred. eexists _, w', _, m. repeat (split; [done|]).
    split; [|done]. exists a'. eapply tracks_ext; [done|apply Hs|done].
  - destruct Hb as (-> & -> & _). done.
Qed.

Lemma nn_lb_send_tracks w lb m :
  world_ok w -> lb_tracks w lb ->
  (nn_lb_send lb w m = Ok (lb, w, - EAGAIN, None) /\ nn_lb_can_send lb = false)
  \/ exists q lb' w', nn_lb_send lb w m = Ok (lb', w', 0, Some q) /\ nn_lb_can_send lb = true
      /\ sent_one w w' q m /\ lb_tracks w' lb' /\ pi_data (lb_items lb') = pi_data (lb_items lb).
Proof.
  intros Hw [a Ha]. pose proof (nn_lb_send_ok w lb m a Hw Ha) as Hs.
  destruct (aprio_out a).1 as [q|]; [right; by exists q|by left].
Qed.

Lemma nn_fq_recv_tracks w fq :
  world_ok w -> fq_tracks w fq ->
  (nn_fq_recv fq w = Ok (fq, w, - EAGAIN, None) /\ nn_fq_can_recv fq = false)
  \/ exists q fq' w' rc m, nn_fq_recv fq w = Ok (fq', w', rc, Some (m, q)) /\ nn_fq_can_recv fq = true
      /\ (rc = 0 /\ sphdr m = [] \/ rc = NN_PIPE_PARSED)
      /\ rcvd_one w w' q m /\ fq_tracks w' fq' /\ pi_data (fq_items fq') = pi_data (fq_items fq).
Proof.
  intros Hw [a Ha]. pose proof (nn_fq_recv_ok w fq a Hw Ha) as Hs.
  destruct (aprio_out a).1 as [q|]; [right; by exists q|by left].
Qed.

(** A member that the step did not use keeps tracking. *)
Lemma lb_tracks_rcvd w w' p m lb : rcvd_one w w' p m -> lb_tracks w lb -> lb_tracks w' lb.
Proof. intros [] Hl. by eapply lb_tracks_view. Qed.
Lemma fq_tracks_sent w w' p m fq : sent_one w w' p m -> fq_tracks w fq -> fq_tracks w' fq.
Proof. intros [] Hl. by eapply fq_tracks_view. Qed.
Lemma lb_can_send_priority w lb : lb_tracks w lb ->
  nn_lb_get_priority lb = -1 \/ 1 <= nn_lb_get_priority lb <= 16.
Proof.
  intros [a [[(Hr & _) _ _] _ _]]. unfold nn_lb_get_priority, nn_priolist_get_priority.
  rewrite (pr_top _ _ _ Hr). apply top_range, Hr.
Qed.

Lemma recv_fuel_ok w : (backlog w < recv_fuel w)%nat.
Proof.
  unfold backlog, recv_fuel. assert (size (readable_pipes w) <= size (w_pipes w))%nat; [|lia].
  rewrite <- size_dom. apply subseteq_size. intros q. unfold readable_pipes. rewrite !elem_of_dom.
  intros [pb [Hq _]%map_lookup_filter_Some]. by eexists.
Qed.

(** The effect of receiving several messages in a row. *)
Record rcvd_many w w' (ms : list (addr * nn_msg)) : Prop := {
  rm_handled : handled w w';
  rm_rcvd : rcvd (w_net w') = rcvd (w_net w) ++ ms;
  rm_sent : sent (w_net w') = sent (w_net w);
  rm_out q : off_out w q <-> off_out w' q;
  rm_data q : (fun pb => (pb_data pb, pb_options pb)) <$> w_pipes w !! q
            = (fun pb => (pb_data pb, pb_options pb)) <$> w_pipes w' !! q
}.

Lemma rcvd_many_nil w : world_ok w -> rcvd_many w w [].
Proof. intros Hw. constructor; [by apply handled_refl|by rewrite app_nil_r|done..]. Qed.

Lemma rcvd_many_cons w w1 w2 p m ms : rcvd_one w w1 p m -> rcvd_many w1 w2 ms -> rcvd_many w w2 ((p, m) :: ms).
Proof.
  intros H1' H2'. constructor.
  - eapply handled_trans; [apply H1'|apply H2'].
  - rewrite (rm_rcvd _ _ _ H2'), (ro_rcvd _ _ _ _ H1'). by rewrite <- app_assoc.
  - by rewrite (rm_sent _ _ _ H2'), (ro_sent _ _ _ _ H1').
  - intros q. by rewrite (ro_out _ _ _ _ H1' q), (rm_out _ _ _ H2' q).
  - intros q. by rewrite (ro_data _ _ _ _ H1' q), (rm_data _ _ _ H2' q).
Qed.

Lemma fq_can_recv_none w fq q : world_ok w -> fq_tracks w fq -> nn_fq_can_recv fq = false -> ~ off_in w q.
Proof.
  intros Hw [a Ha] Hc Hq. pose proof (nn_fq_recv_ok w fq a Hw Ha) as Hs. pose proof (tracks_out _ _ _ _ _ _ Ha) as Ho.
  destruct (aprio_out a).1; [destruct Hs as (? & ? & ? & ? & _ & ? & _); congruence|].
  pose proof Hq as (pb & Hp & _). by eapply Ho.
Qed.
End Members.
