(* ===== verification/Dist.v ===== *)
(** * Distribution to all pipes ([protocols/utils/dist.c]) and exclusive pipes ([excl.c])

    The distributor keeps the list of the pipes that can be written to and
    sends every message to each of them, dropping from the list those that
    the call released.  The [excl] object holds the one pipe of a pair. *)

From S2P Require Import Prelude NNList NNFamily Wire Pipe Sock Balance Members.
Local Open Scope Z_scope.

Section Dist.
  Context {St L T : Type} `{ListOps St L} `{Transport T}.
  Implicit Types (w : world T).

(** The [item] fields of the [nn_dist_data] live in [di_links], the [pipe]
    fields in [di_data]. *)
Record nn_dist := Dist { di_count : Z; di_pipes : L; di_links : St; di_data : gmap addr addr }.

Definition nn_dist_init (links : St) : nn_dist := Dist 0 list_init links ∅.

Definition nn_dist_term (self : nn_dist) : result unit :=
  _ ← assert_ (bool_decide (di_count self = 0)); list_term (di_pipes self).

Definition nn_dist_add (self : nn_dist) (data pipe : addr) : nn_dist :=
  Dist (di_count self) (di_pipes self) (list_item_init (di_links self) data)
       (<[data := pipe]> (di_data self)).

Definition nn_dist_rm (self : nn_dist) (data : addr) : result nn_dist :=
  b ← list_item_isinlist (di_links self) (At data);
  self ← (if (b : bool) then
            '(lk, l, _) ← list_erase (di_links self) (di_pipes self) (At data);
            Ok (Dist (u32 (di_count self - 1)) l lk (di_data self))
          else Ok self);
  _ ← list_item_term (di_links self) (At data);
  Ok self.

Definition nn_dist_out (self : nn_dist) (data : addr) : result nn_dist :=
  '(lk, l) ← list_insert (di_links self) (di_pipes self) (At data) NULL;
  Ok (Dist (u32 (di_count self + 1)) l lk (di_data self)).

(** The [while] loop of [nn_dist_send]. *)
Fixpoint dist_loop (fuel : nat) (self : nn_dist) w (msg : nn_msg) (exclude : option addr) (it : ptr)
    : result (nn_dist * world T) :=
  match fuel with
  | O => Err NoFuel
  | S fuel =>
      match it with
      | NULL => Ok (self, w)
      | At data =>
          pipe ← deref (di_data self !! data);
          if bool_decide (Some pipe = exclude) then
            it ← list_next (di_links self) it;
            dist_loop fuel self w msg exclude it
          else
            '(w, rc) ← nn_pipe_send w pipe msg;
            _ ← assert_ (bool_decide (0 <= rc));
            if released rc then
              '(lk, l, it) ← list_erase (di_links self) (di_pipes self) it;
              dist_loop fuel (Dist (u32 (di_count self - 1)) l lk (di_data self)) w msg exclude it
            else
              it ← list_next (di_links self) it;
              dist_loop fuel self w msg exclude it
      | NN_LIST_NOTINLIST => Err BadAccess
      end
  end.

(** The message is consumed in every case. *)
Definition nn_dist_send (self : nn_dist) w (msg : nn_msg) (exclude : option addr)
    : result (nn_dist * world T * Z) :=
  if bool_decide (di_count self = 0) then Ok (self, w, 0)
  else
    '(self, w) ← dist_loop (S (size (di_data self))) self w msg exclude (list_begin (di_pipes self));
    Ok (self, w, 0).

End Dist.
Arguments nn_dist : clear implicits.

(** ** [excl.c] *)
Section Excl.
  Context {T : Type} `{Transport T}.
  Implicit Types (w : world T).

Record nn_excl := Excl { ex_pipe : option addr; ex_inpipe : option addr; ex_outpipe : option addr }.

Definition nn_excl_init : nn_excl := Excl None None None.

Definition nn_excl_term (self : nn_excl) : result unit :=
  _ ← assert_ (bool_decide (ex_pipe self = None));
  _ ← assert_ (bool_decide (ex_inpipe self = None));
  assert_ (bool_decide (ex_outpipe self = None)).

Definition nn_excl_add (self : nn_excl) (pipe : addr) : nn_excl * Z :=
  match ex_pipe self with
  | Some _ => (self, - EISCONN)
  | None => (Excl (Some pipe) (ex_inpipe self) (ex_outpipe self), 0)
  end.

Definition nn_excl_rm (self : nn_excl) (pipe : addr) : result nn_excl :=
  _ ← assert_ (bool_decide (ex_pipe self <> None));
  Ok (Excl None None None).

Definition nn_excl_in (self : nn_excl) (pipe : addr) : result nn_excl :=
  _ ← assert_ (bool_decide (ex_inpipe self = None));
  _ ← assert_ (bool_decide (ex_pipe self = Some pipe));
  Ok (Excl (ex_pipe self) (Some pipe) (ex_outpipe self)).

Definition nn_excl_out (self : nn_excl) (pipe : addr) : result nn_excl :=
  _ ← assert_ (bool_decide (ex_outpipe self = None));
  _ ← assert_ (bool_decide (ex_pipe self = Some pipe));
  Ok (Excl (ex_pipe self) (ex_inpipe self) (Some pipe)).

Definition nn_excl_send (self : nn_excl) w (msg : nn_msg) : result (nn_excl * world T * Z) :=
  match ex_outpipe self with
  | None => Ok (self, w, - EAGAIN)
  | Some pipe =>
      '(w, rc) ← nn_pipe_send w pipe msg;
      _ ← assert_ (bool_decide (0 <= rc));
      Ok (if released rc then Excl (ex_pipe self) (ex_inpipe self) None else self, w, without_release rc)
  end.

Definition nn_excl_recv (self : nn_excl) w : result (nn_excl * world T * Z * option nn_msg) :=
  match ex_inpipe self with
  | None => Ok (self, w, - EAGAIN, None)
  | Some pipe =>
      '(w, rc, msg) ← nn_pipe_recv w pipe;
      _ ← assert_ (bool_decide (0 <= rc));
      Ok (if released rc then Excl (ex_pipe self) None (ex_outpipe self) else self,
          w, without_release rc, Some msg)
  end.

Definition nn_excl_can_send (self : nn_excl) : bool := bool_decide (ex_outpipe self <> None).
Definition nn_excl_can_recv (self : nn_excl) : bool := bool_decide (ex_inpipe self <> None).

End Excl.

(** ** Specification of the distributor *)
Section DistSpec.
  Context {St L T : Type} `{ListSpec St L} `{TransportSpec T}.
  Implicit Types (w : world T) (self : nn_dist St L) (xs ys : list addr) (p q : addr).

(** The list holds the items of the offered pipes, and is counted. *)
Record dist_rep w self xs : Prop := {
  dr_list : rep (di_links self) (di_pipes self) xs;
  dr_count : di_count self = Z.of_nat (length xs);
  dr_pipes q pb : w_pipes w !! q = Some pb -> exists x, pb_data pb = Some x /\ di_data self !! x = Some q
    /\ ((x ∈ xs /\ off_out w q) \/ (free (di_links self) x /\ ~ off_out w q));
  dr_owner x : x ∈ xs -> exists q pb, di_data self !! x = Some q /\ w_pipes w !! q = Some pb /\ pb_data pb = Some x
}.

Definition dist_tracks w self : Prop := exists xs, dist_rep w self xs.

(** The pipes of a list of items. *)
Definition pipes_of (data : gmap addr addr) xs : list addr := omap (fun x => data !! x) xs.

Lemma pipes_of_elem w self xs q :
  dist_rep w self xs -> q ∈ pipes_of (di_data self) xs <-> off_out w q.
Proof.
  intros Hr. unfold pipes_of. rewrite list_elem_of_omap. split.
  - intros (x & Hx & Hq). destruct (dr_owner _ _ _ Hr x Hx) as (q' & pb & Hq' & Hpb & Hd).
    assert (q' = q) as -> by congruence. destruct (dr_pipes _ _ _ Hr q pb Hpb) as (y & Hy & _ & [[_ ?]|[Hf _]]); [done|].
    assert (y = x) as -> by congruence. by destruct (rep_free_disj _ _ _ _ (dr_list _ _ _ Hr) Hf).
  - intros Hoff. pose proof Hoff as (pb & Hpb & _).
    destruct (dr_pipes _ _ _ Hr q pb Hpb) as (x & _ & Hx & [[? _]|[_ ?]]); [eauto|done].
Qed.

Lemma pipes_of_cons (data : gmap addr addr) x xs q : data !! x = Some q -> pipes_of data (x :: xs) = q :: pipes_of data xs.
Proof. unfold pipes_of. cbn. by intros ->. Qed.

Lemma pipes_of_nodup w self xs : dist_rep w self xs -> NoDup (pipes_of (di_data self) xs) /\ length (pipes_of (di_data self) xs) = length xs.
Proof.
  intros Hr. pose proof (rep_NoDup _ _ _ (dr_list _ _ _ Hr)) as Hn. pose proof (dr_owner _ _ _ Hr) as Ho. clear Hr.
  induction xs as [|x xs IH]; [by split; [constructor|]|]. apply NoDup_cons in Hn as [Hx Hn].
  destruct IH as [IH1 IH2]; [done|intros y Hy; apply Ho; set_solver|].
  destruct (Ho x) as (q & pb & Hq & Hpb & Hd); [set_solver|]. rewrite (pipes_of_cons _ _ _ q) by done.
  cbn. split; [|by rewrite IH2]. constructor; [|done]. unfold pipes_of. rewrite list_elem_of_omap.
  intros (y & Hy & Hyq). destruct (Ho y) as (q' & pb' & ? & ? & ?); [set_solver|]. assert (q' = q) as -> by congruence. congruence.
Qed.

(** There are no more items on the list than pipes. *)
Lemma dist_rep_bound w self xs : world_ok w -> dist_rep w self xs -> Z.of_nat (length xs) <= INT_MAX.
Proof.
  intros Hw Hr. destruct (pipes_of_nodup w self xs Hr) as [Hn <-].
  etransitivity; [|apply (wo_size _ Hw)]. apply Nat2Z.inj_le.
  rewrite <- (size_list_to_set (C := gset addr)) by done. rewrite <- size_dom. apply subseteq_size.
  intros q Hq%elem_of_list_to_set. apply (pipes_of_elem _ _ _ _ Hr) in Hq as (pb & Hpb & _). by apply elem_of_dom_2 in Hpb.
Qed.

Lemma dist_rep_ext w w' self xs :
  (forall q, (fun pb => (pb_data pb, pb_options pb)) <$> w_pipes w !! q
             = (fun pb => (pb_data pb, pb_options pb)) <$> w_pipes w' !! q) ->
  (forall q, off_out w q <-> off_out w' q) -> dist_rep w self xs -> dist_rep w' self xs.
Proof.
  intros Hd Ho [Hl Hc Hp Hw]. split; [done|done| |].
  - intros q pb Hq. specialize (Hd q). rewrite Hq in Hd. destruct (w_pipes w !! q) as [pb0|] eqn:E; [|done].
    cbn in Hd. injection Hd as Hd1 _. destruct (Hp q pb0 E) as (x & ? & ? & ?). exists x. rewrite <- Hd1, <- Ho. done.
  - intros x Hx. destruct (Hw x Hx) as (q & pb & Hq & Hpb & Hpd). specialize (Hd q). rewrite Hpb in Hd.
    destruct (w_pipes w' !! q) as [pb'|] eqn:E; [|done]. cbn in Hd. injection Hd as Hd1 _. exists q, pb'. by rewrite <- Hd1.
Qed.

Lemma dist_tracks_view w w' self :
  (forall q, (fun pb => (pb_data pb, pb_options pb)) <$> w_pipes w !! q
             = (fun pb => (pb_data pb, pb_options pb)) <$> w_pipes w' !! q) ->
  (forall q, off_out w q <-> off_out w' q) -> dist_tracks w self -> dist_tracks w' self.
Proof. intros Hd Ho [xs Hx]. exists xs. by eapply dist_rep_ext. Qed.

(** Removing one item of the list. *)
Lemma dist_rep_erase w w' self xs x ys q lk l :
  world_ok w -> dist_rep w self (xs ++ x :: ys) -> di_data self !! x = Some q ->
  rep lk l (xs ++ ys) -> free lk x -> agree (xs ++ x :: ys) (di_links self) lk ->
  (forall r, (fun pb => (pb_data pb, pb_options pb)) <$> w_pipes w !! r
             = (fun pb => (pb_data pb, pb_options pb)) <$> w_pipes w' !! r) ->
  (forall r, r <> q -> off_out w r <-> off_out w' r) -> ~ off_out w' q ->
  dist_rep w' (Dist (u32 (di_count self - 1)) l lk (di_data self)) (xs ++ ys).
Proof.
  intros Hw Hr Hxq Hl Hf Ha Hd Ho Hno. pose proof (dist_rep_bound _ _ _ Hw Hr) as Hb. destruct Hr as [Hl0 Hc Hp Hown].
  pose proof (rep_NoDup _ _ _ Hl0) as Hn. split; cbn; [done| | |].
  - rewrite Hc in *. rewrite length_app in *. cbn in *. unfold INT_MAX in Hb. rewrite length_app.
    rewrite wrap_small; [lia|]. unfold in_range. lia.
  - intros r pb Hrp. specialize (Hd r). rewrite Hrp in Hd. destruct (w_pipes w !! r) as [pb0|] eqn:E; [|done].
    cbn in Hd. injection Hd as Hd1 _. destruct (Hp r pb0 E) as (y & Hy & Hyr & Hcase). exists y. rewrite <- Hd1.
    split; [done|]. split; [done|]. destruct (decide (y = x)) as [->|Hne].
    + right. split; [done|]. by assert (r = q) as -> by congruence.
    + assert (Hrq : r <> q).
      { intros ->. apply Hne. destruct (Hown x) as (q' & pb' & Hq' & Hpb' & Hx'); [set_solver|]. congruence. }
      rewrite <- Ho by done. destruct Hcase as [[Hin ?]|[Hfr ?]]; [left|right]; (split; [|done]).
      * set_solver.
      * eapply free_agree; [exact Ha| |done]. eapply rep_free_disj; [exact Hl0|done].
  - intros y Hy. destruct (Hown y) as (r & pb & Hyr & Hpb & Hpd); [set_solver|]. specialize (Hd r). rewrite Hpb in Hd.
    destruct (w_pipes w' !! r) as [pb'|] eqn:E; [|done]. cbn in Hd. injection Hd as Hd1 _. exists r, pb'. by rewrite <- Hd1.
Qed.

Lemma dist_tracks_init w links : w_pipes w = ∅ -> dist_tracks w (nn_dist_init links).
Proof.
  intros E. exists []. split; cbn; [apply list_init_spec|done| |set_solver].
  intros q pb Hq. by rewrite E, lookup_empty in Hq.
Qed.

Lemma dist_tracks_data w self p pb : dist_tracks w self -> w_pipes w !! p = Some pb -> exists x, pb_data pb = Some x.
Proof. intros [xs Hx] Hp. destruct (dr_pipes _ _ _ Hx p pb Hp) as (x & ? & _). eauto. Qed.

Lemma dist_add_tracks w self p options x :
  world_ok w -> dist_tracks w self -> w_pipes w !! p = None -> room w options -> di_data self !! x = None ->
  dist_tracks (started w p (Some x) options) (nn_dist_add self x p).
Proof.
  intros Hw [xs [Hl Hc Hp Hown]] Hpn Hroom Hx. destruct (started_ok w p (Some x) options Hw Hpn Hroom) as (_ & Hno & _ & Hoff & _).
  assert (Hxs : x ∉ xs) by (intros Hin; destruct (Hown x Hin) as (? & ? & ? & _); congruence).
  destruct (list_item_init_spec (di_links self) x) as [Hfx Ha].
  exists xs. split; cbn.
  - eapply rep_agree; [exact Ha|set_solver|done].
  - done.
  - intros q pb [[<- <-]|[Hne Hq]]%lookup_insert_Some.
    + exists x. rewrite lookup_insert_eq. repeat (split; [done|]). by right.
    + destruct (Hp q pb Hq) as (y & Hy & Hyq & Hcase). exists y. split; [done|].
      rewrite lookup_insert_ne by (intros <-; congruence). split; [done|]. rewrite <- Hoff by done.
      destruct Hcase as [[? ?]|[Hf ?]]; [by left|right]. split; [|done]. by apply free_item_init.
  - intros y Hy. destruct (Hown y Hy) as (q & pb & ? & ? & ?). exists q, pb.
    rewrite !lookup_insert_ne by (intros <-; congruence). done.
Qed.

Lemma dist_rm_tracks w self p pb x :
  world_ok w -> dist_tracks w self -> w_pipes w !! p = Some pb -> pb_data pb = Some x ->
  exists self', nn_dist_rm self x = Ok self' /\ dist_tracks (drop_pipe w p) self' /\ di_data self' = di_data self.
Proof.
  intros Hw [xs Hr] Hp Hx. destruct (dr_pipes _ _ _ Hr p pb Hp) as (x' & Hx' & Hxp & Hcase).
  assert (x' = x) as -> by congruence. unfold nn_dist_rm.
  assert (Hdrop : forall self' ys, dist_rep w self' ys -> x ∉ ys -> dist_rep (drop_pipe w p) self' ys).
  { intros self' ys [Hl' Hc' Hp' Hown'] Hxy. split; [done|done| |].
    - intros q pbq. cbn. intros [Hne Hq]%lookup_delete_Some. destruct (Hp' q pbq Hq) as (y & ? & ? & ?).
      exists y. by rewrite <- drop_off_out by congruence.
    - intros y Hy. destruct (Hown' y Hy) as (q & pbq & ? & Hpq & ?). exists q, pbq. split; [done|]. cbn.
      rewrite lookup_delete_ne; [done|]. intros ->. congruence. }
  destruct Hcase as [[Hin Hoff]|[Hf Hno]].
  - rewrite (list_isinlist_in _ _ _ _ (dr_list _ _ _ Hr) Hin). mred.
    apply list_elem_of_split in Hin as (k1 & k2 & ->).
    destruct (list_erase_spec _ _ _ _ _ (dr_list _ _ _ Hr)) as (lk & l & -> & Hl & Hf & Ha). mred.
    cbn [di_links]. rewrite list_item_term_spec, (list_isinlist_free _ _ Hf). mred.
    eexists. split; [done|]. split; [|done]. exists (k1 ++ k2).
    set (pb0 := set_out NN_PIPEBASE_OUTSTATE_ASYNC pb). set (w0 := set_pipe w p pb0).
    pose proof (rep_NoDup _ _ _ (dr_list _ _ _ Hr)) as (_ & H12 & [Hx2 _]%NoDup_cons)%NoDup_app.
    assert (Hno : ~ off_out w0 p) by (intros (b & Hb & Hb' & _); cbn in Hb; rewrite lookup_insert_eq in Hb; by simplify_eq).
    assert (Hr0 : dist_rep w0 (Dist (u32 (di_count self - 1)) l lk (di_data self)) (k1 ++ k2)).
    { eapply dist_rep_erase; [exact Hw|exact Hr|done|done|done|done| | |done].
      - intros q. cbn. destruct (decide (q = p)) as [->|]; [by rewrite lookup_insert_eq, Hp|by rewrite lookup_insert_ne].
      - intros q Hq. unfold off_out; cbn. by rewrite lookup_insert_ne. }
    destruct Hr0 as [Hl' Hc' Hp' Hown']. split; [done|done| |].
    + intros q pbq. cbn. intros [Hne Hq]%lookup_delete_Some. destruct (Hp' q pbq) as (y & ? & ? & Hc); [cbn; by rewrite lookup_insert_ne|].
      exists y. split; [done|]. split; [done|]. rewrite <- drop_off_out by congruence.
      assert (E : off_out w0 q <-> off_out w q) by (unfold off_out; cbn; by rewrite lookup_insert_ne).
      by rewrite <- E.
    + intros y Hy. destruct (Hown' y Hy) as (q & pbq & Hyq & Hpq & Hpd). assert (q <> p).
      { intros ->. cbn in Hpq. rewrite lookup_insert_eq in Hpq. injection Hpq as <-. cbn in Hpd.
        assert (y = x) as -> by congruence. specialize (H12 x). set_solver. }
      exists q, pbq. cbn in *. rewrite lookup_insert_ne in Hpq by done. by rewrite lookup_delete_ne.
  - rewrite (list_isinlist_free _ _ Hf). mred. rewrite list_item_term_spec, (list_isinlist_free _ _ Hf). mred.
    exists self. split; [done|]. split; [|done]. exists xs. apply Hdrop; [done|].
    eapply rep_free_disj; [apply Hr|done].
Qed.

Lemma dist_out_tracks w self p es pb x :
  world_ok w -> dist_tracks w self -> w_events w = (p, NN_PIPE_OUT) :: es ->
  w_pipes w !! p = Some pb -> pb_data pb = Some x ->
  exists self', nn_dist_out self x = Ok self' /\ dist_tracks (set_events w es) self' /\ di_data self' = di_data self.
Proof.
  intros Hw [xs Hr] He Hp Hx. destruct (pop_out w p es Hw He) as (Hno & Hyes & Hoff & _).
  pose proof (dist_rep_bound _ _ _ Hw Hr) as Hb. destruct Hr as [Hl Hc Hpi Hown].
  destruct (Hpi p pb Hp) as (x' & Hx' & Hxp & [[_ ?]|[Hf _]]); [done|]. assert (x' = x) as -> by congruence.
  destruct (list_append_spec _ _ _ _ Hl Hf) as (lk & l & E & Hl' & Ha). unfold nn_dist_out. rewrite E. mred.
  eexists. split; [done|]. split; [|done]. exists (xs ++ [x]). split; cbn.
  - done.
  - rewrite Hc, length_app. cbn. unfold INT_MAX in Hb. rewrite wrap_small; [lia|]. unfold in_range. lia.
  - intros q pbq Hq. destruct (Hpi q pbq Hq) as (y & Hy & Hyq & Hcase). exists y. split; [done|]. split; [done|].
    destruct (decide (q = p)) as [->|Hne].
    + left. split; [|done]. assert (y = x) as -> by congruence. set_solver.
    + rewrite <- Hoff by done. destruct Hcase as [[? ?]|[Hfy ?]]; [left; set_solver|right]. split; [|done].
      eapply free_agree; [exact Ha| |done]. assert (y <> x) by congruence.
      pose proof (rep_free_disj _ _ _ _ Hl Hfy). set_solver.
  - intros y [Hy| ->%list_elem_of_singleton]%elem_of_app; [by apply Hown|]. by exists p, pb.
Qed.

Lemma dist_pop_in_tracks w self p es :
  world_ok w -> dist_tracks w self -> w_events w = (p, NN_PIPE_IN) :: es -> dist_tracks (set_events w es) self.
Proof.
  intros Hw Hl He. destruct (pop_in w p es Hw He) as (_ & _ & _ & Ho & _). by eapply dist_tracks_view; [..|exact Hl].
Qed.

(** The copies a distribution makes: one per pipe of [xs], but [exclude]. *)
Definition targets (data : gmap addr addr) (exclude : option addr) xs : list addr :=
  filter (fun q => Some q <> exclude) (pipes_of data xs).

(** What a distribution to the pipes [qs] did to the world. *)
Record sent_all w w' (qs : list addr) (m : nn_msg) : Prop := {
  sa_handled : handled w w';
  sa_sent : sent (w_net w') = sent (w_net w) ++ ((fun q => (q, m)) <$> qs);
  sa_rcvd : rcvd (w_net w') = rcvd (w_net w);
  sa_in q : off_in w q <-> off_in w' q;
  sa_data q : (fun pb => (pb_data pb, pb_options pb)) <$> w_pipes w !! q
            = (fun pb => (pb_data pb, pb_options pb)) <$> w_pipes w' !! q
}.

Lemma sent_all_nil w m : world_ok w -> sent_all w w [] m.
Proof. intros Hw. constructor; [by apply handled_refl|by rewrite app_nil_r|done..]. Qed.

Lemma sent_all_cons w w1 w2 q qs m : sent_one w w1 q m -> sent_all w1 w2 qs m -> sent_all w w2 (q :: qs) m.
Proof.
  intros H1' H2'. constructor.
  - eapply handled_trans; [apply H1'|apply H2'].
  - rewrite (sa_sent _ _ _ _ H2'), (so_sent _ _ _ _ H1'). by rewrite <- app_assoc.
  - by rewrite (sa_rcvd _ _ _ _ H2'), (so_rcvd _ _ _ _ H1').
  - intros r. by rewrite (so_in _ _ _ _ H1' r), (sa_in _ _ _ _ H2' r).
  - intros r. by rewrite (so_data _ _ _ _ H1' r), (sa_data _ _ _ _ H2' r).
Qed.

Lemma dist_loop_ok exclude m ys : forall fuel w self xs,
  (length ys < fuel)%nat -> world_ok w -> dist_rep w self (xs ++ ys) ->
  exists self' w' zs, dist_loop fuel self w m exclude (hd_or NULL ys) = Ok (self', w')
    /\ dist_rep w' self' (xs ++ zs) /\ di_data self' = di_data self
    /\ sent_all w w' (targets (di_data self) exclude ys) m.
Proof.
  induction ys as [|x ys IH]; intros fuel w self xs Hf Hw Hr; (destruct fuel as [|fuel]; [cbn in Hf; lia|]).
  - exists self, w, []. split; [done|]. split; [done|]. split; [done|]. by apply sent_all_nil.
  - cbn [dist_loop hd_or]. cbn in Hf. destruct (dr_owner _ _ _ Hr x) as (q & pb & Hxq & Hpb & Hpd); [set_solver|].
    rewrite Hxq. mred. pose proof (list_next_spec _ _ _ _ _ (dr_list _ _ _ Hr)) as Hnext.
    assert (Htg : targets (di_data self) exclude (x :: ys)
              = (if bool_decide (Some q = exclude) then [] else [q]) ++ targets (di_data self) exclude ys).
    { unfold targets. rewrite (pipes_of_cons _ _ _ q) by done. rewrite filter_cons.
      case_decide; case_bool_decide; by try (exfalso; tauto). }
    assert (Hassoc : xs ++ x :: ys = (xs ++ [x]) ++ ys) by (by rewrite <- app_assoc).
    rewrite Htg. case_bool_decide as Hex.
    + rewrite Hnext. mred. rewrite Hassoc in Hr.
      destruct (IH fuel w self (xs ++ [x])) as (self' & w' & zs & E & Hr' & Hd & Hs); [lia|done|done|].
      exists self', w', (x :: zs). rewrite <- app_assoc in Hr'. done.
    + assert (Hoff : off_out w q).
      { apply (pipes_of_elem _ _ _ _ Hr). unfold pipes_of. rewrite list_elem_of_omap. exists x. split; [set_solver|done]. }
      destruct (pipe_send_one w q m Hw Hoff) as (w1 & rc & -> & H0rc & _ & Hs1 & Hoffq). mred. decide_bools. mred.
      pose proof (hd_ok _ _ (so_handled _ _ _ _ Hs1)) as Hw1.
      destruct (released rc).
      * destruct (list_erase_spec _ _ _ _ _ (dr_list _ _ _ Hr)) as (lk & l & -> & Hl & Hfx & Ha). mred.
        assert (Hr1 : dist_rep w1 (Dist (u32 (di_count self - 1)) l lk (di_data self)) (xs ++ ys)).
        { eapply dist_rep_erase; [exact Hw|exact Hr|exact Hxq|done..|apply Hs1|apply Hs1|]. by rewrite Hoffq. }
        destruct (IH fuel w1 _ xs ltac:(lia) Hw1 Hr1) as (self' & w' & zs & -> & Hr' & Hd & Hs2).
        exists self', w', zs. split; [done|]. split; [done|]. split; [done|]. by eapply sent_all_cons.
      * rewrite Hnext. mred. assert (Hr1 : dist_rep w1 self ((xs ++ [x]) ++ ys)).
        { rewrite <- Hassoc. eapply dist_rep_ext; [apply Hs1| |exact Hr]. intros r.
          destruct (decide (r = q)) as [->|Hne]; [|by apply (so_out _ _ _ _ Hs1)]. by rewrite Hoffq. }
        destruct (IH fuel w1 self (xs ++ [x]) ltac:(lia) Hw1 Hr1) as (self' & w' & zs & -> & Hr' & Hd & Hs2).
        exists self', w', (x :: zs). rewrite <- app_assoc in Hr'. split; [done|]. split; [done|]. split; [done|].
        by eapply sent_all_cons.
Qed.

Lemma dist_rep_size w self xs : dist_rep w self xs -> (length xs <= size (di_data self))%nat.
Proof.
  intros Hr. pose proof (rep_NoDup _ _ _ (dr_list _ _ _ Hr)) as Hn.
  rewrite <- (size_list_to_set (C := gset addr)) by done. rewrite <- size_dom. apply subseteq_size.
  intros x Hx%elem_of_list_to_set. destruct (dr_owner _ _ _ Hr x Hx) as (q & pb & Hq & _). by apply elem_of_dom_2 in Hq.
Qed.

(** A distribution reaches every writable pipe but the excluded one, once. *)
Lemma nn_dist_send_ok w self m exclude :
  world_ok w -> dist_tracks w self ->
  exists self' w' qs, nn_dist_send self w m exclude = Ok (self', w', 0)
    /\ dist_tracks w' self' /\ di_data self' = di_data self /\ sent_all w w' qs m
    /\ NoDup qs /\ (forall q, q ∈ qs <-> off_out w q /\ Some q <> exclude).
Proof.
  intros Hw [xs Hr].
  assert (Htg : NoDup (targets (di_data self) exclude xs) /\
            forall q, q ∈ targets (di_data self) exclude xs <-> off_out w q /\ Some q <> exclude).
  { unfold targets. split; [apply NoDup_filter, (pipes_of_nodup _ _ _ Hr)|].
    intros q. rewrite list_elem_of_filter, (pipes_of_elem _ _ _ _ Hr). tauto. }
  unfold nn_dist_send. case_bool_decide as Hc.
  - rewrite (dr_count _ _ _ Hr) in Hc. destruct xs as [|x xs]; [|cbn in Hc; lia].
    exists self, w, []. split; [done|]. split; [by exists []|]. split; [done|]. split; [by apply sent_all_nil|done].
  - rewrite (list_begin_spec _ _ _ (dr_list _ _ _ Hr)).
    destruct (dist_loop_ok exclude m xs (Datatypes.S (size (di_data self))) w self []) as (self' & w' & zs & E & Hr' & Hd & Hs);
      [pose proof (dist_rep_size _ _ _ Hr); lia|done|done|].
    rewrite app_nil_l in *. rewrite E. mred. exists self', w', (targets (di_data self) exclude xs).
    split; [done|]. split; [by exists zs|]. done.
Qed.
End DistSpec.
