(* ===== verification/Pipeline.v ===== *)
(** * The pipeline protocol ([protocols/pipeline/xpush.c], [xpull.c])

    PUSH load-balances over its pipes, PULL fair-queues from them.  Sockets
    of the non-raw types behave the same: [push.c] and [pull.c] reuse these
    virtual functions. *)

From S2P Require Import Prelude NNList NNFamily Priolist Wire Pipe Sock Balance Members.
Local Open Scope Z_scope.

Section Pipeline.
  Context {St L T : Type} `{ListOps St L} `{Transport T}.
  Implicit Types (w : world T).

(** The values of the priority options, which live in the endpoint. *)
Definition pipe_option (w : world T) (pipe : addr) (option : Z) : result Z :=
  pb ← deref (w_pipes w !! pipe);
  nn_pipebase_getopt (fun _ _ => Err AssertFailed) pb NN_SOL_SOCKET option.

Definition pipe_data_of (w : world T) (pipe : addr) : result addr :=
  data ← nn_pipe_getdata w pipe; deref data.

Record nn_xpush := Xpush { xpush_lb : nn_lb St L }.

Definition nn_xpush_init (s : St) : nn_xpush := Xpush (nn_lb_init (PItems s ∅)).
Definition nn_xpush_term (self : nn_xpush) : result unit := nn_lb_term (xpush_lb self).

Definition nn_xpush_add (self : nn_xpush) w (pipe : addr) : result (nn_xpush * world T * Z) :=
  sndprio ← pipe_option w pipe NN_SNDPRIO;
  _ ← assert_ (bool_decide (1 <= sndprio) && bool_decide (sndprio <= 16));
  let data := alloc (pi_data (lb_items (xpush_lb self))) in
  w ← nn_pipe_setdata w pipe (Some data);
  Ok (Xpush (nn_lb_add (xpush_lb self) data pipe sndprio), w, 0).

Definition nn_xpush_rm (self : nn_xpush) w (pipe : addr) : result (nn_xpush * world T) :=
  data ← pipe_data_of w pipe;
  lb ← nn_lb_rm (xpush_lb self) data;
  w ← nn_sock_stat_increment w NN_STAT_CURRENT_SND_PRIORITY (nn_lb_get_priority lb);
  Ok (Xpush lb, w).

(** PUSH sockets receive nothing. *)
Definition nn_xpush_in (self : nn_xpush) w (pipe : addr) : result (nn_xpush * world T) := Ok (self, w).

Definition nn_xpush_out (self : nn_xpush) w (pipe : addr) : result (nn_xpush * world T) :=
  data ← pipe_data_of w pipe;
  lb ← nn_lb_out (xpush_lb self) data;
  w ← nn_sock_stat_increment w NN_STAT_CURRENT_SND_PRIORITY (nn_lb_get_priority lb);
  Ok (Xpush lb, w).

Definition nn_xpush_events (self : nn_xpush) : Z :=
  if nn_lb_can_send (xpush_lb self) then NN_SOCKBASE_EVENT_OUT else 0.

Definition nn_xpush_send (self : nn_xpush) w (msg : nn_msg) : result (nn_xpush * world T * Z) :=
  '(lb, w, rc, _) ← nn_lb_send (xpush_lb self) w msg;
  Ok (Xpush lb, w, rc).

Definition nn_xpush_setopt (self : nn_xpush) (level option : Z) (optval : bytes) : Z := - ENOPROTOOPT.
Definition nn_xpush_getopt (self : nn_xpush) (level option : Z) : Z := - ENOPROTOOPT.

#[export] Instance xpush_proto : SockProto T nn_xpush := {|
  sb_nosend := false;
  sb_norecv := true;
  sb_add := nn_xpush_add;
  sb_rm := nn_xpush_rm;
  sb_in := nn_xpush_in;
  sb_out := nn_xpush_out;
  sb_events := nn_xpush_events;
  sb_send := nn_xpush_send;
  sb_recv s w := Err BadAccess;   (** a NULL function pointer *)
  sb_pending s e := false;
  sb_worker s w e := Err BadAccess
|}.

Record nn_xpull := Xpull { xpull_fq : nn_fq St L }.

Definition nn_xpull_init (s : St) : nn_xpull := Xpull (nn_fq_init (PItems s ∅)).
Definition nn_xpull_term (self : nn_xpull) : result unit := nn_fq_term (xpull_fq self).

Definition nn_xpull_add (self : nn_xpull) w (pipe : addr) : result (nn_xpull * world T * Z) :=
  rcvprio ← pipe_option w pipe NN_RCVPRIO;
  _ ← assert_ (bool_decide (1 <= rcvprio) && bool_decide (rcvprio <= 16));
  let data := alloc (pi_data (fq_items (xpull_fq self))) in
  w ← nn_pipe_setdata w pipe (Some data);
  Ok (Xpull (nn_fq_add (xpull_fq self) data pipe rcvprio), w, 0).

Definition nn_xpull_rm (self : nn_xpull) w (pipe : addr) : result (nn_xpull * world T) :=
  data ← pipe_data_of w pipe;
  fq ← nn_fq_rm (xpull_fq self) data;
  Ok (Xpull fq, w).

Definition nn_xpull_in (self : nn_xpull) w (pipe : addr) : result (nn_xpull * world T) :=
  data ← pipe_data_of w pipe;
  fq ← nn_fq_in (xpull_fq self) data;
  Ok (Xpull fq, w).

Definition nn_xpull_out (self : nn_xpull) w (pipe : addr) : result (nn_xpull * world T) := Ok (self, w).

Definition nn_xpull_events (self : nn_xpull) : Z :=
  if nn_fq_can_recv (xpull_fq self) then NN_SOCKBASE_EVENT_IN else 0.

Definition nn_xpull_recv (self : nn_xpull) w : result (nn_xpull * world T * Z * option nn_msg) :=
  '(fq, w, rc, m) ← nn_fq_recv (xpull_fq self) w;
  Ok (Xpull fq, w, if bool_decide (rc < 0) then rc else 0, option_map fst m).

Definition nn_xpull_setopt (self : nn_xpull) (level option : Z) (optval : bytes) : Z := - ENOPROTOOPT.
Definition nn_xpull_getopt (self : nn_xpull) (level option : Z) : Z := - ENOPROTOOPT.

#[export] Instance xpull_proto : SockProto T nn_xpull := {|
  sb_nosend := true;
  sb_norecv := false;
  sb_add := nn_xpull_add;
  sb_rm := nn_xpull_rm;
  sb_in := nn_xpull_in;
  sb_out := nn_xpull_out;
  sb_events := nn_xpull_events;
  sb_send s w m := Err BadAccess;
  sb_recv := nn_xpull_recv;
  sb_pending s e := false;
  sb_worker s w e := Err BadAccess
|}.

End Pipeline.
Arguments nn_xpush : clear implicits.
Arguments nn_xpull : clear implicits.

Section PipelineSpec.
  Context {St L T : Type} `{ListSpec St L} `{TransportSpec T}.
  Implicit Types (w : world T) (p : addr).

Definition xpush_rep (s : nn_xpush St L) w : Prop := lb_tracks w (xpush_lb s).
Definition xpull_rep (s : nn_xpull St L) w : Prop := fq_tracks w (xpull_fq s).

Lemma pipe_data_ok w p pb x : w_pipes w !! p = Some pb -> pb_data pb = Some x -> pipe_data_of w p = Ok x.
Proof. intros Hp Hx. unfold pipe_data_of, nn_pipe_getdata. rewrite Hp. mred. by rewrite Hx. Qed.

(** Reading the options of a pipe that is being added, and setting its data. *)
Lemma pipe_option_ok w p options :
  let w' := set_pipe w p (starting (nn_pipebase_init options)) in
  pipe_option w' p NN_SNDPRIO = Ok (opt_sndprio options) /\ pipe_option w' p NN_RCVPRIO = Ok (opt_rcvprio options).
Proof. unfold pipe_option. cbn. rewrite lookup_insert_eq. done. Qed.

Lemma set_data_ok w p options d :
  nn_pipe_setdata (set_pipe w p (starting (nn_pipebase_init options))) p d
  = Ok (set_pipe w p (set_data d (starting (nn_pipebase_init options)))).
Proof.
  unfold nn_pipe_setdata. rewrite lookup_set_pipe. mred. unfold set_pipe. cbn. by rewrite insert_insert_eq.
Qed.

Lemma priority_stat w prio :
  prio = -1 \/ 1 <= prio <= 16 ->
  nn_sock_stat_increment w NN_STAT_CURRENT_SND_PRIORITY prio = Ok (set_stat w NN_STAT_CURRENT_SND_PRIORITY prio).
Proof.
  intros Hp. unfold nn_sock_stat_increment.
  destruct Hp as [->|Hp]; decide_bools; [done|]. cbn. done.
Qed.

#[export, program] Instance xpush_spec : SockSpec T (nn_xpush St L) := {| sk_hears := true; sk_sends m := true; sk_takes _ _ := true; sk_room n s := True;
  sk_room_le _ _ _ := I; sk_room_add _ _ _ _ _ _ _ _ _ := I; sk_room_step _ _ _ _ _ := I; sk_rep := xpush_rep |}.
Next Obligation. intros s w w' (Hd & _ & Ho). by apply lb_tracks_view. Qed.
Next Obligation. intros s. cbn. unfold nn_xpush_events. by destruct (nn_lb_can_send _). Qed.
Next Obligation.
  intros [lb] w p options Hw Hr Hp Hv _. cbn [sb_add xpush_proto]. unfold nn_xpush_add, xpush_rep in *.
  destruct (pipe_option_ok w p options) as [-> _]. mred. destruct (valid_priorities _ _ Hv) as [Hs _].
  decide_bools. mred. rewrite set_data_ok. mred. eexists _, _, 0. split; [done|].
  decide_bools. apply lb_add_tracks; [done..|apply alloc_fresh|done].
Qed.
Next Obligation.
  intros [lb] w p pb Hw Hr Hp He. cbn [sb_rm xpush_proto]. unfold nn_xpush_rm, xpush_rep in *. cbn [xpush_lb] in *.
  destruct (lb_tracks_data _ _ _ _ Hr Hp) as [x Hx]. rewrite (pipe_data_ok _ _ _ _ Hp Hx). mred.
  destruct (lb_rm_tracks _ _ _ _ _ Hr Hp Hx) as (lb' & -> & Hr' & _). mred.
  rewrite priority_stat by (by eapply lb_can_send_priority). mred. eexists _, _. split; [done|].
  split; [by apply handled_stat|]. cbn. exact Hr'.
Qed.
Next Obligation.
  intros [lb] w p es _ Hw Hr He. cbn. eexists _, _. split; [done|].
  split; [by eapply handled_refl, pop_world_ok|]. by eapply lb_pop_in_tracks.
Qed.
Next Obligation.
  intros [lb] w p es Hw Hr He. cbn [sb_out xpush_proto]. unfold nn_xpush_out, xpush_rep in *. cbn [xpush_lb] in *.
  destruct (pop_out w p es Hw He) as (_ & _ & _ & _ & pb & Hp).
  destruct (lb_tracks_data _ _ _ _ Hr Hp) as [x Hx]. rewrite (pipe_data_ok (set_events w es) p pb x Hp Hx). mred.
  destruct (lb_out_tracks _ _ _ _ _ _ Hw Hr He Hp Hx) as (lb' & -> & Hr' & _). mred.
  rewrite priority_stat by (by eapply lb_can_send_priority). mred. eexists _, _. split; [done|].
  split; [apply handled_stat; [done|by eapply pop_world_ok]|]. cbn. exact Hr'.
Qed.
Next Obligation.
  intros [lb] w m _ _ Hw Hr. cbn [sb_send xpush_proto]. unfold nn_xpush_send, xpush_rep in *. cbn [xpush_lb] in *.
  destruct (nn_lb_send_tracks w lb m Hw Hr) as [[-> _]|(q & lb' & w' & -> & _ & Hs & Hr' & _)]; mred.
  - eexists _, _, _. split; [done|]. split; [unfold EAGAIN; lia|]. split; [by apply handled_refl|done].
  - eexists _, _, _. split; [done|]. split; [done|]. split; [apply Hs|done].
Qed.
Next Obligation. done. Qed.
Next Obligation. done. Qed.

#[export, program] Instance xpull_spec : SockSpec T (nn_xpull St L) := {| sk_hears := true; sk_sends m := true; sk_takes _ _ := true; sk_room n s := True;
  sk_room_le _ _ _ := I; sk_room_add _ _ _ _ _ _ _ _ _ := I; sk_room_step _ _ _ _ _ := I; sk_rep := xpull_rep |}.
Next Obligation. intros s w w' (Hd & Hi & _). by apply fq_tracks_view. Qed.
Next Obligation. intros s. cbn. unfold nn_xpull_events. by destruct (nn_fq_can_recv _). Qed.
Next Obligation.
  intros [fq] w p options Hw Hr Hp Hv _. cbn [sb_add xpull_proto]. unfold nn_xpull_add, xpull_rep in *.
  destruct (pipe_option_ok w p options) as [_ ->]. mred. destruct (valid_priorities _ _ Hv) as [_ Hs].
  decide_bools. mred. rewrite set_data_ok. mred. eexists _, _, 0. split; [done|].
  decide_bools. apply fq_add_tracks; [done..|apply alloc_fresh|done].
Qed.
Next Obligation.
  intros [fq] w p pb Hw Hr Hp He. cbn [sb_rm xpull_proto]. unfold nn_xpull_rm, xpull_rep in *. cbn [xpull_fq] in *.
  destruct (fq_tracks_data _ _ _ _ Hr Hp) as [x Hx]. rewrite (pipe_data_ok _ _ _ _ Hp Hx). mred.
  destruct (fq_rm_tracks _ _ _ _ _ Hr Hp Hx) as (fq' & -> & Hr' & _). mred.
  eexists _, _. split; [done|]. split; [by apply handled_refl|done].
Qed.
Next Obligation.
  intros [fq] w p es _ Hw Hr He. cbn [sb_in xpull_proto]. unfold nn_xpull_in, xpull_rep in *. cbn [xpull_fq] in *.
  destruct (pop_in w p es Hw He) as (_ & _ & _ & _ & pb & Hp).
  destruct (fq_tracks_data _ _ _ _ Hr Hp) as [x Hx]. rewrite (pipe_data_ok (set_events w es) p pb x Hp Hx). mred.
  destruct (fq_in_tracks _ _ _ _ _ _ Hw Hr He Hp Hx) as (fq' & -> & Hr' & _). mred.
  eexists _, _. split; [done|]. split; [by eapply handled_refl, pop_world_ok|done].
Qed.
Next Obligation.
  intros [fq] w p es Hw Hr He. cbn. eexists _, _. split; [done|].
  split; [by eapply handled_refl, pop_world_ok|]. by eapply fq_pop_out_tracks.
Qed.
Next Obligation. done. Qed.
Next Obligation.
  intros [fq] w _ _ Hw Hr. cbn [sb_recv xpull_proto]. unfold nn_xpull_recv, xpull_rep in *. cbn [xpull_fq] in *.
  destruct (nn_fq_recv_tracks w fq Hw Hr) as [[-> _]|(q & fq' & w' & rc & m & -> & _ & Hrc & Hs & Hr' & _)]; mred.
  - exists (Xpull fq), w, (- EAGAIN), None. split; [done|]. split; [unfold EAGAIN; lia|].
    split; [by apply handled_refl|]. split; [done|]. by split; [|intros [? ?]].
  - eexists _, _, _, _. split; [done|]. rewrite (bool_decide_false (rc < 0)) by (unfold NN_PIPE_PARSED in *; lia).
    split; [done|]. split; [apply Hs|]. split; [done|]. by split; [eexists|].
Qed.
Next Obligation. done. Qed.
#[export] Instance xpull_takes : SockTakes T (nn_xpull St L).
Proof. by intros s w. Qed.
#[export] Instance xpush_takes : SockTakes T (nn_xpush St L).
Proof. by intros s w. Qed.
End PipelineSpec.

Section PipelineLedger.
  Context {St L T : Type} `{ListSpec St L} `{TransportSpec T}.
  Implicit Types (w : world T) (p : addr).

Lemma setdata_net w p d w' : nn_pipe_setdata w p d = Ok w' -> w_net w' = w_net w.
Proof. unfold nn_pipe_setdata. intros E. inv_ok. done. Qed.

#[export, program] Instance xpush_ledger : SockLedger T (nn_xpush St L).
Next Obligation.
  intros s w p s' w' rc E. cbn in E. unfold nn_xpush_add in E. inv_ok. by eapply setdata_net.
Qed.
Next Obligation. intros s w p s' w' E. cbn in E. unfold nn_xpush_rm in E. inv_ok. by eapply stat_net. Qed.
Next Obligation. intros s w p s' w' E. cbn in E. unfold nn_xpush_in in E. by simplify_eq. Qed.
Next Obligation. intros s w p s' w' E. cbn in E. unfold nn_xpush_out in E. inv_ok. by eapply stat_net. Qed.
Next Obligation.
  intros [lb] w m s' w' rc _ Hw Hr E. cbn in E. unfold nn_xpush_send in E. cbn [xpush_lb] in E.
  destruct (nn_lb_send_tracks w lb m Hw Hr) as [[E' _]|(q & lb' & w1 & E' & _ & Hs & _)]; rewrite E' in E;
    mred in E; simplify_eq.
  - rewrite bool_decide_false by done. by rewrite app_nil_r.
  - rewrite (so_sent _ _ _ _ Hs), (so_rcvd _ _ _ _ Hs), fmap_app. by rewrite bool_decide_true.
Qed.
Next Obligation. done. Qed.
Next Obligation. done. Qed.

#[export, program] Instance xpull_ledger : SockLedger T (nn_xpull St L).
Next Obligation.
  intros s w p s' w' rc E. cbn in E. unfold nn_xpull_add in E. inv_ok. by eapply setdata_net.
Qed.
Next Obligation. intros s w p s' w' E. cbn in E. unfold nn_xpull_rm in E. by inv_ok. Qed.
Next Obligation. intros s w p s' w' E. cbn in E. unfold nn_xpull_in in E. by inv_ok. Qed.
Next Obligation. intros s w p s' w' E. cbn in E. unfold nn_xpull_out in E. by simplify_eq. Qed.
Next Obligation. done. Qed.
Next Obligation.
  intros [fq] w s' w' rc m _ Hw Hr E. cbn in E. unfold nn_xpull_recv in E. cbn [xpull_fq] in E.
  destruct (nn_fq_recv_tracks w fq Hw Hr) as [[E' _]|(q & fq' & w1 & rc1 & m1 & E' & _ & _ & Hs & _)]; rewrite E' in E;
    mred in E; simplify_eq.
  - cbn. by rewrite app_nil_r.
  - by rewrite (ro_rcvd _ _ _ _ Hs), (ro_sent _ _ _ _ Hs), fmap_app.
Qed.
Next Obligation. done. Qed.
End PipelineLedger.

(** ** Results *)

(** C14.  A PUSH or PULL session - pipes connecting and closing, transports
    reporting completions, the user sending and receiving, in any order -
    never aborts, keeps the socket's invariant (among others, its descriptor
    is signalled exactly when sending, or receiving, would succeed), and
    hands every message over exactly once: what the pipes were given is, in
    order, what the user was told is sent, and what the user received is, in
    order, what the pipes delivered. *)
Theorem pipeline_session {St L T} `{ListSpec St L} `{TransportSpec T} (links : St) (net : T) (os : list sock_op) :
  (exists (k : nn_sock T (nn_xpush St L)) rs,
     (k ← nn_sock_init (nn_xpush_init links) net; sock_run k os) = Ok (k, rs) /\ sock_inv k
     /\ snd <$> sent (w_net (sk_world k)) = (snd <$> sent net) ++ accepted os rs) /\
  (exists (k : nn_sock T (nn_xpull St L)) rs,
     (k ← nn_sock_init (nn_xpull_init links) net; sock_run k os) = Ok (k, rs) /\ sock_inv k
     /\ snd <$> rcvd (w_net (sk_world k)) = (snd <$> rcvd net) ++ delivered rs).
Proof.
  split.
  - destruct (sock_session_ledger (nn_xpush_init (L := L) links) net os) as (k & rs & E & Hk & Hs & _);
      [by apply lb_tracks_init|by apply fits_any|eauto].
  - destruct (sock_session_ledger (nn_xpull_init (L := L) links) net os) as (k & rs & E & Hk & _ & Hr);
      [by apply fq_tracks_init|by apply fits_any|eauto].
Qed.

(** Which pipe a PUSH socket uses: sending fails with [EAGAIN] exactly
    when no pipe is writable, and otherwise passes the message to one
    writable pipe than which no writable pipe has a better (smaller)
    [NN_SNDPRIO]; every other pipe stays as it was. *)
Theorem xpush_send_best {St L T} `{ListSpec St L} `{TransportSpec T} (s : nn_xpush St L) (w : world T) (m : nn_msg) :
  world_ok w -> xpush_rep s w ->
  (nn_xpush_send s w m = Ok (s, w, - EAGAIN) /\ forall q, ~ off_out w q) \/
  (exists s' w' q pb, nn_xpush_send s w m = Ok (s', w', 0) /\ xpush_rep s' w'
     /\ w_pipes w !! q = Some pb /\ off_out w q /\ sent (w_net w') = sent (w_net w) ++ [(q, m)]
     /\ (forall r pbr, w_pipes w !! r = Some pbr -> off_out w r ->
           opt_sndprio (pb_options pb) <= opt_sndprio (pb_options pbr))
     /\ (forall r, r <> q -> off_out w r <-> off_out w' r)).
Proof.
  intros Hw [a Ha]. pose proof (nn_lb_send_ok w (xpush_lb s) m a Hw Ha) as Hs.
  pose proof (tracks_out _ _ _ _ _ _ Ha) as Ho. unfold nn_xpush_send.
  destruct (aprio_out a).1 as [q|].
  - right. destruct Hs as (lb' & w' & -> & _ & Hs & Hr & _), Ho as (pb & Hq & Hoff & Hbest). mred.
    eexists _, w', q, pb. split; [done|]. repeat (split; [done|]).
    split; [apply Hs|]. split; [done|]. intros r Hne. by apply (so_out _ _ _ _ Hs).
  - left. destruct Hs as [-> _]. mred. split; [by destruct s|]. intros q Hq. pose proof Hq as (pb & Hp & _).
    by eapply Ho.
Qed.

Definition demo_opts (prio : Z) : nn_ep_options := EpOptions prio prio 1.
Definition demo_net : loop_net := LoopNet [] [] [Msg [] [] [1]; Msg [] [] [2]].
Definition demo_push_ops : list sock_op :=
  [KConnect 5 (demo_opts 2); KConnect 6 (demo_opts 1); KSend (Msg [] [] [1; 2]); KSend (Msg [] [] [3]); KSent 6;
   KSend (Msg [] [] [4])].

(** The state of a session, for the examples. *)
Definition session_state {T S} `{SockProto T S} (s : S) (net : T) (os : list sock_op) : result (nn_sock T S) :=
  k ← nn_sock_init s net; '(k, _) ← sock_run k os; Ok k.

Lemma session_state_ok {T S} `{SockTakes T S} (s : S) (net : T) (os : list sock_op) :
  sk_rep s (World net ∅ [] (fun _ => 0)) -> fits s os ->
  exists k, session_state s net os = Ok k /\ sock_inv k.
Proof.
  intros Hr Hos. destruct (sock_session_ok s net os Hr Hos) as (k & rs & E & Hk). exists k. split; [|done].
  unfold session_state. destruct (nn_sock_init s net) as [k0|]; [|done]. mred in E. mred. rewrite E. done.
Qed.

Lemma xpush_send_best_witness :
  exists k : nn_sock loop_net (nn_xpush store nn_list),
  session_state (nn_xpush_init ∅) demo_net (take 3 demo_push_ops) = Ok k /\
  ((nn_xpush_send (sk_base k) (sk_world k) (Msg [] [] [3]) = Ok (sk_base k, sk_world k, - EAGAIN)
    /\ forall q, ~ off_out (sk_world k) q) \/
   (exists s' w' q pb, nn_xpush_send (sk_base k) (sk_world k) (Msg [] [] [3]) = Ok (s', w', 0) /\ xpush_rep s' w'
     /\ w_pipes (sk_world k) !! q = Some pb /\ off_out (sk_world k) q
     /\ sent (w_net w') = sent (w_net (sk_world k)) ++ [(q, Msg [] [] [3])]
     /\ (forall r pbr, w_pipes (sk_world k) !! r = Some pbr -> off_out (sk_world k) r ->
           opt_sndprio (pb_options pb) <= opt_sndprio (pb_options pbr))
     /\ (forall r, r <> q -> off_out (sk_world k) r <-> off_out w' r))).
Proof.
  destruct (session_state_ok (nn_xpush_init (L := nn_list) (∅ : store)) demo_net (take 3 demo_push_ops)) as (k & E & Hk);
    [by apply lb_tracks_init|by apply fits_any|].
  exists k. split; [exact E|]. apply xpush_send_best; [apply Hk|apply (si_rep _ Hk)].
Defined.

(** The session above, run: pipe 6 has the better priority and takes the
    first message asynchronously, so the second goes to pipe 5, and the third
    to pipe 6 again. *)
Example push_demo :
  (k ← nn_sock_init (nn_xpush_init (L := nn_list) (∅ : store)) demo_net;
   '(k, rs) ← sock_run k demo_push_ops; Ok (rs, sent (w_net (sk_world k))))
  = Ok ([ONone; ONone; OSend 0; OSend 0; ONone; OSend 0],
        [(6%positive, Msg [] [] [1; 2]); (5%positive, Msg [] [] [3]); (6%positive, Msg [] [] [4])]).
Proof. vm_compute. reflexivity. Qed.

Lemma pipeline_session_witness :
  (exists (k : nn_sock loop_net (nn_xpush store nn_list)) rs,
     (k ← nn_sock_init (nn_xpush_init ∅) demo_net; sock_run k demo_push_ops) = Ok (k, rs) /\ sock_inv k
     /\ snd <$> sent (w_net (sk_world k)) = (snd <$> sent demo_net) ++ accepted demo_push_ops rs) /\
  (exists (k : nn_sock loop_net (nn_xpull store nn_list)) rs,
     (k ← nn_sock_init (nn_xpull_init ∅) demo_net; sock_run k demo_push_ops) = Ok (k, rs) /\ sock_inv k
     /\ snd <$> rcvd (w_net (sk_world k)) = (snd <$> rcvd demo_net) ++ delivered rs).
Proof. apply (pipeline_session (∅ : store) demo_net demo_push_ops). Defined.
