(* ===== verification/Blocking.v ===== *)
(** * Calls that wait ([nn_sock_send] and [nn_sock_recv] of [core/sock.c], [utils/efd.c])

    Without NN_DONTWAIT a call that cannot be served leaves the context, waits
    for the descriptor of the socket, enters the context again, and tries once
    more with what is left of its time.  Meanwhile other threads use the
    socket, and may close it.  [Sock] has one attempt; this file has the wait
    and the loop, the clock and the kernel's answers being a script. *)

From S2P Require Import Prelude NNList Wire Pipe Timer Priolist Balance Sock Members Pipeline.
Local Open Scope Z_scope.

Definition EINTR : Z := 4.
Definition ETERM : Z := 156384765.

(** ** [nn_efd_wait] *)

Inductive poll_answer := PollReady | PollTimeout | PollIntr.

(** One round of its loop: whether there is a descriptor, the clock, what
    [poll] answers, and the clock afterwards. *)
Record round := Round { rd_fd : bool; rd_now : Z; rd_poll : poll_answer; rd_after : Z }.

(** [(uint64_t) -1]. *)
Definition no_expiry : Z := 2 ^ 64 - 1.

(** The argument of [poll]; [None]: the time is over. *)
Definition poll_timeout (expire now : Z) : option Z :=
  if bool_decide (expire = 0) then Some 0
  else if bool_decide (expire = no_expiry) then Some 100
  else let timeout := to_int (u64 (expire - now)) in
       if bool_decide (timeout < 0) then None else if bool_decide (timeout > 100) then Some 100 else Some timeout.

(** [None]: it still waits. *)
Fixpoint efd_rounds (expire : Z) (rounds : list round) : option Z :=
  match rounds with
  | [] => None
  | r :: rounds =>
      if negb (rd_fd r) then Some (- EBADF)
      else
        match poll_timeout expire (rd_now r) with
        | None => Some (- ETIMEDOUT)
        | Some _ =>
            match rd_poll r with
            | PollIntr => Some (- EINTR)
            | PollTimeout =>
                if bool_decide (expire = 0) then Some (- ETIMEDOUT)
                else if negb (bool_decide (expire = no_expiry)) && bool_decide (expire < rd_after r) then Some (- ETIMEDOUT)
                else efd_rounds expire rounds
            | PollReady => Some 0
            end
        end
  end.

Definition nn_efd_wait (timeout start : Z) (rounds : list round) : option Z :=
  efd_rounds (if bool_decide (timeout > 0) then u64 (start + timeout) else u64 timeout) rounds.

(** The clock, in milliseconds, does not wrap and does not go back. *)
Definition reading (t x : Z) : Prop := t <= x < 2 ^ 62.
Definition rounds_after (t : Z) (rounds : list round) : Prop := Forall (fun r => reading t (rd_now r) /\ reading t (rd_after r) /\ rd_after r < t + 2 ^ 31 /\ rd_now r < t + 2 ^ 31) rounds.
(** [t] is read in one of the rounds. *)
Definition read_in (rounds : list round) (t : Z) : Prop := exists r, r ∈ rounds /\ (t = rd_now r \/ t = rd_after r).

Lemma poll_timeout_bounded expire now : 0 < expire < no_expiry -> - 2 ^ 31 <= expire - now < 2 ^ 31 ->
  poll_timeout expire now = if bool_decide (expire < now) then None else Some (Z.min 100 (expire - now)).
Proof.
  intros He Hd. unfold poll_timeout. decide_bools. rewrite to_int_small by lia. repeat case_bool_decide; try lia; try done; f_equal; lia.
Qed.

(** A wait with a limit ends when the clock is beyond it, and not before. *)
Lemma bounded_wait t timeout rounds : 0 <= t -> 0 < timeout <= INT_MAX -> t + timeout < 2 ^ 62 -> rounds_after t rounds ->
  match nn_efd_wait timeout t rounds with
  | None => Forall (fun r => rd_now r <= t + timeout /\ rd_after r <= t + timeout) rounds
  | Some rc => rc = 0 \/ rc = - EBADF \/ rc = - EINTR \/ rc = - ETIMEDOUT /\ exists x, read_in rounds x /\ t + timeout < x
  end.
Proof.
  intros Ht Hto Hmax. unfold nn_efd_wait, INT_MAX in *. rewrite bool_decide_true by lia. rewrite wrap_small by (unfold in_range; lia).
  assert (forall r, reading t (rd_now r) -> rd_now r < t + 2 ^ 31 -> poll_timeout (t + timeout) (rd_now r) = if bool_decide (t + timeout < rd_now r) then None else Some (Z.min 100 (t + timeout - rd_now r))) as P.
  { intros r [? ?] ?. apply poll_timeout_bounded; unfold no_expiry; lia. }
  induction 1 as [|r rounds (R1 & R2 & R3 & R4) _ IH]; cbn [efd_rounds]; [constructor|].
  destruct (rd_fd r); cbn [negb]; [|auto]. rewrite P by done. case_bool_decide as Hover.
  - right. right. right. split; [done|]. exists (rd_now r). split; [|done]. exists r. split; [apply list_elem_of_here|by left].
  - destruct (rd_poll r); [by left| |auto]. unfold no_expiry. decide_bools. cbn [negb andb]. case_bool_decide as Hafter.
    + right. right. right. split; [done|]. exists (rd_after r). split; [|done]. exists r. split; [apply list_elem_of_here|by right].
    + destruct (efd_rounds (t + timeout) rounds) as [rc|].
      * destruct IH as [->|[->|[->|[-> (x & (r' & Hin & Hx) & Hlt)]]]]; auto. right. right. right. split; [done|]. exists x. split; [|done]. exists r'. split; [by right|done].
      * constructor; [lia|done].
Qed.

(** One without limit has no time to be over. *)
Lemma endless_wait t rounds : match nn_efd_wait (-1) t rounds with Some rc => rc = 0 \/ rc = - EBADF \/ rc = - EINTR | None => True end.
Proof.
  unfold nn_efd_wait. change (if bool_decide (-1 > 0) then u64 (t + -1) else u64 (-1)) with no_expiry.
  induction rounds as [|r rounds IH]; cbn [efd_rounds]; [done|]. destruct (rd_fd r); cbn [negb]; [|auto].
  change (poll_timeout no_expiry (rd_now r)) with (Some 100). destruct (rd_poll r); [auto| |auto]. exact IH.
Qed.

(** One with no time asks the kernel once. *)
Lemma no_wait t rounds : match nn_efd_wait 0 t rounds with Some rc => rc = 0 \/ rc = - EBADF \/ rc = - EINTR \/ rc = - ETIMEDOUT | None => rounds = [] end.
Proof.
  unfold nn_efd_wait. change (if bool_decide (0 > 0) then u64 (t + 0) else u64 0) with 0. destruct rounds as [|r rounds]; [done|]. cbn [efd_rounds].
  destruct (rd_fd r); cbn [negb]; [|auto]. change (poll_timeout 0 (rd_now r)) with (Some 0). destruct (rd_poll r); [auto| |auto]. rewrite bool_decide_eq_true_2 by done. auto 6.
Qed.

(** What the other failures come from. *)
Lemma failed_wait t timeout rounds rc : nn_efd_wait timeout t rounds = Some rc ->
  (rc = - EBADF -> exists r, r ∈ rounds /\ rd_fd r = false) /\ (rc = - EINTR -> exists r, r ∈ rounds /\ rd_poll r = PollIntr).
Proof.
  unfold nn_efd_wait. set (expire := if bool_decide (timeout > 0) then _ else _). clearbody expire.
  induction rounds as [|r rounds IH]; cbn [efd_rounds]; [done|].
  assert (efd_rounds expire rounds = Some rc -> (rc = - EBADF -> exists r', r' ∈ r :: rounds /\ rd_fd r' = false) /\ (rc = - EINTR -> exists r', r' ∈ r :: rounds /\ rd_poll r' = PollIntr)) as Hrest.
  { intros E. destruct (IH E) as [H1 H2]. split; intros Hrc; [destruct (H1 Hrc) as (r' & ? & ?)|destruct (H2 Hrc) as (r' & ? & ?)]; exists r'; (split; [by right|done]). }
  destruct (rd_fd r) eqn:Ef; cbn [negb]; [|intros [= <-]; split; [|done]; intros _; exists r; split; [apply list_elem_of_here|done]].
  destruct (poll_timeout _ _); [|by intros [= <-]].
  destruct (rd_poll r) eqn:Ep; [by intros [= <-]| |intros [= <-]; split; [done|]; intros _; exists r; split; [apply list_elem_of_here|done]].
  destruct (bool_decide (expire = 0)); [by intros [= <-]|]. destruct (_ && _); [by intros [= <-]|exact Hrest].
Qed.

(** ** The two calls *)

Section Calls.
  Context {T S : Type} `{SockProto T S}.
  Local Abbreviation sock := (nn_sock T S).
  Implicit Types (k : sock).

(** One wait: its rounds, what other threads do to the socket before the
    context is entered again, whether one of them closes it, whether a signal
    comes during the second look, and the clock after it. *)
Record wake := Wake { wk_start : Z; wk_rounds : list round; wk_ops : list sock_op; wk_closed : bool; wk_intr : bool; wk_now : Z }.

(** [nn_sock_handler] when it is stopped. *)
Definition closing k : sock := Sock NN_SOCK_STATE_STOPPING_EPS (sk_base k) (sk_world k) (sk_flag_in k) (sk_flag_out k) (nn_efd_signal (sk_rcvfd k)) (nn_efd_signal (sk_sndfd k)).

(** The call returns what the last attempt gave, or what its wait gave; or it
    waits, with the given time. *)
Inductive outcome (A : Type) := Attempted (k : sock) (rc : Z) (a : A) | WaitEnded (k : sock) (rc : Z) | Waiting (k : sock) (timeout : Z) (w : option wake).
Arguments Attempted {A}. Arguments WaitEnded {A}. Arguments Waiting {A}.

(** The loop; [fd] and [set_flag] are the descriptor and the flag of the
    direction. *)
Section Loop.
  Context {A : Type} (attempt : sock -> result (sock * Z * A)) (fd : sock -> bool) (set_flag : sock -> sock) (dontwait : bool) (timeo deadline : Z).

Fixpoint wait_loop (timeout : Z) k (wakes : list wake) : result (outcome A) :=
  '(k, rc, a) ← attempt k;
  if negb (bool_decide (rc = - EAGAIN)) || dontwait then Ok (Attempted k rc a)
  else
    match wakes with
    | [] => Ok (Waiting k timeout None)
    | w :: wakes =>
        match nn_efd_wait timeout (wk_start w) (wk_rounds w) with
        | None => Ok (Waiting k timeout (Some w))
        | Some rc =>
            if bool_decide (rc = - ETIMEDOUT) || bool_decide (rc = - EINTR) || bool_decide (rc = - EBADF) then Ok (WaitEnded k rc)
            else
              _ ← assert_ (bool_decide (rc = 0));
              '(k, _) ← sock_run k (wk_ops w);
              let k := if wk_closed w then closing k else k in
              let again := Round true 0 (if wk_intr w then PollIntr else if fd k then PollReady else PollTimeout) 0 in
              let k := if bool_decide (nn_efd_wait 0 0 [again] = Some 0) then set_flag k else k in
              let timeout := if bool_decide (timeo >= 0) then to_int (if bool_decide (wk_now w > deadline) then 0 else u64 (deadline - wk_now w)) else timeout in
              wait_loop timeout k wakes
        end
    end.
End Loop.

Definition set_flag_out k : sock := Sock (sk_state k) (sk_base k) (sk_world k) (sk_flag_in k) true (sk_rcvfd k) (sk_sndfd k).
Definition set_flag_in k : sock := Sock (sk_state k) (sk_base k) (sk_world k) true (sk_flag_out k) (sk_rcvfd k) (sk_sndfd k).

(** The deadline and the first timeout. *)
Definition deadline_of (timeo now : Z) : Z := if bool_decide (timeo < 0) then no_expiry else u64 (now + timeo).
Definition timeout_of (timeo : Z) : Z := if bool_decide (timeo < 0) then -1 else timeo.

Definition nn_sock_send_wait k (msg : nn_msg) (dontwait : bool) (sndtimeo now : Z) (wakes : list wake) : result (outcome unit) :=
  wait_loop (fun k => '(k, rc) ← nn_sock_send k msg; Ok (k, rc, tt)) sk_sndfd set_flag_out dontwait sndtimeo (deadline_of sndtimeo now) (timeout_of sndtimeo) k wakes.
Definition nn_sock_recv_wait k (dontwait : bool) (rcvtimeo now : Z) (wakes : list wake) : result (outcome (option nn_msg)) :=
  wait_loop nn_sock_recv sk_rcvfd set_flag_in dontwait rcvtimeo (deadline_of rcvtimeo now) (timeout_of rcvtimeo) k wakes.
End Calls.
Arguments outcome : clear implicits.
Arguments Attempted {T S A}. Arguments WaitEnded {T S A}. Arguments Waiting {T S A}.

(** ** What they guarantee *)

Section Safe.
  Context {T S : Type} `{SockTakes T S}.
  Local Abbreviation sock := (nn_sock T S).
  Implicit Types (k : sock).

(** The clock of a script, from [t] on. *)
Fixpoint clock_ok (t : Z) (wakes : list wake) : Prop :=
  match wakes with
  | [] => True
  | w :: wakes => t <= wk_start w /\ rounds_after (wk_start w) (wk_rounds w) /\ wk_start w <= wk_now w < 2 ^ 61 /\ clock_ok (wk_now w) wakes
  end.

(** The time is over at the clock reading [t] of the script. *)
Inductive reads (now : Z) (wakes : list wake) : Z -> Prop :=
  | ReadsNow : reads now wakes now
  | ReadsEnter w : w ∈ wakes -> reads now wakes (wk_now w)
  | ReadsRound w t : w ∈ wakes -> read_in (wk_rounds w) t -> reads now wakes t.

Lemma reads_later now w wakes t : reads (wk_now w) wakes t -> reads now (w :: wakes) t.
Proof. intros [|w' Hw|w' t' Hw Hr]; [apply ReadsEnter, list_elem_of_here|apply ReadsEnter; by right|eapply ReadsRound; [by right|done]]. Qed.

(** Something happened in a round of the script. *)
Definition happened (P : round -> Prop) (wakes : list wake) : Prop := exists w r, w ∈ wakes /\ r ∈ wk_rounds w /\ P r.

Lemma happened_later P w wakes : happened P wakes -> happened P (w :: wakes).
Proof. intros (w' & r & ? & ? & ?). exists w', r. split_and!; [by right|done..]. Qed.

(** The outcomes; [last] is the last clock reading before the script.  A call that waits still has time, or asks just once more,
    and no clock reading of the wait is beyond its limit. *)
Definition outcome_ok {A} (timeo now last : Z) (dontwait : bool) (wakes : list wake) (o : outcome T S A) : Prop :=
  match o with
  | Attempted k rc _ => rc <= 0 /\ (rc = - EAGAIN -> dontwait = true) /\ (sock_inv k \/ rc = - EBADF /\ exists w, w ∈ wakes /\ wk_closed w = true)
  | WaitEnded k rc => dontwait = false /\ sock_inv k /\ (rc = - EINTR /\ happened (fun r => rd_poll r = PollIntr) wakes \/ rc = - EBADF /\ happened (fun r => rd_fd r = false) wakes \/
      rc = - ETIMEDOUT /\ 0 <= timeo /\ exists t, reads last wakes t /\ now + timeo <= t)
  | Waiting k timeout w => dontwait = false /\ sock_inv k /\ (timeo < 0 -> timeout = -1) /\ (0 <= timeo -> 0 <= timeout <= timeo) /\
      match w with
      | Some w => w ∈ wakes /\ (0 < timeout -> Forall (fun r => rd_now r <= wk_start w + timeout /\ rd_after r <= wk_start w + timeout) (wk_rounds w)) /\ (timeout = 0 -> wk_rounds w = [])
      | None => True
      end
  end.

Section Loop.
  Context {A : Type} (attempt : sock -> result (sock * Z * A)) (op : sock_op) (fd : sock -> bool) (set_flag : sock -> sock) (dontwait : bool) (timeo now : Z).
  (** One attempt is a step of the socket, and fails on one that is closing. *)
  Hypothesis attempt_step : forall k, sock_inv k -> fits (sk_base k) [op] -> exists k' rc a out, attempt k = Ok (k', rc, a) /\ rc <= 0 /\ sock_step k op = Ok (k', out) /\ sock_inv k'.
  Hypothesis attempt_again : forall k k' a, attempt k = Ok (k', - EAGAIN, a) -> forall k1, sk_state k1 = NN_SOCK_STATE_STOPPING_EPS -> w_events (sk_world k1) = [] ->
    exists a1, attempt k1 = Ok (k1, - EBADF, a1).
  Hypothesis flag_set : forall k0 k0' a, attempt k0 = Ok (k0', - EAGAIN, a) -> forall k, sock_inv k -> fd k = true -> set_flag k = k.
  Hypothesis flag_keeps : forall k, sk_state (set_flag k) = sk_state k /\ sk_world (set_flag k) = sk_world k.
  Hypothesis timeo_ok : - 2 ^ 31 <= timeo <= INT_MAX.
  Hypothesis now_ok : 0 <= now < 2 ^ 61.

(** All that happens to the socket. *)
Fixpoint all_ops (wakes : list wake) : list sock_op := op :: match wakes with [] => [] | w :: wakes => wk_ops w ++ all_ops wakes end.

(** What is left of the time: at [last], the last reading of the clock. *)
Definition left_of (last timeout : Z) : Prop :=
  (timeo < 0 -> timeout = -1) /\ (0 <= timeo -> 0 <= timeout <= timeo /\ (timeout = 0 /\ now + timeo <= last \/ 0 < timeout /\ last + timeout = now + timeo)).

Lemma left_first : left_of now (timeout_of timeo).
Proof. unfold left_of, timeout_of. case_bool_decide; split; intros; lia. Qed.

Lemma left_next last t timeout : now <= t < 2 ^ 61 -> left_of last timeout ->
  left_of t (if bool_decide (timeo >= 0) then to_int (if bool_decide (t > deadline_of timeo now) then 0 else u64 (deadline_of timeo now - t)) else timeout).
Proof.
  intros Ht [L _]. unfold left_of, deadline_of, INT_MAX in *. destruct (decide (0 <= timeo)) as [Hp|Hp].
  - rewrite (bool_decide_eq_true_2 (timeo >= 0)), (bool_decide_eq_false_2 (timeo < 0)) by lia. rewrite (wrap_small 64 (now + timeo)) by (unfold in_range; lia).
    split; [lia|]. intros _. case_bool_decide; [change (to_int 0) with 0; lia|]. rewrite to_int_small by lia. lia.
  - rewrite (bool_decide_eq_false_2 (timeo >= 0)) by lia. split; [exact L|lia].
Qed.

(** What a wait with this time may return. *)
Lemma wait_of last timeout w : now <= last -> left_of last timeout -> last <= wk_start w < 2 ^ 61 -> rounds_after (wk_start w) (wk_rounds w) ->
  match nn_efd_wait timeout (wk_start w) (wk_rounds w) with
  | None => (0 < timeout -> Forall (fun r => rd_now r <= wk_start w + timeout /\ rd_after r <= wk_start w + timeout) (wk_rounds w)) /\ (timeout = 0 -> wk_rounds w = [])
  | Some rc => rc = 0 \/ rc = - EBADF \/ rc = - EINTR \/ rc = - ETIMEDOUT /\ 0 <= timeo /\ exists t, (t = last \/ read_in (wk_rounds w) t) /\ now + timeo <= t
  end.
Proof.
  intros Hl [L1 L2] Hs R. unfold INT_MAX in *. destruct (decide (0 <= timeo)) as [Hp|Hp].
  - destruct (L2 Hp) as [Hr [[-> Hz]|[Hpos Hd]]].
    + pose proof (no_wait (wk_start w) (wk_rounds w)) as N. destruct (nn_efd_wait 0 _ _) as [rc|]; [|split; [lia|done]].
      destruct N as [->|[->|[->| ->]]]; auto. right. right. right. split; [done|]. split; [done|]. exists last. split; [by left|done].
    + pose proof (bounded_wait (wk_start w) timeout (wk_rounds w) ltac:(lia) ltac:(unfold INT_MAX; lia) ltac:(lia) R) as N.
      destruct (nn_efd_wait timeout _ _) as [rc|]; [|split; [done|lia]].
      destruct N as [->|[->|[->|[-> (x & Hx & Hlt)]]]]; auto. right. right. right. split; [done|]. split; [done|]. exists x. split; [by right|lia].
  - rewrite L1 by lia. pose proof (endless_wait (wk_start w) (wk_rounds w)) as N. destruct (nn_efd_wait (-1) _ _) as [rc|]; [|split; lia].
    destruct N as [->|[->| ->]]; auto.
Qed.

(** The second look finds the flag as it should be. *)
Lemma again_ok k0 k0' a k (intr : bool) : attempt k0 = Ok (k0', - EAGAIN, a) -> sock_inv k ->
  (if bool_decide (nn_efd_wait 0 0 [Round true 0 (if intr then PollIntr else if fd k then PollReady else PollTimeout) 0] = Some 0) then set_flag k else k) = k.
Proof. intros E0 Hk. destruct intr; [done|]. destruct (fd k) eqn:E; [|done]. change (set_flag k = k). by eapply flag_set. Qed.

Lemma again_closing k (intr : bool) : sock_inv k -> exists k1,
  (if bool_decide (nn_efd_wait 0 0 [Round true 0 (if intr then PollIntr else if fd (closing k) then PollReady else PollTimeout) 0] = Some 0) then set_flag (closing k) else closing k) = k1 /\
  sk_state k1 = NN_SOCK_STATE_STOPPING_EPS /\ w_events (sk_world k1) = [].
Proof.
  intros Hk. pose proof (si_events _ Hk). destruct (flag_keeps (closing k)) as [F1 F2]. case_bool_decide; eexists; (split; [done|]); [by rewrite F1, F2|done].
Qed.

Lemma fits_run os1 os2 : forall k k' rs, fits (sk_base k) (os1 ++ os2) -> sock_run k os1 = Ok (k', rs) -> fits (sk_base k') os2.
Proof.
  induction os1 as [|o os1 IH]; intros k k' rs Hf E; cbn in E; [by injection E as <- <-|].
  apply bind_Ok in E as ([k1 r] & E1 & ([k2 rs2] & E2 & E3)%bind_Ok). injection E3 as <- <-. eapply IH; [|exact E2]. by eapply fits_tail.
Qed.
Lemma fits_prefix s os1 os2 : fits s (os1 ++ os2) -> fits s os1.
Proof.
  intros [Hh Hs Hr]. constructor.
  - destruct Hh as [?|Hno]; [by left|right]. intros p Hp. apply (Hno p). set_solver.
  - intros m Hm. apply Hs. set_solver.
  - assert (connects (os1 ++ os2) = connects os2 + connects os1)%nat as E by (clear; induction os1 as [|[] os1 IH]; cbn; lia). rewrite E in Hr. clear E.
    induction (connects os2) as [|n IH]; [done|]. by apply IH, sk_room_le.
Qed.

Local Abbreviation loop := (wait_loop attempt fd set_flag dontwait timeo (deadline_of timeo now)).

Lemma outcome_later last w wakes (o : outcome T S A) : outcome_ok timeo now (wk_now w) dontwait wakes o -> outcome_ok timeo now last dontwait (w :: wakes) o.
Proof.
  destruct o as [k rc a|k rc|k t [w'|]]; cbn; [| |intros (? & ? & ? & ? & Hin & ?); repeat (split; [done|]); split; [by right|done]|done].
  - intros (? & ? & [?|[? (w' & ? & ?)]]); split_and!; try done; [by left|]. right. split; [done|]. exists w'. split; [by right|done].
  - intros (? & ? & [[? ?]|[[? ?]|(? & ? & t & Ht & ?)]]); split_and!; try done; [left; split; [done|by apply happened_later]|right; left; split; [done|by apply happened_later]|]. right. right. split_and!; try done. exists t. split; [by apply reads_later|done].
Qed.

(** A socket that was closed meanwhile. *)
Lemma loop_closing k k' a timeout wakes : attempt k = Ok (k', - EAGAIN, a) -> forall k1, sk_state k1 = NN_SOCK_STATE_STOPPING_EPS -> w_events (sk_world k1) = [] ->
  exists a1, loop timeout k1 wakes = Ok (Attempted k1 (- EBADF) a1).
Proof. intros E k1 Hs1 Hs2. destruct (attempt_again k k' a E k1 Hs1 Hs2) as [a1 E1]. exists a1. destruct wakes; cbn [wait_loop]; rewrite E1; reflexivity. Qed.

Lemma wait_loop_ok wakes : forall last timeout k, sock_inv k -> fits (sk_base k) (all_ops wakes) -> now <= last < 2 ^ 61 -> left_of last timeout -> clock_ok last wakes ->
  exists o, loop timeout k wakes = Ok o /\ outcome_ok timeo now last dontwait wakes o.
Proof.
  induction wakes as [|w wakes IH]; intros last timeout k Hk Hf Hl L C; cbn [wait_loop];
    destruct (attempt_step k Hk (fits_head _ _ _ Hf)) as (k1 & rc & a & out & E & Hrc & Hst & Hk1); rewrite E; mred;
    (destruct (negb (bool_decide (rc = - EAGAIN)) || dontwait) eqn:Hd;
      [eexists; split; [done|]; split; [done|]; split; [intros ->; by rewrite bool_decide_eq_true_2 in Hd|by left]|]);
    apply orb_false_iff in Hd as [Hd1%negb_false_iff%bool_decide_eq_true Hd]; subst rc.
  { eexists. split; [done|]. destruct L as [L1 L2]. cbn. split_and!; try done. intros Hp. by destruct (L2 Hp). }
  cbn [clock_ok] in C. destruct C as (C1 & C2 & C3 & C4). pose proof (wait_of last timeout w ltac:(lia) L ltac:(lia) C2) as W.
  cbn [all_ops] in Hf. pose proof (fits_tail _ _ _ _ _ Hf Hst) as Hf1.
  pose proof (fun rc => failed_wait (wk_start w) timeout (wk_rounds w) rc) as Fail. destruct (nn_efd_wait timeout (wk_start w) (wk_rounds w)) as [rc|].
  2: { eexists. split; [done|]. destruct L as [L1 L2]. cbn. split_and!; try done; [intros Hp; by destruct (L2 Hp)|apply list_elem_of_here|by destruct W..]. }
  destruct W as [->|W].
  2: { exists (WaitEnded k1 rc). split; [by destruct W as [->|[->|[-> _]]]|]. split; [done|]. split; [done|]. destruct (Fail rc eq_refl) as [Fb Fi].
    destruct W as [->|[->|(-> & Hp & t & Ht & Hle)]];
      [right; left; split; [done|]; destruct (Fb eq_refl) as (r & ? & ?)|left; split; [done|]; destruct (Fi eq_refl) as (r & ? & ?)|];
      [exists w, r; split; [apply list_elem_of_here|done]..|].
    right. right. split_and!; try done. exists t. split; [|done]. destruct Ht as [->|Ht]; [apply ReadsNow|]. eapply ReadsRound; [apply list_elem_of_here|done]. }
  change (bool_decide (0 = - ETIMEDOUT) || bool_decide (0 = - EINTR) || bool_decide (0 = - EBADF)) with false. rewrite (bool_decide_eq_true_2 (0 = 0)) by done. mred.
  destruct (sock_run_inv (wk_ops w) k1 Hk1 (fits_prefix _ _ _ Hf1)) as (k2 & rs & E2 & Hk2). rewrite E2. mred. destruct (wk_closed w) eqn:Hc.
  - destruct (again_closing k2 (wk_intr w) Hk2) as (k3 & E3 & S3 & Ev3). rewrite E3. destruct (loop_closing k k1 a
      (if bool_decide (timeo >= 0) then to_int (if bool_decide (wk_now w > deadline_of timeo now) then 0 else u64 (deadline_of timeo now - wk_now w)) else timeout) wakes E k3 S3 Ev3) as [a1 E4].
    eexists. split; [exact E4|]. split; [done|]. split; [done|]. right. split; [done|]. exists w. split; [apply list_elem_of_here|done].
  - rewrite (again_ok k k1 a k2 (wk_intr w) E Hk2). destruct (IH (wk_now w) _ k2 Hk2 (fits_run _ _ _ _ _ Hf1 E2) ltac:(lia) (left_next last (wk_now w) timeout ltac:(lia) L) C4) as (o & Eo & Oo).
    exists o. split; [exact Eo|]. by apply outcome_later.
Qed.
End Loop.

Lemma leave_closing k : sk_state k = NN_SOCK_STATE_STOPPING_EPS -> w_events (sk_world k) = [] -> nn_ctx_leave k = Ok k.
Proof. intros Hs He. unfold nn_ctx_leave. cbn [process_events]. rewrite He. mred. unfold nn_sock_onleave, with_base. cbn [sk_state]. rewrite Hs. destruct k; cbn in *. by subst. Qed.

(** What a caller may rely on.  The manual pages do not agree on the numbers of
    the errors: for a timeout nn_setsockopt.txt has ETIMEDOUT and nn_getsockopt.txt
    EAGAIN, and for a socket that goes away EBADF and ETERM are announced. *)
Definition out_of_time (timeo now last : Z) (wakes : list wake) : Prop := 0 <= timeo /\ exists t, reads last wakes t /\ now + timeo <= t.
Definition gone (rc : Z) : Prop := rc = - EBADF \/ rc = - ETERM.

Definition outcome_allowed {A} (timeo now last : Z) (dontwait : bool) (wakes : list wake) (o : outcome T S A) : Prop :=
  match o with
  | Attempted k rc _ => rc <= 0 /\ (rc = - EAGAIN -> dontwait = true \/ out_of_time timeo now last wakes) /\
      (sock_inv k \/ gone rc /\ exists w, w ∈ wakes /\ wk_closed w = true)
  | WaitEnded k rc => dontwait = false /\ sock_inv k /\
      (rc = - EINTR /\ happened (fun r => rd_poll r = PollIntr) wakes \/ gone rc /\ happened (fun r => rd_fd r = false) wakes \/
       (rc = - ETIMEDOUT \/ rc = - EAGAIN) /\ out_of_time timeo now last wakes)
  | Waiting k timeout w => outcome_ok timeo now last dontwait wakes o
  end.

Lemma outcome_is_allowed {A} timeo now last dontwait wakes (o : outcome T S A) :
  outcome_ok timeo now last dontwait wakes o -> outcome_allowed timeo now last dontwait wakes o.
Proof.
  destruct o as [k rc a|k rc|k t w]; cbn; [| |done].
  - intros (? & Ha & Hk). split; [done|]. split; [intros E; left; by apply Ha|]. destruct Hk as [?|[-> ?]]; [by left|right]. split; [by left|done].
  - intros (? & ? & Hr). split; [done|]. split; [done|]. destruct Hr as [?|[[-> ?]|(-> & ? & ?)]]; [by left|right; left; split; [by left|done]|].
    right. right. split; [by left|by split].
Qed.

(** C36. A call of nn_sock_send or nn_sock_recv that may wait, on a socket whose
    type lets its user receive at any time (all but REQ and SUB), while other
    threads use the socket and may close it: nothing fails; EAGAIN is only
    returned to a caller that asked not to wait or whose time is over; a wait ends
    without a new attempt only when a signal came, when the descriptor of the
    socket was gone, or with one of the two errors that are documented for it when
    the clock has reached the deadline, however often it was woken for nothing; a
    call without timeout never times out, and one with a timeout does not wait on
    when the clock is beyond it; and a call on a socket that is closed meanwhile
    fails with one of the two errors documented for that. *)
Theorem blocking_calls k (m : nn_msg) (dontwait : bool) (timeo now : Z) (wakes : list wake) :
  sock_inv k -> - 2 ^ 31 <= timeo <= INT_MAX -> 0 <= now < 2 ^ 61 -> clock_ok now wakes ->
  (fits (sk_base k) (all_ops (KSend m) wakes) -> exists o, nn_sock_send_wait k m dontwait timeo now wakes = Ok o /\ outcome_allowed timeo now now dontwait wakes o) /\
  (fits (sk_base k) (all_ops KRecv wakes) -> exists o, nn_sock_recv_wait k dontwait timeo now wakes = Ok o /\ outcome_allowed timeo now now dontwait wakes o).
Proof.
  intros Hk Ht Hn C. split; intros Hf;
    match goal with |- exists o, ?call = Ok o /\ _ => cut (exists o, call = Ok o /\ outcome_ok timeo now now dontwait wakes o); [intros (o & E & Ho); exists o; split; [exact E|by apply outcome_is_allowed]|] end.
  - apply (wait_loop_ok _ (KSend m)); try done; [| | |lia|by apply left_first].
    + intros k1 Hk1 F1. destruct (sock_send_ok k1 m Hk1) as (k' & rc & E & I & Hrc); [by apply (ft_sends _ _ F1), list_elem_of_here|].
      exists k', rc, tt, (OSend rc). cbn [sock_step]. rewrite E. by mred.
    + intros k0 k0' [] E0 k1 S1 E1. exists tt. unfold nn_sock_send in *. destruct (sb_nosend (T := T) (S := S)); [done|]. rewrite S1, (leave_closing k1 S1 E1). by mred.
    + intros k0 k0' [] E0 k1 I1 Hfd. assert (sb_nosend (T := T) (S := S) = false) as Hs by (unfold nn_sock_send in E0; by destruct sb_nosend).
      destruct (si_out _ I1 Hs) as [Hflag _]. destruct k1; cbn in *. by subst.
  - apply (wait_loop_ok _ KRecv); try done; [| | |lia|by apply left_first].
    + intros k1 Hk1 F1. destruct (sock_recv_ok k1 Hk1 (sk_takes_all _ _)) as (k' & rc & a & E & I & Hrc & _). exists k', rc, a, (ORecv rc a). cbn [sock_step]. rewrite E. by mred.
    + intros k0 k0' a E0 k1 S1 E1. exists None. unfold nn_sock_recv in *. destruct (sb_norecv (T := T) (S := S)); [done|]. rewrite S1, (leave_closing k1 S1 E1). by mred.
    + intros k0 k0' a E0 k1 I1 Hfd. assert (sb_norecv (T := T) (S := S) = false) as Hs by (unfold nn_sock_recv in E0; by destruct sb_norecv).
      destruct (si_in _ I1 Hs) as [Hflag _]. destruct k1; cbn in *. by subst.
Qed.
End Safe.

(** A PULL socket without pipes: the call waits; the kernel reports nothing
    for 100 ms; then a peer connects and its message arrives. *)
Definition demo_wakes : list wake :=
  [Wake 0 [Round true 0 PollTimeout 100; Round true 100 PollReady 150] [KConnect 5%positive (demo_opts 1); KReceived 5%positive] false false 150].

Lemma blocking_calls_witness : exists (k : nn_sock loop_net (nn_xpull store nn_list)) o, session_state (nn_xpull_init ∅) demo_net [] = Ok k /\
  nn_sock_recv_wait k false 1000 0 demo_wakes = Ok o /\ outcome_allowed 1000 0 0 false demo_wakes o.
Proof.
  destruct (session_state_ok (nn_xpull_init (L := nn_list) (∅ : store)) demo_net []) as (k & E & Hk); [by apply fq_tracks_init|by apply fits_any|].
  exists k. destruct (blocking_calls k (Msg [] [] []) false 1000 0 demo_wakes Hk) as [_ R]; [unfold INT_MAX; lia|lia| |].
  - split; [cbn; lia|]. split; [|split; [cbn; lia|exact I]]. repeat constructor; cbn; lia.
  - destruct (R ltac:(by apply fits_any)) as (o & Eo & Oo). by exists o.
Defined.

(** How it ends; and how it ends when the peer does not come. *)
Definition ended {T S A} (o : result (outcome T S A)) : option (Z * option A) :=
  match o with Ok (Attempted _ rc a) => Some (rc, Some a) | Ok (WaitEnded _ rc) => Some (rc, None) | _ => None end.
Definition recv_after (timeo : Z) (wakes : list wake) : option (Z * option (option nn_msg)) :=
  match session_state (nn_xpull_init (L := nn_list) (∅ : store)) demo_net [] with Ok k => ended (nn_sock_recv_wait k false timeo 0 wakes) | _ => None end.

Example recv_arrives : recv_after 1000 demo_wakes = Some (0, Some (Some (Msg [] [] [1]))).
Proof. vm_compute. reflexivity. Qed.
Example recv_times_out : recv_after 90 demo_wakes = Some (- ETIMEDOUT, None).
Proof. vm_compute. reflexivity. Qed.
Example recv_closed : recv_after (-1) [Wake 0 [Round true 0 PollReady 5] [] true false 5] = Some (- EBADF, Some None).
Proof. vm_compute. reflexivity. Qed.
