(* ===== verification/Pair.v ===== *)
(** * The pair protocol ([protocols/pair/xpair.c])

    A pair socket talks to one peer at a time: its [nn_excl] holds that pipe
    and refuses any other until it is closed. *)

From S2P Require Import Prelude NNList Wire Pipe Sock Balance Members Dist Pipeline.
Local Open Scope Z_scope.

Section Pair.
  Context {T : Type} `{Transport T}.
  Implicit Types (w : world T).

Record nn_xpair := Xpair { xpair_excl : nn_excl }.

Definition nn_xpair_init : nn_xpair := Xpair nn_excl_init.
Definition nn_xpair_term (self : nn_xpair) : result unit := nn_excl_term (xpair_excl self).

Definition nn_xpair_add (self : nn_xpair) w (pipe : addr) : result (nn_xpair * world T * Z) :=
  let '(excl, rc) := nn_excl_add (xpair_excl self) pipe in Ok (Xpair excl, w, rc).

Definition nn_xpair_rm (self : nn_xpair) w (pipe : addr) : result (nn_xpair * world T) :=
  excl ← nn_excl_rm (xpair_excl self) pipe; Ok (Xpair excl, w).

Definition nn_xpair_in (self : nn_xpair) w (pipe : addr) : result (nn_xpair * world T) :=
  excl ← nn_excl_in (xpair_excl self) pipe; Ok (Xpair excl, w).

Definition nn_xpair_out (self : nn_xpair) w (pipe : addr) : result (nn_xpair * world T) :=
  excl ← nn_excl_out (xpair_excl self) pipe; Ok (Xpair excl, w).

Definition nn_xpair_events (self : nn_xpair) : Z :=
  let events := 0 in
  let events := if nn_excl_can_recv (xpair_excl self) then Z.lor events NN_SOCKBASE_EVENT_IN else events in
  if nn_excl_can_send (xpair_excl self) then Z.lor events NN_SOCKBASE_EVENT_OUT else events.

Definition nn_xpair_send (self : nn_xpair) w (msg : nn_msg) : result (nn_xpair * world T * Z) :=
  '(excl, w, rc) ← nn_excl_send (xpair_excl self) w msg; Ok (Xpair excl, w, rc).

Definition nn_xpair_recv (self : nn_xpair) w : result (nn_xpair * world T * Z * option nn_msg) :=
  '(excl, w, rc, m) ← nn_excl_recv (xpair_excl self) w;
  Ok (Xpair excl, w, if bool_decide (rc < 0) then rc else 0, m).

Definition nn_xpair_setopt (self : nn_xpair) (level option : Z) (optval : bytes) : Z := - ENOPROTOOPT.
Definition nn_xpair_getopt (self : nn_xpair) (level option : Z) : Z := - ENOPROTOOPT.

#[export] Instance xpair_proto : SockProto T nn_xpair := {|
  sb_nosend := false;
  sb_norecv := false;
  sb_add := nn_xpair_add;
  sb_rm := nn_xpair_rm;
  sb_in := nn_xpair_in;
  sb_out := nn_xpair_out;
  sb_events := nn_xpair_events;
  sb_send := nn_xpair_send;
  sb_recv := nn_xpair_recv;
  sb_pending s e := false;
  sb_worker s w e := Err BadAccess
|}.
End Pair.

Section PairSpec.
  Context {T : Type} `{TransportSpec T}.
  Implicit Types (w : world T) (p : addr).

(** One direction: [slot] holds pipe [p] exactly while it is offered. *)
Definition excl_slot (slot : option addr) (off : addr -> Prop) p : Prop :=
  (slot = Some p /\ off p) \/ (slot = None /\ ~ off p).

Definition xpair_rep (s : nn_xpair) w : Prop :=
  match ex_pipe (xpair_excl s) with
  | None => (forall q, w_pipes w !! q = None) /\ ex_inpipe (xpair_excl s) = None /\ ex_outpipe (xpair_excl s) = None
  | Some p => (forall q, is_Some (w_pipes w !! q) <-> q = p)
      /\ excl_slot (ex_inpipe (xpair_excl s)) (off_in w) p /\ excl_slot (ex_outpipe (xpair_excl s)) (off_out w) p
  end.

Lemma excl_slot_ext slot off off' p : (off p <-> off' p) -> excl_slot slot off p -> excl_slot slot off' p.
Proof. unfold excl_slot. tauto. Qed.

Lemma view_is_some w w' q :
  (fun pb => (pb_data pb, pb_options pb)) <$> w_pipes w !! q
             = (fun pb => (pb_data pb, pb_options pb)) <$> w_pipes w' !! q ->
  is_Some (w_pipes w !! q) <-> is_Some (w_pipes w' !! q).
Proof.
  destruct (w_pipes w !! q), (w_pipes w' !! q); cbn; intros Hv; try done;
    by split; intros [? ?]; eexists.
Qed.

Lemma xpair_rep_ext s w w' :
  (forall q, is_Some (w_pipes w !! q) <-> is_Some (w_pipes w' !! q)) ->
  (forall q, off_in w q <-> off_in w' q) -> (forall q, off_out w q <-> off_out w' q) ->
  xpair_rep s w -> xpair_rep s w'.
Proof.
  intros Hd Hi Ho. unfold xpair_rep. destruct (ex_pipe _) as [p|].
  - intros (Hp & Hin & Hout). split; [intros q; by rewrite <- Hd|].
    split; eapply excl_slot_ext; [apply Hi|done|apply Ho|done].
  - intros (Hp & ? & ?). split; [|done]. intros q. specialize (Hd q). rewrite Hp in Hd.
    destruct (w_pipes w' !! q); [|done]. destruct Hd as [_ Hd]. by destruct Hd; [eexists|].
Qed.

(** The pipe at hand is the pair's. *)
Lemma xpair_rep_pipe s w p pb :
  xpair_rep s w -> w_pipes w !! p = Some pb -> ex_pipe (xpair_excl s) = Some p.
Proof.
  unfold xpair_rep. intros Hr Hp. destruct (ex_pipe _) as [q|].
  - destruct Hr as (Hd & _). f_equal. symmetry. apply Hd. by eexists.
  - destruct Hr as (Hd & _). by rewrite Hd in Hp.
Qed.

(** Sending and receiving, with the account of the message. *)
Lemma xpair_send_ok s w m :
  world_ok w -> xpair_rep s w ->
  (nn_xpair_send s w m = Ok (s, w, - EAGAIN) /\ forall q, ~ off_out w q) \/
  exists s' w' p, nn_xpair_send s w m = Ok (s', w', 0) /\ xpair_rep s' w' /\ off_out w p /\ sent_one w w' p m.
Proof.
  intros Hw Hr. unfold nn_xpair_send, nn_excl_send. destruct (ex_outpipe (xpair_excl s)) as [p|] eqn:Eo.
  - right. unfold xpair_rep in Hr. destruct (ex_pipe (xpair_excl s)) as [p0|] eqn:Ep; [|by destruct Hr as (_ & _ & ?); congruence].
    destruct Hr as (Hd & His & [[Eo' Hoff]|[? _]]); [|congruence]. assert (p0 = p) as -> by congruence.
    destruct (pipe_send_one w p m Hw Hoff) as (w' & rc & -> & H0rc & Hrc & Hs & Hoffp). mred. decide_bools. mred.
    rewrite Hrc. eexists _, w', p. split; [done|]. split; [|done].
    assert (Hd' : forall q, is_Some (w_pipes w' !! q) <-> q = p).
    { intros q. rewrite <- Hd. symmetry. apply view_is_some, Hs. }
    assert (His' : excl_slot (ex_inpipe (xpair_excl s)) (off_in w') p) by (eapply excl_slot_ext; [apply Hs|done]).
    unfold xpair_rep, excl_slot in *. destruct (released rc); cbn; rewrite ?Ep, ?Eo; naive_solver.
  - left. mred. split; [by destruct s|]. intros q Hq. unfold xpair_rep in Hr. pose proof Hq as (pb & Hp & _).
    destruct (ex_pipe (xpair_excl s)) as [p0|]; [|by destruct Hr as (Hd & _); rewrite Hd in Hp].
    destruct Hr as (Hd & _ & [[? _]|[_ Hno]]); [congruence|]. assert (q = p0) as -> by (apply Hd; by eexists). done.
Qed.

Lemma xpair_recv_ok s w :
  world_ok w -> xpair_rep s w ->
  (nn_xpair_recv s w = Ok (s, w, - EAGAIN, None) /\ forall q, ~ off_in w q) \/
  exists s' w' p m, nn_xpair_recv s w = Ok (s', w', 0, Some m) /\ xpair_rep s' w' /\ off_in w p /\ rcvd_one w w' p m.
Proof.
  intros Hw Hr. unfold nn_xpair_recv, nn_excl_recv. destruct (ex_inpipe (xpair_excl s)) as [p|] eqn:Eo.
  - right. unfold xpair_rep in Hr. destruct (ex_pipe (xpair_excl s)) as [p0|] eqn:Ep; [|by destruct Hr as (_ & ? & _); congruence].
    destruct Hr as (Hd & [[Eo' Hoff]|[? _]] & His); [|congruence]. assert (p0 = p) as -> by congruence.
    destruct (pipe_recv_one w p Hw Hoff) as (w' & rc & m & -> & H0rc & Hrc & Hs & Hoffp). mred. decide_bools. mred.
    rewrite (bool_decide_false (without_release rc < 0)) by (unfold NN_PIPE_PARSED in *; lia).
    eexists _, w', p, m. split; [done|]. split; [|done].
    assert (Hd' : forall q, is_Some (w_pipes w' !! q) <-> q = p).
    { intros q. rewrite <- Hd. symmetry. apply view_is_some, Hs. }
    assert (His' : excl_slot (ex_outpipe (xpair_excl s)) (off_out w') p) by (eapply excl_slot_ext; [apply Hs|done]).
    unfold xpair_rep, excl_slot in *. destruct (released rc); cbn; rewrite ?Ep, ?Eo; naive_solver.
  - left. mred. split; [by destruct s|]. intros q Hq. unfold xpair_rep in Hr. pose proof Hq as (pb & Hp & _).
    destruct (ex_pipe (xpair_excl s)) as [p0|]; [|by destruct Hr as (Hd & _); rewrite Hd in Hp].
    destruct Hr as (Hd & [[? _]|[_ Hno]] & _); [congruence|]. assert (q = p0) as -> by (apply Hd; by eexists). done.
Qed.

#[export, program] Instance xpair_spec : SockSpec T nn_xpair := {| sk_hears := true; sk_sends m := true; sk_takes _ _ := true; sk_room n s := True;
  sk_room_le _ _ _ := I; sk_room_add _ _ _ _ _ _ _ _ _ := I; sk_room_step _ _ _ _ _ := I; sk_rep := xpair_rep |}.
Next Obligation.
  intros s w w' (Hd & Hi & Ho). apply xpair_rep_ext; [|done..]. intros q. by apply view_is_some.
Qed.
Next Obligation.
  intros s. cbn. unfold nn_xpair_events. by destruct (nn_excl_can_recv _), (nn_excl_can_send _).
Qed.
Next Obligation.
  intros s w p options Hw Hr Hp Hv _. cbn [sb_add xpair_proto]. unfold nn_xpair_add, nn_excl_add.
  unfold xpair_rep in Hr. destruct (ex_pipe (xpair_excl s)) as [q|] eqn:Eq; eexists _, None, _; (split; [done|]).
  - decide_bools. unfold xpair_rep. destruct s; cbn in *. by rewrite Eq.
  - decide_bools. destruct Hr as (Hd & -> & ->).
    destruct (started_ok w p None options Hw Hp Hv) as (_ & Ho & Hi & _ & _).
    unfold xpair_rep. cbn. split; [|split; by right]. intros q. split.
    + destruct (decide (q = p)) as [->|Hne]; [done|]. rewrite lookup_insert_ne, Hd by done. by intros [? ?].
    + intros ->. rewrite lookup_insert_eq. by eexists.
Qed.
Next Obligation.
  intros s w p pb Hw Hr Hp He. cbn [sb_rm xpair_proto]. unfold nn_xpair_rm, nn_excl_rm.
  pose proof (xpair_rep_pipe _ _ _ _ Hr Hp) as Ep. rewrite Ep. decide_bools. mred.
  eexists _, _. split; [done|]. split; [by apply handled_refl|]. unfold xpair_rep in *. rewrite Ep in Hr.
  destruct Hr as (Hd & _). cbn. split; [|done]. intros q. destruct (decide (q = p)) as [->|Hne].
  - apply lookup_delete_eq.
  - rewrite lookup_delete_ne by done. destruct (w_pipes w !! q) eqn:E; [|done].
    destruct Hne. apply Hd. rewrite E. by eexists.
Qed.
Next Obligation.
  intros s w p es _ Hw Hr He. cbn [sb_in xpair_proto]. unfold nn_xpair_in, nn_excl_in.
  destruct (pop_in w p es Hw He) as (Hno & Hyes & _ & Hout & pb & Hp).
  pose proof (xpair_rep_pipe _ _ _ _ Hr Hp) as Ep. unfold xpair_rep in Hr. rewrite Ep in Hr.
  destruct Hr as (Hd & [[_ ?]|[Ei _]] & Hos); [done|]. rewrite Ei, Ep. decide_bools. mred. decide_bools. mred.
  eexists _, _. split; [done|]. split; [by eapply handled_refl, pop_world_ok|]. unfold xpair_rep. cbn. rewrite ?Ep.
  split; [done|]. split; [by left|]. eapply excl_slot_ext; [apply Hout|done].
Qed.
Next Obligation.
  intros s w p es Hw Hr He. cbn [sb_out xpair_proto]. unfold nn_xpair_out, nn_excl_out.
  destruct (pop_out w p es Hw He) as (Hno & Hyes & _ & Hin & pb & Hp).
  pose proof (xpair_rep_pipe _ _ _ _ Hr Hp) as Ep. unfold xpair_rep in Hr. rewrite Ep in Hr.
  destruct Hr as (Hd & His & [[_ ?]|[Eo _]]); [done|]. rewrite Eo, Ep. decide_bools. mred. decide_bools. mred.
  eexists _, _. split; [done|]. split; [by eapply handled_refl, pop_world_ok|]. unfold xpair_rep. cbn. rewrite ?Ep.
  split; [done|]. split; [|by left]. eapply excl_slot_ext; [apply Hin|done].
Qed.
Next Obligation.
  intros s w m _ _ Hw Hr. cbn [sb_send xpair_proto].
  destruct (xpair_send_ok s w m Hw Hr) as [[-> _]|(s' & w' & p & -> & Hr' & _ & Hs)].
  - exists s, w, (- EAGAIN). split; [done|]. split; [unfold EAGAIN; lia|]. split; [by apply handled_refl|done].
  - exists s', w', 0. split; [done|]. split; [done|]. split; [apply Hs|done].
Qed.
Next Obligation.
  intros s w _ _ Hw Hr. cbn [sb_recv xpair_proto].
  destruct (xpair_recv_ok s w Hw Hr) as [[-> _]|(s' & w' & p & m & -> & Hr' & _ & Hs)].
  - exists s, w, (- EAGAIN), None. split; [done|]. split; [unfold EAGAIN; lia|]. split; [by apply handled_refl|].
    split; [done|]. by split; [|intros [? ?]].
  - exists s', w', 0, (Some m). split; [done|]. split; [done|]. split; [apply Hs|]. split; [done|]. by split; [eexists|].
Qed.
Next Obligation. done. Qed.

#[export, program] Instance xpair_ledger : SockLedger T nn_xpair.
Next Obligation.
  intros s w p s' w' rc E. cbn in E. unfold nn_xpair_add in E. destruct (nn_excl_add _ _). by simplify_eq.
Qed.
Next Obligation. intros s w p s' w' E. cbn in E. unfold nn_xpair_rm in E. by inv_ok. Qed.
Next Obligation. intros s w p s' w' E. cbn in E. unfold nn_xpair_in in E. by inv_ok. Qed.
Next Obligation. intros s w p s' w' E. cbn in E. unfold nn_xpair_out in E. by inv_ok. Qed.
Next Obligation.
  intros s w m s' w' rc _ Hw Hr E. cbn in E.
  destruct (xpair_send_ok s w m Hw Hr) as [[E' _]|(s1 & w1 & p & E' & _ & _ & Hs)]; rewrite E' in E; simplify_eq.
  - rewrite bool_decide_false by done. by rewrite app_nil_r.
  - by rewrite (so_sent _ _ _ _ Hs), (so_rcvd _ _ _ _ Hs), fmap_app, bool_decide_true.
Qed.
Next Obligation.
  intros s w s' w' rc m _ Hw Hr E. cbn in E.
  destruct (xpair_recv_ok s w Hw Hr) as [[E' _]|(s1 & w1 & p & m1 & E' & _ & _ & Hs)]; rewrite E' in E; simplify_eq.
  - cbn. by rewrite app_nil_r.
  - by rewrite (ro_rcvd _ _ _ _ Hs), (ro_sent _ _ _ _ Hs), fmap_app.
Qed.
Next Obligation. done. Qed.
#[export] Instance xpair_takes : SockTakes T (nn_xpair).
Proof. by intros s w. Qed.
End PairSpec.

(** ** Results *)

(** A pair session never aborts, keeps the socket's invariant and hands
    every message over exactly once, in order, in both directions; it never
    has more than one connection: a further one is refused with [EISCONN]
    and leaves the current one as it was. *)
Theorem xpair_session {T} `{TransportSpec T} (net : T) (os : list sock_op) :
  exists (k : nn_sock T nn_xpair) rs,
    (k ← nn_sock_init nn_xpair_init net; sock_run k os) = Ok (k, rs) /\ sock_inv k
    /\ snd <$> sent (w_net (sk_world k)) = (snd <$> sent net) ++ accepted os rs
    /\ snd <$> rcvd (w_net (sk_world k)) = (snd <$> rcvd net) ++ delivered rs
    /\ (size (w_pipes (sk_world k)) <= 1)%nat
    /\ (forall p q, is_Some (w_pipes (sk_world k) !! p) ->
          nn_xpair_add (sk_base k) (sk_world k) q = Ok (sk_base k, sk_world k, - EISCONN)).
Proof.
  destruct (sock_session_ledger nn_xpair_init net os) as (k & rs & E & Hk & Hs & Hr).
  { split; [|done]. intros q. apply lookup_empty. }
  { by apply fits_any. }
  exists k, rs. repeat (split; [done|]). pose proof (si_rep _ Hk) as Hrep. split.
  - apply dec_stable. intros Hgt. pose proof (map_size_ne_0_lookup_1 (w_pipes (sk_world k)) ltac:(lia)) as (p & pb & Hp).
    pose proof (xpair_rep_pipe _ _ _ _ Hrep Hp) as Ep. cbn in Hrep. unfold xpair_rep in Hrep. rewrite Ep in Hrep.
    destruct Hrep as (Hd & _). assert (E1 : w_pipes (sk_world k) = {[p := pb]}).
    { apply map_eq. intros q. destruct (decide (q = p)) as [->|Hne]; [by rewrite lookup_singleton_eq|].
      rewrite lookup_singleton_ne by done. destruct (w_pipes (sk_world k) !! q) eqn:Eq; [|done].
      destruct Hne. apply Hd. rewrite Eq. by eexists. }
    rewrite E1, map_size_singleton in Hgt. lia.
  - intros p q [pb Hp]. pose proof (xpair_rep_pipe _ _ _ _ Hrep Hp) as Ep.
    unfold nn_xpair_add, nn_excl_add. rewrite Ep. by destruct (sk_base k).
Qed.

Definition demo_pair_ops : list sock_op :=
  [KSend (Msg [] [] [0]); KConnect 5 (demo_opts 2); KConnect 6 (demo_opts 1); KSend (Msg [] [] [1; 2]);
   KSend (Msg [] [] [3]); KSent 5; KReceived 5; KRecv; KRecv; KRecv; KClose 5; KConnect 6 (demo_opts 1); KSend (Msg [] [] [4])].

(** Sending fails before a connection and while the pipe is busy; the second
    connection is refused until the first is closed. *)
Example pair_demo :
  (k ← nn_sock_init nn_xpair_init demo_net;
   '(k, rs) ← sock_run k demo_pair_ops; Ok (rs, sent (w_net (sk_world k))))
  = Ok ([OSend (- EAGAIN); ONone; ONone; OSend 0; OSend (- EAGAIN); ONone; ONone;
         ORecv 0 (Some (Msg [] [] [1])); ORecv 0 (Some (Msg [] [] [2])); ORecv (- EAGAIN) None; ONone; ONone; OSend 0],
        [(5%positive, Msg [] [] [1; 2]); (6%positive, Msg [] [] [4])]).
Proof. vm_compute. reflexivity. Qed.
