(* ===== verification/Bus.v ===== *)
(** * The bus protocol ([protocols/bus/xbus.c], [bus.c])

    Every message is sent to all the peers; messages are fair-queued from
    them.  A raw socket finds in the header of a received message the pipe it
    came from - the pointer itself, as eight bytes - and a message sent with
    such a header goes to all the peers but that one, which is how a bus
    device forwards. *)

From S2P Require Import Prelude NNList NNFamily Priolist Wire Pipe Sock Balance Members Dist Pipeline.
Local Open Scope Z_scope.

(** The object representation of a pointer on a little-endian 64-bit machine. *)
Definition ptr_bytes (p : option addr) : bytes :=
  rev (be_bytes 8 (match p with Some p => Zpos p | None => 0 end)).
Definition bytes_ptr (b : bytes) : option addr :=
  match be_val 0 (rev b) with Zpos p => Some p | _ => None end.

Section Bus.
  Context {St L T : Type} `{ListOps St L} `{Transport T}.
  Implicit Types (w : world T).

Record nn_xbus := Xbus { xbus_outpipes : nn_dist St L; xbus_inpipes : nn_fq St L }.

Definition nn_xbus_init (s : St) : nn_xbus := Xbus (nn_dist_init s) (nn_fq_init (PItems s ∅)).

Definition nn_xbus_term (self : nn_xbus) : result unit :=
  _ ← nn_fq_term (xbus_inpipes self); nn_dist_term (xbus_outpipes self).

(** One [nn_xbus_data] holds both items: they have the same address. *)
Definition nn_xbus_add (self : nn_xbus) w (pipe : addr) : result (nn_xbus * world T * Z) :=
  rcvprio ← pipe_option w pipe NN_RCVPRIO;
  _ ← assert_ (bool_decide (1 <= rcvprio) && bool_decide (rcvprio <= 16));
  let data := fresh (dom (pi_data (fq_items (xbus_inpipes self))) ∪ dom (di_data (xbus_outpipes self))) in
  let inpipes := nn_fq_add (xbus_inpipes self) data pipe rcvprio in
  let outpipes := nn_dist_add (xbus_outpipes self) data pipe in
  w ← nn_pipe_setdata w pipe (Some data);
  Ok (Xbus outpipes inpipes, w, 0).

Definition nn_xbus_rm (self : nn_xbus) w (pipe : addr) : result (nn_xbus * world T) :=
  data ← pipe_data_of w pipe;
  inpipes ← nn_fq_rm (xbus_inpipes self) data;
  outpipes ← nn_dist_rm (xbus_outpipes self) data;
  Ok (Xbus outpipes inpipes, w).

Definition nn_xbus_in (self : nn_xbus) w (pipe : addr) : result (nn_xbus * world T) :=
  data ← pipe_data_of w pipe;
  inpipes ← nn_fq_in (xbus_inpipes self) data;
  Ok (Xbus (xbus_outpipes self) inpipes, w).

Definition nn_xbus_out (self : nn_xbus) w (pipe : addr) : result (nn_xbus * world T) :=
  data ← pipe_data_of w pipe;
  outpipes ← nn_dist_out (xbus_outpipes self) data;
  Ok (Xbus outpipes (xbus_inpipes self), w).

Definition nn_xbus_events (self : nn_xbus) : Z :=
  Z.lor (if nn_fq_can_recv (xbus_inpipes self) then NN_SOCKBASE_EVENT_IN else 0) NN_SOCKBASE_EVENT_OUT.

Definition nn_xbus_send (self : nn_xbus) w (msg : nn_msg) : result (nn_xbus * world T * Z) :=
  let hdrsz := Z.of_nat (length (sphdr msg)) in
  if negb (bool_decide (hdrsz = 0)) && negb (bool_decide (hdrsz = 8)) then Ok (self, w, - EINVAL)
  else
    let '(exclude, msg) :=
      if bool_decide (hdrsz = 0) then (None, msg)
      else (bytes_ptr (sphdr msg), Msg [] (hdrs msg) (body msg)) in
    '(outpipes, w, rc) ← nn_dist_send (xbus_outpipes self) w msg exclude;
    Ok (Xbus outpipes (xbus_inpipes self), w, rc).

(** The loop of [nn_xbus_recv]: malformed messages, which have a header, are
    dropped. *)
Fixpoint xbus_recv_loop (fuel : nat) (fq : nn_fq St L) w
    : result (nn_fq St L * world T * Z * option (nn_msg * addr)) :=
  match fuel with
  | O => Err NoFuel
  | S fuel =>
      '(fq, w, rc, r) ← nn_fq_recv fq w;
      match r with
      | None => Ok (fq, w, rc, None)
      | Some (msg, pipe) =>
          if bool_decide (length (sphdr msg) = 0%nat) then Ok (fq, w, 0, Some (msg, pipe))
          else xbus_recv_loop fuel fq w
      end
  end.

Definition nn_xbus_recv (self : nn_xbus) w : result (nn_xbus * world T * Z * option nn_msg) :=
  '(inpipes, w, rc, r) ← xbus_recv_loop (recv_fuel w) (xbus_inpipes self) w;
  let self := Xbus (xbus_outpipes self) inpipes in
  match r with
  | None => Ok (self, w, rc, None)
  | Some (msg, pipe) => Ok (self, w, 0, Some (Msg (ptr_bytes (Some pipe)) (hdrs msg) (body msg)))
  end.

Definition nn_xbus_setopt (self : nn_xbus) (level option : Z) (optval : bytes) : Z := - ENOPROTOOPT.
Definition nn_xbus_getopt (self : nn_xbus) (level option : Z) : Z := - ENOPROTOOPT.

#[export] Instance xbus_proto : SockProto T nn_xbus := {|
  sb_nosend := false;
  sb_norecv := false;
  sb_add := nn_xbus_add;
  sb_rm := nn_xbus_rm;
  sb_in := nn_xbus_in;
  sb_out := nn_xbus_out;
  sb_events := nn_xbus_events;
  sb_send := nn_xbus_send;
  sb_recv := nn_xbus_recv;
  sb_pending s e := false;
  sb_worker s w e := Err BadAccess
|}.

(** The cooked bus socket, without headers. *)
Record nn_bus := Bus { bus_xbus : nn_xbus }.

Definition nn_bus_init (s : St) : nn_bus := Bus (nn_xbus_init s).
Definition nn_bus_term (self : nn_bus) : result unit := nn_xbus_term (bus_xbus self).

Definition nn_bus_send (self : nn_bus) w (msg : nn_msg) : result (nn_bus * world T * Z) :=
  if negb (bool_decide (length (sphdr msg) = 0%nat)) then Ok (self, w, - EINVAL)
  else
    '(xbus, w, rc) ← nn_xbus_send (bus_xbus self) w msg;
    _ ← assert_ (bool_decide (rc = 0));
    Ok (Bus xbus, w, 0).

Definition nn_bus_recv (self : nn_bus) w : result (nn_bus * world T * Z * option nn_msg) :=
  '(xbus, w, rc, r) ← nn_xbus_recv (bus_xbus self) w;
  if bool_decide (rc = - EAGAIN) then Ok (Bus xbus, w, - EAGAIN, None)
  else
    _ ← assert_ (bool_decide (rc = 0));
    msg ← deref r;
    _ ← assert_ (bool_decide (length (sphdr msg) = 8%nat));
    Ok (Bus xbus, w, 0, Some (Msg [] (hdrs msg) (body msg))).

(** [nn_bus_sockbase_vfptr] reuses the functions of [xbus]. *)
Definition on_xbus {A} (self : nn_bus) (f : nn_xbus -> result (nn_xbus * A)) : result (nn_bus * A) :=
  '(x, a) ← f (bus_xbus self); Ok (Bus x, a).

#[export] Instance bus_proto : SockProto T nn_bus := {|
  sb_nosend := false;
  sb_norecv := false;
  sb_add s w p := '(x, w, rc) ← nn_xbus_add (bus_xbus s) w p; Ok (Bus x, w, rc);
  sb_rm s w p := on_xbus s (fun x => nn_xbus_rm x w p);
  sb_in s w p := on_xbus s (fun x => nn_xbus_in x w p);
  sb_out s w p := on_xbus s (fun x => nn_xbus_out x w p);
  sb_events s := nn_xbus_events (bus_xbus s);
  sb_send := nn_bus_send;
  sb_recv := nn_bus_recv;
  sb_pending s e := false;
  sb_worker s w e := Err BadAccess
|}.

End Bus.
Arguments nn_xbus : clear implicits.
Arguments nn_bus : clear implicits.

Lemma ptr_bytes_length p : length (ptr_bytes p) = 8%nat.
Proof. unfold ptr_bytes. by rewrite length_rev, be_bytes_length. Qed.

Lemma ptr_round (p : addr) : Zpos p < 2 ^ 64 -> bytes_ptr (ptr_bytes (Some p)) = Some p.
Proof.
  intros Hp. unfold bytes_ptr, ptr_bytes. rewrite rev_involutive, be_round; [done|].
  split; [done|]. by change (256 ^ Z.of_nat 8) with (2 ^ 64).
Qed.

Section BusSpec.
  Context {St L T : Type} `{ListSpec St L} `{TransportSpec T}.
  Implicit Types (w : world T) (p : addr).

Definition xbus_rep (s : nn_xbus St L) w : Prop :=
  dist_tracks w (xbus_outpipes s) /\ fq_tracks w (xbus_inpipes s).

Lemma xbus_add_ok s w p options :
  world_ok w -> xbus_rep s w -> w_pipes w !! p = None -> room w options ->
  exists s' d, nn_xbus_add s (set_pipe w p (starting (nn_pipebase_init options))) p
      = Ok (s', set_pipe w p (set_data d (starting (nn_pipebase_init options))), 0)
    /\ xbus_rep s' (started w p d options).
Proof.
  intros Hw [Hd Hf] Hp Hroom. unfold nn_xbus_add. destruct (pipe_option_ok w p options) as [_ ->]. mred.
  destruct (valid_priorities _ _ Hroom) as [_ Hpr]. decide_bools. mred. rewrite set_data_ok. mred.
  set (x := fresh _). assert (Hx : x ∉ dom (pi_data (fq_items (xbus_inpipes s))) ∪ dom (di_data (xbus_outpipes s)))
    by apply is_fresh.
  apply not_elem_of_union in Hx as [Hx1%not_elem_of_dom Hx2%not_elem_of_dom].
  eexists _, _. split; [done|]. split; [by apply dist_add_tracks|by apply fq_add_tracks].
Qed.

Lemma xbus_rm_ok s w p pb :
  world_ok w -> xbus_rep s w -> w_pipes w !! p = Some pb ->
  exists s', nn_xbus_rm s w p = Ok (s', w) /\ xbus_rep s' (drop_pipe w p).
Proof.
  intros Hw [Hd Hf] Hp. unfold nn_xbus_rm. destruct (fq_tracks_data _ _ _ _ Hf Hp) as [x Hx].
  rewrite (pipe_data_ok _ _ _ _ Hp Hx). mred.
  destruct (fq_rm_tracks _ _ _ _ _ Hf Hp Hx) as (fq' & -> & Hf' & _). mred.
  destruct (dist_rm_tracks _ _ _ _ _ Hw Hd Hp Hx) as (d' & -> & Hd' & _). mred. by eexists.
Qed.

Lemma xbus_in_ok s w p es :
  world_ok w -> xbus_rep s w -> w_events w = (p, NN_PIPE_IN) :: es ->
  exists s', nn_xbus_in s (set_events w es) p = Ok (s', set_events w es) /\ xbus_rep s' (set_events w es).
Proof.
  intros Hw [Hd Hf] He. destruct (pop_in w p es Hw He) as (_ & _ & _ & _ & pb & Hp).
  destruct (fq_tracks_data _ _ _ _ Hf Hp) as [x Hx]. unfold nn_xbus_in.
  rewrite (pipe_data_ok (set_events w es) p pb x Hp Hx). mred.
  destruct (fq_in_tracks _ _ _ _ _ _ Hw Hf He Hp Hx) as (fq' & -> & Hf' & _). mred.
  eexists. split; [done|]. split; [by eapply dist_pop_in_tracks|done].
Qed.

Lemma xbus_out_ok s w p es :
  world_ok w -> xbus_rep s w -> w_events w = (p, NN_PIPE_OUT) :: es ->
  exists s', nn_xbus_out s (set_events w es) p = Ok (s', set_events w es) /\ xbus_rep s' (set_events w es).
Proof.
  intros Hw [Hd Hf] He. destruct (pop_out w p es Hw He) as (_ & _ & _ & _ & pb & Hp).
  destruct (fq_tracks_data _ _ _ _ Hf Hp) as [x Hx]. unfold nn_xbus_out.
  rewrite (pipe_data_ok (set_events w es) p pb x Hp Hx). mred.
  destruct (dist_out_tracks _ _ _ _ _ _ Hw Hd He Hp Hx) as (d' & -> & Hd' & _). mred.
  eexists. split; [done|]. split; [done|by eapply fq_pop_out_tracks].
Qed.

(** The pipe a message is not sent to, and the message that is sent. *)
Definition xbus_exclude (m : nn_msg) : option addr :=
  if bool_decide (length (sphdr m) = 0%nat) then None else bytes_ptr (sphdr m).
Definition strip (m : nn_msg) : nn_msg := Msg [] (hdrs m) (body m).

Lemma xbus_send_ok s w m :
  world_ok w -> xbus_rep s w ->
  if bool_decide (length (sphdr m) = 0%nat) || bool_decide (length (sphdr m) = 8%nat) then
    exists s' w' qs, nn_xbus_send s w m = Ok (s', w', 0) /\ xbus_rep s' w' /\ sent_all w w' qs (strip m)
      /\ NoDup qs /\ (forall q, q ∈ qs <-> off_out w q /\ Some q <> xbus_exclude m)
  else nn_xbus_send s w m = Ok (s, w, - EINVAL).
Proof.
  intros Hw [Hd Hf]. unfold nn_xbus_send, xbus_exclude.
  assert (E0 : bool_decide (Z.of_nat (length (sphdr m)) = 0) = bool_decide (length (sphdr m) = 0%nat))
    by (apply bool_decide_ext; lia).
  assert (E8 : bool_decide (Z.of_nat (length (sphdr m)) = 8) = bool_decide (length (sphdr m) = 8%nat))
    by (apply bool_decide_ext; lia).
  rewrite E0, E8. clear E0 E8. destruct (bool_decide (length (sphdr m) = 0%nat)) eqn:E0; cbn [orb andb negb].
  - apply bool_decide_eq_true in E0. destruct (nn_dist_send_ok w _ m None Hw Hd) as (d' & w' & qs & -> & Hd' & _ & Hs & Hn & Hq). mred.
    assert (Em : strip m = m) by (unfold strip; destruct m as [h ? ?]; cbn in *; by destruct h). rewrite Em.
    eexists _, w', qs. split; [done|]. split; [|done]. split; [done|]. eapply fq_tracks_view; [apply Hs|apply Hs|done].
  - destruct (bool_decide (length (sphdr m) = 8%nat)); cbn [negb]; [|done].
    destruct (nn_dist_send_ok w _ (strip m) (bytes_ptr (sphdr m)) Hw Hd) as (d' & w' & qs & E & Hd' & _ & Hs & Hn & Hq).
    unfold strip in E at 1. rewrite E. mred.
    eexists _, w', qs. split; [done|]. split; [|done]. split; [done|]. eapply fq_tracks_view; [apply Hs|apply Hs|done].
Qed.

Lemma xbus_recv_loop_ok fuel : forall fq w,
  (backlog w < fuel)%nat -> world_ok w -> fq_tracks w fq ->
  exists fq' w' ms, fq_tracks w' fq' /\ Forall (fun pm => sphdr pm.2 <> []) ms /\
    ((xbus_recv_loop fuel fq w = Ok (fq', w', - EAGAIN, None) /\ rcvd_many w w' ms /\ forall q, ~ off_in w' q) \/
     (exists m q, xbus_recv_loop fuel fq w = Ok (fq', w', 0, Some (m, q)) /\ sphdr m = []
        /\ rcvd_many w w' (ms ++ [(q, m)]) /\ q ∈ dom (w_pipes w))).
Proof.
  induction fuel as [|fuel IH]; intros fq w Hb Hw Hf; [lia|]. cbn [xbus_recv_loop].
  destruct (nn_fq_recv_tracks w fq Hw Hf) as [[E Hc]|(q & fq1 & w1 & rc & m & E & _ & _ & Hs & Hf1 & _)]; rewrite E; mred.
  - exists fq, w, []. split; [done|]. split; [constructor|]. left. split; [done|]. split; [by apply rcvd_many_nil|].
    intros q. by eapply fq_can_recv_none.
  - pose proof (hd_ok _ _ (ro_handled _ _ _ _ Hs)) as Hw1. case_bool_decide as Hlen.
    + exists fq1, w1, []. split; [done|]. split; [constructor|]. right. exists m, q. split; [done|].
      split; [by apply nil_length_inv|]. split; [eapply rcvd_many_cons; [exact Hs|by apply rcvd_many_nil]|].
      destruct (ro_from _ _ _ _ Hs) as (pb & Hpb & _). by apply elem_of_dom_2 in Hpb.
    + pose proof (ro_backlog _ _ _ _ Hs) as Hlt.
      destruct (IH fq1 w1 ltac:(lia) Hw1 Hf1) as (fq' & w' & ms & Hf' & Hms & Hcase).
      exists fq', w', ((q, m) :: ms). split; [done|]. split; [constructor; [intros E'; cbn in E'; by rewrite E' in Hlen|done]|].
      destruct Hcase as [(-> & Hm & Hno)|(m' & q' & -> & Hh & Hm & Hdom)]; [left|right; exists m', q'; split; [done|]].
      * split; [done|]. split; [by eapply rcvd_many_cons|done].
      * split; [done|]. split; [by eapply rcvd_many_cons|]. by rewrite <- (hd_dom _ _ (ro_handled _ _ _ _ Hs)).
Qed.

Lemma xbus_recv_ok s w :
  world_ok w -> xbus_rep s w ->
  exists s' w' ms, xbus_rep s' w' /\ Forall (fun pm => sphdr pm.2 <> []) ms /\
    ((nn_xbus_recv s w = Ok (s', w', - EAGAIN, None) /\ rcvd_many w w' ms /\ forall q, ~ off_in w' q) \/
     (exists m q, nn_xbus_recv s w = Ok (s', w', 0, Some (Msg (ptr_bytes (Some q)) (hdrs m) (body m)))
        /\ sphdr m = [] /\ rcvd_many w w' (ms ++ [(q, m)]) /\ q ∈ dom (w_pipes w))).
Proof.
  intros Hw [Hd Hf]. unfold nn_xbus_recv.
  destruct (xbus_recv_loop_ok (recv_fuel w) (xbus_inpipes s) w (recv_fuel_ok w) Hw Hf)
    as (fq' & w' & ms & Hf' & Hms & [(-> & Hm & Hno)|(m & q & -> & Hh & Hm & Hdom)]); mred;
    eexists (Xbus (xbus_outpipes s) fq'), w', ms.
  - split; [split; [|done]; eapply dist_tracks_view; [apply Hm|apply Hm|done]|]. split; [done|]. by left.
  - split; [split; [|done]; eapply dist_tracks_view; [apply Hm|apply Hm|done]|]. split; [done|]. right. by exists m, q.
Qed.

Lemma events_range b : 0 <= Z.lor (if b : bool then NN_SOCKBASE_EVENT_IN else 0) NN_SOCKBASE_EVENT_OUT.
Proof. by destruct b. Qed.

Lemma xbus_rep_view s w w' : view_eq w w' -> xbus_rep s w -> xbus_rep s w'.
Proof.
  intros (Hd & Hi & Ho) [? ?]. split; [by eapply dist_tracks_view|by eapply fq_tracks_view].
Qed.

#[export, program] Instance xbus_spec : SockSpec T (nn_xbus St L) := {| sk_hears := true; sk_sends m := true; sk_takes _ _ := true; sk_room n s := True;
  sk_room_le _ _ _ := I; sk_room_add _ _ _ _ _ _ _ _ _ := I; sk_room_step _ _ _ _ _ := I; sk_rep := xbus_rep |}.
Next Obligation. intros s w w'. apply xbus_rep_view. Qed.
Next Obligation. intros s. apply events_range. Qed.
Next Obligation.
  intros s w p options Hw Hr Hp Hroom. destruct (xbus_add_ok s w p options Hw Hr Hp Hroom) as (s' & d & E & Hr').
  exists s', d, 0. split; [exact E|]. by decide_bools.
Qed.
Next Obligation.
  intros s w p pb Hw Hr Hp _. destruct (xbus_rm_ok s w p pb Hw Hr Hp) as (s' & E & Hr').
  exists s', w. split; [exact E|]. split; [by apply handled_refl|done].
Qed.
Next Obligation.
  intros s w p es _ Hw Hr He. destruct (xbus_in_ok s w p es Hw Hr He) as (s' & E & Hr').
  exists s', (set_events w es). split; [exact E|]. split; [by eapply handled_refl, pop_world_ok|done].
Qed.
Next Obligation.
  intros s w p es Hw Hr He. destruct (xbus_out_ok s w p es Hw Hr He) as (s' & E & Hr').
  exists s', (set_events w es). split; [exact E|]. split; [by eapply handled_refl, pop_world_ok|done].
Qed.
Next Obligation.
  intros s w m _ _ Hw Hr. pose proof (xbus_send_ok s w m Hw Hr) as Hs. cbn [sb_send xbus_proto].
  destruct (_ || _).
  - destruct Hs as (s' & w' & qs & E & Hr' & Hs & _). exists s', w', 0. split; [exact E|]. split; [done|]. split; [apply Hs|done].
  - exists s, w, (- EINVAL). split; [exact Hs|]. split; [unfold EINVAL; lia|]. split; [by apply handled_refl|done].
Qed.
Next Obligation.
  intros s w _ _ Hw Hr. cbn [sb_recv xbus_proto].
  destruct (xbus_recv_ok s w Hw Hr) as (s' & w' & ms & Hr' & _ & [(E & Hm & _)|(m & q & E & _ & Hm & _)]).
  - exists s', w', (- EAGAIN), None. split; [exact E|]. split; [unfold EAGAIN; lia|]. split; [apply Hm|]. split; [done|].
    by split; [|intros [? ?]].
  - exists s', w', 0. eexists. split; [exact E|]. split; [done|]. split; [apply Hm|]. split; [done|]. by split; [eexists|].
Qed.
Next Obligation. done. Qed.
#[export] Instance xbus_takes : SockTakes T (nn_xbus St L).
Proof. by intros s w. Qed.

(** The cooked socket refuses messages with a header, and strips it. *)
Lemma bus_send_ok s w m :
  world_ok w -> xbus_rep (bus_xbus s) w ->
  if bool_decide (length (sphdr m) = 0%nat) then
    exists s' w' qs, nn_bus_send s w m = Ok (s', w', 0) /\ xbus_rep (bus_xbus s') w' /\ sent_all w w' qs m
      /\ NoDup qs /\ (forall q, q ∈ qs <-> off_out w q)
  else nn_bus_send s w m = Ok (s, w, - EINVAL).
Proof.
  intros Hw Hr. pose proof (xbus_send_ok (bus_xbus s) w m Hw Hr) as Hs. unfold nn_bus_send, xbus_exclude in *.
  case_bool_decide as H0len; cbn [negb orb] in *; [|done].
  destruct Hs as (x & w' & qs & -> & Hr' & Hs & Hn & Hq). mred. decide_bools. mred. eexists _, w', qs. split; [done|].
  split; [done|]. assert (Em : strip m = m) by (unfold strip; destruct m as [h ? ?]; cbn in *; by destruct h).
  rewrite Em in Hs. split; [done|]. split; [done|]. intros q. rewrite Hq. naive_solver.
Qed.

Lemma bus_recv_ok s w :
  world_ok w -> xbus_rep (bus_xbus s) w ->
  exists s' w' ms, xbus_rep (bus_xbus s') w' /\ Forall (fun pm => sphdr pm.2 <> []) ms /\
    ((nn_bus_recv s w = Ok (s', w', - EAGAIN, None) /\ rcvd_many w w' ms /\ forall q, ~ off_in w' q) \/
     (exists m q, nn_bus_recv s w = Ok (s', w', 0, Some m) /\ sphdr m = [] /\ rcvd_many w w' (ms ++ [(q, m)]))).
Proof.
  intros Hw Hr. unfold nn_bus_recv.
  destruct (xbus_recv_ok (bus_xbus s) w Hw Hr) as (x & w' & ms & Hr' & Hms & [(-> & Hm & Hno)|(m & q & -> & Hh & Hm & _)]);
    mred; exists (Bus x), w', ms; (split; [done|]); (split; [done|]).
  - left. decide_bools. done.
  - right. exists m, q. rewrite (bool_decide_false (0 = - EAGAIN)) by done. decide_bools. mred.
    split; [|done]. destruct m; cbn in *. by subst.
Qed.

#[export, program] Instance bus_spec : SockSpec T (nn_bus St L) := {| sk_hears := true; sk_sends m := true; sk_takes _ _ := true; sk_room n s := True;
  sk_room_le _ _ _ := I; sk_room_add _ _ _ _ _ _ _ _ _ := I; sk_room_step _ _ _ _ _ := I; sk_rep s w := xbus_rep (bus_xbus s) w |}.
Next Obligation. intros s w w'. apply xbus_rep_view. Qed.
Next Obligation. intros s. apply events_range. Qed.
Next Obligation.
  intros s w p options Hw Hr Hp Hroom. destruct (xbus_add_ok _ w p options Hw Hr Hp Hroom) as (s' & d & E & Hr').
  exists (Bus s'), d, 0. cbn [sb_add bus_proto]. rewrite E. split; [done|]. by decide_bools.
Qed.
Next Obligation.
  intros s w p pb Hw Hr Hp _. destruct (xbus_rm_ok _ w p pb Hw Hr Hp) as (s' & E & Hr').
  exists (Bus s'), w. cbn [sb_rm bus_proto]. unfold on_xbus. rewrite E. split; [done|]. split; [by apply handled_refl|done].
Qed.
Next Obligation.
  intros s w p es _ Hw Hr He. destruct (xbus_in_ok _ w p es Hw Hr He) as (s' & E & Hr').
  exists (Bus s'), (set_events w es). cbn [sb_in bus_proto]. unfold on_xbus. rewrite E. split; [done|].
  split; [by eapply handled_refl, pop_world_ok|done].
Qed.
Next Obligation.
  intros s w p es Hw Hr He. destruct (xbus_out_ok _ w p es Hw Hr He) as (s' & E & Hr').
  exists (Bus s'), (set_events w es). cbn [sb_out bus_proto]. unfold on_xbus. rewrite E. split; [done|].
  split; [by eapply handled_refl, pop_world_ok|done].
Qed.
Next Obligation.
  intros s w m _ _ Hw Hr. pose proof (bus_send_ok s w m Hw Hr) as Hs. cbn [sb_send bus_proto].
  case_bool_decide.
  - destruct Hs as (s' & w' & qs & E & Hr' & Hs & _). exists s', w', 0. split; [exact E|]. split; [done|]. split; [apply Hs|done].
  - exists s, w, (- EINVAL). split; [exact Hs|]. split; [unfold EINVAL; lia|]. split; [by apply handled_refl|done].
Qed.
Next Obligation.
  intros s w _ _ Hw Hr. cbn [sb_recv bus_proto].
  destruct (bus_recv_ok s w Hw Hr) as (s' & w' & ms & Hr' & _ & [(E & Hm & _)|(m & q & E & _ & Hm)]).
  - exists s', w', (- EAGAIN), None. split; [exact E|]. split; [unfold EAGAIN; lia|]. split; [apply Hm|]. split; [done|].
    by split; [|intros [? ?]].
  - exists s', w', 0, (Some m). split; [exact E|]. split; [done|]. split; [apply Hm|]. split; [done|]. by split; [eexists|].
Qed.
Next Obligation. done. Qed.
#[export] Instance bus_takes : SockTakes T (nn_bus St L).
Proof. by intros s w. Qed.
End BusSpec.

(** ** Results *)

(** A bus session, raw or not, never aborts and keeps the socket's
    invariant, whatever transports, peers and user do. *)
Theorem bus_session {St L T} `{ListSpec St L} `{TransportSpec T} (links : St) (net : T) (os : list sock_op) :
  (exists (k : nn_sock T (nn_bus St L)) rs,
     (k ← nn_sock_init (nn_bus_init links) net; sock_run k os) = Ok (k, rs) /\ sock_inv k) /\
  (exists (k : nn_sock T (nn_xbus St L)) rs,
     (k ← nn_sock_init (nn_xbus_init links) net; sock_run k os) = Ok (k, rs) /\ sock_inv k).
Proof.
  split; (apply sock_session_ok; [split; [by apply dist_tracks_init|by apply fq_tracks_init]|by apply fits_any]).
Qed.

(** Forwarding on a raw bus: a received message carries in its header
    the pipe it came from, and sending that very message on passes it, its
    header removed, once to every writable pipe but that one. *)
Theorem xbus_forward {St L T} `{ListSpec St L} `{TransportSpec T} (s s1 : nn_xbus St L) (w w1 : world T) (m : nn_msg) :
  world_ok w -> xbus_rep s w -> (forall p, p ∈ dom (w_pipes w) -> Zpos p < 2 ^ 64) ->
  nn_xbus_recv s w = Ok (s1, w1, 0, Some m) ->
  exists q s2 w2 qs, q ∈ dom (w_pipes w) /\ last (rcvd (w_net w1)) = Some (q, strip m)
    /\ nn_xbus_send s1 w1 m = Ok (s2, w2, 0) /\ xbus_rep s2 w2
    /\ sent (w_net w2) = sent (w_net w) ++ ((fun r => (r, strip m)) <$> qs)
    /\ NoDup qs /\ (forall r, r ∈ qs <-> off_out w r /\ r <> q).
Proof.
  intros Hw Hr Hp E.
  destruct (xbus_recv_ok s w Hw Hr) as (s' & w' & ms & Hr' & _ & [(E' & _)|(m' & q & E' & Hh & Hm & Hq)]);
    rewrite E' in E; [done|]. injection E as <- <- <-.
  pose proof (xbus_send_ok s' w' (Msg (ptr_bytes (Some q)) (hdrs m') (body m')) (hd_ok _ _ (rm_handled _ _ _ Hm)) Hr') as Hs.
  cbn [sphdr] in Hs. rewrite ptr_bytes_length in Hs. cbn [orb] in Hs.
  rewrite (bool_decide_false (8%nat = 0%nat)), (bool_decide_true (8%nat = 8%nat)) in Hs by done. cbn [orb] in Hs.
  destruct Hs as (s2 & w2 & qs & E2 & Hr2 & Hs & Hn & Hqs). exists q, s2, w2, qs.
  assert (Em : strip (Msg (ptr_bytes (Some q)) (hdrs m') (body m')) = m') by (destruct m'; cbn in *; by subst).
  rewrite Em in *. split; [done|]. split; [by rewrite (rm_rcvd _ _ _ Hm), app_assoc, last_snoc|].
  split; [done|]. split; [done|]. split; [by rewrite (sa_sent _ _ _ _ Hs), (rm_sent _ _ _ Hm)|]. split; [done|].
  intros r. rewrite Hqs. unfold xbus_exclude. cbn [sphdr]. rewrite ptr_bytes_length. decide_bools.
  rewrite ptr_round by (by apply Hp). rewrite (rm_out _ _ _ Hm r). naive_solver.
Qed.

Definition demo_bus_ops : list sock_op :=
  [KConnect 5 (demo_opts 2); KConnect 6 (demo_opts 1); KConnect 7 (demo_opts 3); KReceived 6].

Lemma bus_session_witness :
  (exists (k : nn_sock loop_net (nn_bus store nn_list)) rs,
     (k ← nn_sock_init (nn_bus_init ∅) demo_net; sock_run k demo_bus_ops) = Ok (k, rs) /\ sock_inv k) /\
  (exists (k : nn_sock loop_net (nn_xbus store nn_list)) rs,
     (k ← nn_sock_init (nn_xbus_init ∅) demo_net; sock_run k demo_bus_ops) = Ok (k, rs) /\ sock_inv k).
Proof. apply (bus_session (∅ : store) demo_net demo_bus_ops). Defined.

Lemma xbus_forward_witness :
  exists k : nn_sock loop_net (nn_xbus store nn_list),
  session_state (nn_xbus_init ∅) demo_net demo_bus_ops = Ok k /\
  exists s1 w1 m, nn_xbus_recv (sk_base k) (sk_world k) = Ok (s1, w1, 0, Some m) /\
  exists q s2 w2 qs, q ∈ dom (w_pipes (sk_world k)) /\ last (rcvd (w_net w1)) = Some (q, strip m)
    /\ nn_xbus_send s1 w1 m = Ok (s2, w2, 0) /\ xbus_rep s2 w2
    /\ sent (w_net w2) = sent (w_net (sk_world k)) ++ ((fun r => (r, strip m)) <$> qs)
    /\ NoDup qs /\ (forall r, r ∈ qs <-> off_out (sk_world k) r /\ r <> q).
Proof.
  destruct (session_state_ok (nn_xbus_init (L := nn_list) (∅ : store)) demo_net demo_bus_ops) as (k & E & Hk);
    [split; [by apply dist_tracks_init|by apply fq_tracks_init]|by apply fits_any|].
  exists k. split; [exact E|]. vm_compute in E. injection E as Ek.
  destruct (nn_xbus_recv (sk_base k) (sk_world k)) as [[[[s1 w1] rc] [m|]]|] eqn:Er;
    [|subst k; vm_compute in Er; discriminate|subst k; vm_compute in Er; discriminate].
  assert (Hdom : forall p, p ∈ dom (w_pipes (sk_world k)) -> Zpos p < 2 ^ 64).
  { change (set_Forall (fun p => Zpos p < 2 ^ 64) (dom (w_pipes (sk_world k)))).
    apply (bool_decide_eq_true_1 _). rewrite <- Ek. vm_compute. reflexivity. }
  assert (Hrc : rc = 0) by (rewrite <- Ek in Er; vm_compute in Er; congruence). rewrite Hrc in Er.
  exists s1, w1, m. split; [by rewrite Hrc|]. exact (xbus_forward _ s1 _ w1 m (si_world _ Hk) (si_rep _ Hk) Hdom Er).
Defined.
