(* ===== verification/Trie.v ===== *)
(** * The subscription trie ([protocols/pubsub/trie.c])

    A patricia trie of byte strings with a count per string.  A node holds up
    to ten bytes of prefix and its children either as up to eight characters
    with one pointer each (sparse) or as an array over a range of characters,
    with holes (dense).

    Nodes are owned by exactly one pointer, so the model is a tree; the code's
    walk with a pointer to the current pointer becomes a recursion that
    rebuilds the path.  Every hop consumes a byte of the string, so the
    string's length plus one is enough fuel.  Reads past the caller's buffer
    and through NULL are faults, as everywhere. *)

From S2P Require Import Prelude NNList Wire.
Local Open Scope Z_scope.

Definition NN_TRIE_PREFIX_MAX : nat := 10.
Definition NN_TRIE_SPARSE_MAX : nat := 8.

(** The union [u] and the [type] field that selects its member. *)
Inductive shape :=
  | Sparse (children : list Z)
  | Dense (min max nbr : Z).

Inductive nn_trie_node :=
  | Node (refcount : Z) (prefix : bytes) (u : shape) (kids : list (option nn_trie_node)).

Definition is_NULL {A} (o : option A) : bool := match o with Some _ => false | None => true end.

Definition refcount n := let 'Node r _ _ _ := n in r.
Definition prefix n := let 'Node _ p _ _ := n in p.
Definition node_shape n := let 'Node _ _ u _ := n in u.
Definition kids n := let 'Node _ _ _ k := n in k.

Definition node_type (u : shape) : nat :=
  match u with Sparse cs => length cs | Dense _ _ _ => NN_TRIE_SPARSE_MAX + 1 end.

Definition nn_node_has_subscribers (n : nn_trie_node) : bool := negb (bool_decide (refcount n = 0)).

(** [data] is the caller's memory from the current position on, [size] the
    number of bytes of it that belong to the string. *)
Fixpoint nn_node_check_prefix (pfx : bytes) (data : bytes) (size : Z) : result nat :=
  match pfx with
  | [] => Ok 0%nat
  | x :: pfx =>
      if bool_decide (size = 0) then Ok 0%nat
      else
        d ← deref (head data);
        if bool_decide (x <> d) then Ok 0%nat
        else i ← nn_node_check_prefix pfx (tail data) (size - 1); Ok (Datatypes.S i)
  end.

(** The position of the child for character [c], if there is one. *)
Definition nn_node_next (u : shape) (c : Z) : option nat :=
  match u with
  | Sparse cs => fst <$> list_find (fun x => x = c) cs
  | Dense min max _ => if bool_decide (c < min) || bool_decide (c > max) then None else Some (Z.to_nat (c - min))
  end.

Definition nn_node_child (n : nn_trie_node) (index : nat) : result (option nn_trie_node) :=
  deref (kids n !! index).

Definition nn_node_compact (self : nn_trie_node) : result nn_trie_node :=
  if nn_node_has_subscribers self then Ok self
  else if negb (bool_decide (node_type (node_shape self) = 1%nat)) then Ok self
  else
    ch ← nn_node_child self 0;
    ch ← deref ch;
    if bool_decide (NN_TRIE_PREFIX_MAX < length (prefix self) + length (prefix ch) + 1)%nat then Ok self
    else
      c ← deref (match node_shape self with Sparse cs => head cs | Dense _ _ _ => None end);
      Ok (Node (refcount ch) (prefix self ++ c :: prefix ch) (node_shape ch) (kids ch)).

(** Step 5 of [nn_trie_subscribe]: the node and the return code. *)
Definition step5 (n : nn_trie_node) : nn_trie_node * Z :=
  let r := u32 (refcount n + 1) in
  (Node r (prefix n) (node_shape n) (kids n), if bool_decide (r = 1) then 1 else 0).

(** Step 4: a chain of new nodes for the rest of the string. *)
Fixpoint step4 (fuel : nat) (data : bytes) : result (nn_trie_node * Z) :=
  match fuel with
  | O => Err NoFuel
  | S fuel =>
      if bool_decide (NN_TRIE_PREFIX_MAX < length data)%nat then
        let pfx := take NN_TRIE_PREFIX_MAX data in
        let data := drop NN_TRIE_PREFIX_MAX data in
        c ← deref (head data);
        '(ch, rc) ← step4 fuel (tail data);
        Ok (Node 0 pfx (Sparse [c]) [Some ch], rc)
      else Ok (step5 (Node 0 data (Sparse []) []))
  end.

(** The new child at position [index] of [n], which must be NULL so far. *)
Definition grow (n : nn_trie_node) (index : nat) (data : bytes) : result (nn_trie_node * Z) :=
  old ← nn_node_child n index;
  _ ← assert_ (is_NULL old);
  '(ch, rc) ← step4 (Datatypes.S (length data)) data;
  Ok (Node (refcount n) (prefix n) (node_shape n) (<[index := Some ch]> (kids n)), rc).

(** The loop filling the array of a node that becomes dense. *)
Fixpoint spread (cs : list Z) (ks : list (option nn_trie_node)) (min : Z) (arr : list (option nn_trie_node))
    : result (list (option nn_trie_node)) :=
  match cs, ks with
  | [], _ => Ok arr
  | c :: cs, k :: ks => spread cs ks min (<[Z.to_nat (c - min) := k]> arr)
  | _ :: _, [] => Err BadAccess
  end.

Definition list_min (cs : list Z) : Z := fold_left (fun m c => if bool_decide (m < c) then m else c) cs 255.
Definition list_max (cs : list Z) : Z := fold_left (fun m c => if bool_decide (m > c) then m else c) cs 0.

(** Step 3: makes room for a child for the next byte of [data]. *)
Definition step3 (n : nn_trie_node) (data : bytes) : result (nn_trie_node * Z) :=
  match data with
  | [] => Ok (step5 n)
  | c :: rest =>
      match node_shape n with
      | Sparse cs =>
          if bool_decide (length cs < NN_TRIE_SPARSE_MAX)%nat then
            grow (Node (refcount n) (prefix n) (Sparse (cs ++ [c])) (kids n ++ [None])) (length cs) rest
          else
            let new_min := list_min cs in
            let new_max := list_max cs in
            let new_min := if bool_decide (new_min < c) then new_min else c in
            let new_max := if bool_decide (new_max > c) then new_max else c in
            arr ← spread cs (kids n) new_min (replicate (Z.to_nat (new_max - new_min + 1)) None);
            let u := Dense new_min new_max (Z.of_nat (length cs) + 1) in
            i ← deref (nn_node_next u c);
            grow (Node 0 (prefix n) u arr) i rest
      | Dense min max nbr =>
          let new_min := if bool_decide (min < c) then min else c in
          let new_max := if bool_decide (max > c) then max else c in
          let arr :=
            if bool_decide (c < min) || bool_decide (c > max) then
              if negb (bool_decide (min = new_min))
              then replicate (Z.to_nat (min - new_min)) None ++ kids n
              else kids n ++ replicate (Z.to_nat ((new_max - new_min + 1) - (max - min + 1))) None
            else kids n in
          grow (Node (refcount n) (prefix n) (Dense new_min new_max (u16 (nbr + 1))) arr)
               (Z.to_nat (c - new_min)) rest
      end
  end.

(** Step 2: splits the prefix after [pos] bytes. *)
Definition step2 (n : nn_trie_node) (pos : nat) : result nn_trie_node :=
  c ← deref (prefix n !! pos);
  ch ← nn_node_compact (Node (refcount n) (drop (Datatypes.S pos) (prefix n)) (node_shape n) (kids n));
  Ok (Node 0 (take pos (prefix n)) (Sparse [c]) [Some ch]).

Fixpoint subscribe_walk (fuel : nat) (node : option nn_trie_node) (data : bytes) : result (nn_trie_node * Z) :=
  match fuel with
  | O => Err NoFuel
  | S fuel =>
      match node with
      | None => step4 (Datatypes.S (length data)) data
      | Some n =>
          pos ← nn_node_check_prefix (prefix n) data (Z.of_nat (length data));
          let data := drop pos data in
          if bool_decide (pos < length (prefix n))%nat then
            n ← step2 n pos;
            step3 n data
          else
            match data with
            | [] => Ok (step5 n)
            | c :: rest =>
                match nn_node_next (node_shape n) c with
                | None => step3 n data
                | Some i =>
                    ch ← nn_node_child n i;
                    match ch with
                    | None => step3 n data
                    | Some _ =>
                        '(ch, rc) ← subscribe_walk fuel ch rest;
                        Ok (Node (refcount n) (prefix n) (node_shape n) (<[i := Some ch]> (kids n)), rc)
                    end
                end
            end
      end
  end.

Record nn_trie := Trie { root : option nn_trie_node }.

Definition nn_trie_init : nn_trie := Trie None.

Definition nn_trie_subscribe (self : nn_trie) (data : bytes) : result (nn_trie * Z) :=
  '(n, rc) ← subscribe_walk (Datatypes.S (length data)) (root self) data;
  Ok (Trie (Some n), rc).

(** [size] wraps around like the [size_t] it is. *)
Fixpoint match_walk (fuel : nat) (node : option nn_trie_node) (data : bytes) (size : Z) : result bool :=
  match fuel with
  | O => Err NoFuel
  | S fuel =>
      match node with
      | None => Ok false
      | Some n =>
          pos ← nn_node_check_prefix (prefix n) data size;
          if bool_decide (pos <> length (prefix n)) then Ok false
          else
            let data := drop (length (prefix n)) data in
            let size := u64 (size - Z.of_nat (length (prefix n))) in
            if nn_node_has_subscribers n then Ok true
            else
              c ← deref (head data);
              ch ← match nn_node_next (node_shape n) c with
                   | None => Ok None
                   | Some i => nn_node_child n i
                   end;
              match_walk fuel ch (tail data) (u64 (size - 1))
      end
  end.

Definition nn_trie_match (self : nn_trie) (data : bytes) (size : Z) : result bool :=
  match_walk (Datatypes.S (length data)) (root self) data size.

(** The label [found] of [nn_node_unsubscribe]. *)
Definition unsubscribe_found (self : option nn_trie_node) : result (option nn_trie_node * Z) :=
  match self with
  | None => Ok (None, - EINVAL)
  | Some n =>
      if negb (nn_node_has_subscribers n) then Ok (self, - EINVAL)
      else
        let n := Node (refcount n - 1) (prefix n) (node_shape n) (kids n) in
        if bool_decide (refcount n = 0) then
          if bool_decide (node_type (node_shape n) = 0%nat) then Ok (None, 1)
          else n ← nn_node_compact n; Ok (Some n, 1)
        else Ok (Some n, 0)
  end.

(** The first position holding a child, the length if there is none; and the
    last one, 0 if there is none after the first. *)
Definition first_kid (ks : list (option nn_trie_node)) : nat :=
  match list_find is_Some ks with Some (i, _) => i | None => length ks end.
Fixpoint last_kid (i : nat) (ks : list (option nn_trie_node)) : result nat :=
  match i with
  | O => Ok 0%nat
  | S j => k ← deref (ks !! i); if is_NULL k then last_kid j ks else Ok i
  end.

(** The children of a dense node, with their characters. *)
Fixpoint collect (ks : list (option nn_trie_node)) (c : Z) : list (Z * nn_trie_node) :=
  match ks with
  | [] => []
  | Some k :: ks => (c, k) :: collect ks (u8 (c + 1))
  | None :: ks => collect ks (u8 (c + 1))
  end.

(** What follows the removal of the child for [c], at position [i]. *)
Definition prune (n : nn_trie_node) (c : Z) (i : nat) : result (option nn_trie_node * Z) :=
  match node_shape n with
  | Sparse cs =>
      index ← match list_find (fun x => x = c) cs with Some (i, _) => Ok i | None => Err AssertFailed end;
      let n := Node (refcount n) (prefix n) (Sparse (delete index cs)) (delete index (kids n)) in
      if bool_decide (node_type (node_shape n) = 0%nat) && negb (nn_node_has_subscribers n) then Ok (None, 1)
      else n ← nn_node_compact n; Ok (Some n, 1)
  | Dense min max nbr =>
      if bool_decide (nbr > Z.of_nat NN_TRIE_SPARSE_MAX + 1) then
        if bool_decide (c = min) then
          let i := first_kid (kids n) in
          Ok (Some (Node (refcount n) (prefix n) (Dense (u8 (Z.of_nat i + min)) max (u16 (nbr - 1)))
                         (drop i (kids n))), 1)
        else if bool_decide (c = max) then
          i ← last_kid (Z.to_nat (max - min)) (kids n);
          Ok (Some (Node (refcount n) (prefix n) (Dense min (u8 (Z.of_nat i + min)) (u16 (nbr - 1)))
                         (take (Datatypes.S i) (kids n))), 1)
        else Ok (Some (Node (refcount n) (prefix n) (Dense min max (u16 (nbr - 1))) (kids n)), 1)
      else
        let all := collect (kids n) min in
        if bool_decide (NN_TRIE_SPARSE_MAX < length all)%nat then Err BadAccess
        else
          _ ← assert_ (bool_decide (length all = NN_TRIE_SPARSE_MAX));
          Ok (Some (Node 0 (prefix n) (Sparse all.*1) (Some <$> all.*2)), 1)
  end.

Fixpoint nn_node_unsubscribe (fuel : nat) (self : option nn_trie_node) (data : bytes)
    : result (option nn_trie_node * Z) :=
  match fuel with
  | O => Err NoFuel
  | S fuel =>
      match data with
      | [] => unsubscribe_found self
      | _ =>
          n ← deref self;
          pos ← nn_node_check_prefix (prefix n) data (Z.of_nat (length data));
          if bool_decide (pos <> length (prefix n)) then Ok (self, 0)
          else
            match drop (length (prefix n)) data with
            | [] => unsubscribe_found self
            | c :: rest =>
                match nn_node_next (node_shape n) c with
                | None => Ok (self, 0)
                | Some i =>
                    ch ← nn_node_child n i;
                    '(ch, rc) ← nn_node_unsubscribe fuel ch rest;
                    let n := Node (refcount n) (prefix n) (node_shape n) (<[i := ch]> (kids n)) in
                    if bool_decide (rc = 0) then Ok (Some n, 0)
                    else if negb (is_NULL ch) then Ok (Some n, 1)
                    else prune n c i
                end
            end
      end
  end.

Definition nn_trie_unsubscribe (self : nn_trie) (data : bytes) : result (nn_trie * Z) :=
  '(n, rc) ← nn_node_unsubscribe (Datatypes.S (length data)) (root self) data;
  Ok (Trie n, rc).
