(* ===== verification/TrieSpec.v ===== *)
(** * Correctness of the subscription trie

    The specification of a trie is the function from strings to their
    subscription counts, [subs].  This file proves what [Trie]'s operations do
    to it, on well-formed tries. *)

From S2P Require Import Prelude NNList Wire Trie.
Local Open Scope Z_scope.

(** ** The abstraction *)

Fixpoint strip (p s : bytes) : option bytes :=
  match p, s with
  | [], _ => Some s
  | x :: p, y :: s => if bool_decide (x = y) then strip p s else None
  | _ :: _, [] => None
  end.

(** The child for a character. *)
Definition childof (u : shape) (ks : list (option nn_trie_node)) (c : Z) : option nn_trie_node :=
  match nn_node_next u c with Some i => default None (ks !! i) | None => None end.

Fixpoint count (fuel : nat) (n : option nn_trie_node) (s : bytes) : Z :=
  match fuel, n with
  | S fuel, Some n =>
      match strip (prefix n) s with
      | None => 0
      | Some [] => refcount n
      | Some (c :: s) => count fuel (childof (node_shape n) (kids n) c) s
      end
  | _, _ => 0
  end.

(** How often [s] is subscribed to in the trie. *)
Definition subs (n : option nn_trie_node) (s : bytes) : Z := count (Datatypes.S (length s)) n s.

Arguments subs : simpl never.
Arguments childof : simpl never.

Lemma strip_Some p s r : strip p s = Some r <-> s = p ++ r.
Proof.
  revert s. induction p as [|x p IH]; intros [|y s]; cbn.
  - naive_solver.
  - naive_solver.
  - naive_solver.
  - case_bool_decide as E; [subst y; rewrite IH; naive_solver|naive_solver].
Qed.

Lemma strip_app p q s : strip (p ++ q) s = strip p s ≫= strip q.
Proof.
  revert s. induction p as [|x p IH]; intros [|y s]; cbn; [done..|]. by case_bool_decide.
Qed.

Lemma strip_length p s r : strip p s = Some r -> (length r <= length s)%nat.
Proof. rewrite strip_Some. intros ->. rewrite length_app. lia. Qed.

Lemma count_fuel f1 : forall f2 n s, (length s < f1)%nat -> (length s < f2)%nat -> count f1 n s = count f2 n s.
Proof.
  induction f1 as [|f1 IH]; intros [|f2] n s H1 H2; [lia..|]. cbn.
  destruct n as [n|]; [|done]. destruct (strip (prefix n) s) as [[|c r]|] eqn:E; [done| |done].
  apply strip_length in E. cbn in E. apply IH; lia.
Qed.

Lemma subs_None s : subs None s = 0.
Proof. by destruct s. Qed.

Lemma subs_Some r p u ks s :
  subs (Some (Node r p u ks)) s =
    match strip p s with
    | None => 0
    | Some [] => r
    | Some (c :: s) => subs (childof u ks c) s
    end.
Proof.
  unfold subs at 1. cbn [count prefix refcount node_shape kids].
  destruct (strip p s) as [[|c t]|] eqn:E; [done| |done].
  apply strip_length in E. cbn in E. apply count_fuel; lia.
Qed.

(** ** Well-formedness *)

Definition nkids (ks : list (option nn_trie_node)) : nat := length (omap id ks).

Definition shape_ok (u : shape) (ks : list (option nn_trie_node)) : Prop :=
  match u with
  | Sparse cs => (length cs <= NN_TRIE_SPARSE_MAX)%nat /\ NoDup cs /\ bytes_ok cs
      /\ length ks = length cs /\ Forall is_Some ks
  | Dense min max nbr => 0 <= min /\ min <= max /\ max <= 255 /\ Z.of_nat (length ks) = max - min + 1
      /\ nbr = Z.of_nat (nkids ks) /\ (NN_TRIE_SPARSE_MAX < nkids ks)%nat
  end.

Record node_ok (n : nn_trie_node) : Prop := {
  no_refs : 0 <= refcount n < 2 ^ 32;
  no_prefix : (length (prefix n) <= NN_TRIE_PREFIX_MAX)%nat;
  no_bytes : bytes_ok (prefix n);
  no_shape : shape_ok (node_shape n) (kids n);
  no_live : refcount n = 0 -> node_shape n <> Sparse []
}.

Inductive wf : nn_trie_node -> Prop :=
  wf_node n : node_ok n -> (forall i k, kids n !! i = Some (Some k) -> wf k) -> wf n.

Definition owf (n : option nn_trie_node) : Prop := forall k, n = Some k -> wf k.

Lemma wf_ok n : wf n -> node_ok n.
Proof. by intros []. Qed.
Lemma wf_kid n i k : wf n -> kids n !! i = Some (Some k) -> wf k.
Proof. intros [? ? Hk]. apply Hk. Qed.

(** ** Children *)

Lemma next_sparse cs c i : NoDup cs -> nn_node_next (Sparse cs) c = Some i <-> cs !! i = Some c.
Proof.
  intros Hn. cbn. destruct (list_find (fun x => x = c) cs) as [[j y]|] eqn:E; cbn.
  - apply list_find_Some in E as (Hj & -> & _). split; [by intros [= <-]|].
    intros Hi. f_equal. by eapply NoDup_lookup.
  - apply list_find_None in E. rewrite Forall_forall in E. split; [done|].
    intros Hi. exfalso. by apply (E c); [eapply list_elem_of_lookup_2|].
Qed.

Lemma next_dense min max nbr c i :
  nn_node_next (Dense min max nbr) c = Some i <-> min <= c <= max /\ i = Z.to_nat (c - min).
Proof.
  cbn. destruct (bool_decide (c < min)) eqn:E1, (bool_decide (c > max)) eqn:E2; cbn;
    rewrite ?bool_decide_eq_true, ?bool_decide_eq_false in *; split; try done; try lia.
  - intros [= <-]. lia.
  - intros [? ->]. done.
Qed.

Lemma childof_Some u ks c k :
  childof u ks c = Some k <-> exists i, nn_node_next u c = Some i /\ ks !! i = Some (Some k).
Proof.
  unfold childof. destruct (nn_node_next u c) as [i|]; [|naive_solver].
  destruct (ks !! i) as [[k'|]|] eqn:E; cbn; naive_solver.
Qed.

Lemma childof_sparse cs ks c k :
  NoDup cs -> childof (Sparse cs) ks c = Some k <-> exists i, cs !! i = Some c /\ ks !! i = Some (Some k).
Proof. intros Hn. rewrite childof_Some. by setoid_rewrite (next_sparse cs c _ Hn). Qed.

Lemma childof_dense min max nbr ks c k :
  childof (Dense min max nbr) ks c = Some k <-> min <= c <= max /\ ks !! Z.to_nat (c - min) = Some (Some k).
Proof. rewrite childof_Some. setoid_rewrite next_dense. naive_solver. Qed.

(** Equality of child functions from their graphs. *)
Lemma childof_ext u ks c o :
  (forall k, childof u ks c = Some k <-> o = Some k) -> childof u ks c = o.
Proof. intros He. apply option_eq. done. Qed.

Lemma wf_childof n c : wf n -> owf (childof (node_shape n) (kids n) c).
Proof. intros Hw k (i & _ & Hi)%childof_Some. exact (wf_kid n i k Hw Hi). Qed.

(** A child pointer found is inside the array. *)
Lemma next_child n c i :
  node_ok n -> nn_node_next (node_shape n) c = Some i ->
  nn_node_child n i = Ok (childof (node_shape n) (kids n) c) /\ (i < length (kids n))%nat.
Proof.
  intros Hok Hi. assert (Hlt : (i < length (kids n))%nat).
  { pose proof (no_shape _ Hok) as Hs. destruct (node_shape n) as [cs|min max nbr].
    - destruct Hs as (_ & Hn & _ & -> & _). apply next_sparse in Hi; [|done]. by eapply lookup_lt_Some.
    - destruct Hs as (? & ? & ? & Hl & _). apply next_dense in Hi as [? ->]. lia. }
  split; [|done]. unfold nn_node_child, childof. rewrite Hi.
  destruct (lookup_lt_is_Some_2 _ _ Hlt) as [o ->]. done.
Qed.

(** Replacing one child. *)
Lemma childof_set u ks c i o c' :
  nn_node_next u c = Some i -> (i < length ks)%nat ->
  (match u with Sparse cs => NoDup cs | Dense _ _ _ => True end) ->
  childof u (<[i := o]> ks) c' = if bool_decide (c' = c) then o else childof u ks c'.
Proof.
  intros Hi Hlt Hn. case_bool_decide as E.
  - subst c'. unfold childof. rewrite Hi. by rewrite list_lookup_insert_eq.
  - unfold childof. destruct (nn_node_next u c') as [j|] eqn:Ej; [|done].
    rewrite list_lookup_insert_ne; [done|]. intros <-. apply E. destruct u as [cs|min max nbr].
    + apply next_sparse in Hi, Ej; try done. congruence.
    + apply next_dense in Hi as [? Hi], Ej as [? Ej]. lia.
Qed.

Lemma nkids_insert ks i o o' :
  ks !! i = Some o -> nkids (<[i := o']> ks) = (nkids ks - (if is_NULL o then 0 else 1) + (if is_NULL o' then 0 else 1))%nat.
Proof.
  intros Hi. unfold nkids. rewrite <- (take_drop_middle ks i o Hi) at 2.
  rewrite insert_take_drop by (by eapply lookup_lt_Some). rewrite !omap_app, !length_app. cbn.
  destruct o, o'; cbn; lia.
Qed.

Lemma node_ok_set n i o o' :
  node_ok n -> kids n !! i = Some o -> is_NULL o = is_NULL o' ->
  node_ok (Node (refcount n) (prefix n) (node_shape n) (<[i := o']> (kids n))).
Proof.
  intros [H1 H2 H3 H4 H5] Hi Hnull. split; cbn; try done.
  destruct (node_shape n) as [cs|min max nbr]; cbn in *.
  - destruct H4 as (? & ? & ? & Hl & Hf). rewrite length_insert. repeat (split; [done|]).
    apply Forall_insert; [done|]. rewrite Forall_lookup in Hf. specialize (Hf i o Hi).
    destruct o, o'; cbn in *; try done.
  - rewrite length_insert, (nkids_insert _ _ o) by done. destruct H4 as (? & ? & ? & ? & ? & ?). rewrite <- Hnull.
    assert (Hpos : is_NULL o = false -> (1 <= nkids (kids n))%nat) by lia.
    destruct (is_NULL o); [|specialize (Hpos eq_refl)]; repeat split; try done; lia.
Qed.

(** Replacing a child by another keeps a well-formed node. *)
Lemma wf_set n i o k' :
  wf n -> kids n !! i = Some (Some o) -> wf k' ->
  wf (Node (refcount n) (prefix n) (node_shape n) (<[i := Some k']> (kids n))).
Proof.
  intros Hw Hi Hk. constructor; [by eapply node_ok_set; [apply wf_ok|..]|]. cbn. intros j k Hj.
  apply list_lookup_insert_Some in Hj as [(<- & [= ->] & _)|[_ Hj]]; [done|exact (wf_kid n j k Hw Hj)].
Qed.

(** ** Compaction *)

Lemma has_subscribers_true n : nn_node_has_subscribers n = true <-> refcount n <> 0.
Proof. unfold nn_node_has_subscribers. by rewrite negb_true_iff, bool_decide_eq_false. Qed.
Lemma has_subscribers_false n : nn_node_has_subscribers n = false <-> refcount n = 0.
Proof. unfold nn_node_has_subscribers. by rewrite negb_false_iff, bool_decide_eq_true. Qed.

(** A node of type 1 has one child, for one character. *)
Lemma type1 n :
  shape_ok (node_shape n) (kids n) -> node_type (node_shape n) = 1%nat ->
  exists c k, node_shape n = Sparse [c] /\ kids n = [Some k] /\ in_range 8 c.
Proof.
  destruct n as [r p [cs|min max nbr] ks]; cbn; [|done].
  intros (_ & _ & Hb & Hl & Hf) Ht. destruct cs as [|c [|]]; try done. destruct ks as [|[k|] [|]]; try done.
  - exists c, k. apply Forall_cons in Hb as [? _]. done.
  - apply Forall_cons in Hf as [[? ?] _]. done.
Qed.

Lemma childof_single c k c' : childof (Sparse [c]) [Some k] c' = if bool_decide (c' = c) then Some k else None.
Proof.
  apply childof_ext. intros k'. rewrite childof_sparse by apply NoDup_singleton. split.
  - intros ([|i] & Hi & Hk); [|done]. cbn in *. simplify_eq. by rewrite bool_decide_true.
  - case_bool_decide; [|done]. intros [= <-]. subst. by exists 0%nat.
Qed.

Lemma nn_node_compact_ok n :
  wf n -> exists n', nn_node_compact n = Ok n' /\ wf n' /\ forall s, subs (Some n') s = subs (Some n) s.
Proof.
  intros Hw. unfold nn_node_compact. destruct (nn_node_has_subscribers n) eqn:Es; [by exists n|].
  apply has_subscribers_false in Es. case_bool_decide as Et; cbn [negb]; [|by exists n].
  pose proof (wf_ok n Hw) as [H1 H2 H3 H4 H5].
  destruct (type1 n H4 Et) as (c & k & Eu & Ek & Hc). unfold nn_node_child. rewrite Ek.
  change ([Some k] !! 0%nat) with (Some (Some k)). mred. case_bool_decide as Hlen; [by exists n|]. rewrite Eu.
  change (head [c]) with (Some c). mred.
  assert (Hk : wf k) by (apply (wf_kid n 0 k Hw); by rewrite Ek). eexists. split; [done|].
  destruct n as [r p u ks], k as [r' p' u' ks']. cbn in *. subst.
  pose proof (wf_ok _ Hk) as [K1 K2 K3 K4 K5]. cbn in *. split.
  - constructor; [constructor; cbn; try done|intros i k; apply (wf_kid _ i k Hk)].
    + rewrite length_app. cbn. lia.
    + apply Forall_app. split; [done|]. by constructor.
  - intros s. rewrite !subs_Some, strip_app. destruct (strip p s) as [[|d t]|]; cbn; [done| |done].
    rewrite childof_single. case_bool_decide as E1; case_bool_decide as E2; try congruence; [|done].
    by rewrite subs_Some.
Qed.

(** ** New nodes *)

(** A node with one child, and a leaf. *)
Lemma wf_chain p c ch :
  (length p <= NN_TRIE_PREFIX_MAX)%nat -> bytes_ok p -> in_range 8 c -> wf ch ->
  wf (Node 0 p (Sparse [c]) [Some ch]).
Proof.
  intros Hl Hb Hc Hw. constructor; [constructor; cbn; try done|].
  - unfold NN_TRIE_SPARSE_MAX. split; [lia|]. split; [apply NoDup_singleton|]. split; [by constructor|].
    split; [done|by constructor].
  - intros [|i] k Hk; cbn in Hk; [by injection Hk as <-|done].
Qed.

Lemma subs_chain p c ch s :
  subs (Some (Node 0 p (Sparse [c]) [Some ch])) s =
    match strip (p ++ [c]) s with Some t => subs (Some ch) t | None => 0 end.
Proof.
  rewrite subs_Some, strip_app. destruct (strip p s) as [[|d t]|]; cbn; [done| |done].
  rewrite childof_single. case_bool_decide as E1; case_bool_decide as E2; try congruence; done.
Qed.

Lemma wf_leaf p r :
  (length p <= NN_TRIE_PREFIX_MAX)%nat -> bytes_ok p -> 0 < r < 2 ^ 32 -> wf (Node r p (Sparse []) []).
Proof.
  intros Hl Hb Hr. constructor; [constructor; cbn; try done; [lia| |lia]|].
  - split; [unfold NN_TRIE_SPARSE_MAX; lia|]. split; [constructor|]. split; [constructor|]. split; [done|constructor].
  - intros i k Hk. done.
Qed.

Lemma subs_leaf r p s : subs (Some (Node r p (Sparse []) [])) s = if bool_decide (s = p) then r else 0.
Proof.
  rewrite subs_Some. destruct (strip p s) as [[|d t]|] eqn:E.
  - apply strip_Some in E. rewrite app_nil_r in E. by rewrite bool_decide_true.
  - apply strip_Some in E. rewrite bool_decide_false; [done|]. intros ->.
    apply (f_equal length) in E. rewrite length_app in E. cbn in E. lia.
  - rewrite bool_decide_false; [done|]. intros ->. assert (E' : strip p p = Some [])
      by (apply strip_Some; by rewrite app_nil_r). congruence.
Qed.

Lemma step4_ok fuel : forall data,
  (length data < fuel)%nat -> bytes_ok data ->
  exists n, step4 fuel data = Ok (n, 1) /\ wf n
    /\ forall s, subs (Some n) s = if bool_decide (s = data) then 1 else 0.
Proof.
  induction fuel as [|fuel IH]; intros data Hf Hb; [lia|]. cbn [step4]. case_bool_decide as Hlen.
  - pose proof (take_drop NN_TRIE_PREFIX_MAX data) as Edata. pose proof (length_drop data NN_TRIE_PREFIX_MAX) as Hl2.
    pose proof (length_take data NN_TRIE_PREFIX_MAX) as Hl1.
    destruct (drop NN_TRIE_PREFIX_MAX data) as [|c rest]; [cbn [length] in Hl2; lia|].
    set (p := take NN_TRIE_PREFIX_MAX data) in *. clearbody p. subst data.
    apply Forall_app in Hb as [Hb1 [Hc Hb2]%Forall_cons]. change (head (c :: rest)) with (Some c). mred. cbn [tail].
    destruct (IH rest) as (ch & -> & Hw & Hs); [rewrite length_app in Hf; cbn [length] in Hf; lia|done|].
    mred. eexists. split; [done|]. split; [apply wf_chain; [lia|done..]|].
    intros s. rewrite subs_chain. destruct (strip (p ++ [c]) s) as [t|] eqn:E.
    + apply strip_Some in E. subst s. rewrite Hs, <- app_assoc. cbn. erewrite bool_decide_ext; [done|].
      split; [by intros ->|]. by intros [= ?]%app_inv_head.
    + rewrite bool_decide_false; [done|]. intros ->.
      assert (E' : strip (p ++ [c]) (p ++ c :: rest) = Some rest) by (apply strip_Some; by rewrite <- app_assoc). congruence.
  - exists (Node 1 data (Sparse []) []). split; [done|]. split; [apply wf_leaf; [lia|done|lia]|].
    intros s. apply subs_leaf.
Qed.

(** ** Making room for a child *)

Lemma nkids_app ks1 ks2 : nkids (ks1 ++ ks2) = (nkids ks1 + nkids ks2)%nat.
Proof. unfold nkids. by rewrite omap_app, length_app. Qed.

Lemma nkids_None n : nkids (replicate n None) = 0%nat.
Proof. unfold nkids. by induction n. Qed.

Lemma nkids_all ks : Forall is_Some ks -> nkids ks = length ks.
Proof. unfold nkids. induction 1 as [|o ks [k ->] _ IH]; cbn; [done|]. by rewrite IH. Qed.

Lemma nkids_length ks : (nkids ks <= length ks)%nat.
Proof. unfold nkids. induction ks as [|[k|] ks IH]; cbn; lia. Qed.

Lemma list_min_fold cs m :
  fold_left (fun m c => if bool_decide (m < c) then m else c) cs m <= m
  /\ (forall c, c ∈ cs -> fold_left (fun m c => if bool_decide (m < c) then m else c) cs m <= c)
  /\ (bytes_ok cs -> 0 <= m -> 0 <= fold_left (fun m c => if bool_decide (m < c) then m else c) cs m).
Proof.
  revert m. induction cs as [|c cs IH]; intros m; cbn [fold_left]; [split; [done|]; split; [set_solver|done]|].
  destruct (IH (if bool_decide (m < c) then m else c)) as (H1 & H2 & H3).
  assert (Hm : (if bool_decide (m < c) then m else c) <= m /\ (if bool_decide (m < c) then m else c) <= c)
    by (case_bool_decide; lia).
  split; [lia|]. split.
  - intros d [->|Hd]%elem_of_cons; [lia|by apply H2].
  - intros [Hc Hb]%Forall_cons Hm0. apply H3; [done|]. unfold in_range in Hc. case_bool_decide; lia.
Qed.

Lemma list_max_fold cs m :
  m <= fold_left (fun m c => if bool_decide (m > c) then m else c) cs m
  /\ (forall c, c ∈ cs -> c <= fold_left (fun m c => if bool_decide (m > c) then m else c) cs m)
  /\ (bytes_ok cs -> m <= 255 -> fold_left (fun m c => if bool_decide (m > c) then m else c) cs m <= 255).
Proof.
  revert m. induction cs as [|c cs IH]; intros m; cbn [fold_left]; [split; [done|]; split; [set_solver|done]|].
  destruct (IH (if bool_decide (m > c) then m else c)) as (H1 & H2 & H3).
  assert (Hm : m <= (if bool_decide (m > c) then m else c) /\ c <= (if bool_decide (m > c) then m else c))
    by (case_bool_decide; lia).
  split; [lia|]. split.
  - intros d [->|Hd]%elem_of_cons; [lia|by apply H2].
  - intros [Hc Hb]%Forall_cons Hm0. apply H3; [done|]. unfold in_range in Hc. case_bool_decide; lia.
Qed.

Lemma spread_ok cs : forall ks min arr,
  NoDup cs -> length ks = length cs -> Forall is_Some ks ->
  (forall c, c ∈ cs -> min <= c /\ arr !! Z.to_nat (c - min) = Some None) ->
  exists arr', spread cs ks min arr = Ok arr' /\ length arr' = length arr
    /\ (forall i c, cs !! i = Some c -> arr' !! Z.to_nat (c - min) = ks !! i)
    /\ (forall j, (forall c, c ∈ cs -> j <> Z.to_nat (c - min)) -> arr' !! j = arr !! j)
    /\ nkids arr' = (nkids arr + length cs)%nat.
Proof.
  induction cs as [|c cs IH]; intros [|k ks] min arr Hn Hl Hs Hc; try done; cbn [spread].
  - exists arr. split; [done|]. split; [done|]. split; [done|]. split; [done|]. cbn. lia.
  - apply NoDup_cons in Hn as [Hcn Hn]. cbn in Hl. apply Forall_cons in Hs as [[k' ->] Hs].
    destruct (Hc c) as [Hcm Harr]; [set_solver|].
    assert (Hdiff : forall d, d ∈ cs -> Z.to_nat (c - min) <> Z.to_nat (d - min)).
    { intros d Hd E. destruct (Hc d) as [? _]; [set_solver|]. assert (c = d) as -> by lia. done. }
    destruct (IH ks min (<[Z.to_nat (c - min) := Some k']> arr)) as (arr' & E & Hlen & Hin & Hout & Hk); [done|lia|done| |].
    + intros d Hd. destruct (Hc d) as [? ?]; [set_solver|]. split; [done|].
      rewrite list_lookup_insert_ne; [done|by apply Hdiff].
    + exists arr'. split; [done|]. rewrite length_insert in Hlen. split; [done|]. split; [|split].
      * intros [|i] d Hi; cbn in Hi; [|by apply Hin]. injection Hi as <-. rewrite Hout by done.
        apply list_lookup_insert_eq. by eapply lookup_lt_Some.
      * intros j Hj. rewrite Hout by (intros d Hd; apply Hj; set_solver).
        apply list_lookup_insert_ne. intros E'. apply (Hj c); [set_solver|done].
      * rewrite Hk, (nkids_insert arr _ None) by done. cbn. lia.
Qed.

(** What growing a node by a child for [c] gives, whatever its shape: the
    children, except that a full sparse node loses its own subscriptions. *)
Definition full (u : shape) : bool :=
  match u with Sparse cs => bool_decide (NN_TRIE_SPARSE_MAX <= length cs)%nat | Dense _ _ _ => false end.

Lemma grow_ok r p u ks c i rest :
  nn_node_next u c = Some i -> ks !! i = Some None -> bytes_ok rest ->
  (match u with Sparse cs => NoDup cs | Dense _ _ _ => True end) ->
  exists ch, grow (Node r p u ks) i rest = Ok (Node r p u (<[i := Some ch]> ks), 1)
    /\ wf ch /\ (forall t, subs (Some ch) t = if bool_decide (t = rest) then 1 else 0)
    /\ (forall c', childof u (<[i := Some ch]> ks) c' = if bool_decide (c' = c) then Some ch else childof u ks c').
Proof.
  intros Hi Hk Hb Hn. unfold grow, nn_node_child. cbn [kids refcount prefix node_shape]. rewrite Hk. mred.
  destruct (step4_ok (Datatypes.S (length rest)) rest) as (ch & -> & Hw & Hs); [lia|done|]. mred.
  exists ch. split; [done|]. split; [done|]. split; [done|]. intros c'.
  apply childof_set; [done|by eapply lookup_lt_Some|done].
Qed.

Lemma childof_bounded n c k : wf n -> childof (node_shape n) (kids n) c = Some k -> in_range 8 c.
Proof.
  intros Hw Hc. pose proof (no_shape _ (wf_ok n Hw)) as Hs. destruct (node_shape n) as [cs|min max nbr].
  - destruct Hs as (_ & Hn & Hb & _). apply childof_sparse in Hc as (i & Hi & _); [|done].
    unfold bytes_ok in Hb. rewrite Forall_lookup in Hb. by eapply Hb.
  - apply childof_dense in Hc as [Hc _]. destruct Hs as (? & ? & ? & _). unfold in_range. lia.
Qed.

Lemma sparse_missing cs ks c :
  NoDup cs -> length ks = length cs -> Forall is_Some ks -> childof (Sparse cs) ks c = None -> c ∉ cs.
Proof.
  intros Hn Hl Hs Hc [i Hi]%list_elem_of_lookup_1. destruct (lookup_lt_is_Some_2 ks i) as [o Ho];
    [rewrite Hl; by eapply lookup_lt_Some|]. rewrite Forall_lookup in Hs. destruct (Hs i o Ho) as [k ->].
  assert (E : childof (Sparse cs) ks c = Some k) by (apply childof_sparse; eauto). congruence.
Qed.

(** [n'] is [n] with a child for [c] that holds exactly [rest]. *)
Record grown (n n' : nn_trie_node) (c : Z) (rest : bytes) : Prop := {
  gr_wf : wf n';
  gr_prefix : prefix n' = prefix n;
  gr_refs : refcount n' = if full (node_shape n) then 0 else refcount n;
  gr_kid : exists ch, (forall t, subs (Some ch) t = if bool_decide (t = rest) then 1 else 0)
    /\ forall c', childof (node_shape n') (kids n') c' = if bool_decide (c' = c) then Some ch else childof (node_shape n) (kids n) c'
}.

(** The node that results from growing a prepared array. *)
Lemma grown_intro n r u ks c i rest :
  wf n -> bytes_ok rest -> r = (if full (node_shape n) then 0 else refcount n) ->
  nn_node_next u c = Some i -> ks !! i = Some None ->
  (match u with Sparse cs => NoDup cs | Dense _ _ _ => True end) ->
  (forall c', childof u ks c' = childof (node_shape n) (kids n) c') ->
  (forall j k, ks !! j = Some (Some k) -> wf k) ->
  (forall ch, shape_ok u (<[i := Some ch]> ks)) -> u <> Sparse [] ->
  exists n', grow (Node r (prefix n) u ks) i rest = Ok (n', 1) /\ grown n n' c rest.
Proof.
  intros Hw Hb Hr Hi Hk Hn Hch Hkids Hshape Hne. pose proof (wf_ok n Hw) as [H1 H2 H3 H4 H5].
  destruct (grow_ok r (prefix n) u ks c i rest Hi Hk Hb Hn) as (ch & E & Hwc & Hs & Hc).
  eexists. split; [exact E|]. constructor.
  - constructor; [constructor; cbn; try done|].
    + subst r. destruct (full _); lia.
    + cbn. intros j k [(-> & [= <-] & _)|[_ Hj]]%list_lookup_insert_Some; [done|by eapply Hkids].
  - done.
  - done.
  - exists ch. split; [done|]. intros c'. by rewrite Hc, Hch.
Qed.

Lemma step3_sparse n cs c rest :
  wf n -> node_shape n = Sparse cs -> (length cs < NN_TRIE_SPARSE_MAX)%nat -> in_range 8 c -> bytes_ok rest ->
  childof (node_shape n) (kids n) c = None ->
  exists n', step3 n (c :: rest) = Ok (n', 1) /\ grown n n' c rest.
Proof.
  intros Hw Eu Hlen Hc Hb Hno. unfold step3. rewrite Eu. decide_bools.
  pose proof (no_shape n (wf_ok n Hw)) as Hs. rewrite Eu in Hs, Hno. destruct Hs as (Hl & Hn & Hby & Hk & Hf).
  pose proof (sparse_missing _ _ _ Hn Hk Hf Hno) as Hcs.
  assert (Hn' : NoDup (cs ++ [c])) by (apply NoDup_app; split; [done|]; split; [set_solver|apply NoDup_singleton]).
  assert (Hnext : (cs ++ [c]) !! length cs = Some c) by (rewrite lookup_app_r by lia; by rewrite Nat.sub_diag).
  assert (Hnone : (kids n ++ [None]) !! length cs = Some None) by (rewrite lookup_app_r by lia; by rewrite Hk, Nat.sub_diag).
  apply (grown_intro n); [done|done| |by apply next_sparse|done|done| | | |by destruct cs].
  - rewrite Eu. cbn. by rewrite bool_decide_false by lia.
  - intros c'. rewrite Eu. apply childof_ext. intros k. rewrite childof_sparse by done. split.
    + intros (i & Hi & Hki). apply childof_sparse; [done|].
      destruct (decide (i < length cs)%nat) as [Hlt|Hge].
      * rewrite lookup_app_l in Hi by done. rewrite lookup_app_l in Hki by lia. eauto.
      * apply lookup_lt_Some in Hi as Hlt. rewrite length_app in Hlt. cbn in Hlt. assert (i = length cs) as -> by lia.
        congruence.
    + intros (i & Hi & Hki)%childof_sparse; [|done]. exists i.
      rewrite !lookup_app_l; [done|by eapply lookup_lt_Some..].
  - intros j k Hj. apply lookup_app_Some in Hj as [Hj|[_ Hj]]; [exact (wf_kid n j k Hw Hj)|].
    apply list_lookup_singleton_Some in Hj as [_ [=]].
  - intros ch. cbn. rewrite length_insert, !length_app, Hk. cbn. split; [lia|]. split; [done|].
    split; [apply Forall_app; split; [done|by constructor]|]. split; [done|].
    rewrite insert_app_r_alt by lia. apply Forall_app. split; [done|]. rewrite Hk, Nat.sub_diag. by constructor.
Qed.

Lemma step3_convert n cs c rest :
  wf n -> node_shape n = Sparse cs -> (NN_TRIE_SPARSE_MAX <= length cs)%nat -> in_range 8 c -> bytes_ok rest ->
  childof (node_shape n) (kids n) c = None ->
  exists n', step3 n (c :: rest) = Ok (n', 1) /\ grown n n' c rest.
Proof.
  intros Hw Eu Hlen Hc Hb Hno. unfold step3. rewrite Eu. rewrite (bool_decide_false (length cs < _)%nat) by lia.
  pose proof (no_shape n (wf_ok n Hw)) as Hs. rewrite Eu in Hs, Hno. destruct Hs as (Hl & Hn & Hby & Hk & Hf).
  pose proof (sparse_missing _ _ _ Hn Hk Hf Hno) as Hcs.
  set (mn := if bool_decide (list_min cs < c) then list_min cs else c).
  set (mx := if bool_decide (list_max cs > c) then list_max cs else c).
  assert (Hmn : 0 <= mn <= c /\ forall d, d ∈ cs -> mn <= d).
  { destruct (list_min_fold cs 255) as (_ & H2 & H3). fold (list_min cs) in *. unfold mn, in_range in *.
    specialize (H3 Hby ltac:(lia)). case_bool_decide; (split; [lia|]); intros d Hd; specialize (H2 d Hd); lia. }
  assert (Hmx : c <= mx <= 255 /\ forall d, d ∈ cs -> d <= mx).
  { destruct (list_max_fold cs 0) as (_ & H2 & H3). fold (list_max cs) in *. unfold mx, in_range in *.
    specialize (H3 Hby ltac:(lia)). case_bool_decide; (split; [lia|]); intros d Hd; specialize (H2 d Hd); lia. }
  destruct Hmn as [Hmn1 Hmn2], Hmx as [Hmx1 Hmx2].
  set (arr := replicate (Z.to_nat (mx - mn + 1)) None).
  assert (Harr : forall d, mn <= d <= mx -> arr !! Z.to_nat (d - mn) = Some None)
    by (intros d Hd; apply lookup_replicate_2; lia).
  destruct (spread_ok cs (kids n) mn arr Hn Hk Hf) as (arr' & E & Hla & Hin & Hout & Hnk).
  { intros d Hd. specialize (Hmn2 d Hd). specialize (Hmx2 d Hd). split; [done|]. apply Harr. lia. }
  rewrite E. mred. rewrite (proj2 (next_dense mn mx _ c (Z.to_nat (c - mn)))) by (split; [lia|done]). mred.
  assert (Hc' : arr' !! Z.to_nat (c - mn) = Some None).
  { rewrite Hout; [apply Harr; lia|]. intros d Hd Ed. specialize (Hmn2 d Hd). apply Hcs. assert (c = d) as -> by lia. done. }
  apply (grown_intro n); [done|done| |apply next_dense; split; [lia|done]|done|done| | | |done].
  - rewrite Eu. cbn. by rewrite bool_decide_true by lia.
  - intros c'. rewrite Eu. apply childof_ext. intros k. rewrite childof_dense. split.
    + intros [Hr Hk']. apply childof_sparse; [done|].
      destruct (decide (c' ∈ cs)) as [[i Hi]%list_elem_of_lookup_1|Hni]; [exists i; by rewrite <- (Hin i c' Hi)|].
      rewrite Hout in Hk'; [by rewrite Harr in Hk' by lia|]. intros d Hd Ed. specialize (Hmn2 d Hd).
      apply Hni. assert (c' = d) as -> by lia. done.
    + intros (i & Hi & Hki)%childof_sparse; [|done]. pose proof (list_elem_of_lookup_2 _ _ _ Hi) as Hd.
      specialize (Hmn2 c' Hd). specialize (Hmx2 c' Hd). split; [lia|]. by rewrite (Hin i c' Hi).
  - intros j k Hj. destruct (decide (Exists (fun d => j = Z.to_nat (d - mn)) cs)) as [Hex|Hnex].
    + apply Exists_exists in Hex as (d & [i Hi]%list_elem_of_lookup_1 & ->). rewrite (Hin i d Hi) in Hj. exact (wf_kid n i k Hw Hj).
    + rewrite Hout in Hj; [apply lookup_replicate in Hj as [[=] _]|]. intros d Hd ->. apply Hnex, Exists_exists. eauto.
  - intros ch. cbn. unfold arr in Hnk, Hla. rewrite length_insert, (nkids_insert _ _ None) by done. rewrite Hnk, nkids_None, Hla, length_replicate.
    cbn. unfold NN_TRIE_SPARSE_MAX in *. repeat split; lia.
Qed.

Lemma nkids_hole ks i : ks !! i = Some None -> (nkids ks < length ks)%nat.
Proof.
  intros Hi. rewrite <- (take_drop_middle ks i None Hi), nkids_app, length_app. cbn [length].
  change (nkids (None :: ?l)) with (nkids l).
  pose proof (nkids_length (take i ks)). pose proof (nkids_length (drop (Datatypes.S i) ks)). lia.
Qed.

Lemma lookup_pad ks a b i : (* an array with room on both sides *)
  (replicate a None ++ ks ++ replicate b (None : option nn_trie_node)) !! i =
    if bool_decide (a <= i < a + length ks)%nat then ks !! (i - a)%nat
    else if bool_decide (i < a + length ks + b)%nat then Some None else None.
Proof.
  destruct (decide (i < a)%nat) as [H|H].
  - rewrite lookup_app_l by (rewrite length_replicate; lia). rewrite lookup_replicate_2 by done.
    rewrite bool_decide_false, bool_decide_true by lia. done.
  - rewrite lookup_app_r, length_replicate by (rewrite length_replicate; lia).
    destruct (decide (i < a + length ks)%nat).
    + rewrite lookup_app_l by lia. by rewrite bool_decide_true by lia.
    + rewrite lookup_app_r by lia. rewrite bool_decide_false by lia. case_bool_decide.
      * apply lookup_replicate_2. lia.
      * apply lookup_ge_None_2. rewrite length_replicate. lia.
Qed.

(** The dense array after step 3, before the new child is stored: [a] slots
    are added below and [b] above. *)
Lemma step3_dense n min max nbr c rest :
  wf n -> node_shape n = Dense min max nbr -> in_range 8 c -> bytes_ok rest ->
  childof (node_shape n) (kids n) c = None ->
  exists n', step3 n (c :: rest) = Ok (n', 1) /\ grown n n' c rest.
Proof.
  intros Hw Eu Hc Hb Hno. unfold step3. rewrite Eu. unfold in_range in Hc.
  pose proof (no_shape n (wf_ok n Hw)) as Hs. rewrite Eu in Hs, Hno. destruct Hs as (H0 & H1 & H2 & Hl & Hnbr & Hfew).
  set (mn := if bool_decide (min < c) then min else c). set (mx := if bool_decide (max > c) then max else c).
  set (arr := if bool_decide (c < min) || bool_decide (c > max) then _ else _).
  assert (Hmn : mn = Z.min min c) by (unfold mn; case_bool_decide; lia).
  assert (Hmx : mx = Z.max max c) by (unfold mx; case_bool_decide; lia).
  set (a := Z.to_nat (min - mn)). set (b := Z.to_nat (mx - max)).
  assert (Harr : arr = replicate a None ++ kids n ++ replicate b None).
  { unfold arr, a, b. destruct (decide (c < min)).
    - rewrite bool_decide_true by lia. cbn [orb]. rewrite bool_decide_false by lia. cbn [negb].
      replace (Z.to_nat (mx - max)) with 0%nat by lia. cbn. by rewrite app_nil_r.
    - rewrite bool_decide_false by lia. cbn [orb]. replace (Z.to_nat (min - mn)) with 0%nat by lia. cbn [replicate app].
      case_bool_decide.
      + rewrite bool_decide_true by lia. cbn [negb]. do 2 f_equal. lia.
      + replace (Z.to_nat (mx - max)) with 0%nat by lia. cbn. by rewrite app_nil_r. }
  clearbody arr. subst arr. set (arr := replicate a None ++ kids n ++ replicate b None).
  assert (Hlook : forall d, mn <= d <= mx -> arr !! Z.to_nat (d - mn) =
             if bool_decide (min <= d <= max) then kids n !! Z.to_nat (d - min) else Some None).
  { intros d Hd. unfold arr. rewrite lookup_pad. destruct (decide (min <= d <= max)).
    - rewrite !bool_decide_true by lia. f_equal. lia.
    - rewrite (bool_decide_false (min <= d <= max)), bool_decide_false, bool_decide_true by lia. done. }
  assert (Hci : arr !! Z.to_nat (c - mn) = Some None).
  { rewrite Hlook by lia. case_bool_decide; [|done].
    destruct (lookup_lt_is_Some_2 (kids n) (Z.to_nat (c - min))) as [[k|] Hk]; [lia| |done].
    assert (E : childof (Dense min max nbr) (kids n) c = Some k) by (by apply childof_dense). congruence. }
  assert (Hnk : nkids arr = nkids (kids n)) by (unfold arr; rewrite !nkids_app, !nkids_None; lia).
  assert (Hla : length arr = (a + length (kids n) + b)%nat)
    by (unfold arr; rewrite !length_app, !length_replicate; lia).
  apply (grown_intro n); [done|done| |apply next_dense; split; [lia|done]|done|done| | | |done].
  - by rewrite Eu.
  - intros c'. rewrite Eu. apply childof_ext. intros k. rewrite !childof_dense. split.
    + intros [Hr Hk]. rewrite Hlook in Hk by lia. case_bool_decide; [done|]. by injection Hk.
    + intros [Hr Hk]. split; [lia|]. rewrite Hlook by lia. by rewrite bool_decide_true by lia.
  - intros j k Hj. unfold arr in Hj. rewrite lookup_pad in Hj. case_bool_decide; [exact (wf_kid n _ k Hw Hj)|].
    case_bool_decide; congruence.
  - intros ch. cbn. rewrite length_insert, (nkids_insert _ _ None) by done. cbn. rewrite Hnk, Hla, Hnbr.
    pose proof (nkids_hole arr _ Hci). unfold a, b in *. unfold u16. rewrite Z.mod_small; repeat split; lia.
Qed.

(** Step 3 on any well-formed node without a child for the next byte. *)
Lemma step3_ok n c rest :
  wf n -> in_range 8 c -> bytes_ok rest -> childof (node_shape n) (kids n) c = None ->
  exists n', step3 n (c :: rest) = Ok (n', 1) /\ grown n n' c rest.
Proof.
  intros Hw Hc Hb Hno. destruct (node_shape n) as [cs|min max nbr] eqn:Eu.
  - destruct (decide (length cs < NN_TRIE_SPARSE_MAX)%nat).
    + apply (step3_sparse n cs); try done. by rewrite Eu.
    + apply (step3_convert n cs); try done; [lia|by rewrite Eu].
  - apply (step3_dense n min max nbr); try done. by rewrite Eu.
Qed.

(** ** Splitting a prefix *)

Fixpoint lcp (p s : bytes) : nat :=
  match p, s with
  | x :: p, y :: s => if bool_decide (x = y) then Datatypes.S (lcp p s) else 0
  | _, _ => 0
  end.

Lemma lcp_le p s : (lcp p s <= length p)%nat /\ (lcp p s <= length s)%nat.
Proof.
  revert s. induction p as [|x p IH]; intros [|y s]; cbn; [lia..|]. case_bool_decide; [|lia].
  specialize (IH s). lia.
Qed.

(** [size] is the length of the string [s]; the memory after it is not read. *)
Lemma check_prefix_ok p : forall s mem,
  nn_node_check_prefix p (s ++ mem) (Z.of_nat (length s)) = Ok (lcp p s).
Proof.
  induction p as [|x p IH]; intros [|y s] mem; cbn [nn_node_check_prefix lcp]; [done..|].
  rewrite bool_decide_false by (cbn [length]; lia). cbn [app head tail]. mred.
  case_bool_decide as E1; case_bool_decide as E2; try congruence; try done.
  replace (Z.of_nat (length (y :: s)) - 1) with (Z.of_nat (length s)) by (cbn [length]; lia). by rewrite IH.
Qed.

Lemma lcp_full p s : lcp p s = length p <-> strip p s = Some (drop (length p) s).
Proof.
  revert s. induction p as [|x p IH]; intros [|y s]; cbn; [done..|].
  case_bool_decide; [|done]. rewrite <- IH. lia.
Qed.

Lemma strip_lcp p s r : strip p s = Some r -> lcp p s = length p /\ drop (length p) s = r.
Proof.
  intros Hs. assert (E : drop (length p) s = r) by (apply strip_Some in Hs as ->; apply drop_app_length).
  split; [|done]. apply lcp_full. by rewrite E.
Qed.

(** Where the string leaves the prefix. *)
Lemma lcp_split p s : (lcp p s < length p)%nat ->
  exists q c p', p = q ++ c :: p' /\ length q = lcp p s
    /\ (s = q \/ exists d s', s = q ++ d :: s' /\ d <> c).
Proof.
  revert s. induction p as [|x p IH]; intros [|y s]; cbn [lcp length]; intros Hl; [lia..| |].
  - exists [], x, p. auto.
  - case_bool_decide as E.
    + destruct (IH s) as (q & c & p' & -> & Hq & Hs); [lia|]. exists (x :: q), c, p'. cbn. split; [done|].
      split; [lia|]. subst y. destruct Hs as [->|(d & s' & -> & ?)]; [by left|right; eauto].
    + exists [], x, p. cbn. split; [done|]. split; [done|]. right. eauto.
Qed.

(** Step 2 keeps the counts and leaves one child, for the byte after the split. *)
Lemma step2_ok n q c p' :
  wf n -> prefix n = q ++ c :: p' ->
  exists n' ch, step2 n (length q) = Ok n' /\ n' = Node 0 q (Sparse [c]) [Some ch] /\ wf n'
    /\ forall s, subs (Some n') s = subs (Some n) s.
Proof.
  intros Hw Ep. unfold step2. rewrite Ep, lookup_app_r, Nat.sub_diag by lia. cbn [lookup list_lookup]. mred.
  pose proof (wf_ok n Hw) as [H1 H2 H3 H4 H5]. rewrite Ep in H2, H3.
  apply Forall_app in H3 as [Hq [Hc Hp']%Forall_cons]. rewrite length_app in H2. cbn [length] in H2.
  replace (drop (Datatypes.S (length q)) (q ++ c :: p')) with p'
    by (symmetry; rewrite drop_app_ge by lia; by replace (Datatypes.S (length q) - length q)%nat with 1%nat by lia).
  rewrite take_app_length.
  destruct (nn_node_compact_ok (Node (refcount n) p' (node_shape n) (kids n))) as (ch & -> & Hwc & Hs).
  { constructor; [constructor; cbn; try done; lia|]. intros i k. apply (wf_kid n i k Hw). }
  mred. eexists _, ch. split; [done|]. split; [done|]. split; [apply wf_chain; [lia|done..]|].
  intros s. rewrite subs_chain. destruct n as [r p u ks]. cbn [prefix] in Ep. subst p.
  rewrite subs_Some. replace (q ++ c :: p') with ((q ++ [c]) ++ p') by (by rewrite <- app_assoc).
  rewrite (strip_app (q ++ [c])). destruct (strip (q ++ [c]) s) as [t|]; [|done].
  cbn [mbind option_bind]. rewrite Hs. cbn [refcount node_shape kids]. by rewrite subs_Some.
Qed.

(** ** The counts of a grown node *)

Lemma subs_node n s :
  subs (Some n) s = match strip (prefix n) s with
                    | None => 0
                    | Some [] => refcount n
                    | Some (c :: t) => subs (childof (node_shape n) (kids n) c) t
                    end.
Proof. destruct n. apply subs_Some. Qed.

Lemma subs_at n c t : subs (Some n) (prefix n ++ c :: t) = subs (childof (node_shape n) (kids n) c) t.
Proof. rewrite subs_node. by rewrite (proj2 (strip_Some _ _ _) eq_refl). Qed.

Lemma subs_self n : subs (Some n) (prefix n) = refcount n.
Proof. rewrite subs_node. rewrite (proj2 (strip_Some _ _ []) (eq_sym (app_nil_r _))). done. Qed.

Lemma subs_beyond n s : subs (Some n) s <> 0 -> exists t, s = prefix n ++ t.
Proof. rewrite subs_node. destruct (strip (prefix n) s) as [t|] eqn:E; [|done]. apply strip_Some in E. eauto. Qed.

Lemma grown_subs n n' c rest s :
  grown n n' c rest -> childof (node_shape n) (kids n) c = None ->
  subs (Some n') s =
    if bool_decide (s = prefix n ++ c :: rest) then 1
    else if bool_decide (s = prefix n) then (if full (node_shape n) then 0 else refcount n)
    else subs (Some n) s.
Proof.
  intros [Hw Hp Hr (ch & Hs & Hc)] Hno. rewrite !subs_node, Hp.
  destruct (strip (prefix n) s) as [[|d t]|] eqn:E.
  - apply strip_Some in E. rewrite app_nil_r in E. subst s. rewrite bool_decide_false, bool_decide_true; [done|done|].
    intros E%(f_equal length). rewrite length_app in E. cbn in E. lia.
  - apply strip_Some in E. subst s. rewrite (bool_decide_false (_ = prefix n)).
    2: { intros E%(f_equal length). rewrite length_app in E. cbn in E. lia. }
    rewrite Hc. case_bool_decide as E1.
    + subst d. rewrite Hs, Hno, subs_None. erewrite bool_decide_ext; [done|]. split; [by intros ->|].
      intros [= E]%app_inv_head. done.
    + rewrite bool_decide_false; [done|]. intros [= E2 _]%app_inv_head. done.
  - rewrite !bool_decide_false; [done| |].
    + intros ->. assert (E' : strip (prefix n) (prefix n) = Some []) by (apply strip_Some; by rewrite app_nil_r). congruence.
    + intros ->. assert (E' : strip (prefix n) (prefix n ++ c :: rest) = Some (c :: rest)) by (by apply strip_Some). congruence.
Qed.

(** A dense node with as few children as it may have. *)
Definition tight (u : shape) : bool :=
  match u with Sparse _ => false | Dense _ _ nbr => bool_decide (nbr <= Z.of_nat NN_TRIE_SPARSE_MAX + 1) end.

(** ** Liveness: every node leads to a subscription *)

Lemma subs_nonneg n s : owf n -> 0 <= subs n s < 2 ^ 32.
Proof.
  remember (length s) as k eqn:Hk. revert n s Hk. induction k as [k IH] using lt_wf_ind. intros [n|] s -> Hw.
  - rewrite subs_node. destruct (strip (prefix n) s) as [[|c t]|] eqn:E; [| |lia].
    + apply no_refs, wf_ok, Hw. done.
    + apply strip_length in E. cbn [length] in E. eapply IH; [|done|]; [lia|]. apply wf_childof. by apply Hw.
  - rewrite subs_None. lia.
Qed.

Lemma nkids_pos ks : (0 < nkids ks)%nat -> exists i k, ks !! i = Some (Some k).
Proof.
  unfold nkids. intros Hk. destruct (omap id ks) as [|k l] eqn:E; [cbn in Hk; lia|].
  assert (Hin : k ∈ omap id ks) by (rewrite E; set_solver). apply list_elem_of_omap in Hin as (o & Ho & Eo).
  cbn in Eo. subst o. apply list_elem_of_lookup_1 in Ho as [i Hi]. eauto.
Qed.

(** The characters a dense node has children for. *)
Lemma collect_ok ks : forall c0, 0 <= c0 -> c0 + Z.of_nat (length ks) <= 256 ->
  NoDup (collect ks c0).*1 /\ length (collect ks c0) = nkids ks
  /\ forall c k, (c, k) ∈ collect ks c0 <-> c0 <= c /\ ks !! Z.to_nat (c - c0) = Some (Some k).
Proof.
  induction ks as [|o ks IH]; intros c0 H0 Hl.
  - split; [constructor|]. split; [done|]. intros c k. split; [by intros ?%elem_of_nil|]. by intros (? & ?).
  - cbn [length] in Hl. assert (E : collect ks (u8 (c0 + 1)) = collect ks (c0 + 1)).
    { destruct ks; [done|]. cbn [length] in Hl. rewrite wrap_small; [done|]. unfold in_range. lia. }
    destruct (IH (c0 + 1)) as (Hn & Hlen & Hcs); [lia|lia|].
    assert (Hstep : forall c k, c0 < c /\ (o :: ks) !! Z.to_nat (c - c0) = Some (Some k) <-> (c, k) ∈ collect ks (c0 + 1)).
    { intros c k. rewrite Hcs. split; intros [Hc Hk]; (split; [lia|]);
        replace (Z.to_nat (c - c0)) with (Datatypes.S (Z.to_nat (c - (c0 + 1)))) in * by lia; done. }
    destruct o as [k0|]; cbn [collect]; rewrite E.
    + split; [|split].
      * cbn [fmap list_fmap fst]. apply NoDup_cons. split; [|done]. intros ([c k] & Hc & Hin)%list_elem_of_fmap. cbn in Hc. subst c.
        apply Hcs in Hin. lia.
      * cbn [length]. by rewrite Hlen.
      * intros c k. rewrite elem_of_cons, <- Hstep. destruct (decide (c = c0)) as [->|Hne].
        -- rewrite Z.sub_diag. cbn. split; [intros [[= ->]|[? _]]; [done|lia]|]. intros [_ [= ->]]. by left.
        -- split; [intros [[= ? ?]|[? ?]]; [done|split; [lia|done]]|]. intros [? ?]. right. split; [lia|done].
    + split; [done|]. split; [done|]. intros c k. rewrite <- Hstep. destruct (decide (c = c0)) as [->|Hne].
      * rewrite Z.sub_diag. cbn. split; [lia|]. by intros [_ ?].
      * split; intros [? ?]; (split; [lia|done]).
Qed.

Lemma node_chars n : wf n ->
  exists cs, NoDup cs /\ length cs = nkids (kids n)
    /\ forall c, c ∈ cs <-> is_Some (childof (node_shape n) (kids n) c).
Proof.
  intros Hw. pose proof (no_shape n (wf_ok n Hw)) as Hs. destruct (node_shape n) as [cs|min max nbr].
  - destruct Hs as (_ & Hn & _ & Hl & Hf). exists cs. split; [done|]. split; [by rewrite nkids_all|].
    intros c. split.
    + intros [i Hi]%list_elem_of_lookup_1. destruct (lookup_lt_is_Some_2 (kids n) i) as [o Ho];
        [rewrite Hl; by eapply lookup_lt_Some|]. rewrite Forall_lookup in Hf. destruct (Hf i o Ho) as [k ->].
      exists k. apply childof_sparse; eauto.
    + intros [k (i & Hi & _)%childof_sparse]; [by eapply list_elem_of_lookup_2|done].
  - destruct Hs as (? & ? & ? & Hl & _ & _). destruct (collect_ok (kids n) min) as (Hn & Hlen & Hcs); [lia|lia|].
    exists (collect (kids n) min).*1. split; [done|]. split; [by rewrite length_fmap|]. intros c. split.
    + intros ([c' k] & -> & [? Hk]%Hcs)%list_elem_of_fmap. exists k. apply childof_dense. split; [|done].
      cbn. apply lookup_lt_Some in Hk. lia.
    + intros [k [? Hk]%childof_dense]. apply list_elem_of_fmap. exists (c, k). split; [done|]. apply Hcs. split; [lia|done].
Qed.

Lemma wf_live n : wf n -> exists s, 0 < subs (Some n) s.
Proof.
  induction 1 as [n Hok Hkids IH]. pose proof (no_refs n Hok) as Hr. destruct (decide (refcount n = 0)) as [Hz|Hz].
  - assert (Hw : wf n) by (by constructor). destruct (node_chars n Hw) as (cs & _ & Hlen & Hcs).
    assert (Hpos : (0 < nkids (kids n))%nat).
    { pose proof (no_shape n Hok) as Hs. pose proof (no_live n Hok Hz) as Hl. destruct (node_shape n) as [l|min max nbr].
      - destruct Hs as (_ & _ & _ & Hlk & Hf). rewrite nkids_all, Hlk by done. destruct l; [done|cbn; lia].
      - destruct Hs as (_ & _ & _ & _ & _ & ?). lia. }
    destruct cs as [|c cs]; [cbn in Hlen; lia|]. destruct (proj1 (Hcs c)) as [k Hk]; [set_solver|].
    pose proof Hk as (i & _ & Hi)%childof_Some. destruct (IH i k Hi) as [t Ht].
    exists (prefix n ++ c :: t). by rewrite subs_at, Hk.
  - exists (prefix n). rewrite subs_self. lia.
Qed.

(** ** What the conversions between shapes forget

    A trie as the code promises it is the function from strings to counts.
    String [x] continues with [c] when a string that starts with [x], [c] is
    subscribed. *)
Definition continues (f : bytes -> Z) (x : bytes) (c : Z) : Prop := exists r, 0 < f (x ++ c :: r).

Definition branches (f : bytes -> Z) (x : bytes) (k : nat) : Prop :=
  exists cs, NoDup cs /\ length cs = k /\ forall c, c ∈ cs <-> continues f x c.

(** Subscribing to [s] resets the count of [x]: [x] has eight continuations
    and [s] brings a ninth. *)
Definition forgets (f : bytes -> Z) (s x : bytes) : Prop :=
  exists c rest, s = x ++ c :: rest /\ branches f x NN_TRIE_SPARSE_MAX /\ ~ continues f x c.

(** Unsubscribing from [s] resets the count of [x]: [x] has nine continuations
    and [s] is the last string of one of them. *)
Definition unforgets (f : bytes -> Z) (s x : bytes) : Prop :=
  exists c rest, s = x ++ c :: rest /\ branches f x (Datatypes.S NN_TRIE_SPARSE_MAX)
    /\ f s = 1 /\ forall r, 0 < f (x ++ c :: r) -> r = rest.

Lemma continues_node n c : wf n -> continues (subs (Some n)) (prefix n) c <-> is_Some (childof (node_shape n) (kids n) c).
Proof.
  intros Hw. unfold continues. setoid_rewrite subs_at. destruct (childof (node_shape n) (kids n) c) as [k|] eqn:E.
  - split; [by eexists|]. intros _. apply (wf_live k). by apply (wf_childof n c Hw).
  - setoid_rewrite subs_None. split; [intros [? ?]; lia|by intros []].
Qed.

(** A string with two continuations reaches at least to the end of the prefix. *)
Lemma continues_two n x c d :
  continues (subs (Some n)) x c -> continues (subs (Some n)) x d -> c <> d -> exists t, x = prefix n ++ t.
Proof.
  intros [r1 H1] [r2 H2] Hne. destruct (subs_beyond n _ (Z.neq_sym _ _ (Z.lt_neq _ _ H1))) as [t1 E1].
  destruct (subs_beyond n _ (Z.neq_sym _ _ (Z.lt_neq _ _ H2))) as [t2 E2]. clear H1 H2. revert E1 E2.
  generalize (prefix n) as p. intros p. revert x. induction p as [|y p IH]; intros x E1 E2; [by exists x|].
  destruct x as [|z x]; cbn in E1, E2; [congruence|]. injection E1 as -> E1. injection E2 as E2.
  destruct (IH x E1 E2) as [t ->]. by exists t.
Qed.

Lemma two_of {A} (cs : list A) : NoDup cs -> (2 <= length cs)%nat -> exists c d, c ∈ cs /\ d ∈ cs /\ c <> d.
Proof.
  intros Hn Hl. destruct cs as [|c [|d cs]]; cbn in Hl; [lia..|]. exists c, d. apply NoDup_cons in Hn as [Hc _].
  set_solver.
Qed.

Lemma same_length {A} (l1 l2 : list A) : NoDup l1 -> NoDup l2 -> (forall x, x ∈ l1 <-> x ∈ l2) -> length l1 = length l2.
Proof. intros H1 H2 He. apply Permutation_length. by apply NoDup_Permutation. Qed.

Lemma branches_two f x k : branches f x k -> (2 <= k)%nat ->
  exists c d, continues f x c /\ continues f x d /\ c <> d.
Proof.
  intros (cs & Hn & Hl & Hc) Hk. destruct (two_of cs) as (c & d & Hcs & Hd & Hne); [done|lia|].
  exists c, d. by rewrite <- !Hc.
Qed.

Lemma branches_None x k : (2 <= k)%nat -> ~ branches (subs None) x k.
Proof. intros Hk Hb. destruct (branches_two _ _ _ Hb Hk) as (c & _ & [r Hr] & _). rewrite subs_None in Hr. lia. Qed.

(** A string that branches lies at or below the node. *)
Lemma branches_below n x k : (2 <= k)%nat -> branches (subs (Some n)) x k -> exists t, x = prefix n ++ t.
Proof.
  intros Hk Hb. destruct (branches_two _ _ _ Hb Hk) as (c & d & Hc & Hd & Hne). exact (continues_two n x c d Hc Hd Hne).
Qed.

Lemma continues_below n c t d :
  continues (subs (Some n)) (prefix n ++ c :: t) d <-> continues (subs (childof (node_shape n) (kids n) c)) t d.
Proof. unfold continues. setoid_rewrite <- app_assoc. cbn [app]. by setoid_rewrite subs_at. Qed.

Lemma branches_child n c t k :
  branches (subs (Some n)) (prefix n ++ c :: t) k <-> branches (subs (childof (node_shape n) (kids n) c)) t k.
Proof. unfold branches. by setoid_rewrite continues_below. Qed.

Lemma branches_here n k : wf n -> branches (subs (Some n)) (prefix n) k <-> nkids (kids n) = k.
Proof.
  intros Hw. destruct (node_chars n Hw) as (cs & Hn & Hl & Hcs). split.
  - intros (cs' & Hn' & <- & Hc'). rewrite <- Hl. apply same_length; [done..|]. intros c.
    by rewrite Hc', Hcs, continues_node.
  - intros <-. exists cs. split; [done|]. split; [done|]. intros c. by rewrite Hcs, continues_node.
Qed.

Lemma full_kids n : wf n -> full (node_shape n) = true <-> nkids (kids n) = NN_TRIE_SPARSE_MAX.
Proof.
  intros Hw. pose proof (no_shape n (wf_ok n Hw)) as Hs. unfold full. destruct (node_shape n) as [l|min max nbr]; cbn in Hs.
  - destruct Hs as (? & _ & _ & Hlk & Hf). rewrite nkids_all, Hlk, bool_decide_eq_true by done. lia.
  - split; [done|]. lia.
Qed.

Lemma tight_kids n : wf n -> tight (node_shape n) = true <-> nkids (kids n) = Datatypes.S NN_TRIE_SPARSE_MAX.
Proof.
  intros Hw. pose proof (no_shape n (wf_ok n Hw)) as Hs. unfold tight. destruct (node_shape n) as [l|min max nbr]; cbn in Hs.
  - destruct Hs as (? & _ & _ & Hlk & Hf). rewrite nkids_all, Hlk by done. split; [done|]. lia.
  - rewrite bool_decide_eq_true. lia.
Qed.

Lemma not_forgets_None s x : ~ forgets (subs None) s x.
Proof. intros (c & rest & _ & Hb & _). apply branches_None in Hb; [done|unfold NN_TRIE_SPARSE_MAX; lia]. Qed.

Lemma forgets_below n s x : forgets (subs (Some n)) s x -> exists t, x = prefix n ++ t.
Proof. intros (c & rest & _ & Hb & _). apply branches_below in Hb; [done|unfold NN_TRIE_SPARSE_MAX; lia]. Qed.

Lemma unforgets_below n s x : unforgets (subs (Some n)) s x -> exists t, x = prefix n ++ t.
Proof. intros (c & rest & _ & Hb & _). apply branches_below in Hb; [done|unfold NN_TRIE_SPARSE_MAX; lia]. Qed.

Lemma forgets_child n c s t :
  forgets (subs (Some n)) (prefix n ++ c :: s) (prefix n ++ c :: t)
  <-> forgets (subs (childof (node_shape n) (kids n) c)) s t.
Proof.
  unfold forgets. setoid_rewrite branches_child. setoid_rewrite continues_below.
  split; intros (d & rest & E & Hb); exists d, rest; (split; [|done]).
  - rewrite <- app_assoc in E. apply app_inv_head in E. by injection E.
  - by rewrite <- app_assoc, E.
Qed.

Lemma unforgets_child n c s t :
  unforgets (subs (Some n)) (prefix n ++ c :: s) (prefix n ++ c :: t)
  <-> unforgets (subs (childof (node_shape n) (kids n) c)) s t.
Proof.
  unfold unforgets. setoid_rewrite branches_child. setoid_rewrite <- app_assoc. cbn [app]. setoid_rewrite subs_at.
  split; intros (d & rest & E & Hb); exists d, rest; (split; [|done]).
  - apply app_inv_head in E. by injection E.
  - by rewrite E.
Qed.

(** At the node itself: the node is full and has no child for the byte; or it
    is tight and the string is the last one below its child. *)
Lemma forgets_here n c s :
  wf n -> forgets (subs (Some n)) (prefix n ++ c :: s) (prefix n)
  <-> full (node_shape n) = true /\ childof (node_shape n) (kids n) c = None.
Proof.
  intros Hw. unfold forgets. setoid_rewrite (branches_here n _ Hw). setoid_rewrite (continues_node n _ Hw).
  rewrite (full_kids n Hw), eq_None_not_Some. split.
  - intros (d & rest & E & Hb). apply app_inv_head in E. by injection E as -> ->.
  - intros Hb. by exists c, s.
Qed.

Lemma unforgets_here n c s :
  wf n -> unforgets (subs (Some n)) (prefix n ++ c :: s) (prefix n)
  <-> tight (node_shape n) = true /\ subs (childof (node_shape n) (kids n) c) s = 1
      /\ forall r, 0 < subs (childof (node_shape n) (kids n) c) r -> r = s.
Proof.
  intros Hw. unfold unforgets. setoid_rewrite (branches_here n _ Hw). setoid_rewrite subs_at. rewrite (tight_kids n Hw). split.
  - intros (d & rest & E & Hb). apply app_inv_head in E. by injection E as -> ->.
  - intros Hb. by exists c, s.
Qed.

(** ** Subscribing *)

(** The counts [f'] after a subscription to [s]. *)
Record subscribed (f : bytes -> Z) (s : bytes) (f' : bytes -> Z) : Prop := {
  su_self : f' s = f s + 1;
  su_kept x : x <> s -> ~ forgets f s x -> f' x = f x;
  su_forgot x : forgets f s x -> f' x = 0
}.

Lemma forgets_ne f s x : forgets f s x -> x <> s.
Proof.
  intros (c & rest & -> & _) E%(f_equal length). rewrite length_app in E. cbn in E. lia.
Qed.

(** The common case: nothing is forgotten. *)
Lemma subscribed_plain f s f' :
  (forall x, ~ forgets f s x) -> (forall x, f' x = if bool_decide (x = s) then f s + 1 else f x) -> subscribed f s f'.
Proof.
  intros Hno Hf. constructor.
  - rewrite Hf. by rewrite bool_decide_true.
  - intros x Hx _. rewrite Hf. by rewrite bool_decide_false.
  - intros x Hx. by destruct (Hno x).
Qed.

Lemma check_prefix_nil p s : nn_node_check_prefix p s (Z.of_nat (length s)) = Ok (lcp p s).
Proof. rewrite <- (app_nil_r s) at 1. apply check_prefix_ok. Qed.

Lemma step5_ok n :
  wf n -> refcount n < 2 ^ 32 - 1 ->
  wf (step5 n).1 /\ (step5 n).2 = (if bool_decide (refcount n = 0) then 1 else 0)
  /\ forall s, subs (Some (step5 n).1) s = if bool_decide (s = prefix n) then refcount n + 1 else subs (Some n) s.
Proof.
  intros Hw Hr. pose proof (wf_ok n Hw) as [H1 H2 H3 H4 H5]. unfold step5. unfold u32. rewrite (Z.mod_small (refcount n + 1)) by lia.
  cbn [fst snd]. split; [|split].
  - constructor; [constructor; cbn; try done; [lia|lia]|]. intros i k. apply (wf_kid n i k Hw).
  - by case_bool_decide as E1; case_bool_decide as E2; lia.
  - intros s. rewrite subs_Some, (subs_node n). destruct (strip (prefix n) s) as [[|c t]|] eqn:E.
    + apply strip_Some in E. rewrite app_nil_r in E. by rewrite bool_decide_true.
    + apply strip_Some in E. rewrite bool_decide_false; [done|]. intros ->.
      apply (f_equal length) in E. rewrite length_app in E. cbn in E. lia.
    + rewrite bool_decide_false; [done|]. intros ->.
      assert (E' : strip (prefix n) (prefix n) = Some []) by (apply strip_Some; by rewrite app_nil_r). congruence.
Qed.

(** Replacing a child changes the counts of the strings below it. *)
Lemma subs_set n c i o s :
  node_ok n -> nn_node_next (node_shape n) c = Some i ->
  subs (Some (Node (refcount n) (prefix n) (node_shape n) (<[i := o]> (kids n)))) s =
    match strip (prefix n ++ [c]) s with Some t => subs o t | None => subs (Some n) s end.
Proof.
  intros Hok Hi. rewrite subs_Some, subs_node, strip_app. destruct (strip (prefix n) s) as [[|d t]|]; cbn [mbind option_bind strip]; [done| |done].
  rewrite (childof_set _ _ c) by
    (done || (by eapply next_child) || (pose proof (no_shape n Hok) as Hs; destruct (node_shape n); [by destruct Hs as (_ & ? & _)|done])).
  case_bool_decide as E1; case_bool_decide as E2; congruence.
Qed.

(** Subscribing beyond a node that has no child for the next byte. *)
Lemma subscribed_grown n n' c rest :
  wf n -> grown n n' c rest -> childof (node_shape n) (kids n) c = None ->
  subscribed (subs (Some n)) (prefix n ++ c :: rest) (subs (Some n')).
Proof.
  intros Hw Hg Hno. pose proof (fun s => grown_subs n n' c rest s Hg Hno) as Hs.
  assert (Hz : subs (Some n) (prefix n ++ c :: rest) = 0) by (by rewrite subs_at, Hno, subs_None).
  constructor.
  - rewrite Hs, Hz. by rewrite bool_decide_true.
  - intros x Hx Hf. rewrite Hs, bool_decide_false by done. case_bool_decide as E; [|done]. subst x. rewrite subs_self.
    destruct (full (node_shape n)) eqn:Ef; [|done]. destruct Hf. by apply forgets_here.
  - intros x Hf. pose proof (forgets_ne _ _ _ Hf) as Hne. destruct (forgets_below _ _ _ Hf) as [[|d t] ->].
    + rewrite app_nil_r in *. apply forgets_here in Hf as [Hfull _]; [|done]. rewrite Hs, Hfull.
      by rewrite bool_decide_false, bool_decide_true by done.
    + destruct (decide (d = c)) as [->|Hdc].
      * apply forgets_child in Hf. rewrite Hno in Hf. by apply not_forgets_None in Hf.
      * destruct Hf as (e & r & E & _). rewrite <- app_assoc in E. apply app_inv_head in E. by injection E.
Qed.

(** Subscribing below a child. *)
Lemma subscribed_child n c i k k' rest :
  wf n -> nn_node_next (node_shape n) c = Some i -> childof (node_shape n) (kids n) c = Some k ->
  subscribed (subs (Some k)) rest (subs (Some k')) ->
  subscribed (subs (Some n)) (prefix n ++ c :: rest)
    (subs (Some (Node (refcount n) (prefix n) (node_shape n) (<[i := Some k']> (kids n))))).
Proof.
  intros Hw Hi Hk [Hself Hkept Hforgot]. pose proof (fun s => subs_set n c i (Some k') s (wf_ok n Hw) Hi) as Hs.
  assert (Hbelow : forall t, strip (prefix n ++ [c]) (prefix n ++ c :: t) = Some t)
    by (intros t; apply strip_Some; by rewrite <- app_assoc).
  constructor.
  - by rewrite Hs, Hbelow, subs_at, Hk.
  - intros x Hx Hf. rewrite Hs. destruct (strip (prefix n ++ [c]) x) as [t|] eqn:E; [|done].
    apply strip_Some in E. rewrite <- app_assoc in E. cbn in E. subst x. rewrite subs_at, Hk. apply Hkept; [congruence|].
    rewrite forgets_child, Hk in Hf. done.
  - intros x Hf. destruct (forgets_below _ _ _ Hf) as [[|d t] ->].
    + rewrite app_nil_r in *. apply forgets_here in Hf as [_ Hf]; [|done]. congruence.
    + assert (d = c) as ->. { destruct Hf as (e & r & E & _). rewrite <- app_assoc in E. apply app_inv_head in E. by injection E. }
      rewrite Hs, Hbelow. apply Hforgot. by rewrite forgets_child, Hk in Hf.
Qed.

(** A string that leaves the node's prefix. *)
Lemma not_forgets_off n s x : (lcp (prefix n) s < length (prefix n))%nat -> ~ forgets (subs (Some n)) s x.
Proof.
  intros Hl Hf. destruct (forgets_below _ _ _ Hf) as [t ->]. destruct Hf as (c & rest & -> & _).
  rewrite <- app_assoc in Hl. destruct (strip_lcp (prefix n) (prefix n ++ t ++ c :: rest) (t ++ c :: rest)) as [? _]; [|lia].
  by apply strip_Some.
Qed.

Lemma subscribe_split n data :
  wf n -> bytes_ok data -> (lcp (prefix n) data < length (prefix n))%nat ->
  exists n1 n2, step2 n (lcp (prefix n) data) = Ok n1 /\ step3 n1 (drop (lcp (prefix n) data) data) = Ok (n2, 1)
    /\ wf n2 /\ subs (Some n) data = 0 /\ subscribed (subs (Some n)) data (subs (Some n2)).
Proof.
  intros Hw Hb Hl. pose proof (fun x => not_forgets_off n data x Hl) as Hno.
  assert (Hz : subs (Some n) data = 0).
  { rewrite subs_node. destruct (strip (prefix n) data) as [r|] eqn:E; [|done]. apply strip_lcp in E as [? _]. lia. }
  destruct (lcp_split _ _ Hl) as (q & c & p' & Ep & Eq & Hs). rewrite <- Eq.
  destruct (step2_ok n q c p' Hw Ep) as (n1 & ch & E2 & En1 & Hw1 & Hs1). rewrite E2. exists n1.
  destruct Hs as [->|(d & s' & -> & Hd)].
  - rewrite drop_all. cbn [step3]. destruct (step5_ok n1 Hw1) as (Hw2 & Hrc & Hs2); [subst n1; cbn; lia|].
    exists (step5 n1).1. split; [done|]. split; [rewrite (surjective_pairing (step5 n1)), Hrc; by subst n1|].
    split; [done|]. split; [done|]. apply subscribed_plain; [done|]. intros x. rewrite Hs2, Hs1, Hz. by subst n1.
  - rewrite drop_app_length. apply Forall_app in Hb as [_ [Hdb Hb]%Forall_cons].
    assert (Hc : childof (node_shape n1) (kids n1) d = None)
      by (subst n1; cbn [node_shape kids]; by rewrite childof_single, bool_decide_false).
    destruct (step3_ok n1 d s' Hw1 Hdb Hb Hc) as (n2 & E3 & Hg). exists n2. split; [done|]. split; [done|].
    split; [by destruct Hg|]. split; [done|]. apply subscribed_plain; [done|].
    intros x. rewrite (grown_subs n1 n2 d s' x Hg Hc), Hs1, Hz.
    assert (Hpre : prefix n1 = q) by (by subst n1). rewrite Hpre. case_bool_decide; [done|].
    case_bool_decide as E; [|done]. subst x. rewrite <- Hs1, <- Hpre, subs_self. subst n1. cbn. done.
Qed.

Lemma subscribe_walk_ok fuel : forall n data,
  (length data < fuel)%nat -> owf n -> bytes_ok data -> subs n data < 2 ^ 32 - 1 ->
  exists n', subscribe_walk fuel n data = Ok (n', if bool_decide (subs n data = 0) then 1 else 0) /\ wf n'
    /\ subscribed (subs n) data (subs (Some n')).
Proof.
  induction fuel as [|fuel IH]; intros n data Hf Hw Hb Hmax; [lia|]. cbn [subscribe_walk]. destruct n as [n|].
  2: { destruct (step4_ok (Datatypes.S (length data)) data) as (n' & -> & Hw' & Hs); [lia|done|].
       exists n'. rewrite subs_None. split; [done|]. split; [done|]. apply subscribed_plain; [intros x; apply not_forgets_None|].
       intros x. by rewrite Hs, !subs_None. }
  specialize (Hw n eq_refl). rewrite check_prefix_nil. mred. pose proof (lcp_le (prefix n) data) as [Hle _].
  case_bool_decide as Hl.
  { destruct (subscribe_split n data Hw Hb Hl) as (n1 & n2 & -> & E & Hw2 & Hz & Hs). mred. rewrite E, Hz. eauto. }
  assert (Hfull : lcp (prefix n) data = length (prefix n)) by lia. rewrite Hfull.
  apply lcp_full, strip_Some in Hfull. destruct (drop (length (prefix n)) data) as [|c rest]; subst data.
  - rewrite app_nil_r in *. rewrite subs_self in *. destruct (step5_ok n Hw) as (Hw2 & Hrc & Hs2); [done|].
    exists (step5 n).1. split; [by rewrite <- Hrc, <- surjective_pairing|]. split; [done|].
    apply subscribed_plain; [|intros x; by rewrite Hs2, subs_self].
    intros x Hx. destruct (forgets_below _ _ _ Hx) as [t ->]. destruct Hx as (c & rest & E & _).
    apply (f_equal length) in E. rewrite !length_app in E. cbn in E. lia.
  - apply Forall_app in Hb as [Hbp [Hc Hb]%Forall_cons]. rewrite length_app in Hf. cbn [length] in Hf.
    rewrite subs_at in Hmax |- *.
    assert (Hgrow : childof (node_shape n) (kids n) c = None ->
              exists n', step3 n (c :: rest) = Ok (n', 1) /\ wf n'
                /\ subscribed (subs (Some n)) (prefix n ++ c :: rest) (subs (Some n'))).
    { intros Hno. destruct (step3_ok n c rest Hw Hc Hb Hno) as (n' & E & Hg). exists n'. split; [done|].
      split; [by destruct Hg|by apply subscribed_grown]. }
    destruct (nn_node_next (node_shape n) c) as [i|] eqn:Hi.
    + destruct (next_child n c i (wf_ok n Hw) Hi) as [-> Hlt]. mred.
      destruct (childof (node_shape n) (kids n) c) as [k|] eqn:Hk.
      * destruct (IH (Some k) rest) as (k' & -> & Hwk & Hs); [lia|intros ? [= <-]; by apply (wf_childof n c Hw)|done|done|].
        mred. eexists. split; [done|]. split; [|by apply subscribed_child with k].
        pose proof Hk as (j & Hj & Hjk)%childof_Some. assert (j = i) as -> by congruence. by eapply wf_set.
      * destruct Hgrow as (n' & -> & ? & ?); [done|]. rewrite subs_None. eauto.
    + assert (Hk : childof (node_shape n) (kids n) c = None) by (unfold childof; by rewrite Hi).
      destruct (Hgrow Hk) as (n' & -> & ? & ?). rewrite Hk, subs_None. eauto.
Qed.

(** ** Matching

    [mem] is the memory that follows the string. *)
Definition is_prefix (p s : bytes) : Prop := exists t, s = p ++ t.

Lemma is_prefix_strip p s : is_prefix p s <-> is_Some (strip p s).
Proof. unfold is_prefix, is_Some. by setoid_rewrite strip_Some. Qed.

(** The walk at a node the string reaches beyond. *)
Lemma match_step fuel n s mem :
  Z.of_nat (length s) < 2 ^ 64 ->
  match_walk (Datatypes.S fuel) (Some n) (s ++ mem) (Z.of_nat (length s)) =
    match strip (prefix n) s with
    | None => Ok false
    | Some r =>
        if nn_node_has_subscribers n then Ok true
        else
          c ← deref (head (r ++ mem));
          ch ← match nn_node_next (node_shape n) c with None => Ok None | Some i => nn_node_child n i end;
          match_walk fuel ch (tail (r ++ mem)) (u64 (Z.of_nat (length r) - 1))
    end.
Proof.
  intros Hlen. cbn [match_walk]. rewrite check_prefix_ok. mred.
  destruct (strip (prefix n) s) as [r|] eqn:E.
  - destruct (strip_lcp _ _ _ E) as [-> _]. rewrite bool_decide_false by auto.
    apply strip_Some in E. subst s. rewrite <- app_assoc, drop_app_length. rewrite length_app in Hlen |- *.
    replace (u64 (Z.of_nat (length (prefix n) + length r) - Z.of_nat (length (prefix n)))) with (Z.of_nat (length r))
      by (rewrite wrap_small; unfold in_range; lia). done.
  - rewrite bool_decide_true; [done|]. intros Hl. apply lcp_full in Hl. congruence.
Qed.

(** Descending with a byte of the string. *)
Lemma match_down fuel n c r mem :
  node_ok n -> Z.of_nat (length (c :: r)) < 2 ^ 64 ->
  (c' ← deref (head ((c :: r) ++ mem));
   ch ← match nn_node_next (node_shape n) c' with None => Ok None | Some i => nn_node_child n i end;
   match_walk fuel ch (tail ((c :: r) ++ mem)) (u64 (Z.of_nat (length (c :: r)) - 1)))
  = match_walk fuel (childof (node_shape n) (kids n) c) (r ++ mem) (Z.of_nat (length r)).
Proof.
  intros Hok Hlen. cbn [app head tail]. mred. cbn [length] in *. unfold u64. rewrite Z.mod_small by lia.
  replace (Z.of_nat (Datatypes.S (length r)) - 1) with (Z.of_nat (length r)) by lia.
  destruct (nn_node_next (node_shape n) c) as [i|] eqn:Hi.
  - destruct (next_child n c i Hok Hi) as [-> _]. done.
  - unfold childof. by rewrite Hi.
Qed.

Lemma match_hit fuel : forall n s mem p,
  (length s < fuel)%nat -> Z.of_nat (length s) < 2 ^ 64 -> owf n -> 0 < subs n p -> is_prefix p s ->
  match_walk fuel n (s ++ mem) (Z.of_nat (length s)) = Ok true.
Proof.
  induction fuel as [|fuel IH]; intros n s mem p Hf Hlen Hw Hp Hpre; [lia|].
  destruct n as [n|]; [|rewrite subs_None in Hp; lia]. specialize (Hw n eq_refl). rewrite match_step by done.
  destruct (subs_beyond n p) as [t ->]; [lia|]. destruct Hpre as [u Hs]. rewrite <- app_assoc in Hs.
  rewrite (proj2 (strip_Some _ _ _) Hs). destruct (nn_node_has_subscribers n) eqn:Eh; [done|].
  apply has_subscribers_false in Eh. destruct t as [|c t]; [rewrite app_nil_r, subs_self in Hp; lia|].
  subst s. rewrite !length_app in Hf, Hlen. cbn [app length] in Hf, Hlen.
  change ((c :: t) ++ u) with (c :: (t ++ u)). rewrite match_down; [|by apply wf_ok|cbn [length]; rewrite length_app; lia].
  rewrite subs_at in Hp. apply (IH _ _ mem t); [rewrite length_app; lia..|by apply wf_childof|done|by exists u].
Qed.

Lemma match_miss fuel : forall n s mem,
  (length s < fuel)%nat -> Z.of_nat (length s) < 2 ^ 64 -> owf n ->
  (forall p, 0 < subs n p -> ~ is_prefix p s /\ ~ is_prefix s p) ->
  match_walk fuel n (s ++ mem) (Z.of_nat (length s)) = Ok false.
Proof.
  induction fuel as [|fuel IH]; intros n s mem Hf Hlen Hw Hno; [lia|].
  destruct n as [n|]; [|done]. specialize (Hw n eq_refl). rewrite match_step by done.
  destruct (strip (prefix n) s) as [r|] eqn:E; [|done]. apply strip_Some in E. subst s.
  destruct (nn_node_has_subscribers n) eqn:Eh.
  { apply has_subscribers_true in Eh. pose proof (no_refs n (wf_ok n Hw)).
    destruct (Hno (prefix n)) as [[] _]; [rewrite subs_self; lia|by exists r]. }
  destruct r as [|c r].
  { destruct (wf_live n Hw) as [x Hx]. destruct (subs_beyond n x) as [t ->]; [lia|].
    destruct (Hno _ Hx) as [_ []]. exists t. by rewrite app_nil_r. }
  rewrite length_app in Hf, Hlen. cbn [length] in Hf, Hlen. rewrite match_down; [|by apply wf_ok|cbn [length]; lia].
  apply IH; [lia|lia|by apply wf_childof|]. intros p Hp. rewrite <- subs_at in Hp.
  destruct (Hno _ Hp) as [H1 H2]. split; intros [t ->]; [apply H1|apply H2]; exists t; by rewrite <- app_assoc.
Qed.

(** A walk reads beyond the data only when a subscription extends them. *)
Lemma check_prefix_ends p : forall s size,
  (exists pos, nn_node_check_prefix p s size = Ok pos) \/ (nn_node_check_prefix p s size = Err BadAccess /\ is_prefix s p).
Proof.
  induction p as [|x p IH]; intros s size; cbn [nn_node_check_prefix]; [left; eauto|].
  case_bool_decide; [left; eauto|]. destruct s as [|y s]; [right; split; [done|by exists (x :: p)]|].
  cbn [head tail]. mred. case_bool_decide as Hne; [left; eauto|]. assert (x = y) as <- by (by destruct (decide (x = y))).
  destruct (IH s (size - 1)) as [[pos ->]|[-> [t ->]]]; mred; [left; eauto|right]. split; [done|by exists t].
Qed.

Lemma check_prefix_full p : forall s size, nn_node_check_prefix p s size = Ok (length p) -> is_prefix p s.
Proof.
  induction p as [|x p IH]; intros s size E; cbn [nn_node_check_prefix length] in E; [by exists s|].
  destruct (bool_decide (size = 0)); [done|]. destruct s as [|y s]; [done|]. cbn [head tail] in E. mred in E.
  destruct (decide (x = y)) as [<-|Hne]; [|by rewrite bool_decide_true in E].
  rewrite bool_decide_false in E by auto. apply bind_Ok in E as (pos & E & [= ->]).
  destruct (IH _ _ E) as [t ->]. by exists t.
Qed.

Lemma match_ends fuel : forall n s size,
  (length s < fuel)%nat -> owf n ->
  (exists b, match_walk fuel n s size = Ok b) \/
  (match_walk fuel n s size = Err BadAccess /\ exists x, 0 < subs n x /\ is_prefix s x).
Proof.
  induction fuel as [|fuel IH]; intros n s size Hf Hw; [lia|]. cbn [match_walk].
  destruct n as [n|]; [|left; eauto]. specialize (Hw n eq_refl).
  assert (Hlive : forall u, is_prefix u (prefix n) -> exists x, 0 < subs (Some n) x /\ is_prefix u x).
  { intros u [v Hv]. destruct (wf_live n Hw) as [x Hx]. exists x. split; [done|]. destruct (subs_beyond n x) as [t ->]; [lia|].
    rewrite Hv, <- app_assoc. by eexists. }
  destruct (check_prefix_ends (prefix n) s size) as [[pos Ep]|[-> Hpre]]; [rewrite Ep|right; by auto]. mred.
  destruct (decide (pos = length (prefix n))) as [->|Hne]; [|rewrite bool_decide_true by done; left; eauto].
  rewrite bool_decide_false by auto. apply check_prefix_full in Ep as [t ->]. rewrite drop_app_length.
  destruct (nn_node_has_subscribers n); [left; eauto|]. destruct t as [|c r].
  { right. split; [done|]. rewrite app_nil_r. apply Hlive. exists []. by rewrite app_nil_r. }
  cbn [head tail]. mred. rewrite length_app in Hf. cbn [length] in Hf.
  assert (Hch : match nn_node_next (node_shape n) c with None => Ok None | Some i => nn_node_child n i end
    = Ok (childof (node_shape n) (kids n) c)).
  { destruct (nn_node_next (node_shape n) c) as [i|] eqn:Hi; [|unfold childof; by rewrite Hi].
    by destruct (next_child n c i (wf_ok n Hw) Hi) as [-> _]. }
  rewrite Hch. mred. destruct (IH (childof (node_shape n) (kids n) c) r
    (u64 (u64 (size - Z.of_nat (length (prefix n))) - 1))) as [?|(-> & x & Hx & [u ->])]; [lia|by apply wf_childof|by left|].
  right. split; [done|]. exists (prefix n ++ c :: (r ++ u)). split; [by rewrite subs_at|]. exists u. by rewrite <- app_assoc.
Qed.

(** A match is a subscription the memory starts with. *)
Lemma match_true fuel : forall n s size,
  owf n -> match_walk fuel n s size = Ok true -> exists x, 0 < subs n x /\ is_prefix x s.
Proof.
  induction fuel as [|fuel IH]; intros n s size Hw E; [done|]. cbn [match_walk] in E.
  destruct n as [n|]; [|done]. specialize (Hw n eq_refl). apply bind_Ok in E as (pos & Ep & E).
  destruct (decide (pos = length (prefix n))) as [->|Hne]; [|by rewrite bool_decide_true in E].
  rewrite bool_decide_false in E by auto. apply check_prefix_full in Ep as [t ->]. rewrite drop_app_length in E.
  destruct (nn_node_has_subscribers n) eqn:Eh.
  - apply has_subscribers_true in Eh. exists (prefix n). rewrite subs_self. pose proof (no_refs n (wf_ok n Hw)).
    split; [lia|]. by exists t.
  - destruct t as [|c t]; [done|]. cbn [head tail] in E. mred in E. apply bind_Ok in E as (ch & Ech & E).
    assert (ch = childof (node_shape n) (kids n) c) as ->.
    { unfold childof. destruct (nn_node_next (node_shape n) c) as [i|] eqn:Hi; [|by injection Ech].
      destruct (next_child n c i (wf_ok n Hw) Hi) as [Ech' _]. rewrite Ech' in Ech. injection Ech as <-. unfold childof. by rewrite Hi. }
    destruct (IH _ _ _ (wf_childof n c Hw) E) as (x & Hx & [u ->]). exists (prefix n ++ c :: x).
    split; [by rewrite subs_at|]. exists u. by rewrite <- app_assoc.
Qed.

(** ** Removing a child *)

(** [o] is [n] without the strings below [c]. *)
Record pruned (n : nn_trie_node) (o : option nn_trie_node) (c : Z) : Prop := {
  pr_wf : owf o;
  pr_subs s : subs o s = match strip (prefix n ++ [c]) s with
                         | Some _ => 0
                         | None => if bool_decide (s = prefix n) then (if tight (node_shape n) then 0 else refcount n)
                                   else subs (Some n) s
                         end
}.

(** The counts of a node whose children are those of [n] but for [c]. *)
Lemma pruned_subs n r u ks c s :
  (forall d, childof u ks d = if bool_decide (d = c) then None else childof (node_shape n) (kids n) d) ->
  subs (Some (Node r (prefix n) u ks)) s =
    match strip (prefix n ++ [c]) s with
    | Some _ => 0
    | None => if bool_decide (s = prefix n) then r else subs (Some n) s
    end.
Proof.
  intros Hc. rewrite subs_Some, (subs_node n), strip_app. destruct (strip (prefix n) s) as [[|d t]|] eqn:E; cbn [mbind option_bind strip].
  - apply strip_Some in E. rewrite app_nil_r in E. by rewrite bool_decide_true.
  - rewrite Hc, (bool_decide_ext (c = d) (d = c)) by naive_solver. case_bool_decide; [by rewrite subs_None|].
    rewrite bool_decide_false; [done|]. intros ->. apply strip_Some in E. apply (f_equal length) in E.
    rewrite length_app in E. cbn in E. lia.
  - rewrite bool_decide_false; [done|]. intros ->.
    assert (E' : strip (prefix n) (prefix n) = Some []) by (apply strip_Some; by rewrite app_nil_r). congruence.
Qed.

(** The same for a whole node: what is left to show is its shape. *)
Lemma pruned_intro n u ks c :
  wf n -> shape_ok u ks -> u <> Sparse [] ->
  (forall j k, ks !! j = Some (Some k) -> exists d, childof (node_shape n) (kids n) d = Some k) ->
  (forall d, childof u ks d = if bool_decide (d = c) then None else childof (node_shape n) (kids n) d) ->
  pruned n (Some (Node (if tight (node_shape n) then 0 else refcount n) (prefix n) u ks)) c.
Proof.
  intros Hw Hs Hne Hk Hc. pose proof (wf_ok n Hw) as [H1 H2 H3 H4 H5]. constructor.
  - intros ? [= <-]. constructor; [constructor; cbn; try done; destruct (tight _); lia|].
    cbn. intros j k Hj. destruct (Hk j k Hj) as [d Hd]. by apply (wf_childof n d Hw).
  - intros s. by apply pruned_subs.
Qed.

Lemma kid_char n j k : wf n -> kids n !! j = Some (Some k) -> exists d, childof (node_shape n) (kids n) d = Some k.
Proof.
  intros Hw Hj. pose proof (no_shape n (wf_ok n Hw)) as Hs. destruct (node_shape n) as [cs|min max nbr].
  - destruct Hs as (_ & Hn & _ & Hl & _). destruct (lookup_lt_is_Some_2 cs j) as [d Hd]; [rewrite <- Hl; by eapply lookup_lt_Some|].
    exists d. apply childof_sparse; eauto.
  - destruct Hs as (? & ? & ? & Hl & _). apply lookup_lt_Some in Hj as Hlt. exists (min + Z.of_nat j).
    apply childof_dense. split; [lia|]. by replace (Z.to_nat (min + Z.of_nat j - min)) with j by lia.
Qed.

(** Deleting a character and its child. *)
Lemma sparse_delete n c i k cs :
  wf n -> node_shape n = Sparse cs -> cs !! i = Some c -> kids n !! i = Some (Some k) ->
  shape_ok (Sparse (delete i cs)) (delete i (kids n))
  /\ (forall j k', delete i (kids n) !! j = Some (Some k') -> exists d, childof (node_shape n) (kids n) d = Some k')
  /\ (forall d, childof (Sparse (delete i cs)) (delete i (kids n)) d =
               if bool_decide (d = c) then None else childof (node_shape n) (kids n) d).
Proof.
  intros Hw Eu Hi Hk. pose proof (no_shape n (wf_ok n Hw)) as H4. rewrite Eu in H4. destruct H4 as (Hl & Hn & Hb & Hlk & Hf).
  assert (Hn' : NoDup (delete i cs)) by (eapply sublist_NoDup; [done|apply sublist_delete]).
  assert (Hlen : length (delete i cs) = (length cs - 1)%nat) by (apply length_delete; eauto).
  assert (Hlen' : length (delete i (kids n)) = (length cs - 1)%nat) by (rewrite <- Hlk; apply length_delete; eauto).
  split; [|split].
  - cbn. split; [lia|]. split; [done|]. split; [by apply Forall_delete|]. split; [lia|by apply Forall_delete].
  - intros j k' Hj. rewrite list_lookup_delete in Hj. destruct (decide (j < i)%nat); by eapply kid_char.
  - intros d. apply childof_ext. intros k'. rewrite Eu, childof_sparse by done. setoid_rewrite list_lookup_delete. split.
    + intros (j & Hj & Hkj). set (j' := if decide (j < i)%nat then j else Datatypes.S j) in *.
      assert (Hne : j' <> i) by (unfold j'; case_decide; lia).
      rewrite bool_decide_false; [apply childof_sparse; eauto|].
      intros ->. apply Hne. eapply NoDup_lookup; [exact Hn|exact Hj|exact Hi].
    + case_bool_decide as E; [done|]. intros (j & Hj & Hkj)%childof_sparse; [|done].
      assert (j <> i) by congruence. exists (if decide (j < i)%nat then j else (j - 1)%nat).
      destruct (decide (j < i)%nat).
      * by rewrite decide_True by done.
      * rewrite decide_False by lia. by replace (Datatypes.S (j - 1)) with j by lia.
Qed.

(** A sparse node that is left without children and subscribers goes. *)
Lemma pruned_gone n c cs i :
  wf n -> node_shape n = Sparse cs -> delete i cs = [] -> refcount n = 0 ->
  (forall d, childof (Sparse (delete i cs)) (delete i (kids n)) d =
             if bool_decide (d = c) then None else childof (node_shape n) (kids n) d) ->
  pruned n None c.
Proof.
  intros Hw Eu Enil Er Hc. constructor; [done|]. intros s. rewrite subs_None.
  destruct (strip (prefix n ++ [c]) s) eqn:E; [done|]. rewrite Er. case_bool_decide; [by destruct (tight _)|].
  rewrite subs_node, strip_app in *. destruct (strip (prefix n) s) as [[|d t]|] eqn:Es; [|cbn in E|done].
  - apply strip_Some in Es. rewrite app_nil_r in Es. done.
  - destruct (decide (c = d)) as [->|Hcd]; [by rewrite bool_decide_true in E|]. specialize (Hc d).
    rewrite bool_decide_false in Hc by congruence. rewrite <- Hc, Enil. unfold childof. cbn. by rewrite subs_None.
Qed.

Lemma prune_sparse n c i k cs :
  wf n -> node_shape n = Sparse cs -> cs !! i = Some c -> kids n !! i = Some (Some k) ->
  exists o, prune (Node (refcount n) (prefix n) (node_shape n) (<[i := None]> (kids n))) c i = Ok (o, 1)
    /\ pruned n o c.
Proof.
  intros Hw Eu Hi Hk. pose proof (wf_ok n Hw) as [H1 H2 H3 H4 H5]. rewrite Eu in H4. destruct H4 as (_ & Hn & _).
  destruct (sparse_delete n c i k cs Hw Eu Hi Hk) as (Hshape & Hkids & Hc).
  unfold prune. cbn [node_shape]. rewrite Eu. cbn [refcount prefix kids].
  pose proof (proj2 (next_sparse cs c i Hn) Hi) as Hfind. cbn in Hfind.
  destruct (list_find (fun x => x = c) cs) as [[j y]|]; [|done]. cbn in Hfind. injection Hfind as ->. mred.
  replace (delete i (<[i := None]> (kids n))) with (delete i (kids n))
    by (by rewrite !delete_take_drop, take_insert_ge, drop_insert_lt by lia).
  assert (Ht : tight (node_shape n) = false) by (by rewrite Eu).
  unfold nn_node_has_subscribers. cbn [refcount node_type node_shape].
  destruct (decide (delete i cs = [])) as [Enil|Enil].
  - destruct (decide (refcount n = 0)) as [Er|Er].
    + rewrite Enil, Er. exists None. split; [done|]. by eapply pruned_gone.
    + rewrite (bool_decide_false (refcount n = 0)) by done. cbn [negb]. rewrite andb_false_r.
      unfold nn_node_compact, nn_node_has_subscribers. cbn [refcount]. rewrite bool_decide_false by done. cbn [negb]. mred.
      eexists. split; [done|]. constructor; [|intros s; rewrite Ht; by apply pruned_subs].
      intros ? [= <-]. constructor; [by constructor|]. cbn. intros j k' Hj.
      destruct (Hkids j k' Hj) as [d Hd]. by apply (wf_childof n d Hw).
  - rewrite (bool_decide_false (length (delete i cs) = 0%nat)) by (by destruct (delete i cs)). cbn [andb].
    pose proof (pruned_intro n (Sparse (delete i cs)) (delete i (kids n)) c Hw Hshape ltac:(congruence) Hkids Hc) as [Hpw Hps].
    rewrite Ht in Hpw, Hps. destruct (nn_node_compact_ok _ (Hpw _ eq_refl)) as (n' & -> & Hw' & Hs').
    mred. exists (Some n'). split; [done|]. constructor; [by intros ? [= <-]|]. intros s. rewrite Hs', Hps, Ht. done.
Qed.

Lemma nkids_drop ks i : (forall j, (j < i)%nat -> ks !! j = Some None) -> nkids (drop i ks) = nkids ks.
Proof.
  intros Hn. rewrite <- (take_drop i ks) at 2. rewrite nkids_app.
  replace (take i ks) with (replicate (length (take i ks)) (None : option nn_trie_node)); [by rewrite nkids_None|].
  apply list_eq. intros j. destruct (decide (j < length (take i ks))%nat) as [Hj|Hj].
  - rewrite lookup_replicate_2 by done. rewrite length_take in Hj. rewrite lookup_take_lt by lia. symmetry. apply Hn. lia.
  - rewrite !lookup_ge_None_2; [done|lia|rewrite length_replicate; lia].
Qed.

Lemma nkids_take ks i : (forall j o, (i <= j)%nat -> ks !! j = Some o -> o = None) -> nkids (take i ks) = nkids ks.
Proof.
  intros Hn. rewrite <- (take_drop i ks) at 2. rewrite nkids_app.
  replace (drop i ks) with (replicate (length (drop i ks)) (None : option nn_trie_node)); [rewrite nkids_None; lia|].
  apply list_eq. intros j. destruct (decide (j < length (drop i ks))%nat) as [Hj|Hj].
  - rewrite lookup_replicate_2 by done. destruct (lookup_lt_is_Some_2 _ _ Hj) as [o Ho]. rewrite Ho.
    rewrite lookup_drop in Ho. rewrite (Hn (i + j)%nat o); [done|lia|done].
  - rewrite !lookup_ge_None_2; [done|lia|rewrite length_replicate; lia].
Qed.

Lemma first_kid_ok ks : (0 < nkids ks)%nat ->
  (first_kid ks < length ks)%nat /\ forall j, (j < first_kid ks)%nat -> ks !! j = Some None.
Proof.
  intros Hk. destruct (nkids_pos ks Hk) as (i & k & Hi). unfold first_kid.
  destruct (list_find is_Some ks) as [[j o]|] eqn:E.
  - apply list_find_Some in E as (Hj & _ & Hb). split; [by eapply lookup_lt_Some|]. intros j' Hj'.
    destruct (lookup_lt_is_Some_2 ks j') as [o' Ho']; [apply lookup_lt_Some in Hj; lia|]. rewrite Ho'.
    f_equal. apply eq_None_not_Some. by apply (Hb j').
  - apply list_find_None in E. rewrite Forall_lookup in E. specialize (E i _ Hi). by destruct E.
Qed.

Lemma last_kid_ok ks : forall i, (i < length ks)%nat -> (exists j k, (j <= i)%nat /\ ks !! j = Some (Some k)) ->
  exists m, last_kid i ks = Ok m /\ (m <= i)%nat /\ forall j o, (m < j <= i)%nat -> ks !! j = Some o -> o = None.
Proof.
  induction i as [|i IH]; intros Hi Hex; cbn [last_kid].
  - exists 0%nat. split; [done|]. split; [done|]. lia.
  - destruct (lookup_lt_is_Some_2 ks (Datatypes.S i)) as [o Ho]; [done|]. rewrite Ho. mred. destruct o as [k|]; cbn [is_NULL].
    + exists (Datatypes.S i). split; [done|]. split; [done|]. lia.
    + destruct IH as (m & -> & Hm & Hafter); [lia| |].
      { destruct Hex as (j & k & Hj & Hk). exists j, k. split; [|done]. destruct (decide (j = Datatypes.S i)); [congruence|lia]. }
      exists m. split; [done|]. split; [lia|]. intros j o Hj Hjo. destruct (decide (j = Datatypes.S i)); [congruence|].
      apply (Hafter j); [lia|done].
Qed.

Section PruneDense.
  Context (n : nn_trie_node) (min max nbr c : Z) (k : nn_trie_node).
  Hypothesis Hw : wf n.
  Hypothesis Eu : node_shape n = Dense min max nbr.
  Hypothesis Hc : min <= c <= max.
  Hypothesis Hk : kids n !! Z.to_nat (c - min) = Some (Some k).
Let hole := <[Z.to_nat (c - min) := None]> (kids n).

Lemma dense_facts :
  0 <= min /\ max <= 255 /\ Z.of_nat (length hole) = max - min + 1 /\ nbr = Z.of_nat (nkids hole) + 1
  /\ (NN_TRIE_SPARSE_MAX <= nkids hole)%nat.
Proof.
  pose proof (no_shape n (wf_ok n Hw)) as Hs. rewrite Eu in Hs. destruct Hs as (? & ? & ? & Hl & Hn & Hf).
  unfold hole. rewrite length_insert, (nkids_insert _ _ (Some k)) by done. cbn [is_NULL]. lia.
Qed.

Lemma hole_kid j k' : hole !! j = Some (Some k') -> exists d, childof (node_shape n) (kids n) d = Some k'.
Proof. intros [(_ & [=] & _)|[_ Hj]]%list_lookup_insert_Some. by eapply kid_char. Qed.

Lemma hole_child d k' :
  (if bool_decide (d = c) then None else childof (node_shape n) (kids n) d) = Some k'
  <-> min <= d <= max /\ hole !! Z.to_nat (d - min) = Some (Some k').
Proof.
  rewrite <- (childof_dense min max nbr). unfold hole. rewrite (childof_set _ _ c); [by rewrite Eu| |by eapply lookup_lt_Some|done].
  by apply next_dense.
Qed.

Lemma prune_dense_below :
  (NN_TRIE_SPARSE_MAX < nkids hole)%nat ->
  let m := first_kid hole in
  pruned n (Some (Node (refcount n) (prefix n) (Dense (u8 (Z.of_nat m + min)) max (u16 (nbr - 1))) (drop m hole))) c.
Proof.
  intros Hmany m. destruct dense_facts as (? & ? & Hl & Hn & _). destruct (first_kid_ok hole) as [Hm Hbefore]; [lia|]. fold m in Hm, Hbefore.
  assert (Ht : tight (node_shape n) = false) by (rewrite Eu; cbn; apply bool_decide_eq_false; lia).
  pose proof (nkids_length hole) as Hnl. rewrite !wrap_small by (unfold in_range; lia).
  pose proof (pruned_intro n (Dense (Z.of_nat m + min) max (nbr - 1)) (drop m hole) c Hw) as Hp. rewrite Ht in Hp. apply Hp; [| | |].
  - cbn. rewrite length_drop, nkids_drop by done. repeat split; lia.
  - done.
  - intros j k'. rewrite lookup_drop. apply hole_kid.
  - intros d. apply childof_ext. intros k'. rewrite hole_child, childof_dense, lookup_drop. split.
    + intros [Hd Hj]. split; [lia|]. by replace (Z.to_nat (d - min)) with (m + Z.to_nat (d - (Z.of_nat m + min)))%nat by lia.
    + intros [Hd Hj]. destruct (decide (Z.to_nat (d - min) < m)%nat) as [Hlt|]; [rewrite (Hbefore _ Hlt) in Hj; done|].
      split; [lia|]. by replace (m + Z.to_nat (d - (Z.of_nat m + min)))%nat with (Z.to_nat (d - min)) by lia.
Qed.

Lemma prune_dense_above :
  (NN_TRIE_SPARSE_MAX < nkids hole)%nat ->
  exists m, last_kid (Z.to_nat (max - min)) hole = Ok m /\
  pruned n (Some (Node (refcount n) (prefix n) (Dense min (u8 (Z.of_nat m + min)) (u16 (nbr - 1))) (take (Datatypes.S m) hole))) c.
Proof.
  intros Hmany. destruct dense_facts as (? & ? & Hl & Hn & _).
  destruct (last_kid_ok hole (Z.to_nat (max - min))) as (m & E & Hm & Hafter); [lia| |].
  { destruct (nkids_pos hole) as (j & k' & Hj); [lia|]. exists j, k'. split; [|done]. apply lookup_lt_Some in Hj. lia. }
  exists m. split; [done|].
  assert (Ht : tight (node_shape n) = false) by (rewrite Eu; cbn; apply bool_decide_eq_false; lia).
  pose proof (nkids_length hole) as Hnl. rewrite !wrap_small by (unfold in_range; lia).
  pose proof (pruned_intro n (Dense min (Z.of_nat m + min) (nbr - 1)) (take (Datatypes.S m) hole) c Hw) as Hp. rewrite Ht in Hp. apply Hp.
  - cbn. rewrite length_take, nkids_take; [repeat split; lia|]. intros j o Hj Ho. apply (Hafter j); [|done].
    apply lookup_lt_Some in Ho. lia.
  - done.
  - intros j k' Hj. apply lookup_take_Some in Hj as [Hj _]. by eapply hole_kid.
  - intros d. apply childof_ext. intros k'. rewrite hole_child, childof_dense, lookup_take_Some. split.
    + intros (Hd & Hj & _). split; [lia|done].
    + intros [Hd Hj]. destruct (decide (m < Z.to_nat (d - min))%nat).
      * assert (Some k' = None) by (apply (Hafter (Z.to_nat (d - min))); [lia|done]). done.
      * repeat split; [lia|lia|done|lia].
Qed.

Lemma prune_dense_inside :
  (NN_TRIE_SPARSE_MAX < nkids hole)%nat ->
  pruned n (Some (Node (refcount n) (prefix n) (Dense min max (u16 (nbr - 1))) hole)) c.
Proof.
  intros Hmany. destruct dense_facts as (? & ? & Hl & Hn & _).
  assert (Ht : tight (node_shape n) = false) by (rewrite Eu; cbn; apply bool_decide_eq_false; lia).
  pose proof (nkids_length hole) as Hnl. rewrite !wrap_small by (unfold in_range; lia).
  pose proof (pruned_intro n (Dense min max (nbr - 1)) hole c Hw) as Hp. rewrite Ht in Hp. apply Hp.
  - cbn. repeat split; lia.
  - done.
  - apply hole_kid.
  - intros d. apply childof_ext. intros k'. by rewrite hole_child, childof_dense.
Qed.

Lemma prune_dense_convert :
  nkids hole = NN_TRIE_SPARSE_MAX ->
  let all := collect hole min in
  length all = NN_TRIE_SPARSE_MAX
  /\ pruned n (Some (Node 0 (prefix n) (Sparse all.*1) (Some <$> all.*2))) c.
Proof.
  intros Hfew all. destruct dense_facts as (? & ? & Hl & Hn & _).
  destruct (collect_ok hole min) as (Hnd & Hlen & Hin); [lia|lia|]. fold all in Hnd, Hlen, Hin. split; [lia|].
  assert (Ht : tight (node_shape n) = true) by (rewrite Eu; cbn; apply bool_decide_eq_true; lia).
  assert (Hpair : forall i d k', all.*1 !! i = Some d -> all.*2 !! i = Some k' -> (d, k') ∈ all).
  { intros i d k' Hd Hk'. rewrite list_lookup_fmap in Hd; rewrite list_lookup_fmap in Hk'. destruct (all !! i) as [[d' k'']|] eqn:E; [|done].
    cbn in Hd, Hk'. injection Hd as ->. injection Hk' as ->. by eapply list_elem_of_lookup_2. }
  pose proof (pruned_intro n (Sparse all.*1) (Some <$> all.*2) c Hw) as Hp. rewrite Ht in Hp. apply Hp.
  - cbn. rewrite !length_fmap. split; [lia|]. split; [done|]. split; [|split; [done|by apply Forall_fmap, Forall_true; eexists]].
    apply Forall_forall. intros d ([d' k'] & -> & [Hd Hj]%Hin)%list_elem_of_fmap. apply lookup_lt_Some in Hj. unfold in_range. cbn. lia.
  - intros [=E]. assert (length all = 0%nat) by (by rewrite <- (length_fmap fst), E). unfold NN_TRIE_SPARSE_MAX in *. lia.
  - intros j k' Hj. rewrite list_lookup_fmap in Hj. destruct (all.*2 !! j) as [k''|] eqn:E; [|done]. cbn in Hj. injection Hj as ->.
    destruct (lookup_lt_is_Some_2 all.*1 j) as [d Hd]; [apply lookup_lt_Some in E; rewrite !length_fmap in *; done|].
    specialize (Hpair j d k' Hd E). apply Hin in Hpair as [_ Hj]. by eapply hole_kid.
  - intros d. apply childof_ext. intros k'. rewrite hole_child, childof_sparse by done. split.
    + intros (j & Hd & Hj). rewrite list_lookup_fmap in Hj. destruct (all.*2 !! j) as [k''|] eqn:E; [|done]. cbn in Hj. injection Hj as ->.
      specialize (Hpair j d k' Hd E). apply Hin in Hpair as [Hge Hj]. split; [|done]. apply lookup_lt_Some in Hj. lia.
    + intros [Hd Hj]. assert (Hall : (d, k') ∈ all) by (apply Hin; split; [lia|done]).
      apply list_elem_of_lookup_1 in Hall as [j Hall]. exists j. rewrite !list_lookup_fmap, Hall. done.
Qed.

Lemma prune_dense :
  exists o, prune (Node (refcount n) (prefix n) (node_shape n) hole) c (Z.to_nat (c - min)) = Ok (o, 1) /\ pruned n o c.
Proof.
  destruct dense_facts as (? & ? & Hl & Hn & Hfew). unfold prune. cbn [node_shape]. rewrite Eu. cbn [refcount prefix kids].
  case_bool_decide as Emany.
  - assert (Hmany : (NN_TRIE_SPARSE_MAX < nkids hole)%nat) by lia. case_bool_decide; [|case_bool_decide].
    + eexists. split; [done|]. by apply prune_dense_below.
    + destruct (prune_dense_above Hmany) as (m & -> & Hp). mred. eauto.
    + eexists. split; [done|]. by apply prune_dense_inside.
  - destruct prune_dense_convert as [Hlen Hp]; [lia|]. cbn zeta. rewrite Hlen. mred. eauto.
Qed.
End PruneDense.

Lemma prune_ok n c i k :
  wf n -> nn_node_next (node_shape n) c = Some i -> childof (node_shape n) (kids n) c = Some k ->
  exists o, prune (Node (refcount n) (prefix n) (node_shape n) (<[i := None]> (kids n))) c i = Ok (o, 1) /\ pruned n o c.
Proof.
  intros Hw Hi (i' & Hi' & Hk)%childof_Some. assert (i' = i) as -> by congruence.
  destruct (node_shape n) as [cs|min max nbr] eqn:Eu; rewrite <- Eu.
  - pose proof (no_shape n (wf_ok n Hw)) as Hs. rewrite Eu in Hs. destruct Hs as (_ & Hn & _).
    apply next_sparse in Hi; [|done]. by eapply prune_sparse.
  - apply next_dense in Hi as [Hc ->]. by eapply prune_dense.
Qed.

(** ** Unsubscribing *)

(** The counts [f'] after an unsubscription from [s]. *)
Record unsubscribed (f : bytes -> Z) (s : bytes) (f' : bytes -> Z) : Prop := {
  un_self : f' s = f s - 1;
  un_kept x : x <> s -> ~ unforgets f s x -> f' x = f x;
  un_forgot x : unforgets f s x -> f' x = 0
}.

Lemma unforgets_extends f s x : unforgets f s x -> exists c rest, s = x ++ c :: rest.
Proof. intros (c & rest & -> & _). eauto. Qed.

Lemma unforgets_ne f s x : unforgets f s x -> x <> s.
Proof.
  intros (c & rest & ->)%unforgets_extends E%(f_equal length). rewrite length_app in E. cbn in E. lia.
Qed.

Lemma not_unforgets_self n x : ~ unforgets (subs (Some n)) (prefix n) x.
Proof.
  intros Hx. destruct (unforgets_below _ _ _ Hx) as [t ->]. apply unforgets_extends in Hx as (c & rest & E).
  apply (f_equal length) in E. rewrite !length_app in E. cbn in E. lia.
Qed.

(** Where a string is forgotten, another one stays. *)
Lemma unforgets_other f s x : unforgets f s x -> exists y, 0 < f y /\ y <> s /\ ~ unforgets f s y.
Proof.
  intros (d & rest & -> & Hb & _).
  destruct (branches_two _ _ _ Hb) as (e1 & e2 & H1 & H2 & He); [unfold NN_TRIE_SPARSE_MAX; lia|].
  assert (Hex : exists e, e <> d /\ continues f x e)
    by (destruct (decide (e1 = d)) as [->|]; [exists e2|exists e1]; (split; [congruence|done])).
  destruct Hex as (e & Hne & [r Hr]). exists (x ++ e :: r). split; [done|]. split.
  - intros E. apply app_inv_head in E. by injection E.
  - intros Hf. apply unforgets_extends in Hf as (c & t & E). rewrite <- app_assoc in E. apply app_inv_head in E. by injection E.
Qed.

(** At the node itself. *)
Lemma unsubscribe_found_ok n :
  wf n -> 0 < refcount n ->
  exists o, unsubscribe_found (Some n) = Ok (o, if bool_decide (refcount n = 1) then 1 else 0)
    /\ owf o /\ unsubscribed (subs (Some n)) (prefix n) (subs o).
Proof.
  intros Hw Hr. pose proof (wf_ok n Hw) as [H1 H2 H3 H4 H5]. unfold unsubscribe_found. unfold nn_node_has_subscribers at 1.
  rewrite bool_decide_false by lia. cbn [negb refcount].
  assert (Hfin : forall o, (forall s, subs o s = if bool_decide (s = prefix n) then refcount n - 1 else subs (Some n) s) ->
            unsubscribed (subs (Some n)) (prefix n) (subs o)).
  { intros o Ho. constructor.
    - by rewrite Ho, bool_decide_true, subs_self.
    - intros x Hx _. by rewrite Ho, bool_decide_false.
    - intros x Hx. by destruct (not_unforgets_self n x). }
  assert (Hs : forall s, subs (Some (Node (refcount n - 1) (prefix n) (node_shape n) (kids n))) s =
             if bool_decide (s = prefix n) then refcount n - 1 else subs (Some n) s).
  { intros s. rewrite subs_Some, subs_node. destruct (strip (prefix n) s) as [[|c t]|] eqn:E.
    - apply strip_Some in E. rewrite app_nil_r in E. by rewrite bool_decide_true.
    - apply strip_Some in E. rewrite bool_decide_false; [done|]. intros ->.
      apply (f_equal length) in E. rewrite length_app in E. cbn in E. lia.
    - rewrite bool_decide_false; [done|]. intros ->. rewrite (proj2 (strip_Some (prefix n) (prefix n) [])) in E; [done|].
      by rewrite app_nil_r. }
  rewrite (bool_decide_ext (refcount n - 1 = 0) (refcount n = 1)) by lia. case_bool_decide as E.
  - cbn [node_shape]. case_bool_decide as Et.
    + exists None. split; [done|]. split; [done|]. apply Hfin. intros s. rewrite <- Hs, subs_None, E.
      destruct (node_shape n) as [[|? ?]|]; [|done|done]. destruct H4 as (_ & _ & _ & Hl & _).
      destruct (kids n); [|done]. rewrite subs_leaf. by case_bool_decide.
    + assert (Hw' : wf (Node (refcount n - 1) (prefix n) (node_shape n) (kids n))).
      { constructor; [constructor; cbn; try done; [lia|intros _ Eu; by rewrite Eu in Et]|]. intros i k. apply (wf_kid n i k Hw). }
      destruct (nn_node_compact_ok _ Hw') as (n' & -> & Hwn & Hsn). mred. exists (Some n'). split; [done|].
      split; [by intros ? [= <-]|]. apply Hfin. intros s. by rewrite Hsn, Hs.
  - eexists. split; [done|]. split; [|by apply Hfin]. intros ? [= <-].
    constructor; [constructor; cbn; try done; lia|]. intros i k. apply (wf_kid n i k Hw).
Qed.

(** Below a child that stays. *)
Lemma unsubscribed_child n c i k k' rest :
  wf n -> nn_node_next (node_shape n) c = Some i -> childof (node_shape n) (kids n) c = Some k -> wf k' ->
  unsubscribed (subs (Some k)) rest (subs (Some k')) ->
  unsubscribed (subs (Some n)) (prefix n ++ c :: rest)
    (subs (Some (Node (refcount n) (prefix n) (node_shape n) (<[i := Some k']> (kids n))))).
Proof.
  intros Hw Hi Hk Hwk [Hself Hkept Hforgot]. pose proof (fun s => subs_set n c i (Some k') s (wf_ok n Hw) Hi) as Hs.
  assert (Hbelow : forall t, strip (prefix n ++ [c]) (prefix n ++ c :: t) = Some t)
    by (intros t; apply strip_Some; by rewrite <- app_assoc).
  constructor.
  - by rewrite Hs, Hbelow, subs_at, Hk.
  - intros x Hx Hf. rewrite Hs. destruct (strip (prefix n ++ [c]) x) as [t|] eqn:E; [|done].
    apply strip_Some in E. rewrite <- app_assoc in E. cbn in E. subst x. rewrite subs_at, Hk. apply Hkept; [congruence|].
    rewrite unforgets_child, Hk in Hf. done.
  - intros x Hf. destruct (unforgets_below _ _ _ Hf) as [[|d t] ->].
    + rewrite app_nil_r in *. apply unforgets_here in Hf as (_ & H1 & Hlast); [|done]. rewrite Hk in *.
      destruct (wf_live k' Hwk) as [x Hx]. destruct (decide (x = rest)) as [->|Hne]; [lia|].
      exfalso. apply Hne, Hlast. destruct (decide (subs (Some k) x = subs (Some k') x)) as [->|Hne']; [done|].
      exfalso. apply Hne'. symmetry. apply Hkept; [done|]. intros Hf. rewrite (Hforgot x Hf) in Hx. lia.
    + pose proof (unforgets_extends _ _ _ Hf) as (e & r & E). rewrite <- app_assoc in E. apply app_inv_head in E.
      injection E as -> _. rewrite Hs, Hbelow. apply Hforgot. by rewrite unforgets_child, Hk in Hf.
Qed.

(** Below a child that goes. *)
Lemma unsubscribed_pruned n c k o rest :
  wf n -> childof (node_shape n) (kids n) c = Some k ->
  unsubscribed (subs (Some k)) rest (subs None) -> pruned n o c ->
  unsubscribed (subs (Some n)) (prefix n ++ c :: rest) (subs o).
Proof.
  intros Hw Hk [Hself Hkept Hforgot] [_ Hs]. rewrite subs_None in Hself.
  assert (Hbelow : forall t, strip (prefix n ++ [c]) (prefix n ++ c :: t) = Some t)
    by (intros t; apply strip_Some; by rewrite <- app_assoc).
  assert (Hne : prefix n <> prefix n ++ c :: rest).
  { intros E%(f_equal length). rewrite length_app in E. cbn in E. lia. }
  assert (Hself0 : strip (prefix n ++ [c]) (prefix n) = None).
  { destruct (strip _ _) as [t|] eqn:E; [|done]. apply strip_Some in E. apply (f_equal length) in E.
    rewrite !length_app in E. cbn in E. lia. }
  constructor.
  - rewrite Hs, Hbelow, subs_at, Hk. lia.
  - intros x Hx Hf. rewrite Hs. destruct (strip (prefix n ++ [c]) x) as [t|] eqn:E.
    + apply strip_Some in E. rewrite <- app_assoc in E. cbn in E. subst x. rewrite subs_at, Hk.
      rewrite <- (Hkept t); [by rewrite subs_None|congruence|]. by rewrite unforgets_child, Hk in Hf.
    + case_bool_decide as E1; [|done]. subst x. rewrite subs_self. destruct (tight (node_shape n)) eqn:Et; [|done].
      destruct (decide (refcount n = 0)) as [->|Hr]; [done|]. destruct Hf. apply unforgets_here; [done|]. rewrite Hk.
      split; [done|]. split; [lia|]. intros r Hr'. destruct (decide (r = rest)) as [|Hrr]; [done|]. exfalso.
      (* every other string below the child was forgotten, but then it branches *)
      destruct (decide (subs (Some k) r = 0)) as [|Hr0]; [lia|]. apply Hr0. rewrite <- (Hkept r); [by rewrite subs_None|done|].
      intros Hfr. destruct (unforgets_other _ _ _ Hfr) as (x & Hx0 & Hx1 & Hx2).
      rewrite <- (Hkept x Hx1 Hx2), subs_None in Hx0. lia.
  - intros x Hf. destruct (unforgets_below _ _ _ Hf) as [[|d t] ->].
    + rewrite app_nil_r in *. apply unforgets_here in Hf as (Ht & _ & _); [|done].
      rewrite Hs, Hself0, bool_decide_true by done. by rewrite Ht.
    + pose proof (unforgets_extends _ _ _ Hf) as (e & r & E). rewrite <- app_assoc in E. apply app_inv_head in E.
      injection E as -> _. rewrite Hs, Hbelow. done.
Qed.

Lemma nn_node_unsubscribe_ok fuel : forall n data,
  (length data < fuel)%nat -> owf n -> 0 < subs n data ->
  exists o, nn_node_unsubscribe fuel n data = Ok (o, if bool_decide (subs n data = 1) then 1 else 0)
    /\ owf o /\ unsubscribed (subs n) data (subs o).
Proof.
  induction fuel as [|fuel IH]; intros n data Hf Hw Hpos; [lia|].
  destruct n as [n|]; [|rewrite subs_None in Hpos; lia]. specialize (Hw n eq_refl).
  destruct (subs_beyond n data) as [t ->]; [lia|].
  assert (Hfound : t = [] -> exists o, unsubscribe_found (Some n) = Ok (o, if bool_decide (subs (Some n) (prefix n ++ t) = 1) then 1 else 0)
            /\ owf o /\ unsubscribed (subs (Some n)) (prefix n ++ t) (subs o)).
  { intros ->. rewrite app_nil_r, subs_self in *. by apply unsubscribe_found_ok. }
  cbn [nn_node_unsubscribe]. destruct (prefix n ++ t) as [|d0 data0] eqn:Ed.
  { apply Hfound. apply app_eq_nil in Ed. tauto. }
  rewrite <- Ed in *. clear Ed d0 data0. mred. rewrite check_prefix_nil. mred.
  assert (Hstrip : strip (prefix n) (prefix n ++ t) = Some t) by (by apply strip_Some).
  destruct (strip_lcp _ _ _ Hstrip) as [-> ->]. rewrite bool_decide_false by auto.
  destruct t as [|c rest]; [by apply Hfound|]. rewrite subs_at in Hpos |- *.
  destruct (childof (node_shape n) (kids n) c) as [k|] eqn:Hk; [|rewrite subs_None in Hpos; lia].
  pose proof Hk as (i & Hi & Hik)%childof_Some. rewrite Hi. destruct (next_child n c i (wf_ok n Hw) Hi) as [-> Hlt]. rewrite Hk. mred.
  assert (Hwk : owf (Some k)) by (intros ? [= <-]; by apply (wf_childof n c Hw)).
  rewrite length_app in Hf. cbn [length] in Hf.
  destruct (IH (Some k) rest) as (o & -> & Hwo & Hs); [lia|done|done|]. mred. destruct o as [k'|].
  - assert (Hwk' : wf k') by (by apply Hwo). exists (Some (Node (refcount n) (prefix n) (node_shape n) (<[i := Some k']> (kids n)))).
    split; [cbn [is_NULL negb]; by repeat case_bool_decide|].
    split; [intros ? [= <-]; by eapply wf_set|by apply unsubscribed_child with k].
  - pose proof (un_self _ _ _ Hs) as Hself. rewrite subs_None in Hself. rewrite (bool_decide_true (subs (Some k) rest = 1)) by lia.
    cbn [is_NULL negb]. rewrite bool_decide_false by done. destruct (prune_ok n c i k Hw Hi Hk) as (o & -> & Hp).
    exists o. split; [done|]. split; [by destruct Hp|by eapply unsubscribed_pruned].
Qed.
