(* ===== verification/TrieRefines.v ===== *)
(** * Theorems about the subscription trie

    [TrieSpec] says what each operation does to the counts; here are the
    statements for whole tries: the refinement of a bag of strings, the exact
    effect of each operation, and the cases in which the code departs from the
    bag. *)

From S2P Require Import Prelude NNList Wire Trie TrieSpec.
Local Open Scope Z_scope.

(** ** Runs

    The specification is a bag of strings.  Unsubscribing from a string that
    is not in it is outside of the specification. *)

Definition trie_ok (t : nn_trie) : Prop := owf (root t).
Definition trie_subs (t : nn_trie) : bytes -> Z := subs (root t).

Inductive trie_op := TSubscribe (s : bytes) | TUnsubscribe (s : bytes) | TMatch (s mem : bytes).
Inductive trie_out := TRc (rc : Z) | TMatched (b : bool).

Definition trie_step (t : nn_trie) (o : trie_op) : result (nn_trie * trie_out) :=
  match o with
  | TSubscribe s => '(t, rc) ← nn_trie_subscribe t s; Ok (t, TRc rc)
  | TUnsubscribe s => '(t, rc) ← nn_trie_unsubscribe t s; Ok (t, TRc rc)
  | TMatch s mem => b ← nn_trie_match t (s ++ mem) (Z.of_nat (length s)); Ok (t, TMatched b)
  end.

Fixpoint trie_run (t : nn_trie) (os : list trie_op) : result (nn_trie * list trie_out) :=
  match os with
  | [] => Ok (t, [])
  | o :: os =>
      '(t, r) ← trie_step t o;
      '(t, rs) ← trie_run t os;
      Ok (t, r :: rs)
  end.

Definition occ (s : bytes) (b : list bytes) : Z := Z.of_nat (length (filter (fun x => x = s) b)).

(** Matching a string that a subscription extends is outside of it too,
    unless another subscription matches. *)
Definition matches (s : bytes) (b : list bytes) : bool := existsb (fun p => bool_decide (is_Some (strip p s))) b.
Definition extended (s : bytes) (b : list bytes) : bool := existsb (fun p => bool_decide (is_Some (strip s p))) b.

Fixpoint bag_remove (s : bytes) (b : list bytes) : option (list bytes) :=
  match b with
  | [] => None
  | x :: b => if bool_decide (x = s) then Some b else cons x <$> bag_remove s b
  end.

Definition bag_step (b : list bytes) (o : trie_op) : option (list bytes * trie_out) :=
  match o with
  | TSubscribe s => Some (s :: b, TRc (if bool_decide (occ s b = 0) then 1 else 0))
  | TUnsubscribe s =>
      match bag_remove s b with None => None | Some b' => Some (b', TRc (if bool_decide (occ s b = 1) then 1 else 0)) end
  | TMatch s _ =>
      if matches s b then Some (b, TMatched true)
      else if extended s b then None else Some (b, TMatched false)
  end.

Fixpoint bag_run (b : list bytes) (os : list trie_op) : option (list bytes * list trie_out) :=
  match os with
  | [] => Some (b, [])
  | o :: os =>
      match bag_step b o with
      | None => None
      | Some (b, r) => match bag_run b os with None => None | Some (b, rs) => Some (b, r :: rs) end
      end
  end.

Definition op_string (o : trie_op) : bytes :=
  match o with TSubscribe s | TUnsubscribe s | TMatch s _ => s end.

(** No string has more than eight different continuations in [U]: no node of a
    trie of strings of [U] becomes dense. *)
Definition narrow (U : list bytes) : Prop :=
  forall x cs, NoDup cs -> (forall c, c ∈ cs -> exists r, x ++ c :: r ∈ U) -> (length cs <= NN_TRIE_SPARSE_MAX)%nat.

#[export] Instance occ_perm s : Proper ((≡ₚ) ==> (=)) (occ s).
Proof. intros b1 b2 Hp. unfold occ. by rewrite Hp. Qed.

Lemma occ_cons s x b : occ s (x :: b) = occ s b + (if bool_decide (x = s) then 1 else 0).
Proof. unfold occ. rewrite filter_cons. case_decide; case_bool_decide; try done; cbn [length]; lia. Qed.

Lemma occ_pos s b : 0 < occ s b <-> s ∈ b.
Proof.
  unfold occ. split.
  - intros H. destruct (filter (fun x => x = s) b) as [|y l] eqn:E; [cbn in H; lia|].
    assert (Hy : y ∈ filter (fun x => x = s) b) by (rewrite E; set_solver). apply list_elem_of_filter in Hy as [-> ?]. done.
  - intros Hs. assert (Hf : s ∈ filter (fun x => x = s) b) by (by apply list_elem_of_filter).
    destruct (filter _ b); [by apply elem_of_nil in Hf|]. cbn. lia.
Qed.

Lemma occ_length s b : occ s b <= Z.of_nat (length b).
Proof. unfold occ. pose proof (length_filter (fun x => x = s) b). lia. Qed.

Section Bag.
  Context (t : nn_trie) (b U : list bytes).
  Hypothesis Hok : trie_ok t.
  Hypothesis Hsubs : forall s, trie_subs t s = occ s b.
  Hypothesis Hb : b ⊆ U.
  Hypothesis Hnarrow : narrow U.

Lemma bag_branches x k : branches (subs (root t)) x k -> (k <= NN_TRIE_SPARSE_MAX)%nat.
Proof.
  intros (cs & Hn & <- & Hc). apply (Hnarrow x); [done|]. intros c [r Hr]%Hc. exists r. apply Hb, occ_pos.
  by rewrite <- Hsubs.
Qed.

Lemma bag_not_forgets s x : s ∈ U -> ~ forgets (subs (root t)) s x.
Proof.
  intros Hs (c & rest & -> & (cs & Hn & Hl & Hc) & Hno).
  assert (Hlen : (length (c :: cs) <= NN_TRIE_SPARSE_MAX)%nat).
  { apply (Hnarrow x); [apply NoDup_cons; by rewrite Hc|]. intros d [->|[r Hr]%Hc]%elem_of_cons; [eauto|].
    exists r. apply Hb, occ_pos. by rewrite <- Hsubs. }
  cbn [length] in Hlen. lia.
Qed.

Lemma bag_not_unforgets s x : ~ unforgets (subs (root t)) s x.
Proof. intros (c & rest & _ & Hbr & _). apply bag_branches in Hbr. lia. Qed.
End Bag.

Lemma bag_remove_perm s b b' : bag_remove s b = Some b' -> b ≡ₚ s :: b'.
Proof.
  revert b'. induction b as [|x b IH]; intros b'; cbn; [done|]. case_bool_decide as E.
  - intros [= <-]. by subst x.
  - destruct (bag_remove s b) as [b1|]; [|done]. intros [= <-]. rewrite (IH b1) by done. apply perm_swap.
Qed.

Lemma bag_step_length b o b' r : bag_step b o = Some (b', r) -> (length b' <= Datatypes.S (length b))%nat.
Proof.
  destruct o as [s|s|s mem]; cbn.
  - intros [= <- <-]. done.
  - destruct (bag_remove s b) as [b1|] eqn:E; [|done]. intros [= <- <-]. apply bag_remove_perm in E. rewrite E. cbn. lia.
  - destruct (matches s b), (extended s b); try done; intros [= <- <-]; lia.
Qed.

(** One step of the trie is one step of the bag. *)
Lemma trie_bag_step t b b' U o r :
  trie_ok t -> (forall s, trie_subs t s = occ s b) -> b ⊆ U -> narrow U -> op_string o ∈ U ->
  bytes_ok (op_string o) -> Z.of_nat (length (op_string o)) < 2 ^ 64 -> Z.of_nat (length b) < 2 ^ 32 - 1 ->
  bag_step b o = Some (b', r) ->
  exists t', trie_step t o = Ok (t', r) /\ trie_ok t' /\ (forall s, trie_subs t' s = occ s b') /\ b' ⊆ U.
Proof.
  intros Hok Hs Hb Hnar Ho Hby Hlen Hbig Hstep. destruct o as [s|s|s mem]; cbn [op_string bag_step trie_step] in *.
  - injection Hstep as <- <-. unfold nn_trie_subscribe.
    destruct (subscribe_walk_ok (Datatypes.S (length s)) (root t) s) as (n & E & Hw & [H1 H2 H3]); [lia|done|done| |].
    { pose proof (occ_length s b). unfold trie_subs in Hs. rewrite Hs. lia. }
    rewrite E. mred. unfold trie_subs in Hs. rewrite Hs. eexists. split; [done|]. split; [by intros ? [= <-]|].
    split; [|set_solver]. intros x. unfold trie_subs. cbn [root]. rewrite occ_cons. destruct (decide (s = x)) as [<-|E1].
    + by rewrite bool_decide_true, H1, Hs.
    + rewrite bool_decide_false by done. rewrite H2, Hs; [lia|congruence|]. by eapply bag_not_forgets.
  - destruct (bag_remove s b) as [b1|] eqn:Er; [|done]. injection Hstep as <- <-. apply bag_remove_perm in Er.
    unfold nn_trie_unsubscribe. unfold trie_subs in Hs.
    assert (Hpos : 0 < occ s b) by (apply occ_pos; rewrite Er; set_solver).
    destruct (nn_node_unsubscribe_ok (Datatypes.S (length s)) (root t) s) as (n & E & Hw & [H1 H2 H3]); [lia|done|by rewrite Hs|].
    rewrite E. mred. rewrite Hs. eexists. split; [done|]. split; [done|].
    split; [|rewrite Er in Hb; set_solver]. intros x. unfold trie_subs. cbn [root].
    assert (Hx : occ x b = occ x b1 + (if bool_decide (s = x) then 1 else 0)) by (by rewrite Er, occ_cons).
    destruct (decide (s = x)) as [<-|E1].
    + rewrite bool_decide_true in Hx by done. rewrite H1, Hs. lia.
    + rewrite bool_decide_false in Hx by done. rewrite H2, Hs; [lia|congruence|]. by eapply bag_not_unforgets.
  - exists t. unfold nn_trie_match, trie_subs in *.
    destruct (matches s b) eqn:Em; [|destruct (extended s b) eqn:Ee; [done|]]; injection Hstep as <- <-.
    + unfold matches in Em. apply existsb_exists in Em as (p & Hp%list_elem_of_In & Hpre).
      apply bool_decide_eq_true in Hpre. rewrite (match_hit _ (root t) s mem p); [done|rewrite length_app; lia|done|done| |by apply is_prefix_strip].
      rewrite Hs. by apply occ_pos.
    + rewrite match_miss; [done|rewrite length_app; lia|done|done|]. intros p Hp. rewrite Hs in Hp. apply occ_pos in Hp.
      rewrite !is_prefix_strip. split; intros Hpre.
      * assert (matches s b = true) by (apply existsb_exists; exists p; rewrite <- list_elem_of_In, bool_decide_eq_true; done). congruence.
      * assert (extended s b = true) by (apply existsb_exists; exists p; rewrite <- list_elem_of_In, bool_decide_eq_true; done). congruence.
Qed.

Lemma trie_bag_run U os : forall t b b' out,
  trie_ok t -> (forall s, trie_subs t s = occ s b) -> b ⊆ U -> narrow U ->
  Forall (fun o => op_string o ∈ U /\ bytes_ok (op_string o) /\ Z.of_nat (length (op_string o)) < 2 ^ 64) os ->
  Z.of_nat (length b + length os) < 2 ^ 32 -> bag_run b os = Some (b', out) ->
  exists t', trie_run t os = Ok (t', out) /\ trie_ok t' /\ forall s, trie_subs t' s = occ s b'.
Proof.
  induction os as [|o os IH]; intros t b b' out Hok Hs Hb Hnar Hops Hbig Hrun; cbn [trie_run bag_run] in *.
  - injection Hrun as <- <-. eauto.
  - apply Forall_cons in Hops as [(Ho & Hby & Hlen) Hops]. cbn [length] in Hbig.
    destruct (bag_step b o) as [[b1 r]|] eqn:E1; [|done]. destruct (bag_run b1 os) as [[b2 rs]|] eqn:E2; [|done].
    injection Hrun as <- <-. assert (Hlen1 : (length b1 <= Datatypes.S (length b))%nat) by (by eapply bag_step_length).
    destruct (trie_bag_step t b b1 U o r) as (t1 & -> & Hok1 & Hs1 & Hb1); try done; [lia|]. mred.
    destruct (IH t1 b1 b2 rs) as (t2 & -> & Hok2 & Hs2); try done; [lia|]. mred. eauto.
Qed.

Lemma narrow_small U : (length U <= NN_TRIE_SPARSE_MAX)%nat -> narrow U.
Proof.
  intros Hl x cs Hn Hc. trans (length (omap (fun u => strip x u ≫= head) U)).
  - apply submseteq_length, NoDup_submseteq; [done|]. intros c Hcs. destruct (Hc c Hcs) as [r Hr].
    apply list_elem_of_omap. exists (x ++ c :: r). split; [done|]. by rewrite (proj2 (strip_Some x _ (c :: r)) eq_refl).
  - trans (length U); [|done]. clear. induction U as [|u U IH]; cbn [omap list_omap length]; [done|].
    destruct (strip x u ≫= head); cbn [length]; lia.
Qed.

(** Checks the conditions on the operations of a concrete run. *)
Local Ltac check_ops :=
  match goal with |- Forall _ ?l => let l' := eval cbv in l in change l with l' end;
  repeat apply List.Forall_cons; try apply List.Forall_nil; cbn [op_string];
  (split; [apply (bool_decide_unpack _); by vm_compute|split; [repeat constructor; done|done]]).

Definition demo_trie_ops : list trie_op :=
  [TSubscribe [97; 98]; TSubscribe [97; 98; 99]; TSubscribe [120]; TMatch [97; 98; 100] [];
   TUnsubscribe [97; 98]; TMatch [97; 98; 100] []; TMatch [97; 98; 99; 1] [];
   TSubscribe [120]; TUnsubscribe [120]; TMatch [120] [7]].

(** C15. Refinement: any run of subscriptions, unsubscriptions and matches on
    the trie, over strings that never branch more than eight ways, answers like
    the same run on a bag of strings, where a match asks for a string of the bag
    that is a prefix of the data; and the memory beyond the data has no
    influence.  Excluded, by [bag_run] being [None], are unsubscribing a string
    that is not subscribed, and matching data that no subscription matches but
    that one extends, where the code may read beyond the data
    ([nn_trie_match_beyond]). *)
Theorem nn_trie_refines_bag (U : list bytes) (os : list trie_op) (b : list bytes) (out : list trie_out) :
  narrow U ->
  Forall (fun o => op_string o ∈ U /\ bytes_ok (op_string o) /\ Z.of_nat (length (op_string o)) < 2 ^ 64) os ->
  Z.of_nat (length os) < 2 ^ 32 -> bag_run [] os = Some (b, out) ->
  exists t, trie_run nn_trie_init os = Ok (t, out) /\ trie_ok t /\ forall s, trie_subs t s = occ s b.
Proof.
  intros Hn Hops Hlen Hrun. apply (trie_bag_run U os nn_trie_init [] b out); try done.
  set_solver.
Qed.

Lemma nn_trie_refines_bag_witness :
  exists t, trie_run nn_trie_init demo_trie_ops
    = Ok (t, [TRc 1; TRc 1; TRc 1; TMatched true; TRc 1; TMatched false; TMatched true; TRc 0; TRc 0; TMatched true])
    /\ trie_ok t /\ forall s, trie_subs t s = occ s [[120]; [97; 98; 99]].
Proof.
  apply (nn_trie_refines_bag [[97; 98]; [97; 98; 99]; [120]; [97; 98; 100]; [97; 98; 99; 1]]);
    [apply narrow_small; cbn; unfold NN_TRIE_SPARSE_MAX; lia| |reflexivity|reflexivity].
  check_ops.
Defined.

(** Whatever the trie, subscribing counts the string once more, answers
    whether it is new, and changes no other count, except that a string with
    eight continuations is forgotten when a ninth comes. *)
Theorem nn_trie_subscribe_ok (t : nn_trie) (s : bytes) :
  trie_ok t -> bytes_ok s -> trie_subs t s < 2 ^ 32 - 1 ->
  exists t', nn_trie_subscribe t s = Ok (t', if bool_decide (trie_subs t s = 0) then 1 else 0)
    /\ trie_ok t' /\ subscribed (trie_subs t) s (trie_subs t').
Proof.
  intros Hok Hb Hmax. unfold nn_trie_subscribe, trie_subs.
  destruct (subscribe_walk_ok (Datatypes.S (length s)) (root t) s) as (n & -> & Hw & Hs); [lia|done..|].
  mred. eexists. split; [done|]. split; [by intros ? [= <-]|done].
Qed.

(** Unsubscribing from a subscribed string takes one from its count,
    answers whether it was the last one, and changes no other count, except
    that a string whose continuations fall from nine to eight is forgotten. *)
Theorem nn_trie_unsubscribe_ok (t : nn_trie) (s : bytes) :
  trie_ok t -> 0 < trie_subs t s ->
  exists t', nn_trie_unsubscribe t s = Ok (t', if bool_decide (trie_subs t s = 1) then 1 else 0)
    /\ trie_ok t' /\ unsubscribed (trie_subs t) s (trie_subs t').
Proof.
  intros Hok Hpos. unfold nn_trie_unsubscribe, trie_subs.
  destruct (nn_node_unsubscribe_ok (Datatypes.S (length s)) (root t) s) as (n & -> & Hw & Hs); [lia|done..|].
  mred. eexists. split; [done|]. done.
Qed.

(** Matching finds every subscription that is a prefix of the data; it
    finds none when there is none, provided that the data is not itself a
    prefix of a subscription. *)
Theorem nn_trie_match_ok (t : nn_trie) (s mem : bytes) :
  trie_ok t -> Z.of_nat (length s) < 2 ^ 64 ->
  ((exists p, 0 < trie_subs t p /\ is_prefix p s) ->
     nn_trie_match t (s ++ mem) (Z.of_nat (length s)) = Ok true)
  /\ ((forall p, 0 < trie_subs t p -> ~ is_prefix p s /\ ~ is_prefix s p) ->
     nn_trie_match t (s ++ mem) (Z.of_nat (length s)) = Ok false).
Proof.
  intros Hok Hlen. unfold nn_trie_match, trie_subs. split.
  - intros (p & Hp & Hpre). apply match_hit with p; try done. rewrite length_app. lia.
  - intros Hno. apply match_miss; try done. rewrite length_app. lia.
Qed.

(** The trie after a run, for examples. *)
Definition trie_after (os : list trie_op) : nn_trie :=
  match trie_run nn_trie_init os with Ok (t, _) => t | Err _ => nn_trie_init end.

Lemma trie_after_ok U os :
  narrow U -> Forall (fun o => op_string o ∈ U /\ bytes_ok (op_string o) /\ Z.of_nat (length (op_string o)) < 2 ^ 64) os ->
  Z.of_nat (length os) < 2 ^ 32 -> forall b out, bag_run [] os = Some (b, out) ->
  trie_ok (trie_after os) /\ forall s, trie_subs (trie_after os) s = occ s b.
Proof.
  intros Hn Hops Hlen b out Hrun. unfold trie_after.
  destruct (trie_bag_run U os nn_trie_init [] b out) as (t & -> & Hok & Hs); try done.
  set_solver.
Qed.

Lemma demo_trie_facts :
  trie_ok (trie_after (take 3 demo_trie_ops))
  /\ forall s, trie_subs (trie_after (take 3 demo_trie_ops)) s = occ s [[120]; [97; 98; 99]; [97; 98]].
Proof.
  eapply (trie_after_ok [[97; 98]; [97; 98; 99]; [120]]);
    [apply narrow_small; cbn; unfold NN_TRIE_SPARSE_MAX; lia| |reflexivity|reflexivity].
  check_ops.
Qed.

Lemma demo_trie_ok : trie_ok (trie_after (take 3 demo_trie_ops)).
Proof. apply demo_trie_facts. Qed.

Lemma nn_trie_subscribe_ok_witness :
  exists t', nn_trie_subscribe (trie_after (take 3 demo_trie_ops)) [97; 99] = Ok (t', 1)
    /\ trie_ok t' /\ subscribed (trie_subs (trie_after (take 3 demo_trie_ops))) [97; 99] (trie_subs t').
Proof.
  apply (nn_trie_subscribe_ok (trie_after (take 3 demo_trie_ops)) [97; 99]);
    [exact demo_trie_ok|repeat constructor; done|reflexivity].
Defined.

Lemma nn_trie_unsubscribe_ok_witness :
  exists t', nn_trie_unsubscribe (trie_after (take 3 demo_trie_ops)) [97; 98] = Ok (t', 1)
    /\ trie_ok t' /\ unsubscribed (trie_subs (trie_after (take 3 demo_trie_ops))) [97; 98] (trie_subs t').
Proof.
  apply (nn_trie_unsubscribe_ok (trie_after (take 3 demo_trie_ops)) [97; 98]); [exact demo_trie_ok|reflexivity].
Defined.

Lemma nn_trie_match_ok_witness :
  nn_trie_match (trie_after (take 3 demo_trie_ops)) ([97; 98; 100] ++ [5]) 3 = Ok true.
Proof.
  apply (nn_trie_match_ok (trie_after (take 3 demo_trie_ops)) [97; 98; 100] [5]); [exact demo_trie_ok|reflexivity|].
  exists [97; 98]. split; [reflexivity|]. by exists [100].
Defined.

(** ** Where the code falls short of the bag *)

(** Unsubscribing from the empty string takes a subscription from the
    string that is the root's prefix, whatever it is, although the empty
    string is not subscribed. *)
Theorem nn_trie_unsubscribe_empty (n : nn_trie_node) :
  trie_ok (Trie (Some n)) -> 0 < refcount n -> prefix n <> [] ->
  trie_subs (Trie (Some n)) [] = 0
  /\ exists t' rc, nn_trie_unsubscribe (Trie (Some n)) [] = Ok (t', rc)
     /\ trie_subs t' (prefix n) = trie_subs (Trie (Some n)) (prefix n) - 1.
Proof.
  intros Hok Hr Hp. specialize (Hok n eq_refl). split.
  - unfold trie_subs. cbn [root]. rewrite subs_node. by destruct (prefix n).
  - destruct (unsubscribe_found_ok n Hok Hr) as (o & E & _ & Hs). unfold nn_trie_unsubscribe. cbn [nn_node_unsubscribe root length].
    rewrite E. mred. eexists _, _. split; [done|]. by destruct Hs.
Qed.

Lemma nn_trie_unsubscribe_empty_witness :
  trie_subs (Trie (Some (Node 1 [97] (Sparse []) []))) [] = 0
  /\ exists t' rc, nn_trie_unsubscribe (Trie (Some (Node 1 [97] (Sparse []) []))) [] = Ok (t', rc)
     /\ trie_subs t' [97] = trie_subs (Trie (Some (Node 1 [97] (Sparse []) []))) [97] - 1.
Proof.
  apply (nn_trie_unsubscribe_empty (Node 1 [97] (Sparse []) [])); [|reflexivity|done].
  intros ? [= <-]. apply wf_leaf; [cbn; unfold NN_TRIE_PREFIX_MAX; lia|repeat constructor; done|lia].
Defined.

Lemma check_prefix_self p mem size :
  Z.of_nat (length p) <= size -> nn_node_check_prefix p (p ++ mem) size = Ok (length p).
Proof.
  revert size. induction p as [|x p IH]; intros size Hs; [done|]. cbn [nn_node_check_prefix length] in *.
  rewrite bool_decide_false by lia. cbn [app head tail]. mred. rewrite bool_decide_false by auto. by rewrite IH by lia.
Qed.

(** Matching data that two longer subscriptions extend reads the memory
    beyond the data: the answer depends on it, and when there is none the
    read is out of bounds. *)
Theorem nn_trie_match_beyond (p r1 r2 : bytes) (c1 c2 : Z) :
  Z.of_nat (length p) < 2 ^ 64 -> Z.of_nat (length r1) < 2 ^ 64 - 1 ->
  let t := Trie (Some (Node 0 p (Sparse [c1; c2]) [Some (Node 1 r1 (Sparse []) []); Some (Node 1 r2 (Sparse []) [])])) in
  nn_trie_match t p (Z.of_nat (length p)) = Err BadAccess
  /\ nn_trie_match t (p ++ c1 :: r1) (Z.of_nat (length p)) = Ok true
  /\ trie_subs t (p ++ c1 :: r1) = 1 /\ ~ is_prefix (p ++ c1 :: r1) p.
Proof.
  intros Hp Hr t. unfold nn_trie_match, trie_subs, t. cbn [root]. split; [|split; [|split]].
  - cbn [match_walk]. rewrite check_prefix_nil. mred. rewrite bool_decide_false by (intros []; apply lcp_full, strip_Some; by rewrite drop_all, app_nil_r).
    cbn [prefix nn_node_has_subscribers refcount]. by rewrite drop_all.
  - cbn [match_walk prefix]. rewrite check_prefix_self by done. mred. rewrite bool_decide_false by auto.
    change (nn_node_has_subscribers _) with false. cbn match. rewrite drop_app_length. cbn [head tail]. mred. cbn [node_shape nn_node_next list_find].
    rewrite decide_True by done. cbn [fmap option_fmap option_map fst].
    change (nn_node_child _ 0) with (Ok (Some (Node 1 r1 (Sparse []) []))). mred.
    replace (u64 (u64 (Z.of_nat (length p) - Z.of_nat (length p)) - 1)) with (2 ^ 64 - 1) by (by rewrite Z.sub_diag).
    rewrite length_app. cbn [length]. rewrite Nat.add_succ_r. cbn [match_walk prefix].
    pose proof (check_prefix_self r1 [] (2 ^ 64 - 1) ltac:(lia)) as E. rewrite app_nil_r in E. rewrite E. mred. by rewrite bool_decide_false by auto.
  - rewrite subs_at. unfold childof. cbn [node_shape nn_node_next list_find]. rewrite decide_True by done.
    cbn. rewrite subs_leaf. by rewrite bool_decide_true.
  - intros [u E%(f_equal length)]. rewrite !length_app in E. cbn [length] in E. lia.
Qed.

Lemma nn_trie_match_beyond_witness :
  nn_trie_match (trie_after [TSubscribe [97; 98; 99]; TSubscribe [97; 120; 121]]) [97] 1 = Err BadAccess
  /\ nn_trie_match (trie_after [TSubscribe [97; 98; 99]; TSubscribe [97; 120; 121]]) [97; 98; 99] 1 = Ok true
  /\ trie_subs (trie_after [TSubscribe [97; 98; 99]; TSubscribe [97; 120; 121]]) [97; 98; 99] = 1
  /\ ~ is_prefix [97; 98; 99] [97].
Proof. apply (nn_trie_match_beyond [97] [99] [121] 98 120); reflexivity. Defined.

(** A ninth continuation makes the code forget a subscription: the node of
    the string becomes dense, with a new count of zero. *)
Theorem nn_trie_dense_forgets (t : nn_trie) (s x : bytes) :
  trie_ok t -> bytes_ok s -> trie_subs t s = 0 -> 0 < trie_subs t x -> forgets (trie_subs t) s x ->
  exists t', nn_trie_subscribe t s = Ok (t', 1) /\ trie_ok t' /\ trie_subs t' x = 0.
Proof.
  intros Hok Hb Hs Hx Hf. unfold nn_trie_subscribe, trie_subs in *.
  destruct (subscribe_walk_ok (Datatypes.S (length s)) (root t) s) as (n & -> & Hw & Hsub); [lia|done|done|lia|].
  mred. rewrite bool_decide_true by done. eexists. split; [done|]. split; [by intros ? [= <-]|]. by apply (su_forgot _ _ _ Hsub).
Qed.

Definition eight : list bytes := (fun c => [c]) <$> [1; 2; 3; 4; 5; 6; 7; 8].

Lemma eight_facts :
  trie_ok (trie_after (TSubscribe <$> [] :: eight))
  /\ forall s, trie_subs (trie_after (TSubscribe <$> [] :: eight)) s = occ s (rev ([] :: eight)).
Proof.
  eapply (trie_after_ok ([] :: eight)); [|check_ops|reflexivity|reflexivity].
  intros x cs Hn Hc. apply (narrow_small eight ltac:(cbn; unfold NN_TRIE_SPARSE_MAX; lia) x cs Hn).
  intros c Hcs. destruct (Hc c Hcs) as [r Hr]. exists r. apply elem_of_cons in Hr as [Hr|Hr]; [by destruct x|done].
Qed.

Lemma eight_continue c : continues (trie_subs (trie_after (TSubscribe <$> [] :: eight))) [] c <-> c ∈ [1; 2; 3; 4; 5; 6; 7; 8].
Proof.
  pose proof (proj2 eight_facts) as Hs. revert Hs. generalize (trie_after (TSubscribe <$> [] :: eight)). intros t Hs.
  unfold continues. setoid_rewrite Hs. setoid_rewrite occ_pos. setoid_rewrite list_elem_of_In.
  setoid_rewrite <- in_rev. setoid_rewrite <- list_elem_of_In. split.
  - intros [r [Hr|(d & Hr & Hd)%list_elem_of_fmap]%elem_of_cons]; [done|]. by injection Hr as -> ->.
  - intros Hc. exists []. apply elem_of_cons. right. apply list_elem_of_fmap. by exists c.
Qed.

Lemma nn_trie_dense_forgets_witness :
  exists t', nn_trie_subscribe (trie_after (TSubscribe <$> [] :: eight)) [9] = Ok (t', 1)
    /\ trie_ok t' /\ trie_subs t' [] = 0.
Proof.
  apply (nn_trie_dense_forgets _ [9] []); [apply eight_facts|repeat constructor; done|reflexivity|reflexivity|].
  exists 9, []. split; [done|]. split.
  - exists [1; 2; 3; 4; 5; 6; 7; 8]. split; [apply (bool_decide_unpack _); by vm_compute|]. split; [done|].
    intros c. by rewrite eight_continue.
  - rewrite eight_continue. apply (bool_decide_unpack _). by vm_compute.
Defined.
