(* ===== verification/Pubsub.v ===== *)
(** * The publish/subscribe protocol ([protocols/pubsub/xpub.c], [xsub.c])

    PUB distributes every message to all its pipes; SUB fair-queues from its
    pipes and drops the messages that no subscription in its trie matches.
    [pub.c] and [sub.c] reuse these virtual functions.

    [nn_trie_match] reads beyond the body of a message that a subscription
    extends (see [TrieRefines]); here there is nothing behind a body, so that
    receiving such a message is [Err BadAccess]. *)

From S2P Require Import Prelude NNList NNFamily Priolist Wire Pipe Sock Balance Members Dist Pipeline.
From S2P Require Import Trie TrieSpec TrieRefines.
Local Open Scope Z_scope.

Definition NN_SUB : Z := 2 * 16 + 1.
Definition NN_SUB_SUBSCRIBE : Z := 1.
Definition NN_SUB_UNSUBSCRIBE : Z := 2.

Section Pubsub.
  Context {St L T : Type} `{ListOps St L} `{Transport T}.
  Implicit Types (w : world T).

Record nn_xpub := Xpub { xpub_outpipes : nn_dist St L }.

Definition nn_xpub_init (s : St) : nn_xpub := Xpub (nn_dist_init s).
Definition nn_xpub_term (self : nn_xpub) : result unit := nn_dist_term (xpub_outpipes self).

Definition nn_xpub_add (self : nn_xpub) w (pipe : addr) : result (nn_xpub * world T * Z) :=
  let data := alloc (di_data (xpub_outpipes self)) in
  let outpipes := nn_dist_add (xpub_outpipes self) data pipe in
  w ← nn_pipe_setdata w pipe (Some data);
  Ok (Xpub outpipes, w, 0).

Definition nn_xpub_rm (self : nn_xpub) w (pipe : addr) : result (nn_xpub * world T) :=
  data ← pipe_data_of w pipe;
  outpipes ← nn_dist_rm (xpub_outpipes self) data;
  Ok (Xpub outpipes, w).

(** "We shouldn't get any messages from subscribers." *)
Definition nn_xpub_in (self : nn_xpub) w (pipe : addr) : result (nn_xpub * world T) :=
  _ ← assert_ false; Ok (self, w).

Definition nn_xpub_out (self : nn_xpub) w (pipe : addr) : result (nn_xpub * world T) :=
  data ← pipe_data_of w pipe;
  outpipes ← nn_dist_out (xpub_outpipes self) data;
  Ok (Xpub outpipes, w).

Definition nn_xpub_events (self : nn_xpub) : Z := NN_SOCKBASE_EVENT_OUT.

Definition nn_xpub_send (self : nn_xpub) w (msg : nn_msg) : result (nn_xpub * world T * Z) :=
  '(outpipes, w, rc) ← nn_dist_send (xpub_outpipes self) w msg None;
  Ok (Xpub outpipes, w, rc).

Definition nn_xpub_setopt (self : nn_xpub) (level option : Z) (optval : bytes) : Z := - ENOPROTOOPT.
Definition nn_xpub_getopt (self : nn_xpub) (level option : Z) : Z := - ENOPROTOOPT.

#[export] Instance xpub_proto : SockProto T nn_xpub := {|
  sb_nosend := false;
  sb_norecv := true;
  sb_add := nn_xpub_add;
  sb_rm := nn_xpub_rm;
  sb_in := nn_xpub_in;
  sb_out := nn_xpub_out;
  sb_events := nn_xpub_events;
  sb_send := nn_xpub_send;
  sb_recv s w := Err BadAccess;   (** a NULL function pointer *)
  sb_pending s e := false;
  sb_worker s w e := Err BadAccess
|}.

Record nn_xsub := Xsub { xsub_fq : nn_fq St L; xsub_trie : nn_trie }.

Definition nn_xsub_init (s : St) : nn_xsub := Xsub (nn_fq_init (PItems s ∅)) nn_trie_init.

(** [nn_trie_term] only frees the nodes. *)
Definition nn_xsub_term (self : nn_xsub) : result unit := nn_fq_term (xsub_fq self).

Definition nn_xsub_add (self : nn_xsub) w (pipe : addr) : result (nn_xsub * world T * Z) :=
  rcvprio ← pipe_option w pipe NN_RCVPRIO;
  _ ← assert_ (bool_decide (1 <= rcvprio) && bool_decide (rcvprio <= 16));
  let data := alloc (pi_data (fq_items (xsub_fq self))) in
  w ← nn_pipe_setdata w pipe (Some data);
  Ok (Xsub (nn_fq_add (xsub_fq self) data pipe rcvprio) (xsub_trie self), w, 0).

Definition nn_xsub_rm (self : nn_xsub) w (pipe : addr) : result (nn_xsub * world T) :=
  data ← pipe_data_of w pipe;
  fq ← nn_fq_rm (xsub_fq self) data;
  Ok (Xsub fq (xsub_trie self), w).

Definition nn_xsub_in (self : nn_xsub) w (pipe : addr) : result (nn_xsub * world T) :=
  data ← pipe_data_of w pipe;
  fq ← nn_fq_in (xsub_fq self) data;
  Ok (Xsub fq (xsub_trie self), w).

Definition nn_xsub_out (self : nn_xsub) w (pipe : addr) : result (nn_xsub * world T) := Ok (self, w).

Definition nn_xsub_events (self : nn_xsub) : Z :=
  if nn_fq_can_recv (xsub_fq self) then NN_SOCKBASE_EVENT_IN else 0.

(** The loop of [nn_xsub_recv]. *)
Fixpoint xsub_recv_loop (fuel : nat) (trie : nn_trie) (fq : nn_fq St L) w
    : result (nn_fq St L * world T * Z * option nn_msg) :=
  match fuel with
  | O => Err NoFuel
  | S fuel =>
      '(fq, w, rc, r) ← nn_fq_recv fq w;
      match r with
      | None =>
          if bool_decide (rc = - EAGAIN) then Ok (fq, w, - EAGAIN, None)
          else _ ← assert_ (bool_decide (rc >= 0)); Err BadAccess
      | Some (msg, _) =>
          b ← nn_trie_match trie (body msg) (Z.of_nat (length (body msg)));
          if (b : bool) then Ok (fq, w, 0, Some msg) else xsub_recv_loop fuel trie fq w
      end
  end.

Definition nn_xsub_recv (self : nn_xsub) w : result (nn_xsub * world T * Z * option nn_msg) :=
  '(fq, w, rc, r) ← xsub_recv_loop (recv_fuel w) (xsub_trie self) (xsub_fq self) w;
  Ok (Xsub fq (xsub_trie self), w, rc, r).

Definition nn_xsub_setopt (self : nn_xsub) (level option : Z) (optval : bytes) : result (nn_xsub * Z) :=
  if negb (bool_decide (level = NN_SUB)) then Ok (self, - ENOPROTOOPT)
  else if bool_decide (option = NN_SUB_SUBSCRIBE) then
    '(trie, rc) ← nn_trie_subscribe (xsub_trie self) optval;
    Ok (Xsub (xsub_fq self) trie, if bool_decide (rc >= 0) then 0 else rc)
  else if bool_decide (option = NN_SUB_UNSUBSCRIBE) then
    '(trie, rc) ← nn_trie_unsubscribe (xsub_trie self) optval;
    Ok (Xsub (xsub_fq self) trie, if bool_decide (rc >= 0) then 0 else rc)
  else Ok (self, - ENOPROTOOPT).

Definition nn_xsub_getopt (self : nn_xsub) (level option : Z) : Z := - ENOPROTOOPT.

#[export] Instance xsub_proto : SockProto T nn_xsub := {|
  sb_nosend := true;
  sb_norecv := false;
  sb_add := nn_xsub_add;
  sb_rm := nn_xsub_rm;
  sb_in := nn_xsub_in;
  sb_out := nn_xsub_out;
  sb_events := nn_xsub_events;
  sb_send s w m := Err BadAccess;
  sb_recv := nn_xsub_recv;
  sb_pending s e := false;
  sb_worker s w e := Err BadAccess
|}.

End Pubsub.
Arguments nn_xpub : clear implicits.
Arguments nn_xsub : clear implicits.

Section PubsubSpec.
  Context {St L T : Type} `{ListSpec St L} `{TransportSpec T}.
  Implicit Types (w : world T) (p : addr).

Definition xpub_rep (s : nn_xpub St L) w : Prop := dist_tracks w (xpub_outpipes s).

Lemma xpub_out_ok s w p es :
  world_ok w -> xpub_rep s w -> w_events w = (p, NN_PIPE_OUT) :: es ->
  exists s', nn_xpub_out s (set_events w es) p = Ok (s', set_events w es) /\ xpub_rep s' (set_events w es).
Proof.
  intros Hw Hd He. destruct (pop_out w p es Hw He) as (_ & _ & _ & _ & pb & Hp).
  destruct (dist_tracks_data _ _ _ _ Hd Hp) as [x Hx]. unfold nn_xpub_out.
  rewrite (pipe_data_ok (set_events w es) p pb x Hp Hx). mred.
  destruct (dist_out_tracks _ _ _ _ _ _ Hw Hd He Hp Hx) as (d' & -> & Hd' & _). mred. by eexists.
Qed.

Lemma xpub_send_ok s w m :
  world_ok w -> xpub_rep s w ->
  exists s' w' qs, nn_xpub_send s w m = Ok (s', w', 0) /\ xpub_rep s' w' /\ sent_all w w' qs m
    /\ NoDup qs /\ (forall q, q ∈ qs <-> off_out w q).
Proof.
  intros Hw Hd. unfold nn_xpub_send.
  destruct (nn_dist_send_ok w _ m None Hw Hd) as (d' & w' & qs & -> & Hd' & _ & Hs & Hn & Hq). mred.
  exists (Xpub d'), w', qs. repeat (split; [done|]). intros q. rewrite Hq. naive_solver.
Qed.

#[export, program] Instance xpub_spec : SockSpec T (nn_xpub St L) := {| sk_hears := false; sk_sends m := true; sk_takes _ _ := true; sk_room n s := True;
  sk_room_le _ _ _ := I; sk_room_add _ _ _ _ _ _ _ _ _ := I; sk_room_step _ _ _ _ _ := I; sk_rep := xpub_rep |}.
Next Obligation. intros s w w' (Hd & _ & Ho). by apply dist_tracks_view. Qed.
Next Obligation. done. Qed.
Next Obligation.
  intros [d] w p options Hw Hr Hp Hroom _. cbn [sb_add xpub_proto]. unfold nn_xpub_add. rewrite set_data_ok. mred.
  eexists _, _, 0. split; [done|]. decide_bools. apply dist_add_tracks; [done..|apply alloc_fresh].
Qed.
Next Obligation.
  intros [d] w p pb Hw Hr Hp _. cbn [sb_rm xpub_proto]. unfold nn_xpub_rm, xpub_rep in *. cbn [xpub_outpipes] in *.
  destruct (dist_tracks_data _ _ _ _ Hr Hp) as [x Hx]. rewrite (pipe_data_ok _ _ _ _ Hp Hx). mred.
  destruct (dist_rm_tracks _ _ _ _ _ Hw Hr Hp Hx) as (d' & -> & Hd' & _). mred.
  eexists _, w. split; [done|]. split; [by apply handled_refl|done].
Qed.
Next Obligation. done. Qed.
Next Obligation.
  intros s w p es Hw Hr He. destruct (xpub_out_ok s w p es Hw Hr He) as (s' & E & Hr').
  exists s', (set_events w es). split; [exact E|]. split; [by eapply handled_refl, pop_world_ok|done].
Qed.
Next Obligation.
  intros s w m _ _ Hw Hr. destruct (xpub_send_ok s w m Hw Hr) as (s' & w' & qs & E & Hr' & Hs & _).
  exists s', w', 0. split; [exact E|]. split; [done|]. split; [apply Hs|done].
Qed.
Next Obligation. done. Qed.
Next Obligation. done. Qed.
#[export] Instance xpub_takes : SockTakes T (nn_xpub St L).
Proof. by intros s w. Qed.

Definition xsub_rep (s : nn_xsub St L) w : Prop := fq_tracks w (xsub_fq s) /\ trie_ok (xsub_trie s).

(** A subscription matches a message; a message is the beginning of one. *)
Definition wanted (t : nn_trie) (m : nn_msg) : Prop := exists x, 0 < trie_subs t x /\ is_prefix x (body m).
Definition begins (t : nn_trie) (m : nn_msg) : Prop := exists x, 0 < trie_subs t x /\ is_prefix (body m) x.

(** A message that no subscription matches; a size has 64 bits. *)
Definition unwanted (t : nn_trie) (qm : addr * nn_msg) : Prop := Z.of_nat (length (body qm.2)) < 2 ^ 64 -> ~ wanted t qm.2.

Lemma trie_match_msg t q m :
  trie_ok t ->
  (nn_trie_match t (body m) (Z.of_nat (length (body m))) = Ok true /\ wanted t m) \/
  (nn_trie_match t (body m) (Z.of_nat (length (body m))) = Ok false /\ unwanted t (q, m)) \/
  (nn_trie_match t (body m) (Z.of_nat (length (body m))) = Err BadAccess /\ begins t m /\ unwanted t (q, m)).
Proof.
  intros Hok. unfold nn_trie_match.
  assert (Hhit : Z.of_nat (length (body m)) < 2 ^ 64 -> wanted t m ->
    match_walk (Datatypes.S (length (body m))) (root t) (body m) (Z.of_nat (length (body m))) = Ok true).
  { intros Hlen (x & Hx & Hpre). pose proof (match_hit (Datatypes.S (length (body m))) (root t) (body m) [] x) as E.
    rewrite app_nil_r in E. apply E; [lia|done..]. }
  destruct (match_ends (Datatypes.S (length (body m))) (root t) (body m) (Z.of_nat (length (body m)))) as [[b E]|[E Hb]]; [lia|done| |].
  - rewrite E in *. destruct b; [left|right; left].
    + split; [done|]. exact (match_true _ _ _ _ Hok E).
    + split; [done|]. intros Hlen Hw. by specialize (Hhit Hlen Hw).
  - rewrite E in *. right; right. split; [done|]. split; [done|]. intros Hlen Hw. by specialize (Hhit Hlen Hw).
Qed.

(** How receiving ends: with the messages [ms] dropped, there is nothing left,
    or a message is wanted, or one is the beginning of a subscription. *)
Inductive xsub_received (t : nn_trie) w (r : result (nn_fq St L * world T * Z * option nn_msg)) : Prop :=
  | RecvNothing fq' w' ms : r = Ok (fq', w', - EAGAIN, None) -> fq_tracks w' fq' -> Forall (unwanted t) ms ->
      rcvd_many w w' ms -> (forall q, ~ off_in w' q) -> xsub_received t w r
  | RecvWanted fq' w' ms q m : r = Ok (fq', w', 0, Some m) -> fq_tracks w' fq' -> Forall (unwanted t) ms ->
      rcvd_many w w' (ms ++ [(q, m)]) -> wanted t m -> xsub_received t w r
  | RecvBeyond w' ms q m : r = Err BadAccess -> Forall (unwanted t) ms ->
      rcvd_many w w' (ms ++ [(q, m)]) -> begins t m -> unwanted t (q, m) -> xsub_received t w r.

Lemma xsub_recv_loop_ok t fuel : forall fq w,
  (backlog w < fuel)%nat -> world_ok w -> fq_tracks w fq -> trie_ok t -> xsub_received t w (xsub_recv_loop fuel t fq w).
Proof.
  induction fuel as [|fuel IH]; intros fq w Hb Hw Hf Ht; [lia|]. cbn [xsub_recv_loop].
  destruct (nn_fq_recv_tracks w fq Hw Hf) as [[E Hc]|(q & fq1 & w1 & rc & m & E & _ & _ & Hs & Hf1 & _)]; rewrite E; mred.
  - apply (RecvNothing _ _ _ fq w []); [done..|by apply rcvd_many_nil|]. intros q. by eapply fq_can_recv_none.
  - pose proof (hd_ok _ _ (ro_handled _ _ _ _ Hs)) as Hw1.
    assert (Hone : forall w2 ms, rcvd_many w1 w2 ms -> rcvd_many w w2 ((q, m) :: ms)) by (intros w2 ms; by eapply rcvd_many_cons).
    destruct (trie_match_msg t q m Ht) as [[-> Hwant]|[[-> Hun]|(-> & Hbeg & Hun)]]; mred.
    + apply (RecvWanted _ _ _ fq1 w1 [] q m); [done..|by apply Hone, rcvd_many_nil|done].
    + pose proof (ro_backlog _ _ _ _ Hs) as Hlt.
      destruct (IH fq1 w1 ltac:(lia) Hw1 Hf1 Ht) as [fq' w' ms -> Hf' Hms Hm Hno|fq' w' ms q' m' -> Hf' Hms Hm Hw'|w' ms q' m' -> Hms Hm Hbeg Hun'].
      * apply (RecvNothing _ _ _ fq' w' ((q, m) :: ms)); auto.
      * apply (RecvWanted _ _ _ fq' w' ((q, m) :: ms) q' m'); auto. by apply (Hone _ (ms ++ _)).
      * apply (RecvBeyond _ _ _ w' ((q, m) :: ms) q' m'); auto. by apply (Hone _ (ms ++ _)).
    + apply (RecvBeyond _ _ _ w1 [] q m); [done..|by apply Hone, rcvd_many_nil|done|done].
Qed.

(** The same of [nn_xsub_recv], in terms of the messages taken from the pipes. *)
Definition xsub_outcome (s : nn_xsub St L) w (ms : list (addr * nn_msg)) : Prop :=
  (exists s' w', nn_xsub_recv s w = Ok (s', w', - EAGAIN, None) /\ xsub_rep s' w' /\ xsub_trie s' = xsub_trie s
     /\ rcvd_many w w' ms /\ forall q, ~ off_in w' q) \/
  (exists s' w' q m, nn_xsub_recv s w = Ok (s', w', 0, Some m) /\ xsub_rep s' w' /\ xsub_trie s' = xsub_trie s
     /\ rcvd_many w w' (ms ++ [(q, m)]) /\ wanted (xsub_trie s) m) \/
  (exists w' q m, nn_xsub_recv s w = Err BadAccess /\ rcvd_many w w' (ms ++ [(q, m)])
     /\ begins (xsub_trie s) m /\ unwanted (xsub_trie s) (q, m)).

Lemma xsub_recv_ok s w :
  world_ok w -> xsub_rep s w -> exists ms, Forall (unwanted (xsub_trie s)) ms /\ xsub_outcome s w ms.
Proof.
  intros Hw [Hf Ht]. unfold xsub_outcome, nn_xsub_recv.
  destruct (xsub_recv_loop_ok (xsub_trie s) (recv_fuel w) (xsub_fq s) w (recv_fuel_ok w) Hw Hf Ht)
    as [fq' w' ms -> Hf' Hms Hm Hno|fq' w' ms q m -> Hf' Hms Hm Hwant|w' ms q m -> Hms Hm Hbeg Hun];
    exists ms; (split; [done|]); mred; [left|right; left|right; right].
  - by eexists _, w'.
  - by eexists _, w', q, m.
  - by exists w', q, m.
Qed.

Definition is_ok {A} (r : result A) : bool := match r with Ok _ => true | Err _ => false end.

#[export, program] Instance xsub_spec : SockSpec T (nn_xsub St L) := {| sk_hears := true; sk_sends m := true; sk_room n s := True;
  sk_takes s w := is_ok (nn_xsub_recv s w);
  sk_room_le _ _ _ := I; sk_room_add _ _ _ _ _ _ _ _ _ := I; sk_room_step _ _ _ _ _ := I; sk_rep := xsub_rep |}.
Next Obligation. intros s w w' (Hd & Hi & _) [Hf Ht]. split; [by eapply fq_tracks_view|done]. Qed.
Next Obligation. intros s. cbn. unfold nn_xsub_events. by destruct (nn_fq_can_recv _). Qed.
Next Obligation.
  intros [fq t] w p options Hw [Hr Ht] Hp Hv _. cbn [sb_add xsub_proto]. unfold nn_xsub_add, xsub_rep in *. cbn [xsub_fq xsub_trie] in *.
  destruct (pipe_option_ok w p options) as [_ ->]. mred. destruct (valid_priorities _ _ Hv) as [_ Hs].
  decide_bools. mred. rewrite set_data_ok. mred. eexists _, _, 0. split; [done|].
  decide_bools. split; [|done]. apply fq_add_tracks; [done..|apply alloc_fresh|done].
Qed.
Next Obligation.
  intros [fq t] w p pb Hw [Hr Ht] Hp He. cbn [sb_rm xsub_proto]. unfold nn_xsub_rm, xsub_rep in *. cbn [xsub_fq xsub_trie] in *.
  destruct (fq_tracks_data _ _ _ _ Hr Hp) as [x Hx]. rewrite (pipe_data_ok _ _ _ _ Hp Hx). mred.
  destruct (fq_rm_tracks _ _ _ _ _ Hr Hp Hx) as (fq' & -> & Hr' & _). mred.
  eexists _, w. split; [done|]. split; [by apply handled_refl|done].
Qed.
Next Obligation.
  intros [fq t] w p es _ Hw [Hr Ht] He. cbn [sb_in xsub_proto]. unfold nn_xsub_in, xsub_rep in *. cbn [xsub_fq xsub_trie] in *.
  destruct (pop_in w p es Hw He) as (_ & _ & _ & _ & pb & Hp).
  destruct (fq_tracks_data _ _ _ _ Hr Hp) as [x Hx]. rewrite (pipe_data_ok (set_events w es) p pb x Hp Hx). mred.
  destruct (fq_in_tracks _ _ _ _ _ _ Hw Hr He Hp Hx) as (fq' & -> & Hr' & _). mred.
  eexists _, _. split; [done|]. split; [by eapply handled_refl, pop_world_ok|done].
Qed.
Next Obligation.
  intros [fq t] w p es Hw [Hr Ht] He. cbn. eexists _, _. split; [done|].
  split; [by eapply handled_refl, pop_world_ok|]. split; [by eapply fq_pop_out_tracks|done].
Qed.
Next Obligation. done. Qed.
Next Obligation.
  intros s w _ Htk Hw Hr. cbn [sb_recv xsub_proto] in *.
  destruct (xsub_recv_ok s w Hw Hr) as (ms & _ & [(s' & w' & E & Hr' & _ & Hm & _)|[(s' & w' & q & m & E & Hr' & _ & Hm & _)|(w' & q & m & E & _)]]).
  - exists s', w', (- EAGAIN), None. split; [exact E|]. split; [unfold EAGAIN; lia|]. split; [apply Hm|]. split; [done|].
    by split; [|intros [? ?]].
  - exists s', w', 0, (Some m). split; [exact E|]. split; [done|]. split; [apply Hm|]. split; [done|]. by split; [eexists|].
  - by rewrite E in Htk.
Qed.
Next Obligation. done. Qed.
End PubsubSpec.

(** ** Results *)

(** C17. A PUB session without messages from its peers never aborts and keeps
    the socket's invariant.  So does a SUB session, whose subscriptions do not
    change meanwhile, until the user receives when the pipes bring, after
    messages that no subscription matches, one that is itself the beginning of
    a subscribed string: there, and only there, the code reads beyond the
    message. *)
Theorem pubsub_session {St L T} `{ListSpec St L} `{TransportSpec T}
    (links : St) (net : T) (t : nn_trie) (os os' : list sock_op) :
  (forall p, KReceived p ∉ os) -> trie_ok t ->
  (exists (k : nn_sock T (nn_xpub St L)) rs,
     (k ← nn_sock_init (nn_xpub_init links) net; sock_run k os) = Ok (k, rs) /\ sock_inv k) /\
  let start := nn_sock_init (Xsub (xsub_fq (nn_xsub_init links)) t) net in
  ((exists (k : nn_sock T (nn_xsub St L)) rs, (k ← start; sock_run k os') = Ok (k, rs) /\ sock_inv k) \/
   (exists os1 os2 (k1 : nn_sock T (nn_xsub St L)) rs1 w ms q m, os' = os1 ++ KRecv :: os2
      /\ (k ← start; sock_run k os1) = Ok (k1, rs1) /\ sock_inv k1
      /\ rcvd (w_net w) = rcvd (w_net (sk_world k1)) ++ ms ++ [(q, m)] /\ Forall (unwanted (xsub_trie (sk_base k1))) ms
      /\ begins (xsub_trie (sk_base k1)) m /\ unwanted (xsub_trie (sk_base k1)) (q, m)
      /\ (k ← start; sock_run k os') = Err BadAccess)).
Proof.
  intros Hno Ht. split; [apply sock_session_ok; [by apply dist_tracks_init|constructor; [by right|done|done]]|]. cbn zeta.
  destruct (sock_session_until (Xsub (xsub_fq (nn_xsub_init links)) t) net os') as [?|(os1 & os2 & k1 & rs1 & E & E1 & Hk & Hf & Herr)];
    [split; [by apply fq_tracks_init|done]|by apply fits_any|by left|right].
  cbn [sk_takes xsub_spec] in Hf.
  destruct (xsub_recv_ok (sk_base k1) (sk_world k1) (si_world _ Hk) (si_rep _ Hk))
    as (ms & Hms & [(s' & w' & Er & _)|[(s' & w' & q & m & Er & _)|(w' & q & m & Er & Hm & Hb & Hu)]]); [by rewrite Er in Hf..|].
  exists os1, os2, k1, rs1, w', ms, q, m. do 3 (split; [done|]). split; [apply Hm|]. do 3 (split; [done|]).
  apply Herr. cbn [sock_step]. unfold nn_sock_recv. rewrite (si_state _ Hk). cbn [sb_norecv sb_recv xsub_proto]. by rewrite Er.
Qed.

(** A message that reaches a PUB socket aborts the process: its [in]
    function is an assertion that fails. *)
Theorem xpub_hears_nothing {St L T} `{ListSpec St L} `{TransportSpec T} (k : nn_sock T (nn_xpub St L)) (p : addr)
    (pb : nn_pipebase) :
  sock_inv k -> w_pipes (sk_world k) !! p = Some pb -> pb_instate pb = NN_PIPEBASE_INSTATE_ASYNC ->
  sock_step k (KReceived p) = Err AssertFailed.
Proof.
  intros Hk Hp Hi. cbn [sock_step]. rewrite Hp. cbn [fmap option_fmap option_map]. rewrite Hi.
  rewrite bool_decide_true by done. destruct (received_ok (sk_world k) p pb (si_world _ Hk) (si_events _ Hk) Hp Hi) as (w' & -> & _ & _ & _ & _ & He).
  mred. unfold nn_ctx_leave. cbn [with_base sk_world sk_base]. rewrite He. cbn [length process_events]. by rewrite He.
Qed.

(** C16. SUB delivers what is subscribed: receiving takes messages from the
    pipes and drops those that no subscription matches, until one matches,
    which the user is given, or no pipe has a message left, which is reported;
    or until a message comes that no subscription matches but that is itself
    the beginning of a subscribed string, where the code may read beyond the
    message, and whether it does is decided by the shape of the trie. *)
Theorem xsub_recv_filters {St L T} `{ListSpec St L} `{TransportSpec T} (s : nn_xsub St L) (w : world T) :
  world_ok w -> xsub_rep s w ->
  exists ms, Forall (unwanted (xsub_trie s)) ms /\
    ((exists s' w', nn_xsub_recv s w = Ok (s', w', - EAGAIN, None) /\ xsub_rep s' w' /\ xsub_trie s' = xsub_trie s
        /\ rcvd (w_net w') = rcvd (w_net w) ++ ms /\ forall q, ~ off_in w' q) \/
     (exists s' w' q m, nn_xsub_recv s w = Ok (s', w', 0, Some m) /\ xsub_rep s' w' /\ xsub_trie s' = xsub_trie s
        /\ rcvd (w_net w') = rcvd (w_net w) ++ ms ++ [(q, m)] /\ wanted (xsub_trie s) m) \/
     (exists w' q m, nn_xsub_recv s w = Err BadAccess /\ rcvd (w_net w') = rcvd (w_net w) ++ ms ++ [(q, m)]
        /\ begins (xsub_trie s) m /\ unwanted (xsub_trie s) (q, m))).
Proof.
  intros Hw Hr. destruct (xsub_recv_ok s w Hw Hr) as (ms & Hms & Ho). exists ms. split; [done|].
  destruct Ho as [(s' & w' & E & Hr' & Et & Hm & Hno)|[(s' & w' & q & m & E & Hr' & Et & Hm & Hwant)|(w' & q & m & E & Hm & Hb & Hu)]];
    [left; exists s', w'|right; left; exists s', w', q, m|right; right; exists w', q, m]; do 3 (split; [done || apply Hm|]); try done.
  - split; [apply Hm|done].
  - split; [apply Hm|done].
Qed.

(** A PUB socket sends every message to every writable pipe, once each,
    and never fails. *)
Theorem xpub_send_all {St L T} `{ListSpec St L} `{TransportSpec T} (s : nn_xpub St L) (w : world T) (m : nn_msg) :
  world_ok w -> xpub_rep s w ->
  exists s' w' qs, nn_xpub_send s w m = Ok (s', w', 0) /\ xpub_rep s' w'
    /\ sent (w_net w') = sent (w_net w) ++ ((fun q => (q, m)) <$> qs) /\ NoDup qs /\ (forall q, q ∈ qs <-> off_out w q).
Proof.
  intros Hw Hr. destruct (xpub_send_ok s w m Hw Hr) as (s' & w' & qs & E & Hr' & Hs & Hn & Hq).
  exists s', w', qs. repeat (split; [done|]). split; [apply Hs|done].
Qed.

(** A subscriber to "ab", "abc" and "x". *)
Definition demo_trie : nn_trie := trie_after (take 3 demo_trie_ops).
Definition demo_pub_net : loop_net := LoopNet [] [] [Msg [] [] [97; 98; 1]; Msg [] [] [5]; Msg [] [] [120]].
Definition demo_sub_ops : list sock_op :=
  [KConnect 5 (demo_opts 2); KReceived 5; KRecv; KRecv; KRecv].

Example sub_demo :
  (k ← nn_sock_init (Xsub (xsub_fq (nn_xsub_init (L := nn_list) (∅ : store))) demo_trie) demo_pub_net;
   '(k, rs) ← sock_run k demo_sub_ops; Ok rs)
  = Ok [ONone; ONone; ORecv 0 (Some (Msg [] [] [97; 98; 1])); ORecv 0 (Some (Msg [] [] [120])); ORecv (- EAGAIN) None].
Proof. vm_compute. reflexivity. Qed.

(** With "ab1" and "ab2" subscribed, the message "ab" is read beyond its end. *)
Example sub_beyond :
  (k ← nn_sock_init (Xsub (xsub_fq (nn_xsub_init (L := nn_list) (∅ : store))) (trie_after [TSubscribe [97; 98; 1]; TSubscribe [97; 98; 2]]))
         (LoopNet [] [] [Msg [] [] [5]; Msg [] [] [97; 98]]);
   sock_run k demo_sub_ops) = Err BadAccess.
Proof. vm_compute. reflexivity. Qed.

Lemma pubsub_session_witness :
  (exists (k : nn_sock loop_net (nn_xpub store nn_list)) rs,
     (k ← nn_sock_init (nn_xpub_init ∅) demo_pub_net; sock_run k demo_push_ops) = Ok (k, rs) /\ sock_inv k) /\
  let start := nn_sock_init (Xsub (xsub_fq (nn_xsub_init ∅)) demo_trie) demo_pub_net in
  ((exists (k : nn_sock loop_net (nn_xsub store nn_list)) rs, (k ← start; sock_run k demo_sub_ops) = Ok (k, rs) /\ sock_inv k) \/
   (exists os1 os2 (k1 : nn_sock loop_net (nn_xsub store nn_list)) rs1 w ms q m, demo_sub_ops = os1 ++ KRecv :: os2
      /\ (k ← start; sock_run k os1) = Ok (k1, rs1) /\ sock_inv k1
      /\ rcvd (w_net w) = rcvd (w_net (sk_world k1)) ++ ms ++ [(q, m)] /\ Forall (unwanted (xsub_trie (sk_base k1))) ms
      /\ begins (xsub_trie (sk_base k1)) m /\ unwanted (xsub_trie (sk_base k1)) (q, m)
      /\ (k ← start; sock_run k demo_sub_ops) = Err BadAccess)).
Proof.
  apply (pubsub_session (∅ : store) demo_pub_net demo_trie demo_push_ops demo_sub_ops); [|exact demo_trie_ok].
  intros p Hp. apply list_elem_of_In in Hp. cbn in Hp. intuition discriminate.
Defined.

(** The state in which its message has arrived. *)
Definition sub_state : result (nn_sock loop_net (nn_xsub store nn_list)) :=
  session_state (Xsub (xsub_fq (nn_xsub_init ∅)) demo_trie) demo_pub_net (take 2 demo_sub_ops).

Lemma sub_state_ok : exists k, sub_state = Ok k /\ sock_inv k.
Proof.
  unfold sub_state, session_state.
  destruct (sock_session_until (Xsub (xsub_fq (nn_xsub_init (L := nn_list) (∅ : store))) demo_trie) demo_pub_net (take 2 demo_sub_ops))
    as [(k & rs & E & Hk)|(os1 & os2 & k1 & rs1 & E & _)]; [split; [by apply fq_tracks_init|exact demo_trie_ok]|by apply fits_any| |].
  - exists k. split; [|done]. destruct (nn_sock_init _ _) as [k0|]; [|done]. mred in E. mred. by rewrite E.
  - exfalso. assert (KRecv ∈ take 2 demo_sub_ops) as Hin by (rewrite E; set_solver). apply list_elem_of_In in Hin. cbn in Hin.
    intuition discriminate.
Qed.

Lemma xsub_recv_filters_witness :
  exists k : nn_sock loop_net (nn_xsub store nn_list), sub_state = Ok k /\ exists ms, Forall (unwanted (xsub_trie (sk_base k))) ms /\
    ((exists s' w', nn_xsub_recv (sk_base k) (sk_world k) = Ok (s', w', - EAGAIN, None) /\ xsub_rep s' w'
        /\ xsub_trie s' = xsub_trie (sk_base k) /\ rcvd (w_net w') = rcvd (w_net (sk_world k)) ++ ms /\ forall q, ~ off_in w' q) \/
     (exists s' w' q m, nn_xsub_recv (sk_base k) (sk_world k) = Ok (s', w', 0, Some m) /\ xsub_rep s' w'
        /\ xsub_trie s' = xsub_trie (sk_base k) /\ rcvd (w_net w') = rcvd (w_net (sk_world k)) ++ ms ++ [(q, m)]
        /\ wanted (xsub_trie (sk_base k)) m) \/
     (exists w' q m, nn_xsub_recv (sk_base k) (sk_world k) = Err BadAccess
        /\ rcvd (w_net w') = rcvd (w_net (sk_world k)) ++ ms ++ [(q, m)]
        /\ begins (xsub_trie (sk_base k)) m /\ unwanted (xsub_trie (sk_base k)) (q, m))).
Proof.
  destruct sub_state_ok as (k & E & Hk). exists k. split; [exact E|]. apply xsub_recv_filters; [apply Hk|apply (si_rep _ Hk)].
Defined.

Definition pub_session := session_state (nn_xpub_init (L := nn_list) (∅ : store)) demo_pub_net [KConnect 5 (demo_opts 2)].

Lemma pub_session_ok : exists k, pub_session = Ok k /\ sock_inv k.
Proof.
  apply session_state_ok; [by apply dist_tracks_init|]. constructor; [right|done|done]. intros p Hp. by apply list_elem_of_singleton in Hp.
Qed.

Lemma xpub_hears_nothing_witness :
  exists k : nn_sock loop_net (nn_xpub store nn_list), pub_session = Ok k /\ sock_step k (KReceived 5) = Err AssertFailed.
Proof.
  destruct pub_session_ok as (k & E & Hk). exists k. split; [exact E|].
  vm_compute in E. injection E as Ek.
  eapply (xpub_hears_nothing k 5%positive _ Hk); rewrite <- Ek; vm_compute; reflexivity.
Defined.

Lemma xpub_send_all_witness :
  exists k : nn_sock loop_net (nn_xpub store nn_list), pub_session = Ok k /\
  exists s' w' qs, nn_xpub_send (sk_base k) (sk_world k) (Msg [] [] [1]) = Ok (s', w', 0) /\ xpub_rep s' w'
    /\ sent (w_net w') = sent (w_net (sk_world k)) ++ ((fun q => (q, Msg [] [] [1])) <$> qs) /\ NoDup qs
    /\ (forall q, q ∈ qs <-> off_out (sk_world k) q).
Proof.
  destruct pub_session_ok as (k & E & Hk). exists k. split; [exact E|].
  apply xpub_send_all; [apply Hk|apply (si_rep _ Hk)].
Defined.
