(* ===== verification/Reqrep.v ===== *)
(** * Request/reply: XREQ, XREP and REP ([protocols/reqrep])

    XREQ balances requests over its pipes and fair-queues the replies.  XREP
    keeps a table of its pipes by a 31-bit key: a received request gets the
    key of its pipe in front of its header, the stack of keys ("backtrace")
    that ends with the word whose top bit is set, and a reply is sent to the
    pipe whose key its header starts with.  REP stores that header between the
    request and the reply.

    [protocols/survey/xrespondent.c] and [respondent.c] are the same code with
    other names; [Survey] refers to the definitions here.

    [xr_maxttl] is the socket's option NN_MAXTTL, which [nn_xrep_recv] asks the
    socket for. *)

From S2P Require Import Prelude NNList NNFamily Hash Priolist Wire Pipe Sock Balance Members Pipeline.
Local Open Scope Z_scope.

Definition EFSM : Z := 156384712 + 54.
Definition NN_XREP_OUT : Z := 1.
Definition NN_REP_INPROGRESS : Z := 1.

(** Flag words. *)
Definition has_flag (flags bit : Z) : bool := negb (bool_decide (Z.land flags bit = 0)).
Definition set_flag (flags bit : Z) : Z := Z.lor flags bit.
Definition clear_flag (flags bit : Z) : Z := Z.ldiff flags bit.

(** [rc & NN_PIPE_PARSED]: the header was already split off. *)
Definition parsed (rc : Z) : bool := has_flag rc NN_PIPE_PARSED.

(** Moves the first [n] bytes of the body to the header. *)
Definition split_header (n : nat) (msg : nn_msg) : nn_msg := Msg (take n (body msg)) (hdrs msg) (drop n (body msg)).

(** A [struct nn_msg], initialised or terminated. *)
Inductive msg_object := Live (m : nn_msg) | Dead (m : nn_msg).

(** What the user gets through a fresh object. *)
Definition fresh_msg : msg_object := Dead (Msg [] [] []).
Definition received (rc : Z) (msg : msg_object) : option nn_msg :=
  match msg with Live m => if bool_decide (rc = 0) then Some m else None | Dead _ => None end.

Section Reqrep.
  Context {St L T : Type} `{ListOps St L} `{Transport T}.
  Implicit Types (w : world T).

(** ** XREQ *)
Record nn_xreq := Xreq { xreq_lb : nn_lb St L; xreq_fq : nn_fq St L }.

Definition nn_xreq_init (s : St) : nn_xreq := Xreq (nn_lb_init (PItems s ∅)) (nn_fq_init (PItems s ∅)).
Definition nn_xreq_term (self : nn_xreq) : result unit :=
  _ ← nn_fq_term (xreq_fq self); nn_lb_term (xreq_lb self).

Definition nn_xreq_add (self : nn_xreq) w (pipe : addr) : result (nn_xreq * world T * Z) :=
  sndprio ← pipe_option w pipe NN_SNDPRIO;
  _ ← assert_ (bool_decide (1 <= sndprio) && bool_decide (sndprio <= 16));
  rcvprio ← pipe_option w pipe NN_RCVPRIO;
  _ ← assert_ (bool_decide (1 <= rcvprio) && bool_decide (rcvprio <= 16));
  let data := fresh (dom (pi_data (lb_items (xreq_lb self))) ∪ dom (pi_data (fq_items (xreq_fq self)))) in
  w ← nn_pipe_setdata w pipe (Some data);
  Ok (Xreq (nn_lb_add (xreq_lb self) data pipe sndprio) (nn_fq_add (xreq_fq self) data pipe rcvprio), w, 0).

Definition nn_xreq_rm (self : nn_xreq) w (pipe : addr) : result (nn_xreq * world T) :=
  data ← pipe_data_of w pipe;
  lb ← nn_lb_rm (xreq_lb self) data;
  fq ← nn_fq_rm (xreq_fq self) data;
  w ← nn_sock_stat_increment w NN_STAT_CURRENT_SND_PRIORITY (nn_lb_get_priority lb);
  Ok (Xreq lb fq, w).

Definition nn_xreq_in (self : nn_xreq) w (pipe : addr) : result (nn_xreq * world T) :=
  data ← pipe_data_of w pipe;
  fq ← nn_fq_in (xreq_fq self) data;
  Ok (Xreq (xreq_lb self) fq, w).

Definition nn_xreq_out (self : nn_xreq) w (pipe : addr) : result (nn_xreq * world T) :=
  data ← pipe_data_of w pipe;
  lb ← nn_lb_out (xreq_lb self) data;
  w ← nn_sock_stat_increment w NN_STAT_CURRENT_SND_PRIORITY (nn_lb_get_priority lb);
  Ok (Xreq lb (xreq_fq self), w).

Definition nn_xreq_events (self : nn_xreq) : Z :=
  Z.lor (if nn_fq_can_recv (xreq_fq self) then NN_SOCKBASE_EVENT_IN else 0)
        (if nn_lb_can_send (xreq_lb self) then NN_SOCKBASE_EVENT_OUT else 0).

(** The last component is [*to]. *)
Definition nn_xreq_send_to (self : nn_xreq) w (msg : nn_msg) : result (nn_xreq * world T * Z * option addr) :=
  '(lb, w, rc, to) ← nn_lb_send (xreq_lb self) w msg;
  let self := Xreq lb (xreq_fq self) in
  if bool_decide (rc = - EAGAIN) then Ok (self, w, - EAGAIN, to)
  else _ ← assert_ (bool_decide (rc >= 0)); Ok (self, w, 0, to).

Definition nn_xreq_send (self : nn_xreq) w (msg : nn_msg) : result (nn_xreq * world T * Z) :=
  '(self, w, rc, _) ← nn_xreq_send_to self w msg; Ok (self, w, rc).

(** The message parameter of [recv] is an object of the caller: filled when
    the call succeeds, terminated when a malformed message is dropped,
    untouched when there is no message. *)
Definition nn_xreq_recv (self : nn_xreq) w (msg : msg_object) : result (nn_xreq * world T * Z * msg_object) :=
  '(fq, w, rc, r) ← nn_fq_recv (xreq_fq self) w;
  let self := Xreq (xreq_lb self) fq in
  if bool_decide (rc = - EAGAIN) then Ok (self, w, - EAGAIN, msg)
  else
    _ ← assert_ (bool_decide (rc >= 0));
    '(msg, _) ← deref r;
    if negb (parsed rc) then
      if bool_decide (length (body msg) < 4)%nat then Ok (self, w, - EAGAIN, Dead msg)
      else
        _ ← assert_ (bool_decide (length (sphdr msg) = 0%nat));
        Ok (self, w, 0, Live (split_header 4 msg))
    else Ok (self, w, 0, Live msg).

Definition nn_xreq_setopt (self : nn_xreq) (level option : Z) (optval : bytes) : Z := - ENOPROTOOPT.
Definition nn_xreq_getopt (self : nn_xreq) (level option : Z) : Z := - ENOPROTOOPT.

#[export] Instance xreq_proto : SockProto T nn_xreq := {|
  sb_nosend := false;
  sb_norecv := false;
  sb_add := nn_xreq_add;
  sb_rm := nn_xreq_rm;
  sb_in := nn_xreq_in;
  sb_out := nn_xreq_out;
  sb_events := nn_xreq_events;
  sb_send := nn_xreq_send;
  sb_recv s w := '(s, w, rc, msg) ← nn_xreq_recv s w fresh_msg; Ok (s, w, rc, received rc msg);
  sb_pending s e := false;
  sb_worker s w e := Err BadAccess
|}.

(** ** XREP *)

(** One [struct nn_xrep_data]: the fair-queue item and the hash item of the
    same address are in [xr_inpipes] and [xr_items]. *)
Record nn_xrep_data := XrepData { xd_pipe : addr; xd_flags : Z }.

Record nn_xrep := Xrep {
  xr_next_key : Z;
  xr_items : hitems St;
  xr_outpipes : nn_hash L;
  xr_inpipes : nn_fq St L;
  xr_data : gmap addr nn_xrep_data;
  xr_maxttl : Z
}.

(** [key]: the random number. *)
Definition nn_xrep_init (s : St) (key maxttl : Z) : nn_xrep :=
  Xrep key (HItems s ∅) nn_hash_init (nn_fq_init (PItems s ∅)) ∅ maxttl.

Definition nn_xrep_term (self : nn_xrep) : result unit :=
  _ ← nn_fq_term (xr_inpipes self); nn_hash_term (xr_outpipes self).

Definition nn_xrep_add (self : nn_xrep) w (pipe : addr) : result (nn_xrep * world T * Z) :=
  rcvprio ← pipe_option w pipe NN_RCVPRIO;
  _ ← assert_ (bool_decide (1 <= rcvprio) && bool_decide (rcvprio <= 16));
  let data := fresh (dom (pi_data (fq_items (xr_inpipes self))) ∪ dom (hs_keys (xr_items self))) in
  let items := nn_hash_item_init (xr_items self) data in
  '(items, outpipes) ← nn_hash_insert items (xr_outpipes self) (Z.land (xr_next_key self) 0x7fffffff) data;
  let inpipes := nn_fq_add (xr_inpipes self) data pipe rcvprio in
  w ← nn_pipe_setdata w pipe (Some data);
  Ok (Xrep (u32 (xr_next_key self + 1)) items outpipes inpipes
        (<[data := XrepData pipe 0]> (xr_data self)) (xr_maxttl self), w, 0).

Definition nn_xrep_rm (self : nn_xrep) w (pipe : addr) : result (nn_xrep * world T) :=
  data ← pipe_data_of w pipe;
  inpipes ← nn_fq_rm (xr_inpipes self) data;
  '(items, outpipes) ← nn_hash_erase (xr_items self) (xr_outpipes self) data;
  _ ← nn_hash_item_term items data;
  Ok (Xrep (xr_next_key self) items outpipes inpipes (delete data (xr_data self)) (xr_maxttl self), w).

Definition nn_xrep_in (self : nn_xrep) w (pipe : addr) : result (nn_xrep * world T) :=
  data ← pipe_data_of w pipe;
  inpipes ← nn_fq_in (xr_inpipes self) data;
  Ok (Xrep (xr_next_key self) (xr_items self) (xr_outpipes self) inpipes (xr_data self) (xr_maxttl self), w).

Definition with_data (self : nn_xrep) (m : gmap addr nn_xrep_data) : nn_xrep :=
  Xrep (xr_next_key self) (xr_items self) (xr_outpipes self) (xr_inpipes self) m (xr_maxttl self).

Definition nn_xrep_out (self : nn_xrep) w (pipe : addr) : result (nn_xrep * world T) :=
  data ← pipe_data_of w pipe;
  d ← deref (xr_data self !! data);
  Ok (with_data self (<[data := XrepData (xd_pipe d) (set_flag (xd_flags d) NN_XREP_OUT)]> (xr_data self)), w).

Definition nn_xrep_events (self : nn_xrep) : Z :=
  Z.lor (if nn_fq_can_recv (xr_inpipes self) then NN_SOCKBASE_EVENT_IN else 0) NN_SOCKBASE_EVENT_OUT.

Definition nn_xrep_send (self : nn_xrep) w (msg : nn_msg) : result (nn_xrep * world T * Z) :=
  if bool_decide (length (sphdr msg) < 4)%nat then Ok (self, w, 0)
  else
    key ← nn_getl (sphdr msg);
    let msg := Msg (drop 4 (sphdr msg)) (hdrs msg) (body msg) in
    item ← nn_hash_get (xr_items self) (xr_outpipes self) key;
    match item with
    | At data =>
        d ← deref (xr_data self !! data);
        if negb (has_flag (xd_flags d) NN_XREP_OUT) then Ok (self, w, 0)
        else
          '(w, rc) ← nn_pipe_send w (xd_pipe d) msg;
          _ ← assert_ (bool_decide (rc >= 0));
          let self := if released rc then
              with_data self (<[data := XrepData (xd_pipe d) (clear_flag (xd_flags d) NN_XREP_OUT)]> (xr_data self))
            else self in
          Ok (self, w, 0)
    | _ => Ok (self, w, 0)
    end.

(** The [while] loop of [nn_xrep_recv]: the index of the bottom of the
    backtrace, if the message has one.  Each turn looks at another four bytes
    of it, so its length is enough fuel. *)
Fixpoint find_bottom (fuel : nat) (data : bytes) (i : nat) : result (option nat) :=
  match fuel with
  | O => Err NoFuel
  | S fuel =>
      if bool_decide (length data < (i + 1) * 4)%nat then Ok None
      else
        word ← nn_getl (drop (i * 4) data);
        if has_flag word 0x80000000 then Ok (Some i) else find_bottom fuel data (i + 1)
  end.

(** "Prepend the header by the pipe key." *)
Definition prepend_key (key : Z) (msg : nn_msg) : result nn_msg :=
  ref ← nn_putl (replicate 4 0 ++ sphdr msg) key;
  Ok (Msg ref (hdrs msg) (body msg)).

Definition with_inpipes (self : nn_xrep) (fq : nn_fq St L) : nn_xrep :=
  Xrep (xr_next_key self) (xr_items self) (xr_outpipes self) fq (xr_data self) (xr_maxttl self).

(** The header of a message that is not parsed yet; [None]: it is dropped. *)
Definition xrep_split (maxttl : Z) (msg : nn_msg) : result (option nn_msg) :=
  bottom ← find_bottom (S (length (body msg))) (body msg) 0;
  match bottom with
  | None => Ok None
  | Some i =>
      let i := (i + 1)%nat in
      if bool_decide (Z.of_nat i > maxttl) then Ok None
      else
        _ ← assert_ (bool_decide (length (sphdr msg) = 0%nat));
        Ok (Some (split_header (i * 4) msg))
  end.

Definition nn_xrep_recv (self : nn_xrep) w : result (nn_xrep * world T * Z * option nn_msg) :=
  '(fq, w, rc, r) ← nn_fq_recv (xr_inpipes self) w;
  let self := with_inpipes self fq in
  if bool_decide (rc < 0) then Ok (self, w, rc, None)
  else
    '(msg, pipe) ← deref r;
    split ← (if negb (parsed rc) then xrep_split (xr_maxttl self) msg else Ok (Some msg));
    match split with
    | None => Ok (self, w, - EAGAIN, None)
    | Some msg =>
        data ← pipe_data_of w pipe;
        key ← deref (hs_keys (xr_items self) !! data);
        msg ← prepend_key key msg;
        Ok (self, w, 0, Some msg)
    end.

Definition nn_xrep_setopt (self : nn_xrep) (level option : Z) (optval : bytes) : Z := - ENOPROTOOPT.
Definition nn_xrep_getopt (self : nn_xrep) (level option : Z) : Z := - ENOPROTOOPT.

#[export] Instance xrep_proto : SockProto T nn_xrep := {|
  sb_nosend := false;
  sb_norecv := false;
  sb_add := nn_xrep_add;
  sb_rm := nn_xrep_rm;
  sb_in := nn_xrep_in;
  sb_out := nn_xrep_out;
  sb_events := nn_xrep_events;
  sb_send := nn_xrep_send;
  sb_recv := nn_xrep_recv;
  sb_pending s e := false;
  sb_worker s w e := Err BadAccess
|}.

(** ** REP *)
Record nn_rep := Rep { rep_xrep : nn_xrep; rep_flags : Z; rep_backtrace : bytes }.

Definition nn_rep_init (s : St) (key maxttl : Z) : nn_rep := Rep (nn_xrep_init s key maxttl) 0 [].
Definition nn_rep_term (self : nn_rep) : result unit := nn_xrep_term (rep_xrep self).

(** [nn_rep_sockbase_vfptr] reuses four functions of [xrep]. *)
Definition on_xrep {A} (self : nn_rep) (f : nn_xrep -> result (nn_xrep * A)) : result (nn_rep * A) :=
  '(xrep, a) ← f (rep_xrep self); Ok (Rep xrep (rep_flags self) (rep_backtrace self), a).

Definition nn_rep_events (self : nn_rep) : Z :=
  let events := nn_xrep_events (rep_xrep self) in
  if negb (has_flag (rep_flags self) NN_REP_INPROGRESS) then clear_flag events NN_SOCKBASE_EVENT_OUT else events.

Definition nn_rep_send (self : nn_rep) w (msg : nn_msg) : result (nn_rep * world T * Z) :=
  if negb (has_flag (rep_flags self) NN_REP_INPROGRESS) then Ok (self, w, - EFSM)
  else
    _ ← assert_ (bool_decide (length (sphdr msg) = 0%nat));
    let msg := Msg (rep_backtrace self) (hdrs msg) (body msg) in
    '(xrep, w, rc) ← nn_xrep_send (rep_xrep self) w msg;
    _ ← assert_ (bool_decide (rc = 0) || bool_decide (rc = - EAGAIN));
    Ok (Rep xrep (clear_flag (rep_flags self) NN_REP_INPROGRESS) (rep_backtrace self), w, 0).

Definition nn_rep_recv (self : nn_rep) w : result (nn_rep * world T * Z * option nn_msg) :=
  let flags := if has_flag (rep_flags self) NN_REP_INPROGRESS then clear_flag (rep_flags self) NN_REP_INPROGRESS
               else rep_flags self in
  '(xrep, w, rc, r) ← nn_xrep_recv (rep_xrep self) w;
  if bool_decide (rc = - EAGAIN) then Ok (Rep xrep flags (rep_backtrace self), w, - EAGAIN, None)
  else
    _ ← assert_ (bool_decide (rc = 0));
    msg ← deref r;
    Ok (Rep xrep (set_flag flags NN_REP_INPROGRESS) (sphdr msg), w, 0, Some (Msg [] (hdrs msg) (body msg))).

#[export] Instance rep_proto : SockProto T nn_rep := {|
  sb_nosend := false;
  sb_norecv := false;
  sb_add s w p :=
    '(xrep, w, rc) ← nn_xrep_add (rep_xrep s) w p; Ok (Rep xrep (rep_flags s) (rep_backtrace s), w, rc);
  sb_rm s w p := on_xrep s (fun s => nn_xrep_rm s w p);
  sb_in s w p := on_xrep s (fun s => nn_xrep_in s w p);
  sb_out s w p := on_xrep s (fun s => nn_xrep_out s w p);
  sb_events := nn_rep_events;
  sb_send := nn_rep_send;
  sb_recv := nn_rep_recv;
  sb_pending s e := false;
  sb_worker s w e := Err BadAccess
|}.

End Reqrep.
Arguments nn_xreq : clear implicits.
Arguments nn_xrep : clear implicits.
Arguments nn_rep : clear implicits.

(** ** Words and flags *)

Lemma nn_getl_total b : (4 <= length b)%nat -> exists v, nn_getl b = Ok v.
Proof. destruct b as [|b0 [|b1 [|b2 [|b3 b]]]]; cbn; [lia..|]. by eexists. Qed.

Lemma nn_getl_none b : (length b < 4)%nat -> nn_getl b = Err BadAccess.
Proof. destruct b as [|b0 [|b1 [|b2 [|b3 b]]]]; cbn; try done. lia. Qed.

Lemma prepend_key_ok key m : 0 <= key -> prepend_key key m = Ok (Msg (be_bytes 4 key ++ sphdr m) (hdrs m) (body m)).
Proof. intros Hk. unfold prepend_key. cbn [replicate app]. rewrite nn_putl_eq by done. done. Qed.

(** The key in front of a header. *)
Lemma nn_getl_key key h : 0 <= key < 2 ^ 32 -> nn_getl (be_bytes 4 key ++ h) = Ok key.
Proof.
  intros Hk. pose proof (be_bytes_length 4 key) as Hl. pose proof (be_bytes_ok 4 key) as Hok.
  destruct (be_bytes 4 key) as [|b0 [|b1 [|b2 [|b3 [|]]]]] eqn:E; try done.
  cbn [app]. rewrite nn_getl_eq by done. rewrite <- E. f_equal. apply be_round. exact Hk.
Qed.

Lemma flag_cleared f : has_flag (clear_flag f 1) 1 = false.
Proof.
  unfold has_flag, clear_flag. apply negb_false_iff, bool_decide_eq_true. apply Z.bits_inj'. intros n Hn.
  rewrite Z.land_spec, Z.ldiff_spec, Z.bits_0. by destruct (Z.testbit f n), (Z.testbit 1 n).
Qed.

Lemma flag_set f : has_flag (set_flag f 1) 1 = true.
Proof.
  unfold has_flag, set_flag. apply negb_true_iff, bool_decide_eq_false. intros E.
  assert (Hb : Z.testbit (Z.land (Z.lor f 1) 1) 0 = true) by (rewrite Z.land_spec, Z.lor_spec; cbn; by rewrite orb_true_r).
  by rewrite E in Hb.
Qed.

(** The reference for [find_bottom]: the words of a backtrace up to the first
    one with the top bit set, and what follows. *)
Fixpoint backtrace_of (data : bytes) : option (bytes * bytes) :=
  match data with
  | b0 :: b1 :: b2 :: b3 :: rest =>
      if bool_decide (128 <= b0) then Some ([b0; b1; b2; b3], rest)
      else '(h, b) ← backtrace_of rest; Some ([b0; b1; b2; b3] ++ h, b)
  | _ => None
  end.

Lemma top_bit b0 b1 b2 b3 : bytes_ok [b0; b1; b2; b3] ->
  has_flag (be_val 0 [b0; b1; b2; b3]) 0x80000000 = bool_decide (128 <= b0).
Proof.
  intros Hok. pose proof (be_val_range [b1; b2; b3] b0) as Hr. cbn [be_val length Z.of_nat] in Hr.
  inversion Hok as [|? ? H0 Hok']; subst. unfold in_range in H0. specialize (Hr Hok' ltac:(lia)).
  cbn [be_val]. rewrite Z.mul_0_l, Z.add_0_l. set (v := ((b0 * 256 + b1) * 256 + b2) * 256 + b3) in *.
  change (256 ^ Z.of_nat (Datatypes.S (Datatypes.S 1))) with (2 ^ 24) in Hr.
  assert (Hv : 0 <= v < 2 ^ 32) by lia.
  unfold has_flag. change 0x80000000 with (2 ^ 31).
  assert (Hbit : Z.testbit v 31 = bool_decide (128 <= b0)).
  { rewrite Z.testbit_eqb by lia. case_bool_decide.
    - apply Z.eqb_eq. replace (v / 2 ^ 31) with 1; [done|]. apply (Z.div_unique _ _ _ (v - 2 ^ 31)); lia.
    - apply Z.eqb_neq. rewrite Z.div_small by lia. done. }
  rewrite <- Hbit. destruct (Z.testbit v 31) eqn:E.
  - apply negb_true_iff, bool_decide_eq_false. intros E0.
    assert (Hx : Z.testbit (Z.land v (2 ^ 31)) 31 = true) by (rewrite Z.land_spec, E, Z.pow2_bits_true by lia; done).
    by rewrite E0 in Hx.
  - apply negb_false_iff, bool_decide_eq_true. apply Z.bits_inj'. intros n Hn.
    rewrite Z.land_spec, Z.bits_0. destruct (decide (n = 31)) as [->|]; [by rewrite E|].
    rewrite Z.pow2_bits_false by lia. apply andb_false_r.
Qed.

Lemma find_bottom_ok fuel : forall data i,
  bytes_ok data -> (length data < i * 4 + fuel)%nat -> (i * 4 <= length data)%nat ->
  exists r, find_bottom fuel data i = Ok r /\
    match r with
    | None => backtrace_of (drop (i * 4) data) = None
    | Some j => (i <= j)%nat /\ ((j + 1) * 4 <= length data)%nat
        /\ backtrace_of (drop (i * 4) data) = Some (take ((j + 1 - i) * 4) (drop (i * 4) data), drop ((j + 1) * 4) data)
    end.
Proof.
  induction fuel as [|fuel IH]; intros data i Hok Hf Hi; [lia|]. cbn [find_bottom].
  case_bool_decide as Hl.
  { exists None. split; [done|]. pose proof (length_drop data (i * 4)) as Hd.
    destruct (drop (i * 4) data) as [|b0 [|b1 [|b2 [|b3 rest]]]]; try done. cbn in Hd. lia. }
  assert (Hok' : bytes_ok (drop (i * 4) data)) by (by apply Forall_drop).
  assert (Hd2 : drop ((i + 1) * 4) data = drop 4 (drop (i * 4) data)) by (rewrite drop_drop; f_equal; lia).
  pose proof (length_drop data (i * 4)) as Hd.
  destruct (drop (i * 4) data) as [|b0 [|b1 [|b2 [|b3 rest]]]] eqn:Edrop; cbn in Hd; try lia.
  assert (Hb : bytes_ok [b0; b1; b2; b3]) by exact (Forall_take _ 4 _ Hok').
  rewrite nn_getl_eq by done. mred. rewrite top_bit by done. cbn [backtrace_of].
  case_bool_decide as Hb0.
  - exists (Some i). split; [done|]. split; [lia|]. split; [lia|].
    replace ((i + 1 - i) * 4)%nat with 4%nat by lia. by rewrite Hd2.
  - destruct (IH data (i + 1)%nat Hok) as (r & -> & Hr); [lia|lia|]. exists r. split; [done|].
    rewrite Hd2 in Hr. change (drop 4 (b0 :: b1 :: b2 :: b3 :: rest)) with rest in Hr. destruct r as [j|]; [|by rewrite Hr].
    destruct Hr as (H1 & H2 & ->). split; [lia|]. split; [lia|]. cbn [mbind option_bind].
    replace ((j + 1 - i) * 4)%nat with (4 + (j + 1 - (i + 1)) * 4)%nat by lia. done.
Qed.

Lemma backtrace_words data h b : backtrace_of data = Some (h, b) -> data = h ++ b /\ exists n, length h = (n * 4)%nat /\ (0 < n)%nat.
Proof.
  remember (length data) as len eqn:Hlen. revert data h b Hlen. induction (lt_wf len) as [len _ IH]. intros data h b -> E.
  destruct data as [|b0 [|b1 [|b2 [|b3 rest]]]]; try done. cbn [backtrace_of] in E.
  case_bool_decide; [simplify_eq; split; [done|]; exists 1%nat; cbn; lia|].
  destruct (backtrace_of rest) as [[h' b']|] eqn:E'; [|done]. cbn in E. simplify_eq.
  destruct (IH (length rest) ltac:(cbn; lia) rest h' b eq_refl E') as [-> (n & Hn & ?)]. split; [done|].
  exists (Datatypes.S n). cbn. lia.
Qed.

(** The header of an unparsed message is its backtrace, if that is not longer
    than the limit. *)
Lemma xrep_split_ok maxttl m :
  bytes_ok (body m) -> sphdr m = [] ->
  xrep_split maxttl m = Ok (match backtrace_of (body m) with
    | Some (h, b) => if bool_decide (Z.of_nat (length h) <= maxttl * 4) then Some (Msg h (hdrs m) b) else None
    | None => None end).
Proof.
  intros Hok Hs. unfold xrep_split.
  destruct (find_bottom_ok (Datatypes.S (length (body m))) (body m) 0 Hok) as (r & -> & Hr); [lia|lia|].
  mred. cbn [mult] in Hr. rewrite drop_0 in Hr. destruct r as [j|]; [|by rewrite Hr].
  destruct Hr as (_ & Hj & Hr). rewrite Nat.sub_0_r in Hr. rewrite Hr, length_take, Nat.min_l by lia.
  destruct (decide (Z.of_nat (j + 1) > maxttl)) as [Hgt|Hle]; decide_bools; [done|].
  rewrite Hs. cbn [length]. decide_bools. mred. done.
Qed.

Lemma find_bottom_any fuel : forall data i, (length data < i * 4 + fuel)%nat -> (i * 4 <= length data)%nat ->
  exists r, find_bottom fuel data i = Ok r.
Proof.
  induction fuel as [|fuel IH]; intros data i Hf Hi; [lia|]. cbn [find_bottom].
  case_bool_decide as Hl; [eauto|]. destruct (nn_getl_total (drop (i * 4) data)) as [v ->]; [rewrite length_drop; lia|].
  mred. destruct (has_flag v _); [eauto|]. apply IH; lia.
Qed.

Lemma xrep_split_total maxttl m : sphdr m = [] -> exists r, xrep_split maxttl m = Ok r.
Proof.
  intros Hs. unfold xrep_split.
  destruct (find_bottom_any (Datatypes.S (length (body m))) (body m) 0) as [r ->]; [lia|lia|]. mred.
  destruct r; [|eauto]. case_bool_decide; [eauto|]. rewrite Hs. cbn. eauto.
Qed.

(** ** XREQ in a socket *)
Section XreqSpec.
  Context {St L T : Type} `{ListSpec St L} `{TransportSpec T}.
  Implicit Types (w : world T) (p : addr).

Definition xreq_rep (s : nn_xreq St L) w : Prop := lb_tracks w (xreq_lb s) /\ fq_tracks w (xreq_fq s).

Lemma xreq_add_ok s w p options :
  world_ok w -> xreq_rep s w -> w_pipes w !! p = None -> room w options ->
  exists s' d, nn_xreq_add s (set_pipe w p (starting (nn_pipebase_init options))) p
      = Ok (s', set_pipe w p (set_data d (starting (nn_pipebase_init options))), 0)
    /\ xreq_rep s' (started w p d options).
Proof.
  intros Hw [Hl Hf] Hp Hroom. unfold nn_xreq_add. destruct (pipe_option_ok w p options) as [-> ->]. mred.
  destruct (valid_priorities _ _ Hroom) as [Hsnd Hrcv]. decide_bools. mred. rewrite set_data_ok. mred.
  set (x := fresh _). assert (Hx : x ∉ dom (pi_data (lb_items (xreq_lb s))) ∪ dom (pi_data (fq_items (xreq_fq s))))
    by apply is_fresh.
  apply not_elem_of_union in Hx as [Hx1%not_elem_of_dom Hx2%not_elem_of_dom].
  eexists _, _. split; [done|]. split; [by apply lb_add_tracks|by apply fq_add_tracks].
Qed.

Lemma xreq_rm_ok s w p pb :
  world_ok w -> xreq_rep s w -> w_pipes w !! p = Some pb ->
  exists s' prio, nn_xreq_rm s w p = Ok (s', set_stat w NN_STAT_CURRENT_SND_PRIORITY prio)
    /\ xreq_rep s' (drop_pipe w p).
Proof.
  intros Hw [Hl Hf] Hp. unfold nn_xreq_rm. destruct (fq_tracks_data _ _ _ _ Hf Hp) as [x Hx].
  rewrite (pipe_data_ok _ _ _ _ Hp Hx). mred.
  destruct (lb_rm_tracks _ _ _ _ _ Hl Hp Hx) as (lb' & -> & Hl' & _). mred.
  destruct (fq_rm_tracks _ _ _ _ _ Hf Hp Hx) as (fq' & -> & Hf' & _). mred.
  rewrite priority_stat by (by eapply lb_can_send_priority). mred. by eexists _, _.
Qed.

Lemma xreq_in_ok s w p es :
  world_ok w -> xreq_rep s w -> w_events w = (p, NN_PIPE_IN) :: es ->
  exists s', nn_xreq_in s (set_events w es) p = Ok (s', set_events w es) /\ xreq_rep s' (set_events w es).
Proof.
  intros Hw [Hl Hf] He. destruct (pop_in w p es Hw He) as (_ & _ & _ & _ & pb & Hp).
  destruct (fq_tracks_data _ _ _ _ Hf Hp) as [x Hx]. unfold nn_xreq_in.
  rewrite (pipe_data_ok (set_events w es) p pb x Hp Hx). mred.
  destruct (fq_in_tracks _ _ _ _ _ _ Hw Hf He Hp Hx) as (fq' & -> & Hf' & _). mred.
  eexists. split; [done|]. split; [by eapply lb_pop_in_tracks|done].
Qed.

Lemma xreq_out_ok s w p es :
  world_ok w -> xreq_rep s w -> w_events w = (p, NN_PIPE_OUT) :: es ->
  exists s' prio, let w' := set_stat (set_events w es) NN_STAT_CURRENT_SND_PRIORITY prio in
    nn_xreq_out s (set_events w es) p = Ok (s', w') /\ xreq_rep s' w'.
Proof.
  intros Hw [Hl Hf] He. destruct (pop_out w p es Hw He) as (_ & _ & _ & _ & pb & Hp).
  destruct (fq_tracks_data _ _ _ _ Hf Hp) as [x Hx]. unfold nn_xreq_out.
  rewrite (pipe_data_ok (set_events w es) p pb x Hp Hx). mred.
  destruct (lb_out_tracks _ _ _ _ _ _ Hw Hl He Hp Hx) as (lb' & -> & Hl' & _). mred.
  rewrite priority_stat by (by eapply lb_can_send_priority). mred.
  eexists _, _. split; [done|]. split; [exact Hl'|]. exact (fq_pop_out_tracks _ _ _ _ Hw Hf He).
Qed.

(** The message goes to a writable pipe, if there is one. *)
Lemma xreq_send_to_ok s w m :
  world_ok w -> xreq_rep s w ->
  (nn_xreq_send_to s w m = Ok (s, w, - EAGAIN, None) /\ nn_lb_can_send (xreq_lb s) = false) \/
  (exists s' w' q, nn_xreq_send_to s w m = Ok (s', w', 0, Some q) /\ nn_lb_can_send (xreq_lb s) = true
     /\ xreq_rep s' w' /\ sent_one w w' q m).
Proof.
  intros Hw [Hl Hf]. unfold nn_xreq_send_to.
  destruct (nn_lb_send_tracks w (xreq_lb s) m Hw Hl) as [[-> ?]|(q & lb' & w' & -> & ? & Hs & Hl' & _)]; mred; [left|right].
  - by destruct s.
  - eexists _, w', q. split; [done|]. split; [done|]. split; [|done]. split; [done|by eapply fq_tracks_sent].
Qed.

(** A received message is delivered with the first word as its header, or
    dropped when it has none. *)
Definition xreq_delivers (m : nn_msg) (r : option nn_msg) : Prop :=
  (sphdr m = [] /\ r = if bool_decide (length (body m) < 4)%nat then None else Some (split_header 4 m)) \/ r = Some m.

Definition left_in (m : nn_msg) (r : option nn_msg) : msg_object := match r with Some m' => Live m' | None => Dead m end.

Lemma xreq_recv_ok s w msg :
  world_ok w -> xreq_rep s w ->
  (nn_xreq_recv s w msg = Ok (s, w, - EAGAIN, msg) /\ nn_fq_can_recv (xreq_fq s) = false) \/
  (exists s' w' p m r, nn_xreq_recv s w msg = Ok (s', w', if r is Some _ then 0 else - EAGAIN, left_in m r)
     /\ xreq_rep s' w' /\ rcvd_one w w' p m /\ xreq_delivers m r).
Proof.
  intros Hw [Hl Hf]. unfold nn_xreq_recv.
  destruct (nn_fq_recv_tracks w (xreq_fq s) Hw Hf) as [[-> ?]|(q & fq' & w' & rc & m & -> & ? & Hrc & Hs & Hf' & _)]; mred; [left|right].
  - by destruct s.
  - assert (Hrep : xreq_rep (Xreq (xreq_lb s) fq') w') by (split; [by eapply lb_tracks_rcvd|done]).
    destruct Hrc as [[-> Hh]| ->].
    + decide_bools. mred. change (parsed 0) with false. cbn [negb]. unfold xreq_delivers.
      exists (Xreq (xreq_lb s) fq'), w', q, m. case_bool_decide as Hlen.
      * exists None. split; [done|]. split; [done|]. split; [done|]. by left.
      * exists (Some (split_header 4 m)). rewrite Hh. mred. split; [done|]. split; [done|]. split; [done|]. by left.
    + exists (Xreq (xreq_lb s) fq'), w', q, m, (Some m). split; [done|]. split; [done|]. split; [done|]. by right.
Qed.

#[export, program] Instance xreq_spec : SockSpec T (nn_xreq St L) := {| sk_hears := true; sk_sends m := true; sk_takes _ _ := true; sk_room n s := True;
  sk_room_le _ _ _ := I; sk_room_add _ _ _ _ _ _ _ _ _ := I; sk_room_step _ _ _ _ _ := I; sk_rep := xreq_rep |}.
Next Obligation. intros s w w' (Hd & Hi & Ho) [Hl Hf]. split; [by eapply lb_tracks_view|by eapply fq_tracks_view]. Qed.
Next Obligation. intros s. cbn. unfold nn_xreq_events. by destruct (nn_fq_can_recv _), (nn_lb_can_send _). Qed.
Next Obligation.
  intros s w p options Hw Hr Hp Hroom _. destruct (xreq_add_ok s w p options Hw Hr Hp Hroom) as (s' & d & E & Hr').
  exists s', d, 0. split; [exact E|]. decide_bools. exact Hr'.
Qed.
Next Obligation.
  intros s w p pb Hw Hr Hp _. destruct (xreq_rm_ok s w p pb Hw Hr Hp) as (s' & prio & E & Hr').
  eexists s', _. split; [exact E|]. split; [by apply handled_stat|]. exact Hr'.
Qed.
Next Obligation.
  intros s w p es _ Hw Hr He. destruct (xreq_in_ok s w p es Hw Hr He) as (s' & E & Hr').
  exists s', (set_events w es). split; [exact E|]. split; [by eapply handled_refl, pop_world_ok|done].
Qed.
Next Obligation.
  intros s w p es Hw Hr He. destruct (xreq_out_ok s w p es Hw Hr He) as (s' & prio & E & Hr').
  eexists s', _. split; [exact E|]. split; [apply handled_stat; [done|by eapply pop_world_ok]|done].
Qed.
Next Obligation.
  intros s w m _ _ Hw Hr. cbn [sb_send xreq_proto]. unfold nn_xreq_send.
  destruct (xreq_send_to_ok s w m Hw Hr) as [[-> _]|(s' & w' & q & -> & _ & Hr' & Hs)]; mred.
  - exists s, w, (- EAGAIN). split; [done|]. split; [unfold EAGAIN; lia|]. split; [by apply handled_refl|done].
  - exists s', w', 0. split; [done|]. split; [done|]. split; [apply Hs|done].
Qed.
Next Obligation.
  intros s w _ _ Hw Hr. cbn [sb_recv xreq_proto].
  destruct (xreq_recv_ok s w fresh_msg Hw Hr) as [[-> _]|(s' & w' & p & m & r & -> & Hr' & Hs & _)]; mred.
  - exists s, w, (- EAGAIN), None. split; [done|]. split; [unfold EAGAIN; lia|]. split; [by apply handled_refl|].
    split; [done|]. by split; [|intros [? ?]].
  - exists s', w', (if r is Some _ then 0 else - EAGAIN), r. split; [by destruct r|]. split; [destruct r; [done|unfold EAGAIN; lia]|]. split; [apply Hs|].
    split; [done|]. destruct r; (split; [|done]); [by eexists|intros [=]].
Qed.
Next Obligation. done. Qed.
#[export] Instance xreq_takes : SockTakes T (nn_xreq St L).
Proof. by intros s w. Qed.
End XreqSpec.

(** ** XREP and REP in a socket *)
Section XrepSpec.
  Context {St L T : Type} `{ListSpec St L} `{TransportSpec T}.
  Implicit Types (w : world T) (p : addr).

(** The key of a pipe. *)
Definition pipe_key (s : nn_xrep St L) w p : option Z :=
  pb ← w_pipes w !! p; x ← pb_data pb; hs_keys (xr_items s) !! x.

(** The table [m] holds each pipe's data under a key of its own; OUT is set
    while the pipe is offered for writing. *)
Record xrep_table (s : nn_xrep St L) w (m : gmap Z addr) : Prop := {
  xt_hash : hash_rep (xr_items s) (xr_outpipes s) m;
  xt_load : load_ok (xr_outpipes s);
  xt_size : size m = size (w_pipes w);
  xt_range k x : m !! k = Some x -> 0 <= k < 2 ^ 31;
  xt_owner k x : m !! k = Some x -> exists p pb, w_pipes w !! p = Some pb /\ pb_data pb = Some x;
  xt_pipe p pb : w_pipes w !! p = Some pb ->
    exists x k d, pb_data pb = Some x /\ m !! k = Some x /\ xr_data s !! x = Some d /\ xd_pipe d = p
      /\ (has_flag (xd_flags d) NN_XREP_OUT = true <-> off_out w p)
}.

Definition xrep_rep (s : nn_xrep St L) w : Prop := fq_tracks w (xr_inpipes s) /\ exists m, xrep_table s w m.

(** The next [n] keys are not in use. *)
Definition xrep_room (n : nat) (s : nn_xrep St L) : Prop :=
  Z.of_nat n <= 2 ^ 31 /\
  forall x d k i, xr_data s !! x = Some d -> hs_keys (xr_items s) !! x = Some k -> 0 <= i < Z.of_nat n ->
    k <> (xr_next_key s + i) mod 2 ^ 31.

Lemma low_bits x : Z.land x 0x7fffffff = x mod 2 ^ 31.
Proof. change 0x7fffffff with (Z.ones 31). by apply Z.land_ones. Qed.

(** No two of 2^31 consecutive numbers have the same low bits. *)
Lemma low_bits_differ a i : 0 < i < 2 ^ 31 -> a mod 2 ^ 31 <> (a + i) mod 2 ^ 31.
Proof.
  intros Hi E. assert (Hz : (a + i - a) mod 2 ^ 31 = 0) by (rewrite Zminus_mod, <- E, Z.sub_diag; done).
  replace (a + i - a) with i in Hz by lia. rewrite Z.mod_small in Hz; lia.
Qed.

Lemma xrep_room_le n s : xrep_room (Datatypes.S n) s -> xrep_room n s.
Proof. intros [Hn Hk]. split; [lia|]. intros x d k i Hd Hx Hi. eapply Hk; [done..|lia]. Qed.

Lemma xrep_room_add s w p s' w' rc n :
  nn_xrep_add s w p = Ok (s', w', rc) -> xrep_room (Datatypes.S n) s -> xrep_room n s'.
Proof.
  unfold nn_xrep_add. intros E [Hn Hk]. apply bind_Ok in E as (rcvprio & _ & (_ & _ & E)%bind_Ok).
  revert E. set (x := fresh _). intros ([items outpipes] & E%nn_hash_insert_keys & (w1 & _ & E1)%bind_Ok)%bind_Ok.
  rewrite low_bits in E. cbn in E. simplify_eq. split; [lia|]. cbn.
  assert (Hmod : forall j, (u32 (xr_next_key s + 1) + j) mod 2 ^ 31 = (xr_next_key s + (1 + j)) mod 2 ^ 31).
  { intros j. rewrite <- Zplus_mod_idemp_l. unfold wrap. rewrite Z.mod_mod_divide by (by exists 2).
    rewrite Zplus_mod_idemp_l. f_equal. lia. }
  intros y d k i Hy Hky Hi. rewrite Hmod.
  rewrite E in Hky. apply lookup_insert_Some in Hky as [[<- <-]|[Hne Hky]].
  - apply low_bits_differ. lia.
  - rewrite lookup_insert_ne in Hy by done. eapply Hk; [done..|lia].
Qed.

Lemma xrep_room_kept (s s' : nn_xrep St L) n :
  xr_next_key s' = xr_next_key s -> hs_keys (xr_items s') = hs_keys (xr_items s) ->
  dom (xr_data s') ⊆ dom (xr_data s) -> xrep_room n s -> xrep_room n s'.
Proof.
  intros E1 E2 Hd [Hn Hk]. split; [done|]. rewrite E1, E2. intros x d k i Hx.
  assert (is_Some (xr_data s !! x)) as [d' Hd'] by (apply elem_of_dom, Hd; by eapply elem_of_dom_2). by eapply Hk.
Qed.

Lemma insert_data_dom (m : gmap addr nn_xrep_data) x d d' : m !! x = Some d -> dom (<[x := d']> m) ⊆ dom m.
Proof. intros Hx. rewrite dom_insert_lookup_L; [done|by eexists]. Qed.

Lemma xrep_rm_room s w p s' w' n : nn_xrep_rm s w p = Ok (s', w') -> xrep_room n s -> xrep_room n s'.
Proof.
  unfold nn_xrep_rm. intros (x & _ & (fq & _ & ([items outpipes] & E%nn_hash_erase_keys & (_ & _ & E1)%bind_Ok)%bind_Ok)%bind_Ok)%bind_Ok.
  simplify_eq. apply xrep_room_kept; [done..|]. cbn. rewrite dom_delete_L. set_solver.
Qed.
Lemma xrep_in_room s w p s' w' n : nn_xrep_in s w p = Ok (s', w') -> xrep_room n s -> xrep_room n s'.
Proof. unfold nn_xrep_in. intros (x & _ & (fq & _ & E)%bind_Ok)%bind_Ok. simplify_eq. by apply xrep_room_kept. Qed.
Lemma xrep_out_room s w p s' w' n : nn_xrep_out s w p = Ok (s', w') -> xrep_room n s -> xrep_room n s'.
Proof.
  unfold nn_xrep_out. intros (x & _ & (d & Hd%deref_Some & E)%bind_Ok)%bind_Ok. simplify_eq.
  apply xrep_room_kept; [done..|]. by eapply insert_data_dom.
Qed.
Lemma xrep_send_room s w m s' w' rc n : nn_xrep_send s w m = Ok (s', w', rc) -> xrep_room n s -> xrep_room n s'.
Proof.
  unfold nn_xrep_send. case_bool_decide; [by intros; simplify_eq|].
  intros (key & _ & (item & _ & E)%bind_Ok)%bind_Ok. destruct item as [| |x]; try by simplify_eq.
  apply bind_Ok in E as (d & Hd%deref_Some & E). destruct (negb _); [by simplify_eq|].
  apply bind_Ok in E as ([w1 rc1] & _ & (_ & _ & E)%bind_Ok). simplify_eq.
  destruct (released rc1); [|done]. apply xrep_room_kept; [done..|]. by eapply insert_data_dom.
Qed.
Lemma xrep_recv_room s w s' w' rc m n : nn_xrep_recv s w = Ok (s', w', rc, m) -> xrep_room n s -> xrep_room n s'.
Proof.
  unfold nn_xrep_recv. intros ([[[fq w1] rc1] r] & _ & E)%bind_Ok.
  assert (s' = with_inpipes s fq) as ->; [|by apply xrep_room_kept].
  case_bool_decide; [by simplify_eq|]. apply bind_Ok in E as ([m1 q] & _ & ([m2|] & _ & E)%bind_Ok); [|by simplify_eq].
  apply bind_Ok in E as (x & _ & (key & _ & (m3 & _ & E)%bind_Ok)%bind_Ok). by simplify_eq.
Qed.

Lemma xrep_step_room s s' n : proto_step (T := T) s s' -> xrep_room n s -> xrep_room n s'.
Proof.
  intros Hs. destruct Hs as [s w p s' w' E|s w p s' w' E|s w p s' w' E|s w m s' w' rc E|s w s' w' rc m E|s w e s' w' E]; cbn in E.
  - by eapply xrep_rm_room. - by eapply xrep_in_room. - by eapply xrep_out_room.
  - by eapply xrep_send_room. - by eapply xrep_recv_room. - done.
Qed.

(** A table seen through another state and world with the same pipes. *)
Lemma xrep_table_ext (s s' : nn_xrep St L) w w' m :
  xr_items s' = xr_items s -> xr_outpipes s' = xr_outpipes s -> xr_data s' = xr_data s ->
  (forall q, (fun pb => (pb_data pb, pb_options pb)) <$> w_pipes w !! q
             = (fun pb => (pb_data pb, pb_options pb)) <$> w_pipes w' !! q) ->
  (forall q, off_out w q <-> off_out w' q) -> xrep_table s w m -> xrep_table s' w' m.
Proof.
  intros E1 E2 E3 Hd Ho [Hh Hl Hs Hr Hown Hpipe]. constructor; rewrite ?E1, ?E2, ?E3; try done.
  - rewrite Hs, <- !size_dom. f_equal. apply set_eq. intros q. rewrite !elem_of_dom. specialize (Hd q).
    destruct (w_pipes w !! q), (w_pipes w' !! q); try done; by split; eexists.
  - intros k x Hk. destruct (Hown k x Hk) as (p & pb & Hp & Hx). specialize (Hd p). rewrite Hp in Hd.
    destruct (w_pipes w' !! p) as [pb'|] eqn:Hp'; [|done]. cbn in Hd. injection Hd as Hd _. exists p, pb'. by rewrite <- Hd.
  - intros p pb' Hp'. specialize (Hd p). rewrite Hp' in Hd. destruct (w_pipes w !! p) as [pb|] eqn:Hp; [|done].
    cbn in Hd. injection Hd as Hd _. destruct (Hpipe p pb Hp) as (x & k & d & ? & ? & ? & ? & ?). exists x, k, d.
    rewrite <- Hd, <- Ho. done.
Qed.

Lemma xrep_rep_view s w w' : view_eq w w' -> xrep_rep s w -> xrep_rep s w'.
Proof.
  intros (Hd & Hi & Ho) [Hf [m Hm]]. split; [by eapply fq_tracks_view|]. exists m. by eapply xrep_table_ext.
Qed.

(** Pipes and data are in one-to-one correspondence. *)
Lemma xrep_data_inj s w m p p' pb pb' x :
  xrep_table s w m -> w_pipes w !! p = Some pb -> w_pipes w !! p' = Some pb' -> pb_data pb = Some x -> pb_data pb' = Some x ->
  p = p'.
Proof.
  intros Ht Hp Hp' Hx Hx'. destruct (xt_pipe _ _ _ Ht p pb Hp) as (y & _ & d & Hy & _ & Hd & <- & _).
  destruct (xt_pipe _ _ _ Ht p' pb' Hp') as (y' & _ & d' & Hy' & _ & Hd' & <- & _). congruence.
Qed.

Lemma xrep_pipe_key s w m p pb x k :
  xrep_table s w m -> w_pipes w !! p = Some pb -> pb_data pb = Some x -> m !! k = Some x -> pipe_key s w p = Some k.
Proof.
  intros Ht Hp Hx Hk. unfold pipe_key. rewrite Hp. cbn. rewrite Hx. cbn. by eapply hash_rep_key; [apply Ht|].
Qed.

Lemma xrep_add_ok s w p options :
  world_ok w -> xrep_rep s w -> w_pipes w !! p = None -> room w options -> xrep_room 1 s ->
  exists s' d, nn_xrep_add s (set_pipe w p (starting (nn_pipebase_init options))) p
      = Ok (s', set_pipe w p (set_data d (starting (nn_pipebase_init options))), 0)
    /\ xrep_rep s' (started w p d options).
Proof.
  intros Hw [Hf [m Hm]] Hp Hroom [_ Hkey]. unfold nn_xrep_add. destruct (pipe_option_ok w p options) as [_ ->]. mred.
  destruct (valid_priorities _ _ Hroom) as [_ Hrcv]. decide_bools. mred.
  set (x := fresh _). assert (Hx : x ∉ dom (pi_data (fq_items (xr_inpipes s))) ∪ dom (hs_keys (xr_items s))) by apply is_fresh.
  apply not_elem_of_union in Hx as [Hx1%not_elem_of_dom Hx2%not_elem_of_dom]. clearbody x.
  pose proof Hm as [Hh Hl Hs Hr Hown Hpipe].
  destruct (hash_rep_item_init _ _ _ x Hh Hx2) as [Hh0 Hfree]. rewrite low_bits. set (key := _ mod _).
  assert (Hk : m !! key = None).
  { destruct (m !! key) as [y|] eqn:E; [|done]. exfalso. destruct (Hown _ _ E) as (q & pb & Hq & Hy).
    destruct (Hpipe q pb Hq) as (y' & k' & d & Hy' & Hk' & Hd & _). assert (y' = y) as -> by congruence.
    apply (Hkey y d key 0 Hd); [by eapply hash_rep_key|lia|]. by rewrite Z.add_0_r. }
  destruct Hroom as [Hv Hmax].
  destruct (nn_hash_insert_ok _ (xr_outpipes s) m key x Hh0 Hk Hfree) as (items & outpipes & E & Hh' & _ & Hl' & _);
    [rewrite (hash_rep_size _ _ _ Hh), Hs; unfold INT_MAX in Hmax; lia|done|].
  rewrite E. mred. rewrite set_data_ok. mred. eexists _, _. split; [done|].
  destruct (started_ok w p (Some x) options Hw Hp (conj Hv Hmax)) as (_ & Hno & _ & Hoff & _).
  split; [by apply fq_add_tracks|]. exists (<[key := x]> m). constructor; cbn.
  - done.
  - done.
  - rewrite !map_size_insert_None by done. by rewrite Hs.
  - intros k y [[<- _]|[_ Hy]]%lookup_insert_Some; [apply Z.mod_pos_bound; lia|by eapply Hr].
  - intros k y [[<- <-]|[_ Hy]]%lookup_insert_Some.
    + eexists p, _. by rewrite lookup_insert_eq.
    + destruct (Hown k y Hy) as (q & pb & Hq & ?). exists q, pb. rewrite lookup_insert_ne; [done|congruence].
  - intros q pb [[<- <-]|[Hne Hq]]%lookup_insert_Some.
    + exists x, key, (XrepData p 0). rewrite !lookup_insert_eq. do 4 (split; [done|]). split; [done|by intros ?%Hno].
    + destruct (Hpipe q pb Hq) as (y & k & d & Hy & Hky & Hd & Hdq & Hflag). exists y, k, d.
      assert (y <> x). { intros ->. rewrite (hash_rep_key _ _ _ _ _ Hh Hky) in Hx2. done. }
      rewrite !lookup_insert_ne by congruence. rewrite <- Hoff by done. done.
Qed.

Lemma xrep_rm_ok s w p pb :
  world_ok w -> xrep_rep s w -> w_pipes w !! p = Some pb ->
  exists s', nn_xrep_rm s w p = Ok (s', w) /\ xrep_rep s' (drop_pipe w p).
Proof.
  intros Hw [Hf [m Hm]] Hp. unfold nn_xrep_rm. destruct (xt_pipe _ _ _ Hm p pb Hp) as (x & k & d & Hx & Hk & Hd & Hdp & _).
  rewrite (pipe_data_ok _ _ _ _ Hp Hx). mred.
  destruct (fq_rm_tracks _ _ _ _ _ Hf Hp Hx) as (fq' & -> & Hf' & _). mred.
  pose proof Hm as [Hh Hl Hs Hr Hown Hpipe]. pose proof (wo_size _ Hw) as Hmax.
  destruct (nn_hash_erase_ok _ _ _ x k Hh Hk) as (items & outpipes & E & Hh' & Hfree & Hi & Hsl & _).
  { rewrite (hash_rep_size _ _ _ Hh), Hs. unfold in_range, INT_MAX in *. lia. }
  pose proof (nn_hash_erase_keys _ _ _ _ _ E) as Hkeys. rewrite E. mred.
  unfold nn_hash_item_term. rewrite list_item_term_spec, list_isinlist_free by done. mred.
  eexists. split; [done|]. split; [done|]. exists (delete k m). constructor; cbn.
  - done.
  - destruct Hl as [Hl|Hl]; [left|right]; rewrite ?Hi, ?Hsl; lia.
  - rewrite !map_size_delete_Some by (by eexists). by rewrite Hs.
  - intros k' y [_ Hy]%lookup_delete_Some. by eapply Hr.
  - intros k' y [Hne Hy]%lookup_delete_Some. destruct (Hown k' y Hy) as (q & pbq & Hq & Hyq). exists q, pbq.
    rewrite lookup_delete_ne; [done|]. intros <-. simplify_eq.
    apply Hne. pose proof (hash_rep_key _ _ _ _ _ Hh Hk). pose proof (hash_rep_key _ _ _ _ _ Hh Hy). congruence.
  - intros q pbq [Hne Hq]%lookup_delete_Some. destruct (Hpipe q pbq Hq) as (y & k' & d' & Hy & Hky & Hd' & Hdq & Hflag).
    assert (y <> x) by (intros ->; by apply Hne, (xrep_data_inj s w m p q pb pbq x Hm)).
    exists y, k', d'. rewrite !lookup_delete_ne by congruence. rewrite <- drop_off_out by done. done.
Qed.

Lemma xrep_in_ok s w p es :
  world_ok w -> xrep_rep s w -> w_events w = (p, NN_PIPE_IN) :: es ->
  exists s', nn_xrep_in s (set_events w es) p = Ok (s', set_events w es) /\ xrep_rep s' (set_events w es).
Proof.
  intros Hw [Hf [m Hm]] He. destruct (pop_in w p es Hw He) as (_ & _ & _ & Hout & pb & Hp).
  destruct (fq_tracks_data _ _ _ _ Hf Hp) as [x Hx]. unfold nn_xrep_in.
  rewrite (pipe_data_ok (set_events w es) p pb x Hp Hx). mred.
  destruct (fq_in_tracks _ _ _ _ _ _ Hw Hf He Hp Hx) as (fq' & -> & Hf' & _). mred.
  eexists. split; [done|]. split; [done|]. exists m. by apply (xrep_table_ext s _ w).
Qed.

(** Writing the OUT flag of one pipe. *)
Lemma xrep_table_flag s w w' m p x flags :
  xrep_table s w m -> (exists pb, w_pipes w !! p = Some pb /\ pb_data pb = Some x) ->
  (forall q, (fun pb => (pb_data pb, pb_options pb)) <$> w_pipes w !! q
             = (fun pb => (pb_data pb, pb_options pb)) <$> w_pipes w' !! q) ->
  (forall q, q <> p -> off_out w q <-> off_out w' q) -> (has_flag flags NN_XREP_OUT = true <-> off_out w' p) ->
  xrep_table (with_data s (<[x := XrepData p flags]> (xr_data s))) w' m.
Proof.
  intros [Hh Hl Hs Hr Hown Hpipe] (pbp & Hp & Hpx) Hd Ho Hf. constructor; cbn; try done.
  - rewrite Hs, <- !size_dom. f_equal. apply set_eq. intros q. rewrite !elem_of_dom. specialize (Hd q).
    destruct (w_pipes w !! q), (w_pipes w' !! q); try done; by split; eexists.
  - intros k y Hk. destruct (Hown k y Hk) as (q & pb & Hq & Hy). specialize (Hd q). rewrite Hq in Hd.
    destruct (w_pipes w' !! q) as [pb'|] eqn:Hq'; [|done]. cbn in Hd. injection Hd as Hd _. exists q, pb'. by rewrite <- Hd.
  - intros q pb' Hq'. specialize (Hd q). rewrite Hq' in Hd. destruct (w_pipes w !! q) as [pb|] eqn:Hq; [|done].
    cbn in Hd. injection Hd as Hd _. destruct (Hpipe q pb Hq) as (y & k & e & Hy & Hk & He & Heq & Hflag).
    rewrite <- Hd. destruct (decide (y = x)) as [->|Hne].
    + exists x, k, (XrepData p flags). rewrite lookup_insert_eq.
      assert (q = p) as ->; [|done]. destruct (Hpipe p pbp Hp) as (y' & _ & e' & Hy' & _ & He' & He'p & _). congruence.
    + exists y, k, e. rewrite lookup_insert_ne by done. do 4 (split; [done|]).
      rewrite <- Ho; [done|]. intros ->. congruence.
Qed.
Lemma xrep_out_ok s w p es :
  world_ok w -> xrep_rep s w -> w_events w = (p, NN_PIPE_OUT) :: es ->
  exists s', nn_xrep_out s (set_events w es) p = Ok (s', set_events w es) /\ xrep_rep s' (set_events w es).
Proof.
  intros Hw [Hf [m Hm]] He. destruct (pop_out w p es Hw He) as (_ & Hyes & Hoff & _ & pb & Hp).
  destruct (xt_pipe _ _ _ Hm p pb Hp) as (x & k & d & Hx & Hk & Hd & Hdp & _). unfold nn_xrep_out.
  rewrite (pipe_data_ok (set_events w es) p pb x Hp Hx). mred. rewrite Hd. mred. rewrite Hdp.
  eexists. split; [done|]. split; [by eapply fq_pop_out_tracks|]. exists m.
  apply (xrep_table_flag s w); [done|by exists pb|done|done|]. split; [done|intros _; apply flag_set].
Qed.

(** The pipe a message is sent to: the writable one with the key its header
    starts with. *)
Definition routed (s : nn_xrep St L) w (m : nn_msg) (p : addr) : Prop :=
  exists key, nn_getl (sphdr m) = Ok key /\ pipe_key s w p = Some key /\ off_out w p.

Definition tail_header (m : nn_msg) : nn_msg := Msg (drop 4 (sphdr m)) (hdrs m) (body m).

Lemma pipe_key_inv s w m p key :
  xrep_table s w m -> pipe_key s w p = Some key ->
  exists pb x d, w_pipes w !! p = Some pb /\ pb_data pb = Some x /\ m !! key = Some x /\ xr_data s !! x = Some d
    /\ xd_pipe d = p /\ (has_flag (xd_flags d) NN_XREP_OUT = true <-> off_out w p).
Proof.
  intros Hm E. unfold pipe_key in E. destruct (w_pipes w !! p) as [pb|] eqn:Hp; [|done]. cbn in E.
  destruct (xt_pipe _ _ _ Hm p pb Hp) as (x & k & d & Hx & Hk & Hd & Hdp & Hflag). rewrite Hx in E. cbn in E.
  rewrite (hash_rep_key _ _ _ _ _ (xt_hash _ _ _ Hm) Hk) in E. injection E as ->. by exists pb, x, d.
Qed.

Lemma pipe_key_unique s w p q key :
  xrep_rep s w -> pipe_key s w p = Some key -> pipe_key s w q = Some key -> p = q.
Proof.
  intros [_ [m Hm]] Hp Hq. destruct (pipe_key_inv s w m p key Hm Hp) as (? & x & d & _ & _ & Hx & Hd & <- & _).
  destruct (pipe_key_inv s w m q key Hm Hq) as (? & y & e & _ & _ & Hy & He & <- & _). congruence.
Qed.

Lemma xrep_send_ok s w msg :
  world_ok w -> xrep_rep s w ->
  (nn_xrep_send s w msg = Ok (s, w, 0) /\ forall p, ~ routed s w msg p) \/
  (exists s' w' p, nn_xrep_send s w msg = Ok (s', w', 0) /\ xrep_rep s' w' /\ routed s w msg p
     /\ sent_one w w' p (tail_header msg) /\ xr_items s' = xr_items s).
Proof.
  intros Hw [Hf [m Hm]]. unfold nn_xrep_send. case_bool_decide as Hlen.
  { left. split; [done|]. intros p (key & E & _). by rewrite nn_getl_none in E. }
  destruct (nn_getl_total (sphdr msg)) as [key Hkey]; [lia|]. rewrite Hkey. mred.
  rewrite (nn_hash_get_ok _ _ _ _ (xt_hash _ _ _ Hm)). mred.
  destruct (m !! key) as [x|] eqn:Hk.
  2:{ left. split; [done|]. intros p (key' & E & Hpk & _). assert (key' = key) as -> by congruence.
      destruct (pipe_key_inv s w m p key Hm Hpk) as (? & ? & ? & _ & _ & ? & _). congruence. }
  destruct (xt_owner _ _ _ Hm key x Hk) as (p & pb & Hp & Hx).
  destruct (xt_pipe _ _ _ Hm p pb Hp) as (x' & k' & d & Hx' & Hk' & Hd & Hdp & Hflag).
  assert (x' = x) as -> by congruence.
  assert (k' = key) as -> by (pose proof (hash_rep_key _ _ _ _ _ (xt_hash _ _ _ Hm) Hk');
    pose proof (hash_rep_key _ _ _ _ _ (xt_hash _ _ _ Hm) Hk); congruence).
  rewrite Hd. mred. destruct (has_flag (xd_flags d) NN_XREP_OUT) eqn:Hfl; cbn [negb].
  2:{ left. split; [done|]. intros q (key' & E & Hqk & Hq). assert (key' = key) as -> by congruence.
      destruct (pipe_key_inv s w m q key Hm Hqk) as (? & x' & d' & _ & _ & ? & ? & _ & Hfl'). simplify_eq.
      apply Hfl' in Hq. congruence. }
  right. rewrite Hdp. assert (Hoff : off_out w p) by (by apply Hflag).
  destruct (pipe_send_one w p (tail_header msg) Hw Hoff) as (w' & rc & E & H0rc & Hrc & Hs & Hoffp).
  unfold tail_header in E. rewrite E. mred. decide_bools. mred.
  assert (Hroute : routed s w msg p) by (exists key; split; [done|]; split; [by eapply xrep_pipe_key|done]).
  eexists _, w', p. split; [reflexivity|]. split; [|split; [exact Hroute|split; [done|by destruct (released rc)]]].
  split; [destruct (released rc); by eapply fq_tracks_sent|]. exists m. destruct (released rc) eqn:Hrel.
  - apply (xrep_table_flag s w); [done|by exists pb|apply Hs|apply Hs|]. unfold NN_XREP_OUT. rewrite flag_cleared.
    split; [done|]. rewrite Hoffp. done.
  - eapply xrep_table_ext; [done..|apply Hs| |done]. intros q. destruct (decide (q = p)) as [->|Hq]; [|by apply Hs].
    by rewrite Hoffp.
Qed.

(** A header that starts with the key of a pipe leads to that pipe. *)
Lemma routed_keyed s w key m p hd payload :
  xrep_rep s w -> 0 <= key < 2 ^ 31 -> pipe_key s w p = Some key ->
  forall q, routed s w (Msg (be_bytes 4 key ++ sphdr m) hd payload) q <-> q = p /\ off_out w p.
Proof.
  intros Hr Hkr Hk q. unfold routed. cbn [sphdr]. rewrite nn_getl_key by lia. split.
  - intros (key' & [= <-] & Hq & Ho). assert (q = p) as ->; [|done]. by eapply (pipe_key_unique s w).
  - intros [-> Ho]. by exists key.
Qed.

(** What a received message becomes before the key of its pipe is put in
    front: nothing, when it is dropped. *)
Definition xrep_accepts (maxttl : Z) (m : nn_msg) (split : option nn_msg) : Prop :=
  (sphdr m = [] /\ xrep_split maxttl m = Ok split) \/ split = Some m.

Definition keyed (key : Z) (m : nn_msg) : nn_msg := Msg (be_bytes 4 key ++ sphdr m) (hdrs m) (body m).

Lemma xrep_recv_ok s w :
  world_ok w -> xrep_rep s w ->
  (nn_xrep_recv s w = Ok (s, w, - EAGAIN, None) /\ nn_fq_can_recv (xr_inpipes s) = false) \/
  (exists s' w' p m split key, xrep_rep s' w' /\ rcvd_one w w' p m /\ xrep_accepts (xr_maxttl s) m split
     /\ pipe_key s w p = Some key /\ 0 <= key < 2 ^ 31 /\ xr_items s' = xr_items s
     /\ nn_xrep_recv s w = Ok (s', w', if split is Some _ then 0 else - EAGAIN, keyed key <$> split)).
Proof.
  intros Hw [Hf [m Hm]]. unfold nn_xrep_recv.
  destruct (nn_fq_recv_tracks w (xr_inpipes s) Hw Hf) as [[-> ?]|(p & fq' & w' & rc & msg & -> & _ & Hrc & Hs & Hf' & _)]; mred.
  { left. by destruct s. }
  right. rewrite (bool_decide_false (rc < 0)) by (unfold NN_PIPE_PARSED in *; lia). mred.
  pose proof (ro_from _ _ _ _ Hs) as (pb & Hp & _).
  destruct (xt_pipe _ _ _ Hm p pb Hp) as (x & key & d & Hx & Hk & _).
  pose proof (xt_range _ _ _ Hm _ _ Hk) as Hrange.
  assert (Hrep : xrep_rep (with_inpipes s fq') w').
  { split; [done|]. exists m. by eapply xrep_table_ext; [..|exact Hm]; try done; apply Hs. }
  assert (Hp' : exists pb', w_pipes w' !! p = Some pb' /\ pb_data pb' = Some x).
  { pose proof (ro_data _ _ _ _ Hs p) as Hd. rewrite Hp in Hd. destruct (w_pipes w' !! p) as [pb'|]; [|done].
    cbn in Hd. injection Hd as Hd _. exists pb'. by rewrite <- Hd. }
  destruct Hp' as (pb' & Hp' & Hx').
  assert (Hsplit : exists split, (if negb (parsed rc) then xrep_split (xr_maxttl s) msg else Ok (Some msg)) = Ok split
            /\ xrep_accepts (xr_maxttl s) msg split).
  { destruct Hrc as [[-> Hh]| ->].
    - change (parsed 0) with false. cbn [negb]. destruct (xrep_split_total (xr_maxttl s) msg Hh) as [r E].
      exists r. split; [done|]. by left.
    - exists (Some msg). split; [done|]. by right. }
  destruct Hsplit as (split & Es & Hacc). cbn [with_inpipes xr_maxttl]. rewrite Es. mred.
  exists (with_inpipes s fq'), w', p, msg, split, key. split; [done|]. split; [done|]. split; [done|].
  split; [by eapply xrep_pipe_key|]. split; [done|]. split; [done|].
  destruct split as [m1|]; [|done]. rewrite (pipe_data_ok _ _ _ _ Hp' Hx'). mred. cbn [with_inpipes xr_items].
  rewrite (hash_rep_key _ _ _ _ _ (xt_hash _ _ _ Hm) Hk). mred. rewrite prepend_key_ok by lia. mred. done.
Qed.

Lemma xrep_init_rep links key maxttl net :
  xrep_rep (nn_xrep_init links key maxttl) (World net ∅ [] (fun _ => 0))
  /\ forall n, Z.of_nat n <= 2 ^ 31 -> xrep_room n (nn_xrep_init links key maxttl).
Proof.
  split; [split; [by apply fq_tracks_init|]|].
  - exists ∅. destruct (nn_hash_init_ok (HItems links ∅)) as [Hh Hl]. by constructor.
  - intros n Hn. split; [done|]. intros x d k i Hx. cbn in Hx. by rewrite lookup_empty in Hx.
Qed.

#[export, program] Instance xrep_spec : SockSpec T (nn_xrep St L) := {| sk_hears := true; sk_sends m := true; sk_takes _ _ := true; sk_room := xrep_room;
  sk_room_le := xrep_room_le; sk_room_step := xrep_step_room; sk_rep := xrep_rep |}.
Next Obligation. intros s w p s' w' rc n E. by apply (xrep_room_add s w p s' w' rc n). Qed.
Next Obligation. apply xrep_rep_view. Qed.
Next Obligation. intros s. cbn. unfold nn_xrep_events. by destruct (nn_fq_can_recv _). Qed.
Next Obligation.
  intros s w p options Hw Hr Hp Hroom Hone. destruct (xrep_add_ok s w p options Hw Hr Hp Hroom Hone) as (s' & d & E & Hr').
  exists s', d, 0. split; [exact E|]. decide_bools. exact Hr'.
Qed.
Next Obligation.
  intros s w p pb Hw Hr Hp _. destruct (xrep_rm_ok s w p pb Hw Hr Hp) as (s' & E & Hr').
  exists s', w. split; [exact E|]. split; [by apply handled_refl|done].
Qed.
Next Obligation.
  intros s w p es _ Hw Hr He. destruct (xrep_in_ok s w p es Hw Hr He) as (s' & E & Hr').
  exists s', (set_events w es). split; [exact E|]. split; [by eapply handled_refl, pop_world_ok|done].
Qed.
Next Obligation.
  intros s w p es Hw Hr He. destruct (xrep_out_ok s w p es Hw Hr He) as (s' & E & Hr').
  exists s', (set_events w es). split; [exact E|]. split; [by eapply handled_refl, pop_world_ok|done].
Qed.
Next Obligation.
  intros s w m _ _ Hw Hr. cbn [sb_send xrep_proto].
  destruct (xrep_send_ok s w m Hw Hr) as [[-> _]|(s' & w' & q & -> & Hr' & _ & Hs & _)].
  - exists s, w, 0. split; [done|]. split; [done|]. split; [by apply handled_refl|done].
  - exists s', w', 0. split; [done|]. split; [done|]. split; [apply Hs|done].
Qed.
Next Obligation.
  intros s w _ _ Hw Hr. cbn [sb_recv xrep_proto].
  destruct (xrep_recv_ok s w Hw Hr) as [[-> _]|(s' & w' & p & m & split & key & Hr' & Hs & _ & _ & _ & _ & ->)].
  - exists s, w, (- EAGAIN), None. split; [done|]. split; [unfold EAGAIN; lia|]. split; [by apply handled_refl|].
    split; [done|]. by split; [|intros [? ?]].
  - eexists s', w', _, _. split; [done|]. split; [destruct split; [done|unfold EAGAIN; lia]|]. split; [apply Hs|]. split; [done|].
    destruct split; split; [by eexists|done|intros [=]|by intros [? [=]]].
Qed.
Next Obligation. done. Qed.
#[export] Instance xrep_takes : SockTakes T (nn_xrep St L).
Proof. by intros s w. Qed.

(** REP: the reply takes the stored header. *)
Definition reply_of (s : nn_rep St L) (m : nn_msg) : nn_msg := Msg (rep_backtrace s) (hdrs m) (body m).
Definition waiting (s : nn_rep St L) : bool := has_flag (rep_flags s) NN_REP_INPROGRESS.

Lemma rep_events_out s : has_out (nn_rep_events s) = waiting s.
Proof. unfold nn_rep_events, nn_xrep_events, waiting. by destruct (nn_fq_can_recv _), (has_flag (rep_flags s) _). Qed.

Lemma rep_send_ok s w m :
  world_ok w -> xrep_rep (rep_xrep s) w -> sphdr m = [] ->
  if waiting s then
    exists s' w', nn_rep_send s w m = Ok (s', w', 0) /\ xrep_rep (rep_xrep s') w' /\ waiting s' = false
      /\ ((w' = w /\ forall p, ~ routed (rep_xrep s) w (reply_of s m) p) \/
          exists p, routed (rep_xrep s) w (reply_of s m) p /\ sent_one w w' p (tail_header (reply_of s m)))
  else nn_rep_send s w m = Ok (s, w, - EFSM).
Proof.
  intros Hw Hr Hh. unfold nn_rep_send, waiting. destruct (has_flag (rep_flags s) NN_REP_INPROGRESS); [|done].
  cbn [negb]. rewrite Hh. mred. decide_bools. mred. fold (reply_of s m).
  destruct (xrep_send_ok (rep_xrep s) w (reply_of s m) Hw Hr) as [[-> Hno]|(s' & w' & p & -> & Hr' & Hroute & Hs & _)]; mred.
  - eexists _, w. split; [done|]. split; [done|]. split; [apply flag_cleared|]. by left.
  - eexists _, w'. split; [done|]. split; [done|]. split; [apply flag_cleared|]. right. by exists p.
Qed.

Lemma rep_recv_ok s w :
  world_ok w -> xrep_rep (rep_xrep s) w ->
  exists s' w' rc r, nn_rep_recv s w = Ok (s', w', rc, r) /\ xrep_rep (rep_xrep s') w' /\
    ((rc = - EAGAIN /\ r = None /\ waiting s' = false /\ handled w w') \/
     (exists p m m1 key, rcvd_one w w' p m /\ xrep_accepts (xr_maxttl (rep_xrep s)) m (Some m1)
        /\ pipe_key (rep_xrep s) w p = Some key /\ 0 <= key < 2 ^ 31 /\ xr_items (rep_xrep s') = xr_items (rep_xrep s)
        /\ rc = 0 /\ r = Some (Msg [] (hdrs m1) (body m1)) /\ waiting s' = true
        /\ rep_backtrace s' = be_bytes 4 key ++ sphdr m1)).
Proof.
  intros Hw Hr. unfold nn_rep_recv. set (flags := if has_flag _ _ then _ else _).
  assert (Hfl : has_flag flags NN_REP_INPROGRESS = false).
  { unfold flags. destruct (has_flag (rep_flags s) NN_REP_INPROGRESS) eqn:E; [apply flag_cleared|done]. }
  destruct (xrep_recv_ok (rep_xrep s) w Hw Hr) as
    [[-> _]|(s' & w' & p & m & split & key & Hr' & Hs & Hacc & Hk & Hkr & Hit & ->)]; mred.
  - eexists _, w, _, _. split; [reflexivity|]. split; [done|]. left. repeat (split; [done|]). by apply handled_refl.
  - destruct split as [m1|]; cbn [fmap option_fmap option_map]; decide_bools; mred.
    + eexists _, w', _, _. split; [reflexivity|]. split; [done|]. right. exists p, m, m1, key.
      do 5 (split; [done|]). split; [done|]. split; [done|]. split; [apply flag_set|done].
    + eexists _, w', _, _. split; [reflexivity|]. split; [done|]. left. repeat (split; [done|]). apply Hs.
Qed.

Lemma rep_step_room (s s' : nn_rep St L) n : proto_step (T := T) s s' -> xrep_room n (rep_xrep s) -> xrep_room n (rep_xrep s').
Proof.
  intros Hs. destruct Hs as [s w p s' w' E|s w p s' w' E|s w p s' w' E|s w m s' w' rc E|s w s' w' rc m E|s w e s' w' E]; cbn in E.
  - apply bind_Ok in E as ([xrep w1] & E & E2). simplify_eq. by eapply xrep_rm_room.
  - apply bind_Ok in E as ([xrep w1] & E & E2). simplify_eq. by eapply xrep_in_room.
  - apply bind_Ok in E as ([xrep w1] & E & E2). simplify_eq. by eapply xrep_out_room.
  - unfold nn_rep_send in E. destruct (negb _); [by simplify_eq|].
    apply bind_Ok in E as (_ & _ & ([[xrep w1] rc1] & E & (_ & _ & E2)%bind_Ok)%bind_Ok). simplify_eq. by eapply xrep_send_room.
  - unfold nn_rep_recv in E. apply bind_Ok in E as ([[[xrep w1] rc1] r] & E & E2).
    pose proof (xrep_recv_room _ _ _ _ _ _ n E) as Hroom. case_bool_decide; [by simplify_eq|].
    apply bind_Ok in E2 as (_ & _ & (msg & _ & E2)%bind_Ok). by simplify_eq.
  - done.
Qed.

#[export, program] Instance rep_spec : SockSpec T (nn_rep St L) := {| sk_hears := true; sk_sends m := bool_decide (sphdr m = []); sk_takes _ _ := true;
  sk_room n s := xrep_room n (rep_xrep s); sk_room_step := rep_step_room; sk_rep s w := xrep_rep (rep_xrep s) w |}.
Next Obligation. intros n s. apply xrep_room_le. Qed.
Next Obligation.
  intros s w p s' w' rc n E. cbn in E. apply bind_Ok in E as ([[xrep w1] rc1] & E & E2). simplify_eq.
  by apply (xrep_room_add _ _ _ _ _ _ _ E).
Qed.
Next Obligation. intros s w w'. apply xrep_rep_view. Qed.
Next Obligation.
  intros s. cbn. unfold nn_rep_events, nn_xrep_events. by destruct (nn_fq_can_recv _), (negb _).
Qed.
Next Obligation.
  intros s w p options Hw Hr Hp Hroom Hone. destruct (xrep_add_ok _ w p options Hw Hr Hp Hroom Hone) as (s' & d & E & Hr').
  cbn [sb_add rep_proto]. rewrite E. mred. eexists _, d, 0. split; [done|]. decide_bools. exact Hr'.
Qed.
Next Obligation.
  intros s w p pb Hw Hr Hp _. destruct (xrep_rm_ok _ w p pb Hw Hr Hp) as (s' & E & Hr').
  cbn [sb_rm rep_proto]. unfold on_xrep. rewrite E. mred. eexists _, w. split; [done|]. split; [by apply handled_refl|done].
Qed.
Next Obligation.
  intros s w p es _ Hw Hr He. destruct (xrep_in_ok _ w p es Hw Hr He) as (s' & E & Hr').
  cbn [sb_in rep_proto]. unfold on_xrep. rewrite E. mred. eexists _, (set_events w es). split; [done|].
  split; [by eapply handled_refl, pop_world_ok|done].
Qed.
Next Obligation.
  intros s w p es Hw Hr He. destruct (xrep_out_ok _ w p es Hw Hr He) as (s' & E & Hr').
  cbn [sb_out rep_proto]. unfold on_xrep. rewrite E. mred. eexists _, (set_events w es). split; [done|].
  split; [by eapply handled_refl, pop_world_ok|done].
Qed.
Next Obligation.
  intros s w m _ Hm%bool_decide_eq_true Hw Hr. cbn [sb_send rep_proto]. pose proof (rep_send_ok s w m Hw Hr Hm) as Hs.
  destruct (waiting s).
  - destruct Hs as (s' & w' & -> & Hr' & _ & Hcase). exists s', w', 0. split; [done|]. split; [done|]. split; [|done].
    destruct Hcase as [[-> _]|(p & _ & Hs)]; [by apply handled_refl|apply Hs].
  - exists s, w, (- EFSM). split; [done|]. split; [unfold EFSM; lia|]. split; [by apply handled_refl|done].
Qed.
Next Obligation.
  intros s w _ _ Hw Hr. cbn [sb_recv rep_proto].
  destruct (rep_recv_ok s w Hw Hr) as (s' & w' & rc & r & -> & Hr' & [(-> & -> & _ & Hh)|(p & m & m1 & key & Hs & _ & _ & _ & _ & -> & -> & _)]).
  - eexists _, w', _, _. split; [done|]. split; [unfold EAGAIN; lia|]. split; [done|]. split; [done|]. by split; [|intros [? ?]].
  - eexists _, w', _, _. split; [done|]. split; [done|]. split; [apply Hs|]. split; [done|]. by split; [eexists|].
Qed.
Next Obligation. done. Qed.
#[export] Instance rep_takes : SockTakes T (nn_rep St L).
Proof. by intros s w. Qed.
End XrepSpec.

(** ** Results *)

(** C20. A session of an XREQ, XREP or REP socket never aborts, whatever its
    transports and its user do, and keeps the socket's invariant - as long as
    an XREP or REP socket gets at most 2^31 connections in its life, so that
    no key is used twice, and the user of a REP socket gives no header of its
    own. *)
Theorem reqrep_session {St L T} `{ListSpec St L} `{TransportSpec T}
    (links : St) (net : T) (key maxttl : Z) (os : list sock_op) :
  (exists (k : nn_sock T (nn_xreq St L)) rs,
     (k ← nn_sock_init (nn_xreq_init links) net; sock_run k os) = Ok (k, rs) /\ sock_inv k) /\
  (Z.of_nat (connects os) <= 2 ^ 31 ->
   (exists (k : nn_sock T (nn_xrep St L)) rs,
     (k ← nn_sock_init (nn_xrep_init links key maxttl) net; sock_run k os) = Ok (k, rs) /\ sock_inv k) /\
   ((forall m, KSend m ∈ os -> sphdr m = []) ->
    exists (k : nn_sock T (nn_rep St L)) rs,
     (k ← nn_sock_init (nn_rep_init links key maxttl) net; sock_run k os) = Ok (k, rs) /\ sock_inv k)).
Proof.
  split; [|intros Hn; split; [|intros Hm]]; apply sock_session_ok.
  - split; [by apply lb_tracks_init|by apply fq_tracks_init].
  - by apply fits_any.
  - by apply xrep_init_rep.
  - constructor; [by left|done|by apply (xrep_init_rep links key maxttl net)].
  - by apply (xrep_init_rep links key maxttl net).
  - constructor; [by left| |by apply (xrep_init_rep links key maxttl net)].
    intros m Hin. apply bool_decide_eq_true. by apply Hm.
Qed.

(** Receiving on an XREP socket splits the message at the bottom of its
    backtrace, the first word with the top bit, and puts the key of the pipe
    it came from in front of that; a message without a bottom, or with more
    than [maxttl] hops, is dropped.  (A transport may also have split it.) *)
Theorem xrep_recv_backtrace {St L T} `{ListSpec St L} `{TransportSpec T} (s : nn_xrep St L) (w : world T) :
  world_ok w -> xrep_rep s w ->
  (nn_xrep_recv s w = Ok (s, w, - EAGAIN, None) /\ forall q, ~ off_in w q) \/
  (exists s' w' p m key r, rcvd_one w w' p m /\ pipe_key s w p = Some key /\ 0 <= key < 2 ^ 31 /\ xrep_rep s' w'
    /\ nn_xrep_recv s w = Ok (s', w', if r is Some _ then 0 else - EAGAIN, keyed key <$> r)
    /\ (r = Some m \/ (sphdr m = [] /\ (bytes_ok (body m) ->
           r = match backtrace_of (body m) with
               | Some (h, b) => if bool_decide (Z.of_nat (length h) <= xr_maxttl s * 4) then Some (Msg h (hdrs m) b) else None
               | None => None end)))).
Proof.
  intros Hw Hr. destruct (xrep_recv_ok s w Hw Hr) as
    [[E Hc]|(s' & w' & p & m & split & key & Hr' & Hs & Hacc & Hk & Hkr & _ & E)]; [left|right].
  { split; [done|]. intros q. eapply fq_can_recv_none; [done|apply Hr|done]. }
  exists s', w', p, m, key, split. do 5 (split; [done|]). destruct Hacc as [[Hh Esplit]|Hp]; [right|by left].
  split; [done|]. intros Hok. rewrite (xrep_split_ok _ _ Hok Hh) in Esplit. by injection Esplit.
Qed.

(** C19. A reply finds its way back: in any later state in which the pipe that
    the request came from still has its key, a message sent with the header
    of that request goes to that pipe, with the header the request had when
    it arrived - or is dropped, when the pipe cannot be written. *)
Theorem xrep_reply_returns {St L T} `{ListSpec St L} `{TransportSpec T} (s s1 : nn_xrep St L) (w w1 : world T)
    (request : nn_msg) :
  world_ok w -> xrep_rep s w -> nn_xrep_recv s w = Ok (s1, w1, 0, Some request) ->
  exists p m h, rcvd_one w w1 p m /\ xrep_accepts (xr_maxttl s) m (Some (Msg h (hdrs request) (body request)))
    /\ forall s2 w2 hd payload, let reply := Msg (sphdr request) hd payload in
       world_ok w2 -> xrep_rep s2 w2 -> pipe_key s2 w2 p = pipe_key s w p ->
       (~ off_out w2 p /\ nn_xrep_send s2 w2 reply = Ok (s2, w2, 0)) \/
       (off_out w2 p /\ exists s3 w3, nn_xrep_send s2 w2 reply = Ok (s3, w3, 0) /\ xrep_rep s3 w3
          /\ sent_one w2 w3 p (Msg h hd payload)).
Proof.
  intros Hw Hr E. destruct (xrep_recv_ok s w Hw Hr) as
    [[E' _]|(s' & w' & p & m & split & key & Hr' & Hs & Hacc & Hk & Hkr & _ & E')]; rewrite E in E'; [done|].
  destruct split as [m1|]; [|done]. cbn in E'. injection E' as -> -> ->. exists p, m, (sphdr m1).
  split; [done|]. split; [by destruct m1|]. intros s2 w2 hd payload reply Hw2 Hr2 Hkeys. rewrite Hk in Hkeys.
  pose proof (routed_keyed s2 w2 key m1 p hd payload Hr2 Hkr Hkeys) as Hroute.
  destruct (xrep_send_ok s2 w2 reply Hw2 Hr2) as [[E2 Hno]|(s3 & w3 & q & E2 & Hr3 & Hq & Hs3 & _)]; [left|right].
  - split; [|done]. intros Ho. by apply (Hno p), Hroute.
  - apply Hroute in Hq as [-> Ho]. split; [done|]. exists s3, w3. split; [done|]. split; [done|]. exact Hs3.
Qed.

(** REP alternates: a request that is received can be answered once; the
    answer goes to the requester with the backtrace of its request (or is
    dropped, when the pipe cannot be written), and the next one is refused
    with [EFSM] until another request is received. *)
Theorem rep_replies_once {St L T} `{ListSpec St L} `{TransportSpec T} (s s1 : nn_rep St L) (w w1 : world T)
    (request m1 m2 : nn_msg) :
  world_ok w -> xrep_rep (rep_xrep s) w -> nn_rep_recv s w = Ok (s1, w1, 0, Some request) -> sphdr m1 = [] ->
  exists p m h s2 w2, rcvd_one w w1 p m /\ xrep_accepts (xr_maxttl (rep_xrep s)) m (Some (Msg h (hdrs request) (body request)))
    /\ has_out (nn_rep_events s1) = true /\ nn_rep_send s1 w1 m1 = Ok (s2, w2, 0)
    /\ (~ off_out w1 p /\ w2 = w1 \/ off_out w1 p /\ sent_one w1 w2 p (Msg h (hdrs m1) (body m1)))
    /\ has_out (nn_rep_events s2) = false /\ nn_rep_send s2 w2 m2 = Ok (s2, w2, - EFSM).
Proof.
  intros Hw Hr E Hm. destruct (rep_recv_ok s w Hw Hr) as (s' & w' & rc & r & E' & Hr' & Hcase).
  rewrite E in E'. injection E' as <- <- <- <-.
  destruct Hcase as [(? & _)|(p & m & m0 & key & Hs & Hacc & Hk & Hkr & Hit & _ & [= ->] & Hwait & Hbt)]; [done|].
  pose proof (hd_ok _ _ (ro_handled _ _ _ _ Hs)) as Hw1.
  pose proof (rep_send_ok s1 w1 m1 Hw1 Hr' Hm) as Hsend. rewrite Hwait in Hsend.
  destruct Hsend as (s2 & w2 & E2 & Hr2 & Hwait2 & Hcase).
  assert (Hk1 : pipe_key (rep_xrep s1) w1 p = Some key).
  { rewrite <- Hk. unfold pipe_key. rewrite Hit. pose proof (ro_data _ _ _ _ Hs p) as Hd.
    destruct (w_pipes w !! p) as [pb|], (w_pipes w1 !! p) as [pb1|]; try done. cbn in Hd. injection Hd as Hd _. cbn. by rewrite Hd. }
  assert (Hreply : reply_of s1 m1 = Msg (be_bytes 4 key ++ sphdr m0) (hdrs m1) (body m1)) by (unfold reply_of; by rewrite Hbt).
  pose proof (routed_keyed (rep_xrep s1) w1 key m0 p (hdrs m1) (body m1) Hr' Hkr Hk1) as Hroute. rewrite <- Hreply in Hroute.
  exists p, m, (sphdr m0), s2, w2. split; [done|]. split; [by destruct m0|].
  split; [by rewrite rep_events_out|]. split; [done|]. split; [|split; [by rewrite rep_events_out|]].
  - destruct Hcase as [[-> Hno]|(q & Hq & Hsent)]; [left|right].
    + split; [|done]. intros Ho. by apply (Hno p), Hroute.
    + apply Hroute in Hq as [-> Ho]. split; [done|]. by rewrite Hreply in Hsent.
  - unfold nn_rep_send. unfold waiting in Hwait2. by rewrite Hwait2.
Qed.

(** Two ways to abort the process.  When a key comes round again while its
    pipe still exists, adding the next pipe fails the assertion of the hash
    table; a user of REP who gives a header to a reply fails that of
    [nn_rep_send]. *)
Theorem reqrep_aborts {St L T} `{ListSpec St L} `{TransportSpec T} (s : nn_xrep St L) (r : nn_rep St L) (w : world T)
    (p q : addr) (options : nn_ep_options) (m : nn_msg) :
  xrep_rep s w -> w_pipes w !! p = None -> room w options ->
  pipe_key s w q = Some (xr_next_key s mod 2 ^ 31) -> waiting r = true -> sphdr m <> [] ->
  nn_xrep_add s (set_pipe w p (starting (nn_pipebase_init options))) p = Err AssertFailed
  /\ nn_rep_send r w m = Err AssertFailed.
Proof.
  intros [Hf [tbl Hm]] Hp Hroom Hq Hwait Hh. split.
  - unfold nn_xrep_add. destruct (pipe_option_ok w p options) as [_ ->]. mred.
    destruct (valid_priorities _ _ Hroom) as [_ Hrcv]. decide_bools. mred.
    set (x := fresh _). assert (Hx : x ∉ dom (pi_data (fq_items (xr_inpipes s))) ∪ dom (hs_keys (xr_items s))) by apply is_fresh.
    apply not_elem_of_union in Hx as [_ Hx2%not_elem_of_dom]. clearbody x.
    destruct (hash_rep_item_init _ _ _ x (xt_hash _ _ _ Hm) Hx2) as [Hh0 _]. rewrite low_bits.
    destruct (pipe_key_inv s w tbl q _ Hm Hq) as (? & y & ? & _ & _ & Hy & _).
    by rewrite (nn_hash_insert_dup _ _ _ _ x y Hh0 Hy).
  - unfold nn_rep_send. unfold waiting in Hwait. rewrite Hwait. cbn [negb].
    destruct (sphdr m); [done|]. cbn [length]. by decide_bools.
Qed.

(** A request through one device, one without a bottom, and one with too many
    hops (the limit is two words). *)
Definition demo_req_net : loop_net := LoopNet [] [] [Msg [] [] [0; 0; 0; 5; 128; 0; 0; 1; 42]; Msg [] [] [1; 2; 3; 4; 5];
  Msg [] [] [0; 0; 0; 1; 0; 0; 0; 2; 128; 0; 0; 1]; Msg [] [] [255; 255; 255; 255]].
Definition demo_rep_ops : list sock_op :=
  [KConnect 5 (demo_opts 2); KConnect 6 (demo_opts 1); KReceived 6; KRecv; KSend (Msg [] [] [7]); KSend (Msg [] [] [8]);
   KRecv; KRecv; KRecv; KSend (Msg [] [] [9])].

Example rep_demo :
  (k ← nn_sock_init (nn_rep_init (L := nn_list) (∅ : store) 2147483647 2) demo_req_net;
   '(k, rs) ← sock_run k demo_rep_ops; Ok (rs, sent (w_net (sk_world k))))
  = Ok ([ONone; ONone; ONone; ORecv 0 (Some (Msg [] [] [42])); OSend 0; OSend (- EFSM); ORecv (- EAGAIN) None;
         ORecv (- EAGAIN) None; ORecv 0 (Some (Msg [] [] [])); OSend 0],
        [(6%positive, Msg [0; 0; 0; 5; 128; 0; 0; 1] [] [7]); (6%positive, Msg [255; 255; 255; 255] [] [9])]).
Proof. vm_compute. reflexivity. Qed.

Lemma demo_rep_ops_sends m : KSend m ∈ demo_rep_ops -> sphdr m = [].
Proof. intros Hm. apply list_elem_of_In in Hm. cbn in Hm. repeat destruct Hm as [Hm|Hm]; by simplify_eq. Qed.

Lemma reqrep_session_witness :
  (exists (k : nn_sock loop_net (nn_xreq store nn_list)) rs,
     (k ← nn_sock_init (nn_xreq_init ∅) demo_req_net; sock_run k demo_rep_ops) = Ok (k, rs) /\ sock_inv k) /\
  (exists (k : nn_sock loop_net (nn_xrep store nn_list)) rs,
     (k ← nn_sock_init (nn_xrep_init ∅ 2147483647 2) demo_req_net; sock_run k demo_rep_ops) = Ok (k, rs) /\ sock_inv k) /\
  exists (k : nn_sock loop_net (nn_rep store nn_list)) rs,
     (k ← nn_sock_init (nn_rep_init ∅ 2147483647 2) demo_req_net; sock_run k demo_rep_ops) = Ok (k, rs) /\ sock_inv k.
Proof.
  destruct (reqrep_session (∅ : store) demo_req_net 2147483647 2 demo_rep_ops) as [Hx Hr].
  split; [exact Hx|]. destruct Hr as [Hr1 Hr2]; [vm_compute; discriminate|]. split; [exact Hr1|].
  apply Hr2. exact demo_rep_ops_sends.
Defined.

Definition xrep_session := session_state (nn_xrep_init (L := nn_list) (∅ : store) 2147483647 2) demo_req_net (take 3 demo_rep_ops).

Lemma xrep_session_ok : exists k, xrep_session = Ok k /\ sock_inv k.
Proof.
  destruct (xrep_init_rep (L := nn_list) (∅ : store) 2147483647 2 demo_req_net) as [Hr Hroom].
  apply session_state_ok; [exact Hr|]. constructor; [by left|done|]. apply Hroom. vm_compute. discriminate.
Qed.

Lemma xrep_recv_backtrace_witness :
  exists k : nn_sock loop_net (nn_xrep store nn_list), xrep_session = Ok k /\
  ((nn_xrep_recv (sk_base k) (sk_world k) = Ok (sk_base k, sk_world k, - EAGAIN, None) /\ forall q, ~ off_in (sk_world k) q) \/
  (exists s' w' p m key r, rcvd_one (sk_world k) w' p m /\ pipe_key (sk_base k) (sk_world k) p = Some key /\ 0 <= key < 2 ^ 31
    /\ xrep_rep s' w'
    /\ nn_xrep_recv (sk_base k) (sk_world k) = Ok (s', w', if r is Some _ then 0 else - EAGAIN, keyed key <$> r)
    /\ (r = Some m \/ (sphdr m = [] /\ (bytes_ok (body m) ->
           r = match backtrace_of (body m) with
               | Some (h, b) => if bool_decide (Z.of_nat (length h) <= xr_maxttl (sk_base k) * 4) then Some (Msg h (hdrs m) b) else None
               | None => None end))))).
Proof.
  destruct xrep_session_ok as (k & E & Hk). exists k. split; [exact E|].
  apply xrep_recv_backtrace; [apply Hk|apply (si_rep _ Hk)].
Defined.

(** The state after the first request was received. *)
Definition xrep_received (k : nn_sock loop_net (nn_xrep store nn_list)) : result (nn_xrep store nn_list * world loop_net * nn_msg) :=
  '(s, w, _, r) ← nn_xrep_recv (sk_base k) (sk_world k); m ← deref r; Ok (s, w, m).

Lemma xrep_reply_returns_witness :
  exists k s1 w1 request, xrep_session = Ok k /\ xrep_received k = Ok (s1, w1, request)
    /\ request = Msg [0; 0; 0; 0; 0; 0; 0; 5; 128; 0; 0; 1] [] [42] /\
  exists p m h, rcvd_one (sk_world k) w1 p m
    /\ xrep_accepts (xr_maxttl (sk_base k)) m (Some (Msg h (hdrs request) (body request)))
    /\ forall s2 w2 hd payload, let reply := Msg (sphdr request) hd payload in
       world_ok w2 -> xrep_rep s2 w2 -> pipe_key s2 w2 p = pipe_key (sk_base k) (sk_world k) p ->
       (~ off_out w2 p /\ nn_xrep_send s2 w2 reply = Ok (s2, w2, 0)) \/
       (off_out w2 p /\ exists s3 w3, nn_xrep_send s2 w2 reply = Ok (s3, w3, 0) /\ xrep_rep s3 w3
          /\ sent_one w2 w3 p (Msg h hd payload)).
Proof.
  destruct xrep_session_ok as (k & E & Hk). pose proof (si_world _ Hk) as Hw. pose proof (si_rep _ Hk) as Hr.
  assert (E1 : exists s1 w1, nn_xrep_recv (sk_base k) (sk_world k)
    = Ok (s1, w1, 0, Some (Msg [0; 0; 0; 0; 0; 0; 0; 5; 128; 0; 0; 1] [] [42]))).
  { vm_compute in E. injection E as Ek. rewrite <- Ek. eexists _, _. vm_compute. reflexivity. }
  destruct E1 as (s1 & w1 & E1). exists k, s1, w1, (Msg [0; 0; 0; 0; 0; 0; 0; 5; 128; 0; 0; 1] [] [42]).
  split; [exact E|]. split; [unfold xrep_received; by rewrite E1|]. split; [reflexivity|].
  apply (xrep_reply_returns (sk_base k) s1 (sk_world k) w1); [exact Hw|exact Hr|exact E1].
Defined.

Definition rep_session := session_state (nn_rep_init (L := nn_list) (∅ : store) 2147483647 2) demo_req_net (take 3 demo_rep_ops).

Lemma rep_session_ok : exists k, rep_session = Ok k /\ sock_inv k.
Proof.
  destruct (xrep_init_rep (L := nn_list) (∅ : store) 2147483647 2 demo_req_net) as [Hr Hroom].
  apply session_state_ok; [exact Hr|]. constructor; [by left| |apply Hroom; vm_compute; discriminate].
  intros m Hm. apply bool_decide_eq_true, demo_rep_ops_sends. set_solver.
Qed.

Lemma rep_replies_once_witness :
  exists (k : nn_sock loop_net (nn_rep store nn_list)) s1 w1, rep_session = Ok k
    /\ nn_rep_recv (sk_base k) (sk_world k) = Ok (s1, w1, 0, Some (Msg [] [] [42])) /\
  exists p m h s2 w2, rcvd_one (sk_world k) w1 p m
    /\ xrep_accepts (xr_maxttl (rep_xrep (sk_base k))) m (Some (Msg h [] [42]))
    /\ has_out (nn_rep_events s1) = true /\ nn_rep_send s1 w1 (Msg [] [] [7]) = Ok (s2, w2, 0)
    /\ (~ off_out w1 p /\ w2 = w1 \/ off_out w1 p /\ sent_one w1 w2 p (Msg h [] [7]))
    /\ has_out (nn_rep_events s2) = false /\ nn_rep_send s2 w2 (Msg [] [] [8]) = Ok (s2, w2, - EFSM).
Proof.
  destruct rep_session_ok as (k & E & Hk). pose proof (si_world _ Hk) as Hw. pose proof (si_rep _ Hk) as Hr.
  assert (E1 : exists s1 w1, nn_rep_recv (sk_base k) (sk_world k) = Ok (s1, w1, 0, Some (Msg [] [] [42]))).
  { vm_compute in E. injection E as Ek. rewrite <- Ek. eexists _, _. vm_compute. reflexivity. }
  destruct E1 as (s1 & w1 & E1). exists k, s1, w1. split; [exact E|]. split; [exact E1|].
  apply (rep_replies_once (sk_base k) s1 (sk_world k) w1 (Msg [] [] [42]) (Msg [] [] [7]) (Msg [] [] [8])); [exact Hw|exact Hr|exact E1|reflexivity].
Defined.

(** The counter of a socket that already had 2^31 connections. *)
Definition wrapped (s : nn_xrep store nn_list) : nn_xrep store nn_list :=
  Xrep 2147483647 (xr_items s) (xr_outpipes s) (xr_inpipes s) (xr_data s) (xr_maxttl s).

Lemma reqrep_aborts_witness :
  exists k : nn_sock loop_net (nn_xrep store nn_list), xrep_session = Ok k /\
  nn_xrep_add (wrapped (sk_base k)) (set_pipe (sk_world k) 9 (starting (nn_pipebase_init (demo_opts 1)))) 9 = Err AssertFailed
  /\ nn_rep_send (Rep (wrapped (sk_base k)) 1 []) (sk_world k) (Msg [1] [] []) = Err AssertFailed.
Proof.
  destruct xrep_session_ok as (k & E & Hk). exists k. split; [exact E|].
  pose proof (si_rep _ Hk) as [Hf [tbl Hm]]. vm_compute in E. injection E as Ek.
  apply (reqrep_aborts (wrapped (sk_base k)) (Rep (wrapped (sk_base k)) 1 []) (sk_world k) 9 5 (demo_opts 1) (Msg [1] [] [])).
  - split; [exact Hf|]. exists tbl. by apply (xrep_table_ext (sk_base k) _ (sk_world k)).
  - rewrite <- Ek. vm_compute. reflexivity.
  - rewrite <- Ek. split; vm_compute; reflexivity.
  - rewrite <- Ek. vm_compute. reflexivity.
  - reflexivity.
  - discriminate.
Defined.
