(* ===== verification/Req.v ===== *)
(** * The REQ socket ([protocols/reqrep/req.c], [task.c])

    REQ sends one request at a time over an XREQ socket, tagged with an ID,
    re-sends it when no reply came in time or when the pipe it went to is
    closed, and gives the user the reply with the same ID.  The ten actions and
    events drive a state machine, [nn_req_handler]; [nn_timer] measures the
    re-send interval.

    The object [task.reply] is terminated when a message is dropped.  The user
    may be given it all the same, and [nn_req_term] terminates it once more:
    each time its chunks, which other messages may own by then, are used after
    they were released.  Using a terminated object is [Err BadAccess] here,
    see [req_reply_overwritten] and [req_stops]. *)

From S2P Require Import Prelude NNList NNFamily Priolist Wire Timer Pipe Sock Balance Members Pipeline Reqrep.
Local Open Scope Z_scope.

Definition NN_REQ : Z := 3 * 16 + 0.
Definition NN_REQ_RESEND_IVL : Z := 1.
Definition NN_REQ_DEFAULT_RESEND_IVL : Z := 60000.

Inductive req_state :=
  | NN_REQ_STATE_IDLE | NN_REQ_STATE_PASSIVE | NN_REQ_STATE_DELAYED | NN_REQ_STATE_ACTIVE | NN_REQ_STATE_TIMED_OUT
  | NN_REQ_STATE_CANCELLING | NN_REQ_STATE_STOPPING_TIMER | NN_REQ_STATE_DONE | NN_REQ_STATE_STOPPING.
#[export] Instance req_state_eq_dec : EqDecision req_state.
Proof. solve_decision. Defined.

Definition NN_REQ_ACTION_START : Z := 1.
Definition NN_REQ_ACTION_IN : Z := 2.
Definition NN_REQ_ACTION_OUT : Z := 3.
Definition NN_REQ_ACTION_SENT : Z := 4.
Definition NN_REQ_ACTION_RECEIVED : Z := 5.
Definition NN_REQ_ACTION_PIPE_RM : Z := 6.
Definition NN_REQ_SRC_RESEND_TIMER : Z := 1.

(** An [int] in memory (little-endian, two's complement). *)
Definition int_of_bytes (b : bytes) : Z :=
  let v := be_val 0 (reverse b) in if bool_decide (v < 2 ^ 31) then v else v - 2 ^ 32.
Definition bytes_of_int (v : Z) : bytes := reverse (be_bytes 4 (u32 v)).

(** The message of an object that is used: it must not be terminated. *)
Definition use_msg (o : msg_object) : result nn_msg := match o with Live m => Ok m | Dead _ => Err BadAccess end.

Record nn_task := Task {
  tk_id : Z;
  tk_request : nn_msg;
  tk_reply : msg_object;
  tk_timer : nn_timer;
  tk_sent_to : option addr
}.

Definition empty_msg : nn_msg := Msg [] [] [].

Definition nn_task_init (self : nn_task) (id : Z) : nn_task :=
  Task id (tk_request self) (tk_reply self) (tk_timer self) (tk_sent_to self).

Section Req.
  Context {St L T : Type} `{ListOps St L} `{Transport T}.
  Implicit Types (w : world T).

(** [rq_stopped]: [nn_sockbase_stopped] was called. *)
Record nn_req := Req {
  rq_xreq : nn_xreq St L;
  rq_fsm : nn_fsm;
  rq_state : req_state;
  rq_lastid : Z;
  rq_resend_ivl : Z;
  rq_task : nn_task;
  rq_stopped : bool
}.

Definition with_state (self : nn_req) (st : req_state) : nn_req :=
  Req (rq_xreq self) (rq_fsm self) st (rq_lastid self) (rq_resend_ivl self) (rq_task self) (rq_stopped self).
Definition with_task (self : nn_req) (t : nn_task) : nn_req :=
  Req (rq_xreq self) (rq_fsm self) (rq_state self) (rq_lastid self) (rq_resend_ivl self) t (rq_stopped self).
Definition with_xreq (self : nn_req) (x : nn_xreq St L) : nn_req :=
  Req x (rq_fsm self) (rq_state self) (rq_lastid self) (rq_resend_ivl self) (rq_task self) (rq_stopped self).
Definition with_fsm (self : nn_req) (f : nn_fsm) : nn_req :=
  Req (rq_xreq self) f (rq_state self) (rq_lastid self) (rq_resend_ivl self) (rq_task self) (rq_stopped self).
Definition with_timer (self : nn_req) (tm : nn_timer) : nn_req :=
  with_task self (Task (tk_id (rq_task self)) (tk_request (rq_task self)) (tk_reply (rq_task self)) tm (tk_sent_to (rq_task self))).
Definition with_reply (self : nn_req) (r : msg_object) : nn_req :=
  with_task self (Task (tk_id (rq_task self)) (tk_request (rq_task self)) r (tk_timer (rq_task self)) (tk_sent_to (rq_task self))).
Definition with_sent_to (self : nn_req) (to : option addr) : nn_req :=
  with_task self (Task (tk_id (rq_task self)) (tk_request (rq_task self)) (tk_reply (rq_task self)) (tk_timer (rq_task self)) to).

Definition nn_req_inprogress (self : nn_req) : bool :=
  match rq_state self with
  | NN_REQ_STATE_IDLE | NN_REQ_STATE_PASSIVE | NN_REQ_STATE_STOPPING => false
  | _ => true
  end.

Definition nn_req_action_send (self : nn_req) w (allow_delay : bool) : result (nn_req * world T) :=
  '(xreq, w, rc, to) ← nn_xreq_send_to (rq_xreq self) w (tk_request (rq_task self));
  let self := with_xreq self xreq in
  if bool_decide (rc = - EAGAIN) then
    _ ← assert_ allow_delay;
    Ok (with_state self NN_REQ_STATE_DELAYED, w)
  else if bool_decide (rc = 0) then
    timer ← nn_timer_start (tk_timer (rq_task self)) (rq_resend_ivl self);
    _ ← assert_ (bool_decide (is_Some to));
    Ok (with_state (with_sent_to (with_timer self timer) to) NN_REQ_STATE_ACTIVE, w)
  else Err AssertFailed.

(** Stopping the timer, as three actions of ACTIVE do. *)
Definition stop_timer (self : nn_req) w (st : req_state) : result (nn_req * world T) :=
  timer ← nn_timer_stop (tk_timer (rq_task self));
  Ok (with_state (with_sent_to (with_timer self timer) None) st, w).

(** Whether an event is the given action, or the given event of the timer. *)
Definition is_action (src type a : Z) : bool := bool_decide (src = NN_FSM_ACTION) && bool_decide (type = a).
Definition is_timer (src type t : Z) : bool := bool_decide (src = NN_REQ_SRC_RESEND_TIMER) && bool_decide (type = t).

(** The states of the handler. *)
Definition req_idle (self : nn_req) w (src type : Z) : result (nn_req * world T) :=
  if is_action src type NN_FSM_START then Ok (with_state self NN_REQ_STATE_PASSIVE, w) else Err AssertFailed.
Definition req_passive (self : nn_req) w (src type : Z) : result (nn_req * world T) :=
  if is_action src type NN_REQ_ACTION_SENT then nn_req_action_send self w true else Err AssertFailed.
Definition req_delayed (self : nn_req) w (src type : Z) : result (nn_req * world T) :=
  if is_action src type NN_REQ_ACTION_OUT then nn_req_action_send self w false
  else if is_action src type NN_REQ_ACTION_SENT then Ok (self, w) else Err AssertFailed.
Definition req_active (self : nn_req) w (src type : Z) : result (nn_req * world T) :=
  if is_action src type NN_REQ_ACTION_IN then stop_timer self w NN_REQ_STATE_STOPPING_TIMER
  else if is_action src type NN_REQ_ACTION_SENT then stop_timer self w NN_REQ_STATE_CANCELLING
  else if is_action src type NN_REQ_ACTION_PIPE_RM then stop_timer self w NN_REQ_STATE_TIMED_OUT
  else if is_timer src type NN_TIMER_TIMEOUT then stop_timer self w NN_REQ_STATE_TIMED_OUT
  else Err AssertFailed.
Definition req_timed_out (self : nn_req) w (src type : Z) : result (nn_req * world T) :=
  if is_timer src type NN_TIMER_STOPPED then nn_req_action_send self w true
  else if is_action src type NN_REQ_ACTION_SENT then Ok (with_state self NN_REQ_STATE_CANCELLING, w) else Err AssertFailed.
Definition req_cancelling (self : nn_req) w (src type : Z) : result (nn_req * world T) :=
  if is_timer src type NN_TIMER_STOPPED then nn_req_action_send self w true
  else if is_action src type NN_REQ_ACTION_SENT then Ok (self, w) else Err AssertFailed.
Definition req_stopping_timer (self : nn_req) w (src type : Z) : result (nn_req * world T) :=
  if is_timer src type NN_TIMER_STOPPED then Ok (with_state self NN_REQ_STATE_DONE, w)
  else if is_action src type NN_REQ_ACTION_SENT then Ok (with_state self NN_REQ_STATE_CANCELLING, w) else Err AssertFailed.
Definition req_done (self : nn_req) w (src type : Z) : result (nn_req * world T) :=
  if is_action src type NN_REQ_ACTION_RECEIVED then Ok (with_state self NN_REQ_STATE_PASSIVE, w)
  else if is_action src type NN_REQ_ACTION_SENT then nn_req_action_send self w true else Err AssertFailed.

Definition nn_req_handler (self : nn_req * world T) (src type : Z) (ptr : srcptr) : result (nn_req * world T) :=
  let '(self, w) := self in
  match rq_state self with
  | NN_REQ_STATE_IDLE => req_idle self w src type
  | NN_REQ_STATE_PASSIVE => req_passive self w src type
  | NN_REQ_STATE_DELAYED => req_delayed self w src type
  | NN_REQ_STATE_ACTIVE => req_active self w src type
  | NN_REQ_STATE_TIMED_OUT => req_timed_out self w src type
  | NN_REQ_STATE_CANCELLING => req_cancelling self w src type
  | NN_REQ_STATE_STOPPING_TIMER => req_stopping_timer self w src type
  | NN_REQ_STATE_DONE => req_done self w src type
  | NN_REQ_STATE_STOPPING => Err AssertFailed
  end.

Definition nn_req_shutdown (self : nn_req * world T) (src type : Z) (ptr : srcptr) : result (nn_req * world T) :=
  let '(self, w) := self in
  self ← (if bool_decide (src = NN_FSM_ACTION) && bool_decide (type = NN_FSM_STOP) then
            timer ← nn_timer_stop (tk_timer (rq_task self));
            Ok (with_state (with_timer self timer) NN_REQ_STATE_STOPPING)
          else Ok self);
  if bool_decide (rq_state self = NN_REQ_STATE_STOPPING) then
    if negb (nn_timer_isidle (tk_timer (rq_task self))) then Ok (self, w)
    else
      fsm ← nn_fsm_stopped_noevent (rq_fsm self);
      Ok (Req (rq_xreq self) fsm NN_REQ_STATE_IDLE (rq_lastid self) (rq_resend_ivl self) (rq_task self) true, w)
  else Err AssertFailed.

#[export] Instance req_machine : Machine (nn_req * world T) := {|
  m_fsm s := rq_fsm s.1;
  m_set_fsm s fsm := (with_fsm s.1 fsm, s.2);
  m_fn := nn_req_handler;
  m_shutdown_fn := nn_req_shutdown
|}.

(** [key]: the random number. *)
Definition nn_req_init (s : St) (key : Z) w : result (nn_req * world T) :=
  nn_fsm_start (Req (nn_xreq_init s) nn_fsm_init NN_REQ_STATE_IDLE key NN_REQ_DEFAULT_RESEND_IVL
    (nn_task_init (Task 0 empty_msg (Live empty_msg) nn_timer_init None) key) false, w).

Definition nn_req_term (self : nn_req) : result unit :=
  _ ← nn_timer_term (tk_timer (rq_task self));
  _ ← use_msg (tk_reply (rq_task self));   (** [nn_msg_term (&self->task.reply)] *)
  _ ← use_msg (Live (tk_request (rq_task self)));
  _ ← nn_fsm_term (rq_fsm self);
  nn_xreq_term (rq_xreq self).

Definition nn_req_stop (self : nn_req) w : result (nn_req * world T) := nn_fsm_stop (self, w).

(** The loop of [nn_req_in]. *)
Fixpoint req_in_loop (fuel : nat) (self : nn_req) w : result (nn_req * world T) :=
  match fuel with
  | O => Err NoFuel
  | S fuel =>
      '(xreq, w, rc, reply) ← nn_xreq_recv (rq_xreq self) w (tk_reply (rq_task self));
      let self := with_reply (with_xreq self xreq) reply in
      if bool_decide (rc = - EAGAIN) then Ok (self, w)
      else
        _ ← assert_ (bool_decide (rc = 0));
        match reply with
        | Dead _ => Err BadAccess
        | Live m =>
            if negb (nn_req_inprogress self) then req_in_loop fuel (with_reply self (Dead m)) w
            else if negb (bool_decide (length (sphdr m) = 4%nat)) then req_in_loop fuel (with_reply self (Dead m)) w
            else
              reqid ← nn_getl (sphdr m);
              if negb (has_flag reqid 0x80000000) then req_in_loop fuel (with_reply self (Dead m)) w
              else if negb (bool_decide (reqid = Z.lor (tk_id (rq_task self)) 0x80000000)) then
                req_in_loop fuel (with_reply self (Dead m)) w
              else
                let self := with_reply self (Live (Msg [] (hdrs m) (body m))) in
                if bool_decide (rq_state self = NN_REQ_STATE_ACTIVE) then nn_fsm_action (self, w) NN_REQ_ACTION_IN
                else Ok (self, w)
        end
  end.

Definition nn_req_in (self : nn_req) w (pipe : addr) : result (nn_req * world T) :=
  '(xreq, w) ← nn_xreq_in (rq_xreq self) w pipe;
  req_in_loop (recv_fuel w) (with_xreq self xreq) w.

Definition nn_req_out (self : nn_req) w (pipe : addr) : result (nn_req * world T) :=
  '(xreq, w) ← nn_xreq_out (rq_xreq self) w pipe;
  let self := with_xreq self xreq in
  if bool_decide (rq_state self = NN_REQ_STATE_DELAYED) then nn_fsm_action (self, w) NN_REQ_ACTION_OUT
  else Ok (self, w).

Definition nn_req_events (self : nn_req) : Z :=
  let rc := NN_SOCKBASE_EVENT_OUT in
  if bool_decide (rq_state self = NN_REQ_STATE_DONE) then Z.lor rc NN_SOCKBASE_EVENT_IN else rc.

Definition nn_req_csend (self : nn_req) w (msg : nn_msg) : result (nn_req * world T * Z) :=
  let t := rq_task self in
  let id := u32 (tk_id t + 1) in
  _ ← assert_ (bool_decide (length (sphdr msg) = 0%nat));
  hdr ← nn_putl (replicate 4 0) (Z.lor id 0x80000000);
  let msg := Msg hdr (hdrs msg) (body msg) in
  let self := with_task self (Task id msg (tk_reply t) (tk_timer t) (tk_sent_to t)) in
  '(self, w) ← nn_fsm_action (self, w) NN_REQ_ACTION_SENT;
  Ok (self, w, 0).

Definition nn_req_crecv (self : nn_req) w : result (nn_req * world T * Z * option nn_msg) :=
  if negb (nn_req_inprogress self) then Ok (self, w, - EFSM, None)
  else if negb (bool_decide (rq_state self = NN_REQ_STATE_DONE)) then Ok (self, w, - EAGAIN, None)
  else
    msg ← use_msg (tk_reply (rq_task self));
    let self := with_reply self (Live empty_msg) in
    '(self, w) ← nn_fsm_action (self, w) NN_REQ_ACTION_RECEIVED;
    Ok (self, w, 0, Some msg).

Definition nn_req_rm (self : nn_req) w (pipe : addr) : result (nn_req * world T) :=
  '(xreq, w) ← nn_xreq_rm (rq_xreq self) w pipe;
  let self := with_xreq self xreq in
  if bool_decide (tk_sent_to (rq_task self) = Some pipe) then nn_fsm_action (self, w) NN_REQ_ACTION_PIPE_RM
  else Ok (self, w).

Definition nn_req_setopt (self : nn_req) (level option : Z) (optval : bytes) : nn_req * Z :=
  if negb (bool_decide (level = NN_REQ)) then (self, - ENOPROTOOPT)
  else if bool_decide (option = NN_REQ_RESEND_IVL) then
    if negb (bool_decide (length optval = 4%nat)) then (self, - EINVAL)
    else (Req (rq_xreq self) (rq_fsm self) (rq_state self) (rq_lastid self) (int_of_bytes optval) (rq_task self) (rq_stopped self), 0)
  else (self, - ENOPROTOOPT).

(** The value, for a buffer of [optvallen] bytes. *)
Definition nn_req_getopt (self : nn_req) (level option : Z) (optvallen : nat) : Z * bytes :=
  if negb (bool_decide (level = NN_REQ)) then (- ENOPROTOOPT, [])
  else if bool_decide (option = NN_REQ_RESEND_IVL) then
    if bool_decide (optvallen < 4)%nat then (- EINVAL, []) else (0, bytes_of_int (rq_resend_ivl self))
  else (- ENOPROTOOPT, []).

(** What the timer tells its owner when the worker thread does something. *)
Definition req_worker (self : nn_req) w (e : worker_event) : result (nn_req * world T) :=
  '(timer, told) ← worker_step (tk_timer (rq_task self)) e;
  let self := with_timer self timer in
  match told with
  | None => Ok (self, w)
  | Some type => nn_fsm_feed (self, w) NN_REQ_SRC_RESEND_TIMER type PtrTimer
  end.

#[export] Instance req_proto : SockProto T nn_req := {|
  sb_nosend := false;
  sb_norecv := false;
  sb_add s w p := '(xreq, w, rc) ← nn_xreq_add (rq_xreq s) w p; Ok (with_xreq s xreq, w, rc);
  sb_rm := nn_req_rm;
  sb_in := nn_req_in;
  sb_out := nn_req_out;
  sb_events := nn_req_events;
  sb_send := nn_req_csend;
  sb_recv := nn_req_crecv;
  sb_pending s e := worker_pending (tk_timer (rq_task s)) e;
  sb_worker := req_worker
|}.

End Req.
Arguments nn_req : clear implicits.

(** Runs the handler in a known state. *)
Ltac run_handler :=
  unfold nn_req_handler, req_idle, req_passive, req_delayed, req_active, req_timed_out, req_cancelling, req_stopping_timer, req_done,
    is_action, is_timer.

(** ** What holds between two events

    The timer runs only while a request waits for its reply at a pipe,
    [tk_sent_to], which is still connected; it is being stopped in the three
    states that wait for that, and idle otherwise.  Whenever there is a request
    it carries the current ID. *)
Definition id_header (id : Z) : bytes := be_bytes 4 (Z.lor id 0x80000000).

Definition bottom_id (id reqid : Z) : Prop := has_flag reqid 0x80000000 = true /\ reqid = Z.lor id 0x80000000.

(** The reply to the request [id]: its header is that word. *)
Definition answers (id : Z) (m : nn_msg) : bool :=
  bool_decide (length (sphdr m) = 4%nat) &&
  match nn_getl (sphdr m) with
  | Ok reqid => has_flag reqid 0x80000000 && bool_decide (reqid = Z.lor id 0x80000000)
  | Err _ => false
  end.

Section ReqSpec.
  Context {St L T : Type} `{ListSpec St L} `{TransportSpec T}.
  Implicit Types (w : world T) (p : addr) (s : nn_req St L).

Definition connected w (p : addr) : Prop := is_Some (w_pipes w !! p).

Definition stage_ok s w : Prop :=
  match rq_state s with
  | NN_REQ_STATE_PASSIVE | NN_REQ_STATE_DELAYED | NN_REQ_STATE_DONE =>
      timer_rep (tk_timer (rq_task s)) PIdle /\ tk_sent_to (rq_task s) = None
  | NN_REQ_STATE_ACTIVE =>
      timer_rep (tk_timer (rq_task s)) (PActive false) /\ exists p, tk_sent_to (rq_task s) = Some p /\ connected w p
  | NN_REQ_STATE_TIMED_OUT | NN_REQ_STATE_CANCELLING | NN_REQ_STATE_STOPPING_TIMER =>
      timer_rep (tk_timer (rq_task s)) PStopping /\ tk_sent_to (rq_task s) = None
  | NN_REQ_STATE_IDLE | NN_REQ_STATE_STOPPING => False
  end.

(** The part that does not depend on the state. *)
Record req_base s w : Prop := {
  rb_xreq : xreq_rep (rq_xreq s) w;
  rb_fsm : rq_fsm s = Fsm NN_FSM_STATE_ACTIVE None;
  rb_ivl : 0 <= rq_resend_ivl s;
  rb_id : in_range 32 (tk_id (rq_task s))
}.

Definition request_ok s : Prop :=
  rq_state s = NN_REQ_STATE_PASSIVE \/ sphdr (tk_request (rq_task s)) = id_header (tk_id (rq_task s)).

Record req_rep s w : Prop := {
  rr_base : req_base s w;
  rr_stage : stage_ok s w;
  rr_request : request_ok s
}.

Lemma req_feed_active s w src type ptr :
  rq_fsm s = Fsm NN_FSM_STATE_ACTIVE None -> nn_fsm_feed (s, w) src type ptr = nn_req_handler (s, w) src type ptr.
Proof. intros E. unfold nn_fsm_feed. cbn [m_fsm req_machine fst]. rewrite E. by decide_bools. Qed.

Lemma req_action_active s w type :
  rq_fsm s = Fsm NN_FSM_STATE_ACTIVE None -> 0 < type ->
  nn_fsm_action (s, w) type = nn_req_handler (s, w) NN_FSM_ACTION type NoPtr.
Proof. intros E Ht. unfold nn_fsm_action. decide_bools. mred. by apply req_feed_active. Qed.

Lemma connected_dom w w' p : dom (w_pipes w') = dom (w_pipes w) -> connected w p -> connected w' p.
Proof. unfold connected. rewrite <- !elem_of_dom. by intros ->. Qed.

Lemma req_rep_view s w w' : view_eq w w' -> req_rep s w -> req_rep s w'.
Proof.
  intros Hv [[Hx Hf Hi Hid] Hst Hrq]. constructor; [constructor; try done| |done].
  - destruct Hv as (Hd & Hin & Hout), Hx as [Hl Hq]. split; [by eapply lb_tracks_view|by eapply fq_tracks_view].
  - unfold stage_ok in *. destruct (rq_state s); try done. destruct Hst as (Ht & p & Hs & Hp). split; [done|].
    exists p. split; [done|]. destruct Hv as [Hd _]. specialize (Hd p). unfold connected in *.
    destruct (w_pipes w !! p); [|by destruct Hp]. destruct (w_pipes w' !! p); [by eexists|done].
Qed.

(** ** Sending the request *)

(** It goes to a writable pipe, and the timer starts; with none, it waits. *)
Definition requested s w s' w' : Prop :=
  (nn_lb_can_send (xreq_lb (rq_xreq s)) = false /\ s' = with_state s NN_REQ_STATE_DELAYED /\ w' = w) \/
  (exists q x tm, xreq_rep x w' /\ sent_one w w' q (tk_request (rq_task s)) /\ timer_rep tm (PActive false)
     /\ connected w' q
     /\ s' = with_state (with_sent_to (with_timer (with_xreq s x) tm) (Some q)) NN_REQ_STATE_ACTIVE).

Lemma lb_can_send_none w (lb : nn_lb St L) q : world_ok w -> lb_tracks w lb -> nn_lb_can_send lb = false -> ~ off_out w q.
Proof.
  intros Hw [a Ha] Hc Hq. pose proof (nn_lb_send_ok w lb empty_msg a Hw Ha) as Hs.
  pose proof (tracks_out _ _ _ _ _ _ Ha) as Ho.
  destruct (aprio_out a).1; [destruct Hs as (? & ? & _ & ? & _); congruence|].
  pose proof Hq as (pb & Hp & _). by eapply Ho.
Qed.

Lemma sent_one_connected w w' q m : sent_one w w' q m -> connected w' q.
Proof.
  intros Hs. apply (connected_dom w); [apply Hs|]. destruct (so_to _ _ _ _ Hs) as (pb & ? & _). by exists pb.
Qed.

Lemma nn_req_action_send_ok s w allow :
  world_ok w -> req_base s w -> timer_rep (tk_timer (rq_task s)) PIdle -> (allow = false -> exists q, off_out w q) ->
  exists s' w', nn_req_action_send s w allow = Ok (s', w') /\ requested s w s' w'.
Proof.
  intros Hw [Hx _ Hi _] Ht Ha. unfold nn_req_action_send.
  destruct (xreq_send_to_ok _ w (tk_request (rq_task s)) Hw Hx) as [[-> Hc]|(x & w' & q & -> & Hc & Hx' & Hs)]; mred.
  - decide_bools. destruct allow; mred.
    + eexists _, w. split; [done|]. left. split; [done|]. split; [|done]. by destruct s.
    + destruct (Ha eq_refl) as [q Hq]. exfalso. by eapply (lb_can_send_none w (xreq_lb (rq_xreq s)) q); [|apply Hx|..].
  - change (bool_decide (0 = - EAGAIN)) with false. decide_bools. cbn [with_xreq rq_task rq_resend_ivl].
    destruct (nn_timer_start_rep (tk_timer (rq_task s)) (rq_resend_ivl s) Ht Hi) as (tm & -> & Htm). mred. decide_bools. mred.
    eexists _, w'. split; [done|]. right. exists q, x, tm. split; [done|]. split; [done|]. split; [done|].
    split; [by eapply sent_one_connected|done].
Qed.

Lemma requested_ok s w s' w' :
  world_ok w -> req_base s w -> timer_rep (tk_timer (rq_task s)) PIdle -> tk_sent_to (rq_task s) = None ->
  sphdr (tk_request (rq_task s)) = id_header (tk_id (rq_task s)) ->
  requested s w s' w' -> handled w w' /\ req_rep s' w'.
Proof.
  intros Hw [Hx Hf Hi Hid] Ht Hn Hrq [(_ & -> & ->)|(q & x & tm & Hx' & Hs & Htm & Hq & ->)].
  - split; [by apply handled_refl|]. constructor; [done|by split|by right].
  - split; [apply Hs|]. constructor; [done| |by right]. split; [done|]. by exists q.
Qed.

(** ** Stopping the timer *)
Definition halted s s' (st : req_state) : Prop :=
  exists tm, timer_rep tm PStopping /\ s' = with_state (with_sent_to (with_timer s tm) None) st.

Lemma stop_timer_ok s w st fired :
  timer_rep (tk_timer (rq_task s)) (PActive fired) -> exists s', stop_timer s w st = Ok (s', w) /\ halted s s' st.
Proof.
  intros Ht. unfold stop_timer. destruct (nn_timer_stop_rep _ _ Ht) as (tm & -> & Htm). mred.
  eexists. split; [done|]. by exists tm.
Qed.

Lemma halted_ok s s' w st :
  req_base s w -> request_ok s -> rq_state s <> NN_REQ_STATE_PASSIVE ->
  st = NN_REQ_STATE_TIMED_OUT \/ st = NN_REQ_STATE_CANCELLING \/ st = NN_REQ_STATE_STOPPING_TIMER ->
  halted s s' st -> req_rep s' w.
Proof.
  intros [] [?|Hrq] Hp Hst (tm & Htm & ->); [done|]. constructor; [done| |by right].
  unfold stage_ok. cbn. by destruct Hst as [->|[->| ->]].
Qed.

(** ** The worker thread *)

(** What becomes of the socket when its timer fires, or has stopped. *)
Definition req_worker_spec s w (e : worker_event) s' w' : Prop :=
  exists tm ph, timer_rep tm ph /\ let s1 := with_timer s tm in
  match e with
  | WStart => s' = s1 /\ w' = w
  | WTimeout =>
      (rq_state s = NN_REQ_STATE_ACTIVE /\ w' = w /\ halted s1 s' NN_REQ_STATE_TIMED_OUT)
      \/ (rq_state s <> NN_REQ_STATE_ACTIVE /\ s' = s1 /\ w' = w)
  | WStop =>
      (rq_state s = NN_REQ_STATE_STOPPING_TIMER /\ s' = with_state s1 NN_REQ_STATE_DONE /\ w' = w)
      \/ ((rq_state s = NN_REQ_STATE_TIMED_OUT \/ rq_state s = NN_REQ_STATE_CANCELLING) /\ requested s1 w s' w')
  end.

(** The phase of the timer in each state. *)
Definition req_phase s : phase :=
  match rq_state s with
  | NN_REQ_STATE_ACTIVE => PActive false
  | NN_REQ_STATE_TIMED_OUT | NN_REQ_STATE_CANCELLING | NN_REQ_STATE_STOPPING_TIMER => PStopping
  | _ => PIdle
  end.

Lemma stage_phase s w : stage_ok s w -> timer_rep (tk_timer (rq_task s)) (req_phase s).
Proof. unfold stage_ok, req_phase. destruct (rq_state s); try done; by intros []. Qed.

Lemma stage_sent_to s w p : stage_ok s w -> tk_sent_to (rq_task s) = Some p -> rq_state s = NN_REQ_STATE_ACTIVE.
Proof. unfold stage_ok. destruct (rq_state s); try done; intros [_ Hs] E; congruence. Qed.

Lemma req_worker_ok s w e :
  world_ok w -> req_rep s w -> worker_pending (tk_timer (rq_task s)) e = true ->
  exists s' w', req_worker s w e = Ok (s', w') /\ req_worker_spec s w e s' w' /\ handled w w' /\ req_rep s' w'.
Proof.
  intros Hw Hr He. pose proof Hr as [Hb Hst Hrq]. pose proof (stage_phase _ _ Hst) as Hph.
  unfold req_worker. destruct (worker_step_rep _ _ _ Hph He) as (tm & ph & told & -> & Htm & Hspec). mred.
  assert (Hb1 : req_base (with_timer s tm) w) by (by destruct Hb).
  unfold req_worker_spec. destruct e; cbn [worker_spec] in Hspec.
  - destruct Hspec as (-> & -> & _). eexists _, w. split; [done|]. split; [by exists tm, (req_phase s)|].
    split; [by apply handled_refl|]. constructor; [done| |done].
    revert Hst Htm. unfold stage_ok, req_phase. cbn. destruct (rq_state s); try done; by intros [].
  - destruct Hspec as (Hps & -> & ->). rewrite req_feed_active by apply Hb.
    unfold req_phase in Hps. run_handler. cbn [rq_state with_timer with_task].
    destruct (rq_state s) eqn:Es; try done; decide_bools; cbn [andb].
    1,2: destruct (nn_req_action_send_ok (with_timer s tm) w true Hw Hb1 Htm ltac:(done)) as (s' & w' & -> & Hreq).
    1,2: destruct Hrq as [?|Hrq]; [congruence|]; unfold stage_ok in Hst; rewrite Es in Hst.
    1,2: destruct (requested_ok _ _ _ _ Hw Hb1 Htm (proj2 Hst) Hrq Hreq) as [Hh Hr'].
    1,2: exists s', w'; split; [done|]; split; [exists tm, PIdle; split; [done|]; right; auto|by split].
    eexists _, w. split; [done|]. split; [exists tm, PIdle; split; [done|]; by left|].
    split; [by apply handled_refl|]. destruct Hrq as [?|Hrq]; [congruence|]. unfold stage_ok in Hst. rewrite Es in Hst.
    constructor; [by destruct Hb|split; [done|apply Hst]|by right].
  - destruct Hspec as [(Hps & -> & ->)|(Hps & -> & ->)].
    + assert (Es : rq_state s = NN_REQ_STATE_ACTIVE) by (unfold req_phase in Hps; by destruct (rq_state s)).
      rewrite req_feed_active by apply Hb. run_handler. cbn [rq_state with_timer with_task]. rewrite Es.
      decide_bools. cbn [andb].
      destruct (stop_timer_ok (with_timer s tm) w NN_REQ_STATE_TIMED_OUT true Htm) as (s' & -> & Hh).
      exists s', w. split; [done|]. split; [exists tm, (PActive true); split; [done|]; by left|].
      split; [by apply handled_refl|].
      apply (halted_ok (with_timer s tm) s' w NN_REQ_STATE_TIMED_OUT); try done; [cbn; congruence|auto].
    + eexists _, w. split; [done|]. unfold req_phase in Hps.
      split; [exists tm, PStopping; split; [done|]; right; by destruct (rq_state s)|].
      split; [by apply handled_refl|]. constructor; [done| |done]. revert Hst. unfold stage_ok. cbn.
      destruct (rq_state s); try done; by intros [].
Qed.

(** ** The user *)

(** The request as it is stored and sent. *)
Definition tagged s (m : nn_msg) : nn_req St L :=
  let id := u32 (tk_id (rq_task s) + 1) in
  with_task s (Task id (Msg (id_header id) (hdrs m) (body m)) (tk_reply (rq_task s)) (tk_timer (rq_task s)) (tk_sent_to (rq_task s))).

Definition csend_spec s w (m : nn_msg) s' w' : Prop :=
  match rq_state s with
  | NN_REQ_STATE_PASSIVE | NN_REQ_STATE_DONE => requested (tagged s m) w s' w'
  | NN_REQ_STATE_ACTIVE => w' = w /\ halted (tagged s m) s' NN_REQ_STATE_CANCELLING
  | NN_REQ_STATE_DELAYED | NN_REQ_STATE_CANCELLING => w' = w /\ s' = tagged s m
  | _ => w' = w /\ s' = with_state (tagged s m) NN_REQ_STATE_CANCELLING
  end.

Lemma nn_req_csend_ok s w m :
  world_ok w -> req_rep s w -> sphdr m = [] ->
  exists s' w', nn_req_csend s w m = Ok (s', w', 0) /\ csend_spec s w m s' w' /\ handled w w' /\ req_rep s' w'.
Proof.
  intros Hw [Hb Hst _] Hm. unfold nn_req_csend. rewrite Hm. cbn [length]. decide_bools. mred.
  assert (Hid : in_range 32 (u32 (tk_id (rq_task s) + 1))) by (apply wrap_range; lia).
  cbn [replicate]. rewrite nn_putl_eq by (apply Z.lor_nonneg; split; [apply Hid|done]). mred. rewrite app_nil_r.
  change (with_task s _) with (tagged s m). assert (Hb1 : req_base (tagged s m) w).
  { by destruct Hb. }
  rewrite req_action_active by (apply Hb1 || done). run_handler. unfold csend_spec. cbn [rq_state tagged with_task].
  assert (Hst1 : stage_ok (tagged s m) w) by exact Hst. unfold stage_ok in Hst, Hst1. cbn [rq_state tagged with_task] in Hst1.
  destruct (rq_state s) eqn:Es; try done; decide_bools; cbn [andb]; mred.
  1,7: destruct (nn_req_action_send_ok (tagged s m) w true Hw Hb1 (proj1 Hst) ltac:(done)) as (s' & w' & -> & Hreq); mred;
    destruct (requested_ok _ _ _ _ Hw Hb1 (proj1 Hst) (proj2 Hst) eq_refl Hreq) as [Hh Hr']; by exists s', w'.
  - eexists _, w. split; [done|]. split; [done|]. split; [by apply handled_refl|]. constructor; [done| |by right].
    unfold stage_ok. cbn. by rewrite Es.
  - destruct (stop_timer_ok (tagged s m) w NN_REQ_STATE_CANCELLING false (proj1 Hst)) as (s' & -> & Hh). mred.
    exists s', w. split; [done|]. split; [done|]. split; [by apply handled_refl|].
    apply (halted_ok (tagged s m) s' w NN_REQ_STATE_CANCELLING); try done; [by right|cbn; congruence|auto].
  - eexists _, w. split; [done|]. split; [done|]. split; [by apply handled_refl|]. constructor; [by destruct Hb1| |by right]. exact Hst.
  - eexists _, w. split; [done|]. split; [done|]. split; [by apply handled_refl|]. constructor; [done| |by right].
    unfold stage_ok. cbn. by rewrite Es.
  - eexists _, w. split; [done|]. split; [done|]. split; [by apply handled_refl|]. constructor; [by destruct Hb1| |by right]. exact Hst.
Qed.

Definition crecv_spec s (s' : nn_req St L) (rc : Z) (r : option nn_msg) : Prop :=
  match rq_state s with
  | NN_REQ_STATE_PASSIVE | NN_REQ_STATE_IDLE | NN_REQ_STATE_STOPPING => rc = - EFSM /\ r = None /\ s' = s
  | NN_REQ_STATE_DONE => rc = 0 /\ (exists m, tk_reply (rq_task s) = Live m /\ r = Some m)
      /\ s' = with_state (with_reply s (Live empty_msg)) NN_REQ_STATE_PASSIVE
  | _ => rc = - EAGAIN /\ r = None /\ s' = s
  end.

(** The user may receive unless the reply it would be given was terminated. *)
Definition reply_alive s : bool :=
  match tk_reply (rq_task s) with Live _ => true | Dead _ => negb (bool_decide (rq_state s = NN_REQ_STATE_DONE)) end.

Lemma nn_req_crecv_dead s w : reply_alive s = false -> nn_req_crecv s w = Err BadAccess.
Proof.
  unfold reply_alive, nn_req_crecv, nn_req_inprogress. destruct (tk_reply (rq_task s)) as [m|m]; [done|].
  case_bool_decide as Es; [|done]. by rewrite Es.
Qed.

Lemma nn_req_crecv_ok s w :
  req_rep s w -> reply_alive s = true -> exists s' rc r, nn_req_crecv s w = Ok (s', w, rc, r) /\ crecv_spec s s' rc r /\ req_rep s' w.
Proof.
  intros Hr Ha. pose proof Hr as [Hb Hst Hrq]. unfold nn_req_crecv, nn_req_inprogress, crecv_spec, reply_alive in *.
  destruct (rq_state s) eqn:Es; mred; decide_bools; mred; try by eexists _, _, _.
  destruct (tk_reply (rq_task s)) as [m|m]; [|done]. mred.
  rewrite req_action_active by (apply Hb || done). run_handler. cbn [rq_state with_reply with_task]. rewrite Es.
  decide_bools. mred. eexists _, 0, _. split; [done|]. split; [split; [done|]; split; [by exists m|done]|].
  unfold stage_ok in Hst. rewrite Es in Hst. constructor; [by destruct Hb|exact Hst|by left].
Qed.

(** ** Pipes *)
Lemma with_xreq_base s w w' x : req_base s w -> xreq_rep x w' -> req_base (with_xreq s x) w'.
Proof. by intros []. Qed.

Lemma stage_dom s w w' : dom (w_pipes w') = dom (w_pipes w) -> stage_ok s w -> stage_ok s w'.
Proof.
  intros Hd. unfold stage_ok. destruct (rq_state s); try done. intros (? & p & ? & ?). split; [done|].
  exists p. split; [done|by eapply connected_dom].
Qed.

(** A pipe that became writable gets the request that waits for one. *)
Lemma nn_req_out_ok s w p es :
  world_ok w -> req_rep s w -> w_events w = (p, NN_PIPE_OUT) :: es ->
  exists s' w' x prio, let w1 := set_stat (set_events w es) NN_STAT_CURRENT_SND_PRIORITY prio in
    nn_req_out s (set_events w es) p = Ok (s', w') /\ handled (set_events w es) w' /\ req_rep s' w' /\ xreq_rep x w1
    /\ (if bool_decide (rq_state s = NN_REQ_STATE_DELAYED)
        then exists q, sent_one w1 w' q (tk_request (rq_task s)) /\ rq_state s' = NN_REQ_STATE_ACTIVE
             /\ tk_sent_to (rq_task s') = Some q /\ tk_request (rq_task s') = tk_request (rq_task s)
        else s' = with_xreq s x /\ w' = w1).
Proof.
  intros Hw [Hb Hst Hrq] He. destruct (xreq_out_ok _ w p es Hw (rb_xreq _ _ Hb) He) as (x & prio & E & Hx).
  set (w1 := set_stat _ _ _) in *. pose proof (pop_world_ok w _ es Hw He) as Hw0.
  assert (Hw1 : world_ok w1) by (by apply world_ok_stat).
  assert (Hh1 : handled (set_events w es) w1) by (by apply handled_stat).
  unfold nn_req_out. rewrite E. mred. pose proof (with_xreq_base s w w1 x Hb Hx) as Hb1.
  assert (Hst1 : stage_ok (with_xreq s x) w1) by exact Hst. cbn [rq_state with_xreq].
  case_bool_decide as Es.
  - rewrite req_action_active by (apply Hb1 || done). run_handler. cbn [rq_state with_xreq]. rewrite Es.
    decide_bools. cbn [andb]. unfold stage_ok in Hst1. cbn [rq_state with_xreq] in Hst1. rewrite Es in Hst1.
    assert (Hq : exists q, off_out w1 q) by (exists p; exact (proj1 (proj2 (pop_out w p es Hw He)))).
    destruct (nn_req_action_send_ok (with_xreq s x) w1 false Hw1 Hb1 (proj1 Hst1) (fun _ => Hq)) as (s' & w' & -> & Hreq).
    destruct Hrq as [?|Hrq]; [congruence|].
    destruct (requested_ok _ _ _ _ Hw1 Hb1 (proj1 Hst1) (proj2 Hst1) Hrq Hreq) as [Hh2 Hr'].
    exists s', w', x, prio. split; [done|]. split; [by eapply handled_trans|]. split; [done|]. split; [done|].
    destruct Hreq as [(Hc & _)|(q & x' & tm & _ & Hs & _ & _ & ->)].
    + destruct Hq as [q Hq]. exfalso. by eapply (lb_can_send_none w1 (xreq_lb x) q); [|apply Hx|..].
    + exists q. done.
  - eexists _, w1, x, prio. split; [done|]. split; [done|]. split; [by constructor|done].
Qed.

(** A removed pipe takes the request that was sent to it along. *)
Lemma nn_req_rm_ok s w p pb :
  world_ok w -> req_rep s w -> w_pipes w !! p = Some pb ->
  exists s' x prio, nn_req_rm s w p = Ok (s', set_stat w NN_STAT_CURRENT_SND_PRIORITY prio)
    /\ req_rep s' (drop_pipe w p) /\ xreq_rep x (drop_pipe w p)
    /\ if bool_decide (tk_sent_to (rq_task s) = Some p) then halted (with_xreq s x) s' NN_REQ_STATE_TIMED_OUT
       else s' = with_xreq s x.
Proof.
  intros Hw [Hb Hst Hrq] Hp. destruct (xreq_rm_ok _ w p pb Hw (rb_xreq _ _ Hb) Hp) as (x & prio & E & Hx).
  unfold nn_req_rm. rewrite E. mred. cbn [rq_task with_xreq]. pose proof (with_xreq_base s w _ x Hb Hx) as Hb1.
  case_bool_decide as Hs.
  - pose proof (stage_sent_to _ _ _ Hst Hs) as Es. rewrite req_action_active by (apply Hb1 || done).
    run_handler. cbn [rq_state with_xreq]. rewrite Es. decide_bools. cbn [andb].
    unfold stage_ok in Hst. rewrite Es in Hst.
    destruct (stop_timer_ok (with_xreq s x) (set_stat w NN_STAT_CURRENT_SND_PRIORITY prio) NN_REQ_STATE_TIMED_OUT false
      (proj1 Hst)) as (s' & -> & Hh).
    exists s', x, prio. split; [done|]. split; [|done].
    apply (halted_ok (with_xreq s x) s' _ NN_REQ_STATE_TIMED_OUT); try done; [cbn; congruence|auto].
  - eexists _, x, prio. split; [done|]. split; [|done]. constructor; [exact Hb1| |exact Hrq].
    unfold stage_ok in *. cbn [rq_state rq_task with_xreq]. destruct (rq_state s); try done.
    destruct Hst as (? & q & Hq & Hc). split; [done|]. exists q. split; [done|]. unfold connected, drop_pipe in *. cbn.
    rewrite lookup_delete_ne; [done|congruence].
Qed.

(** The loop takes messages until there are none, or one of them is too short
    to have a header, or the reply is found. *)
Definition wanted s (m : nn_msg) : bool := nn_req_inprogress s && answers (tk_id (rq_task s)) m.
Definition stripped (m : nn_msg) : nn_msg := Msg [] (hdrs m) (body m).

Definition refused s (pm : addr * nn_msg) : Prop := exists m, xreq_delivers pm.2 (Some m) /\ wanted s m = false.

Inductive in_outcome s s' w' : list (addr * nn_msg) -> Prop :=
  | in_drained ms x r :
      Forall (refused s) ms -> (forall q, ~ off_in w' q) -> s' = with_reply (with_xreq s x) r ->
      match ms with [] => r = tk_reply (rq_task s) | _ => exists m, r = Dead m end -> in_outcome s s' w' ms
  | in_short ms q m x :
      Forall (refused s) ms -> xreq_delivers m None -> s' = with_reply (with_xreq s x) (Dead m) ->
      in_outcome s s' w' (ms ++ [(q, m)])
  | in_found ms q m m' x :
      Forall (refused s) ms -> xreq_delivers m (Some m') -> wanted s m' = true ->
      (let s1 := with_reply (with_xreq s x) (Live (stripped m')) in
       if bool_decide (rq_state s = NN_REQ_STATE_ACTIVE) then halted s1 s' NN_REQ_STATE_STOPPING_TIMER else s' = s1) ->
      in_outcome s s' w' (ms ++ [(q, m)]).

Lemma wanted_xr s x r m : wanted (with_reply (with_xreq s x) r) m = wanted s m.
Proof. done. Qed.

Lemma in_outcome_cons s s1 s' w' x1 d p m m' ms :
  s1 = with_reply (with_xreq s x1) (Dead d) -> xreq_delivers m (Some m') -> wanted s m' = false ->
  in_outcome s1 s' w' ms -> in_outcome s s' w' ((p, m) :: ms).
Proof.
  intros -> Hd Hm Ho. assert (Href : refused s (p, m)) by by exists m'.
  destruct Ho as [ms x r Hms Hno -> Hr|ms q m2 x Hms Hs ->|ms q m2 m2' x Hms Hs Hw Hf].
  - eapply (in_drained _ _ _ _ x r); [by constructor|done|done|]. destruct ms; [|done]. cbn in Hr. subst. by eexists.
  - eapply (in_short _ _ _ (_ :: ms) q m2 x); [by constructor|done|done].
  - eapply (in_found _ _ _ (_ :: ms) q m2 m2' x); [by constructor|done|done|done].
Qed.

Lemma with_reply_rep s w w' x r :
  req_rep s w -> xreq_rep x w' -> dom (w_pipes w') = dom (w_pipes w) -> req_rep (with_reply (with_xreq s x) r) w'.
Proof.
  intros [Hb Hst Hrq] Hx Hd. constructor; [by destruct Hb| |exact Hrq]. exact (stage_dom s w w' Hd Hst).
Qed.

Lemma req_in_loop_ok fuel : forall s w,
  (backlog w < fuel)%nat -> world_ok w -> req_rep s w ->
  exists s' w' ms, req_in_loop fuel s w = Ok (s', w') /\ req_rep s' w' /\ rcvd_many w w' ms /\ in_outcome s s' w' ms
    /\ (ms = [] -> w' = w).
Proof.
  induction fuel as [|fuel IH]; intros s w Hf Hw Hr; [lia|]. cbn [req_in_loop].
  pose proof Hr as [Hb Hst Hrq].
  destruct (xreq_recv_ok _ w (tk_reply (rq_task s)) Hw (rb_xreq _ _ Hb)) as [[-> Hc]|(x & w1 & p & m & r & -> & Hx & Hs & Hd)]; mred.
  - decide_bools. eexists _, w, []. split; [done|]. split; [exact (with_reply_rep s w w _ _ Hr (rb_xreq _ _ Hb) eq_refl)|].
    split; [by apply rcvd_many_nil|].
    split; [|done]. eapply in_drained; [done| |done|done]. intros q. eapply fq_can_recv_none; [done|apply Hb|done].
  - pose proof (hd_ok _ _ (ro_handled _ _ _ _ Hs)) as Hw1. pose proof (hd_dom _ _ (ro_handled _ _ _ _ Hs)) as Hd1.
    pose proof (rcvd_many_cons _ _ _ _ _ _ Hs (rcvd_many_nil _ Hw1)) as Hone.
    destruct r as [m'|]; [|decide_bools; eexists _, w1, [(p, m)]; split; [done|]; split; [by eapply with_reply_rep|];
      split; [done|]; split; [by eapply (in_short _ _ _ [])|done]].
    change (bool_decide (0 = - EAGAIN)) with false. decide_bools. mred. cbn [left_in].
    set (s1 := with_reply (with_xreq s x) (Live m')).
    assert (Hskip : wanted s m' = false -> exists s' w' ms,
        req_in_loop fuel (with_reply s1 (Dead m')) w1 = Ok (s', w') /\ req_rep s' w' /\ rcvd_many w w' ms /\ in_outcome s s' w' ms
        /\ (ms = [] -> w' = w)).
    { intros Hno. pose proof (ro_backlog _ _ _ _ Hs) as Hlt.
      destruct (IH (with_reply s1 (Dead m')) w1 ltac:(lia) Hw1 (with_reply_rep s w w1 x _ Hr Hx Hd1))
        as (s' & w' & ms & E & Hr' & Hms & Ho & _).
      exists s', w', ((p, m) :: ms). split; [done|]. split; [done|]. split; [by eapply rcvd_many_cons|]. split; [|done].
      by apply (in_outcome_cons s (with_reply s1 (Dead m')) s' w' x m' p m m' ms). }
    unfold wanted, answers in Hskip. change (nn_req_inprogress s1) with (nn_req_inprogress s).
    destruct (nn_req_inprogress s) eqn:Ei; [|by apply Hskip]. cbn [negb andb] in Hskip |- *.
    case_bool_decide as Hlen; [|by apply Hskip]. cbn [negb andb] in Hskip |- *.
    destruct (nn_getl_total (sphdr m')) as [reqid Eid]; [lia|]. rewrite Eid in *. mred.
    destruct (has_flag reqid _) eqn:Efl; [|by apply Hskip]. cbn [negb andb] in Hskip |- *.
    change (tk_id (rq_task s1)) with (tk_id (rq_task s)).
    case_bool_decide as Hreq; [|by apply Hskip]. cbn [negb]. clear Hskip.
    set (s2 := with_reply s1 _). pose proof (with_reply_rep s w w1 x (Live (stripped m')) Hr Hx Hd1 : req_rep s2 w1) as Hr2.
    assert (Hwant : wanted s m' = true).
    { unfold wanted, answers. rewrite Ei, Eid, Efl. by decide_bools. }
    change (rq_state s2) with (rq_state s). case_bool_decide as Es.
    + rewrite req_action_active by (apply Hr2 || done). run_handler. change (rq_state s2) with (rq_state s).
      rewrite Es. decide_bools. cbn [andb]. unfold stage_ok in Hst. rewrite Es in Hst.
      destruct (stop_timer_ok s2 w1 NN_REQ_STATE_STOPPING_TIMER false (proj1 Hst)) as (s' & -> & Hh).
      exists s', w1, [(p, m)]. split; [done|].
      split; [apply (halted_ok s2 s' w1 NN_REQ_STATE_STOPPING_TIMER); try apply Hr2; try done; [cbn; congruence|auto]|].
      split; [done|]. split; [|done]. eapply (in_found _ _ _ [] p m m' x); [done|done|done|]. by decide_bools.
    + exists s2, w1, [(p, m)]. split; [done|]. split; [done|]. split; [done|].
      split; [|done]. eapply (in_found _ _ _ [] p m m' x); [done|done|done|]. by decide_bools.
Qed.

Lemma nn_req_in_ok s w p es :
  world_ok w -> req_rep s w -> w_events w = (p, NN_PIPE_IN) :: es ->
  exists s' w' ms, nn_req_in s (set_events w es) p = Ok (s', w') /\ req_rep s' w' /\ rcvd_many (set_events w es) w' ms
    /\ ms <> [] /\ in_outcome s s' w' ms.
Proof.
  intros Hw Hr He. destruct (xreq_in_ok _ w p es Hw (rb_xreq _ _ (rr_base _ _ Hr)) He) as (x & E & Hx).
  pose proof (pop_world_ok w _ es Hw He) as Hw0. unfold nn_req_in. rewrite E. mred.
  assert (Hr0 : req_rep (with_xreq s x) (set_events w es)).
  { destruct Hr as [Hb Hst Hrq]. constructor; [by destruct Hb|exact Hst|exact Hrq]. }
  destruct (req_in_loop_ok _ (with_xreq s x) (set_events w es) (recv_fuel_ok _) Hw0 Hr0) as (s' & w' & ms & -> & Hr' & Hms & Ho & Hnil).
  exists s', w', ms. split; [done|]. split; [done|]. split; [done|]. split.
  - intros ->. inversion Ho as [ms x' r Hf Hno Es Em|ms q m x' _ _ _ Em|ms q m m' x' _ _ _ _ Em]; [|by destruct ms..].
    apply (Hno p). rewrite Hnil by done. exact (proj1 (proj2 (pop_in w p es Hw He))).
  - destruct Ho as [ms x' r Hf Hno -> Hm|ms q m x' Hf Hd ->|ms q m m' x' Hf Hd Hw' Hs].
    + by eapply (in_drained _ _ _ _ x' r).
    + by eapply (in_short _ _ _ _ _ _ x').
    + by eapply (in_found _ _ _ _ _ _ _ x').
Qed.

(** ** REQ in a socket *)
#[export, program] Instance req_spec : SockSpec T (nn_req St L) := {| sk_hears := true; sk_sends m := bool_decide (sphdr m = []);
  sk_takes s _ := reply_alive s;
  sk_room n s := True; sk_room_le _ _ _ := I; sk_room_add _ _ _ _ _ _ _ _ _ := I; sk_room_step _ _ _ _ _ := I; sk_rep := req_rep |}.
Next Obligation. apply req_rep_view. Qed.
Next Obligation. intros s. cbn. unfold nn_req_events. by case_bool_decide. Qed.
Next Obligation.
  intros s w p options Hw [Hb Hst Hrq] Hp Hroom _.
  destruct (xreq_add_ok _ w p options Hw (rb_xreq _ _ Hb) Hp Hroom) as (x & d & E & Hx).
  cbn [sb_add req_proto]. rewrite E. mred. eexists _, d, 0. split; [done|]. decide_bools.
  constructor; [by destruct Hb| |exact Hrq]. unfold stage_ok in *. cbn [rq_state rq_task with_xreq].
  destruct (rq_state s); try done. destruct Hst as (? & q & Hq & Hc). split; [done|]. exists q. split; [done|].
  unfold connected in *. cbn. rewrite lookup_insert_ne; [done|]. intros <-. rewrite Hp in Hc. by destruct Hc.
Qed.
Next Obligation.
  intros s w p pb Hw Hr Hp _. destruct (nn_req_rm_ok s w p pb Hw Hr Hp) as (s' & x & prio & E & Hr' & _).
  eexists s', _. split; [exact E|]. split; [by apply handled_stat|]. by apply (req_rep_view s' (drop_pipe w p)).
Qed.
Next Obligation.
  intros s w p es _ Hw Hr He. destruct (nn_req_in_ok s w p es Hw Hr He) as (s' & w' & ms & E & Hr' & Hms & _).
  exists s', w'. split; [exact E|]. split; [apply Hms|done].
Qed.
Next Obligation.
  intros s w p es Hw Hr He. destruct (nn_req_out_ok s w p es Hw Hr He) as (s' & w' & x & prio & E & Hh & Hr' & _).
  by exists s', w'.
Qed.
Next Obligation.
  intros s w m _ Hm%bool_decide_eq_true Hw Hr. destruct (nn_req_csend_ok s w m Hw Hr Hm) as (s' & w' & E & _ & Hh & Hr').
  by exists s', w', 0.
Qed.
Next Obligation.
  intros s w _ Ha Hw Hr. destruct (nn_req_crecv_ok s w Hr Ha) as (s' & rc & r & E & Hspec & Hr').
  exists s', w, rc, r. split; [exact E|]. assert (rc <= 0 /\ (rc = 0 <-> is_Some r)) as [Hrc Hsome].
  { unfold crecv_spec, EFSM, EAGAIN in Hspec. by destruct (rq_state s); destruct Hspec as (-> & Hmsg & _); try subst r; try destruct Hmsg as (? & _ & ->);
      (split; [lia|]); split; intros X; try (by destruct X); try lia; eexists. }
  split; [done|]. split; [by apply handled_refl|]. done.
Qed.
Next Obligation.
  intros s w e Hw Hr He. destruct (req_worker_ok s w e Hw Hr He) as (s' & w' & E & _ & Hh & Hr'). by exists s', w'.
Qed.

Lemma req_init_rep links key net :
  in_range 32 key ->
  exists s, nn_req_init links key (World net ∅ [] (fun _ => 0)) = Ok (s, World net ∅ [] (fun _ => 0))
    /\ req_rep s (World net ∅ [] (fun _ => 0)) /\ rq_state s = NN_REQ_STATE_PASSIVE /\ tk_id (rq_task s) = key.
Proof.
  intros Hk. eexists. split; [reflexivity|]. split; [|done]. constructor; [constructor; try done|done|by left].
  split; [by apply lb_tracks_init|by apply fq_tracks_init].
Qed.

Lemma nn_req_setopt_rep s w v :
  0 <= int_of_bytes v -> req_rep s w -> req_rep (nn_req_setopt s NN_REQ NN_REQ_RESEND_IVL v).1 w.
Proof.
  intros Hv Hr. unfold nn_req_setopt. decide_bools. cbn [negb]. case_bool_decide; [|done]. destruct Hr as [[] ? ?]. done.
Qed.
End ReqSpec.

(** ** Results *)
Section ReqResults.
  Context {St L T : Type} `{ListSpec St L} `{TransportSpec T}.
  Implicit Types (w : world T) (p : addr) (s : nn_req St L).

(** The worker thread does what is pending, in the given order. *)
Fixpoint req_workers s w (es : list worker_event) : result (nn_req St L * world T) :=
  match es with
  | [] => Ok (s, w)
  | e :: es =>
      '(s, w) ← (if worker_pending (tk_timer (rq_task s)) e then req_worker s w e else Ok (s, w));
      req_workers s w es
  end.

(** A timer that is being stopped stops, and the socket is told. *)
Lemma req_workers_stop s w :
  timer_rep (tk_timer (rq_task s)) PStopping ->
  exists tm, timer_rep tm PIdle /\ req_workers s w [WStart; WStop]
    = nn_fsm_feed (with_timer s tm, w) NN_REQ_SRC_RESEND_TIMER NN_TIMER_STOPPED PtrTimer.
Proof.
  intros Ht. destruct (timer_stopping_run _ Ht) as (t1 & t2 & E1 & Ep & E2 & Ht2). exists t2. split; [done|].
  cbn [req_workers]. unfold req_worker.
  assert (Hend : forall s1, with_timer s1 t2 = with_timer s t2 -> tk_timer (rq_task s1) = t1 ->
    ('(s, w) ← (if worker_pending (tk_timer (rq_task s1)) WStop
        then '(timer, told) ← worker_step (tk_timer (rq_task s1)) WStop;
             match told with None => Ok (with_timer s1 timer, w)
             | Some type => nn_fsm_feed (with_timer s1 timer, w) NN_REQ_SRC_RESEND_TIMER type PtrTimer end
        else Ok (s1, w)); Ok (s, w)) = nn_fsm_feed (with_timer s t2, w) NN_REQ_SRC_RESEND_TIMER NN_TIMER_STOPPED PtrTimer).
  { intros s1 E3 ->. rewrite Ep, E2. mred. rewrite E3. by destruct (nn_fsm_feed _ _ _ _) as [[? ?]|]. }
  destruct (worker_pending (tk_timer (rq_task s)) WStart).
  - rewrite E1. mred. by apply Hend.
  - injection E1 as E1. mred. by apply Hend.
Qed.

(** The request of a socket that gave up on its peer is sent again. *)
Definition sent_again s w s' w' : Prop :=
  tk_request (rq_task s') = tk_request (rq_task s) /\ tk_id (rq_task s') = tk_id (rq_task s) /\
  ((rq_state s' = NN_REQ_STATE_DELAYED /\ w' = w /\ forall q, ~ off_out w q) \/
   (exists q, rq_state s' = NN_REQ_STATE_ACTIVE /\ tk_sent_to (rq_task s') = Some q
      /\ sent_one w w' q (tk_request (rq_task s)))).

Lemma halted_resends s s1 w :
  world_ok w -> req_base s w -> request_ok s -> rq_state s <> NN_REQ_STATE_PASSIVE -> halted s s1 NN_REQ_STATE_TIMED_OUT ->
  exists s' w', req_workers s1 w [WStart; WStop] = Ok (s', w') /\ sent_again s w s' w' /\ req_rep s' w'.
Proof.
  intros Hw Hb [?|Hrq] Hp (tm & Htm & ->); [done|].
  set (s1 := with_state _ _). destruct (req_workers_stop s1 w Htm) as (tm1 & Htm1 & ->).
  set (s2 := with_timer s1 tm1). assert (Hb2 : req_base s2 w) by (by destruct Hb).
  rewrite req_feed_active by apply Hb. run_handler. cbn [rq_state s2 s1 with_timer with_task with_state].
  decide_bools. cbn [andb].
  destruct (nn_req_action_send_ok s2 w true Hw Hb2 Htm1 ltac:(done)) as (s' & w' & -> & Hreq).
  exists s', w'. split; [done|]. split; [|by apply (requested_ok s2 w s' w')].
  destruct Hreq as [(Hc & -> & ->)|(q & x & tm2 & _ & Hs & _ & _ & ->)]; (split; [done|]); (split; [done|]).
  - left. split; [done|]. split; [done|]. intros q. eapply (lb_can_send_none w (xreq_lb (rq_xreq s))); [done|apply Hb|done].
  - right. by exists q.
Qed.

(** A reply that is stored goes to the user once the timer has stopped. *)
Lemma halted_delivers s s1 w m :
  req_base s w -> halted s s1 NN_REQ_STATE_STOPPING_TIMER -> tk_reply (rq_task s) = Live m ->
  exists s2 s3, req_workers s1 w [WStart; WStop] = Ok (s2, w) /\ has_in (nn_req_events s2) = true
    /\ nn_req_crecv s2 w = Ok (s3, w, 0, Some m) /\ rq_state s3 = NN_REQ_STATE_PASSIVE.
Proof.
  intros Hb (tm & Htm & ->) Hm. set (s1 := with_state _ _). destruct (req_workers_stop s1 w Htm) as (tm1 & Htm1 & ->).
  rewrite req_feed_active by apply Hb. run_handler. cbn [rq_state s1 with_timer with_task with_state].
  decide_bools. cbn [andb]. eexists _, _. split; [done|]. split; [done|].
  unfold nn_req_crecv, nn_req_inprogress. cbn [rq_state with_state]. decide_bools. mred.
  rewrite req_action_active by (apply Hb || done). run_handler. cbn [rq_state with_reply with_task with_state].
  decide_bools. mred. cbn. rewrite Hm. done.
Qed.

(** The socket that is being stopped. *)
Lemma nn_req_stop_ok s w :
  req_rep s w -> exists s1, nn_req_stop s w = Ok (s1, w) /\ rq_xreq s1 = rq_xreq s /\ tk_reply (rq_task s1) = tk_reply (rq_task s) /\
    ((rq_stopped s1 = true /\ rq_fsm s1 = nn_fsm_init /\ timer_rep (tk_timer (rq_task s1)) PIdle) \/
     (rq_state s1 = NN_REQ_STATE_STOPPING /\ rq_fsm s1 = Fsm NN_FSM_STATE_STOPPING None /\ timer_rep (tk_timer (rq_task s1)) PStopping)).
Proof.
  intros [Hb Hst _]. pose proof (stage_phase _ _ Hst) as Hph. unfold nn_req_stop, nn_fsm_stop, set_fsm_state.
  cbn [m_fsm m_set_fsm m_shutdown_fn req_machine fst snd]. rewrite (rb_fsm _ _ Hb). cbn [fsm_st fsm_stopped]. decide_bools. mred.
  unfold nn_req_shutdown. decide_bools. cbn [andb]. cbn [rq_task with_fsm].
  destruct (nn_timer_stop_rep _ _ Hph) as (tm & -> & Htm). mred. cbn [rq_state with_state]. decide_bools.
  cbn [rq_task with_state with_timer with_task tk_timer]. rewrite (nn_timer_isidle_rep _ _ Htm). case_bool_decide as Hi; mred.
  - eexists. split; [reflexivity|]. do 2 (split; [done|]). left. rewrite Hi in Htm. done.
  - eexists. split; [reflexivity|]. do 2 (split; [done|]). right. split; [done|]. split; [done|]. cbn.
    by destruct (req_phase s).
Qed.

Lemma nn_req_term_ok s w :
  w_pipes w = ∅ -> xreq_rep (rq_xreq s) w -> rq_fsm s = nn_fsm_init -> timer_rep (tk_timer (rq_task s)) PIdle ->
  nn_req_term s = match tk_reply (rq_task s) with Live _ => Ok tt | Dead _ => Err BadAccess end.
Proof.
  intros Hw [Hl Hf] Hfsm Ht. unfold nn_req_term, nn_xreq_term. rewrite (nn_timer_term_rep _ Ht), Hfsm. mred.
  destruct (tk_reply (rq_task s)); [|done]. cbn [use_msg]. mred.
  cbn [nn_fsm_term nn_fsm_isidle nn_fsm_init fsm_st fsm_stopped]. rewrite (fq_tracks_term w), (lb_tracks_term w) by done. done.
Qed.
End ReqResults.

(** C21. A session of a REQ socket, whatever its transports, its user and the
    worker thread do, never fails an assertion and keeps the socket's
    invariant: between two calls the re-send timer is running exactly while a
    request waits for its reply at a pipe that is still connected, and is
    being stopped in the three states that wait for that; the stored request
    carries the current ID.  It can only end where the user asks for a reply
    whose object was terminated when a later message was dropped (see
    [req_reply_overwritten]).  The user must not give a header of its own, and
    the re-send interval is not negative. *)
Theorem req_session {St L T} `{ListSpec St L} `{TransportSpec T}
    (links : St) (net : T) (key : Z) (ivl : bytes) (os : list sock_op) :
  in_range 32 key -> 0 <= int_of_bytes ivl -> (forall m, KSend m ∈ os -> sphdr m = []) ->
  exists s w, nn_req_init links key (World net ∅ [] (fun _ => 0)) = Ok (s, w) /\
    let start := nn_sock_init (nn_req_setopt s NN_REQ NN_REQ_RESEND_IVL ivl).1 net in
    (exists k rs, (k ← start; sock_run k os) = Ok (k, rs) /\ sock_inv k
       /\ stage_ok (sk_base k) (sk_world k) /\ request_ok (sk_base k)) \/
    (exists os1 os2 k1 rs1 m, os = os1 ++ KRecv :: os2 /\ (k ← start; sock_run k os1) = Ok (k1, rs1) /\ sock_inv k1
       /\ rq_state (sk_base k1) = NN_REQ_STATE_DONE /\ tk_reply (rq_task (sk_base k1)) = Dead m
       /\ (k ← start; sock_run k os) = Err BadAccess).
Proof.
  intros Hk Hi Hm. destruct (req_init_rep links key net Hk) as (s & E & Hr & _). exists s. eexists. split; [exact E|]. cbn zeta.
  apply (nn_req_setopt_rep _ _ ivl Hi) in Hr. set (s1 := (nn_req_setopt s _ _ ivl).1) in *.
  destruct (sock_session_until s1 net os) as [(k & rs & Ers & Hinv)|(os1 & os2 & k1 & rs1 & -> & E1 & Hinv & Hf & Herr)].
  - exact Hr.
  - constructor; [by left| |done]. intros m Hin. apply bool_decide_eq_true. by apply Hm.
  - left. exists k, rs. split; [exact Ers|]. split; [exact Hinv|]. pose proof (si_rep _ Hinv : req_rep _ _) as []. done.
  - right. pose proof (Hf : reply_alive (sk_base k1) = false) as Ha. unfold reply_alive in Ha.
    destruct (tk_reply (rq_task (sk_base k1))) as [m|m] eqn:Em; [done|]. apply negb_false_iff, bool_decide_eq_true in Ha.
    exists os1, os2, k1, rs1, m. do 5 (split; [done|]). apply Herr. cbn [sock_step]. unfold nn_sock_recv.
    rewrite (si_state _ Hinv). cbn [sb_norecv sb_recv req_proto]. by rewrite (nn_req_crecv_dead _ _ Hf).
Qed.

(** C22. Waiting for a reply, the socket takes what its pipes bring and drops
    every message that is not the reply to the current request.  If the reply
    is among them, it becomes readable as soon as the timer has stopped, and
    the user gets it, without its header; else the socket goes on waiting. *)
Theorem req_reply {St L T} `{ListSpec St L} `{TransportSpec T} (s : nn_req St L) (w : world T) p es :
  world_ok w -> req_rep s w -> rq_state s = NN_REQ_STATE_ACTIVE -> w_events w = (p, NN_PIPE_IN) :: es ->
  exists s' w' ms, nn_req_in s (set_events w es) p = Ok (s', w') /\ rcvd_many (set_events w es) w' ms /\ req_rep s' w' /\
    match rq_state s' with
    | NN_REQ_STATE_ACTIVE => Forall (refused s) ms \/ (exists l q m, ms = l ++ [(q, m)] /\ Forall (refused s) l /\ (length (body m) < 4)%nat)
    | NN_REQ_STATE_STOPPING_TIMER => exists l q m m', ms = l ++ [(q, m)] /\ Forall (refused s) l
        /\ xreq_delivers m (Some m') /\ answers (tk_id (rq_task s)) m' = true
        /\ exists s2 s3, req_workers s' w' [WStart; WStop] = Ok (s2, w') /\ has_in (nn_req_events s2) = true
             /\ nn_req_crecv s2 w' = Ok (s3, w', 0, Some (stripped m')) /\ rq_state s3 = NN_REQ_STATE_PASSIVE
    | _ => False
    end.
Proof.
  intros Hw Hr Hst He. destruct (nn_req_in_ok s w p es Hw Hr He) as (s' & w' & ms & E & Hr' & Hms & _ & Ho).
  exists s', w', ms. split; [exact E|]. split; [done|]. split; [done|].
  destruct Ho as [ms x r Hf Hno -> Hm|ms q m x Hf Hd ->|ms q m m' x Hf Hd Hw' Hs].
  - cbn [rq_state with_reply with_task with_xreq]. rewrite Hst. by left.
  - cbn [rq_state with_reply with_task with_xreq]. rewrite Hst. right. exists ms, q, m. split; [done|]. split; [done|].
    destruct Hd as [[_ Hd]|Hd]; [|done]. by case_bool_decide.
  - rewrite bool_decide_true in Hs by done. pose proof Hs as (tm & Htm & Es). rewrite Es. cbn [rq_state with_state].
    rewrite <- Es. exists ms, q, m, m'. split; [done|]. split; [done|]. split; [done|].
    apply andb_true_iff in Hw' as [_ Ha]. split; [done|].
    destruct (halted_delivers (with_reply (with_xreq s x) (Live (stripped m'))) s' w' (stripped m')) as (s2 & s3 & Hres);
      [|done|done|by exists s2, s3].
    destruct Hr as [[_ Hfsm Hi Hid] _ _]. constructor; try done. by rewrite Es in Hr'; destruct Hr' as [[] _ _].
Qed.

(** C23. A request is not lost with its peer: when the re-send interval is over
    or the pipe the request was sent to is closed, the same request, with the
    same ID, is sent again as soon as the timer has stopped.  It goes to a
    writable pipe; when there is none, to the next one that becomes writable. *)
Theorem req_resend {St L T} `{ListSpec St L} `{TransportSpec T} (s : nn_req St L) (w : world T) :
  world_ok w -> req_rep s w -> rq_state s = NN_REQ_STATE_ACTIVE ->
  (worker_pending (tk_timer (rq_task s)) WTimeout = true ->
   exists s1 s2 w2, req_worker s w WTimeout = Ok (s1, w) /\ req_workers s1 w [WStart; WStop] = Ok (s2, w2)
     /\ sent_again s w s2 w2) /\
  (forall p, tk_sent_to (rq_task s) = Some p -> (forall e, (p, e) ∉ w_events w) ->
   exists s1 w1 s2 w2, nn_req_rm s w p = Ok (s1, w1)
     /\ req_workers s1 (drop_pipe w1 p) [WStart; WStop] = Ok (s2, w2) /\ sent_again s (drop_pipe w1 p) s2 w2) /\
  (forall s2 w2 p es, world_ok w2 -> req_rep s2 w2 -> sent_again s w s2 w2 -> rq_state s2 = NN_REQ_STATE_DELAYED ->
   w_events w2 = (p, NN_PIPE_OUT) :: es ->
   exists s3 w3 q, nn_req_out s2 (set_events w2 es) p = Ok (s3, w3) /\ rq_state s3 = NN_REQ_STATE_ACTIVE
     /\ tk_sent_to (rq_task s3) = Some q /\ sent (w_net w3) = sent (w_net w2) ++ [(q, tk_request (rq_task s))]).
Proof.
  intros Hw Hr Hst. pose proof Hr as [Hb _ Hrq]. split; [|split].
  - intros Hp. destruct (req_worker_ok s w WTimeout Hw Hr Hp) as (s1 & w1 & -> & Hspec & _ & _).
    destruct Hspec as (tm & ph & _ & [(_ & -> & Hh)|[? _]]); [|done]. exists s1.
    destruct (halted_resends (with_timer s tm) s1 w Hw) as (s2 & w2 & E & Hs & _); try done.
    + by destruct Hb.
    + cbn. congruence.
    + exists s2, w2. done.
  - intros p Hp Hno. pose proof (rr_stage _ _ Hr) as Hstage. unfold stage_ok in Hstage. rewrite Hst in Hstage.
    destruct Hstage as (_ & q & Hq & pb & Hpb). assert (q = p) as -> by congruence.
    destruct (nn_req_rm_ok s w p pb Hw Hr Hpb) as (s1 & x & prio & -> & Hr1 & Hx & Hspec).
    rewrite bool_decide_true in Hspec by done. eexists s1, _.
    destruct (halted_resends (with_xreq s x) s1 (drop_pipe (set_stat w NN_STAT_CURRENT_SND_PRIORITY prio) p)) as (s2 & w2 & E & Hs & _);
      try done.
    + apply drop_pipe_ok; [by apply world_ok_stat|done].
    + by destruct Hb.
    + cbn. congruence.
    + exists s2, w2. done.
  - intros s2 w2 p es Hw2 Hr2 (Erq & _ & _) Hs2 He.
    destruct (nn_req_out_ok s2 w2 p es Hw2 Hr2 He) as (s3 & w3 & x & prio & E & _ & _ & _ & Hspec).
    rewrite bool_decide_true in Hspec by done. destruct Hspec as (q & Hs & ? & ? & _).
    exists s3, w3, q. split; [exact E|]. split; [done|]. split; [done|]. rewrite (so_sent _ _ _ _ Hs), Erq. done.
Qed.

(** A stored reply is lost when any message arrives before the user takes
    it: the new message is received into the same object.  If it is another
    reply to the same request the user gets that one; if it is anything else
    the object is terminated, the socket remains readable, and the user's
    next receive uses the terminated object. *)
Theorem req_reply_overwritten {St L T} `{ListSpec St L} `{TransportSpec T} (s : nn_req St L) (w : world T) p es :
  world_ok w -> req_rep s w -> rq_state s = NN_REQ_STATE_DONE -> w_events w = (p, NN_PIPE_IN) :: es ->
  exists s' w' ms, nn_req_in s (set_events w es) p = Ok (s', w') /\ rcvd_many (set_events w es) w' ms /\ ms <> []
    /\ rq_state s' = NN_REQ_STATE_DONE /\ has_in (nn_req_events s') = true /\
    ((exists l q m m', ms = l ++ [(q, m)] /\ xreq_delivers m (Some m') /\ answers (tk_id (rq_task s)) m' = true
        /\ tk_reply (rq_task s') = Live (stripped m')) \/
     (exists d, tk_reply (rq_task s') = Dead d /\ nn_req_crecv s' w' = Err BadAccess)).
Proof.
  intros Hw Hr Hst He. destruct (nn_req_in_ok s w p es Hw Hr He) as (s' & w' & ms & E & Hr' & Hms & Hne & Ho).
  exists s', w', ms. split; [exact E|]. split; [done|]. split; [done|].
  assert (Hdead : forall d, rq_state s' = NN_REQ_STATE_DONE -> tk_reply (rq_task s') = Dead d ->
    nn_req_crecv s' w' = Err BadAccess).
  { intros d Hd Hrep. apply nn_req_crecv_dead. unfold reply_alive. rewrite Hrep. by rewrite bool_decide_true. }
  assert (Hin : forall s1 : nn_req St L, rq_state s1 = NN_REQ_STATE_DONE -> has_in (nn_req_events s1) = true).
  { intros s1 Hs1. unfold nn_req_events. by rewrite bool_decide_true. }
  destruct Ho as [ms x r Hf Hno -> Hm|ms q m x Hf Hd ->|ms q m m' x Hf Hd Hw' Hs].
  - do 2 (split; [auto|]). right. destruct ms; [done|]. destruct Hm as [d ->].
    exists d. split; [done|]. by eapply Hdead.
  - do 2 (split; [auto|]). right. exists m. split; [done|]. by eapply Hdead.
  - rewrite bool_decide_false in Hs by congruence. cbn zeta in Hs. subst s'. do 2 (split; [auto|]). left.
    apply andb_true_iff in Hw' as [_ Ha]. by exists ms, q, m, m'.
Qed.

(** C24. Closing the socket comes to an end: from every state, once the worker
    has executed what was posted to it, the socket reports that it is stopped.
    When its pipes are gone it can then be terminated, provided that the
    object of the reply is alive: if the last message was dropped, the object
    was terminated already, and [nn_req_term] terminates it again. *)
Theorem req_stops {St L T} `{ListSpec St L} `{TransportSpec T} (s : nn_req St L) (w : world T) :
  req_rep s w ->
  exists s1 s2, nn_req_stop s w = Ok (s1, w) /\ req_workers s1 w [WStart; WStop] = Ok (s2, w)
    /\ rq_stopped s2 = true /\ tk_reply (rq_task s2) = tk_reply (rq_task s)
    /\ (w_pipes w = ∅ -> nn_req_term s2 = match tk_reply (rq_task s) with Live _ => Ok tt | Dead _ => Err BadAccess end).
Proof.
  intros Hr. destruct (nn_req_stop_ok s w Hr) as (s1 & E & Hx & Hrep & Hcase). exists s1.
  destruct Hcase as [(Hs & Hf & Ht)|(Hs & Hf & Ht)].
  - exists s1. split; [done|]. split; [|split; [done|]; split; [done|]].
    + destruct Ht as (_ & _ & _ & _ & Hp1 & Hp2 & _). cbn [req_workers worker_pending]. rewrite Hp1. mred. by rewrite Hp2.
    + intros Hw. rewrite <- Hrep. apply (nn_req_term_ok s1 w); try done. rewrite Hx. apply Hr.
  - destruct (req_workers_stop s1 w Ht) as (tm & Htm & ->). unfold nn_fsm_feed. cbn [m_fsm m_shutdown_fn req_machine fst].
    cbn [rq_fsm with_timer with_task]. rewrite Hf. cbn [fsm_st]. decide_bools. cbn [negb]. unfold nn_req_shutdown.
    decide_bools. cbn [andb]. mred. cbn [rq_state with_timer with_task]. rewrite Hs. decide_bools.
    cbn [rq_task with_timer with_task tk_timer]. rewrite (nn_timer_isidle_rep _ _ Htm). decide_bools. mred.
    cbn [rq_fsm with_timer with_task]. rewrite Hf. cbn [nn_fsm_stopped_noevent fsm_st fsm_stopped]. unfold nn_fsm_stopped_noevent.
    cbn [fsm_st fsm_stopped]. decide_bools. mred.
    eexists. split; [done|]. split; [reflexivity|]. split; [done|]. split; [exact Hrep|]. intros Hw.
    etrans; [apply (nn_req_term_ok _ w); try done; cbn; rewrite Hx; apply Hr|cbn; by rewrite Hrep].
Qed.

(** ** Sessions *)

(** The peer sends a reply to another request, a reply without an ID, and the
    reply to request 8; then, late, one to request 7. *)
Definition demo_replies : loop_net := LoopNet [] [] [Msg [] [] [128; 0; 0; 7; 1]; Msg [] [] [0; 0; 0; 8; 1]; Msg [] [] [128; 0; 0; 8; 2]].
Definition demo_late : loop_net := LoopNet [] [] [Msg [] [] [128; 0; 0; 8; 2]; Msg [] [] [128; 0; 0; 7; 3]].

Definition req_state0 (net : loop_net) : nn_req store nn_list :=
  Req (nn_xreq_init ∅) (Fsm NN_FSM_STATE_ACTIVE None) NN_REQ_STATE_PASSIVE 7 NN_REQ_DEFAULT_RESEND_IVL
    (nn_task_init (Task 0 empty_msg (Live empty_msg) nn_timer_init None) 7) false.

Definition demo_req_ops : list sock_op :=
  [KRecv; KSend (Msg [] [] [1; 2]); KRecv; KConnect 5 (demo_opts 1); KWorker WStart; KWorker WTimeout; KWorker WStop; KSent 5;
   KReceived 5; KWorker WStart; KWorker WStop; KRecv; KRecv].

Definition ledger {S} (k : result (nn_sock loop_net S * list sock_out)) : result (list sock_out * list (addr * nn_msg)) :=
  '(k, rs) ← k; Ok (rs, sent (w_net (sk_world k))).

(** Sent when a peer came, sent again when the timer fired and the pipe had
    become writable again, and answered. *)
Example req_demo :
  ledger (k ← nn_sock_init (req_state0 demo_replies) demo_replies; sock_run k demo_req_ops)
  = Ok ([ORecv (- EFSM) None; OSend 0; ORecv (- EAGAIN) None; ONone; ONone; ONone; ONone; ONone; ONone; ONone; ONone;
         ORecv 0 (Some (Msg [] [] [2])); ORecv (- EFSM) None],
        [(5%positive, Msg [128; 0; 0; 8] [] [1; 2]); (5%positive, Msg [128; 0; 0; 8] [] [1; 2])]).
Proof. vm_compute. reflexivity. Qed.

Lemma demo_req_ops_sends m : KSend m ∈ demo_req_ops -> sphdr m = [].
Proof. intros Hm. apply list_elem_of_In in Hm. cbn in Hm. repeat destruct Hm as [Hm|Hm]; by simplify_eq. Qed.

Lemma req_session_witness :
  exists s w, nn_req_init ∅ 7 (World demo_replies ∅ [] (fun _ => 0)) = Ok (s, w) /\
    let start := nn_sock_init (nn_req_setopt s NN_REQ NN_REQ_RESEND_IVL [100; 0; 0; 0]).1 demo_replies in
    (exists (k : nn_sock loop_net (nn_req store nn_list)) rs, (k ← start; sock_run k demo_req_ops) = Ok (k, rs) /\ sock_inv k
       /\ stage_ok (sk_base k) (sk_world k) /\ request_ok (sk_base k)) \/
    (exists os1 os2 k1 rs1 m, demo_req_ops = os1 ++ KRecv :: os2 /\ (k ← start; sock_run k os1) = Ok (k1, rs1) /\ sock_inv k1
       /\ rq_state (sk_base k1) = NN_REQ_STATE_DONE /\ tk_reply (rq_task (sk_base k1)) = Dead m
       /\ (k ← start; sock_run k demo_req_ops) = Err BadAccess).
Proof. apply (req_session (∅ : store) demo_replies 7 [100; 0; 0; 0] demo_req_ops); [done|vm_compute; discriminate|exact demo_req_ops_sends]. Defined.

Lemma req_state0_rep net : req_rep (req_state0 net) (World net ∅ [] (fun _ => 0)).
Proof. destruct (req_init_rep (∅ : store) 7 net) as (s & E & Hr & _); [done|]. vm_compute in E. injection E as <-. exact Hr. Qed.

(** Pipe 6 is connected after the first [n] operations. *)
Definition demo_req_state net (n : nat) := session_state (req_state0 net) net (take n demo_req_ops ++ [KConnect 6 (demo_opts 1)]).

(** The invariant holds as long as the user does not receive a reply that is
    gone, and so it does after every prefix of a session that goes through. *)
Lemma demo_req_state_ok net (n : nat) :
  (if demo_req_state net n is Ok _ then true else false) = true -> exists k, demo_req_state net n = Ok k /\ sock_inv k.
Proof.
  unfold demo_req_state, session_state. set (os := take n demo_req_ops ++ [KConnect 6 (demo_opts 1)]).
  destruct (sock_session_until (req_state0 net) net os) as [(k1 & rs & E1 & Hk)|(os1 & os2 & k1 & rs1 & -> & E1 & Hk & Hf & Herr)].
  - apply req_state0_rep.
  - constructor; [by left| |done].
    intros m [Hm|[=]%list_elem_of_singleton]%elem_of_app. apply bool_decide_eq_true. apply demo_req_ops_sends.
    rewrite <- (take_drop n demo_req_ops). apply elem_of_app. by left.
  - intros _. exists k1. split; [|done]. destruct (nn_sock_init _ _) as [k0|]; [|done]. mred in E1. mred. by rewrite E1.
  - assert (sock_step k1 KRecv = Err BadAccess) as Es.
    { cbn [sock_step]. unfold nn_sock_recv. rewrite (si_state _ Hk). cbn [sb_norecv sb_recv req_proto]. by rewrite (nn_req_crecv_dead _ _ Hf). }
    specialize (Herr _ Es). destruct (nn_sock_init _ _) as [k0|]; [|done]. mred in Herr. mred. by rewrite Herr.
Qed.

(** A message arrives. *)
Lemma demo_arrival (k : nn_sock loop_net (nn_req store nn_list)) p :
  sock_inv k -> pb_instate <$> w_pipes (sk_world k) !! p = Some NN_PIPEBASE_INSTATE_ASYNC ->
  exists w : world loop_net, world_ok w /\ req_rep (sk_base k) w /\ w_events w = [(p, NN_PIPE_IN)].
Proof.
  intros Hk Hi. destruct (w_pipes (sk_world k) !! p) as [pb|] eqn:Hp; [|done]. injection Hi as Hi. destruct (received_ok _ _ _ (si_world _ Hk) (si_events _ Hk) Hp Hi) as (w & _ & Hw & Hv & _ & _ & He).
  exists w. split; [done|]. split; [|done]. eapply req_rep_view; [exact Hv|apply (si_rep _ Hk)].
Qed.

Lemma req_reply_witness :
  exists (k : nn_sock loop_net (nn_req store nn_list)) (w : world loop_net) s' w' ms,
    demo_req_state demo_replies 8 = Ok k
    /\ rq_state (sk_base k) = NN_REQ_STATE_ACTIVE /\ world_ok w /\ req_rep (sk_base k) w
    /\ nn_req_in (sk_base k) (set_events w []) 5 = Ok (s', w') /\ rcvd_many (set_events w []) w' ms
    /\ match rq_state s' with
       | NN_REQ_STATE_ACTIVE => Forall (refused (sk_base k)) ms \/ (exists l q m, ms = l ++ [(q, m)] /\ Forall (refused (sk_base k)) l /\ (length (body m) < 4)%nat)
       | NN_REQ_STATE_STOPPING_TIMER => exists l q m m', ms = l ++ [(q, m)] /\ Forall (refused (sk_base k)) l
           /\ xreq_delivers m (Some m') /\ answers (tk_id (rq_task (sk_base k))) m' = true
           /\ exists s2 s3, req_workers s' w' [WStart; WStop] = Ok (s2, w') /\ has_in (nn_req_events s2) = true
                /\ nn_req_crecv s2 w' = Ok (s3, w', 0, Some (stripped m')) /\ rq_state s3 = NN_REQ_STATE_PASSIVE
       | _ => False
       end.
Proof.
  destruct (demo_req_state_ok demo_replies 8) as (k & E & Hk); [by vm_compute|].
  assert (Hp : pb_instate <$> w_pipes (sk_world k) !! 5%positive = Some NN_PIPEBASE_INSTATE_ASYNC
    /\ rq_state (sk_base k) = NN_REQ_STATE_ACTIVE).
  { vm_compute in E. injection E as Ek. rewrite <- Ek. split; vm_compute; reflexivity. }
  destruct Hp as (Hi & Hst). destruct (demo_arrival k _ Hk Hi) as (w & Hw & Hr & He).
  destruct (req_reply (sk_base k) w 5 [] Hw Hr Hst He) as (s' & w' & ms & E' & Hms & _ & Hcase).
  exists k, w, s', w', ms. repeat (split; [assumption|]). exact Hcase.
Defined.

Lemma req_resend_witness :
  exists (k : nn_sock loop_net (nn_req store nn_list)) s1 s2 w2 s3 w3 s4 w4,
    demo_req_state demo_replies 5 = Ok k
    /\ req_worker (sk_base k) (sk_world k) WTimeout = Ok (s1, sk_world k)
    /\ req_workers s1 (sk_world k) [WStart; WStop] = Ok (s2, w2) /\ sent_again (sk_base k) (sk_world k) s2 w2
    /\ nn_req_rm (sk_base k) (sk_world k) 5 = Ok (s3, w3)
    /\ req_workers s3 (drop_pipe w3 5) [WStart; WStop] = Ok (s4, w4) /\ sent_again (sk_base k) (drop_pipe w3 5) s4 w4.
Proof.
  destruct (demo_req_state_ok demo_replies 5) as (k & E & Hk); [by vm_compute|].
  assert (Hp : rq_state (sk_base k) = NN_REQ_STATE_ACTIVE /\ tk_sent_to (rq_task (sk_base k)) = Some 5%positive
    /\ worker_pending (tk_timer (rq_task (sk_base k))) WTimeout = true).
  { vm_compute in E. injection E as Ek. rewrite <- Ek. do 2 (split; [vm_compute; reflexivity|]). vm_compute. reflexivity. }
  destruct Hp as (Hst & Hto & Hpend).
  destruct (req_resend (sk_base k) (sk_world k) (si_world _ Hk) (si_rep _ Hk) Hst) as (Ht & Hrm & _).
  destruct (Ht Hpend) as (s1 & s2 & w2 & E1 & E2 & Hs).
  destruct (Hrm 5%positive Hto) as (s3 & w3 & s4 & w4 & E3 & E4 & Hs4); [intros e; rewrite (si_events _ Hk); by intros ?%elem_of_nil|].
  exists k, s1, s2, w2, s3, w3, s4, w4. repeat (split; [assumption|]). assumption.
Defined.

(** The reply was stored, and a late reply to an older request waits at pipe
    5; a message at pipe 6 sets the loop going. *)
Lemma req_reply_overwritten_witness :
  exists (k : nn_sock loop_net (nn_req store nn_list)) (w : world loop_net) s' w',
    demo_req_state demo_late 11 = Ok k
    /\ rq_state (sk_base k) = NN_REQ_STATE_DONE /\ tk_reply (rq_task (sk_base k)) = Live (Msg [] [] [2])
    /\ world_ok w /\ req_rep (sk_base k) w
    /\ nn_req_in (sk_base k) (set_events w []) 6 = Ok (s', w') /\ rq_state s' = NN_REQ_STATE_DONE
    /\ has_in (nn_req_events s') = true.
Proof.
  destruct (demo_req_state_ok demo_late 11) as (k & E & Hk); [by vm_compute|].
  assert (Hp : pb_instate <$> w_pipes (sk_world k) !! 6%positive = Some NN_PIPEBASE_INSTATE_ASYNC
    /\ rq_state (sk_base k) = NN_REQ_STATE_DONE /\ tk_reply (rq_task (sk_base k)) = Live (Msg [] [] [2])).
  { vm_compute in E. injection E as Ek. rewrite <- Ek. do 2 (split; [vm_compute; reflexivity|]). vm_compute. reflexivity. }
  destruct Hp as (Hi & Hst & Hrep). destruct (demo_arrival k _ Hk Hi) as (w & Hw & Hr & He).
  destruct (req_reply_overwritten (sk_base k) w 6 [] Hw Hr Hst He) as (s' & w' & ms & E' & _ & _ & Hst' & Hev & _).
  exists k, w, s', w'. repeat (split; [assumption|]). assumption.
Defined.

Lemma req_stops_witness :
  exists (k : nn_sock loop_net (nn_req store nn_list)) s1 s2,
    demo_req_state demo_replies 5 = Ok k
    /\ nn_req_stop (sk_base k) (sk_world k) = Ok (s1, sk_world k)
    /\ req_workers s1 (sk_world k) [WStart; WStop] = Ok (s2, sk_world k) /\ rq_stopped s2 = true.
Proof.
  destruct (demo_req_state_ok demo_replies 5) as (k & E & Hk); [by vm_compute|].
  destruct (req_stops (sk_base k) (sk_world k) (si_rep _ Hk)) as (s1 & s2 & E1 & E2 & Hs & _). exists k, s1, s2. repeat (split; [assumption|]). assumption.
Defined.

(** The peer answered request 8 twice, and then request 9.  The loop of
    [nn_req_in] ends at the first answer and leaves its pipe readable, so no
    further event announces the messages behind it: the reply to request 9 is
    not seen although the pipe can be read. *)
Definition demo_twice : loop_net :=
  LoopNet [] [] [Msg [] [] [128; 0; 0; 8; 1]; Msg [] [] [128; 0; 0; 8; 1]; Msg [] [] [128; 0; 0; 9; 2]].

Example req_lost_wakeup :
  (k ← session_state (req_state0 demo_twice) demo_twice
         [KConnect 5 (demo_opts 1); KSend (Msg [] [] [1]); KReceived 5; KWorker WStart; KWorker WStop; KRecv; KSend (Msg [] [] [2])];
   Ok (rq_state (sk_base k), nn_fq_can_recv (xreq_fq (rq_xreq (sk_base k))), pb_instate <$> w_pipes (sk_world k) !! 5%positive,
       w_events (sk_world k), ln_inbox (w_net (sk_world k))))
  = Ok (NN_REQ_STATE_ACTIVE, true, Some NN_PIPEBASE_INSTATE_IDLE, [], tail (ln_inbox demo_twice)).
Proof. vm_compute. reflexivity. Qed.

(** A negative re-send interval is accepted by [nn_req_setopt] and aborts the
    process when the next request is sent. *)
Lemma req_negative_interval {St L T} `{ListSpec St L} `{TransportSpec T} (s : nn_req St L) (w : world T) m v s1 :
  world_ok w -> req_rep s w -> rq_state s = NN_REQ_STATE_PASSIVE -> sphdr m = [] -> (exists q, off_out w q) ->
  nn_req_setopt s NN_REQ NN_REQ_RESEND_IVL v = (s1, 0) -> int_of_bytes v < 0 -> nn_req_csend s1 w m = Err AssertFailed.
Proof.
  intros Hw [Hb Hst _] Es Hm [q Hq] Eo Hv. unfold nn_req_setopt in Eo. rewrite !bool_decide_true in Eo by done. cbn [negb] in Eo.
  case_bool_decide; [|done]. cbn [negb] in Eo. injection Eo as <-. unfold nn_req_csend. rewrite Hm.
  cbn [length rq_task]. decide_bools. mred.
  assert (Hid : in_range 32 (u32 (tk_id (rq_task s) + 1))) by (apply wrap_range; lia).
  cbn [replicate]. rewrite nn_putl_eq by (apply Z.lor_nonneg; split; [apply Hid|done]). mred.
  rewrite req_action_active by (apply Hb || done). run_handler. cbn [rq_state with_task]. rewrite Es.
  decide_bools. cbn [andb]. unfold nn_req_action_send. cbn [rq_task rq_xreq with_task tk_request tk_timer rq_resend_ivl].
  destruct (xreq_send_to_ok _ w (Msg (be_bytes 4 (Z.lor (u32 (tk_id (rq_task s) + 1)) 2147483648) ++ []) (hdrs m) (body m)) Hw (rb_xreq _ _ Hb))
    as [[_ Hc]|(x & w' & r & -> & _)]; mred.
  - exfalso. by eapply (lb_can_send_none w (xreq_lb (rq_xreq s)) q); [|apply Hb|..].
  - change (bool_decide (0 = - EAGAIN)) with false. cbn [with_xreq rq_task rq_resend_ivl with_task tk_timer]. decide_bools.
    unfold nn_timer_start. decide_bools. done.
Qed.

(** A message that comes when no request is pending is dropped, and closing
    the socket then terminates its object a second time. *)
Example req_reply_terminated_twice :
  (k ← session_state (req_state0 demo_late) demo_late [KConnect 5 (demo_opts 1); KReceived 5; KClose 5];
   '(s, w) ← nn_req_stop (sk_base k) (sk_world k); '(s, _) ← req_workers s w [WStart; WStop];
   Ok (rq_stopped s, size (w_pipes w), nn_req_term s)) = Ok (true, 0%nat, Err BadAccess).
Proof. vm_compute. reflexivity. Qed.
