(* ===== verification/Survey.v ===== *)
(** * The survey protocol ([protocols/survey/xsurveyor.c], [surveyor.c],
    [xrespondent.c], [respondent.c])

    A surveyor sends a survey to all its peers, tagged with an ID, and takes
    their responses until a deadline.  The raw socket distributes and
    fair-queues; the cooked one has the state machine [nn_surveyor_handler],
    driven by the user and by the deadline timer.  The respondents' sockets
    repeat the ones of REP statement by statement. *)

From S2P Require Import Prelude NNList NNFamily Priolist Wire Timer Pipe Sock Balance Members Dist Pipeline Bus Reqrep Req.
Local Open Scope Z_scope.

Definition NN_SURVEYOR : Z := 6 * 16 + 2.
Definition NN_SURVEYOR_DEADLINE : Z := 1.
Definition NN_SURVEYOR_DEFAULT_DEADLINE : Z := 1000.

Inductive surveyor_state :=
  | NN_SURVEYOR_STATE_IDLE | NN_SURVEYOR_STATE_PASSIVE | NN_SURVEYOR_STATE_ACTIVE | NN_SURVEYOR_STATE_CANCELLING
  | NN_SURVEYOR_STATE_STOPPING_TIMER | NN_SURVEYOR_STATE_STOPPING.
#[export] Instance surveyor_state_eq_dec : EqDecision surveyor_state.
Proof. solve_decision. Defined.

Definition NN_SURVEYOR_ACTION_START : Z := 1.
Definition NN_SURVEYOR_ACTION_CANCEL : Z := 2.
Definition NN_SURVEYOR_SRC_DEADLINE_TIMER : Z := 1.

Section Survey.
  Context {St L T : Type} `{ListOps St L} `{Transport T}.
  Implicit Types (w : world T).

(** ** XSURVEYOR *)
Record nn_xsurveyor := Xsurveyor { xsv_outpipes : nn_dist St L; xsv_inpipes : nn_fq St L }.

Definition nn_xsurveyor_init (s : St) : nn_xsurveyor := Xsurveyor (nn_dist_init s) (nn_fq_init (PItems s ∅)).

Definition nn_xsurveyor_term (self : nn_xsurveyor) : result unit :=
  _ ← nn_fq_term (xsv_inpipes self); nn_dist_term (xsv_outpipes self).

(** One [nn_xsurveyor_data] holds both items: they have the same address. *)
Definition nn_xsurveyor_add (self : nn_xsurveyor) w (pipe : addr) : result (nn_xsurveyor * world T * Z) :=
  rcvprio ← pipe_option w pipe NN_RCVPRIO;
  _ ← assert_ (bool_decide (1 <= rcvprio) && bool_decide (rcvprio <= 16));
  let data := fresh (dom (pi_data (fq_items (xsv_inpipes self))) ∪ dom (di_data (xsv_outpipes self))) in
  let inpipes := nn_fq_add (xsv_inpipes self) data pipe rcvprio in
  let outpipes := nn_dist_add (xsv_outpipes self) data pipe in
  w ← nn_pipe_setdata w pipe (Some data);
  Ok (Xsurveyor outpipes inpipes, w, 0).

Definition nn_xsurveyor_rm (self : nn_xsurveyor) w (pipe : addr) : result (nn_xsurveyor * world T) :=
  data ← pipe_data_of w pipe;
  inpipes ← nn_fq_rm (xsv_inpipes self) data;
  outpipes ← nn_dist_rm (xsv_outpipes self) data;
  Ok (Xsurveyor outpipes inpipes, w).

Definition nn_xsurveyor_in (self : nn_xsurveyor) w (pipe : addr) : result (nn_xsurveyor * world T) :=
  data ← pipe_data_of w pipe;
  inpipes ← nn_fq_in (xsv_inpipes self) data;
  Ok (Xsurveyor (xsv_outpipes self) inpipes, w).

Definition nn_xsurveyor_out (self : nn_xsurveyor) w (pipe : addr) : result (nn_xsurveyor * world T) :=
  data ← pipe_data_of w pipe;
  outpipes ← nn_dist_out (xsv_outpipes self) data;
  Ok (Xsurveyor outpipes (xsv_inpipes self), w).

Definition nn_xsurveyor_events (self : nn_xsurveyor) : Z :=
  let events := NN_SOCKBASE_EVENT_OUT in
  if nn_fq_can_recv (xsv_inpipes self) then Z.lor events NN_SOCKBASE_EVENT_IN else events.

Definition nn_xsurveyor_send (self : nn_xsurveyor) w (msg : nn_msg) : result (nn_xsurveyor * world T * Z) :=
  '(outpipes, w, rc) ← nn_dist_send (xsv_outpipes self) w msg None;
  Ok (Xsurveyor outpipes (xsv_inpipes self), w, rc).

Definition nn_xsurveyor_recv (self : nn_xsurveyor) w : result (nn_xsurveyor * world T * Z * option nn_msg) :=
  '(inpipes, w, rc, r) ← nn_fq_recv (xsv_inpipes self) w;
  let self := Xsurveyor (xsv_outpipes self) inpipes in
  if bool_decide (rc < 0) then Ok (self, w, rc, None)
  else
    '(msg, _) ← deref r;
    if negb (parsed rc) then
      if bool_decide (length (body msg) < 4)%nat then Ok (self, w, - EAGAIN, None)
      else
        _ ← assert_ (bool_decide (length (sphdr msg) = 0%nat));
        Ok (self, w, 0, Some (split_header 4 msg))
    else Ok (self, w, 0, Some msg).

Definition nn_xsurveyor_setopt (self : nn_xsurveyor) (level option : Z) (optval : bytes) : Z := - ENOPROTOOPT.
Definition nn_xsurveyor_getopt (self : nn_xsurveyor) (level option : Z) : Z := - ENOPROTOOPT.

#[export] Instance xsurveyor_proto : SockProto T nn_xsurveyor := {|
  sb_nosend := false;
  sb_norecv := false;
  sb_add := nn_xsurveyor_add;
  sb_rm := nn_xsurveyor_rm;
  sb_in := nn_xsurveyor_in;
  sb_out := nn_xsurveyor_out;
  sb_events := nn_xsurveyor_events;
  sb_send := nn_xsurveyor_send;
  sb_recv := nn_xsurveyor_recv;
  sb_pending s e := false;
  sb_worker s w e := Err BadAccess
|}.

(** ** SURVEYOR *)

(** [sv_stopped]: [nn_sockbase_stopped] was called. *)
Record nn_surveyor := Surveyor {
  sv_xsurveyor : nn_xsurveyor;
  sv_fsm : nn_fsm;
  sv_state : surveyor_state;
  sv_surveyid : Z;
  sv_timer : nn_timer;
  sv_tosend : nn_msg;
  sv_deadline : Z;
  sv_timedout : bool;
  sv_stopped : bool
}.

Definition sv_with_xsurveyor (self : nn_surveyor) (x : nn_xsurveyor) : nn_surveyor :=
  Surveyor x (sv_fsm self) (sv_state self) (sv_surveyid self) (sv_timer self) (sv_tosend self) (sv_deadline self) (sv_timedout self) (sv_stopped self).
Definition sv_with_fsm (self : nn_surveyor) (f : nn_fsm) : nn_surveyor :=
  Surveyor (sv_xsurveyor self) f (sv_state self) (sv_surveyid self) (sv_timer self) (sv_tosend self) (sv_deadline self) (sv_timedout self) (sv_stopped self).
Definition sv_with_state (self : nn_surveyor) (st : surveyor_state) : nn_surveyor :=
  Surveyor (sv_xsurveyor self) (sv_fsm self) st (sv_surveyid self) (sv_timer self) (sv_tosend self) (sv_deadline self) (sv_timedout self) (sv_stopped self).
Definition sv_with_timer (self : nn_surveyor) (t : nn_timer) : nn_surveyor :=
  Surveyor (sv_xsurveyor self) (sv_fsm self) (sv_state self) (sv_surveyid self) t (sv_tosend self) (sv_deadline self) (sv_timedout self) (sv_stopped self).
Definition sv_with_survey (self : nn_surveyor) (id : Z) (m : nn_msg) : nn_surveyor :=
  Surveyor (sv_xsurveyor self) (sv_fsm self) (sv_state self) id (sv_timer self) m (sv_deadline self) (sv_timedout self) (sv_stopped self).
Definition sv_with_timedout (self : nn_surveyor) (b : bool) : nn_surveyor :=
  Surveyor (sv_xsurveyor self) (sv_fsm self) (sv_state self) (sv_surveyid self) (sv_timer self) (sv_tosend self) (sv_deadline self) b (sv_stopped self).

Definition nn_surveyor_inprogress (self : nn_surveyor) : bool :=
  match sv_state self with
  | NN_SURVEYOR_STATE_IDLE | NN_SURVEYOR_STATE_PASSIVE | NN_SURVEYOR_STATE_STOPPING => false
  | _ => true
  end.

Definition nn_surveyor_resend (self : nn_surveyor) w : result (nn_surveyor * world T) :=
  '(x, w, rc) ← nn_xsurveyor_send (sv_xsurveyor self) w (sv_tosend self);
  _ ← assert_ (bool_decide (rc = 0));
  Ok (sv_with_xsurveyor self x, w).

(** Sending the survey and starting the timer, as two states do. *)
Definition surveyor_begin (self : nn_surveyor) w : result (nn_surveyor * world T) :=
  '(self, w) ← nn_surveyor_resend self w;
  timer ← nn_timer_start (sv_timer self) (sv_deadline self);
  Ok (sv_with_state (sv_with_timer self timer) NN_SURVEYOR_STATE_ACTIVE, w).

Definition is_deadline (src type t : Z) : bool := bool_decide (src = NN_SURVEYOR_SRC_DEADLINE_TIMER) && bool_decide (type = t).

(** The states of the handler. *)
Definition surveyor_idle (self : nn_surveyor) w (src type : Z) : result (nn_surveyor * world T) :=
  if is_action src type NN_FSM_START then Ok (sv_with_state self NN_SURVEYOR_STATE_PASSIVE, w) else Err AssertFailed.
Definition surveyor_passive (self : nn_surveyor) w (src type : Z) : result (nn_surveyor * world T) :=
  if is_action src type NN_SURVEYOR_ACTION_START then surveyor_begin self w else Err AssertFailed.
Definition surveyor_active (self : nn_surveyor) w (src type : Z) : result (nn_surveyor * world T) :=
  if is_action src type NN_SURVEYOR_ACTION_CANCEL then
    timer ← nn_timer_stop (sv_timer self);
    Ok (sv_with_state (sv_with_timer self timer) NN_SURVEYOR_STATE_CANCELLING, w)
  else if is_deadline src type NN_TIMER_TIMEOUT then
    timer ← nn_timer_stop (sv_timer self);
    Ok (sv_with_timedout (sv_with_state (sv_with_timer self timer) NN_SURVEYOR_STATE_STOPPING_TIMER) true, w)
  else Err AssertFailed.
Definition surveyor_cancelling (self : nn_surveyor) w (src type : Z) : result (nn_surveyor * world T) :=
  if is_action src type NN_SURVEYOR_ACTION_CANCEL then Ok (self, w)
  else if is_deadline src type NN_TIMER_STOPPED then surveyor_begin self w
  else Err AssertFailed.
Definition surveyor_stopping_timer (self : nn_surveyor) w (src type : Z) : result (nn_surveyor * world T) :=
  if is_action src type NN_SURVEYOR_ACTION_CANCEL then Ok (sv_with_state self NN_SURVEYOR_STATE_CANCELLING, w)
  else if is_deadline src type NN_TIMER_STOPPED then Ok (sv_with_state self NN_SURVEYOR_STATE_PASSIVE, w)
  else Err AssertFailed.

Definition nn_surveyor_handler (self : nn_surveyor * world T) (src type : Z) (ptr : srcptr) : result (nn_surveyor * world T) :=
  let '(self, w) := self in
  match sv_state self with
  | NN_SURVEYOR_STATE_IDLE => surveyor_idle self w src type
  | NN_SURVEYOR_STATE_PASSIVE => surveyor_passive self w src type
  | NN_SURVEYOR_STATE_ACTIVE => surveyor_active self w src type
  | NN_SURVEYOR_STATE_CANCELLING => surveyor_cancelling self w src type
  | NN_SURVEYOR_STATE_STOPPING_TIMER => surveyor_stopping_timer self w src type
  | NN_SURVEYOR_STATE_STOPPING => Err AssertFailed
  end.

Definition nn_surveyor_shutdown (self : nn_surveyor * world T) (src type : Z) (ptr : srcptr) : result (nn_surveyor * world T) :=
  let '(self, w) := self in
  self ← (if is_action src type NN_FSM_STOP then
            timer ← nn_timer_stop (sv_timer self);
            Ok (sv_with_state (sv_with_timer self timer) NN_SURVEYOR_STATE_STOPPING)
          else Ok self);
  if bool_decide (sv_state self = NN_SURVEYOR_STATE_STOPPING) then
    if negb (nn_timer_isidle (sv_timer self)) then Ok (self, w)
    else
      fsm ← nn_fsm_stopped_noevent (sv_fsm self);
      Ok (Surveyor (sv_xsurveyor self) fsm NN_SURVEYOR_STATE_IDLE (sv_surveyid self) (sv_timer self) (sv_tosend self)
            (sv_deadline self) (sv_timedout self) true, w)
  else Err AssertFailed.

#[export] Instance surveyor_machine : Machine (nn_surveyor * world T) := {|
  m_fsm s := sv_fsm s.1;
  m_set_fsm s fsm := (sv_with_fsm s.1 fsm, s.2);
  m_fn := nn_surveyor_handler;
  m_shutdown_fn := nn_surveyor_shutdown
|}.

(** [key]: the random number. *)
Definition nn_surveyor_init (s : St) (key : Z) w : result (nn_surveyor * world T) :=
  nn_fsm_start (Surveyor (nn_xsurveyor_init s) nn_fsm_init NN_SURVEYOR_STATE_IDLE key nn_timer_init empty_msg
    NN_SURVEYOR_DEFAULT_DEADLINE false false, w).

Definition nn_surveyor_term (self : nn_surveyor) : result unit :=
  _ ← nn_timer_term (sv_timer self);
  _ ← nn_fsm_term (sv_fsm self);
  nn_xsurveyor_term (sv_xsurveyor self).

Definition nn_surveyor_stop (self : nn_surveyor) w : result (nn_surveyor * world T) := nn_fsm_stop (self, w).

Definition nn_surveyor_events (self : nn_surveyor) : Z :=
  let rc := nn_xsurveyor_events (sv_xsurveyor self) in
  if negb (nn_surveyor_inprogress self) then Z.lor rc NN_SOCKBASE_EVENT_IN else rc.

Definition nn_surveyor_send (self : nn_surveyor) w (msg : nn_msg) : result (nn_surveyor * world T * Z) :=
  let surveyid := Z.lor (u32 (sv_surveyid self + 1)) 0x80000000 in
  _ ← assert_ (bool_decide (length (sphdr msg) = 0%nat));
  hdr ← nn_putl (replicate 4 0) surveyid;
  let self := sv_with_survey self surveyid (Msg hdr (hdrs msg) (body msg)) in
  if nn_surveyor_inprogress self then
    if negb (has_out (nn_xsurveyor_events (sv_xsurveyor self))) then Ok (self, w, - EAGAIN)
    else
      '(self, w) ← nn_fsm_action (self, w) NN_SURVEYOR_ACTION_CANCEL;
      Ok (self, w, 0)
  else
    '(self, w) ← nn_fsm_action (self, w) NN_SURVEYOR_ACTION_START;
    Ok (self, w, 0).

(** The loop of [nn_surveyor_recv]: stale responses are skipped. *)
Fixpoint surveyor_recv_loop (fuel : nat) (x : nn_xsurveyor) w (id : Z) : result (nn_xsurveyor * world T * Z * option nn_msg) :=
  match fuel with
  | O => Err NoFuel
  | S fuel =>
      '(x, w, rc, r) ← nn_xsurveyor_recv x w;
      if bool_decide (rc = - EAGAIN) then Ok (x, w, - EAGAIN, None)
      else
        _ ← assert_ (bool_decide (rc = 0));
        msg ← deref r;
        if negb (bool_decide (length (sphdr msg) = 4%nat)) then surveyor_recv_loop fuel x w id
        else
          surveyid ← nn_getl (sphdr msg);
          if negb (bool_decide (surveyid = id)) then surveyor_recv_loop fuel x w id
          else Ok (x, w, 0, Some (Msg [] (hdrs msg) (body msg)))
  end.

Definition nn_surveyor_recv (self : nn_surveyor) w : result (nn_surveyor * world T * Z * option nn_msg) :=
  if negb (nn_surveyor_inprogress self) then
    if sv_timedout self then Ok (sv_with_timedout self false, w, - ETIMEDOUT, None)
    else Ok (self, w, - EFSM, None)
  else
    '(x, w, rc, r) ← surveyor_recv_loop (recv_fuel w) (sv_xsurveyor self) w (sv_surveyid self);
    Ok (sv_with_xsurveyor self x, w, rc, r).

Definition nn_surveyor_setopt (self : nn_surveyor) (level option : Z) (optval : bytes) : nn_surveyor * Z :=
  if negb (bool_decide (level = NN_SURVEYOR)) then (self, - ENOPROTOOPT)
  else if bool_decide (option = NN_SURVEYOR_DEADLINE) then
    if negb (bool_decide (length optval = 4%nat)) then (self, - EINVAL)
    else (Surveyor (sv_xsurveyor self) (sv_fsm self) (sv_state self) (sv_surveyid self) (sv_timer self) (sv_tosend self)
            (int_of_bytes optval) (sv_timedout self) (sv_stopped self), 0)
  else (self, - ENOPROTOOPT).

(** The value, for a buffer of [optvallen] bytes. *)
Definition nn_surveyor_getopt (self : nn_surveyor) (level option : Z) (optvallen : nat) : Z * bytes :=
  if negb (bool_decide (level = NN_SURVEYOR)) then (- ENOPROTOOPT, [])
  else if bool_decide (option = NN_SURVEYOR_DEADLINE) then
    if bool_decide (optvallen < 4)%nat then (- EINVAL, []) else (0, bytes_of_int (sv_deadline self))
  else (- ENOPROTOOPT, []).

Definition surveyor_worker (self : nn_surveyor) w (e : worker_event) : result (nn_surveyor * world T) :=
  '(timer, told) ← worker_step (sv_timer self) e;
  let self := sv_with_timer self timer in
  match told with
  | None => Ok (self, w)
  | Some type => nn_fsm_feed (self, w) NN_SURVEYOR_SRC_DEADLINE_TIMER type PtrTimer
  end.

(** [nn_surveyor_sockbase_vfptr] reuses the functions of [xsurveyor]. *)
Definition on_xsurveyor {A} (self : nn_surveyor) (f : nn_xsurveyor -> result (nn_xsurveyor * A)) : result (nn_surveyor * A) :=
  '(x, a) ← f (sv_xsurveyor self); Ok (sv_with_xsurveyor self x, a).

#[export] Instance surveyor_proto : SockProto T nn_surveyor := {|
  sb_nosend := false;
  sb_norecv := false;
  sb_add s w p := '(x, w, rc) ← nn_xsurveyor_add (sv_xsurveyor s) w p; Ok (sv_with_xsurveyor s x, w, rc);
  sb_rm s w p := on_xsurveyor s (fun x => nn_xsurveyor_rm x w p);
  sb_in s w p := on_xsurveyor s (fun x => nn_xsurveyor_in x w p);
  sb_out s w p := on_xsurveyor s (fun x => nn_xsurveyor_out x w p);
  sb_events := nn_surveyor_events;
  sb_send := nn_surveyor_send;
  sb_recv := nn_surveyor_recv;
  sb_pending s e := worker_pending (sv_timer s) e;
  sb_worker := surveyor_worker
|}.

End Survey.
Arguments nn_xsurveyor : clear implicits.
Arguments nn_surveyor : clear implicits.

(** ** XRESPONDENT and RESPONDENT

    [xrespondent.c] and [respondent.c] are [xrep.c] and [rep.c] with other
    names: each function has the statements of its counterpart. *)
Section Respondent.
  Context {St L T : Type} `{ListOps St L} `{Transport T}.

Definition nn_xrespondent : Type := nn_xrep St L.
Definition nn_xrespondent_data : Type := nn_xrep_data.
Definition nn_xrespondent_init : St -> Z -> Z -> nn_xrespondent := nn_xrep_init.
Definition nn_xrespondent_term : nn_xrespondent -> result unit := nn_xrep_term.
Definition nn_xrespondent_add : nn_xrespondent -> world T -> addr -> result (nn_xrespondent * world T * Z) := nn_xrep_add.
Definition nn_xrespondent_rm : nn_xrespondent -> world T -> addr -> result (nn_xrespondent * world T) := nn_xrep_rm.
Definition nn_xrespondent_in : nn_xrespondent -> world T -> addr -> result (nn_xrespondent * world T) := nn_xrep_in.
Definition nn_xrespondent_out : nn_xrespondent -> world T -> addr -> result (nn_xrespondent * world T) := nn_xrep_out.
Definition nn_xrespondent_events : nn_xrespondent -> Z := nn_xrep_events.
Definition nn_xrespondent_send : nn_xrespondent -> world T -> nn_msg -> result (nn_xrespondent * world T * Z) := nn_xrep_send.
Definition nn_xrespondent_recv : nn_xrespondent -> world T -> result (nn_xrespondent * world T * Z * option nn_msg) := nn_xrep_recv.

Definition nn_respondent : Type := nn_rep St L.
Definition nn_respondent_init : St -> Z -> Z -> nn_respondent := nn_rep_init.
Definition nn_respondent_term : nn_respondent -> result unit := nn_rep_term.
Definition nn_respondent_events : nn_respondent -> Z := nn_rep_events.
Definition nn_respondent_send : nn_respondent -> world T -> nn_msg -> result (nn_respondent * world T * Z) := nn_rep_send.
Definition nn_respondent_recv : nn_respondent -> world T -> result (nn_respondent * world T * Z * option nn_msg) := nn_rep_recv.

#[export] Instance xrespondent_proto : SockProto T nn_xrespondent := xrep_proto.
#[export] Instance respondent_proto : SockProto T nn_respondent := rep_proto.
End Respondent.
Arguments nn_xrespondent : clear implicits.
Arguments nn_respondent : clear implicits.

(** ** The raw surveyor is a raw bus without headers *)
Definition bus_view {St L} (s : nn_xsurveyor St L) : nn_xbus St L := Xbus (xsv_outpipes s) (xsv_inpipes s).
Definition of_bus {St L} (x : nn_xbus St L) : nn_xsurveyor St L := Xsurveyor (xbus_outpipes x) (xbus_inpipes x).

Section SurveySpec.
  Context {St L T : Type} `{ListSpec St L} `{TransportSpec T}.
  Implicit Types (w : world T) (p : addr) (s : nn_surveyor St L) (x : nn_xsurveyor St L).

Definition xsv_rep x w : Prop := xbus_rep (bus_view x) w.

Lemma xsurveyor_add_bus x w p :
  nn_xsurveyor_add x w p = ('(b, w, rc) ← nn_xbus_add (bus_view x) w p; Ok (of_bus b, w, rc)).
Proof.
  unfold nn_xsurveyor_add, nn_xbus_add, bus_view. cbn [xbus_inpipes xbus_outpipes].
  destruct (pipe_option _ _ _); mred; [|done]. destruct (assert_ _); mred; [|done]. by destruct (nn_pipe_setdata _ _ _).
Qed.
Lemma xsurveyor_rm_bus x w p : nn_xsurveyor_rm x w p = ('(b, w) ← nn_xbus_rm (bus_view x) w p; Ok (of_bus b, w)).
Proof.
  unfold nn_xsurveyor_rm, nn_xbus_rm, bus_view. cbn [xbus_inpipes xbus_outpipes].
  destruct (pipe_data_of _ _); mred; [|done]. destruct (nn_fq_rm _ _); mred; [|done]. by destruct (nn_dist_rm _ _).
Qed.
Lemma xsurveyor_in_bus x w p : nn_xsurveyor_in x w p = ('(b, w) ← nn_xbus_in (bus_view x) w p; Ok (of_bus b, w)).
Proof.
  unfold nn_xsurveyor_in, nn_xbus_in, bus_view. cbn [xbus_inpipes xbus_outpipes].
  destruct (pipe_data_of _ _); mred; [|done]. by destruct (nn_fq_in _ _).
Qed.
Lemma xsurveyor_out_bus x w p : nn_xsurveyor_out x w p = ('(b, w) ← nn_xbus_out (bus_view x) w p; Ok (of_bus b, w)).
Proof.
  unfold nn_xsurveyor_out, nn_xbus_out, bus_view. cbn [xbus_inpipes xbus_outpipes].
  destruct (pipe_data_of _ _); mred; [|done]. by destruct (nn_dist_out _ _).
Qed.

Lemma bus_of_bus (b : nn_xbus St L) : bus_view (of_bus b) = b.
Proof. by destruct b. Qed.

Lemma xsurveyor_send_ok x w m :
  world_ok w -> xsv_rep x w ->
  exists x' w' qs, nn_xsurveyor_send x w m = Ok (x', w', 0) /\ xsv_rep x' w' /\ sent_all w w' qs m
    /\ NoDup qs /\ (forall q, q ∈ qs <-> off_out w q).
Proof.
  intros Hw [Hd Hf]. unfold nn_xsurveyor_send.
  destruct (nn_dist_send_ok w _ m None Hw Hd) as (d' & w' & qs & E & Hd' & _ & Hs & Hn & Hq). cbn in E. rewrite E. mred.
  eexists _, w', qs. split; [done|]. split; [|split; [done|]; split; [done|naive_solver]].
  split; [done|]. eapply fq_tracks_view; [apply Hs|apply Hs|done].
Qed.

(** Receiving gives the message with its first word as the header. *)
Lemma xsurveyor_recv_ok x w :
  world_ok w -> xsv_rep x w ->
  (nn_xsurveyor_recv x w = Ok (x, w, - EAGAIN, None) /\ forall q, ~ off_in w q) \/
  (exists x' w' p m r, nn_xsurveyor_recv x w = Ok (x', w', if r is Some _ then 0 else - EAGAIN, r)
     /\ xsv_rep x' w' /\ rcvd_one w w' p m /\ xreq_delivers m r).
Proof.
  intros Hw [Hd Hf]. unfold nn_xsurveyor_recv.
  destruct (nn_fq_recv_tracks w (xsv_inpipes x) Hw Hf) as [[-> ?]|(q & fq' & w' & rc & m & -> & ? & Hrc & Hs & Hf' & _)]; mred; [left|right].
  - split; [by destruct x|]. intros q. by eapply fq_can_recv_none.
  - assert (Hrep : xsv_rep (Xsurveyor (xsv_outpipes x) fq') w').
    { split; [|done]. eapply dist_tracks_view; [apply Hs|apply Hs|done]. }
    destruct Hrc as [[-> Hh]| ->].
    + decide_bools. mred. change (parsed 0) with false. cbn [negb]. unfold xreq_delivers.
      exists (Xsurveyor (xsv_outpipes x) fq'), w', q, m. case_bool_decide as Hlen.
      * exists None. split; [done|]. split; [done|]. split; [done|]. by left.
      * exists (Some (split_header 4 m)). rewrite Hh. mred. split; [done|]. split; [done|]. split; [done|]. by left.
    + exists (Xsurveyor (xsv_outpipes x) fq'), w', q, m, (Some m). split; [done|]. split; [done|]. split; [done|]. by right.
Qed.

#[export, program] Instance xsurveyor_spec : SockSpec T (nn_xsurveyor St L) := {| sk_hears := true; sk_sends m := true; sk_takes _ _ := true; sk_room n x := True;
  sk_room_le _ _ _ := I; sk_room_add _ _ _ _ _ _ _ _ _ := I; sk_room_step _ _ _ _ _ := I; sk_rep := xsv_rep |}.
Next Obligation. intros x w w'. apply xbus_rep_view. Qed.
Next Obligation. intros x. cbn. unfold nn_xsurveyor_events. by destruct (nn_fq_can_recv _). Qed.
Next Obligation.
  intros x w p options Hw Hr Hp Hroom _. destruct (xbus_add_ok _ w p options Hw Hr Hp Hroom) as (b & d & E & Hr').
  cbn [sb_add xsurveyor_proto]. rewrite xsurveyor_add_bus, E. mred. eexists _, d, 0. split; [done|]. decide_bools.
  unfold xsv_rep. by rewrite bus_of_bus.
Qed.
Next Obligation.
  intros x w p pb Hw Hr Hp _. destruct (xbus_rm_ok _ w p pb Hw Hr Hp) as (b & E & Hr').
  cbn [sb_rm xsurveyor_proto]. rewrite xsurveyor_rm_bus, E. mred. eexists _, w. split; [done|].
  split; [by apply handled_refl|]. unfold xsv_rep. by rewrite bus_of_bus.
Qed.
Next Obligation.
  intros x w p es _ Hw Hr He. destruct (xbus_in_ok _ w p es Hw Hr He) as (b & E & Hr').
  cbn [sb_in xsurveyor_proto]. rewrite xsurveyor_in_bus, E. mred. eexists _, (set_events w es). split; [done|].
  split; [by eapply handled_refl, pop_world_ok|]. unfold xsv_rep. by rewrite bus_of_bus.
Qed.
Next Obligation.
  intros x w p es Hw Hr He. destruct (xbus_out_ok _ w p es Hw Hr He) as (b & E & Hr').
  cbn [sb_out xsurveyor_proto]. rewrite xsurveyor_out_bus, E. mred. eexists _, (set_events w es). split; [done|].
  split; [by eapply handled_refl, pop_world_ok|]. unfold xsv_rep. by rewrite bus_of_bus.
Qed.
Next Obligation.
  intros x w m _ _ Hw Hr. destruct (xsurveyor_send_ok x w m Hw Hr) as (x' & w' & qs & E & Hr' & Hs & _).
  exists x', w', 0. split; [exact E|]. split; [done|]. split; [apply Hs|done].
Qed.
Next Obligation.
  intros x w _ _ Hw Hr. cbn [sb_recv xsurveyor_proto].
  destruct (xsurveyor_recv_ok x w Hw Hr) as [[E _]|(x' & w' & p & m & r & E & Hr' & Hs & _)].
  - exists x, w, (- EAGAIN), None. split; [exact E|]. split; [unfold EAGAIN; lia|]. split; [by apply handled_refl|].
    split; [done|]. by split; [|intros [? ?]].
  - exists x', w'. eexists _, r. split; [exact E|]. split; [destruct r; [done|unfold EAGAIN; lia]|]. split; [apply Hs|].
    split; [done|]. destruct r; (split; [|done]); [by eexists|intros [=]].
Qed.
Next Obligation. done. Qed.
#[export] Instance xsurveyor_takes : SockTakes T (nn_xsurveyor St L).
Proof. by intros s w. Qed.

(** ** The invariant of a surveyor *)
Definition sv_phase s : phase :=
  match sv_state s with
  | NN_SURVEYOR_STATE_ACTIVE => PActive false
  | NN_SURVEYOR_STATE_CANCELLING | NN_SURVEYOR_STATE_STOPPING_TIMER => PStopping
  | _ => PIdle
  end.

(** While a survey is going on, the stored survey carries its ID. *)
Record sv_rep s w : Prop := {
  svr_raw : xsv_rep (sv_xsurveyor s) w;
  svr_fsm : sv_fsm s = Fsm NN_FSM_STATE_ACTIVE None;
  svr_deadline : 0 <= sv_deadline s;
  svr_id : in_range 32 (sv_surveyid s);
  svr_state : sv_state s <> NN_SURVEYOR_STATE_IDLE /\ sv_state s <> NN_SURVEYOR_STATE_STOPPING;
  svr_timer : timer_rep (sv_timer s) (sv_phase s);
  svr_survey : sv_state s = NN_SURVEYOR_STATE_PASSIVE \/ sphdr (sv_tosend s) = be_bytes 4 (sv_surveyid s)
}.

Lemma sv_rep_view s w w' : view_eq w w' -> sv_rep s w -> sv_rep s w'.
Proof. intros Hv []. constructor; try done. unfold xsv_rep in *. by eapply xbus_rep_view. Qed.

Lemma sv_with_raw s w w' x : sv_rep s w -> xsv_rep x w' -> sv_rep (sv_with_xsurveyor s x) w'.
Proof. by intros []. Qed.

Lemma sv_feed_active s w src type ptr :
  sv_fsm s = Fsm NN_FSM_STATE_ACTIVE None -> nn_fsm_feed (s, w) src type ptr = nn_surveyor_handler (s, w) src type ptr.
Proof. intros E. unfold nn_fsm_feed. cbn [m_fsm surveyor_machine fst]. rewrite E. by decide_bools. Qed.

Lemma sv_action_active s w type :
  sv_fsm s = Fsm NN_FSM_STATE_ACTIVE None -> 0 < type ->
  nn_fsm_action (s, w) type = nn_surveyor_handler (s, w) NN_FSM_ACTION type NoPtr.
Proof. intros E Ht. unfold nn_fsm_action. decide_bools. mred. by apply sv_feed_active. Qed.

(** A survey starts: it goes to all writable pipes, and the timer runs. *)
Definition begun s w s' w' : Prop :=
  exists x tm qs, xsv_rep x w' /\ sent_all w w' qs (sv_tosend s) /\ NoDup qs /\ (forall q, q ∈ qs <-> off_out w q)
    /\ timer_rep tm (PActive false)
    /\ s' = sv_with_state (sv_with_timer (sv_with_xsurveyor s x) tm) NN_SURVEYOR_STATE_ACTIVE.

Lemma surveyor_begin_ok s w :
  world_ok w -> xsv_rep (sv_xsurveyor s) w -> 0 <= sv_deadline s -> timer_rep (sv_timer s) PIdle ->
  exists s' w', surveyor_begin s w = Ok (s', w') /\ begun s w s' w' /\ handled w w'.
Proof.
  intros Hw Hx Hd Ht. unfold surveyor_begin, nn_surveyor_resend.
  destruct (xsurveyor_send_ok _ w (sv_tosend s) Hw Hx) as (x & w' & qs & -> & Hx' & Hs & Hn & Hq). mred. decide_bools. mred.
  cbn [sv_timer sv_deadline sv_with_xsurveyor]. destruct (nn_timer_start_rep _ _ Ht Hd) as (tm & -> & Htm). mred.
  eexists _, w'. split; [done|]. split; [by exists x, tm, qs|apply Hs].
Qed.

Lemma begun_rep s w s' w' :
  sv_fsm s = Fsm NN_FSM_STATE_ACTIVE None -> 0 <= sv_deadline s -> in_range 32 (sv_surveyid s) ->
  sphdr (sv_tosend s) = be_bytes 4 (sv_surveyid s) -> begun s w s' w' -> sv_rep s' w'.
Proof. intros Hf Hd Hi Hm (x & tm & qs & Hx & _ & _ & _ & Htm & ->). constructor; try done. by right. Qed.

(** ** The user *)
Definition next_surveyid s : Z := Z.lor (u32 (sv_surveyid s + 1)) 0x80000000.
Definition surveyed s (m : nn_msg) : nn_surveyor St L :=
  sv_with_survey s (next_surveyid s) (Msg (be_bytes 4 (next_surveyid s)) (hdrs m) (body m)).

Lemma lor_range (a b w : Z) : 0 <= w -> in_range w a -> in_range w b -> in_range w (Z.lor a b).
Proof.
  intros Hw Ha Hb. assert (Hshift : forall c, in_range w c <-> 0 <= c /\ Z.shiftr c w = 0).
  { intros c. unfold in_range. rewrite Z.shiftr_div_pow2, Z.div_small_iff by lia. lia. }
  rewrite Hshift in *. destruct Ha as [Ha1 Ha2], Hb as [Hb1 Hb2]. split; [by apply Z.lor_nonneg|].
  by rewrite Z.shiftr_lor, Ha2, Hb2.
Qed.

Lemma next_surveyid_range s : in_range 32 (next_surveyid s).
Proof. apply lor_range; [done|by apply wrap_range|done]. Qed.

(** A new survey starts, or waits until the timer of the old one stopped. *)
Definition survey_send_spec s w m s' w' : Prop :=
  match sv_state s with
  | NN_SURVEYOR_STATE_ACTIVE =>
      w' = w /\ exists tm, timer_rep tm PStopping /\ s' = sv_with_state (sv_with_timer (surveyed s m) tm) NN_SURVEYOR_STATE_CANCELLING
  | NN_SURVEYOR_STATE_STOPPING_TIMER => w' = w /\ s' = sv_with_state (surveyed s m) NN_SURVEYOR_STATE_CANCELLING
  | NN_SURVEYOR_STATE_CANCELLING => w' = w /\ s' = surveyed s m
  | _ => begun (surveyed s m) w s' w'
  end.

Lemma nn_surveyor_send_ok s w m :
  world_ok w -> sv_rep s w -> sphdr m = [] ->
  exists s' w', nn_surveyor_send s w m = Ok (s', w', 0) /\ survey_send_spec s w m s' w' /\ handled w w' /\ sv_rep s' w'.
Proof.
  intros Hw Hr Hm. pose proof Hr as [Hx Hf Hd Hi [Hs1 Hs2] Ht Hsv]. unfold nn_surveyor_send. rewrite Hm. cbn [length].
  decide_bools. mred. change (Z.lor _ _) with (next_surveyid s). pose proof (next_surveyid_range s) as Hid.
  cbn [replicate]. rewrite nn_putl_eq by apply Hid. mred. rewrite app_nil_r. change (sv_with_survey s _ _) with (surveyed s m).
  assert (Hout : has_out (nn_xsurveyor_events (sv_xsurveyor (surveyed s m))) = true).
  { unfold nn_xsurveyor_events. by destruct (nn_fq_can_recv _). }
  assert (Hkeep : forall st, st <> NN_SURVEYOR_STATE_IDLE /\ st <> NN_SURVEYOR_STATE_STOPPING -> forall tm,
     timer_rep tm (sv_phase (sv_with_state s st)) -> sv_rep (sv_with_state (sv_with_timer (surveyed s m) tm) st) w).
  { intros st Hst tm Htm. constructor; try done. by right. }
  unfold nn_surveyor_inprogress, survey_send_spec. change (sv_state (surveyed s m)) with (sv_state s). unfold sv_phase in Ht.
  destruct (sv_state s) eqn:Es; try done; rewrite ?Hout; cbn [negb];
    rewrite sv_action_active by done; unfold nn_surveyor_handler; change (sv_state (surveyed s m)) with (sv_state s);
    rewrite Es; unfold surveyor_passive, surveyor_active, surveyor_cancelling, surveyor_stopping_timer, is_action; decide_bools; cbn [andb].
  - destruct (surveyor_begin_ok (surveyed s m) w Hw Hx Hd Ht) as (s' & w' & -> & Hb & Hh). mred.
    exists s', w'. split; [done|]. split; [done|]. split; [done|]. by eapply (begun_rep (surveyed s m) w).
  - destruct (nn_timer_stop_rep _ _ Ht) as (tm & Etm & Htm). cbn [sv_timer surveyed sv_with_survey]. rewrite Etm. mred.
    eexists _, w. split; [done|]. split; [split; [done|]; by exists tm|]. split; [by apply handled_refl|]. by apply Hkeep.
  - mred. eexists _, w. split; [done|]. split; [done|]. split; [by apply handled_refl|].
    constructor; try done; [by cbn; rewrite Es|unfold sv_phase; cbn; by rewrite Es|by right].
  - mred. eexists _, w. split; [done|]. split; [done|]. split; [by apply handled_refl|]. exact (Hkeep NN_SURVEYOR_STATE_CANCELLING ltac:(done) (sv_timer s) Ht).
Qed.

(** A response is wanted when it carries the ID of the current survey. *)
Definition responds (id : Z) (m : nn_msg) : bool :=
  bool_decide (length (sphdr m) = 4%nat) && bool_decide (nn_getl (sphdr m) = Ok id).
Definition stale (id : Z) (pm : addr * nn_msg) : Prop := exists m, xreq_delivers pm.2 (Some m) /\ responds id m = false.

Lemma surveyor_recv_loop_ok fuel : forall x w id,
  (backlog w < fuel)%nat -> world_ok w -> xsv_rep x w ->
  exists x' w' rc r ms, surveyor_recv_loop fuel x w id = Ok (x', w', rc, r) /\ xsv_rep x' w' /\ rcvd_many w w' ms /\
    ((rc = - EAGAIN /\ r = None /\
        ((Forall (stale id) ms /\ forall q, ~ off_in w' q) \/
         (exists l q m, ms = l ++ [(q, m)] /\ Forall (stale id) l /\ xreq_delivers m None))) \/
     (exists l q m m', ms = l ++ [(q, m)] /\ Forall (stale id) l /\ xreq_delivers m (Some m') /\ responds id m' = true
        /\ rc = 0 /\ r = Some (stripped m'))).
Proof.
  induction fuel as [|fuel IH]; intros x w id Hf Hw Hx; [lia|]. cbn [surveyor_recv_loop].
  destruct (xsurveyor_recv_ok x w Hw Hx) as [[-> Hno]|(x1 & w1 & p & m & r & -> & Hx1 & Hs & Hd)]; mred.
  - decide_bools. exists x, w, (- EAGAIN), None, []. do 2 (split; [done|]). split; [by apply rcvd_many_nil|].
    left. do 2 (split; [done|]). by left.
  - pose proof (hd_ok _ _ (ro_handled _ _ _ _ Hs)) as Hw1.
    pose proof (rcvd_many_cons _ _ _ _ _ _ Hs (rcvd_many_nil _ Hw1)) as Hone. destruct r as [m'|].
    2: { decide_bools. exists x1, w1, (- EAGAIN), None, [(p, m)]. do 3 (split; [done|]).
         left. do 2 (split; [done|]). right. by exists [], p, m. }
    change (bool_decide (0 = - EAGAIN)) with false. decide_bools. mred.
    assert (Hskip : responds id m' = false -> exists x' w' rc r ms, surveyor_recv_loop fuel x1 w1 id = Ok (x', w', rc, r)
      /\ xsv_rep x' w' /\ rcvd_many w w' ms /\
      ((rc = - EAGAIN /\ r = None /\
          ((Forall (stale id) ms /\ forall q, ~ off_in w' q) \/
           (exists l q m, ms = l ++ [(q, m)] /\ Forall (stale id) l /\ xreq_delivers m None))) \/
       (exists l q m m', ms = l ++ [(q, m)] /\ Forall (stale id) l /\ xreq_delivers m (Some m') /\ responds id m' = true
          /\ rc = 0 /\ r = Some (stripped m')))).
    { intros Hr. pose proof (ro_backlog _ _ _ _ Hs) as Hlt. assert (Hst : stale id (p, m)) by by exists m'.
      destruct (IH x1 w1 id ltac:(lia) Hw1 Hx1) as (x' & w' & rc & r & ms & E & Hx' & Hms & Hcase).
      exists x', w', rc, r, ((p, m) :: ms). do 2 (split; [done|]). split; [by eapply rcvd_many_cons|].
      destruct Hcase as [(-> & -> & Hcase)|(l & q & m2 & m2' & -> & Hl & Hd2 & Hr2 & -> & ->)].
      - left. do 2 (split; [done|]). destruct Hcase as [[Hst' Hno]|(l & q & m2 & -> & Hl & Hd2)].
        + left. split; [by constructor|done].
        + right. exists ((p, m) :: l), q, m2. split; [done|]. split; [by constructor|done].
      - right. exists ((p, m) :: l), q, m2, m2'. split; [done|]. split; [by constructor|done]. }
    unfold responds in Hskip. case_bool_decide as Hlen; cbn [negb andb] in *; [|by apply Hskip].
    destruct (nn_getl_total (sphdr m')) as [rid Eid]; [lia|]. rewrite Eid in *. mred.
    destruct (decide (rid = id)) as [->|Hid]; [rewrite (bool_decide_true (id = id)) by done|rewrite (bool_decide_false (rid = id)) by done].
    + cbn [negb]. exists x1, w1, 0, (Some (stripped m')), [(p, m)]. do 3 (split; [done|]). right.
      exists [], p, m, m'. split; [done|]. split; [done|]. split; [done|]. split; [|done]. unfold responds. rewrite Eid. by decide_bools.
    + apply Hskip. apply bool_decide_eq_false. congruence.
Qed.

(** ** The worker thread *)
Definition surveyor_worker_spec s w (e : worker_event) s' w' : Prop :=
  exists tm ph, timer_rep tm ph /\ let s1 := sv_with_timer s tm in
  match e with
  | WStart => s' = s1 /\ w' = w
  | WTimeout =>
      (sv_state s = NN_SURVEYOR_STATE_ACTIVE /\ w' = w /\ exists tm', timer_rep tm' PStopping
         /\ s' = sv_with_timedout (sv_with_state (sv_with_timer s1 tm') NN_SURVEYOR_STATE_STOPPING_TIMER) true)
      \/ (sv_state s <> NN_SURVEYOR_STATE_ACTIVE /\ s' = s1 /\ w' = w)
  | WStop =>
      (sv_state s = NN_SURVEYOR_STATE_STOPPING_TIMER /\ s' = sv_with_state s1 NN_SURVEYOR_STATE_PASSIVE /\ w' = w)
      \/ (sv_state s = NN_SURVEYOR_STATE_CANCELLING /\ begun s1 w s' w')
  end.

Lemma surveyor_worker_ok s w e :
  world_ok w -> sv_rep s w -> worker_pending (sv_timer s) e = true ->
  exists s' w', surveyor_worker s w e = Ok (s', w') /\ surveyor_worker_spec s w e s' w' /\ handled w w' /\ sv_rep s' w'.
Proof.
  intros Hw Hr He. pose proof Hr as [Hx Hf Hd Hi Hns Ht Hsv].
  unfold surveyor_worker. destruct (worker_step_rep _ _ _ Ht He) as (tm & ph & told & -> & Htm & Hspec). mred.
  unfold surveyor_worker_spec. destruct e; cbn [worker_spec] in Hspec.
  - destruct Hspec as (-> & -> & _). eexists _, w. split; [done|]. split; [by exists tm, (sv_phase s)|].
    split; [by apply handled_refl|]. by constructor.
  - destruct Hspec as (Hps & -> & ->). rewrite sv_feed_active by done.
    unfold sv_phase in Hps. unfold nn_surveyor_handler. cbn [sv_state sv_with_timer].
    destruct (sv_state s) eqn:Es; try done; unfold surveyor_cancelling, surveyor_stopping_timer, is_action, is_deadline; decide_bools; cbn [andb].
    + destruct Hsv as [?|Hsv]; [done|].
      destruct (surveyor_begin_ok (sv_with_timer s tm) w Hw Hx Hd Htm) as (s' & w' & -> & Hb & Hh).
      exists s', w'. split; [done|]. split; [exists tm, PIdle; split; [done|]; by right|]. split; [done|].
      by eapply (begun_rep (sv_with_timer s tm) w).
    + eexists _, w. split; [done|]. split; [exists tm, PIdle; split; [done|]; by left|]. split; [by apply handled_refl|].
      constructor; try done. by left.
  - destruct Hspec as [(Hps & -> & ->)|(Hps & -> & ->)].
    + assert (Es : sv_state s = NN_SURVEYOR_STATE_ACTIVE) by (unfold sv_phase in Hps; by destruct (sv_state s)).
      rewrite sv_feed_active by done. unfold nn_surveyor_handler. cbn [sv_state sv_with_timer]. rewrite Es.
      unfold surveyor_active, is_action, is_deadline. decide_bools. cbn [andb]. cbn [sv_timer sv_with_timer].
      destruct (nn_timer_stop_rep _ _ Htm) as (tm' & -> & Htm'). mred.
      eexists _, w. split; [done|]. split; [exists tm, (PActive true); split; [done|]; left; split; [done|]; split; [done|]; by exists tm'|].
      split; [by apply handled_refl|]. constructor; try done. destruct Hsv as [?|Hsv]; [congruence|by right].
    + eexists _, w. split; [done|].
      split; [exists tm, PStopping; split; [done|]; right; unfold sv_phase in Hps; by destruct (sv_state s)|].
      split; [by apply handled_refl|]. rewrite <- Hps in Htm. by constructor.
Qed.

#[export, program] Instance surveyor_spec : SockSpec T (nn_surveyor St L) := {| sk_hears := true; sk_sends m := bool_decide (sphdr m = []); sk_takes _ _ := true;
  sk_room n s := True; sk_room_le _ _ _ := I; sk_room_add _ _ _ _ _ _ _ _ _ := I; sk_room_step _ _ _ _ _ := I; sk_rep := sv_rep |}.
Next Obligation. apply sv_rep_view. Qed.
Next Obligation.
  intros s. cbn. unfold nn_surveyor_events, nn_xsurveyor_events. by destruct (nn_fq_can_recv _), (negb _).
Qed.
Next Obligation.
  intros s w p options Hw Hr Hp Hroom _. destruct (xbus_add_ok _ w p options Hw (svr_raw _ _ Hr) Hp Hroom) as (b & d & E & Hb).
  cbn [sb_add surveyor_proto]. rewrite xsurveyor_add_bus, E. mred. eexists _, d, 0. split; [done|]. decide_bools.
  eapply sv_with_raw; [done|]. unfold xsv_rep. by rewrite bus_of_bus.
Qed.
Next Obligation.
  intros s w p pb Hw Hr Hp _. destruct (xbus_rm_ok _ w p pb Hw (svr_raw _ _ Hr) Hp) as (b & E & Hb).
  cbn [sb_rm surveyor_proto]. unfold on_xsurveyor. rewrite xsurveyor_rm_bus, E. mred. eexists _, w. split; [done|].
  split; [by apply handled_refl|]. eapply sv_with_raw; [done|]. unfold xsv_rep. by rewrite bus_of_bus.
Qed.
Next Obligation.
  intros s w p es _ Hw Hr He. destruct (xbus_in_ok _ w p es Hw (svr_raw _ _ Hr) He) as (b & E & Hb).
  cbn [sb_in surveyor_proto]. unfold on_xsurveyor. rewrite xsurveyor_in_bus, E. mred. eexists _, (set_events w es). split; [done|].
  split; [by eapply handled_refl, pop_world_ok|]. eapply sv_with_raw; [done|]. unfold xsv_rep. by rewrite bus_of_bus.
Qed.
Next Obligation.
  intros s w p es Hw Hr He. destruct (xbus_out_ok _ w p es Hw (svr_raw _ _ Hr) He) as (b & E & Hb).
  cbn [sb_out surveyor_proto]. unfold on_xsurveyor. rewrite xsurveyor_out_bus, E. mred. eexists _, (set_events w es). split; [done|].
  split; [by eapply handled_refl, pop_world_ok|]. eapply sv_with_raw; [done|]. unfold xsv_rep. by rewrite bus_of_bus.
Qed.
Next Obligation.
  intros s w m _ Hm%bool_decide_eq_true Hw Hr. destruct (nn_surveyor_send_ok s w m Hw Hr Hm) as (s' & w' & E & _ & Hh & Hr').
  by exists s', w', 0.
Qed.
Next Obligation.
  intros s w _ _ Hw Hr. cbn [sb_recv surveyor_proto]. unfold nn_surveyor_recv.
  destruct (nn_surveyor_inprogress s); cbn [negb].
  - destruct (surveyor_recv_loop_ok _ (sv_xsurveyor s) w (sv_surveyid s) (recv_fuel_ok w) Hw (svr_raw _ _ Hr))
      as (x' & w' & rc & r & ms & -> & Hx' & Hms & Hcase). mred. eexists _, w', rc, r. split; [done|].
    assert (Hrc : rc <= 0 /\ (rc = 0 <-> is_Some r)).
    { destruct Hcase as [(-> & -> & _)|(l & q & m & m' & _ & _ & _ & _ & -> & ->)].
      - split; [unfold EAGAIN; lia|]. by split; [|intros [? ?]].
      - split; [done|]. by split; [eexists|]. }
    split; [apply Hrc|]. split; [apply Hms|]. split; [by eapply sv_with_raw|apply Hrc].
  - destruct (sv_timedout s); (eexists _, w, _, _; split; [done|]); (split; [unfold ETIMEDOUT, EFSM; lia|]);
      (split; [by apply handled_refl|]); (split; [by destruct Hr|]); by split; [|intros [? ?]].
Qed.
Next Obligation.
  intros s w e Hw Hr He. destruct (surveyor_worker_ok s w e Hw Hr He) as (s' & w' & E & _ & Hh & Hr'). by exists s', w'.
Qed.
#[export] Instance surveyor_takes : SockTakes T (nn_surveyor St L).
Proof. by intros s w. Qed.

Lemma surveyor_init_rep links key net :
  in_range 32 key ->
  exists s, nn_surveyor_init links key (World net ∅ [] (fun _ => 0)) = Ok (s, World net ∅ [] (fun _ => 0))
    /\ sv_rep s (World net ∅ [] (fun _ => 0)).
Proof.
  intros Hk. eexists. split; [reflexivity|]. constructor; try done; [|by left].
  split; [by apply dist_tracks_init|by apply fq_tracks_init].
Qed.

(** The worker thread does what is pending, in the given order. *)
Fixpoint surveyor_workers s w (es : list worker_event) : result (nn_surveyor St L * world T) :=
  match es with
  | [] => Ok (s, w)
  | e :: es =>
      '(s, w) ← (if worker_pending (sv_timer s) e then surveyor_worker s w e else Ok (s, w));
      surveyor_workers s w es
  end.

Lemma surveyor_workers_stop s w :
  timer_rep (sv_timer s) PStopping ->
  exists tm, timer_rep tm PIdle /\ surveyor_workers s w [WStart; WStop]
    = nn_fsm_feed (sv_with_timer s tm, w) NN_SURVEYOR_SRC_DEADLINE_TIMER NN_TIMER_STOPPED PtrTimer.
Proof.
  intros Ht. destruct (timer_stopping_run _ Ht) as (t1 & t2 & E1 & Ep & E2 & Ht2). exists t2. split; [done|].
  cbn [surveyor_workers]. unfold surveyor_worker.
  assert (Hend : forall s1, sv_with_timer s1 t2 = sv_with_timer s t2 -> sv_timer s1 = t1 ->
    ('(s, w) ← (if worker_pending (sv_timer s1) WStop
        then '(timer, told) ← worker_step (sv_timer s1) WStop;
             match told with None => Ok (sv_with_timer s1 timer, w)
             | Some type => nn_fsm_feed (sv_with_timer s1 timer, w) NN_SURVEYOR_SRC_DEADLINE_TIMER type PtrTimer end
        else Ok (s1, w)); Ok (s, w)) = nn_fsm_feed (sv_with_timer s t2, w) NN_SURVEYOR_SRC_DEADLINE_TIMER NN_TIMER_STOPPED PtrTimer).
  { intros s1 E3 ->. rewrite Ep, E2. mred. rewrite E3. by destruct (nn_fsm_feed _ _ _ _) as [[? ?]|]. }
  destruct (worker_pending (sv_timer s) WStart).
  - rewrite E1. mred. by apply Hend.
  - injection E1 as E1. mred. by apply Hend.
Qed.

(** Consecutive IDs differ in their lowest bit. *)
Lemma next_surveyid_fresh s : next_surveyid s <> sv_surveyid s.
Proof.
  intros E. apply (f_equal (fun z => Z.testbit z 0)) in E. unfold next_surveyid, wrap in E.
  rewrite Z.lor_spec, Z.mod_pow2_bits_low, !Z.bit0_odd, Z.odd_add in E by lia. cbn in E. by destruct (Z.odd (sv_surveyid s)).
Qed.
End SurveySpec.

(** ** Results *)

(** A session of a SURVEYOR or raw SURVEYOR socket never aborts, whatever
    its transports, its user and the worker thread do, and keeps the socket's
    invariant: the deadline timer runs exactly while a survey is going on.  The
    user of the cooked socket must not give a header of its own. *)
Theorem survey_session {St L T} `{ListSpec St L} `{TransportSpec T} (links : St) (net : T) (key : Z) (os : list sock_op) :
  (exists (k : nn_sock T (nn_xsurveyor St L)) rs,
     (k ← nn_sock_init (nn_xsurveyor_init links) net; sock_run k os) = Ok (k, rs) /\ sock_inv k) /\
  (in_range 32 key -> (forall m, KSend m ∈ os -> sphdr m = []) ->
   exists s w (k : nn_sock T (nn_surveyor St L)) rs,
     nn_surveyor_init links key (World net ∅ [] (fun _ => 0)) = Ok (s, w)
     /\ (k ← nn_sock_init s net; sock_run k os) = Ok (k, rs) /\ sock_inv k /\ timer_rep (sv_timer (sk_base k)) (sv_phase (sk_base k))).
Proof.
  split; [|intros Hk Hm].
  - apply sock_session_ok; [split; [by apply dist_tracks_init|by apply fq_tracks_init]|by apply fits_any].
  - destruct (surveyor_init_rep links key net Hk) as (s & E & Hr). exists s. eexists.
    destruct (sock_session_ok s net os) as (k & rs & Ers & Hinv); [exact Hr| |].
    + constructor; [by left| |done]. intros m Hin. apply bool_decide_eq_true. by apply Hm.
    + exists k, rs. split; [exact E|]. split; [exact Ers|]. split; [exact Hinv|]. by pose proof (si_rep _ Hinv : sv_rep _ _) as [].
Qed.

(** A survey that is sent while none is going on goes to every writable
    pipe, once each, tagged with a new ID; one that is sent while another is
    going on does so as soon as the timer of the old one has stopped.  Either
    way the responses to the old survey no longer count: from then on receiving
    skips every message without the new ID. *)
Theorem survey_starts {St L T} `{ListSpec St L} `{TransportSpec T} (s : nn_surveyor St L) (w : world T) (m : nn_msg) :
  world_ok w -> sv_rep s w -> sphdr m = [] ->
  exists s1 w1 s2 w2 qs, nn_surveyor_send s w m = Ok (s1, w1, 0)
    /\ (if nn_surveyor_inprogress s then w1 = w /\ surveyor_workers s1 w1 [WStart; WStop] = Ok (s2, w2) else s2 = s1 /\ w2 = w1)
    /\ sv_rep s2 w2 /\ sv_state s2 = NN_SURVEYOR_STATE_ACTIVE
    /\ sent_all w w2 qs (Msg (be_bytes 4 (sv_surveyid s2)) (hdrs m) (body m)) /\ NoDup qs /\ (forall q, q ∈ qs <-> off_out w q)
    /\ sv_surveyid s2 <> sv_surveyid s /\ sv_surveyid s1 = sv_surveyid s2
    /\ forall r, responds (sv_surveyid s) r = true -> responds (sv_surveyid s2) r = false.
Proof.
  intros Hw Hr Hm. destruct (nn_surveyor_send_ok s w m Hw Hr Hm) as (s1 & w1 & E & Hspec & _ & Hr1).
  assert (Hfresh : forall r, responds (sv_surveyid s) r = true -> responds (next_surveyid s) r = false).
  { intros r [_ Hid%bool_decide_eq_true]%andb_true_iff. unfold responds. rewrite Hid, (bool_decide_false (Ok _ = Ok _)).
    - by rewrite andb_false_r.
    - intros [= X]. by destruct (next_surveyid_fresh s). }
  pose proof (next_surveyid_fresh s) as Hne. exists s1, w1. unfold nn_surveyor_inprogress, survey_send_spec in *.
  assert (Hbegun : forall s0 s2 w2, begun s0 w s2 w2 -> sv_surveyid s0 = next_surveyid s ->
    sv_tosend s0 = Msg (be_bytes 4 (next_surveyid s)) (hdrs m) (body m) ->
    sv_surveyid s2 = next_surveyid s /\ sv_state s2 = NN_SURVEYOR_STATE_ACTIVE /\ exists qs,
      sent_all w w2 qs (Msg (be_bytes 4 (next_surveyid s)) (hdrs m) (body m)) /\ NoDup qs /\ (forall q, q ∈ qs <-> off_out w q)).
  { intros s0 s2 w2 (x & tm & qs & _ & Hs & Hn & Hq & _ & ->) E1 E2. rewrite E2 in Hs. split; [done|]. split; [done|]. by exists qs. }
  destruct (bool_decide (sv_state s = NN_SURVEYOR_STATE_PASSIVE)) eqn:Es.
  - apply bool_decide_eq_true in Es. rewrite Es in *.
    destruct (Hbegun _ _ _ Hspec eq_refl eq_refl) as (Eid & Est & qs & Hs & Hn & Hq).
    exists s1, w1, qs. rewrite Eid. do 9 (split; [done|]). exact Hfresh.
  - apply bool_decide_eq_false in Es. pose proof (svr_state _ _ Hr) as [Hn1 Hn2].
    assert (Hc : w1 = w /\ sv_state s1 = NN_SURVEYOR_STATE_CANCELLING /\ sv_surveyid s1 = next_surveyid s
      /\ sv_tosend s1 = Msg (be_bytes 4 (next_surveyid s)) (hdrs m) (body m)).
    { destruct (sv_state s) eqn:Est; try done.
      - destruct Hspec as (-> & tm & _ & ->). done.
      - destruct Hspec as (-> & ->). cbn. by rewrite Est.
      - destruct Hspec as (-> & ->). done. }
    destruct Hc as (-> & Est1 & Eid1 & Ets1). pose proof (svr_timer _ _ Hr1) as Ht1. unfold sv_phase in Ht1. rewrite Est1 in Ht1.
    destruct (surveyor_workers_stop s1 w Ht1) as (tm & Htm & Ew).
    rewrite sv_feed_active in Ew by apply Hr1. unfold nn_surveyor_handler in Ew. cbn [sv_state sv_with_timer] in Ew. rewrite Est1 in Ew.
    unfold surveyor_cancelling, is_action, is_deadline in Ew.
    rewrite (bool_decide_false (_ = NN_FSM_ACTION)), !bool_decide_true in Ew by done. cbn [andb] in Ew.
    destruct (surveyor_begin_ok (sv_with_timer s1 tm) w Hw (svr_raw _ _ Hr1) (svr_deadline _ _ Hr1) Htm) as (s2 & w2 & E2 & Hb & _).
    rewrite E2 in Ew. destruct (Hbegun _ _ _ Hb Eid1 Ets1) as (Eid & Est & qs & Hs & Hn & Hq).
    exists s2, w2, qs. split; [done|]. split; [by destruct (sv_state s)|]. split.
    { apply (begun_rep (sv_with_timer s1 tm) w); try apply Hr1; [|done]. cbn. by rewrite Ets1, Eid1. }
    rewrite Eid, Eid1. do 6 (split; [done|]). exact Hfresh.
Qed.

(** Receiving on a surveyor: with no survey going on it fails, the first
    time with [ETIMEDOUT] if the last survey ran into its deadline, else with
    [EFSM].  While one is going on it drops every message but a response to
    that survey, which is delivered without its header. *)
Theorem survey_responses {St L T} `{ListSpec St L} `{TransportSpec T} (s : nn_surveyor St L) (w : world T) :
  world_ok w -> sv_rep s w ->
  exists s' w' rc r, nn_surveyor_recv s w = Ok (s', w', rc, r) /\ sv_rep s' w' /\
  if nn_surveyor_inprogress s then
    sv_state s' = sv_state s /\ exists ms, rcvd_many w w' ms /\
    ((rc = - EAGAIN /\ r = None /\
        ((Forall (stale (sv_surveyid s)) ms /\ forall q, ~ off_in w' q) \/
         (exists l q m, ms = l ++ [(q, m)] /\ Forall (stale (sv_surveyid s)) l /\ xreq_delivers m None))) \/
     (exists l q m m', ms = l ++ [(q, m)] /\ Forall (stale (sv_surveyid s)) l /\ xreq_delivers m (Some m')
        /\ responds (sv_surveyid s) m' = true /\ rc = 0 /\ r = Some (stripped m')))
  else
    r = None /\ w' = w /\ rc = (if sv_timedout s then - ETIMEDOUT else - EFSM) /\ sv_timedout s' = false.
Proof.
  intros Hw Hr. unfold nn_surveyor_recv. destruct (nn_surveyor_inprogress s); cbn [negb].
  - destruct (surveyor_recv_loop_ok _ (sv_xsurveyor s) w (sv_surveyid s) (recv_fuel_ok w) Hw (svr_raw _ _ Hr))
      as (x' & w' & rc & r & ms & -> & Hx' & Hms & Hcase). mred. eexists _, w', rc, r. split; [done|].
    split; [by eapply sv_with_raw|]. split; [done|]. by exists ms.
  - destruct (sv_timedout s) eqn:Et; eexists _, w, _, None; (split; [done|]); (split; [by destruct Hr|]); done.
Qed.

(** C25. A survey ends: when its timer fires and has stopped, the socket is
    readable; the next receive gives no message, whatever the pipes have
    brought, but reports one of the two errors that are announced for an
    expired survey ([nn_survey.txt] has ETIMEDOUT, a comment in [surveyor.c]
    EFSM); and from then on, until another one is sent, there is no survey, so that receiving fails with
    [EFSM] and takes nothing from the pipes. *)
Theorem survey_deadline {St L T} `{ListSpec St L} `{TransportSpec T} (s : nn_surveyor St L) (w : world T) :
  world_ok w -> sv_rep s w -> sv_state s = NN_SURVEYOR_STATE_ACTIVE -> worker_pending (sv_timer s) WTimeout = true ->
  exists s1 s2 s3 rc, surveyor_worker s w WTimeout = Ok (s1, w) /\ surveyor_workers s1 w [WStart; WStop] = Ok (s2, w)
    /\ sv_rep s2 w /\ has_in (nn_surveyor_events s2) = true
    /\ (forall w', nn_surveyor_recv s2 w' = Ok (s3, w', rc, None)) /\ (rc = - ETIMEDOUT \/ rc = - EFSM)
    /\ (forall w', nn_surveyor_recv s3 w' = Ok (s3, w', - EFSM, None)).
Proof.
  intros Hw Hr Hst Hp. destruct (surveyor_worker_ok s w WTimeout Hw Hr Hp) as (s1 & w1 & -> & Hspec & _ & Hr1).
  destruct Hspec as (tm & ph & _ & [(_ & -> & tm' & Htm' & Es1)|[? _]]); [|done]. exists s1.
  assert (Ht1 : timer_rep (sv_timer s1) PStopping) by by rewrite Es1.
  destruct (surveyor_workers_stop s1 w Ht1) as (tm2 & Htm2 & ->). rewrite sv_feed_active by apply Hr1.
  unfold nn_surveyor_handler. cbn [sv_state sv_with_timer]. replace (sv_state s1) with NN_SURVEYOR_STATE_STOPPING_TIMER by by rewrite Es1.
  unfold surveyor_stopping_timer, is_action, is_deadline. decide_bools. cbn [andb].
  assert (Hto : sv_timedout s1 = true) by by rewrite Es1.
  eexists _, _, _. do 2 (split; [reflexivity|]). split; [|split].
  - destruct Hr1. constructor; try done. by left.
  - unfold nn_surveyor_events, nn_surveyor_inprogress, nn_xsurveyor_events. cbn. by destruct (nn_fq_can_recv _).
  - unfold nn_surveyor_recv, nn_surveyor_inprogress. cbn [sv_state sv_with_state negb]. cbn [sv_timedout sv_with_state sv_with_timer].
    rewrite Hto. split; [reflexivity|]. split; [by left|reflexivity].
Qed.

(** ** Sessions *)

(** A response to an older survey and one to survey 7. *)
Definition demo_responses : loop_net := LoopNet [] [] [Msg [] [] [128; 0; 0; 6; 1]; Msg [] [] [128; 0; 0; 7; 2]; Msg [] [] [1]].

Definition surveyor_state0 : nn_surveyor store nn_list :=
  Surveyor (nn_xsurveyor_init ∅) (Fsm NN_FSM_STATE_ACTIVE None) NN_SURVEYOR_STATE_PASSIVE 6 nn_timer_init empty_msg
    NN_SURVEYOR_DEFAULT_DEADLINE false false.

Definition demo_survey_ops : list sock_op :=
  [KConnect 5 (demo_opts 1); KConnect 6 (demo_opts 1); KRecv; KSend (Msg [] [] [9]); KReceived 5; KWorker WStart; KRecv; KRecv;
   KWorker WTimeout; KWorker WStop; KRecv; KRecv].

(** Answered once, then timed out. *)
Example survey_demo :
  ledger (k ← nn_sock_init surveyor_state0 demo_responses; sock_run k demo_survey_ops)
  = Ok ([ONone; ONone; ORecv (- EFSM) None; OSend 0; ONone; ONone; ORecv 0 (Some (Msg [] [] [2])); ORecv (- EAGAIN) None;
         ONone; ONone; ORecv (- ETIMEDOUT) None; ORecv (- EFSM) None],
        [(5%positive, Msg [128; 0; 0; 7] [] [9]); (6%positive, Msg [128; 0; 0; 7] [] [9])]).
Proof. vm_compute. reflexivity. Qed.

Lemma demo_survey_sends m : KSend m ∈ demo_survey_ops -> sphdr m = [].
Proof. intros Hm. apply list_elem_of_In in Hm. cbn in Hm. repeat destruct Hm as [Hm|Hm]; by simplify_eq. Qed.

Definition demo_survey_state (n : nat) := session_state surveyor_state0 demo_responses (take n demo_survey_ops).

Lemma demo_survey_state_ok (n : nat) : exists k, demo_survey_state n = Ok k /\ sock_inv k.
Proof.
  apply session_state_ok.
  - destruct (surveyor_init_rep (∅ : store) 6 demo_responses) as (s & E & Hr); [done|]. vm_compute in E. injection E as <-. exact Hr.
  - constructor; [by left| |done]. intros m Hm. apply bool_decide_eq_true. apply demo_survey_sends.
    rewrite <- (take_drop n demo_survey_ops). apply elem_of_app. by left.
Qed.

Lemma survey_session_witness :
  (exists (k : nn_sock loop_net (nn_xsurveyor store nn_list)) rs,
     (k ← nn_sock_init (nn_xsurveyor_init ∅) demo_responses; sock_run k demo_survey_ops) = Ok (k, rs) /\ sock_inv k) /\
  exists s w (k : nn_sock loop_net (nn_surveyor store nn_list)) rs,
     nn_surveyor_init ∅ 6 (World demo_responses ∅ [] (fun _ => 0)) = Ok (s, w)
     /\ (k ← nn_sock_init s demo_responses; sock_run k demo_survey_ops) = Ok (k, rs) /\ sock_inv k
     /\ timer_rep (sv_timer (sk_base k)) (sv_phase (sk_base k)).
Proof.
  destruct (survey_session (∅ : store) demo_responses 6 demo_survey_ops) as [Hx Hs]. split; [exact Hx|].
  apply Hs; [done|exact demo_survey_sends].
Defined.

(** A second survey while the first one is going on. *)
Lemma survey_starts_witness :
  exists (k : nn_sock loop_net (nn_surveyor store nn_list)) s1 s2 w2,
    demo_survey_state 6 = Ok k /\ nn_surveyor_send (sk_base k) (sk_world k) (Msg [] [] [8]) = Ok (s1, sk_world k, 0)
    /\ surveyor_workers s1 (sk_world k) [WStart; WStop] = Ok (s2, w2) /\ sv_state s2 = NN_SURVEYOR_STATE_ACTIVE
    /\ sv_surveyid s2 <> sv_surveyid (sk_base k).
Proof.
  destruct (demo_survey_state_ok 6) as (k & E & Hk).
  assert (Hp : nn_surveyor_inprogress (sk_base k) = true).
  { vm_compute in E. injection E as Ek. rewrite <- Ek. vm_compute. reflexivity. }
  destruct (survey_starts (sk_base k) (sk_world k) (Msg [] [] [8]) (si_world _ Hk) (si_rep _ Hk) eq_refl)
    as (s1 & w1 & s2 & w2 & qs & E1 & E2 & _ & Hst & _ & _ & _ & Hne & _).
  rewrite Hp in E2. destruct E2 as [Ew E2]. rewrite Ew in E1, E2.
  exists k, s1, s2, w2. repeat (split; [assumption|]). assumption.
Defined.

Lemma survey_responses_witness :
  exists (k : nn_sock loop_net (nn_surveyor store nn_list)) s' w' rc r,
    demo_survey_state 6 = Ok k /\ nn_surveyor_recv (sk_base k) (sk_world k) = Ok (s', w', rc, r) /\ sv_rep s' w'.
Proof.
  destruct (demo_survey_state_ok 6) as (k & E & Hk).
  destruct (survey_responses (sk_base k) (sk_world k) (si_world _ Hk) (si_rep _ Hk)) as (s' & w' & rc & r & E1 & Hr & _).
  exists k, s', w', rc, r. repeat (split; [assumption|]). assumption.
Defined.

Lemma survey_deadline_witness :
  exists (k : nn_sock loop_net (nn_surveyor store nn_list)) s1 s2 s3 rc,
    demo_survey_state 6 = Ok k /\ surveyor_worker (sk_base k) (sk_world k) WTimeout = Ok (s1, sk_world k)
    /\ surveyor_workers s1 (sk_world k) [WStart; WStop] = Ok (s2, sk_world k) /\ has_in (nn_surveyor_events s2) = true
    /\ nn_surveyor_recv s2 (sk_world k) = Ok (s3, sk_world k, rc, None) /\ (rc = - ETIMEDOUT \/ rc = - EFSM)
    /\ nn_surveyor_recv s3 (sk_world k) = Ok (s3, sk_world k, - EFSM, None).
Proof.
  destruct (demo_survey_state_ok 6) as (k & E & Hk).
  assert (Hp : sv_state (sk_base k) = NN_SURVEYOR_STATE_ACTIVE /\ worker_pending (sv_timer (sk_base k)) WTimeout = true).
  { vm_compute in E. injection E as Ek. rewrite <- Ek. split; vm_compute; reflexivity. }
  destruct Hp as [Hst Hp].
  destruct (survey_deadline (sk_base k) (sk_world k) (si_world _ Hk) (si_rep _ Hk) Hst Hp) as (s1 & s2 & s3 & rc & E1 & E2 & _ & Ev & E3 & Hrc & E4).
  exists k, s1, s2, s3, rc. do 4 (split; [assumption|]). split; [apply E3|]. split; [assumption|apply E4].
Defined.
