(* ===== verification/Double.v ===== *)
(** * The [double] arithmetic of riff

    A [double] is an IEEE binary64 number, given by the Standard Library's
    executable specification of floating-point arithmetic ([SpecFloat]; round
    to nearest, ties to even).  The library counts tasks and adds up
    nanoseconds in doubles; the lemmas here say that this is exact as long as
    the numbers stay below 2^53, and that a quotient in the normal range is
    within a relative error of 2^-52 of the rational number it stands for. *)

From Stdlib Require Import SpecFloat QArith Qpower Lqa.
From S2P Require Import Prelude.
Local Open Scope Z_scope.

Definition double : Set := spec_float.

Abbreviation prec := 53.
Abbreviation emax := 1024.

Definition dzero : double := S754_zero false.
Definition dadd (x y : double) : double := SFadd prec emax x y.
Definition dsub (x y : double) : double := SFsub prec emax x y.
Definition dmul (x y : double) : double := SFmul prec emax x y.
Definition ddiv (x y : double) : double := SFdiv prec emax x y.
Definition dgtb (x y : double) : bool := SFltb y x.

(** A [double] as a condition. *)
Definition dtrue (x : double) : bool := match x with S754_zero _ => false | _ => true end.

(** Conversion from an integer. *)
Definition of_Z (z : Z) : double := binary_normalize prec emax z 0 false.

(** The number without its fraction. *)
Definition dtrunc (x : double) : option Z :=
  match x with
  | S754_zero _ => Some 0
  | S754_finite s m e =>
      let v := if bool_decide (0 <= e) then Z.pos m * 2 ^ e else Z.pos m / 2 ^ (- e) in
      Some (if s then - v else v)
  | _ => None
  end.

(** Conversion to a 64-bit unsigned integer, undefined when the number without
    its fraction is out of range. *)
Definition to_u64 (x : double) : result Z :=
  match dtrunc x with
  | Some v => if bool_decide (0 <= v < 2 ^ 64) then Ok v else Err IntOverflow
  | None => Err IntOverflow
  end.

(** [std::ceil]. *)
Definition dceil (x : double) : double :=
  match x with
  | S754_finite s m e =>
      if bool_decide (0 <= e) then x
      else if s then (let v := Z.pos m / 2 ^ (- e) in if bool_decide (v = 0) then S754_zero true else of_Z (- v))
      else of_Z ((Z.pos m + 2 ^ (- e) - 1) / 2 ^ (- e))
  | _ => x
  end.

(** ** Binary digits *)
Lemma digits_bounds p : 2 ^ (Zdigits2 (Z.pos p) - 1) <= Z.pos p < 2 ^ Zdigits2 (Z.pos p).
Proof.
  cbn [Zdigits2]. induction p as [p IH|p IH|]; cbn [digits2_pos]; [| |done];
    rewrite Pos2Z.inj_succ, Z.pow_succ_r by done; replace (Z.succ (Z.pos (digits2_pos p)) - 1) with (Z.succ (Z.pos (digits2_pos p) - 1)) by lia;
    rewrite Z.pow_succ_r by lia; lia.
Qed.

Lemma digits_unique z d : 0 < d -> 2 ^ (d - 1) <= z < 2 ^ d -> Zdigits2 z = d.
Proof.
  intros Hd Hz. destruct z as [|p|p]; [pose proof (Z.pow_pos_nonneg 2 (d - 1)); lia| |pose proof (Z.pow_pos_nonneg 2 (d - 1)); lia].
  pose proof (digits_bounds p) as Hp. set (d' := Zdigits2 (Z.pos p)) in *. assert (0 < d') by done.
  destruct (Z.lt_trichotomy d d') as [Hlt|[->|Hlt]]; [|done|].
  - pose proof (Z.pow_le_mono_r 2 d (d' - 1)). lia.
  - pose proof (Z.pow_le_mono_r 2 d' (d - 1)). lia.
Qed.

Lemma digits_pos z : 0 < z -> 0 < Zdigits2 z.
Proof. by destruct z. Qed.

Lemma digits_pow z : 0 < z -> 2 ^ (Zdigits2 z - 1) <= z < 2 ^ Zdigits2 z.
Proof. destruct z; [done| |done]. intros _. apply digits_bounds. Qed.

Lemma digits_shift z k : 0 < z -> 0 <= k -> Zdigits2 (z * 2 ^ k) = Zdigits2 z + k.
Proof.
  intros Hz Hk. pose proof (digits_pow z Hz) as Hd. pose proof (digits_pos z Hz).
  apply digits_unique; [lia|]. replace (Zdigits2 z + k - 1) with (Zdigits2 z - 1 + k) by lia.
  rewrite !Z.pow_add_r by lia. pose proof (Z.pow_pos_nonneg 2 k). nia.
Qed.

Lemma digits_le z n : 0 < z < 2 ^ n -> 0 <= n -> Zdigits2 z <= n.
Proof.
  intros [Hz Hn] H0. pose proof (digits_pow z Hz) as Hd. destruct (Z.le_gt_cases (Zdigits2 z) n) as [|Hgt]; [done|].
  pose proof (Z.pow_le_mono_r 2 n (Zdigits2 z - 1)). lia.
Qed.

(** ** Shifts without loss *)
Lemma shl_align_eq m e e' : e' <= e -> shl_align m e e' = (Z.to_pos (Z.pos m * 2 ^ (e - e')), e').
Proof.
  intros He. unfold shl_align. destruct (e' - e) as [|d|d] eqn:E; [|lia|].
  - assert (e' = e) as -> by lia. rewrite Z.sub_diag, Z.mul_1_r. done.
  - f_equal. replace (e - e') with (Z.pos d) by lia.
    assert (Hit : forall d, Z.pos (Pos.iter xO m d) = Z.pos m * 2 ^ Z.pos d).
    { intros d'. induction d' as [|d' IH] using Pos.peano_ind; [cbn; lia|].
      rewrite Pos.iter_succ, Pos2Z.inj_succ, Z.pow_succ_r by done. lia. }
    rewrite <- Hit. done.
Qed.

Lemma shl_align_ge m e e' : e <= e' -> shl_align m e e' = (m, e).
Proof. intros He. unfold shl_align. destruct (e' - e) eqn:E; [done|done|lia]. Qed.

Lemma shr_1_even m : 0 < m -> shr_1 (Build_shr_record (2 * m) false false) = Build_shr_record m false false.
Proof. by destruct m. Qed.

Lemma iter_pos_iter {A} (f : A -> A) n x : SpecFloat.iter_pos f n x = Pos.iter f x n.
Proof.
  revert x. induction n as [n IH|n IH|]; intros x; cbn [SpecFloat.iter_pos Pos.iter]; [|by rewrite !IH|done].
  by rewrite !IH, <- !Pos.iter_swap.
Qed.

Lemma iter_shr_exact p c : 0 < c ->
  SpecFloat.iter_pos shr_1 p (Build_shr_record (c * 2 ^ Z.pos p) false false) = Build_shr_record c false false.
Proof.
  revert c. induction p as [|p IH] using Pos.peano_ind; intros c Hc.
  - replace (c * 2 ^ 1) with (2 * c) by lia. by apply shr_1_even.
  - rewrite iter_pos_iter, Pos.iter_succ, <- iter_pos_iter, Pos2Z.inj_succ, Z.pow_succ_r by done.
    replace (c * (2 * 2 ^ Z.pos p)) with (2 * c * 2 ^ Z.pos p) by lia. rewrite IH by lia. by apply shr_1_even.
Qed.

(** ** Rounding a number that needs no rounding *)
Definition canonical (c e : Z) : Prop := 0 < c /\ fexp prec emax (Zdigits2 c + e) = e /\ e <= emax - prec.

Lemma shr_fexp_exact c e k : canonical c e -> 0 <= k ->
  shr_fexp prec emax (c * 2 ^ k) (e - k) loc_Exact = (Build_shr_record c false false, e).
Proof.
  intros (Hc & He & _) Hk. unfold shr_fexp. rewrite digits_shift by done.
  replace (Zdigits2 c + k + (e - k)) with (Zdigits2 c + e) by lia. rewrite He. replace (e - (e - k)) with k by lia.
  cbn [shr_record_of_loc]. destruct k as [|p|p]; [|cbn [shr]|done].
  - cbn [shr]. by rewrite Z.mul_1_r, Z.sub_0_r.
  - rewrite iter_shr_exact by done. f_equal. lia.
Qed.

Lemma round_aux_exact s c e k : canonical c e -> 0 <= k ->
  binary_round_aux prec emax s (c * 2 ^ k) (e - k) loc_Exact = S754_finite s (Z.to_pos c) e.
Proof.
  intros Hce Hk. pose proof Hce as (Hc & _ & He). unfold binary_round_aux. rewrite shr_fexp_exact by done.
  cbn [shr_m loc_of_shr_record round_nearest_even].
  pose proof (shr_fexp_exact c e 0 Hce ltac:(lia)) as E. rewrite Z.mul_1_r, Z.sub_0_r in E. rewrite E. cbn [shr_m].
  destruct c as [|c|c]; [done| |done]. cbn [Z.to_pos]. destruct (Z.leb_spec e (emax - prec)); [done|lia].
Qed.

(** The representation of an integer below 2^53. *)
Definition mant (z : Z) : Z := z * 2 ^ (prec - Zdigits2 z).
Definition expo (z : Z) : Z := Zdigits2 z - prec.

Lemma small_digits z : 0 < z < 2 ^ 53 -> 0 < Zdigits2 z <= 53.
Proof. intros Hz. split; [apply digits_pos|apply digits_le]; lia. Qed.

Lemma mant_canonical z : 0 < z < 2 ^ 53 -> canonical (mant z) (expo z).
Proof.
  intros Hz. pose proof (small_digits z Hz) as Hd. unfold canonical, mant, expo. split; [|split].
  - pose proof (Z.pow_pos_nonneg 2 (53 - Zdigits2 z)). nia.
  - rewrite digits_shift by lia. unfold fexp, emin. lia.
  - lia.
Qed.

(** The integer [z], written with any number of trailing zeros. *)
Lemma normalize_int z j : 0 < z < 2 ^ 53 -> 0 <= j ->
  binary_normalize prec emax (z * 2 ^ j) (- j) false = S754_finite false (Z.to_pos (mant z)) (expo z).
Proof.
  intros Hz Hj. pose proof (small_digits z Hz) as Hd. pose proof (mant_canonical z Hz) as Hcan.
  assert (Hpos : 0 < z * 2 ^ j) by (pose proof (Z.pow_pos_nonneg 2 j); nia).
  destruct (z * 2 ^ j) as [|m|m] eqn:E; [done| |done]. cbn [binary_normalize]. unfold binary_round.
  change (Z.pos (digits2_pos m)) with (Zdigits2 (Z.pos m)). rewrite <- E, digits_shift by lia.
  replace (Zdigits2 z + j + - j) with (Zdigits2 z) by lia.
  assert (Hf : fexp prec emax (Zdigits2 z) = expo z) by (unfold fexp, emin, expo; lia). rewrite Hf.
  destruct (Z.le_gt_cases (expo z) (- j)) as [Hle|Hgt].
  - rewrite shl_align_eq by done. rewrite <- E.
    assert (Hm : z * 2 ^ j * 2 ^ (- j - expo z) = mant z).
    { unfold mant, expo in *. rewrite <- Z.mul_assoc, <- Z.pow_add_r by lia. do 2 f_equal. lia. }
    rewrite Hm. pose proof (round_aux_exact false (mant z) (expo z) 0 Hcan ltac:(lia)) as Er.
    rewrite Z.mul_1_r, Z.sub_0_r in Er. rewrite Z2Pos.id by apply Hcan. exact Er.
  - rewrite shl_align_ge by lia. rewrite <- E.
    pose proof (round_aux_exact false (mant z) (expo z) (expo z + j) Hcan ltac:(lia)) as Er.
    assert (Hm : mant z * 2 ^ (expo z + j) = z * 2 ^ j).
    { unfold mant, expo in *. rewrite <- Z.mul_assoc, <- Z.pow_add_r by lia. do 2 f_equal. lia. }
    rewrite Hm in Er. by replace (expo z - (expo z + j)) with (- j) in Er by lia.
Qed.

(** ** Integers below 2^53 *)
Lemma of_Z_zero : of_Z 0 = dzero.
Proof. done. Qed.

Lemma of_Z_pos z : 0 < z < 2 ^ 53 -> of_Z z = S754_finite false (Z.to_pos (mant z)) (expo z).
Proof. intros Hz. pose proof (normalize_int z 0 Hz ltac:(lia)) as E. by rewrite Z.mul_1_r in E. Qed.

Lemma mant_shift z e : 0 < z < 2 ^ 53 -> e <= expo z -> fst (shl_align (Z.to_pos (mant z)) (expo z) e) = Z.to_pos (z * 2 ^ (- e)).
Proof.
  intros Hz He. pose proof (small_digits z Hz) as Hd. pose proof (mant_canonical z Hz) as (Hm & _ & _).
  rewrite shl_align_eq by done. cbn [fst]. rewrite Z2Pos.id by done. f_equal. unfold mant, expo in *.
  rewrite <- Z.mul_assoc, <- Z.pow_add_r by lia. do 2 f_equal. lia.
Qed.

Lemma dadd_exact x y : 0 <= x -> 0 <= y -> x + y < 2 ^ 53 -> dadd (of_Z x) (of_Z y) = of_Z (x + y).
Proof.
  intros Hx Hy Hxy. destruct (decide (x = 0)) as [->|Hx0].
  { rewrite of_Z_zero. destruct (decide (y = 0)) as [->|Hy0]; [done|]. rewrite Z.add_0_l, of_Z_pos by lia. done. }
  destruct (decide (y = 0)) as [->|Hy0].
  { rewrite Z.add_0_r, of_Z_zero, of_Z_pos by lia. done. }
  rewrite (of_Z_pos x), (of_Z_pos y), (of_Z_pos (x + y)) by lia. unfold dadd. cbn [SFadd].
  set (e := Z.min (expo x) (expo y)). rewrite !mant_shift by lia. cbn [cond_Zopp].
  assert (He : e <= 0) by (pose proof (small_digits x); unfold e, expo; lia).
  assert (Hp : forall z, 0 < z -> 0 < z * 2 ^ (- e)) by (intros z Hz; pose proof (Z.pow_pos_nonneg 2 (- e)); nia).
  rewrite !Z2Pos.id by (apply Hp; lia). rewrite <- Z.mul_add_distr_r.
  pose proof (normalize_int (x + y) (- e) ltac:(lia) ltac:(lia)) as E. by rewrite Z.opp_involutive in E.
Qed.

Lemma dsub_exact x y : 0 <= y <= x -> x < 2 ^ 53 -> dsub (of_Z x) (of_Z y) = of_Z (x - y).
Proof.
  intros Hy Hx. destruct (decide (y = 0)) as [->|Hy0].
  { rewrite Z.sub_0_r, of_Z_zero. destruct (decide (x = 0)) as [->|Hx0]; [done|]. by rewrite of_Z_pos by lia. }
  rewrite (of_Z_pos x), (of_Z_pos y) by lia. unfold dsub. cbn [SFsub].
  set (e := Z.min (expo x) (expo y)). rewrite !mant_shift by lia. cbn [cond_Zopp].
  assert (He : e <= 0) by (pose proof (small_digits x); unfold e, expo; lia).
  assert (Hp : forall z, 0 < z -> 0 < z * 2 ^ (- e)) by (intros z Hz; pose proof (Z.pow_pos_nonneg 2 (- e)); nia).
  rewrite !Z2Pos.id by (apply Hp; lia). rewrite <- Z.mul_sub_distr_r.
  destruct (decide (x = y)) as [->|Hxy]; [by rewrite Z.sub_diag|].
  pose proof (normalize_int (x - y) (- e) ltac:(lia) ltac:(lia)) as E. rewrite Z.opp_involutive in E. rewrite E, of_Z_pos by lia. done.
Qed.

Lemma dmul_exact x y : 0 <= x -> 0 <= y -> x < 2 ^ 53 -> y < 2 ^ 53 -> x * y < 2 ^ 53 -> dmul (of_Z x) (of_Z y) = of_Z (x * y).
Proof.
  intros Hx Hy Hx53 Hy53 Hxy. destruct (decide (x = 0)) as [->|Hx0].
  { rewrite of_Z_zero. destruct (decide (y = 0)) as [->|Hy0]; [done|]. by rewrite of_Z_pos by lia. }
  destruct (decide (y = 0)) as [->|Hy0].
  { rewrite Z.mul_0_r, of_Z_zero. by rewrite of_Z_pos by lia. }
  assert (Hpos : 0 < x * y) by nia.
  rewrite (of_Z_pos x), (of_Z_pos y), (of_Z_pos (x * y)) by lia. unfold dmul. cbn [SFmul xorb].
  pose proof (mant_canonical x ltac:(lia)) as (Hmx & _ & _). pose proof (mant_canonical y ltac:(lia)) as (Hmy & _ & _).
  pose proof (mant_canonical (x * y) ltac:(lia)) as Hcan.
  rewrite Pos2Z.inj_mul, !Z2Pos.id by done.
  pose proof (small_digits x ltac:(lia)) as Hdx. pose proof (small_digits y ltac:(lia)) as Hdy.
  pose proof (small_digits (x * y) ltac:(lia)) as Hdxy.
  assert (Hd : Zdigits2 x + Zdigits2 y - 1 <= Zdigits2 (x * y)).
  { destruct (Z.le_gt_cases (Zdigits2 x + Zdigits2 y - 1) (Zdigits2 (x * y))) as [|Hgt]; [done|].
    pose proof (digits_pow x ltac:(lia)) as [Hx1 _]. pose proof (digits_pow y ltac:(lia)) as [Hy1 _].
    pose proof (digits_pow (x * y) ltac:(lia)) as [_ Hxy1].
    pose proof (Z.pow_le_mono_r 2 (Zdigits2 (x * y)) (Zdigits2 x - 1 + (Zdigits2 y - 1)) ltac:(lia) ltac:(lia)) as Hle.
    rewrite Z.pow_add_r in Hle by lia. assert (2 ^ (Zdigits2 x - 1) * 2 ^ (Zdigits2 y - 1) <= x * y) by (apply Z.mul_le_mono_nonneg; lia).
    lia. }
  set (k := 53 - Zdigits2 x - Zdigits2 y + Zdigits2 (x * y)).
  pose proof (round_aux_exact false (mant (x * y)) (expo (x * y)) k Hcan ltac:(lia)) as E.
  replace (mant x * mant y) with (mant (x * y) * 2 ^ k); [by replace (expo x + expo y) with (expo (x * y) - k) by (unfold expo, k; lia)|].
  unfold mant. rewrite <- (Z.mul_assoc (x * y)), <- Z.pow_add_r by lia.
  replace (x * 2 ^ (53 - Zdigits2 x) * (y * 2 ^ (53 - Zdigits2 y))) with (x * y * (2 ^ (53 - Zdigits2 x) * 2 ^ (53 - Zdigits2 y))) by ring.
  rewrite <- Z.pow_add_r by lia. do 2 f_equal. unfold k. lia.
Qed.

Lemma dtrunc_of_Z z : 0 <= z < 2 ^ 53 -> dtrunc (of_Z z) = Some z.
Proof.
  intros Hz. destruct (decide (z = 0)) as [->|Hz0]; [done|]. rewrite of_Z_pos by lia.
  pose proof (mant_canonical z ltac:(lia)) as (Hm & _ & _). pose proof (small_digits z ltac:(lia)) as Hd.
  cbn [dtrunc]. rewrite Z2Pos.id by done. f_equal. unfold mant, expo in *. case_bool_decide.
  - replace (Zdigits2 z) with 53 by lia. cbn. lia.
  - replace (- (Zdigits2 z - 53)) with (53 - Zdigits2 z) by lia. by rewrite Z.div_mul by (pose proof (Z.pow_pos_nonneg 2 (53 - Zdigits2 z)); lia).
Qed.

Lemma to_u64_exact z : 0 <= z < 2 ^ 53 -> to_u64 (of_Z z) = Ok z.
Proof. intros Hz. unfold to_u64. rewrite dtrunc_of_Z by done. by rewrite bool_decide_true by lia. Qed.

Lemma dtrue_of_Z z : 0 <= z < 2 ^ 53 -> dtrue (of_Z z) = negb (bool_decide (z = 0)).
Proof. intros Hz. case_bool_decide as E; [by rewrite E|]. by rewrite of_Z_pos by lia. Qed.

(** Zero divided by a positive number. *)
Lemma ddiv_zero z : 0 < z < 2 ^ 53 -> ddiv dzero (of_Z z) = dzero.
Proof. intros Hz. by rewrite of_Z_pos. Qed.

(** ** Quotients

    A number in the normal range, between [2 ^ (a - 1)] and [2 ^ a]. *)
Definition normal (x : double) (a : Z) : Prop :=
  exists m e, x = S754_finite false m e /\ Zdigits2 (Z.pos m) = prec /\ a = prec + e.

Lemma normal_of_Z z : 0 < z < 2 ^ 53 -> normal (of_Z z) (Zdigits2 z).
Proof.
  intros Hz. rewrite of_Z_pos by done. pose proof (mant_canonical z Hz) as (Hm & _ & _). pose proof (small_digits z Hz).
  eexists _, _. split; [done|]. rewrite Z2Pos.id by done. unfold mant, expo. rewrite digits_shift by lia. lia.
Qed.

Lemma normal_true x a : normal x a -> dtrue x = true.
Proof. by intros (m & e & -> & _). Qed.

Lemma shr_1_half r : 0 <= shr_m r -> shr_m (shr_1 r) = shr_m r / 2.
Proof.
  destruct r as [m b s]. cbn. intros Hm. destruct m as [|[p|p|]|p]; cbn [shr_m]; [done| | |done|done].
  - apply (Z.div_unique _ 2 _ 1); lia.
  - apply (Z.div_unique _ 2 _ 0); lia.
Qed.

Lemma iter_shr_div p r : 0 <= shr_m r -> shr_m (SpecFloat.iter_pos shr_1 p r) = shr_m r / 2 ^ Z.pos p.
Proof.
  revert r. induction p as [|p IH] using Pos.peano_ind; intros r Hr; [by apply shr_1_half|].
  rewrite iter_pos_iter, Pos.iter_succ, <- iter_pos_iter, Pos2Z.inj_succ, Z.pow_succ_r, Z.mul_comm by done.
  rewrite <- Z.div_div by lia. rewrite shr_1_half; rewrite IH by done; [done|]. apply Z.div_pos; lia.
Qed.

(** The rational number that a finite double stands for. *)
Definition dval (x : double) : Q :=
  match x with
  | S754_finite s m e => inject_Z (if s then Z.neg m else Z.pos m) * (2 ^ e)
  | _ => 0
  end.

(** Two numbers that differ by a relative error of 2^-52 at most. *)
Definition near (x y : Q) : Prop := (y * (1 - (1 # 2 ^ 52)) <= x <= y * (1 + (1 # 2 ^ 52)))%Q.

#[export] Instance near_proper : Proper (Qeq ==> Qeq ==> iff) near.
Proof. intros x x' Hx y y' Hy. unfold near. by rewrite Hx, Hy. Qed.

Lemma pow2_pos e : (0 < 2 ^ e)%Q.
Proof. by apply Qpower_0_lt. Qed.

Lemma pow2_add e n : 0 <= n -> (2 ^ (e + n) == 2 ^ e * inject_Z (2 ^ n))%Q.
Proof. intros Hn. by rewrite Qpower_plus, Zpower_Qpower by done. Qed.

(** Two numbers in an interval whose length is one unit of its 53 digits. *)
Lemma near_interval (w c x y : Q) : (0 < w -> inject_Z (2 ^ 52) <= c -> c * w <= x <= (c + 1) * w -> c * w <= y <= (c + 1) * w -> near x y)%Q.
Proof.
  intros Hw Hc Hx Hy. unfold near. change (inject_Z (2 ^ 52)) with (4503599627370496 # 1)%Q in Hc.
  change (1 # 2 ^ 52)%Q with (1 # 4503599627370496)%Q.
  assert (Hcw : ((4503599627370496 # 1) * w <= c * w)%Q) by (apply Qmult_le_compat_r; lra). lra.
Qed.

(** Rounding a mantissa of at least 53 digits, whatever was already lost: the
    result is in the interval of the 53 digits kept. *)
Lemma round_aux_value q e l : 53 <= Zdigits2 q -> 0 < q -> -900 <= Zdigits2 q + e <= 900 ->
  let x := binary_round_aux prec emax false q e l in
  exists a c w, Zdigits2 q + e <= a <= Zdigits2 q + e + 1 /\ normal x a /\ (0 < w)%Q /\ 2 ^ 52 <= c /\
    (inject_Z c * w <= dval x <= (inject_Z c + 1) * w)%Q /\
    (inject_Z c * w <= inject_Z q * 2 ^ e)%Q /\ ((inject_Z q + 1) * 2 ^ e <= (inject_Z c + 1) * w)%Q.
Proof.
  intros Hd Hq He. cbn zeta. unfold binary_round_aux, shr_fexp at 1 3 5.
  set (n := fexp prec emax (Zdigits2 q + e) - e). assert (Hn : n = Zdigits2 q - 53) by (unfold n, fexp, emin; lia).
  set (r := shr_record_of_loc q l). assert (Hr : shr_m r = q) by (by destruct l as [|[]]).
  set (q' := q / 2 ^ n). assert (Hs : exists r', shr r e n = (r', e + n) /\ shr_m r' = q').
  { unfold shr, q'. destruct n as [|p|p]; [|eexists; split; [done|]; rewrite iter_shr_div by lia; by rewrite Hr|lia].
    eexists. split; [by rewrite Z.add_0_r|]. by rewrite Hr, Z.div_1_r. }
  destruct Hs as (r' & -> & Hr'). rewrite Hr'.
  pose proof (digits_pow q Hq) as Hpow. pose proof (Z.pow_pos_nonneg 2 n ltac:(lia) ltac:(lia)) as Hpn.
  assert (Hq' : 2 ^ 52 <= q' < 2 ^ 53).
  { unfold q'. replace (Zdigits2 q - 1) with (52 + n) in Hpow by lia. replace (Zdigits2 q) with (53 + n) in Hpow by lia.
    rewrite !Z.pow_add_r in Hpow by lia. split; [apply Z.div_le_lower_bound|apply Z.div_lt_upper_bound]; lia. }
  assert (Hqq : q' * 2 ^ n <= q /\ q + 1 <= (q' + 1) * 2 ^ n).
  { unfold q'. pose proof (Z.div_mod q (2 ^ n) ltac:(lia)). pose proof (Z.mod_pos_bound q (2 ^ n) Hpn). lia. }
  assert (Hlow : (inject_Z q' * 2 ^ (e + n) <= inject_Z q * 2 ^ e)%Q /\ ((inject_Z q + 1) * 2 ^ e <= (inject_Z q' + 1) * 2 ^ (e + n))%Q).
  { pose proof (pow2_pos e) as Hpe. rewrite pow2_add by lia. change 1%Q with (inject_Z 1). rewrite <- !inject_Z_plus.
    destruct Hqq as [Hq1 Hq2]. rewrite Zle_Qle, ?inject_Z_mult in Hq1, Hq2.
    split; [apply (Qmult_le_compat_r _ _ (2 ^ e)) in Hq1|apply (Qmult_le_compat_r _ _ (2 ^ e)) in Hq2]; lra. }
  set (q'' := round_nearest_even q' (loc_of_shr_record r')).
  assert (Hq'' : q' <= q'' <= q' + 1).
  { unfold q'', round_nearest_even. destruct (loc_of_shr_record r') as [|[]]; [lia|destruct (Z.even q'); lia|lia|lia]. }
  assert (Hval : (inject_Z q' * 2 ^ (e + n) <= inject_Z q'' * 2 ^ (e + n) <= (inject_Z q' + 1) * 2 ^ (e + n))%Q).
  { change 1%Q with (inject_Z 1). rewrite <- inject_Z_plus. pose proof (pow2_pos (e + n)).
    split; (apply Qmult_le_compat_r; [rewrite <- Zle_Qle; lia|lra]). }
  destruct (decide (q'' = 2 ^ 53)) as [E|Hne].
  - rewrite E in *. unfold shr_fexp. replace (Zdigits2 (2 ^ 53)) with 54 by done.
    replace (fexp prec emax (54 + (e + n)) - (e + n)) with 1 by (unfold fexp, emin; lia).
    cbn [shr shr_record_of_loc SpecFloat.iter_pos]. change (shr_m (shr_1 _)) with (2 ^ 52). cbn [Z.pow Z.pow_pos Pos.iter Z.mul Pos.mul].
    destruct (Z.leb_spec (e + n + 1) (emax - prec)); [|lia].
    exists (53 + (e + n + 1)), q', (2 ^ (e + n))%Q. split; [lia|]. split; [by eexists _, _|]. split; [apply pow2_pos|]. split; [lia|]. split; [|done].
    change (match 2 ^ 52 with 0 => _ | Z.pos m => _ | Z.neg _ => _ end) with (S754_finite false (Z.to_pos (2 ^ 52)) (e + n + 1)).
    cbn [dval]. rewrite (pow2_add (e + n) 1) by done. change (inject_Z (2 ^ 53)) with (inject_Z (Z.pos (Z.to_pos (2 ^ 52))) * inject_Z (2 ^ 1))%Q in Hval. lra.
  - assert (Hd'' : Zdigits2 q'' = 53) by (apply digits_unique; lia). unfold shr_fexp. rewrite Hd''.
    replace (fexp prec emax (53 + (e + n)) - (e + n)) with 0 by (unfold fexp, emin; lia).
    cbn [shr shr_record_of_loc shr_m]. destruct q'' as [|p|p] eqn:Ep; [lia| |lia].
    destruct (Z.leb_spec (e + n) (emax - prec)); [|lia].
    exists (53 + (e + n)), q', (2 ^ (e + n))%Q. split; [lia|]. split; [by eexists _, _|]. split; [apply pow2_pos|]. split; [lia|done].
Qed.

(** A quotient is a normal number near the exact one. *)
Lemma ddiv_value x y a b : normal x a -> normal y b -> -800 <= a - b <= 800 ->
  exists c, a - b <= c <= a - b + 2 /\ normal (ddiv x y) c /\ near (dval (ddiv x y) * dval y) (dval x).
Proof.
  intros (m1 & e1 & -> & Hm1 & ->) (m2 & e2 & -> & Hm2 & ->) Hab. unfold ddiv, SFdiv.
  unfold SFdiv_core_binary. rewrite Hm1, Hm2. cbn [xorb].
  set (e' := Z.min _ _).
  assert (He' : e' = e1 - e2 - 53) by (unfold e', fexp, emin; lia).
  replace (e1 - e2 - e') with 53 by lia.
  pose proof (digits_bounds m1) as H1. pose proof (digits_bounds m2) as H2. rewrite Hm1 in H1. rewrite Hm2 in H2.
  rewrite Z.shiftl_mul_pow2 by done.
  pose proof (Z_div_mod (Z.pos m1 * 2 ^ 53) (Z.pos m2) ltac:(lia)) as Hdiv.
  destruct (Z.div_eucl _ _) as [q r]. destruct Hdiv as [Hq Hr].
  assert (Hq53 : 2 ^ 52 <= q < 2 ^ 54) by (split; [|apply Z.lt_nge; intros Hge]; nia).
  assert (Hd : 53 <= Zdigits2 q <= 54).
  { split; [|apply digits_le; lia]. apply Z.le_ngt. intros Hlt. pose proof (digits_pow q ltac:(lia)) as Hp.
    pose proof (Z.pow_le_mono_r 2 (Zdigits2 q) 52). lia. }
  destruct (round_aux_value q e' (new_location (Z.pos m2) r)) as (c & d & w & Hc & Hnorm & Hw & Hd52 & Hval & Hlo & Hhi); [lia|lia|lia|].
  exists c. split; [lia|]. split; [done|]. set (x := dval (binary_round_aux _ _ _ _ _ _)) in *. cbn [dval].
  pose proof (pow2_pos e2) as P2. pose proof (pow2_pos e') as P'. set (y := (inject_Z (Z.pos m2) * 2 ^ e2)%Q).
  assert (Hy : (0 < y)%Q) by (unfold y; apply Qmult_lt_0_compat; [unfold Qlt; cbn; lia|done]).
  assert (Hx : (inject_Z (Z.pos m1) * 2 ^ e1 == inject_Z (Z.pos m1 * 2 ^ 53) * 2 ^ e' * 2 ^ e2)%Q).
  { replace e1 with (e' + 53 + e2) by lia. rewrite Qpower_plus, (pow2_add e' 53), inject_Z_mult by done. ring. }
  assert (Hmul : forall u v, (u <= v)%Q -> (u * y <= v * y)%Q) by (intros u v Huv; apply Qmult_le_compat_r; lra).
  assert (Hbr : (inject_Z q * 2 ^ e' * y <= inject_Z (Z.pos m1) * 2 ^ e1 <= (inject_Z q + 1) * 2 ^ e' * y)%Q).
  { rewrite Hx. unfold y. assert (Hb : q * Z.pos m2 <= Z.pos m1 * 2 ^ 53 /\ Z.pos m1 * 2 ^ 53 <= (q + 1) * Z.pos m2) by lia.
    destruct Hb as [Hb1 Hb2]. rewrite Zle_Qle, inject_Z_mult in Hb1. rewrite Zle_Qle, (inject_Z_mult (q + 1)), inject_Z_plus in Hb2.
    pose proof (Qmult_lt_0_compat _ _ P' P2) as P. change (inject_Z 1) with 1%Q in *.
    apply (Qmult_le_compat_r _ _ (2 ^ e' * 2 ^ e2)) in Hb1; [|lra]. apply (Qmult_le_compat_r _ _ (2 ^ e' * 2 ^ e2)) in Hb2; [|lra]. lra. }
  apply (near_interval (w * y) (inject_Z d)); [by apply Qmult_lt_0_compat|by rewrite <- Zle_Qle| |].
  - destruct Hval as [V1 V2]. apply Hmul in V1, V2. lra.
  - apply Hmul in Hlo, Hhi. lra.
Qed.

Lemma ddiv_normal x y a b : normal x a -> normal y b -> -800 <= a - b <= 800 ->
  exists c, a - b <= c <= a - b + 2 /\ normal (ddiv x y) c.
Proof. intros Hx Hy Hab. destruct (ddiv_value x y a b Hx Hy Hab) as (c & Hc & Hn & _). by exists c. Qed.

Lemma dval_of_Z z : 0 < z < 2 ^ 53 -> (dval (of_Z z) == inject_Z z)%Q.
Proof.
  intros Hz. rewrite of_Z_pos by done. pose proof (mant_canonical z Hz) as (Hm & _ & _). pose proof (small_digits z Hz).
  cbn [dval]. rewrite Z2Pos.id by done. unfold mant, expo. rewrite inject_Z_mult, Zpower_Qpower, <- Qmult_assoc by lia.
  rewrite <- Qpower_plus by done. replace (53 - Zdigits2 z + (Zdigits2 z - 53)) with 0 by lia. change (2 ^ 0)%Q with 1%Q. ring.
Qed.

(** The ceiling of a positive number is a positive integer, converted without
    loss: the least one that is not below the number. *)
Lemma ceil_value x a : normal x a -> a <= 63 ->
  exists v, to_u64 (dceil x) = Ok v /\ 1 <= v < 2 ^ 64 /\ (dval x <= inject_Z v < dval x + 1)%Q.
Proof.
  intros (m & e & -> & Hm & ->) Ha. pose proof (digits_bounds m) as Hb. rewrite Hm in Hb. unfold to_u64. cbn [dceil dval].
  case_bool_decide as He.
  - cbn [dtrunc]. rewrite (bool_decide_eq_true_2 (0 <= e)) by done.
    assert (Hv : 1 <= Z.pos m * 2 ^ e < 2 ^ 64).
    { pose proof (Z.pow_pos_nonneg 2 e). pose proof (Z.pow_le_mono_r 2 e 10).
      split; [lia|]. apply Z.lt_le_trans with (2 ^ 53 * 2 ^ e); [nia|]. rewrite <- Z.pow_add_r by lia. apply Z.pow_le_mono_r; lia. }
    eexists. rewrite bool_decide_true by lia. split; [done|]. split; [done|]. rewrite inject_Z_mult, Zpower_Qpower by done.
    change (inject_Z 2) with 2%Q. lra.
  - set (d := 2 ^ (- e)). assert (Hd : 2 <= d) by (unfold d; pose proof (Z.pow_le_mono_r 2 1 (- e)); lia).
    set (v := (Z.pos m + d - 1) / d).
    assert (Hv : 1 <= v < 2 ^ 53).
    { unfold v. split; [apply Z.div_le_lower_bound; lia|apply Z.div_lt_upper_bound; nia]. }
    rewrite dtrunc_of_Z by lia. eexists. rewrite bool_decide_true by lia. split; [done|]. split; [lia|].
    assert (Hvd : Z.pos m <= v * d < Z.pos m + d).
    { unfold v. pose proof (Z.div_mod (Z.pos m + d - 1) d ltac:(lia)). pose proof (Z.mod_pos_bound (Z.pos m + d - 1) d ltac:(lia)). lia. }
    pose proof (pow2_pos e) as P. assert (Hde : (inject_Z d * 2 ^ e == 1)%Q).
    { unfold d. rewrite Zpower_Qpower, <- Qpower_plus by (done || lia). by replace (- e + e) with 0 by lia. }
    destruct Hvd as [V1 V2]. rewrite Zle_Qle, inject_Z_mult in V1. rewrite Zlt_Qlt, inject_Z_mult, inject_Z_plus in V2.
    apply (Qmult_le_compat_r _ _ (2 ^ e)) in V1; [|lra]. apply (Qmult_lt_compat_r _ _ (2 ^ e)) in V2; [|done].
    rewrite <- Qmult_assoc, Hde in V1. rewrite <- Qmult_assoc, Hde, Qmult_plus_distr_l, Hde in V2. lra.
Qed.

Lemma normal_to_u64 x a : normal x a -> a <= 63 ->
  exists v, to_u64 x = Ok v /\ 0 <= v < 2 ^ 64 /\ (inject_Z v <= dval x < inject_Z v + 1)%Q.
Proof.
  intros (m & e & -> & Hm & ->) Ha. pose proof (digits_bounds m) as Hb. rewrite Hm in Hb. unfold to_u64. cbn [dtrunc dval].
  set (v := if bool_decide (0 <= e) then Z.pos m * 2 ^ e else Z.pos m / 2 ^ (- e)).
  assert (Hv : 0 <= v < 2 ^ 64 /\ (inject_Z v <= inject_Z (Z.pos m) * 2 ^ e < inject_Z v + 1)%Q).
  { unfold v. case_bool_decide as He.
    - pose proof (Z.pow_pos_nonneg 2 e). pose proof (Z.pow_le_mono_r 2 e 10). split.
      + split; [lia|]. apply Z.lt_le_trans with (2 ^ 53 * 2 ^ e); [nia|]. rewrite <- Z.pow_add_r by lia. apply Z.pow_le_mono_r; lia.
      + rewrite inject_Z_mult, Zpower_Qpower by done. change (inject_Z 2) with 2%Q. lra.
    - set (d := 2 ^ (- e)). assert (Hd : 0 < d) by (apply Z.pow_pos_nonneg; lia). split.
      { split; [apply Z.div_pos; lia|apply Z.div_lt_upper_bound; nia]. }
      pose proof (pow2_pos e) as P. assert (Hde : (inject_Z d * 2 ^ e == 1)%Q).
      { unfold d. rewrite Zpower_Qpower, <- Qpower_plus by (done || lia). by replace (- e + e) with 0 by lia. }
      assert (Hvd : Z.pos m / d * d <= Z.pos m < (Z.pos m / d + 1) * d).
      { pose proof (Z.div_mod (Z.pos m) d ltac:(lia)). pose proof (Z.mod_pos_bound (Z.pos m) d Hd). lia. }
      destruct Hvd as [V1 V2]. rewrite Zle_Qle, inject_Z_mult in V1. rewrite Zlt_Qlt, inject_Z_mult, inject_Z_plus in V2.
      apply (Qmult_le_compat_r _ _ (2 ^ e)) in V1; [|lra]. apply (Qmult_lt_compat_r _ _ (2 ^ e)) in V2; [|done].
      rewrite <- Qmult_assoc, Hde in V1. rewrite <- Qmult_assoc, Hde in V2. change (inject_Z 1) with 1%Q in V2. lra. }
  exists v. destruct Hv as [Hv Hq]. by rewrite bool_decide_true by done.
Qed.

(** An integer divided by another one. *)
Lemma quotient_to_u64 x y : 0 <= x < 2 ^ 53 -> 0 < y < 2 ^ 53 -> exists v, to_u64 (ddiv (of_Z x) (of_Z y)) = Ok v /\ 0 <= v < 2 ^ 64.
Proof.
  intros Hx Hy. destruct (decide (x = 0)) as [->|Hx0].
  { rewrite of_Z_zero, ddiv_zero by done. by exists 0. }
  pose proof (small_digits x ltac:(lia)). pose proof (small_digits y Hy).
  destruct (ddiv_normal _ _ _ _ (normal_of_Z x ltac:(lia)) (normal_of_Z y Hy)) as (c & Hc & Hn); [lia|].
  destruct (normal_to_u64 _ _ Hn) as (v & ? & ? & _); [lia|]. by exists v.
Qed.

(** An exact quotient. *)
Lemma ddiv_exact k y : 0 < k -> 0 < y -> k * y < 2 ^ 53 -> ddiv (of_Z (k * y)) (of_Z y) = of_Z k.
Proof.
  intros Hk Hy Hky. assert (Hk53 : k < 2 ^ 53) by nia. assert (Hy53 : y < 2 ^ 53) by nia.
  rewrite (of_Z_pos (k * y)), (of_Z_pos y), (of_Z_pos k) by nia. unfold ddiv, SFdiv, SFdiv_core_binary. cbn [xorb].
  pose proof (mant_canonical (k * y) ltac:(nia)) as (Hm1 & _ & _). pose proof (mant_canonical y ltac:(lia)) as (Hm2 & _ & _).
  pose proof (mant_canonical k ltac:(lia)) as Hcan.
  pose proof (small_digits k ltac:(lia)) as Dk. pose proof (small_digits y ltac:(lia)) as Dy. pose proof (small_digits (k * y) ltac:(nia)) as Dky.
  rewrite !Z2Pos.id by done.
  assert (Hd1 : Zdigits2 (mant (k * y)) = 53) by (unfold mant; rewrite digits_shift by nia; lia).
  assert (Hd2 : Zdigits2 (mant y) = 53) by (unfold mant; rewrite digits_shift by lia; lia). rewrite Hd1, Hd2.
  assert (Hdd : Zdigits2 (k * y) <= Zdigits2 k + Zdigits2 y).
  { apply digits_le; [|lia]. split; [nia|]. pose proof (digits_pow k Hk). pose proof (digits_pow y Hy). rewrite Z.pow_add_r by lia.
    apply Z.mul_lt_mono_nonneg; lia. }
  set (e' := Z.min _ _). assert (He' : e' = expo (k * y) - expo y - 53) by (unfold e', fexp, emin, expo; lia).
  replace (expo (k * y) - expo y - e') with 53 by lia. rewrite Z.shiftl_mul_pow2 by done.
  set (s := 53 - Zdigits2 (k * y) + Zdigits2 y).
  assert (Hq : mant (k * y) * 2 ^ 53 = k * 2 ^ s * mant y).
  { unfold mant, s. replace (k * y * 2 ^ (53 - Zdigits2 (k * y)) * 2 ^ 53) with (k * y * (2 ^ (53 - Zdigits2 (k * y)) * 2 ^ 53)) by ring.
    replace (k * 2 ^ _ * (y * _)) with (k * y * (2 ^ (53 - Zdigits2 (k * y) + Zdigits2 y) * 2 ^ (53 - Zdigits2 y))) by ring.
    rewrite <- !Z.pow_add_r by lia. do 2 f_equal. lia. }
  rewrite Hq. pose proof (Z_div_mod (k * 2 ^ s * mant y) (mant y) ltac:(lia)) as Hdiv. destruct (Z.div_eucl _ _) as [q r].
  destruct Hdiv as [Hqr Hr]. assert (Hrq : r = 0 /\ q = k * 2 ^ s).
  { assert (Hz : mant y * (k * 2 ^ s - q) = r) by lia. assert (k * 2 ^ s - q = 0) by nia. lia. }
  destruct Hrq as [-> ->]. assert (Hloc : new_location (mant y) 0 = loc_Exact).
  { unfold new_location, new_location_even, new_location_odd. by destruct (Z.even _). }
  rewrite Hloc. set (j := Zdigits2 k - Zdigits2 (k * y) + Zdigits2 y).
  pose proof (round_aux_exact false (mant k) (expo k) j Hcan ltac:(unfold j; lia)) as E.
  replace (k * 2 ^ s) with (mant k * 2 ^ j); [by replace e' with (expo k - j) by (unfold expo, j in *; lia)|].
  unfold mant, j, s. rewrite <- Z.mul_assoc, <- Z.pow_add_r by lia. do 2 f_equal. lia.
Qed.

(** The quotient of two integers, computed in doubles and converted, is the
    integer quotient. *)
Lemma quotient_floor x y : 0 <= x < 2 ^ 52 -> 0 < y < 2 ^ 53 -> to_u64 (ddiv (of_Z x) (of_Z y)) = Ok (x / y).
Proof.
  intros Hx Hy. destruct (decide (x = 0)) as [->|Hx0]; [by rewrite of_Z_zero, ddiv_zero|].
  pose proof (Z.div_mod x y ltac:(lia)) as Hdm. pose proof (Z.mod_pos_bound x y ltac:(lia)) as Hmod.
  destruct (decide (x mod y = 0)) as [E|Hr].
  { replace x with (x / y * y) at 1 by lia. rewrite ddiv_exact by nia. apply to_u64_exact. nia. }
  pose proof (small_digits x ltac:(lia)). pose proof (small_digits y Hy).
  destruct (ddiv_value _ _ _ _ (normal_of_Z x ltac:(lia)) (normal_of_Z y Hy)) as (c & Hc & Hn & Hnear); [lia|].
  rewrite !dval_of_Z in Hnear by lia. destruct (normal_to_u64 _ _ Hn ltac:(lia)) as (v & -> & _ & V1 & V2). f_equal.
  set (z := dval (ddiv (of_Z x) (of_Z y))) in *.
  assert (Hxu : (inject_Z x * (1 # 2 ^ 52) < 1)%Q) by (unfold Qlt; cbn; lia).
  assert (Hyq : (0 < inject_Z y)%Q) by (unfold Qlt; cbn; lia). destruct Hnear as [N1 N2].
  apply (Qmult_le_compat_r _ _ (inject_Z y)) in V1; [|lra]. apply (Qmult_lt_compat_r _ _ (inject_Z y)) in V2; [|done].
  assert (Hup : (inject_Z v * inject_Z y < inject_Z x + 1)%Q) by lra.
  assert (Hlo : (inject_Z x - 1 < (inject_Z v + 1) * inject_Z y)%Q) by lra.
  assert (Hup' : v * y < x + 1) by (rewrite Zlt_Qlt, inject_Z_mult, inject_Z_plus; exact Hup).
  assert (Hlo' : x - 1 < (v + 1) * y) by (rewrite Zlt_Qlt, inject_Z_mult, inject_Z_plus; unfold Z.sub; rewrite inject_Z_plus; exact Hlo).
  assert (Hne : x <> (v + 1) * y) by (intros E; by rewrite E, Z.mod_mul in Hr by lia).
  assert (v <= x / y) by (apply Z.div_le_lower_bound; lia). assert (x / y < v + 1) by (apply Z.div_lt_upper_bound; nia). lia.
Qed.
