(* ===== verification/Sample.v ===== *)
(** * Samples ([include/riff/riff.hpp])

    [ApplicationSample]: what the monitor learns about the application between
    two requests, with the arithmetic the header defines on it. *)

From S2P Require Import Prelude Double.
Local Open Scope Z_scope.

Definition RIFF_MAX_CUSTOM_FIELDS : nat := 8%nat.

(** A record of doubles; [customFields] is an array of [RIFF_MAX_CUSTOM_FIELDS]
    elements (see [wf_sample]). *)
Record ApplicationSample := {
  inconsistent : bool;
  loadPercentage : double;
  throughput : double;
  latency : double;
  numTasks : double;
  customFields : list double;
}.

(** The constructor: all zeros. *)
Definition zero_sample : ApplicationSample :=
  {| inconsistent := false; loadPercentage := dzero; throughput := dzero; latency := dzero; numTasks := dzero;
     customFields := replicate RIFF_MAX_CUSTOM_FIELDS dzero |}.

Definition wf_sample (s : ApplicationSample) : Prop := length (customFields s) = RIFF_MAX_CUSTOM_FIELDS.

(** [operator+=], [-=], [*=] and [/=] on two samples: field by field, an
    inconsistent right-hand side making the result inconsistent. *)
Definition sample_op (op : double -> double -> double) (s rhs : ApplicationSample) : ApplicationSample :=
  {| inconsistent := if inconsistent rhs then inconsistent rhs else inconsistent s;
     loadPercentage := op (loadPercentage s) (loadPercentage rhs);
     throughput := op (throughput s) (throughput rhs);
     latency := op (latency s) (latency rhs);
     numTasks := op (numTasks s) (numTasks rhs);
     customFields := zip_with op (customFields s) (customFields rhs) |}.

Definition sample_add : ApplicationSample -> ApplicationSample -> ApplicationSample := sample_op dadd.
Definition sample_sub : ApplicationSample -> ApplicationSample -> ApplicationSample := sample_op dsub.
Definition sample_mul : ApplicationSample -> ApplicationSample -> ApplicationSample := sample_op dmul.
Definition sample_div : ApplicationSample -> ApplicationSample -> ApplicationSample := sample_op ddiv.

(** [operator/=(double)] and [operator*=(double)]. *)
Definition sample_scale (op : double -> double -> double) (s : ApplicationSample) (x : double) : ApplicationSample :=
  {| inconsistent := inconsistent s;
     loadPercentage := op (loadPercentage s) x;
     throughput := op (throughput s) x;
     latency := op (latency s) x;
     numTasks := op (numTasks s) x;
     customFields := (fun c => op c x) <$> customFields s |}.

Definition sample_div_scalar : ApplicationSample -> double -> ApplicationSample := sample_scale ddiv.
Definition sample_mul_scalar : ApplicationSample -> double -> ApplicationSample := sample_scale dmul.

(** Assignments to a field. *)
Definition set_inconsistent (b : bool) (s : ApplicationSample) : ApplicationSample :=
  {| inconsistent := b; loadPercentage := loadPercentage s; throughput := throughput s; latency := latency s;
     numTasks := numTasks s; customFields := customFields s |}.
Definition set_rates (l t : double) (s : ApplicationSample) : ApplicationSample :=
  {| inconsistent := inconsistent s; loadPercentage := l; throughput := t; latency := latency s;
     numTasks := numTasks s; customFields := customFields s |}.
Definition set_latency (x : double) (s : ApplicationSample) : ApplicationSample :=
  {| inconsistent := inconsistent s; loadPercentage := loadPercentage s; throughput := throughput s; latency := x;
     numTasks := numTasks s; customFields := customFields s |}.
Definition set_tasks (l n : double) (s : ApplicationSample) : ApplicationSample :=
  {| inconsistent := inconsistent s; loadPercentage := loadPercentage s; throughput := throughput s; latency := l;
     numTasks := n; customFields := customFields s |}.
Definition set_custom (cs : list double) (s : ApplicationSample) : ApplicationSample :=
  {| inconsistent := inconsistent s; loadPercentage := loadPercentage s; throughput := throughput s; latency := latency s;
     numTasks := numTasks s; customFields := cs |}.

(** ** Well-formedness *)
Lemma zero_sample_wf : wf_sample zero_sample.
Proof. done. Qed.

Lemma sample_op_wf op s rhs : wf_sample s -> wf_sample rhs -> wf_sample (sample_op op s rhs).
Proof. unfold wf_sample, sample_op. cbn. intros Hs Hr. rewrite length_zip_with. lia. Qed.

Lemma sample_scale_wf op s x : wf_sample s -> wf_sample (sample_scale op s x).
Proof. unfold wf_sample, sample_scale. cbn. by rewrite length_fmap. Qed.

(** ** Sums and differences of samples of whole numbers *)
Record whole (s : ApplicationSample) (l t a n : Z) (cs : list Z) : Prop := {
  w_load : loadPercentage s = of_Z l;
  w_throughput : throughput s = of_Z t;
  w_latency : latency s = of_Z a;
  w_numTasks : numTasks s = of_Z n;
  w_custom : customFields s = of_Z <$> cs;
  w_bounds : Forall (fun x => 0 <= x < 2 ^ 52) (l :: t :: a :: n :: cs);
}.

Lemma zip_with_exact cs ds : Forall (fun x => 0 <= x < 2 ^ 52) cs -> Forall (fun x => 0 <= x < 2 ^ 52) ds -> length cs = length ds ->
  zip_with dsub (zip_with dadd (of_Z <$> cs) (of_Z <$> ds)) (of_Z <$> ds) = of_Z <$> cs.
Proof.
  intros Hcs. revert ds. induction Hcs as [|c cs Hc Hcs IH]; intros [|d ds] Hds Hl; try done.
  apply Forall_cons in Hds as [Hd Hds]. cbn -[dadd dsub]. rewrite dadd_exact, dsub_exact, IH by (done || (cbn in Hl; lia)).
  do 2 f_equal. lia.
Qed.

(** On samples of whole numbers (below 2^52), subtracting what was added gives
    the sample back, marked inconsistent when either was. *)
Theorem sample_add_sub s rhs l t a n cs l' t' a' n' cs' :
  whole s l t a n cs -> whole rhs l' t' a' n' cs' -> length cs = length cs' ->
  sample_sub (sample_add s rhs) rhs = set_inconsistent (inconsistent s || inconsistent rhs) s.
Proof.
  intros [E1 E2 E3 E4 E5 Hb] [F1 F2 F3 F4 F5 Hb'] Hl.
  apply Forall_cons in Hb as [B1 Hb]. apply Forall_cons in Hb as [B2 Hb]. apply Forall_cons in Hb as [B3 Hb]. apply Forall_cons in Hb as [B4 Hb].
  apply Forall_cons in Hb' as [B1' Hb']. apply Forall_cons in Hb' as [B2' Hb']. apply Forall_cons in Hb' as [B3' Hb']. apply Forall_cons in Hb' as [B4' Hb'].
  destruct s as [i ? ? ? ? ?], rhs as [i' ? ? ? ? ?]. cbn in *. subst. unfold sample_sub, sample_add, sample_op, set_inconsistent. cbn -[dadd dsub].
  rewrite !dadd_exact, !dsub_exact, zip_with_exact by (done || lia). f_equal; try (f_equal; lia). by destruct i, i'.
Qed.

Definition example_sample (k : Z) : ApplicationSample :=
  {| inconsistent := false; loadPercentage := of_Z k; throughput := of_Z (2 * k); latency := of_Z (3 * k); numTasks := of_Z (4 * k);
     customFields := of_Z <$> replicate 8 k |}.

Lemma sample_add_sub_witness : sample_sub (sample_add (example_sample 7) (example_sample 50)) (example_sample 50) = example_sample 7.
Proof.
  rewrite (sample_add_sub (example_sample 7) (example_sample 50) 7 14 21 28 (replicate 8 7) 50 100 150 200 (replicate 8 50)); [reflexivity| | |reflexivity].
  - constructor; try reflexivity. repeat constructor; discriminate.
  - constructor; try reflexivity. repeat constructor; discriminate.
Defined.
