(* ===== verification/Sampling.v ===== *)
(** * The instrumentation of the application ([include/riff/riff.hpp], [riff.cpp])

    The side of riff that the monitored application calls: [begin] and [end]
    around each task of a thread, with the adaptive sampling that skips most
    of the calls, [storeCustomValue], and the sums of [terminate].  The clock
    is an argument of the operations that read it. *)

From Stdlib Require Import SpecFloat QArith Lqa.
From S2P Require Import Prelude Double Sample.
Local Open Scope Z_scope.

Definition RIFF_DEFAULT_SAMPLING_LENGTH : Z := 1.

(** ** The clock

    [getCurrentTimeNs] on the two fields that [clock_gettime] fills. *)
Definition getCurrentTimeNs (tv_sec tv_nsec : Z) : result Z :=
  to_u64 (dadd (dmul (of_Z tv_sec) (of_Z 1000000000)) (of_Z tv_nsec)).

(** ** Data *)
Record ApplicationConfiguration := {
  samplingLengthMs : double;
  adjustThroughput : bool;
  consistencyThreshold : double;
}.

Definition default_configuration : ApplicationConfiguration :=
  {| samplingLengthMs := of_Z 10; adjustThroughput := true; consistencyThreshold := of_Z 5 |}.

Inductive MessageType : Set :=
  | MESSAGE_TYPE_START
  | MESSAGE_TYPE_SAMPLE_REQ
  | MESSAGE_TYPE_SAMPLE_RES
  | MESSAGE_TYPE_STOP
  | MESSAGE_TYPE_STOPACK.

#[export] Instance MessageType_eq_dec : EqDecision MessageType.
Proof. solve_decision. Defined.

(** The union: which member was written last, none in a message that carries nothing. *)
Inductive Payload : Type :=
  | NoPayload
  | PPid (pid : Z)
  | PSample (sample : ApplicationSample)
  | PSummary (time totalTasks : Z).

(** [None] for a field the sender left uninitialised. *)
Record Message := {
  type : MessageType;
  payload : Payload;
  phaseId : option Z;
  totalThreads : option Z;
}.

(** What riff keeps for each thread of the application ([consolidate] is the
    flag through which the support thread asks for a sample). *)
Record ThreadData := {
  sample : ApplicationSample;
  consolidatedSample : ApplicationSample;
  rcvStart : Z;
  computeStart : Z;
  idleTime : Z;
  firstBegin : Z;
  lastEnd : Z;
  sampleStartTime : Z;
  totalTasks : Z;
  consolidate : bool;
  samplingLength : Z;
  currentSample : Z;
}.

Definition new_ThreadData : ThreadData :=
  {| sample := zero_sample; consolidatedSample := zero_sample; rcvStart := 0; computeStart := 0; idleTime := 0;
     firstBegin := 0; lastEnd := 0; sampleStartTime := 0; totalTasks := 0; consolidate := false;
     samplingLength := RIFF_DEFAULT_SAMPLING_LENGTH; currentSample := 0 |}.

(** The application object.  [sent] is what it sent on its channel, oldest
    first; the thread identifier, the mutex and the socket carry no state of
    their own here. *)
Record Application := {
  _configuration : ApplicationConfiguration;
  _started : bool;
  _supportStop : bool;
  _threadData : list ThreadData;
  _executionTime : Z;
  _totalTasks : Z;
  _phaseId : Z;
  _totalThreads : Z;
  _inconsistentSample : bool;
  sent : list Message;
}.

(** The constructor, before its support thread runs. *)
Definition new_Application (numThreads : nat) : Application :=
  {| _configuration := default_configuration; _started := false; _supportStop := false;
     _threadData := replicate numThreads new_ThreadData; _executionTime := 0; _totalTasks := 0;
     _phaseId := 0; _totalThreads := 0; _inconsistentSample := false; sent := [] |}.

(** ** Assignments to fields *)
Definition set_currentSample (c : Z) (t : ThreadData) : ThreadData :=
  {| sample := sample t; consolidatedSample := consolidatedSample t; rcvStart := rcvStart t; computeStart := computeStart t;
     idleTime := idleTime t; firstBegin := firstBegin t; lastEnd := lastEnd t; sampleStartTime := sampleStartTime t;
     totalTasks := totalTasks t; consolidate := consolidate t; samplingLength := samplingLength t; currentSample := c |}.

Definition set_samplingLength (l : Z) (t : ThreadData) : ThreadData :=
  {| sample := sample t; consolidatedSample := consolidatedSample t; rcvStart := rcvStart t; computeStart := computeStart t;
     idleTime := idleTime t; firstBegin := firstBegin t; lastEnd := lastEnd t; sampleStartTime := sampleStartTime t;
     totalTasks := totalTasks t; consolidate := consolidate t; samplingLength := l; currentSample := currentSample t |}.

Definition set_computeStart (now : Z) (t : ThreadData) : ThreadData :=
  {| sample := sample t; consolidatedSample := consolidatedSample t; rcvStart := rcvStart t; computeStart := now;
     idleTime := idleTime t; firstBegin := firstBegin t; lastEnd := lastEnd t; sampleStartTime := sampleStartTime t;
     totalTasks := totalTasks t; consolidate := consolidate t; samplingLength := samplingLength t; currentSample := currentSample t |}.

Definition set_starts (first start : Z) (t : ThreadData) : ThreadData :=
  {| sample := sample t; consolidatedSample := consolidatedSample t; rcvStart := rcvStart t; computeStart := computeStart t;
     idleTime := idleTime t; firstBegin := first; lastEnd := lastEnd t; sampleStartTime := start;
     totalTasks := totalTasks t; consolidate := consolidate t; samplingLength := samplingLength t; currentSample := currentSample t |}.

Definition set_sample (s : ApplicationSample) (t : ThreadData) : ThreadData :=
  {| sample := s; consolidatedSample := consolidatedSample t; rcvStart := rcvStart t; computeStart := computeStart t;
     idleTime := idleTime t; firstBegin := firstBegin t; lastEnd := lastEnd t; sampleStartTime := sampleStartTime t;
     totalTasks := totalTasks t; consolidate := consolidate t; samplingLength := samplingLength t; currentSample := currentSample t |}.

Definition set_idleTime (i : Z) (t : ThreadData) : ThreadData :=
  {| sample := sample t; consolidatedSample := consolidatedSample t; rcvStart := rcvStart t; computeStart := computeStart t;
     idleTime := i; firstBegin := firstBegin t; lastEnd := lastEnd t; sampleStartTime := sampleStartTime t;
     totalTasks := totalTasks t; consolidate := consolidate t; samplingLength := samplingLength t; currentSample := currentSample t |}.

Definition set_consolidated (s : ApplicationSample) (b : bool) (t : ThreadData) : ThreadData :=
  {| sample := sample t; consolidatedSample := s; rcvStart := rcvStart t; computeStart := computeStart t;
     idleTime := idleTime t; firstBegin := firstBegin t; lastEnd := lastEnd t; sampleStartTime := sampleStartTime t;
     totalTasks := totalTasks t; consolidate := b; samplingLength := samplingLength t; currentSample := currentSample t |}.

Definition set_totalTasks (n : Z) (t : ThreadData) : ThreadData :=
  {| sample := sample t; consolidatedSample := consolidatedSample t; rcvStart := rcvStart t; computeStart := computeStart t;
     idleTime := idleTime t; firstBegin := firstBegin t; lastEnd := lastEnd t; sampleStartTime := sampleStartTime t;
     totalTasks := n; consolidate := consolidate t; samplingLength := samplingLength t; currentSample := currentSample t |}.

Definition set_ended (now : Z) (t : ThreadData) : ThreadData :=
  {| sample := sample t; consolidatedSample := consolidatedSample t; rcvStart := now; computeStart := computeStart t;
     idleTime := idleTime t; firstBegin := firstBegin t; lastEnd := now; sampleStartTime := sampleStartTime t;
     totalTasks := totalTasks t; consolidate := consolidate t; samplingLength := samplingLength t; currentSample := currentSample t |}.

Definition set_threadData (ts : list ThreadData) (a : Application) : Application :=
  {| _configuration := _configuration a; _started := _started a; _supportStop := _supportStop a; _threadData := ts;
     _executionTime := _executionTime a; _totalTasks := _totalTasks a; _phaseId := _phaseId a;
     _totalThreads := _totalThreads a; _inconsistentSample := _inconsistentSample a; sent := sent a |}.

Definition set_started (b : bool) (a : Application) : Application :=
  {| _configuration := _configuration a; _started := b; _supportStop := _supportStop a; _threadData := _threadData a;
     _executionTime := _executionTime a; _totalTasks := _totalTasks a; _phaseId := _phaseId a;
     _totalThreads := _totalThreads a; _inconsistentSample := _inconsistentSample a; sent := sent a |}.

(** [_channelRef.send]: the message goes to the end of the channel. *)
Definition send (m : Message) (a : Application) : Application :=
  {| _configuration := _configuration a; _started := _started a; _supportStop := _supportStop a; _threadData := _threadData a;
     _executionTime := _executionTime a; _totalTasks := _totalTasks a; _phaseId := _phaseId a;
     _totalThreads := _totalThreads a; _inconsistentSample := _inconsistentSample a; sent := sent a ++ [m] |}.

Definition set_summary (time tasks : Z) (stop : bool) (a : Application) : Application :=
  {| _configuration := _configuration a; _started := _started a; _supportStop := stop; _threadData := _threadData a;
     _executionTime := time; _totalTasks := tasks; _phaseId := _phaseId a;
     _totalThreads := _totalThreads a; _inconsistentSample := _inconsistentSample a; sent := sent a |}.

(** [std::vector::at]. *)
Definition at_ {A} (l : list A) (i : nat) : result A :=
  match l !! i with Some x => Ok x | None => Err (Thrown OutOfRange) end.

(** ** The sampling length *)

(** [Application::absDiff]. *)
Definition absDiff (x y : Z) : Z := if bool_decide (x > y) then u64 (x - y) else u64 (y - x).

(** [Application::updateSamplingLength]: so many tasks that one of them is
    recorded every [samplingLengthMs]. *)
Definition updateSamplingLength (cfg : ApplicationConfiguration) (numTasks sampleTime : Z) : result Z :=
  if bool_decide (numTasks <> 0) then
    let latencyNs := of_Z (sampleTime / numTasks) in
    let latencyMs := ddiv latencyNs (of_Z 1000000) in
    if dtrue latencyMs then to_u64 (dceil (ddiv (samplingLengthMs cfg) latencyMs))
    else Ok RIFF_DEFAULT_SAMPLING_LENGTH
  else Err (Thrown NoTasksStored).

(** ** [begin] *)

(** The position in the sampling period. *)
Definition count (t : ThreadData) : ThreadData :=
  set_currentSample (if bool_decide (u64 (currentSample t + 1) >= samplingLength t) then 0 else u64 (currentSample t + 1)) t.

(** The times set by the first call only. *)
Definition start_times (now : Z) (t : ThreadData) : ThreadData :=
  set_starts (if bool_decide (firstBegin t = 0) then now else firstBegin t)
             (if bool_decide (sampleStartTime t = 0) then now else sampleStartTime t) t.

(** Whether this call closes the measure of an idle time. *)
Definition closes_sample (t : ThreadData) : bool :=
  bool_decide (currentSample t = 1) || bool_decide (samplingLength t = 1).

(** The gap between the elapsed time and its estimate is over the threshold. *)
Definition gap_exceeds (cfg : ApplicationConfiguration) (sampleTime sampleTimeEstimated : Z) : bool :=
  dgtb (dmul (ddiv (of_Z (absDiff sampleTime sampleTimeEstimated)) (of_Z sampleTime)) (of_Z 100)) (consistencyThreshold cfg).

(** A requested sample is copied for the support thread and a new one starts. *)
Definition consolidate_sample (cfg : ApplicationConfiguration) (now sampleTime sampleTimeEstimated : Z) (t : ThreadData)
    : result ThreadData :=
  if consolidate t then
    c ← (if gap_exceeds cfg sampleTime sampleTimeEstimated then
           if negb (dtrue (samplingLengthMs cfg)) then Err (Thrown FatalInconsistency)
           else Ok (set_inconsistent true (sample t))
         else Ok (sample t));
    Ok (set_consolidated c false (set_starts (firstBegin t) now (set_idleTime 0 (set_sample zero_sample t))))
  else Ok t.

(** The new sampling length takes effect; the position follows it when the
    length leaves or reaches 1. *)
Definition change_length (newSamplingLength : Z) (t : ThreadData) : ThreadData :=
  let oldSamplingLength := samplingLength t in
  let t := set_samplingLength newSamplingLength t in
  let t := if bool_decide (oldSamplingLength = 1) && bool_decide (samplingLength t > 1) then set_currentSample 1 t else t in
  if bool_decide (oldSamplingLength > 1) && bool_decide (samplingLength t = 1) then set_currentSample 0 t else t.

(** The block run when a sample can be closed. *)
Definition close_sample (cfg : ApplicationConfiguration) (now : Z) (t : ThreadData) : result ThreadData :=
  let t := set_idleTime (u64 (idleTime t + u64 (u64 (now - rcvStart t) * samplingLength t))) t in
  let sampleTime := u64 (now - sampleStartTime t) in
  sampleTimeEstimated ← to_u64 (dadd (latency (sample t)) (of_Z (idleTime t)));
  let t := set_sample (set_rates (dmul (ddiv (latency (sample t)) (of_Z sampleTime)) (of_Z 100))
                                 (ddiv (numTasks (sample t)) (ddiv (of_Z sampleTime) (of_Z 1000000000))) (sample t)) t in
  newSamplingLength ← (if dtrue (samplingLengthMs cfg) then
                         n ← to_u64 (numTasks (sample t)); updateSamplingLength cfg n sampleTime
                       else Ok (samplingLength t));
  t ← consolidate_sample cfg now sampleTime sampleTimeEstimated t;
  Ok (change_length newSamplingLength t).

(** The part of [begin] that a call not skipped runs on its thread's data. *)
Definition begin_recorded (cfg : ApplicationConfiguration) (now : Z) (t : ThreadData) : result ThreadData :=
  let t := start_times now t in
  t ← (if bool_decide (computeStart t <> 0) && closes_sample t then close_sample cfg now t else Ok t);
  Ok (set_computeStart now t).

Definition skipped (t : ThreadData) : bool := bool_decide (currentSample t > 1).

(** [begin] on the data of its thread. *)
Definition begin_thread (cfg : ApplicationConfiguration) (now : Z) (t : ThreadData) : result ThreadData :=
  let t := count t in
  if skipped t then Ok t else begin_recorded cfg now t.

(** [Application::notifyStart]. *)
Definition notifyStart (pid : Z) (a : Application) : Application :=
  send {| type := MESSAGE_TYPE_START; payload := PPid pid; phaseId := Some (_phaseId a);
          totalThreads := Some (_totalThreads a) |} a.

(** The start is notified once ([_mutex] makes the test and the assignment of
    [_started] one step). *)
Definition ensure_started (pid : Z) (a : Application) : Application :=
  if _started a then a else set_started true (notifyStart pid a).

(** [Application::begin]. *)
Definition begin_ (pid : Z) (threadId : nat) (now : Z) (a : Application) : result Application :=
  t ← at_ (_threadData a) threadId;
  let a := if skipped (count t) then a else ensure_started pid a in
  t ← begin_thread (_configuration a) now t;
  Ok (set_threadData (<[threadId := t]> (_threadData a)) a).

(** ** [end] *)

(** [end] on the data of its thread. *)
Definition end_thread (weight now : Z) (t : ThreadData) : ThreadData :=
  if bool_decide (currentSample t <> 0) then t
  else
    let t := set_ended now t in
    let newLatency := of_Z (u64 (rcvStart t - computeStart t)) in
    let tasks := u64 (samplingLength t * weight) in
    let t := set_sample (set_tasks (dadd (latency (sample t)) (dmul (dmul newLatency (of_Z (samplingLength t))) (of_Z weight)))
                                   (dadd (numTasks (sample t)) (of_Z tasks)) (sample t)) t in
    set_totalTasks (u64 (totalTasks t + tasks)) t.

(** [Application::end]. *)
Definition end_ (threadId : nat) (weight now : Z) (a : Application) : result Application :=
  t ← at_ (_threadData a) threadId;
  Ok (set_threadData (<[threadId := end_thread weight now t]> (_threadData a)) a).

(** ** The other operations *)

(** [Application::storeCustomValue]. *)
Definition storeCustomValue (index : nat) (value : double) (threadId : nat) (a : Application) : result Application :=
  if bool_decide (length (_threadData a) < threadId)%nat then Err (Thrown WrongThreadId)
  else if bool_decide (index < RIFF_MAX_CUSTOM_FIELDS)%nat then
    t ← at_ (_threadData a) threadId;
    Ok (set_threadData (<[threadId := set_sample (set_custom (<[index := value]> (customFields (sample t))) (sample t)) t]>
                          (_threadData a)) a)
  else Err (Thrown CustomIndexOutOfBound).

Definition setConfiguration (cfg : ApplicationConfiguration) (a : Application) : Application :=
  {| _configuration := cfg; _started := _started a; _supportStop := _supportStop a; _threadData := _threadData a;
     _executionTime := _executionTime a; _totalTasks := _totalTasks a; _phaseId := _phaseId a;
     _totalThreads := _totalThreads a; _inconsistentSample := _inconsistentSample a; sent := sent a |}.

Definition setPhaseId (phase threads : Z) (a : Application) : Application :=
  {| _configuration := _configuration a; _started := _started a; _supportStop := _supportStop a; _threadData := _threadData a;
     _executionTime := _executionTime a; _totalTasks := _totalTasks a; _phaseId := phase;
     _totalThreads := threads; _inconsistentSample := _inconsistentSample a; sent := sent a |}.

Definition setTotalThreads (threads : Z) (a : Application) : Application := setPhaseId (_phaseId a) threads a.

Definition markInconsistentSamples (a : Application) : Application :=
  {| _configuration := _configuration a; _started := _started a; _supportStop := _supportStop a; _threadData := _threadData a;
     _executionTime := _executionTime a; _totalTasks := _totalTasks a; _phaseId := _phaseId a;
     _totalThreads := _totalThreads a; _inconsistentSample := true; sent := sent a |}.

(** The loop of [Application::terminate] over the threads: the counted tasks
    (the pending ones included), the first begin and the last end. *)
Fixpoint sum_threads (ts : list ThreadData) (tasks firstBegin_ lastEnd_ : Z) : list ThreadData * (Z * Z * Z) :=
  match ts with
  | [] => ([], (tasks, firstBegin_, lastEnd_))
  | t :: ts =>
      let t := set_totalTasks (u64 (totalTasks t + currentSample t)) t in
      let '(ts, r) := sum_threads ts (u64 (tasks + totalTasks t))
                        (if bool_decide (firstBegin t < firstBegin_) then firstBegin t else firstBegin_)
                        (if bool_decide (lastEnd t > lastEnd_) then lastEnd t else lastEnd_) in
      (t :: ts, r)
  end.

(** [Application::terminate] up to [_supportStop = true]; the handshake that
    follows is in the file [Monitor]. *)
Definition terminate_sums (a : Application) : result Application :=
  let '(ts, (tasks, firstBegin_, lastEnd_)) := sum_threads (_threadData a) (_totalTasks a) (2 ^ 64 - 1) 0 in
  time ← to_u64 (ddiv (of_Z (u64 (lastEnd_ - firstBegin_))) (of_Z 1000000));
  Ok (set_summary time tasks true (set_threadData ts a)).

Definition getExecutionTime (a : Application) : Z := _executionTime a.
Definition getTotalTasks (a : Application) : Z := _totalTasks a.

(** ** The sampling length is positive *)

(** Sampling is off, or its length is an ordinary number of milliseconds (at
    most 2^40, some 34 years). *)
Definition cfg_ok (cfg : ApplicationConfiguration) : Prop :=
  dtrue (samplingLengthMs cfg) = false \/ exists a, normal (samplingLengthMs cfg) a /\ -700 <= a <= 40.

(** The least number of tasks of average latency [q] ns that lasts [s] ms, up to
    the rounding of the two divisions. *)
Definition covers (l q : Z) (s : Q) : Prop :=
  (s * 1000000 * (1 - (1 # 2 ^ 50)) <= inject_Z l * inject_Z q /\
   (inject_Z l - 1) * inject_Z q < s * 1000000 * (1 + (1 # 2 ^ 50)))%Q.

Lemma covers_rounded (l q : Z) (s ms len : Q) :
  (0 < s)%Q -> (0 < ms)%Q -> 1 <= l -> 0 < q -> near (ms * 1000000) (inject_Z q) -> near (len * ms) s ->
  (len <= inject_Z l < len + 1)%Q -> covers l q s.
Proof.
  intros Hs Hms Hl Hq [Hms1 Hms2] [Hlen1 Hlen2] [Hl1 Hl2]. unfold covers. rewrite Zle_Qle in Hl. change (inject_Z 1) with 1%Q in Hl.
  rewrite Zlt_Qlt in Hq. change (inject_Z 0) with 0%Q in Hq.
  change (1 # 2 ^ 50)%Q with (1 # 1125899906842624)%Q. change (1 # 2 ^ 52)%Q with (1 # 4503599627370496)%Q in *.
  set (L := inject_Z l) in *. set (q' := inject_Z q) in *. split.
  - pose proof (Qmult_le_compat_r _ _ ms Hl1 ltac:(lra)). pose proof (Qmult_le_compat_r _ _ L Hms2 ltac:(lra)). lra.
  - assert (Hl2' : (L - 1 < len)%Q) by lra. pose proof (Qmult_lt_compat_r _ _ ms Hms Hl2').
    pose proof (Qmult_le_compat_r _ _ (L - 1) Hms1 ltac:(lra)). lra.
Qed.

Lemma normal_positive x a : normal x a -> (0 < dval x)%Q.
Proof. intros (m & e & -> & _). cbn [dval]. apply Qmult_lt_0_compat; [done|apply pow2_pos]. Qed.

Lemma updateSamplingLength_value cfg n time :
  cfg_ok cfg -> dtrue (samplingLengthMs cfg) = true -> 0 < n -> 0 <= time < 2 ^ 53 ->
  exists l, updateSamplingLength cfg n time = Ok l /\ 1 <= l < 2 ^ 64 /\
    if bool_decide (time / n = 0) then l = RIFF_DEFAULT_SAMPLING_LENGTH else covers l (time / n) (dval (samplingLengthMs cfg)).
Proof.
  intros [Hoff|(a & Ha & Hra)] Hon Hn Ht; [congruence|]. unfold updateSamplingLength. rewrite bool_decide_true by lia.
  assert (Hq : 0 <= time / n < 2 ^ 53) by (split; [apply Z.div_pos|apply Z.div_lt_upper_bound]; nia).
  destruct (decide (time / n = 0)) as [->|Hq0]; [by exists 1|]. rewrite bool_decide_false by done.
  assert (Hd : 0 < Zdigits2 (time / n) <= 53) by (apply small_digits; lia).
  destruct (ddiv_value _ _ _ _ (normal_of_Z (time / n) ltac:(lia)) (normal_of_Z 1000000 ltac:(lia))) as (c & Hc & Hnc & Hms);
    change (Zdigits2 1000000) with 20 in *; [lia|].
  rewrite (normal_true _ _ Hnc). destruct (ddiv_value _ _ _ _ Ha Hnc) as (d & Hd2 & Hnd & Hlen); [lia|].
  destruct (ceil_value _ _ Hnd) as (l & El & Hl & Hceil); [lia|]. exists l. split; [done|]. split; [done|].
  rewrite !dval_of_Z in Hms by lia.
  exact (covers_rounded l (time / n) _ _ _ (normal_positive _ _ Ha) (normal_positive _ _ Hnc) ltac:(lia) ltac:(lia) Hms Hlen Hceil).
Qed.

Lemma updateSamplingLength_range cfg n time :
  cfg_ok cfg -> dtrue (samplingLengthMs cfg) = true -> 0 < n -> 0 <= time < 2 ^ 53 ->
  exists l, updateSamplingLength cfg n time = Ok l /\ 1 <= l < 2 ^ 64.
Proof. intros Hcfg Hon Hn Ht. destruct (updateSamplingLength_value cfg n time Hcfg Hon Hn Ht) as (l & ? & ? & _). by exists l. Qed.

(** C9. With sampling on, an ordinary sampling length and an elapsed time below
    2^53 ns, every branch of [updateSamplingLength]: no stored task is an
    exception, an average latency that rounds to 0 ns gives the default length 1,
    and otherwise the result, which is positive and below 2^64, is the least
    number of tasks of that average latency that lasts as long as the sampling
    length, up to a relative error of 2^-50. *)
Theorem updateSamplingLength_covers cfg n time :
  cfg_ok cfg -> dtrue (samplingLengthMs cfg) = true -> 0 <= n -> 0 <= time < 2 ^ 53 ->
  (n = 0 -> updateSamplingLength cfg n time = Err (Thrown NoTasksStored)) /\
  (0 < n -> time / n = 0 -> updateSamplingLength cfg n time = Ok 1) /\
  (0 < n -> 0 < time / n ->
     exists l, updateSamplingLength cfg n time = Ok l /\ 1 <= l < 2 ^ 64 /\ covers l (time / n) (dval (samplingLengthMs cfg))).
Proof.
  intros Hcfg Hon Hn0 Ht. split; [by intros ->|]. split; intros Hn Hq;
    destruct (updateSamplingLength_value cfg n time Hcfg Hon Hn Ht) as (l & El & Hl & Hv).
  - rewrite bool_decide_true in Hv by done. by rewrite El, Hv.
  - rewrite bool_decide_false in Hv by lia. by exists l.
Qed.

Lemma default_cfg_ok : cfg_ok default_configuration.
Proof. right. exists 4. split; [|lia]. by apply (normal_of_Z 10). Qed.
