(* ===== verification/Counting.v ===== *)
(** * What the instrumentation counts

    Correctness of [begin] and [end] (file [Sampling]) for a thread that calls
    them in turn, one task at a time, with a monotonic clock: no task is lost
    by the sampling, the sampling length stays positive, no exception is
    thrown, requested samples are delivered within a sampling period, and
    without sampling every sample is exact. *)

From Stdlib Require Import SpecFloat.
From S2P Require Import Prelude Double Sample Sampling.
Local Open Scope Z_scope.

(** ** What a thread does

    Between two calls of the thread, the support thread may ask for a sample or
    take the one it asked for, and the thread may store a custom value. *)
Inductive thread_event : Type :=
  | Task (tb te : Z)            (** [begin] at [tb], then [end] at [te] *)
  | AskSample                   (** the support thread sets [consolidate] *)
  | TakeSample                  (** the support thread resets the sample it read *)
  | StoreCustom (i : nat) (v : double).

Definition ask_sample (t : ThreadData) : ThreadData := set_consolidated (consolidatedSample t) true t.
Definition take_sample (t : ThreadData) : ThreadData := set_consolidated zero_sample (consolidate t) t.
Definition store_custom (i : nat) (v : double) (t : ThreadData) : ThreadData :=
  set_sample (set_custom (<[i := v]> (customFields (sample t))) (sample t)) t.

Definition thread_step (cfg : ApplicationConfiguration) (e : thread_event) (t : ThreadData) : result ThreadData :=
  match e with
  | Task tb te => t ← begin_thread cfg tb t; Ok (end_thread 1 te t)
  | AskSample => Ok (ask_sample t)
  | TakeSample => Ok (take_sample t)
  | StoreCustom i v => Ok (store_custom i v t)
  end.

Fixpoint run_thread (cfg : ApplicationConfiguration) (es : list thread_event) (t : ThreadData) : result ThreadData :=
  match es with
  | [] => Ok t
  | e :: es => t ← thread_step cfg e t; run_thread cfg es t
  end.

(** The number of tasks of a history. *)
Fixpoint tasks_of (es : list thread_event) : Z :=
  match es with
  | [] => 0
  | Task _ _ :: es => 1 + tasks_of es
  | _ :: es => tasks_of es
  end.

(** The clock starts after [T] and never goes back; it stays below 2^53 ns (104 days). *)
Fixpoint monotonic (T : Z) (es : list thread_event) : Prop :=
  match es with
  | [] => True
  | Task tb te :: es => T <= tb <= te /\ te < 2 ^ 53 /\ monotonic te es
  | _ :: es => monotonic T es
  end.

(** The time of the last call. *)
Fixpoint last_time (T : Z) (es : list thread_event) : Z :=
  match es with
  | [] => T
  | Task _ te :: es => last_time te es
  | _ :: es => last_time T es
  end.

Lemma monotonic_app T es es' : monotonic T (es ++ es') <-> monotonic T es /\ monotonic (last_time T es) es'.
Proof. revert T. induction es as [|[] es IH]; intros T; cbn; [tauto| |apply IH..]. rewrite IH. tauto. Qed.

Lemma last_time_le T es : monotonic T es -> T <= last_time T es.
Proof. revert T. induction es as [|[] es IH]; intros T; cbn; [lia| |apply IH..]. intros (? & ? & Hm). specialize (IH _ Hm). lia. Qed.

Lemma tasks_of_nonneg es : 0 <= tasks_of es.
Proof. induction es as [|[] es IH]; cbn; lia. Qed.

(** ** The invariant of a thread's data *)
Record tracked (T k : Z) (t : ThreadData) : Prop := {
  tr_length : 1 <= samplingLength t < 2 ^ 64;
  tr_position : 0 <= currentSample t < samplingLength t;
  tr_numTasks : numTasks (sample t) = of_Z k;
  tr_tasks : 0 <= k <= totalTasks t;
  tr_sampleStart : 0 <= sampleStartTime t <= T;
  tr_rcvStart : 0 <= rcvStart t <= T;
  tr_computeStart : 0 <= computeStart t <= T;
}.

(** The tasks counted, those of the current sampling period included. *)
Definition counted (t : ThreadData) : Z := totalTasks t + currentSample t.

(** Before a [begin], after [n] tasks. *)
Definition between (n T : Z) (t : ThreadData) : Prop :=
  exists k, tracked T k t /\ counted t = n /\ (computeStart t <> 0 -> currentSample t = 0 -> 0 < k) /\
    (computeStart t = 0 -> samplingLength t = 1).

(** Before an [end], after [n] tasks. *)
Definition inside (n T : Z) (t : ThreadData) : Prop :=
  exists k, tracked T k t /\ computeStart t <> 0 /\
    totalTasks t + (if bool_decide (currentSample t = 0) then samplingLength t else currentSample t) = n + 1.

Lemma tracked_later T T' k t : T <= T' -> tracked T k t -> tracked T' k t.
Proof. intros HT []. constructor; [done..|lia|lia|lia]. Qed.

Lemma new_between T : 0 <= T -> between 0 T new_ThreadData.
Proof. intros HT. exists 0. split; [constructor; cbn; lia || done|done]. Qed.

(** ** [begin] *)
Lemma count_position t : 1 <= samplingLength t < 2 ^ 64 -> 0 <= currentSample t < samplingLength t ->
  currentSample (count t) = if bool_decide (currentSample t + 1 = samplingLength t) then 0 else currentSample t + 1.
Proof.
  intros HL Hc. unfold count. cbn [set_currentSample currentSample]. rewrite wrap_small by (unfold in_range; lia).
  by destruct (decide (currentSample t + 1 = samplingLength t)); decide_bools.
Qed.

Lemma change_length_spec l t : 1 <= l -> closes_sample t = true -> 0 <= currentSample t < samplingLength t ->
  change_length l t = set_currentSample (if bool_decide (l = 1) then 0 else 1) (set_samplingLength l t).
Proof.
  intros Hl Hc Hp. unfold closes_sample in Hc. unfold change_length. destruct t as [? ? ? ? ? ? ? ? ? ? L c]. cbn in *.
  assert (Hc1 : L = 1 /\ c = 0 \/ 1 < L /\ c = 1) by (apply orb_prop in Hc as [E|E]; apply bool_decide_eq_true in E; lia).
  destruct Hc1 as [[-> ->]|[HL ->]]; destruct (decide (l = 1)) as [->|Hl1]; repeat (decide_bools; cbn); done.
Qed.

(** Consolidation leaves a fresh sample. *)
Lemma consolidate_cases cfg now time est t t' : consolidate_sample cfg now time est t = Ok t' ->
  t' = t \/ exists c, t' = set_consolidated c false (set_starts (firstBegin t) now (set_idleTime 0 (set_sample zero_sample t))).
Proof. unfold consolidate_sample. destruct (consolidate t); intros E; inv_ok; [|by left]. right. by eexists. Qed.

Lemma consolidate_sampling cfg now time est t : dtrue (samplingLengthMs cfg) = true ->
  exists t', consolidate_sample cfg now time est t = Ok t'.
Proof.
  intros Hon. unfold consolidate_sample. destruct (consolidate t); [|by eexists]. rewrite Hon.
  destruct (gap_exceeds cfg time est); by eexists.
Qed.

Lemma consolidate_quiet cfg now time est t :
  dtrue (samplingLengthMs cfg) = true \/ gap_exceeds cfg time est = false \/ consolidate t = false ->
  exists t', consolidate_sample cfg now time est t = Ok t'.
Proof.
  intros [Hon|[Hg|Hc]]; [by apply consolidate_sampling| |]; unfold consolidate_sample; [rewrite Hg; destruct (consolidate t)|rewrite Hc]; by eexists.
Qed.

(** The elapsed time and the estimate that [close_sample] compares. *)
Definition elapsed (now : Z) (t : ThreadData) : Z := u64 (now - sampleStartTime t).
Definition idle_after (now : Z) (t : ThreadData) : Z := u64 (idleTime t + u64 (u64 (now - rcvStart t) * samplingLength t)).
Definition estimate (now : Z) (t : ThreadData) : result Z := to_u64 (dadd (latency (sample t)) (of_Z (idle_after now t))).

(** The sampling length that [close_sample] chooses. *)
Definition next_length (cfg : ApplicationConfiguration) (now k : Z) (t : ThreadData) : result Z :=
  if dtrue (samplingLengthMs cfg) then updateSamplingLength cfg k (elapsed now t) else Ok (samplingLength t).

Lemma next_length_ok cfg T now k t : cfg_ok cfg -> tracked T k t -> 0 < k -> T <= now < 2 ^ 53 ->
  exists l, next_length cfg now k t = Ok l /\ 1 <= l < 2 ^ 64.
Proof.
  intros Hcfg [] Hk HT. unfold next_length. destruct (dtrue (samplingLengthMs cfg)) eqn:Hon; [|by eexists].
  apply updateSamplingLength_range; [done|done|done|]. unfold elapsed. rewrite wrap_small; unfold in_range; lia.
Qed.

(** The data after the rates were computed. *)
Definition rated (now : Z) (t : ThreadData) : ThreadData :=
  let t' := set_idleTime (idle_after now t) t in
  set_sample (set_rates (dmul (ddiv (latency (sample t)) (of_Z (elapsed now t))) (of_Z 100))
                        (ddiv (numTasks (sample t)) (ddiv (of_Z (elapsed now t)) (of_Z 1000000000))) (sample t)) t'.

Lemma close_sample_eq cfg now k t : numTasks (sample t) = of_Z k -> 0 <= k < 2 ^ 53 ->
  close_sample cfg now t =
    (est ← estimate now t;
     l ← next_length cfg now k t;
     t' ← consolidate_sample cfg now (elapsed now t) est (rated now t);
     Ok (change_length l t')).
Proof.
  intros Hk Hk53. unfold close_sample, next_length. cbn [set_idleTime set_sample set_rates sample numTasks latency sampleStartTime].
  change (to_u64 (dadd _ _)) with (estimate now t). destruct (estimate now t) as [est|f]; [|done]. cbn [mbind result_bind].
  rewrite Hk, to_u64_exact by done. unfold rated. rewrite Hk. by destruct (dtrue (samplingLengthMs cfg)).
Qed.

Lemma to_u64_error x f : to_u64 x = Err f -> f = IntOverflow.
Proof. unfold to_u64. destruct (dtrunc x); [case_bool_decide|]; congruence. Qed.

Lemma close_sample_tracked cfg T now k t :
  cfg_ok cfg -> tracked T k t -> 0 < k < 2 ^ 53 -> closes_sample t = true -> T <= now < 2 ^ 53 ->
  (forall est, estimate now t = Ok est ->
     dtrue (samplingLengthMs cfg) = true \/ gap_exceeds cfg (elapsed now t) est = false \/ consolidate t = false) ->
  (close_sample cfg now t = Err IntOverflow /\ estimate now t = Err IntOverflow) \/
  exists t' k', close_sample cfg now t = Ok t' /\ tracked now k' t' /\ totalTasks t' = totalTasks t /\
    computeStart t' = computeStart t /\ currentSample t' = (if bool_decide (samplingLength t' = 1) then 0 else 1) /\
    consolidate t' = false.
Proof.
  intros Hcfg Ht Hk Hcl HT Hquiet. pose proof Ht as [HL Hp Hn Htot Hss Hrs Hcs].
  rewrite (close_sample_eq cfg now k) by (done || lia).
  destruct (estimate now t) as [est|f] eqn:Eest; [|left; cbn; by rewrite (to_u64_error _ _ Eest)]. right. cbn [mbind result_bind].
  destruct (next_length_ok cfg T now k t Hcfg Ht ltac:(lia) HT) as (l & -> & Hl). cbn [mbind result_bind].
  destruct (consolidate_quiet cfg now (elapsed now t) est (rated now t) (Hquiet est eq_refl)) as (t1 & E1). rewrite E1. cbn [mbind result_bind].
  assert (Hc1 : consolidate t1 = false).
  { unfold consolidate_sample in E1. destruct (consolidate (rated now t)) eqn:Ec; inv_ok; done. }
  assert (Ht1 : closes_sample t1 = true /\ currentSample t1 = currentSample t /\ samplingLength t1 = samplingLength t).
  { by apply consolidate_cases in E1 as [->|(c & ->)]. }
  destruct Ht1 as (Hcl1 & Hp1 & HL1). rewrite change_length_spec by (done || lia).
  assert (Hrest : exists k', numTasks (sample t1) = of_Z k' /\ 0 <= k' <= totalTasks t1 /\ 0 <= sampleStartTime t1 <= now /\
            0 <= rcvStart t1 <= now /\ 0 <= computeStart t1 <= now /\ totalTasks t1 = totalTasks t /\ computeStart t1 = computeStart t).
  { apply consolidate_cases in E1 as [->|(c & ->)]; [exists k|exists 0]; cbn; repeat split; first [done|lia]. }
  destruct Hrest as (k' & Hn' & Hk' & Hss' & Hrs' & Hcs' & Htot' & Hc').
  eexists _, k'. split; [done|]. split; [constructor; cbn; first [done|destruct (decide (l = 1)); decide_bools; lia]|].
  by cbn.
Qed.

(** The data of a call that is not skipped, before it closes a sample. *)
Definition opened (now : Z) (t : ThreadData) : ThreadData := start_times now (count t).

Lemma opened_tracked T k now t : T <= now -> 0 < now -> tracked T k t -> tracked now k (opened now t).
Proof.
  intros HT Hnow [HL Hp Hn Htot Hss Hrs Hcs]. pose proof (count_position t HL Hp) as Hc. unfold opened, start_times.
  constructor; cbn [set_starts samplingLength currentSample sample totalTasks sampleStartTime rcvStart computeStart]; [done| |done|done| |done || (cbn; lia)|done || (cbn; lia)].
  - rewrite Hc. destruct (decide (currentSample t + 1 = samplingLength t)); decide_bools; cbn; lia.
  - cbn. destruct (decide (sampleStartTime t = 0)); decide_bools; lia.
Qed.

Lemma begin_thread_cases cfg now t :
  begin_thread cfg now t =
    if skipped (count t) then Ok (count t)
    else if bool_decide (computeStart t <> 0) && closes_sample (count t)
         then t' ← close_sample cfg now (opened now t); Ok (set_computeStart now t')
         else Ok (set_computeStart now (opened now t)).
Proof. unfold begin_thread, begin_recorded. destruct (skipped _); [done|]. cbn. by destruct (bool_decide _ && _). Qed.

(** What keeps a call from failing: the estimate of the elapsed time can be
    converted, and a sample that is not sampled is consistent. *)
Definition quiet (cfg : ApplicationConfiguration) (now : Z) (t : ThreadData) : Prop :=
  forall est, computeStart t <> 0 -> closes_sample (count t) = true -> estimate now (opened now t) = Ok est ->
    dtrue (samplingLengthMs cfg) = true \/ gap_exceeds cfg (elapsed now (opened now t)) est = false \/ consolidate t = false.

Lemma begin_between cfg n T now t : cfg_ok cfg -> between n T t -> 0 <= n < 2 ^ 53 -> T <= now < 2 ^ 53 -> 0 < now -> quiet cfg now t ->
  (begin_thread cfg now t = Err IntOverflow /\ computeStart t <> 0 /\ closes_sample (count t) = true /\
     estimate now (opened now t) = Err IntOverflow) \/
  exists t', begin_thread cfg now t = Ok t' /\ inside n now t' /\
    (computeStart t <> 0 -> closes_sample (count t) = true -> consolidate t' = false).
Proof.
  intros Hcfg (k & Ht & Hn & Hk & H0) Hn53 HT Hnow Hquiet. pose proof (tr_length _ _ _ Ht) as HL. pose proof (tr_position _ _ _ Ht) as Hp.
  pose proof (tr_tasks _ _ _ Ht) as Htot. unfold counted in Hn. pose proof (count_position t HL Hp) as Hc.
  rewrite begin_thread_cases. destruct (skipped (count t)) eqn:Hsk.
  { right. exists (count t). apply bool_decide_eq_true in Hsk. rewrite Hc in Hsk.
    destruct (decide (currentSample t + 1 = samplingLength t)) as [E|E]; [rewrite bool_decide_true in Hsk by done; lia|].
    rewrite bool_decide_false in Hsk, Hc by done. split; [done|]. split.
    - exists k. pose proof (opened_tracked T k now t ltac:(lia) Hnow Ht) as Hto. split; [|split].
      + destruct Ht as [? ? ? ? ? ? ?]. constructor; cbn [count set_currentSample samplingLength sample totalTasks sampleStartTime rcvStart computeStart]; [done| |done|done|lia|lia|lia].
        change (0 <= currentSample (count t) < samplingLength t). rewrite Hc. lia.
      + cbn. intros Hz. specialize (H0 Hz). lia.
      + rewrite Hc. rewrite bool_decide_false by lia. cbn. lia.
    - intros _ Hcl. unfold closes_sample in Hcl. rewrite Hc in Hcl. cbn in Hcl. rewrite !bool_decide_false in Hcl by lia. done. }
  apply bool_decide_eq_false in Hsk. pose proof (opened_tracked T k now t ltac:(lia) Hnow Ht) as Hto.
  destruct (bool_decide (computeStart t <> 0) && closes_sample (count t)) eqn:Hb.
  - apply andb_prop in Hb as [Hcs Hcl]. apply bool_decide_eq_true in Hcs.
    assert (Hc0 : currentSample t = 0).
    { apply orb_prop in Hcl as [E|E]; apply bool_decide_eq_true in E; [|cbn in E; lia]. rewrite Hc in E.
      destruct (decide (currentSample t + 1 = samplingLength t)); decide_bools; rewrite ?bool_decide_true, ?bool_decide_false in E by done; lia. }
    destruct (close_sample_tracked cfg now now k (opened now t)) as [[-> He]|(t' & k' & -> & Ht' & Htot' & Hcs' & Hc' & Hcon)];
      [done|done|specialize (Hk Hcs Hc0); lia|done|lia|intros est He; by apply Hquiet|by left|right].
    eexists. split; [done|]. split; [|done]. exists k'. split; [|split].
    + destruct Ht'. constructor; done || (cbn; lia).
    + cbn. lia.
    + cbn. rewrite Htot', Hc'. cbn. destruct (decide (samplingLength t' = 1)); decide_bools; lia.
  - right. eexists. split; [done|]. split; [|intros Hcs Hcl; rewrite Hcl, bool_decide_true in Hb by done; done].
    exists k. split; [destruct Hto; constructor; done || (cbn; lia)|]. split; [cbn; lia|].
    cbn [set_computeStart totalTasks currentSample samplingLength]. change (currentSample (opened now t)) with (currentSample (count t)).
    change (samplingLength (opened now t)) with (samplingLength t). change (totalTasks (opened now t)) with (totalTasks t).
    assert (HL1 : currentSample t + 1 = samplingLength t).
    { destruct (decide (computeStart t = 0)) as [Hz|Hz]; [specialize (H0 Hz); lia|]. rewrite bool_decide_true in Hb by done.
      unfold closes_sample in Hb. apply orb_false_elim in Hb as [Hb _]. apply bool_decide_eq_false in Hb. rewrite Hc in Hb, Hsk.
      destruct (decide (currentSample t + 1 = samplingLength t)); [done|]. rewrite bool_decide_false in Hb, Hsk by done. lia. }
    rewrite Hc, (bool_decide_true (_ + 1 = _)), bool_decide_true by done. lia.
Qed.

(** ** [end] and the other events *)
Lemma end_inside n T now t : inside n T t -> 0 <= n -> n + 1 < 2 ^ 53 -> T <= now -> between (n + 1) now (end_thread 1 now t).
Proof.
  intros (k & Ht & Hcs & Hn) Hn0 Hn53 HT. pose proof (tracked_later _ now _ _ HT Ht) as [HL Hp Hk Htot Hss Hrs Hst].
  unfold end_thread. destruct (decide (currentSample t = 0)) as [Hc|Hc].
  2: { rewrite bool_decide_true by done. exists k. rewrite bool_decide_false in Hn by done. split; [by apply (tracked_later T)|].
    split; [done|]. split; [lia|done]. }
  rewrite (bool_decide_false (currentSample t <> 0)) by lia.
  rewrite bool_decide_true in Hn by done. exists (k + samplingLength t).
  cbn [set_ended set_sample set_tasks set_totalTasks totalTasks samplingLength sample numTasks].
  rewrite Z.mul_1_r, (wrap_small _ (samplingLength t)), wrap_small by (unfold in_range; lia). split; [|split; [|split]].
  - constructor; cbn; [done|done| |lia|done|lia|done]. rewrite Hk. apply dadd_exact; lia.
  - unfold counted. cbn. lia.
  - lia.
  - cbn. done.
Qed.

Lemma store_between n T i v t : between n T t -> between n T (store_custom i v t).
Proof. intros (k & [] & ?). exists k. split; [|done]. by constructor. Qed.

Lemma ask_between n T t : between n T t -> between n T (ask_sample t).
Proof. intros (k & [] & ?). exists k. split; [|done]. by constructor. Qed.

Lemma take_between n T t : between n T t -> between n T (take_sample t).
Proof. intros (k & [] & ?). exists k. split; [|done]. by constructor. Qed.

Lemma between_later n T T' t : T <= T' -> between n T t -> between n T' t.
Proof. intros HT (k & Ht & ?). exists k. split; [by apply (tracked_later T)|done]. Qed.

Lemma sampling_quiet cfg now t : dtrue (samplingLengthMs cfg) = true -> quiet cfg now t.
Proof. intros Hon est _ _ _. by left. Qed.

(** The outcome of a history: a thread that counted all its tasks, unless the
    estimate of an elapsed time did not fit its 64-bit integer. *)
Lemma run_sampling cfg es n T t :
  cfg_ok cfg -> dtrue (samplingLengthMs cfg) = true -> between n T t -> 0 < T -> monotonic T es -> 0 <= n -> n + tasks_of es < 2 ^ 53 ->
  run_thread cfg es t = Err IntOverflow \/
  exists t', run_thread cfg es t = Ok t' /\ between (n + tasks_of es) (last_time T es) t'.
Proof.
  intros Hcfg Hon. revert n T t. induction es as [|e es IH]; intros n T t Ht HT Hmono Hn Hn53.
  { right. exists t. cbn. rewrite Z.add_0_r. done. }
  pose proof (tasks_of_nonneg es) as Hes. destruct e as [tb te| | |i v]; cbn [run_thread thread_step mbind result_bind].
  - destruct Hmono as (Htb & Hte & Hmono). cbn [tasks_of] in *.
    destruct (begin_between cfg n T tb t) as [[-> _]|(t1 & -> & Ht1 & _)]; [done|done|lia|lia|lia|by apply sampling_quiet|by left|].
    cbn [mbind result_bind]. pose proof (end_inside n tb te t1 Ht1 Hn ltac:(lia) ltac:(lia)) as Ht2.
    destruct (IH (n + 1) te (end_thread 1 te t1)) as [->|(t' & -> & Ht')]; [done|lia|done|lia|lia|by left|right].
    exists t'. split; [done|]. by replace (n + (1 + tasks_of es)) with (n + 1 + tasks_of es) by lia.
  - apply (IH n T); [by apply ask_between|done..].
  - apply (IH n T); [by apply take_between|done..].
  - apply (IH n T); [by apply store_between|done..].
Qed.

(** ** Without sampling: the exact reference

    The reference adds up integers: the tasks and the time spent in them since
    [r_since], whether a sample was asked for, and the last sample delivered
    (tasks, time in them, elapsed time). *)
Record reference := {
  r_tasks : Z;
  r_busy : Z;
  r_since : Z;
  r_asked : bool;
  r_out : option (Z * Z * Z);
}.

Definition ref_new : reference := {| r_tasks := 0; r_busy := 0; r_since := 0; r_asked := false; r_out := None |}.

Definition ref_begin (now : Z) (r : reference) : reference :=
  if bool_decide (r_since r = 0) then
    {| r_tasks := r_tasks r; r_busy := r_busy r; r_since := now; r_asked := r_asked r; r_out := r_out r |}
  else if r_asked r then
    {| r_tasks := 0; r_busy := 0; r_since := now; r_asked := false; r_out := Some (r_tasks r, r_busy r, now - r_since r) |}
  else r.

Definition ref_end (duration : Z) (r : reference) : reference :=
  {| r_tasks := r_tasks r + 1; r_busy := r_busy r + duration; r_since := r_since r; r_asked := r_asked r; r_out := r_out r |}.

Definition ref_step (e : thread_event) (r : reference) : reference :=
  match e with
  | Task tb te => ref_end (te - tb) (ref_begin tb r)
  | AskSample => {| r_tasks := r_tasks r; r_busy := r_busy r; r_since := r_since r; r_asked := true; r_out := r_out r |}
  | TakeSample => {| r_tasks := r_tasks r; r_busy := r_busy r; r_since := r_since r; r_asked := r_asked r; r_out := None |}
  | StoreCustom _ _ => r
  end.

Definition ref_run (es : list thread_event) (r : reference) : reference := foldl (fun r e => ref_step e r) r es.

(** The sample that carries what the reference delivers. *)
Definition delivered (o : option (Z * Z * Z)) (s : ApplicationSample) : Prop :=
  match o with
  | None => s = zero_sample
  | Some (k, busy, time) =>
      inconsistent s = false /\ numTasks s = of_Z k /\ latency s = of_Z busy /\
      throughput s = ddiv (of_Z k) (ddiv (of_Z time) (of_Z 1000000000)) /\
      loadPercentage s = dmul (ddiv (of_Z busy) (of_Z time)) (of_Z 100)
  end.

(** The times add up: the latencies and the idle times fill the time since the
    last sample, up to [R]. *)
Record precise (R : ThreadData -> Z) (r : reference) (t : ThreadData) : Prop := {
  pr_length : samplingLength t = 1;
  pr_position : currentSample t = 0;
  pr_consistent : inconsistent (sample t) = false;
  pr_begun : computeStart t = 0 <-> sampleStartTime t = 0;
  pr_tasks : numTasks (sample t) = of_Z (r_tasks r);
  pr_latency : latency (sample t) = of_Z (r_busy r);
  pr_since : sampleStartTime t = r_since r;
  pr_asked : consolidate t = r_asked r;
  pr_out : delivered (r_out r) (consolidatedSample t);
  pr_count : 0 <= r_tasks r <= totalTasks t;
  pr_busy : 0 <= r_busy r;
  pr_idle : 0 <= idleTime t;
  pr_sum : r_busy r + idleTime t = (if bool_decide (computeStart t = 0) then 0 else R t - sampleStartTime t);
}.

Definition unsampled (cfg : ApplicationConfiguration) : Prop :=
  dtrue (samplingLengthMs cfg) = false /\ dgtb dzero (consistencyThreshold cfg) = false.

Lemma unsampled_ok cfg : unsampled cfg -> cfg_ok cfg.
Proof. intros [H _]. by left. Qed.

Lemma new_precise : precise rcvStart ref_new new_ThreadData.
Proof. by constructor. Qed.

(** The estimate of the elapsed time is the elapsed time. *)
Lemma precise_estimate T k r now t : tracked T k t -> precise rcvStart r t -> computeStart t <> 0 -> T <= now < 2 ^ 53 ->
  estimate now (opened now t) = Ok (now - sampleStartTime t) /\ elapsed now (opened now t) = now - sampleStartTime t /\
  idle_after now (opened now t) = idleTime t + (now - rcvStart t).
Proof.
  intros [] [] Hcs HT. rewrite bool_decide_false in pr_sum0 by done.
  assert (Hidle : idle_after now (opened now t) = idleTime t + (now - rcvStart t)).
  { unfold idle_after. cbn. rewrite pr_length0, Z.mul_1_r. do 2 rewrite (wrap_small 64 (now - rcvStart t)) by (unfold in_range; lia).
    by rewrite wrap_small by (unfold in_range; lia). }
  assert (Hel : elapsed now (opened now t) = now - sampleStartTime t).
  { unfold elapsed. cbn. rewrite bool_decide_false by tauto. apply wrap_small. unfold in_range. lia. }
  split; [|done]. unfold estimate. rewrite Hidle. cbn. rewrite pr_latency0, dadd_exact by lia. rewrite to_u64_exact by lia. f_equal. lia.
Qed.

Lemma gap_zero cfg d : unsampled cfg -> 0 <= d < 2 ^ 53 -> gap_exceeds cfg d d = false.
Proof.
  intros [_ Hthr] Hd. unfold gap_exceeds, absDiff. rewrite bool_decide_false by lia. rewrite Z.sub_diag. cbn [wrap].
  change (u64 0) with 0. rewrite of_Z_zero. destruct (decide (d = 0)) as [->|]; [by destruct (consistencyThreshold cfg)|].
  by rewrite ddiv_zero by lia.
Qed.

Lemma precise_quiet cfg n T r now t : unsampled cfg -> between n T t -> precise rcvStart r t -> T <= now < 2 ^ 53 -> quiet cfg now t.
Proof.
  intros Hcfg (k & Ht & _) Hp HT est Hcs _ Hest. right; left.
  destruct (precise_estimate T k r now t Ht Hp Hcs HT) as (E1 & E2 & _). rewrite E1 in Hest. injection Hest as <-. rewrite E2.
  destruct Ht. apply gap_zero; [done|]. lia.
Qed.

Lemma precise_count R r t : precise R r t -> count t = t.
Proof. intros []. unfold count. rewrite pr_length0, pr_position0. destruct t. cbn in *. by subst. Qed.

Lemma change_length_one t : samplingLength t = 1 -> currentSample t = 0 -> change_length 1 t = t.
Proof.
  intros HL Hc. rewrite change_length_spec; [|lia|unfold closes_sample; rewrite HL; apply orb_true_r|lia].
  destruct t. cbn in *. by subst.
Qed.

(** What an unsampled [begin] does to the data of a thread that has begun. *)
Lemma begin_unsampled cfg T k r now t :
  unsampled cfg -> tracked T k t -> k < 2 ^ 53 -> precise rcvStart r t -> computeStart t <> 0 -> T <= now < 2 ^ 53 ->
  begin_thread cfg now t =
    Ok (set_computeStart now
          (let t' := rated now (opened now t) in
           if r_asked r then set_consolidated (sample t') false (set_starts (firstBegin t') now (set_idleTime 0 (set_sample zero_sample t')))
           else t')).
Proof.
  intros Hcfg Ht Hk Hp Hcs HT. pose proof (precise_count _ _ _ Hp) as Hcount. pose proof Ht as [? ? Htn Hkt ? ? ?].
  destruct (precise_estimate T k r now t Ht Hp Hcs HT) as (E1 & E2 & _). pose proof Hp as [HL Hc _ _ _ _ _ Hasked _ _ _ _].
  rewrite begin_thread_cases, Hcount. unfold skipped, closes_sample. rewrite Hc, HL, (bool_decide_true (computeStart t <> 0)) by done.
  rewrite (bool_decide_false (0 > 1)), (bool_decide_true (1 = 1)), orb_true_r by lia. cbn [andb].
  rewrite (close_sample_eq cfg now k); [|by unfold opened; rewrite Hcount|lia]. rewrite E1, E2. cbn [mbind result_bind]. unfold next_length.
  rewrite (proj1 Hcfg). cbn [mbind result_bind]. unfold consolidate_sample. rewrite gap_zero by (done || lia).
  change (samplingLength (opened now t)) with (samplingLength t). rewrite HL.
  change (consolidate (rated now (opened now t))) with (consolidate t). rewrite Hasked.
  assert (Hcount0 : currentSample (opened now t) = 0) by (unfold opened; rewrite Hcount; done).
  destruct (r_asked r); cbn [mbind result_bind]; rewrite change_length_one by done; done.
Qed.

Lemma begin_precise cfg n T r now t :
  unsampled cfg -> between n T t -> precise rcvStart r t -> 0 <= n < 2 ^ 53 -> T <= now < 2 ^ 53 -> 0 < now ->
  exists t', begin_thread cfg now t = Ok t' /\ inside n now t' /\ precise computeStart (ref_begin now r) t'.
Proof.
  intros Hcfg Hb Hp Hn HT Hnow. pose proof (precise_count _ _ _ Hp) as Hcount.
  destruct (begin_between cfg n T now t) as [(_ & Hcs & _ & Hest)|(t' & E & Ht' & _)];
    [by apply unsampled_ok|done|done|done|done|by apply (precise_quiet cfg n T r)| |].
  { destruct Hb as (k & Ht & _). destruct (precise_estimate T k r now t Ht Hp Hcs) as [E _]; [done|]. congruence. }
  exists t'. split; [done|]. split; [done|]. destruct Hb as (k & Ht & Hcn & _). unfold counted in Hcn. destruct (decide (computeStart t = 0)) as [Hcs|Hcs].
  - destruct Hp. rewrite begin_thread_cases, Hcount in E. unfold skipped in E.
    rewrite pr_position0, (bool_decide_false (0 > 1)), (bool_decide_false (computeStart t <> 0)) in E by tauto || lia. injection E as <-.
    unfold opened. rewrite Hcount. rewrite bool_decide_true in pr_sum0 by done. assert (Hs0 : sampleStartTime t = 0) by tauto.
    unfold ref_begin. rewrite bool_decide_true by lia.
    constructor; cbn; rewrite ?Hs0; cbn; rewrite ?(bool_decide_false (now = 0)), ?(bool_decide_true (0 = 0)) by lia; first [done|lia].
  - pose proof Ht as []. destruct (precise_estimate T k r now t Ht Hp Hcs HT) as (_ & E2 & E3).
    rewrite (begin_unsampled cfg T k r) in E by (done || destruct Hp; lia). injection E as <-. destruct Hp.
    rewrite bool_decide_false in pr_sum0 by done. unfold ref_begin. rewrite bool_decide_false by (rewrite <- pr_since0; tauto).
    assert (Hss0 : sampleStartTime (opened now t) = sampleStartTime t) by (cbn; rewrite bool_decide_false; tauto).
    assert (Hcount0 : currentSample (opened now t) = 0) by (unfold opened; rewrite Hcount; done).
    destruct (r_asked r) eqn:Er.
    + constructor; cbn -[elapsed]; rewrite ?(bool_decide_false (now = 0)) by lia; first [done|lia|idtac].
      rewrite E2. subst. by rewrite pr_tasks0, pr_latency0, pr_since0.
    + constructor; cbn -[idle_after opened elapsed]; rewrite ?(bool_decide_false (now = 0)) by lia; rewrite ?Hss0; first [done|lia|idtac].
      all: try (rewrite E3; lia). by rewrite Er.
Qed.

Lemma end_precise n T r now t :
  inside n T t -> precise computeStart r t -> T <= now < 2 ^ 53 -> 0 <= n -> n + 1 < 2 ^ 53 ->
  precise rcvStart (ref_end (now - computeStart t) r) (end_thread 1 now t).
Proof.
  intros (k & [] & Hcs & Hn) [] HT Hn0 Hn1. unfold end_thread. rewrite bool_decide_false by lia.
  rewrite bool_decide_false in pr_sum0 by done. rewrite pr_position0, pr_length0, bool_decide_true in Hn by done.
  assert (Hlat : dadd (latency (sample t)) (dmul (dmul (of_Z (u64 (now - computeStart t))) (of_Z (samplingLength t))) (of_Z 1)) =
                 of_Z (r_busy r + (now - computeStart t))).
  { rewrite pr_latency0, pr_length0, wrap_small by (unfold in_range; lia).
    rewrite !dmul_exact, !Z.mul_1_r by lia. apply dadd_exact; lia. }
  assert (Htasks : u64 (samplingLength t * 1) = 1) by (by rewrite pr_length0).
  constructor; cbn -[dadd dmul of_Z wrap]; rewrite ?(bool_decide_false (computeStart t = 0)), ?Htasks by done;
    rewrite ?(wrap_small _ (totalTasks t + 1)) by (unfold in_range; lia); first [done|lia|idtac].
  rewrite pr_tasks0. apply dadd_exact; lia.
Qed.

Lemma ask_precise r t : precise rcvStart r t -> precise rcvStart (ref_step AskSample r) (ask_sample t).
Proof. intros []. by constructor. Qed.

Lemma take_precise r t : precise rcvStart r t -> precise rcvStart (ref_step TakeSample r) (take_sample t).
Proof. intros []. by constructor. Qed.

Lemma store_precise i v r t : precise rcvStart r t -> precise rcvStart (ref_step (StoreCustom i v) r) (store_custom i v t).
Proof. intros []. by constructor. Qed.

Lemma begin_computeStart cfg now t t' : begin_thread cfg now t = Ok t' -> currentSample t' = 0 -> samplingLength t' = 1 -> samplingLength t = 1 -> computeStart t' = now.
Proof.
  rewrite begin_thread_cases. destruct (skipped (count t)) eqn:Hs; intros E Hc HL HL0; [injection E as <-|].
  - apply bool_decide_eq_true in Hs. lia.
  - destruct (_ && _); inv_ok; done.
Qed.

Lemma run_precise cfg es n T r t :
  unsampled cfg -> between n T t -> precise rcvStart r t -> 0 < T -> monotonic T es -> 0 <= n -> n + tasks_of es < 2 ^ 53 ->
  exists t', run_thread cfg es t = Ok t' /\ between (n + tasks_of es) (last_time T es) t' /\ precise rcvStart (ref_run es r) t'.
Proof.
  intros Hcfg. revert n T r t. induction es as [|e es IH]; intros n T r t Ht Hp HT Hmono Hn Hn53.
  { exists t. cbn. by rewrite Z.add_0_r. }
  pose proof (tasks_of_nonneg es) as Hes. destruct e as [tb te| | |i v]; cbn [run_thread thread_step mbind result_bind ref_run foldl].
  - destruct Hmono as (Htb & Hte & Hmono). cbn [tasks_of] in *.
    destruct (begin_precise cfg n T r tb t) as (t1 & E & Ht1 & Hp1); [done..|lia|lia|lia|]. rewrite E. cbn [mbind result_bind].
    pose proof (end_inside n tb te t1 Ht1 Hn ltac:(lia) ltac:(lia)) as Ht2.
    pose proof (end_precise n tb _ te t1 Ht1 Hp1 ltac:(lia) Hn ltac:(lia)) as Hp2.
    rewrite (begin_computeStart _ _ _ _ E) in Hp2 by (apply Hp1 || apply Hp).
    destruct (IH (n + 1) te _ (end_thread 1 te t1) Ht2 Hp2) as (t' & -> & Ht' & Hp'); [lia|done|lia|lia|].
    exists t'. split; [done|]. split; [|done]. by replace (n + (1 + tasks_of es)) with (n + 1 + tasks_of es) by lia.
  - apply (IH n T); [by apply ask_between|by apply ask_precise|done..].
  - apply (IH n T); [by apply take_between|by apply take_precise|done..].
  - apply (IH n T); [by apply store_between|by apply store_precise|done..].
Qed.

(** ** The theorems on one thread *)

(** Sampling is on, with an ordinary length, or off. *)
Definition good_cfg (cfg : ApplicationConfiguration) : Prop :=
  unsampled cfg \/ (cfg_ok cfg /\ dtrue (samplingLengthMs cfg) = true).

Lemma default_good : good_cfg default_configuration.
Proof. right. split; [apply default_cfg_ok|done]. Qed.

Lemma run_between cfg es T t :
  good_cfg cfg -> 0 < T -> monotonic T es -> tasks_of es < 2 ^ 53 ->
  run_thread cfg es new_ThreadData = Ok t -> between (tasks_of es) (last_time T es) t.
Proof.
  intros [Hcfg|[Hcfg Hon]] HT Hmono Hn E.
  - destruct (run_precise cfg es 0 T ref_new new_ThreadData) as (t' & E' & Ht' & _); [done|apply new_between; lia|apply new_precise|done|done|done|done|].
    rewrite E in E'. by injection E' as ->.
  - destruct (run_sampling cfg es 0 T new_ThreadData) as [E'|(t' & E' & Ht')]; [done|done|apply new_between; lia|done|done|done|done|congruence|].
    rewrite E in E'. by injection E' as ->.
Qed.

(** C2. With sampling on, whatever tasks a thread runs and whenever samples are
    requested and taken, [begin] and [end] throw no exception; the tasks
    recorded and those skipped in the current period add up to the tasks that
    were run, and the position stays within a period of length at least 1.  The
    only failure is an estimate of the elapsed time that does not fit 64 bits. *)
Theorem sampling_loses_no_task cfg es :
  cfg_ok cfg -> dtrue (samplingLengthMs cfg) = true -> monotonic 1 es -> tasks_of es < 2 ^ 53 ->
  run_thread cfg es new_ThreadData = Err IntOverflow \/
  exists t, run_thread cfg es new_ThreadData = Ok t /\
    totalTasks t + currentSample t = tasks_of es /\ 1 <= samplingLength t < 2 ^ 64 /\ 0 <= currentSample t < samplingLength t.
Proof.
  intros Hcfg Hon Hmono Hn.
  destruct (run_sampling cfg es 0 1 new_ThreadData) as [E|(t & E & (k & [] & Hc & _))]; [done|done|by apply new_between|done|done|done|done|by left|].
  right. exists t. done.
Qed.

(** C3. Without sampling, no call ever fails, and the doubles and 64-bit counters of a
    thread are those of the exact reference: the tasks and the nanoseconds spent
    in them since the last sample, and a sample delivered at the first [begin]
    after a request, always consistent. *)
Theorem unsampled_is_exact cfg es :
  unsampled cfg -> monotonic 1 es -> tasks_of es < 2 ^ 53 ->
  exists t, run_thread cfg es new_ThreadData = Ok t /\ totalTasks t = tasks_of es /\ currentSample t = 0 /\
    let r := ref_run es ref_new in
    numTasks (sample t) = of_Z (r_tasks r) /\ latency (sample t) = of_Z (r_busy r) /\
    consolidate t = r_asked r /\ delivered (r_out r) (consolidatedSample t).
Proof.
  intros Hcfg Hmono Hn.
  destruct (run_precise cfg es 0 1 ref_new new_ThreadData) as (t & E & (k & _ & Hc & _) & []); [done|by apply new_between|apply new_precise|done..|].
  exists t. unfold counted in Hc. rewrite pr_position0 in Hc. split; [done|]. split; [lia|done].
Qed.

(** On the data of every thread that ran tasks, the comparison by which [begin]
    advances the position computes the remainder modulo the sampling length, as
    its comment says. *)
Theorem counter_is_modulo cfg es t :
  good_cfg cfg -> monotonic 1 es -> tasks_of es < 2 ^ 53 -> run_thread cfg es new_ThreadData = Ok t ->
  currentSample (count t) = (currentSample t + 1) mod samplingLength t.
Proof.
  intros Hcfg Hmono Hn E. destruct (run_between cfg es 1 t Hcfg ltac:(done) Hmono Hn E) as (k & [] & _).
  rewrite count_position by done. case_bool_decide as Hc.
  - rewrite Hc. by rewrite Z.mod_same by lia.
  - by rewrite Z.mod_small by lia.
Qed.

(** ** A requested sample is delivered within a sampling period *)

(** The number of tasks, at most, before a sample is closed. *)
Definition distance (t : ThreadData) : Z := if bool_decide (currentSample t = 0) then 1 else samplingLength t - currentSample t + 1.

Lemma distance_bound T k t : tracked T k t -> 1 <= distance t <= samplingLength t.
Proof. intros []. unfold distance. destruct (decide (currentSample t = 0)); decide_bools; lia. Qed.

Lemma end_fields w now t :
  samplingLength (end_thread w now t) = samplingLength t /\ currentSample (end_thread w now t) = currentSample t /\
  computeStart (end_thread w now t) = computeStart t /\ consolidate (end_thread w now t) = consolidate t /\
  firstBegin (end_thread w now t) = firstBegin t /\
  lastEnd (end_thread w now t) = if bool_decide (currentSample t = 0) then now else lastEnd t.
Proof. unfold end_thread. destruct (decide (currentSample t = 0)); decide_bools; repeat split. Qed.

(** A task that closes no sample brings the next one closer. *)
Lemma task_open cfg T k tb te t t' :
  tracked T k t -> computeStart t <> 0 -> closes_sample (count t) = false -> begin_thread cfg tb t = Ok t' -> 0 < tb ->
  distance (end_thread 1 te t') = distance t - 1 /\ computeStart (end_thread 1 te t') <> 0.
Proof.
  intros Ht Hcs Hcl E Htb. rewrite begin_thread_cases, Hcl, andb_false_r in E.
  destruct Ht as [HL Hp _ _ _ _ _]. pose proof (count_position t HL Hp) as Hc.
  unfold closes_sample in Hcl. apply orb_false_elim in Hcl as [H1 H2]. apply bool_decide_eq_false in H1, H2. rewrite Hc in H1. cbn in H2.
  assert (Hend : forall u, samplingLength u = samplingLength t -> currentSample u = currentSample (count t) -> computeStart u <> 0 ->
            distance (end_thread 1 te u) = distance t - 1 /\ computeStart (end_thread 1 te u) <> 0).
  { intros u HLu Hcu Hsu. destruct (end_fields 1 te u) as (E1 & E2 & E3 & _).
    split; [|by rewrite E3]. unfold distance. rewrite E1, E2, HLu, Hcu, Hc.
    destruct (decide (currentSample t + 1 = samplingLength t)), (decide (currentSample t = 0)); decide_bools;
      rewrite ?(bool_decide_true (0 = 0)), ?(bool_decide_false (currentSample t + 1 = 0)) by lia;
      rewrite ?(bool_decide_true (_ + 1 = _)), ?(bool_decide_false (_ + 1 = samplingLength t)) in H1 by done; lia. }
  destruct (skipped (count t)); injection E as <-; (apply Hend; [done|done|cbn; first [done|lia]]).
Qed.

(** What [begin] at [now] hands over when it stores a requested sample: the
    tasks, the time in them and the custom values gathered so far, the rates
    over the time since the last sample, and whether the estimate of that time
    is too far off.  The thread then starts from an empty sample. *)
Record hands_over (cfg : ApplicationConfiguration) (now : Z) (t t' : ThreadData) : Prop := {
  ho_asked : consolidate t = true;
  ho_answered : consolidate t' = false;
  ho_tasks : numTasks (consolidatedSample t') = numTasks (sample t);
  ho_latency : latency (consolidatedSample t') = latency (sample t);
  ho_custom : customFields (consolidatedSample t') = customFields (sample t);
  ho_load : loadPercentage (consolidatedSample t') =
              dmul (ddiv (latency (sample t)) (of_Z (now - sampleStartTime t))) (of_Z 100);
  ho_throughput : throughput (consolidatedSample t') =
              ddiv (numTasks (sample t)) (ddiv (of_Z (now - sampleStartTime t)) (of_Z 1000000000));
  ho_inconsistent : exists est, to_u64 (dadd (latency (sample t)) (of_Z (idle_after now t))) = Ok est /\
              inconsistent (consolidatedSample t') = gap_exceeds cfg (now - sampleStartTime t) est || inconsistent (sample t);
  ho_fresh : sample t' = zero_sample /\ idleTime t' = 0 /\ sampleStartTime t' = now /\ computeStart t' = now;
  ho_total : totalTasks t' = totalTasks t;
}.

(** A thread that has begun has a start of its sample. *)
Definition begun (t : ThreadData) : Prop := computeStart t <> 0 -> sampleStartTime t <> 0.

Lemma close_start cfg now t t' : close_sample cfg now t = Ok t' -> sampleStartTime t' = sampleStartTime t \/ sampleStartTime t' = now.
Proof.
  unfold close_sample. intros E. inv_ok. apply consolidate_cases in H1. unfold change_length.
  destruct H1 as [->|(c & ->)]; cbn; repeat destruct (_ && _); cbn; tauto.
Qed.

Lemma begin_begun cfg now t t' : begun t -> 0 < now -> begin_thread cfg now t = Ok t' -> begun t'.
Proof.
  intros Ht Hnow. rewrite begin_thread_cases.
  assert (Hopen : sampleStartTime (opened now t) <> 0) by (cbn; destruct (decide (sampleStartTime t = 0)); decide_bools; lia).
  destruct (skipped (count t)); intros E; [by injection E as <-|]. destruct (_ && _); [|injection E as <-; intros _; exact Hopen].
  destruct (close_sample _ _ _) as [u|] eqn:Eu; [|done]. injection E as <-. intros _. cbn -[opened].
  apply close_start in Eu as [->| ->]; [done|lia].
Qed.

Lemma new_begun : begun new_ThreadData.
Proof. intros H. by destruct H. Qed.

Lemma end_begun w now t : begun t -> begun (end_thread w now t).
Proof. unfold begun, end_thread. by case_bool_decide. Qed.

Lemma step_begun cfg T e es t t' : begun t -> 0 < T -> monotonic T (e :: es) -> thread_step cfg e t = Ok t' -> begun t'.
Proof.
  destruct e as [tb te| | |i v]; cbn; intros Ht HT Hm E; [|by injection E as <-..]. destruct Hm as (Htb & _).
  destruct (begin_thread cfg tb t) as [u|] eqn:Eu; [|done]. injection E as <-.
  by apply end_begun, (begin_begun cfg tb t); [|lia|].
Qed.

Lemma run_begun cfg es T t t' : begun t -> 0 < T -> monotonic T es -> run_thread cfg es t = Ok t' -> begun t'.
Proof.
  revert T t. induction es as [|e es IH]; intros T t Ht HT Hm E; cbn in E; [by injection E as <-|].
  destruct (thread_step cfg e t) as [u|] eqn:Eu; [|done]. pose proof (step_begun cfg T e es t u Ht HT Hm Eu) as Hu.
  destruct e as [tb te| | |i v]; [|by apply (IH T) in E..]. destruct Hm as (? & ? & Hm). apply (IH te) in E; [done|done|lia|done].
Qed.

(** A [begin] that closes a requested sample hands it over. *)
Lemma begin_hands_over cfg n T now t t' :
  dtrue (samplingLengthMs cfg) = true -> between n T t -> 0 <= n < 2 ^ 53 -> begun t -> T <= now < 2 ^ 53 -> computeStart t <> 0 ->
  closes_sample (count t) = true -> consolidate t = true -> begin_thread cfg now t = Ok t' -> hands_over cfg now t t'.
Proof.
  intros Hon (k & Ht & Hn & _) Hn53 Hb HT Hcs Hcl Hcon E. unfold counted in Hn. destruct Ht.
  assert (Hsk : skipped (count t) = false).
  { unfold skipped. apply bool_decide_eq_false. apply orb_prop in Hcl as [Hcl|Hcl]; apply bool_decide_eq_true in Hcl; [lia|].
    rewrite count_position by done. change (samplingLength (count t)) with (samplingLength t) in Hcl. case_bool_decide; lia. }
  rewrite begin_thread_cases, Hsk, Hcl, bool_decide_true in E by done. cbn [andb] in E. rewrite (close_sample_eq cfg now k) in E by (done || lia).
  assert (Hs : sampleStartTime (opened now t) = sampleStartTime t) by (cbn; by rewrite bool_decide_false by auto).
  assert (Hel : elapsed now (opened now t) = now - sampleStartTime t) by (unfold elapsed; rewrite Hs; apply wrap_small; unfold in_range; lia).
  destruct (estimate now (opened now t)) as [est|] eqn:Eest; [|done]. cbn [mbind result_bind] in E.
  destruct (next_length _ _ _ _) as [l|]; [|done]. cbn [mbind result_bind] in E. unfold consolidate_sample in E.
  change (consolidate (rated now (opened now t))) with (consolidate t) in E. rewrite Hcon, Hon, Hel in E.
  set (c := if gap_exceeds cfg (now - sampleStartTime t) est then set_inconsistent true (sample (rated now (opened now t)))
            else sample (rated now (opened now t))).
  set (u := set_consolidated c false (set_starts (firstBegin (rated now (opened now t))) now (set_idleTime 0 (set_sample zero_sample (rated now (opened now t)))))).
  assert (E' : t' = set_computeStart now (change_length l u)).
  { unfold u, c. destruct (gap_exceeds _ _ _); cbn [negb mbind result_bind] in E; by injection E as <-. }
  assert (Hlen : forall v, exists p, set_computeStart now (change_length l v) = set_computeStart now (set_currentSample p (set_samplingLength l v))).
  { intros v. unfold change_length. destruct (bool_decide (samplingLength v = 1) && _), (bool_decide (samplingLength v > 1) && _);
      eexists; destruct v; cbn; reflexivity. }
  destruct (Hlen u) as [p Ep]. rewrite E', Ep.
  assert (Hc : numTasks c = numTasks (sample t) /\ latency c = latency (sample t) /\ customFields c = customFields (sample t) /\
     loadPercentage c = dmul (ddiv (latency (sample t)) (of_Z (now - sampleStartTime t))) (of_Z 100) /\
     throughput c = ddiv (numTasks (sample t)) (ddiv (of_Z (now - sampleStartTime t)) (of_Z 1000000000)) /\
     inconsistent c = gap_exceeds cfg (now - sampleStartTime t) est || inconsistent (sample t)).
  { unfold c, rated. rewrite Hel. by destruct (gap_exceeds cfg (now - sampleStartTime t) est). }
  destruct Hc as (? & ? & ? & ? & ? & ?). constructor; [done|done|done|done|done|done|done|by exists est|done|done].
Qed.

(** The tasks that run before a sample is handed over. *)
Definition patience (t : ThreadData) : Z := distance t + (if bool_decide (computeStart t = 0) then 1 else 0).

Lemma first_task n T cfg tb te t t' : between n T t -> 0 <= n -> computeStart t = 0 -> 0 < tb -> begin_thread cfg tb t = Ok t' ->
  consolidate t' = consolidate t /\ patience (end_thread 1 te t') = patience t - 1.
Proof.
  intros (k & [] & _ & _ & H0) Hn Hcs Htb E. specialize (H0 Hcs). assert (Hc : currentSample t = 0) by lia.
  assert (Hcount : currentSample (count t) = 0) by (rewrite count_position by done; by rewrite Hc, H0).
  rewrite begin_thread_cases in E. unfold skipped in E. rewrite Hcount, (bool_decide_false (0 > 1)), (bool_decide_false (computeStart t <> 0)) in E by tauto || lia.
  injection E as <-. split; [done|]. unfold patience, distance. destruct (end_fields 1 te (set_computeStart tb (opened tb t))) as (E1 & E2 & E3 & _).
  rewrite E1, E2, E3. change (currentSample (set_computeStart tb (opened tb t))) with (currentSample (count t)). rewrite Hcount, Hc.
  cbn [set_computeStart computeStart]. rewrite (bool_decide_true (0 = 0)), (bool_decide_false (tb = 0)), (bool_decide_true (computeStart t = 0)) by (done || lia). lia.
Qed.

Lemma open_consolidate cfg now t t' : closes_sample (count t) = false -> begin_thread cfg now t = Ok t' -> consolidate t' = consolidate t.
Proof. intros Hcl. rewrite begin_thread_cases, Hcl, andb_false_r. destruct (skipped _); intros E; by injection E as <-. Qed.

Lemma patience_pos n T t : between n T t -> 0 < patience t.
Proof. intros (k & Ht & _). pose proof (distance_bound T k t Ht). unfold patience. destruct (decide (computeStart t = 0)); decide_bools; lia. Qed.

Lemma delivered_within cfg es n T t :
  cfg_ok cfg -> dtrue (samplingLengthMs cfg) = true -> between n T t -> begun t -> consolidate t = true ->
  patience t <= tasks_of es -> 0 < T -> monotonic T es -> 0 <= n -> n + tasks_of es < 2 ^ 53 ->
  run_thread cfg es t = Err IntOverflow \/
  exists es1 tb te es2 t0 t1, es = es1 ++ Task tb te :: es2 /\ tasks_of es1 < patience t /\
    run_thread cfg es1 t = Ok t0 /\ begin_thread cfg tb t0 = Ok t1 /\ hands_over cfg tb t0 t1.
Proof.
  intros Hcfg Hon. revert n T t. induction es as [|e es IH]; intros n T t Ht Hb Hcon Hd HT Hmono Hn Hn53.
  { pose proof (patience_pos n T t Ht). cbn in Hd. lia. }
  assert (Hskip : forall t', between n T t' -> begun t' -> consolidate t' = true -> patience t' = patience t -> thread_step cfg e t = Ok t' ->
     monotonic T es -> tasks_of (e :: es) = tasks_of es -> tasks_of [e] = 0 -> run_thread cfg (e :: es) t = Err IntOverflow \/
     exists es1 tb te es2 t0 t1, e :: es = es1 ++ Task tb te :: es2 /\ tasks_of es1 < patience t /\
       run_thread cfg es1 t = Ok t0 /\ begin_thread cfg tb t0 = Ok t1 /\ hands_over cfg tb t0 t1).
  { intros t' Ht' Hb' Hcon' Hp' E Hm Htasks He. cbn [run_thread]. rewrite E. cbn [mbind result_bind].
    destruct (IH n T t' Ht' Hb' Hcon') as [->|(es1 & tb & te & es2 & t0 & t1 & -> & Hl & E1 & E2)]; [lia|done|done|done|lia|by left|right].
    exists (e :: es1), tb, te, es2, t0, t1. cbn [run_thread]. rewrite E. split; [done|]. split; [|done]. rewrite <- Hp'.
    destruct e; cbn in *; lia. }
  destruct e as [tb te| | |i v]; [clear Hskip|by apply (Hskip (ask_sample t)); [apply ask_between|..]|
    by apply (Hskip (take_sample t)); [apply take_between|..]|by apply (Hskip (store_custom i v t)); [apply store_between|..]].
  destruct Hmono as (Htb & Hte & Hmono). cbn [tasks_of] in *. pose proof (tasks_of_nonneg es). pose proof (patience_pos n T t Ht) as Hpp.
  cbn [run_thread thread_step mbind result_bind].
  destruct (begin_between cfg n T tb t) as [[-> _]|(t1 & E & Ht1 & _)]; [done|done|lia|lia|lia|by apply sampling_quiet|by left|].
  destruct (bool_decide (computeStart t <> 0) && closes_sample (count t)) eqn:Hcl.
  { right. apply andb_prop in Hcl as [Hcs Hcl]. apply bool_decide_eq_true in Hcs. exists [], tb, te, es, t, t1.
    split; [done|]. split; [done|]. split; [done|]. split; [done|]. apply (begin_hands_over cfg n T); [done|done|lia|done|lia|done..]. }
  rewrite E. cbn [mbind result_bind]. pose proof (end_inside n tb te t1 Ht1 Hn ltac:(lia) ltac:(lia)) as Ht2.
  assert (Hnext : consolidate t1 = consolidate t /\ patience (end_thread 1 te t1) = patience t - 1).
  { destruct (decide (computeStart t = 0)) as [Hcs|Hcs]; [by apply (first_task n T cfg tb te t t1 Ht Hn Hcs ltac:(lia))|].
    rewrite bool_decide_true in Hcl by done. cbn [andb] in Hcl. split; [by apply (open_consolidate cfg tb)|].
    destruct Ht as (k & Ht & _). destruct (task_open cfg T k tb te t t1) as [Hd' Hcs']; [done..|lia|].
    unfold patience. rewrite Hd', !bool_decide_false by done. lia. }
  destruct Hnext as [Hc1 Hp1]. assert (Hb2 : begun (end_thread 1 te t1)) by (by apply end_begun, (begin_begun cfg tb t); [|lia|]).
  destruct (IH (n + 1) te (end_thread 1 te t1)) as [->|(es1 & tb' & te' & es2 & t0 & t2 & -> & Hl & E1 & E2)];
    [done|done| |lia|lia|done|lia|lia|by left|right].
  { destruct (end_fields 1 te t1) as (_ & _ & _ & -> & _). by rewrite Hc1. }
  exists (Task tb te :: es1), tb', te', es2, t0, t2. cbn [run_thread thread_step tasks_of mbind result_bind]. rewrite E. split; [done|]. split; [lia|done].
Qed.

(** C8. With sampling on, a requested sample is handed over by a [begin] that comes
    before the thread has run more tasks than the sampling length it had when the
    request came, and one more when it had not begun yet, whatever custom values
    are stored and whatever is asked in between: [hands_over] gives every field of
    what is stored.  The only other outcome is an estimate of the elapsed time
    that does not fit 64 bits. *)
Theorem sample_within_a_period cfg es es' t :
  cfg_ok cfg -> dtrue (samplingLengthMs cfg) = true -> run_thread cfg es new_ThreadData = Ok t ->
  monotonic 1 (es ++ AskSample :: es') -> tasks_of es + tasks_of es' < 2 ^ 53 ->
  let period := samplingLength t + (if bool_decide (computeStart t = 0) then 1 else 0) in
  period <= tasks_of es' ->
  run_thread cfg (AskSample :: es') t = Err IntOverflow \/
  exists es1 tb te es2 t0 t1, es' = es1 ++ Task tb te :: es2 /\ tasks_of es1 < period /\
    run_thread cfg (AskSample :: es1) t = Ok t0 /\ begin_thread cfg tb t0 = Ok t1 /\ hands_over cfg tb t0 t1.
Proof.
  intros Hcfg Hon E [Hmono Hmono']%monotonic_app Hn period Hd. pose proof (tasks_of_nonneg es'). pose proof (tasks_of_nonneg es).
  pose proof (run_between cfg es 1 t (or_intror (conj Hcfg Hon)) ltac:(done) Hmono ltac:(lia) E) as Ht.
  assert (Hpat : patience (ask_sample t) <= period).
  { destruct Ht as (k & Hk & _). pose proof (distance_bound _ _ _ Hk). unfold period, patience. change (distance (ask_sample t)) with (distance t).
    change (computeStart (ask_sample t)) with (computeStart t). lia. }
  pose proof (last_time_le 1 es Hmono). pose proof (run_begun cfg es 1 new_ThreadData t new_begun ltac:(done) Hmono E) as Hb.
  cbn [run_thread thread_step mbind result_bind].
  destruct (delivered_within cfg es' (tasks_of es) (last_time 1 es) (ask_sample t)) as [Hf|(es1 & tb & te & es2 & t0 & t1 & ? & ? & Hrest)];
    [done|done|by apply ask_between|exact Hb|done|lia|lia|done|lia|lia|by left|right].
  exists es1, tb, te, es2, t0, t1. split; [done|]. split; [lia|done].
Qed.

(** ** Termination: the totals *)

(** The first begin and the last recorded end, between two tasks. *)
Definition timed (T : Z) (t : ThreadData) : Prop :=
  0 <= firstBegin t <= lastEnd t /\ lastEnd t <= T /\
  (firstBegin t = 0 -> computeStart t = 0 /\ samplingLength t = 1 /\ currentSample t = 0).

(** The same inside a task. *)
Definition timed_inside (T : Z) (t : ThreadData) : Prop :=
  0 < firstBegin t <= T /\ 0 <= lastEnd t <= T /\ (currentSample t <> 0 -> firstBegin t <= lastEnd t).

Lemma close_fields cfg now t t' : close_sample cfg now t = Ok t' -> firstBegin t' = firstBegin t /\ lastEnd t' = lastEnd t.
Proof.
  unfold close_sample. intros E. inv_ok. apply consolidate_cases in H1. unfold change_length.
  destruct H1 as [->|(c & ->)]; cbn; by repeat destruct (_ && _).
Qed.

Lemma begin_timed cfg T now t t' : timed T t -> T <= now -> 0 < now -> begin_thread cfg now t = Ok t' -> timed_inside now t'.
Proof.
  intros (Hf & Hl & H0) HT Hnow. rewrite begin_thread_cases. destruct (decide (firstBegin t = 0)) as [Hz|Hz].
  - destruct (H0 Hz) as (Hcs & HL & Hc).
    assert (Hcount : currentSample (count t) = 0) by (unfold count; cbn; by rewrite Hc, HL).
    unfold skipped. rewrite Hcount, (bool_decide_false (0 > 1)), (bool_decide_false (computeStart t <> 0)) by tauto || lia.
    intros E. injection E as <-. split; [|split].
    + cbn. rewrite bool_decide_true by done. lia.
    + cbn. lia.
    + intros Hn. by destruct Hn.
  - assert (Hopen : firstBegin (opened now t) = firstBegin t) by (cbn; by rewrite bool_decide_false).
    assert (Hin : forall u, firstBegin u = firstBegin t -> lastEnd u = lastEnd t -> timed_inside now u) by (unfold timed_inside; intros u -> ->; lia).
    destruct (skipped (count t)); intros E; [injection E as <-; by apply Hin|].
    destruct (_ && _); [|injection E as <-; by apply Hin].
    destruct (close_sample _ _ _) as [u|] eqn:Eu; [|done]. injection E as <-.
    apply close_fields in Eu as [E1 E2]. apply Hin; cbn -[opened]; [by rewrite E1|by rewrite E2].
Qed.

Lemma end_timed T now t : timed_inside T t -> T <= now -> timed now (end_thread 1 now t).
Proof.
  intros (Hf & Hl & Hfl) HT. destruct (end_fields 1 now t) as (_ & _ & _ & _ & E1 & E2). unfold timed. rewrite E1, E2.
  destruct (decide (currentSample t = 0)); decide_bools; lia.
Qed.

Lemma run_timed cfg es T t t' : timed T t -> 0 < T -> monotonic T es -> run_thread cfg es t = Ok t' -> timed (last_time T es) t'.
Proof.
  revert T t. induction es as [|[tb te| | |i v] es IH]; intros T t Ht HT Hm E; cbn in E; [by injection E as <-| |by apply (IH T) in E..].
  destruct Hm as (Htb & Hte & Hm). inv_ok. apply (IH te) in E; [done| |lia|done].
  apply (end_timed tb); [|lia]. by apply (begin_timed cfg T tb t); [|lia|lia|].
Qed.

Lemma last_time_bound T es : monotonic T es -> T < 2 ^ 53 -> last_time T es < 2 ^ 53.
Proof. revert T. induction es as [|[] es IH]; intros T; cbn; [done| |apply IH..]. intros (? & ? & Hm) _. by apply IH. Qed.

(** The totals of the threads. *)
Definition sumZ (l : list Z) : Z := foldr Z.add 0 l.
Definition first_begin (ts : list ThreadData) : Z := foldl (fun m t => Z.min m (firstBegin t)) (2 ^ 64 - 1) ts.
Definition last_end (ts : list ThreadData) : Z := foldl (fun m t => Z.max m (lastEnd t)) 0 ts.

Lemma sum_threads_spec ts tasks fb le :
  Forall (fun t => 0 <= counted t) ts -> 0 <= tasks -> tasks + sumZ (counted <$> ts) < 2 ^ 64 ->
  snd (sum_threads ts tasks fb le) =
    (tasks + sumZ (counted <$> ts), foldl (fun m t => Z.min m (firstBegin t)) fb ts, foldl (fun m t => Z.max m (lastEnd t)) le ts).
Proof.
  revert tasks fb le. induction ts as [|t ts IH]; intros tasks fb le Hpos Htasks Hsum; cbn in *; [do 2 f_equal; lia|].
  apply Forall_cons in Hpos as [Ht Hpos].
  assert (Hrest : 0 <= sumZ (counted <$> ts)).
  { clear -Hpos. unfold sumZ. induction Hpos; cbn in *; lia. }
  change (foldr Z.add 0 (counted <$> ts)) with (sumZ (counted <$> ts)) in *.
  change (totalTasks t + currentSample t) with (counted t).
  rewrite (wrap_small 64 (counted t)), (wrap_small 64 (tasks + _)) by (unfold in_range; lia).
  assert (Hmin : (if bool_decide (firstBegin t < fb) then firstBegin t else fb) = Z.min fb (firstBegin t)) by (clear; case_bool_decide; lia).
  assert (Hmax : (if bool_decide (lastEnd t > le) then lastEnd t else le) = Z.max le (lastEnd t)) by (clear; case_bool_decide; lia).
  rewrite Hmin, Hmax. specialize (IH (tasks + counted t) (Z.min fb (firstBegin t)) (Z.max le (lastEnd t)) Hpos ltac:(lia) ltac:(lia)).
  destruct (sum_threads _ _ _ _) as [ts' r]. cbn in *. rewrite IH. do 2 f_equal. lia.
Qed.

(** A thread with the history that led to its data. *)
Definition after (cfg : ApplicationConfiguration) (es : list thread_event) (t : ThreadData) : Prop :=
  monotonic 1 es /\ tasks_of es < 2 ^ 53 /\ run_thread cfg es new_ThreadData = Ok t.

Lemma after_facts cfg es t : good_cfg cfg -> after cfg es t ->
  counted t = tasks_of es /\ 0 <= firstBegin t <= lastEnd t /\ lastEnd t < 2 ^ 53.
Proof.
  intros Hcfg (Hm & Hn & E). pose proof (run_between cfg es 1 t Hcfg ltac:(done) Hm Hn E) as (k & _ & Hc & _).
  assert (Hnew : timed 1 new_ThreadData) by (by unfold timed).
  destruct (run_timed cfg es 1 new_ThreadData t Hnew ltac:(done) Hm E) as (Hf & Hl & _).
  pose proof (last_time_bound 1 es Hm ltac:(done)). lia.
Qed.

Lemma totals_bounds cfg hs ts : good_cfg cfg -> Forall2 (after cfg) hs ts -> ts <> [] ->
  counted <$> ts = tasks_of <$> hs /\ Forall (fun t => 0 <= counted t) ts /\ 0 <= last_end ts - first_begin ts < 2 ^ 53.
Proof.
  intros Hcfg Hall Hne. assert (Hgen : forall fb le, 0 <= fb -> 0 <= le < 2 ^ 53 ->
    let f := foldl (fun m t => Z.min m (firstBegin t)) fb ts in let l := foldl (fun m t => Z.max m (lastEnd t)) le ts in
    0 <= f <= fb /\ le <= l < 2 ^ 53 /\ (ts <> [] -> f <= l)).
  { clear Hne. induction Hall as [|es t hs ts Ht Hall IH]; intros fb le Hfb Hle; cbn; [split; [lia|split; [lia|done]]|].
    destruct (after_facts cfg es t Hcfg Ht) as (_ & Hf & Hl).
    destruct (IH (Z.min fb (firstBegin t)) (Z.max le (lastEnd t)) ltac:(lia) ltac:(lia)) as (H1 & H2 & _). cbn in *. lia. }
  specialize (Hgen (2 ^ 64 - 1) 0 ltac:(lia) ltac:(lia)). fold (first_begin ts) (last_end ts) in Hgen. cbn in Hgen.
  split; [|split; [|destruct Hgen as (? & ? & Hle); specialize (Hle Hne); lia]].
  - clear Hne Hgen. induction Hall as [|es t hs ts Ht Hall IH]; [done|]. cbn. rewrite IH.
    by rewrite (proj1 (after_facts cfg es t Hcfg Ht)).
  - clear Hne Hgen. induction Hall as [|es t hs ts Ht Hall IH]; constructor; [|done].
    rewrite (proj1 (after_facts cfg es t Hcfg Ht)). apply tasks_of_nonneg.
Qed.

(** The first and the last call of a history with tasks. *)
Fixpoint first_call (es : list thread_event) : Z :=
  match es with
  | [] => 0
  | Task tb _ :: _ => tb
  | _ :: es => first_call es
  end.

Definition last_call (es : list thread_event) : Z := last_time 0 es.

Lemma begin_firstBegin cfg T now t t' : timed T t -> begin_thread cfg now t = Ok t' ->
  firstBegin t' = if bool_decide (firstBegin t = 0) then now else firstBegin t.
Proof.
  intros (_ & _ & H0). rewrite begin_thread_cases. destruct (decide (firstBegin t = 0)) as [Hz|Hz]; decide_bools.
  - destruct (H0 Hz) as (Hcs & HL & Hc). assert (Hcount : currentSample (count t) = 0) by (unfold count; cbn; by rewrite Hc, HL).
    unfold skipped. rewrite Hcount, (bool_decide_false (0 > 1)), ?(bool_decide_false (computeStart t <> 0)) by tauto || lia.
    intros E. injection E as <-. cbn. by rewrite bool_decide_true.
  - assert (Hopen : firstBegin (opened now t) = firstBegin t) by (cbn; by rewrite bool_decide_false).
    destruct (skipped (count t)); intros E; [by injection E as <-|]. destruct (_ && _); [|by injection E as <-].
    destruct (close_sample _ _ _) as [u|] eqn:Eu; [|done]. injection E as <-. apply close_fields in Eu as [E1 _]. cbn -[opened]. by rewrite E1.
Qed.

(** The thread keeps the time of its first call, and that of its last one when
    this one was recorded. *)
Lemma run_times cfg es T t t' : timed T t -> 0 < T -> monotonic T es -> run_thread cfg es t = Ok t' ->
  firstBegin t' = (if bool_decide (firstBegin t = 0) then first_call es else firstBegin t) /\
  ((tasks_of es = 0 -> currentSample t = 0 -> lastEnd t = T) -> currentSample t' = 0 -> lastEnd t' = last_time T es).
Proof.
  revert T t. induction es as [|e es IH]; intros T t Ht HT Hm E; cbn in E.
  { injection E as <-. cbn. split; [case_bool_decide; congruence|auto]. }
  pose proof (tasks_of_nonneg es). destruct e as [tb te| | |i v]; [|exact (IH T (ask_sample t) Ht HT Hm E)|exact (IH T (take_sample t) Ht HT Hm E)|exact (IH T (store_custom i v t) Ht HT Hm E)].
  destruct Hm as (Htb & Hte & Hm). cbn [thread_step] in E. destruct (begin_thread cfg tb t) as [u|] eqn:Eu; [|done]. cbn [mbind result_bind] in E.
  pose proof (begin_timed cfg T tb t u Ht ltac:(lia) ltac:(lia) Eu) as Hu. pose proof (begin_firstBegin cfg T tb t u Ht Eu) as Ef.
  destruct (end_fields 1 te u) as (_ & E2 & _ & _ & E5 & E6).
  apply (IH te) in E; [|by apply (end_timed tb); [|lia]|lia|done]. destruct E as [F1 F2]. cbn [first_call tasks_of last_time]. split.
  - rewrite F1, E5, Ef. destruct Hu as [Hu _]. rewrite Ef in Hu. destruct (decide (firstBegin t = 0)); decide_bools; [|done].
    by rewrite ?(bool_decide_false (tb = 0)) by lia.
  - intros _. apply F2. intros _ Hc. rewrite E2 in Hc. rewrite E6. by decide_bools.
Qed.

Lemma last_time_tasks T T' es : 0 < tasks_of es -> last_time T es = last_time T' es.
Proof. revert T T'. induction es as [|[] es IH]; cbn; [lia|done|auto..]. Qed.

Lemma after_times cfg es t : after cfg es t -> 0 < tasks_of es -> currentSample t = 0 ->
  firstBegin t = first_call es /\ lastEnd t = last_call es.
Proof.
  intros (Hm & _ & E) Hn Hc. assert (Hnew : timed 1 new_ThreadData) by (by unfold timed).
  destruct (run_times cfg es 1 new_ThreadData t Hnew ltac:(done) Hm E) as [F1 F2]. split; [exact F1|].
  unfold last_call. rewrite (last_time_tasks 0 1) by done. apply F2; [lia|done].
Qed.

Definition least (x : Z) (l : list Z) : Prop := x ∈ l /\ Forall (fun y => x <= y) l.
Definition greatest (x : Z) (l : list Z) : Prop := x ∈ l /\ Forall (fun y => y <= x) l.

Lemma foldl_min l m x : least x l -> x <= m -> foldl Z.min m l = x.
Proof.
  assert (Hlo : forall l m, x <= m -> Forall (fun y => x <= y) l -> x <= foldl Z.min m l).
  { clear. induction l as [|y l IH]; cbn; intros m Hm Hl; [done|]. apply Forall_cons in Hl as [Hy Hl]. apply IH; [lia|done]. }
  assert (Hle : forall l m, foldl Z.min m l <= m).
  { clear. induction l as [|y l IH]; cbn; intros m; [lia|]. specialize (IH (Z.min m y)). lia. }
  assert (Hin : forall l m, x ∈ l -> foldl Z.min m l <= x).
  { clear -Hle. induction l as [|y l IH]; cbn; intros m Hx; [by apply not_elem_of_nil in Hx|].
    apply elem_of_cons in Hx as [->|Hx]; [|by apply IH]. specialize (Hle l (Z.min m y)). lia. }
  intros [Hx Hall] Hm. specialize (Hlo l m Hm Hall). specialize (Hin l m Hx). lia.
Qed.

Lemma foldl_max l m x : greatest x l -> m <= x -> foldl Z.max m l = x.
Proof.
  assert (Hhi : forall l m, m <= x -> Forall (fun y => y <= x) l -> foldl Z.max m l <= x).
  { clear. induction l as [|y l IH]; cbn; intros m Hm Hl; [done|]. apply Forall_cons in Hl as [Hy Hl]. apply IH; [lia|done]. }
  assert (Hle : forall l m, m <= foldl Z.max m l).
  { clear. induction l as [|y l IH]; cbn; intros m; [lia|]. specialize (IH (Z.max m y)). lia. }
  assert (Hin : forall l m, x ∈ l -> x <= foldl Z.max m l).
  { clear -Hle. induction l as [|y l IH]; cbn; intros m Hx; [by apply not_elem_of_nil in Hx|].
    apply elem_of_cons in Hx as [->|Hx]; [|by apply IH]. specialize (Hle l (Z.max m y)). lia. }
  intros [Hx Hall] Hm. specialize (Hhi l m Hm Hall). specialize (Hin l m Hx). lia.
Qed.

Lemma execution_bounds cfg hs ts first last :
  good_cfg cfg -> Forall2 (after cfg) hs ts -> Forall (fun es => 0 < tasks_of es) hs -> Forall (fun t => currentSample t = 0) ts ->
  least first (first_call <$> hs) -> greatest last (last_call <$> hs) -> first_begin ts = first /\ last_end ts = last.
Proof.
  intros Hcfg Hall Hran Hrec Hf Hl.
  assert (Hfold : firstBegin <$> ts = first_call <$> hs /\ lastEnd <$> ts = last_call <$> hs).
  { clear Hf Hl. induction Hall as [|es t hs ts Ht Hall IH]; [done|]. apply Forall_cons in Hran as [Hr Hran]. apply Forall_cons in Hrec as [Hc Hrec].
    destruct (after_times cfg es t Ht Hr Hc) as [E1 E2]. destruct (IH Hran Hrec) as [E3 E4]. cbn. by rewrite E1, E2, E3, E4. }
  destruct Hfold as [E1 E2].
  assert (Hb : Forall (fun t => 0 <= firstBegin t < 2 ^ 53 /\ 0 <= lastEnd t) ts).
  { clear -Hcfg Hall. induction Hall as [|es t hs ts Ht Hall IH]; constructor; [|done]. pose proof (after_facts cfg es t Hcfg Ht). lia. }
  rewrite <- E1 in Hf. rewrite <- E2 in Hl.
  assert (Hmin : forall l m, foldl (fun m t => Z.min m (firstBegin t)) m l = foldl Z.min m (firstBegin <$> l)).
  { clear. induction l as [|t l IH]; intros m; [done|]. apply IH. }
  assert (Hmax : forall l m, foldl (fun m t => Z.max m (lastEnd t)) m l = foldl Z.max m (lastEnd <$> l)).
  { clear. induction l as [|t l IH]; intros m; [done|]. apply IH. }
  unfold first_begin, last_end. rewrite Hmin, Hmax. split.
  - apply foldl_min; [done|]. destruct Hf as [Hf _]. apply list_elem_of_fmap in Hf as (t & -> & Ht).
    pose proof (proj1 (Forall_forall _ _) Hb t Ht). cbn in *. lia.
  - apply foldl_max; [done|]. destruct Hl as [Hl _]. apply list_elem_of_fmap in Hl as (t & -> & Ht).
    pose proof (proj1 (Forall_forall _ _) Hb t Ht). cbn in *. lia.
Qed.

(** C5. [terminate] adds up exactly the tasks that all the threads ran, the pending ones
    of the sampling included, whatever the threads did; and when every thread ran
    a task and recorded its last one, the execution time is the number of whole
    milliseconds from the first [begin] to the last [end] of the application, for
    an execution below 2^52 ns (52 days). *)
Theorem terminate_counts_every_task hs a :
  good_cfg (_configuration a) -> Forall2 (after (_configuration a)) hs (_threadData a) -> _threadData a <> [] ->
  _totalTasks a = 0 -> sumZ (tasks_of <$> hs) < 2 ^ 64 ->
  exists a', terminate_sums a = Ok a' /\ _supportStop a' = true /\ getTotalTasks a' = sumZ (tasks_of <$> hs) /\
    (forall first last, Forall (fun es => 0 < tasks_of es) hs -> Forall (fun t => currentSample t = 0) (_threadData a) ->
       least first (first_call <$> hs) -> greatest last (last_call <$> hs) -> last - first < 2 ^ 52 ->
       getExecutionTime a' = (last - first) / 1000000).
Proof.
  intros Hcfg Hall Hne H0 Hsum. destruct (totals_bounds _ _ _ Hcfg Hall Hne) as (Hc & Hpos & Ht). rewrite <- Hc in Hsum.
  unfold terminate_sums. rewrite H0.
  pose proof (sum_threads_spec (_threadData a) 0 (2 ^ 64 - 1) 0 Hpos ltac:(done) Hsum) as Es.
  destruct (sum_threads _ _ _ _) as [ts' r]. cbn [snd] in Es. rewrite Es. fold (first_begin (_threadData a)) (last_end (_threadData a)).
  rewrite wrap_small by (unfold in_range; lia).
  destruct (quotient_to_u64 (last_end (_threadData a) - first_begin (_threadData a)) 1000000 Ht ltac:(lia)) as (v & Ev & _).
  rewrite Ev. cbn [mbind result_bind]. eexists. split; [done|]. split; [done|]. split; [by rewrite Hc|].
  intros first last Hran Hrec Hf Hl Hb. destruct (execution_bounds _ _ _ _ _ Hcfg Hall Hran Hrec Hf Hl) as [E1 E2].
  rewrite E1, E2 in *. rewrite quotient_floor in Ev by lia. by injection Ev as <-.
Qed.

(** A call that succeeded was quiet, so its thread is inside a task. *)
Lemma begin_Ok_inside cfg n T now t t' : cfg_ok cfg -> between n T t -> 0 <= n < 2 ^ 53 -> T <= now < 2 ^ 53 -> 0 < now ->
  begin_thread cfg now t = Ok t' -> inside n now t'.
Proof.
  intros Hcfg Hb Hn HT Hnow E.
  assert (Hquiet : quiet cfg now t).
  { intros est Hcs Hcl Hest. destruct Hb as (k & Ht & Hcn & _). unfold counted in Hcn. destruct Ht.
    assert (Hsk : skipped (count t) = false).
    { unfold skipped. apply bool_decide_eq_false. apply orb_prop in Hcl as [Hcl|Hcl]; apply bool_decide_eq_true in Hcl; [lia|].
      rewrite count_position by done. change (samplingLength (count t)) with (samplingLength t) in Hcl. case_bool_decide; lia. }
    rewrite begin_thread_cases, Hsk, Hcl, bool_decide_true in E by done. cbn [andb] in E.
    rewrite (close_sample_eq cfg now k), Hest in E by (done || lia). cbn [mbind result_bind] in E.
    destruct (next_length _ _ _ _) as [l|]; [|done]. cbn [mbind result_bind] in E.
    unfold consolidate_sample in E. change (consolidate (rated now (opened now t))) with (consolidate t) in E.
    destruct (consolidate t); [|by right; right]. destruct (gap_exceeds _ _ _); [|by right; left].
    destruct (dtrue (samplingLengthMs cfg)); [by left|done]. }
  destruct (begin_between cfg n T now t) as [[Ee _]|(t1 & E1 & Ht1 & _)]; [done..|congruence|]. rewrite E in E1. by injection E1 as ->.
Qed.

(** ** Where the tasks of a thread are

    [begin] moves the tasks of a sample to the sample it hands over, or leaves
    them where they are; it never counts one. *)
Lemma close_tasks cfg now t t' : close_sample cfg now t = Ok t' ->
  totalTasks t' = totalTasks t /\
  ((consolidate t' = consolidate t /\ numTasks (sample t') = numTasks (sample t) /\ consolidatedSample t' = consolidatedSample t) \/
   (consolidate t = true /\ consolidate t' = false /\ numTasks (sample t') = dzero /\ numTasks (consolidatedSample t') = numTasks (sample t))).
Proof.
  unfold close_sample. intros E. inv_ok. rename H1 into E1. unfold change_length.
  assert (Hx : forall u : ThreadData, totalTasks u = totalTasks t ->
    ((consolidate u = consolidate t /\ numTasks (sample u) = numTasks (sample t) /\ consolidatedSample u = consolidatedSample t) \/
     (consolidate t = true /\ consolidate u = false /\ numTasks (sample u) = dzero /\ numTasks (consolidatedSample u) = numTasks (sample t))) ->
    forall (b1 b2 : bool) l, let v := set_samplingLength l u in let w := (if b1 then set_currentSample 1 v else v) in
      let z := (if b2 then set_currentSample 0 w else w) in totalTasks z = totalTasks t /\
    ((consolidate z = consolidate t /\ numTasks (sample z) = numTasks (sample t) /\ consolidatedSample z = consolidatedSample t) \/
     (consolidate t = true /\ consolidate z = false /\ numTasks (sample z) = dzero /\ numTasks (consolidatedSample z) = numTasks (sample t)))).
  { intros u Hu1 Hu2 [] [] l; cbn; done. }
  apply Hx; unfold consolidate_sample in E1; cbn in E1; destruct (consolidate t) eqn:Ec;
    try (destruct (gap_exceeds _ _ _), (dtrue _); cbn in E1); inv_ok; cbn; try done; first [by left|by right].
Qed.

Lemma begin_tasks cfg now t t' : begin_thread cfg now t = Ok t' ->
  totalTasks t' = totalTasks t /\
  ((consolidate t' = consolidate t /\ numTasks (sample t') = numTasks (sample t) /\ consolidatedSample t' = consolidatedSample t) \/
   (consolidate t = true /\ consolidate t' = false /\ numTasks (sample t') = dzero /\ numTasks (consolidatedSample t') = numTasks (sample t))).
Proof.
  rewrite begin_thread_cases. destruct (skipped (count t)); intros E; [injection E as <-; split; [done|by left]|].
  destruct (_ && _); [|injection E as <-; split; [done|by left]].
  destruct (close_sample _ _ _) as [u|] eqn:Eu; [|done]. injection E as <-. by apply close_tasks in Eu.
Qed.

(** ** The other operations *)

(** C10. When both indices are in range, [storeCustomValue] sets the custom field of
    that index in the current sample of that thread and changes nothing else: not
    the other custom fields, not the other fields of the sample, of the thread or
    of the application, nor any other thread.  It throws otherwise: for the custom
    index, for a thread beyond the number of threads, and the exception of the
    vector for the number itself. *)
Theorem storeCustomValue_cases index value i a :
  let n := length (_threadData a) in
  ((i < n)%nat -> (index < RIFF_MAX_CUSTOM_FIELDS)%nat -> Forall (fun t => wf_sample (sample t)) (_threadData a) ->
     exists a' t t', storeCustomValue index value i a = Ok a' /\
       set_threadData (_threadData a) a' = a /\
       _threadData a !! i = Some t /\ _threadData a' !! i = Some t' /\ (forall j, j <> i -> _threadData a' !! j = _threadData a !! j) /\
       set_sample (sample t) t' = t /\ set_custom (customFields (sample t)) (sample t') = sample t /\
       customFields (sample t') !! index = Some value /\
       (forall j, j <> index -> customFields (sample t') !! j = customFields (sample t) !! j)) /\
  ((n < i)%nat -> storeCustomValue index value i a = Err (Thrown WrongThreadId)) /\
  ((i <= n)%nat -> (RIFF_MAX_CUSTOM_FIELDS <= index)%nat -> storeCustomValue index value i a = Err (Thrown CustomIndexOutOfBound)) /\
  (i = n -> (index < RIFF_MAX_CUSTOM_FIELDS)%nat -> storeCustomValue index value i a = Err (Thrown OutOfRange)).
Proof.
  cbn zeta. unfold storeCustomValue, at_. split; [|split; [|split]]; intros Hi; [intros Hj Hwf| |intros Hj|intros Hj]; decide_bools; try done.
  - destruct (lookup_lt_is_Some_2 _ _ Hi) as [t Et]. rewrite Et. cbn [mbind result_bind].
    pose proof (proj1 (Forall_lookup _ _) Hwf i t Et) as Hl. cbn in Hl. unfold wf_sample in Hl.
    eexists _, t, _. split; [done|]. split; [by destruct a|]. split; [done|]. split; [by apply list_lookup_insert_eq|].
    split; [intros j Hji; by apply list_lookup_insert_ne|]. split; [by destruct t|]. split; [by destruct t as [[]]|].
    split; [apply list_lookup_insert_eq; by rewrite Hl|]. intros j Hji. by apply list_lookup_insert_ne.
  - rewrite lookup_ge_None_2 by lia. done.
Qed.

(** The clock, computed in doubles, is exact to the nanosecond below 2^53 ns. *)
Theorem clock_is_exact sec nsec :
  0 <= sec -> 0 <= nsec -> sec * 1000000000 + nsec < 2 ^ 53 -> getCurrentTimeNs sec nsec = Ok (sec * 1000000000 + nsec).
Proof.
  intros Hs Hn Hb. unfold getCurrentTimeNs. rewrite dmul_exact, dadd_exact by lia. apply to_u64_exact. lia.
Qed.

(** Beyond 2^53 ns the clock is rounded to a multiple of two nanoseconds. *)
Example clock_rounds : getCurrentTimeNs 9007199 254740993 = Ok 9007199254740992.
Proof. by vm_compute. Qed.
