(* ===== verification/Monitor.v ===== *)
(** * The monitor and its protocol ([riff.cpp])

    The support thread of the application, which answers the requests of the
    monitor with a sample of all the threads; the monitor ([waitStart],
    [getSample]); the termination handshake; and the system they make, as the
    steps of their threads in any order over the two directions of the channel
    (a PAIR socket on each side: messages arrive in order). *)

From S2P Require Import Prelude Double Sample Sampling Counting.
Local Open Scope Z_scope.

(** ** The support thread *)
Section Support.
  (** The user's [Aggregator], [None] for a null pointer. *)
  Context (aggregator : option (nat -> list double -> double)).

(** The local variables of a request: the response sample, the counters and
    [customVec]. *)
Record collection := {
  c_sample : ApplicationSample;
  updatedSamples : nat;
  inconsistentSamples : nat;
  customVec : list (list double);
}.

Definition new_collection : collection :=
  {| c_sample := zero_sample; updatedSamples := 0; inconsistentSamples := 0; customVec := replicate RIFF_MAX_CUSTOM_FIELDS [] |}.

(** The sample of a thread that stored one is added to the response. *)
Definition add_sample (t : ThreadData) (c : collection) : collection :=
  let s := consolidatedSample t in
  let r := c_sample c in
  let r := if inconsistent s then r
           else set_rates (dadd (loadPercentage r) (loadPercentage s)) (throughput r)
                  (set_latency (dadd (latency r) (ddiv (latency s) (numTasks s))) r) in
  let r := set_rates (loadPercentage r) (dadd (throughput r) (throughput s))
             (set_tasks (latency r) (dadd (numTasks r) (numTasks s)) r) in
  {| c_sample := r; updatedSamples := Datatypes.S (updatedSamples c);
     inconsistentSamples := if inconsistent s then Datatypes.S (inconsistentSamples c) else inconsistentSamples c;
     customVec := zip_with (fun v x => v ++ [x]) (customVec c) (customFields s) |}.

(** [keepWaitingSample]. *)
Definition keepWaitingSample (a : Application) (t : ThreadData) : bool :=
  if consolidate t then negb (_supportStop a) else false.

(** The body of the loop over the threads, once the wait is over: the data of
    the thread and the collection after it. *)
Definition collect (t : ThreadData) (c : collection) : ThreadData * collection :=
  if negb (consolidate t) then (take_sample t, add_sample t c) else (t, c).

(** The throughput of the threads that stored no sample is taken from the others. *)
Definition adjust_throughput (a : Application) (c : collection) : result ApplicationSample :=
  let r := c_sample c in
  if adjustThroughput (_configuration a) && bool_decide (updatedSamples c <> length (_threadData a)) then
    if negb (_supportStop a) then Err (Thrown FatalNotStopped)
    else Ok (set_rates (loadPercentage r)
               (dadd (throughput r) (dmul (ddiv (throughput r) (of_Z (Z.of_nat (updatedSamples c))))
                                          (of_Z (u64 (Z.of_nat (length (_threadData a)) - Z.of_nat (updatedSamples c)))))) r)
  else Ok r.

(** Load and latency become averages, or are marked unreliable. *)
Definition average (a : Application) (c : collection) (r : ApplicationSample) : ApplicationSample :=
  if bool_decide (inconsistentSamples c = updatedSamples c) || _inconsistentSample a then set_inconsistent true r
  else
    let n := of_Z (Z.of_nat (updatedSamples c) - Z.of_nat (inconsistentSamples c)) in
    set_rates (ddiv (loadPercentage r) n) (throughput r) (set_latency (ddiv (latency r) n) r).

(** The custom values of the threads. *)
Definition aggregate_custom (c : collection) (r : ApplicationSample) : ApplicationSample :=
  set_custom (imap (fun i v => match aggregator with
                               | Some f => f i v
                               | None => match v with x :: _ => x | [] => dzero end
                               end) (customVec c)) r.

(** From the end of the loop to the sending of the response. *)
Definition response (a : Application) (c : collection) : result Message :=
  r ← (if bool_decide (updatedSamples c <> 0%nat) then r ← adjust_throughput a c; Ok (average a c r)
       else if negb (_supportStop a) then Err (Thrown FatalNotStopped) else Ok (c_sample c));
  Ok {| type := MESSAGE_TYPE_SAMPLE_RES; payload := PSample (aggregate_custom c r);
        phaseId := Some (_phaseId a); totalThreads := Some (_totalThreads a) |}.

(** Where the support thread is: at the head of its loop, in [recv], asking
    thread [i] for a sample, waiting for thread [i], or finished. *)
Inductive support_pc : Type :=
  | AtLoop
  | InRecv
  | Asking (i : nat)
  | Collecting (i : nat) (c : collection)
  | Finished.

(** ** The monitor *)
Record Monitor := {
  m_executionTime : Z;
  m_totalTasks : Z;
  _lastPhaseId : option Z;
  _lastTotalThreads : option Z;
}.

Definition new_Monitor : Monitor :=
  {| m_executionTime := 0; m_totalTasks := 0; _lastPhaseId := Some 0; _lastTotalThreads := Some 0 |}.

(** [Monitor::waitStart] on the received message. *)
Definition waitStart (m : Message) : result Z :=
  assert_ (bool_decide (type m = MESSAGE_TYPE_START));;
  match payload m with PPid pid => Ok pid | _ => Err BadAccess end.

(** The request of [Monitor::getSample]. *)
Definition sample_request : Message :=
  {| type := MESSAGE_TYPE_SAMPLE_REQ; payload := NoPayload; phaseId := None; totalThreads := None |}.

(** What [Monitor::getSample] does with the answer: the sample, or [None] with
    the acknowledgement to send when the application terminated. *)
Definition getSample (m : Message) (mon : Monitor) : result (Monitor * option ApplicationSample * list Message) :=
  match type m with
  | MESSAGE_TYPE_SAMPLE_RES =>
      match payload m with
      | PSample s => Ok ({| m_executionTime := m_executionTime mon; m_totalTasks := m_totalTasks mon;
                            _lastPhaseId := phaseId m; _lastTotalThreads := totalThreads m |}, Some s, [])
      | _ => Err BadAccess
      end
  | MESSAGE_TYPE_STOP =>
      match payload m with
      | PSummary time tasks =>
          Ok ({| m_executionTime := time; m_totalTasks := tasks; _lastPhaseId := _lastPhaseId mon;
                 _lastTotalThreads := _lastTotalThreads mon |}, None,
              [{| type := MESSAGE_TYPE_STOPACK; payload := payload m; phaseId := phaseId m; totalThreads := totalThreads m |}])
      | _ => Err BadAccess
      end
  | _ => Err (Thrown UnexpectedMessageType)
  end.

(** The STOP message of [Application::terminate]. *)
Definition stop_message (a : Application) : Message :=
  {| type := MESSAGE_TYPE_STOP; payload := PSummary (_executionTime a) (_totalTasks a); phaseId := None; totalThreads := None |}.

(** ** The system

    Where the thread that terminates the application is: not yet in
    [terminate], waiting for the support thread in [pthread_join], waiting for
    the acknowledgement, or out of [terminate]. *)
Inductive main_pc : Set := Running | Joining | Acking | Ended.

(** Where the monitor is: in [waitStart], between two calls of [getSample],
    waiting for the answer to its request, or told that the application
    terminated. *)
Inductive monitor_pc : Set := Starting | Idle | Waiting | Done.

#[export] Instance main_pc_eq_dec : EqDecision main_pc.
Proof. solve_decision. Defined.
#[export] Instance monitor_pc_eq_dec : EqDecision monitor_pc.
Proof. solve_decision. Defined.

(** [sent app] holds the messages on their way to the monitor, [requests] those
    on their way to the application; [in_task] says which threads are between
    their [begin] and their [end]; [received] lists the samples that [getSample]
    returned, newest first; [clock] is the last time read. *)
Record system := {
  app : Application;
  in_task : list bool;
  support : support_pc;
  main : main_pc;
  requests : list Message;
  monitor : Monitor;
  mon_at : monitor_pc;
  received : list ApplicationSample;
  clock : Z;
}.

(** The application after its constructor and [setConfiguration], and a monitor. *)
Definition initial (cfg : ApplicationConfiguration) (numThreads : nat) : system :=
  {| app := setConfiguration cfg (new_Application numThreads); in_task := replicate numThreads false; support := AtLoop; main := Running;
     requests := []; monitor := new_Monitor; mon_at := Starting; received := []; clock := 1 |}.

(** Changes of the state: by a thread of the application, by the support
    thread, by [terminate], by the monitor. *)
Definition task_step (a : Application) (ins : list bool) (now : Z) (s : system) : system :=
  {| app := a; in_task := ins; support := support s; main := main s; requests := requests s; monitor := monitor s;
     mon_at := mon_at s; received := received s; clock := now |}.
Definition support_step (a : Application) (pc : support_pc) (rs : list Message) (s : system) : system :=
  {| app := a; in_task := in_task s; support := pc; main := main s; requests := rs; monitor := monitor s;
     mon_at := mon_at s; received := received s; clock := clock s |}.
Definition main_step (a : Application) (pc : main_pc) (rs : list Message) (s : system) : system :=
  {| app := a; in_task := in_task s; support := support s; main := pc; requests := rs; monitor := monitor s;
     mon_at := mon_at s; received := received s; clock := clock s |}.
Definition monitor_step (a : Application) (rs : list Message) (m : Monitor) (pc : monitor_pc) (got : list ApplicationSample) (s : system) : system :=
  {| app := a; in_task := in_task s; support := support s; main := main s; requests := rs; monitor := m;
     mon_at := pc; received := got; clock := clock s |}.

Definition set_sent (ms : list Message) (a : Application) : Application :=
  {| _configuration := _configuration a; _started := _started a; _supportStop := _supportStop a; _threadData := _threadData a;
     _executionTime := _executionTime a; _totalTasks := _totalTasks a; _phaseId := _phaseId a;
     _totalThreads := _totalThreads a; _inconsistentSample := _inconsistentSample a; sent := ms |}.

(** One step of [applicationSupportThread]; [None] while it is blocked. *)
Definition support_exec (s : system) : option (result system) :=
  let a := app s in
  match support s with
  | AtLoop => Some (Ok (support_step a (if _supportStop a then Finished else InRecv) (requests s) s))
  | InRecv =>
      match requests s with
      | m :: rs => Some (assert_ (bool_decide (type m = MESSAGE_TYPE_SAMPLE_REQ));; Ok (support_step a (Asking 0) rs s))
      | [] => None
      end
  | Asking i =>
      match _threadData a !! i with
      | Some t => Some (Ok (support_step (set_threadData (<[i := ask_sample t]> (_threadData a)) a) (Asking (Datatypes.S i)) (requests s) s))
      | None => Some (Ok (support_step a (Collecting 0 new_collection) (requests s) s))
      end
  | Collecting i c =>
      match _threadData a !! i with
      | Some t =>
          if keepWaitingSample a t then None
          else let '(t, c) := collect t c in
               Some (Ok (support_step (set_threadData (<[i := t]> (_threadData a)) a) (Collecting (Datatypes.S i) c) (requests s) s))
      | None =>
          Some (m ← response a c;
                Ok (support_step (if negb (_supportStop a) then send m a else a) AtLoop (requests s) s))
      end
  | Finished => None
  end.

(** One step of the thread in [terminate]. *)
Definition main_exec (s : system) : option (result system) :=
  match main s with
  | Running => if forallb negb (in_task s) then Some (a ← terminate_sums (app s); Ok (main_step a Joining (requests s) s)) else None
  | Joining => match support s with
               | Finished => Some (Ok (main_step (send (stop_message (app s)) (app s)) Acking (requests s) s))
               | _ => None
               end
  | Acking => match requests s with
              | _ :: rs => Some (Ok (main_step (app s) Ended rs s))
              | [] => None
              end
  | Ended => None
  end.

(** One step of the monitor, which calls [waitStart] and then [getSample] until
    it returns false. *)
Definition monitor_exec (s : system) : option (result system) :=
  let a := app s in
  match mon_at s with
  | Starting =>
      match sent a with
      | m :: ms => Some (_ ← waitStart m; Ok (monitor_step (set_sent ms a) (requests s) (monitor s) Idle (received s) s))
      | [] => None
      end
  | Idle => Some (Ok (monitor_step a (requests s ++ [sample_request]) (monitor s) Waiting (received s) s))
  | Waiting =>
      match sent a with
      | m :: ms =>
          Some (r ← getSample m (monitor s);
                let '(mon, o, acks) := r in
                Ok (monitor_step (set_sent ms a) (requests s ++ acks) mon (match o with Some _ => Idle | None => Done end)
                      (match o with Some x => x :: received s | None => received s end) s))
      | [] => None
      end
  | Done => None
  end.

(** Who moves. *)
Inductive actor : Type :=
  | BeginTask (i : nat) (now : Z)
  | EndTask (i : nat) (now : Z)
  | Custom (i : nat) (index : nat) (value : double)
  | SetPhase (phase threads : Z)
  | MarkInconsistent
  | SupportThread
  | Terminate
  | TheMonitor.

(** The threads of the application run until [terminate], each calling [begin]
    and [end] in turn; the clock does not go back and stays below 2^53. *)
Definition exec (pid : Z) (x : actor) (s : system) : option (result system) :=
  match x with
  | BeginTask i now =>
      if bool_decide (main s = Running /\ in_task s !! i = Some false /\ clock s <= now < 2 ^ 53) then
        Some (a ← begin_ pid i now (app s); Ok (task_step a (<[i := true]> (in_task s)) now s))
      else None
  | EndTask i now =>
      if bool_decide (main s = Running /\ in_task s !! i = Some true /\ clock s <= now < 2 ^ 53) then
        Some (a ← end_ i 1 now (app s); Ok (task_step a (<[i := false]> (in_task s)) now s))
      else None
  | Custom i index value =>
      if bool_decide (main s = Running) then
        Some (a ← storeCustomValue index value i (app s); Ok (task_step a (in_task s) (clock s) s))
      else None
  | SetPhase phase threads => Some (Ok (task_step (setPhaseId phase threads (app s)) (in_task s) (clock s) s))
  | MarkInconsistent => Some (Ok (task_step (markInconsistentSamples (app s)) (in_task s) (clock s) s))
  | SupportThread => support_exec s
  | Terminate => main_exec s
  | TheMonitor => monitor_exec s
  end.

Definition step (pid : Z) (s s' : system) : Prop := exists x, exec pid x s = Some (Ok s').

(** A schedule of the system. *)
Fixpoint schedule (pid : Z) (xs : list actor) (s : system) : option (result system) :=
  match xs with
  | [] => Some (Ok s)
  | x :: xs =>
      match exec pid x s with
      | Some (Ok s) => schedule pid xs s
      | r => r
      end
  end.
End Support.
