(* ===== verification/MonitorSafe.v ===== *)
(** * The protocol between the application and the monitor is safe

    Invariants of the system of the file [Monitor], for every schedule of its
    threads: what is on the channel at each stage, and who may fail.  The file
    [Accounting] builds on them. *)

From S2P Require Import Prelude Double Sample Sampling Counting Monitor.
Local Open Scope Z_scope.

Section Safe.
  Context (aggregator : option (nat -> list double -> double)) (pid : Z).
  Implicit Types (s : system).

Abbreviation exec := (Monitor.exec aggregator pid).
Abbreviation step := (Monitor.step aggregator pid).

(** ** What is on the channel *)
Definition start_message (a : Application) (m : Message) : Prop := type m = MESSAGE_TYPE_START /\ payload m = PPid pid.

Definition is_response (m : Message) : Prop := type m = MESSAGE_TYPE_SAMPLE_RES /\ exists x, payload m = PSample x.

(** The support thread works on no request. *)
Definition quiet_support (pc : support_pc) : Prop := match pc with AtLoop | InRecv | Finished => True | _ => False end.

(** STOP was sent. *)
Definition stopping (s : system) : bool := match main s with Acking | Ended => true | _ => false end.
Definition stops (s : system) : list Message := if stopping s then [stop_message (app s)] else [].

(** The stages of a request: on its way, being served, answered, or answered by
    nobody because the application terminates. *)
Definition request_stage (s : system) : Prop :=
  (requests s = [sample_request] /\ quiet_support (support s) /\ sent (app s) = stops s) \/
  (requests s = [] /\ ~ quiet_support (support s) /\ sent (app s) = []) \/
  (requests s = [] /\ quiet_support (support s) /\ exists m, is_response m /\ sent (app s) = m :: stops s) \/
  (requests s = [] /\ quiet_support (support s) /\ _supportStop (app s) = true /\ sent (app s) = stops s).

Definition channel_ok (s : system) : Prop :=
  match mon_at s with
  | Starting => requests s = [] /\ quiet_support (support s) /\
      (if _started (app s) then exists m, start_message (app s) m /\ sent (app s) = m :: stops s else sent (app s) = stops s)
  | Idle => _started (app s) = true /\ requests s = [] /\ quiet_support (support s) /\ sent (app s) = stops s
  | Waiting => _started (app s) = true /\ request_stage s
  | Done => _started (app s) = true /\ quiet_support (support s) /\ stopping s = true /\ sent (app s) = []
  end.

Record protocol_inv (s : system) : Prop := {
  pi_threads : _threadData (app s) <> [];
  pi_stop : _supportStop (app s) = negb (bool_decide (main s = Running));
  pi_stopping : stopping s = true -> support s = Finished;
  pi_finished : support s = Finished -> main s <> Running;
  pi_channel : channel_ok s;
  pi_collect : forall i c, support s = Collecting i c -> (i <= length (_threadData (app s)))%nat /\ (main s = Running -> updatedSamples c = i);
  pi_done : mon_at s = Done -> m_totalTasks (monitor s) = _totalTasks (app s) /\ m_executionTime (monitor s) = _executionTime (app s);
}.

Lemma initial_protocol cfg n : (0 < n)%nat -> protocol_inv (initial cfg n).
Proof. intros Hn. constructor; cbn; try done. by destruct n; [lia|]. Qed.

(** ** The application's own steps *)

(** Nothing changed but the data of the threads, and perhaps the start. *)
Definition same_frame (a a' : Application) : Prop :=
  _configuration a' = _configuration a /\ _supportStop a' = _supportStop a /\ _executionTime a' = _executionTime a /\
  _totalTasks a' = _totalTasks a /\ length (_threadData a') = length (_threadData a) /\
  ((sent a' = sent a /\ _started a' = _started a) \/
   (_started a = false /\ _started a' = true /\ exists m, start_message a m /\ sent a' = sent a ++ [m])).

Lemma begin_frame i now a a' : begin_ pid i now a = Ok a' -> same_frame a a'.
Proof.
  unfold begin_. intros E. inv_ok. unfold same_frame, ensure_started.
  destruct (skipped _), (_started a) eqn:Es; cbn; rewrite ?length_insert; repeat (split; [done|]); [by left..|].
  right. repeat (split; [done|]). eexists. by split; [|done].
Qed.

Lemma end_frame i w now a a' : end_ i w now a = Ok a' -> same_frame a a'.
Proof. unfold end_. intros E. inv_ok. unfold same_frame. cbn. rewrite length_insert. repeat (split; [done|]). by left. Qed.

Lemma store_frame i v j a a' : storeCustomValue i v j a = Ok a' -> same_frame a a'.
Proof.
  unfold storeCustomValue. intros E. do 2 (case_bool_decide; try done). inv_ok. unfold same_frame. cbn. rewrite length_insert.
  repeat (split; [done|]). by left.
Qed.

Lemma frame_protocol s a ins now : protocol_inv s -> main s = Running \/ (sent a = sent (app s) /\ _started a = _started (app s)) ->
  same_frame (app s) a -> protocol_inv (task_step a ins now s).
Proof.
  intros [Hn Hs Hst Hf Hc Hco Hd] Hrun (F1 & F2 & F3 & F4 & F5 & F6).
  assert (Hstop : stops (task_step a ins now s) = stops s).
  { unfold stops, stop_message. cbn. unfold stopping. by rewrite F3, F4. }
  constructor; cbn; [by intros Hn'; apply Hn, nil_length_inv; rewrite <- F5, Hn'|by rewrite F2|done|done| |by rewrite F5|by rewrite F3, F4].
  unfold channel_ok, request_stage in *. rewrite Hstop. cbn.
  destruct F6 as [[-> ->]|(F6 & F7 & m & Hm & F8)]; [by rewrite ?F2|].
  destruct Hrun as [Hrun|[_ Hrun]]; [|congruence]. assert (Hns : stops s = []) by (unfold stops, stopping; by rewrite Hrun).
  destruct (mon_at s); rewrite ?F6 in Hc; [|by destruct Hc..]. destruct Hc as (? & ? & Hc). rewrite F7. do 2 (split; [done|]).
  exists m. rewrite F8, Hc, Hns. done.
Qed.

Lemma task_protocol x s s' : protocol_inv s ->
  match x with BeginTask _ _ | EndTask _ _ | Custom _ _ _ | SetPhase _ _ | MarkInconsistent => True | _ => False end ->
  exec x s = Some (Ok s') -> protocol_inv s'.
Proof.
  intros Hs Hx E. destruct x as [i now|i now|i j v| | | | |]; [| | | | |done..]; cbn in E.
  - case_bool_decide as Hb; [|done]. injection E as E. inv_ok. apply begin_frame in H. apply frame_protocol; [done|left; tauto|done].
  - case_bool_decide as Hb; [|done]. injection E as E. inv_ok. apply end_frame in H. apply frame_protocol; [done|left; tauto|done].
  - case_bool_decide as Hb; [|done]. injection E as E. inv_ok. apply store_frame in H. apply frame_protocol; [done|left; tauto|done].
  - injection E as <-. apply frame_protocol; [done|by right|]. unfold same_frame. cbn. repeat (split; [done|]). by left.
  - injection E as <-. apply frame_protocol; [done|by right|]. unfold same_frame. cbn. repeat (split; [done|]). by left.
Qed.

(** ** The support thread *)
Lemma lookup_none_length {A} (l : list A) i : l !! i = None -> (i <= length l)%nat -> i = length l.
Proof. intros H%lookup_ge_None Hi. lia. Qed.

(** The collection of a request is complete, or the application terminates: a
    response can be made. *)
Lemma response_ok a c :
  _threadData a <> [] -> (_supportStop a = false -> updatedSamples c = length (_threadData a)) ->
  exists m, response aggregator a c = Ok m /\ is_response m.
Proof.
  intros Hn Hc. unfold response, adjust_throughput.
  assert (Hl : length (_threadData a) <> 0%nat) by (by destruct (_threadData a)).
  destruct (_supportStop a) eqn:Es; cbn [negb].
  - case_bool_decide; [destruct (_ && _)|]; cbn; eexists; split; try done; by (split; [|eexists]).
  - rewrite Hc by done. rewrite (bool_decide_true (_ <> _)), (bool_decide_false (_ <> _)), andb_false_r by naive_solver.
    cbn. eexists; split; try done; by (split; [|eexists]).
Qed.

Lemma response_is a c m : response aggregator a c = Ok m -> is_response m.
Proof. unfold response. intros E. inv_ok. split; [done|]. by eexists. Qed.

Lemma stops_support a pc rs s : stopping s = false -> stops (support_step a pc rs s) = [].
Proof. unfold stops. change (stopping (support_step a pc rs s)) with (stopping s). by intros ->. Qed.

(** Changing where the support thread is. *)
Lemma support_inv s a pc rs : protocol_inv s ->
  _supportStop a = _supportStop (app s) -> _executionTime a = _executionTime (app s) -> _totalTasks a = _totalTasks (app s) ->
  length (_threadData a) = length (_threadData (app s)) -> stopping s = false ->
  (pc = Finished -> main s <> Running) ->
  (forall i c, pc = Collecting i c -> (i <= length (_threadData (app s)))%nat /\ (main s = Running -> updatedSamples c = i)) ->
  channel_ok (support_step a pc rs s) -> protocol_inv (support_step a pc rs s).
Proof.
  intros [Hn Hs Hst Hf Hc Hco Hd] F1 F2 F3 F4 Hns Hpc Hcol Hch. constructor; cbn; try done.
  - by intros Hn'; apply Hn, nil_length_inv; rewrite <- F4, Hn'.
  - by rewrite F1.
  - unfold stopping in *. cbn. congruence.
  - by rewrite F4.
  - by rewrite F2, F3.
Qed.

(** While the support thread serves a request, the monitor waits for it and
    nothing else is on the channel. *)
Lemma busy_channel s : channel_ok s -> ~ quiet_support (support s) ->
  mon_at s = Waiting /\ _started (app s) = true /\ requests s = [] /\ sent (app s) = [].
Proof. unfold channel_ok, request_stage. intros Hc Hq. destruct (mon_at s); naive_solver. Qed.

Lemma busy_inv s a pc : protocol_inv s -> stopping s = false -> ~ quiet_support (support s) -> ~ quiet_support pc ->
  _supportStop a = _supportStop (app s) -> _executionTime a = _executionTime (app s) -> _totalTasks a = _totalTasks (app s) ->
  length (_threadData a) = length (_threadData (app s)) -> _started a = _started (app s) -> sent a = sent (app s) ->
  (forall i c, pc = Collecting i c -> (i <= length (_threadData (app s)))%nat /\ (main s = Running -> updatedSamples c = i)) ->
  protocol_inv (support_step a pc (requests s) s).
Proof.
  intros Hs Hns Hq Hq' F1 F2 F3 F4 F5 F6 Hcol. apply support_inv; try done; [by intros ->|].
  destruct (busy_channel s (pi_channel s Hs) Hq) as (Hm & Hst & Hr & Hsent).
  unfold channel_ok, request_stage. cbn. rewrite Hm, F5, F6, Hr, Hsent. split; [done|]. right. by left.
Qed.

Lemma support_protocol s s' : protocol_inv s -> support_exec aggregator s = Some (Ok s') -> protocol_inv s'.
Proof.
  intros Hs E. pose proof Hs as [Hn Hstop Hst Hf Hc Hco Hd]. unfold support_exec in E.
  assert (Hns : support s <> Finished -> stopping s = false) by (destruct (stopping s); naive_solver).
  destruct (support s) as [| |i|i c|] eqn:Ep; [| | | |done]; specialize (Hns ltac:(done)).
  - injection E as <-. apply support_inv; [done..| | |].
    + rewrite Hstop. by case_bool_decide.
    + by destruct (_supportStop (app s)).
    + unfold channel_ok, request_stage in *. rewrite Ep in Hc. cbn. by destruct (_supportStop (app s)).
  - destruct (requests s) as [|m rs] eqn:Er; [done|]. injection E as E. inv_ok. apply support_inv; [done..|].
    unfold channel_ok, request_stage in *. rewrite Ep, Er in Hc. cbn. assert (Hs0 : stops s = []) by (unfold stops; by rewrite Hns).
    destruct (mon_at s); [naive_solver..| |naive_solver]. rewrite Hs0 in Hc.
    destruct Hc as (Hstart & [(Hm & _ & Hsent)|[?|[?|?]]]); [|naive_solver..]. injection Hm as _ ->. split; [done|]. right. left. naive_solver.
  - destruct (_threadData (app s) !! i) eqn:Et; injection E as <-; apply busy_inv; rewrite ?Ep; cbn; try done; try tauto; [by rewrite length_insert|].
    intros j c' E. injection E as <- <-. split; [lia|done].
  - destruct (Hco i c eq_refl) as [Hi Hu]. destruct (_threadData (app s) !! i) as [t|] eqn:Et.
    + destruct (keepWaitingSample (app s) t) eqn:Ek; [done|]. destruct (collect t c) as [t' c'] eqn:Ecol. injection E as <-.
      apply busy_inv; rewrite ?Ep; cbn; try done; try tauto; [by rewrite length_insert|]. intros j c'' E. injection E as <- <-.
      apply lookup_lt_Some in Et. split; [lia|]. intros Hrun. unfold keepWaitingSample in Ek. unfold collect in Ecol.
      destruct (consolidate t); cbn in Ecol; [|injection Ecol as <- <-; cbn; by rewrite Hu].
      rewrite Hstop, Hrun in Ek. done.
    + injection E as E. inv_ok. destruct (busy_channel s Hc) as (Hm & Hst' & Hr & Hsent); [rewrite Ep; tauto|].
      assert (Hs0 : stops s = []) by (unfold stops; by rewrite Hns). apply response_is in H.
      apply support_inv; try done; try (by destruct (negb (_supportStop (app s)))).
      unfold channel_ok, request_stage. rewrite stops_support by done. cbn. rewrite Hm, Hr.
      destruct (_supportStop (app s)) eqn:Esup; cbn; rewrite ?Hst', Hsent; (split; [done|]); right; right; [by right|].
      left. split; [done|]. split; [done|]. by exists x.
Qed.

(** ** [terminate] *)
Lemma sum_threads_length ts tasks fb le : length (fst (sum_threads ts tasks fb le)) = length ts.
Proof.
  revert tasks fb le. induction ts as [|t ts IH]; intros tasks fb le; [done|]. cbn.
  match goal with |- context [sum_threads ts ?x ?y ?z] => specialize (IH x y z); destruct (sum_threads ts x y z) end.
  cbn in *. by rewrite IH.
Qed.

Lemma terminate_frame a a' : terminate_sums a = Ok a' ->
  _configuration a' = _configuration a /\ _supportStop a' = true /\ length (_threadData a') = length (_threadData a) /\
  sent a' = sent a /\ _started a' = _started a.
Proof.
  unfold terminate_sums. pose proof (sum_threads_length (_threadData a) (_totalTasks a) (2 ^ 64 - 1) 0) as Hl.
  destruct (sum_threads _ _ _ _) as [ts [[n fb] le]]. intros E. inv_ok. done.
Qed.

Lemma main_protocol s s' : protocol_inv s -> main_exec s = Some (Ok s') -> protocol_inv s'.
Proof.
  intros [Hn Hstop Hst Hf Hc Hco Hd] E. unfold main_exec in E. destruct (main s) eqn:Em; [| | |done].
  - destruct (forallb negb (in_task s)); [|done]. injection E as E. inv_ok. apply terminate_frame in H as (F1 & F2 & F3 & F4 & F5).
    assert (Hns : stopping s = false) by (unfold stopping; by rewrite Em).
    assert (Hs0 : stops s = []) by (unfold stops; by rewrite Hns).
    constructor; cbn; try done; [by intros Hn'; apply Hn, nil_length_inv; rewrite <- F3, Hn'| | |].
    + unfold channel_ok, request_stage in *. change (stops (main_step x Joining (requests s) s)) with (@nil Message). cbn.
      rewrite F2, F4, F5. rewrite Hs0 in Hc. destruct (mon_at s); try done; [naive_solver|]. rewrite Hns in Hc. naive_solver.
    + intros i c Hi. rewrite F3. destruct (Hco i c Hi). done.
    + intros Hm. unfold channel_ok in Hc. rewrite Hm, Hns in Hc. naive_solver.
  - destruct (support s) eqn:Ep; try done. injection E as <-.
    assert (Hns : stopping s = false) by (unfold stopping; by rewrite Em).
    assert (Hs0 : stops s = []) by (unfold stops; by rewrite Hns).
    constructor; cbn; try done; [|by rewrite Ep].
    unfold channel_ok, request_stage in *. rewrite Hs0, Ep in Hc.
    change (stops (main_step _ Acking (requests s) s)) with [stop_message (app s)]. change (stopping (main_step _ Acking _ s)) with true. cbn. rewrite Ep.
    destruct (mon_at s).
    + destruct (_started (app s)); [|destruct Hc as (? & ? & ->); done]. destruct Hc as (? & ? & m & ? & ->).
      do 2 (split; [done|]). by exists m.
    + destruct Hc as (? & ? & ? & ->). done.
    + destruct Hc as (? & [(? & ? & ->)|[(? & Hq & _)|[(? & ? & m & ? & ->)|(? & ? & ? & ->)]]]); (split; [done|]).
      * by left.
      * by destruct Hq.
      * right; right; left. do 2 (split; [done|]). by exists m.
      * by right; right; right.
    + rewrite Hns in Hc. naive_solver.
  - destruct (requests s) as [|m rs] eqn:Er; [done|]. injection E as <-. pose proof (Hst ltac:(unfold stopping; by rewrite Em)) as Ep.
    assert (Hstops : stops (main_step (app s) Ended rs s) = stops s) by (unfold stops, stopping; cbn; by rewrite Em).
    assert (Hsg : stopping (main_step (app s) Ended rs s) = true) by done.
    constructor; cbn; try done; [|by rewrite Ep].
    unfold channel_ok, request_stage in *. rewrite Er, Ep in Hc. rewrite Hstops, Hsg. cbn. rewrite Ep. destruct (mon_at s).
    + naive_solver.
    + naive_solver.
    + destruct Hc as (? & [(Hm & ? & ?)|[?|[?|?]]]); [|naive_solver..]. injection Hm as _ ->. split; [done|]. right; right; right.
      by rewrite Hstop.
    + naive_solver.
Qed.

(** ** The monitor *)
Lemma monitor_protocol s s' : protocol_inv s -> monitor_exec s = Some (Ok s') -> protocol_inv s'.
Proof.
  intros [Hn Hstop Hst Hf Hc Hco Hd] E. unfold monitor_exec in E.
  assert (Hgen : forall ms rs mon pc got, channel_ok (monitor_step (set_sent ms (app s)) rs mon pc got s) ->
    (pc = Done -> m_totalTasks mon = _totalTasks (app s) /\ m_executionTime mon = _executionTime (app s)) ->
    protocol_inv (monitor_step (set_sent ms (app s)) rs mon pc got s)) by (intros; by constructor).
  assert (Hstops : forall ms rs mon pc got, stops (monitor_step (set_sent ms (app s)) rs mon pc got s) = stops s) by done.
  unfold channel_ok, request_stage in *. destruct (mon_at s) eqn:Em; [| | |done].
  - destruct (sent (app s)) as [|m ms] eqn:Es; [done|]. injection E as E. inv_ok. apply Hgen; [|done]. rewrite Hstops. cbn.
    destruct Hc as (Hr & Hq & Hc). destruct (_started (app s)).
    + destruct Hc as (m' & _ & Hc). injection Hc as -> ->. done.
    + unfold stops in Hc. destruct (stopping s); [|done]. injection Hc as -> ->. done.
  - injection E as <-. destruct Hc as (Hst0 & Hr & Hq & Hc).
    assert (Hsame : set_sent (sent (app s)) (app s) = app s) by (by destruct (app s)). rewrite <- Hsame at 1.
    apply Hgen; [|done]. rewrite Hstops. cbn. rewrite Hr. split; [done|]. by left.
  - destruct (sent (app s)) as [|m ms] eqn:Es; [done|]. injection E as E.
    destruct (getSample m (monitor s)) as [[[mon o] acks]|] eqn:Eg; [|done]. cbn in E. injection E as <-.
    destruct Hc as (Hst0 & Hc).
    assert (Hstopcase : requests s = [] \/ requests s = [sample_request] -> quiet_support (support s) -> m :: ms = stops s ->
      protocol_inv (monitor_step (set_sent ms (app s)) (requests s ++ acks) mon (match o with Some _ => Idle | None => Done end)
        (match o with Some x => x :: received s | None => received s end) s)).
    { intros Hr Hq Hm. unfold stops in Hm. destruct (stopping s) eqn:Esg; [|done]. injection Hm as -> ->.
      cbn in Eg. injection Eg as <- <- <-. by apply Hgen. }
    destruct Hc as [(Hr & Hq & Hc)|[(Hr & Hq & Hc)|[(Hr & Hq & m' & (Ht & x & Hp) & Hc)|(Hr & Hq & _ & Hc)]]]; [by apply Hstopcase; [right| |]|done| |by apply Hstopcase; [left| |]].
    injection Hc as -> ->. unfold getSample in Eg. rewrite Ht, Hp in Eg. injection Eg as <- <- <-. apply Hgen; [|done]. rewrite Hstops. cbn. by rewrite Hr.
Qed.

Lemma step_protocol s s' : step s s' -> protocol_inv s -> protocol_inv s'.
Proof.
  intros [x E] Hs. pose proof (task_protocol x s s' Hs) as Ht.
  destruct x; [by apply Ht..|by apply (support_protocol s)|by apply (main_protocol s)|by apply (monitor_protocol s)].
Qed.

Definition reachable (cfg : ApplicationConfiguration) (n : nat) (s : system) : Prop := rtc step (initial cfg n) s.

Lemma reachable_protocol cfg n s : (0 < n)%nat -> reachable cfg n s -> protocol_inv s.
Proof.
  intros Hn Hr. unfold reachable in Hr. pose proof (initial_protocol cfg n Hn) as Hi. induction Hr as [|s1 s2 s3 H12 _ IH]; [done|].
  apply IH. by apply (step_protocol s1).
Qed.

(** ** The protocol never goes wrong *)

(** The only step of the protocol that can fail is [waitStart], on an
    application that terminated before any call of [begin] announced its start. *)
Definition never_started (s : system) : Prop := mon_at s = Starting /\ _started (app s) = false /\ stopping s = true.

Lemma support_never_fails s f : protocol_inv s -> support_exec aggregator s <> Some (Err f).
Proof.
  intros Hs E. pose proof Hs as [Hn Hstop Hst Hf Hc Hco Hd]. unfold support_exec in E. destruct (support s) as [| |i|i c|] eqn:Ep; try done.
  - destruct (requests s) as [|m rs] eqn:Er; [done|]. injection E as E.
    assert (Hns : stopping s = false) by (destruct (stopping s); naive_solver).
    unfold channel_ok, request_stage in Hc. rewrite Er, Hns in Hc.
    assert (m = sample_request) as -> by (destruct (mon_at s); naive_solver). done.
  - by destruct (_threadData (app s) !! i).
  - destruct (Hco i c eq_refl) as [Hi Hu]. destruct (_threadData (app s) !! i) as [t|] eqn:Et.
    + destruct (keepWaitingSample _ _); [done|]. by destruct (collect t c).
    + pose proof (lookup_none_length _ _ Et Hi) as ->. destruct (response_ok (app s) c Hn) as (m & Em & _); [|by rewrite Em in E].
      intros Hsup. apply Hu. rewrite Hstop in Hsup. by apply negb_false_iff, bool_decide_eq_true in Hsup.
Qed.

Lemma monitor_fails s f : protocol_inv s -> monitor_exec s = Some (Err f) -> never_started s.
Proof.
  intros [Hn Hstop Hst Hf Hc Hco Hd] E. unfold monitor_exec in E. unfold channel_ok, request_stage in Hc. unfold never_started.
  destruct (mon_at s) eqn:Em; [|done| |done].
  - destruct (sent (app s)) as [|m ms] eqn:Es; [done|]. destruct Hc as (_ & _ & Hc). destruct (_started (app s)).
    + destruct Hc as (m' & (Ht & Hp) & Hc). injection Hc as -> ->. unfold waitStart in E. rewrite Ht, Hp in E. done.
    + unfold stops in Hc. by destruct (stopping s).
  - exfalso. destruct (sent (app s)) as [|m ms] eqn:Es; [done|]. destruct Hc as (_ & Hc).
    assert (Hok : m :: ms = stops s -> False).
    { intros Hm. unfold stops in Hm. destruct (stopping s); [|done]. injection Hm as -> ->. done. }
    destruct Hc as [(_ & _ & Hc)|[(_ & _ & Hc)|[(_ & _ & m' & (Ht & x & Hp) & Hc)|(_ & _ & _ & Hc)]]]; [auto|done| |auto].
    injection Hc as -> ->. unfold getSample in E. by rewrite Ht, Hp in E.
Qed.

(** A schedule that runs is an execution. *)
Lemma schedule_nsteps xs s s' : schedule aggregator pid xs s = Some (Ok s') -> nsteps step (length xs) s s'.
Proof.
  revert s. induction xs as [|x xs IH]; intros s E; cbn [schedule] in E; [injection E as <-; constructor|].
  destruct (exec x s) as [[s1|f]|] eqn:E1; [|done..]. apply nsteps_l with s1; [by exists x|by apply IH].
Qed.

Lemma schedule_reachable cfg n xs s : schedule aggregator pid xs (initial cfg n) = Some (Ok s) -> reachable cfg n s.
Proof. intros E. apply schedule_nsteps in E. by apply rtc_nsteps_2 in E. Qed.

(** ** The end reaches the monitor *)

(** The monitor learnt the totals and acknowledged. *)
Definition told (s s' : system) : Prop :=
  mon_at s' = Done /\ m_totalTasks (monitor s') = _totalTasks (app s) /\ m_executionTime (monitor s') = _executionTime (app s) /\
  exists ack, type ack = MESSAGE_TYPE_STOPACK /\ ack ∈ requests s'.

Lemma waiting_told s : mon_at s = Waiting -> sent (app s) = [stop_message (app s)] ->
  exists s', schedule aggregator pid [TheMonitor] s = Some (Ok s') /\ told s s'.
Proof.
  intros Hm Hs. cbn. unfold monitor_exec. rewrite Hm, Hs. cbn. eexists. split; [done|]. repeat (split; [done|]).
  eexists. split; [|apply elem_of_app; right; by apply list_elem_of_singleton]. done.
Qed.

Lemma idle_told s : mon_at s = Idle -> sent (app s) = [stop_message (app s)] ->
  exists s', schedule aggregator pid [TheMonitor; TheMonitor] s = Some (Ok s') /\ told s s'.
Proof.
  intros Hm Hs. set (s1 := monitor_step (app s) (requests s ++ [sample_request]) (monitor s) Waiting (received s) s).
  destruct (waiting_told s1) as (s' & E & Ht); [done|done|]. exists s'. split; [|done].
  cbn [schedule] in E |- *. assert (E1 : exec TheMonitor s = Some (Ok s1)) by (cbn; unfold monitor_exec; by rewrite Hm).
  by rewrite E1.
Qed.

(** A step of the monitor that empties the channel down to STOP. *)
Lemma then_told s s1 : exec TheMonitor s = Some (Ok s1) -> mon_at s1 = Idle -> sent (app s1) = [stop_message (app s1)] ->
  stop_message (app s1) = stop_message (app s) ->
  exists s', schedule aggregator pid [TheMonitor; TheMonitor; TheMonitor] s = Some (Ok s') /\ told s s'.
Proof.
  intros E Hm Hs Hst. destruct (idle_told s1 Hm Hs) as (s' & E' & Ht). exists s'. split.
  - cbn [schedule] in E' |- *. by rewrite E.
  - destruct Ht as (T1 & T2 & T3 & T4). injection Hst as H1 H2. split; [done|]. split; [by rewrite T2|]. split; [by rewrite T3|done].
Qed.

Lemma stopping_told s : protocol_inv s -> stopping s = true -> _started (app s) = true -> mon_at s <> Done ->
  exists j s', (j <= 3)%nat /\ schedule aggregator pid (replicate j TheMonitor) s = Some (Ok s') /\ told s s'.
Proof.
  intros Hp Hst Hstart Hnd. pose proof (pi_channel s Hp) as Hc. pose proof (pi_stopping s Hp Hst) as Hfin.
  unfold channel_ok, request_stage, stops in Hc. rewrite Hst, Hfin, Hstart in Hc. destruct (mon_at s) eqn:Em; [| | |done].
  - destruct Hc as (Hr & _ & m & (Hm & Hpm) & Hs).
    destruct (then_told s (monitor_step (set_sent [stop_message (app s)] (app s)) (requests s) (monitor s) Idle (received s) s)) as (s' & E & Ht); [|done..|].
    + cbn. unfold monitor_exec, waitStart. rewrite Em, Hs, Hm, Hpm. done.
    + by exists 3%nat, s'.
  - destruct (idle_told s Em) as (s' & E & Ht); [apply Hc|]. exists 2%nat, s'. split; [lia|done].
  - destruct Hc as (_ & Hc). assert (Hw : sent (app s) = [stop_message (app s)] ->
      exists j s', (j <= 3)%nat /\ schedule aggregator pid (replicate j TheMonitor) s = Some (Ok s') /\ told s s').
    { intros Hs. destruct (waiting_told s Em Hs) as (s' & E & Ht). exists 1%nat, s'. split; [lia|done]. }
    destruct Hc as [(_ & _ & Hs)|[(_ & Hq & _)|[(Hr & _ & m & (Hm & x & Hpm) & Hs)|(_ & _ & _ & Hs)]]]; [by apply Hw|by destruct Hq| |by apply Hw].
    destruct (then_told s (monitor_step (set_sent [stop_message (app s)] (app s)) (requests s ++ []) 
       {| m_executionTime := m_executionTime (monitor s); m_totalTasks := m_totalTasks (monitor s);
          _lastPhaseId := phaseId m; _lastTotalThreads := totalThreads m |} Idle (x :: received s) s)) as (s' & E & Ht); [|done..|].
    + cbn. unfold monitor_exec, getSample. rewrite Em, Hs, Hm, Hpm. done.
    + by exists 3%nat, s'.
Qed.
End Safe.
