(* ===== verification/Accounting.v ===== *)
(** * Every task is reported at most once

    In every schedule of the system of the file [Monitor], the tasks of the
    samples that the monitor received, of those on their way and of the one
    being collected are tasks that the threads executed, each counted once;
    the total that [terminate] announces covers them all. *)

From S2P Require Import Prelude Double Sample Sampling Counting Monitor MonitorSafe.
Local Open Scope Z_scope.

(** ** Doubles that are integers *)
Definition dint (x : double) : Z := default 0 (dtrunc x).

Definition exact (x : double) : Prop := x = of_Z (dint x) /\ 0 <= dint x < 2 ^ 53.

Lemma dint_of_Z z : 0 <= z < 2 ^ 53 -> dint (of_Z z) = z.
Proof. intros Hz. unfold dint. by rewrite dtrunc_of_Z. Qed.

Lemma exact_of_Z z : 0 <= z < 2 ^ 53 -> exact (of_Z z).
Proof. intros Hz. unfold exact. by rewrite dint_of_Z. Qed.

Lemma exact_add x y : exact x -> exact y -> dint x + dint y < 2 ^ 53 -> exact (dadd x y) /\ dint (dadd x y) = dint x + dint y.
Proof.
  intros [Hx Hx0] [Hy Hy0] Hb. assert (E : dadd x y = of_Z (dint x + dint y)).
  { rewrite <- dadd_exact by lia. by rewrite <- Hx, <- Hy. }
  rewrite E, dint_of_Z by lia. split; [apply exact_of_Z; lia|done].
Qed.

(** ** Sums over lists *)
Lemma sumZ_app l k : sumZ (l ++ k) = sumZ l + sumZ k.
Proof. induction l as [|x l IH]; [done|]. change (x + sumZ (l ++ k) = x + sumZ l + sumZ k). rewrite IH. lia. Qed.

Lemma sumZ_insert {A} (f : A -> Z) l i x y : l !! i = Some x -> sumZ (f <$> <[i := y]> l) = sumZ (f <$> l) - f x + f y.
Proof.
  revert i. induction l as [|z l IH]; intros [|i] E; [done..| |].
  - injection E as ->. change (f y + sumZ (f <$> l) = f x + sumZ (f <$> l) - f x + f y). lia.
  - change (f z + sumZ (f <$> <[i := y]> l) = f z + sumZ (f <$> l) - f x + f y). rewrite (IH i E). lia.
Qed.

Lemma sumZ_le {A} (f g : A -> Z) l : Forall (fun x => f x <= g x) l -> sumZ (f <$> l) <= sumZ (g <$> l).
Proof. unfold sumZ. induction 1; cbn in *; lia. Qed.

Lemma sumZ_nonneg {A} (f : A -> Z) l : Forall (fun x => 0 <= f x) l -> 0 <= sumZ (f <$> l).
Proof. unfold sumZ. induction 1; cbn in *; lia. Qed.

Lemma sumZ_elem {A} (f : A -> Z) l i x : Forall (fun x => 0 <= f x) l -> l !! i = Some x -> f x <= sumZ (f <$> l).
Proof.
  intros Hf. revert i. unfold sumZ. induction Hf as [|y l Hy Hl IH]; intros [|i] E; cbn in *; [done..| |].
  - injection E as ->. pose proof (sumZ_nonneg f l Hl) as Hp. unfold sumZ in Hp. lia.
  - specialize (IH i E). lia.
Qed.

(** ** One thread *)

(** The tasks that left the thread in a sample taken by the support thread. *)
Definition delivered_by (t : ThreadData) : Z := totalTasks t - dint (numTasks (sample t)) - dint (numTasks (consolidatedSample t)).

Record sound (t : ThreadData) : Prop := {
  so_sample : exact (numTasks (sample t));
  so_cons : exact (numTasks (consolidatedSample t));
  so_delivered : 0 <= delivered_by t;
  so_asked : consolidate t = true -> dint (numTasks (consolidatedSample t)) = 0;
}.

(** No sample waits to be taken, and none will before the next request. *)
Definition nothing_to_take (running : bool) (t : ThreadData) : Prop :=
  dint (numTasks (consolidatedSample t)) = 0 /\ (running = true -> consolidate t = false).

Lemma sound_total t : sound t -> 0 <= delivered_by t <= totalTasks t.
Proof. intros [[_ ?] [_ ?] ? _]. unfold delivered_by in *. lia. Qed.

Lemma begin_sound cfg now t t' : sound t -> begin_thread cfg now t = Ok t' -> sound t' /\ delivered_by t' = delivered_by t.
Proof.
  intros [Hs Hc Hd Ha] E. destruct (begin_tasks _ _ _ _ E) as (Ht & [(E1 & E2 & E3)|(E1 & E2 & E3 & E4)]).
  - assert (Hd' : delivered_by t' = delivered_by t) by (unfold delivered_by; by rewrite Ht, E2, E3).
    split; [|done]. constructor; rewrite ?E1, ?E2, ?E3, ?Hd'; done.
  - specialize (Ha E1). assert (Hz : dint dzero = 0) by done.
    assert (Hd' : delivered_by t' = delivered_by t) by (unfold delivered_by; rewrite Ht, E3, E4, Ha, Hz; lia).
    split; [|done]. constructor; rewrite ?E2, ?E3, ?E4, ?Hd'; try done.
Qed.

Lemma begin_nothing b cfg now t t' : nothing_to_take b t -> begin_thread cfg now t = Ok t' -> b = true -> nothing_to_take b t'.
Proof.
  intros [Hc Hf] E Hb. destruct (begin_tasks _ _ _ _ E) as (_ & [(E1 & _ & E3)|(E1 & _)]); [|rewrite Hf in E1; done].
  split; [by rewrite E3|]. rewrite E1. done.
Qed.

Lemma end_sound n T now t : inside n T t -> 0 <= n -> n + 1 < 2 ^ 53 -> T <= now -> sound t ->
  sound (end_thread 1 now t) /\ delivered_by (end_thread 1 now t) = delivered_by t.
Proof.
  intros Hin Hn Hn1 HT [Hs Hc Hd Ha].
  destruct Hin as (k & Hk & _ & Htot). unfold end_thread. destruct (decide (currentSample t = 0)) as [Hc0|Hc0].
  2: { rewrite bool_decide_true by done. split; [by constructor|done]. }
  rewrite (bool_decide_false (currentSample t <> 0)) by lia. rewrite bool_decide_true in Htot by done.
  destruct Hk as [HL Hp Hkn Hkt _ _ _]. cbn [set_ended set_sample set_tasks totalTasks samplingLength sample numTasks].
  rewrite Z.mul_1_r, (wrap_small 64 (samplingLength t)), wrap_small by (unfold in_range; lia).
  assert (Hk0 : dint (numTasks (sample t)) = k) by (rewrite Hkn; apply dint_of_Z; lia).
  destruct (exact_add (numTasks (sample t)) (of_Z (samplingLength t)) Hs) as [He Hsum];
    [apply exact_of_Z; lia|rewrite Hk0, dint_of_Z by lia; lia|]. rewrite dint_of_Z in Hsum by lia.
  assert (Hd' : forall u, totalTasks u = totalTasks t + samplingLength t -> numTasks (sample u) = dadd (numTasks (sample t)) (of_Z (samplingLength t)) ->
            consolidatedSample u = consolidatedSample t -> consolidate u = consolidate t -> sound u /\ delivered_by u = delivered_by t).
  { intros u U1 U2 U3 U4. assert (Hdu : delivered_by u = delivered_by t) by (unfold delivered_by; rewrite U1, U2, U3, Hsum; lia).
    split; [|done]. constructor; rewrite ?U2, ?U3, ?U4, ?Hdu; done. }
  by apply Hd'.
Qed.

Lemma ask_sound b t : nothing_to_take b t -> sound t -> sound (ask_sample t) /\ delivered_by (ask_sample t) = delivered_by t.
Proof. intros [Hz _] []. split; [by constructor|done]. Qed.

Lemma take_sound t : sound t -> sound (take_sample t) /\
  delivered_by (take_sample t) = delivered_by t + dint (numTasks (consolidatedSample t)).
Proof.
  intros [Hs [Hc1 Hc2] Hd Ha]. assert (Hz : dint dzero = 0) by done.
  assert (Hd' : delivered_by (take_sample t) = delivered_by t + dint (numTasks (consolidatedSample t))).
  { change (delivered_by (take_sample t)) with (totalTasks t - dint (numTasks (sample t)) - dint dzero). rewrite Hz. unfold delivered_by. lia. }
  split; [|done]. constructor; cbn -[dint]; try done. rewrite Hd'. lia.
Qed.

Lemma store_sound j v t : sound t -> sound (store_custom j v t) /\ delivered_by (store_custom j v t) = delivered_by t.
Proof. intros []. split; [by constructor|done]. Qed.

(** ** The system *)
Section System.
  Context (aggregator : option (nat -> list double -> double)) (pid : Z) (cfg : ApplicationConfiguration) (Hcfg : cfg_ok cfg).
  Implicit Types (s : system).

(** The tasks reported: in the samples received, on their way, and being collected. *)
Definition sample_tasks (x : ApplicationSample) : Z := dint (numTasks x).
Definition message_tasks (m : Message) : Z := match payload m with PSample x => sample_tasks x | _ => 0 end.
Definition collecting_tasks (pc : support_pc) : Z := match pc with Collecting _ c => sample_tasks (c_sample c) | _ => 0 end.
Definition reported (s : system) : Z :=
  sumZ (sample_tasks <$> received s) + sumZ (message_tasks <$> sent (app s)) + collecting_tasks (support s).

(** The threads that have no sample to take, by the place of the support thread. *)
Definition clean (running : bool) (pc : support_pc) (ts : list ThreadData) : Prop :=
  forall j t, ts !! j = Some t ->
    match pc with
    | AtLoop | InRecv => True
    | Asking i => (i <= j)%nat
    | Collecting i _ => (j < i)%nat
    | Finished => False
    end -> nothing_to_take running t.

(** A running thread: whether it is in a task, and the tasks it executed. *)
Definition tracks (T : Z) (t : ThreadData) (g : bool * Z) : Prop :=
  0 <= g.2 /\ if g.1 then inside g.2 T t else between g.2 T t.

Definition running (s : system) : bool := bool_decide (main s = Running).

(** After at most [k] steps. *)
Record count_inv (k : Z) (s : system) : Prop := {
  ci_cfg : _configuration (app s) = cfg;
  ci_clock : 1 <= clock s < 2 ^ 53;
  ci_sound : Forall sound (_threadData (app s));
  ci_clean : clean (running s) (support s) (_threadData (app s));
  ci_run : main s = Running -> exists gs, in_task s = gs.*1 /\ Forall2 (tracks (clock s)) (_threadData (app s)) gs /\ sumZ gs.*2 <= k;
  ci_start : main s = Running -> _totalTasks (app s) = 0;
  ci_total : main s <> Running -> _totalTasks (app s) = sumZ (totalTasks <$> _threadData (app s)) /\ _totalTasks (app s) <= k;
  ci_reported : reported s <= sumZ (delivered_by <$> _threadData (app s));
  ci_collect : forall i c, support s = Collecting i c -> exact (numTasks (c_sample c));
  ci_received : Forall (fun x => exact (numTasks x)) (received s);
  ci_sent : Forall (fun m => 0 <= message_tasks m /\ forall x, payload m = PSample x -> exact (numTasks x)) (sent (app s));
}.

Lemma tracks_later T T' t g : T <= T' -> tracks T t g -> tracks T' t g.
Proof.
  intros HT [Hn Ht]. split; [done|]. destruct (g.1); [|by apply (between_later _ T)].
  destruct Ht as (k & Ht & ?). exists k. split; [by apply (tracked_later T)|done].
Qed.

Lemma tracks_total T t g : tracks T t g -> totalTasks t <= g.2.
Proof.
  intros [Hn Ht]. destruct (g.1).
  - destruct Ht as (k & [] & _ & Htot). destruct (decide (currentSample t = 0)) as [E|E]; [rewrite bool_decide_true in Htot by done; lia|].
    rewrite bool_decide_false in Htot by done. lia.
  - destruct Ht as (k & [] & Hc & _). unfold counted in Hc. lia.
Qed.

(** What the threads executed is less than the steps, and what they delivered is
    less than what they executed. *)
Lemma total_bound k s : count_inv k s -> sumZ (totalTasks <$> _threadData (app s)) <= k.
Proof.
  intros [_ _ Hs _ Hrun _ Htot _ _ _ _]. destruct (decide (main s = Running)) as [Hm|Hm]; [|destruct (Htot Hm); lia].
  destruct (Hrun Hm) as (gs & _ & Hgs & Hk). assert (sumZ (totalTasks <$> _threadData (app s)) <= sumZ gs.*2); [|lia].
  clear -Hgs. unfold sumZ. induction Hgs as [|t g ts gs Ht Hts IH]; cbn in *; [done|]. apply tracks_total in Ht. lia.
Qed.

Lemma delivered_total ts : Forall sound ts -> sumZ (delivered_by <$> ts) <= sumZ (totalTasks <$> ts).
Proof. intros Hs. apply sumZ_le. eapply Forall_impl; [exact Hs|]. intros t Ht. cbn. by destruct (sound_total t Ht). Qed.

Lemma initial_count n : count_inv 0 (initial cfg n).
Proof.
  assert (Hz : sound new_ThreadData) by (by constructor).
  constructor; cbn; try done.
  - by apply Forall_replicate.
  - intros j t E _. apply lookup_replicate in E as [-> _]. done.
  - intros _. exists (replicate n (false, 0)). rewrite !fmap_replicate. split; [done|]. split; [|by induction n].
    clear -Hz. induction n; cbn; constructor; [|done]. split; [done|]. by apply new_between.
  - assert (Hd : delivered_by new_ThreadData = 0) by done. rewrite fmap_replicate, Hd. unfold reported. cbn. clear. induction n; cbn in *; lia.
Qed.

#[local] Arguments sumZ : simpl never.

(** ** The steps of the application's threads *)
Lemma begin_app i now a a' : begin_ pid i now a = Ok a' -> exists t t',
  _threadData a !! i = Some t /\ begin_thread (_configuration a) now t = Ok t' /\ _threadData a' = <[i := t']> (_threadData a) /\
  _configuration a' = _configuration a /\ _totalTasks a' = _totalTasks a /\
  (sent a' = sent a \/ exists m, start_message pid a m /\ sent a' = sent a ++ [m]).
Proof.
  unfold begin_, at_. intros E. destruct (_threadData a !! i) as [t|] eqn:Et; [|done]. cbn [mbind result_bind] in E.
  set (a1 := if skipped (count t) then a else ensure_started pid a) in E.
  assert (Ha1 : _configuration a1 = _configuration a /\ _threadData a1 = _threadData a /\ _totalTasks a1 = _totalTasks a /\
                (sent a1 = sent a \/ exists m, start_message pid a m /\ sent a1 = sent a ++ [m])).
  { unfold a1, ensure_started. destruct (skipped _), (_started a); repeat (split; [done|]); [by left..|].
    right. eexists. by split; [|done]. }
  destruct Ha1 as (E1 & E2 & E3 & E4). rewrite E1, E2 in E. inv_ok. exists t, x. done.
Qed.

(** One thread's data change, and what it delivered by [d]. *)
Lemma delivered_insert ts i t t' d : ts !! i = Some t -> delivered_by t' = delivered_by t + d ->
  sumZ (delivered_by <$> <[i := t']> ts) = sumZ (delivered_by <$> ts) + d.
Proof. intros Ht Hd. rewrite (sumZ_insert delivered_by ts i t t' Ht). lia. Qed.

Lemma clean_insert b pc ts i t t' : clean b pc ts -> ts !! i = Some t -> (nothing_to_take b t -> nothing_to_take b t') -> clean b pc (<[i := t']> ts).
Proof.
  intros Hc Ht Himp j u Eu Hj. destruct (decide (j = i)) as [->|Hne].
  - rewrite list_lookup_insert_eq in Eu by (by eapply lookup_lt_Some). injection Eu as <-. apply Himp. by apply (Hc i).
  - rewrite list_lookup_insert_ne in Eu by done. by apply (Hc j).
Qed.

Lemma reported_same a ins now s : sent a = sent (app s) \/ (exists m, start_message pid (app s) m /\ sent a = sent (app s) ++ [m]) ->
  reported (task_step a ins now s) = reported s /\
  (Forall (fun m => 0 <= message_tasks m /\ forall x, payload m = PSample x -> exact (numTasks x)) (sent (app s)) ->
   Forall (fun m => 0 <= message_tasks m /\ forall x, payload m = PSample x -> exact (numTasks x)) (sent a)).
Proof.
  unfold reported. cbn [task_step app received support]. intros [->|(m & [_ Hm] & ->)]; [done|].
  assert (Hz : message_tasks m = 0) by (unfold message_tasks; by rewrite Hm). split.
  - rewrite fmap_app, sumZ_app. change (sumZ (message_tasks <$> [m])) with (message_tasks m + 0). lia.
  - intros H. apply Forall_app. split; [done|]. apply Forall_singleton. rewrite Hz, Hm. done.
Qed.

(** A thread of the running application changes its data. *)
Lemma task_count k s a ins now i t t' g :
  count_inv k s -> main s = Running -> clock s <= now < 2 ^ 53 ->
  _threadData (app s) !! i = Some t -> _threadData a = <[i := t']> (_threadData (app s)) ->
  _configuration a = _configuration (app s) -> _totalTasks a = _totalTasks (app s) ->
  (sent a = sent (app s) \/ exists m, start_message pid (app s) m /\ sent a = sent (app s) ++ [m]) ->
  sound t' -> delivered_by t' = delivered_by t -> (nothing_to_take true t -> nothing_to_take true t') ->
  ins = <[i := g.1]> (in_task s) -> tracks now t' g -> (forall b n, in_task s !! i = Some b -> tracks (clock s) t (b, n) -> g.2 <= n + 1) ->
  count_inv (k + 1) (task_step a ins now s).
Proof.
  intros [H1 H2 H3 H4 H5 H6 H7 H8 H9 H10 H11] Hrun Hnow Ht Ha Hc Htot Hsent Hs Hd Hn Hins Hg Hgn.
  destruct (reported_same a ins now s Hsent) as [Hr Hsok]. constructor; cbn; try done; [congruence|lia|rewrite Ha; by apply Forall_insert| | |intros _; rewrite Htot; auto| |auto].
  - rewrite Ha. apply (clean_insert _ _ _ i t); [done|done|]. unfold running in *. cbn. by rewrite bool_decide_true.
  - intros _. destruct (H5 Hrun) as (gs & Eg & Hgs & Hk).
    destruct (Forall2_lookup_l _ _ _ _ _ Hgs Ht) as ((b, n) & Ei & Hti). exists (<[i := g]> gs).
    rewrite !list_fmap_insert, Hins, Eg, Ha. split; [done|]. split.
    + apply Forall2_insert; [|done]. eapply Forall2_impl; [exact Hgs|]. intros u h Hu. apply (tracks_later (clock s)); [lia|done].
    + rewrite <- list_fmap_insert, (sumZ_insert snd gs i (b, n)) by done. cbn. specialize (Hgn b n).
      rewrite Eg, list_lookup_fmap, Ei in Hgn. specialize (Hgn eq_refl Hti). lia.
  - rewrite Hr, Ha, (delivered_insert _ _ t t' 0) by (done || lia). lia.
Qed.

Lemma tracked_at k s i b t : count_inv k s -> main s = Running -> in_task s !! i = Some b -> _threadData (app s) !! i = Some t ->
  exists n, tracks (clock s) t (b, n) /\ 0 <= n <= k.
Proof.
  intros H Hrun Hb Ht. destruct (ci_run k s H Hrun) as (gs & Eg & Hgs & Hk).
  destruct (Forall2_lookup_l _ _ _ _ _ Hgs Ht) as ((b', n) & Ei & Hti).
  assert (b' = b) as -> by (rewrite Eg, list_lookup_fmap, Ei in Hb; by injection Hb). exists n. split; [done|].
  split; [apply Hti|]. assert (Hpos : Forall (fun g : bool * Z => 0 <= g.2) gs).
  { clear -Hgs. induction Hgs as [|? ? ? ? []]; by constructor. }
  pose proof (sumZ_elem snd gs i (b, n) Hpos Ei). cbn in *. lia.
Qed.

Lemma tracks_fun_between T t n n' : tracks T t (false, n) -> tracks T t (false, n') -> n = n'.
Proof. intros [_ (? & _ & H1 & _)] [_ (? & _ & H2 & _)]. cbn in *. lia. Qed.

Lemma tracks_fun_inside T t n n' : tracks T t (true, n) -> tracks T t (true, n') -> n = n'.
Proof. intros [_ (? & _ & _ & H1)] [_ (? & _ & _ & H2)]. cbn [fst snd] in *. lia. Qed.

Lemma sound_at s i t : Forall sound (_threadData (app s)) -> _threadData (app s) !! i = Some t -> sound t.
Proof. intros H Ht. by apply (proj1 (Forall_lookup _ _) H i). Qed.

Lemma begin_count k s s' i now : count_inv k s -> k + 1 < 2 ^ 53 ->
  exec aggregator pid (BeginTask i now) s = Some (Ok s') -> count_inv (k + 1) s'.
Proof.
  intros H Hk E. cbn in E. case_bool_decide as Hg; [|done]. destruct Hg as (Hrun & Hi & Hnow). injection E as E.
  destruct (begin_ pid i now (app s)) as [a|] eqn:Ea; [|done]. injection E as <-.
  destruct (begin_app _ _ _ _ Ea) as (t & t' & Ht & Eb & Hts & Hc & Htot & Hsent). rewrite (ci_cfg _ _ H) in Eb.
  destruct (tracked_at k s i false t H Hrun Hi Ht) as (n & Htr & Hn). pose proof (ci_clock _ _ H) as Hck.
  destruct (begin_sound cfg now t t' (sound_at s i t (ci_sound _ _ H) Ht) Eb) as [Hs Hd].
  apply (task_count k s a _ now i t t' (true, n)); try done.
  - intros Hno. by apply (begin_nothing true cfg now t t' Hno Eb).
  - split; [cbn; lia|]. apply (begin_Ok_inside cfg n (clock s) now t t'); [done|apply Htr|lia|done|lia|done].
  - intros b n' Hb Htr'. rewrite Hi in Hb. injection Hb as <-. cbn. pose proof (tracks_fun_between _ _ _ _ Htr Htr'). lia.
Qed.

Lemma end_count k s s' i now : count_inv k s -> k + 1 < 2 ^ 53 ->
  exec aggregator pid (EndTask i now) s = Some (Ok s') -> count_inv (k + 1) s'.
Proof.
  intros H Hk E. cbn in E. case_bool_decide as Hg; [|done]. destruct Hg as (Hrun & Hi & Hnow). injection E as E.
  unfold end_, at_ in E. destruct (_threadData (app s) !! i) as [t|] eqn:Ht; [|done]. injection E as <-.
  destruct (tracked_at k s i true t H Hrun Hi Ht) as (n & Htr & Hn). pose proof (ci_clock _ _ H) as Hck.
  destruct (end_sound n (clock s) now t) as [Hs Hd]; [apply Htr|lia|lia|lia|apply (sound_at s i t (ci_sound _ _ H) Ht)|].
  destruct (end_fields 1 now t) as (_ & _ & _ & Ec & _).
  apply (task_count k s _ _ now i t (end_thread 1 now t) (false, n + 1)); try done; [by left| | |].
  - assert (Ecs : consolidatedSample (end_thread 1 now t) = consolidatedSample t).
    { unfold end_thread. destruct (decide (currentSample t = 0)); decide_bools; done. }
    unfold nothing_to_take. by rewrite Ec, Ecs.
  - split; [cbn; lia|]. apply (end_inside n (clock s)); [apply Htr|lia|lia|lia].
  - intros b n' Hb Htr'. rewrite Hi in Hb. injection Hb as <-. cbn. pose proof (tracks_fun_inside _ _ _ _ Htr Htr'). lia.
Qed.

Lemma store_tracks T j v t g : tracks T t g -> tracks T (store_custom j v t) g.
Proof.
  intros [Hn Ht]. split; [done|]. destruct (g.1); [|by apply store_between]. destruct Ht as (k & [] & ?). exists k. split; [by constructor|done].
Qed.

Lemma custom_count k s s' i j v : count_inv k s -> exec aggregator pid (Custom i j v) s = Some (Ok s') -> count_inv (k + 1) s'.
Proof.
  intros H E. cbn in E. case_bool_decide as Hrun; [|done]. injection E as E. unfold storeCustomValue, at_ in E.
  case_bool_decide; [done|]. case_bool_decide; [|done]. destruct (_threadData (app s) !! i) as [t|] eqn:Ht; [|done]. injection E as <-.
  change (set_sample _ t) with (store_custom j v t).
  pose proof (sound_at s i t (ci_sound _ _ H) Ht) as Hs. destruct (store_sound j v t Hs) as [Hs' Hd].
  destruct (ci_run _ _ H Hrun) as (gs & Eg & Hgs & Hk). destruct (Forall2_lookup_l _ _ _ _ _ Hgs Ht) as ((b, n) & Ei & Hti).
  assert (Hb : in_task s !! i = Some b) by (by rewrite Eg, list_lookup_fmap, Ei).
  pose proof (ci_clock _ _ H) as Hck.
  apply (task_count k s _ _ (clock s) i t (store_custom j v t) (b, n)); try done; [lia|by left|by rewrite list_insert_id|by apply store_tracks|].
  intros b' n' Hb' Htr'. rewrite Hb in Hb'. injection Hb' as <-. cbn.
  destruct b; [rewrite (tracks_fun_inside _ _ _ _ Hti Htr')|rewrite (tracks_fun_between _ _ _ _ Hti Htr')]; lia.
Qed.

(** An assignment to the other fields of the application. *)
Lemma field_count k s a : count_inv k s -> _configuration a = _configuration (app s) -> _threadData a = _threadData (app s) ->
  _totalTasks a = _totalTasks (app s) -> sent a = sent (app s) -> count_inv (k + 1) (task_step a (in_task s) (clock s) s).
Proof.
  intros [H1 H2 H3 H4 H5 H6 H7 H8 H9 H10 H11] F1 F2 F3 F4.
  constructor; cbn; rewrite ?F1, ?F2, ?F3, ?F4; try done.
  - intros Hrun. destruct (H5 Hrun) as (gs & ? & ? & ?). exists gs. repeat (split; [done|]). lia.
  - intros Hrun. destruct (H7 Hrun). split; [done|lia].
  - unfold reported. cbn. rewrite F4. done.
Qed.

(** ** The steps of the support thread *)
Definition same_tasks (t t' : ThreadData) : Prop := totalTasks t' = totalTasks t /\ forall T g, tracks T t g -> tracks T t' g.

Lemma same_tasks_refl t : same_tasks t t.
Proof. done. Qed.

Lemma ask_same t : same_tasks t (ask_sample t).
Proof.
  split; [done|]. intros T g [Hn Ht]. split; [done|]. destruct (g.1); [|by apply ask_between]. destruct Ht as (k & [] & ?). exists k. split; [by constructor|done].
Qed.

Lemma take_same t : same_tasks t (take_sample t).
Proof.
  split; [done|]. intros T g [Hn Ht]. split; [done|]. destruct (g.1); [|by apply take_between]. destruct Ht as (k & [] & ?). exists k. split; [by constructor|done].
Qed.

Lemma same_tasks_all ts : Forall2 same_tasks ts ts.
Proof. induction ts; by constructor. Qed.

Lemma same_tasks_insert ts i t t' : ts !! i = Some t -> same_tasks t t' -> Forall2 same_tasks ts (<[i := t']> ts).
Proof.
  intros Ht Hs. rewrite <- (list_insert_id ts i t Ht) at 1. apply Forall2_insert; [apply same_tasks_all|done].
Qed.

(** The support thread changes the data of the threads and moves. *)
Lemma support_count k s a pc rs :
  count_inv k s -> _configuration a = _configuration (app s) -> _totalTasks a = _totalTasks (app s) ->
  Forall2 same_tasks (_threadData (app s)) (_threadData a) -> Forall sound (_threadData a) -> clean (running s) pc (_threadData a) ->
  reported (support_step a pc rs s) <= sumZ (delivered_by <$> _threadData a) ->
  (forall i c, pc = Collecting i c -> exact (numTasks (c_sample c))) ->
  Forall (fun m => 0 <= message_tasks m /\ forall x, payload m = PSample x -> exact (numTasks x)) (sent a) ->
  count_inv (k + 1) (support_step a pc rs s).
Proof.
  intros [H1 H2 H3 H4 H5 H6 H7 H8 H9 H10 H11] F1 F2 Hsame Hs Hc Hr Hcol Hsent.
  constructor; cbn; rewrite ?F1, ?F2; try done.
  - intros Hrun. destruct (H5 Hrun) as (gs & ? & Hgs & ?). exists gs. split; [done|]. split; [|lia].
    clear -Hsame Hgs. revert gs Hgs. induction Hsame as [|t t' ts ts' [_ Ht] Hts IH]; intros gs Hgs; [done|].
    apply Forall2_cons_inv_l in Hgs as (g & gs' & Hg & Hgs & ->). constructor; auto.
  - intros Hrun. destruct (H7 Hrun) as [E1 E2]. split; [|lia]. rewrite E1. clear -Hsame.
    unfold sumZ. induction Hsame as [|t t' ts ts' [Ht _] Hts IH]; cbn in *; [done|]. by rewrite Ht, IH.
Qed.

Lemma average_tasks a c r : numTasks (average a c r) = numTasks r.
Proof. unfold average. by destruct (_ || _). Qed.

Lemma adjust_tasks a c r : adjust_throughput a c = Ok r -> numTasks r = numTasks (c_sample c).
Proof. unfold adjust_throughput. destruct (_ && _); [destruct (negb _); [done|]|]; intros E; by injection E as <-. Qed.

Lemma response_tasks a c m : response aggregator a c = Ok m -> exists x, payload m = PSample x /\ numTasks x = numTasks (c_sample c).
Proof.
  unfold response. intros E. apply bind_Ok in E as (r & E & E'). injection E' as <-. eexists. split; [done|]. cbn.
  destruct (bool_decide _); [|destruct (negb _); [done|by injection E as <-]].
  apply bind_Ok in E as (r' & E & E'). injection E' as <-. by rewrite average_tasks, (adjust_tasks _ _ _ E).
Qed.

Lemma clean_moves b pc pc' ts : clean b pc ts ->
  (forall j t, ts !! j = Some t ->
     match pc' with AtLoop | InRecv => True | Asking i => (i <= j)%nat | Collecting i _ => (j < i)%nat | Finished => False end ->
     match pc with AtLoop | InRecv => True | Asking i => (i <= j)%nat | Collecting i _ => (j < i)%nat | Finished => False end) ->
  clean b pc' ts.
Proof. intros Hc Himp j t Et Hj. apply (Hc j t Et). by apply (Himp j t). Qed.

Lemma ask_count k s i t : count_inv k s -> support s = Asking i -> _threadData (app s) !! i = Some t ->
  count_inv (k + 1) (support_step (set_threadData (<[i := ask_sample t]> (_threadData (app s))) (app s)) (Asking (Datatypes.S i)) (requests s) s).
Proof.
  intros H Ep Et. pose proof (ci_clean _ _ H) as Hcl. rewrite Ep in Hcl.
  destruct (ask_sound (running s) t) as [Hs Hd]; [apply (Hcl i t Et); lia|by apply (sound_at s i t (ci_sound _ _ H))|].
  apply support_count; cbn; try done.
  - by apply (same_tasks_insert _ i t), ask_same.
  - apply Forall_insert; [apply (ci_sound _ _ H)|done].
  - intros j u Eu Hj. rewrite list_lookup_insert_ne in Eu by lia. apply (Hcl j u Eu). lia.
  - rewrite (delivered_insert _ _ t _ 0) by (done || lia). pose proof (ci_reported _ _ H) as Hr. unfold reported in *. rewrite Ep in Hr. cbn in *. lia.
  - apply (ci_sent _ _ H).
Qed.

Lemma collect_count k s i c t t' c' : count_inv k s -> k + 1 < 2 ^ 53 -> protocol_inv pid s -> support s = Collecting i c ->
  _threadData (app s) !! i = Some t -> keepWaitingSample (app s) t = false -> collect t c = (t', c') ->
  count_inv (k + 1) (support_step (set_threadData (<[i := t']> (_threadData (app s))) (app s)) (Collecting (Datatypes.S i) c') (requests s) s).
Proof.
  intros H Hk Hp Ep Et Ek Ec. pose proof (ci_clean _ _ H) as Hcl. rewrite Ep in Hcl. pose proof (sound_at s i t (ci_sound _ _ H) Et) as Ht.
  pose proof (ci_collect _ _ H i c Ep) as Hexc. pose proof (ci_reported _ _ H) as Hr. unfold reported in Hr. rewrite Ep in Hr. cbn [collecting_tasks] in Hr.
  unfold collect in Ec. destruct (consolidate t) eqn:Eco; cbn [negb] in Ec; injection Ec as <- <-.
  - assert (Hrun : running s = false).
    { unfold running. unfold keepWaitingSample in Ek. rewrite Eco, (pi_stop _ _ Hp) in Ek. by rewrite negb_involutive in Ek. }
    rewrite list_insert_id by done. apply support_count; cbn; try done; [apply same_tasks_all|apply (ci_sound _ _ H)| | |apply (ci_sent _ _ H)].
    + intros j u Eu Hj. destruct (decide (j = i)) as [->|Hne]; [|apply (Hcl j u Eu); lia]. rewrite Et in Eu. injection Eu as <-.
      split; [by apply (so_asked _ Ht)|]. by rewrite Hrun.
    + intros i' c'' E. by injection E as _ <-.
  - destruct (take_sound t Ht) as [Hs Hd].
    assert (Hs' : Forall sound (<[i := take_sample t]> (_threadData (app s)))) by (apply Forall_insert; [apply (ci_sound _ _ H)|done]).
    pose proof (delivered_total _ Hs') as Hle. rewrite (delivered_insert _ _ t _ _ Et Hd) in Hle.
    assert (Htot : sumZ (totalTasks <$> <[i := take_sample t]> (_threadData (app s))) = sumZ (totalTasks <$> _threadData (app s))).
    { rewrite (sumZ_insert totalTasks _ i t _ Et). cbn. lia. }
    pose proof (total_bound _ _ H) as Hb.
    assert (Hpos : 0 <= sumZ (sample_tasks <$> received s) /\ 0 <= sumZ (message_tasks <$> sent (app s))).
    { split; apply sumZ_nonneg; [pose proof (ci_received _ _ H) as Hx|pose proof (ci_sent _ _ H) as Hx]; (eapply Forall_impl; [exact Hx|]).
      - intros x [_ Hx0]. apply Hx0.
      - intros m Hm. apply Hm. }
    destruct (exact_add _ _ Hexc (so_cons _ Ht)) as [Hex Hsum]; [change (dint (numTasks (c_sample c))) with (sample_tasks (c_sample c)); lia|].
    apply support_count; cbn; try done.
    + by apply (same_tasks_insert _ i t), take_same.
    + intros j u Eu Hj. destruct (decide (j = i)) as [->|Hne].
      * rewrite list_lookup_insert_eq in Eu by (by eapply lookup_lt_Some). injection Eu as <-. split; [done|]. by rewrite <- Eco.
      * rewrite list_lookup_insert_ne in Eu by done. apply (Hcl j u Eu). lia.
    + rewrite (delivered_insert _ _ t _ _ Et Hd). unfold reported. cbn [support_step app received support collecting_tasks set_threadData sent].
      assert (Hadd : sample_tasks (c_sample (add_sample t c)) = sample_tasks (c_sample c) + dint (numTasks (consolidatedSample t))).
      { unfold sample_tasks at 2. rewrite <- Hsum. unfold sample_tasks. cbn -[dint dadd]. by destruct (inconsistent (consolidatedSample t)). }
      lia.
    + intros i' c'' E. injection E as _ <-. cbn -[dadd]. by destruct (inconsistent (consolidatedSample t)).
    + apply (ci_sent _ _ H).
Qed.

Lemma respond_count k s i c m : count_inv k s -> support s = Collecting i c -> _threadData (app s) !! i = None ->
  response aggregator (app s) c = Ok m ->
  count_inv (k + 1) (support_step (if negb (_supportStop (app s)) then send m (app s) else app s) AtLoop (requests s) s).
Proof.
  intros H Ep Et Em. destruct (response_tasks _ _ _ Em) as (x & Ex & Hx). pose proof (ci_collect _ _ H i c Ep) as Hexc.
  pose proof (ci_reported _ _ H) as Hr. unfold reported in Hr. rewrite Ep in Hr. cbn [collecting_tasks] in Hr. unfold sample_tasks at 2 in Hr.
  pose proof (ci_clean _ _ H) as Hcl. rewrite Ep in Hcl.
  assert (Hmt : message_tasks m = dint (numTasks (c_sample c))) by (unfold message_tasks, sample_tasks; by rewrite Ex, Hx).
  assert (Hth : _threadData (if negb (_supportStop (app s)) then send m (app s) else app s) = _threadData (app s)) by (by destruct (negb _)).
  apply support_count; rewrite ?Hth; try done; try (by destruct (negb _)).
  - apply same_tasks_all.
  - apply (ci_sound _ _ H).
  - apply (clean_moves _ (Collecting i c)); [done|]. intros j t Ej _. apply lookup_lt_Some in Ej. apply lookup_ge_None in Et. lia.
  - unfold reported. cbn [support_step app received support collecting_tasks]. destruct Hexc. destruct (negb _); cbn [send sent]; [|lia].
    rewrite fmap_app, sumZ_app. change (sumZ (message_tasks <$> [m])) with (message_tasks m + 0). lia.
  - pose proof (ci_sent _ _ H) as Hs. destruct (negb _); [|done]. cbn. apply Forall_app. split; [done|]. apply Forall_singleton.
    rewrite Hmt. split; [apply Hexc|]. intros y Ey. rewrite Ex in Ey. injection Ey as <-. by rewrite Hx.
Qed.

Lemma support_exec_count k s s' : count_inv k s -> k + 1 < 2 ^ 53 -> protocol_inv pid s -> support_exec aggregator s = Some (Ok s') -> count_inv (k + 1) s'.
Proof.
  intros H Hk Hp E. pose proof (ci_clean _ _ H) as Hcl. pose proof (ci_reported _ _ H) as Hr. unfold reported in Hr.
  unfold support_exec in E. destruct (support s) as [| |i|i c|] eqn:Ep; [| | | |done].
  - injection E as <-. apply support_count; try done; [apply same_tasks_all|apply (ci_sound _ _ H)| | |by destruct (_supportStop (app s))|apply (ci_sent _ _ H)].
    + apply (clean_moves _ AtLoop); [done|]. by destruct (_supportStop (app s)).
    + unfold reported. cbn. by destruct (_supportStop (app s)).
  - destruct (requests s) as [|m rs]; [done|]. injection E as E. inv_ok.
    apply support_count; try done; [apply same_tasks_all|apply (ci_sound _ _ H)|by apply (clean_moves _ InRecv)|apply (ci_sent _ _ H)].
  - destruct (_threadData (app s) !! i) as [t|] eqn:Et; injection E as <-; [by apply ask_count|].
    apply support_count; try done; [apply same_tasks_all|apply (ci_sound _ _ H)| | |apply (ci_sent _ _ H)].
    + apply (clean_moves _ (Asking i)); [done|]. lia.
    + intros i' c E. by injection E as _ <-.
  - destruct (_threadData (app s) !! i) as [t|] eqn:Et.
    + destruct (keepWaitingSample (app s) t) eqn:Ek; [done|]. destruct (collect t c) as [t' c'] eqn:Ec. injection E as <-.
      by apply (collect_count k s i c t).
    + injection E as E. destruct (response aggregator (app s) c) as [m|] eqn:Em; [|done]. injection E as <-. by apply (respond_count k s i c).
Qed.

(** ** The steps of [terminate] *)
Definition settle (t : ThreadData) : ThreadData := set_totalTasks (u64 (totalTasks t + currentSample t)) t.

Lemma sum_threads_settle ts tasks fb le : fst (sum_threads ts tasks fb le) = settle <$> ts.
Proof.
  revert tasks fb le. induction ts as [|t ts IH]; intros tasks fb le; [done|]. cbn.
  match goal with |- context [sum_threads ts ?x ?y ?z] => specialize (IH x y z); destruct (sum_threads ts x y z) end.
  cbn in *. by rewrite IH.
Qed.

Lemma settle_sound n T t : between n T t -> n < 2 ^ 53 -> sound t ->
  sound (settle t) /\ delivered_by t <= delivered_by (settle t) /\ totalTasks (settle t) = counted t.
Proof.
  intros (k & [] & Hc & _) Hn [Hs Hcs Hd Ha]. unfold counted in *. unfold settle. rewrite wrap_small by (unfold in_range; lia).
  assert (Hd' : delivered_by (set_totalTasks (totalTasks t + currentSample t) t) = delivered_by t + currentSample t).
  { unfold delivered_by. cbn -[dint]. lia. }
  split; [|split; [lia|done]]. constructor; try done. lia.
Qed.

(** Between two tasks, the pending tasks of a sampling period are settled. *)
Definition settled (t : ThreadData) (g : bool * Z) : Prop :=
  counted t = g.2 /\ 0 <= g.2 /\ sound (settle t) /\ delivered_by t <= delivered_by (settle t) /\ totalTasks (settle t) = counted t.

Lemma settled_all T k ts gs : Forall2 (tracks T) ts gs -> Forall sound ts -> sumZ gs.*2 <= k -> k < 2 ^ 53 -> forallb negb gs.*1 = true ->
  Forall2 settled ts gs.
Proof.
  intros Hgs Hs Hsum Hk Hout.
  assert (Hpos : Forall (fun g : bool * Z => 0 <= g.2) gs) by (clear -Hgs; induction Hgs as [|? ? ? ? []]; by constructor).
  apply Forall2_same_length_lookup. split; [by eapply Forall2_length|]. intros i t g Et Ei.
  destruct (proj1 (Forall2_same_length_lookup _ _ _) Hgs) as [_ Hl]. destruct (Hl i t g Et Ei) as [Hg0 Hb].
  pose proof (sumZ_elem snd gs i g Hpos Ei) as Hel. assert (Hf : g.1 = false).
  { apply negb_true_iff. rewrite forallb_forall in Hout. apply Hout. apply list_elem_of_In, (list_elem_of_lookup_2 _ i). by rewrite list_lookup_fmap, Ei. }
  rewrite Hf in Hb. destruct (settle_sound g.2 T t Hb) as (? & ? & ?); [lia|by apply (proj1 (Forall_lookup _ _) Hs i)|].
  by destruct Hb as (? & _ & ? & _).
Qed.

Lemma settled_sums ts gs : Forall2 settled ts gs ->
  Forall (fun t => 0 <= counted t) ts /\ Forall sound (settle <$> ts) /\ sumZ (counted <$> ts) = sumZ gs.*2 /\
  sumZ (totalTasks <$> (settle <$> ts)) = sumZ gs.*2 /\ sumZ (delivered_by <$> ts) <= sumZ (delivered_by <$> (settle <$> ts)).
Proof.
  induction 1 as [|t g ts gs (Hc & Hg & Hs & Hd & Ht) Hts (IH1 & IH2 & IH3 & IH4 & IH5)]; [by repeat constructor|].
  repeat split; [constructor; [lia|done]|by constructor|change (counted t + sumZ (counted <$> ts) = g.2 + sumZ gs.*2)
    |change (totalTasks (settle t) + sumZ (totalTasks <$> (settle <$> ts)) = g.2 + sumZ gs.*2)
    |change (delivered_by t + sumZ (delivered_by <$> ts) <= delivered_by (settle t) + sumZ (delivered_by <$> (settle <$> ts)))]; lia.
Qed.

Lemma terminate_count k s a : count_inv k s -> k + 1 < 2 ^ 53 -> main s = Running -> forallb negb (in_task s) = true ->
  (support s <> Finished) -> terminate_sums (app s) = Ok a -> count_inv (k + 1) (main_step a Joining (requests s) s).
Proof.
  intros [H1 H2 H3 H4 H5 H6 _ H8 H9 H10 H11] Hk Hrun Hout Hsup E. destruct (H5 Hrun) as (gs & Eg & Hgs & Hsum). specialize (H6 Hrun).
  rewrite Eg in Hout. destruct (settled_sums _ _ (settled_all _ k _ _ Hgs H3 Hsum ltac:(lia) Hout)) as (Hpos & Hs & Hts & Htot & Hdel).
  unfold terminate_sums in E. pose proof (sum_threads_settle (_threadData (app s)) (_totalTasks (app s)) (2 ^ 64 - 1) 0) as Ef.
  pose proof (sum_threads_spec (_threadData (app s)) (_totalTasks (app s)) (2 ^ 64 - 1) 0 Hpos ltac:(lia) ltac:(lia)) as Es.
  destruct (sum_threads _ _ _ _) as [ts' r]. cbn [fst snd] in *. rewrite Es in E. inv_ok.
  constructor; cbn; try done.
  - intros j u Eu Hj. rewrite list_lookup_fmap in Eu. destruct (_threadData (app s) !! j) as [t|] eqn:Et; [|done]. injection Eu as <-.
    destruct (H4 j t Et Hj) as [Hn _]. by split.
  - intros _. split; lia.
  - unfold reported in *. cbn. lia.
Qed.

Lemma main_exec_count k s s' : count_inv k s -> k + 1 < 2 ^ 53 -> protocol_inv pid s -> main_exec s = Some (Ok s') -> count_inv (k + 1) s'.
Proof.
  intros H Hk Hp E. unfold main_exec in E. destruct (main s) eqn:Em; [| | |done].
  - destruct (forallb negb (in_task s)) eqn:Eo; [|done]. injection E as E. inv_ok. apply terminate_count; try done.
    intros Hf. by apply (pi_finished _ _ Hp).
  - destruct (support s) eqn:Ep; try done. injection E as <-. destruct H as [H1 H2 H3 H4 H5 H6 H7 H8 H9 H10 H11].
    constructor; cbn; try done.
    + intros j t Et. unfold running in *. cbn. rewrite Ep. done.
    + intros _. destruct H7 as [? ?]; [by rewrite Em|]. split; [done|lia].
    + unfold reported in *. cbn in *. rewrite fmap_app, sumZ_app. change (sumZ (message_tasks <$> [stop_message (app s)])) with 0. lia.
    + apply Forall_app. split; [done|]. by apply Forall_singleton.
  - destruct (requests s) as [|m rs]; [done|]. injection E as <-. destruct H as [H1 H2 H3 H4 H5 H6 H7 H8 H9 H10 H11].
    constructor; cbn; try done.
    + intros j t Et Hj. destruct (H4 j t Et Hj) as [Hn _]. split; [done|]. by unfold running.
    + intros _. destruct H7 as [? ?]; [by rewrite Em|]. split; [done|lia].
Qed.

(** ** The steps of the monitor *)
Lemma monitor_exec_count k s s' : count_inv k s -> monitor_exec s = Some (Ok s') -> count_inv (k + 1) s'.
Proof.
  intros H E. assert (Hgen : forall ms rs mon pc got, Forall (fun m => 0 <= message_tasks m /\ forall x, payload m = PSample x -> exact (numTasks x)) ms ->
    Forall (fun x => exact (numTasks x)) got -> sumZ (sample_tasks <$> got) + sumZ (message_tasks <$> ms) <= sumZ (sample_tasks <$> received s) + sumZ (message_tasks <$> sent (app s)) ->
    count_inv (k + 1) (monitor_step (set_sent ms (app s)) rs mon pc got s)).
  { intros ms rs mon pc got Hms Hgot Hle. destruct H as [H1 H2 H3 H4 H5 H6 H7 H8 H9 H10 H11]. constructor; cbn; try done.
    - intros Hrun. destruct (H5 Hrun) as (gs & ? & ? & ?). exists gs. repeat (split; [done|]). lia.
    - intros Hrun. destruct (H7 Hrun). split; [done|lia].
    - unfold reported in *. cbn. lia. }
  pose proof (ci_sent _ _ H) as Hsent. pose proof (ci_received _ _ H) as Hrec.
  unfold monitor_exec in E. destruct (mon_at s); [| | |done].
  - destruct (sent (app s)) as [|m ms] eqn:Es; [done|]. injection E as E. inv_ok. apply Forall_cons in Hsent as [[Hm _] Hms].
    apply Hgen; try done. change (sumZ (message_tasks <$> m :: ms)) with (message_tasks m + sumZ (message_tasks <$> ms)). lia.
  - injection E as <-. assert (Hsame : set_sent (sent (app s)) (app s) = app s) by (by destruct (app s)). rewrite <- Hsame at 1. by apply Hgen.
  - destruct (sent (app s)) as [|m ms] eqn:Es; [done|]. injection E as E. apply Forall_cons in Hsent as [[Hm Hmx] Hms].
    destruct (getSample m (monitor s)) as [[[mon o] acks]|] eqn:Eg; [|done]. cbn in E. injection E as <-. apply Hgen; [done| |].
    + destruct o as [x|]; [|done]. constructor; [|done]. apply Hmx. unfold getSample in Eg.
      destruct (type m), (payload m); try done; by injection Eg as _ -> _.
    + change (sumZ (message_tasks <$> m :: ms)) with (message_tasks m + sumZ (message_tasks <$> ms)). destruct o as [x|]; [|lia].
      change (sumZ (sample_tasks <$> x :: received s)) with (sample_tasks x + sumZ (sample_tasks <$> received s)).
      assert (message_tasks m = sample_tasks x); [|lia]. unfold getSample in Eg. unfold message_tasks.
      destruct (type m), (payload m); try done; by injection Eg as _ -> _.
Qed.

Lemma exec_count x k s s' : count_inv k s -> k + 1 < 2 ^ 53 -> protocol_inv pid s -> exec aggregator pid x s = Some (Ok s') -> count_inv (k + 1) s'.
Proof.
  intros H Hk Hp E. destruct x.
  - by apply (begin_count k s s' i now).
  - by apply (end_count k s s' i now).
  - by apply (custom_count k s s' i index value).
  - injection E as <-. by apply field_count.
  - injection E as <-. by apply field_count.
  - by apply (support_exec_count k s).
  - by apply (main_exec_count k s).
  - by apply (monitor_exec_count k s).
Qed.

(** After [k] steps from the start. *)
Lemma run_count n k s : (0 < n)%nat -> Z.of_nat k < 2 ^ 53 -> nsteps (step aggregator pid) k (initial cfg n) s ->
  count_inv (Z.of_nat k) s /\ protocol_inv pid s.
Proof.
  intros Hn. revert s. induction k as [|k IH]; intros s Hk Hs.
  - inversion Hs; subst. split; [apply initial_count|by apply initial_protocol].
  - apply nsteps_inv_r in Hs as (s1 & Hs1 & [x E]). destruct (IH s1 ltac:(lia) Hs1) as [Hc Hp].
    split; [|by apply (step_protocol aggregator pid s1 s); [exists x|]].
    replace (Z.of_nat (Datatypes.S k)) with (Z.of_nat k + 1) by lia. apply (exec_count x (Z.of_nat k) s1 s); [done|lia|done|done].
Qed.
End System.

(** ** The theorems on the system *)

(** C1. In every execution, the tasks of the samples that the monitor received are
    whole numbers and add up to no more than the tasks the threads ran; and when
    the monitor learnt the end, to no more than the total it was told. *)
Theorem no_task_reported_twice aggregator pid cfg n k s :
  cfg_ok cfg -> (0 < n)%nat -> Z.of_nat k < 2 ^ 53 -> nsteps (step aggregator pid) k (initial cfg n) s ->
  exists ts, numTasks <$> received s = of_Z <$> ts /\ Forall (Z.le 0) ts /\
    sumZ ts <= sumZ (totalTasks <$> _threadData (app s)) /\ (mon_at s = Done -> sumZ ts <= m_totalTasks (monitor s)).
Proof.
  intros Hcfg Hn Hk Hs. destruct (run_count aggregator pid cfg Hcfg n k s Hn Hk Hs) as [H Hp].
  exists (sample_tasks <$> received s). pose proof (ci_received _ _ _ H) as Hr. pose proof (ci_sent _ _ _ H) as Hsent.
  assert (Hle : sumZ (sample_tasks <$> received s) <= sumZ (totalTasks <$> _threadData (app s))).
  { pose proof (ci_reported _ _ _ H) as Hrep. pose proof (delivered_total _ (ci_sound _ _ _ H)) as Hd. unfold reported in Hrep.
    assert (0 <= sumZ (message_tasks <$> sent (app s))) by (apply sumZ_nonneg; eapply Forall_impl; [exact Hsent|]; intros m Hm; apply Hm).
    assert (0 <= collecting_tasks (support s)) by (destruct (support s) as [| | |i c|] eqn:Ep; try done; destruct (ci_collect _ _ _ H i c Ep) as [_ Hc]; apply Hc). lia. }
  split; [|split; [|split; [done|]]].
  - rewrite <- list_fmap_compose. apply list_fmap_ext. intros i x Ex. cbn. by apply (proj1 (Forall_lookup _ _) Hr i x Ex).
  - apply Forall_fmap. eapply Forall_impl; [exact Hr|]. intros x [_ Hx]. apply Hx.
  - intros Hd. destruct (pi_done _ _ Hp Hd) as [-> _]. pose proof (pi_channel _ _ Hp) as Hc. unfold channel_ok in Hc. rewrite Hd in Hc.
    destruct Hc as (_ & _ & Hst & _). destruct (ci_total _ _ _ H) as [-> _]; [|done]. intros Hm. unfold stopping in Hst. by rewrite Hm in Hst.
Qed.

(** C4. In every reachable state, the support thread never fails (its assertion on the
    request and its exceptions are unreachable), and the monitor never receives an
    unexpected message, except for an application that terminated before its
    first [begin]. *)
Theorem protocol_never_fails aggregator pid cfg n s f :
  (0 < n)%nat -> reachable aggregator pid cfg n s ->
  exec aggregator pid SupportThread s <> Some (Err f) /\
  (exec aggregator pid TheMonitor s = Some (Err f) -> never_started s).
Proof.
  intros Hn Hr. pose proof (reachable_protocol aggregator pid cfg n s Hn Hr) as Hp. split.
  - by apply (support_never_fails aggregator pid).
  - by apply (monitor_fails pid).
Qed.

