(* ===== verification/Session.v ===== *)
(** * Samples of several threads, and sessions of riff

    What a response carries when every thread stored its sample; concrete
    sessions of an application and its monitor; and the corner cases in which
    the library does not do what its comments say. *)

From S2P Require Import Prelude Double Sample Sampling Counting Monitor MonitorSafe Accounting.
Local Open Scope Z_scope.

(** ** The response to a request *)
Section Response.
  Context (aggregator : option (nat -> list double -> double)).

(** The collection of a list of threads. *)
Definition collect_all (ts : list ThreadData) (c : collection) : collection := foldl (fun c t => snd (collect t c)) c ts.

Definition dsum (xs : list double) (x : double) : double := foldl dadd x xs.

(** The samples of the threads, and those that are consistent. *)
Definition stored (ts : list ThreadData) : list ApplicationSample := consolidatedSample <$> ts.
Definition consistent (ts : list ThreadData) : list ApplicationSample := filter (fun s => inconsistent s = false) (stored ts).

(** The values that the threads stored in custom field [j]. *)
Definition column (j : nat) (ts : list ThreadData) : list double := (fun s => default dzero (customFields s !! j)) <$> stored ts.

Lemma collect_all_fields ts c : Forall (fun t => consolidate t = false) ts ->
  let c' := collect_all ts c in
  inconsistent (c_sample c') = inconsistent (c_sample c) /\
  throughput (c_sample c') = dsum (throughput <$> stored ts) (throughput (c_sample c)) /\
  numTasks (c_sample c') = dsum (numTasks <$> stored ts) (numTasks (c_sample c)) /\
  loadPercentage (c_sample c') = dsum (loadPercentage <$> consistent ts) (loadPercentage (c_sample c)) /\
  latency (c_sample c') = dsum ((fun s => ddiv (latency s) (numTasks s)) <$> consistent ts) (latency (c_sample c)) /\
  updatedSamples c' = (updatedSamples c + length ts)%nat /\
  (updatedSamples c' + inconsistentSamples c = updatedSamples c + inconsistentSamples c' + length (consistent ts))%nat.
Proof.
  revert c. induction ts as [|t ts IH]; intros c Hts; [cbn; repeat (split; [done|]); lia|].
  apply Forall_cons in Hts as [Ht Hts]. change (collect_all (t :: ts) c) with (collect_all ts (snd (collect t c))).
  assert (Hcol : snd (collect t c) = add_sample t c) by (unfold collect; by rewrite Ht). rewrite Hcol.
  destruct (IH (add_sample t c) Hts) as (E1 & E2 & E3 & E4 & E5 & E6 & E7). cbn zeta. rewrite E1, E2, E3, E4, E5, E6.
  unfold consistent in *. change (stored (t :: ts)) with (consolidatedSample t :: stored ts). rewrite filter_cons.
  destruct (inconsistent (consolidatedSample t)) eqn:Ei; [rewrite decide_False by congruence|rewrite decide_True by done];
    cbn [add_sample c_sample updatedSamples inconsistentSamples] in *; rewrite Ei in *; cbn; repeat (split; [done|]); cbn in *; lia.
Qed.

Lemma collect_all_columns ts c : Forall (fun t => consolidate t = false /\ wf_sample (consolidatedSample t)) ts ->
  length (customVec c) = RIFF_MAX_CUSTOM_FIELDS ->
  length (customVec (collect_all ts c)) = RIFF_MAX_CUSTOM_FIELDS /\
  forall j v, customVec c !! j = Some v -> customVec (collect_all ts c) !! j = Some (v ++ column j ts).
Proof.
  unfold collect_all, column, stored. revert c. induction ts as [|t ts IH]; intros c Hts Hl; cbn; [split; [done|]; intros j v; by rewrite app_nil_r|].
  apply Forall_cons in Hts as [[Ht Hw] Hts]. unfold collect at 2 4. rewrite Ht. cbn [negb snd].
  unfold wf_sample in Hw. destruct (IH (add_sample t c) Hts) as [IH1 IH2]; [cbn; rewrite length_zip_with; lia|]. split; [done|].
  intros j v Hj. assert (Hjl : (j < length (customFields (consolidatedSample t)))%nat) by (apply lookup_lt_Some in Hj; lia).
  destruct (lookup_lt_is_Some_2 _ _ Hjl) as [x Ex]. rewrite (IH2 j (v ++ [x])).
  - by rewrite <- app_assoc, Ex.
  - cbn. rewrite lookup_zip_with, Hj, Ex. done.
Qed.

(** C7. When every thread stored its sample, the response adds up throughput and tasks
    of all of them, averages load and latency over the consistent ones, is
    inconsistent exactly when none is consistent or the user said so, and carries
    the custom values of all threads to the aggregator in the order of the
    threads. *)
Theorem response_of_all_threads a ts :
  ts <> [] -> length (_threadData a) = length ts ->
  Forall (fun t => consolidate t = false /\ wf_sample (consolidatedSample t)) ts ->
  exists m x, response aggregator a (collect_all ts new_collection) = Ok m /\
    type m = MESSAGE_TYPE_SAMPLE_RES /\ payload m = PSample x /\ phaseId m = Some (_phaseId a) /\ totalThreads m = Some (_totalThreads a) /\
    throughput x = dsum (throughput <$> stored ts) dzero /\
    numTasks x = dsum (numTasks <$> stored ts) dzero /\
    inconsistent x = bool_decide (consistent ts = []) || _inconsistentSample a /\
    (inconsistent x = false ->
       loadPercentage x = ddiv (dsum (loadPercentage <$> consistent ts) dzero) (of_Z (Z.of_nat (length (consistent ts)))) /\
       latency x = ddiv (dsum ((fun s => ddiv (latency s) (numTasks s)) <$> consistent ts) dzero) (of_Z (Z.of_nat (length (consistent ts))))) /\
    forall j, (j < RIFF_MAX_CUSTOM_FIELDS)%nat ->
      customFields x !! j = Some (match aggregator with Some f => f j (column j ts) | None => default dzero (head (column j ts)) end).
Proof.
  intros Hne Hl Hts.
  assert (Hflag : Forall (fun t => consolidate t = false) ts) by (eapply Forall_impl; [exact Hts|]; naive_solver).
  destruct (collect_all_fields ts new_collection Hflag) as (E1 & E2 & E3 & E4 & E5 & E6 & E7).
  destruct (collect_all_columns ts new_collection Hts ltac:(done)) as [Hlen Hcol].
  set (c := collect_all ts new_collection) in *. cbn [new_collection c_sample updatedSamples inconsistentSamples] in *.
  assert (Hu : updatedSamples c = length (_threadData a)) by lia.
  assert (Hu0 : updatedSamples c <> 0%nat) by (rewrite Hu, Hl; by destruct ts).
  assert (Hcons : inconsistentSamples c = updatedSamples c <-> consistent ts = []).
  { rewrite <- length_zero_iff_nil. lia. }
  assert (Hadj : adjust_throughput a c = Ok (c_sample c)).
  { unfold adjust_throughput. by rewrite (bool_decide_false (updatedSamples c <> length _)), andb_false_r by naive_solver. }
  unfold response. rewrite (bool_decide_true (updatedSamples c <> 0%nat)), Hadj by done. cbn [mbind result_bind].
  eexists _, _. split; [done|]. split; [done|]. split; [done|]. split; [done|]. split; [done|].
  assert (Hn : Z.of_nat (updatedSamples c) - Z.of_nat (inconsistentSamples c) = Z.of_nat (length (consistent ts))) by lia.
  assert (Hinc : bool_decide (inconsistentSamples c = updatedSamples c) = bool_decide (consistent ts = [])) by (by apply bool_decide_ext).
  unfold average. rewrite Hinc, Hn. cbn [aggregate_custom set_custom throughput numTasks inconsistent loadPercentage latency customFields].
  destruct (bool_decide (consistent ts = []) || _inconsistentSample a); cbn; rewrite ?E1, ?E2, ?E3, ?E4, ?E5; repeat (split; [done|]).
  all: intros j Hj; assert (Hv : customVec new_collection !! j = Some []) by (by apply lookup_replicate_2).
  all: rewrite list_lookup_imap, (Hcol j [] Hv); cbn; by destruct aggregator, (column j ts).
Qed.
End Response.

(** ** Histories of one thread *)

(** Tasks of 0.9 ms, one every millisecond. *)
Definition task (i : Z) : thread_event := Task (1 + i * 1000000) (900001 + i * 1000000).
Definition tasks (n : nat) : list thread_event := task <$> seqZ 0 (Z.of_nat n).

Definition unsampled_configuration : ApplicationConfiguration :=
  {| samplingLengthMs := dzero; adjustThroughput := true; consistencyThreshold := of_Z 5 |}.

(** Evaluates the clock of a concrete history. *)
Ltac clock_runs := vm_compute; repeat split; try discriminate.

Definition final (r : result ThreadData) : ThreadData := match r with Ok t => t | Err _ => new_ThreadData end.

Lemma updateSamplingLength_covers_witness :
  updateSamplingLength default_configuration 10 9000000 = Ok 12 /\ covers 12 900000 (dval (of_Z 10)).
Proof.
  destruct (updateSamplingLength_covers default_configuration 10 9000000) as (_ & _ & H);
    [exact default_cfg_ok|reflexivity|lia|lia|]. destruct (H ltac:(lia) ltac:(reflexivity)) as (l & E & _ & Hc).
  assert (El : l = 12) by (vm_compute in E; congruence). subst l. split; [exact E|exact Hc].
Defined.

Lemma sampling_loses_no_task_witness :
  exists t, run_thread default_configuration (tasks 25) new_ThreadData = Ok t /\ totalTasks t + currentSample t = 25 /\
    samplingLength t = 10 /\ totalTasks t < 25.
Proof.
  destruct (sampling_loses_no_task default_configuration (tasks 25)) as [E|(t & E & Hc & _)];
    [exact default_cfg_ok|reflexivity|clock_runs|clock_runs|vm_compute in E; discriminate|].
  exists t. split; [exact E|]. split; [exact Hc|]. assert (Et : t = final (run_thread default_configuration (tasks 25) new_ThreadData)) by (rewrite E; reflexivity).
  rewrite Et. vm_compute. split; reflexivity.
Defined.

(** Without sampling: two tasks, a request, one more task. *)
Definition asked_history : list thread_event := [task 0; task 1; AskSample; task 2].

Lemma unsampled_is_exact_witness :
  exists t, run_thread unsampled_configuration asked_history new_ThreadData = Ok t /\ totalTasks t = 3 /\
    delivered (Some (2, 1800000, 2000000)) (consolidatedSample t).
Proof.
  destruct (unsampled_is_exact unsampled_configuration asked_history) as (t & E & Ht & _ & _ & _ & _ & Hd);
    [split; reflexivity|clock_runs|clock_runs|]. exists t. split; [exact E|]. split; [exact Ht|]. exact Hd.
Defined.

Lemma counter_is_modulo_witness :
  let t := final (run_thread default_configuration (tasks 25) new_ThreadData) in currentSample (count t) = (currentSample t + 1) mod 10.
Proof.
  exact (counter_is_modulo default_configuration (tasks 25) (final (run_thread default_configuration (tasks 25) new_ThreadData))
           default_good ltac:(clock_runs) ltac:(clock_runs) ltac:(vm_compute; reflexivity)).
Defined.

(** A request after 25 tasks, with custom values stored before and after it: a
    task among the next ten hands the sample over. *)
Lemma sample_within_a_period_witness :
  let t := final (run_thread default_configuration (tasks 25) new_ThreadData) in
  exists es1 tb te es2 t0 t1, StoreCustom 3 (of_Z 7) :: (task <$> seqZ 25 10) = es1 ++ Task tb te :: es2 /\ tasks_of es1 < 10 /\
    run_thread default_configuration (AskSample :: es1) t = Ok t0 /\
    begin_thread default_configuration tb t0 = Ok t1 /\ hands_over default_configuration tb t0 t1.
Proof.
  destruct (sample_within_a_period default_configuration (tasks 25) (StoreCustom 3 (of_Z 7) :: (task <$> seqZ 25 10))
              (final (run_thread default_configuration (tasks 25) new_ThreadData))) as [E|H];
    [exact default_cfg_ok|reflexivity|vm_compute; reflexivity|clock_runs|clock_runs|vm_compute; discriminate|vm_compute in E; discriminate|].
  cbn zeta. destruct H as (es1 & tb & te & es2 & t0 & t1 & E & Hl & H). exists es1, tb, te, es2, t0, t1.
  split; [exact E|]. split; [|exact H]. vm_compute in Hl. exact Hl.
Defined.

(** ** The end of an application *)

(** An application of one thread after some tasks. *)
Definition application_after (cfg : ApplicationConfiguration) (es : list (list thread_event)) : Application :=
  set_threadData ((fun es => final (run_thread cfg es new_ThreadData)) <$> es) (setConfiguration cfg (new_Application (length es))).

(** Two threads, of 21 and 11 tasks of which each recorded the last one: 20.9 ms. *)
Lemma terminate_counts_every_task_witness :
  exists a', terminate_sums (application_after default_configuration [tasks 21; tasks 11]) = Ok a' /\ getTotalTasks a' = 32 /\ getExecutionTime a' = 20.
Proof.
  destruct (terminate_counts_every_task [tasks 21; tasks 11] (application_after default_configuration [tasks 21; tasks 11]))
    as (a' & E & _ & Ht & Hx);
    [exact default_good| |intros E; vm_compute in E; discriminate|reflexivity|vm_compute; reflexivity|].
  - change (Forall2 (after default_configuration) [tasks 21; tasks 11]
            [final (run_thread default_configuration (tasks 21) new_ThreadData); final (run_thread default_configuration (tasks 11) new_ThreadData)]).
    constructor; [|constructor; [|constructor]]; (split; [clock_runs|split; [clock_runs|vm_compute; reflexivity]]).
  - exists a'. split; [exact E|]. split; [exact Ht|]. apply (Hx 1 20900001).
    + repeat constructor; vm_compute; reflexivity.
    + repeat constructor; vm_compute; reflexivity.
    + split; [left|repeat constructor; vm_compute; discriminate].
    + split; [left|repeat constructor; vm_compute; discriminate].
    + reflexivity.
Defined.

Lemma clock_is_exact_witness : getCurrentTimeNs 86400 123456789 = Ok 86400123456789.
Proof. exact (clock_is_exact 86400 123456789 ltac:(lia) ltac:(lia) ltac:(lia)). Defined.

(** With two threads of which one never called [begin], the execution time
    is counted from the origin of the clock: here one second of uptime, for
    half a millisecond of work. *)
Example execution_time_of_idle_thread :
  getExecutionTime <$> terminate_sums (application_after unsampled_configuration [[Task 1000000000 1000500000]; []]) = Ok 1000.
Proof. vm_compute. reflexivity. Qed.

(** The end of the execution is the last recorded [end], not the last one. *)
Example execution_ends_early : lastEnd (final (run_thread default_configuration (tasks 25) new_ThreadData)) = 20900001.
Proof. vm_compute. reflexivity. Qed.

(** Two tasks per [end], without sampling: the estimate doubles the latency, and
    the consistency check throws. *)
Example weight_is_inconsistent :
  (t ← begin_thread unsampled_configuration 1 new_ThreadData;
   begin_thread unsampled_configuration 1000001 (ask_sample (end_thread 2 900001 t))) = Err (Thrown FatalInconsistency).
Proof. vm_compute. reflexivity. Qed.

(** Two tasks per [end], with sampling: the skipped calls of the last period are
    counted once each.  20 calls make 40 tasks, of which 21 are reported. *)
Fixpoint run_weighted (w : Z) (es : list thread_event) (t : ThreadData) : result ThreadData :=
  match es with
  | Task tb te :: es => t ← begin_thread default_configuration tb t; run_weighted w es (end_thread w te t)
  | _ => Ok t
  end.

Example weight_is_lost :
  getTotalTasks <$> (t ← run_weighted 2 (tasks 20) new_ThreadData;
                     terminate_sums (set_threadData [t] (new_Application 1))) = Ok 21.
Proof. vm_compute. reflexivity. Qed.

(** ** Sessions of an application of one thread and its monitor *)
Definition run (xs : list actor) : option (result system) := schedule None 4242 xs (initial unsampled_configuration 1).

Definition reached (r : option (result system)) : system :=
  match r with Some (Ok s) => s | _ => initial unsampled_configuration 1 end.

(** A task, the start, a request, a second task while the support thread serves
    the request, the answer, and the end. *)
Definition session : list actor :=
  [BeginTask 0 100; EndTask 0 200; TheMonitor; TheMonitor; SupportThread; SupportThread; SupportThread; SupportThread;
   BeginTask 0 300; EndTask 0 350; SupportThread; SupportThread; TheMonitor; Terminate; SupportThread; Terminate; TheMonitor; TheMonitor].

Lemma no_task_reported_twice_witness :
  let s := reached (run session) in
  mon_at s = Done /\ numTasks <$> received s = [of_Z 1] /\ m_totalTasks (monitor s) = 2 /\
  exists ts, numTasks <$> received s = of_Z <$> ts /\ sumZ ts <= m_totalTasks (monitor s).
Proof.
  cbn zeta. split; [vm_compute; reflexivity|]. split; [vm_compute; reflexivity|]. split; [vm_compute; reflexivity|].
  destruct (no_task_reported_twice None 4242 unsampled_configuration 1 (length session) (reached (run session))) as (ts & H1 & _ & _ & H2);
    [left; reflexivity|lia|vm_compute; reflexivity|apply schedule_nsteps; vm_compute; reflexivity|].
  exists ts. split; [exact H1|]. apply H2. vm_compute. reflexivity.
Defined.

Lemma protocol_never_fails_witness :
  exec None 4242 SupportThread (reached (run (firstn 5 session))) <> Some (Err AssertFailed).
Proof.
  destruct (protocol_never_fails None 4242 unsampled_configuration 1 (reached (run (firstn 5 session))) AssertFailed) as [H _];
    [lia|apply (schedule_reachable None 4242 unsampled_configuration 1 (firstn 5 session)); vm_compute; reflexivity|exact H].
Defined.


Lemma response_of_all_threads_witness :
  let t := final (run_thread unsampled_configuration asked_history new_ThreadData) in
  let a := set_threadData [t; t] (new_Application 2) in
  exists m x, response None a (collect_all [t; t] new_collection) = Ok m /\ payload m = PSample x /\
    numTasks x = of_Z 4 /\ latency x = of_Z 900000 /\ inconsistent x = false.
Proof.
  cbn zeta. set (t := final (run_thread unsampled_configuration asked_history new_ThreadData)).
  destruct (response_of_all_threads None (set_threadData [t; t] (new_Application 2)) [t; t]) as (m & x & E & _ & Ep & _ & _ & _ & Hn & Hi & Hl & _);
    [discriminate|reflexivity|repeat constructor; vm_compute; reflexivity|].
  assert (Hf : inconsistent x = false) by (rewrite Hi; vm_compute; reflexivity). destruct (Hl Hf) as [_ Hlat].
  exists m, x. split; [exact E|]. split; [exact Ep|]. rewrite Hn, Hlat. split; [vm_compute; reflexivity|]. split; [vm_compute; reflexivity|exact Hf].
Defined.

(** ** Corner cases of the termination *)

(** [terminate] takes a request that the support thread did not read for the
    acknowledgement, and returns while STOP is still on its way. *)
Definition early_end : list actor :=
  [BeginTask 0 100; EndTask 0 200; TheMonitor; Terminate; SupportThread; TheMonitor; Terminate; Terminate].

Example request_taken_for_acknowledgement :
  let s := reached (run early_end) in
  run early_end = Some (Ok s) /\ main s = Ended /\ mon_at s = Waiting /\ requests s = [] /\ (type <$> sent (app s)) = [MESSAGE_TYPE_STOP].
Proof. vm_compute. repeat split. Qed.

(** Without a request of the monitor the support thread stays in [recv], and
    [terminate] waits for it. *)
Definition blocked_end : list actor := [BeginTask 0 100; EndTask 0 200; TheMonitor; SupportThread; Terminate].

Example terminate_waits_for_a_request :
  let s := reached (run blocked_end) in
  run blocked_end = Some (Ok s) /\ main s = Joining /\ exec None 4242 SupportThread s = None /\ exec None 4242 Terminate s = None.
Proof. vm_compute. repeat split. Qed.

(** An application that terminates before any [begin] sends STOP to a monitor
    that asserts START. *)
Example end_without_start : run [Terminate; SupportThread; Terminate; TheMonitor] = Some (Err AssertFailed).
Proof. vm_compute. reflexivity. Qed.

(** With no threads the first request is fatal. *)
Example no_threads_is_fatal :
  schedule None 4242 [SupportThread] (support_step (setConfiguration unsampled_configuration (new_Application 0)) (Collecting 0 new_collection) []
    (initial unsampled_configuration 0)) = Some (Err (Thrown FatalNotStopped)).
Proof. vm_compute. reflexivity. Qed.
